(* ===== verification/_CoqProject ===== *)
-Q . S2P
Prelude.v
Lists.v
Page.v
Blocks.v
FreeArea.v
DefaultPmm.v
BestFitPmm.v
SkewHeap.v
ProcStruct.v
SchedClass.v
RoundRobin.v
Sched.v
Timer.v
Lab6Sched.v
Stride.v
Sync.v
CString.v
StateM.v
Layout.v
Bitmap.v
Iobuf.v
Disk0.v
SfsIo.v
SfsBmap.v
SfsFile.v
SfsTrunc.v
SfsDir.v
SfsNode.v
SfsMount.v
Vfs.v
FileTable.v
SfsExample.v
Printf.v
Process.v
ProcFamily.v
ProcExample.v
Vmm.v
SysFile.v
SysFileSpec.v
SysFileRead.v
SysFileExample.v
PageTable.v
PageRange.v
PageCopy.v
PageExit.v
PageFresh.v
PageInsert.v
Memory.v
PageExample.v
Fork.v
ForkMem.v
ForkProc.v
ForkSpec.v
ForkFiles.v
ForkExample.v
Phys.v
Wait.v
Machine.v
MachineRead.v
MachineExample.v
Exec.v
ExecLoad.v
ExecImage.v
ExecSections.v
ExecProgram.v
ExecStart.v
ExecExample.v
Threads.v
Monitor.v
Philosophers.v
KernelThreads.v
KernelExample.v
Buddy.v
BuddySpec.v
BuddyClient.v
Kmalloc.v
KmallocRing.v
KmallocSearch.v
KmallocHeap.v
KmallocSpec.v
