(* ===== verification/Prelude.v ===== *)
(** * A verified model of ucore

    ucore is the teaching kernel of the repository: eight labs, each a directory with a
    version of the same kernel for RISC-V.  lab8 is the complete one and is what is modelled
    here, together with the parts that exist only in an earlier lab: the best-fit and the
    buddy page allocator of lab2_Dou, and the stride, FIFO and shortest-job-first schedulers
    of lab6.  Paths below are relative to src/.

    ** The method

    Every C function is a Coq function with its name.  It works on explicit state (records of
    finite maps from addresses to objects) and returns a [res]: [Ok], [Panic] (a failed
    assert or a call of panic), [Fault] (a pointer that names no object; what C leaves
    undefined) or [Diverge] (a loop that used up its fuel).  A function that returns error
    codes is a function of the monad [M] of StateM.v, which hands back the state also when it
    fails.  Loops are [loop body fuel]: the fuel is computed from the state (the number of
    live list entries, of cells, of mapped bytes, of blocks), and the theorems say [Ok], so
    they include that the fuel is enough; where a C loop may run for ever the theorem says
    what happens then.  Integers are [Z] with [u32], [u64], [i32], [i64] written where the C
    type wraps around.  A property of the program is a theorem with a claim number (C1 ...)
    in its comment; its witness applies it to a concrete state.

    ** The parts

    Shared: this file (outcomes, loops, machine integers), Lists.v (libs/list.h as a heap of
    links; [dll] is the abstract list), StateM.v (the monad of the file system and of
    process management).

    Physical memory.  Page.v (struct Page, flag bits, atomic.h), Blocks.v (abstract free
    lists: the specification), FreeArea.v (the free list of kern/mm/default_pmm.c and the
    interface [PageAllocator]), DefaultPmm.v and BestFitPmm.v (its two instances), Buddy.v,
    BuddySpec.v, BuddyClient.v (lab2_Dou/kern/mm/buddy_pmm.c: code, invariant, clients),
    Kmalloc.v, KmallocRing.v, KmallocSearch.v, KmallocHeap.v, KmallocSpec.v
    (kern/mm/kmalloc.c over any [PageAllocator]: code, the ring as a sorted list, the search,
    the pages, the clients).  Theorems: grants never overlap, nothing is lost, and no call
    fails for a client that stays within what the code serves (where a release or a size
    makes the code fail, an example says so); the search takes the block it promises;
    releases merge.

    Virtual memory.  Vmm.v (areas and access to user memory, kern/mm/vmm.c), PageTable.v,
    PageInsert.v (page_insert, also over a mapped address), PageRange.v, PageCopy.v,
    PageExit.v, PageFresh.v (Sv39 tables over any [PageAllocator], kern/mm/pmm.c), Memory.v
    (dup_mmap, exit_mmap).  [mem_ok], [pt_ok] and [owns] say that frames, tables and
    the allocator agree; the theorems give the virtual memory before and after each
    operation, pointwise.  PageExample.v has the witnesses.

    Scheduling.  ProcStruct.v (struct proc_struct), SkewHeap.v (libs/skew_heap.h, refined to
    trees), SchedClass.v (struct sched_class and the contract every class keeps), RoundRobin.v,
    Lab6Sched.v, Stride.v (its instances), Sched.v (schedule, wakeup_proc), Timer.v (the
    delta queue of kern/schedule/sched.c as absolute expiry times).  Theorems: no process is
    lost or queued twice, no starvation under round robin, strides stay comparable.

    Synchronisation.  Sync.v (kern/sync/wait.c, sem.c on the scheduler: exclusion and
    progress under any interleaving of the atomic parts), Threads.v (programs over abstract
    semaphores), Monitor.v (kern/sync/monitor.c and proof rules for its clients),
    Philosophers.v (kern/sync/check_sync.c), KernelThreads.v (a forward simulation: programs
    on the real semaphores and scheduler behave as in Threads.v) and KernelExample.v (the
    philosophers on that kernel).

    Processes.  Process.v (numbers, the process table, the search of do_wait, do_kill,
    exit_notify of kern/process/proc.c), ProcFamily.v ([family]: the links between parents
    and children as lists), Fork.v (do_fork, do_exit and what they call; the open files through the interface
    [Files]), ForkMem.v, ForkProc.v, ForkSpec.v (what a fork makes), ForkFiles.v (the instance
    of [Files]), ProcExample.v and ForkExample.v (witnesses).  Wait.v (do_wait from the call
    to its return or to schedule(), and from the wake-up on, with the exit code in the
    parent's memory and the kernel stack), with its witness in MachineExample.v.

    The file system.  Layout.v (bytes of the on-disk structures), Bitmap.v, Iobuf.v, Disk0.v
    (driver/ramdisk.c, ide.c, devs/dev_disk0.c and the interface [Device]), SfsIo.v, SfsBmap.v,
    SfsFile.v, SfsTrunc.v, SfsDir.v, SfsNode.v (kern/fs/sfs/sfs_io.c, sfs_lock.c and
    sfs_inode.c in its order), SfsMount.v (sfs_fs.c), Vfs.v (kern/fs/vfs, devs), FileTable.v
    (kern/fs/file.c, fs.c), SfsExample.v (witnesses).  Theorems: what is written is what is
    read, down to the blocks of the device; sizes and block counts; the cache of inodes; what
    a sync leaves is what a mount finds.

    System calls.  SysFile.v (kern/fs/sysfile.c and its rows in kern/syscall/syscall.c, over
    the bytes of user memory), SysFileSpec.v (where they write), SysFileRead.v (what a read
    brings), SysFileExample.v.  Phys.v (the bytes of frames, and the view of a process
    through its page table), Machine.v (a system call of the running process, on the state
    of all of them), MachineRead.v, MachineExample.v.  Theorems: a file system call reaches
    only the frames the process may write; a read arrives in its frames.

    Programs.  Exec.v (load_icode and do_execve of kern/process/proc.c, libs/elf.h, sys_exec),
    ExecLoad.v (load_icode_read, the pages of a segment), ExecImage.v (segments and stack),
    ExecSections.v (the global pointer, from the symbol tables), ExecProgram.v (argc and argv;
    [program]: what a program finds in memory), ExecStart.v (load_icode from the first read
    to the changed trap frame),
    ExecExample.v.  Theorem: loading a file whose parts are inside it succeeds and builds
    what [seg_byte] and [global_pointer] say.

    Libraries.  CString.v (libs/string.c, hash.c), Printf.v (libs/printfmt.c, rand.c).

    ** How the parts meet

    The page tables, the kernel heap and process management use the page allocator through
    [PageAllocator]; first fit and best fit discharge it.  sched.c uses a class through
    [SchedClass].  The file system uses a disk through [Device] and [DeviceLaws]; do_fork and
    do_exit use open files through [Files].  load_icode puts the file system, user memory,
    the page tables and an allocator in [PageAllocator] together.  So every theorem about a
    client holds for every instance, and the examples put instances together.

    ** Bounds and assumptions

    The memory has fewer than 2^32 - 1 pages (2^22 for the heap, the units of which are an
    [int]).  Processes switch only where the code gives up the CPU; a function that runs with
    interrupts off, or that cannot be interrupted by another process because the kernel is
    not preempted, is one step.  KernelThreads.v allows a switch before any statement, which
    is more than the kernel does.  The outcome of kmalloc in the file system and in process
    management is an argument (a list of outcomes, or a bool), since their theorems must hold
    for either; KmallocSpec.v says what kmalloc does.  lock_mm and unlock_mm, whose semaphore
    no other process waits for in these runs, and the TLB have no effect on the state.  The
    theorem about load_icode is for arguments that fit in one page, since the code copies a
    string to the frame of its first byte, and for segments with no page in common, which
    mm_map refuses; a segment may begin inside a page, and the theorem says which bytes the
    code then leaves out.  The theorem about do_wait needs kernel stacks that the allocator
    takes back, as the ones about releases do.  Exec.v and Wait.v have none of these bounds.

    ** Not modelled

    Assembly (entry.S, trapentry.S, switch.S), register and SBI access (riscv.h, sbi.h), the
    console, clock, interrupt and interrupt-controller drivers: no state but the hardware's.
    trap.c: a dispatch on the cause to functions that are modelled.  The rows of syscall.c
    for processes other than exec: they pass their arguments on.  dtb.c: two constants from
    the firmware's blob.
    kern/debug (stab tables, the monitor's command line) and the messages of every function:
    output only.  The self-tests (check_vmm, default_check, buddy_check, ...).  The user
    programs and their library, and tools/ (mksfs, sign): not part of the kernel.
    kern/fs/swap: no caller.  The copies of a file that a lab hands on to the next, which
    have the same text up to what the later lab adds; the version with the most in it is
    modelled.  pmm_init and page_init: a sequence of messages, constants from the device tree
    and calls of the allocator, whose result is the hypothesis of the boot theorems. *)
From Stdlib Require Export ZArith Lia.
From stdpp Require Export base numbers strings gmap.
From stdpp Require Export list.

#[global] Open Scope Z_scope.

(** * Outcomes of C code

    A C function either returns, stops the kernel through [assert] or [panic],
    dereferences a pointer that names no object (what C leaves undefined and the
    hardware traps), or does not return within the fuel a loop was given. *)
Inductive res (A : Type) : Type :=
| Ok (a : A)
| Panic
| Fault
| Diverge.
Arguments Ok {_} _.
Arguments Panic {_}.
Arguments Fault {_}.
Arguments Diverge {_}.

#[export] Instance res_ret : MRet res := fun A a => Ok a.

#[export] Instance res_bind : MBind res := fun A B f m =>
  match m with
  | Ok a => f a
  | Panic => Panic
  | Fault => Fault
  | Diverge => Diverge
  end.

(** [assert(b)] of kern/debug/assert.h. *)
Definition c_assert (b : bool) : res unit := if b then Ok tt else Panic.

(** Reading an object through a map of the live objects. *)
Definition deref `{Countable K} {V} (m : gmap K V) (p : K) : res V :=
  match m !! p with Some v => Ok v | None => Fault end.

(** A C loop: [body] performs one test-and-iterate step and says whether to go
    round again ([inl]) or leave the loop ([inr]). *)
Fixpoint loop {A B} (body : A -> res (A + B)) (fuel : nat) (a : A) : res B :=
  match fuel with
  | O => Diverge
  | S fuel' =>
      match body a with
      | Ok (inl a') => loop body fuel' a'
      | Ok (inr b) => Ok b
      | Panic => Panic
      | Fault => Fault
      | Diverge => Diverge
      end
  end.

Lemma loop_S {A B} (body : A -> res (A + B)) fuel a :
  loop body (S fuel) a =
    match body a with
    | Ok (inl a') => loop body fuel a'
    | Ok (inr b) => Ok b
    | Panic => Panic
    | Fault => Fault
    | Diverge => Diverge
    end.
Proof. done. Qed.

#[global] Arguments loop : simpl never.

(** * Machine integers *)
Definition u16 (z : Z) : Z := z mod 2 ^ 16.
Definition u32 (z : Z) : Z := z mod 2 ^ 32.
Definition u64 (z : Z) : Z := z mod 2 ^ 64.
Definition i32 (z : Z) : Z := (z + 2 ^ 31) mod 2 ^ 32 - 2 ^ 31.
Definition i64 (z : Z) : Z := (z + 2 ^ 63) mod 2 ^ 64 - 2 ^ 63.

(** * Lemmas on outcomes *)
Lemma res_bind_ok {A B} (m : res A) (f : A -> res B) b :
  m ≫= f = Ok b <-> exists a, m = Ok a /\ f a = Ok b.
Proof.
  destruct m; cbn; split; try (intros (?&?&?)); try intros ?; try discriminate; try naive_solver.
Qed.

Lemma deref_some `{Countable K} {V} (m : gmap K V) p v :
  m !! p = Some v -> deref m p = Ok v.
Proof. unfold deref. by intros ->. Qed.

Lemma deref_ok `{Countable K} {V} (m : gmap K V) p v :
  deref m p = Ok v <-> m !! p = Some v.
Proof. unfold deref. destruct (m !! p); naive_solver. Qed.

Lemma c_assert_true b : b = true -> c_assert b = Ok tt.
Proof. by intros ->. Qed.

(** Total correctness of a loop: an invariant whose measure decreases. *)
Lemma loop_total {A B} (body : A -> res (A + B)) (I : A -> Prop) (Q : B -> Prop)
    (m : A -> nat) :
  (forall a, I a ->
     (exists a', body a = Ok (inl a') /\ I a' /\ (m a' < m a)%nat) \/
     (exists b, body a = Ok (inr b) /\ Q b)) ->
  forall fuel a, I a -> (m a < fuel)%nat -> exists b, loop body fuel a = Ok b /\ Q b.
Proof.
  intros Hstep fuel. induction fuel as [|fuel IH]; intros a Ha Hm; [lia|].
  rewrite loop_S. destruct (Hstep a Ha) as [(a' & -> & Ha' & Hlt)|(b & -> & Hb)].
  - apply IH; [done|lia].
  - eauto.
Qed.

(** An outcome that is an answer or a fault: the code neither stops the kernel nor
    runs for ever. *)
Definition ends {A} (r : res A) : Prop := match r with Ok _ | Fault => True | Panic | Diverge => False end.

Lemma ends_bind {A B} (r : res A) (f : A -> res B) : ends r -> (forall a, r = Ok a -> ends (f a)) -> ends (r ≫= f).
Proof. destruct r; cbn; auto. Qed.

Lemma loop_ends {A B} (body : A -> res (A + B)) (I : A -> Prop) (m : A -> nat) :
  (forall a, I a -> ends (body a) /\ forall a', body a = Ok (inl a') -> I a' /\ (m a' < m a)%nat) ->
  forall fuel a, I a -> (m a < fuel)%nat -> ends (loop body fuel a).
Proof.
  intros Hstep fuel. induction fuel as [|fuel IH]; intros a Ha Hm; [lia|].
  rewrite loop_S. destruct (Hstep a Ha) as [He Hn]. destruct (body a) as [[a'|b]| | |]; try done.
  destruct (Hn a' eq_refl). apply IH; [done|lia].
Qed.

(** What holds at the end of a loop that ends. *)
Lemma loop_partial {A B} (body : A -> res (A + B)) (I : A -> Prop) (Q : B -> Prop) :
  (forall a r, I a -> body a = Ok r -> match r with inl a' => I a' | inr b => Q b end) ->
  forall fuel a b, I a -> loop body fuel a = Ok b -> Q b.
Proof.
  intros Hb. induction fuel as [|fuel IH]; intros a b Ha; [done|]. rewrite loop_S. destruct (body a) as [r| | |] eqn:E; try done.
  pose proof (Hb a r Ha E) as Hr. destruct r as [a'|b']; [by apply IH|by intros [= <-]].
Qed.

(** More fuel never changes an answer. *)
Lemma loop_mono {A B} (body : A -> res (A + B)) fuel fuel' a b :
  (fuel <= fuel')%nat -> loop body fuel a = Ok b -> loop body fuel' a = Ok b.
Proof.
  revert fuel' a. induction fuel as [|fuel IH]; intros fuel' a Hle; [done|].
  destruct fuel' as [|fuel']; [lia|]. rewrite !loop_S.
  destruct (body a) as [[a'|b']| | |]; try done. apply IH. lia.
Qed.

(** * Lemmas on lists *)
Lemma last_cons_default {A} (x : A) l d : List.last (x :: l) d = List.last l x.
Proof.
  revert x d. induction l as [|y l IH]; intros x d; [done|].
  change (List.last (y :: l) d = List.last (y :: l) x). by rewrite !IH.
Qed.

Lemma last_app_cons {A} (l1 : list A) x l2 d :
  List.last (l1 ++ x :: l2) d = List.last l2 x.
Proof. revert d. induction l1 as [|y l1 IH]; intros d; cbn [app]; by rewrite last_cons_default. Qed.

(** * Tactics *)

(** Splits a hypothesis [x ← m; k = Ok _] into its steps. *)
Ltac inv_ok :=
  repeat match goal with
  | H : mbind _ _ = Ok _ |- _ => apply res_bind_ok in H as (?&?&?)
  | H : Ok _ = Ok _ |- _ => injection H as H
  | H : (_, _) = (_, _) |- _ => injection H as ? ?
  | H : c_assert ?b = Ok _ |- _ => destruct b eqn:?; cbn in H; [clear H|discriminate H]
  | H : deref _ _ = Ok _ |- _ => apply deref_ok in H
  | H : mret _ = Ok _ |- _ => cbn in H
  end; simplify_eq/=.

(** * Lemmas on machine integers *)
Lemma u32_small z : 0 <= z < 2 ^ 32 -> u32 z = z.
Proof. intros. unfold u32. by rewrite Z.mod_small. Qed.

Lemma u64_small z : 0 <= z < 2 ^ 64 -> u64 z = z.
Proof. intros. unfold u64. by rewrite Z.mod_small. Qed.

Lemma u32_range z : 0 <= u32 z < 2 ^ 32.
Proof. unfold u32. apply Z.mod_pos_bound. lia. Qed.

Lemma u64_range z : 0 <= u64 z < 2 ^ 64.
Proof. unfold u64. apply Z.mod_pos_bound. lia. Qed.

Lemma i32_small z : - 2 ^ 31 <= z < 2 ^ 31 -> i32 z = z.
Proof. intros. unfold i32. rewrite Z.mod_small; lia. Qed.

Lemma i64_small z : - 2 ^ 63 <= z < 2 ^ 63 -> i64 z = z.
Proof. intros. unfold i64. rewrite Z.mod_small; lia. Qed.

Lemma i32_range z : - 2 ^ 31 <= i32 z < 2 ^ 31.
Proof. unfold i32. pose proof (Z.mod_pos_bound (z + 2 ^ 31) (2 ^ 32)). lia. Qed.

Create HintDb ucore.
#[export] Hint Resolve u32_range u64_range i32_range deref_some : ucore.
