(* ===== verification/Lists.v ===== *)
(** The circular doubly linked list of lab8/libs/list.h.

    A list entry lives at an address of type [K]; the links of all live entries
    form a finite map.  Every function of list.h is a state transformer on that
    map that faults on an address naming no entry, written in the source's order
    of assignments, so aliased arguments behave as they do in C.

    [seg] and [dll] relate the links to the abstract sequence of entries; the
    [*_dll] lemmas are what the components that keep such lists (page
    allocators, run queues, timers, wait queues) rely on. *)
From S2P Require Import Prelude.

Record list_entry (K : Type) := ListEntry { prev : K; next : K }.
Arguments ListEntry {_} _ _.
Arguments prev {_} _.
Arguments next {_} _.

Section ops.
Context `{Countable K}.
Abbreviation heap := (gmap K (list_entry K)).

Definition set_next (h : heap) (p v : K) : res heap :=
  e ← deref h p; Ok (<[p := ListEntry (prev e) v]> h).

Definition set_prev (h : heap) (p v : K) : res heap :=
  e ← deref h p; Ok (<[p := ListEntry v (next e)]> h).

Definition list_init (h : heap) (elm : K) : res heap :=
  h ← set_next h elm elm; set_prev h elm elm.

Definition list_next (h : heap) (listelm : K) : res K :=
  e ← deref h listelm; Ok (next e).

Definition list_prev (h : heap) (listelm : K) : res K :=
  e ← deref h listelm; Ok (prev e).

Definition list_empty (h : heap) (list : K) : res bool :=
  n ← list_next h list; Ok (bool_decide (n = list)).

Definition __list_add (h : heap) (elm prev next : K) : res heap :=
  h ← set_prev h next elm;
  h ← set_next h prev elm;
  h ← set_next h elm next;
  set_prev h elm prev.

Definition __list_del (h : heap) (prev next : K) : res heap :=
  h ← set_next h prev next;
  set_prev h next prev.

Definition list_add_after (h : heap) (listelm elm : K) : res heap :=
  n ← list_next h listelm; __list_add h elm listelm n.

Definition list_add_before (h : heap) (listelm elm : K) : res heap :=
  p ← list_prev h listelm; __list_add h elm p listelm.

Definition list_add (h : heap) (listelm elm : K) : res heap :=
  list_add_after h listelm elm.

Definition list_del (h : heap) (listelm : K) : res heap :=
  p ← list_prev h listelm; n ← list_next h listelm; __list_del h p n.

Definition list_del_init (h : heap) (listelm : K) : res heap :=
  h ← list_del h listelm; list_init h listelm.
End ops.

(** * Links as two partial functions *)
Section views.
Context `{Countable K}.
Abbreviation heap := (gmap K (list_entry K)).
Implicit Types (h : heap) (p q x y elm hd : K) (l : list K).

Definition nxt h p : option K := next <$> h !! p.
Definition prv h p : option K := prev <$> h !! p.

Lemma nxt_some h p q : nxt h p = Some q -> is_Some (h !! p).
Proof. unfold nxt. destruct (h !! p); cbn; naive_solver. Qed.

Lemma prv_some h p q : prv h p = Some q -> is_Some (h !! p).
Proof. unfold prv. destruct (h !! p); cbn; naive_solver. Qed.

Lemma list_next_ok h p q : list_next h p = Ok q <-> nxt h p = Some q.
Proof.
  unfold list_next, nxt, deref. destruct (h !! p); cbn; split; congruence.
Qed.

Lemma list_prev_ok h p q : list_prev h p = Ok q <-> prv h p = Some q.
Proof.
  unfold list_prev, prv, deref. destruct (h !! p); cbn; split; congruence.
Qed.

Lemma list_empty_ok h p q : nxt h p = Some q -> list_empty h p = Ok (bool_decide (q = p)).
Proof. intros Hn. unfold list_empty. by rewrite (proj2 (list_next_ok h p q) Hn). Qed.

Lemma set_next_run h p v :
  is_Some (h !! p) ->
  exists h', set_next h p v = Ok h' /\
    (forall x, nxt h' x = if decide (x = p) then Some v else nxt h x) /\
    (forall x, prv h' x = prv h x).
Proof.
  intros [e He]. unfold set_next, deref. rewrite He. eexists; split; [done|].
  unfold nxt, prv.
  split; intros x; destruct (decide (x = p)) as [->|];
    rewrite ?lookup_insert_eq, ?lookup_insert_ne, ?He by done; done.
Qed.

Lemma set_prev_run h p v :
  is_Some (h !! p) ->
  exists h', set_prev h p v = Ok h' /\
    (forall x, prv h' x = if decide (x = p) then Some v else prv h x) /\
    (forall x, nxt h' x = nxt h x).
Proof.
  intros [e He]. unfold set_prev, deref. rewrite He. eexists; split; [done|].
  unfold nxt, prv.
  split; intros x; destruct (decide (x = p)) as [->|];
    rewrite ?lookup_insert_eq, ?lookup_insert_ne, ?He by done; done.
Qed.

Lemma is_some_nxt h p : is_Some (h !! p) <-> is_Some (nxt h p).
Proof. unfold nxt. by rewrite fmap_is_Some. Qed.

Lemma is_some_prv h p : is_Some (h !! p) <-> is_Some (prv h p).
Proof. unfold prv. by rewrite fmap_is_Some. Qed.

(** The effect of [__list_add] on any three live entries, aliased or not. *)
Lemma list_add_run h elm p q :
  is_Some (h !! elm) -> is_Some (h !! p) -> is_Some (h !! q) ->
  exists h', __list_add h elm p q = Ok h' /\
    (forall x, nxt h' x =
       if decide (x = elm) then Some q else if decide (x = p) then Some elm else nxt h x) /\
    (forall x, prv h' x =
       if decide (x = elm) then Some p else if decide (x = q) then Some elm else prv h x).
Proof.
  intros He Hp Hq. unfold __list_add.
  destruct (set_prev_run h q elm Hq) as (h1 & -> & P1 & N1). cbn.
  destruct (set_next_run h1 p elm) as (h2 & -> & N2 & P2).
  { by rewrite is_some_nxt, N1, <- is_some_nxt. }
  cbn. destruct (set_next_run h2 elm q) as (h3 & -> & N3 & P3).
  { rewrite is_some_prv, P2, P1. case_decide; [by eexists|by rewrite <- is_some_prv]. }
  cbn. destruct (set_prev_run h3 elm p) as (h4 & -> & P4 & N4).
  { rewrite is_some_nxt, N3. rewrite decide_True by done. by eexists. }
  eexists; split; [done|]. split; intros x.
  - by rewrite N4, N3, N2, N1.
  - by rewrite P4, P3, P2, P1.
Qed.

Lemma list_del_run h p q :
  is_Some (h !! p) -> is_Some (h !! q) ->
  exists h', __list_del h p q = Ok h' /\
    (forall x, nxt h' x = if decide (x = p) then Some q else nxt h x) /\
    (forall x, prv h' x = if decide (x = q) then Some p else prv h x).
Proof.
  intros Hp Hq. unfold __list_del.
  destruct (set_next_run h p q Hp) as (h1 & -> & N1 & P1). cbn.
  destruct (set_prev_run h1 q p) as (h2 & -> & P2 & N2).
  { by rewrite is_some_prv, P1, <- is_some_prv. }
  eexists; split; [done|]. split; intros x; [by rewrite N2, N1|by rewrite P2, P1].
Qed.

Lemma list_init_run h elm :
  is_Some (h !! elm) ->
  exists h', list_init h elm = Ok h' /\
    (forall x, nxt h' x = if decide (x = elm) then Some elm else nxt h x) /\
    (forall x, prv h' x = if decide (x = elm) then Some elm else prv h x).
Proof.
  intros He. unfold list_init.
  destruct (set_next_run h elm elm He) as (h1 & -> & N1 & P1). cbn.
  destruct (set_prev_run h1 elm elm) as (h2 & -> & P2 & N2).
  { by rewrite is_some_prv, P1, <- is_some_prv. }
  eexists; split; [done|]. split; intros x; [by rewrite N2, N1|by rewrite P2, P1].
Qed.

(** * Segments and circular lists *)

(** Following [next] from [p] visits [l] and arrives at [q], and the [prev]
    links of [l] and [q] lead back. *)
Fixpoint seg h p l q : Prop :=
  match l with
  | [] => nxt h p = Some q /\ prv h q = Some p
  | x :: l' => nxt h p = Some x /\ prv h x = Some p /\ seg h x l' q
  end.

(** [l] is the sequence of entries of the circular list with sentinel [hd]. *)
Definition dll h hd l : Prop := NoDup (hd :: l) /\ seg h hd l hd.

Lemma seg_app h p l1 x l2 q :
  seg h p (l1 ++ x :: l2) q <-> seg h p l1 x /\ seg h x l2 q.
Proof. revert p. induction l1 as [|y l1 IH]; intros p; cbn; [tauto|rewrite IH; tauto]. Qed.

Lemma seg_ext h h' p l q :
  (forall x, x = p \/ x ∈ l -> nxt h' x = nxt h x) ->
  (forall x, x = q \/ x ∈ l -> prv h' x = prv h x) ->
  seg h p l q -> seg h' p l q.
Proof.
  revert p. induction l as [|y l IH]; intros p Hn Hp; cbn.
  - rewrite Hn, Hp by auto. done.
  - rewrite Hn, Hp by set_solver. intros (?&?&?); split_and!; [done..|].
    apply IH; [intros ??; apply Hn; set_solver|intros ??; apply Hp; set_solver|done].
Qed.

Lemma seg_next h p l q :
  seg h p l q -> nxt h p = Some (match l with [] => q | x :: _ => x end).
Proof. destruct l; cbn; tauto. Qed.

Lemma seg_prev h p l q :
  seg h p l q -> prv h q = Some (List.last l p).
Proof.
  revert p. induction l as [|x l IH]; intros p; [by intros [_ ?]|].
  intros (_&_&Hs). rewrite last_cons_default. by apply IH.
Qed.

Lemma dll_next h hd l :
  dll h hd l -> nxt h hd = Some (match l with [] => hd | x :: _ => x end).
Proof. intros [_ Hs]. by apply seg_next in Hs. Qed.

Lemma dll_next_in h hd l1 x l2 :
  dll h hd (l1 ++ x :: l2) -> nxt h x = Some (match l2 with [] => hd | y :: _ => y end).
Proof. intros [_ Hs]. apply seg_app in Hs as [_ Hs]. by apply seg_next in Hs. Qed.

Lemma dll_prev_in h hd l1 x l2 :
  dll h hd (l1 ++ x :: l2) -> prv h x = Some (List.last l1 hd).
Proof. intros [_ Hs]. apply seg_app in Hs as [Hs _]. by apply seg_prev in Hs. Qed.

Lemma dll_prev h hd l : dll h hd l -> prv h hd = Some (List.last l hd).
Proof. intros [_ Hs]. by apply seg_prev in Hs. Qed.

Lemma seg_live h p l q x : seg h p l q -> x = p \/ x ∈ l -> is_Some (h !! x).
Proof.
  revert p. induction l as [|y l IH]; intros p; cbn.
  - intros [Hn _] [->|Hx]; [by eapply nxt_some|set_solver].
  - intros (Hn & _ & Hs) [->|Hx]; [by eapply nxt_some|].
    apply elem_of_cons in Hx. by eapply IH.
Qed.

Lemma dll_live h hd l x : dll h hd l -> x = hd \/ x ∈ l -> is_Some (h !! x).
Proof. intros [_ Hs]. by apply seg_live with (1 := Hs). Qed.
End views.

(** * What the operations do to a well-formed list *)
Section dll_ops.
Context `{Countable K}.
Abbreviation heap := (gmap K (list_entry K)).
Implicit Types (h : heap) (p q x y elm hd : K) (l : list K).

(** The entry that follows position [l2] of a list ending at [q]. *)
Definition front l q : K := match l with [] => q | x :: _ => x end.

Definition same_outside h h' l : Prop := forall x, x ∉ l -> h' !! x = h !! x.

Lemma lookup_views h h' x : nxt h' x = nxt h x -> prv h' x = prv h x -> h' !! x = h !! x.
Proof.
  unfold nxt, prv. destruct (h !! x) as [[]|], (h' !! x) as [[]|]; cbn; congruence.
Qed.

Lemma last_elem l p : List.last l p ∈ p :: l.
Proof.
  revert p. induction l as [|x l IH]; intros p; [by left|].
  rewrite last_cons_default. right. apply IH.
Qed.

Lemma front_elem l q : front l q ∈ l ++ [q].
Proof. destruct l; cbn; set_solver. Qed.

Lemma seg_add h h' p l1 l2 q a elm :
  a = List.last l1 p -> elm ∉ p :: q :: l1 ++ l2 -> NoDup (p :: l1 ++ l2) -> q ∉ l1 ++ l2 ->
  (forall x, nxt h' x = if decide (x = elm) then Some (front l2 q)
                        else if decide (x = a) then Some elm else nxt h x) ->
  (forall x, prv h' x = if decide (x = elm) then Some a
                        else if decide (x = front l2 q) then Some elm else prv h x) ->
  seg h p (l1 ++ l2) q -> seg h' p (l1 ++ elm :: l2) q.
Proof.
  revert p. induction l1 as [|z l1 IH]; intros p Ha He Hnd Hq Hn Hp Hs.
  - cbn in *. subst a. rewrite Hn, decide_False, decide_True by set_solver.
    rewrite Hp, decide_True by done. split_and!; [done..|].
    destruct l2 as [|y l2]; cbn in *.
    + rewrite Hn, decide_True, Hp, decide_False, decide_True by set_solver. done.
    + destruct Hs as (_&_&Hs). rewrite !NoDup_cons in Hnd.
      rewrite Hn, decide_True, Hp, decide_False, decide_True by set_solver.
      split_and!; [done..|]. eapply seg_ext; [| |exact Hs]; intros x Hx.
      * rewrite Hn, !decide_False by set_solver. done.
      * rewrite Hp, !decide_False by set_solver. done.
  - cbn [app seg] in *. destruct Hs as (Hpz & Hzp & Hs). rewrite last_cons_default in Ha.
    apply NoDup_cons in Hnd as [Hpn Hnd]. pose proof Hnd as [Hzn _]%NoDup_cons.
    pose proof (last_elem l1 z) as Hla. rewrite <- Ha in Hla.
    pose proof (front_elem l2 q) as Hfr. split_and!.
    + rewrite Hn, !decide_False by set_solver. done.
    + rewrite Hp, !decide_False by set_solver. done.
    + apply IH; [done|set_solver|done|set_solver|done..].
Qed.

Lemma seg_del h h' p l1 y l2 q a :
  a = List.last l1 p -> NoDup (p :: l1 ++ y :: l2) -> q ∉ l1 ++ y :: l2 ->
  (forall x, nxt h' x = if decide (x = a) then Some (front l2 q) else nxt h x) ->
  (forall x, prv h' x = if decide (x = front l2 q) then Some a else prv h x) ->
  seg h p (l1 ++ y :: l2) q -> seg h' p (l1 ++ l2) q.
Proof.
  revert p. induction l1 as [|z l1 IH]; intros p Ha Hnd Hq Hn Hp Hs.
  - cbn in *. subst a. destruct Hs as (_&_&Hs). destruct l2 as [|w l2]; cbn in *.
    + by rewrite Hn, Hp, !decide_True by done.
    + destruct Hs as (_&_&Hs). rewrite Hn, Hp, !decide_True by done. split_and!; [done..|].
      rewrite !NoDup_cons in Hnd. eapply seg_ext; [| |exact Hs]; intros x Hx.
      * rewrite Hn, decide_False by set_solver. done.
      * rewrite Hp, decide_False by set_solver. done.
  - cbn [app seg] in *. destruct Hs as (Hpz & Hzp & Hs). rewrite last_cons_default in Ha.
    apply NoDup_cons in Hnd as [Hpn Hnd]. pose proof Hnd as [Hzn _]%NoDup_cons.
    pose proof (last_elem l1 z) as Hla. rewrite <- Ha in Hla.
    pose proof (front_elem l2 q) as Hfr. split_and!.
    + rewrite Hn, decide_False by set_solver. done.
    + rewrite Hp, decide_False by set_solver. done.
    + apply IH; [done|done|set_solver|done..].
Qed.

Lemma list_init_dll h hd :
  is_Some (h !! hd) ->
  exists h', list_init h hd = Ok h' /\ dll h' hd [] /\ same_outside h h' [hd].
Proof.
  intros Hl. destruct (list_init_run h hd Hl) as (h' & -> & Hn & Hp).
  exists h'. split_and!; [done|split; [apply NoDup_singleton|]|].
  - cbn. by rewrite Hn, Hp, !decide_True by done.
  - intros x Hx. apply lookup_views; rewrite ?Hn, ?Hp, decide_False by set_solver; done.
Qed.

Lemma list_empty_dll h hd l :
  dll h hd l -> list_empty h hd = Ok (bool_decide (l = [])).
Proof.
  intros Hd. rewrite (list_empty_ok _ _ _ (dll_next _ _ _ Hd)). f_equal.
  destruct Hd as [Hnd _]. apply NoDup_cons in Hnd as [Hnd _].
  apply bool_decide_ext. destruct l; [done|]. split; [|done]. intros ->. set_solver.
Qed.

(** Inserting a fresh live entry between two neighbours. *)
Lemma list_add_between h hd l1 l2 elm :
  dll h hd (l1 ++ l2) -> is_Some (h !! elm) -> elm ∉ hd :: l1 ++ l2 ->
  exists h', __list_add h elm (List.last l1 hd) (front l2 hd) = Ok h' /\
    dll h' hd (l1 ++ elm :: l2) /\ same_outside h h' (elm :: hd :: l1 ++ l2).
Proof.
  intros Hd Hl He. pose proof Hd as [Hnd Hs].
  pose proof (last_elem l1 hd) as Hla. pose proof (front_elem l2 hd) as Hfr.
  destruct (list_add_run h elm (List.last l1 hd) (front l2 hd)) as (h' & -> & Hn & Hp);
    [done|eapply dll_live; [exact Hd|set_solver]..|].
  exists h'. pose proof Hnd as [? ?]%NoDup_cons. split_and!; [done|split|].
  - rewrite NoDup_cons. split; [set_solver|]. rewrite <- Permutation_middle.
    apply NoDup_cons; split; [set_solver|done].
  - eapply seg_add; [reflexivity|set_solver|done|done|exact Hn|exact Hp|done].
  - intros x Hx. apply lookup_views; rewrite ?Hn, ?Hp, !decide_False by set_solver; done.
Qed.

Lemma list_add_after_dll h hd l1 l2 elm :
  dll h hd (l1 ++ l2) -> is_Some (h !! elm) -> elm ∉ hd :: l1 ++ l2 ->
  exists h', list_add_after h (List.last l1 hd) elm = Ok h' /\
    dll h' hd (l1 ++ elm :: l2) /\ same_outside h h' (elm :: hd :: l1 ++ l2).
Proof.
  intros Hd Hl He. unfold list_add_after.
  assert (nxt h (List.last l1 hd) = Some (front l2 hd)) as Hn.
  { destruct l1 as [|z l1] using rev_ind; [by apply dll_next in Hd|].
    rewrite <- app_assoc in Hd. apply dll_next_in in Hd. by rewrite last_app_cons. }
  apply list_next_ok in Hn as ->. by apply list_add_between.
Qed.

Lemma list_add_before_dll h hd l1 l2 elm :
  dll h hd (l1 ++ l2) -> is_Some (h !! elm) -> elm ∉ hd :: l1 ++ l2 ->
  exists h', list_add_before h (front l2 hd) elm = Ok h' /\
    dll h' hd (l1 ++ elm :: l2) /\ same_outside h h' (elm :: hd :: l1 ++ l2).
Proof.
  intros Hd Hl He. unfold list_add_before.
  assert (prv h (front l2 hd) = Some (List.last l1 hd)) as Hp.
  { destruct l2 as [|z l2]; [rewrite app_nil_r in Hd; by apply dll_prev in Hd|].
    by apply dll_prev_in in Hd. }
  apply list_prev_ok in Hp as ->. by apply list_add_between.
Qed.

Lemma list_del_dll h hd l1 y l2 :
  dll h hd (l1 ++ y :: l2) ->
  exists h', list_del h y = Ok h' /\ dll h' hd (l1 ++ l2) /\
    same_outside h h' (hd :: l1 ++ l2).
Proof.
  intros Hd. pose proof Hd as [Hnd Hs]. unfold list_del.
  rewrite (proj2 (list_prev_ok _ _ _) (dll_prev_in _ _ _ _ _ Hd)). cbn.
  rewrite (proj2 (list_next_ok _ _ _) (dll_next_in _ _ _ _ _ Hd)). cbn.
  change (match l2 with [] => hd | z :: _ => z end) with (front l2 hd).
  pose proof (last_elem l1 hd) as Hla. pose proof (front_elem l2 hd) as Hfr.
  destruct (list_del_run h (List.last l1 hd) (front l2 hd)) as (h' & -> & Hn & Hp);
    [eapply dll_live; [exact Hd|set_solver]..|].
  exists h'. pose proof Hnd as [? Hnd']%NoDup_cons. split_and!; [done|split|].
  - rewrite NoDup_cons. split; [set_solver|].
    rewrite <- Permutation_middle in Hnd'. by apply NoDup_cons in Hnd' as [_ ?].
  - eapply seg_del; [reflexivity|exact Hnd|done|exact Hn|exact Hp|done].
  - intros x Hx. apply lookup_views; rewrite ?Hn, ?Hp, !decide_False by set_solver; done.
Qed.

Lemma list_del_init_dll h hd l1 y l2 :
  dll h hd (l1 ++ y :: l2) ->
  exists h', list_del_init h y = Ok h' /\ dll h' hd (l1 ++ l2) /\ dll h' y [] /\
    same_outside h h' (y :: hd :: l1 ++ l2).
Proof.
  intros Hd. unfold list_del_init.
  destruct (list_del_dll h hd l1 y l2 Hd) as (h1 & -> & Hd1 & Ho1). cbn.
  pose proof Hd as [Hnd _]. rewrite NoDup_cons, <- Permutation_middle, NoDup_cons in Hnd.
  assert (y ∉ hd :: l1 ++ l2) as Hy by set_solver.
  destruct (list_init_dll h1 y) as (h2 & -> & Hd2 & Ho2).
  { rewrite Ho1 by done. eapply dll_live; [exact Hd|set_solver]. }
  exists h2. split_and!; [done| |done|].
  - destruct Hd1 as [Hnd1 Hs1]. split; [done|]. eapply seg_ext; [| |exact Hs1];
      intros x Hx; unfold nxt, prv; rewrite Ho2 by set_solver; done.
  - intros x Hx. rewrite Ho2, Ho1 by set_solver. done.
Qed.

Lemma dll_same_outside h h' hd l l' :
  dll h hd l -> same_outside h h' l' -> (forall x, x ∈ hd :: l -> x ∉ l') -> dll h' hd l.
Proof.
  intros [Hnd Hs] Ho Hdis. split; [done|].
  eapply seg_ext; [| |exact Hs]; intros x Hx; unfold nxt, prv; rewrite Ho by set_solver; done.
Qed.

Lemma list_next_at h hd l1 x l2 :
  dll h hd (l1 ++ x :: l2) -> list_next h (List.last l1 hd) = Ok x.
Proof.
  intros Hd. apply list_next_ok. destruct l1 as [|y l1 _] using rev_ind; [by apply dll_next in Hd|].
  rewrite <- app_assoc in Hd. apply dll_next_in in Hd. by rewrite last_app_cons.
Qed.

Lemma list_next_end h hd l : dll h hd l -> list_next h (List.last l hd) = Ok hd.
Proof.
  intros Hd. apply list_next_ok. destruct l as [|y l _] using rev_ind; [by apply dll_next in Hd|].
  apply dll_next_in in Hd. by rewrite last_app_cons.
Qed.

(** The links determine the sequence. *)
Lemma seg_det h p l1 l2 q : q ∉ l1 -> q ∉ l2 -> seg h p l1 q -> seg h p l2 q -> l1 = l2.
Proof.
  revert p l2. induction l1 as [|x l1 IH]; intros p [|y l2]; cbn; rewrite ?not_elem_of_cons.
  - done.
  - intros _ [? _] [Hn _] (Hn' & _). congruence.
  - intros [? _] _ (Hn & _) [Hn' _]. congruence.
  - intros [_ H1] [_ H2] (Hn & _ & Hs) (Hn' & _ & Hs'). rewrite Hn in Hn'. injection Hn' as <-.
    f_equal. by eapply IH.
Qed.

Lemma dll_det h hd l1 l2 : dll h hd l1 -> dll h hd l2 -> l1 = l2.
Proof. intros [[? _]%NoDup_cons ?] [[? _]%NoDup_cons ?]. by eapply seg_det. Qed.

Lemma same_outside_live h h' hd l l' x :
  dll h' hd l -> same_outside h h' l' -> l' ⊆ hd :: l -> is_Some (h !! x) -> is_Some (h' !! x).
Proof.
  intros Hd Ho Hsub Hx. destruct (decide (x ∈ hd :: l)) as [Hin|Hout].
  - apply (dll_live h' hd l); [done|]. by apply elem_of_cons.
  - rewrite Ho; [done|]. intros ?. by apply Hout, Hsub.
Qed.
End dll_ops.

#[export] Hint Resolve dll_next dll_prev dll_next_in dll_prev_in list_empty_dll : ucore.

Section sizes.
Context `{Countable K}.

(** Live entries bound the length of a list of distinct entries, hence the
    fuel a walk along it needs. *)
Lemma live_length {V} (h : gmap K V) (l : list K) :
  NoDup l -> (forall x, x ∈ l -> is_Some (h !! x)) -> (length l <= size h)%nat.
Proof.
  intros Hnd Hl. rewrite <- size_dom, <- (size_list_to_set (C := gset K)) by done.
  apply subseteq_size. intros x Hx. apply elem_of_list_to_set, Hl in Hx. by apply elem_of_dom.
Qed.

Lemma dll_length (h : gmap K (list_entry K)) hd l : dll h hd l -> (S (length l) <= size h)%nat.
Proof.
  intros Hd. apply (live_length h (hd :: l)); [apply Hd|].
  intros x Hx. eapply dll_live; [exact Hd|set_solver].
Qed.
End sizes.

(** * Lists of embedded entries

    A component that links its objects [A] through an embedded entry: [hd] is the
    head of the list, [lk] the address of an object's entry.  [listed h q live]
    says that the list is [q] and that every other live object's entry is
    detached, that is, linked to itself. *)
Section members.
Context `{Countable K} {A : Type} `{!EqDecision A} (hd : K) (lk : A -> K).
Context `{!Inj (=) (=) lk} (Hhd : forall a, lk a <> hd).
Implicit Types (h : gmap K (list_entry K)) (q : list A) (live : A -> Prop).

Record listed h q live : Prop := Listed {
  ls_dll : dll h hd (lk <$> q);
  ls_detached : forall p, live p -> p ∉ q -> dll h (lk p) []
}.

Lemma listed_nodup h q live : listed h q live -> NoDup q.
Proof.
  intros Hq. pose proof (ls_dll _ _ _ Hq) as [Hnd _]. apply NoDup_cons in Hnd as [_ Hnd].
  by eapply NoDup_fmap_1.
Qed.

Lemma listed_not_link p q : p ∉ q -> lk p ∉ hd :: (lk <$> q).
Proof.
  intros Hp. rewrite not_elem_of_cons. split; [apply Hhd|].
  intros (x & Hx%(inj lk) & ?)%list_elem_of_fmap. by subst.
Qed.

Lemma listed_member_next h q1 p q2 live :
  listed h (q1 ++ p :: q2) live -> list_next h (lk p) = Ok (front (lk <$> q2) hd).
Proof.
  intros Hq. apply list_next_ok. pose proof (ls_dll _ _ _ Hq) as Hd. rewrite fmap_app in Hd. cbn in Hd.
  by rewrite (dll_next_in _ _ _ _ _ Hd).
Qed.

Lemma listed_in h q live p : listed h q live -> p ∈ q -> list_empty h (lk p) = Ok false.
Proof.
  intros Hq Hin. pose proof Hin as (l1 & l2 & ->)%list_elem_of_split.
  unfold list_empty. rewrite (listed_member_next _ _ _ _ _ Hq). cbn. f_equal. apply bool_decide_false.
  intros He. destruct l2 as [|x l2]; cbn in He; [by apply (Hhd p)|]. apply (inj lk) in He. subst.
  apply listed_nodup in Hq. apply NoDup_app in Hq as (_&_&Hq). apply NoDup_cons in Hq as [Hq _].
  apply Hq. by left.
Qed.

Lemma listed_empty h q live p :
  listed h q live -> live p -> list_empty h (lk p) = Ok (bool_decide (p ∉ q)).
Proof.
  intros Hq Hp. destruct (decide (p ∈ q)) as [Hin|Hin].
  - rewrite bool_decide_false by tauto. by eapply listed_in.
  - rewrite bool_decide_true by done. pose proof (ls_detached _ _ _ Hq p Hp Hin) as Hd.
    by rewrite (list_empty_dll _ _ _ Hd).
Qed.

(** Linking a live object anywhere in the list. *)
Lemma listed_insert h q1 q2 live p :
  listed h (q1 ++ q2) live -> is_Some (h !! lk p) -> p ∉ q1 ++ q2 ->
  exists h', list_add_before h (front (lk <$> q2) hd) (lk p) = Ok h' /\ listed h' (q1 ++ p :: q2) live /\
    same_outside h h' (hd :: (lk <$> q1 ++ p :: q2)).
Proof.
  intros Hq Hp Hin. pose proof (ls_dll _ _ _ Hq) as Hd. rewrite fmap_app in Hd.
  destruct (list_add_before_dll h hd _ _ (lk p) Hd Hp) as (h' & Ha & Hd' & Ho).
  - rewrite <- fmap_app. by apply listed_not_link.
  - exists h'. split; [done|]. split; [split; [by rewrite fmap_app|]|].
    + intros x Hx Hn. rewrite elem_of_app, elem_of_cons in Hn.
      eapply dll_same_outside; [apply (ls_detached _ _ _ Hq x Hx); rewrite elem_of_app; tauto|exact Ho|].
      intros y ->%list_elem_of_singleton. rewrite <- fmap_app, not_elem_of_cons.
      split; [intros He%(inj lk); tauto|]. apply listed_not_link. rewrite elem_of_app. tauto.
    + intros x Hx. apply Ho. rewrite fmap_app in Hx. cbn in Hx. set_solver.
Qed.

Lemma listed_add h q live p :
  listed h q live -> is_Some (h !! lk p) -> p ∉ q ->
  exists h', list_add_before h hd (lk p) = Ok h' /\ listed h' (q ++ [p]) live /\
    same_outside h h' (hd :: (lk <$> q ++ [p])).
Proof.
  intros Hq Hp Hin. apply (listed_insert h q [] live p); rewrite ?app_nil_r; done.
Qed.

Lemma listed_del h q1 p q2 live :
  listed h (q1 ++ p :: q2) live ->
  exists h', list_del_init h (lk p) = Ok h' /\ listed h' (q1 ++ q2) live /\ dll h' (lk p) [] /\
    same_outside h h' (hd :: (lk <$> q1 ++ p :: q2)).
Proof.
  intros Hq. pose proof (ls_dll _ _ _ Hq) as Hd. rewrite fmap_app in Hd. cbn in Hd.
  destruct (list_del_init_dll h hd _ _ _ Hd) as (h' & Ha & Hd' & Hp' & Ho).
  exists h'. split; [done|]. split; [split; [by rewrite fmap_app|]|split; [done|]].
  - intros x Hx Hn. destruct (decide (x = p)) as [->|Hne]; [done|].
    eapply dll_same_outside; [apply (ls_detached _ _ _ Hq x Hx)|exact Ho|].
    + rewrite elem_of_app, elem_of_cons. rewrite elem_of_app in Hn. tauto.
    + intros y ->%list_elem_of_singleton. rewrite <- fmap_app, not_elem_of_cons.
      split; [intros He%(inj lk); tauto|by apply listed_not_link].
  - intros x Hx. apply Ho. rewrite fmap_app in Hx. cbn in Hx. set_solver.
Qed.

Lemma listed_first h q live :
  listed h q live -> list_next h hd = Ok (front (lk <$> q) hd).
Proof. intros Hq. apply list_next_ok. by rewrite (dll_next _ _ _ (ls_dll _ _ _ Hq)). Qed.

Lemma listed_mono h q live live' :
  (forall p, live' p -> live p) -> listed h q live -> listed h q live'.
Proof. intros Hl [Hd Hs]. split; [done|]. intros p ? ?. by apply Hs; [apply Hl|]. Qed.

Lemma listed_same_outside h h' q live l :
  listed h q live -> same_outside h h' l -> (forall x, x ∈ l -> x <> hd /\ forall a, x <> lk a) -> listed h' q live.
Proof.
  intros [Hd Hs] Ho Hl. split.
  - eapply dll_same_outside; [exact Hd|exact Ho|].
    intros x Hx Hin. destruct (Hl x Hin) as [H1 H2]. rewrite elem_of_cons, list_elem_of_fmap in Hx.
    destruct Hx as [?|(a & ? & _)]; [done|by apply (H2 a)].
  - intros p Hp Hn. eapply dll_same_outside; [by apply Hs|exact Ho|].
    intros x ->%list_elem_of_singleton Hin. destruct (Hl _ Hin) as [_ H2]. by apply (H2 p).
Qed.
End members.
