(* ===== verification/Page.v ===== *)
(** Page descriptors, their flag bits and the free area
    (lab8/kern/mm/memlayout.h, lab8/libs/atomic.h), shared by the page
    allocators.

    The array [pages] is a map from page index to descriptor; the embedded
    [page_link] entries and the list head [free_list] are the addresses of one
    link heap.  The fields [pra_page_link] and [pra_vaddr] of struct Page are left out: no
    code of lab8 reads them. *)
From S2P Require Import Prelude Lists.

(** * lab8/libs/atomic.h *)
Definition BIT_MASK (nr : Z) : Z := Z.shiftl 1 (nr mod 64).
Definition set_bit (nr w : Z) : Z := Z.lor w (BIT_MASK nr).
Definition clear_bit (nr w : Z) : Z := Z.land w (Z.lnot (BIT_MASK nr)).
Definition test_bit (nr w : Z) : bool := negb (Z.land (Z.shiftr w nr) 1 =? 0).

(** * lab8/kern/mm/memlayout.h *)
Definition PG_reserved : Z := 0.
Definition PG_property : Z := 1.

Record Page : Type := MkPage { ref : Z; flags : Z; property : Z }.

Definition set_flags (f : Z -> Z) (p : Page) : Page := MkPage (ref p) (f (flags p)) (property p).
Definition set_property (v : Z) (p : Page) : Page := MkPage (ref p) (flags p) v.

Definition SetPageReserved : Page -> Page := set_flags (set_bit PG_reserved).
Definition PageReserved (p : Page) : bool := test_bit PG_reserved (flags p).
Definition SetPageProperty : Page -> Page := set_flags (set_bit PG_property).
Definition ClearPageProperty : Page -> Page := set_flags (clear_bit PG_property).
Definition PageProperty (p : Page) : bool := test_bit PG_property (flags p).

(** Addresses of list entries: the head of the free list, or the [page_link]
    member of a page descriptor. *)
Inductive link : Type := FreeList | PageLink (i : Z).

#[export] Instance link_eq_dec : EqDecision link.
Proof. solve_decision. Defined.

#[export] Instance link_countable : Countable link.
Proof.
  refine (inj_countable' (fun l => match l with FreeList => None | PageLink i => Some i end)
            (fun o => match o with None => FreeList | Some i => PageLink i end) _).
  by intros [].
Defined.

#[export] Instance PageLink_inj : Inj (=) (=) PageLink.
Proof. by intros ?? [= ->]. Qed.

(** [le2page(le, page_link)]; the list head is not inside a page descriptor. *)
Definition le2page (le : link) : res Z :=
  match le with PageLink i => Ok i | FreeList => Fault end.

(** The free area of an allocator together with the page array it manages. *)
Record free_area : Type := FreeArea {
  pages : gmap Z Page;
  links : gmap link (list_entry link);
  nr_free : Z
}.

Definition with_links (s : free_area) (h : gmap link (list_entry link)) : free_area :=
  FreeArea (pages s) h (nr_free s).
Definition with_nr_free (s : free_area) (n : Z) : free_area := FreeArea (pages s) (links s) n.

(** [p->... = ...] on the descriptor of page [i]. *)
Definition upd_page (s : free_area) (i : Z) (f : Page -> Page) : res free_area :=
  p ← deref (pages s) i; Ok (FreeArea (<[i := f p]> (pages s)) (links s) (nr_free s)).

(** * Flag bits *)
Lemma test_bit_testbit nr w : 0 <= nr -> test_bit nr w = Z.testbit w nr.
Proof.
  intros Hn. unfold test_bit.
  rewrite (Z.land_ones _ 1) by lia. change (2 ^ 1) with 2.
  rewrite <- Z.bit0_mod, Z.shiftr_spec, Z.add_0_l by lia. by destruct (Z.testbit w nr).
Qed.

Lemma BIT_MASK_testbit nr i :
  0 <= nr < 64 -> 0 <= i -> Z.testbit (BIT_MASK nr) i = bool_decide (i = nr).
Proof.
  intros Hn Hi. unfold BIT_MASK. rewrite Z.mod_small, Z.shiftl_1_l by lia.
  destruct (decide (i = nr)) as [->|Hne].
  - rewrite bool_decide_true by done. apply Z.pow2_bits_true. lia.
  - rewrite bool_decide_false by done. apply Z.pow2_bits_false. lia.
Qed.

Lemma test_set_bit nr nr' w :
  0 <= nr < 64 -> 0 <= nr' ->
  test_bit nr' (set_bit nr w) = test_bit nr' w || bool_decide (nr' = nr).
Proof.
  intros. rewrite !test_bit_testbit by lia. unfold set_bit.
  by rewrite Z.lor_spec, BIT_MASK_testbit by lia.
Qed.

Lemma test_clear_bit nr nr' w :
  0 <= nr < 64 -> 0 <= nr' ->
  test_bit nr' (clear_bit nr w) = test_bit nr' w && negb (bool_decide (nr' = nr)).
Proof.
  intros. rewrite !test_bit_testbit by lia. unfold clear_bit.
  by rewrite Z.land_spec, Z.lnot_spec, BIT_MASK_testbit by lia.
Qed.

Lemma PageProperty_set p : PageProperty (SetPageProperty p) = true.
Proof. unfold PageProperty, SetPageProperty. cbn. rewrite test_set_bit by (unfold PG_property; lia). apply orb_true_r. Qed.

Lemma PageProperty_clear p : PageProperty (ClearPageProperty p) = false.
Proof. unfold PageProperty, ClearPageProperty. cbn. rewrite test_clear_bit by (unfold PG_property; lia). apply andb_false_r. Qed.

Lemma PageReserved_set p : PageReserved (SetPageProperty p) = PageReserved p.
Proof. unfold PageReserved, SetPageProperty. cbn. rewrite test_set_bit by (unfold PG_property, PG_reserved; lia). apply orb_false_r. Qed.

Lemma PageReserved_clear p : PageReserved (ClearPageProperty p) = PageReserved p.
Proof. unfold PageReserved, ClearPageProperty. cbn. rewrite test_clear_bit by (unfold PG_property, PG_reserved; lia). apply andb_true_r. Qed.

#[export] Hint Resolve PageProperty_set PageProperty_clear PageReserved_set PageReserved_clear : ucore.

Lemma upd_page_ok s i f p :
  pages s !! i = Some p ->
  upd_page s i f = Ok (FreeArea (<[i := f p]> (pages s)) (links s) (nr_free s)).
Proof. intros Hp. unfold upd_page. by rewrite (deref_some _ _ _ Hp). Qed.

(** * Descriptors that mark a set of blocks

    [marked pg F]: the flagged descriptors of [pg] are exactly the first frames
    of the blocks in [F], and carry their sizes. *)
Definition marked (pg : gmap Z Page) (F : Z * Z -> Prop) : Prop :=
  forall i p, pg !! i = Some p -> forall m, F (i, m) <-> PageProperty p = true /\ property p = m.

Lemma marked_ext pg F G :
  (forall x, is_Some (pg !! x.1) -> F x <-> G x) -> marked pg F -> marked pg G.
Proof. intros Heq HF i p Hp m. rewrite <- Heq by (cbn; eauto). by apply HF. Qed.

Lemma marked_insert pg F i p :
  marked pg F -> marked (<[i := p]> pg)
    (fun x => if decide (x.1 = i) then PageProperty p = true /\ property p = x.2 else F x).
Proof.
  intros HF j q Hq m. cbn. case_decide as Hj.
  - subst. rewrite lookup_insert_eq in Hq. by simplify_eq.
  - rewrite lookup_insert_ne in Hq by done. by apply HF.
Qed.

Definition page_free_ok (pg : gmap Z Page) (i : Z) : Prop :=
  exists p, pg !! i = Some p /\ PageReserved p = false.

Lemma page_free_ok_insert pg i p j :
  page_free_ok pg j -> (j = i -> PageReserved p = false) -> page_free_ok (<[i := p]> pg) j.
Proof.
  intros (q & Hq & Hr) Hp. unfold page_free_ok. destruct (decide (j = i)) as [->|].
  - rewrite lookup_insert_eq. eauto.
  - rewrite lookup_insert_ne by done. eauto.
Qed.

Lemma is_some_insert {V} (pg : gmap Z V) i p j :
  is_Some (pg !! i) -> is_Some (<[i := p]> pg !! j) <-> is_Some (pg !! j).
Proof. intros. rewrite lookup_insert_is_Some'. naive_solver. Qed.
