(* ===== verification/Blocks.v ===== *)
(** Abstract free lists: sequences of blocks [(base, size)] in address order,
    and the abstract effect of allocating from and freeing into one.

    This is the specification the page allocators are proved to refine; nothing
    here mentions links, flags or descriptors. *)
From S2P Require Import Prelude.

Abbreviation block := (Z * Z)%type.

(** Blocks are non-empty, start at or above [lo], and each leaves a gap of at
    least [g] frames before the next: [g = 0] says the blocks are disjoint and
    sorted, [g = 1] that moreover no two of them could be merged. *)
Fixpoint ordered (g lo : Z) (bl : list block) : Prop :=
  match bl with
  | [] => True
  | (b, m) :: bl' => lo <= b /\ 0 < m /\ ordered g (b + m + g) bl'
  end.

Fixpoint total (bl : list block) : Z :=
  match bl with [] => 0 | (_, m) :: bl' => m + total bl' end.

(** Frame [i] belongs to a block of [bl]. *)
Definition covers (bl : list block) (i : Z) : Prop :=
  exists b m, (b, m) ∈ bl /\ b <= i < b + m.

(** The blocks that start at or below [base], and the others. *)
Fixpoint below (base : Z) (bl : list block) : list block :=
  match bl with
  | [] => []
  | (b, m) :: bl' => if base <? b then [] else (b, m) :: below base bl'
  end.

Fixpoint above (base : Z) (bl : list block) : list block :=
  match bl with
  | [] => []
  | (b, m) :: bl' => if base <? b then (b, m) :: bl' else above base bl'
  end.

(** * Allocation *)

(** What is left of block [(b, m)] once its first [n] frames are taken. *)
Definition rest (n : Z) (x : block) : list block :=
  if n <? x.2 then [(x.1 + n, x.2 - n)] else [].

(** First fit: the first block of at least [n] frames is carved. *)
Fixpoint first_fit (n : Z) (bl : list block) : option (Z * list block) :=
  match bl with
  | [] => None
  | x :: bl' =>
      if n <=? x.2 then Some (x.1, rest n x ++ bl')
      else '(b, bl'') ← first_fit n bl'; Some (b, x :: bl'')
  end.

(** * Freeing *)

(** Merge block [(base, n)] with the last block of [l1] when they touch. *)
Definition absorb_prev (l1 : list block) (base n : Z) : list block * block :=
  match last l1 with
  | Some (p, m) =>
      if p + m =? base then (take (pred (length l1)) l1, (p, m + n)) else (l1, (base, n))
  | None => (l1, (base, n))
  end.

Definition absorb_next (x : block) (l2 : list block) : list block :=
  match l2 with
  | (q, k) :: l2' => if x.1 + x.2 =? q then (x.1, x.2 + k) :: l2' else x :: l2
  | [] => [x]
  end.

Definition coalesce (l1 : list block) (base n : Z) (l2 : list block) : list block :=
  let '(l1, x) := absorb_prev l1 base n in l1 ++ absorb_next x l2.

Definition free_block (base n : Z) (bl : list block) : list block :=
  coalesce (below base bl) base n (above base bl).

(** * Facts *)
Lemma below_above base bl : below base bl ++ above base bl = bl.
Proof.
  induction bl as [|[b m] bl IH]; cbn; [done|]. case_match; cbn; by rewrite ?IH.
Qed.

Lemma below_le base bl : Forall (fun x => x.1 <= base) (below base bl).
Proof.
  induction bl as [|[b m] bl IH]; cbn; [constructor|].
  destruct (base <? b) eqn:E; constructor; cbn; [lia|done].
Qed.

Lemma above_front base bl : match above base bl with [] => True | x :: _ => base < x.1 end.
Proof. induction bl as [|[b m] bl IH]; cbn; [done|]. destruct (base <? b) eqn:E; cbn; [lia|done]. Qed.

Lemma ordered_weaken g g' lo lo' bl : g' <= g -> lo' <= lo -> ordered g lo bl -> ordered g' lo' bl.
Proof.
  intros Hg. revert lo lo'. induction bl as [|[b m] bl IH]; intros lo lo' Hle; cbn; [done|].
  intros (?&?&Ho). split_and!; [lia..|]. eapply IH; [|exact Ho]. lia.
Qed.

Lemma total_app l1 l2 : total (l1 ++ l2) = total l1 + total l2.
Proof. induction l1 as [|[b m] l1 IH]; cbn; lia. Qed.

(** The first address a block may have after the blocks [bl]. *)
Fixpoint bound (g lo : Z) (bl : list block) : Z :=
  match bl with [] => lo | (b, m) :: bl' => bound g (b + m + g) bl' end.

Lemma ordered_app g lo l1 l2 :
  ordered g lo (l1 ++ l2) <-> ordered g lo l1 /\ ordered g (bound g lo l1) l2.
Proof.
  revert lo. induction l1 as [|[b m] l1 IH]; intros lo; cbn; [tauto|]. rewrite IH. tauto.
Qed.

Lemma bound_app g lo l1 l2 : bound g lo (l1 ++ l2) = bound g (bound g lo l1) l2.
Proof. revert lo. induction l1 as [|[b m] l1 IH]; intros lo; cbn; [done|]. by rewrite IH. Qed.

Lemma bound_snoc g lo l p m : bound g lo (l ++ [(p, m)]) = p + m + g.
Proof. by rewrite bound_app. Qed.

Lemma ordered_bound g lo bl : 0 <= g -> ordered g lo bl -> lo + total bl <= bound g lo bl.
Proof.
  intros Hg. revert lo. induction bl as [|[b m] bl IH]; intros lo; cbn; [lia|].
  intros (?&?&Ho). apply IH in Ho. lia.
Qed.

Lemma ordered_elem g lo bl b m :
  0 <= g -> ordered g lo bl -> (b, m) ∈ bl -> lo <= b /\ 0 < m /\ b + m <= bound g lo bl.
Proof.
  intros Hg. revert lo. induction bl as [|[b' m'] bl IH]; intros lo; cbn; [set_solver|].
  intros (?&?&Ho) [[= -> ->]|Hin]%elem_of_cons.
  - pose proof (ordered_bound _ _ _ Hg Ho). enough (0 <= total bl) by lia.
    clear -Ho. revert Ho. generalize (b' + m' + g).
    induction bl as [|[??] ? IH]; cbn; [lia|]. intros ? (?&?&Ho%IH). lia.
  - apply IH in Ho as (?&?&?); [lia|done].
Qed.

Lemma total_nonneg g lo bl : ordered g lo bl -> 0 <= total bl.
Proof.
  revert lo. induction bl as [|[b m] bl IH]; intros lo; cbn; [lia|]. intros (?&?&Ho%IH). lia.
Qed.

Lemma covers_app l1 l2 i : covers (l1 ++ l2) i <-> covers l1 i \/ covers l2 i.
Proof. unfold covers. setoid_rewrite elem_of_app. firstorder. Qed.

Lemma covers_cons b m l i : covers ((b, m) :: l) i <-> b <= i < b + m \/ covers l i.
Proof.
  unfold covers. setoid_rewrite elem_of_cons. split.
  - intros (b' & m' & [[= -> ->]|Hin] & Hi); [by left|right; eauto].
  - intros [Hi|(b' & m' & Hin & Hi)]; [exists b, m|exists b', m']; auto.
Qed.

Lemma covers_nil i : ~ covers [] i.
Proof. intros (?&?&?&_). set_solver. Qed.

Lemma bound_gap g g' lo l : g' <= g -> bound g' lo l <= bound g lo l.
Proof. intros Hg. destruct l as [|[p m] l] using rev_ind; [done|]. rewrite !bound_snoc. lia. Qed.

Lemma bound_covers g lo bl base :
  0 <= g -> ordered g lo bl -> lo <= base -> Forall (fun x => x.1 <= base) bl ->
  ~ covers bl base -> bound 0 lo bl <= base.
Proof.
  intros Hg Ho Hlo Hle Hc. destruct bl as [|[p m] l _] using rev_ind; [done|].
  rewrite bound_snoc. apply Forall_app in Hle as [_ Hle]. rewrite Forall_singleton in Hle. cbn in Hle.
  destruct (decide (p + m <= base)); [lia|]. destruct Hc. apply covers_app. right.
  apply covers_cons. left. lia.
Qed.

(** * Allocation keeps the list well formed *)
Lemma first_fit_some n bl b bl' :
  first_fit n bl = Some (b, bl') ->
  exists l1 m l2, bl = l1 ++ (b, m) :: l2 /\ Forall (fun x => x.2 < n) l1 /\ n <= m /\
    bl' = l1 ++ rest n (b, m) ++ l2.
Proof.
  revert bl'. induction bl as [|[c k] bl IH]; cbn; intros bl' Hf; [done|].
  destruct (n <=? k) eqn:E.
  - simplify_eq. exists [], k, bl. split_and!; [done|constructor|lia|done].
  - destruct (first_fit n bl) as [[c' bl'']|]; [|done]. cbn in Hf. simplify_eq.
    destruct (IH _ eq_refl) as (l1 & m & l2 & -> & Hl1 & Hm & ->).
    exists ((c, k) :: l1), m, l2. split_and!; [done|constructor; cbn; [lia|done]|done|done].
Qed.

Lemma first_fit_none n bl : first_fit n bl = None <-> Forall (fun x => x.2 < n) bl.
Proof.
  induction bl as [|[c k] bl IH]; cbn; [split; [constructor|done]|].
  rewrite Forall_cons. cbn. destruct (n <=? k) eqn:E.
  - split; [done|lia].
  - rewrite <- IH. destruct (first_fit n bl) as [[??]|]; cbn; split; try done; [intros [_ ?]; done|].
    intros _. split; [lia|done].
Qed.

Lemma carve_ordered g lo l1 b m l2 n :
  0 <= g -> 0 < n <= m -> ordered g lo (l1 ++ (b, m) :: l2) ->
  ordered g lo (l1 ++ rest n (b, m) ++ l2).
Proof.
  intros Hg Hn. rewrite !ordered_app. cbn. intros (H1 & Hb & Hm & H2). split; [done|].
  unfold rest. cbn. destruct (n <? m) eqn:E; cbn.
  - split_and!; [lia..|done|]. eapply ordered_weaken; [reflexivity| |exact H2]. lia.
  - split; [done|]. eapply ordered_weaken; [reflexivity| |exact H2]. lia.
Qed.

Lemma carve_total l1 b m l2 n :
  n <= m -> total (l1 ++ rest n (b, m) ++ l2) = total (l1 ++ (b, m) :: l2) - n.
Proof.
  intros Hn. rewrite !total_app. cbn. unfold rest. cbn. destruct (n <? m) eqn:E; cbn; lia.
Qed.

Lemma ordered_covers g lo bl i : 0 <= g -> ordered g lo bl -> covers bl i -> lo <= i < bound g lo bl.
Proof. intros Hg Ho (b & m & Hin & Hi). apply (ordered_elem g lo) in Hin; [lia|done|done]. Qed.

Lemma carve_covers g lo l1 b m l2 n i :
  0 <= g -> 0 < n <= m -> ordered g lo (l1 ++ (b, m) :: l2) ->
  covers (l1 ++ rest n (b, m) ++ l2) i <-> covers (l1 ++ (b, m) :: l2) i /\ ~ (b <= i < b + n).
Proof.
  intros Hg Hn Ho. apply ordered_app in Ho as [Ho1 (Hb & Hm & Ho2)].
  rewrite !covers_app, covers_cons.
  assert (covers (rest n (b, m)) i <-> b + n <= i < b + m) as ->.
  { unfold rest. cbn. destruct (n <? m) eqn:E.
    - rewrite covers_cons. pose proof (covers_nil i). split; [|left; lia]. intros [?|?]; [lia|done].
    - split; [by intros ?%covers_nil|lia]. }
  split.
  - intros [H1|[H1|H2]]; [|lia|].
    + apply (ordered_covers g lo) in H1 as ?; [|done..]. split; [by left|lia].
    + assert (b + m + g <= i).
      { apply (ordered_covers g (b + m + g)) in H2; [lia|done..]. }
      split; [by right; right|lia].
  - intros [[H1|[H1|H2]] Hi]; [by left|right; left; lia|by right; right].
Qed.

Lemma carve_bound lo l1 b m l2 n :
  0 < n <= m -> bound 0 lo l1 <= b ->
  bound 0 lo (l1 ++ rest n (b, m) ++ l2) <= bound 0 lo (l1 ++ (b, m) :: l2).
Proof.
  intros Hn Hb. unfold rest. cbn. rewrite !bound_app. cbn. destruct (n <? m) eqn:E; cbn.
  - replace (b + n + (m - n) + 0) with (b + m + 0) by lia. done.
  - destruct l2 as [|[q k] l2 _] using rev_ind; cbn; [lia|]. by rewrite !bound_snoc.
Qed.

(** * Freeing keeps the list well formed *)
Section coalesce.
Context (g lo : Z) (l1 l2 : list block) (base n : Z).
Hypotheses (Hg : 0 <= g <= 1) (Hn : 0 < n) (Ho1 : ordered g lo l1)
  (Hb : bound 0 lo l1 <= base) (Ho2 : ordered g (base + n) l2).

Lemma absorb_next_ordered lo' b m :
  lo' <= b -> 0 < m -> b + m = base + n -> ordered g lo' (absorb_next (b, m) l2).
Proof.
  intros Hlo Hm He. clear Ho1 Hb. destruct l2 as [|[q k] l2']; cbn in *; [lia|].
  destruct (b + m =? q) eqn:E; cbn.
  - split_and!; [lia..|]. eapply ordered_weaken; [reflexivity| |apply Ho2]. lia.
  - destruct Ho2 as (?&?&?). split_and!; [lia..|]. done.
Qed.

Lemma coalesce_ordered : ordered g lo (coalesce l1 base n l2).
Proof.
  unfold coalesce, absorb_prev. pose proof absorb_next_ordered as Hnext.
  destruct l1 as [|[p m] l _] using rev_ind; cbn.
  - cbn in Hb. apply Hnext; lia.
  - rewrite last_snoc. rewrite bound_snoc in Hb. apply ordered_app in Ho1 as [H1 (Hp & Hm & _)].
    destruct (p + m =? base) eqn:E.
    + rewrite length_app, Nat.add_1_r; cbn [pred length]. rewrite take_app_length.
      apply ordered_app; split; [done|]. apply Hnext; lia.
    + rewrite <- app_assoc. apply ordered_app; split; [done|]. cbn. split_and!; [done|done|].
      apply Hnext; lia.
Qed.

Lemma absorb_next_total x : total (absorb_next x l2) = x.2 + total l2.
Proof using l2.
  clear Ho2. destruct x as [b m], l2 as [|[q k] l2']; cbn; [lia|]. case_match; cbn; lia.
Qed.

Lemma coalesce_total : total (coalesce l1 base n l2) = total l1 + n + total l2.
Proof using l1 l2 base n.
  clear Ho1 Hb Ho2.
  unfold coalesce, absorb_prev. destruct l1 as [|[p m] l _] using rev_ind; cbn.
  - rewrite absorb_next_total. cbn. lia.
  - rewrite last_snoc, total_app. cbn [total]. destruct (p + m =? base) eqn:E.
    + rewrite length_app, Nat.add_1_r; cbn [pred length]. rewrite take_app_length.
      rewrite total_app, absorb_next_total. cbn. lia.
    + rewrite !total_app, absorb_next_total. cbn. lia.
Qed.

Lemma absorb_next_covers b m i :
  0 < m -> covers (absorb_next (b, m) l2) i <-> b <= i < b + m \/ covers l2 i.
Proof.
  intros Hm. clear Ho1 Hb. destruct l2 as [|[q k] l2']; cbn.
  - rewrite covers_cons. done.
  - destruct (b + m =? q) eqn:E; rewrite !covers_cons; [|done].
    destruct Ho2 as (_ & ? & _).
    assert (b <= i < b + (m + k) <-> b <= i < b + m \/ q <= i < q + k) as -> by lia. tauto.
Qed.

Lemma coalesce_covers i :
  covers (coalesce l1 base n l2) i <-> covers l1 i \/ base <= i < base + n \/ covers l2 i.
Proof.
  pose proof absorb_next_covers as Hnext. pose proof (covers_nil i) as Hnil.
  unfold coalesce, absorb_prev. destruct l1 as [|[p m] l _] using rev_ind; cbn.
  - rewrite Hnext by done. tauto.
  - rewrite last_snoc. apply ordered_app in Ho1 as [_ (_ & Hm & _)].
    destruct (p + m =? base) eqn:E.
    + rewrite length_app, Nat.add_1_r; cbn [pred length]. rewrite take_app_length.
      rewrite !covers_app, covers_cons, Hnext by lia.
      assert (p <= i < p + (m + n) <-> p <= i < p + m \/ base <= i < base + n) as -> by lia.
      tauto.
    + rewrite !covers_app, covers_cons, Hnext by lia. tauto.
Qed.
End coalesce.

(** The region [base .. base+n) contains no free frame. *)
Definition unused (bl : list block) (base n : Z) : Prop :=
  forall i, base <= i < base + n -> ~ covers bl i.

Lemma split_at_free g lo bl base n :
  0 <= g -> 0 < n -> lo <= base -> ordered g lo bl -> unused bl base n ->
  bound 0 lo (below base bl) <= base /\ ordered g (base + n) (above base bl).
Proof.
  intros Hg Hn Hlo Ho Hu. pose proof (below_above base bl) as He.
  pose proof (above_front base bl) as Hf. unfold unused in Hu.
  rewrite <- He in Ho, Hu. apply ordered_app in Ho as [Ho1 Ho2]. split.
  - eapply bound_covers; [done|exact Ho1|done|apply below_le|].
    intros Hc. apply (Hu base); [lia|]. apply covers_app; by left.
  - destruct (above base bl) as [|[b m] l2]; [done|]. cbn in *. destruct Ho2 as (?&?&?).
    split_and!; [|done..]. destruct (decide (base + n <= b)); [done|].
    destruct (Hu b); [lia|]. apply covers_app; right. apply covers_cons. left; lia.
Qed.

Lemma free_block_ordered g lo bl base n :
  0 <= g <= 1 -> 0 < n -> lo <= base -> ordered g lo bl -> unused bl base n ->
  ordered g lo (free_block base n bl).
Proof.
  intros Hg Hn Hlo Ho Hu. destruct (split_at_free g lo bl base n) as [H1 H2]; [lia|done..|].
  apply coalesce_ordered; [done..| |done|done].
  rewrite <- (below_above base bl) in Ho. by apply ordered_app in Ho as [? _].
Qed.

Lemma free_block_total bl base n : total (free_block base n bl) = total bl + n.
Proof.
  unfold free_block. rewrite coalesce_total.
  rewrite <- (below_above base bl) at 3. rewrite total_app. lia.
Qed.

Lemma free_block_covers g lo bl base n i :
  0 <= g <= 1 -> 0 < n -> lo <= base -> ordered g lo bl -> unused bl base n ->
  covers (free_block base n bl) i <-> covers bl i \/ base <= i < base + n.
Proof.
  intros Hg Hn Hlo Ho Hu. destruct (split_at_free g lo bl base n) as [H1 H2]; [lia|done..|].
  rewrite <- (below_above base bl) in Ho. apply ordered_app in Ho as [Ho1 _].
  unfold free_block. rewrite (coalesce_covers g lo) by done.
  rewrite <- (below_above base bl) at 3. rewrite covers_app. tauto.
Qed.
