(* ===== verification/FreeArea.v ===== *)
(** The free list of blocks kept by the first-fit and best-fit page allocators
    (lab8/kern/mm/default_pmm.c; lab2_Dou/kern/mm/best_fit_pmm.c has the same text): ordered insertion,
    carving a block, the descriptor loops, merging with the neighbours.

    [fl_inv] relates an allocator state to an abstract free list of [Blocks];
    the [*_correct] lemmas say that each piece of code performs the abstract
    operation.  The pieces are assembled in [DefaultPmm] and [BestFitPmm]. *)
From S2P Require Import Prelude Lists Page Blocks.

(** * The code *)
(** One turn of [while ((le = list_next(le)) != &free_list)] in the ordered
    insertion of block [base]. *)
Definition insert_step (base : Z) (st : gmap link (list_entry link) * link)
    : res (gmap link (list_entry link) * link + gmap link (list_entry link)) :=
  let '(h, le) := st in
  le ← list_next h le;
  if decide (le = FreeList) then Ok (inr h)
  else
    page ← le2page le;
    if base <? page then
      h ← list_add_before h le (PageLink base);
      Ok (inr h)
    else
      n ← list_next h le;
      if decide (n = FreeList) then
        h ← list_add h le (PageLink base);
        Ok (inl (h, le))
      else Ok (inl (h, le)).

(** The whole insertion; every live entry is visited at most once, so the
    number of live entries bounds the turns. *)
Definition insert_free (base : Z) (h : gmap link (list_entry link))
    : res (gmap link (list_entry link)) :=
  e ← list_empty h FreeList;
  if (e : bool) then list_add h FreeList (PageLink base)
  else loop (insert_step base) (S (size h)) (h, FreeList).

Fixpoint memmap_pages (s : free_area) (p : Z) (n : nat) : res free_area :=
  match n with
  | O => Ok s
  | S n' =>
      pg ← deref (pages s) p;
      _ ← c_assert (PageReserved pg);
      s ← upd_page s p (fun _ => MkPage 0 0 0);
      memmap_pages s (p + 1) n'
  end.

(** The text shared by [init_memmap] and [free_pages] after the descriptor loop. *)
Definition head_and_count (s : free_area) (base n : Z) : res free_area :=
  s ← upd_page s base (set_property (u32 n));
  s ← upd_page s base SetPageProperty;
  Ok (with_nr_free s (u32 (nr_free s + n))).

(** The common end of the allocation routines: unlink [page], give its first
    [n] frames away and put the remainder back in its place. *)
Definition carve (s : free_area) (page n : Z) : res free_area :=
  pv ← list_prev (links s) (PageLink page);
  h ← list_del (links s) (PageLink page);
  let s := with_links s h in
  pg ← deref (pages s) page;
  s ← (if n <? property pg then
         let p := page + n in
         s ← upd_page s p (set_property (u32 (property pg - n)));
         s ← upd_page s p SetPageProperty;
         h ← list_add (links s) pv (PageLink p);
         Ok (with_links s h)
       else Ok s);
  let s := with_nr_free s (u32 (nr_free s - n)) in
  upd_page s page ClearPageProperty.

Fixpoint free_loop (s : free_area) (p : Z) (n : nat) : res free_area :=
  match n with
  | O => Ok s
  | S n' =>
      pg ← deref (pages s) p;
      _ ← c_assert (negb (PageReserved pg) && negb (PageProperty pg));
      s ← upd_page s p (fun pg => MkPage 0 0 (property pg));
      free_loop s (p + 1) n'
  end.

(** Merging [base] into the free block just below it; returns the block that
    now holds [base]'s frames. *)
Definition merge_prev (s : free_area) (base : Z) : res (free_area * Z) :=
  le ← list_prev (links s) (PageLink base);
  if decide (le = FreeList) then Ok (s, base)
  else
    p ← le2page le;
    pg ← deref (pages s) p;
    if p + property pg =? base then
      bg ← deref (pages s) base;
      s ← upd_page s p (set_property (u32 (property pg + property bg)));
      s ← upd_page s base ClearPageProperty;
      h ← list_del (links s) (PageLink base);
      Ok (with_links s h, p)
    else Ok (s, base).

Definition merge_next (s : free_area) (base : Z) : res free_area :=
  le ← list_next (links s) (PageLink base);
  if decide (le = FreeList) then Ok s
  else
    p ← le2page le;
    bg ← deref (pages s) base;
    if base + property bg =? p then
      pg ← deref (pages s) p;
      s ← upd_page s base (set_property (u32 (property bg + property pg)));
      s ← upd_page s p ClearPageProperty;
      h ← list_del (links s) (PageLink p);
      Ok (with_links s h)
    else Ok s.


(** * Well-formed allocator states *)
Definition block_link (x : block) : link := PageLink x.1.

(** [fl_inv npg g s bl]: state [s] of an allocator over [npg] frames holds the
    free list [bl]. *)
Record fl_inv (npg g : Z) (s : free_area) (bl : list block) : Prop := FlInv {
  fl_npg : npg < 2 ^ 32;
  fl_pages : forall i, is_Some (pages s !! i) <-> 0 <= i < npg;
  fl_links : forall i, 0 <= i < npg -> is_Some (links s !! PageLink i);
  fl_dll : dll (links s) FreeList (block_link <$> bl);
  fl_ordered : ordered g 0 bl;
  fl_bound : bound 0 0 bl <= npg;
  fl_marked : marked (pages s) (fun x => x ∈ bl);
  fl_usable : forall i, covers bl i -> page_free_ok (pages s) i;
  fl_count : nr_free s = total bl
}.

Lemma le2page_link i : le2page (PageLink i) = Ok i.
Proof. done. Qed.

Lemma fmap_last_link bl : List.last (block_link <$> bl) FreeList =
  match last bl with Some x => PageLink x.1 | None => FreeList end.
Proof.
  destruct bl as [|x bl _] using rev_ind; [done|].
  rewrite fmap_app, last_snoc. cbn. by rewrite last_app_cons.
Qed.

(** ** Facts about well-formed states *)
Section inv.
Context (npg g : Z) (Hg : 0 <= g <= 1).

Lemma fl_block_page s bl b m :
  fl_inv npg g s bl -> (b, m) ∈ bl ->
  exists p, pages s !! b = Some p /\ property p = m /\ PageProperty p = true /\
    0 <= b /\ 0 < m /\ b + m <= npg.
Proof.
  intros Hinv Hin.
  destruct (ordered_elem 0 0 bl b m) as (Hb & Hm & He); [done| |done|].
  { eapply ordered_weaken; [| |apply Hinv]; lia. }
  pose proof (fl_bound _ _ _ _ Hinv).
  destruct (proj2 (fl_pages _ _ _ _ Hinv b)) as [p Hp]; [lia|].
  exists p. destruct (proj1 (fl_marked _ _ _ _ Hinv b p Hp m) Hin). split_and!; auto; lia.
Qed.

Lemma fl_total_le s bl : fl_inv npg g s bl -> 0 <= total bl <= npg.
Proof.
  intros Hinv. pose proof (ordered_weaken g 0 0 0 bl ltac:(lia) ltac:(lia) (fl_ordered _ _ _ _ Hinv)) as Ho.
  pose proof (ordered_bound 0 0 bl ltac:(lia) Ho). pose proof (total_nonneg _ _ _ Ho).
  pose proof (fl_bound _ _ _ _ Hinv). lia.
Qed.

Lemma fl_fuel s bl : fl_inv npg g s bl -> (length bl < S (size (links s)))%nat.
Proof. intros Hinv. pose proof (dll_length _ _ _ (fl_dll _ _ _ _ Hinv)) as Hl. rewrite length_fmap in Hl. lia. Qed.

(** The bases of the blocks around a chosen one. *)
Lemma ordered_split l1 b m l2 x :
  ordered g 0 (l1 ++ (b, m) :: l2) -> x ∈ l1 ++ l2 -> x.1 < b \/ b + m <= x.1.
Proof.
  intros Ho%(ordered_weaken g 0 0 0); [|lia..]. destruct x as [c k].
  apply ordered_app in Ho as [Ho1 (Hb & Hm & Ho2)]. rewrite elem_of_app. intros [Hin|Hin].
  - apply (ordered_elem 0 0) in Hin as (?&?&?); [|lia|done]. left; cbn; lia.
  - apply (ordered_elem 0 (b + m + 0)) in Hin as (?&?&?); [|lia|done]. right; cbn; lia.
Qed.
End inv.

(** ** Carving a block *)
Section carve.
Context (npg g : Z) (Hg : 0 <= g <= 1).

Lemma fl_links_live s bl h bl' l i :
  fl_inv npg g s bl -> dll h FreeList (block_link <$> bl') ->
  same_outside (links s) h l -> l ⊆ FreeList :: (block_link <$> bl') ->
  0 <= i < npg -> is_Some (h !! PageLink i).
Proof.
  intros Hinv Hd Ho Hl Hi. eapply same_outside_live; [exact Hd|exact Ho|exact Hl|].
  by apply (fl_links _ _ _ _ Hinv).
Qed.

Lemma usable_insert bl bl' pg i p :
  (forall j, covers bl j -> page_free_ok pg j) -> (forall j, covers bl' j -> covers bl j) ->
  (PageReserved p = false) -> forall j, covers bl' j -> page_free_ok (<[i := p]> pg) j.
Proof. intros Hu Hsub Hp j Hj. apply page_free_ok_insert; auto. Qed.

(** Facts about a block in the middle of a well-formed free list. *)
Lemma carve_facts s l1 b m l2 n :
  fl_inv npg g s (l1 ++ (b, m) :: l2) -> 0 < n <= m ->
  ordered g 0 (l1 ++ rest n (b, m) ++ l2) /\
  bound 0 0 (l1 ++ rest n (b, m) ++ l2) <= npg /\
  u32 (nr_free s - n) = total (l1 ++ rest n (b, m) ++ l2) /\
  (forall i, covers (l1 ++ rest n (b, m) ++ l2) i -> covers (l1 ++ (b, m) :: l2) i) /\
  (forall x, x ∈ l1 ++ l2 -> x.1 < b \/ b + m <= x.1).
Proof.
  intros Hinv Hn. pose proof (fl_ordered _ _ _ _ Hinv) as Ho.
  pose proof (carve_ordered g 0 l1 b m l2 n ltac:(lia) Hn Ho) as Ho'.
  pose proof (carve_total l1 b m l2 n ltac:(lia)) as Ht.
  pose proof (fl_total_le npg g Hg s _ Hinv). pose proof (fl_npg _ _ _ _ Hinv).
  pose proof (total_nonneg _ _ _ Ho'). split_and!; [done| | | |].
  - etrans; [|apply (fl_bound _ _ _ _ Hinv)]. apply carve_bound; [done|].
    apply ordered_app in Ho as [_ (?&_)]. pose proof (bound_gap g 0 0 l1 ltac:(lia)). lia.
  - rewrite (fl_count _ _ _ _ Hinv), Ht. apply u32_small. lia.
  - intros i. rewrite (carve_covers g 0) by (done || lia). tauto.
  - intros x Hx. by eapply ordered_split.
Qed.

(** The code of [carve] up to the descriptor updates. *)
Lemma carve_run s l1 b m l2 n p :
  fl_inv npg g s (l1 ++ (b, m) :: l2) -> 0 < n <= m -> pages s !! b = Some p ->
  exists h pg, carve s b n =
      Ok (FreeArea (<[b := ClearPageProperty p]> pg) h (u32 (nr_free s - n))) /\
    dll h FreeList (block_link <$> l1 ++ rest n (b, m) ++ l2) /\
    (forall i, 0 <= i < npg -> is_Some (h !! PageLink i)) /\
    (if n <? m then exists q, pages s !! (b + n) = Some q /\
       pg = <[b + n := SetPageProperty (set_property (m - n) q)]> (pages s)
     else pg = pages s).
Proof.
  intros Hinv Hn Hpb. pose proof (fl_dll _ _ _ _ Hinv) as Hd.
  rewrite fmap_app in Hd. cbn in Hd. change (block_link (b, m)) with (PageLink b) in Hd.
  destruct (fl_block_page npg g Hg s _ b m Hinv) as (p' & ? & Hpm & _ & Hb & Hm & He);
    [set_solver|]. simplify_eq.
  unfold carve. rewrite (proj2 (list_prev_ok _ _ _) (dll_prev_in _ _ _ _ _ Hd)).
  destruct (list_del_dll _ _ _ _ _ Hd) as (h & Hdel & Hd' & Ho). cbn. rewrite Hdel. cbn.
  rewrite (deref_some _ _ _ Hpb). cbn.
  assert (forall i, 0 <= i < npg -> is_Some (h !! PageLink i)) as Hlive.
  { intros i Hi. eapply fl_links_live; [exact Hinv|by rewrite fmap_app|exact Ho| |done].
    rewrite fmap_app. set_solver. }
  unfold rest. cbn [fst snd]. destruct (n <? property p) eqn:E; cbn.
  - destruct (proj2 (fl_pages _ _ _ _ Hinv (b + n))) as [q Hq]; [lia|].
    rewrite (upd_page_ok _ _ _ q) by done. cbn.
    rewrite (upd_page_ok _ _ _ (set_property (u32 (property p - n)) q)) by apply lookup_insert_eq.
    cbn. pose proof (fl_npg _ _ _ _ Hinv). rewrite u32_small by lia.
    destruct (list_add_after_dll _ _ _ _ (PageLink (b + n)) Hd') as (h2 & Hadd & Hd2 & Ho2).
    { apply Hlive. lia. }
    { rewrite <- fmap_app, not_elem_of_cons. split; [done|].
      intros (x & [= Hx] & Hin)%list_elem_of_fmap.
      destruct (ordered_split g Hg l1 b (property p) l2 x (fl_ordered _ _ _ _ Hinv) Hin); lia. }
    unfold list_add. rewrite Hadd. cbn. rewrite (upd_page_ok _ _ _ p).
    2: { cbn. rewrite !lookup_insert_ne by lia. done. }
    cbn. rewrite insert_insert_eq. eexists _, _; split; [reflexivity|]. split_and!.
    + rewrite fmap_app. done.
    + intros i Hi. eapply same_outside_live; [exact Hd2|exact Ho2| |by apply Hlive]. set_solver.
    + eauto.
  - rewrite (upd_page_ok _ _ _ p) by done. eexists _, _; split; [reflexivity|].
    split_and!; [by rewrite fmap_app|done|done].
Qed.

Lemma carve_correct s l1 b m l2 n :
  fl_inv npg g s (l1 ++ (b, m) :: l2) -> 0 < n <= m ->
  exists s', carve s b n = Ok s' /\ fl_inv npg g s' (l1 ++ rest n (b, m) ++ l2).
Proof.
  intros Hinv Hn.
  destruct (fl_block_page npg g Hg s _ b m Hinv) as (p & Hpb & Hpm & Hpp & Hb & Hm & He); [set_solver|].
  destruct (carve_facts s l1 b m l2 n Hinv Hn) as (Hord & Hbd & Ht & Hcov & Hsplit).
  destruct (carve_run s l1 b m l2 n p Hinv Hn Hpb) as (h & pg & -> & Hd & Hlive & Hpg).
  assert (forall i, covers (l1 ++ (b, m) :: l2) i -> page_free_ok (pages s) i) as Hu by apply Hinv.
  assert (forall i q, covers (l1 ++ (b, m) :: l2) i -> pages s !! i = Some q ->
            PageReserved q = false) as Hres.
  { intros i q Hi Hq. destruct (Hu i Hi) as (q' & ? & ?). by simplify_eq. }
  assert (forall i, b <= i < b + m -> covers (l1 ++ (b, m) :: l2) i) as Hin.
  { intros i Hi. apply covers_app; right; apply covers_cons; by left. }
  eexists; split; [done|]. unfold rest in *; cbn [fst snd] in *.
  destruct (n <? m) eqn:E; [destruct Hpg as (q & Hq & ->)|subst pg]; (split; cbn; try done;
    [apply Hinv|intros i|..]).
  - rewrite !is_some_insert by (rewrite ?is_some_insert; eauto). apply Hinv.
  - eapply marked_ext; [|apply marked_insert, marked_insert, (fl_marked _ _ _ _ Hinv)].
    intros [c k] _. cbn. rewrite PageProperty_clear, PageProperty_set.
    assert ((c, k) ∈ l1 ++ l2 -> c < b \/ b + m <= c) as Hck by apply Hsplit.
    rewrite elem_of_app in Hck.
    repeat case_decide; subst; rewrite !elem_of_app, !elem_of_cons.
    + split; [by intros [??]|]. intros [?|[[= ? ?]|?]]; [|lia|]; exfalso; naive_solver lia.
    + split; [intros [_ ->]; auto|]. intros [?|[[= ->]|?]]; [|done|]; exfalso; naive_solver lia.
    + split; intros [?|[[=]|?]]; try lia; auto.
  - intros j Hj. apply page_free_ok_insert; [apply page_free_ok_insert|]; [by apply Hu, Hcov| |].
    + intros _. rewrite PageReserved_set. apply (Hres (b + n) q); [apply Hin; lia|done].
    + intros _. rewrite PageReserved_clear. apply (Hres b p); [apply Hin; lia|done].
  - rewrite is_some_insert by eauto. apply Hinv.
  - eapply marked_ext; [|apply marked_insert, (fl_marked _ _ _ _ Hinv)].
    intros [c k] _. cbn. rewrite PageProperty_clear.
    assert ((c, k) ∈ l1 ++ l2 -> c < b \/ b + m <= c) as Hck by apply Hsplit.
    rewrite elem_of_app in Hck. case_decide; subst; rewrite !elem_of_app, ?elem_of_cons.
    + split; [by intros [??]|]. intros ?; exfalso; naive_solver lia.
    + split; [intros [?|[[=]|?]]; try lia; auto|tauto].
  - intros j Hj. apply page_free_ok_insert; [by apply Hu, Hcov|].
    intros _. rewrite PageReserved_clear. apply (Hres b p); [apply Hin; lia|done].
Qed.
End carve.

(** ** Ordered insertion *)
Lemma last_link_snoc d j : List.last (PageLink <$> d ++ [j]) FreeList = PageLink j.
Proof. rewrite fmap_app. cbn. by rewrite last_app_cons. Qed.

(** Walking past the blocks [r] that start at or below [base] and linking the
    new block before the first that starts above it. *)
Lemma insert_loop h d r k l2 base fuel h' :
  dll h FreeList ((PageLink <$> d ++ r) ++ PageLink k :: l2) ->
  Forall (fun i => i <= base) r -> base < k -> (length r < fuel)%nat ->
  list_add_before h (PageLink k) (PageLink base) = Ok h' ->
  loop (insert_step base) fuel (h, List.last (PageLink <$> d) FreeList) = Ok h'.
Proof.
  revert d fuel. induction r as [|j r IH]; intros d fuel Hd Hr Hk Hf Hadd;
    (destruct fuel as [|fuel]; [cbn in Hf; lia|]); rewrite loop_S; unfold insert_step at 1.
  - rewrite app_nil_r in Hd. rewrite (list_next_at _ _ _ _ _ Hd). cbn.
    rewrite decide_False by done. rewrite (proj2 (Z.ltb_lt _ _) Hk), Hadd. done.
  - apply Forall_cons in Hr as [Hj Hr].
    rewrite fmap_app, <- app_assoc in Hd. cbn in Hd.
    rewrite (list_next_at _ _ _ _ _ Hd). cbn. rewrite decide_False by done.
    rewrite (proj2 (Z.ltb_ge _ _)) by lia.
    rewrite (proj2 (list_next_ok _ _ _) (dll_next_in _ _ _ _ _ Hd)). cbn.
    rewrite decide_False by (by destruct r).
    specialize (IH (d ++ [j]) fuel). rewrite last_link_snoc in IH.
    apply IH; [|done|done|cbn in Hf; lia|done].
    rewrite !fmap_app, <- !app_assoc. done.
Qed.

(** The last turns when every block starts at or below [base]: the block is
    appended, and appended once more after itself. *)
Lemma insert_loop_tail h d r j base fuel h' :
  dll h FreeList (PageLink <$> d ++ r ++ [j]) ->
  Forall (fun i => i <= base) (r ++ [j]) -> (S (S (length r)) < fuel)%nat ->
  base ∉ d ++ r ++ [j] ->
  list_add h (PageLink j) (PageLink base) = Ok h' ->
  dll h' FreeList (PageLink <$> d ++ r ++ [j; base]) ->
  loop (insert_step base) fuel (h, List.last (PageLink <$> d) FreeList) =
    list_add h' (PageLink base) (PageLink base).
Proof.
  revert d fuel. induction r as [|i r IH]; intros d fuel Hd Hr Hf Hn Hadd Hd';
    (destruct fuel as [|fuel]; [cbn in Hf; lia|]); rewrite loop_S; unfold insert_step at 1.
  - cbn [app] in *. rewrite fmap_app in Hd. cbn in Hd. rewrite Forall_singleton in Hr.
    rewrite (list_next_at _ _ _ _ _ Hd). cbn. rewrite decide_False by done.
    rewrite (proj2 (Z.ltb_ge _ _)) by lia.
    rewrite (proj2 (list_next_ok _ _ _) (dll_next_in _ _ _ _ _ Hd)). cbn.
    rewrite decide_True by done. rewrite Hadd. cbn.
    destruct fuel as [|fuel]; [lia|]. rewrite loop_S. unfold insert_step at 1.
    rewrite fmap_app in Hd'. cbn in Hd'.
    rewrite (proj2 (list_next_ok _ _ _) (dll_next_in _ _ _ _ _ Hd')). cbn.
    rewrite decide_False, Z.ltb_irrefl by done.
    change (PageLink j :: [PageLink base]) with ([PageLink j] ++ [PageLink base]) in Hd'.
    rewrite app_assoc in Hd'.
    assert (list_next h' (PageLink base) = Ok FreeList) as Hnb.
    { apply list_next_ok. by apply dll_next_in in Hd'. }
    rewrite Hnb. cbn. rewrite decide_True by done. cbn.
    unfold list_add, list_add_after. rewrite Hnb. cbn.
    assert (PageLink base ∈ (PageLink <$> d) ++ [PageLink j; PageLink base]) as Hb by set_solver.
    destruct (list_add_run h' (PageLink base) (PageLink base) FreeList) as (h2 & Hrun & Hn2 & _).
    1-3: eapply dll_live; [exact Hd'|]; set_solver.
    rewrite Hrun. cbn. destruct fuel as [|fuel]; [lia|]. rewrite loop_S. unfold insert_step at 1.
    assert (list_next h2 (PageLink base) = Ok FreeList) as ->.
    { apply list_next_ok. by rewrite Hn2, decide_True. }
    done.
  - apply Forall_cons in Hr as [Hj Hr]. pose proof Hd as Hd0.
    rewrite fmap_app in Hd. cbn in Hd.
    rewrite (list_next_at _ _ _ _ _ Hd). cbn. rewrite decide_False by done.
    rewrite (proj2 (Z.ltb_ge _ _)) by lia.
    rewrite (proj2 (list_next_ok _ _ _) (dll_next_in _ _ _ _ _ Hd)). cbn.
    rewrite decide_False by (by destruct r).
    specialize (IH (d ++ [i]) fuel). rewrite last_link_snoc in IH.
    apply IH; rewrite <- ?app_assoc; [done|done|cbn in Hf; lia|done|done|done].
Qed.

Lemma block_links bl : block_link <$> bl = PageLink <$> bl.*1.
Proof. by rewrite <- list_fmap_compose. Qed.

Lemma not_in_links base (bl : list block) :
  base ∉ bl.*1 -> PageLink base ∉ FreeList :: (block_link <$> bl).
Proof.
  intros Hb. rewrite block_links, not_elem_of_cons. split; [done|].
  intros (x & [= <-] & ?)%list_elem_of_fmap. done.
Qed.

Lemma insert_free_ok base n h bl :
  dll h FreeList (block_link <$> bl) -> is_Some (h !! PageLink base) -> base ∉ bl.*1 ->
  above base bl <> [] \/ bl = [] ->
  exists h', insert_free base h = Ok h' /\
    dll h' FreeList (block_link <$> below base bl ++ (base, n) :: above base bl) /\
    same_outside h h' (PageLink base :: FreeList :: (block_link <$> bl)).
Proof.
  intros Hd Hl Hn Hc. unfold insert_free. rewrite (list_empty_dll _ _ _ Hd). cbn [mbind res_bind].
  pose proof (not_in_links base bl Hn) as Hfresh.
  destruct bl as [|x bl].
  - destruct (list_add_after_dll h FreeList [] [] (PageLink base)) as (h' & Hadd & Hd' & Ho);
      [done|done|done|]. exists h'. cbn. split_and!; done.
  - rewrite bool_decide_false by done. destruct Hc as [Hc|]; [|done].
    remember (x :: bl) as l eqn:Hl0. clear Hl0. pose proof (below_above base l) as He.
    pose proof (below_le base l) as Hle. pose proof (above_front base l) as Hf.
    destruct (above base l) as [|[k m] l2] eqn:Ha; [done|]. cbn in Hf.
    rewrite <- He, fmap_app in Hd. cbn in Hd.
    change (block_link (k, m)) with (PageLink k) in Hd.
    destruct (list_add_before_dll h FreeList _ _ (PageLink base) Hd Hl) as (h' & Hadd & Hd' & Ho).
    { rewrite <- He, fmap_app in Hfresh. done. }
    exists h'. split_and!.
    + cbn in Hadd. pose proof (dll_length _ _ _ Hd) as Hlen.
      eapply (insert_loop h [] (below base l).*1 k); [| |exact Hf| |exact Hadd].
      * cbn [app]. rewrite <- block_links. exact Hd.
      * by rewrite Forall_fmap.
      * rewrite length_app, length_fmap in Hlen. rewrite length_fmap. cbn in Hlen. lia.
    + rewrite fmap_app. exact Hd'.
    + rewrite <- He, fmap_app. exact Ho.
Qed.

Lemma insert_free_tail base n h bl :
  dll h FreeList (block_link <$> bl) -> is_Some (h !! PageLink base) -> base ∉ bl.*1 ->
  above base bl = [] -> bl <> [] ->
  exists h1, insert_free base h = Ok (<[PageLink base := ListEntry (PageLink base) FreeList]> h1) /\
    dll h1 FreeList (block_link <$> bl ++ [(base, n)]) /\
    same_outside h h1 (PageLink base :: FreeList :: (block_link <$> bl)).
Proof.
  intros Hd Hl Hn Ha Hne. unfold insert_free. rewrite (list_empty_dll _ _ _ Hd). cbn [mbind res_bind].
  rewrite bool_decide_false by (by destruct bl).
  pose proof (not_in_links base bl Hn) as Hfresh.
  pose proof (below_above base bl) as He. rewrite Ha, app_nil_r in He.
  pose proof (below_le base bl) as Hle. rewrite He in Hle.
  destruct bl as [|[j m] r _] using rev_ind; [done|].
  destruct (list_add_after_dll h FreeList (block_link <$> r ++ [(j, m)]) [] (PageLink base))
    as (h1 & Hadd & Hd1 & Ho); [by rewrite app_nil_r|done|by rewrite app_nil_r|].
  rewrite fmap_last_link, last_snoc in Hadd. cbn in Hadd.
  exists h1. rewrite app_nil_r in Ho. split_and!; [|by rewrite fmap_app|done].
  rewrite (insert_loop_tail h [] r.*1 j base _ h1).
  - unfold list_add, list_add_after. pose proof Hd1 as Hd1'. apply dll_next_in in Hd1.
    apply list_next_ok in Hd1 as Hnb. rewrite Hnb. cbn.
    destruct (list_add_run h1 (PageLink base) (PageLink base) FreeList) as (h2 & -> & N2 & P2).
    1-3: eapply dll_live; [exact Hd1'|set_solver].
    f_equal. apply map_eq. intros x. destruct (decide (x = PageLink base)) as [->|Hx].
    + rewrite lookup_insert_eq. specialize (N2 (PageLink base)). specialize (P2 (PageLink base)).
      rewrite decide_True in N2, P2 by done. unfold nxt, prv in *.
      destruct (h2 !! _) as [[]|]; cbn in *; congruence.
    + rewrite lookup_insert_ne by done. apply lookup_views; [by rewrite N2, !decide_False by done|].
      rewrite P2, decide_False by done. case_decide as Hf; [|done]. subst.
      apply dll_prev in Hd1'. by rewrite last_app_cons in Hd1'.
  - rewrite block_links, fmap_app in Hd. done.
  - change (Forall (fun i => i <= base) (r.*1 ++ [(j, m)].*1)). by rewrite <- fmap_app, Forall_fmap.
  - pose proof (dll_length _ _ _ Hd) as Hlen.
    pose proof (live_length h (PageLink base :: FreeList :: (block_link <$> r ++ [(j, m)]))) as Hlen2.
    rewrite length_fmap. enough (length (PageLink base :: FreeList :: (block_link <$> r ++ [(j, m)])) <= size h)%nat as Hlt.
    { cbn in Hlt. rewrite length_fmap, length_app in Hlt. cbn in Hlt. lia. }
    apply Hlen2; [apply NoDup_cons; split; [done|apply Hd]|].
    intros x [->|Hx]%elem_of_cons; [done|]. eapply dll_live; [exact Hd|]. by apply elem_of_cons.
  - rewrite fmap_app in Hn. done.
  - done.
  - rewrite block_links, fmap_app in Hd1. cbn in Hd1. rewrite !fmap_app in *. rewrite <- app_assoc in Hd1. done.
Qed.

(** ** Merging two adjacent blocks *)
Lemma fl_regap npg g g' s bl :
  fl_inv npg g s bl -> ordered g' 0 bl -> fl_inv npg g' s bl.
Proof. intros [] Ho. by split. Qed.

Section join.
Context (npg : Z).

Lemma join_lists l1 p m k l2 i :
  covers (l1 ++ (p, m + k) :: l2) i -> 0 < m -> 0 < k ->
  covers (l1 ++ (p, m) :: (p + m, k) :: l2) i.
Proof.
  rewrite !covers_app, !covers_cons. intros [?|[?|?]] ??; [by left| |tauto].
  destruct (decide (i < p + m)); right; [left|right; left]; lia.
Qed.

Lemma join_correct s l1 p m k l2 :
  fl_inv npg 0 s (l1 ++ (p, m) :: (p + m, k) :: l2) ->
  exists s1 s2 h, upd_page s p (set_property (u32 (m + k))) = Ok s1 /\
    upd_page s1 (p + m) ClearPageProperty = Ok s2 /\
    links s2 = links s /\
    list_del (links s2) (PageLink (p + m)) = Ok h /\
    fl_inv npg 0 (with_links s2 h) (l1 ++ (p, m + k) :: l2).
Proof.
  intros Hinv. pose proof (fl_ordered _ _ _ _ Hinv) as Ho.
  destruct (fl_block_page npg 0 ltac:(lia) s _ p m Hinv) as (pp & Hp & Hpm & Hpp & ?); [set_solver|].
  destruct (fl_block_page npg 0 ltac:(lia) s _ (p + m) k Hinv) as (q & Hq & Hqk & Hqp & ?); [set_solver|].
  pose proof (fl_dll _ _ _ _ Hinv) as Hd. pose proof (fl_npg _ _ _ _ Hinv).
  change ((p, m) :: (p + m, k) :: l2) with ([(p, m)] ++ (p + m, k) :: l2) in Hd.
  rewrite app_assoc, fmap_app, fmap_cons in Hd.
  destruct (list_del_dll _ _ _ (block_link (p + m, k)) _ Hd) as (h & Hdel & Hd' & Hout).
  rewrite (upd_page_ok _ _ _ pp) by done. do 3 eexists. split; [done|].
  rewrite (upd_page_ok _ _ _ q) by (cbn; rewrite lookup_insert_ne by lia; done).
  split; [done|]. split; [done|]. split; [exact Hdel|].
  rewrite u32_small by lia.
  assert (forall x, x ∈ l1 ++ (p + m, k) :: l2 -> x.1 < p \/ p + m <= x.1) as Hs1.
  { intros x Hx. by eapply (ordered_split 0). }
  assert (forall x, x ∈ (l1 ++ [(p, m)]) ++ l2 -> x.1 < p + m \/ p + m + k <= x.1) as Hs2.
  { intros x Hx. eapply (ordered_split 0 ltac:(lia) (l1 ++ [(p, m)]) (p + m) k l2); [|done].
    rewrite <- app_assoc. exact Ho. }
  assert (forall x, covers (l1 ++ (p, m + k) :: l2) x -> page_free_ok (pages s) x) as Hu.
  { intros x Hx%join_lists; [|lia..]. by apply (fl_usable _ _ _ _ Hinv). }
  assert (forall x r, p <= x < p + (m + k) -> pages s !! x = Some r -> PageReserved r = false) as Hres.
  { intros x r Hx Hr. destruct (Hu x) as (r' & ? & ?); [|by simplify_eq].
    apply covers_app; right; apply covers_cons; by left. }
  split; cbn [pages links nr_free with_links].
  - done.
  - intros i. rewrite !is_some_insert by (rewrite ?is_some_insert; eauto). apply Hinv.
  - intros i Hi. eapply fl_links_live; [exact Hinv| |exact Hout| |done].
    + rewrite <- fmap_app in Hd'. exact Hd'.
    + by rewrite <- fmap_app.
  - rewrite <- fmap_app, <- app_assoc in Hd'. rewrite fmap_app in *. exact Hd'.
  - apply ordered_app in Ho as [? (?&?&?&?&Ho)]. apply ordered_app. split; [done|].
    cbn. split_and!; [lia..|]. eapply ordered_weaken; [reflexivity| |exact Ho]. lia.
  - etrans; [|apply (fl_bound _ _ _ _ Hinv)]. rewrite !bound_app. cbn.
    replace (p + m + 0 + k) with (p + (m + k)) by lia. by replace (p + m + k) with (p + (m + k)) by lia.
  - eapply marked_ext; [|apply marked_insert, marked_insert, (fl_marked _ _ _ _ Hinv)].
    intros [c j] _. cbn [fst snd]. rewrite PageProperty_clear.
    specialize (Hs1 (c, j)). specialize (Hs2 (c, j)). cbn [fst] in Hs1, Hs2.
    rewrite !elem_of_app, elem_of_cons in Hs1. rewrite !elem_of_app, list_elem_of_singleton in Hs2.
    repeat case_decide; subst; rewrite !elem_of_app, !elem_of_cons.
    + split; [by intros [??]|]. intros [?|[[= ? ?]|?]]; [|lia|]; exfalso; naive_solver lia.
    + cbn. replace (PageProperty _) with (PageProperty pp) by done. rewrite Hpp.
      split; [intros [_ <-]; auto|]. intros [?|[[= ->]|?]]; [|done|]; exfalso; naive_solver lia.
    + split; [intros [?|[[=]|[[=]|?]]]; try lia; auto|]. intros [?|[[=]|?]]; try lia; auto.
  - intros j Hj. apply page_free_ok_insert; [apply page_free_ok_insert|]; [by apply Hu| |].
    + intros _. apply (Hres p pp); [lia|done].
    + intros _. rewrite PageReserved_clear. apply (Hres (p + m) q); [lia|done].
  - rewrite (fl_count _ _ _ _ Hinv), !total_app. cbn. lia.
Qed.

Lemma merge_prev_correct s l1 base n l2 :
  fl_inv npg 0 s (l1 ++ (base, n) :: l2) ->
  let '(l1', x) := absorb_prev l1 base n in
  exists s', merge_prev s base = Ok (s', x.1) /\ fl_inv npg 0 s' (l1' ++ x :: l2).
Proof.
  intros Hinv. pose proof (fl_dll _ _ _ _ Hinv) as Hd. rewrite fmap_app in Hd. cbn in Hd.
  change (block_link (base, n)) with (PageLink base) in Hd.
  unfold merge_prev. rewrite (proj2 (list_prev_ok _ _ _) (dll_prev_in _ _ _ _ _ Hd)).
  rewrite fmap_last_link. unfold absorb_prev.
  destruct l1 as [|[p m] l1 _] using rev_ind; cbn [last mbind res_bind].
  { rewrite decide_True by done. eauto. }
  rewrite last_snoc. cbn [mbind res_bind fst]. rewrite decide_False by done.
  destruct (fl_block_page npg 0 ltac:(lia) s _ p m Hinv) as (pp & Hp & Hpm & Hpp & ?); [set_solver|].
  destruct (fl_block_page npg 0 ltac:(lia) s _ base n Hinv) as (q & Hq & Hqk & Hqp & ?); [set_solver|].
  cbn [le2page mbind res_bind]. rewrite (deref_some _ _ _ Hp). cbn [mbind res_bind]. rewrite Hpm.
  destruct (p + m =? base) eqn:E; [|eauto].
  apply Z.eqb_eq in E. subst base. rewrite (deref_some _ _ _ Hq). cbn [mbind res_bind]. rewrite Hqk.
  rewrite <- app_assoc in Hinv. cbn in Hinv.
  destruct (join_correct s l1 p m n l2 Hinv) as (s1 & s2 & h & -> & Hs2 & _ & Hdel & Hinv').
  cbn [mbind res_bind]. rewrite Hs2. cbn [mbind res_bind]. rewrite Hdel. cbn [mbind res_bind].
  rewrite length_app, Nat.add_1_r. cbn [pred]. rewrite take_app_length. eauto.
Qed.

Lemma merge_next_correct s l1 b m l2 :
  fl_inv npg 0 s (l1 ++ (b, m) :: l2) ->
  exists s', merge_next s b = Ok s' /\ fl_inv npg 0 s' (l1 ++ absorb_next (b, m) l2).
Proof.
  intros Hinv. pose proof (fl_dll _ _ _ _ Hinv) as Hd. rewrite fmap_app in Hd. cbn in Hd.
  change (block_link (b, m)) with (PageLink b) in Hd.
  unfold merge_next. rewrite (proj2 (list_next_ok _ _ _) (dll_next_in _ _ _ _ _ Hd)).
  destruct l2 as [|[q k] l2]; cbn [fmap list_fmap mbind res_bind absorb_next fst snd].
  { rewrite decide_True by done. eauto. }
  change (block_link (q, k)) with (PageLink q). rewrite decide_False by done.
  destruct (fl_block_page npg 0 ltac:(lia) s _ b m Hinv) as (pp & Hp & Hpm & Hpp & ?); [set_solver|].
  destruct (fl_block_page npg 0 ltac:(lia) s _ q k Hinv) as (qq & Hq & Hqk & Hqp & ?); [set_solver|].
  cbn [le2page mbind res_bind]. rewrite (deref_some _ _ _ Hp). cbn [mbind res_bind]. rewrite Hpm.
  destruct (b + m =? q) eqn:E; [|eauto].
  apply Z.eqb_eq in E. subst q. rewrite (deref_some _ _ _ Hq). cbn [mbind res_bind]. rewrite Hqk.
  destruct (join_correct s l1 b m k l2 Hinv) as (s1 & s2 & h & -> & Hs2 & _ & Hdel & Hinv').
  cbn [mbind res_bind]. rewrite Hs2. cbn [mbind res_bind]. rewrite Hdel. eauto.
Qed.
End join.

(** ** Descriptor loops *)
Lemma free_loop_run s p k :
  (forall i, p <= i < p + Z.of_nat k ->
     exists q, pages s !! i = Some q /\ PageReserved q = false /\ PageProperty q = false) ->
  exists s', free_loop s p k = Ok s' /\ links s' = links s /\ nr_free s' = nr_free s /\
    forall i, pages s' !! i =
      if decide (p <= i < p + Z.of_nat k) then (fun q => MkPage 0 0 (property q)) <$> pages s !! i
      else pages s !! i.
Proof.
  revert s p. induction k as [|k IH]; intros s p Hq; cbn [free_loop].
  - eexists; split_and!; [done..|]. intros i. by rewrite decide_False by lia.
  - destruct (Hq p) as (q & Hp & Hr & Hf); [lia|].
    rewrite (deref_some _ _ _ Hp). cbn [mbind res_bind]. rewrite Hr, Hf. cbn [negb andb c_assert mbind res_bind].
    rewrite (upd_page_ok _ _ _ q Hp). cbn [mbind res_bind].
    destruct (IH (FreeArea (<[p := MkPage 0 0 (property q)]> (pages s)) (links s) (nr_free s)) (p + 1))
      as (s' & -> & Hl & Hn & Hpg).
    { intros i Hi. cbn. rewrite lookup_insert_ne by lia. apply Hq. lia. }
    exists s'. split_and!; [done..|]. intros i. rewrite Hpg. cbn.
    destruct (decide (i = p)) as [->|Hne].
    + rewrite decide_False, decide_True, lookup_insert_eq, Hp by lia. done.
    + rewrite lookup_insert_ne by done. repeat case_decide; try lia; done.
Qed.

Lemma memmap_pages_run s p k :
  (forall i, p <= i < p + Z.of_nat k -> exists q, pages s !! i = Some q /\ PageReserved q = true) ->
  exists s', memmap_pages s p k = Ok s' /\ links s' = links s /\ nr_free s' = nr_free s /\
    forall i, pages s' !! i =
      if decide (p <= i < p + Z.of_nat k) then Some (MkPage 0 0 0) else pages s !! i.
Proof.
  revert s p. induction k as [|k IH]; intros s p Hq; cbn [memmap_pages].
  - eexists; split_and!; [done..|]. intros i. by rewrite decide_False by lia.
  - destruct (Hq p) as (q & Hp & Hr); [lia|].
    rewrite (deref_some _ _ _ Hp). cbn [mbind res_bind]. rewrite Hr. cbn [c_assert mbind res_bind].
    rewrite (upd_page_ok _ _ _ q Hp). cbn [mbind res_bind].
    destruct (IH (FreeArea (<[p := MkPage 0 0 0]> (pages s)) (links s) (nr_free s)) (p + 1))
      as (s' & -> & Hl & Hn & Hpg).
    { intros i Hi. cbn. rewrite lookup_insert_ne by lia. apply Hq. lia. }
    exists s'. split_and!; [done..|]. intros i. rewrite Hpg. cbn.
    destruct (decide (i = p)) as [->|Hne].
    + rewrite decide_False, decide_True, lookup_insert_eq by lia. done.
    + rewrite lookup_insert_ne by done. repeat case_decide; try lia; done.
Qed.

(** ** Linking a block whose descriptors are ready *)
Section link_block.
Context (npg : Z).

(** The state handed to [insert_free]: block [(base, n)] is flagged and
    counted, but not linked yet. *)
Record ready (s0 s : free_area) (bl : list block) (base n : Z) : Prop := Ready {
  rd_links : links s = links s0;
  rd_nr : nr_free s = u32 (nr_free s0 + n);
  rd_pages : forall i, is_Some (pages s !! i) <-> 0 <= i < npg;
  rd_marked : marked (pages s) (fun x => x ∈ bl \/ x = (base, n));
  rd_usable : forall i, covers bl i \/ base <= i < base + n -> page_free_ok (pages s) i
}.

Lemma unused_base bl base n : 0 < n -> ordered 0 0 bl -> unused bl base n -> base ∉ bl.*1.
Proof.
  intros Hn Ho Hu ([b m] & -> & Hin)%list_elem_of_fmap. apply (Hu b); [cbn; lia|].
  destruct (ordered_elem 0 0 bl b m) as (?&?&?); [lia|done|done|]. exists b, m. split; [done|cbn; lia].
Qed.

Lemma inserted_ordered bl base n :
  ordered 0 0 bl -> 0 <= base -> 0 < n -> unused bl base n ->
  ordered 0 0 (below base bl ++ (base, n) :: above base bl).
Proof.
  intros Ho Hb Hn Hu. destruct (split_at_free 0 0 bl base n) as [H1 H2]; [lia..|done|done|].
  apply ordered_app. split; [|cbn; split_and!; [lia..|by rewrite Z.add_0_r]].
  rewrite <- (below_above base bl) in Ho. by apply ordered_app in Ho as [? _].
Qed.

Lemma inserted_elem bl base n x :
  x ∈ below base bl ++ (base, n) :: above base bl <-> x ∈ bl \/ x = (base, n).
Proof.
  rewrite <- (below_above base bl) at 3. rewrite !elem_of_app, elem_of_cons. tauto.
Qed.

Lemma inserted_covers bl base n i :
  covers (below base bl ++ (base, n) :: above base bl) i <-> covers bl i \/ base <= i < base + n.
Proof.
  rewrite <- (below_above base bl) at 3. rewrite !covers_app, covers_cons. tauto.
Qed.

Lemma inserted_bound bl base n :
  bound 0 0 bl <= npg -> base + n <= npg ->
  bound 0 0 (below base bl ++ (base, n) :: above base bl) <= npg.
Proof.
  intros Hb He. rewrite bound_app. cbn. rewrite <- (below_above base bl), bound_app in Hb.
  destruct (above base bl) as [|[q k] l2 _] using rev_ind; [cbn; lia|].
  rewrite bound_snoc in *. done.
Qed.

Lemma ready_linked s0 s bl base n h :
  fl_inv npg 0 s0 bl -> ready s0 s bl base n ->
  0 <= base -> 0 < n -> base + n <= npg -> unused bl base n ->
  dll h FreeList (block_link <$> below base bl ++ (base, n) :: above base bl) ->
  same_outside (links s) h (PageLink base :: FreeList :: (block_link <$> bl)) ->
  fl_inv npg 0 (with_links s h) (below base bl ++ (base, n) :: above base bl).
Proof.
  intros Hinv [Hl Hn Hpg Hm Hus] Hb Hn0 He Hu Hd Ho.
  pose proof (inserted_ordered bl base n (fl_ordered _ _ _ _ Hinv) Hb Hn0 Hu) as Hord.
  pose proof (inserted_bound bl base n (fl_bound _ _ _ _ Hinv) He) as Hbd.
  pose proof (fl_npg _ _ _ _ Hinv). split; cbn [with_links pages links nr_free]; try done.
  - intros i Hi. rewrite Hl in Ho. eapply fl_links_live; [exact Hinv|exact Hd|exact Ho| |done].
    intros x. rewrite !elem_of_cons, !list_elem_of_fmap. intros [->|[->|(y & -> & Hy)]]; [right|by left|right].
    + exists (base, n). split; [done|]. apply inserted_elem. by right.
    + exists y. split; [done|]. apply inserted_elem. by left.
  - eapply marked_ext; [|exact Hm]. intros x _. by rewrite inserted_elem.
  - intros i. rewrite inserted_covers. apply Hus.
  - rewrite Hn, (fl_count _ _ _ _ Hinv). pose proof (ordered_bound 0 0 _ ltac:(lia) Hord) as Hob.
    pose proof (total_nonneg _ _ _ (fl_ordered _ _ _ _ Hinv)).
    assert (total bl = total (below base bl) + total (above base bl)) as Ht
      by (by rewrite <- total_app, below_above).
    rewrite total_app in *. cbn in *. rewrite u32_small; lia.
Qed.
End link_block.

(** The frames [base .. base+n) are in use by a client: usable and not free. *)
Definition in_use (s : free_area) (bl : list block) (base n : Z) : Prop :=
  forall i, base <= i < base + n -> page_free_ok (pages s) i /\ ~ covers bl i.

Lemma head_ready npg s s1 bl base n :
  fl_inv npg 0 s bl -> 0 <= base -> 0 < n -> base + n <= npg -> unused bl base n ->
  links s1 = links s -> nr_free s1 = nr_free s ->
  (forall i, base <= i < base + n -> exists q, pages s1 !! i = Some q /\
     PageReserved q = false /\ PageProperty q = false) ->
  (forall i, ~ (base <= i < base + n) -> pages s1 !! i = pages s !! i) ->
  exists s2, head_and_count s1 base n = Ok s2 /\ ready npg s s2 bl base n.
Proof.
  intros Hinv Hb Hn He Hu Hl Hc Hin Hout. unfold head_and_count.
  destruct (Hin base) as (q & Hq & Hqr & Hqp); [lia|].
  rewrite (upd_page_ok _ _ _ q Hq). cbn [mbind res_bind].
  rewrite (upd_page_ok _ _ _ (set_property (u32 n) q)) by apply lookup_insert_eq.
  cbn [mbind res_bind pages links nr_free]. rewrite insert_insert_eq.
  pose proof (fl_npg _ _ _ _ Hinv). rewrite (u32_small n) by lia.
  eexists; split; [done|].
  assert (forall i, is_Some (pages s1 !! i) <-> 0 <= i < npg) as Hdom.
  { intros i. destruct (decide (base <= i < base + n)) as [Hi|Hi].
    - destruct (Hin i Hi) as (r & -> & _). split; [lia|eauto].
    - rewrite Hout by done. apply Hinv. }
  split; cbn [pages links nr_free with_nr_free].
  - done.
  - by rewrite Hc.
  - intros i. rewrite is_some_insert by eauto. apply Hdom.
  - apply marked_ext with (F := fun x => if decide (x.1 = base) then
      PageProperty (SetPageProperty (set_property n q)) = true /\
      property (SetPageProperty (set_property n q)) = x.2 else x ∈ bl).
    { intros [c k] _. cbn [fst snd]. rewrite PageProperty_set. cbn. case_decide; subst.
      - split; [intros [_ ->]; by right|]. intros [Hin'|[= ->]]; [|done].
        exfalso. apply (Hu base); [lia|]. exists base, k. split; [done|].
        destruct (ordered_elem 0 0 bl base k) as (?&?&?); [lia|apply Hinv|done|lia].
      - split; [by left|]. intros [?|[=]]; [done|lia]. }
    apply marked_insert. intros i p Hp m. cbn. destruct (decide (base <= i < base + n)) as [Hi|Hi].
    + destruct (Hin i Hi) as (r & Hr & _ & Hf). simplify_eq. rewrite Hf. split; [|by intros [??]].
      intros Hm. exfalso. apply (Hu i Hi). exists i, m. split; [done|].
      destruct (ordered_elem 0 0 bl i m) as (?&?&?); [lia|apply Hinv|done|lia].
    + rewrite Hout in Hp by done. by apply (fl_marked _ _ _ _ Hinv).
  - intros i Hi. apply page_free_ok_insert; [|by rewrite PageReserved_set].
    destruct (decide (base <= i < base + n)) as [Hi'|Hi'].
    + destruct (Hin i Hi') as (r & ? & ? & _). by exists r.
    + unfold page_free_ok. rewrite Hout by done. apply (fl_usable _ _ _ _ Hinv). tauto.
Qed.

(** The region freed lies in the page array and its descriptors pass the
    assertions of [free_pages]. *)
Lemma in_use_ready npg s bl base n :
  fl_inv npg 0 s bl -> 0 < n -> in_use s bl base n ->
  exists s1 s2, free_loop s base (Z.to_nat n) = Ok s1 /\ head_and_count s1 base n = Ok s2 /\
    ready npg s s2 bl base n /\ 0 <= base /\ base + n <= npg /\ unused bl base n.
Proof.
  intros Hinv Hn Hiu.
  assert (forall i, base <= i < base + n -> 0 <= i < npg) as Hr.
  { intros i Hi. destruct (Hiu i Hi) as ((q & Hq & _) & _). apply (fl_pages _ _ _ _ Hinv); eauto. }
  pose proof (Hr base ltac:(lia)). pose proof (Hr (base + n - 1) ltac:(lia)).
  assert (unused bl base n) as Hu by (intros i Hi; by apply Hiu).
  assert (forall i, base <= i < base + n ->
     exists q, pages s !! i = Some q /\ PageReserved q = false /\ PageProperty q = false) as Hq.
  { intros i Hi. destruct (Hiu i Hi) as ((q & Hq & Hres) & Hnc). exists q. split_and!; [done..|].
    destruct (PageProperty q) eqn:Hp; [|done]. destruct Hnc.
    assert ((i, property q) ∈ bl) as Hin by (by apply (fl_marked _ _ _ _ Hinv i q Hq)).
    destruct (ordered_elem 0 0 bl i (property q)) as (?&?&?); [lia|apply Hinv|done|].
    exists i, (property q). split; [done|lia]. }
  destruct (free_loop_run s base (Z.to_nat n)) as (s1 & Hs1 & Hl & Hnr & Hpg).
  { intros i Hi. apply Hq. lia. }
  destruct (head_ready npg s s1 bl base n) as (s2 & Hs2 & Hrd); [done|lia|done|lia|done|done|done| | |].
  { intros i Hi. destruct (Hq i Hi) as (q & Hqi & _). rewrite Hpg, decide_True, Hqi by lia.
    cbn. eexists; split; [done|]. done. }
  { intros i Hi. rewrite Hpg, decide_False by lia. done. }
  exists s1, s2. split_and!; try done; lia.
Qed.

(** ** Usable frames stay usable

    No operation of the allocators reserves a frame: whatever the state, a run
    that returns keeps every usable frame usable. *)
Definition keeps (pg pg' : gmap Z Page) : Prop :=
  forall i, page_free_ok pg i -> page_free_ok pg' i.

#[export] Instance keeps_preorder : PreOrder keeps.
Proof. split; [by intros ???|]. intros s1 s2 s3 H12 H23 i Hi. by apply H23, H12. Qed.

Lemma upd_page_keeps s i f s' :
  (forall p, PageReserved p = false -> PageReserved (f p) = false) ->
  upd_page s i f = Ok s' -> keeps (pages s) (pages s').
Proof.
  intros Hf Hu. unfold upd_page in Hu. inv_ok. intros j (q & Hq & Hr).
  destruct (decide (j = i)) as [->|Hne].
  - simplify_eq. eexists. cbn. rewrite lookup_insert_eq. eauto.
  - exists q. cbn. by rewrite lookup_insert_ne.
Qed.

Lemma reserved_clear p : PageReserved p = false -> PageReserved (ClearPageProperty p) = false.
Proof. by rewrite PageReserved_clear. Qed.

Lemma reserved_set p : PageReserved p = false -> PageReserved (SetPageProperty p) = false.
Proof. by rewrite PageReserved_set. Qed.

#[export] Hint Resolve reserved_clear reserved_set : ucore.
#[export] Hint Extern 1 (PageReserved (set_property _ _) = false) => assumption : ucore.
#[export] Hint Extern 1 (PageReserved (MkPage 0 0 _) = false) => reflexivity : ucore.

(** Follows the descriptor updates of a run. *)
Ltac solve_keeps :=
  repeat match goal with
  | H : upd_page ?s ?i ?f = Ok ?s' |- _ =>
      apply upd_page_keeps in H; [|solve [eauto with ucore]]
  end;
  cbn [pages with_links with_nr_free] in *;
  repeat match goal with
  | |- keeps ?s ?s => reflexivity
  | H : keeps ?s ?s' |- keeps ?s _ => etrans; [exact H|]; clear H
  end.

Lemma head_and_count_keeps s b n s' : head_and_count s b n = Ok s' -> keeps (pages s) (pages s').
Proof. unfold head_and_count. intros. inv_ok. solve_keeps. Qed.

Lemma free_loop_keeps s p k s' : free_loop s p k = Ok s' -> keeps (pages s) (pages s').
Proof.
  revert s p. induction k as [|k IH]; intros s p; cbn [free_loop]; [by intros [= ->]|].
  intros. inv_ok. etrans; [|by eapply IH]. solve_keeps.
Qed.

Lemma carve_keeps s p n s' : carve s p n = Ok s' -> keeps (pages s) (pages s').
Proof.
  unfold carve. intros Hc. inv_ok. case_match; inv_ok; solve_keeps.
Qed.

Lemma merge_prev_keeps s b s' b' : merge_prev s b = Ok (s', b') -> keeps (pages s) (pages s').
Proof.
  unfold merge_prev. intros Hm. inv_ok.
  repeat (case_match; inv_ok); solve_keeps.
Qed.

Lemma merge_next_keeps s b s' : merge_next s b = Ok s' -> keeps (pages s) (pages s').
Proof.
  unfold merge_next. intros Hm. inv_ok.
  repeat (case_match; inv_ok); solve_keeps.
Qed.

#[export] Hint Resolve head_and_count_keeps free_loop_keeps carve_keeps merge_prev_keeps
  merge_next_keeps : ucore.
#[export] Hint Extern 0 (keeps ?x ?x) => reflexivity : ucore.

(** ** Reference counts

    Only a release writes reference counts, those of the frames released. *)
Definition refs (a : free_area) (i : Z) : option Z := ref <$> pages a !! i.

Definition refs_outside (lo hi : Z) (pg pg' : gmap Z Page) : Prop :=
  forall i, ~ (lo <= i < hi) -> ref <$> pg' !! i = ref <$> pg !! i.

#[export] Instance refs_outside_preorder lo hi : PreOrder (refs_outside lo hi).
Proof. split; [by intros ???|]. intros s1 s2 s3 H12 H23 i Hi. by rewrite H23, H12. Qed.

Lemma upd_page_refs lo hi s i f s' :
  (forall p, ref (f p) = ref p) \/ lo <= i < hi -> upd_page s i f = Ok s' -> refs_outside lo hi (pages s) (pages s').
Proof.
  intros Hf Hu. unfold upd_page in Hu. inv_ok. intros j Hj. cbn. destruct (decide (j = i)) as [->|Hne]; [|by rewrite lookup_insert_ne].
  destruct Hf as [Hf|]; [|done]. simplify_eq. rewrite lookup_insert_eq. destruct (pages s !! i) as [q|] eqn:E; simplify_eq. cbn. by rewrite Hf.
Qed.

Ltac solve_refs :=
  repeat match goal with
  | H : upd_page ?s ?i ?f = Ok ?s' |- refs_outside ?lo ?hi _ _ =>
      apply (upd_page_refs lo hi) in H; [|first [left; reflexivity|right; lia]]
  end;
  cbn [pages with_links with_nr_free] in *;
  repeat match goal with
  | |- refs_outside _ _ ?s ?s => reflexivity
  | H : refs_outside _ _ ?s ?s' |- refs_outside _ _ ?s _ => etrans; [exact H|]; clear H
  end.

Lemma head_and_count_refs lo hi s b n s' : head_and_count s b n = Ok s' -> refs_outside lo hi (pages s) (pages s').
Proof. unfold head_and_count. intros. inv_ok. solve_refs. Qed.

Lemma free_loop_refs lo hi s p k s' : free_loop s p k = Ok s' -> lo <= p -> p + Z.of_nat k <= hi -> refs_outside lo hi (pages s) (pages s').
Proof.
  revert s p. induction k as [|k IH]; intros s p; cbn [free_loop]; [by intros [= ->]|].
  intros Hr Hlo Hhi. inv_ok. etrans; [|eapply IH; [eassumption|lia|lia]]. solve_refs.
Qed.

Lemma carve_refs lo hi s p n s' : carve s p n = Ok s' -> refs_outside lo hi (pages s) (pages s').
Proof. unfold carve. intros Hc. inv_ok. case_match; inv_ok; solve_refs. Qed.

Lemma merge_prev_refs lo hi s b s' b' : merge_prev s b = Ok (s', b') -> refs_outside lo hi (pages s) (pages s').
Proof. unfold merge_prev. intros Hm. inv_ok. repeat (case_match; inv_ok); solve_refs. Qed.

Lemma merge_next_refs lo hi s b s' : merge_next s b = Ok s' -> refs_outside lo hi (pages s) (pages s').
Proof. unfold merge_next. intros Hm. inv_ok. repeat (case_match; inv_ok); solve_refs. Qed.

(** * What page allocators promise

    The contract between a page allocator and the rest of the kernel
    ([struct pmm_manager] of kern/mm/pmm.h), stated on the frames a client
    holds: allocation gives out frames nobody holds and disturbs nobody; freeing
    frames in use takes back exactly those; and no reference count of another frame
    changes. *)
Definition alloc_pages_t : Type := free_area -> Z -> res (free_area * option Z).
Definition free_pages_t : Type := free_area -> Z -> Z -> res free_area.

(** Neighbours of a region freed into [bl] for which the ordered insertion is
    sound: the region does not become the last block behind other blocks. *)
Definition not_last (base : Z) (bl : list block) : Prop := above base bl <> [] \/ bl = [].

Class PageAllocator (alloc : alloc_pages_t) (free : free_pages_t) : Prop := {
  pa_alloc npg s bl n :
    fl_inv npg 0 s bl -> npg + 1 < 2 ^ 32 -> 0 < n ->
    exists s' r, alloc s n = Ok (s', r) /\
      match r with
      | None => s' = s /\ Forall (fun x => x.2 < n) bl
      | Some b => exists bl', fl_inv npg 0 s' bl' /\ in_use s' bl' b n /\
          total bl' = total bl - n /\
          (forall i, covers bl i <-> covers bl' i \/ b <= i < b + n) /\
          forall c k, in_use s bl c k ->
            in_use s' bl' c k /\ forall i, c <= i < c + k -> ~ (b <= i < b + n)
      end;
  pa_free npg s bl base n :
    fl_inv npg 0 s bl -> 0 < n -> in_use s bl base n -> not_last base bl ->
    exists s' bl', free s base n = Ok s' /\ fl_inv npg 0 s' bl' /\
      total bl' = total bl + n /\
      (forall i, covers bl' i <-> covers bl i \/ base <= i < base + n) /\
      forall c k, in_use s bl c k -> (forall i, c <= i < c + k -> ~ (base <= i < base + n)) ->
        in_use s' bl' c k;
  pa_alloc_refs s n s' r i : alloc s n = Ok (s', r) -> refs s' i = refs s i;
  pa_free_refs s base n s' i : free s base n = Ok s' -> ~ (base <= i < base + n) -> refs s' i = refs s i
}.

(** The client's side of carving a block off a well-formed free list. *)
Lemma carve_in_use npg s s' l1 b m l2 n :
  fl_inv npg 0 s (l1 ++ (b, m) :: l2) -> 0 < n <= m -> keeps (pages s) (pages s') ->
  in_use s' (l1 ++ rest n (b, m) ++ l2) b n /\
  forall c k, in_use s (l1 ++ (b, m) :: l2) c k ->
    in_use s' (l1 ++ rest n (b, m) ++ l2) c k /\ forall i, c <= i < c + k -> ~ (b <= i < b + n).
Proof.
  intros Hinv Hn Hk. pose proof (fun i => carve_covers 0 0 l1 b m l2 n i ltac:(lia) Hn (fl_ordered _ _ _ _ Hinv)) as Hc.
  assert (forall i, b <= i < b + n -> covers (l1 ++ (b, m) :: l2) i) as Hb.
  { intros i Hi. apply covers_app; right; apply covers_cons; left; lia. }
  split; [|intros c k Hiu; split].
  - intros i Hi. rewrite Hc. split; [|tauto]. by apply Hk, (fl_usable _ _ _ _ Hinv), Hb.
  - intros i Hi. rewrite Hc. destruct (Hiu i Hi). split; [by apply Hk|tauto].
  - intros i Hi Hbi. destruct (Hiu i Hi) as [_ []]. by apply Hb.
Qed.

Lemma carve_taken g lo l1 b m l2 n i :
  0 <= g -> 0 < n <= m -> ordered g lo (l1 ++ (b, m) :: l2) ->
  covers (l1 ++ (b, m) :: l2) i <-> covers (l1 ++ rest n (b, m) ++ l2) i \/ b <= i < b + n.
Proof.
  intros Hg Hn Ho. rewrite (carve_covers g lo) by done. destruct (decide (b <= i < b + n)) as [Hi|Hi]; [|tauto].
  split; [by right|]. intros _. apply covers_app; right; apply covers_cons; left; lia.
Qed.

(** * From boot to the first free block *)

(** The page array as [page_init] (lab8/kern/mm/pmm.c) leaves it: every
    descriptor reserved, list entries not initialised. *)
Definition boot (n : nat) : free_area :=
  FreeArea (map_seqZ 0 (replicate n (SetPageReserved (MkPage 0 0 0))))
    (<[FreeList := ListEntry FreeList FreeList]>
       (kmap PageLink (map_seqZ 0 (replicate n (ListEntry FreeList FreeList))) : gmap link _)) 0.

Definition all_reserved (npg : Z) (s : free_area) : Prop :=
  0 <= npg < 2 ^ 32 /\
  (forall i, is_Some (pages s !! i) <-> 0 <= i < npg) /\
  (forall i p, pages s !! i = Some p -> PageReserved p = true /\ PageProperty p = false) /\
  is_Some (links s !! FreeList) /\
  (forall i, 0 <= i < npg -> is_Some (links s !! PageLink i)).

Lemma seqZ_replicate {V} n (v : V) i :
  (map_seqZ 0 (replicate n v) : gmap Z V) !! i = Some v <-> 0 <= i < Z.of_nat n.
Proof.
  rewrite lookup_map_seqZ_Some, lookup_replicate. split; [intros (?&?&?); lia|intros; split_and!; auto; lia].
Qed.

Lemma boot_all_reserved n : Z.of_nat n < 2 ^ 32 -> all_reserved (Z.of_nat n) (boot n).
Proof.
  intros Hn. split_and!; cbn; [lia|lia| | | |].
  - intros i. rewrite <- (seqZ_replicate n (SetPageReserved (MkPage 0 0 0)) i). split; [|eauto].
    intros [p Hp]. rewrite Hp. f_equal. apply lookup_map_seqZ_Some in Hp as [_ Hp].
    by apply lookup_replicate in Hp as [-> _].
  - intros i p [_ Hp]%lookup_map_seqZ_Some. apply lookup_replicate in Hp as [-> _]. done.
  - rewrite lookup_insert_eq. eauto.
  - intros i Hi. rewrite lookup_insert_ne by done. rewrite (lookup_kmap PageLink). eexists. by apply seqZ_replicate.
Qed.

Lemma init_inv npg s h :
  all_reserved npg s -> dll h FreeList [] -> same_outside (links s) h [FreeList] ->
  fl_inv npg 0 (with_nr_free (with_links s h) 0) [].
Proof.
  intros (Hn & Hp & Hr & _ & Hl) Hd Ho. split; cbn; try done; try lia.
  - intros i Hi. rewrite Ho; [by apply Hl|]. set_solver.
  - intros i p Hip m. destruct (Hr i p Hip) as [_ Hf]. rewrite Hf. split; [by intros ?%elem_of_nil|by intros [? _]].
  - intros i Hi. by apply covers_nil in Hi.
Qed.

Lemma boot_block npg s base n :
  all_reserved npg s -> 0 <= base -> 0 < n -> base + n <= npg ->
  exists h s1 s2 h2, list_init (links s) FreeList = Ok h /\
    memmap_pages (with_nr_free (with_links s h) 0) base (Z.to_nat n) = Ok s1 /\
    head_and_count s1 base n = Ok s2 /\
    insert_free base (links s2) = Ok h2 /\ fl_inv npg 1 (with_links s2 h2) [(base, n)].
Proof.
  intros Hs Hb Hn He. pose proof Hs as (Hnpg & Hp & Hr & Hf & _).
  destruct (list_init_dll _ _ Hf) as (h & Hh & Hd & Ho).
  pose proof (init_inv npg s h Hs Hd Ho) as Hinv. set (s0 := with_nr_free (with_links s h) 0) in *.
  destruct (memmap_pages_run s0 base (Z.to_nat n)) as (s1 & Hs1 & Hl & Hnr & Hpg).
  { intros i Hi. destruct (proj2 (Hp i)) as [q Hq]; [lia|]. exists q. split; [done|]. by apply (Hr i). }
  destruct (head_ready npg s0 s1 [] base n) as (s2 & Hs2 & Hrd); [done..| |done|done| | |].
  { intros i _ []%covers_nil. }
  { intros i Hi. exists (MkPage 0 0 0). rewrite Hpg, decide_True by lia. done. }
  { intros i Hi. rewrite Hpg, decide_False by lia. done. }
  destruct (insert_free_ok base n (links s2) []) as (h2 & Hins & Hd2 & Ho2).
  { rewrite (rd_links _ _ _ _ _ _ Hrd). apply Hinv. }
  { rewrite (rd_links _ _ _ _ _ _ Hrd). apply (fl_links _ _ _ _ Hinv). lia. }
  { apply not_elem_of_nil. }
  { by right. }
  exists h, s1, s2, h2. split_and!; [done..|].
  eapply fl_regap; [eapply (ready_linked npg s0 s2 [] base n h2); try done|cbn; lia].
  intros i _ []%covers_nil.
Qed.

(** * Clients

    A client of an allocator holds the blocks it was given.  A step is one call
    that returned; blocks are freed as they were granted, and [can_free] keeps
    out the region that would have to be appended behind the last free block. *)
Section client.
Context (alloc : alloc_pages_t) (free : free_pages_t).

Definition can_free (s : free_area) (base : Z) : Prop :=
  nr_free s = 0 \/ exists i p, base < i /\ pages s !! i = Some p /\ PageProperty p = true.

Inductive client_step : free_area * list block -> free_area * list block -> Prop :=
| StepAlloc s held n s' b :
    0 < n -> alloc s n = Ok (s', Some b) -> client_step (s, held) (s', (b, n) :: held)
| StepNull s held n s' :
    0 < n -> alloc s n = Ok (s', None) -> client_step (s, held) (s', held)
| StepFree s l1 b n l2 s' :
    can_free s b -> free s b n = Ok s' -> client_step (s, l1 ++ (b, n) :: l2) (s', l1 ++ l2).

Definition overlap (x y : block) : Prop := exists i, x.1 <= i < x.1 + x.2 /\ y.1 <= i < y.1 + y.2.

(** Every frame is free, or held by exactly one grant, and none is lost. *)
Definition client_inv (npg frames : Z) (st : free_area * list block) : Prop :=
  exists bl, fl_inv npg 0 st.1 bl /\ total bl + total st.2 = frames /\
    Forall (fun x => 0 < x.2 /\ in_use st.1 bl x.1 x.2) st.2 /\
    ForallOrdPairs (fun x y => ~ overlap x y) st.2.

Lemma total_zero g lo bl : ordered g lo bl -> total bl = 0 -> bl = [].
Proof.
  destruct bl as [|[b m] bl]; [done|]. cbn. intros (_&Hm&Ho) ?.
  pose proof (total_nonneg _ _ _ Ho). lia.
Qed.

Lemma can_free_not_last npg g s bl base :
  fl_inv npg g s bl -> can_free s base -> not_last base bl.
Proof.
  intros Hinv [Hz|(i & p & Hi & Hp & Hf)]; [right|left].
  - eapply total_zero; [apply Hinv|]. rewrite <- (fl_count _ _ _ _ Hinv). done.
  - assert ((i, property p) ∈ bl) as Hin by (by eapply (fl_marked _ _ _ _ Hinv)).
    intros Ha. rewrite <- (below_above base bl), Ha, app_nil_r in Hin.
    pose proof (below_le base bl) as Hle. rewrite Forall_forall in Hle. apply Hle in Hin. cbn in Hin. lia.
Qed.

Lemma pairs_app l1 (x : block) l2 :
  ForallOrdPairs (fun x y => ~ overlap x y) (l1 ++ x :: l2) ->
  ForallOrdPairs (fun x y => ~ overlap x y) (l1 ++ l2) /\
  Forall (fun y => ~ overlap y x) (l1 ++ l2).
Proof.
  induction l1 as [|y l1 IH]; cbn.
  - inversion 1 as [|?? H1 H2]; simplify_eq. split; [done|].
    eapply Forall_impl; [exact H1|]. intros z Hz (i&?&?). apply Hz. by exists i.
  - inversion 1 as [|?? H1 H2]; simplify_eq. destruct (IH H2) as [? ?].
    rewrite Forall_app, Forall_cons in H1. destruct H1 as (?&?&?).
    split; constructor; try done. by apply Forall_app.
Qed.

Context `{!PageAllocator alloc free}.

Lemma client_step_inv npg frames st st' :
  npg + 1 < 2 ^ 32 -> client_inv npg frames st -> client_step st st' -> client_inv npg frames st'.
Proof.
  intros Hnpg (bl & Hinv & Ht & Hu & Hp). destruct 1 as [s held n s' b Hn Ha|s held n s' Hn Ha|s l1 b n l2 s' Hc Hf];
    cbn [fst snd] in *.
  - destruct (pa_alloc npg s bl n Hinv Hnpg Hn) as (s1 & r & Hr & Hpost).
    rewrite Ha in Hr. simplify_eq/=. destruct Hpost as (bl' & Hinv' & Hb & Ht' & _ & Hk).
    exists bl'. split_and!; [done|cbn; lia| |].
    + constructor; [done|]. eapply Forall_impl; [exact Hu|]. intros [c k] [? Hck]. by destruct (Hk c k Hck).
    + constructor; [|done]. eapply Forall_impl; [exact Hu|]. intros [c k] [? Hck] (i&Hi1&Hi2).
      destruct (Hk c k Hck) as [_ Hd]. by apply (Hd i).
  - destruct (pa_alloc npg s bl n Hinv Hnpg Hn) as (s1 & r & Hr & Hpost).
    rewrite Ha in Hr. simplify_eq/=. destruct Hpost as [-> _]. by exists bl.
  - rewrite Forall_app, Forall_cons in Hu. destruct Hu as (Hu1 & [Hn Hb] & Hu2). cbn in Hn, Hb.
    destruct (pa_free npg s bl b n Hinv Hn Hb) as (s1 & bl' & Hs1 & Hinv' & Ht' & _ & Hk).
    { by eapply can_free_not_last. }
    rewrite Hf in Hs1. simplify_eq. apply pairs_app in Hp as [Hp Hd].
    exists bl'. cbn. rewrite !total_app. cbn in *. split_and!; [done|lia| |done].
    assert (Forall (fun x => 0 < x.2 /\ in_use s bl x.1 x.2) (l1 ++ l2)) as Hu by (by apply Forall_app).
    eapply Forall_impl; [exact (proj2 (Forall_and _ _) (conj Hu Hd))|]. intros [c k] [[? Hck] Hov]. split; [done|].
    cbn in *. apply Hk; [done|]. intros i Hi Hi'. apply Hov. by exists i.
Qed.

Lemma client_reach_inv npg frames st st' :
  npg + 1 < 2 ^ 32 -> client_inv npg frames st -> rtc client_step st st' -> client_inv npg frames st'.
Proof. intros Hn Hi Hr. revert Hi. induction Hr; [done|]. intros Hi. eauto using client_step_inv. Qed.

(** No call of a client goes wrong: it returns, whatever the history. *)
Lemma client_progress npg frames s held :
  npg + 1 < 2 ^ 32 -> client_inv npg frames (s, held) ->
  (forall n, 0 < n -> exists s' r, alloc s n = Ok (s', r)) /\
  (forall b n, (b, n) ∈ held -> can_free s b -> exists s', free s b n = Ok s').
Proof.
  intros Hn (bl & Hinv & _ & Hu & _). cbn in *. split.
  - intros n Hn0. destruct (pa_alloc npg s bl n Hinv Hn Hn0) as (s' & r & ? & _). eauto.
  - intros b n Hin Hc. rewrite Forall_forall in Hu. destruct (Hu _ Hin) as [? Hb]. cbn in *.
    destruct (pa_free npg s bl b n Hinv) as (s' & bl' & ? & _); [done|done| |eauto].
    by eapply can_free_not_last.
Qed.
End client.
