(* ===== verification/DefaultPmm.v ===== *)
(** The first-fit page allocator (lab8/kern/mm/default_pmm.c).

    [default_alloc_spec] and [default_free_spec] say that the code refines the
    abstract first fit and coalescing free of [Blocks]; [default_free_tail_spec]
    says what the insertion loop does when the freed block is to be appended
    behind a non-empty free list, which is where the code loses an entry. *)
From S2P Require Import Prelude Lists Page Blocks FreeArea.

(** * The code *)
Definition default_init (s : free_area) : res free_area :=
  h ← list_init (links s) FreeList;
  Ok (with_nr_free (with_links s h) 0).

Definition default_init_memmap (s : free_area) (base n : Z) : res free_area :=
  _ ← c_assert (0 <? n);
  s ← memmap_pages s base (Z.to_nat n);
  s ← head_and_count s base n;
  h ← insert_free base (links s);
  Ok (with_links s h).

Definition first_fit_step (s : free_area) (n : Z) (le : link) : res (link + option Z) :=
  le ← list_next (links s) le;
  if decide (le = FreeList) then Ok (inr None)
  else
    p ← le2page le;
    pg ← deref (pages s) p;
    if n <=? property pg then Ok (inr (Some p)) else Ok (inl le).

Definition default_alloc_pages (s : free_area) (n : Z) : res (free_area * option Z) :=
  _ ← c_assert (0 <? n);
  if nr_free s <? n then Ok (s, None)
  else
    page ← loop (first_fit_step s n) (S (size (links s))) FreeList;
    match page with
    | Some page => s ← carve s page n; Ok (s, Some page)
    | None => Ok (s, None)
    end.

Definition default_free_pages (s : free_area) (base n : Z) : res free_area :=
  _ ← c_assert (0 <? n);
  s ← free_loop s base (Z.to_nat n);
  s ← head_and_count s base n;
  h ← insert_free base (links s);
  '(s, base) ← merge_prev (with_links s h) base;
  merge_next s base.

Definition default_nr_free_pages (s : free_area) : Z := nr_free s.

(** ** Searching *)
Lemma first_fit_loop s n bl1 bl2 fuel :
  dll (links s) FreeList (block_link <$> bl1 ++ bl2) ->
  (forall b m, (b, m) ∈ bl2 -> exists p, pages s !! b = Some p /\ property p = m) ->
  (length bl2 < fuel)%nat ->
  loop (first_fit_step s n) fuel (List.last (block_link <$> bl1) FreeList) =
    Ok (fst <$> first_fit n bl2).
Proof.
  revert bl1 fuel. induction bl2 as [|[b m] bl2 IH]; intros bl1 fuel Hd Hp Hf;
    (destruct fuel as [|fuel]; [cbn in Hf; lia|]); rewrite loop_S; unfold first_fit_step at 1.
  - rewrite app_nil_r in Hd. rewrite (proj2 (list_next_ok _ _ FreeList)); [reflexivity|].
    destruct bl1 as [|x bl1 _] using rev_ind; [by apply dll_next in Hd|].
    rewrite fmap_app in Hd |- *. cbn in *. rewrite last_app_cons. by apply dll_next_in in Hd.
  - rewrite (proj2 (list_next_ok _ _ (PageLink b))).
    2: { rewrite fmap_app in Hd. cbn in Hd.
         destruct bl1 as [|x bl1 _] using rev_ind; [by apply dll_next in Hd|].
         rewrite fmap_app, <- app_assoc in Hd. rewrite fmap_app. cbn in *.
         rewrite last_app_cons. by apply dll_next_in in Hd. }
    cbn. destruct (Hp b m) as (p & Hpb & Hm); [by left|].
    rewrite (deref_some _ _ _ Hpb). cbn. subst m. destruct (n <=? property p) eqn:E; [reflexivity|].
    specialize (IH (bl1 ++ [(b, property p)]) fuel).
    rewrite fmap_last_link, last_snoc in IH. cbn in IH.
    rewrite decide_False by done. rewrite IH; [by destruct (first_fit n bl2) as [[]|]| | |cbn in Hf; lia].
    + by rewrite <- app_assoc.
    + intros b' m' Hin. apply Hp. by right.
Qed.

Lemma search_first_fit npg g s bl n :
  0 <= g <= 1 -> fl_inv npg g s bl ->
    loop (first_fit_step s n) (S (size (links s))) FreeList = Ok (fst <$> first_fit n bl).
Proof.
  intros Hg Hinv. apply (first_fit_loop s n [] bl); [apply Hinv| |by eapply fl_fuel].
  intros b m Hin. destruct (fl_block_page npg g Hg s bl b m Hinv Hin) as (p & ? & ? & _). eauto.
Qed.


(** * Correctness *)
Section correct.
Context (npg g : Z) (Hg : 0 <= g <= 1).

(** First fit.  On a well-formed state, [default_alloc_pages] returns what
    the abstract first fit returns: the first block of at least [n] frames in
    address order, carved, or NULL with the state unchanged when no block is
    large enough; the search terminates and no descriptor is missed. *)
Lemma default_alloc_spec s bl n :
  fl_inv npg g s bl -> 0 < n ->
  match first_fit n bl with
  | Some (b, bl') =>
      exists s', default_alloc_pages s n = Ok (s', Some b) /\ fl_inv npg g s' bl'
  | None => default_alloc_pages s n = Ok (s, None)
  end.
Proof.
  intros Hinv Hn. unfold default_alloc_pages. rewrite (proj2 (Z.ltb_lt _ _) Hn).
  cbn [c_assert mbind res_bind]. rewrite (search_first_fit npg g s bl n Hg Hinv).
  destruct (first_fit n bl) as [[b bl']|] eqn:Hff; cbn [fmap option_fmap option_map fst mbind res_bind].
  - apply first_fit_some in Hff as (l1 & m & l2 & -> & _ & Hm & ->).
    destruct (carve_correct npg g Hg s l1 b m l2 n Hinv) as (s' & Hc & Hinv'); [lia|].
    rewrite (proj2 (Z.ltb_ge _ _)).
    + rewrite Hc. eauto.
    + rewrite (fl_count _ _ _ _ Hinv). pose proof (fl_ordered _ _ _ _ Hinv) as Ho.
      apply ordered_app in Ho as [Ho1 (_&_&Ho2)]. rewrite total_app. cbn.
      pose proof (total_nonneg _ _ _ Ho1). pose proof (total_nonneg _ _ _ Ho2). lia.
  - by destruct (nr_free s <? n).
Qed.

(** Freeing.  When some free block starts above the region being freed
    (or the free list is empty), [default_free_pages] inserts the region in
    address order and merges it with both neighbours: the new state holds
    exactly the abstract [free_block]. *)
Lemma default_free_spec s bl base n :
  fl_inv npg g s bl -> 0 < n -> in_use s bl base n ->
  above base bl <> [] \/ bl = [] ->
  exists s', default_free_pages s base n = Ok s' /\ fl_inv npg g s' (free_block base n bl).
Proof.
  intros Hinv Hn Hiu Hc. pose proof (fl_regap _ _ 0 _ _ Hinv
    (ordered_weaken g 0 0 0 bl ltac:(lia) ltac:(lia) (fl_ordered _ _ _ _ Hinv))) as Hinv0.
  destruct (in_use_ready npg s bl base n Hinv0 Hn Hiu) as (s1 & s2 & Hs1 & Hs2 & Hrd & Hb & He & Hu).
  unfold default_free_pages. rewrite (proj2 (Z.ltb_lt _ _) Hn). cbn [c_assert mbind res_bind].
  rewrite Hs1. cbn [mbind res_bind]. rewrite Hs2. cbn [mbind res_bind].
  destruct (insert_free_ok base n (links s2) bl) as (h & Hins & Hd & Ho).
  { rewrite (rd_links _ _ _ _ _ _ Hrd). apply Hinv. }
  { rewrite (rd_links _ _ _ _ _ _ Hrd). apply (fl_links _ _ _ _ Hinv). lia. }
  { apply (unused_base bl base n); [done|apply Hinv0|done]. }
  { done. }
  rewrite Hins. cbn [mbind res_bind].
  pose proof (ready_linked npg s s2 bl base n h Hinv0 Hrd Hb Hn He Hu Hd Ho) as Hinv1.
  pose proof (merge_prev_correct npg _ _ _ _ _ Hinv1) as Hmp. unfold free_block, coalesce.
  destruct (absorb_prev (below base bl) base n) as [l1' x] eqn:Hap.
  destruct Hmp as (s3 & Hs3 & Hinv3). rewrite Hs3. cbn [mbind res_bind].
  destruct x as [xb xm]. destruct (merge_next_correct npg _ _ _ _ _ Hinv3) as (s4 & Hs4 & Hinv4).
  exists s4. split; [done|]. apply (fl_regap _ _ g) in Hinv4; [done|].
  pose proof (free_block_ordered g 0 bl base n Hg Hn Hb (fl_ordered _ _ _ _ Hinv) Hu) as Hfo.
  unfold free_block, coalesce in Hfo. by rewrite Hap in Hfo.
Qed.

(** The remaining case.  A region freed above every block of a non-empty
    free list is appended without merging, and its own [prev] link is left
    pointing at itself instead of at its predecessor. *)
Lemma default_free_tail_spec s bl base n :
  fl_inv npg g s bl -> 0 < n -> in_use s bl base n -> above base bl = [] -> bl <> [] ->
  exists s' h, default_free_pages s base n = Ok s' /\
    dll h FreeList (block_link <$> bl ++ [(base, n)]) /\
    links s' = <[PageLink base := ListEntry (PageLink base) FreeList]> h.
Proof.
  intros Hinv Hn Hiu Ha Hne. pose proof (fl_regap _ _ 0 _ _ Hinv
    (ordered_weaken g 0 0 0 bl ltac:(lia) ltac:(lia) (fl_ordered _ _ _ _ Hinv))) as Hinv0.
  destruct (in_use_ready npg s bl base n Hinv0 Hn Hiu) as (s1 & s2 & Hs1 & Hs2 & Hrd & Hb & He & Hu).
  unfold default_free_pages. rewrite (proj2 (Z.ltb_lt _ _) Hn). cbn [c_assert mbind res_bind].
  rewrite Hs1. cbn [mbind res_bind]. rewrite Hs2. cbn [mbind res_bind].
  destruct (insert_free_tail base n (links s2) bl) as (h & Hins & Hd & Ho).
  { rewrite (rd_links _ _ _ _ _ _ Hrd). apply Hinv. }
  { rewrite (rd_links _ _ _ _ _ _ Hrd). apply (fl_links _ _ _ _ Hinv). lia. }
  { apply (unused_base bl base n); [done|apply Hinv0|done]. }
  { done. }
  { done. }
  rewrite Hins. cbn [mbind res_bind].
  destruct (proj2 (rd_pages _ _ _ _ _ _ Hrd base)) as [q Hq]; [lia|].
  assert (property q = n) as Hqn by (by eapply (rd_marked _ _ _ _ _ _ Hrd base q Hq n); right).
  unfold merge_prev, merge_next, list_prev, list_next. cbn [with_links links pages].
  rewrite (deref_some _ _ (ListEntry (PageLink base) FreeList)) by apply lookup_insert_eq.
  cbn [mbind res_bind prev next le2page]. rewrite decide_False by done.
  rewrite (deref_some _ _ _ Hq). cbn [mbind res_bind]. rewrite Hqn.
  rewrite (proj2 (Z.eqb_neq _ _)) by lia. cbn [mbind res_bind with_links links].
  rewrite (deref_some _ _ (ListEntry (PageLink base) FreeList)) by apply lookup_insert_eq.
  cbn [mbind res_bind next]. rewrite decide_True by done. eauto.
Qed.
End correct.

Lemma default_alloc_pages_keeps s n s' r :
  default_alloc_pages s n = Ok (s', r) -> keeps (pages s) (pages s').
Proof.
  unfold default_alloc_pages. intros Hr. inv_ok. case_match; inv_ok; [done|].
  case_match; inv_ok; eauto with ucore.
Qed.

Lemma default_free_pages_keeps s b n s' :
  default_free_pages s b n = Ok s' -> keeps (pages s) (pages s').
Proof.
  unfold default_free_pages. intros Hr. inv_ok.
  repeat match goal with x : free_area * Z |- _ => destruct x end.
  etrans; [by eapply free_loop_keeps|]. etrans; [by eapply head_and_count_keeps|].
  etrans; [by eapply (merge_prev_keeps (with_links _ _))|by eapply merge_next_keeps].
Qed.

Lemma default_alloc_pages_refs s n s' r : default_alloc_pages s n = Ok (s', r) -> refs_outside 0 0 (pages s) (pages s').
Proof.
  unfold default_alloc_pages. intros Hr. inv_ok. case_match; inv_ok; [done|].
  case_match; inv_ok; [by eapply carve_refs|done].
Qed.

Lemma default_free_pages_refs s b n s' : default_free_pages s b n = Ok s' -> refs_outside b (b + n) (pages s) (pages s').
Proof.
  unfold default_free_pages. intros Hr. inv_ok. repeat match goal with x : free_area * Z |- _ => destruct x end.
  etrans; [eapply free_loop_refs; [eassumption|lia|lia]|]. etrans; [by eapply head_and_count_refs|].
  etrans; [by eapply (merge_prev_refs _ _ (with_links _ _))|by eapply merge_next_refs].
Qed.

(** First fit meets the page allocator contract. *)
#[export] Instance default_pmm_manager : PageAllocator default_alloc_pages default_free_pages.
Proof.
  split.
  - intros npg s bl n Hinv _ Hn.
    pose proof (default_alloc_spec npg 0 ltac:(lia) s bl n Hinv Hn) as Hr.
    destruct (first_fit n bl) as [[b bl']|] eqn:Hff.
    + destruct Hr as (s' & Hs' & Hinv'). exists s', (Some b). split; [done|].
      apply first_fit_some in Hff as (l1 & m & l2 & -> & _ & Hm & ->).
      destruct (carve_in_use npg s s' l1 b m l2 n) as [Hb Hc]; [done|lia|by eapply default_alloc_pages_keeps|].
      exists (l1 ++ rest n (b, m) ++ l2). split_and!; [done|done|by apply carve_total| |done].
      intros i. by apply (carve_taken 0 0); [|lia|apply Hinv].
    + exists s, None. split; [done|]. split; [done|by apply first_fit_none].
  - intros npg s bl base n Hinv Hn Hiu Hl.
    destruct (default_free_spec npg 0 ltac:(lia) s bl base n Hinv Hn Hiu Hl) as (s' & Hs' & Hinv').
    pose proof (default_free_pages_keeps _ _ _ _ Hs') as Hk.
    pose proof Hinv as Hi0. destruct (in_use_ready npg s bl base n Hinv Hn Hiu) as (?&?&_&_&_&Hb&_&Hu).
    pose proof (fun i => free_block_covers 0 0 bl base n i ltac:(lia) Hn Hb (fl_ordered _ _ _ _ Hinv) Hu) as Hc.
    exists s', (free_block base n bl). split_and!; [done|done|apply free_block_total|done|].
    intros c k Hck Hd i Hi. rewrite Hc. destruct (Hck i Hi). split; [by apply Hk|].
    intros [?|?]; [done|]. by apply (Hd i).
  - intros s n s' r i Hr. apply (default_alloc_pages_refs _ _ _ _ Hr). lia.
  - intros s base n s' i Hr Hi. by apply (default_free_pages_refs _ _ _ _ Hr).
Qed.

Lemma default_boot npg s base n :
  all_reserved npg s -> 0 <= base -> 0 < n -> base + n <= npg ->
  exists s1 s2, default_init s = Ok s1 /\ default_init_memmap s1 base n = Ok s2 /\
    fl_inv npg 1 s2 [(base, n)].
Proof.
  intros Hs Hb Hn He. destruct (boot_block npg s base n Hs Hb Hn He) as (h & s1 & s2 & h2 & Hh & H1 & H2 & H3 & Hi).
  exists (with_nr_free (with_links s h) 0), (with_links s2 h2). unfold default_init, default_init_memmap.
  rewrite Hh. split; [done|]. rewrite (proj2 (Z.ltb_lt 0 n) Hn). cbn [c_assert mbind res_bind].
  rewrite H1. cbn [mbind res_bind]. rewrite H2. cbn [mbind res_bind]. by rewrite H3.
Qed.

(** * Properties *)

(** C1. No double allocation, under the condition that the code needs.  Boot the
    allocator on a reserved page array with one free region and let clients issue any
    sequence of [default_alloc_pages] and [default_free_pages] calls in which every
    release is of a block somebody holds and satisfies [can_free]: no block is free at
    all, or some free block lies above the one released.  Then no two grants overlap,
    no frame is lost, every further request returns, and so does every further release
    that satisfies [can_free].  The condition cannot be left out: a release above every
    free block links the block at the wrong end of the list, after which the same frames
    are granted twice ([double_allocation], default_pmm.c line 147). *)
Theorem default_pmm_grants_disjoint npg s base n :
  all_reserved npg s -> npg + 1 < 2 ^ 32 -> 0 <= base -> 0 < n -> base + n <= npg ->
  exists s1 s2, default_init s = Ok s1 /\ default_init_memmap s1 base n = Ok s2 /\
    forall s' held, rtc (client_step default_alloc_pages default_free_pages) (s2, []) (s', held) ->
      ForallOrdPairs (fun x y => ~ overlap x y) held /\
      default_nr_free_pages s' + total held = n /\
      (forall k, 0 < k -> exists s'' r, default_alloc_pages s' k = Ok (s'', r)) /\
      (forall b k, (b, k) ∈ held -> can_free s' b -> exists s'', default_free_pages s' b k = Ok s'').
Proof.
  intros Hs Hnpg Hb Hn He. destruct (default_boot npg s base n Hs Hb Hn He) as (s1 & s2 & H1 & H2 & Hi).
  exists s1, s2. split_and!; [done..|]. intros s' held Hr.
  assert (client_inv npg n (s2, [])) as Hc.
  { exists [(base, n)]. split_and!; [|cbn; lia|done|constructor].
    eapply fl_regap; [exact Hi|cbn; lia]. }
  pose proof (client_reach_inv _ _ npg n _ _ Hnpg Hc Hr) as Hc'.
  destruct (client_progress _ _ npg n s' held Hnpg Hc') as [Ha Hf].
  destruct Hc' as (bl & Hinv & Ht & _ & Hp). cbn in *. split_and!; [done| |done|done].
  unfold default_nr_free_pages. rewrite (fl_count _ _ _ _ Hinv). done.
Qed.

Lemma default_pmm_grants_disjoint_witness : exists s1 s2,
  default_init (boot 8) = Ok s1 /\ default_init_memmap s1 2 6 = Ok s2 /\
  forall s' held, rtc (client_step default_alloc_pages default_free_pages) (s2, []) (s', held) ->
    default_nr_free_pages s' + total held = 6.
Proof.
  destruct (default_pmm_grants_disjoint 8 (boot 8) 2 6) as (s1 & s2 & H1 & H2 & H3).
  - apply (boot_all_reserved 8). reflexivity.
  - lia.
  - lia.
  - lia.
  - lia.
  - exists s1, s2. split; [exact H1|]. split; [exact H2|]. intros s' held Hr. apply (H3 s' held Hr).
Defined.

(** C32. First fit.  On a well-formed allocator [default_alloc_pages] returns the
    lowest free block of at least [n] frames, keeps the rest of that block free
    and clears nothing else; it returns NULL, unchanged, exactly when every free
    block is too small. *)
Theorem default_alloc_pages_first_fit npg s bl n :
  fl_inv npg 1 s bl -> 0 < n ->
  (exists s' l1 b m l2, bl = l1 ++ (b, m) :: l2 /\ n <= m /\ Forall (fun x => x.2 < n) l1 /\
     default_alloc_pages s n = Ok (s', Some b) /\
     fl_inv npg 1 s' (l1 ++ (if n <? m then [(b + n, m - n)] else []) ++ l2)) \/
  (default_alloc_pages s n = Ok (s, None) /\ Forall (fun x => x.2 < n) bl).
Proof.
  intros Hinv Hn. pose proof (default_alloc_spec npg 1 ltac:(lia) s bl n Hinv Hn) as Hr.
  destruct (first_fit n bl) as [[b bl']|] eqn:Hff.
  - left. destruct Hr as (s' & Hs' & Hinv').
    apply first_fit_some in Hff as (l1 & m & l2 & -> & Hl1 & Hm & ->).
    exists s', l1, b, m, l2. split_and!; done.
  - right. split; [done|by apply first_fit_none].
Qed.

(** Freeing coalesces.  On a well-formed allocator with no two adjacent free
    blocks, [default_free_pages] of an in-use region below the last free block
    frees exactly that region and again leaves no two adjacent free blocks. *)
Theorem default_free_pages_coalesces npg s bl base n :
  fl_inv npg 1 s bl -> 0 < n -> in_use s bl base n -> not_last base bl ->
  exists s' bl', default_free_pages s base n = Ok s' /\ fl_inv npg 1 s' bl' /\
    default_nr_free_pages s' = default_nr_free_pages s + n /\
    forall i, covers bl' i <-> covers bl i \/ base <= i < base + n.
Proof.
  intros Hinv Hn Hiu Hl.
  destruct (default_free_spec npg 1 ltac:(lia) s bl base n Hinv Hn Hiu Hl) as (s' & Hs' & Hinv').
  exists s', (free_block base n bl). split_and!; [done|done| |].
  - unfold default_nr_free_pages. rewrite (fl_count _ _ _ _ Hinv), (fl_count _ _ _ _ Hinv').
    apply free_block_total.
  - intros i. pose proof (fl_regap _ _ 0 _ _ Hinv
      (ordered_weaken 1 0 0 0 bl ltac:(lia) ltac:(lia) (fl_ordered _ _ _ _ Hinv))) as Hinv0.
    destruct (in_use_ready npg s bl base n Hinv0 Hn Hiu) as (?&?&_&_&_&Hb&_&Hu).
    apply (free_block_covers 1 0); [lia|done|done|apply Hinv|done].
Qed.

(** Unlinking the entry that [insert_free] linked to itself changes nothing. *)
Lemma tail_del_noop h bl base n :
  dll h FreeList (block_link <$> bl ++ [(base, n)]) ->
  let h' := <[PageLink base := ListEntry (PageLink base) FreeList]> h in
  list_del h' (PageLink base) = Ok h'.
Proof.
  intros Hd. cbn. rewrite fmap_app in Hd. cbn in Hd.
  pose proof (dll_prev _ _ _ Hd) as Hp. rewrite last_app_cons in Hp. cbn in Hp.
  unfold prv in Hp. destruct (h !! FreeList) as [[p q]|] eqn:Hf; [|done]. cbn in Hp. simplify_eq.
  unfold list_del, list_prev, list_next, __list_del, set_next, set_prev.
  rewrite !(deref_some _ (PageLink base) (ListEntry (PageLink base) FreeList)) by apply lookup_insert_eq.
  cbn [mbind res_bind prev next]. rewrite !(deref_some _ (PageLink base) (ListEntry (PageLink base) FreeList)) by apply lookup_insert_eq.
  cbn [mbind res_bind prev next]. rewrite insert_insert_eq.
  rewrite (deref_some _ FreeList (ListEntry (PageLink base) q)) by (by rewrite lookup_insert_ne).
  cbn. f_equal. apply map_eq. intros x. destruct (decide (x = FreeList)) as [->|Hx].
  - rewrite lookup_insert_eq. symmetry. by rewrite lookup_insert_ne.
  - by rewrite lookup_insert_ne.
Qed.

(** The tail case.  A region freed above every block of a non-empty free
    list is appended, but the scan goes round once more and links it to itself:
    its [prev] entry points at itself, it is not merged with the block below,
    and the [list_del] of a later allocation does not unlink it. *)
Theorem default_free_pages_tail npg s bl base n :
  fl_inv npg 1 s bl -> 0 < n -> in_use s bl base n -> above base bl = [] -> bl <> [] ->
  exists s' h, default_free_pages s base n = Ok s' /\
    dll h FreeList (block_link <$> bl ++ [(base, n)]) /\
    links s' = <[PageLink base := ListEntry (PageLink base) FreeList]> h /\
    list_del (links s') (PageLink base) = Ok (links s').
Proof.
  intros Hinv Hn Hiu Ha Hne.
  destruct (default_free_tail_spec npg 1 ltac:(lia) s bl base n Hinv Hn Hiu Ha Hne) as (s' & h & Hs' & Hd & Hl).
  exists s', h. split_and!; [done|done|done|]. rewrite Hl. by eapply tail_del_noop.
Qed.

(** ** Concrete runs *)
Definition run_demo : res (free_area * list (option Z)) :=
  s ← default_init (boot 10);
  s ← default_init_memmap s 0 10;
  '(s, p) ← default_alloc_pages s 10;
  s ← default_free_pages s 0 1;
  s ← default_free_pages s 5 2;
  '(s, q) ← default_alloc_pages s 2;
  s ← default_free_pages s 9 1;
  '(s, r) ← default_alloc_pages s 2;
  Ok (s, [p; q; r]).

(** Freeing frames 5 and 6 behind frame 0 leaves them listed after they are
    allocated again, so the next request is given them a second time. *)
Example double_allocation : exists s, run_demo = Ok (s, [Some 0; Some 5; Some 5]).
Proof. eexists. vm_compute. reflexivity. Qed.

(** Frames 0 and 1 free, frames 2 to 5 in use, frames 6 and 7 free. *)
Definition sample_run : res free_area :=
  s ← default_init (boot 8);
  s ← default_init_memmap s 0 8;
  '(s, _) ← default_alloc_pages s 6;
  default_free_pages s 0 2.

Definition sample : free_area := match sample_run with Ok s => s | _ => boot 8 end.

Lemma sample_in_use : in_use sample [(0, 2); (6, 2)] 2 4.
Proof.
  intros i Hi. split.
  - assert (i = 2 \/ i = 3 \/ i = 4 \/ i = 5) as Hc by lia.
    destruct Hc as [->|[->|[->| ->]]]; eexists; split; vm_compute; reflexivity.
  - rewrite covers_cons, covers_cons. intros [?|[?|[]%covers_nil]]; lia.
Qed.

Lemma sample_inv : fl_inv 8 1 sample [(0, 2); (6, 2)].
Proof.
  destruct (default_boot 8 (boot 8) 0 8) as (s1 & s2 & H1 & H2 & Hi); [|lia..|].
  { by apply (boot_all_reserved 8). }
  pose proof (default_alloc_spec 8 1 ltac:(lia) s2 [(0, 8)] 6 Hi ltac:(lia)) as Ha.
  destruct Ha as (s3 & H3 & Hi3).
  assert (exists s4, default_free_pages s3 0 2 = Ok s4 /\ fl_inv 8 1 s4 (free_block 0 2 [(6, 2)])) as (s4 & H4 & Hi4).
  { apply default_free_spec; [lia|exact Hi3|lia| |by left].
    intros i Hi0. split; [|rewrite covers_cons; intros [?|[]%covers_nil]; lia].
    eapply default_alloc_pages_keeps; [exact H3|]. apply (fl_usable _ _ _ _ Hi).
    apply covers_cons. left; lia. }
  assert (sample = s4) as ->; [|exact Hi4].
  unfold sample, sample_run. rewrite H1. cbn [mbind res_bind]. rewrite H2. cbn [mbind res_bind].
  rewrite H3. cbn [mbind res_bind]. by rewrite H4.
Qed.

Lemma default_alloc_pages_first_fit_witness :
  exists s', default_alloc_pages sample 2 = Ok (s', Some 0) /\ fl_inv 8 1 s' [(6, 2)].
Proof.
  destruct (default_alloc_pages_first_fit 8 sample [(0, 2); (6, 2)] 2 sample_inv ltac:(lia))
    as [(s' & l1 & b & m & l2 & He & Hm & Hl1 & Ha & Hi)|[Ha _]].
  - assert (exists s'', default_alloc_pages sample 2 = Ok (s'', Some 0)) as [s'' Hc].
    { eexists. vm_compute. reflexivity. }
    rewrite Hc in Ha. injection Ha as -> <-. exists s'. split; [exact Hc|].
    destruct l1 as [|[c k] l1].
    + cbn in He. injection He. intros <- <-. exact Hi.
    + cbn in He. injection He as <- <- He. apply Forall_cons in Hl1 as [Hl1 _]. cbn in Hl1. lia.
  - vm_compute in Ha. discriminate.
Defined.

Lemma default_free_pages_coalesces_witness :
  exists s' bl', default_free_pages sample 2 4 = Ok s' /\ fl_inv 8 1 s' bl' /\
    default_nr_free_pages s' = 8.
Proof.
  destruct (default_free_pages_coalesces 8 sample [(0, 2); (6, 2)] 2 4) as (s' & bl' & H1 & H2 & H3 & _).
  - exact sample_inv.
  - lia.
  - exact sample_in_use.
  - left. discriminate.
  - exists s', bl'. split; [exact H1|]. split; [exact H2|]. rewrite H3. vm_compute. reflexivity.
Defined.

(** Frames 0 and 1 free, frames 2 to 7 in use. *)
Definition low_run : res free_area :=
  s ← default_init (boot 8);
  s ← default_init_memmap s 0 8;
  '(s, _) ← default_alloc_pages s 8;
  default_free_pages s 0 2.

Definition low : free_area := match low_run with Ok s => s | _ => boot 8 end.

Lemma low_inv : fl_inv 8 1 low [(0, 2)] /\ in_use low [(0, 2)] 4 2.
Proof.
  destruct (default_boot 8 (boot 8) 0 8) as (s1 & s2 & H1 & H2 & Hi); [|lia..|].
  { by apply (boot_all_reserved 8). }
  destruct (default_alloc_spec 8 1 ltac:(lia) s2 [(0, 8)] 8 Hi ltac:(lia)) as (s3 & H3 & Hi3).
  destruct (default_free_spec 8 1 ltac:(lia) s3 [] 0 2) as (s4 & H4 & Hi4); [exact Hi3|lia| |by right|].
  { intros i Hi0. split; [|by intros []%covers_nil].
    eapply default_alloc_pages_keeps; [exact H3|]. apply (fl_usable _ _ _ _ Hi). apply covers_cons. left; lia. }
  assert (low = s4) as ->.
  { unfold low, low_run. rewrite H1. cbn [mbind res_bind]. rewrite H2. cbn [mbind res_bind].
    rewrite H3. cbn [mbind res_bind]. by rewrite H4. }
  split; [exact Hi4|]. intros i Hi0. split; [|rewrite covers_cons; intros [?|[]%covers_nil]; lia].
  eapply default_free_pages_keeps; [exact H4|]. eapply default_alloc_pages_keeps; [exact H3|].
  apply (fl_usable _ _ _ _ Hi). apply covers_cons. left; lia.
Qed.

Lemma default_free_pages_tail_witness :
  exists s', default_free_pages low 4 2 = Ok s' /\ list_del (links s') (PageLink 4) = Ok (links s').
Proof.
  destruct (default_free_pages_tail 8 low [(0, 2)] 4 2) as (s' & h & H1 & _ & _ & H2).
  - apply low_inv.
  - lia.
  - apply low_inv.
  - reflexivity.
  - discriminate.
  - exists s'. split; [exact H1|exact H2].
Defined.
