(* ===== verification/BestFitPmm.v ===== *)
(** The best-fit page allocator (lab2_Dou/kern/mm/best_fit_pmm.c).

    Its initialisation and free routines have the text of the first-fit ones and
    are assembled from the same pieces of [FreeArea]; only the search differs.
    [best_alloc_spec] says the search finds the smallest adequate block. *)
From S2P Require Import Prelude Lists Page Blocks FreeArea DefaultPmm.

(** * The code *)
Definition best_fit_init (s : free_area) : res free_area :=
  h ← list_init (links s) FreeList;
  Ok (with_nr_free (with_links s h) 0).

Definition best_fit_init_memmap (s : free_area) (base n : Z) : res free_area :=
  _ ← c_assert (0 <? n);
  s ← memmap_pages s base (Z.to_nat n);
  s ← head_and_count s base n;
  h ← insert_free base (links s);
  Ok (with_links s h).

(** The scan's variables: the entry, [page] and [min_size]. *)
Definition best_fit_step (s : free_area) (n : Z) (st : link * option Z * Z)
    : res (link * option Z * Z + option Z) :=
  let '(le, page, min_size) := st in
  le ← list_next (links s) le;
  if decide (le = FreeList) then Ok (inr page)
  else
    p ← le2page le;
    pg ← deref (pages s) p;
    if (n <=? property pg) && (property pg <? min_size) then
      if property pg =? n then Ok (inr (Some p)) else Ok (inl (le, Some p, property pg))
    else Ok (inl (le, page, min_size)).

Definition best_fit_alloc_pages (s : free_area) (n : Z) : res (free_area * option Z) :=
  _ ← c_assert (0 <? n);
  if nr_free s <? n then Ok (s, None)
  else
    let min_size := u32 (nr_free s + 1) in
    page ← loop (best_fit_step s n) (S (size (links s))) (FreeList, None, min_size);
    match page with
    | Some page => s ← carve s page n; Ok (s, Some page)
    | None => Ok (s, None)
    end.

Definition best_fit_free_pages (s : free_area) (base n : Z) : res free_area :=
  _ ← c_assert (0 <? n);
  s ← free_loop s base (Z.to_nat n);
  s ← head_and_count s base n;
  h ← insert_free base (links s);
  '(s, base) ← merge_prev (with_links s h) base;
  merge_next s base.

Definition best_fit_nr_free_pages (s : free_area) : Z := nr_free s.

(** * The scan *)
Fixpoint best_scan (n : Z) (bl : list block) (page : option Z) (min_size : Z) : option Z :=
  match bl with
  | [] => page
  | (b, m) :: bl' =>
      if (n <=? m) && (m <? min_size) then
        if m =? n then Some b else best_scan n bl' (Some b) m
      else best_scan n bl' page min_size
  end.

Lemma best_fit_loop s n bl1 bl2 fuel page mn :
  dll (links s) FreeList (block_link <$> bl1 ++ bl2) ->
  (forall b m, (b, m) ∈ bl2 -> exists p, pages s !! b = Some p /\ property p = m) ->
  (length bl2 < fuel)%nat ->
  loop (best_fit_step s n) fuel (List.last (block_link <$> bl1) FreeList, page, mn) =
    Ok (best_scan n bl2 page mn).
Proof.
  revert bl1 fuel page mn. induction bl2 as [|[b m] bl2 IH]; intros bl1 fuel page mn Hd Hp Hf;
    (destruct fuel as [|fuel]; [cbn in Hf; lia|]); rewrite loop_S; unfold best_fit_step at 1.
  - rewrite app_nil_r in Hd. rewrite (proj2 (list_next_ok _ _ FreeList)); [reflexivity|].
    destruct bl1 as [|x bl1 _] using rev_ind; [by apply dll_next in Hd|].
    rewrite fmap_app in Hd |- *. cbn in *. rewrite last_app_cons. by apply dll_next_in in Hd.
  - rewrite (proj2 (list_next_ok _ _ (PageLink b))).
    2: { rewrite fmap_app in Hd. cbn in Hd.
         destruct bl1 as [|x bl1 _] using rev_ind; [by apply dll_next in Hd|].
         rewrite fmap_app, <- app_assoc in Hd. rewrite fmap_app. cbn in *.
         rewrite last_app_cons. by apply dll_next_in in Hd. }
    cbn. destruct (Hp b m) as (p & Hpb & Hm); [by left|].
    rewrite (deref_some _ _ _ Hpb). cbn. subst m.
    rewrite decide_False by done.
    assert (forall pg' mn', loop (best_fit_step s n) fuel (PageLink b, pg', mn') = Ok (best_scan n bl2 pg' mn')) as IH'.
    { intros pg' mn'. specialize (IH (bl1 ++ [(b, property p)]) fuel pg' mn').
      rewrite fmap_last_link, last_snoc in IH. cbn in IH. apply IH; [by rewrite <- app_assoc| |cbn in Hf; lia].
      intros b' m' Hin. apply Hp. by right. }
    destruct ((n <=? property p) && (property p <? mn)); [|apply IH'].
    destruct (property p =? n); [done|apply IH'].
Qed.

(** The scan keeps the smallest adequate block seen so far. *)
Lemma best_scan_spec n bl page mn :
  match best_scan n bl page mn with
  | Some b =>
      (page = Some b /\ Forall (fun x => n <= x.2 -> mn <= x.2) bl) \/
      (exists m l1 l2, bl = l1 ++ (b, m) :: l2 /\ n <= m < mn /\
         Forall (fun x => n <= x.2 -> m < x.2) l1 /\ Forall (fun x => n <= x.2 -> m <= x.2) l2)
  | None => page = None /\ Forall (fun x => n <= x.2 -> mn <= x.2) bl
  end.
Proof.
  revert page mn. induction bl as [|[b m] bl IH]; intros page mn; cbn.
  { destruct page; [left|]; done. }
  destruct ((n <=? m) && (m <? mn)) eqn:E.
  - apply andb_true_iff in E as [E1%Z.leb_le E2%Z.ltb_lt]. destruct (Z.eqb_spec m n) as [->|Hne].
    + right. exists n, [], bl. split_and!; [done|lia|lia|done|apply Forall_true; auto].
    + specialize (IH (Some b) m). destruct (best_scan n bl (Some b) m) as [c|]; [|by destruct IH].
      right. destruct IH as [[[= <-] IH]|(k & l1 & l2 & -> & Hk & H1 & H2)].
      * exists m, [], bl. split_and!; [done|lia|lia|done|done].
      * exists k, ((b, m) :: l1), l2. split_and!; [done|lia|lia| |done].
        constructor; [cbn; lia|done].
  - assert (n <= m -> mn <= m) as Hm.
    { intros. apply andb_false_iff in E as [?%Z.leb_gt|?%Z.ltb_ge]; lia. }
    specialize (IH page mn). destruct (best_scan n bl page mn) as [c|].
    + destruct IH as [[? IH]|(k & l1 & l2 & -> & Hk & H1 & H2)]; [left; by auto|].
      right. exists k, ((b, m) :: l1), l2. split_and!; [done|lia|lia| |done].
      constructor; [cbn; lia|done].
    + destruct IH. auto.
Qed.

(** The block best fit chooses: the smallest adequate one, the lowest of these. *)
Definition best_block (n : Z) (l1 : list block) (m : Z) (l2 : list block) : Prop :=
  n <= m /\ Forall (fun x => n <= x.2 -> m < x.2) l1 /\ Forall (fun x => n <= x.2 -> m <= x.2) l2.

Lemma best_alloc_spec npg g s bl n :
  0 <= g <= 1 -> fl_inv npg g s bl -> npg + 1 < 2 ^ 32 -> 0 < n ->
  (exists s' l1 b m l2, bl = l1 ++ (b, m) :: l2 /\ best_block n l1 m l2 /\
     best_fit_alloc_pages s n = Ok (s', Some b) /\ fl_inv npg g s' (l1 ++ rest n (b, m) ++ l2) /\
     keeps (pages s) (pages s')) \/
  (best_fit_alloc_pages s n = Ok (s, None) /\ Forall (fun x => x.2 < n) bl).
Proof.
  intros Hg Hinv Hnpg Hn. unfold best_fit_alloc_pages. rewrite (proj2 (Z.ltb_lt _ _) Hn).
  cbn [c_assert mbind res_bind]. pose proof (fl_total_le npg g Hg s bl Hinv) as Ht.
  rewrite <- (fl_count _ _ _ _ Hinv) in Ht.
  assert (Forall (fun x => x.2 <= nr_free s) bl) as Hall.
  { rewrite Forall_forall. intros [b m] Hin. apply list_elem_of_split in Hin as (l1 & l2 & ->). cbn.
    rewrite (fl_count _ _ _ _ Hinv), total_app. cbn. pose proof (fl_ordered _ _ _ _ Hinv) as Ho.
    apply ordered_app in Ho as [Ho1 (_&_&Ho2)].
    pose proof (total_nonneg _ _ _ Ho1). pose proof (total_nonneg _ _ _ Ho2). lia. }
  destruct (Z.ltb_spec (nr_free s) n) as [Hlt|Hge].
  { right. split; [done|]. eapply Forall_impl; [exact Hall|]. cbn. lia. }
  rewrite u32_small by lia.
  assert (loop (best_fit_step s n) (S (size (links s))) (FreeList, None, nr_free s + 1) =
    Ok (best_scan n bl None (nr_free s + 1))) as ->.
  { apply (best_fit_loop s n [] bl); [apply Hinv| |by eapply fl_fuel].
    intros b m Hin. destruct (fl_block_page npg g Hg s bl b m Hinv Hin) as (p & ? & ? & _). eauto. }
  pose proof (best_scan_spec n bl None (nr_free s + 1)) as Hs. cbn [mbind res_bind].
  destruct (best_scan n bl None (nr_free s + 1)) as [b|].
  - destruct Hs as [[]|(m & l1 & l2 & -> & Hm & H1 & H2)]; [done|]. left.
    destruct (carve_correct npg g Hg s l1 b m l2 n Hinv) as (s' & Hc & Hinv'); [lia|].
    exists s', l1, b, m, l2. rewrite Hc. split_and!; [done|split_and!; [lia|done..]|done|done|eauto with ucore].
  - destruct Hs as [_ Hs]. right. split; [done|].
    eapply Forall_impl; [exact (proj2 (Forall_and _ _) (conj Hall Hs))|]. cbn. intros x [? ?].
    destruct (decide (n <= x.2)); lia.
Qed.

Lemma best_fit_alloc_pages_refs s n s' r : best_fit_alloc_pages s n = Ok (s', r) -> refs_outside 0 0 (pages s) (pages s').
Proof.
  unfold best_fit_alloc_pages. intros Hr. inv_ok. case_match; inv_ok; [done|].
  case_match; inv_ok; [by eapply carve_refs|done].
Qed.

#[export] Instance best_fit_pmm_manager : PageAllocator best_fit_alloc_pages best_fit_free_pages.
Proof.
  split; [|exact (pa_free (alloc := default_alloc_pages))|intros s n s' r i Hr; apply (best_fit_alloc_pages_refs _ _ _ _ Hr); lia|exact (pa_free_refs (alloc := default_alloc_pages))].
  intros npg s bl n Hinv Hnpg Hn.
  destruct (best_alloc_spec npg 0 s bl n ltac:(lia) Hinv Hnpg Hn)
    as [(s' & l1 & b & m & l2 & -> & (Hm & _ & _) & Ha & Hinv' & Hk)|[Ha Hs]].
  - exists s', (Some b). split; [done|]. exists (l1 ++ rest n (b, m) ++ l2).
    destruct (carve_in_use npg s s' l1 b m l2 n) as [Hb Hc]; [done|lia|done|].
    split_and!; [done|done|by apply carve_total| |done].
    intros i. by apply (carve_taken 0 0); [|lia|apply Hinv].
  - exists s, None. done.
Qed.

(** * Properties *)

(** C33. Best fit.  On a well-formed allocator [best_fit_alloc_pages] takes the
    smallest free block that holds [n] frames, the lowest one among equals, and
    returns NULL, unchanged, exactly when every free block is too small. *)
Theorem best_fit_alloc_pages_minimal npg s bl n :
  fl_inv npg 1 s bl -> npg + 1 < 2 ^ 32 -> 0 < n ->
  (exists s' l1 b m l2, bl = l1 ++ (b, m) :: l2 /\ n <= m /\
     Forall (fun x => n <= x.2 -> m < x.2) l1 /\ Forall (fun x => n <= x.2 -> m <= x.2) l2 /\
     best_fit_alloc_pages s n = Ok (s', Some b) /\
     fl_inv npg 1 s' (l1 ++ (if n <? m then [(b + n, m - n)] else []) ++ l2)) \/
  (best_fit_alloc_pages s n = Ok (s, None) /\ Forall (fun x => x.2 < n) bl).
Proof.
  intros Hinv Hnpg Hn.
  destruct (best_alloc_spec npg 1 s bl n ltac:(lia) Hinv Hnpg Hn)
    as [(s' & l1 & b & m & l2 & -> & (Hm & H1 & H2) & Ha & Hinv' & _)|[Ha Hs]]; [left|by right].
  exists s', l1, b, m, l2. split_and!; done.
Qed.

Lemma best_fit_alloc_pages_minimal_witness :
  exists s', best_fit_alloc_pages sample 1 = Ok (s', Some 0) /\ fl_inv 8 1 s' [(1, 1); (6, 2)].
Proof.
  assert (exists s'', best_fit_alloc_pages sample 1 = Ok (s'', Some 0)) as [s'' Hc].
  { eexists. vm_compute. reflexivity. }
  destruct (best_fit_alloc_pages_minimal 8 sample [(0, 2); (6, 2)] 1 sample_inv ltac:(lia) ltac:(lia))
    as [(s' & l1 & b & m & l2 & He & Hm & Hl1 & Hl2 & Ha & Hi)|[Ha _]].
  - rewrite Hc in Ha. injection Ha as -> <-. exists s'. split; [exact Hc|].
    destruct l1 as [|[c k] l1].
    + cbn in He. injection He. intros <- <-. exact Hi.
    + cbn in He. injection He as <- <- He. apply Forall_cons in Hl1 as [Hl1 _]. cbn in Hl1.
      destruct l1 as [|[c k] l1]; cbn in He; [|destruct l1; discriminate].
      discriminate He.
  - vm_compute in Ha. discriminate Ha.
Defined.

(** The best-fit allocator never grants a frame twice: the same contract as
    for first fit, for any sequence of calls by a client that frees what it was
    granted below the last free block. *)
Theorem best_fit_pmm_grants_disjoint npg s base n :
  all_reserved npg s -> npg + 1 < 2 ^ 32 -> 0 <= base -> 0 < n -> base + n <= npg ->
  exists s1 s2, best_fit_init s = Ok s1 /\ best_fit_init_memmap s1 base n = Ok s2 /\
    forall s' held, rtc (client_step best_fit_alloc_pages best_fit_free_pages) (s2, []) (s', held) ->
      ForallOrdPairs (fun x y => ~ overlap x y) held /\
      best_fit_nr_free_pages s' + total held = n /\
      (forall k, 0 < k -> exists s'' r, best_fit_alloc_pages s' k = Ok (s'', r)) /\
      (forall b k, (b, k) ∈ held -> can_free s' b -> exists s'', best_fit_free_pages s' b k = Ok s'').
Proof.
  intros Hs Hnpg Hb Hn He. destruct (default_boot npg s base n Hs Hb Hn He) as (s1 & s2 & H1 & H2 & Hi).
  exists s1, s2. split_and!; [done..|]. intros s' held Hr.
  assert (client_inv npg n (s2, [])) as Hc.
  { exists [(base, n)]. split_and!; [|cbn; lia|done|constructor].
    eapply fl_regap; [exact Hi|cbn; lia]. }
  pose proof (client_reach_inv _ _ npg n _ _ Hnpg Hc Hr) as Hc'.
  destruct (client_progress _ _ npg n s' held Hnpg Hc') as [Ha Hf].
  destruct Hc' as (bl & Hinv & Ht & _ & Hp). cbn in *. split_and!; [done| |done|done].
  unfold best_fit_nr_free_pages. rewrite (fl_count _ _ _ _ Hinv). done.
Qed.

Lemma best_fit_pmm_grants_disjoint_witness : exists s1 s2,
  best_fit_init (boot 8) = Ok s1 /\ best_fit_init_memmap s1 2 6 = Ok s2 /\
  forall s' held, rtc (client_step best_fit_alloc_pages best_fit_free_pages) (s2, []) (s', held) ->
    best_fit_nr_free_pages s' + total held = 6.
Proof.
  destruct (best_fit_pmm_grants_disjoint 8 (boot 8) 2 6) as (s1 & s2 & H1 & H2 & H3).
  - apply (boot_all_reserved 8). reflexivity.
  - lia.
  - lia.
  - lia.
  - lia.
  - exists s1, s2. split; [exact H1|]. split; [exact H2|]. intros s' held Hr. apply (H3 s' held Hr).
Defined.
