(* ===== verification/SkewHeap.v ===== *)
(** The intrusive skew heap of lab8/libs/skew_heap.h.

    The entries live in a map from addresses to [parent]/[left]/[right] links;
    the functions are state transformers on that map in the order of the source's
    assignments.  [repr] relates the links under an address to a binary tree, and
    the [*_repr] lemmas say that merging, inserting and removing perform [tmerge]
    and [tremove] on trees, for which order and contents are then proved. *)
From S2P Require Import Prelude.

Record skew_heap_entry : Type := SkewEntry { parent : option Z; left : option Z; right : option Z }.

Abbreviation sheap := (gmap Z skew_heap_entry).

(** * The code *)
Definition set_parent (h : sheap) (a : Z) (v : option Z) : res sheap :=
  e ← deref h a; Ok (<[a := SkewEntry v (left e) (right e)]> h).
Definition set_left (h : sheap) (a : Z) (v : option Z) : res sheap :=
  e ← deref h a; Ok (<[a := SkewEntry (parent e) v (right e)]> h).
Definition set_right (h : sheap) (a : Z) (v : option Z) : res sheap :=
  e ← deref h a; Ok (<[a := SkewEntry (parent e) (left e) v]> h).

Definition skew_heap_init (h : sheap) (a : Z) : res sheap :=
  h ← set_parent h a None; h ← set_right h a None; set_left h a None.

(** The recursion follows the right spines of the two heaps; [fuel] bounds its depth. *)
Fixpoint skew_heap_merge (comp : Z -> Z -> Z) (fuel : nat) (h : sheap) (a b : option Z)
    : res (sheap * option Z) :=
  match fuel with
  | O => Diverge
  | S fuel' =>
      match a, b with
      | None, _ => Ok (h, b)
      | _, None => Ok (h, a)
      | Some a, Some b =>
          if comp a b =? -1 then
            ea ← deref h a;
            let r := left ea in
            '(h, l) ← skew_heap_merge comp fuel' h (right ea) (Some b);
            h ← set_left h a l;
            h ← set_right h a r;
            h ← match l with Some l => set_parent h l (Some a) | None => Ok h end;
            Ok (h, Some a)
          else
            eb ← deref h b;
            let r := left eb in
            '(h, l) ← skew_heap_merge comp fuel' h (Some a) (right eb);
            h ← set_left h b l;
            h ← set_right h b r;
            h ← match l with Some l => set_parent h l (Some b) | None => Ok h end;
            Ok (h, Some b)
      end
  end.

Definition skew_heap_insert (comp : Z -> Z -> Z) (h : sheap) (a : option Z) (b : Z)
    : res (sheap * option Z) :=
  h ← skew_heap_init h b;
  skew_heap_merge comp (S (size h)) h a (Some b).

Definition skew_heap_remove (comp : Z -> Z -> Z) (h : sheap) (a : option Z) (b : Z)
    : res (sheap * option Z) :=
  eb ← deref h b;
  let p := parent eb in
  '(h, rep) ← skew_heap_merge comp (S (size h)) h (left eb) (right eb);
  h ← match rep with Some rep => set_parent h rep p | None => Ok h end;
  match p with
  | Some p =>
      ep ← deref h p;
      h ← (if decide (left ep = Some b) then set_left h p rep else set_right h p rep);
      Ok (h, a)
  | None => Ok (h, rep)
  end.

(** * Trees *)
Inductive tree : Type := Leaf | Node (a : Z) (l r : tree).

Fixpoint elems (t : tree) : list Z :=
  match t with Leaf => [] | Node a l r => a :: elems l ++ elems r end.

Definition root (t : tree) : option Z := match t with Leaf => None | Node a _ _ => Some a end.

Fixpoint tmerge (comp : Z -> Z -> Z) (t1 : tree) : tree -> tree :=
  fix go (t2 : tree) : tree :=
    match t1, t2 with
    | Leaf, _ => t2
    | _, Leaf => t1
    | Node a l1 r1, Node b l2 r2 =>
        if comp a b =? -1 then Node a (tmerge comp r1 t2) l1 else Node b (go r2) l2
    end.

Fixpoint tremove (comp : Z -> Z -> Z) (b : Z) (t : tree) : tree :=
  match t with
  | Leaf => Leaf
  | Node a l r => if decide (a = b) then tmerge comp l r else Node a (tremove comp b l) (tremove comp b r)
  end.

(** The links of [h] under pointer [p] form the tree [t]. *)
Definition parent_is (h : sheap) (t : tree) (p : option Z) : Prop :=
  match t with Leaf => True | Node a _ _ => exists e, h !! a = Some e /\ parent e = p end.

Fixpoint repr (h : sheap) (p : option Z) (t : tree) : Prop :=
  match t with
  | Leaf => p = None
  | Node a l r =>
      p = Some a /\ exists e, h !! a = Some e /\ repr h (left e) l /\ repr h (right e) r /\
        parent_is h l (Some a) /\ parent_is h r (Some a)
  end.

(** * Contents and order of merged trees *)
Lemma tmerge_leaf_l comp t : tmerge comp Leaf t = t.
Proof. by destruct t. Qed.

Lemma tmerge_leaf_r comp t : tmerge comp t Leaf = t.
Proof. by destruct t. Qed.

Lemma tmerge_node comp a l1 r1 b l2 r2 :
  tmerge comp (Node a l1 r1) (Node b l2 r2) =
    if comp a b =? -1 then Node a (tmerge comp r1 (Node b l2 r2)) l1
    else Node b (tmerge comp (Node a l1 r1) r2) l2.
Proof. done. Qed.

(** Induction over the pairs of trees that [tmerge] visits. *)
Lemma tmerge_ind (P : tree -> tree -> Prop) :
  (forall t, P Leaf t) -> (forall t, P t Leaf) ->
  (forall a l1 r1 b l2 r2, P r1 (Node b l2 r2) -> P (Node a l1 r1) r2 ->
     P (Node a l1 r1) (Node b l2 r2)) ->
  forall t1 t2, P t1 t2.
Proof.
  intros Hl Hr Hn t1. induction t1 as [|a l1 _ r1 IH]; [done|].
  induction t2 as [|b l2 _ r2 IH2]; [done|]. by apply Hn.
Qed.

Lemma elems_tmerge comp t1 t2 : elems (tmerge comp t1 t2) ≡ₚ elems t1 ++ elems t2.
Proof.
  induction t1, t2 as [t|t|a l1 r1 b l2 r2 IH1 IH2] using tmerge_ind.
  - by rewrite tmerge_leaf_l.
  - by rewrite tmerge_leaf_r, app_nil_r.
  - rewrite tmerge_node. case_match; cbn [elems]; rewrite ?IH1, ?IH2; cbn [elems].
    + solve_Permutation.
    + solve_Permutation.
Qed.

Lemma elems_tremove comp b t :
  NoDup (elems t) -> b ∈ elems t -> b :: elems (tremove comp b t) ≡ₚ elems t.
Proof.
  induction t as [|a l IHl r IHr]; cbn [elems tremove]; [by intros _ ?%elem_of_nil|].
  rewrite NoDup_cons, elem_of_app, elem_of_cons, elem_of_app. intros [Hna Hnd] Hb.
  case_decide as Ha; [subst; by rewrite elems_tmerge|].
  apply NoDup_app in Hnd as (Hl & Hlr & Hr). cbn [elems].
  destruct Hb as [->|[Hb|Hb]]; [done| |].
  - rewrite <- (IHl Hl Hb). assert (b ∉ elems r) as Hbr by auto.
    assert (tremove comp b r = r) as ->; [|solve_Permutation].
    clear -Hbr. induction r as [|c l IHl r IHr]; cbn in *; [done|].
    rewrite not_elem_of_cons, not_elem_of_app in Hbr. destruct Hbr as (?&?&?).
    rewrite decide_False, IHl, IHr by done. done.
  - rewrite <- (IHr Hr Hb). assert (b ∉ elems l) as Hbl by (intros ?; by apply (Hlr b)).
    assert (tremove comp b l = l) as ->; [|solve_Permutation].
    clear -Hbl. induction l as [|c l IHl r IHr]; cbn in *; [done|].
    rewrite not_elem_of_cons, not_elem_of_app in Hbl. destruct Hbl as (?&?&?).
    rewrite decide_False, IHl, IHr by done. done.
Qed.

(** Heap order for keys that the comparison function compares faithfully on [X]. *)
Section order.
Context (comp : Z -> Z -> Z) (key : Z -> Z).

Definition compares (X : list Z) : Prop :=
  forall a b, a ∈ X -> b ∈ X -> comp a b = -1 <-> key a < key b.

Fixpoint heap_ordered (t : tree) : Prop :=
  match t with
  | Leaf => True
  | Node a l r =>
      Forall (fun b => key a <= key b) (elems l ++ elems r) /\ heap_ordered l /\ heap_ordered r
  end.

Lemma heap_ordered_root a l r x : heap_ordered (Node a l r) -> x ∈ elems (Node a l r) -> key a <= key x.
Proof.
  intros (Hall & _) [->|Hx]%elem_of_cons; [done|]. rewrite Forall_forall in Hall. by apply Hall.
Qed.

Lemma tmerge_ordered t1 t2 :
  compares (elems t1 ++ elems t2) -> heap_ordered t1 -> heap_ordered t2 ->
  heap_ordered (tmerge comp t1 t2).
Proof.
  induction t1, t2 as [t|t|a l1 r1 b l2 r2 IH1 IH2] using tmerge_ind; intros Hc Ho1 Ho2.
  - by rewrite tmerge_leaf_l.
  - by rewrite tmerge_leaf_r.
  - rewrite tmerge_node. pose proof (fun x => heap_ordered_root a l1 r1 x Ho1) as Ha.
    pose proof (fun x => heap_ordered_root b l2 r2 x Ho2) as Hb.
    assert (comp a b = -1 <-> key a < key b) as Hab by (apply Hc; cbn; set_solver).
    destruct Ho1 as (Hl1 & Hol1 & Hor1), Ho2 as (Hl2 & Hol2 & Hor2).
    assert (forall l r c, heap_ordered (Node c l r) -> True) as _ by done.
    destruct (Z.eqb_spec (comp a b) (-1)) as [He|Hne]; cbn [heap_ordered]; split_and!.
    + rewrite elems_tmerge. rewrite Forall_forall. intros x. rewrite !elem_of_app. intros [[Hx|Hx]|Hx].
      * apply Ha. cbn. set_solver.
      * apply Hb in Hx. apply Hab in He. lia.
      * apply Ha. cbn. set_solver.
    + apply IH1; [|done|cbn; done]. intros x y Hx Hy. apply Hc; cbn in *; set_solver.
    + done.
    + rewrite elems_tmerge. rewrite Forall_forall. intros x. rewrite !elem_of_app. intros [[Hx|Hx]|Hx].
      * apply Ha in Hx. assert (~ key a < key b) by tauto. lia.
      * apply Hb. cbn. set_solver.
      * apply Hb. cbn. set_solver.
    + apply IH2; [|cbn; done|done]. intros x y Hx Hy. apply Hc; cbn in *; set_solver.
    + done.
Qed.
End order.

(** * The links represent the trees *)
Lemma repr_root h p t : repr h p t -> p = root t.
Proof. destruct t; cbn; [done|by intros [-> _]]. Qed.

Lemma parent_is_ext h h' t p :
  (forall x, x ∈ elems t -> h' !! x = h !! x) -> parent_is h t p -> parent_is h' t p.
Proof. destruct t; cbn; [done|]. intros Hx. rewrite Hx; [done|by left]. Qed.

Lemma repr_ext h h' p t :
  (forall x, x ∈ elems t -> h' !! x = h !! x) -> repr h p t -> repr h' p t.
Proof.
  revert p. induction t as [|a l IHl r IHr]; intros p Hx; cbn; [done|].
  assert (forall x, x ∈ elems l -> h' !! x = h !! x) as Hl by (intros; apply Hx; cbn; set_solver).
  assert (forall x, x ∈ elems r -> h' !! x = h !! x) as Hr by (intros; apply Hx; cbn; set_solver).
  intros (-> & e & He & H1 & H2 & H3 & H4). split; [done|]. exists e.
  rewrite Hx by (cbn; set_solver). split_and!; eauto using parent_is_ext.
Qed.

Lemma repr_live h p t x : repr h p t -> x ∈ elems t -> is_Some (h !! x).
Proof.
  revert p. induction t as [|a l IHl r IHr]; intros p; cbn; [by intros _ ?%elem_of_nil|].
  rewrite elem_of_cons, elem_of_app. intros (-> & e & He & H1 & H2 & _) [->|[?|?]]; eauto.
Qed.

Lemma repr_size h p t : repr h p t -> NoDup (elems t) -> (length (elems t) <= size h)%nat.
Proof.
  intros Hr Hnd. pose proof (size_list_to_set (C := gset Z) (elems t) Hnd) as Hs.
  rewrite <- Hs, <- (size_dom (D := gset Z)). apply subseteq_size.
  intros x Hx%elem_of_list_to_set. apply elem_of_dom. by eapply repr_live.
Qed.

(** Changing the parent link of the root. *)
Lemma repr_set_parent h t x v e :
  repr h (Some x) t -> NoDup (elems t) -> h !! x = Some e ->
  let h' := <[x := SkewEntry v (left e) (right e)]> h in
  set_parent h x v = Ok h' /\ repr h' (Some x) t /\ parent_is h' t v.
Proof.
  intros Hr Hnd He. split; [unfold set_parent; by rewrite (deref_some _ _ _ He)|].
  destruct t as [|a l r]; [done|]. cbn in *. destruct Hr as ([= <-] & e' & He' & H1 & H2 & H3 & H4).
  rewrite He in He'. injection He' as <-. rewrite NoDup_cons, elem_of_app in Hnd. destruct Hnd as [Hn _].
  assert (forall t, (forall y, y ∈ elems t -> y ∈ elems l \/ y ∈ elems r) ->
    forall y, y ∈ elems t -> <[x := SkewEntry v (left e) (right e)]> h !! y = h !! y) as Hext.
  { intros t Ht y Hy. apply lookup_insert_ne. intros ->. by apply Hn, Ht. }
  split.
  - split; [done|]. eexists. rewrite lookup_insert_eq. split_and!; [done| | | |]; cbn.
    1-2: eapply repr_ext; [|done]; apply Hext; tauto.
    all: eapply parent_is_ext; [|done]; apply Hext; tauto.
  - eexists. by rewrite lookup_insert_eq.
Qed.

Lemma set_left_ok h a v e :
  h !! a = Some e -> set_left h a v = Ok (<[a := SkewEntry (parent e) v (right e)]> h).
Proof. intros He. unfold set_left. by rewrite (deref_some _ _ _ He). Qed.

Lemma set_right_ok h a v e :
  h !! a = Some e -> set_right h a v = Ok (<[a := SkewEntry (parent e) (left e) v]> h).
Proof. intros He. unfold set_right. by rewrite (deref_some _ _ _ He). Qed.

(** The assignments that end both branches of [skew_heap_merge]: [t] becomes the
    left child of [a] and its old left child [u] the right one. *)
Lemma relink h a e t u :
  h !! a = Some e -> repr h (root t) t -> repr h (root u) u ->
  NoDup (a :: elems t ++ elems u) -> parent_is h u (Some a) ->
  exists h', (h ← set_left h a (root t); h ← set_right h a (root u);
              h ← match root t with Some l => set_parent h l (Some a) | None => Ok h end;
              Ok (h, Some a)) = Ok (h', Some a) /\
    repr h' (Some a) (Node a t u) /\ (forall x, x ∉ a :: elems t -> h' !! x = h !! x) /\
    exists e', h' !! a = Some e' /\ parent e' = parent e.
Proof.
  intros He Ht Hu Hnd Hp. rewrite (set_left_ok _ _ _ _ He). cbn [mbind res_bind].
  erewrite set_right_ok by apply lookup_insert_eq. cbn [mbind res_bind parent left right].
  rewrite insert_insert_eq. set (h2 := <[a := SkewEntry (parent e) (root t) (root u)]> h).
  rewrite NoDup_cons, elem_of_app in Hnd. destruct Hnd as [Hna Hnd].
  apply NoDup_app in Hnd as (Hndt & Htu & Hndu).
  assert (forall x, x <> a -> h2 !! x = h !! x) as H2 by (intros; by apply lookup_insert_ne).
  assert (repr h2 (root t) t) as Ht2 by (eapply repr_ext; [|done]; intros x Hx; apply H2; intros ->; tauto).
  assert (forall h', (forall x, x ∈ elems u -> h' !! x = h2 !! x) ->
    repr h' (root u) u /\ parent_is h' u (Some a)) as Hu'.
  { intros h' Hh'. split; [eapply repr_ext; [|exact Hu]|eapply parent_is_ext; [|exact Hp]];
      intros x Hx; rewrite Hh', H2; try done; intros ->; tauto. }
  destruct t as [|b l r]; cbn [root mbind res_bind].
  - destruct (Hu' h2) as [? ?]; [done|]. exists h2. split_and!; [done| | |].
    + cbn. split; [done|]. eexists. unfold h2. rewrite lookup_insert_eq. by split_and!.
    + intros x. rewrite elem_of_cons. intros Hx. apply H2. tauto.
    + eexists. unfold h2. by rewrite lookup_insert_eq.
  - destruct (repr_live _ _ _ b Ht2) as [eb Heb]; [by left|].
    destruct (repr_set_parent h2 (Node b l r) b (Some a) eb Ht2 Hndt Heb) as (-> & Hr3 & Hp3).
    set (h3 := <[b := _]> h2) in *. cbn [mbind res_bind].
    assert (a <> b) as Hab by (intros ->; apply Hna; left; by left).
    destruct (Hu' h3) as [? ?].
    { intros x Hx. unfold h3. apply lookup_insert_ne. intros <-. apply (Htu b); [by left|done]. }
    assert (h3 !! a = Some (SkewEntry (parent e) (Some b) (root u))) as Ha3.
    { unfold h3. rewrite lookup_insert_ne by done. unfold h2. by rewrite lookup_insert_eq. }
    exists h3. split_and!; [done| | |eauto].
    + split; [done|]. eexists. split; [exact Ha3|]. split; [exact Hr3|]. by split_and!.
    + intros x. rewrite elem_of_cons. intros Hx. unfold h3.
      rewrite lookup_insert_ne; [apply H2; tauto|]. intros <-. apply Hx. right. by left.
Qed.

Lemma merge_repr comp fuel h a b t1 t2 :
  repr h a t1 -> repr h b t2 -> NoDup (elems t1 ++ elems t2) ->
  (length (elems t1 ++ elems t2) < fuel)%nat ->
  exists h', skew_heap_merge comp fuel h a b = Ok (h', root (tmerge comp t1 t2)) /\
    repr h' (root (tmerge comp t1 t2)) (tmerge comp t1 t2) /\
    (forall x, x ∉ elems t1 ++ elems t2 -> h' !! x = h !! x) /\
    forall p, parent_is h t1 p -> parent_is h t2 p -> parent_is h' (tmerge comp t1 t2) p.
Proof.
  revert fuel h a b.
  induction t1, t2 as [t|t|ka l1 r1 kb l2 r2 IH1 IH2] using tmerge_ind; intros fuel h a b H1 H2 Hnd Hf;
    (destruct fuel as [|fuel]; [lia|]); cbn [skew_heap_merge].
  - rewrite tmerge_leaf_l. cbn in H1. subst a. pose proof (repr_root _ _ _ H2) as ->. eauto.
  - rewrite tmerge_leaf_r. cbn in H2. subst b. pose proof (repr_root _ _ _ H1) as ->. destruct (root t); eauto.
  - pose proof H1 as H1'. pose proof H2 as H2'.
    destruct H1 as (-> & ea & Hea & Hl1 & Hr1 & Hpl1 & Hpr1).
    destruct H2 as (-> & eb & Heb & Hl2 & Hr2 & Hpl2 & Hpr2).
    rewrite tmerge_node. cbn [elems app] in Hnd.
    destruct (comp ka kb =? -1).
    + rewrite (deref_some _ _ _ Hea). cbn [mbind res_bind].
      assert (NoDup (ka :: (elems l1 ++ elems r1 ++ elems (Node kb l2 r2)))) as Hnd2.
      { cbn [elems]. by rewrite <- app_assoc in Hnd. }
      apply NoDup_cons in Hnd2 as [Hka Hnd2]. apply NoDup_app in Hnd2 as (Hndl & Hdl & Hndr).
      destruct (IH1 fuel h (right ea) (Some kb) Hr1 H2' Hndr) as (h1 & -> & Hr & Ho & _).
      { cbn in Hf |- *. rewrite !length_app in *. cbn in *. lia. }
      cbn [mbind res_bind]. rewrite (repr_root _ _ _ Hl1).
      pose proof (elems_tmerge comp r1 (Node kb l2 r2)) as Hperm.
      destruct (relink h1 ka ea (tmerge comp r1 (Node kb l2 r2)) l1) as (h2 & -> & Hr' & Ho' & e' & He' & Hpe).
      * rewrite Ho; [done|]. set_solver.
      * done.
      * eapply repr_ext; [|rewrite <- (repr_root _ _ _ Hl1); done]. intros x Hx. apply Ho. by apply Hdl.
      * rewrite Hperm. apply NoDup_cons. split; [set_solver|]. apply NoDup_app. split_and!; [done| |done].
        intros x Hx Hxl. by apply (Hdl x).
      * eapply parent_is_ext; [|exact Hpl1]. intros x Hx. apply Ho. by apply Hdl.
      * exists h2. split_and!; [done|done| |].
        -- intros x Hx. rewrite Ho', Ho; [done| |rewrite Hperm]; cbn in Hx; set_solver.
        -- intros p (e1 & He1 & <-) _. exists e'. split; [done|]. congruence.
    + rewrite (deref_some _ _ _ Heb). cbn [mbind res_bind].
      assert (NoDup (kb :: (elems l2 ++ elems (Node ka l1 r1) ++ elems r2))) as Hnd2.
      { cbn [elems]. eapply NoDup_Permutation_proper; [|exact Hnd]. solve_Permutation. }
      apply NoDup_cons in Hnd2 as [Hkb Hnd2]. apply NoDup_app in Hnd2 as (Hndl & Hdl & Hndr).
      destruct (IH2 fuel h (Some ka) (right eb) H1' Hr2 Hndr) as (h1 & -> & Hr & Ho & _).
      { cbn in Hf |- *. rewrite !length_app in *. cbn in *. rewrite !length_app in *. lia. }
      cbn [mbind res_bind]. rewrite (repr_root _ _ _ Hl2).
      pose proof (elems_tmerge comp (Node ka l1 r1) r2) as Hperm.
      destruct (relink h1 kb eb (tmerge comp (Node ka l1 r1) r2) l2) as (h2 & -> & Hr' & Ho' & e' & He' & Hpe).
      * rewrite Ho; [done|]. set_solver.
      * done.
      * eapply repr_ext; [|rewrite <- (repr_root _ _ _ Hl2); done]. intros x Hx. apply Ho. by apply Hdl.
      * rewrite Hperm. apply NoDup_cons. split; [set_solver|]. apply NoDup_app. split_and!; [done| |done].
        intros x Hx Hxl. by apply (Hdl x).
      * eapply parent_is_ext; [|exact Hpl2]. intros x Hx. apply Ho. by apply Hdl.
      * exists h2. split_and!; [done|done| |].
        -- intros x Hx. rewrite Ho', Ho; [done| |rewrite Hperm]; cbn in Hx; set_solver.
        -- intros p _ (e1 & He1 & <-). exists e'. split; [done|]. congruence.
Qed.

Lemma tremove_notin comp b t : b ∉ elems t -> tremove comp b t = t.
Proof.
  induction t as [|c l IHl r IHr]; cbn in *; [done|].
  rewrite not_elem_of_cons, not_elem_of_app. intros (?&?&?).
  rewrite decide_False, IHl, IHr by done. done.
Qed.

Lemma root_elem t b : root t = Some b -> b ∈ elems t.
Proof. destruct t; cbn; [done|]. intros [= ->]. by left. Qed.

Lemma repr_elem_links h p t b :
  repr h p t -> NoDup (elems t) -> b ∈ elems t -> root t = Some b ->
  exists eb bl br, t = Node b bl br /\ h !! b = Some eb /\ repr h (left eb) bl /\ repr h (right eb) br /\
    NoDup (elems bl ++ elems br) /\ b ∉ elems bl ++ elems br.
Proof.
  destruct t as [|a l r]; [done|]. cbn. intros (-> & e & He & Hl & Hr & _) [Hn Hnd]%NoDup_cons _ [= ->].
  exists e, l, r. done.
Qed.

(** What the links say about an entry below the root, and what replacing its
    subtree by the merge of its children does to the whole tree. *)
Definition splices (comp : Z -> Z -> Z) (h : sheap) (t : tree) (b q : Z) (eq eb : skew_heap_entry)
    (bl br : tree) : Prop :=
  q ∈ elems t /\ q <> b /\ h !! q = Some eq /\ h !! b = Some eb /\ parent eb = Some q /\
  repr h (left eb) bl /\ repr h (right eb) br /\ NoDup (elems bl ++ elems br) /\
  b ∉ elems bl ++ elems br /\ q ∉ elems bl ++ elems br /\ (forall x, x ∈ elems bl ++ elems br -> x ∈ elems t) /\
  forall h' t', t' = tmerge comp bl br -> repr h' (root t') t' -> parent_is h' t' (Some q) ->
    h' !! q = Some (if decide (left eq = Some b) then SkewEntry (parent eq) (root t') (right eq)
                    else SkewEntry (parent eq) (left eq) (root t')) ->
    (forall x, x ∉ b :: q :: elems bl ++ elems br -> h' !! x = h !! x) ->
    repr h' (root t) (tremove comp b t) /\ forall p, parent_is h t p -> parent_is h' (tremove comp b t) p.

Lemma splice_left comp h a e bl br r b :
  NoDup (elems (Node a (Node b bl br) r)) -> repr h (Some a) (Node a (Node b bl br) r) -> h !! a = Some e ->
  exists eb, splices comp h (Node a (Node b bl br) r) b a e eb bl br.
Proof.
  intros Hnd (_ & e' & He' & Hl & Hr & Hpl & Hpr) He. rewrite He' in He. injection He as ->.
  destruct Hl as (Hle & eb & Heb & Hbl & Hbr & _). destruct Hpl as (eb' & Heb' & Hp).
  rewrite Heb in Heb'. injection Heb' as <-. cbn in Hnd. rewrite NoDup_cons, NoDup_cons in Hnd.
  destruct Hnd as (Ha & Hb & Hnd). apply NoDup_app in Hnd as (Hnd & Hd & _).
  exists eb. unfold splices. split_and!; [by left|set_solver|done|done|done|done|done|done|set_solver|set_solver| |].
  { intros x Hx. cbn. set_solver. }
  intros h' t' -> Ht Hp' Ha' Ho. rewrite decide_True in Ha' by done. cbn [tremove root].
  rewrite decide_False by set_solver. rewrite decide_True by done.
  rewrite (tremove_notin comp b r) by set_solver. split.
  - split; [done|]. eexists. split; [exact Ha'|]. cbn [left right]. split_and!; [done| |done|].
    + eapply repr_ext; [|done]. intros x Hx. apply Ho. set_solver.
    + eapply parent_is_ext; [|done]. intros x Hx. apply Ho. set_solver.
  - intros p (e1 & He1 & <-). rewrite He' in He1. injection He1 as <-. cbn. eauto.
Qed.

Lemma splice_right comp h a e bl br l b :
  NoDup (elems (Node a l (Node b bl br))) -> repr h (Some a) (Node a l (Node b bl br)) -> h !! a = Some e ->
  exists eb, splices comp h (Node a l (Node b bl br)) b a e eb bl br.
Proof.
  intros Hnd (_ & e' & He' & Hl & Hr & Hpl & Hpr) He. rewrite He' in He. injection He as ->.
  destruct Hr as (Hre & eb & Heb & Hbl & Hbr & _). destruct Hpr as (eb' & Heb' & Hp).
  rewrite Heb in Heb'. injection Heb' as <-. cbn in Hnd. rewrite NoDup_cons in Hnd.
  destruct Hnd as (Ha & Hnd). apply NoDup_app in Hnd as (_ & Hd & Hnd). rewrite NoDup_cons in Hnd. destruct Hnd as [Hb Hnd].
  exists eb. unfold splices. split_and!; [by left|set_solver|done|done|done|done|done|done|done|set_solver| |].
  { intros x Hx. cbn. set_solver. }
  assert (left e <> Some b) as Hne.
  { rewrite (repr_root _ _ _ Hl). intros Hx%root_elem. apply (Hd b); [done|by left]. }
  intros h' t' -> Ht Hp' Ha' Ho. rewrite decide_False in Ha' by done. cbn [tremove root].
  rewrite decide_False by set_solver. rewrite decide_True by done.
  rewrite (tremove_notin comp b l) by (intros Hx; apply (Hd b); [done|by left]). split.
  - split; [done|]. eexists. split; [exact Ha'|]. cbn [left right]. split_and!; [|done| |done].
    + eapply repr_ext; [|done]. intros x Hx. apply Ho. specialize (Hd x Hx). set_solver.
    + eapply parent_is_ext; [|done]. intros x Hx. apply Ho. specialize (Hd x Hx). set_solver.
  - intros p (e1 & He1 & <-). rewrite He' in He1. injection He1 as <-. cbn. eauto.
Qed.

Lemma splice_deeper comp h a t u b q eq eb bl br (lr : bool) :
  let n := if lr then Node a t u else Node a u t in
  NoDup (elems n) -> repr h (Some a) n -> b ∈ elems t ->
  splices comp h t b q eq eb bl br -> splices comp h n b q eq eb bl br.
Proof.
  intros n Hnd Hn Hb (Hq & Hqb & Hheq & Hheb & Hpb & Hbl & Hbr & Hndb & Hbn & Hqn & Hsub & Hsp).
  assert (a ∉ elems t /\ a ∉ elems u /\ (forall x, x ∈ elems t -> x ∉ elems u)) as (Hat & Hau & Hd).
  { destruct lr; cbn in Hnd; rewrite NoDup_cons in Hnd; destruct Hnd as [? Hnd];
      apply NoDup_app in Hnd as (_&?&_); set_solver. }
  unfold splices. split_and!; try done.
  { unfold n; destruct lr; cbn; set_solver. }
  { intros x Hx%Hsub. unfold n; destruct lr; cbn; set_solver. }
  intros h' t' Ht' Hr Hp Hq' Ho. destruct (Hsp h' t' Ht' Hr Hp Hq' Ho) as [Hr' Hp'].
  assert (h' !! a = h !! a) as Ha by (apply Ho; set_solver).
  assert (forall x, x ∈ elems u -> h' !! x = h !! x) as Hu.
  { intros x Hx. apply Ho. intros Hin. apply (Hd x); [|done].
    rewrite !elem_of_cons in Hin. destruct Hin as [->|[->|Hin]]; auto. }
  unfold n in *. destruct lr; destruct Hn as (_ & e & He & H1 & H2 & H3 & H4); cbn [tremove root];
    (rewrite decide_False by (intros ->; tauto)); rewrite (tremove_notin comp b u) by auto;
    (split; [split; [done|]; exists e; rewrite Ha; split_and!; [done|..]
            |intros p (e1 & He1 & <-); exists e1; by rewrite Ha]).
  - by rewrite (repr_root _ _ _ H1).
  - by eapply repr_ext.
  - by apply Hp'.
  - by eapply parent_is_ext.
  - by eapply repr_ext.
  - by rewrite (repr_root _ _ _ H2).
  - by eapply parent_is_ext.
  - by apply Hp'.
Qed.

Lemma splice comp h t b :
  repr h (root t) t -> NoDup (elems t) -> b ∈ elems t -> root t <> Some b ->
  exists q eq eb bl br, splices comp h t b q eq eb bl br.
Proof.
  induction t as [|a l IHl r IHr]; [by intros _ _ ?%elem_of_nil|].
  intros Hn Hnd Hb Hrt. pose proof Hn as (_ & e & He & Hl & Hr & _ & _).
  rewrite (repr_root _ _ _ Hl) in Hl. rewrite (repr_root _ _ _ Hr) in Hr.
  assert (NoDup (elems l) /\ NoDup (elems r)) as [Hndl Hndr].
  { cbn in Hnd. apply NoDup_cons in Hnd as [_ Hnd]. apply NoDup_app in Hnd as (?&_&?). done. }
  cbn [elems] in Hb. rewrite elem_of_cons, elem_of_app in Hb. cbn in Hrt. destruct Hb as [->|[Hb|Hb]]; [done| |].
  - destruct (decide (root l = Some b)) as [Hlb|Hlb].
    + destruct l as [|? bl br]; [done|]. cbn in Hlb. injection Hlb as ->.
      destruct (splice_left comp h a e bl br r b Hnd Hn He) as [eb ?]. eauto 10.
    + destruct (IHl Hl Hndl Hb Hlb) as (q & eq & eb & bl & br & Hs).
      exists q, eq, eb, bl, br. by apply (splice_deeper comp h a l r b q eq eb bl br true).
  - destruct (decide (root r = Some b)) as [Hrb|Hrb].
    + destruct r as [|? bl br]; [done|]. cbn in Hrb. injection Hrb as ->.
      destruct (splice_right comp h a e bl br l b Hnd Hn He) as [eb ?]. eauto 10.
    + destruct (IHr Hr Hndr Hb Hrb) as (q & eq & eb & bl & br & Hs).
      exists q, eq, eb, bl, br. by apply (splice_deeper comp h a r l b q eq eb bl br false).
Qed.

(** * Whole heaps *)
Definition heap_at (h : sheap) (p : option Z) (t : tree) : Prop :=
  repr h p t /\ NoDup (elems t) /\ parent_is h t None.

Lemma skew_heap_init_run h a :
  is_Some (h !! a) -> skew_heap_init h a = Ok (<[a := SkewEntry None None None]> h).
Proof.
  intros [e He]. unfold skew_heap_init, set_parent, set_left, set_right.
  rewrite (deref_some _ _ _ He). cbn [mbind res_bind].
  repeat (erewrite deref_some by apply lookup_insert_eq; cbn [mbind res_bind]; rewrite insert_insert_eq; cbn [parent left right]).
  done.
Qed.

Lemma insert_heap comp h p t b :
  heap_at h p t -> is_Some (h !! b) -> b ∉ elems t ->
  exists h', skew_heap_insert comp h p b = Ok (h', root (tmerge comp t (Node b Leaf Leaf))) /\
    heap_at h' (root (tmerge comp t (Node b Leaf Leaf))) (tmerge comp t (Node b Leaf Leaf)) /\
    forall x, x ∉ b :: elems t -> h' !! x = h !! x.
Proof.
  intros (Hr & Hnd & Hp) Hb Hbt. unfold skew_heap_insert. rewrite skew_heap_init_run by done.
  cbn [mbind res_bind]. set (h1 := <[b := _]> h).
  assert (forall x, x ∈ elems t -> h1 !! x = h !! x) as H1.
  { intros x Hx. apply lookup_insert_ne. by intros ->. }
  assert (repr h1 p t) as Hr1 by by eapply repr_ext.
  assert (repr h1 (Some b) (Node b Leaf Leaf)) as Hr2.
  { split; [done|]. eexists. unfold h1. rewrite lookup_insert_eq. by split_and!. }
  assert (NoDup (elems t ++ [b])) as Hnd1.
  { apply NoDup_app. split_and!; [done|set_solver|apply NoDup_singleton]. }
  destruct (merge_repr comp (S (size h1)) h1 p (Some b) t (Node b Leaf Leaf)) as (h2 & -> & Hr3 & Ho & Hp3);
    [done|done|done| |].
  - pose proof (size_list_to_set (C := gset Z) (elems t ++ [b]) Hnd1) as Hs.
    assert (size (list_to_set (C := gset Z) (elems t ++ [b])) <= size (dom h1))%nat as Hle.
    { apply subseteq_size. intros x. rewrite elem_of_list_to_set, elem_of_app, list_elem_of_singleton.
      intros [Hx| ->]; apply elem_of_dom; [exact (repr_live _ _ _ _ Hr1 Hx)|]. unfold h1. rewrite lookup_insert_eq. eauto. }
    rewrite size_dom in Hle. cbn [elems app]. lia.
  - exists h2. split; [done|]. split; [split_and!; [done| |]|].
    + by rewrite elems_tmerge.
    + apply Hp3; [by eapply parent_is_ext|]. eexists. unfold h1. by rewrite lookup_insert_eq.
    + intros x Hx. rewrite Ho by (cbn; set_solver). apply lookup_insert_ne. set_solver.
Qed.

Lemma children_size h l r e b :
  repr h (left e) l -> repr h (right e) r -> NoDup (elems l ++ elems r) -> b ∉ elems l ++ elems r ->
  h !! b = Some e -> (length (elems l ++ elems r) < size h)%nat.
Proof.
  intros Hl Hr Hnd Hb He.
  assert (size (list_to_set (C := gset Z) (b :: elems l ++ elems r)) <= size (dom h))%nat as Hle.
  { apply subseteq_size. intros x. rewrite elem_of_list_to_set, elem_of_cons, elem_of_app.
    intros [->|[Hx|Hx]]; apply elem_of_dom; [eauto|exact (repr_live _ _ _ _ Hl Hx)|exact (repr_live _ _ _ _ Hr Hx)]. }
  rewrite size_list_to_set in Hle by (by constructor). rewrite size_dom in Hle. cbn in Hle. lia.
Qed.

(** The assignment [if (rep) rep->parent = p] on a represented tree. *)
Lemma reparent h t p :
  repr h (root t) t -> NoDup (elems t) ->
  exists h', match root t with Some rep => set_parent h rep p | None => Ok h end = Ok h' /\
    repr h' (root t) t /\ parent_is h' t p /\ forall x, x ∉ elems t -> h' !! x = h !! x.
Proof.
  intros Hr Hnd. destruct t as [|a l r]; [by exists h|]. cbn [root].
  destruct (repr_live _ _ _ a Hr) as [e He]; [by left|].
  destruct (repr_set_parent h (Node a l r) a p e Hr Hnd He) as (-> & Hr' & Hp').
  eexists. split_and!; [done|done|done|]. intros x Hx. apply lookup_insert_ne. intros ->. apply Hx. by left.
Qed.

Lemma remove_heap comp h t b :
  heap_at h (root t) t -> b ∈ elems t ->
  exists h', skew_heap_remove comp h (root t) b = Ok (h', root (tremove comp b t)) /\
    heap_at h' (root (tremove comp b t)) (tremove comp b t) /\
    forall x, x ∉ elems t -> h' !! x = h !! x.
Proof.
  intros (Hr & Hnd & Hp) Hb. unfold skew_heap_remove.
  assert (NoDup (elems (tremove comp b t))) as Hnd'.
  { pose proof (elems_tremove comp b t Hnd Hb) as Hperm. rewrite <- Hperm in Hnd. by apply NoDup_cons in Hnd as [_ ?]. }
  destruct (decide (root t = Some b)) as [Hrt|Hrt].
  - destruct (repr_elem_links _ _ _ _ Hr Hnd Hb Hrt) as (eb & bl & br & -> & Heb & Hbl & Hbr & Hnd2 & Hbn).
    destruct Hp as (eb' & Heb' & Hpb). rewrite Heb in Heb'. injection Heb' as <-.
    rewrite (deref_some _ _ _ Heb). cbn [mbind res_bind]. rewrite Hpb.
    destruct (merge_repr comp (S (size h)) h (left eb) (right eb) bl br) as (h1 & -> & Hr1 & Ho1 & _);
      [done..| |].
    { pose proof (children_size h bl br eb b Hbl Hbr Hnd2 Hbn Heb). lia. }
    cbn [mbind res_bind].
    destruct (reparent h1 (tmerge comp bl br) None Hr1) as (h2 & -> & Hr2 & Hp2 & Ho2); [by rewrite elems_tmerge|].
    cbn [mbind res_bind tremove]. rewrite decide_True by done. exists h2. split; [done|].
    split; [split_and!; [done|by rewrite elems_tmerge|done]|].
    intros x Hx. cbn in Hx. rewrite Ho2, Ho1; [done| |rewrite elems_tmerge]; set_solver.
  - destruct (splice comp h t b Hr Hnd Hb Hrt) as (q & eq & eb & bl & br & Hq & Hqb & Hheq & Hheb & Hpb & Hbl & Hbr &
      Hnd2 & Hbn & Hqn & Hsub & Hsp).
    rewrite (deref_some _ _ _ Hheb). cbn [mbind res_bind]. rewrite Hpb.
    destruct (merge_repr comp (S (size h)) h (left eb) (right eb) bl br) as (h1 & -> & Hr1 & Ho1 & _);
      [done..| |].
    { pose proof (children_size h bl br eb b Hbl Hbr Hnd2 Hbn Hheb). lia. }
    cbn [mbind res_bind].
    destruct (reparent h1 (tmerge comp bl br) (Some q) Hr1) as (h2 & -> & Hr2 & Hp2 & Ho2); [by rewrite elems_tmerge|].
    cbn [mbind res_bind]. pose proof (elems_tmerge comp bl br) as Hperm.
    assert (h2 !! q = Some eq) as Hq2 by (rewrite Ho2, Ho1; [done|done|by rewrite Hperm]).
    rewrite (deref_some _ _ _ Hq2). cbn [mbind res_bind].
    rewrite (set_left_ok _ _ _ _ Hq2), (set_right_ok _ _ _ _ Hq2).
    destruct (Hsp (<[q := if decide (left eq = Some b) then SkewEntry (parent eq) (root (tmerge comp bl br)) (right eq)
                    else SkewEntry (parent eq) (left eq) (root (tmerge comp bl br))]> h2) (tmerge comp bl br)) as [Hr3 Hp3];
      [done| | | | |].
    + eapply repr_ext; [|exact Hr2]. intros x Hx. apply lookup_insert_ne. intros ->. by rewrite Hperm in Hx.
    + eapply parent_is_ext; [|exact Hp2]. intros x Hx. apply lookup_insert_ne. intros ->. by rewrite Hperm in Hx.
    + by rewrite lookup_insert_eq.
    + intros x Hx. rewrite lookup_insert_ne by set_solver. rewrite Ho2, Ho1; [done| |rewrite Hperm]; set_solver.
    + assert (root (tremove comp b t) = root t) as Hroot.
      { destruct t as [|a l r]; [done|]. cbn in Hrt |- *. rewrite decide_False by congruence. done. }
      match type of Hr3 with repr ?hh _ _ => exists hh end.
      split; [rewrite Hroot; by case_decide|]. split.
      * rewrite Hroot. split_and!; [exact Hr3|done|by apply Hp3].
      * intros x Hx. assert (x <> q) by (intros ->; done).
        assert (x ∉ elems bl ++ elems br) by (intros ?%Hsub; done).
        case_decide; (rewrite lookup_insert_ne by done; rewrite Ho2, Ho1; [done|done|by rewrite Hperm]).
Qed.

(** No operation frees an entry. *)
Definition keeps_entries (h h' : sheap) : Prop := forall x, is_Some (h !! x) -> is_Some (h' !! x).

#[export] Instance keeps_entries_preorder : PreOrder keeps_entries.
Proof. split; [by intros h x|]. intros h1 h2 h3 H1 H2 x Hx. by apply H2, H1. Qed.

Lemma insert_keeps_entries h a e : keeps_entries h (<[a := e]> h).
Proof. intros x Hx. rewrite lookup_insert_is_Some'. by right. Qed.

Lemma set_parent_keeps h h' a v : set_parent h a v = Ok h' -> keeps_entries h h'.
Proof. unfold set_parent. intros Hs. inv_ok. apply insert_keeps_entries. Qed.

Lemma set_left_keeps h h' a v : set_left h a v = Ok h' -> keeps_entries h h'.
Proof. unfold set_left. intros Hs. inv_ok. apply insert_keeps_entries. Qed.

Lemma set_right_keeps h h' a v : set_right h a v = Ok h' -> keeps_entries h h'.
Proof. unfold set_right. intros Hs. inv_ok. apply insert_keeps_entries. Qed.

Lemma set_parent_opt_keeps h h' l p :
  match l with Some l => set_parent h l p | None => Ok h end = Ok h' -> keeps_entries h h'.
Proof. destruct l; [apply set_parent_keeps|]. by intros [= <-]. Qed.

Lemma merge_keeps comp fuel h a b h' r :
  skew_heap_merge comp fuel h a b = Ok (h', r) -> keeps_entries h h'.
Proof.
  revert h a b h' r. induction fuel as [|fuel IH]; intros h a b h' r; [done|]. cbn [skew_heap_merge].
  destruct a as [a|], b as [b|]; try (intros [= <- <-]; done).
  case_match; intros Hm; apply res_bind_ok in Hm as (e & _ & Hm); apply res_bind_ok in Hm as ([h1 l] & H1 & Hm);
    apply res_bind_ok in Hm as (h2 & H2 & Hm); apply res_bind_ok in Hm as (h3 & H3 & Hm);
    apply res_bind_ok in Hm as (h4 & H4 & [= <- <-]);
    (etrans; [by eapply IH|]); (etrans; [by eapply set_left_keeps|]); (etrans; [by eapply set_right_keeps|]);
    by eapply set_parent_opt_keeps.
Qed.

Lemma remove_keeps comp h a b h' r :
  skew_heap_remove comp h a b = Ok (h', r) -> keeps_entries h h'.
Proof.
  unfold skew_heap_remove. intros Hm. apply res_bind_ok in Hm as (e & _ & Hm).
  apply res_bind_ok in Hm as ([h1 l] & H1%merge_keeps & Hm). apply res_bind_ok in Hm as (h2 & H2%set_parent_opt_keeps & Hm).
  etrans; [exact H1|]. etrans; [exact H2|]. destruct (parent e) as [p|]; [|by injection Hm as <- _].
  apply res_bind_ok in Hm as (ep & _ & Hm). apply res_bind_ok in Hm as (h3 & H3 & [= <- _]).
  case_match; [by eapply set_left_keeps|by eapply set_right_keeps].
Qed.

Lemma insert_keeps comp h a b h' r :
  skew_heap_insert comp h a b = Ok (h', r) -> keeps_entries h h'.
Proof.
  unfold skew_heap_insert, skew_heap_init. intros Hm. apply res_bind_ok in Hm as (h1 & H1 & Hm%merge_keeps).
  apply res_bind_ok in H1 as (h2 & H2%set_parent_keeps & H1). apply res_bind_ok in H1 as (h3 & H3%set_right_keeps & H4%set_left_keeps).
  etrans; [exact H2|]. etrans; [exact H3|]. by etrans.
Qed.
