(* ===== verification/ProcStruct.v ===== *)
(** Process descriptors (lab8/kern/process/proc.h), shared by the scheduler, the
    synchronisation primitives and process management.

    [proc_struct] has the source's fields except the register context and the
    trap frame, which only assembly code reads, and the embedded list and heap
    entries, which live in the link heaps of the components that own the lists.
    Pointers are [option Z], [None] being NULL. *)
From S2P Require Import Prelude.

Inductive proc_state : Type := PROC_UNINIT | PROC_SLEEPING | PROC_RUNNABLE | PROC_ZOMBIE.

#[export] Instance proc_state_eq_dec : EqDecision proc_state.
Proof. solve_decision. Defined.

(** There is one run queue, the static [__rq] of sched.c. *)
Inductive rq_addr : Type := the_rq.

#[export] Instance rq_addr_eq_dec : EqDecision rq_addr.
Proof. solve_decision. Defined.

Record proc_struct : Type := Proc {
  state : proc_state;
  pid : Z;
  runs : Z;
  kstack : option Z;
  need_resched : Z;
  proc_parent : option Z;
  mm : option Z;
  pgdir : Z;
  proc_flags : Z;
  proc_name : list Z;
  exit_code : Z;
  wait_state : Z;
  cptr : option Z;
  yptr : option Z;
  optr : option Z;
  rq : option rq_addr;
  time_slice : Z;
  lab6_stride : Z;
  lab6_priority : Z;
  filesp : option Z
}.

Definition set_state (v : proc_state) (p : proc_struct) : proc_struct :=
    Proc v (pid p) (runs p) (kstack p) (need_resched p) (proc_parent p) (mm p) (pgdir p)
    (proc_flags p) (proc_name p) (exit_code p) (wait_state p) (cptr p) (yptr p) (optr p) (rq p)
    (time_slice p) (lab6_stride p) (lab6_priority p) (filesp p).
Definition set_pid (v : Z) (p : proc_struct) : proc_struct :=
    Proc (state p) v (runs p) (kstack p) (need_resched p) (proc_parent p) (mm p) (pgdir p)
    (proc_flags p) (proc_name p) (exit_code p) (wait_state p) (cptr p) (yptr p) (optr p) (rq p)
    (time_slice p) (lab6_stride p) (lab6_priority p) (filesp p).
Definition set_runs (v : Z) (p : proc_struct) : proc_struct :=
    Proc (state p) (pid p) v (kstack p) (need_resched p) (proc_parent p) (mm p) (pgdir p)
    (proc_flags p) (proc_name p) (exit_code p) (wait_state p) (cptr p) (yptr p) (optr p) (rq p)
    (time_slice p) (lab6_stride p) (lab6_priority p) (filesp p).
Definition set_kstack (v : option Z) (p : proc_struct) : proc_struct :=
    Proc (state p) (pid p) (runs p) v (need_resched p) (proc_parent p) (mm p) (pgdir p)
    (proc_flags p) (proc_name p) (exit_code p) (wait_state p) (cptr p) (yptr p) (optr p) (rq p)
    (time_slice p) (lab6_stride p) (lab6_priority p) (filesp p).
Definition set_need_resched (v : Z) (p : proc_struct) : proc_struct :=
    Proc (state p) (pid p) (runs p) (kstack p) v (proc_parent p) (mm p) (pgdir p) (proc_flags p)
    (proc_name p) (exit_code p) (wait_state p) (cptr p) (yptr p) (optr p) (rq p) (time_slice p)
    (lab6_stride p) (lab6_priority p) (filesp p).
Definition set_proc_parent (v : option Z) (p : proc_struct) : proc_struct :=
    Proc (state p) (pid p) (runs p) (kstack p) (need_resched p) v (mm p) (pgdir p) (proc_flags
    p) (proc_name p) (exit_code p) (wait_state p) (cptr p) (yptr p) (optr p) (rq p) (time_slice
    p) (lab6_stride p) (lab6_priority p) (filesp p).
Definition set_mm (v : option Z) (p : proc_struct) : proc_struct :=
    Proc (state p) (pid p) (runs p) (kstack p) (need_resched p) (proc_parent p) v (pgdir p)
    (proc_flags p) (proc_name p) (exit_code p) (wait_state p) (cptr p) (yptr p) (optr p) (rq p)
    (time_slice p) (lab6_stride p) (lab6_priority p) (filesp p).
Definition set_pgdir (v : Z) (p : proc_struct) : proc_struct :=
    Proc (state p) (pid p) (runs p) (kstack p) (need_resched p) (proc_parent p) (mm p) v
    (proc_flags p) (proc_name p) (exit_code p) (wait_state p) (cptr p) (yptr p) (optr p) (rq p)
    (time_slice p) (lab6_stride p) (lab6_priority p) (filesp p).
Definition set_proc_flags (v : Z) (p : proc_struct) : proc_struct :=
    Proc (state p) (pid p) (runs p) (kstack p) (need_resched p) (proc_parent p) (mm p) (pgdir p)
    v (proc_name p) (exit_code p) (wait_state p) (cptr p) (yptr p) (optr p) (rq p) (time_slice
    p) (lab6_stride p) (lab6_priority p) (filesp p).
Definition set_proc_name (v : list Z) (p : proc_struct) : proc_struct :=
    Proc (state p) (pid p) (runs p) (kstack p) (need_resched p) (proc_parent p) (mm p) (pgdir p)
    (proc_flags p) v (exit_code p) (wait_state p) (cptr p) (yptr p) (optr p) (rq p) (time_slice
    p) (lab6_stride p) (lab6_priority p) (filesp p).
Definition set_exit_code (v : Z) (p : proc_struct) : proc_struct :=
    Proc (state p) (pid p) (runs p) (kstack p) (need_resched p) (proc_parent p) (mm p) (pgdir p)
    (proc_flags p) (proc_name p) v (wait_state p) (cptr p) (yptr p) (optr p) (rq p) (time_slice
    p) (lab6_stride p) (lab6_priority p) (filesp p).
Definition set_wait_state (v : Z) (p : proc_struct) : proc_struct :=
    Proc (state p) (pid p) (runs p) (kstack p) (need_resched p) (proc_parent p) (mm p) (pgdir p)
    (proc_flags p) (proc_name p) (exit_code p) v (cptr p) (yptr p) (optr p) (rq p) (time_slice
    p) (lab6_stride p) (lab6_priority p) (filesp p).
Definition set_cptr (v : option Z) (p : proc_struct) : proc_struct :=
    Proc (state p) (pid p) (runs p) (kstack p) (need_resched p) (proc_parent p) (mm p) (pgdir p)
    (proc_flags p) (proc_name p) (exit_code p) (wait_state p) v (yptr p) (optr p) (rq p)
    (time_slice p) (lab6_stride p) (lab6_priority p) (filesp p).
Definition set_yptr (v : option Z) (p : proc_struct) : proc_struct :=
    Proc (state p) (pid p) (runs p) (kstack p) (need_resched p) (proc_parent p) (mm p) (pgdir p)
    (proc_flags p) (proc_name p) (exit_code p) (wait_state p) (cptr p) v (optr p) (rq p)
    (time_slice p) (lab6_stride p) (lab6_priority p) (filesp p).
Definition set_optr (v : option Z) (p : proc_struct) : proc_struct :=
    Proc (state p) (pid p) (runs p) (kstack p) (need_resched p) (proc_parent p) (mm p) (pgdir p)
    (proc_flags p) (proc_name p) (exit_code p) (wait_state p) (cptr p) (yptr p) v (rq p)
    (time_slice p) (lab6_stride p) (lab6_priority p) (filesp p).
Definition set_rq (v : option rq_addr) (p : proc_struct) : proc_struct :=
    Proc (state p) (pid p) (runs p) (kstack p) (need_resched p) (proc_parent p) (mm p) (pgdir p)
    (proc_flags p) (proc_name p) (exit_code p) (wait_state p) (cptr p) (yptr p) (optr p) v
    (time_slice p) (lab6_stride p) (lab6_priority p) (filesp p).
Definition set_time_slice (v : Z) (p : proc_struct) : proc_struct :=
    Proc (state p) (pid p) (runs p) (kstack p) (need_resched p) (proc_parent p) (mm p) (pgdir p)
    (proc_flags p) (proc_name p) (exit_code p) (wait_state p) (cptr p) (yptr p) (optr p) (rq p)
    v (lab6_stride p) (lab6_priority p) (filesp p).
Definition set_lab6_stride (v : Z) (p : proc_struct) : proc_struct :=
    Proc (state p) (pid p) (runs p) (kstack p) (need_resched p) (proc_parent p) (mm p) (pgdir p)
    (proc_flags p) (proc_name p) (exit_code p) (wait_state p) (cptr p) (yptr p) (optr p) (rq p)
    (time_slice p) v (lab6_priority p) (filesp p).
Definition set_lab6_priority (v : Z) (p : proc_struct) : proc_struct :=
    Proc (state p) (pid p) (runs p) (kstack p) (need_resched p) (proc_parent p) (mm p) (pgdir p)
    (proc_flags p) (proc_name p) (exit_code p) (wait_state p) (cptr p) (yptr p) (optr p) (rq p)
    (time_slice p) (lab6_stride p) v (filesp p).
Definition set_filesp (v : option Z) (p : proc_struct) : proc_struct :=
    Proc (state p) (pid p) (runs p) (kstack p) (need_resched p) (proc_parent p) (mm p) (pgdir p)
    (proc_flags p) (proc_name p) (exit_code p) (wait_state p) (cptr p) (yptr p) (optr p) (rq p)
    (time_slice p) (lab6_stride p) (lab6_priority p) v.

Definition PF_EXITING : Z := 0x1.
Definition WT_INTERRUPTED : Z := 0x80000000.
Definition WT_CHILD : Z := Z.lor 0x1 WT_INTERRUPTED.
Definition WT_KSEM : Z := 0x100.
Definition WT_TIMER : Z := Z.lor 0x2 WT_INTERRUPTED.
Definition WT_KBD : Z := Z.lor 0x4 WT_INTERRUPTED.

Definition MAX_PROCESS : Z := 4096.
Definition MAX_PID : Z := MAX_PROCESS * 2.
Definition PROC_NAME_LEN : Z := 15.
