(* ===== verification/SchedClass.v ===== *)
(** The scheduling-class interface of lab8/kern/schedule/sched.h: the state that
    the classes share, the record of operations that [struct sched_class] is, and
    the contract [SchedClass] that sched.c relies on.

    The contract is an abstract run queue [queue s q], a list of processes up to
    order.  The classes discharge it in [RoundRobin], [Lab6Sched] and [Stride];
    [Sched] proves the core scheduler against it. *)
From S2P Require Import Prelude Lists SkewHeap ProcStruct.

(** * State *)
Inductive run_entry : Type := RunList | RunLink (p : Z).

#[export] Instance run_entry_eq_dec : EqDecision run_entry.
Proof. solve_decision. Defined.

#[export] Instance run_entry_countable : Countable run_entry.
Proof.
  refine (inj_countable' (fun l => match l with RunList => None | RunLink p => Some p end)
            (fun o => match o with None => RunList | Some p => RunLink p end) _).
  by intros [].
Defined.

#[export] Instance RunLink_inj : Inj (=) (=) RunLink.
Proof. by intros ?? [= ->]. Qed.

Record run_queue : Type := RunQueue {
  proc_num : Z;
  max_time_slice : Z;
  lab6_run_pool : option Z
}.

(** The processes, the entries embedded in them and the run queue. *)
Record sched_state : Type := SchedState {
  procs : gmap Z proc_struct;
  run_links : gmap run_entry (list_entry run_entry);
  run_pool : sheap;
  rqueue : run_queue
}.

Definition with_procs (s : sched_state) (m : gmap Z proc_struct) : sched_state :=
  SchedState m (run_links s) (run_pool s) (rqueue s).
Definition with_run_links (s : sched_state) (h : gmap run_entry (list_entry run_entry)) : sched_state :=
  SchedState (procs s) h (run_pool s) (rqueue s).
Definition with_run_pool (s : sched_state) (h : sheap) : sched_state :=
  SchedState (procs s) (run_links s) h (rqueue s).
Definition with_rqueue (s : sched_state) (r : run_queue) : sched_state :=
  SchedState (procs s) (run_links s) (run_pool s) r.

Definition set_proc_num (v : Z) (r : run_queue) : run_queue := RunQueue v (max_time_slice r) (lab6_run_pool r).
Definition set_max_time_slice (v : Z) (r : run_queue) : run_queue := RunQueue (proc_num r) v (lab6_run_pool r).
Definition set_lab6_run_pool (v : option Z) (r : run_queue) : run_queue := RunQueue (proc_num r) (max_time_slice r) v.

(** [proc->... = ...]. *)
Definition upd_proc (s : sched_state) (p : Z) (f : proc_struct -> proc_struct) : res sched_state :=
  pr ← deref (procs s) p; Ok (with_procs s (<[p := f pr]> (procs s))).

(** [le2proc(le, run_link)]; the head of the run list is in no process. *)
Definition le2proc (le : run_entry) : res Z :=
  match le with RunLink p => Ok p | RunList => Fault end.

(** * [struct sched_class] *)
Record sched_class : Type := MkSchedClass {
  sc_init : sched_state -> res sched_state;
  sc_enqueue : sched_state -> Z -> res sched_state;
  sc_dequeue : sched_state -> Z -> res sched_state;
  sc_pick_next : sched_state -> res (sched_state * option Z);
  sc_proc_tick : sched_state -> Z -> res sched_state
}.

(** The tick handler has the same text in every class. *)
Definition count_down (s : sched_state) (p : Z) : res sched_state :=
  pr ← deref (procs s) p;
  s ← (if 0 <? time_slice pr then upd_proc s p (set_time_slice (time_slice pr - 1)) else Ok s);
  pr ← deref (procs s) p;
  if time_slice pr =? 0 then upd_proc s p (set_need_resched 1) else Ok s.

(** * The contract *)

(** A process without the fields that only scheduling classes write. *)
Definition core (pr : proc_struct) : proc_struct :=
  set_rq None (set_time_slice 0 (set_lab6_stride 0 (set_need_resched 0 pr))).

(** The fields scheduling classes read. *)
Definition same_sched (pr pr' : proc_struct) : Prop :=
  rq pr' = rq pr /\ time_slice pr' = time_slice pr /\ lab6_stride pr' = lab6_stride pr /\
  lab6_priority pr' = lab6_priority pr /\ runs pr' = runs pr.

(** Only scheduling fields of [p] may differ between [s] and [s']. *)
Definition touches (p : Z) (s s' : sched_state) : Prop :=
  (forall x, x <> p -> procs s' !! x = procs s !! x) /\
  core <$> procs s' !! p = core <$> procs s !! p.

(** A process at an address of its own, its entries linked to nothing; and the end of
    one.  What freed memory holds does not matter. *)
Definition proc_new (s : sched_state) (p : Z) (pr : proc_struct) : sched_state :=
  SchedState (<[p := pr]> (procs s)) (<[RunLink p := ListEntry (RunLink p) (RunLink p)]> (run_links s))
    (<[p := SkewEntry None None None]> (run_pool s)) (rqueue s).

Definition proc_free (s : sched_state) (p : Z) : sched_state := with_procs s (delete p (procs s)).

Class SchedClass (c : sched_class) : Type := {
  queue : sched_state -> list Z -> Prop;
  queue_live s q p : queue s q -> p ∈ q -> is_Some (procs s !! p);
  queue_nodup s q : queue s q -> NoDup q;
  queue_upd s q p pr f :
    queue s q -> procs s !! p = Some pr -> (rq (f pr) = rq pr) -> queue (with_procs s (<[p := f pr]> (procs s))) q;
  queue_new s q p pr :
    queue s q -> procs s !! p = None -> rq pr = None -> Z.of_nat (size (procs s)) + 1 < 2 ^ 32 -> queue (proc_new s p pr) q;
  queue_free s q p : queue s q -> p ∉ q -> queue (proc_free s p) q;
  enqueue_ok s q p :
    queue s q -> is_Some (procs s !! p) -> p ∉ q ->
    exists s' q', sc_enqueue c s p = Ok s' /\ queue s' q' /\ q' ≡ₚ p :: q /\ touches p s s';
  dequeue_ok s q p :
    queue s q -> p ∈ q ->
    exists s' q', sc_dequeue c s p = Ok s' /\ queue s' q' /\ q ≡ₚ p :: q' /\ touches p s s';
  pick_next_ok s q :
    queue s q ->
    match q with
    | [] => sc_pick_next c s = Ok (s, None)
    | _ => exists s' q' p, sc_pick_next c s = Ok (s', Some p) /\ queue s' q' /\ q' ≡ₚ q /\ p ∈ q /\ touches p s s'
    end;
  proc_tick_ok s q p :
    queue s q -> is_Some (procs s !! p) ->
    exists s', sc_proc_tick c s p = Ok s' /\ queue s' q /\ touches p s s'
}.

(** * Facts *)
Lemma upd_proc_ok s p f pr :
  procs s !! p = Some pr -> upd_proc s p f = Ok (with_procs s (<[p := f pr]> (procs s))).
Proof. intros Hp. unfold upd_proc. by rewrite (deref_some _ _ _ Hp). Qed.

Lemma touches_refl p s : touches p s s.
Proof. by split. Qed.

Lemma touches_trans p s1 s2 s3 : touches p s1 s2 -> touches p s2 s3 -> touches p s1 s3.
Proof. intros [H1 H2] [H3 H4]. split; [intros x Hx; by rewrite H3, H1|congruence]. Qed.

Lemma touches_upd p s s' pr pr' :
  procs s !! p = Some pr -> procs s' = <[p := pr']> (procs s) -> core pr' = core pr -> touches p s s'.
Proof.
  intros Hp Hs Hc. split; rewrite Hs.
  - intros x Hx. by apply lookup_insert_ne.
  - rewrite Hp, lookup_insert_eq. change (Some (core pr') = Some (core pr)). by rewrite Hc.
Qed.

Lemma touches_same p s s' : procs s' = procs s -> touches p s s'.
Proof. intros Hp. unfold touches. by rewrite Hp. Qed.

Lemma touches_live p s s' x : touches p s s' -> is_Some (procs s' !! x) <-> is_Some (procs s !! x).
Proof.
  intros [H1 H2]. destruct (decide (x = p)) as [->|Hx]; [|by rewrite H1].
  split; intros Hs; apply (fmap_is_Some core) in Hs; apply (fmap_is_Some core); congruence.
Qed.

Lemma count_down_run s p pr :
  procs s !! p = Some pr ->
  exists pr', count_down s p = Ok (with_procs s (<[p := pr']> (procs s))) /\ core pr' = core pr /\
    rq pr' = rq pr /\
    time_slice pr' = (if 0 <? time_slice pr then time_slice pr - 1 else time_slice pr) /\
    need_resched pr' = (if time_slice pr' =? 0 then 1 else need_resched pr).
Proof.
  intros Hp. unfold count_down. rewrite (deref_some _ _ _ Hp). cbn [mbind res_bind].
  assert (with_procs s (<[p := pr]> (procs s)) = s) as Hid.
  { destruct s. unfold with_procs. cbn in *. by rewrite insert_id. }
  destruct (0 <? time_slice pr) eqn:E.
  - rewrite (upd_proc_ok _ _ _ _ Hp). cbn [mbind res_bind].
    set (pr1 := set_time_slice (time_slice pr - 1) pr).
    assert (procs (with_procs s (<[p := pr1]> (procs s))) !! p = Some pr1) as Hp1 by apply lookup_insert_eq.
    rewrite (deref_some _ _ _ Hp1). cbn [mbind res_bind]. change (time_slice pr1) with (time_slice pr - 1).
    destruct (time_slice pr - 1 =? 0) eqn:E2.
    + rewrite (upd_proc_ok _ _ _ _ Hp1). exists (set_need_resched 1 pr1).
      unfold with_procs; cbn [procs]. rewrite insert_insert_eq. cbn. by rewrite E2.
    + exists pr1. cbn. by rewrite E2.
  - cbn [mbind res_bind]. rewrite (deref_some _ _ _ Hp). cbn [mbind res_bind].
    destruct (time_slice pr =? 0) eqn:E2.
    + rewrite (upd_proc_ok _ _ _ _ Hp). exists (set_need_resched 1 pr). cbn. by rewrite E2.
    + exists pr. rewrite Hid, E2. done.
Qed.

(** * Run lists, for the classes that queue on [run_list] *)
Abbreviation run_listed := (listed RunList RunLink).

Lemma RunLink_head a : RunLink a <> RunList.
Proof. done. Qed.

Lemma run_list_empty h q live p :
  run_listed h q live -> live p -> list_empty h (RunLink p) = Ok (bool_decide (p ∉ q)).
Proof. apply (listed_empty RunList RunLink RunLink_head). Qed.

Lemma run_list_add h q (live : Z -> Prop) p :
  run_listed h q live -> live p -> p ∉ q ->
  exists h', list_add_before h RunList (RunLink p) = Ok h' /\ run_listed h' (q ++ [p]) live.
Proof.
  intros Hq Hp Hin. destruct (listed_add RunList RunLink RunLink_head h q live p Hq) as (h' & ? & ? & _); [|done|eauto].
  eapply dll_live; [by eapply (ls_detached _ _ _ _ _ Hq)|by left].
Qed.

Lemma run_list_del h l1 p l2 live :
  run_listed h (l1 ++ p :: l2) live ->
  exists h', list_del_init h (RunLink p) = Ok h' /\ run_listed h' (l1 ++ l2) live.
Proof.
  intros Hq. destruct (listed_del RunList RunLink RunLink_head h l1 p l2 live Hq) as (h' & ? & ? & _). eauto.
Qed.

Lemma run_list_first h q live :
  run_listed h q live ->
  list_next h RunList = Ok (match q with [] => RunList | p :: _ => RunLink p end).
Proof. intros Hq. rewrite (listed_first _ _ _ _ _ Hq). by destruct q. Qed.

Lemma run_listed_new h q (live live' : Z -> Prop) p :
  run_listed h q live -> p ∉ q -> (forall x, live' x -> x = p \/ live x) ->
  run_listed (<[RunLink p := ListEntry (RunLink p) (RunLink p)]> h) q live'.
Proof.
  intros [Hd Hs] Hp Hl.
  assert (Ho : same_outside h (<[RunLink p := ListEntry (RunLink p) (RunLink p)]> h) [RunLink p]).
  { intros x Hx. apply lookup_insert_ne. intros <-. apply Hx. by left. }
  split.
  - eapply dll_same_outside; [exact Hd|exact Ho|]. intros x Hx ->%list_elem_of_singleton. revert Hx. apply (listed_not_link RunList RunLink RunLink_head p q Hp).
  - intros x Hx Hn. destruct (decide (x = p)) as [->|Hne].
    + split; [apply NoDup_singleton|]. cbn. unfold nxt, prv. by rewrite lookup_insert_eq.
    + eapply dll_same_outside; [apply Hs; [by destruct (Hl x Hx)|done]|exact Ho|].
      intros y ->%list_elem_of_singleton Hy%list_elem_of_singleton. congruence.
Qed.

(** A process that the queue does not know may come and go. *)
Lemma live_insert (m : gmap Z proc_struct) p pr x : is_Some (<[p := pr]> m !! x) -> x = p \/ is_Some (m !! x).
Proof. rewrite lookup_insert_is_Some'. intuition congruence. Qed.

Lemma live_delete (m : gmap Z proc_struct) p x : is_Some (delete p m !! x) -> is_Some (m !! x).
Proof. rewrite lookup_delete_is_Some. tauto. Qed.

Lemma rq_insert (m : gmap Z proc_struct) (q : list Z) p pr :
  p ∉ q -> rq pr = None -> (forall x prx, m !! x = Some prx -> rq prx = if decide (x ∈ q) then Some the_rq else None) ->
  forall x prx, <[p := pr]> m !! x = Some prx -> rq prx = if decide (x ∈ q) then Some the_rq else None.
Proof.
  intros Hp Hrq Hm x prx. destruct (decide (x = p)) as [->|Hne].
  - rewrite lookup_insert_eq, decide_False by done. by intros [= <-].
  - rewrite lookup_insert_ne by done. apply Hm.
Qed.

Lemma rq_delete (m : gmap Z proc_struct) (q : list Z) p :
  (forall x prx, m !! x = Some prx -> rq prx = if decide (x ∈ q) then Some the_rq else None) ->
  forall x prx, delete p m !! x = Some prx -> rq prx = if decide (x ∈ q) then Some the_rq else None.
Proof. intros Hm x prx [_ Hx]%lookup_delete_Some. by apply Hm. Qed.

Lemma size_delete_le (m : gmap Z proc_struct) p : (size (delete p m) <= size m)%nat.
Proof. rewrite <- !(size_dom (D := gset Z)). apply subseteq_size. set_solver. Qed.

Lemma size_insert_le (m : gmap Z proc_struct) p pr : (size (<[p := pr]> m) <= S (size m))%nat.
Proof. rewrite map_size_insert. destruct (m !! p); cbn; lia. Qed.
