(* ===== verification/RoundRobin.v ===== *)
(** The round-robin scheduling class (lab8/kern/schedule/default_sched.c).

    [rr_queue s q] says the run list of [s] is [q], in order.  The functional
    lemmas give the exact order; the instance forgets it. *)
From S2P Require Import Prelude Lists SkewHeap ProcStruct SchedClass.

(** * The code *)
Definition RR_init (s : sched_state) : res sched_state :=
  h ← list_init (run_links s) RunList;
  Ok (with_rqueue (with_run_links s h) (set_proc_num 0 (rqueue s))).

Definition RR_enqueue (s : sched_state) (proc : Z) : res sched_state :=
  e ← list_empty (run_links s) (RunLink proc);
  _ ← c_assert e;
  h ← list_add_before (run_links s) RunList (RunLink proc);
  let s := with_run_links s h in
  pr ← deref (procs s) proc;
  s ← (if (time_slice pr =? 0) || (max_time_slice (rqueue s) <? time_slice pr) then
         upd_proc s proc (set_time_slice (max_time_slice (rqueue s)))
       else Ok s);
  s ← upd_proc s proc (set_rq (Some the_rq));
  Ok (with_rqueue s (set_proc_num (u32 (proc_num (rqueue s) + 1)) (rqueue s))).

Definition RR_dequeue (s : sched_state) (proc : Z) : res sched_state :=
  e ← list_empty (run_links s) (RunLink proc);
  pr ← deref (procs s) proc;
  _ ← c_assert (negb e && bool_decide (rq pr = Some the_rq));
  h ← list_del_init (run_links s) (RunLink proc);
  let s := with_run_links s h in
  Ok (with_rqueue s (set_proc_num (u32 (proc_num (rqueue s) - 1)) (rqueue s))).

Definition RR_pick_next (s : sched_state) : res (sched_state * option Z) :=
  le ← list_next (run_links s) RunList;
  if decide (le = RunList) then Ok (s, None)
  else p ← le2proc le; Ok (s, Some p).

Definition RR_proc_tick (s : sched_state) (proc : Z) : res sched_state := count_down s proc.

Definition default_sched_class : sched_class :=
  MkSchedClass RR_init RR_enqueue RR_dequeue RR_pick_next RR_proc_tick.

(** * The run list *)
Definition live (s : sched_state) (p : Z) : Prop := is_Some (procs s !! p).

Record rr_queue (s : sched_state) (q : list Z) : Prop := RRQueue {
  rr_links : run_listed (run_links s) q (live s);
  rr_rq : forall p, p ∈ q -> exists pr, procs s !! p = Some pr /\ rq pr = Some the_rq;
  rr_num : proc_num (rqueue s) = u32 (Z.of_nat (length q))
}.

(** The state after the descriptor of [p] changed. *)
Lemma rr_upd s q p pr pr' :
  rr_queue s q -> procs s !! p = Some pr -> rq pr' = rq pr ->
  rr_queue (with_procs s (<[p := pr']> (procs s))) q.
Proof.
  intros [Hl Hr Hn] Hp Hrq. split; [|intros x Hx; destruct (Hr x Hx) as (prx & Hprx & Hrx)|done]; cbn.
  - eapply listed_mono; [|exact Hl]. intros x. unfold live. cbn.
    rewrite lookup_insert_is_Some'. intros [->|?]; [eauto|done].
  - destruct (decide (x = p)) as [->|Hne].
    + exists pr'. rewrite lookup_insert_eq. split; [done|]. congruence.
    + exists prx. by rewrite lookup_insert_ne.
Qed.

Lemma rr_new s q p pr : rr_queue s q -> procs s !! p = None -> rr_queue (proc_new s p pr) q.
Proof.
  intros [Hl Hr Hn] Hp. assert (p ∉ q) as Hin by (intros Hin; destruct (Hr p Hin) as (? & ? & _); congruence). split; [|intros x Hx|done].
  - eapply run_listed_new; [exact Hl|done|]. intros x. apply live_insert.
  - destruct (Hr x Hx) as (prx & Hprx & Hrx). exists prx. cbn. rewrite lookup_insert_ne; [done|congruence].
Qed.

Lemma rr_free s q p : rr_queue s q -> p ∉ q -> rr_queue (proc_free s p) q.
Proof.
  intros [Hl Hr Hn] Hp. split; [|intros x Hx|done].
  - eapply listed_mono; [|exact Hl]. intros x. apply live_delete.
  - destruct (Hr x Hx) as (prx & Hprx & Hrx). exists prx. cbn. rewrite lookup_delete_ne; [done|congruence].
Qed.

(** The time slice [RR_enqueue] leaves a process with. *)
Definition slice (s : sched_state) (pr : proc_struct) : Z :=
  if (time_slice pr =? 0) || (max_time_slice (rqueue s) <? time_slice pr)
  then max_time_slice (rqueue s) else time_slice pr.

Lemma RR_enqueue_run s q p pr :
  rr_queue s q -> procs s !! p = Some pr -> p ∉ q ->
  exists s', RR_enqueue s p = Ok s' /\ rr_queue s' (q ++ [p]) /\
    procs s' = <[p := set_rq (Some the_rq) (set_time_slice (slice s pr) pr)]> (procs s) /\
    max_time_slice (rqueue s') = max_time_slice (rqueue s).
Proof.
  intros [Hl Hr Hn] Hp Hin. unfold RR_enqueue.
  rewrite (run_list_empty _ _ _ p Hl) by (eexists; exact Hp). rewrite bool_decide_true by done.
  cbn [c_assert mbind res_bind].
  destruct (run_list_add _ _ _ p Hl) as (h & -> & Hl'); [by eexists|done|].
  cbn [mbind res_bind with_run_links procs rqueue]. rewrite (deref_some _ _ _ Hp). cbn [mbind res_bind].
  set (pr1 := set_time_slice (slice s pr) pr).
  assert ((if (time_slice pr =? 0) || (max_time_slice (rqueue s) <? time_slice pr)
           then upd_proc (with_run_links s h) p (set_time_slice (max_time_slice (rqueue s)))
           else Ok (with_run_links s h)) = Ok (with_procs (with_run_links s h) (<[p := pr1]> (procs s)))) as ->.
  { unfold pr1, slice. case_match.
    - by rewrite (upd_proc_ok _ _ _ pr).
    - f_equal. unfold with_procs, with_run_links. cbn. f_equal. rewrite insert_id; [done|]. by destruct pr. }
  cbn [mbind res_bind]. erewrite upd_proc_ok by (cbn; apply lookup_insert_eq). cbn [mbind res_bind].
  eexists. split; [done|]. cbn. rewrite insert_insert_eq. split; [split; cbn|done].
  - eapply listed_mono; [|exact Hl']. intros x. unfold live. cbn.
    rewrite lookup_insert_is_Some'. intros [<-|?]; [eauto|done].
  - intros x. rewrite elem_of_app, list_elem_of_singleton. intros Hx. destruct (decide (x = p)) as [->|Hne].
    + rewrite lookup_insert_eq. eauto.
    + rewrite lookup_insert_ne by done. destruct Hx as [Hx|]; [by apply Hr|done].
  - rewrite Hn, length_app. cbn. unfold u32. rewrite Zplus_mod_idemp_l. f_equal. lia.
Qed.

Lemma RR_dequeue_run s l1 p l2 :
  rr_queue s (l1 ++ p :: l2) ->
  exists s', RR_dequeue s p = Ok s' /\ rr_queue s' (l1 ++ l2) /\ procs s' = procs s /\
    max_time_slice (rqueue s') = max_time_slice (rqueue s).
Proof.
  intros [Hl Hr Hn]. assert (p ∈ l1 ++ p :: l2) as Hin by set_solver.
  destruct (Hr p Hin) as (pr & Hp & Hrq). unfold RR_dequeue.
  rewrite (run_list_empty _ _ _ p Hl) by (eexists; exact Hp). rewrite bool_decide_false by tauto.
  cbn [mbind res_bind]. rewrite (deref_some _ _ _ Hp). cbn [mbind res_bind].
  rewrite bool_decide_true by done. cbn [negb andb c_assert mbind res_bind].
  destruct (run_list_del _ _ _ _ _ Hl) as (h & -> & Hl'). cbn [mbind res_bind].
  eexists. split; [done|]. split; [split; cbn|done].
  - exact Hl'.
  - intros x Hx. apply Hr. set_solver.
  - rewrite Hn, !length_app. cbn. unfold u32. rewrite Zminus_mod_idemp_l. f_equal. lia.
Qed.

Lemma RR_pick_next_run s q :
  rr_queue s q -> RR_pick_next s = Ok (s, head q).
Proof.
  intros [Hl _ _]. unfold RR_pick_next. rewrite (run_list_first _ _ _ Hl).
  cbn [mbind res_bind]. by destruct q.
Qed.

Lemma RR_proc_tick_run s q p :
  rr_queue s q -> is_Some (procs s !! p) ->
  exists s', RR_proc_tick s p = Ok s' /\ rr_queue s' q /\ touches p s s'.
Proof.
  intros Hq [pr Hp]. destruct (count_down_run s p pr Hp) as (pr' & Hc & Hcore & Hrq & _).
  eexists. split; [exact Hc|]. split; [by eapply rr_upd|by eapply touches_upd].
Qed.

(** Round robin is a scheduling class. *)
#[export] Program Instance default_sched_class_ok : SchedClass default_sched_class := {
  queue := rr_queue
}.
Next Obligation. intros s q p [_ Hr _] Hp. destruct (Hr p Hp) as (?&?&_). eauto. Qed.
Next Obligation. intros s q [Hl _ _]. by eapply listed_nodup. Qed.
Next Obligation. intros. by eapply rr_upd. Qed.
Next Obligation. intros. by apply rr_new. Qed.
Next Obligation. intros. by apply rr_free. Qed.
Next Obligation.
  intros s q p Hq [pr Hp] Hin. destruct (RR_enqueue_run s q p pr Hq Hp Hin) as (s' & He & Hq' & Hpr & _).
  exists s', (q ++ [p]). split_and!; [done|done|by rewrite Permutation_app_comm|by eapply touches_upd].
Qed.
Next Obligation.
  intros s q p Hq (l1 & l2 & ->)%list_elem_of_split.
  destruct (RR_dequeue_run s l1 p l2 Hq) as (s' & Hd & Hq' & Hpr & _).
  exists s', (l1 ++ l2). split_and!; [done|done|by rewrite Permutation_middle|by apply touches_same].
Qed.
Next Obligation.
  intros s q Hq. pose proof (RR_pick_next_run s q Hq) as Hp. destruct q as [|p q]; [done|].
  exists s, (p :: q), p. split_and!; [done|done|done|by left|apply touches_refl].
Qed.
Next Obligation. intros. by apply RR_proc_tick_run. Qed.

Lemma rr_queue_det s q1 q2 : rr_queue s q1 -> rr_queue s q2 -> q1 = q2.
Proof.
  intros [[H1 _] _ _] [[H2 _] _ _]. eapply dll_det in H2; [|exact H1].
  by apply (inj (fmap RunLink)) in H2.
Qed.
