(* ===== verification/Sched.v ===== *)
(** The core scheduler (lab8/kern/schedule/sched.c): [wakeup_proc], [schedule]
    and the dispatch to the scheduling class, over any class that meets the
    contract of [SchedClass].

    A process switch is the assignment [current = next] together with the page
    table register: the state returned by [schedule] is the one in which the next
    process resumes. *)
From S2P Require Import Prelude Lists SkewHeap ProcStruct SchedClass RoundRobin.

(** Timers live in [Timer]; here are the processes and the CPU. *)
Record kernel : Type := Kernel {
  sched : sched_state;
  current : Z;
  idleproc : Z;
  satp : Z
}.

Definition with_sched (k : kernel) (s : sched_state) : kernel :=
  Kernel s (current k) (idleproc k) (satp k).

Definition MAX_TIME_SLICE : Z := 5.

Section code.
Context (c : sched_class).

Definition sched_class_enqueue (k : kernel) (proc : Z) : res kernel :=
  if decide (proc <> idleproc k) then s ← sc_enqueue c (sched k) proc; Ok (with_sched k s) else Ok k.

Definition sched_class_dequeue (k : kernel) (proc : Z) : res kernel :=
  s ← sc_dequeue c (sched k) proc; Ok (with_sched k s).

Definition sched_class_pick_next (k : kernel) : res (kernel * option Z) :=
  '(s, next) ← sc_pick_next c (sched k); Ok (with_sched k s, next).

Definition sched_class_proc_tick (k : kernel) (proc : Z) : res kernel :=
  s ← (if decide (proc <> idleproc k) then sc_proc_tick c (sched k) proc
       else upd_proc (sched k) proc (set_need_resched 1));
  Ok (with_sched k s).

(** The run-queue half of [sched_init]. *)
Definition sched_init (s : sched_state) : res sched_state :=
  sc_init c (with_rqueue s (set_max_time_slice MAX_TIME_SLICE (rqueue s))).

Definition wakeup_proc (k : kernel) (proc : Z) : res kernel :=
  pr ← deref (procs (sched k)) proc;
  _ ← c_assert (bool_decide (state pr <> PROC_ZOMBIE));
  if decide (state pr <> PROC_RUNNABLE) then
    s ← upd_proc (sched k) proc (set_state PROC_RUNNABLE);
    s ← upd_proc s proc (set_wait_state 0);
    let k := with_sched k s in
    if decide (proc <> current k) then sched_class_enqueue k proc else Ok k
  else Ok k.

Definition proc_run (k : kernel) (proc : Z) : res kernel :=
  if decide (proc <> current k) then
    pr ← deref (procs (sched k)) proc;
    Ok (Kernel (sched k) proc (idleproc k) (pgdir pr))
  else Ok k.

Definition schedule (k : kernel) : res kernel :=
  s ← upd_proc (sched k) (current k) (set_need_resched 0);
  let k := with_sched k s in
  cur ← deref (procs (sched k)) (current k);
  k ← (if decide (state cur = PROC_RUNNABLE) then sched_class_enqueue k (current k) else Ok k);
  '(k, next) ← sched_class_pick_next k;
  k ← match next with Some next => sched_class_dequeue k next | None => Ok k end;
  let next := default (idleproc k) next in
  pr ← deref (procs (sched k)) next;
  s ← upd_proc (sched k) next (set_runs (i32 (runs pr + 1)));
  let k := with_sched k s in
  if decide (next <> current k) then proc_run k next else Ok k.
End code.

(** * The scheduler's invariant

    The run queue holds exactly the runnable processes that are not on the CPU
    and are not the idle process. *)
Section inv.
Context `{SchedClass c}.

Definition runnable (k : kernel) (p : Z) : Prop :=
  exists pr, procs (sched k) !! p = Some pr /\ state pr = PROC_RUNNABLE.

Record sched_inv (k : kernel) (q : list Z) : Prop := SchedInv {
  si_queue : queue (sched k) q;
  si_current : is_Some (procs (sched k) !! current k);
  si_idle : is_Some (procs (sched k) !! idleproc k);
  si_off : current k ∉ q /\ idleproc k ∉ q;
  si_in : forall p, p ∈ q -> runnable k p;
  si_all : forall p, runnable k p -> p = current k \/ p = idleproc k \/ p ∈ q
}.

(** [f] leaves alone what the class knows of a process. *)
Definition quiet (f : proc_struct -> proc_struct) : Prop := forall pr, rq (f pr) = rq pr.

Lemma upd_queue s q p f :
  queue s q -> quiet f -> is_Some (procs s !! p) ->
  exists pr, procs s !! p = Some pr /\
    upd_proc s p f = Ok (with_procs s (<[p := f pr]> (procs s))) /\
    queue (with_procs s (<[p := f pr]> (procs s))) q.
Proof.
  intros Hq Hf [pr Hp]. exists pr. split; [done|]. split; [by apply upd_proc_ok|].
  by apply queue_upd.
Qed.

(** The states of all processes but [p] agree; [p]'s is [v]. *)
Definition states (s : sched_state) (x : Z) : option proc_state := state <$> procs s !! x.

Lemma touches_states p s s' x : touches p s s' -> states s' x = states s x.
Proof.
  intros [H1 H2]. unfold states. destruct (decide (x = p)) as [->|Hx]; [|by rewrite H1].
  destruct (procs s !! p), (procs s' !! p); try done.
  apply (f_equal (option_map state)) in H2. done.
Qed.

Lemma runnable_states k p : runnable k p <-> states (sched k) p = Some PROC_RUNNABLE.
Proof.
  unfold runnable, states. destruct (procs (sched k) !! p) as [pr|]; cbn; [|naive_solver].
  split; [intros (?&[= <-]&->); done|intros [= ?]; eauto].
Qed.

Lemma live_states s x : is_Some (procs s !! x) <-> is_Some (states s x).
Proof. unfold states. by rewrite fmap_is_Some. Qed.

Lemma states_upd s p pr pr' x :
  procs s !! p = Some pr ->
  states (with_procs s (<[p := pr']> (procs s))) x =
    if decide (x = p) then Some (state pr') else states s x.
Proof.
  intros Hp. unfold states. cbn. case_decide as Hx; [subst; by rewrite lookup_insert_eq|].
  by rewrite lookup_insert_ne.
Qed.

Lemma states_upd_same s p pr pr' x :
  procs s !! p = Some pr -> state pr' = state pr ->
  states (with_procs s (<[p := pr']> (procs s))) x = states s x.
Proof.
  intros Hp Hs. rewrite (states_upd s p pr) by done. case_decide; [|done].
  subst. unfold states. rewrite Hp. cbn. by f_equal.
Qed.

(** A process without what scheduling itself writes. *)
Definition quiet_core (pr : proc_struct) : proc_struct := set_runs 0 (core pr).
Definition view (s : sched_state) (x : Z) : option proc_struct := quiet_core <$> procs s !! x.

Lemma touches_view p s s' x : touches p s s' -> view s' x = view s x.
Proof.
  intros [H1 H2]. unfold view. destruct (decide (x = p)) as [->|Hx]; [|by rewrite H1].
  destruct (procs s !! p), (procs s' !! p); try done.
  apply (f_equal (option_map (set_runs 0))) in H2. done.
Qed.

Lemma view_upd_same s p pr pr' x :
  procs s !! p = Some pr -> quiet_core pr' = quiet_core pr ->
  view (with_procs s (<[p := pr']> (procs s))) x = view s x.
Proof.
  intros Hp Hs. unfold view. cbn. destruct (decide (x = p)) as [->|Hne].
  - rewrite lookup_insert_eq, Hp. change (Some (quiet_core pr') = Some (quiet_core pr)). by rewrite Hs.
  - by rewrite lookup_insert_ne.
Qed.

Lemma live_view s x : is_Some (procs s !! x) <-> is_Some (view s x).
Proof. unfold view. by rewrite fmap_is_Some. Qed.

(** Fields that [quiet_core] keeps. *)
Lemma view_field {A} (f : proc_struct -> A) s s' x :
  (forall pr, f (quiet_core pr) = f pr) -> view s' x = view s x -> f <$> procs s' !! x = f <$> procs s !! x.
Proof.
  intros Hf Hv. unfold view in Hv. destruct (procs s !! x), (procs s' !! x); try done.
  apply (f_equal (option_map f)) in Hv. cbn in Hv |- *. by rewrite <- Hf, <- (Hf p).
Qed.

Lemma view_states s s' x : view s' x = view s x -> states s' x = states s x.
Proof. by apply view_field. Qed.

Lemma runnable_view k k' p :
  (forall x, view (sched k') x = view (sched k) x) -> runnable k' p <-> runnable k p.
Proof. intros Hv. rewrite !runnable_states. by rewrite (view_states (sched k) (sched k')). Qed.

(** [pick_next] followed by [dequeue]. *)
Lemma take_next s q :
  queue s q ->
  exists s1 s2 q' next, sc_pick_next c s = Ok (s1, next) /\
    match next with Some p => sc_dequeue c s1 p | None => Ok s1 end = Ok s2 /\
    queue s2 q' /\ (forall x, view s2 x = view s x) /\
    match next with None => q = [] /\ q' = [] | Some p => q ≡ₚ p :: q' end.
Proof.
  intros Hq. pose proof (pick_next_ok s q Hq) as Hp. destruct q as [|x q].
  - exists s, s, [], None. done.
  - destruct Hp as (s1 & q1 & p & Hs1 & Hq1 & Hperm & Hin & Ht1).
    destruct (dequeue_ok s1 q1 p Hq1) as (s2 & q2 & Hs2 & Hq2 & Hperm2 & Ht2); [by rewrite Hperm|].
    exists s1, s2, q2, (Some p). split_and!; [done|done|done| |by rewrite <- Hperm].
    intros y. rewrite (touches_view p s1 s2), (touches_view p s s1); done.
Qed.

Definition same_cpu (k k' : kernel) : Prop := current k' = current k /\ idleproc k' = idleproc k.

(** [schedule] never fails, loses no process, and runs the idle process only
    when nothing else is runnable. *)
Lemma schedule_run k q :
  sched_inv k q ->
  exists k' q', schedule c k = Ok k' /\ sched_inv k' q' /\ idleproc k' = idleproc k /\
    (forall x, view (sched k') x = view (sched k) x) /\
    (runnable k' (current k') \/
     (current k' = idleproc k' /\ forall p, runnable k' p -> p = idleproc k')).
Proof.
  intros [Hq Hc Hi [Hoc Hoi] Hin Hall]. unfold schedule.
  destruct (upd_queue (sched k) q (current k) (set_need_resched 0)) as (cur & Hcur & -> & Hq1); [done|done|done|].
  cbn [mbind res_bind with_sched sched current]. set (s1 := with_procs _ _) in *.
  assert (forall x, view s1 x = view (sched k) x) as Hs1 by (intros; by eapply view_upd_same).
  rewrite (deref_some _ _ (set_need_resched 0 cur)) by apply lookup_insert_eq. cbn [mbind res_bind].
  change (state (set_need_resched 0 cur)) with (state cur).
  assert (exists s2 q2, (if decide (state cur = PROC_RUNNABLE)
      then sched_class_enqueue c (with_sched k s1) (current k) else Ok (with_sched k s1)) = Ok (with_sched k s2) /\
      queue s2 q2 /\ (forall x, view s2 x = view (sched k) x) /\ idleproc k ∉ q2 /\
      (forall p, p ∈ q2 -> runnable k p) /\
      (forall p, runnable k p -> p = idleproc k \/ p ∈ q2)) as (s2 & q2 & -> & Hq2 & Hs2 & Hi2 & Hin2 & Hall2).
  { destruct (decide (state cur = PROC_RUNNABLE)) as [Hrun|Hrun].
    - unfold sched_class_enqueue. cbn [with_sched idleproc sched]. case_decide as Hidle.
      + destruct (enqueue_ok s1 q (current k) Hq1) as (s2 & q2 & -> & Hq2 & Hperm & Ht);
          [by rewrite live_view, Hs1, <- live_view|done|].
        exists s2, q2. split_and!; [done|done| | | |].
        * intros x. rewrite (touches_view (current k) s1 s2); done.
        * rewrite Hperm. rewrite not_elem_of_cons. done.
        * intros p. rewrite Hperm, elem_of_cons. intros [->|?]; [exists cur; done|by apply Hin].
        * intros p Hp. rewrite Hperm, elem_of_cons. destruct (Hall p Hp) as [?|[?|?]]; auto.
      + assert (current k = idleproc k) as Heq by (destruct (decide (current k = idleproc k)); tauto).
        exists s1, q. split_and!; [done|done|done|done|done|].
        intros p Hp. destruct (Hall p Hp) as [?|[?|?]]; [left; congruence|auto|auto].
    - exists s1, q. split_and!; [done|done|done|done|done|].
      intros p Hp. destruct (Hall p Hp) as [->|[?|?]]; [|auto|auto].
      destruct Hp as (pr & Hpr & Hst). congruence. }
  cbn [mbind res_bind]. unfold sched_class_pick_next. cbn [with_sched sched].
  destruct (take_next s2 q2 Hq2) as (s3 & s4 & q4 & next & -> & Hdq & Hq4 & Hs4 & Hnext).
  cbn [mbind res_bind].
  assert (match next with
          | Some next0 => sched_class_dequeue c (with_sched (with_sched k s2) s3) next0
          | None => Ok (with_sched (with_sched k s2) s3) end = Ok (with_sched k s4)) as Hdq'.
  { unfold sched_class_dequeue. cbn [with_sched sched]. destruct next; [rewrite Hdq; done|]. by injection Hdq as ->. }
  cbn [with_sched sched current idleproc satp] in Hdq' |- *. rewrite Hdq'. cbn [mbind res_bind with_sched sched idleproc current].
  set (n := default (idleproc k) next).
  assert (is_Some (procs s4 !! n)) as Hln.
  { rewrite live_view, Hs4, Hs2, <- live_view. unfold n. destruct next as [p|]; [|done]. cbn.
    destruct (Hin2 p) as (pr & -> & _); [rewrite Hnext; by left|eauto]. }
  destruct Hln as [pr Hpr]. rewrite (deref_some _ _ _ Hpr). cbn [mbind res_bind].
  rewrite (upd_proc_ok _ _ _ _ Hpr). cbn [mbind res_bind]. set (s5 := with_procs s4 _).
  assert (forall x, view s5 x = view (sched k) x) as Hs5.
  { intros x. rewrite <- Hs2, <- Hs4. by eapply view_upd_same. }
  assert (queue s5 q4) as Hq5 by (by apply queue_upd).
  set (k5 := Kernel s5 n (idleproc k) (if decide (n <> current k) then pgdir (set_runs (i32 (runs pr + 1)) pr) else satp k)).
  assert ((if decide (n <> current k) then proc_run (with_sched k s5) n else Ok (with_sched k s5)) = Ok k5) as Hrun.
  { unfold k5. case_decide as Hne.
    - unfold proc_run. cbn [with_sched sched current idleproc]. rewrite decide_True by done.
      rewrite (deref_some _ _ (set_runs (i32 (runs pr + 1)) pr)) by apply lookup_insert_eq. done.
    - assert (n = current k) as Hn by (destruct (decide (n = current k)); tauto). unfold with_sched. by rewrite Hn. }
  exists k5, q4. split; [exact Hrun|].
  assert (forall p, runnable k5 p <-> runnable k p) as Hrk by (intros; by apply runnable_view).
  assert (NoDup q2) as Hnd2 by by eapply queue_nodup.
  assert ((next = None /\ q2 = [] /\ q4 = [] /\ n = idleproc k) \/ (q2 ≡ₚ n :: q4)) as Hcase.
  { unfold n. destruct next as [p|]; [right; done|left]. by destruct Hnext. }
  assert (forall p, p ∈ q4 -> p ∈ q2) as Hsub.
  { destruct Hcase as [(_&->&->&_)|Hperm]; [done|]. intros p Hp. rewrite Hperm. by right. }
  split; [split|split; [done|split; [done|]]].
  - exact Hq5.
  - cbn. unfold s5. cbn. rewrite lookup_insert_eq. eauto.
  - apply live_view. cbn [sched]. rewrite Hs5. by apply live_view.
  - split; [|intros ?; by apply Hi2, Hsub]. destruct Hcase as [(_&_&->&_)|Hperm]; [apply not_elem_of_nil|].
    rewrite Hperm in Hnd2. by apply NoDup_cons in Hnd2 as [? _].
  - intros p Hp. apply Hrk. auto.
  - intros p Hp%Hrk. cbn. destruct (Hall2 p Hp) as [?|Hp2]; [auto|].
    destruct Hcase as [(_&->&_&_)|Hperm]; [by apply elem_of_nil in Hp2|].
    rewrite Hperm, elem_of_cons in Hp2. tauto.
  - destruct Hcase as [(_&Hq2n&_&Hn)|Hperm].
    + right. split; [done|]. intros p Hp%Hrk. destruct (Hall2 p Hp) as [?|Hp2]; [done|].
      rewrite Hq2n in Hp2. by apply elem_of_nil in Hp2.
    + left. apply Hrk, Hin2. rewrite Hperm. by left.
Qed.

Definition woken (pr : proc_struct) : proc_struct := set_wait_state 0 (set_state PROC_RUNNABLE pr).

Lemma wakeup_proc_run k q p pr :
  sched_inv k q -> procs (sched k) !! p = Some pr -> state pr <> PROC_ZOMBIE ->
  exists k' q', wakeup_proc c k p = Ok k' /\ sched_inv k' q' /\ same_cpu k k' /\
    (forall x, x <> p -> procs (sched k') !! x = procs (sched k) !! x) /\
    exists pr', procs (sched k') !! p = Some pr' /\ state pr' = PROC_RUNNABLE /\
      (wait_state pr' = 0 /\ core pr' = core (woken pr) \/ pr' = pr).
Proof.
  intros Hinv Hp Hz. pose proof Hinv as [Hq Hc Hi [Hoc Hoi] Hin Hall]. unfold wakeup_proc.
  rewrite (deref_some _ _ _ Hp). cbn [mbind res_bind]. rewrite bool_decide_true by done.
  cbn [c_assert mbind res_bind]. case_decide as Hr.
  2: { exists k, q. split_and!; try done. exists pr. split_and!; [done| |by right].
       destruct (decide (state pr = PROC_RUNNABLE)); tauto. }
  assert (p ∉ q) as Hpq. { intros Hpq. destruct (Hin p Hpq) as (? & ? & ?). congruence. }
  rewrite (upd_proc_ok _ _ _ _ Hp). cbn [mbind res_bind].
  erewrite upd_proc_ok by (cbn; apply lookup_insert_eq). cbn [mbind res_bind with_procs procs].
  rewrite insert_insert_eq. set (pr' := set_wait_state 0 (set_state PROC_RUNNABLE pr)).
  set (s1 := with_procs (sched k) (<[p := pr']> (procs (sched k)))).
  assert (queue s1 q) as Hq1 by (by eapply (queue_upd (sched k) q p pr (fun _ => pr'))).
  assert (forall x, states s1 x = if decide (x = p) then Some PROC_RUNNABLE else states (sched k) x) as Hs1
    by (intros; by eapply states_upd).
  change (with_procs (with_procs (sched k) _) _) with s1. change (current (with_sched k s1)) with (current k).
  assert (exists s2 q2, (if decide (p <> current k) then sched_class_enqueue c (with_sched k s1) p
     else Ok (with_sched k s1)) = Ok (with_sched k s2) /\ queue s2 q2 /\
     touches p s1 s2 /\ (q2 ≡ₚ p :: q /\ p <> current k /\ p <> idleproc k \/ q2 = q /\ (p = current k \/ p = idleproc k)))
    as (s2 & q2 & -> & Hq2 & Ht & Hcase).
  { destruct (decide (p = current k)) as [Hpc|Hpc].
    - rewrite decide_False by tauto. exists s1, q. split_and!; [done|done|apply touches_refl|auto].
    - rewrite decide_True by done. unfold sched_class_enqueue. cbn [idleproc with_sched].
      destruct (decide (p = idleproc k)) as [Hpi|Hpi].
      + rewrite decide_False by tauto. exists s1, q. split_and!; [done|done|apply touches_refl|auto].
      + rewrite decide_True by done. cbn [sched with_sched].
        destruct (enqueue_ok s1 q p Hq1) as (s2 & q2 & -> & Hq2 & Hperm & Ht); [|done|].
        { cbn. rewrite lookup_insert_eq. eauto. }
        exists s2, q2. split_and!; [done|done|done|left; split_and!; done]. }
  assert (forall x, states s2 x = if decide (x = p) then Some PROC_RUNNABLE else states (sched k) x) as Hs2
    by (intros; rewrite (touches_states p s1 s2); done).
  exists (with_sched k s2), q2. split; [done|].
  assert (forall x, runnable (with_sched k s2) x <-> x = p \/ runnable k x) as Hrk.
  { intros x. rewrite !runnable_states. cbn. rewrite Hs2. case_decide; [naive_solver|]. naive_solver. }
  split; [split; cbn|split_and!; [done..| |]].
  - done.
  - apply live_states. rewrite Hs2. case_decide; [eauto|by apply live_states].
  - apply live_states. rewrite Hs2. case_decide; [eauto|by apply live_states].
  - destruct Hcase as [(Hperm&?&?)|[-> _]]; [|done]. rewrite Hperm, !not_elem_of_cons. naive_solver.
  - intros x Hx. apply Hrk. destruct Hcase as [(Hperm&_)|[-> _]]; [|auto].
    rewrite Hperm, elem_of_cons in Hx. naive_solver.
  - intros x [->|Hx]%Hrk.
    + destruct Hcase as [(Hperm&_)|[_ ?]]; [|tauto]. rewrite Hperm. right; right. by left.
    + destruct (Hall x Hx) as [?|[?|?]]; [auto|auto|]. right; right.
      destruct Hcase as [(Hperm&_)|[-> _]]; [|done]. rewrite Hperm. by right.
  - intros x Hx. cbn. destruct Ht as [Ht _]. rewrite Ht by done. cbn. by apply lookup_insert_ne.
  - destruct Ht as [_ Ht]. cbn [procs] in Ht. unfold s1 in Ht. cbn in Ht. rewrite lookup_insert_eq in Ht.
    destruct (procs s2 !! p) as [pr2|] eqn:E2; [|done]. exists pr2. cbn. split; [done|].
    pose proof (f_equal (option_map state) Ht) as H1. pose proof (f_equal (option_map wait_state) Ht) as H2.
    injection H1 as H1. injection H2 as H2. cbn in Ht. apply (inj Some) in Ht. auto.
Qed.
End inv.

(** * Round robin under [schedule] *)
Section round_robin.
Abbreviation rr := default_sched_class.
Implicit Types (k : kernel) (q : list Z).

#[export] Instance runnable_dec k p : Decision (runnable k p).
Proof.
  unfold runnable. destruct (procs (sched k) !! p) as [pr|] eqn:Hp.
  - destruct (decide (state pr = PROC_RUNNABLE)); [left; by exists pr|right; intros (?&?&?); congruence].
  - right. intros (?&?&?). congruence.
Defined.

(** What [schedule] appends to the run queue before it takes the front. *)
Definition requeued (k : kernel) : list Z :=
  if decide (runnable k (current k) /\ current k <> idleproc k) then [current k] else [].

Lemma RR_schedule_order k q p q' :
  sched_inv (c := rr) k q -> q ++ requeued k = p :: q' ->
  exists k', schedule rr k = Ok k' /\ sched_inv (c := rr) k' q' /\ current k' = p /\
    idleproc k' = idleproc k /\ (forall x, states (sched k') x = states (sched k) x).
Proof.
  intros Hinv Ho. destruct (schedule_run (c := rr) k q Hinv) as (k' & q2 & Hrun & Hinv' & Hid & Hst & _).
  enough (rr_queue (sched k') q' /\ current k' = p) as [Hq' Hc].
  { pose proof (rr_queue_det _ _ _ (si_queue _ _ Hinv') Hq') as ->. exists k'. split_and!; try done.
    intros x. by apply view_states. }
  pose proof Hinv as [Hq [cur Hcur] _ _ _ _]. cbn in Hq. unfold schedule in Hrun.
  rewrite (upd_proc_ok _ _ _ _ Hcur) in Hrun. cbn [mbind res_bind with_sched sched current] in Hrun.
  pose proof (rr_upd _ q _ cur (set_need_resched 0 cur) Hq Hcur eq_refl) as Hq1.
  rewrite (deref_some _ _ (set_need_resched 0 cur)) in Hrun by apply lookup_insert_eq.
  cbn [mbind res_bind] in Hrun. change (state (set_need_resched 0 cur)) with (state cur) in Hrun.
  set (s1 := with_procs (sched k) (<[current k := set_need_resched 0 cur]> (procs (sched k)))) in *.
  assert (exists s2, (if decide (state cur = PROC_RUNNABLE) then sched_class_enqueue rr (with_sched k s1) (current k)
    else Ok (with_sched k s1)) = Ok (with_sched k s2) /\ rr_queue s2 (p :: q')) as (s2 & Hen & Hq2).
  { rewrite <- Ho. unfold requeued. unfold sched_class_enqueue. cbn [with_sched idleproc sched].
    destruct (decide (state cur = PROC_RUNNABLE)) as [Hr|Hr].
    - case_decide as Hd.
      + rewrite decide_True by (split; [by exists cur|done]). cbn [sc_enqueue rr].
        destruct (RR_enqueue_run s1 q (current k) (set_need_resched 0 cur) Hq1) as (s2 & -> & Hq2 & _);
          [apply lookup_insert_eq|apply (si_off _ _ Hinv)|]. by exists s2.
      + rewrite decide_False by tauto. rewrite app_nil_r. by exists s1.
    - rewrite decide_False by (intros [(?&?&?) _]; congruence). rewrite app_nil_r. by exists s1. }
  rewrite Hen in Hrun. cbn [mbind res_bind] in Hrun. unfold sched_class_pick_next in Hrun.
  cbn [with_sched sched sc_pick_next rr] in Hrun. rewrite (RR_pick_next_run _ _ Hq2) in Hrun.
  cbn [mbind res_bind head] in Hrun. unfold sched_class_dequeue in Hrun. cbn [with_sched sched sc_dequeue rr] in Hrun.
  destruct (RR_dequeue_run s2 [] p q' Hq2) as (s3 & Hd & Hq3 & Hp3 & _). rewrite Hd in Hrun.
  cbn [mbind res_bind with_sched sched current idleproc default] in Hrun. change (default (idleproc k) (Some p)) with p in Hrun.
  apply res_bind_ok in Hrun as (pr & Hpr%deref_ok & Hrun). rewrite (upd_proc_ok _ _ _ _ Hpr) in Hrun.
  cbn [mbind res_bind] in Hrun. pose proof (rr_upd _ _ _ pr (set_runs (i32 (runs pr + 1)) pr) Hq3 Hpr eq_refl) as Hq4.
  unfold proc_run in Hrun. cbn [with_sched sched current] in Hrun. cbn [id] in Hrun, Hq4. clear Hen.
  destruct (decide (p <> current k)) as [Hne|Hne].
  - apply res_bind_ok in Hrun as (? & _ & Hrun). injection Hrun as <-.
    split; [exact Hq4|done].
  - injection Hrun as <-. split; [exact Hq4|]. cbn. destruct (decide (p = current k)); [done|tauto].
Qed.

Fixpoint schedules (n : nat) (k : kernel) : res kernel :=
  match n with O => Ok k | S n' => k ← schedule rr k; schedules n' k end.
End round_robin.

(** * Properties *)

(** C11. [schedule] loses no process.  From a state in which the run queue holds
    exactly the runnable processes off the CPU, [schedule] with any scheduling
    class that meets its contract returns (no assertion fails, no bad pointer is
    followed), keeps that invariant, changes no process's state, and gives the
    CPU to a runnable process, or to the idle process when there is no other. *)
Theorem schedule_keeps_processes `{SchedClass c} k q :
  sched_inv k q ->
  exists k' q', schedule c k = Ok k' /\ sched_inv k' q' /\
    (forall x, states (sched k') x = states (sched k) x) /\
    (runnable k' (current k') \/ (current k' = idleproc k' /\ forall p, runnable k' p -> p = idleproc k')).
Proof.
  intros Hinv. destruct (schedule_run k q Hinv) as (k' & q' & ? & ? & _ & Hv & ?). exists k', q'.
  split_and!; try done. intros x. by apply view_states.
Qed.

(** C34. [wakeup_proc] on a process that is not a zombie makes it runnable,
    queues it exactly once unless it is the running process, touches no other
    process, and keeps the scheduler's invariant; waking a runnable process
    changes nothing. *)
Theorem wakeup_proc_enqueues `{SchedClass c} k q p pr :
  sched_inv k q -> procs (sched k) !! p = Some pr -> state pr <> PROC_ZOMBIE ->
  exists k' q', wakeup_proc c k p = Ok k' /\ sched_inv k' q' /\ same_cpu k k' /\ runnable k' p /\
    (forall x, x <> p -> procs (sched k') !! x = procs (sched k) !! x) /\
    (state pr = PROC_RUNNABLE -> k' = k).
Proof.
  intros Hinv Hp Hz. destruct (wakeup_proc_run k q p pr Hinv Hp Hz) as (k' & q' & Hw & Hi & Hc & Ho & pr' & Hp' & Hr & _).
  exists k', q'. split_and!; try done; [by exists pr'|]. intros Hs. unfold wakeup_proc in Hw.
  rewrite (deref_some _ _ _ Hp) in Hw. cbn [mbind res_bind] in Hw. rewrite Hs in Hw. cbn in Hw. by injection Hw.
Qed.

(** C27. No starvation under round robin.  A process with [length l1] processes
    ahead of it in the run queue is on the CPU after [length l1 + 1] calls of
    [schedule], whatever the others do with their time slices. *)
Theorem RR_no_starvation k q l1 p l2 :
  sched_inv (c := default_sched_class) k q -> q = l1 ++ p :: l2 ->
  exists k', schedules (S (length l1)) k = Ok k' /\ current k' = p /\ runnable k' p.
Proof.
  revert k q l2. induction l1 as [|x l1 IH]; intros k q l2 Hinv ->.
  - destruct (RR_schedule_order k _ p (l2 ++ requeued k) Hinv eq_refl) as (k' & Hk & Hinv' & Hc & _ & Hst).
    exists k'. cbn. rewrite Hk. split_and!; [done|done|].
    apply runnable_states. rewrite Hst. apply runnable_states. apply (si_in _ _ Hinv). by left.
  - destruct (RR_schedule_order k _ x ((l1 ++ p :: l2) ++ requeued k) Hinv eq_refl) as (k1 & Hk & Hinv1 & Hc & _ & Hst).
    rewrite <- app_assoc in Hinv1. cbn [app] in Hinv1.
    destruct (IH k1 _ _ Hinv1 eq_refl) as (k' & Hk' & Hp & Hr).
    exists k'. cbn [length schedules]. rewrite Hk. done.
Qed.

(** ** A concrete kernel

    The idle process 1 is on the CPU, 2 and 3 are runnable and queued, 4 sleeps. *)
Definition new_proc (st : proc_state) : proc_struct :=
  Proc st 0 0 None 0 None None 0 0 [] 0 0 None None None None 0 0 1 None.

Definition self_link (p : Z) : run_entry * list_entry run_entry := (RunLink p, ListEntry (RunLink p) (RunLink p)).

Definition boot_sched : sched_state :=
  SchedState
    (list_to_map [(1, new_proc PROC_RUNNABLE); (2, new_proc PROC_RUNNABLE);
                  (3, new_proc PROC_RUNNABLE); (4, new_proc PROC_SLEEPING)])
    (list_to_map ((RunList, ListEntry RunList RunList) :: (self_link <$> [1; 2; 3; 4])))
    ∅ (RunQueue 0 0 None).

Definition demo_run : res sched_state :=
  s ← sched_init default_sched_class boot_sched;
  s ← RR_enqueue s 2;
  RR_enqueue s 3.

Definition demo : kernel := Kernel (match demo_run with Ok s => s | _ => boot_sched end) 1 1 0.

Lemma demo_procs p pr :
  procs boot_sched !! p = Some pr ->
  (p = 1 \/ p = 2 \/ p = 3 \/ p = 4) /\ (state pr = PROC_RUNNABLE -> p <> 4).
Proof.
  intros Hp. unfold boot_sched in Hp. cbn [procs] in Hp.
  apply elem_of_list_to_map_2 in Hp. rewrite !elem_of_cons in Hp.
  destruct Hp as [[= -> ->]|[[= -> ->]|[[= -> ->]|[[= -> ->]|[]%elem_of_nil]]]]; cbn; auto.
Qed.

Lemma init_queue s : sched_init default_sched_class boot_sched = Ok s -> rr_queue s [] /\ procs s = procs boot_sched.
Proof.
  intros Hs. assert (s = with_rqueue boot_sched (RunQueue 0 5 None)) as ->.
  { vm_compute in Hs. injection Hs as <-. reflexivity. }
  split; [|done]. split; [split|by intros p ?%elem_of_nil|done].
  - split; [apply NoDup_singleton|split; reflexivity].
  - intros p [pr Hp] _. destruct (demo_procs p pr Hp) as [[->|[->|[->| ->]]] _];
      (split; [apply NoDup_singleton|split; reflexivity]).
Qed.

Lemma demo_inv : sched_inv (c := default_sched_class) demo [2; 3].
Proof.
  assert (exists s0, sched_init default_sched_class boot_sched = Ok s0) as [s0 H0] by (eexists; vm_compute; reflexivity).
  destruct (init_queue s0 H0) as [Hq0 Hp0].
  destruct (RR_enqueue_run s0 [] 2 (new_proc PROC_RUNNABLE) Hq0) as (s1 & H1 & Hq1 & Hp1 & _);
    [by rewrite Hp0|apply not_elem_of_nil|].
  destruct (RR_enqueue_run s1 [2] 3 (new_proc PROC_RUNNABLE) Hq1) as (s2 & H2 & Hq2 & Hp2 & _);
    [by rewrite Hp1, Hp0|by rewrite list_elem_of_singleton|].
  assert (sched demo = s2) as Hs.
  { unfold demo, demo_run. cbn [sched]. rewrite H0. cbn [mbind res_bind]. rewrite H1. cbn [mbind res_bind]. by rewrite H2. }
  assert (forall x, states (sched demo) x = states boot_sched x) as Hst.
  { intros x. rewrite Hs. unfold states. rewrite Hp2, Hp1, Hp0.
    destruct (decide (x = 3)) as [->|]; [reflexivity|]. rewrite lookup_insert_ne by done.
    destruct (decide (x = 2)) as [->|]; [reflexivity|]. by rewrite lookup_insert_ne. }
  split; cbn [current idleproc demo].
  - rewrite Hs. exact Hq2.
  - apply live_states. rewrite Hst. by eexists.
  - apply live_states. rewrite Hst. by eexists.
  - rewrite !not_elem_of_cons. split; (split_and!; [done|done|apply not_elem_of_nil]).
  - intros p. rewrite !elem_of_cons. intros [->|[->|[]%elem_of_nil]]; apply runnable_states; by rewrite Hst.
  - intros p Hp%runnable_states. rewrite Hst in Hp. unfold states in Hp.
    destruct (procs boot_sched !! p) as [pr|] eqn:E; [|done]. cbn in Hp. injection Hp as Hp.
    destruct (demo_procs p pr E) as [Hc Hr]. specialize (Hr Hp). rewrite !elem_of_cons. tauto.
Qed.

Lemma schedule_keeps_processes_witness :
  exists k' q', schedule default_sched_class demo = Ok k' /\ sched_inv (c := default_sched_class) k' q' /\
    current k' = 2.
Proof.
  destruct (schedule_keeps_processes (c := default_sched_class) demo [2; 3] demo_inv) as (k' & q' & H1 & H2 & _).
  exists k', q'. split; [exact H1|]. split; [exact H2|].
  vm_compute in H1. injection H1. intros <-. reflexivity.
Defined.

Lemma wakeup_proc_enqueues_witness :
  exists k' q', wakeup_proc default_sched_class demo 4 = Ok k' /\ sched_inv (c := default_sched_class) k' q' /\
    runnable k' 4.
Proof.
  destruct (wakeup_proc_enqueues (c := default_sched_class) demo [2; 3] 4 (new_proc PROC_SLEEPING) demo_inv)
    as (k' & q' & H1 & H2 & _ & H3 & _).
  - reflexivity.
  - discriminate.
  - exists k', q'. split; [exact H1|]. split; [exact H2|exact H3].
Defined.

Lemma RR_no_starvation_witness : exists k', schedules 2 demo = Ok k' /\ current k' = 3.
Proof.
  destruct (RR_no_starvation demo [2; 3] [2] 3 [] demo_inv eq_refl) as (k' & H1 & H2 & _).
  exists k'. split; [exact H1|exact H2].
Defined.
