(* ===== verification/Timer.v ===== *)
(** Kernel timers (lab8/kern/schedule/sched.c: [add_timer], [del_timer],
    [run_timer_list]).

    The timer list is a delta queue: each entry stores the ticks between its
    predecessor's expiry and its own.  [absolute] recovers the expiry times, and
    the theorems are about those: insertion and deletion change no other timer's
    expiry, and a tick brings every expiry one closer and wakes exactly the
    processes whose time has come. *)
From S2P Require Import Prelude Lists SkewHeap ProcStruct SchedClass RoundRobin Sched.

Inductive timer_entry : Type := TimerList | TimerLink (t : Z).

#[export] Instance timer_entry_eq_dec : EqDecision timer_entry.
Proof. solve_decision. Defined.

#[export] Instance timer_entry_countable : Countable timer_entry.
Proof.
  refine (inj_countable' (fun l => match l with TimerList => None | TimerLink p => Some p end)
            (fun o => match o with None => TimerList | Some p => TimerLink p end) _).
  by intros [].
Defined.

Record timer_t : Type := Timer { expires : Z; timer_proc : option Z }.

Abbreviation tlinks := (gmap timer_entry (list_entry timer_entry)).

Record timers_state : Type := Timers {
  tkern : kernel;
  timers : gmap Z timer_t;
  timer_links : tlinks
}.

Definition le2timer (le : timer_entry) : res Z :=
  match le with TimerLink t => Ok t | TimerList => Fault end.

Definition set_expires (m : gmap Z timer_t) (t v : Z) : res (gmap Z timer_t) :=
  tm ← deref m t; Ok (<[t := Timer v (timer_proc tm)]> m).

(** * The code *)
Definition timer_init (s : timers_state) (timer : Z) (proc : option Z) (exp : Z) : res timers_state :=
  _ ← deref (timers s) timer;
  h ← list_init (timer_links s) (TimerLink timer);
  Ok (Timers (tkern s) (<[timer := Timer (u32 exp) proc]> (timers s)) h).

Definition add_timer_step (h : tlinks) (timer : Z) (st : gmap Z timer_t * timer_entry)
    : res (gmap Z timer_t * timer_entry + gmap Z timer_t * timer_entry) :=
  let '(m, le) := st in
  if decide (le = TimerList) then Ok (inr (m, le))
  else
    next ← le2timer le;
    tt ← deref m timer;
    tn ← deref m next;
    if expires tt <? expires tn then
      m ← set_expires m next (u32 (expires tn - expires tt));
      Ok (inr (m, le))
    else
      m ← set_expires m timer (u32 (expires tt - expires tn));
      le ← list_next h le;
      Ok (inl (m, le)).

Definition add_timer (s : timers_state) (timer : Z) : res timers_state :=
  tm ← deref (timers s) timer;
  _ ← c_assert ((0 <? expires tm) && bool_decide (timer_proc tm <> None));
  e ← list_empty (timer_links s) (TimerLink timer);
  _ ← c_assert e;
  le ← list_next (timer_links s) TimerList;
  '(m, le) ← loop (add_timer_step (timer_links s) timer) (S (size (timer_links s))) (timers s, le);
  h ← list_add_before (timer_links s) le (TimerLink timer);
  Ok (Timers (tkern s) m h).

Definition del_timer (s : timers_state) (timer : Z) : res timers_state :=
  e ← list_empty (timer_links s) (TimerLink timer);
  if (e : bool) then Ok s
  else
    tm ← deref (timers s) timer;
    m ← (if expires tm =? 0 then Ok (timers s)
         else
           le ← list_next (timer_links s) (TimerLink timer);
           if decide (le = TimerList) then Ok (timers s)
           else
             next ← le2timer le;
             tn ← deref (timers s) next;
             set_expires (timers s) next (u32 (expires tn + expires tm)));
    h ← list_del_init (timer_links s) (TimerLink timer);
    Ok (Timers (tkern s) m h).

Section code.
Context (c : sched_class).

(** One turn of [while (timer->expires == 0)]. *)
Definition expire_step (st : timers_state * timer_entry * Z)
    : res (timers_state * timer_entry * Z + timers_state) :=
  let '(s, le, timer) := st in
  tm ← deref (timers s) timer;
  if expires tm =? 0 then
    le ← list_next (timer_links s) le;
    proc ← match timer_proc tm with Some p => Ok p | None => Fault end;
    pr ← deref (procs (sched (tkern s))) proc;
    _ ← (if wait_state pr =? 0 then Ok tt
         else c_assert (negb (Z.land (wait_state pr) WT_INTERRUPTED =? 0)));
    k ← wakeup_proc c (tkern s) proc;
    s ← del_timer (Timers k (timers s) (timer_links s)) timer;
    if decide (le = TimerList) then Ok (inr s)
    else timer ← le2timer le; Ok (inl (s, le, timer))
  else Ok (inr s).

Definition run_timer_list (s : timers_state) : res timers_state :=
  le ← list_next (timer_links s) TimerList;
  s ← (if decide (le = TimerList) then Ok s
       else
         timer ← le2timer le;
         tm ← deref (timers s) timer;
         _ ← c_assert (negb (expires tm =? 0));
         m ← set_expires (timers s) timer (u32 (expires tm - 1));
         loop expire_step (S (size (timer_links s))) (Timers (tkern s) m (timer_links s), le, timer));
  k ← (if current (tkern s) =? 0 then Ok (tkern s) else sched_class_proc_tick c (tkern s) (current (tkern s)));
  Ok (Timers k (timers s) (timer_links s)).
End code.

(** * Expiry times *)
Definition delta (m : gmap Z timer_t) (t : Z) : Z := match m !! t with Some tm => expires tm | None => 0 end.

Fixpoint absolute (m : gmap Z timer_t) (base : Z) (l : list Z) : list (Z * Z) :=
  match l with
  | [] => []
  | t :: l' => (t, base + delta m t) :: absolute m (base + delta m t) l'
  end.

Definition elapsed (m : gmap Z timer_t) (l : list Z) : Z := foldr (fun t n => delta m t + n) 0 l.

Lemma absolute_app m base l1 l2 :
  absolute m base (l1 ++ l2) = absolute m base l1 ++ absolute m (base + elapsed m l1) l2.
Proof.
  revert base. induction l1 as [|t l1 IH]; intros base; cbn; [by rewrite Z.add_0_r|].
  rewrite IH. by rewrite Z.add_assoc.
Qed.

Lemma absolute_ext m m' base l :
  (forall t, t ∈ l -> delta m' t = delta m t) -> absolute m' base l = absolute m base l.
Proof.
  revert base. induction l as [|t l IH]; intros base Hl; cbn; [done|].
  rewrite Hl by (by left). f_equal. apply IH. intros x Hx. apply Hl. by right.
Qed.

Lemma elapsed_ext m m' l : (forall t, t ∈ l -> delta m' t = delta m t) -> elapsed m' l = elapsed m l.
Proof.
  induction l as [|t l IH]; intros Hl; cbn; [done|]. rewrite Hl by (by left). f_equal. apply IH.
  intros x Hx. apply Hl. by right.
Qed.

Lemma absolute_shift m base d l :
  absolute m (base + d) l = (fun x => (x.1, x.2 + d)) <$> absolute m base l.
Proof.
  revert base. induction l as [|t l IH]; intros base; cbn; [done|]. f_equal; [f_equal; lia|].
  rewrite <- IH. f_equal. lia.
Qed.

(** * Well-formed timer lists *)
Definition timers_ok (m : gmap Z timer_t) (l : list Z) : Prop :=
  forall t, t ∈ l -> exists tm, m !! t = Some tm /\ 0 <= expires tm < 2 ^ 32.

Record timer_inv (s : timers_state) (l : list Z) : Prop := TimerInv {
  ti_dll : dll (timer_links s) TimerList (TimerLink <$> l);
  ti_ok : timers_ok (timers s) l;
  ti_detached : forall t, is_Some (timers s !! t) -> t ∉ l -> dll (timer_links s) (TimerLink t) []
}.

Lemma delta_some m t tm : m !! t = Some tm -> delta m t = expires tm.
Proof. intros Ht. unfold delta. by rewrite Ht. Qed.

Lemma set_expires_run m t v tm :
  m !! t = Some tm ->
  set_expires m t v = Ok (<[t := Timer v (timer_proc tm)]> m) /\
  delta (<[t := Timer v (timer_proc tm)]> m) t = v /\
  forall x, x <> t -> delta (<[t := Timer v (timer_proc tm)]> m) x = delta m x.
Proof.
  intros Ht. unfold set_expires, delta. rewrite (deref_some _ _ _ Ht), lookup_insert_eq. split_and!; [done..|].
  intros x Hx. by rewrite lookup_insert_ne.
Qed.

#[export] Instance TimerLink_inj : Inj (=) (=) TimerLink.
Proof. by intros ?? [= ->]. Qed.

Lemma TimerLink_head t : TimerLink t <> TimerList.
Proof. done. Qed.

Lemma timer_listed s l :
  timer_inv s l <-> listed TimerList TimerLink (timer_links s) l (fun t => is_Some (timers s !! t)) /\ timers_ok (timers s) l.
Proof. split; [intros []; split; [by split|done]|intros [[] ?]; by split]. Qed.

Lemma timer_inv_nodup s l : timer_inv s l -> NoDup l.
Proof. intros [Hl _]%timer_listed. by eapply listed_nodup. Qed.

(** ** Insertion *)
Definition front_entry (l : list Z) : timer_entry := match l with [] => TimerList | t :: _ => TimerLink t end.

Lemma timer_next h l1 t l2 :
  dll h TimerList (TimerLink <$> l1 ++ t :: l2) -> list_next h (TimerLink t) = Ok (front_entry l2).
Proof.
  intros Hd. rewrite fmap_app in Hd. cbn in Hd. apply list_next_ok.
  rewrite (dll_next_in _ _ _ _ _ Hd). by destruct l2.
Qed.

(** The walk stops at the first timer that expires later than [t]; [t] then holds
    the ticks after its predecessor, and its successor the ticks after [t]. *)
Lemma add_timer_walk h t l1 l2 m tm fuel :
  dll h TimerList (TimerLink <$> l1 ++ l2) -> t ∉ l2 -> m !! t = Some tm -> 0 <= expires tm < 2 ^ 32 ->
  timers_ok m l2 -> NoDup l2 -> (length l2 < fuel)%nat ->
  exists m' la lb tm', loop (add_timer_step h t) fuel (m, front_entry l2) = Ok (m', front_entry lb) /\
    l2 = la ++ lb /\ m' !! t = Some tm' /\ timer_proc tm' = timer_proc tm /\ 0 <= expires tm' < 2 ^ 32 /\
    elapsed m la + expires tm' = expires tm /\ timers_ok m' l2 /\
    (forall x, x <> t -> x ∉ lb -> m' !! x = m !! x) /\ (forall x, is_Some (m' !! x) <-> is_Some (m !! x)) /\
    forall base, absolute m' (base + expires tm') lb = absolute m base lb.
Proof.
  revert l1 m tm fuel. induction l2 as [|n l2 IH]; intros l1 m tm fuel Hd Ht Hm He Hok Hnd Hf;
    (destruct fuel as [|fuel]; [cbn in Hf; lia|]); rewrite loop_S; unfold add_timer_step at 1; cbn [front_entry].
  - rewrite decide_True by done. exists m, [], [], tm. cbn. split_and!; try done; lia.
  - rewrite decide_False by done. cbn [le2timer mbind res_bind]. rewrite (deref_some _ _ _ Hm). cbn [mbind res_bind].
    destruct (Hok n) as (tn & Hn & Hen); [by left|]. rewrite (deref_some _ _ _ Hn). cbn [mbind res_bind].
    rewrite not_elem_of_cons in Ht. destruct Ht as [Htn Ht]. apply NoDup_cons in Hnd as [Hnl Hnd].
    destruct (Z.ltb_spec (expires tm) (expires tn)) as [Hlt|Hge].
    + destruct (set_expires_run m n (u32 (expires tn - expires tm)) tn Hn) as (-> & Hdn & Hdx).
      rewrite u32_small in * by lia. cbn [mbind res_bind].
      eexists _, [], (n :: l2), tm. split; [done|]. cbn [app elapsed foldr]. split_and!; [done| |done|lia|lia|lia| | | |].
      * by rewrite lookup_insert_ne.
      * intros x Hx. destruct (decide (x = n)) as [->|Hxn].
        -- rewrite lookup_insert_eq. eexists. split; [done|]. cbn. lia.
        -- rewrite lookup_insert_ne by done. by apply Hok.
      * intros x Hx Hxl. rewrite lookup_insert_ne; [done|]. set_solver.
      * intros x. rewrite lookup_insert_is_Some'. naive_solver.
      * intros base. cbn. rewrite Hdn, (delta_some m n tn Hn). f_equal; [f_equal; lia|].
        rewrite (absolute_ext m). 2: { intros x Hx. apply Hdx. by intros ->. } f_equal. lia.
    + destruct (set_expires_run m t (u32 (expires tm - expires tn)) tm Hm) as (-> & Hdt & Hdx).
      rewrite u32_small in * by lia. cbn [mbind res_bind]. rewrite (timer_next h l1 n l2 Hd). cbn [mbind res_bind].
      set (m1 := <[t := _]> m) in *.
      destruct (IH (l1 ++ [n]) m1 (Timer (expires tm - expires tn) (timer_proc tm)) fuel)
        as (m' & la & lb & tm' & Hl & -> & Hm' & Hp' & He' & Hel & Hok' & Hx & Hlive & Habs).
      * by rewrite <- app_assoc.
      * done.
      * apply lookup_insert_eq.
      * cbn. lia.
      * intros x Hx. unfold m1. rewrite lookup_insert_ne by (by intros ->). apply Hok. by right.
      * done.
      * cbn in Hf. lia.
      * exists m', (n :: la), lb, tm'.
        assert (forall x, x <> t -> m1 !! x = m !! x) as Hm1 by (intros; by apply lookup_insert_ne).
        assert (n ∉ lb) as Hnlb by (intros ?; apply Hnl, elem_of_app; by right).
        split_and!; [done|done|done|done|lia|lia| | | | |].
        -- cbn [elapsed foldr]. rewrite (delta_some m n tn Hn). cbn in Hel. fold (elapsed m la).
           rewrite <- (elapsed_ext m m1). { lia. }
           intros x Hxa. apply Hdx. intros ->. apply Ht, elem_of_app. by left.
        -- intros x [->|Hxl]%elem_of_cons; [|by apply Hok'].
           rewrite Hx by done. rewrite Hm1 by done. eauto.
        -- intros x Hxt Hxl. rewrite Hx by done. by apply Hm1.
        -- intros x. rewrite Hlive. unfold m1. rewrite lookup_insert_is_Some'. naive_solver.
        -- intros base. rewrite Habs. apply absolute_ext. intros x Hxb. apply Hdx.
           intros ->. apply Ht, elem_of_app. by right.
Qed.

Lemma front_entry_front l : front (TimerLink <$> l) TimerList = front_entry l.
Proof. by destruct l. Qed.

Lemma link_timer h la t lb (L : Z -> Prop) :
  listed TimerList TimerLink h (la ++ lb) L -> L t -> t ∉ la ++ lb ->
  exists h', list_add_before h (front_entry lb) (TimerLink t) = Ok h' /\ listed TimerList TimerLink h' (la ++ t :: lb) L.
Proof.
  intros Hl Ht Hn. destruct (listed_insert _ _ TimerLink_head h la lb L t Hl) as (h' & Ha & Hl' & _); [|done|].
  - eapply dll_live; [by eapply (ls_detached _ _ _ _ _ Hl)|by left].
  - rewrite front_entry_front in Ha. eauto.
Qed.

Lemma add_timer_run s l t tm :
  timer_inv s l -> timers s !! t = Some tm -> t ∉ l -> 0 < expires tm < 2 ^ 32 -> timer_proc tm <> None ->
  exists s' la lb, add_timer s t = Ok s' /\ l = la ++ lb /\ timer_inv s' (la ++ t :: lb) /\ tkern s' = tkern s /\
    absolute (timers s') 0 (la ++ t :: lb) =
      absolute (timers s) 0 la ++ (t, expires tm) :: absolute (timers s) (elapsed (timers s) la) lb.
Proof.
  intros Hinv Hm Ht He Hp. pose proof Hinv as [Hd Hok Hdet]. unfold add_timer.
  rewrite (deref_some _ _ _ Hm). cbn [mbind res_bind]. rewrite (proj2 (Z.ltb_lt _ _)) by lia.
  rewrite bool_decide_true by done. cbn [andb c_assert mbind res_bind].
  pose proof (Hdet t ltac:(eauto) Ht) as Htd. rewrite (list_empty_dll _ _ _ Htd).
  rewrite bool_decide_true by done. cbn [c_assert mbind res_bind].
  rewrite (proj2 (list_next_ok _ _ (front_entry l))) by (rewrite (dll_next _ _ _ Hd); by destruct l).
  cbn [mbind res_bind].
  destruct (add_timer_walk (timer_links s) t [] l (timers s) tm (S (size (timer_links s))))
    as (m' & la & lb & tm' & -> & Hl & Hm' & Hp' & He' & Hel & Hok' & Hx & Hlive & Habs); [done|done|done|lia|done| | |].
  { by eapply timer_inv_nodup. }
  { pose proof (dll_length _ _ _ Hd) as Hlen. rewrite length_fmap in Hlen. lia. }
  cbn [mbind res_bind]. subst l.
  destruct (link_timer (timer_links s) la t lb (fun x => is_Some (timers s !! x))) as (h' & -> & Hd' & Hdet');
    [by split|by eexists|done|].
  cbn [mbind res_bind]. exists (Timers (tkern s) m' h'), la, lb. split_and!; [done|done| |done|].
  - split; cbn [timer_links timers]; [done| |].
    + intros x Hxl. destruct (decide (x = t)) as [->|Hne]; [eauto|]. apply Hok'. set_solver.
    + intros x Hxs Hxn. apply Hdet'; [by apply Hlive|done].
  - cbn [timers]. rewrite absolute_app. cbn [absolute].
    assert (forall x, x ∈ la -> delta m' x = delta (timers s) x) as Hla.
    { intros x Hxa. unfold delta. rewrite Hx; [done| |].
      - intros ->. apply Ht. set_solver.
      - apply timer_inv_nodup, NoDup_app in Hinv as (_ & Hdj & _). by apply Hdj. }
    rewrite (absolute_ext _ _ _ _ Hla), (elapsed_ext _ _ _ Hla), (delta_some m' t tm' Hm'), Habs.
    f_equal. f_equal. f_equal. lia.
Qed.

(** ** Deletion *)
Lemma del_timer_run s la t lb :
  timer_inv s (la ++ t :: lb) ->
  match lb with n :: _ => delta (timers s) t + delta (timers s) n < 2 ^ 32 | [] => True end ->
  exists s', del_timer s t = Ok s' /\ timer_inv s' (la ++ lb) /\ tkern s' = tkern s /\
    absolute (timers s') 0 (la ++ lb) =
      absolute (timers s) 0 la ++ absolute (timers s) (elapsed (timers s) la + delta (timers s) t) lb /\
    (forall x, head lb <> Some x \/ delta (timers s) t = 0 -> timers s' !! x = timers s !! x) /\
    (forall x, timer_proc <$> timers s' !! x = timer_proc <$> timers s !! x).
Proof.
  intros Hinv Hov. pose proof Hinv as [Hd Hok Hdet]. pose proof (timer_inv_nodup _ _ Hinv) as Hnd. unfold del_timer.
  rewrite (listed_in _ _ TimerLink_head _ (la ++ t :: lb) (fun x => is_Some (timers s !! x)) t) by (by split || set_solver).
  cbn [mbind res_bind].
  destruct (Hok t) as (tm & Hm & He); [set_solver|]. rewrite (deref_some _ _ _ Hm). cbn [mbind res_bind].
  rewrite (delta_some _ _ _ Hm) in *.
  assert (forall m, (forall x, is_Some (m !! x) <-> is_Some (timers s !! x)) -> timers_ok m (la ++ lb) ->
    exists h', list_del_init (timer_links s) (TimerLink t) = Ok h' /\ timer_inv (Timers (tkern s) m h') (la ++ lb)) as Hfin.
  { intros m Hlive Hokm.
    destruct (listed_del _ _ TimerLink_head (timer_links s) la t lb (fun x => is_Some (timers s !! x)))
      as (h' & -> & [Hd' Hdet'] & _); [by split|].
    exists h'. split; [done|]. split; cbn [timer_links timers]; [done|done|].
    intros x Hx Hn. apply Hdet'; [by apply Hlive|done]. }
  assert (timers_ok (timers s) (la ++ lb)) as Hok2 by (intros x Hx; apply Hok; set_solver).
  destruct (Z.eqb_spec (expires tm) 0) as [Hz|Hz]; cbn [mbind res_bind].
  { destruct (Hfin (timers s)) as (h' & -> & Hi); [done|done|]. eexists. split; [done|]. split_and!; [done|done| |done|done].
    cbn [timers]. rewrite absolute_app, Hz, Z.add_0_r. done. }
  rewrite (timer_next _ _ _ _ Hd). cbn [mbind res_bind]. destruct lb as [|n lb]; cbn [front_entry].
  { rewrite decide_True by done. cbn [mbind res_bind].
    destruct (Hfin (timers s)) as (h' & -> & Hi); [done|done|]. eexists. split; [done|]. split_and!; [done|done| |done|done].
    cbn [timers absolute]. by rewrite !app_nil_r. }
  rewrite decide_False by done. cbn [le2timer mbind res_bind].
  destruct (Hok n) as (tn & Hn & Hen); [set_solver|]. rewrite (deref_some _ _ _ Hn). cbn [mbind res_bind].
  rewrite (delta_some _ _ _ Hn) in Hov.
  destruct (set_expires_run (timers s) n (u32 (expires tn + expires tm)) tn Hn) as (-> & Hdn & Hdx).
  rewrite u32_small in * by lia. cbn [mbind res_bind]. set (m1 := <[n := _]> (timers s)) in *.
  assert (n ∉ la /\ n ∉ lb /\ n <> t) as (Hnla & Hnlb & Hnt).
  { apply NoDup_app in Hnd as (_ & Hdj & Hnd). rewrite !NoDup_cons in Hnd. destruct Hnd as (Ht & Hn' & _).
    split_and!; [intros Hin; apply (Hdj n Hin); set_solver|done|set_solver]. }
  destruct (Hfin m1) as (h' & -> & Hi).
  { intros x. unfold m1. rewrite lookup_insert_is_Some'. naive_solver. }
  { intros x Hx. unfold m1. destruct (decide (x = n)) as [->|Hxn].
    - rewrite lookup_insert_eq. eexists. split; [done|]. cbn. lia.
    - rewrite lookup_insert_ne by done. by apply Hok2. }
  eexists. split; [done|]. split_and!; [done|done| | |]; cbn [timers].
  - rewrite absolute_app. cbn [absolute]. rewrite Hdn, (delta_some _ _ _ Hn).
    rewrite (absolute_ext (timers s) m1 0 la) by (intros x Hx; apply Hdx; by intros ->).
    rewrite (elapsed_ext (timers s) m1 la) by (intros x Hx; apply Hdx; by intros ->).
    rewrite (absolute_ext (timers s) m1) by (intros x Hx; apply Hdx; by intros ->).
    f_equal. f_equal; [f_equal; lia|f_equal; lia].
  - intros x [Hx|Hx]; [|lia]. unfold m1. rewrite lookup_insert_ne; [done|]. cbn in Hx. congruence.
  - intros x. unfold m1. destruct (decide (x = n)) as [->|Hxn].
    + by rewrite lookup_insert_eq, Hn.
    + by rewrite lookup_insert_ne.
Qed.

(** ** Expiry *)
Section expiry.
Context `{SchedClass c}.

(** A process a timer may wake. *)
Definition wakeable (k : kernel) (p : Z) : Prop :=
  exists pr, procs (sched k) !! p = Some pr /\ state pr <> PROC_ZOMBIE /\
    (wait_state pr = 0 \/ Z.land (wait_state pr) WT_INTERRUPTED <> 0).

Definition wakes (s : timers_state) (t p : Z) : Prop :=
  exists tm, timers s !! t = Some tm /\ timer_proc tm = Some p.

#[export] Instance wakes_dec s t p : Decision (wakes s t p).
Proof.
  unfold wakes. destruct (timers s !! t) as [tm|] eqn:E.
  - destruct (decide (timer_proc tm = Some p)); [left; by exists tm|right; intros (?&?&?); congruence].
  - right. intros (?&?&?). congruence.
Defined.

Definition all_wakeable (s : timers_state) (l : list Z) : Prop :=
  forall t, t ∈ l -> exists p, wakes s t p /\ wakeable (tkern s) p.

(** What waking the processes of the timers in [lz] does to the kernel. *)
Definition woke (s : timers_state) (k' : kernel) (lz : list Z) : Prop :=
  (forall t p, t ∈ lz -> wakes s t p -> runnable k' p) /\
  (forall p, (forall t, t ∈ lz -> ~ wakes s t p) -> procs (sched k') !! p = procs (sched (tkern s)) !! p).

Lemma wake_one k q p :
  sched_inv k q -> wakeable k p ->
  exists pr k' q', procs (sched k) !! p = Some pr /\
    (if wait_state pr =? 0 then Ok tt else c_assert (negb (Z.land (wait_state pr) WT_INTERRUPTED =? 0))) = Ok tt /\
    wakeup_proc c k p = Ok k' /\ sched_inv k' q' /\ same_cpu k k' /\ runnable k' p /\
    (forall x, x <> p -> procs (sched k') !! x = procs (sched k) !! x) /\ forall x, wakeable k x -> wakeable k' x.
Proof.
  intros Hinv (pr & Hp & Hz & Hw).
  destruct (wakeup_proc_run k q p pr Hinv Hp Hz) as (k' & q' & Hk & Hi & Hc & Ho & pr' & Hp' & Hr & Hw').
  exists pr, k', q'. split_and!; try done.
  - destruct (Z.eqb_spec (wait_state pr) 0) as [|Hne]; [done|].
    destruct Hw as [|Hw]; [done|]. by rewrite (proj2 (Z.eqb_neq _ _) Hw).
  - by exists pr'.
  - intros x (prx & Hx & Hzx & Hwx). destruct (decide (x = p)) as [->|Hne].
    + exists pr'. rewrite Hr. split_and!; [done|done|]. destruct Hw' as [[? _]| ->]; auto.
    + exists prx. by rewrite Ho.
Qed.

Lemma expire_loop s t l q fuel :
  timer_inv s (t :: l) -> sched_inv (tkern s) q -> all_wakeable s (t :: l) -> (S (length l) < fuel)%nat ->
  exists s' lz lr q', loop (expire_step c) fuel (s, TimerLink t, t) = Ok s' /\ t :: l = lz ++ lr /\
    Forall (fun x => delta (timers s) x = 0) lz /\
    match lr with x :: _ => delta (timers s) x <> 0 | [] => True end /\
    timer_inv s' lr /\ timers s' = timers s /\ sched_inv (tkern s') q' /\ same_cpu (tkern s) (tkern s') /\
    woke s (tkern s') lz.
Proof.
  revert s t q fuel. induction l as [|n l IH]; intros s t q fuel Hinv Hsi Haw Hf;
    (destruct fuel as [|fuel]; [lia|]); rewrite loop_S; unfold expire_step at 1.
  all: destruct (ti_ok _ _ Hinv t) as (tm & Hm & He); [by left|]; rewrite (deref_some _ _ _ Hm); cbn [mbind res_bind].
  all: destruct (Z.eqb_spec (expires tm) 0) as [Hz|Hz].
  2,4: exists s, [], (t :: ltac:(first [exact (n :: l)|exact []])), q;
    (split_and!; [done|done|done|by rewrite (delta_some _ _ _ Hm)|done|done|done|done|]);
    split; [by intros ???%elem_of_nil|done].
  all: rewrite (timer_next _ [] t _ (ti_dll _ _ Hinv)); cbn [mbind res_bind].
  all: destruct (Haw t) as (p & (tm' & Hm' & Htp) & Hwk); [by left|]; rewrite Hm in Hm'; injection Hm' as <-;
    rewrite Htp; cbn [mbind res_bind].
  all: destruct (wake_one _ _ _ Hsi Hwk) as (pr & k' & q' & Hpr & Hass & Hk & Hsi' & Hcpu & Hrun & Hoth & Hkeep).
  all: rewrite (deref_some _ _ _ Hpr); cbn [mbind res_bind]; rewrite Hass; cbn [mbind res_bind];
    rewrite Hk; cbn [mbind res_bind].
  all: set (s1 := Timers k' (timers s) (timer_links s)).
  all: pose proof (delta_some _ _ _ Hm) as Hdt; rewrite Hz in Hdt.
  all: assert (timer_inv s1 (t :: ltac:(first [exact (n :: l)|exact []]))) as Hinv1 by (by destruct Hinv).
  - destruct (del_timer_run s1 [] t [] Hinv1) as (s2 & -> & Hi2 & Hk2 & _ & Htm & _); [done|].
    cbn [mbind res_bind front_entry]. rewrite decide_True by done.
    assert (timers s2 = timers s) as Ht2 by (apply map_eq; intros x; apply Htm; by right).
    exists s2, [t], [], q'. rewrite Hk2. split_and!; try done; [by constructor|].
    split.
    + intros t' p' ->%list_elem_of_singleton (tm' & Hm' & Hp'). rewrite Hm in Hm'. injection Hm' as <-.
      rewrite Htp in Hp'. by injection Hp' as <-.
    + intros p' Hp'. apply Hoth. intros ->. apply (Hp' t); [by left|by exists tm].
  - destruct (del_timer_run s1 [] t (n :: l) Hinv1) as (s2 & -> & Hi2 & Hk2 & _ & Htm & _).
    { cbn [timers s1]. rewrite Hdt. destruct (ti_ok _ _ Hinv n) as (tn & Hn & Hen); [set_solver|].
      rewrite (delta_some _ _ _ Hn). lia. }
    cbn [mbind res_bind front_entry]. rewrite decide_False by done. cbn [le2timer mbind res_bind].
    assert (timers s2 = timers s) as Ht2 by (apply map_eq; intros x; apply Htm; by right).
    destruct (IH s2 n q' fuel) as (s' & lz & lr & q2 & -> & Hl & Hdz & Hdr & Hi' & Ht' & Hs' & Hc' & Hwk1 & Hwk2).
    + exact Hi2.
    + by rewrite Hk2.
    + intros x Hx. destruct (Haw x) as (px & (tmx & Hmx & Hpx) & Hwx); [by right|].
      exists px. unfold wakes. rewrite Ht2, Hk2. split; [by exists tmx|by apply Hkeep].
    + cbn in Hf. lia.
    + exists s', (t :: lz), lr, q2. rewrite Ht2 in *. rewrite Hk2 in *. cbn [s1 tkern] in *.
      split_and!; [done|by rewrite Hl|by constructor|done|done|done|done| |].
      { destruct Hcpu, Hc'. split; congruence. }
      assert (forall x y, wakes s2 x y <-> wakes s x y) as Hww by (intros; unfold wakes; by rewrite Ht2).
      split.
      * intros t' p' [->|Hin]%elem_of_cons Hw; [|apply (Hwk1 t'); [done|by apply Hww]].
        destruct Hw as (tm' & Hm' & Hp'). rewrite Hm in Hm'. injection Hm' as <-.
        rewrite Htp in Hp'. injection Hp' as <-.
        destruct (decide (Exists (fun x => wakes s x p) lz)) as [Hex|Hex].
        -- apply Exists_exists in Hex as (x & Hx & Hw). apply (Hwk1 x); [done|by apply Hww].
        -- destruct Hrun as (prr & Hprr & Hst). exists prr. split; [|done]. rewrite Hwk2; [done|].
           intros x Hx Hw%Hww. apply Hex, Exists_exists. eauto.
      * intros p' Hp'. rewrite Hwk2.
        -- apply Hoth. intros ->. apply (Hp' t); [by left|by exists tm].
        -- intros x Hx Hw%Hww. apply (Hp' x); [by right|done].
Qed.
End expiry.

Lemma absolute_zero m lz :
  Forall (fun x => delta m x = 0) lz -> absolute m 0 lz = (fun t => (t, 0)) <$> lz /\ elapsed m lz = 0.
Proof.
  induction 1 as [|t lz Ht _ [IH1 IH2]]; [done|]. unfold elapsed in *. cbn [absolute foldr].
  rewrite Ht, IH2, Z.add_0_l, IH1. done.
Qed.

Lemma absolute_pos m base l :
  timers_ok m l -> 0 < base -> Forall (fun x => 0 < x.2) (absolute m base l).
Proof.
  revert base. induction l as [|t l IH]; intros base Hok Hb; cbn; [done|].
  destruct (Hok t) as (tm & Hm & He); [by left|]. rewrite (delta_some _ _ _ Hm).
  constructor; [cbn; lia|]. apply IH; [|lia]. intros x Hx. apply Hok. by right.
Qed.

Lemma absolute_pos_head m l :
  timers_ok m l -> match l with t :: _ => delta m t <> 0 | [] => True end ->
  Forall (fun x => 0 < x.2) (absolute m 0 l).
Proof.
  destruct l as [|t l]; [done|]. intros Hok Hh. cbn.
  destruct (Hok t) as (tm & Hm & He); [by left|]. rewrite (delta_some _ _ _ Hm) in *.
  constructor; [cbn; lia|]. apply absolute_pos; [|lia]. intros x Hx. apply Hok. by right.
Qed.

Lemma sched_inv_touches `{SchedClass c} k q p s' :
  sched_inv k q -> queue s' q -> touches p (sched k) s' -> sched_inv (with_sched k s') q.
Proof.
  intros [Hq Hc Hi Hoff Hin Hall] Hq' Ht.
  assert (forall x, runnable (with_sched k s') x <-> runnable k x) as Hr.
  { intros x. rewrite !runnable_states. cbn [with_sched sched]. by rewrite (touches_states p (sched k) s'). }
  split; cbn [with_sched sched current idleproc]; [done| | |done| |].
  - exact (proj2 (touches_live p _ _ _ Ht) Hc).
  - exact (proj2 (touches_live p _ _ _ Ht) Hi).
  - intros x Hx. by apply Hr, Hin.
  - intros x Hx%Hr. by apply Hall.
Qed.

Lemma proc_tick_run `{SchedClass c} k q :
  sched_inv k q ->
  exists k', sched_class_proc_tick c k (current k) = Ok k' /\ sched_inv k' q /\ same_cpu k k' /\
    touches (current k) (sched k) (sched k').
Proof.
  intros Hinv. pose proof Hinv as [Hq Hc Hi Hoff Hin Hall]. unfold sched_class_proc_tick.
  assert (exists s', (if decide (current k <> idleproc k) then sc_proc_tick c (sched k) (current k)
    else upd_proc (sched k) (current k) (set_need_resched 1)) = Ok s' /\ queue s' q /\ touches (current k) (sched k) s')
    as (s' & -> & Hq' & Ht).
  { case_decide.
    - destruct (proc_tick_ok (sched k) q (current k) Hq Hc) as (s' & ? & ? & ?). eauto.
    - destruct Hc as [pr Hpr]. rewrite (upd_proc_ok _ _ _ _ Hpr). eexists. split_and!; [done|by apply queue_upd|].
      by eapply touches_upd. }
  cbn [mbind res_bind]. exists (with_sched k s'). split_and!; [done| |done|done]. by eapply sched_inv_touches.
Qed.

(** * Properties *)

(** [add_timer] on a detached timer that expires in [e > 0] ticks puts it
    into the list at its place by expiry time: afterwards the expiry times are
    the old ones with [e] inserted, no earlier timer expires after [e] and no later one
    before; every other timer's expiry is unchanged. *)
Theorem add_timer_inserts s l t tm :
  timer_inv s l -> timers s !! t = Some tm -> t ∉ l -> 0 < expires tm < 2 ^ 32 -> timer_proc tm <> None ->
  exists s' la lb, add_timer s t = Ok s' /\ l = la ++ lb /\ timer_inv s' (la ++ t :: lb) /\
    exists before after, absolute (timers s) 0 l = before ++ after /\
      absolute (timers s') 0 (la ++ t :: lb) = before ++ (t, expires tm) :: after /\
      Forall (fun x => x.2 <= expires tm) before /\ Forall (fun x => expires tm <= x.2) after.
Proof.
  intros Hinv Hm Ht He Hp. destruct (add_timer_run s l t tm Hinv Hm Ht He Hp) as (s' & la & lb & Ha & -> & Hinv' & _ & Habs).
  exists s', la, lb. split_and!; [done|done|done|].
  exists (absolute (timers s) 0 la), (absolute (timers s) (elapsed (timers s) la) lb).
  split; [apply (absolute_app _ 0)|]. split; [exact Habs|].
  assert (forall base l, timers_ok (timers s') l -> Forall (fun x => base <= x.2) (absolute (timers s') base l)) as Hge.
  { intros base l0. revert base. induction l0 as [|x l0 IH]; intros base Hok; cbn; [done|].
    destruct (Hok x) as (tx & Hx & Hex); [by left|]. rewrite (delta_some _ _ _ Hx). constructor; [cbn; lia|].
    eapply Forall_impl; [apply IH; intros y Hy; apply Hok; by right|]. cbn. lia. }
  assert (forall base l, timers_ok (timers s') l ->
    Forall (fun x => x.2 <= base + elapsed (timers s') l) (absolute (timers s') base l)) as Hle.
  { intros base l0. revert base. induction l0 as [|x l0 IH]; intros base Hok; cbn; [done|].
    destruct (Hok x) as (tx & Hx & Hex); [by left|]. rewrite (delta_some _ _ _ Hx).
    assert (timers_ok (timers s') l0) as Hok' by (intros y Hy; apply Hok; by right).
    fold (elapsed (timers s') l0). assert (0 <= elapsed (timers s') l0) as Hpos.
    { clear -Hok'. induction l0 as [|y l0 IH]; cbn; [lia|]. destruct (Hok' y) as (ty & Hy & Hey); [by left|].
      rewrite (delta_some _ _ _ Hy). assert (0 <= elapsed (timers s') l0); [|unfold elapsed in *; lia].
      apply IH. intros z Hz. apply Hok'. by right. }
    constructor; [cbn; lia|]. eapply Forall_impl; [apply IH; done|]. cbn. lia. }
  pose proof (ti_ok _ _ Hinv') as Hok'. rewrite absolute_app in Habs. cbn [absolute] in Habs.
  apply app_inj_1 in Habs as [Hb1 Habs].
  2: { clear. generalize 0. induction la as [|x la IH]; intros base; cbn; [done|]. f_equal.
       rewrite IH. symmetry. clear. generalize (base + delta (timers s') x), (base + delta (timers s) x).
       induction la as [|y la IH]; intros b1 b2; cbn; [done|]. f_equal. apply IH. }
  rewrite <- Hb1. injection Habs as Hexp Hlb. rewrite <- Hexp, <- Hlb. cbn [Z.add] in *. split.
  - eapply Forall_impl; [apply Hle; intros x Hx; apply Hok'; set_solver|]. cbn.
    destruct (Hok' t) as (tt & Htt & Hett); [set_solver|]. rewrite (delta_some _ _ _ Htt). lia.
  - eapply Forall_impl; [apply Hge; intros x Hx; apply Hok'; set_solver|]. cbn. lia.
Qed.

(** [del_timer] on a listed timer removes it and leaves the expiry time of
    every other timer as it was; on a detached timer it does nothing. *)
Theorem del_timer_removes s l t :
  timer_inv s l -> is_Some (timers s !! t) -> (forall x, x ∈ l -> delta (timers s) x < 2 ^ 31) ->
  (t ∉ l -> del_timer s t = Ok s) /\
  (forall la lb, l = la ++ t :: lb ->
    exists s', del_timer s t = Ok s' /\ timer_inv s' (la ++ lb) /\
      absolute (timers s') 0 (la ++ lb) = filter (fun x => x.1 <> t) (absolute (timers s) 0 l)).
Proof.
  intros Hinv Hm Hsmall. split.
  - intros Ht. unfold del_timer. rewrite (list_empty_dll _ _ _ (ti_detached _ _ Hinv t Hm Ht)). done.
  - intros la lb ->. destruct (del_timer_run s la t lb Hinv) as (s' & Hd & Hi & _ & Ha & _).
    { destruct lb as [|n lb]; [done|]. pose proof (Hsmall t ltac:(set_solver)). pose proof (Hsmall n ltac:(set_solver)). lia. }
    exists s'. split_and!; [done|done|]. rewrite Ha, absolute_app, filter_app. cbn [absolute].
    rewrite filter_cons_False by (by intros []).
    assert (forall base l0, t ∉ l0 -> filter (fun x => x.1 <> t) (absolute (timers s) base l0) = absolute (timers s) base l0) as Hf.
    { intros base l0. revert base. induction l0 as [|x l0 IH]; intros base; [done|].
      rewrite not_elem_of_cons. intros [Hx Hl0]. cbn [absolute]. rewrite filter_cons_True by (cbn; auto). by rewrite IH. }
    pose proof (timer_inv_nodup _ _ Hinv) as (_ & Hdj & Hnd)%NoDup_app. apply NoDup_cons in Hnd as [Hnb _].
    rewrite !Hf; [done|done|]. intros Hx. apply (Hdj t); set_solver.
Qed.

(** C28. A clock tick.  With every pending timer owned by a process that may be
    woken - it exists, is no zombie, and its wait state is 0 or an interruptible one
    ([all_wakeable]) -, [run_timer_list] brings every expiry time one tick
    closer, drops from the list exactly the timers that reach zero, makes their
    processes runnable and keeps the invariants of the timer list and of the scheduler.
    Of the processes it does not wake, only the current one may change at all, and of
    that only what the scheduling classes write: [rq], the time slice, the stride and
    [need_resched]. *)
Theorem run_timer_list_tick `{SchedClass c} s l q :
  timer_inv s l -> sched_inv (tkern s) q -> all_wakeable s l -> current (tkern s) <> 0 ->
  Forall (fun x => 0 < x.2) (absolute (timers s) 0 l) ->
  exists s' lz lr q', run_timer_list c s = Ok s' /\ l = lz ++ lr /\
    timer_inv s' lr /\ sched_inv (tkern s') q' /\
    (fun x => (x.1, x.2 - 1)) <$> absolute (timers s) 0 l = ((fun t => (t, 0)) <$> lz) ++ absolute (timers s') 0 lr /\
    Forall (fun x => 0 < x.2) (absolute (timers s') 0 lr) /\
    (forall t p, t ∈ lz -> wakes s t p -> runnable (tkern s') p) /\
    (forall p, (forall t, t ∈ lz -> ~ wakes s t p) ->
       core <$> procs (sched (tkern s')) !! p = core <$> procs (sched (tkern s)) !! p /\
       (p <> current (tkern s) -> procs (sched (tkern s')) !! p = procs (sched (tkern s)) !! p)).
Proof.
  intros Hinv Hsi Haw Hcur Hpos. pose proof Hinv as [Hd Hok Hdet]. unfold run_timer_list.
  rewrite (proj2 (list_next_ok _ _ (front_entry l))) by (rewrite (dll_next _ _ _ Hd); by destruct l).
  cbn [mbind res_bind]. destruct l as [|t l]; cbn [front_entry].
  - rewrite decide_True by done. cbn [mbind res_bind]. rewrite (proj2 (Z.eqb_neq _ _) Hcur).
    destruct (proc_tick_run _ _ Hsi) as (k' & -> & Hsi' & _ & Hst). cbn [mbind res_bind].
    exists (Timers k' (timers s) (timer_links s)), [], [], q. split_and!; try done; [by intros ???%elem_of_nil|].
    intros p _. split; [|by apply Hst]. destruct (decide (p = current (tkern s))) as [->|Hp]; [apply Hst|by rewrite (proj1 Hst)].
  - rewrite decide_False by done. cbn [le2timer mbind res_bind].
    destruct (Hok t) as (tm & Hm & He); [by left|]. rewrite (deref_some _ _ _ Hm). cbn [mbind res_bind].
    cbn in Hpos. apply Forall_cons in Hpos as [Ht0 _]. cbn in Ht0. rewrite (delta_some _ _ _ Hm) in Ht0.
    rewrite (proj2 (Z.eqb_neq (expires tm) 0)) by lia. cbn [negb c_assert mbind res_bind].
    destruct (set_expires_run (timers s) t (u32 (expires tm - 1)) tm Hm) as (-> & Hdt & Hdx).
    rewrite u32_small in * by lia. cbn [mbind res_bind]. set (m1 := <[t := _]> (timers s)) in *.
    assert (forall x y, wakes (Timers (tkern s) m1 (timer_links s)) x y <-> wakes s x y) as Hww.
    { intros x y. unfold wakes, m1. cbn [timers]. destruct (decide (x = t)) as [->|Hx].
      - rewrite lookup_insert_eq, Hm. split; intros (?&[= <-]&Hp); eexists; by split.
      - by rewrite lookup_insert_ne. }
    pose proof (timer_inv_nodup _ _ Hinv) as Hnd. apply NoDup_cons in Hnd as [Htl _].
    assert (timer_inv (Timers (tkern s) m1 (timer_links s)) (t :: l)) as Hinv1.
    { split; cbn [timer_links timers]; [done| |].
      - intros x Hx. unfold m1. destruct (decide (x = t)) as [->|Hxt].
        + rewrite lookup_insert_eq. eexists. split; [done|]. cbn. lia.
        + rewrite lookup_insert_ne by done. by apply Hok.
      - intros x Hx Hn. apply Hdet; [|done]. unfold m1 in Hx. rewrite lookup_insert_is_Some' in Hx. naive_solver. }
    destruct (expire_loop (Timers (tkern s) m1 (timer_links s)) t l q (S (size (timer_links s))))
      as (s' & lz & lr & q' & -> & Hl & Hz & Hr & Hi' & Ht' & Hs' & Hc' & Hw1 & Hw2); [done|done| | |].
    { intros x Hx. destruct (Haw x Hx) as (p & Hp & Hwk). exists p. split; [by apply Hww|done]. }
    { pose proof (dll_length _ _ _ Hd) as Hlen. cbn in Hlen. rewrite length_fmap in Hlen. lia. }
    cbn [mbind res_bind]. destruct Hc' as [Hc' _]. cbn [tkern] in Hc'. rewrite Hc', (proj2 (Z.eqb_neq _ _) Hcur), <- Hc'.
    destruct (proc_tick_run _ _ Hs') as (k' & -> & Hsi' & _ & Hst). cbn [mbind res_bind].
    exists (Timers k' (timers s') (timer_links s')), lz, lr, q'. cbn [timers] in *. rewrite Ht'.
    destruct (absolute_zero _ _ Hz) as [Hz1 Hz2].
    assert (timer_inv (Timers k' (timers s') (timer_links s')) lr) as Hi2 by (by destruct Hi').
    split_and!; [done|done|by rewrite <- Ht'|done| | | |].
    + pose proof (absolute_app m1 0 lz lr) as Happ. rewrite <- Hl, Hz1, Hz2, Z.add_0_r in Happ. rewrite <- Happ.
      cbn [absolute]. rewrite Hdt, (delta_some _ _ _ Hm). rewrite fmap_cons. f_equal.
      rewrite (absolute_ext (timers s) m1) by (intros x Hx; apply Hdx; by intros ->).
      replace (0 + (expires tm - 1)) with (0 + expires tm + -1) by lia. by rewrite (absolute_shift (timers s) (0 + expires tm) (-1)).
    + apply absolute_pos_head; [|done]. rewrite <- Ht'. apply Hi'.
    + intros x p Hx Hw%Hww. apply runnable_states. cbn [tkern]. rewrite (touches_states _ _ _ _ Hst). apply runnable_states. by eapply Hw1.
    + intros p Hp. cbn [tkern]. assert (procs (sched (tkern s')) !! p = procs (sched (tkern s)) !! p) as Hsame by (apply Hw2; intros x Hx Hw%Hww; by apply (Hp x)).
      rewrite <- Hsame. split; [|by apply Hst]. destruct (decide (p = current (tkern s'))) as [->|Hne]; [apply Hst|by rewrite (proj1 Hst)].
Qed.

(** ** Concrete timers: timer 10 of the sleeping process 4 expires in one tick *)
Definition idle_timers : timers_state :=
  Timers demo (<[10 := Timer 1 (Some 4)]> ∅)
    (<[TimerList := ListEntry TimerList TimerList]> (<[TimerLink 10 := ListEntry (TimerLink 10) (TimerLink 10)]> ∅)).

Definition one_timer : timers_state := match add_timer idle_timers 10 with Ok s => s | _ => idle_timers end.

Lemma idle_timers_inv : timer_inv idle_timers [].
Proof.
  split.
  - split; [apply NoDup_singleton|split; reflexivity].
  - intros t ?%elem_of_nil. done.
  - intros t [tm Ht] _. cbn [timers idle_timers] in Ht. apply lookup_insert_Some in Ht as [[<- _]|[_ Ht]].
    + split; [apply NoDup_singleton|split; reflexivity].
    + by rewrite lookup_empty in Ht.
Qed.

Lemma one_timer_inv : timer_inv one_timer [10].
Proof.
  destruct (add_timer_run idle_timers [] 10 (Timer 1 (Some 4)) idle_timers_inv) as (s' & la & lb & Ha & Hl & Hi & _);
    [reflexivity|apply not_elem_of_nil|cbn; lia|done|].
  symmetry in Hl. apply app_nil in Hl as [-> ->]. unfold one_timer. by rewrite Ha.
Qed.

Lemma add_timer_inserts_witness : exists s', add_timer idle_timers 10 = Ok s' /\ timer_inv s' [10].
Proof.
  destruct (add_timer_inserts idle_timers [] 10 (Timer 1 (Some 4)) idle_timers_inv) as (s' & la & lb & Ha & Hl & Hi & _).
  - reflexivity.
  - apply not_elem_of_nil.
  - cbn. lia.
  - discriminate.
  - exists s'. split; [exact Ha|]. symmetry in Hl. apply app_nil in Hl as [-> ->]. exact Hi.
Defined.

Lemma del_timer_removes_witness :
  exists s', del_timer one_timer 10 = Ok s' /\ timer_inv s' [] /\ absolute (timers s') 0 [] = [].
Proof.
  destruct (del_timer_removes one_timer [10] 10 one_timer_inv) as [_ H].
  - vm_compute. eexists. reflexivity.
  - intros x ->%list_elem_of_singleton. vm_compute. reflexivity.
  - destruct (H [] [] eq_refl) as (s' & H1 & H2 & H3). exists s'. split; [exact H1|]. split; [exact H2|exact H3].
Defined.

Lemma run_timer_list_tick_witness :
  exists s' q', run_timer_list default_sched_class one_timer = Ok s' /\ timer_inv s' [] /\
    sched_inv (c := default_sched_class) (tkern s') q' /\ runnable (tkern s') 4.
Proof.
  destruct (run_timer_list_tick (c := default_sched_class) one_timer [10] [2; 3])
    as (s' & lz & lr & q' & H1 & H2 & H3 & H4 & _ & H5 & H6 & _).
  - exact one_timer_inv.
  - exact demo_inv.
  - intros t ->%list_elem_of_singleton. exists 4. split.
    + eexists. split; vm_compute; reflexivity.
    + exists (new_proc PROC_SLEEPING). split; [vm_compute; reflexivity|]. split; [discriminate|left; reflexivity].
  - discriminate.
  - vm_compute. constructor; [reflexivity|constructor].
  - exists s', q'. split; [exact H1|]. destruct lz as [|t lz].
    + destruct lr as [|t lr]; [discriminate H2|]. exfalso. cbn in H2. injection H2 as <- <-.
      vm_compute in H1. injection H1 as <-.
      apply Forall_cons in H5 as [H5 _]. vm_compute in H5. discriminate H5.
    + cbn in H2. injection H2 as <- H2. symmetry in H2. apply app_nil in H2 as [-> ->].
      split; [exact H3|]. split; [exact H4|]. apply (H6 10); [by left|].
      eexists. split; vm_compute; reflexivity.
Defined.
