(* ===== verification/Lab6Sched.v ===== *)
(** The FIFO and shortest-job-first scheduling classes of
    lab6/lab6/lab6/kern/schedule/ (sched_fifo.c, sched_sjf.c).

    Both keep the same queue and differ in [pick_next]; [lab6_queue s q] says the
    run list is [q] in order, that exactly its members point back at the run queue
    and that [proc_num] counts them. *)
From S2P Require Import Prelude Lists SkewHeap ProcStruct SchedClass RoundRobin Sched.

(** * sched_fifo.c *)
Definition FIFO_init (s : sched_state) : res sched_state :=
  h ← list_init (run_links s) RunList;
  let s := with_rqueue (with_run_links s h) (set_proc_num 0 (rqueue s)) in
  let s := if max_time_slice (rqueue s) <=? 0 then with_rqueue s (set_max_time_slice 1 (rqueue s)) else s in
  Ok (with_rqueue s (set_lab6_run_pool None (rqueue s))).

Definition FIFO_enqueue (s : sched_state) (proc : Z) : res sched_state :=
  pr ← deref (procs s) proc;
  _ ← c_assert (bool_decide (rq pr = None));
  h ← list_add_before (run_links s) RunList (RunLink proc);
  let s := with_run_links s h in
  s ← upd_proc s proc
        (set_time_slice (if 0 <? max_time_slice (rqueue s) then max_time_slice (rqueue s) else 1));
  s ← upd_proc s proc (set_rq (Some the_rq));
  Ok (with_rqueue s (set_proc_num (u32 (proc_num (rqueue s) + 1)) (rqueue s))).

Definition FIFO_dequeue (s : sched_state) (proc : Z) : res sched_state :=
  pr ← deref (procs s) proc;
  _ ← c_assert (bool_decide (rq pr = Some the_rq));
  h ← list_del_init (run_links s) (RunLink proc);
  s ← upd_proc (with_run_links s h) proc (set_rq None);
  if 0 <? proc_num (rqueue s) then
    Ok (with_rqueue s (set_proc_num (proc_num (rqueue s) - 1) (rqueue s)))
  else Ok s.

Definition FIFO_pick_next (s : sched_state) : res (sched_state * option Z) :=
  e ← list_empty (run_links s) RunList;
  if (e : bool) then Ok (s, None)
  else
    le ← list_next (run_links s) RunList;
    p ← le2proc le;
    Ok (s, Some p).

(** [proc] is never NULL where the core scheduler calls it. *)
Definition FIFO_proc_tick (s : sched_state) (proc : option Z) : res sched_state :=
  match proc with None => Ok s | Some proc => count_down s proc end.

Definition fifo_sched_class : sched_class :=
  MkSchedClass FIFO_init FIFO_enqueue FIFO_dequeue FIFO_pick_next (fun s p => FIFO_proc_tick s (Some p)).

(** * sched_sjf.c *)
Definition SJF_init (s : sched_state) : res sched_state :=
  h ← list_init (run_links s) RunList;
  let s := with_rqueue (with_run_links s h) (set_proc_num 0 (rqueue s)) in
  let s := if max_time_slice (rqueue s) <=? 0 then with_rqueue s (set_max_time_slice 1 (rqueue s)) else s in
  Ok (with_rqueue s (set_lab6_run_pool None (rqueue s))).

Definition SJF_enqueue (s : sched_state) (proc : Z) : res sched_state :=
  pr ← deref (procs s) proc;
  _ ← c_assert (bool_decide (rq pr = None));
  h ← list_add_before (run_links s) RunList (RunLink proc);
  let s := with_run_links s h in
  s ← upd_proc s proc
        (set_time_slice (if 0 <? max_time_slice (rqueue s) then max_time_slice (rqueue s) else 1));
  s ← upd_proc s proc (set_rq (Some the_rq));
  Ok (with_rqueue s (set_proc_num (u32 (proc_num (rqueue s) + 1)) (rqueue s))).

Definition SJF_dequeue (s : sched_state) (proc : Z) : res sched_state :=
  pr ← deref (procs s) proc;
  _ ← c_assert (bool_decide (rq pr = Some the_rq));
  h ← list_del_init (run_links s) (RunLink proc);
  s ← upd_proc (with_run_links s h) proc (set_rq None);
  if 0 <? proc_num (rqueue s) then
    Ok (with_rqueue s (set_proc_num (proc_num (rqueue s) - 1) (rqueue s)))
  else Ok s.

(** One turn of the [for] loop: the entry and [best]. *)
Definition SJF_step (s : sched_state) (st : run_entry * option Z)
    : res (run_entry * option Z + option Z) :=
  let '(le, best) := st in
  if decide (le = RunList) then Ok (inr best)
  else
    p ← le2proc le;
    pr ← deref (procs s) p;
    best ← match best with
           | None => Ok (Some p)
           | Some b => br ← deref (procs s) b; Ok (if runs pr <? runs br then Some p else Some b)
           end;
    le ← list_next (run_links s) le;
    Ok (inl (le, best)).

Definition SJF_pick_next (s : sched_state) : res (sched_state * option Z) :=
  e ← list_empty (run_links s) RunList;
  if (e : bool) then Ok (s, None)
  else
    le ← list_next (run_links s) RunList;
    best ← loop (SJF_step s) (S (size (run_links s))) (le, None);
    Ok (s, best).

Definition SJF_proc_tick (s : sched_state) (proc : option Z) : res sched_state :=
  match proc with None => Ok s | Some proc => count_down s proc end.

Definition sjf_sched_class : sched_class :=
  MkSchedClass SJF_init SJF_enqueue SJF_dequeue SJF_pick_next (fun s p => SJF_proc_tick s (Some p)).

(** * The queue both classes keep *)
Record lab6_queue (s : sched_state) (q : list Z) : Prop := Lab6Queue {
  lq_links : run_listed (run_links s) q (live s);
  lq_live : forall p, p ∈ q -> live s p;
  lq_rq : forall p pr, procs s !! p = Some pr -> rq pr = if decide (p ∈ q) then Some the_rq else None;
  lq_size : Z.of_nat (size (procs s)) < 2 ^ 32;
  lq_num : proc_num (rqueue s) = Z.of_nat (length q)
}.

Lemma size_insert_live {V} (m : gmap Z V) p v w : m !! p = Some w -> size (<[p := v]> m) = size m.
Proof. intros Hp. rewrite map_size_insert_Some by eauto. done. Qed.

Lemma lab6_length s q : lab6_queue s q -> (length q <= size (procs s))%nat.
Proof.
  intros Hq. apply live_length; [|apply Hq]. eapply listed_nodup. apply Hq.
Qed.

Lemma lab6_upd s q p pr pr' :
  lab6_queue s q -> procs s !! p = Some pr -> rq pr' = rq pr ->
  lab6_queue (with_procs s (<[p := pr']> (procs s))) q.
Proof.
  intros [Hl Hv Hr Hs Hn] Hp Hrq. split; cbn; [| | | |done].
  - eapply listed_mono; [|exact Hl]. intros x. unfold live. cbn.
    rewrite lookup_insert_is_Some'. intros [->|?]; [eauto|done].
  - intros x Hx. unfold live. cbn. rewrite lookup_insert_is_Some'. right. by apply Hv.
  - intros x prx. destruct (decide (x = p)) as [->|Hne].
    + rewrite lookup_insert_eq. intros [= <-]. rewrite Hrq. by apply Hr.
    + rewrite lookup_insert_ne by done. by apply Hr.
  - by rewrite (size_insert_live _ _ _ _ Hp).
Qed.

Lemma lab6_new s q p pr :
  lab6_queue s q -> procs s !! p = None -> rq pr = None -> Z.of_nat (size (procs s)) + 1 < 2 ^ 32 -> lab6_queue (proc_new s p pr) q.
Proof.
  intros [Hl Hv Hr Hs Hn] Hp Hrq Hsz. assert (p ∉ q) as Hin by (intros Hin; destruct (Hv p Hin); congruence). split; cbn; [| | | |done].
  - eapply run_listed_new; [exact Hl|done|]. intros x. apply live_insert.
  - intros x Hx. unfold live. cbn. rewrite lookup_insert_is_Some'. right. by apply Hv.
  - by apply rq_insert.
  - pose proof (size_insert_le (procs s) p pr). lia.
Qed.

Lemma lab6_free s q p : lab6_queue s q -> p ∉ q -> lab6_queue (proc_free s p) q.
Proof.
  intros [Hl Hv Hr Hs Hn] Hp. split; cbn; [| | | |done].
  - eapply listed_mono; [|exact Hl]. intros x. apply live_delete.
  - intros x Hx. unfold live. cbn. rewrite lookup_delete_is_Some. split; [congruence|by apply Hv].
  - by apply rq_delete.
  - pose proof (size_delete_le (procs s) p). lia.
Qed.

Lemma FIFO_enqueue_run s q p pr :
  lab6_queue s q -> procs s !! p = Some pr -> p ∉ q ->
  exists s', FIFO_enqueue s p = Ok s' /\ lab6_queue s' (q ++ [p]) /\ touches p s s'.
Proof.
  intros Hinv Hp Hin. pose proof Hinv as [Hl Hv Hr Hs Hn]. unfold FIFO_enqueue.
  rewrite (deref_some _ _ _ Hp). cbn [mbind res_bind].
  rewrite (Hr p pr Hp), decide_False by done. cbn [c_assert mbind res_bind bool_decide].
  destruct (run_list_add _ _ _ p Hl) as (h & -> & Hl'); [by eexists|done|].
  rewrite bool_decide_true by done. cbn [c_assert mbind res_bind].
  rewrite (upd_proc_ok _ _ _ pr) by done. cbn [mbind res_bind].
  erewrite upd_proc_ok by (cbn; apply lookup_insert_eq). cbn [mbind res_bind].
  eexists. split; [done|]. cbn. split.
  - split; cbn; rewrite ?insert_insert_eq.
    + eapply listed_mono; [|exact Hl']. intros x. unfold live. cbn.
      rewrite lookup_insert_is_Some'. intros [<-|?]; [by eexists|done].
    + intros x. rewrite elem_of_app, list_elem_of_singleton. unfold live. cbn. rewrite lookup_insert_is_Some'.
      intros [Hx| ->]; [right; by apply Hv|by left].
    + intros x prx. destruct (decide (x = p)) as [->|Hne].
      * rewrite lookup_insert_eq, decide_True by (apply elem_of_app; right; by left). by intros [= <-].
      * rewrite lookup_insert_ne by done. intros Hx. rewrite (Hr x prx Hx).
        apply decide_ext. rewrite elem_of_app, list_elem_of_singleton. tauto.
    + by rewrite (size_insert_live _ _ _ _ Hp).
    + rewrite Hn, length_app, u32_small; [cbn; lia|].
      assert (lab6_queue s q) as Hlen%lab6_length by done.
      assert (length (p :: q) <= size (procs s))%nat as Hlen2.
      { apply live_length; [constructor; [done|by eapply listed_nodup]|].
        intros x [->|Hx]%elem_of_cons; [eauto|by apply Hv]. }
      cbn in Hlen2. lia.
  - eapply touches_upd; [exact Hp|cbn; rewrite insert_insert_eq; done|done].
Qed.

Lemma FIFO_dequeue_run s l1 p l2 :
  lab6_queue s (l1 ++ p :: l2) ->
  exists s', FIFO_dequeue s p = Ok s' /\ lab6_queue s' (l1 ++ l2) /\ touches p s s'.
Proof.
  intros Hinv. pose proof Hinv as [Hl Hv Hr Hs Hn]. assert (p ∈ l1 ++ p :: l2) as Hin by set_solver.
  destruct (Hv p Hin) as [pr Hp]. unfold FIFO_dequeue. rewrite (deref_some _ _ _ Hp). cbn [mbind res_bind].
  rewrite (Hr p pr Hp), decide_True by done. rewrite bool_decide_true by done. cbn [c_assert mbind res_bind].
  destruct (run_list_del _ _ _ _ _ Hl) as (h & -> & Hl'). cbn [mbind res_bind].
  rewrite (upd_proc_ok _ _ _ pr) by done. cbn [mbind res_bind with_procs rqueue with_run_links].
  rewrite Hn, length_app. cbn [length]. rewrite (proj2 (Z.ltb_lt _ _)) by lia.
  assert (NoDup (l1 ++ p :: l2)) as Hnd by by eapply listed_nodup.
  assert (p ∉ l1 ++ l2) as Hpn.
  { rewrite <- Permutation_middle in Hnd. by apply NoDup_cons in Hnd as [? _]. }
  eexists. split; [done|]. split.
  - split; cbn.
    + eapply listed_mono; [|exact Hl']. intros x. unfold live. cbn.
      rewrite lookup_insert_is_Some'. intros [<-|?]; [by eexists|done].
    + intros x Hx. unfold live. cbn. rewrite lookup_insert_is_Some'. right. apply Hv. set_solver.
    + intros x prx. destruct (decide (x = p)) as [->|Hne].
      * rewrite lookup_insert_eq, decide_False by done. by intros [= <-].
      * rewrite lookup_insert_ne by done. intros Hx. rewrite (Hr x prx Hx). apply decide_ext.
        rewrite !elem_of_app, elem_of_cons. tauto.
    + by rewrite (size_insert_live _ _ _ _ Hp).
    + rewrite length_app. lia.
  - eapply touches_upd; [exact Hp|cbn; done|done].
Qed.

Lemma FIFO_pick_next_run s q : lab6_queue s q -> FIFO_pick_next s = Ok (s, head q).
Proof.
  intros Hq. unfold FIFO_pick_next. rewrite (list_empty_dll _ _ _ (ls_dll _ _ _ _ _ (lq_links _ _ Hq))).
  cbn [mbind res_bind]. destruct q as [|p q]; [done|]. rewrite bool_decide_false by done.
  by rewrite (run_list_first _ _ _ (lq_links _ _ Hq)).
Qed.

Lemma lab6_tick_run s q p :
  lab6_queue s q -> is_Some (procs s !! p) ->
  exists s', count_down s p = Ok s' /\ lab6_queue s' q /\ touches p s s'.
Proof.
  intros Hq [pr Hp]. destruct (count_down_run s p pr Hp) as (pr' & Hc & Hcore & Hrq & _).
  eexists. split; [exact Hc|]. split; [by eapply lab6_upd|by eapply touches_upd].
Qed.

(** The minimum [SJF_pick_next] computes: the first of the processes that have
    run least often. *)
Definition runs_of (m : gmap Z proc_struct) (p : Z) : Z :=
  match m !! p with Some pr => runs pr | None => 0 end.

Fixpoint least_run (m : gmap Z proc_struct) (best : option Z) (q : list Z) : option Z :=
  match q with
  | [] => best
  | p :: q' =>
      least_run m (match best with
                   | None => Some p
                   | Some b => if runs_of m p <? runs_of m b then Some p else Some b
                   end) q'
  end.

Lemma SJF_walk s l1 l2 best fuel :
  dll (run_links s) RunList (RunLink <$> l1 ++ l2) -> (forall p, p ∈ l2 -> live s p) ->
  (forall b, best = Some b -> live s b) -> (length l2 < fuel)%nat ->
  loop (SJF_step s) fuel (match l2 with [] => RunList | p :: _ => RunLink p end, best) =
    Ok (least_run (procs s) best l2).
Proof.
  revert l1 best fuel. induction l2 as [|p l2 IH]; intros l1 best fuel Hd Hv Hb Hf;
    (destruct fuel as [|fuel]; [cbn in Hf; lia|]); rewrite loop_S; unfold SJF_step at 1.
  - by rewrite decide_True by done.
  - rewrite decide_False by done. cbn [le2proc mbind res_bind]. destruct (Hv p) as [pr Hp]; [by left|].
    rewrite (deref_some _ _ _ Hp). cbn [mbind res_bind least_run].
    assert (runs_of (procs s) p = runs pr) as -> by (unfold runs_of; by rewrite Hp).
    assert (list_next (run_links s) (RunLink p) = Ok (match l2 with [] => RunList | x :: _ => RunLink x end)) as Hnx.
    { rewrite fmap_app in Hd. cbn in Hd. apply list_next_ok. rewrite (dll_next_in _ _ _ _ _ Hd). by destruct l2. }
    destruct best as [b|].
    + destruct (Hb b eq_refl) as [br Hbr]. rewrite (deref_some _ _ _ Hbr). cbn [mbind res_bind].
      assert (runs_of (procs s) b = runs br) as -> by (unfold runs_of; by rewrite Hbr).
      rewrite Hnx. cbn [mbind res_bind]. apply (IH (l1 ++ [p])); [by rewrite <- app_assoc| | |cbn in Hf; lia].
      * intros x Hx. apply Hv. by right.
      * intros x. destruct (runs pr <? runs br); intros [= <-]; by eexists.
    + cbn [mbind res_bind]. rewrite Hnx. cbn [mbind res_bind].
      apply (IH (l1 ++ [p])); [by rewrite <- app_assoc| | |cbn in Hf; lia].
      * intros x Hx. apply Hv. by right.
      * intros x [= <-]. by eexists.
Qed.

Lemma least_run_spec m best q :
  match least_run m best q with
  | Some b => (best = Some b \/ b ∈ q) /\
      (forall x, best = Some x -> runs_of m b <= runs_of m x) /\ Forall (fun x => runs_of m b <= runs_of m x) q
  | None => best = None /\ q = []
  end.
Proof.
  revert best. induction q as [|p q IH]; intros best; cbn.
  - destruct best as [b|]; [|done]. split_and!; [by left| |done]. by intros x [= ->].
  - destruct best as [b'|].
    + specialize (IH (if runs_of m p <? runs_of m b' then Some p else Some b')).
      destruct (Z.ltb_spec (runs_of m p) (runs_of m b')) as [Hlt|Hge].
      * destruct (least_run m (Some p) q) as [b|]; [|by destruct IH].
        destruct IH as (Hin & Hb & Hall). specialize (Hb p eq_refl). split_and!.
        -- right. destruct Hin as [[= ->]|?]; [by left|by right].
        -- intros x [= <-]. lia.
        -- by constructor.
      * destruct (least_run m (Some b') q) as [b|]; [|by destruct IH].
        destruct IH as (Hin & Hb & Hall). specialize (Hb b' eq_refl). split_and!.
        -- destruct Hin as [?|?]; [by left|right; by right].
        -- by intros x [= <-].
        -- constructor; [lia|done].
    + specialize (IH (Some p)). destruct (least_run m (Some p) q) as [b|]; [|by destruct IH].
      destruct IH as (Hin & Hb & Hall). specialize (Hb p eq_refl). split_and!; [|done|by constructor].
      right. destruct Hin as [[= ->]|?]; [by left|by right].
Qed.

Lemma SJF_pick_next_run s q :
  lab6_queue s q -> SJF_pick_next s = Ok (s, least_run (procs s) None q).
Proof.
  intros Hq. unfold SJF_pick_next. pose proof (ls_dll _ _ _ _ _ (lq_links _ _ Hq)) as Hd.
  rewrite (list_empty_dll _ _ _ Hd). cbn [mbind res_bind]. destruct q as [|p q]; [done|].
  rewrite bool_decide_false by done. rewrite (run_list_first _ _ _ (lq_links _ _ Hq)). cbn [mbind res_bind].
  pose proof (dll_length _ _ _ Hd) as Hlen. rewrite length_fmap in Hlen.
  by rewrite (SJF_walk s [] (p :: q) None) by (done || apply (lq_live _ _ Hq) || lia).
Qed.

(** ** The classes meet the contract *)
#[export] Program Instance fifo_sched_class_ok : SchedClass fifo_sched_class := {
  queue := lab6_queue
}.
Next Obligation. intros s q p Hq Hp. by apply (lq_live _ _ Hq). Qed.
Next Obligation. intros s q Hq. eapply listed_nodup, Hq. Qed.
Next Obligation. intros. by eapply lab6_upd. Qed.
Next Obligation. intros. by apply lab6_new. Qed.
Next Obligation. intros. by apply lab6_free. Qed.
Next Obligation.
  intros s q p Hq [pr Hp] Hin. destruct (FIFO_enqueue_run s q p pr Hq Hp Hin) as (s' & He & Hq' & Ht).
  exists s', (q ++ [p]). split_and!; [done|done|by rewrite Permutation_app_comm|done].
Qed.
Next Obligation.
  intros s q p Hq (l1 & l2 & ->)%list_elem_of_split.
  destruct (FIFO_dequeue_run s l1 p l2 Hq) as (s' & Hd & Hq' & Ht).
  exists s', (l1 ++ l2). split_and!; [done|done|by rewrite Permutation_middle|done].
Qed.
Next Obligation.
  intros s q Hq. pose proof (FIFO_pick_next_run s q Hq) as Hp. destruct q as [|p q]; [done|].
  exists s, (p :: q), p. split_and!; [done|done|done|by left|apply touches_refl].
Qed.
Next Obligation. intros. by apply lab6_tick_run. Qed.

#[export] Program Instance sjf_sched_class_ok : SchedClass sjf_sched_class := {
  queue := lab6_queue
}.
Next Obligation. intros s q p Hq Hp. by apply (lq_live _ _ Hq). Qed.
Next Obligation. intros s q Hq. eapply listed_nodup, Hq. Qed.
Next Obligation. intros. by eapply lab6_upd. Qed.
Next Obligation. intros. by apply lab6_new. Qed.
Next Obligation. intros. by apply lab6_free. Qed.
Next Obligation. exact (enqueue_ok (c := fifo_sched_class)). Qed.
Next Obligation. exact (dequeue_ok (c := fifo_sched_class)). Qed.
Next Obligation.
  intros s q Hq. pose proof (SJF_pick_next_run s q Hq) as Hp. pose proof (least_run_spec (procs s) None q) as Hs.
  destruct (least_run (procs s) None q) as [b|].
  - destruct Hs as ([?|Hin] & _ & _); [done|]. destruct q as [|x q]; [by apply elem_of_nil in Hin|].
    exists s, (x :: q), b. split_and!; [done|done|done|done|apply touches_refl].
  - destruct Hs as [_ ->]. done.
Qed.
Next Obligation. intros. by apply lab6_tick_run. Qed.

(** * Properties *)

(** FIFO is first come, first served: enqueuing appends to the run list,
    [FIFO_pick_next] returns the process queued longest, and dequeuing it leaves
    the others in order; [proc_num] counts the queue at every step. *)
Theorem FIFO_order s q p :
  lab6_queue s q -> live s p -> p ∉ q ->
  exists s1 s2 x q', FIFO_enqueue s p = Ok s1 /\ q ++ [p] = x :: q' /\
    FIFO_pick_next s1 = Ok (s1, Some x) /\ FIFO_dequeue s1 x = Ok s2 /\ lab6_queue s2 q' /\
    proc_num (rqueue s2) = Z.of_nat (length q).
Proof.
  intros Hq [pr Hp] Hin. destruct (FIFO_enqueue_run s q p pr Hq Hp Hin) as (s1 & H1 & Hq1 & _).
  assert (exists x q', q ++ [p] = x :: q') as (x & q' & He) by (destruct q; cbn; eauto).
  rewrite He in Hq1. destruct (FIFO_dequeue_run s1 [] x q' Hq1) as (s2 & H2 & Hq2 & _).
  exists s1, s2, x, q'. split_and!; [done|done|by rewrite (FIFO_pick_next_run _ _ Hq1)|done|done|].
  rewrite (lq_num _ _ Hq2). apply (f_equal length) in He. rewrite length_app in He. cbn in *. lia.
Qed.

(** Shortest job first: on a non-empty queue [SJF_pick_next] changes nothing
    and returns a queued process that has run no more often than any other. *)
Theorem SJF_picks_least_run s q :
  lab6_queue s q -> q <> [] ->
  exists b br, SJF_pick_next s = Ok (s, Some b) /\ b ∈ q /\ procs s !! b = Some br /\
    forall p pr, p ∈ q -> procs s !! p = Some pr -> runs br <= runs pr.
Proof.
  intros Hq Hne. rewrite (SJF_pick_next_run s q Hq). pose proof (least_run_spec (procs s) None q) as Hs.
  destruct (least_run (procs s) None q) as [b|]; [|by destruct Hs].
  destruct Hs as ([?|Hin] & _ & Hall); [done|]. destruct (lq_live _ _ Hq b Hin) as [br Hbr].
  exists b, br. split_and!; [done|done|done|]. intros p pr Hp Hpr. rewrite Forall_forall in Hall.
  specialize (Hall p Hp). unfold runs_of in Hall. by rewrite Hbr, Hpr in Hall.
Qed.

(** ** A concrete queue *)
Lemma boot_lab6_queue : lab6_queue boot_sched [].
Proof.
  split; [split|by intros p ?%elem_of_nil| |reflexivity|reflexivity].
  - split; [apply NoDup_singleton|split; reflexivity].
  - intros p [pr Hp] _. destruct (demo_procs p pr Hp) as [[->|[->|[->| ->]]] _];
      (split; [apply NoDup_singleton|split; reflexivity]).
  - intros p pr Hp. rewrite decide_False by apply not_elem_of_nil. unfold boot_sched in Hp. cbn [procs] in Hp.
    apply elem_of_list_to_map_2 in Hp. rewrite !elem_of_cons in Hp.
    destruct Hp as [[= _ ->]|[[= _ ->]|[[= _ ->]|[[= _ ->]|[]%elem_of_nil]]]]; done.
Qed.

Lemma FIFO_order_witness : exists s1, FIFO_enqueue boot_sched 2 = Ok s1 /\ FIFO_pick_next s1 = Ok (s1, Some 2).
Proof.
  destruct (FIFO_order boot_sched [] 2 boot_lab6_queue) as (s1 & s2 & x & q' & H1 & H2 & H3 & _).
  - eexists. reflexivity.
  - apply not_elem_of_nil.
  - exists s1. split; [exact H1|]. injection H2 as <- _. exact H3.
Defined.

Lemma SJF_picks_least_run_witness :
  exists s b, SJF_enqueue boot_sched 2 = Ok s /\ SJF_pick_next s = Ok (s, Some b) /\ b ∈ [2].
Proof.
  destruct (FIFO_enqueue_run boot_sched [] 2 (new_proc PROC_RUNNABLE) boot_lab6_queue) as (s & H1 & Hq & _);
    [reflexivity|apply not_elem_of_nil|].
  destruct (SJF_picks_least_run s [2] Hq) as (b & br & H2 & H3 & _); [discriminate|].
  exists s, b. split; [exact H1|]. split; [exact H2|exact H3].
Defined.
