(* ===== verification/Stride.v ===== *)
(** The stride scheduling class, in the two versions the repository has:
    lab6/lab6/lab6/kern/schedule/default_sched_stride.c (the class lab6 runs) and
    lab8/kern/schedule/default_sched_stride.c.

    [stride_queue] is the structural invariant (the run pool is a skew heap of the
    queued processes); [stride_sorted] adds that all 32-bit strides lie within
    [BIG_STRIDE] of each other, which is what makes the wrapped comparison of
    [proc_stride_comp_f] an order. *)
From S2P Require Import Prelude Lists SkewHeap ProcStruct SchedClass RoundRobin Sched Lab6Sched.

(** * The code of lab6 *)
Definition BIG_STRIDE : Z := 1000000.

Definition stride_of (m : gmap Z proc_struct) (p : Z) : Z :=
  match m !! p with Some pr => lab6_stride pr | None => 0 end.

(** The heap only holds entries of live processes, so the lookup never misses. *)
Definition proc_stride_comp_f (m : gmap Z proc_struct) (a b : Z) : Z :=
  let c := i32 (u32 (stride_of m a - stride_of m b)) in
  if 0 <? c then 1 else if c =? 0 then 0 else -1.

Definition stride_init (s : sched_state) : res sched_state :=
  h ← list_init (run_links s) RunList;
  Ok (with_rqueue (with_run_links s h) (RunQueue 0 (max_time_slice (rqueue s)) None)).

Definition stride_enqueue (s : sched_state) (proc : Z) : res sched_state :=
  pr ← deref (procs s) proc;
  _ ← c_assert (bool_decide (rq pr = None));
  '(h, pool) ← skew_heap_insert (proc_stride_comp_f (procs s)) (run_pool s) (lab6_run_pool (rqueue s)) proc;
  let s := with_rqueue (with_run_pool s h) (set_lab6_run_pool pool (rqueue s)) in
  s ← upd_proc s proc
        (set_time_slice (if 0 <? max_time_slice (rqueue s) then max_time_slice (rqueue s) else 1));
  s ← upd_proc s proc (set_rq (Some the_rq));
  Ok (with_rqueue s (set_proc_num (u32 (proc_num (rqueue s) + 1)) (rqueue s))).

Definition stride_dequeue (s : sched_state) (proc : Z) : res sched_state :=
  pr ← deref (procs s) proc;
  _ ← c_assert (bool_decide (rq pr = Some the_rq));
  '(h, pool) ← skew_heap_remove (proc_stride_comp_f (procs s)) (run_pool s) (lab6_run_pool (rqueue s)) proc;
  let s := with_rqueue (with_run_pool s h) (set_lab6_run_pool pool (rqueue s)) in
  s ← upd_proc s proc (set_rq None);
  if 0 <? proc_num (rqueue s) then
    Ok (with_rqueue s (set_proc_num (proc_num (rqueue s) - 1) (rqueue s)))
  else Ok s.

Definition stride_pick_next (s : sched_state) : res (sched_state * option Z) :=
  match lab6_run_pool (rqueue s) with
  | None => Ok (s, None)
  | Some p =>
      pr ← deref (procs s) p;
      let pri := if lab6_priority pr =? 0 then 1 else lab6_priority pr in
      s ← upd_proc s p (set_lab6_stride (u32 (lab6_stride pr + BIG_STRIDE / pri)));
      Ok (s, Some p)
  end.

Definition stride_proc_tick (s : sched_state) (proc : option Z) : res sched_state :=
  match proc with None => Ok s | Some proc => count_down s proc end.

Definition stride_sched_class : sched_class :=
  MkSchedClass stride_init stride_enqueue stride_dequeue stride_pick_next (fun s p => stride_proc_tick s (Some p)).

(** * The code of lab8, where it differs *)
Definition lab8_BIG_STRIDE : Z := Z.shiftl 1 30.

Definition lab8_stride_enqueue (s : sched_state) (proc : Z) : res sched_state :=
  '(h, pool) ← skew_heap_insert (proc_stride_comp_f (procs s)) (run_pool s) (lab6_run_pool (rqueue s)) proc;
  let s := with_rqueue (with_run_pool s h) (set_lab6_run_pool pool (rqueue s)) in
  pr ← deref (procs s) proc;
  s ← (if (time_slice pr =? 0) || (max_time_slice (rqueue s) <? time_slice pr) then
         upd_proc s proc (set_time_slice (max_time_slice (rqueue s)))
       else Ok s);
  s ← upd_proc s proc (set_rq (Some the_rq));
  Ok (with_rqueue s (set_proc_num (u32 (proc_num (rqueue s) + 1)) (rqueue s))).

Definition lab8_stride_dequeue (s : sched_state) (proc : Z) : res sched_state :=
  pr ← deref (procs s) proc;
  _ ← c_assert (bool_decide (rq pr = Some the_rq) && (0 <? proc_num (rqueue s)));
  '(h, pool) ← skew_heap_remove (proc_stride_comp_f (procs s)) (run_pool s) (lab6_run_pool (rqueue s)) proc;
  let s := with_rqueue (with_run_pool s h) (set_lab6_run_pool pool (rqueue s)) in
  Ok (with_rqueue s (set_proc_num (u32 (proc_num (rqueue s) - 1)) (rqueue s))).

(** The division is by the priority itself; C leaves division by zero undefined. *)
Definition lab8_stride_pick_next (s : sched_state) : res (sched_state * option Z) :=
  match lab6_run_pool (rqueue s) with
  | None => Ok (s, None)
  | Some p =>
      pr ← deref (procs s) p;
      if lab6_priority pr =? 0 then Fault
      else
        s ← upd_proc s p (set_lab6_stride (u32 (lab6_stride pr + lab8_BIG_STRIDE / lab6_priority pr)));
        Ok (s, Some p)
  end.

Definition lab8_stride_proc_tick (s : sched_state) (proc : Z) : res sched_state := count_down s proc.

(** * The run pool *)
Record pool_queue (s : sched_state) (t : tree) (q : list Z) : Prop := PoolQueue {
  pq_heap : heap_at (run_pool s) (lab6_run_pool (rqueue s)) t;
  pq_elems : elems t ≡ₚ q;
  pq_entry : forall p, live s p -> is_Some (run_pool s !! p);
  pq_live : forall p, p ∈ q -> live s p;
  pq_rq : forall p pr, procs s !! p = Some pr -> rq pr = if decide (p ∈ q) then Some the_rq else None;
  pq_size : Z.of_nat (size (procs s)) < 2 ^ 32;
  pq_num : proc_num (rqueue s) = Z.of_nat (length q)
}.

Definition stride_queue (s : sched_state) (q : list Z) : Prop := exists t, pool_queue s t q.

Lemma pool_nodup s t q : pool_queue s t q -> NoDup q.
Proof. intros Hq. rewrite <- (pq_elems _ _ _ Hq). apply (pq_heap _ _ _ Hq). Qed.

Lemma pool_upd s t q p pr pr' :
  pool_queue s t q -> procs s !! p = Some pr -> rq pr' = rq pr ->
  pool_queue (with_procs s (<[p := pr']> (procs s))) t q.
Proof.
  intros [Hh He Hen Hv Hr Hs Hn] Hp Hrq. split; cbn; [done|done| | | | |done].
  - intros x. unfold live. cbn. rewrite lookup_insert_is_Some'. intros [<-|Hx]; apply Hen; [by eexists|done].
  - intros x Hx. unfold live. cbn. rewrite lookup_insert_is_Some'. right. by apply Hv.
  - intros x prx. destruct (decide (x = p)) as [->|Hne].
    + rewrite lookup_insert_eq. intros [= <-]. rewrite Hrq. by apply Hr.
    + rewrite lookup_insert_ne by done. by apply Hr.
  - by rewrite (size_insert_live _ _ _ _ Hp).
Qed.

Lemma pool_new s t q p pr :
  pool_queue s t q -> procs s !! p = None -> rq pr = None -> Z.of_nat (size (procs s)) + 1 < 2 ^ 32 -> pool_queue (proc_new s p pr) t q.
Proof.
  intros [(Hrep & Hnd & Hpar) He Hen Hv Hr Hs Hn] Hp Hrq Hsz. assert (p ∉ q) as Hin by (intros Hin; destruct (Hv p Hin); congruence).
  assert (Hext : forall x, x ∈ elems t -> <[p := SkewEntry None None None]> (run_pool s) !! x = run_pool s !! x).
  { intros x Hx. apply lookup_insert_ne. intros <-. apply Hin. by rewrite <- He. }
  split; cbn; [|done| | | | |done].
  - split; [by eapply repr_ext|]. split; [done|by eapply parent_is_ext].
  - intros x [->|Hx]%live_insert; [rewrite lookup_insert_eq; eauto|]. rewrite lookup_insert_is_Some'. right. by apply Hen.
  - intros x Hx. unfold live. cbn. rewrite lookup_insert_is_Some'. right. by apply Hv.
  - by apply rq_insert.
  - pose proof (size_insert_le (procs s) p pr). lia.
Qed.

Lemma pool_free s t q p : pool_queue s t q -> p ∉ q -> pool_queue (proc_free s p) t q.
Proof.
  intros [Hh He Hen Hv Hr Hs Hn] Hp. split; cbn; [done|done| | | | |done].
  - intros x Hx%live_delete. by apply Hen.
  - intros x Hx. unfold live. cbn. rewrite lookup_delete_is_Some. split; [congruence|by apply Hv].
  - by apply rq_delete.
  - pose proof (size_delete_le (procs s) p). lia.
Qed.

Lemma stride_enqueue_run s t q p pr :
  pool_queue s t q -> procs s !! p = Some pr -> p ∉ q ->
  exists s', stride_enqueue s p = Ok s' /\
    pool_queue s' (tmerge (proc_stride_comp_f (procs s)) t (Node p Leaf Leaf)) (p :: q) /\ touches p s s' /\
    forall x, stride_of (procs s') x = stride_of (procs s) x.
Proof.
  intros Hinv Hp Hin. pose proof Hinv as [Hh He Hen Hv Hr Hs Hn]. unfold stride_enqueue.
  rewrite (deref_some _ _ _ Hp). cbn [mbind res_bind].
  rewrite (Hr p pr Hp), decide_False by done. rewrite bool_decide_true by done. cbn [c_assert mbind res_bind].
  set (comp := proc_stride_comp_f (procs s)).
  destruct (insert_heap comp (run_pool s) (lab6_run_pool (rqueue s)) t p Hh) as (h & Hins & Hh' & Ho).
  { apply Hen. by eexists. }
  { by rewrite He. }
  rewrite Hins. cbn [mbind res_bind]. set (t' := tmerge comp t (Node p Leaf Leaf)) in *.
  rewrite (upd_proc_ok _ _ _ pr) by done. cbn [mbind res_bind].
  erewrite upd_proc_ok by (cbn; apply lookup_insert_eq). cbn [mbind res_bind].
  pose proof (elems_tmerge comp t (Node p Leaf Leaf)) as Hel. fold t' in Hel. cbn [elems app] in Hel.
  eexists. split; [done|]. split; [|split].
  - split; cbn; rewrite ?insert_insert_eq.
    + exact Hh'.
    + rewrite Hel, He. by rewrite Permutation_app_comm.
    + intros x. unfold live. cbn. rewrite lookup_insert_is_Some'. intros Hx.
      apply (insert_keeps _ _ _ _ _ _ Hins), Hen. destruct Hx as [<-|Hx]; [by eexists|done].
    + intros x. unfold live. cbn. rewrite lookup_insert_is_Some'.
      intros [->|Hx]%elem_of_cons; [by left|right; by apply Hv].
    + intros x prx. destruct (decide (x = p)) as [->|Hne].
      * rewrite lookup_insert_eq, decide_True by by left. by intros [= <-].
      * rewrite lookup_insert_ne by done. intros Hx. rewrite (Hr x prx Hx). apply decide_ext.
        rewrite elem_of_cons. tauto.
    + by rewrite (size_insert_live _ _ _ _ Hp).
    + rewrite Hn, u32_small; [cbn; lia|].
      assert (length (p :: q) <= size (procs s))%nat as Hlen2.
      { apply live_length; [constructor; [done|by eapply pool_nodup]|].
        intros x [->|Hx]%elem_of_cons; [eauto|by apply Hv]. }
      cbn in Hlen2. lia.
  - eapply touches_upd; [exact Hp|cbn; rewrite insert_insert_eq; done|done].
  - intros x. cbn. rewrite insert_insert_eq. unfold stride_of. destruct (decide (x = p)) as [->|Hne].
    + rewrite lookup_insert_eq, Hp. done.
    + by rewrite lookup_insert_ne.
Qed.

Lemma stride_dequeue_run s t q p q' :
  pool_queue s t q -> q ≡ₚ p :: q' ->
  exists s', stride_dequeue s p = Ok s' /\
    pool_queue s' (tremove (proc_stride_comp_f (procs s)) p t) q' /\ touches p s s' /\
    forall x, stride_of (procs s') x = stride_of (procs s) x.
Proof.
  intros Hinv Hperm. pose proof Hinv as [Hh He Hen Hv Hr Hs Hn].
  assert (p ∈ q) as Hin by (rewrite Hperm; by left).
  destruct (Hv p Hin) as [pr Hp]. unfold stride_dequeue. rewrite (deref_some _ _ _ Hp). cbn [mbind res_bind].
  rewrite (Hr p pr Hp), decide_True by done. rewrite bool_decide_true by done. cbn [c_assert mbind res_bind].
  set (comp := proc_stride_comp_f (procs s)). pose proof (repr_root _ _ _ (proj1 Hh)) as Hroot.
  assert (p ∈ elems t) as Hpt by by rewrite He.
  rewrite Hroot in Hh |- *. destruct (remove_heap comp (run_pool s) t p Hh Hpt) as (h & Hrem & Hh' & Ho).
  rewrite Hrem. cbn [mbind res_bind]. rewrite (upd_proc_ok _ _ _ pr) by done. cbn [mbind res_bind with_procs with_rqueue with_run_pool rqueue set_lab6_run_pool proc_num].
  rewrite Hn. assert (length q = S (length q')) as Hlen by by rewrite Hperm.
  rewrite (proj2 (Z.ltb_lt _ _)) by lia.
  assert (p :: elems (tremove comp p t) ≡ₚ elems t) as Hel by (apply elems_tremove; [apply Hh|done]).
  assert (NoDup (p :: q')) as Hnd by (rewrite <- Hperm; by eapply pool_nodup).
  apply NoDup_cons in Hnd as [Hpn _].
  eexists. split; [done|]. split; [|split].
  - split; cbn.
    + exact Hh'.
    + rewrite He, Hperm in Hel. by apply Permutation_cons_inv in Hel.
    + intros x. unfold live. cbn. rewrite lookup_insert_is_Some'. intros Hx.
      apply (remove_keeps _ _ _ _ _ _ Hrem), Hen. destruct Hx as [<-|Hx]; [by eexists|done].
    + intros x Hx. unfold live. cbn. rewrite lookup_insert_is_Some'. right. apply Hv. rewrite Hperm. by right.
    + intros x prx. destruct (decide (x = p)) as [->|Hne].
      * rewrite lookup_insert_eq, decide_False by done. by intros [= <-].
      * rewrite lookup_insert_ne by done. intros Hx. rewrite (Hr x prx Hx). apply decide_ext.
        rewrite Hperm, elem_of_cons. tauto.
    + by rewrite (size_insert_live _ _ _ _ Hp).
    + lia.
  - eapply touches_upd; [exact Hp|cbn; done|done].
  - intros x. cbn. unfold stride_of. destruct (decide (x = p)) as [->|Hne].
    + rewrite lookup_insert_eq, Hp. done.
    + by rewrite lookup_insert_ne.
Qed.

(** [BIG_STRIDE / priority], the stride a turn on the CPU costs. *)
Definition step_of (pr : proc_struct) : Z :=
  BIG_STRIDE / (if lab6_priority pr =? 0 then 1 else lab6_priority pr).

Lemma stride_pick_run s t q :
  pool_queue s t q ->
  match root t with
  | None => stride_pick_next s = Ok (s, None) /\ q = []
  | Some p => exists pr, procs s !! p = Some pr /\ p ∈ q /\
      stride_pick_next s = Ok (with_procs s (<[p := set_lab6_stride (u32 (lab6_stride pr + step_of pr)) pr]> (procs s)), Some p)
  end.
Proof.
  intros [Hh He Hen Hv Hr Hs Hn]. unfold stride_pick_next. rewrite (repr_root _ _ _ (proj1 Hh)).
  destruct t as [|p l r]; cbn [root].
  - split; [done|]. cbn in He. by apply Permutation_nil_l in He.
  - assert (p ∈ q) as Hin by (rewrite <- He; by left). destruct (Hv p Hin) as [pr Hp]. exists pr. split_and!; [done|done|].
    rewrite (deref_some _ _ _ Hp). cbn [mbind res_bind]. by rewrite (upd_proc_ok _ _ _ _ Hp).
Qed.

(** Stride is a scheduling class. *)
#[export] Program Instance stride_sched_class_ok : SchedClass stride_sched_class := {
  queue := stride_queue
}.
Next Obligation. intros s q p [t Hq] Hp. by apply (pq_live _ _ _ Hq). Qed.
Next Obligation. intros s q [t Hq]. by eapply pool_nodup. Qed.
Next Obligation. intros s q p pr f [t Hq] Hp Hf. exists t. by eapply pool_upd. Qed.
Next Obligation. intros s q p pr [t Hq] Hp Hrq Hs. exists t. by apply pool_new. Qed.
Next Obligation. intros s q p [t Hq] Hp. exists t. by apply pool_free. Qed.
Next Obligation.
  intros s q p [t Hq] [pr Hp] Hin. destruct (stride_enqueue_run s t q p pr Hq Hp Hin) as (s' & He & Hq' & Ht & _).
  exists s', (p :: q). split_and!; [done|by eexists|done|done].
Qed.
Next Obligation.
  intros s q p [t Hq] Hin. pose proof Hin as (l1 & l2 & ->)%list_elem_of_split.
  destruct (stride_dequeue_run s t _ p (l1 ++ l2) Hq) as (s' & Hd & Hq' & Ht & _); [by rewrite Permutation_middle|].
  exists s', (l1 ++ l2). split_and!; [done|by eexists|by rewrite Permutation_middle|done].
Qed.
Next Obligation.
  intros s q [t Hq]. pose proof (stride_pick_run s t q Hq) as Hp. destruct (root t) as [p|].
  - destruct Hp as (pr & Hp & Hin & Hpk). destruct q as [|x q]; [by apply elem_of_nil in Hin|].
    eexists _, (x :: q), p. split_and!; [exact Hpk|exists t; by eapply pool_upd|done|done|by eapply touches_upd].
  - by destruct Hp as [Hp ->].
Qed.
Next Obligation.
  intros s q p [t Hq] [pr Hp]. destruct (count_down_run s p pr Hp) as (pr' & Hc & Hcore & Hrq & _).
  eexists. split; [exact Hc|]. split; [exists t; by eapply pool_upd|by eapply touches_upd].
Qed.

(** * Strides modulo 2^32 *)

(** How far ahead of [base] the stride of [p] is, around the circle. *)
Definition rel (m : gmap Z proc_struct) (base p : Z) : Z := u32 (stride_of m p - base).

Definition window (m : gmap Z proc_struct) (base : Z) (q : list Z) : Prop :=
  Forall (fun p => rel m base p <= BIG_STRIDE) q.

Lemma i32_diff a b base :
  u32 (a - base) <= 2 ^ 30 -> u32 (b - base) <= 2 ^ 30 ->
  i32 (u32 (a - b)) = u32 (a - base) - u32 (b - base).
Proof.
  unfold i32, u32. intros Ha Hb.
  pose proof (Z.mod_pos_bound (a - base) (2 ^ 32) ltac:(lia)).
  pose proof (Z.mod_pos_bound (b - base) (2 ^ 32) ltac:(lia)).
  assert ((a - b) mod 2 ^ 32 = ((a - base) mod 2 ^ 32 - (b - base) mod 2 ^ 32) mod 2 ^ 32) as ->.
  { rewrite <- Zminus_mod. f_equal. lia. }
  set (x := (a - base) mod 2 ^ 32) in *. set (y := (b - base) mod 2 ^ 32) in *.
  rewrite Zplus_mod_idemp_l. rewrite Z.mod_small; lia.
Qed.

Lemma comp_faithful m base q :
  window m base q -> compares (proc_stride_comp_f m) (rel m base) q.
Proof.
  unfold window. rewrite Forall_forall. intros Hw a b Ha Hb. unfold proc_stride_comp_f.
  assert (BIG_STRIDE <= 2 ^ 30) by (unfold BIG_STRIDE; lia).
  pose proof (Hw a Ha). pose proof (Hw b Hb). unfold rel in *.
  rewrite (i32_diff _ _ base) by lia.
  destruct (Z.ltb_spec 0 (u32 (stride_of m a - base) - u32 (stride_of m b - base))); [lia|].
  destruct (Z.eqb_spec (u32 (stride_of m a - base) - u32 (stride_of m b - base)) 0); lia.
Qed.

(** A heap of processes whose strides are close together, ordered by them. *)
Definition stride_sorted (s : sched_state) (q : list Z) : Prop :=
  exists t base, pool_queue s t q /\ window (procs s) base q /\ heap_ordered (rel (procs s) base) t.

Lemma heap_ordered_mono k k' t :
  (forall a b, a ∈ elems t -> b ∈ elems t -> k a <= k b -> k' a <= k' b) -> heap_ordered k t -> heap_ordered k' t.
Proof.
  induction t as [|a l IHl r IHr]; [done|]. intros Hm (Hall & Hl & Hr). cbn in Hm. split_and!.
  - rewrite Forall_forall in *. intros x Hx. apply Hm; [by left|by right|by apply Hall].
  - apply IHl; [|done]. intros x y Hx Hy. apply Hm; set_solver.
  - apply IHr; [|done]. intros x y Hx Hy. apply Hm; set_solver.
Qed.

Lemma rel_shift a b base : u32 (b - base) <= u32 (a - base) -> u32 (a - b) = u32 (a - base) - u32 (b - base).
Proof.
  unfold u32. intros Hle. pose proof (Z.mod_pos_bound (a - base) (2 ^ 32) ltac:(lia)).
  pose proof (Z.mod_pos_bound (b - base) (2 ^ 32) ltac:(lia)).
  replace (a - b) with ((a - base) - (b - base)) by lia. rewrite Zminus_mod, Z.mod_small; lia.
Qed.

Lemma stride_ext m m' base q :
  (forall x, stride_of m' x = stride_of m x) ->
  (window m base q -> window m' base q) /\ (forall x, rel m' base x = rel m base x) /\
  (forall a b, proc_stride_comp_f m' a b = proc_stride_comp_f m a b).
Proof.
  intros He. split_and!.
  - unfold window, rel. intros Hw. eapply Forall_impl; [exact Hw|]. cbn. intros x. by rewrite He.
  - intros x. unfold rel. by rewrite He.
  - intros a b. unfold proc_stride_comp_f. by rewrite !He.
Qed.

Lemma step_of_range pr : 0 <= lab6_priority pr -> 0 <= step_of pr <= BIG_STRIDE.
Proof.
  intros Hp. unfold step_of. assert (0 < (if lab6_priority pr =? 0 then 1 else lab6_priority pr)) as Hd.
  { destruct (Z.eqb_spec (lab6_priority pr) 0); lia. }
  split; [apply Z.div_pos; unfold BIG_STRIDE; lia|].
  apply Z.div_le_upper_bound; [done|]. unfold BIG_STRIDE. nia.
Qed.

(** Once the minimum [p] was picked, the strides are close to [p]'s old one. *)
Lemma window_after_pick s q t base p pr :
  pool_queue s t q -> window (procs s) base q -> heap_ordered (rel (procs s) base) t -> root t = Some p ->
  procs s !! p = Some pr -> 0 <= lab6_priority pr ->
  let m1 := <[p := set_lab6_stride (u32 (lab6_stride pr + step_of pr)) pr]> (procs s) in
  let base' := lab6_stride pr in
  window m1 base' q /\
  forall a b, a ∈ q -> b ∈ q -> a <> p -> b <> p ->
    rel (procs s) base a <= rel (procs s) base b -> rel m1 base' a <= rel m1 base' b.
Proof.
  intros Hq Hw Ho Hr Hp Hpri m1 base'. destruct t as [|p' l r]; [done|]. cbn in Hr. injection Hr as ->.
  assert (stride_of (procs s) p = base') as Hsp by (unfold stride_of; by rewrite Hp).
  assert (forall x, x ∈ q -> rel (procs s) base p <= rel (procs s) base x) as Hmin.
  { intros x Hx. apply (heap_ordered_root (rel (procs s) base) p l r x Ho). by rewrite (pq_elems _ _ _ Hq). }
  assert (forall x, x ∈ q -> x <> p -> rel m1 base' x = rel (procs s) base x - rel (procs s) base p) as Hrel.
  { intros x Hx Hne. unfold rel at 1. unfold m1, stride_of. rewrite lookup_insert_ne by done.
    fold (stride_of (procs s) x). rewrite <- Hsp. apply rel_shift. by apply Hmin. }
  unfold window in *. rewrite Forall_forall in Hw |- *. split.
  - intros x Hx. destruct (decide (x = p)) as [->|Hne].
    + unfold rel, m1, stride_of. rewrite lookup_insert_eq. cbn. unfold base'.
      pose proof (step_of_range pr Hpri). unfold u32. rewrite Zminus_mod_idemp_l.
      replace (lab6_stride pr + step_of pr - lab6_stride pr) with (step_of pr) by lia.
      rewrite Z.mod_small; unfold BIG_STRIDE in *; lia.
    + rewrite Hrel by done. pose proof (Hw x Hx). pose proof (u32_range (stride_of (procs s) p - base)).
      unfold rel in *. lia.
  - intros a b Ha Hb Hna Hnb Hle. rewrite !Hrel by done. lia.
Qed.

(** * Properties *)

(** C35. Stride scheduling.  When all queued strides lie within [BIG_STRIDE] of
    each other (on the 32-bit circle), [stride_pick_next] picks a process that no
    other is behind, advances its stride by [BIG_STRIDE / priority] modulo 2^32,
    and after it is dequeued and enqueued again the strides still lie within
    [BIG_STRIDE] and the run pool is again a heap: wrap-around never breaks the
    order. *)
Theorem stride_round s q :
  stride_sorted s q -> q <> [] -> (forall p pr, procs s !! p = Some pr -> 0 <= lab6_priority pr) ->
  exists s1 s2 s3 p pr q', stride_pick_next s = Ok (s1, Some p) /\ q ≡ₚ p :: q' /\ procs s !! p = Some pr /\
    (forall x, x ∈ q -> proc_stride_comp_f (procs s) x p <> -1) /\
    stride_of (procs s1) p = u32 (lab6_stride pr + BIG_STRIDE / Z.max 1 (lab6_priority pr)) /\
    stride_dequeue s1 p = Ok s2 /\ stride_enqueue s2 p = Ok s3 /\ stride_sorted s3 (p :: q').
Proof.
  intros (t & base & Hq & Hw & Ho) Hne Hpri. pose proof (stride_pick_run s t q Hq) as Hpick.
  destruct t as [|p l r]; cbn [root] in Hpick; [by destruct Hpick|].
  destruct Hpick as (pr & Hp & Hin & Hpk). pose proof Hin as (la & lb & Hql)%list_elem_of_split.
  assert (q ≡ₚ p :: (la ++ lb)) as Hperm by (rewrite Hql; by rewrite Permutation_middle).
  set (m1 := <[p := set_lab6_stride (u32 (lab6_stride pr + step_of pr)) pr]> (procs s)) in *.
  set (s1 := with_procs s m1) in *.
  destruct (window_after_pick s q _ base p pr Hq Hw Ho eq_refl Hp (Hpri p pr Hp)) as [Hw1 Hmono].
  fold m1 in Hw1, Hmono. set (base' := lab6_stride pr) in *.
  assert (pool_queue s1 (Node p l r) q) as Hq1 by (by eapply pool_upd).
  destruct (stride_dequeue_run s1 _ q p (la ++ lb) Hq1 Hperm) as (s2 & Hd & Hq2 & Ht2 & Hst2).
  assert (p ∉ la ++ lb) as Hpn.
  { pose proof (pool_nodup _ _ _ Hq) as Hnd. rewrite Hperm in Hnd. by apply NoDup_cons in Hnd as [? _]. }
  assert (is_Some (procs s2 !! p)) as [pr2 Hp2].
  { apply (touches_live p s1 s2 p Ht2). cbn. unfold m1. rewrite lookup_insert_eq. eauto. }
  destruct (stride_enqueue_run s2 _ _ p pr2 Hq2 Hp2 Hpn) as (s3 & Hen & Hq3 & Ht3 & Hst3).
  exists s1, s2, s3, p, pr, (la ++ lb). split_and!; [exact Hpk|done|done| | |done|done|].
  - intros x Hx. pose proof (comp_faithful (procs s) base q Hw x p Hx Hin) as Hc.
    pose proof (heap_ordered_root _ p l r x Ho) as Hle. rewrite (pq_elems _ _ _ Hq) in Hle. specialize (Hle Hx). lia.
  - unfold s1, m1, stride_of. cbn. rewrite lookup_insert_eq. cbn. unfold step_of. f_equal. f_equal. f_equal.
    pose proof (Hpri p pr Hp). destruct (Z.eqb_spec (lab6_priority pr) 0); lia.
  - cbn [tremove] in Hq2, Hq3. rewrite decide_True in Hq2, Hq3 by done.
    exists (tmerge (proc_stride_comp_f (procs s2)) (tmerge (proc_stride_comp_f (procs s1)) l r) (Node p Leaf Leaf)), base'.
    change (procs s1) with m1 in *.
    destruct (stride_ext m1 (procs s2) base' q Hst2) as (Hw2 & Hr2 & Hc2).
    destruct (stride_ext (procs s2) (procs s3) base' q Hst3) as (Hw3 & Hr3 & Hc3).
    split; [exact Hq3|]. split.
    { specialize (Hw3 (Hw2 Hw1)). unfold window in *. by rewrite Hperm in Hw3. }
    assert (heap_ordered (rel m1 base') (tmerge (proc_stride_comp_f m1) l r)) as Hol.
    { pose proof (pq_elems _ _ _ Hq) as Hel. cbn in Hel. rewrite Hperm in Hel. apply Permutation_cons_inv in Hel.
      assert (forall x, x ∈ elems l ++ elems r -> x ∈ q /\ x <> p) as Hsub.
      { intros x Hx. rewrite Hel in Hx. split; [rewrite Hperm; by right|by intros ->]. }
      destruct Ho as (_ & Hol & Hor). apply tmerge_ordered.
      - intros a b Ha Hb. apply (comp_faithful m1 base' q Hw1); by apply Hsub.
      - eapply heap_ordered_mono; [|exact Hol]. intros a b Ha Hb. destruct (Hsub a), (Hsub b); [set_solver..|]. by apply Hmono.
      - eapply heap_ordered_mono; [|exact Hor]. intros a b Ha Hb. destruct (Hsub a), (Hsub b); [set_solver..|]. by apply Hmono. }
    eapply heap_ordered_mono; [intros a b _ _ Hab; rewrite !Hr3; exact Hab|].
    apply tmerge_ordered.
    + intros a b Ha Hb. apply (comp_faithful (procs s2) base' q (Hw2 Hw1)).
      all: rewrite (pq_elems _ _ _ Hq2) in *; rewrite Hperm, elem_of_cons; set_solver.
    + eapply heap_ordered_mono; [intros a b _ _ Hab; rewrite !Hr2; exact Hab|exact Hol].
    + cbn. done.
Qed.

(** lab8's stride class divides by the raw priority, which [alloc_proc]
    leaves at 0: picking a process whose priority was never set is a division by
    zero, where lab6's class takes the step of priority 1. *)
Theorem lab8_stride_divides_by_zero s t q p pr :
  pool_queue s t q -> root t = Some p -> procs s !! p = Some pr -> lab6_priority pr = 0 ->
  lab8_stride_pick_next s = Fault /\
  stride_pick_next s = Ok (with_procs s (<[p := set_lab6_stride (u32 (lab6_stride pr + BIG_STRIDE)) pr]> (procs s)), Some p).
Proof.
  intros Hq Hr Hp Hz. unfold lab8_stride_pick_next.
  rewrite (repr_root _ _ _ (proj1 (pq_heap _ _ _ Hq))), Hr, (deref_some _ _ _ Hp). cbn [mbind res_bind].
  rewrite Hz. split; [done|]. pose proof (stride_pick_run s t q Hq) as Hpick. rewrite Hr in Hpick.
  destruct Hpick as (pr' & Hp' & _ & ->). rewrite Hp in Hp'. injection Hp' as <-.
  unfold step_of. rewrite Hz. done.
Qed.

(** ** A concrete run pool: process 2, then process 3, with wrapped strides *)
Definition stride_boot : sched_state :=
  SchedState
    (list_to_map [(2, set_lab6_stride (2 ^ 32 - 5) (new_proc PROC_RUNNABLE));
                  (3, set_lab6_stride 7 (set_lab6_priority 0 (new_proc PROC_RUNNABLE)))])
    ∅ (list_to_map [(2, SkewEntry None None None); (3, SkewEntry None None None)]) (RunQueue 0 5 None).

Lemma stride_boot_queue : pool_queue stride_boot Leaf [].
Proof.
  assert (forall p pr, procs stride_boot !! p = Some pr -> (p = 2 \/ p = 3) /\ rq pr = None) as Hpr.
  { intros p pr Hp. unfold stride_boot in Hp. cbn [procs] in Hp.
    apply elem_of_list_to_map_2 in Hp. rewrite !elem_of_cons in Hp.
    destruct Hp as [[= -> ->]|[[= -> ->]|[]%elem_of_nil]]; auto. }
  split; [|done| |by intros p ?%elem_of_nil| |reflexivity|reflexivity].
  - split_and!; [done|constructor|done].
  - intros p [pr Hp]. destruct (Hpr p pr Hp) as [[->| ->] _]; eexists; reflexivity.
  - intros p pr Hp. rewrite decide_False by apply not_elem_of_nil. by apply (Hpr p pr).
Qed.

Lemma touches_priority p s s' x : touches p s s' -> lab6_priority <$> procs s' !! x = lab6_priority <$> procs s !! x.
Proof.
  intros [H1 H2]. destruct (decide (x = p)) as [->|Hx]; [|by rewrite H1].
  destruct (procs s !! p), (procs s' !! p); try done.
  apply (f_equal (option_map lab6_priority)) in H2. done.
Qed.

Lemma two_queue :
  exists s, pool_queue s (Node 2 (Node 3 Leaf Leaf) Leaf) [3; 2] /\
    (forall x, stride_of (procs s) x = stride_of (procs stride_boot) x) /\
    (forall x, lab6_priority <$> procs s !! x = lab6_priority <$> procs stride_boot !! x).
Proof.
  destruct (stride_enqueue_run stride_boot Leaf [] 2 (set_lab6_stride (2 ^ 32 - 5) (new_proc PROC_RUNNABLE)))
    as (s1 & H1 & Hq1 & Ht1 & Hs1); [exact stride_boot_queue|reflexivity|apply not_elem_of_nil|].
  assert (is_Some (procs s1 !! 3)) as [pr3 Hp3].
  { apply (touches_live 2 stride_boot s1 3 Ht1). eexists. reflexivity. }
  destruct (stride_enqueue_run s1 _ [2] 3 pr3 Hq1 Hp3) as (s2 & H2 & Hq2 & Ht2 & Hs2); [by rewrite list_elem_of_singleton|].
  exists s2. split; [|split; intros x].
  - match type of Hq2 with pool_queue _ ?t _ => assert (t = Node 2 (Node 3 Leaf Leaf) Leaf) as Ht end; [|by rewrite Ht in Hq2].
    cbn [tmerge]. destruct (stride_ext (procs stride_boot) (procs s1) 0 [] Hs1) as (_ & _ & ->). reflexivity.
  - by rewrite Hs2, Hs1.
  - by rewrite (touches_priority 3 s1 s2 x Ht2), (touches_priority 2 stride_boot s1 x Ht1).
Qed.

Lemma boot_priority p n : lab6_priority <$> procs stride_boot !! p = Some n -> n = 0 \/ n = 1.
Proof.
  destruct (procs stride_boot !! p) as [pr|] eqn:Hp; [|done]. intros [= <-]. unfold stride_boot in Hp. cbn [procs] in Hp.
  apply elem_of_list_to_map_2 in Hp. rewrite !elem_of_cons in Hp.
  destruct Hp as [[= -> ->]|[[= -> ->]|[]%elem_of_nil]]; cbn; auto.
Qed.

Lemma stride_round_witness :
  exists s s1, stride_sorted s [3; 2] /\ stride_pick_next s = Ok (s1, Some 2).
Proof.
  destruct two_queue as (s & Hq & Hst & Hpri).
  destruct (stride_ext (procs stride_boot) (procs s) (2 ^ 32 - 5) [3; 2] Hst) as (Hw & Hr & _).
  assert (stride_sorted s [3; 2]) as Hs.
  { exists (Node 2 (Node 3 Leaf Leaf) Leaf), (2 ^ 32 - 5). split; [exact Hq|]. split.
    - apply Hw. repeat constructor; vm_compute; discriminate.
    - eapply heap_ordered_mono; [intros a b _ _ Hab; rewrite !Hr; exact Hab|].
      cbn. repeat constructor; vm_compute; discriminate. }
  destruct (stride_round s [3; 2] Hs) as (s1 & s2 & s3 & p & pr & q' & H1 & _ & _ & _ & _ & _ & _ & _).
  - discriminate.
  - intros p pr Hp. destruct (boot_priority p (lab6_priority pr)) as [->| ->]; [|lia|lia].
    rewrite <- Hpri, Hp. reflexivity.
  - exists s, s1. split; [exact Hs|]. destruct (stride_pick_run s _ _ Hq) as (pr2 & _ & _ & H2).
    rewrite H2 in H1 |- *. injection H1 as <- _. reflexivity.
Defined.

Lemma lab8_stride_divides_by_zero_witness : exists s, lab8_stride_pick_next s = Fault.
Proof.
  destruct (stride_enqueue_run stride_boot Leaf [] 3 (set_lab6_stride 7 (set_lab6_priority 0 (new_proc PROC_RUNNABLE))))
    as (s1 & H1 & Hq1 & Ht1 & Hs1); [exact stride_boot_queue|reflexivity|apply not_elem_of_nil|].
  assert (is_Some (procs s1 !! 3)) as [pr3 Hp3].
  { apply (touches_live 3 stride_boot s1 3 Ht1). eexists. reflexivity. }
  exists s1. apply (lab8_stride_divides_by_zero s1 _ [3] 3 pr3 Hq1 eq_refl Hp3).
  pose proof (touches_priority 3 stride_boot s1 3 Ht1) as Hpri. rewrite Hp3 in Hpri. by injection Hpri.
Defined.
