(* ===== verification/Sync.v ===== *)
(** Wait queues and semaphores (lab8/kern/sync/wait.c, sem.c).

    Wait entries and queue heads are addresses of one link heap.  [__down] may
    give up the CPU in the middle: it is split into [__down_start], which either
    takes the semaphore or puts the caller to sleep on its queue, and
    [__down_finish], which the caller runs once it is on the CPU again.  The
    local variable [__wait] lives on the caller's kernel stack, of which there is
    one per process: its address is the process. *)
From S2P Require Import Prelude Lists SkewHeap ProcStruct SchedClass RoundRobin Sched Timer.

Inductive wait_entry : Type := WaitHead (q : Z) | WaitLink (w : Z).

#[export] Instance wait_entry_eq_dec : EqDecision wait_entry.
Proof. solve_decision. Defined.

#[export] Instance wait_entry_countable : Countable wait_entry.
Proof.
  refine (inj_countable' (fun l => match l with WaitHead q => inl q | WaitLink w => inr w end)
            (fun o => match o with inl q => WaitHead q | inr w => WaitLink w end) _).
  by intros [].
Defined.

#[export] Instance WaitLink_inj : Inj (=) (=) WaitLink.
Proof. by intros ?? [= ->]. Qed.

Record wait_t : Type := Wait { wproc : option Z; wakeup_flags : Z; wait_queue : option Z }.

Abbreviation wlinks := (gmap wait_entry (list_entry wait_entry)).

Record sync_state : Type := SyncState {
  skern : kernel;
  waits : gmap Z wait_t;
  wait_links : wlinks;
  sems : gmap Z Z
}.

Definition with_skern (s : sync_state) (k : kernel) : sync_state := SyncState k (waits s) (wait_links s) (sems s).
Definition with_wait_links (s : sync_state) (h : wlinks) : sync_state := SyncState (skern s) (waits s) h (sems s).

Definition upd_wait (s : sync_state) (w : Z) (f : wait_t -> wait_t) : res sync_state :=
  wt ← deref (waits s) w; Ok (SyncState (skern s) (<[w := f wt]> (waits s)) (wait_links s) (sems s)).
Definition upd_sem (s : sync_state) (sem : Z) (f : Z -> Z) : res sync_state :=
  v ← deref (sems s) sem; Ok (SyncState (skern s) (waits s) (wait_links s) (<[sem := f v]> (sems s))).

Definition le2wait (le : wait_entry) : res Z :=
  match le with WaitLink w => Ok w | WaitHead _ => Fault end.

(** * wait.c *)
Definition wait_init (s : sync_state) (wait : Z) (proc : option Z) : res sync_state :=
  s ← upd_wait s wait (fun wt => Wait proc (wakeup_flags wt) (wait_queue wt));
  s ← upd_wait s wait (fun wt => Wait (wproc wt) WT_INTERRUPTED (wait_queue wt));
  h ← list_init (wait_links s) (WaitLink wait);
  Ok (with_wait_links s h).

Definition wait_queue_init (s : sync_state) (queue : Z) : res sync_state :=
  h ← list_init (wait_links s) (WaitHead queue); Ok (with_wait_links s h).

Definition wait_queue_add (s : sync_state) (queue wait : Z) : res sync_state :=
  e ← list_empty (wait_links s) (WaitLink wait);
  wt ← deref (waits s) wait;
  _ ← c_assert (e && bool_decide (wproc wt <> None));
  s ← upd_wait s wait (fun wt => Wait (wproc wt) (wakeup_flags wt) (Some queue));
  h ← list_add_before (wait_links s) (WaitHead queue) (WaitLink wait);
  Ok (with_wait_links s h).

Definition wait_queue_del (s : sync_state) (queue wait : Z) : res sync_state :=
  e ← list_empty (wait_links s) (WaitLink wait);
  wt ← deref (waits s) wait;
  _ ← c_assert (negb e && bool_decide (wait_queue wt = Some queue));
  h ← list_del_init (wait_links s) (WaitLink wait);
  Ok (with_wait_links s h).

(** [le2wait(le, wait_link)] unless [le] is the head of the queue. *)
Definition entry_of (queue : Z) (le : wait_entry) : res (option Z) :=
  if decide (le = WaitHead queue) then Ok None else w ← le2wait le; Ok (Some w).

Definition wait_queue_next (s : sync_state) (queue wait : Z) : res (option Z) :=
  e ← list_empty (wait_links s) (WaitLink wait);
  wt ← deref (waits s) wait;
  _ ← c_assert (negb e && bool_decide (wait_queue wt = Some queue));
  le ← list_next (wait_links s) (WaitLink wait);
  entry_of queue le.

Definition wait_queue_prev (s : sync_state) (queue wait : Z) : res (option Z) :=
  e ← list_empty (wait_links s) (WaitLink wait);
  wt ← deref (waits s) wait;
  _ ← c_assert (negb e && bool_decide (wait_queue wt = Some queue));
  le ← list_prev (wait_links s) (WaitLink wait);
  entry_of queue le.

Definition wait_queue_first (s : sync_state) (queue : Z) : res (option Z) :=
  le ← list_next (wait_links s) (WaitHead queue); entry_of queue le.

Definition wait_queue_last (s : sync_state) (queue : Z) : res (option Z) :=
  le ← list_prev (wait_links s) (WaitHead queue); entry_of queue le.

Definition wait_queue_empty (s : sync_state) (queue : Z) : res bool := list_empty (wait_links s) (WaitHead queue).

Definition wait_in_queue (s : sync_state) (wait : Z) : res bool :=
  e ← list_empty (wait_links s) (WaitLink wait); Ok (negb e).

Definition wait_current_set (s : sync_state) (queue wait state : Z) : res sync_state :=
  let current := current (skern s) in
  _ ← c_assert (negb (current =? 0));
  s ← wait_init s wait (Some current);
  sc ← upd_proc (sched (skern s)) current (set_state PROC_SLEEPING);
  sc ← upd_proc sc current (set_wait_state state);
  wait_queue_add (with_skern s (with_sched (skern s) sc)) queue wait.

Definition wait_current_del (s : sync_state) (queue wait : Z) : res sync_state :=
  i ← wait_in_queue s wait; if (i : bool) then wait_queue_del s queue wait else Ok s.

Section code.
Context (c : sched_class).

Definition wakeup_wait (s : sync_state) (queue wait flags : Z) (del : bool) : res sync_state :=
  s ← (if del then wait_queue_del s queue wait else Ok s);
  s ← upd_wait s wait (fun wt => Wait (wproc wt) flags (wait_queue wt));
  wt ← deref (waits s) wait;
  proc ← match wproc wt with Some p => Ok p | None => Fault end;
  k ← wakeup_proc c (skern s) proc;
  Ok (with_skern s k).

Definition wakeup_first (s : sync_state) (queue flags : Z) (del : bool) : res sync_state :=
  w ← wait_queue_first s queue;
  match w with Some wait => wakeup_wait s queue wait flags del | None => Ok s end.

(** The two [do ... while] loops of [wakeup_queue]. *)
Definition wakeup_queue_step (queue flags : Z) (del : bool) (st : sync_state * Z)
    : res (sync_state * Z + sync_state) :=
  let '(s, wait) := st in
  s ← wakeup_wait s queue wait flags del;
  w ← (if del then wait_queue_first s queue else wait_queue_next s queue wait);
  match w with Some wait => Ok (inl (s, wait)) | None => Ok (inr s) end.

Definition wakeup_queue (s : sync_state) (queue flags : Z) (del : bool) : res sync_state :=
  w ← wait_queue_first s queue;
  match w with
  | Some wait => loop (wakeup_queue_step queue flags del) (S (size (wait_links s))) (s, wait)
  | None => Ok s
  end.

(** * sem.c *)
Definition sem_init (s : sync_state) (sem value : Z) : res sync_state :=
  s ← upd_sem s sem (fun _ => value);
  wait_queue_init s sem.

Definition __up (s : sync_state) (sem wstate : Z) : res sync_state :=
  w ← wait_queue_first s sem;
  match w with
  | None => upd_sem s sem (fun v => i32 (v + 1))
  | Some wait =>
      wt ← deref (waits s) wait;
      proc ← match wproc wt with Some p => Ok p | None => Fault end;
      pr ← deref (procs (sched (skern s))) proc;
      _ ← c_assert (wait_state pr =? wstate);
      wakeup_wait s sem wait wstate true
  end.

(** [Some flags]: [__down] returned.  [None]: the caller sleeps; it is [schedule]'s
    turn, and then [__down_finish]. *)
Definition __down_start (s : sync_state) (sem wait wstate : Z) : res (sync_state * option Z) :=
  v ← deref (sems s) sem;
  if 0 <? v then s ← upd_sem s sem (fun v => v - 1); Ok (s, Some 0)
  else
    s ← wait_current_set s sem wait wstate;
    k ← schedule c (skern s);
    Ok (with_skern s k, None).

Definition __down_finish (s : sync_state) (sem wait wstate : Z) : res (sync_state * Z) :=
  s ← wait_current_del s sem wait;
  wt ← deref (waits s) wait;
  Ok (s, if wakeup_flags wt =? wstate then 0 else wakeup_flags wt).

Definition up (s : sync_state) (sem : Z) : res sync_state := __up s sem WT_KSEM.

(** [down] of the current process: [true] when it returned without sleeping. *)
Definition down (s : sync_state) (sem : Z) : res (sync_state * bool) :=
  '(s, r) ← __down_start s sem (current (skern s)) WT_KSEM;
  match r with
  | Some flags => _ ← c_assert (flags =? 0); Ok (s, true)
  | None => Ok (s, false)
  end.

(** The rest of [down], when the process that slept is on the CPU again. *)
Definition down_resume (s : sync_state) (sem : Z) : res sync_state :=
  '(s, flags) ← __down_finish s sem (current (skern s)) WT_KSEM;
  _ ← c_assert (flags =? 0);
  Ok s.

Definition try_down (s : sync_state) (sem : Z) : res (sync_state * bool) :=
  v ← deref (sems s) sem;
  if 0 <? v then s ← upd_sem s sem (fun v => v - 1); Ok (s, true) else Ok (s, false).
End code.

(** * One semaphore and its users

    [inside] holds, for one semaphore [m], the processes that completed a [down]
    not yet matched by an [up]; [blocked] those that are inside [down] without
    having returned.  A step is one call (or part of a call) by the process on the
    CPU, or a scheduling decision. *)
Section semaphore.
Context `{SchedClass c} (m : Z).

Definition user_state : Type := (sync_state * list Z * list Z)%type.

Inductive sem_step : user_state -> user_state -> Prop :=
| StepDown s s' inside blocked :
    current (skern s) ∉ blocked -> current (skern s) <> idleproc (skern s) ->
    down c s m = Ok (s', true) ->
    sem_step (s, inside, blocked) (s', current (skern s) :: inside, blocked)
| StepSleep s s' inside blocked :
    current (skern s) ∉ blocked -> current (skern s) <> idleproc (skern s) ->
    down c s m = Ok (s', false) ->
    sem_step (s, inside, blocked) (s', inside, current (skern s) :: blocked)
| StepResume s s' inside b1 b2 :
    down_resume s m = Ok s' ->
    sem_step (s, inside, b1 ++ current (skern s) :: b2) (s', current (skern s) :: inside, b1 ++ b2)
| StepUp s s' i1 i2 blocked :
    current (skern s) ∉ blocked -> up c s m = Ok s' ->
    sem_step (s, i1 ++ current (skern s) :: i2, blocked) (s', i1 ++ i2, blocked)
| StepSchedule s k' inside blocked :
    schedule c (skern s) = Ok k' -> sem_step (s, inside, blocked) (with_skern s k', inside, blocked).

(** The state of the semaphore: value [v], queue [ws]. *)
Record sem_ok (v0 : Z) (s : sync_state) (inside blocked : list Z) (v : Z) (ws q : list Z) : Prop := SemOk {
  so_sched : sched_inv (skern s) q;
  so_cpu : runnable (skern s) (current (skern s)) \/ current (skern s) = idleproc (skern s);
  so_val : sems s !! m = Some v /\ 0 <= v;
  so_queue : listed (WaitHead m) WaitLink (wait_links s) ws (fun p => p ∈ blocked);
  so_entry : forall w, w ∈ ws -> exists f, waits s !! w = Some (Wait (Some w) f (Some m));
  so_granted : forall w, w ∈ blocked -> w ∉ ws -> exists wt, waits s !! w = Some wt /\ wakeup_flags wt = WT_KSEM;
  so_sleep : forall w, w ∈ ws -> state <$> procs (sched (skern s)) !! w = Some PROC_SLEEPING /\
    wait_state <$> procs (sched (skern s)) !! w = Some WT_KSEM;
  so_slots : forall p, is_Some (procs (sched (skern s)) !! p) ->
    p <> 0 /\ is_Some (waits s !! p) /\ is_Some (wait_links s !! WaitLink p);
  so_blocked : NoDup blocked /\ ws ⊆ blocked /\ idleproc (skern s) ∉ blocked;
  so_full : 0 < v -> ws = [];
  so_count : v + Z.of_nat (length inside) + Z.of_nat (length blocked) - Z.of_nat (length ws) = v0 /\ v0 < 2 ^ 31
}.

Definition sem_inv (v0 : Z) (st : user_state) : Prop :=
  let '(s, inside, blocked) := st in exists v ws q, sem_ok v0 s inside blocked v ws q.

Lemma WaitLink_head w : WaitLink w <> WaitHead m.
Proof. done. Qed.

Lemma upd_wait_ok s w f wt :
  waits s !! w = Some wt -> upd_wait s w f = Ok (SyncState (skern s) (<[w := f wt]> (waits s)) (wait_links s) (sems s)).
Proof. intros Hw. unfold upd_wait. by rewrite (deref_some _ _ _ Hw). Qed.

Lemma sleeping_not_current v0 s inside blocked v ws q :
  sem_ok v0 s inside blocked v ws q -> current (skern s) ∉ ws.
Proof.
  intros Hok Hin. destruct (so_sleep _ _ _ _ _ _ _ Hok _ Hin) as [Hs _].
  destruct (so_cpu _ _ _ _ _ _ _ Hok) as [(pr & Hpr & Hr)|Hi].
  - rewrite Hpr in Hs. injection Hs as Hs. congruence.
  - destruct (so_blocked _ _ _ _ _ _ _ Hok) as (_ & Hsub & Hid). apply Hid. rewrite <- Hi. by apply Hsub.
Qed.

(** The part of the invariant that the rest of the kernel can only preserve. *)
Lemma sem_ok_schedule v0 s inside blocked v ws q :
  sem_ok v0 s inside blocked v ws q ->
  exists k' q', schedule c (skern s) = Ok k' /\ sem_ok v0 (with_skern s k') inside blocked v ws q'.
Proof.
  intros [Hsi Hcpu Hv Hq Hen Hgr Hsl Hslot Hb Hfull Hcnt].
  destruct (schedule_run _ _ Hsi) as (k' & q' & Hk & Hsi' & Hid & Hview & Hrun).
  exists k', q'. split; [done|]. split; cbn [skern sems waits wait_links with_skern]; try done.
  - destruct Hrun as [?|[? _]]; auto.
  - intros w Hw. destruct (Hsl w Hw) as [H1 H2]. split.
    + by rewrite (view_field state (sched (skern s)) (sched k')).
    + by rewrite (view_field wait_state (sched (skern s)) (sched k')).
  - intros p Hp. apply Hslot. apply live_view. rewrite <- Hview. by apply live_view.
  - by rewrite Hid.
Qed.

Lemma sched_inv_upd_current k q pr pr' :
  sched_inv k q -> procs (sched k) !! current k = Some pr -> rq pr' = rq pr ->
  sched_inv (with_sched k (with_procs (sched k) (<[current k := pr']> (procs (sched k))))) q.
Proof.
  intros [Hq Hc Hi [Hoc Hoi] Hin Hall] Hp Hrq. split; cbn [with_sched sched current idleproc with_procs procs].
  - by apply (queue_upd (sched k) q (current k) pr (fun _ => pr')).
  - rewrite lookup_insert_eq. eauto.
  - rewrite lookup_insert_is_Some'. by right.
  - done.
  - intros p Hpq. destruct (Hin p Hpq) as (prp & Hprp & Hr). exists prp. cbn. rewrite lookup_insert_ne; [done|].
    by intros <-.
  - intros p (prp & Hprp & Hr). destruct (decide (p = current k)) as [|Hne]; [by left|]. apply Hall.
    exists prp. cbn in Hprp. by rewrite lookup_insert_ne in Hprp.
Qed.

(** What [wait_current_set] leaves behind, up to the scheduler. *)
Lemma wait_current_set_run s q ws (asleep : Z -> Prop) wstate :
  let cur := current (skern s) in
  sched_inv (skern s) q -> cur <> 0 -> is_Some (waits s !! cur) -> is_Some (wait_links s !! WaitLink cur) ->
  listed (WaitHead m) WaitLink (wait_links s) ws asleep -> ~ asleep cur -> cur ∉ ws ->
  exists h' pr, procs (sched (skern s)) !! cur = Some pr /\
    wait_current_set s m cur wstate =
      Ok (SyncState (with_sched (skern s) (with_procs (sched (skern s))
            (<[cur := set_wait_state wstate (set_state PROC_SLEEPING pr)]> (procs (sched (skern s))))))
          (<[cur := Wait (Some cur) WT_INTERRUPTED (Some m)]> (waits s)) h' (sems s)) /\
    listed (WaitHead m) WaitLink h' (ws ++ [cur]) (fun p => asleep p \/ p = cur) /\
    same_outside (wait_links s) h' (WaitHead m :: (WaitLink <$> ws ++ [cur])) /\
    (forall x, is_Some (wait_links s !! x) -> is_Some (h' !! x)).
Proof.
  intros cur Hsi H0 [wt Hwt] Hlk Hq Hcb Hcw. unfold wait_current_set. fold cur.
  rewrite (proj2 (Z.eqb_neq _ _) H0). cbn [negb c_assert mbind res_bind].
  unfold wait_init. rewrite (upd_wait_ok _ _ _ _ Hwt). cbn [mbind res_bind].
  erewrite upd_wait_ok by apply lookup_insert_eq. cbn [mbind res_bind skern waits wait_links sems wproc wakeup_flags wait_queue].
  rewrite insert_insert_eq. destruct (list_init_dll _ _ Hlk) as (h1 & -> & Hd1 & Ho1).
  cbn [mbind res_bind with_wait_links skern]. destruct (si_current _ _ Hsi) as [pr Hpr]. fold cur in Hpr.
  rewrite (upd_proc_ok _ _ _ _ Hpr). cbn [mbind res_bind].
  erewrite upd_proc_ok by (cbn; apply lookup_insert_eq). cbn [mbind res_bind with_procs procs]. rewrite insert_insert_eq.
  unfold wait_queue_add. cbn [with_skern with_wait_links skern sems wait_links waits]. rewrite (list_empty_dll _ _ _ Hd1). cbn [mbind res_bind].
  rewrite bool_decide_true by done.
  erewrite deref_some by apply lookup_insert_eq. cbn [mbind res_bind wproc andb]. rewrite bool_decide_true by done.
  cbn [c_assert mbind res_bind]. erewrite upd_wait_ok by (cbn; apply lookup_insert_eq).
  cbn [with_skern with_wait_links mbind res_bind skern waits wait_links sems wproc wakeup_flags wait_queue]. rewrite insert_insert_eq.
  assert (listed (WaitHead m) WaitLink h1 ws asleep) as Hq1.
  { split.
    - eapply dll_same_outside; [apply Hq|exact Ho1|]. intros x Hx ->%list_elem_of_singleton.
      apply elem_of_cons in Hx as [?|Hx]; [done|]. by apply list_elem_of_fmap in Hx as (y & [= <-] & Hy).
    - intros p Hp Hpn. eapply dll_same_outside; [by apply (ls_detached _ _ _ _ _ Hq)|exact Ho1|].
      intros x ->%list_elem_of_singleton [= ->]%list_elem_of_singleton. done. }
  destruct (listed_add _ _ WaitLink_head h1 ws asleep cur Hq1) as (h2 & -> & Hq2 & Ho2).
  { by eapply dll_live; [exact Hd1|left]. }
  { done. }
  cbn [mbind res_bind with_wait_links]. exists h2, pr. split; [done|]. split; [done|]. split; [|split].
  - split; [apply Hq2|]. intros p [Hp| ->] Hn; [by apply (ls_detached _ _ _ _ _ Hq2)|].
    exfalso. apply Hn, elem_of_app. right. by left.
  - intros x Hx. rewrite Ho2 by done. apply Ho1. intros ->%list_elem_of_singleton. apply Hx. right. apply list_elem_of_fmap_2, elem_of_app. right. by left.
  - intros x Hx. eapply same_outside_live; [exact (ls_dll _ _ _ _ _ Hq2)|exact Ho2|done|].
    destruct (decide (x = WaitLink cur)) as [->|Hne]; [by eapply dll_live; [exact Hd1|left]|].
    rewrite Ho1; [done|]. by rewrite list_elem_of_singleton.
Qed.

Lemma wakeup_wait_run s q w ws f flags asleep :
  sched_inv (skern s) q -> listed (WaitHead m) WaitLink (wait_links s) (w :: ws) asleep ->
  waits s !! w = Some (Wait (Some w) f (Some m)) -> state <$> procs (sched (skern s)) !! w = Some PROC_SLEEPING ->
  exists k' q' h, wakeup_wait c s m w flags true =
      Ok (SyncState k' (<[w := Wait (Some w) flags (Some m)]> (waits s)) h (sems s)) /\
    sched_inv k' q' /\ same_cpu (skern s) k' /\
    (forall x, x <> w -> procs (sched k') !! x = procs (sched (skern s)) !! x) /\ runnable k' w /\
    listed (WaitHead m) WaitLink h ws (fun p => asleep p \/ p = w) /\
    same_outside (wait_links s) h (WaitHead m :: (WaitLink <$> w :: ws)) /\
    (forall x, is_Some (wait_links s !! x) -> is_Some (h !! x)).
Proof.
  intros Hsi Hq Hw Hst.
  unfold wakeup_wait, wait_queue_del. rewrite (listed_in _ _ WaitLink_head _ _ _ w Hq) by by left.
  cbn [mbind res_bind]. rewrite (deref_some _ _ _ Hw).
  cbn [mbind res_bind wait_queue negb andb]. rewrite bool_decide_true by done. cbn [c_assert mbind res_bind].
  destruct (listed_del _ _ WaitLink_head _ [] w ws _ Hq) as (h & -> & Hq' & Hd & Ho).
  cbn [mbind res_bind app] in *. erewrite upd_wait_ok by exact Hw.
  cbn [with_wait_links skern waits wait_links sems mbind res_bind wproc wait_queue].
  erewrite deref_some by apply lookup_insert_eq. cbn [mbind res_bind wproc].
  destruct (procs (sched (skern s)) !! w) as [pr|] eqn:Hp; [|done].
  injection Hst as Hst. destruct (wakeup_proc_run _ _ w pr Hsi Hp) as (k' & q' & -> & Hsi' & Hcpu' & Hoth & pr' & Hp' & Hr & _);
    [by rewrite Hst|]. cbn [mbind res_bind with_skern].
  exists k', q', h. split_and!; try done; [by exists pr'| |].
  - split; [apply Hq'|]. intros p [Ha| ->] Hn; [by apply (ls_detached _ _ _ _ _ Hq')|exact Hd].
  - intros x Hx. destruct (decide (x = WaitLink w)) as [->|Hne]; [by eapply dll_live; [exact Hd|left]|].
    destruct (decide (x ∈ WaitHead m :: (WaitLink <$> ws))) as [Hin|Hout].
    + eapply dll_live; [apply Hq'|]. by apply elem_of_cons.
    + rewrite Ho; [done|]. rewrite fmap_cons. rewrite elem_of_cons in Hout. rewrite !elem_of_cons. tauto.
Qed.

(** From [s] to [s'] only the process [p] changes, for those who look at the semaphores. *)
Record moved (p : Z) (s s' : sync_state) : Prop := Moved {
  mv_idle : idleproc (skern s') = idleproc (skern s);
  mv_waits x : x <> p -> waits s' !! x = waits s !! x;
  mv_state x : x <> p -> state <$> procs (sched (skern s')) !! x = state <$> procs (sched (skern s)) !! x;
  mv_wait_state x : x <> p -> wait_state <$> procs (sched (skern s')) !! x = wait_state <$> procs (sched (skern s)) !! x;
  mv_live x : is_Some (procs (sched (skern s')) !! x) -> is_Some (procs (sched (skern s)) !! x);
  mv_entry x : is_Some (waits s !! x) -> is_Some (waits s' !! x);
  mv_links x : is_Some (wait_links s !! x) -> is_Some (wait_links s' !! x)
}.

Definition slots (s : sync_state) : Prop := forall p, is_Some (procs (sched (skern s)) !! p) ->
  p <> 0 /\ is_Some (waits s !! p) /\ is_Some (wait_links s !! WaitLink p).

Lemma slots_moved p s s' : moved p s s' -> slots s -> slots s'.
Proof.
  intros Hm Hs x Hx. destruct (Hs x (mv_live _ _ _ Hm x Hx)) as (? & ? & ?).
  split_and!; [done|by apply (mv_entry _ _ _ Hm)|by apply (mv_links _ _ _ Hm)].
Qed.

Lemma down_takes s v :
  sems s !! m = Some v -> 0 < v -> down c s m = Ok (SyncState (skern s) (waits s) (wait_links s) (<[m := v - 1]> (sems s)), true).
Proof.
  intros Hv Hpos. unfold down, __down_start. rewrite (deref_some _ _ _ Hv). cbn [mbind res_bind]. rewrite (proj2 (Z.ltb_lt _ _) Hpos).
  unfold upd_sem. by rewrite (deref_some _ _ _ Hv).
Qed.

(** [down] of a semaphore without units: the caller sleeps at the end of the queue. *)
Lemma down_waits s q v ws asleep :
  let cur := current (skern s) in
  sched_inv (skern s) q -> slots s -> sems s !! m = Some v -> ~ 0 < v ->
  listed (WaitHead m) WaitLink (wait_links s) ws asleep -> ~ asleep cur -> cur ∉ ws ->
  exists s' q', down c s m = Ok (s', false) /\ moved cur s s' /\ sched_inv (skern s') q' /\
    (runnable (skern s') (current (skern s')) \/ current (skern s') = idleproc (skern s')) /\
    waits s' !! cur = Some (Wait (Some cur) WT_INTERRUPTED (Some m)) /\
    state <$> procs (sched (skern s')) !! cur = Some PROC_SLEEPING /\ wait_state <$> procs (sched (skern s')) !! cur = Some WT_KSEM /\
    listed (WaitHead m) WaitLink (wait_links s') (ws ++ [cur]) (fun p => asleep p \/ p = cur) /\
    same_outside (wait_links s) (wait_links s') (WaitHead m :: (WaitLink <$> ws ++ [cur])) /\ sems s' = sems s.
Proof.
  intros cur Hsi Hslot Hv Hpos Hq Hcb Hcw. unfold down, __down_start. fold cur. rewrite (deref_some _ _ _ Hv). cbn [mbind res_bind].
  rewrite (proj2 (Z.ltb_nlt _ _) Hpos). destruct (Hslot cur (si_current _ _ Hsi)) as (H0 & Hwt & Hlk).
  destruct (wait_current_set_run s q ws asleep WT_KSEM Hsi H0 Hwt Hlk Hq Hcb Hcw) as (h' & pr & Hpr & Hset & Hq' & Hout & Hlive).
  fold cur in Hpr, Hq', Hset, Hout. rewrite Hset. cbn [mbind res_bind skern]. set (pr' := set_wait_state WT_KSEM (set_state PROC_SLEEPING pr)).
  pose proof (sched_inv_upd_current _ _ pr pr' Hsi Hpr eq_refl) as Hsi1. fold cur in Hsi1.
  match type of Hsi1 with sched_inv ?k _ => set (k1 := k) in * end.
  destruct (schedule_run _ _ Hsi1) as (k' & q' & -> & Hsi' & Hid' & Hview & Hrun). cbn [mbind res_bind].
  assert (forall x, x <> cur -> procs (sched k1) !! x = procs (sched (skern s)) !! x) as Hk1 by (intros x Hx; cbn; by apply lookup_insert_ne).
  assert (procs (sched k1) !! cur = Some pr') as Hk1c by (cbn; apply lookup_insert_eq).
  eexists _, q'. split; [done|]. cbn [skern sems waits wait_links with_skern]. split_and!; try done.
  - split; cbn [skern sems waits wait_links with_skern]; try done.
    + intros x Hx. by rewrite lookup_insert_ne.
    + intros x Hx. by rewrite (view_field state (sched k1) (sched k')), Hk1.
    + intros x Hx. by rewrite (view_field wait_state (sched k1) (sched k')), Hk1.
    + intros x Hx. destruct (decide (x = cur)) as [->|Hne]; [eauto|]. rewrite <- Hk1 by done. apply live_view. rewrite <- Hview. by apply live_view.
    + intros x Hx. rewrite lookup_insert_is_Some'. by right.
  - destruct Hrun as [?|[? _]]; auto.
  - apply lookup_insert_eq.
  - by rewrite (view_field state (sched k1) (sched k')), Hk1c.
  - by rewrite (view_field wait_state (sched k1) (sched k')), Hk1c.
Qed.

(** [up] of a semaphore with a queue wakes the first of it and leaves the value. *)
Lemma up_wakes s q w ws f asleep :
  sched_inv (skern s) q -> listed (WaitHead m) WaitLink (wait_links s) (w :: ws) asleep ->
  waits s !! w = Some (Wait (Some w) f (Some m)) ->
  state <$> procs (sched (skern s)) !! w = Some PROC_SLEEPING -> wait_state <$> procs (sched (skern s)) !! w = Some WT_KSEM ->
  exists s' q', up c s m = Ok s' /\ moved w s s' /\ sched_inv (skern s') q' /\ current (skern s') = current (skern s) /\ runnable (skern s') w /\
    waits s' !! w = Some (Wait (Some w) WT_KSEM (Some m)) /\ listed (WaitHead m) WaitLink (wait_links s') ws (fun p => asleep p \/ p = w) /\
    same_outside (wait_links s) (wait_links s') (WaitHead m :: (WaitLink <$> w :: ws)) /\ sems s' = sems s.
Proof.
  intros Hsi Hq Hw Hst Hws. unfold up, __up, wait_queue_first. rewrite (listed_first _ _ _ _ _ Hq). cbn [mbind res_bind].
  unfold entry_of. cbn [fmap list_fmap front]. rewrite decide_False by done. cbn [le2wait mbind res_bind].
  rewrite (deref_some _ _ _ Hw). cbn [mbind res_bind wproc]. apply fmap_Some in Hws as (pr & Hp & Hws).
  rewrite (deref_some _ _ _ Hp). cbn [mbind res_bind]. rewrite <- Hws, Z.eqb_refl. cbn [c_assert mbind res_bind].
  destruct (wakeup_wait_run s q w ws f WT_KSEM _ Hsi Hq Hw Hst) as (k' & q' & h & -> & Hsi' & [Hc1 Hc2] & Hoth & Hrun & Hq' & Hout & Hlive).
  eexists _, q'. split; [done|]. cbn [skern sems waits wait_links]. split_and!; try done; [|apply lookup_insert_eq].
  split; cbn [skern sems waits wait_links]; try done.
  - intros x Hx. by rewrite lookup_insert_ne.
  - intros x Hx. by rewrite Hoth.
  - intros x Hx. by rewrite Hoth.
  - intros x Hx. destruct (decide (x = w)) as [->|Hne]; [eauto|]. by rewrite <- Hoth.
  - intros x Hx. rewrite lookup_insert_is_Some'. by right.
Qed.

(** Otherwise it adds a unit. *)
Lemma up_adds s v asleep :
  listed (WaitHead m) WaitLink (wait_links s) [] asleep -> sems s !! m = Some v ->
  up c s m = Ok (SyncState (skern s) (waits s) (wait_links s) (<[m := i32 (v + 1)]> (sems s))).
Proof.
  intros Hq Hv. unfold up, __up, wait_queue_first. rewrite (listed_first _ _ _ _ _ Hq). cbn [mbind res_bind fmap list_fmap front].
  unfold entry_of. rewrite decide_True by done. cbn [mbind res_bind]. unfold upd_sem. by rewrite (deref_some _ _ _ Hv).
Qed.

Lemma down_run v0 s inside blocked v ws q :
  sem_ok v0 s inside blocked v ws q -> current (skern s) ∉ blocked -> current (skern s) <> idleproc (skern s) ->
  exists s' r, down c s m = Ok (s', r) /\
    if r : bool then sem_inv v0 (s', current (skern s) :: inside, blocked)
    else sem_inv v0 (s', inside, current (skern s) :: blocked).
Proof.
  intros Hok Hcb Hci. pose proof Hok as [Hsi Hcpu [Hv Hv0] Hq Hen Hgr Hsl Hslot (Hnd & Hsub & Hid) Hfull [Hcnt Hmax]].
  destruct (Z.ltb_spec 0 v) as [Hpos|Hz].
  - rewrite (down_takes s v Hv Hpos). eexists _, true. split; [done|].
    pose proof (Hfull Hpos) as ->. exists (v - 1), [], q.
    split; cbn [skern sems waits wait_links]; try done.
    + rewrite lookup_insert_eq. split; [done|lia].
    + cbn [length] in *. lia.
  - assert (v = 0) as -> by lia. assert (current (skern s) ∉ ws) as Hcws by (intros ?; by apply Hcb, Hsub).
    destruct (down_waits s q 0 ws (.∈ blocked) Hsi Hslot Hv ltac:(lia) Hq Hcb Hcws) as (s' & q' & Hd & Hm & Hsi' & Hcpu' & Hwc & Hsc & Hwsc & Hq' & _ & Hsems).
    set (cur := current (skern s)) in *. exists s', false. split; [done|]. exists 0, (ws ++ [cur]), q'.
    split; try done.
    + by rewrite Hsems.
    + eapply listed_mono; [|exact Hq']. intros p [->|Hp]%elem_of_cons; auto.
    + intros w [Hw| ->%list_elem_of_singleton]%elem_of_app; [|rewrite Hwc; eauto].
      rewrite (mv_waits _ _ _ Hm) by (by intros ->). by apply Hen.
    + intros w [->|Hw]%elem_of_cons Hn; [exfalso; apply Hn, elem_of_app; right; by left|].
      rewrite (mv_waits _ _ _ Hm) by (by intros ->). apply Hgr; [done|]. intros ?. apply Hn, elem_of_app. by left.
    + intros w [Hw| ->%list_elem_of_singleton]%elem_of_app; [|done].
      rewrite (mv_state _ _ _ Hm), (mv_wait_state _ _ _ Hm) by (by intros ->). by apply Hsl.
    + by eapply slots_moved.
    + rewrite (mv_idle _ _ _ Hm). split_and!.
      * by constructor.
      * intros x. rewrite elem_of_app, list_elem_of_singleton, elem_of_cons. intros [?|?]; auto.
      * rewrite not_elem_of_cons. auto.
    + rewrite length_app. cbn [length] in *. lia.
Qed.

(** The caller whose entry is off the queue returns. *)
Lemma down_returns s ws asleep wt :
  listed (WaitHead m) WaitLink (wait_links s) ws asleep -> asleep (current (skern s)) -> current (skern s) ∉ ws ->
  waits s !! current (skern s) = Some wt -> wakeup_flags wt = WT_KSEM -> down_resume s m = Ok s.
Proof.
  intros Hq Hin Hcw Hwt Hf. unfold down_resume, __down_finish, wait_current_del, wait_in_queue.
  rewrite (listed_empty _ _ WaitLink_head _ _ _ _ Hq Hin), bool_decide_true by done. cbn [mbind res_bind negb].
  rewrite (deref_some _ _ _ Hwt). cbn [mbind res_bind]. by rewrite Hf.
Qed.

Lemma down_resume_run v0 s inside b1 b2 :
  sem_inv v0 (s, inside, b1 ++ current (skern s) :: b2) ->
  down_resume s m = Ok s /\ sem_inv v0 (s, current (skern s) :: inside, b1 ++ b2).
Proof.
  intros (v & ws & q & Hok). pose proof (sleeping_not_current _ _ _ _ _ _ _ Hok) as Hcw.
  pose proof Hok as [Hsi Hcpu [Hv Hv0] Hq Hen Hgr Hsl Hslot (Hnd & Hsub & Hid) Hfull [Hcnt Hmax]].
  set (cur := current (skern s)) in *. assert (cur ∈ b1 ++ cur :: b2) as Hin by set_solver.
  destruct (Hgr cur Hin Hcw) as (wt & Hwt & Hf). split.
  - by apply (down_returns s ws (.∈ b1 ++ cur :: b2) wt).
  - exists v, ws, q. assert (forall x, x ∈ b1 ++ b2 -> x ∈ b1 ++ cur :: b2) as Hb.
    { intros x. rewrite !elem_of_app, elem_of_cons. tauto. }
    split; try done.
    + eapply listed_mono; [exact Hb|exact Hq].
    + intros w Hw Hn. apply Hgr; auto.
    + rewrite <- Permutation_middle in Hnd. apply NoDup_cons in Hnd as [Hnc Hnd]. split_and!; [done| |auto].
      intros x Hx. pose proof (Hsub x Hx) as Hxb. rewrite elem_of_app, elem_of_cons in Hxb.
      rewrite elem_of_app. destruct Hxb as [?|[->|?]]; [auto|done|auto].
    + rewrite !length_app in *. cbn [length] in *. lia.
Qed.

Lemma up_run v0 s i1 i2 blocked :
  sem_inv v0 (s, i1 ++ current (skern s) :: i2, blocked) ->
  exists s', up c s m = Ok s' /\ sem_inv v0 (s', i1 ++ i2, blocked).
Proof.
  intros (v & ws & q & Hok).
  pose proof Hok as [Hsi Hcpu [Hv Hv0] Hq Hen Hgr Hsl Hslot (Hnd & Hsub & Hid) Hfull [Hcnt Hmax]].
  destruct ws as [|w ws].
  - rewrite (up_adds s v _ Hq Hv). eexists. split; [done|]. exists (v + 1), [], q. rewrite length_app in Hcnt. cbn [length] in Hcnt.
    rewrite i32_small by lia.
    split; cbn [skern sems waits wait_links]; try done.
    + rewrite lookup_insert_eq. split; [done|lia].
    + rewrite length_app. cbn [length]. lia.
  - destruct (Hen w) as [f Hw]; [by left|]. destruct (Hsl w) as [Hst Hws]; [by left|].
    destruct (up_wakes s q w ws f _ Hsi Hq Hw Hst Hws) as (s' & q' & Hu & Hm & Hsi' & Hc & _ & Hww & Hq' & _ & Hsems).
    exists s'. split; [done|]. exists v, ws, q'.
    assert (w ∉ ws) as Hwn. { apply listed_nodup in Hq. by apply NoDup_cons in Hq as [? _]. }
    assert (current (skern s) <> w) as Hcw.
    { intros <-. eapply sleeping_not_current; [exact Hok|by left]. }
    split; try done.
    + rewrite Hc, (mv_idle _ _ _ Hm). destruct Hcpu as [Hr|?]; [left|by right]. apply runnable_states. unfold states. rewrite (mv_state _ _ _ Hm) by done. by apply runnable_states.
    + by rewrite Hsems.
    + eapply listed_mono; [|exact Hq']. by left.
    + intros x Hx. rewrite (mv_waits _ _ _ Hm) by (by intros ->). apply Hen. by right.
    + intros x Hx Hxn. destruct (decide (x = w)) as [->|Hne]; [rewrite Hww; eauto|].
      rewrite (mv_waits _ _ _ Hm) by done. apply Hgr; [done|]. rewrite elem_of_cons. tauto.
    + intros x Hx. rewrite (mv_state _ _ _ Hm), (mv_wait_state _ _ _ Hm) by (by intros ->). apply Hsl. by right.
    + by eapply slots_moved.
    + rewrite (mv_idle _ _ _ Hm). split_and!; [done| |done]. intros x Hx. apply Hsub. by right.
    + intros Hpos. by specialize (Hfull Hpos).
    + rewrite length_app in *. cbn [length] in *. lia.
Qed.

Lemma sem_step_inv v0 st st' : sem_inv v0 st -> sem_step st st' -> sem_inv v0 st'.
Proof.
  intros Hinv Hstep. destruct Hstep as [s s' inside blocked Hb Hi Hd|s s' inside blocked Hb Hi Hd|s s' inside b1 b2 Hd|
    s s' i1 i2 blocked Hb Hu|s k' inside blocked Hs].
  - destruct Hinv as (v & ws & q & Hok). destruct (down_run _ _ _ _ _ _ _ Hok Hb Hi) as (s2 & r & Hd2 & Hr).
    rewrite Hd in Hd2. by injection Hd2 as <- <-.
  - destruct Hinv as (v & ws & q & Hok). destruct (down_run _ _ _ _ _ _ _ Hok Hb Hi) as (s2 & r & Hd2 & Hr).
    rewrite Hd in Hd2. by injection Hd2 as <- <-.
  - destruct (down_resume_run _ _ _ _ _ Hinv) as [Hd2 Hinv']. rewrite Hd in Hd2. by injection Hd2 as ->.
  - destruct (up_run _ _ _ _ _ Hinv) as (s2 & Hu2 & Hinv'). rewrite Hu in Hu2. by injection Hu2 as <-.
  - destruct Hinv as (v & ws & q & Hok). destruct (sem_ok_schedule _ _ _ _ _ _ _ Hok) as (k2 & q' & Hk & Hok').
    rewrite Hs in Hk. injection Hk as <-. by exists v, ws, q'.
Qed.

Lemma sem_reach_inv v0 st st' : sem_inv v0 st -> rtc sem_step st st' -> sem_inv v0 st'.
Proof. intros Hi Hr. revert Hi. induction Hr; [done|]. eauto using sem_step_inv. Qed.
End semaphore.

(** * Properties *)

(** C16. Semaphores exclude.  From a state where semaphore [m] has value [v0] and
    nobody uses it, whatever sequence of [down] (with its sleep and wake-up),
    [up] and scheduling steps the processes take: at most [v0] processes are
    inside at a time, tokens are conserved (those in the value, those held, and
    those handed to a woken process that has not run yet), and no wake-up is lost:
    the value is zero whenever somebody sleeps on the queue. *)
Theorem semaphore_exclusion `{SchedClass c} m v0 s s' inside blocked :
  sem_inv (c := c) m v0 (s, [], []) -> rtc (sem_step (c := c) m) (s, [], []) (s', inside, blocked) ->
  Z.of_nat (length inside) <= v0 /\
  exists v ws, sems s' !! m = Some v /\ listed (WaitHead m) WaitLink (wait_links s') ws (fun p => p ∈ blocked) /\
    v + Z.of_nat (length inside) + (Z.of_nat (length blocked) - Z.of_nat (length ws)) = v0 /\
    (ws <> [] -> v = 0) /\
    (forall w, w ∈ blocked -> w ∉ ws -> current (skern s') = w -> exists s'', down_resume s' m = Ok s'').
Proof.
  intros Hi Hr. pose proof (sem_reach_inv m v0 _ _ Hi Hr) as Hinv. pose proof Hinv as (v & ws & q & Hok).
  pose proof Hok as [Hsi Hcpu [Hv Hv0] Hq Hen Hgr Hsl Hslot (Hnd & Hsub & Hid) Hfull [Hcnt Hmax]].
  assert (length ws <= length blocked)%nat as Hlen.
  { apply submseteq_length, NoDup_submseteq; [|done]. eapply listed_nodup, Hq. }
  split; [lia|]. exists v, ws. split_and!; [done|done|lia| |].
  - intros Hne. destruct (decide (0 < v)) as [Hp|]; [by specialize (Hfull Hp)|lia].
  - intros w Hw Hn Hcur. subst w. apply list_elem_of_split in Hw as (b1 & b2 & ->).
    exists s'. by apply (down_resume_run m v0 s' inside b1 b2).
Qed.

(** C29. No call on the semaphore goes wrong.  In every reachable state the process
    on the CPU can perform its next step without a failed assertion or a bad
    pointer: a process outside [down] can call [down], one inside can call [up],
    one that slept can finish its [down], and [schedule] returns. *)
Theorem semaphore_progress `{SchedClass c} m v0 s s' inside blocked :
  sem_inv (c := c) m v0 (s, [], []) -> rtc (sem_step (c := c) m) (s, [], []) (s', inside, blocked) ->
  (current (skern s') ∉ blocked -> current (skern s') <> idleproc (skern s') -> exists r, down c s' m = Ok r) /\
  (current (skern s') ∈ inside -> exists s'', up c s' m = Ok s'') /\
  (current (skern s') ∈ blocked -> down_resume s' m = Ok s') /\
  (exists k', schedule c (skern s') = Ok k').
Proof.
  intros Hi Hr. pose proof (sem_reach_inv m v0 _ _ Hi Hr) as Hinv. pose proof Hinv as (v & ws & q & Hok). split_and!.
  - intros Hb Hid. destruct (down_run _ _ _ _ _ _ _ _ Hok Hb Hid) as (s2 & r & Hd & _). eauto.
  - intros (i1 & i2 & ->)%list_elem_of_split. destruct (up_run _ _ _ _ _ _ Hinv) as (s2 & Hu & _). eauto.
  - intros (b1 & b2 & ->)%list_elem_of_split. by apply (down_resume_run m v0 s' inside b1 b2).
  - destruct (sem_ok_schedule _ _ _ _ _ _ _ _ Hok) as (k' & _ & Hk & _). eauto.
Qed.

(** ** A concrete mutex, semaphore 100, in the demonstration kernel *)
Definition sem_boot : sync_state :=
  SyncState demo
    (list_to_map ((fun p => (p, Wait None 0 None)) <$> [1; 2; 3; 4]))
    (list_to_map ((WaitHead 100, ListEntry (WaitHead 100) (WaitHead 100)) ::
       ((fun p => (WaitLink p, ListEntry (WaitLink p) (WaitLink p))) <$> [1; 2; 3; 4])))
    (<[100 := 1]> ∅).

Lemma demo_live p : is_Some (procs (sched demo) !! p) -> p = 1 \/ p = 2 \/ p = 3 \/ p = 4.
Proof.
  intros [pr Hp]. assert (p ∈ (map_to_list (procs (sched demo))).*1) as Hin.
  { apply list_elem_of_fmap. exists (p, pr). split; [done|]. by apply elem_of_map_to_list. }
  assert (Forall (fun x => x = 1 \/ x = 2 \/ x = 3 \/ x = 4) (map_to_list (procs (sched demo))).*1) as Hall.
  { vm_compute. repeat constructor; tauto. }
  rewrite Forall_forall in Hall. by apply Hall.
Qed.

Lemma sem_boot_inv : sem_inv (c := default_sched_class) 100 1 (sem_boot, [], []).
Proof.
  exists 1, [], [2; 3]. split; cbn [skern sems waits wait_links sem_boot]; try (by intros ? ?%elem_of_nil).
  - exact demo_inv.
  - by right.
  - split; [reflexivity|lia].
  - split; [|by intros p ?%elem_of_nil]. split; [apply NoDup_singleton|split; reflexivity].
  - intros p Hp. destruct (demo_live p Hp) as [->|[->|[->| ->]]]; (split; [done|split; eexists; reflexivity]).
  - split_and!; [constructor|done|apply not_elem_of_nil].
  - done.
  - done.
Qed.

(** Process 2 is scheduled and takes the mutex. *)
Lemma one_inside : exists s', rtc (sem_step (c := default_sched_class) 100) (sem_boot, [], []) (s', [2], []).
Proof.
  assert (exists k1, schedule default_sched_class demo = Ok k1 /\ current k1 = 2 /\ idleproc k1 = 1) as (k1 & H1 & Hc & Hi).
  { eexists. vm_compute. split_and!; reflexivity. }
  assert (exists s2, down default_sched_class (with_skern sem_boot k1) 100 = Ok (s2, true)) as (s2 & H2).
  { unfold down, __down_start. eexists. reflexivity. }
  exists s2. eapply rtc_l; [by apply (StepSchedule 100 sem_boot k1 [] [])|].
  eapply rtc_l; [|apply rtc_refl]. replace [2] with (current (skern (with_skern sem_boot k1)) :: []) by (cbn; by rewrite Hc).
  apply StepDown; [apply not_elem_of_nil|cbn; by rewrite Hc, Hi|exact H2].
Qed.

Lemma semaphore_exclusion_witness :
  exists s' inside, rtc (sem_step (c := default_sched_class) 100) (sem_boot, [], []) (s', inside, []) /\
    inside = [2] /\ Z.of_nat (length inside) <= 1.
Proof.
  destruct one_inside as [s' Hr]. exists s', [2]. split; [exact Hr|]. split; [reflexivity|].
  exact (proj1 (semaphore_exclusion 100 1 sem_boot s' [2] [] sem_boot_inv Hr)).
Defined.

Lemma semaphore_progress_witness :
  exists s' k', rtc (sem_step (c := default_sched_class) 100) (sem_boot, [], []) (s', [2], []) /\
    schedule default_sched_class (skern s') = Ok k'.
Proof.
  destruct one_inside as [s' Hr].
  destruct (semaphore_progress 100 1 sem_boot s' [2] [] sem_boot_inv Hr) as (_ & _ & _ & k' & Hk).
  exists s', k'. split; [exact Hr|exact Hk].
Defined.
