(* ===== verification/CString.v ===== *)
(** C strings and memory blocks (lab8/libs/string.c) and hash32 (lab8/libs/hash.c).

    Memory maps addresses to bytes ([char] is unsigned on RISC-V); reading or
    writing an address that is not mapped faults.  Loops that walk a string are
    bounded by the number of mapped bytes: each turn reads one more of them. *)
From S2P Require Import Prelude.

Abbreviation memory := (gmap Z Z).

Definition load (m : memory) (a : Z) : res Z := deref m a.
Definition store (m : memory) (a v : Z) : res memory := _ ← deref m a; Ok (<[a := v]> m).

(** * The code *)
Definition strlen_step (m : memory) (st : Z * Z) : res (Z * Z + Z) :=
  let '(s, cnt) := st in
  ch ← load m s;
  if ch =? 0 then Ok (inr cnt) else Ok (inl (s + 1, cnt + 1)).

Definition strlen (m : memory) (s : Z) : res Z := loop (strlen_step m) (S (size m)) (s, 0).

Definition strnlen_step (m : memory) (len : Z) (st : Z * Z) : res (Z * Z + Z) :=
  let '(s, cnt) := st in
  if cnt <? len then
    ch ← load m s;
    if ch =? 0 then Ok (inr cnt) else Ok (inl (s + 1, cnt + 1))
  else Ok (inr cnt).

Definition strnlen (m : memory) (s len : Z) : res Z := loop (strnlen_step m len) (S (size m)) (s, 0).

Definition strcpy_step (st : memory * Z * Z) : res (memory * Z * Z + memory) :=
  let '(m, p, src) := st in
  ch ← load m src;
  m ← store m p ch;
  if ch =? 0 then Ok (inr m) else Ok (inl (m, p + 1, src + 1)).

Definition strcpy (m : memory) (dst src : Z) : res (memory * Z) :=
  m ← loop strcpy_step (S (size m)) (m, dst, src); Ok (m, dst).

Fixpoint strncpy_loop (m : memory) (p src : Z) (len : nat) : res memory :=
  match len with
  | O => Ok m
  | S len' =>
      ch ← load m src;
      m ← store m p ch;
      strncpy_loop m (p + 1) (if ch =? 0 then src else src + 1) len'
  end.

Definition strncpy (m : memory) (dst src len : Z) : res (memory * Z) :=
  m ← strncpy_loop m dst src (Z.to_nat len); Ok (m, dst).

Definition strcat (m : memory) (dst src : Z) : res (memory * Z) :=
  n ← strlen m dst; strcpy m (dst + n) src.

Definition strcmp_step (m : memory) (st : Z * Z) : res (Z * Z + Z) :=
  let '(s1, s2) := st in
  c1 ← load m s1;
  if c1 =? 0 then c2 ← load m s2; Ok (inr (c1 - c2))
  else
    c2 ← load m s2;
    if c1 =? c2 then Ok (inl (s1 + 1, s2 + 1)) else Ok (inr (c1 - c2)).

Definition strcmp (m : memory) (s1 s2 : Z) : res Z := loop (strcmp_step m) (S (size m)) (s1, s2).

Definition strncmp_step (m : memory) (st : Z * Z * Z) : res (Z * Z * Z + Z) :=
  let '(s1, s2, n) := st in
  if 0 <? n then
    c1 ← load m s1;
    c2 ← load m s2;
    if negb (c1 =? 0) && (c1 =? c2) then Ok (inl (s1 + 1, s2 + 1, n - 1)) else Ok (inr (c1 - c2))
  else Ok (inr 0).

Definition strncmp (m : memory) (s1 s2 n : Z) : res Z := loop (strncmp_step m) (S (size m)) (s1, s2, n).

Definition strchr_step (m : memory) (c s : Z) : res (Z + option Z) :=
  ch ← load m s;
  if ch =? 0 then Ok (inr None) else if ch =? c then Ok (inr (Some s)) else Ok (inl (s + 1)).

Definition strchr (m : memory) (s c : Z) : res (option Z) := loop (strchr_step m c) (S (size m)) s.

Definition strfind_step (m : memory) (c s : Z) : res (Z + Z) :=
  ch ← load m s;
  if ch =? 0 then Ok (inr s) else if ch =? c then Ok (inr s) else Ok (inl (s + 1)).

Definition strfind (m : memory) (s c : Z) : res Z := loop (strfind_step m c) (S (size m)) s.

(** ['0'] is 48, ['a'] is 97, ['A'] is 65. *)
Definition digit (ch : Z) : option Z :=
  if (48 <=? ch) && (ch <=? 57) then Some (ch - 48)
  else if (97 <=? ch) && (ch <=? 122) then Some (ch - 97 + 10)
  else if (65 <=? ch) && (ch <=? 90) then Some (ch - 65 + 10)
  else None.

Definition strtol_digits (m : memory) (base : Z) (st : Z * Z) : res (Z * Z + Z * Z) :=
  let '(s, val) := st in
  ch ← load m s;
  match digit ch with
  | None => Ok (inr (s, val))
  | Some dig => if base <=? dig then Ok (inr (s, val)) else Ok (inl (s + 1, i64 (val * base + dig)))
  end.

Definition strtol_space (m : memory) (s : Z) : res (Z + Z) :=
  ch ← load m s; if (ch =? 32) || (ch =? 9) then Ok (inl (s + 1)) else Ok (inr s).

(** The value and [*endptr]. *)
Definition strtol (m : memory) (s base : Z) : res (Z * Z) :=
  s ← loop (strtol_space m) (S (size m)) s;
  ch ← load m s;
  let '(s, neg) := if ch =? 43 then (s + 1, false) else if ch =? 45 then (s + 1, true) else (s, false) in
  '(s, base) ←
    (if (base =? 0) || (base =? 16) then
       c0 ← load m s;
       if c0 =? 48 then
         c1 ← load m (s + 1);
         if c1 =? 120 then Ok (s + 2, 16)
         else if base =? 0 then Ok (s + 1, 8) else Ok (s, base)
       else if base =? 0 then Ok (s, 10) else Ok (s, base)
     else Ok (s, base));
  '(s, val) ← loop (strtol_digits m base) (S (size m)) (s, 0);
  Ok (if (neg : bool) then i64 (- val) else val, s).

Fixpoint memset_loop (m : memory) (p c : Z) (n : nat) : res memory :=
  match n with
  | O => Ok m
  | S n' => m ← store m p c; memset_loop m (p + 1) c n'
  end.

Definition memset (m : memory) (s c n : Z) : res (memory * Z) :=
  m ← memset_loop m s c (Z.to_nat n); Ok (m, s).

Fixpoint copy_up (m : memory) (d s : Z) (n : nat) : res memory :=
  match n with
  | O => Ok m
  | S n' => ch ← load m s; m ← store m d ch; copy_up m (d + 1) (s + 1) n'
  end.

Fixpoint copy_down (m : memory) (d s : Z) (n : nat) : res memory :=
  match n with
  | O => Ok m
  | S n' => ch ← load m (s - 1); m ← store m (d - 1) ch; copy_down m (d - 1) (s - 1) n'
  end.

Definition memmove (m : memory) (dst src n : Z) : res (memory * Z) :=
  m ← (if (src <? dst) && (dst <? src + n) then copy_down m (dst + n) (src + n) (Z.to_nat n)
       else copy_up m dst src (Z.to_nat n));
  Ok (m, dst).

Definition memcpy (m : memory) (dst src n : Z) : res (memory * Z) :=
  m ← copy_up m dst src (Z.to_nat n); Ok (m, dst).

Fixpoint memcmp_loop (m : memory) (s1 s2 : Z) (n : nat) : res Z :=
  match n with
  | O => Ok 0
  | S n' =>
      c1 ← load m s1;
      c2 ← load m s2;
      if negb (c1 =? c2) then Ok (c1 - c2) else memcmp_loop m (s1 + 1) (s2 + 1) n'
  end.

Definition memcmp (m : memory) (v1 v2 n : Z) : res Z := memcmp_loop m v1 v2 (Z.to_nat n).

Definition GOLDEN_RATIO_PRIME_32 : Z := 0x9e370001.

Definition hash32 (val bits : Z) : Z := Z.shiftr (u32 (u64 (val * GOLDEN_RATIO_PRIME_32))) (32 - bits).

(** * Blocks of bytes *)
Definition mapped (m : memory) (a n : Z) : Prop := forall i, a <= i < a + n -> is_Some (m !! i).

Lemma store_ok m a v : is_Some (m !! a) -> store m a v = Ok (<[a := v]> m).
Proof. intros [w Hw]. unfold store. by rewrite (deref_some _ _ _ Hw). Qed.

Lemma mapped_insert m a n p v : mapped m a n -> mapped (<[p := v]> m) a n.
Proof. intros Hm i Hi. rewrite lookup_insert_is_Some'. right. by apply Hm. Qed.

(** Splits the decisions of a pointwise equation on bytes. *)
Ltac bytes := repeat case_decide; try lia; try done; try (f_equal; lia).

Lemma memset_loop_run m p c k :
  mapped m p (Z.of_nat k) ->
  exists m', memset_loop m p c k = Ok m' /\
    forall i, m' !! i = if decide (p <= i < p + Z.of_nat k) then Some c else m !! i.
Proof.
  revert m p. induction k as [|k IH]; intros m p Hm; cbn [memset_loop].
  - exists m. split; [done|]. intros i. by rewrite decide_False by lia.
  - rewrite store_ok by (apply Hm; lia). cbn [mbind res_bind].
    destruct (IH (<[p := c]> m) (p + 1)) as (m' & -> & Hm').
    { apply mapped_insert. intros i Hi. apply Hm. lia. }
    exists m'. split; [done|]. intros i. rewrite Hm'. destruct (decide (i = p)) as [->|Hne].
    + rewrite lookup_insert_eq. bytes.
    + rewrite lookup_insert_ne by done. bytes.
Qed.

Lemma copy_up_run m d s k :
  mapped m d (Z.of_nat k) -> mapped m s (Z.of_nat k) -> d <= s \/ s + Z.of_nat k <= d ->
  exists m', copy_up m d s k = Ok m' /\
    forall i, m' !! i = if decide (d <= i < d + Z.of_nat k) then m !! (s + (i - d)) else m !! i.
Proof.
  revert m d s. induction k as [|k IH]; intros m d s Hd Hs Hov; cbn [copy_up].
  - exists m. split; [done|]. intros i. by rewrite decide_False by lia.
  - destruct (Hs s) as [ch Hch]; [lia|]. unfold load. rewrite (deref_some _ _ _ Hch). cbn [mbind res_bind].
    rewrite store_ok by (apply Hd; lia). cbn [mbind res_bind].
    destruct (IH (<[d := ch]> m) (d + 1) (s + 1)) as (m' & -> & Hm').
    { apply mapped_insert. intros i Hi. apply Hd. lia. }
    { apply mapped_insert. intros i Hi. apply Hs. lia. }
    { lia. }
    exists m'. split; [done|]. intros i. rewrite Hm'. destruct (decide (i = d)) as [->|Hne].
    + rewrite decide_False, decide_True, lookup_insert_eq by lia. rewrite <- Hch. f_equal. lia.
    + destruct (decide (d + 1 <= i < d + 1 + Z.of_nat k)).
      * rewrite lookup_insert_ne by lia. rewrite decide_True by lia. f_equal. lia.
      * rewrite lookup_insert_ne by done. by rewrite decide_False by lia.
Qed.

Lemma copy_down_run m d s k :
  mapped m (d - Z.of_nat k) (Z.of_nat k) -> mapped m (s - Z.of_nat k) (Z.of_nat k) -> s <= d \/ d <= s - Z.of_nat k ->
  exists m', copy_down m d s k = Ok m' /\
    forall i, m' !! i = if decide (d - Z.of_nat k <= i < d) then m !! (s + (i - d)) else m !! i.
Proof.
  revert m d s. induction k as [|k IH]; intros m d s Hd Hs Hov; cbn [copy_down].
  - exists m. split; [done|]. intros i. by rewrite decide_False by lia.
  - destruct (Hs (s - 1)) as [ch Hch]; [lia|]. unfold load. rewrite (deref_some _ _ _ Hch). cbn [mbind res_bind].
    rewrite store_ok by (apply Hd; lia). cbn [mbind res_bind].
    destruct (IH (<[d - 1 := ch]> m) (d - 1) (s - 1)) as (m' & -> & Hm').
    { apply mapped_insert. intros i Hi. apply Hd. lia. }
    { apply mapped_insert. intros i Hi. apply Hs. lia. }
    { lia. }
    exists m'. split; [done|]. intros i. rewrite Hm'. destruct (decide (i = d - 1)) as [->|Hne].
    + rewrite decide_False, decide_True, lookup_insert_eq by lia. rewrite <- Hch. f_equal. lia.
    + destruct (decide (d - 1 - Z.of_nat k <= i < d - 1)).
      * rewrite lookup_insert_ne by lia. rewrite decide_True by lia. f_equal. lia.
      * rewrite lookup_insert_ne by done. by rewrite decide_False by lia.
Qed.

(** * Strings *)

(** The bytes [l] are stored from address [a] on. *)
Fixpoint stored (m : memory) (a : Z) (l : list Z) : Prop :=
  match l with [] => True | x :: l' => m !! a = Some x /\ stored m (a + 1) l' end.

(** A C string: bytes without a terminator, then the terminator. *)
Definition cstr (m : memory) (a : Z) (l : list Z) : Prop :=
  Forall (fun x => x <> 0) l /\ stored m a (l ++ [0]).

Lemma stored_app m a l1 l2 :
  stored m a (l1 ++ l2) <-> stored m a l1 /\ stored m (a + Z.of_nat (length l1)) l2.
Proof.
  revert a. induction l1 as [|x l1 IH]; intros a; cbn [app stored length].
  - rewrite Z.add_0_r. tauto.
  - rewrite IH. replace (a + 1 + Z.of_nat (length l1)) with (a + Z.of_nat (S (length l1))) by lia. tauto.
Qed.

Lemma stored_lookup m a l :
  stored m a l <-> forall i x, l !! i = Some x -> m !! (a + Z.of_nat i) = Some x.
Proof.
  revert a. induction l as [|y l IH]; intros a; cbn [stored]; [done|]. rewrite IH. split.
  - intros [H1 H2] [|i] x; cbn; [intros [= <-]; by rewrite Z.add_0_r|].
    intros Hx%H2. rewrite <- Hx. f_equal. lia.
  - intros Hl. split; [specialize (Hl 0%nat y eq_refl); by rewrite Z.add_0_r in Hl|].
    intros i x Hx. rewrite <- (Hl (S i) x Hx). f_equal. lia.
Qed.

Lemma stored_size m a l : stored m a l -> (length l <= size m)%nat.
Proof.
  rewrite stored_lookup. intros Hl.
  assert (NoDup ((fun i => a + Z.of_nat i) <$> seq 0 (length l))) as Hnd.
  { apply NoDup_fmap; [intros i j; lia|apply NoDup_seq]. }
  pose proof (size_list_to_set (C := gset Z) _ Hnd) as Hs. rewrite length_fmap, length_seq in Hs.
  rewrite <- Hs, <- (size_dom (D := gset Z)). apply subseteq_size. intros x.
  rewrite elem_of_list_to_set, list_elem_of_fmap. intros (i & -> & Hi). apply elem_of_seq in Hi.
  destruct (lookup_lt_is_Some_2 l i) as [y Hy]; [lia|]. apply elem_of_dom. eauto.
Qed.

Lemma cstr_fuel m a l : cstr m a l -> (length l < size m)%nat.
Proof. intros [_ Hs%stored_size]. rewrite length_app in Hs. cbn in Hs. lia. Qed.

Lemma cstr_cons m a x l : cstr m a (x :: l) -> x <> 0 /\ m !! a = Some x /\ cstr m (a + 1) l.
Proof. intros [Hn Hs]. apply Forall_cons in Hn as [Hx Hn]. cbn in Hs. destruct Hs. by split_and!. Qed.

Lemma cstr_nil m a : cstr m a [] -> m !! a = Some 0.
Proof. intros [_ Hs]. cbn in Hs. tauto. Qed.

(** One turn of a loop over a string, in both cases. *)
Ltac at_nil H := rewrite loop_S; cbn [mbind res_bind]; unfold load; rewrite ?(deref_some _ _ _ (cstr_nil _ _ H)).

Lemma strlen_loop m a l n fuel :
  cstr m a l -> (length l < fuel)%nat -> loop (strlen_step m) fuel (a, n) = Ok (n + Z.of_nat (length l)).
Proof.
  revert a n fuel. induction l as [|x l IH]; intros a n fuel Hs Hf; (destruct fuel as [|fuel]; [cbn in Hf; lia|]);
    rewrite loop_S; cbn [strlen_step]; unfold load.
  - rewrite (deref_some _ _ _ (cstr_nil _ _ Hs)). cbn. f_equal. lia.
  - apply cstr_cons in Hs as (Hx & Ha & Hs). rewrite (deref_some _ _ _ Ha). cbn [mbind res_bind].
    rewrite (proj2 (Z.eqb_neq _ _) Hx), IH; [f_equal; cbn [length]; lia|done|cbn in Hf; lia].
Qed.

Lemma strlen_run m a l : cstr m a l -> strlen m a = Ok (Z.of_nat (length l)).
Proof. intros Hs. unfold strlen. rewrite (strlen_loop _ _ l); [done|done|]. pose proof (cstr_fuel _ _ _ Hs). lia. Qed.

Lemma strcpy_loop m p a l fuel :
  cstr m a l -> mapped m p (Z.of_nat (S (length l))) ->
  p + Z.of_nat (length l) < a \/ a + Z.of_nat (length l) < p -> (length l < fuel)%nat ->
  exists m', loop strcpy_step fuel (m, p, a) = Ok m' /\ stored m' p (l ++ [0]) /\
    forall i, ~ (p <= i <= p + Z.of_nat (length l)) -> m' !! i = m !! i.
Proof.
  revert m p a fuel. induction l as [|x l IH]; intros m p a fuel Hs Hp Hov Hf;
    (destruct fuel as [|fuel]; [cbn in Hf; lia|]); rewrite loop_S; cbn [strcpy_step]; unfold load.
  - rewrite (deref_some _ _ _ (cstr_nil _ _ Hs)). cbn [mbind res_bind].
    rewrite store_ok by (apply Hp; cbn; lia). cbn [mbind res_bind]. rewrite Z.eqb_refl.
    eexists. split; [done|]. cbn. split; [by rewrite lookup_insert_eq|].
    intros i Hi. rewrite lookup_insert_ne; [done|]. cbn in Hi. lia.
  - apply cstr_cons in Hs as (Hx & Ha & Hs). rewrite (deref_some _ _ _ Ha). cbn [mbind res_bind].
    rewrite store_ok by (apply Hp; lia). cbn [mbind res_bind]. rewrite (proj2 (Z.eqb_neq _ _) Hx).
    cbn [length] in *.
    destruct (IH (<[p := x]> m) (p + 1) (a + 1) fuel) as (m' & -> & Hst & Ho).
    + destruct Hs as [Hn Hs]. split; [done|]. rewrite stored_lookup in *. intros i y Hy.
      rewrite lookup_insert_ne; [by apply Hs|]. apply lookup_lt_Some in Hy. rewrite length_app in Hy. cbn in Hy. lia.
    + apply mapped_insert. intros i Hi. apply Hp. lia.
    + lia.
    + lia.
    + exists m'. split; [done|]. cbn. split; [split; [|done]|].
      * rewrite Ho by lia. apply lookup_insert_eq.
      * intros i Hi. rewrite Ho by lia. apply lookup_insert_ne. lia.
Qed.

(** Lexicographic order of byte strings, as the sign of a difference. *)
Fixpoint str_compare (l1 l2 : list Z) : Z :=
  match l1, l2 with
  | [], [] => 0
  | [], y :: _ => 0 - y
  | x :: _, [] => x - 0
  | x :: l1', y :: l2' => if x =? y then str_compare l1' l2' else x - y
  end.

Lemma strcmp_loop m a1 a2 l1 l2 fuel :
  cstr m a1 l1 -> cstr m a2 l2 -> (length l1 < fuel)%nat ->
  loop (strcmp_step m) fuel (a1, a2) = Ok (str_compare l1 l2).
Proof.
  revert a1 a2 l2 fuel. induction l1 as [|x l1 IH]; intros a1 a2 l2 fuel H1 H2 Hf;
    (destruct fuel as [|fuel]; [cbn in Hf; lia|]); rewrite loop_S; cbn [strcmp_step]; unfold load.
  - rewrite (deref_some _ _ _ (cstr_nil _ _ H1)). cbn [mbind res_bind]. rewrite Z.eqb_refl.
    destruct l2 as [|y l2]; [by rewrite (deref_some _ _ _ (cstr_nil _ _ H2))|].
    apply cstr_cons in H2 as (Hy & Ha2 & H2). by rewrite (deref_some _ _ _ Ha2).
  - apply cstr_cons in H1 as (Hx & Ha1 & H1). rewrite (deref_some _ _ _ Ha1). cbn [mbind res_bind].
    rewrite (proj2 (Z.eqb_neq _ _) Hx). destruct l2 as [|y l2].
    + rewrite (deref_some _ _ _ (cstr_nil _ _ H2)). cbn [mbind res_bind str_compare].
      by rewrite (proj2 (Z.eqb_neq _ _) Hx).
    + apply cstr_cons in H2 as (Hy & Ha2 & H2). rewrite (deref_some _ _ _ Ha2). cbn [mbind res_bind str_compare].
      destruct (x =? y); [|done]. apply IH; [done|done|cbn in Hf; lia].
Qed.

Lemma strcmp_run m a1 a2 l1 l2 : cstr m a1 l1 -> cstr m a2 l2 -> strcmp m a1 a2 = Ok (str_compare l1 l2).
Proof. intros H1 H2. unfold strcmp. apply strcmp_loop; [done..|]. pose proof (cstr_fuel _ _ _ H1). lia. Qed.

Lemma str_compare_eq l1 l2 :
  Forall (fun x => x <> 0) l1 -> Forall (fun x => x <> 0) l2 -> str_compare l1 l2 = 0 <-> l1 = l2.
Proof.
  revert l2. induction l1 as [|x l1 IH]; intros [|y l2]; cbn; [done| | |]; rewrite ?Forall_cons.
  - intros _ [Hy _]. split; [lia|done].
  - intros [Hx _] _. split; [lia|done].
  - intros [Hx H1] [Hy H2]. destruct (Z.eqb_spec x y) as [->|Hne].
    + rewrite IH by done. split; [by intros ->|by intros [= ->]].
    + split; [lia|]. by intros [= -> _].
Qed.

(** * Numbers *)
Definition digits_value (base : Z) (ds : list Z) (v : Z) : Z :=
  foldl (fun v ch => v * base + default 0 (digit ch)) v ds.

Definition all_digits (base : Z) (ds : list Z) : Prop := Forall (fun ch => exists d, digit ch = Some d /\ d < base) ds.

(** The number ends where no digit of the base follows. *)
Definition stops (base : Z) (l : list Z) : Prop :=
  match l with [] => True | ch :: _ => forall d, digit ch = Some d -> base <= d end.

Lemma digit_zero : digit 0 = None.
Proof. done. Qed.

Lemma i64_step v b d : i64 (i64 v * b + d) = i64 (v * b + d).
Proof.
  unfold i64. f_equal. set (w := v + 2 ^ 63).
  replace (((w mod 2 ^ 64 - 2 ^ 63) * b + d + 2 ^ 63)) with ((w mod 2 ^ 64) * b + (d + 2 ^ 63 - 2 ^ 63 * b)) by lia.
  replace (v * b + d + 2 ^ 63) with (w * b + (d + 2 ^ 63 - 2 ^ 63 * b)) by lia.
  by rewrite <- Zplus_mod_idemp_l, Zmult_mod_idemp_l, Zplus_mod_idemp_l.
Qed.

Lemma i64_neg v : i64 (- i64 v) = i64 (- v).
Proof. pose proof (i64_step v (-1) 0) as Hs. rewrite !Z.add_0_r in Hs. by replace (- v) with (v * -1) by lia; rewrite <- Hs; f_equal; lia. Qed.

Lemma strtol_digits_loop m base a ds rest v fuel :
  cstr m a (ds ++ rest) -> all_digits base ds -> stops base rest -> (length ds < fuel)%nat ->
  loop (strtol_digits m base) fuel (a, i64 v) = Ok (a + Z.of_nat (length ds), i64 (digits_value base ds v)).
Proof.
  revert a v fuel. induction ds as [|ch ds IH]; intros a v fuel Hs Hd Hst Hf; (destruct fuel as [|fuel]; [cbn in Hf; lia|]);
    rewrite loop_S; cbn [strtol_digits]; unfold load.
  - rewrite Z.add_0_r. cbn [app] in Hs. destruct rest as [|ch rest].
    + rewrite (deref_some _ _ _ (cstr_nil _ _ Hs)). cbn [mbind res_bind]. by rewrite digit_zero.
    + apply cstr_cons in Hs as (_ & Ha & _). rewrite (deref_some _ _ _ Ha). cbn [mbind res_bind].
      cbn in Hst. destruct (digit ch) as [d|]; [|done]. specialize (Hst d eq_refl).
      by rewrite (proj2 (Z.leb_le _ _) Hst).
  - cbn [app] in Hs. apply cstr_cons in Hs as (_ & Ha & Hs). rewrite (deref_some _ _ _ Ha). cbn [mbind res_bind].
    apply Forall_cons in Hd as [(d & Hch & Hdb) Hd]. rewrite Hch. rewrite (proj2 (Z.leb_gt _ _)) by lia.
    rewrite i64_step. rewrite IH; [|done|done|done|cbn in Hf; lia].
    unfold digits_value. cbn [foldl length]. rewrite Hch. cbn [default]. f_equal. f_equal. lia.
Qed.

Definition is_space (ch : Z) : Prop := ch = 32 \/ ch = 9.

Lemma strtol_space_loop m a sp l fuel :
  cstr m a (sp ++ l) -> Forall is_space sp -> match l with [] => True | ch :: _ => ~ is_space ch end ->
  (length sp < fuel)%nat -> loop (strtol_space m) fuel a = Ok (a + Z.of_nat (length sp)).
Proof.
  revert a fuel. induction sp as [|ch sp IH]; intros a fuel Hs Hsp Hl Hf; (destruct fuel as [|fuel]; [cbn in Hf; lia|]);
    rewrite loop_S; unfold strtol_space at 1, load.
  - rewrite Z.add_0_r. cbn [app] in Hs. destruct l as [|ch l].
    + by rewrite (deref_some _ _ _ (cstr_nil _ _ Hs)).
    + apply cstr_cons in Hs as (_ & Ha & _). rewrite (deref_some _ _ _ Ha). cbn [mbind res_bind].
      unfold is_space in Hl. by destruct (Z.eqb_spec ch 32), (Z.eqb_spec ch 9); cbn; try tauto.
  - cbn [app] in Hs. apply cstr_cons in Hs as (_ & Ha & Hs). rewrite (deref_some _ _ _ Ha). cbn [mbind res_bind].
    apply Forall_cons in Hsp as [Hch Hsp].
    assert ((ch =? 32) || (ch =? 9) = true) as -> by (destruct Hch as [->| ->]; done).
    rewrite IH; [f_equal; cbn [length]; lia|done|done|done|cbn in Hf; lia].
Qed.

(** The signs, and what they make of a number. *)
Inductive sign_of : list Z -> bool -> Prop :=
| sign_none : sign_of [] false
| sign_plus : sign_of [43] false
| sign_minus : sign_of [45] true.

(** The prefixes [strtol] recognises, and the base that results; the other
    prefixes (octal and decimal by base 0) are not covered. *)
Inductive radix (base : Z) : list Z -> Z -> Prop :=
| radix_given : base <> 0 -> base <> 16 -> radix base [] base
| radix_hex : base = 0 \/ base = 16 -> radix base [48; 120] 16.

(** * Properties *)

(** [memmove] copies, overlap or not: after the call the destination holds the
    bytes the source held before it, and every other byte is unchanged. *)
Theorem memmove_copies m dst src n :
  0 <= n -> mapped m dst n -> mapped m src n ->
  exists m', memmove m dst src n = Ok (m', dst) /\
    forall i, m' !! i = if decide (dst <= i < dst + n) then m !! (src + (i - dst)) else m !! i.
Proof.
  intros Hn Hd Hs. unfold memmove. assert (n = Z.of_nat (Z.to_nat n)) as Hz by lia.
  destruct ((src <? dst) && (dst <? src + n)) eqn:E.
  - apply andb_true_iff in E as [E1%Z.ltb_lt E2%Z.ltb_lt].
    destruct (copy_down_run m (dst + n) (src + n) (Z.to_nat n)) as (m' & -> & Hm').
    + intros i Hi. apply Hd. lia.
    + intros i Hi. apply Hs. lia.
    + lia.
    + exists m'. split; [done|]. intros i. rewrite Hm'.
      destruct (decide (dst <= i < dst + n)); [rewrite decide_True by lia; f_equal; lia|by rewrite decide_False by lia].
  - apply andb_false_iff in E. rewrite !Z.ltb_ge in E.
    destruct (copy_up_run m dst src (Z.to_nat n)) as (m' & -> & Hm'); [rewrite <- Hz; done|rewrite <- Hz; done|lia|].
    exists m'. split; [done|]. intros i. rewrite Hm', <- Hz. done.
Qed.

Definition bytes (a : Z) (l : list Z) : memory := map_seqZ a l.

Lemma memmove_copies_witness : exists m', memmove (bytes 10 [1; 2; 3; 4; 5]) 11 10 4 = Ok (m', 11) /\
  m' !! 11 = Some 1 /\ m' !! 14 = Some 4 /\ m' !! 10 = Some 1.
Proof.
  destruct (memmove_copies (bytes 10 [1; 2; 3; 4; 5]) 11 10 4) as (m' & H1 & H2).
  - lia.
  - intros i Hi. unfold bytes. apply lookup_map_seqZ_is_Some. cbn. lia.
  - intros i Hi. unfold bytes. apply lookup_map_seqZ_is_Some. cbn. lia.
  - exists m'. split; [exact H1|]. rewrite !H2. split; [|split]; reflexivity.
Defined.

(** [strcpy] of a C string to a mapped, disjoint destination makes the
    destination the same string ([strlen] and [strcmp] agree), returns the
    destination and writes nothing else. *)
Lemma strcpy_copies m dst src l :
  cstr m src l -> mapped m dst (Z.of_nat (length l) + 1) ->
  dst + Z.of_nat (length l) < src \/ src + Z.of_nat (length l) < dst ->
  exists m', strcpy m dst src = Ok (m', dst) /\ cstr m' dst l /\ strlen m' dst = Ok (Z.of_nat (length l)) /\
    strcmp m' dst src = Ok 0 /\
    forall i, ~ (dst <= i <= dst + Z.of_nat (length l)) -> m' !! i = m !! i.
Proof.
  intros Hs Hm Hov. unfold strcpy.
  destruct (strcpy_loop m dst src l (S (size m))) as (m' & -> & Hst & Ho); [done| |done| |].
  { intros i Hi. apply Hm. lia. }
  { pose proof (cstr_fuel _ _ _ Hs). lia. }
  cbn [mbind res_bind]. assert (cstr m' dst l) as Hd by (split; [apply Hs|done]).
  assert (cstr m' src l) as Hs'.
  { destruct Hs as [Hn Hs]. split; [done|]. rewrite stored_lookup in *. intros i y Hy.
    rewrite Ho; [by apply Hs|]. apply lookup_lt_Some in Hy. rewrite length_app in Hy. cbn in Hy. lia. }
  exists m'. split_and!; [done|done|by apply strlen_run| |done].
  rewrite (strcmp_run _ _ _ l l) by done. f_equal. by apply str_compare_eq; destruct Hs.
Qed.

(** [strcmp] compares: it returns 0 exactly on equal strings, and otherwise the
    difference of the first bytes that differ (the terminator counting as 0). *)
Lemma strcmp_compares m a1 a2 l1 l2 :
  cstr m a1 l1 -> cstr m a2 l2 ->
  exists r, strcmp m a1 a2 = Ok r /\ (r = 0 <-> l1 = l2) /\
    forall p x1 x2 t1 t2, l1 ++ [0] = p ++ x1 :: t1 -> l2 ++ [0] = p ++ x2 :: t2 -> x1 <> x2 -> r = x1 - x2.
Proof.
  intros H1 H2. exists (str_compare l1 l2). split; [by apply strcmp_run|].
  split; [apply str_compare_eq; [apply H1|apply H2]|].
  destruct H1 as [Hn1 _], H2 as [Hn2 _]. revert l1 l2 Hn1 Hn2.
  assert (forall p l1 l2 x1 x2 t1 t2, Forall (fun x => x <> 0) l1 -> Forall (fun x => x <> 0) l2 ->
    l1 ++ [0] = p ++ x1 :: t1 -> l2 ++ [0] = p ++ x2 :: t2 -> x1 <> x2 -> str_compare l1 l2 = x1 - x2) as Hgen.
  { induction p as [|y p IH]; intros l1 l2 x1 x2 t1 t2 Hn1 Hn2 He1 He2 Hne.
    - destruct l1 as [|z1 l1], l2 as [|z2 l2]; cbn in *; simplify_eq; try done.
      by rewrite (proj2 (Z.eqb_neq _ _) Hne).
    - destruct l1 as [|z1 l1], l2 as [|z2 l2]; cbn in He1, He2; simplify_eq.
      + destruct p; cbn in *; discriminate.
      + destruct p; cbn in *; discriminate.
      + destruct p; cbn in *; discriminate.
      + cbn. rewrite Z.eqb_refl. apply Forall_cons in Hn1 as [_ Hn1]. apply Forall_cons in Hn2 as [_ Hn2]. by eapply IH. }
  intros l1 l2 Hn1 Hn2 p x1 x2 t1 t2. by apply Hgen.
Qed.

(** [strtol] reads blanks, a sign, the prefix and the longest run of digits of
    the base: it returns their value with that sign (modulo 2^64, as the code does
    not detect overflow) and leaves [*endptr] at the first byte after them. *)
Lemma strtol_parses m a base sp sg neg pre b ds rest :
  cstr m a (sp ++ sg ++ pre ++ ds ++ rest) -> Forall is_space sp -> sign_of sg neg -> radix base pre b ->
  all_digits b ds -> ds <> [] -> stops b rest ->
  strtol m a base =
    Ok (i64 (if neg then - digits_value b ds 0 else digits_value b ds 0),
        a + Z.of_nat (length (sp ++ sg ++ pre ++ ds))).
Proof.
  intros Hs Hsp Hsg Hr Hd Hne Hst. pose proof (cstr_fuel _ _ _ Hs) as Hfuel. rewrite !length_app in Hfuel.
  destruct ds as [|ch ds]; [done|]. clear Hne.
  assert (exists d, digit ch = Some d) as [d0 Hd0] by (apply Forall_cons in Hd as [(d & ? & _) _]; eauto).
  assert (~ is_space ch /\ ch <> 43 /\ ch <> 45) as (Hch1 & Hch2 & Hch3).
  { unfold is_space. split_and!; [intros [->| ->]|intros ->|intros ->]; discriminate Hd0. }
  assert (exists ch' l', pre ++ (ch :: ds) ++ rest = ch' :: l' /\ ~ is_space ch' /\ ch' <> 43 /\ ch' <> 45)
    as (ch' & l' & Hpre & Hc1 & Hc2 & Hc3).
  { destruct Hr; cbn [app]; eexists _, _; (split; [reflexivity|]); [done|]. unfold is_space. lia. }
  unfold strtol. rewrite (strtol_space_loop m a sp (sg ++ pre ++ (ch :: ds) ++ rest)); [|done|done| |lia].
  2: { destruct Hsg; [rewrite app_nil_l, Hpre; done|cbn; unfold is_space; lia|cbn; unfold is_space; lia]. }
  cbn [mbind res_bind]. destruct Hs as [Hn Hs]. rewrite !Forall_app in Hn. destruct Hn as (_ & _ & Hnp & Hnd).
  rewrite <- app_assoc, stored_app in Hs. destruct Hs as [_ Hs]. set (a1 := a + Z.of_nat (length sp)) in *.
  rewrite <- app_assoc in Hs. rewrite stored_app in Hs. destruct Hs as [Hsgn Hs]. set (a2 := a1 + Z.of_nat (length sg)) in *.
  assert ((ch ← load m a1;
    Ok (if ch =? 43 then (a1 + 1, false) else if ch =? 45 then (a1 + 1, true) else (a1, false))) = Ok (a2, neg)) as Hsig.
  { unfold a2, load. destruct Hsg; cbn in Hsgn |- *.
    - rewrite Hpre in Hs. cbn in Hs. destruct Hs as [Hs _]. unfold a2 in Hs. cbn in Hs.
      rewrite Z.add_0_r in *. rewrite (deref_some _ _ _ Hs). cbn.
      by rewrite (proj2 (Z.eqb_neq _ _) Hc2), (proj2 (Z.eqb_neq _ _) Hc3).
    - destruct Hsgn as [Hsgn _]. by rewrite (deref_some _ _ _ Hsgn).
    - destruct Hsgn as [Hsgn _]. by rewrite (deref_some _ _ _ Hsgn). }
  apply res_bind_ok in Hsig as (c1 & Hc1' & Hsig). rewrite Hc1'. cbn [mbind res_bind]. injection Hsig as ->.
  rewrite <- app_assoc, stored_app in Hs. destruct Hs as [Hsp' Hs]. set (a3 := a2 + Z.of_nat (length pre)) in *.
  assert ((if (base =? 0) || (base =? 16) then
       c0 ← load m a2;
       if c0 =? 48 then
         c1 ← load m (a2 + 1);
         if c1 =? 120 then Ok (a2 + 2, 16)
         else if base =? 0 then Ok (a2 + 1, 8) else Ok (a2, base)
       else if base =? 0 then Ok (a2, 10) else Ok (a2, base)
     else Ok (a2, base)) = Ok (a3, b)) as ->.
  { unfold a3, load. destruct Hr as [H0 H16|Hb]; cbn [length] in *.
    - rewrite (proj2 (Z.eqb_neq _ _) H0), (proj2 (Z.eqb_neq _ _) H16). cbn. by rewrite Z.add_0_r.
    - cbn in Hsp'. destruct Hsp' as (H1 & H2 & _).
      assert ((base =? 0) || (base =? 16) = true) as -> by (destruct Hb as [->| ->]; done).
      rewrite (deref_some _ _ _ H1). cbn [mbind res_bind]. rewrite (deref_some _ _ _ H2). done. }
  cbn [mbind res_bind]. change 0 with (i64 0) at 1.
  rewrite (strtol_digits_loop m b a3 (ch :: ds) rest); [|split; [by rewrite Forall_app|done]|done|done|lia].
  cbn [mbind res_bind]. rewrite !length_app. f_equal. f_equal.
  - destruct neg; [apply i64_neg|done].
  - unfold a3, a2, a1. lia.
Qed.
