(* ===== verification/StateM.v ===== *)
(** The shape of the file-system code: a C function that works on a state, may stop
    the kernel, and returns 0 or a negative error code.

    [M S A] is such a function: [Panic], [Fault] and [Diverge] are those of
    Prelude; otherwise it hands back the state it leaves behind - also when it
    fails - with [inl e] for [return -e] and [inr a] for a return of 0 whose results
    (the C code's store-back pointers) are [a].  [x ← f; k] is therefore the
    [if ((ret = f(&x)) != 0) return ret;] of the sources, and [on_error] their
    [goto failed_cleanup]. *)
From S2P Require Import Prelude.

(** libs/error.h *)
Definition E_INVAL : Z := 3.
Definition E_NO_MEM : Z := 4.
Definition E_TOO_BIG : Z := 12.
Definition E_NO_DEV : Z := 13.
Definition E_NA_DEV : Z := 14.
Definition E_BUSY : Z := 15.
Definition E_NOENT : Z := 16.
Definition E_ISDIR : Z := 17.
Definition E_NOTDIR : Z := 18.
Definition E_UNIMP : Z := 20.
Definition E_MAX_OPEN : Z := 22.
Definition E_EXISTS : Z := 23.

Definition M (S A : Type) : Type := S -> res (S * (Z + A)).

#[export] Instance M_ret S : MRet (M S) := fun A a s => Ok (s, inr a).

#[export] Instance M_bind S : MBind (M S) := fun A B f m s =>
  '(s, r) ← m s; match r with inl e => Ok (s, inl e) | inr a => f a s end.

Section Operations.
Context {S : Type}.

Definition fail {A} (e : Z) : M S A := fun s => Ok (s, inl e).
Definition m_panic {A} : M S A := fun _ => Panic.
Definition gets {A} (f : S -> A) : M S A := fun s => Ok (s, inr (f s)).
Definition modify (f : S -> S) : M S unit := fun s => Ok (f s, inr tt).
Definition lift {A} (m : res A) : M S A := fun s => a ← m; Ok (s, inr a).
Definition assert (b : S -> bool) : M S unit := fun s => _ ← c_assert (b s); Ok (s, inr tt).

(** [m], and on an error the clean-up [h] before the same error is returned. *)
Definition on_error {A} (m : M S A) (h : M S unit) : M S A := fun s =>
  '(s, r) ← m s;
  match r with
  | inl e => '(s, _) ← h s; Ok (s, inl e)
  | inr a => Ok (s, inr a)
  end.

(** [m], whose return value is kept instead of being tested. *)
Definition attempt {A} (m : M S A) : M S (Z + A) := fun s => '(s, r) ← m s; Ok (s, inr r).

(** A C loop in [M]. *)
Fixpoint m_loop {A B} (body : A -> M S (A + B)) (fuel : nat) (a : A) : M S B :=
  match fuel with
  | O => fun _ => Diverge
  | Datatypes.S fuel' =>
      r ← body a; match r with inl a' => m_loop body fuel' a' | inr b => mret b end
  end.

End Operations.

(** A function on a part of the state. *)
Definition zoom {S T A} (get : S -> T) (set : T -> S -> S) (m : M T A) : M S A := fun s =>
  '(t, r) ← m (get s); Ok (set t s, r).

#[global] Arguments m_loop : simpl never.

Section Laws.
Context {S : Type}.

Lemma bind_ok {A B} (m : M S A) (f : A -> M S B) s s1 a :
  m s = Ok (s1, inr a) -> (m ≫= f) s = f a s1.
Proof. unfold mbind, M_bind. by intros ->. Qed.

Lemma bind_err {A B} (m : M S A) (f : A -> M S B) s s1 e :
  m s = Ok (s1, inl e) -> (m ≫= f) s = Ok (s1, inl e).
Proof. unfold mbind, M_bind. by intros ->. Qed.

Lemma bind_inv {A B} (m : M S A) (f : A -> M S B) s s2 r :
  (m ≫= f) s = Ok (s2, r) ->
  (exists s1 a, m s = Ok (s1, inr a) /\ f a s1 = Ok (s2, r)) \/
  (exists e, m s = Ok (s2, inl e) /\ r = inl e).
Proof.
  unfold mbind, M_bind. cbn. destruct (m s) as [[s1 [e|a]]| | |]; cbn; intros H; try discriminate; [right|left; eauto].
  injection H as <- <-. eauto.
Qed.

Lemma m_loop_S {A B} (body : A -> M S (A + B)) fuel a s :
  m_loop body (Datatypes.S fuel) a s =
    (body a ≫= fun r => match r with inl a' => m_loop body fuel a' | inr b => mret b end) s.
Proof. done. Qed.

Lemma m_loop_next {A B} (body : A -> M S (A + B)) fuel a s s1 a1 :
  body a s = Ok (s1, inr (inl a1)) -> m_loop body (Datatypes.S fuel) a s = m_loop body fuel a1 s1.
Proof. intros H. rewrite m_loop_S. exact (bind_ok _ _ _ _ _ H). Qed.

Lemma m_loop_exit {A B} (body : A -> M S (A + B)) fuel a s s1 b :
  body a s = Ok (s1, inr (inr b)) -> m_loop body (Datatypes.S fuel) a s = Ok (s1, inr b).
Proof. intros H. rewrite m_loop_S. exact (bind_ok _ _ _ _ _ H). Qed.

Lemma m_loop_err {A B} (body : A -> M S (A + B)) fuel a s s1 e :
  body a s = Ok (s1, inl e) -> m_loop body (Datatypes.S fuel) a s = Ok (s1, inl e).
Proof. intros H. rewrite m_loop_S. exact (bind_err _ _ _ _ _ H). Qed.

Lemma on_error_ok {A} (m : M S A) h s s1 a : m s = Ok (s1, inr a) -> on_error m h s = Ok (s1, inr a).
Proof. unfold on_error. by intros ->. Qed.

Lemma on_error_err {A} (m : M S A) h s s1 e s2 r :
  m s = Ok (s1, inl e) -> h s1 = Ok (s2, r) -> on_error m h s = Ok (s2, inl e).
Proof. unfold on_error. intros -> H. cbn. by rewrite H. Qed.

Lemma attempt_eq {A} (m : M S A) s s1 r : m s = Ok (s1, r) -> attempt m s = Ok (s1, inr r).
Proof. unfold attempt. by intros ->. Qed.

Lemma assert_ok (b : S -> bool) s : b s = true -> assert b s = Ok (s, inr tt).
Proof. unfold assert. by intros ->. Qed.

Lemma assert_true (b : bool) (s : S) : b = true -> assert (fun _ => b) s = Ok (s, inr tt).
Proof. by intros ->. Qed.

End Laws.

Lemma zoom_eq {S T A} (get : S -> T) (set : T -> S -> S) (m : M T A) s t r :
  m (get s) = Ok (t, r) -> zoom get set m s = Ok (set t s, r).
Proof. unfold zoom. by intros ->. Qed.

(** * Locks

    A semaphore used as a lock by the one process that runs an operation from start
    to end: [down] of kern/sync/sem.c takes a unit when there is one and would put
    the process to sleep for good when there is none, [up] gives the unit back.  The
    interleaved behaviour of the same functions is the subject of Sync. *)
Definition lock (v : Z) : res Z := if 0 <? v then Ok (v - 1) else Diverge.
Definition unlock (v : Z) : Z := v + 1.
