(* ===== verification/Layout.v ===== *)
(** The bytes of the on-disk structures (lab8/kern/fs/sfs/sfs.h): little-endian
    integers, arrays of 32-bit words, and the codecs of the superblock, the disk
    inode and the directory entry, each with its round trip. *)
From S2P Require Import Prelude.

(** * Little-endian integers *)
Fixpoint le_bytes (n : nat) (z : Z) : list Z :=
  match n with
  | O => []
  | S n' => z mod 256 :: le_bytes n' (z / 256)
  end.

Fixpoint le_value (l : list Z) : Z :=
  match l with
  | [] => 0
  | b :: l' => b + 256 * le_value l'
  end.

Definition is_byte (b : Z) : Prop := 0 <= b < 256.

(** [len] bytes at [off]. *)
Definition bytes_at (l : list Z) (off len : nat) : list Z := take len (drop off l).

Definition word_at (l : list Z) (off : nat) : Z := le_value (bytes_at l off 4).

Fixpoint words (n : nat) (l : list Z) : list Z :=
  match n with
  | O => []
  | S n' => le_value (take 4 l) :: words n' (drop 4 l)
  end.

Definition words_bytes (ws : list Z) : list Z := mjoin (le_bytes 4 <$> ws).

Lemma le_bytes_length n z : length (le_bytes n z) = n.
Proof. revert z. induction n as [|n IH]; intros z; cbn; [done|]. by rewrite IH. Qed.

Lemma le_bytes_byte n z : Forall is_byte (le_bytes n z).
Proof.
  revert z. induction n as [|n IH]; intros z; cbn; constructor; [|done].
  unfold is_byte. apply Z.mod_pos_bound. lia.
Qed.

Lemma le_bytes_value n z : 0 <= z < 256 ^ Z.of_nat n -> le_value (le_bytes n z) = z.
Proof.
  revert z. induction n as [|n IH]; intros z Hz; cbn [le_bytes le_value].
  - cbn in Hz. lia.
  - rewrite IH.
    + rewrite (Z.div_mod z 256) at 3; lia.
    + rewrite Nat2Z.inj_succ, Z.pow_succ_r in Hz by lia.
      split; [apply Z.div_pos; lia|]. apply Z.div_lt_upper_bound; lia.
Qed.

Lemma le_value_range l : Forall is_byte l -> 0 <= le_value l < 256 ^ Z.of_nat (length l).
Proof.
  induction 1 as [|b l Hb _ IH]; cbn [le_value length]; [cbn; lia|].
  rewrite Nat2Z.inj_succ, Z.pow_succ_r by lia. unfold is_byte in Hb. lia.
Qed.

Lemma le_value_bytes l : Forall is_byte l -> le_bytes (length l) (le_value l) = l.
Proof.
  induction 1 as [|b l Hb _ IH]; cbn [le_value length le_bytes]; [done|]. unfold is_byte in Hb.
  replace ((b + 256 * le_value l) mod 256) with b.
  2: { rewrite (Z.mul_comm 256), Z_mod_plus_full. by rewrite Z.mod_small. }
  replace ((b + 256 * le_value l) / 256) with (le_value l); [by rewrite IH|].
  rewrite (Z.mul_comm 256), Z.div_add by lia. by rewrite Z.div_small.
Qed.

Lemma words_length n l : length (words n l) = n.
Proof. revert l. induction n as [|n IH]; intros l; cbn; [done|]. by rewrite IH. Qed.

Lemma words_words_bytes ws rest :
  Forall (fun w => 0 <= w < 2 ^ 32) ws -> words (length ws) (words_bytes ws ++ rest) = ws.
Proof.
  induction 1 as [|w ws Hw _ IH]; cbn [length words]; [done|].
  unfold words_bytes. cbn [fmap list_fmap mjoin list_join]. fold (words_bytes ws).
  rewrite <- app_assoc, take_app_length', drop_app_length' by (by rewrite le_bytes_length).
  rewrite le_bytes_value by (cbn; lia). f_equal. exact IH.
Qed.

Lemma words_bytes_length ws : length (words_bytes ws) = (4 * length ws)%nat.
Proof.
  induction ws as [|w ws IH]; [done|]. change (words_bytes (w :: ws)) with (le_bytes 4 w ++ words_bytes ws).
  rewrite length_app, le_bytes_length, IH. cbn [length]. lia.
Qed.

(** The word [i] of an array of words. *)
Lemma words_lookup n l i : (i < n)%nat -> words n l !! i = Some (le_value (take 4 (drop (4 * i) l))).
Proof.
  revert l i. induction n as [|n IH]; intros l i Hi; [lia|]. destruct i as [|i]; cbn [words lookup list_lookup].
  - by rewrite Nat.mul_0_r, drop_0.
  - change (words n (drop 4 l) !! i = Some (le_value (take 4 (drop (4 * S i) l)))). rewrite IH by lia. rewrite drop_drop. do 4 f_equal. lia.
Qed.

#[global] Arguments le_bytes : simpl never.
#[global] Arguments words : simpl never.
#[global] Arguments words_bytes : simpl never.
#[global] Arguments word_at : simpl never.
#[global] Arguments bytes_at : simpl never.

(** * The on-disk structures of SFS *)
Definition SFS_MAGIC : Z := 0x2f8dbe2a.
Definition SFS_BLKSIZE : Z := 4096.
Definition SFS_NDIRECT : Z := 12.
Definition SFS_MAX_INFO_LEN : Z := 31.
Definition SFS_MAX_FNAME_LEN : Z := 255.
Definition SFS_MAX_FILE_SIZE : Z := 1024 * 1024 * 128.
Definition SFS_BLKN_SUPER : Z := 0.
Definition SFS_BLKN_ROOT : Z := 1.
Definition SFS_BLKN_FREEMAP : Z := 2.
Definition SFS_BLKBITS : Z := SFS_BLKSIZE * 8.
Definition SFS_BLK_NENTRY : Z := SFS_BLKSIZE / 4.
Definition SFS_TYPE_FILE : Z := 1.
Definition SFS_TYPE_DIR : Z := 2.
Definition SFS_TYPE_LINK : Z := 3.

Record sfs_super := mk_super {
  s_magic : Z;
  s_blocks : Z;
  unused_blocks : Z;
  s_info : list Z;
}.

Record sfs_disk_inode := mk_din {
  d_size : Z;
  d_type : Z;
  d_nlinks : Z;
  d_blocks : Z;
  direct : list Z;
  indirect : Z;
}.

Record sfs_disk_entry := mk_entry {
  e_ino : Z;
  e_name : list Z;
}.

Definition super_bytes (s : sfs_super) : list Z :=
  le_bytes 4 (s_magic s) ++ le_bytes 4 (s_blocks s) ++ le_bytes 4 (unused_blocks s) ++ s_info s.

Definition bytes_super (l : list Z) : sfs_super :=
  {| s_magic := word_at l 0; s_blocks := word_at l 4; unused_blocks := word_at l 8; s_info := bytes_at l 12 32 |}.

Definition din_bytes (d : sfs_disk_inode) : list Z :=
  le_bytes 4 (d_size d) ++ le_bytes 2 (d_type d) ++ le_bytes 2 (d_nlinks d) ++ le_bytes 4 (d_blocks d)
  ++ words_bytes (direct d) ++ le_bytes 4 (indirect d).

Definition bytes_din (l : list Z) : sfs_disk_inode :=
  {| d_size := word_at l 0; d_type := le_value (bytes_at l 4 2); d_nlinks := le_value (bytes_at l 6 2);
     d_blocks := word_at l 8; direct := words 12 (drop 12 l); indirect := word_at l 60 |}.

Definition entry_bytes (e : sfs_disk_entry) : list Z := le_bytes 4 (e_ino e) ++ e_name e.

Definition bytes_entry (l : list Z) : sfs_disk_entry :=
  {| e_ino := word_at l 0; e_name := bytes_at l 4 256 |}.

Definition word32 (z : Z) : Prop := 0 <= z < 2 ^ 32.
Definition word16 (z : Z) : Prop := 0 <= z < 2 ^ 16.

Definition din_ok (d : sfs_disk_inode) : Prop :=
  word32 (d_size d) /\ word16 (d_type d) /\ word16 (d_nlinks d) /\ word32 (d_blocks d) /\
  length (direct d) = 12%nat /\ Forall word32 (direct d) /\ word32 (indirect d).

Lemma bytes_at_app p f r : bytes_at (p ++ f ++ r) (length p) (length f) = f.
Proof. unfold bytes_at. by rewrite drop_app_length, take_app_length. Qed.

Lemma bytes_at_field p f r off len :
  length p = off -> length f = len -> bytes_at (p ++ f ++ r) off len = f.
Proof. intros <- <-. apply bytes_at_app. Qed.

Lemma word_at_field p z r off : length p = off -> word32 z -> word_at (p ++ le_bytes 4 z ++ r) off = z.
Proof.
  intros Hp Hz. unfold word_at. rewrite (bytes_at_field p); [|done|apply le_bytes_length].
  apply le_bytes_value. unfold word32 in Hz. cbn. lia.
Qed.

Lemma din_bytes_length d : length (direct d) = 12%nat -> length (din_bytes d) = 64%nat.
Proof. intros Hd. unfold din_bytes. rewrite !length_app, !le_bytes_length, words_bytes_length, Hd. done. Qed.

Lemma bytes_din_bytes d rest : din_ok d -> bytes_din (din_bytes d ++ rest) = d.
Proof.
  intros (Hs & Ht & Hn & Hb & Hl & Hd & Hi). destruct d as [sz ty nl bl dir ind]; cbn in *.
  unfold bytes_din, din_bytes; cbn. rewrite <- !app_assoc. f_equal.
  - by apply (word_at_field []).
  - rewrite (bytes_at_field (le_bytes 4 sz)); [|done..]. apply (le_bytes_value 2). exact Ht.
  - rewrite (app_assoc (le_bytes 4 sz)). rewrite (bytes_at_field (le_bytes 4 sz ++ le_bytes 2 ty)); [|done..].
    apply (le_bytes_value 2). exact Hn.
  - rewrite (app_assoc (le_bytes 2 ty)), (app_assoc (le_bytes 4 sz)). by rewrite word_at_field.
  - rewrite (app_assoc (le_bytes 2 nl)), (app_assoc (le_bytes 2 ty)), (app_assoc (le_bytes 4 sz)).
    rewrite drop_app_length' by done. rewrite <- Hl. by apply words_words_bytes.
  - rewrite (app_assoc (le_bytes 4 bl)), (app_assoc (le_bytes 2 nl)), (app_assoc (le_bytes 2 ty)), (app_assoc (le_bytes 4 sz)).
    apply word_at_field; [|done]. fold (words_bytes dir).
    rewrite !length_app, !le_bytes_length, words_bytes_length, Hl. done.
Qed.

Lemma le_bytes_field l off n :
  Forall is_byte l -> (off + n <= length l)%nat -> le_bytes n (le_value (bytes_at l off n)) ++ drop (off + n) l = drop off l.
Proof.
  intros Hl Hn. unfold bytes_at. assert (length (take n (drop off l)) = n) as Hlen by (rewrite length_take, length_drop; lia).
  rewrite <- Hlen at 1. rewrite le_value_bytes by (by apply Forall_take, Forall_drop). rewrite <- drop_drop. apply take_drop.
Qed.

Lemma words_bytes_words n l : Forall is_byte l -> (4 * n <= length l)%nat -> words_bytes (words n l) ++ drop (4 * n) l = l.
Proof.
  revert l. induction n as [|n IH]; intros l Hl Hn; [by rewrite drop_0|].
  change (words_bytes (words (S n) l)) with (le_bytes 4 (le_value (take 4 l)) ++ words_bytes (words n (drop 4 l))).
  rewrite <- app_assoc. replace (4 * S n)%nat with (4 + 4 * n)%nat by lia. rewrite <- drop_drop.
  rewrite IH; [|by apply Forall_drop|rewrite length_drop; lia]. pose proof (le_bytes_field l 0 4 Hl ltac:(lia)) as H. by rewrite drop_0 in H.
Qed.

(** The on-disk format of inodes loses nothing, in either direction: an inode
    whose fields fit their widths is what is read back from its 64 bytes, whatever
    follows them in the block; and any 64 bytes are what is written for the inode
    read from them. *)
Theorem din_roundtrip :
  (forall d rest, din_ok d -> bytes_din (din_bytes d ++ rest) = d) /\
  (forall l, length l = 64%nat -> Forall is_byte l -> din_ok (bytes_din l) /\ din_bytes (bytes_din l) = l).
Proof.
  split; [exact bytes_din_bytes|]. intros l Hlen Hl. split.
  - assert (forall off n, (off + n <= 64)%nat -> 0 <= le_value (bytes_at l off n) < 256 ^ Z.of_nat n) as Hr.
    { intros off n Hn. pose proof (le_value_range (bytes_at l off n)) as H. replace (length (bytes_at l off n)) with n in H.
      - apply H. by apply Forall_take, Forall_drop.
      - unfold bytes_at. rewrite length_take, length_drop. lia. }
    unfold din_ok, word32, word16, bytes_din; cbn. unfold word_at.
    split; [apply (Hr 0%nat 4%nat); lia|]. split; [apply (Hr 4%nat 2%nat); lia|]. split; [apply (Hr 6%nat 2%nat); lia|]. split; [apply (Hr 8%nat 4%nat); lia|].
    split; [apply words_length|]. split; [|apply (Hr 60%nat 4%nat); lia].
    apply Forall_forall. intros w (i & Hi)%list_elem_of_lookup. pose proof (lookup_lt_Some _ _ _ Hi) as Hlt. rewrite words_length in Hlt.
    rewrite words_lookup in Hi by done. injection Hi as <-. rewrite drop_drop. apply (Hr (12 + 4 * i)%nat 4%nat). lia.
  - unfold din_bytes, bytes_din; cbn.
    pose proof (le_bytes_field l 0 4 Hl ltac:(lia)) as F0. pose proof (le_bytes_field l 4 2 Hl ltac:(lia)) as F4.
    pose proof (le_bytes_field l 6 2 Hl ltac:(lia)) as F6. pose proof (le_bytes_field l 8 4 Hl ltac:(lia)) as F8.
    pose proof (le_bytes_field l 60 4 Hl ltac:(lia)) as F60. pose proof (words_bytes_words 12 (drop 12 l) (Forall_drop _ _ _ Hl) ltac:(rewrite length_drop; lia)) as F12.
    cbn in F0, F4, F6, F8, F60. rewrite drop_drop in F12. change (12 + 4 * 12)%nat with 60%nat in F12.
    assert (E64 : drop 64 l = []) by (apply drop_ge; lia). rewrite E64, app_nil_r in F60. unfold word_at.
    rewrite F60, F12, F8, F6, F4, F0. apply drop_0.
Qed.

Lemma din_roundtrip_witness :
  bytes_din (din_bytes (mk_din 5000 1 1 2 ([7; 9] ++ replicate 10 0) 0) ++ replicate 100 0) = mk_din 5000 1 1 2 ([7; 9] ++ replicate 10 0) 0 /\
  din_bytes (bytes_din (replicate 64 171)) = replicate 64 171.
Proof.
  destruct din_roundtrip as [H1 H2]. split.
  - apply (H1 (mk_din 5000 1 1 2 ([7; 9] ++ replicate 10 0) 0)). unfold din_ok, word32, word16. cbn.
    split_and!; try lia; try done. repeat constructor; unfold word32; lia.
  - apply H2; [apply length_replicate|]. apply Forall_replicate. unfold is_byte. lia.
Defined.
