(* ===== verification/Bitmap.v ===== *)
(** The free-block bitmap of SFS: lab8/kern/fs/sfs/bitmap.c.

    A set bit marks a free block.  The C code's [map] is the list of its 32-bit
    words.  The two allocations of [bitmap_create] are arguments, as the outcome of
    [kmalloc] is. *)
From S2P Require Import Prelude Layout.

Definition WORD_BITS : Z := 32.

Record bitmap := mk_bitmap {
  nbits : Z;
  nwords : Z;
  bm_map : list Z;
}.

(** The loop that clears the bits from [overbits] to the end of a word. *)
Fixpoint mark_leftover (w overbits : Z) (n : nat) : Z :=
  match n with
  | O => w
  | S n' =>
      if overbits <? WORD_BITS then mark_leftover (Z.lxor w (Z.shiftl 1 overbits)) (overbits + 1) n' else w
  end.

Definition bitmap_create (ok_bitmap ok_map : bool) (nbits : Z) : res (option bitmap) :=
  _ ← c_assert (negb (nbits =? 0) && (nbits <? u64 (nbits + WORD_BITS)));
  if negb ok_bitmap then Ok None
  else
    let nwords := u32 (u64 (nbits + WORD_BITS - 1) / WORD_BITS) in
    if negb ok_map then Ok None
    else
      let map := replicate (Z.to_nat nwords) (2 ^ 32 - 1) in
      if negb (nbits =? u64 (nwords * WORD_BITS)) then
        let ix := u32 (nwords - 1) in
        let overbits := u32 (nbits - ix * WORD_BITS) in
        _ ← c_assert (nbits / WORD_BITS =? ix);
        _ ← c_assert ((0 <? overbits) && (overbits <? WORD_BITS));
        w ← (match map !! Z.to_nat ix with Some w => Ok w | None => Fault end);
        Ok (Some (mk_bitmap nbits nwords (<[Z.to_nat ix := mark_leftover w overbits 32]> map)))
      else Ok (Some (mk_bitmap nbits nwords map)).

(** The inner loop of [bitmap_alloc]: the first set bit of a word. *)
Fixpoint alloc_offset (w offset : Z) (n : nat) : option Z :=
  match n with
  | O => None
  | S n' => if Z.testbit w offset then Some offset else alloc_offset w (offset + 1) n'
  end.

(** The outer loop, from word [ix] on: the words afterwards and the index. *)
Fixpoint alloc_words (ws : list Z) (ix : Z) : res (option (list Z * Z)) :=
  match ws with
  | [] => Ok None
  | w :: ws' =>
      if negb (w =? 0) then
        match alloc_offset w 0 32 with
        | Some offset => Ok (Some (Z.lxor w (Z.shiftl 1 offset) :: ws', ix * WORD_BITS + offset))
        | None => Panic
        end
      else
        r ← alloc_words ws' (ix + 1);
        Ok (match r with Some (ws'', i) => Some (w :: ws'', i) | None => None end)
  end.

(** [None] is [-E_NO_MEM]. *)
Definition bitmap_alloc (b : bitmap) : res (option (bitmap * Z)) :=
  r ← alloc_words (take (Z.to_nat (nwords b)) (bm_map b)) 0;
  Ok (match r with
      | Some (ws, i) => Some (mk_bitmap (nbits b) (nwords b) (ws ++ drop (Z.to_nat (nwords b)) (bm_map b)), i)
      | None => None
      end).

(** The word's index and the mask. *)
Definition bitmap_translate (b : bitmap) (index : Z) : res (nat * Z) :=
  _ ← c_assert (index <? nbits b);
  Ok (Z.to_nat (index / WORD_BITS), Z.shiftl 1 (index mod WORD_BITS)).

Definition word (b : bitmap) (ix : nat) : res Z :=
  match bm_map b !! ix with Some w => Ok w | None => Fault end.

Definition bitmap_test (b : bitmap) (index : Z) : res bool :=
  '(ix, mask) ← bitmap_translate b index;
  w ← word b ix;
  Ok (negb (Z.land w mask =? 0)).

Definition bitmap_free (b : bitmap) (index : Z) : res bitmap :=
  '(ix, mask) ← bitmap_translate b index;
  w ← word b ix;
  _ ← c_assert (Z.land w mask =? 0);
  Ok (mk_bitmap (nbits b) (nwords b) (<[ix := Z.lor w mask]> (bm_map b))).

(** The bytes of the map and their number. *)
Definition bitmap_getdata (b : bitmap) : list Z * Z := (words_bytes (bm_map b), u64 (4 * nwords b)).

(** * What a bitmap represents *)

(** The bit [i]: is the block free? *)
Definition bit (b : bitmap) (i : Z) : bool :=
  match bm_map b !! Z.to_nat (i / WORD_BITS) with
  | Some w => Z.testbit w (i mod WORD_BITS)
  | None => false
  end.

Definition bitmap_wf (b : bitmap) : Prop :=
  0 < nbits b /\ nbits b <= nwords b * WORD_BITS /\ nwords b <= 2 ^ 26 /\
  length (bm_map b) = Z.to_nat (nwords b) /\ Forall word32 (bm_map b) /\
  forall i, 0 <= i -> bit b i = true -> i < nbits b.

(** The number of free blocks. *)
Definition free_bits (b : bitmap) : nat := length (filter (fun i => bit b i = true) (seqZ 0 (nbits b))).

Lemma testbit_zero_word w : word32 w -> (forall k, 0 <= k < 32 -> Z.testbit w k = false) -> w = 0.
Proof.
  intros Hw Hk. apply Z.bits_inj'. intros n Hn. rewrite Z.bits_0.
  destruct (decide (n < 32)) as [Hlt|Hge]; [by apply Hk|].
  destruct (decide (w = 0)) as [->|]; [by rewrite Z.bits_0|]. unfold word32 in Hw.
  apply Z.bits_above_log2; [lia|]. assert (Z.log2 w < 32) by (apply Z.log2_lt_pow2; lia). lia.
Qed.

Lemma land_mask w k : 0 <= k -> negb (Z.land w (Z.shiftl 1 k) =? 0) = Z.testbit w k.
Proof.
  intros Hk. assert (Hland : forall n, 0 <= n -> Z.testbit (Z.land w (Z.shiftl 1 k)) n = Z.testbit w n && (n =? k)).
  { intros n Hn. rewrite Z.land_spec, Z.shiftl_spec by done. f_equal.
    destruct (n =? k) eqn:E; [apply Z.eqb_eq in E as ->; by rewrite Z.sub_diag|].
    apply Z.eqb_neq in E. destruct (decide (n < k)); [by rewrite Z.testbit_neg_r by lia|].
    change 1 with (2 ^ 0). rewrite Z.pow2_bits_false by lia. done. }
  destruct (Z.testbit w k) eqn:E.
  - apply negb_true_iff, Z.eqb_neq. intros H0. specialize (Hland k Hk).
    rewrite H0, Z.bits_0, E, Z.eqb_refl in Hland. done.
  - apply negb_false_iff, Z.eqb_eq, Z.bits_inj'. intros n Hn. rewrite Hland, Z.bits_0 by done.
    destruct (n =? k) eqn:En; [apply Z.eqb_eq in En as ->; by rewrite E|by rewrite andb_false_r].
Qed.

Lemma mask_bit k n : 0 <= k -> 0 <= n -> Z.testbit (Z.shiftl 1 k) n = bool_decide (n = k).
Proof.
  intros Hk Hn. rewrite Z.shiftl_spec by done. case_bool_decide as E.
  - subst. by rewrite Z.sub_diag.
  - destruct (decide (n < k)); [by rewrite Z.testbit_neg_r by lia|]. change 1 with (2 ^ 0). by rewrite Z.pow2_bits_false by lia.
Qed.

Lemma word32_bits w : word32 w <-> 0 <= w /\ forall n, 32 <= n -> Z.testbit w n = false.
Proof.
  unfold word32. split.
  - intros Hw. split; [lia|]. intros n Hn. destruct (decide (w = 0)) as [->|]; [by rewrite Z.bits_0|].
    apply Z.bits_above_log2; [lia|]. assert (Z.log2 w < 32) by (apply Z.log2_lt_pow2; lia). lia.
  - intros [H0 Hb]. split; [done|]. destruct (decide (w = 0)) as [->|]; [lia|].
    apply Z.log2_lt_pow2; [lia|]. destruct (decide (Z.log2 w < 32)); [done|].
    pose proof (Z.bit_log2 w ltac:(lia)) as H. rewrite Hb in H by lia. done.
Qed.

Lemma word32_lxor w k : 0 <= k < 32 -> word32 w -> word32 (Z.lxor w (Z.shiftl 1 k)).
Proof.
  rewrite !word32_bits. intros Hk [H0 Hb]. split.
  - apply Z.lxor_nonneg. split; intros _; [apply Z.shiftl_nonneg; lia|done].
  - intros n Hn. rewrite Z.lxor_spec, Hb, mask_bit by lia. by rewrite bool_decide_eq_false_2 by lia.
Qed.

Lemma word32_lor w k : 0 <= k < 32 -> word32 w -> word32 (Z.lor w (Z.shiftl 1 k)).
Proof.
  rewrite !word32_bits. intros Hk [H0 Hb]. split.
  - apply Z.lor_nonneg. split; [done|apply Z.shiftl_nonneg; lia].
  - intros n Hn. rewrite Z.lor_spec, Hb, mask_bit by lia. by rewrite bool_decide_eq_false_2 by lia.
Qed.

(** * bitmap_alloc *)
Lemma alloc_offset_spec w o n :
  match alloc_offset w o n with
  | Some k => o <= k < o + Z.of_nat n /\ Z.testbit w k = true /\ forall j, o <= j < k -> Z.testbit w j = false
  | None => forall j, o <= j < o + Z.of_nat n -> Z.testbit w j = false
  end.
Proof.
  revert o. induction n as [|n IH]; intros o; cbn [alloc_offset]; [lia|].
  destruct (Z.testbit w o) eqn:E; [split_and!; [lia|lia|done|lia]|].
  specialize (IH (o + 1)). destruct (alloc_offset w (o + 1) n) as [k|].
  - destruct IH as (Hk & Ht & Hj). split_and!; [lia|lia|done|]. intros j Hj'.
    destruct (decide (j = o)) as [->|]; [done|]. apply Hj. lia.
  - intros j Hj. destruct (decide (j = o)) as [->|]; [done|]. apply IH. lia.
Qed.

Lemma alloc_words_spec ws ix :
  Forall word32 ws ->
  (alloc_words ws ix = Ok None /\ Forall (fun w => w = 0) ws) \/
  (exists p w q k, ws = p ++ w :: q /\ Forall (fun w => w = 0) p /\ 0 <= k < 32 /\
     Z.testbit w k = true /\ (forall j, 0 <= j < k -> Z.testbit w j = false) /\
     alloc_words ws ix = Ok (Some (p ++ Z.lxor w (Z.shiftl 1 k) :: q, (ix + Z.of_nat (length p)) * WORD_BITS + k))).
Proof.
  revert ix. induction ws as [|w ws IH]; intros ix Hws; cbn [alloc_words]; [by left|].
  apply Forall_cons in Hws as [Hw Hws]. destruct (w =? 0) eqn:E; cbn [negb].
  - apply Z.eqb_eq in E as ->. destruct (IH (ix + 1) Hws) as [[-> Hz]|(p & w & q & k & -> & Hp & Hk & Ht & Hj & ->)].
    + left. split; [done|]. by constructor.
    + right. exists (0 :: p), w, q, k. split_and!; try done; try lia; [by constructor|].
      cbn [mbind res_bind]. do 3 f_equal. cbn [length]. lia.
  - apply Z.eqb_neq in E. right. pose proof (alloc_offset_spec w 0 32) as Ho.
    destruct (alloc_offset w 0 32) as [k|].
    + destruct Ho as (Hk & Ht & Hj). exists [], w, ws, k. split_and!; try done; try lia. cbn. do 4 f_equal. lia.
    + destruct E. apply testbit_zero_word; [done|]. intros k Hk. apply Ho. lia.
Qed.

Lemma bit_zero_words b i : Forall (fun w => w = 0) (bm_map b) -> bit b i = false.
Proof.
  intros Hz. unfold bit. destruct (bm_map b !! _) as [w|] eqn:E; [|done].
  rewrite Forall_lookup in Hz. rewrite (Hz _ _ E). apply Z.bits_0.
Qed.

(** Two bitmaps that differ in the bit [i] only. *)
Lemma free_bits_flip b b' i :
  nbits b' = nbits b -> 0 <= i < nbits b -> bit b i = true -> bit b' i = false ->
  (forall j, 0 <= j -> j <> i -> bit b' j = bit b j) ->
  free_bits b = S (free_bits b').
Proof.
  intros Hn Hi Ht Hf Hj. unfold free_bits. rewrite Hn.
  assert (seqZ 0 (nbits b) = seqZ 0 i ++ i :: seqZ (i + 1) (nbits b - i - 1)) as Hseq.
  { replace (nbits b) with (i + (nbits b - i)) at 1 by lia. rewrite seqZ_app by lia. f_equal.
    rewrite seqZ_cons by lia. f_equal; try f_equal; lia. }
  assert (Hext : forall l, Forall (fun j => 0 <= j /\ j <> i) l ->
            filter (fun j => bit b j = true) l = filter (fun j => bit b' j = true) l).
  { induction 1 as [|x l [Hx Hxi] _ IH]; [done|]. rewrite !filter_cons, IH, (Hj x) by done. done. }
  rewrite Hseq, !filter_app, !filter_cons.
  rewrite decide_True by done. rewrite decide_False by (rewrite Hf; discriminate).
  rewrite !length_app. cbn [length]. rewrite !Hext; [lia| |].
  - apply Forall_forall. intros j Hj'. apply elem_of_seqZ in Hj'. lia.
  - apply Forall_forall. intros j Hj'. apply elem_of_seqZ in Hj'. lia.
Qed.

Lemma bit_insert b b' ix k w w' :
  bm_map b !! ix = Some w -> bm_map b' = <[ix := w']> (bm_map b) -> 0 <= k < 32 ->
  forall j, 0 <= j ->
  bit b' j = if decide (j / 32 = Z.of_nat ix) then Z.testbit w' (j mod 32) else bit b j.
Proof.
  intros Hw Hm Hk j Hj. unfold bit, WORD_BITS. rewrite Hm. apply lookup_lt_Some in Hw as Hlt.
  pose proof (Z.div_pos j 32 Hj ltac:(lia)) as Hd. case_decide as E.
  - rewrite E, Nat2Z.id. by rewrite list_lookup_insert_eq.
  - rewrite list_lookup_insert_ne by lia. done.
Qed.

Lemma split_insert {A} (p : list A) w q w' : p ++ w' :: q = <[length p := w']> (p ++ w :: q).
Proof. by rewrite <- (Nat.add_0_r (length p)), insert_app_r. Qed.

Lemma div_mod_decompose j ix k : 0 <= k < 32 -> (j / 32 = ix /\ j mod 32 = k) <-> j = ix * 32 + k.
Proof.
  intros Hk. split.
  - intros [<- <-]. rewrite (Z.div_mod j 32) at 1; lia.
  - intros ->. split; [rewrite Z.add_comm, Z.div_add by lia; rewrite Z.div_small; lia|].
    rewrite Z.add_comm, Z_mod_plus_full, Z.mod_small; lia.
Qed.

Lemma wf_word_lookup b ix w : bitmap_wf b -> bm_map b !! ix = Some w -> word32 w.
Proof. intros (_ & _ & _ & _ & Hw & _) H. rewrite Forall_lookup in Hw. by eapply Hw. Qed.

(** What changing one bit of one word does. *)
Lemma flip_word b ix w k w' b' v :
  bitmap_wf b -> bm_map b !! ix = Some w -> 0 <= k < 32 -> word32 w' ->
  (forall n, 0 <= n < 32 -> Z.testbit w' n = if decide (n = k) then v else Z.testbit w n) ->
  nbits b' = nbits b -> nwords b' = nwords b -> bm_map b' = <[ix := w']> (bm_map b) ->
  (v = true -> Z.of_nat ix * 32 + k < nbits b) ->
  bitmap_wf b' /\ bit b' (Z.of_nat ix * 32 + k) = v /\
  (forall j, 0 <= j -> j <> Z.of_nat ix * 32 + k -> bit b' j = bit b j).
Proof.
  intros Hwf Hw Hk Hw' Hbits Hn Hnw Hm Hv.
  assert (Hbit : forall j, 0 <= j -> bit b' j = if decide (j = Z.of_nat ix * 32 + k) then v else bit b j).
  { intros j Hj. rewrite (bit_insert b b' ix k w w') by done. pose proof (Z.mod_pos_bound j 32 ltac:(lia)) as Hmod.
    destruct (decide (j / 32 = Z.of_nat ix)) as [E|E].
    - rewrite Hbits by lia. assert (bit b j = Z.testbit w (j mod 32)) as Hbj.
      { unfold bit, WORD_BITS. by rewrite E, Nat2Z.id, Hw. }
      destruct (decide (j mod 32 = k)) as [E2|E2].
      + rewrite decide_True; [done|]. by apply div_mod_decompose.
      + rewrite decide_False; [done|]. intros E3. apply E2. by apply (proj2 (div_mod_decompose j (Z.of_nat ix) k Hk)).
    - rewrite decide_False; [done|]. intros E3. apply E. by apply (proj2 (div_mod_decompose j (Z.of_nat ix) k Hk)). }
  split_and!.
  - destruct Hwf as (H1 & H2 & H3 & H4 & H5 & H6). unfold bitmap_wf. rewrite Hn, Hnw, Hm, length_insert. split_and!; try done.
    + by apply Forall_insert.
    + intros i Hi. rewrite Hbit by done. case_decide as E; [subst i; exact Hv|by apply H6].
  - rewrite Hbit by lia. by rewrite decide_True.
  - intros j Hj Hne. rewrite Hbit by done. by rewrite decide_False.
Qed.

Lemma bitmap_alloc_spec b :
  bitmap_wf b ->
  (bitmap_alloc b = Ok None /\ forall i, bit b i = false) \/
  (exists b' i, bitmap_alloc b = Ok (Some (b', i)) /\ 0 <= i < nbits b /\ bit b i = true /\
     (forall j, 0 <= j < i -> bit b j = false) /\
     bitmap_wf b' /\ nbits b' = nbits b /\ nwords b' = nwords b /\ bit b' i = false /\
     (forall j, 0 <= j -> j <> i -> bit b' j = bit b j)).
Proof.
  intros Hwf. pose proof Hwf as (H1 & H2 & H3 & H4 & H5 & H6). unfold bitmap_alloc.
  rewrite take_ge, drop_ge by lia.
  destruct (alloc_words_spec (bm_map b) 0 H5) as [[-> Hz]|(p & w & q & k & Hmap & Hp & Hk & Ht & Hj & ->)].
  - left. split; [done|]. intros i. by apply bit_zero_words.
  - right. cbn [mbind res_bind]. rewrite app_nil_r, Z.add_0_l.
    assert (Hw : bm_map b !! length p = Some w) by (rewrite Hmap; by apply list_lookup_middle).
    assert (Hbefore : forall j, 0 <= j < Z.of_nat (length p) * 32 + k -> bit b j = false).
    { intros j Hj'. unfold bit, WORD_BITS. pose proof (Z.mod_pos_bound j 32 ltac:(lia)). pose proof (Z.div_mod j 32 ltac:(lia)) as Hdm.
      destruct (decide (j / 32 = Z.of_nat (length p))) as [E|E].
      - rewrite E, Nat2Z.id, Hw. apply Hj. lia.
      - assert (j / 32 < Z.of_nat (length p)) as Hlt by lia. rewrite Hmap, lookup_app_l by lia.
        destruct (p !! Z.to_nat (j / 32)) as [x|] eqn:Ex; [|done]. rewrite Forall_lookup in Hp. rewrite (Hp _ _ Ex). apply Z.bits_0. }
    assert (Hti : bit b (Z.of_nat (length p) * 32 + k) = true).
    { unfold bit, WORD_BITS. destruct (proj2 (div_mod_decompose _ (Z.of_nat (length p)) k Hk) eq_refl) as [-> ->].
      by rewrite Nat2Z.id, Hw. }
    assert (Hr : 0 <= Z.of_nat (length p) * 32 + k < nbits b) by (split; [lia|apply H6; [lia|done]]).
    set (b' := mk_bitmap (nbits b) (nwords b) (p ++ Z.lxor w (Z.shiftl 1 k) :: q)).
    destruct (flip_word b (length p) w k (Z.lxor w (Z.shiftl 1 k)) b' false) as (Hwf' & Hf & Hsame); try done.
    + apply word32_lxor; [done|]. by eapply wf_word_lookup.
    + intros n Hn. rewrite Z.lxor_spec, mask_bit by lia. case_decide as E.
      * subst. by rewrite Ht, bool_decide_eq_true_2.
      * rewrite bool_decide_eq_false_2 by done. by rewrite xorb_false_r.
    + subst b'; cbn. rewrite Hmap. apply split_insert.
    + exists b', (Z.of_nat (length p) * 32 + k). split; [done|]. split; [exact Hr|]. by split_and!.
Qed.

Lemma word_some b index :
  bitmap_wf b -> 0 <= index < nbits b -> exists w, bm_map b !! Z.to_nat (index / 32) = Some w.
Proof.
  intros (H1 & H2 & H3 & H4 & H5 & H6) Hi. apply lookup_lt_is_Some_2. rewrite H4. unfold WORD_BITS in H2.
  pose proof (Z.div_pos index 32 ltac:(lia) ltac:(lia)). apply Z2Nat.inj_lt; [done|lia|]. apply Z.div_lt_upper_bound; lia.
Qed.

Lemma bitmap_test_spec b index : bitmap_wf b -> 0 <= index < nbits b -> bitmap_test b index = Ok (bit b index).
Proof.
  intros Hwf Hi. destruct (word_some b index Hwf Hi) as [w Hw]. unfold bitmap_test, bitmap_translate.
  rewrite c_assert_true by lia. cbn [mbind res_bind]. unfold word, WORD_BITS. rewrite Hw. cbn [mbind res_bind].
  rewrite land_mask by (apply Z.mod_pos_bound; lia). unfold bit, WORD_BITS. by rewrite Hw.
Qed.

Lemma bitmap_free_spec b index :
  bitmap_wf b -> 0 <= index < nbits b -> bit b index = false ->
  exists b', bitmap_free b index = Ok b' /\ bitmap_wf b' /\ nbits b' = nbits b /\ nwords b' = nwords b /\
    bit b' index = true /\ (forall j, 0 <= j -> j <> index -> bit b' j = bit b j).
Proof.
  intros Hwf Hi Hf. destruct (word_some b index Hwf Hi) as [w Hw]. unfold bitmap_free, bitmap_translate.
  rewrite c_assert_true by lia. cbn [mbind res_bind]. unfold word, WORD_BITS. rewrite Hw. cbn [mbind res_bind].
  pose proof (Z.mod_pos_bound index 32 ltac:(lia)) as Hk. pose proof (Z.div_pos index 32 ltac:(lia) ltac:(lia)) as Hd.
  assert (Z.testbit w (index mod 32) = false) as Ht by (unfold bit, WORD_BITS in Hf; by rewrite Hw in Hf).
  rewrite c_assert_true.
  2: { apply negb_false_iff. rewrite land_mask by lia. done. }
  cbn [mbind res_bind]. eexists. split; [done|].
  assert (Z.of_nat (Z.to_nat (index / 32)) * 32 + index mod 32 = index) as Hidx.
  { rewrite Z2Nat.id by done. pose proof (Z.div_mod index 32 ltac:(lia)). lia. }
  destruct (flip_word b (Z.to_nat (index / 32)) w (index mod 32) (Z.lor w (Z.shiftl 1 (index mod 32)))
    (mk_bitmap (nbits b) (nwords b) (<[Z.to_nat (index / 32) := Z.lor w (Z.shiftl 1 (index mod 32))]> (bm_map b))) true)
    as (H1 & H2 & H3); try done.
  - apply word32_lor; [done|]. by eapply wf_word_lookup.
  - intros n Hn. rewrite Z.lor_spec, mask_bit by lia. case_decide as E.
    + subst. by rewrite bool_decide_eq_true_2, orb_true_r.
    + rewrite bool_decide_eq_false_2 by done. by rewrite orb_false_r.
  - intros _. lia.
  - rewrite Hidx in *. by split_and!.
Qed.

(** * bitmap_create *)
Lemma mark_leftover_spec w o n :
  word32 w -> 0 <= o <= 32 -> (Z.to_nat (32 - o) <= n)%nat ->
  word32 (mark_leftover w o n) /\
  forall k, 0 <= k < 32 -> Z.testbit (mark_leftover w o n) k = if decide (o <= k) then negb (Z.testbit w k) else Z.testbit w k.
Proof.
  revert w o. induction n as [|n IH]; intros w o Hw Ho Hn; cbn [mark_leftover].
  - split; [done|]. intros k Hk. rewrite decide_False by lia. done.
  - unfold WORD_BITS. destruct (o <? 32) eqn:E.
    + apply Z.ltb_lt in E. destruct (IH (Z.lxor w (Z.shiftl 1 o)) (o + 1)) as [H1 H2]; [apply word32_lxor; [lia|done]|lia|lia|].
      split; [done|]. intros k Hk. rewrite H2 by done. rewrite Z.lxor_spec, mask_bit by lia.
      destruct (decide (o + 1 <= k)).
      * rewrite decide_True by lia. rewrite bool_decide_eq_false_2 by lia. by rewrite xorb_false_r.
      * case_bool_decide as E2.
        -- subst. rewrite decide_True by lia. by rewrite xorb_true_r.
        -- rewrite decide_False by lia. by rewrite xorb_false_r.
    + apply Z.ltb_ge in E. split; [done|]. intros k Hk. rewrite decide_False by lia. done.
Qed.

Lemma ones_bit k : 0 <= k < 32 -> Z.testbit (2 ^ 32 - 1) k = true.
Proof. intros Hk. change (2 ^ 32 - 1) with (Z.ones 32). apply Z.ones_spec_low. lia. Qed.

(** A bitmap created for [n] blocks is well formed, has exactly the bits
    below [n] set - every block is free, and the bits that fill up the last word are
    marked in use - and is created whenever both allocations succeed. *)
Theorem bitmap_create_all_free n :
  0 < n < 2 ^ 31 ->
  exists b, bitmap_create true true n = Ok (Some b) /\ bitmap_wf b /\ nbits b = n /\
    forall i, 0 <= i -> bit b i = bool_decide (i < n).
Proof.
  intros Hn. unfold bitmap_create, WORD_BITS. rewrite (u64_small (n + 32)) by lia.
  rewrite (proj2 (Z.eqb_neq n 0)), (proj2 (Z.ltb_lt n (n + 32))) by lia.
  cbn [c_assert andb mbind res_bind negb]. rewrite (u64_small (n + 32 - 1)) by lia.
  set (nw := u32 ((n + 32 - 1) / 32)).
  assert (nw = (n + 31) / 32) as Hnw.
  { unfold nw. replace (n + 32 - 1) with (n + 31) by lia. apply u32_small. split; [apply Z.div_pos; lia|apply Z.div_lt_upper_bound; lia]. }
  pose proof (Z.div_mod (n + 31) 32 ltac:(lia)) as Hdm. pose proof (Z.mod_pos_bound (n + 31) 32 ltac:(lia)) as Hmod.
  rewrite <- Hnw in Hdm. clearbody nw. clear Hnw.
  assert (n <= nw * 32 < n + 32 /\ 0 < nw <= 2 ^ 26) as (Hr & Hr2) by lia. clear Hdm Hmod.
  assert (Hones : Forall word32 (replicate (Z.to_nat nw) (2 ^ 32 - 1))).
  { apply Forall_replicate. unfold word32. lia. }
  rewrite (u64_small (nw * 32)) by lia. destruct (n =? nw * 32) eqn:E; cbn [negb].
  - apply Z.eqb_eq in E. eexists. split; [done|]. assert (Hb : forall i, 0 <= i -> bit (mk_bitmap n nw (replicate (Z.to_nat nw) (2 ^ 32 - 1))) i = bool_decide (i < n)).
    { intros i Hi. unfold bit, WORD_BITS. cbn. pose proof (Z.div_pos i 32 Hi ltac:(lia)). pose proof (Z.div_mod i 32 ltac:(lia)). pose proof (Z.mod_pos_bound i 32 ltac:(lia)).
      destruct (decide (i / 32 < nw)).
      - rewrite lookup_replicate_2 by lia. rewrite ones_bit by lia. symmetry. apply bool_decide_eq_true_2. lia.
      - rewrite lookup_ge_None_2 by (rewrite length_replicate; lia). symmetry. apply bool_decide_eq_false_2. lia. }
    split_and!; try done.
    + unfold bitmap_wf, WORD_BITS; cbn [nbits nwords bm_map]. split_and!; try lia; [by rewrite length_replicate|done|].
      intros i Hi. rewrite Hb by done. by intros ?%bool_decide_eq_true.
  - apply Z.eqb_neq in E. rewrite (u32_small (nw - 1)) by lia. rewrite (u32_small (n - _)) by lia.
    rewrite (proj2 (Z.eqb_eq (n / 32) (nw - 1))).
    2: { symmetry. apply (Z.div_unique n 32 (nw - 1) (n - (nw - 1) * 32)); lia. }
    rewrite (proj2 (Z.ltb_lt 0 _)), (proj2 (Z.ltb_lt _ 32)) by lia. cbn [c_assert andb].
    cbn [mbind res_bind]. rewrite lookup_replicate_2 by lia. cbn [mbind res_bind].
    set (o := n - (nw - 1) * 32). destruct (mark_leftover_spec (2 ^ 32 - 1) o 32) as [Hw Hbits]; [unfold word32; lia|lia|lia|].
    eexists. split; [done|]. match goal with |- bitmap_wf ?b /\ _ => set (b' := b) end.
    assert (Hb : forall i, 0 <= i -> bit b' i = bool_decide (i < n)).
    { intros i Hi. pose proof (Z.div_pos i 32 Hi ltac:(lia)). pose proof (Z.div_mod i 32 ltac:(lia)). pose proof (Z.mod_pos_bound i 32 ltac:(lia)).
      unfold bit, WORD_BITS. subst b'; cbn [bm_map]. destruct (decide (i / 32 = nw - 1)) as [Ei|Ei].
      - rewrite Ei, list_lookup_insert_eq by (rewrite length_replicate; lia). rewrite Hbits, ones_bit by lia.
        case_decide; symmetry; [apply bool_decide_eq_false_2; lia|apply bool_decide_eq_true_2; lia].
      - rewrite list_lookup_insert_ne by lia. destruct (decide (i / 32 < nw)).
        + rewrite lookup_replicate_2 by lia. rewrite ones_bit by lia. symmetry. apply bool_decide_eq_true_2. lia.
        + rewrite lookup_ge_None_2 by (rewrite length_replicate; lia). symmetry. apply bool_decide_eq_false_2. lia. }
    split_and!; try done. unfold bitmap_wf, WORD_BITS; subst b'; cbn [nbits nwords bm_map].
    split_and!; try lia; [by rewrite length_insert, length_replicate|by apply Forall_insert|]. intros i Hi. rewrite Hb by done. by intros ?%bool_decide_eq_true.
Qed.

Lemma bitmap_create_all_free_witness :
  exists b, bitmap_create true true 40 = Ok (Some b) /\ bit b 39 = true /\ bit b 40 = false.
Proof.
  destruct (bitmap_create_all_free 40) as (b & H1 & _ & _ & H2); [lia|].
  exists b. split; [exact H1|]. split; [apply (H2 39); lia|apply (H2 40); lia].
Defined.

(** [bitmap_alloc] hands out the lowest free block and marks it in use; it
    reports no memory exactly when no block is free; and freeing the block again
    gives back a bitmap with the same free blocks. *)
Theorem bitmap_alloc_first_free b :
  bitmap_wf b ->
  match bitmap_alloc b with
  | Ok (Some (b', i)) =>
      0 <= i < nbits b /\ bit b i = true /\ (forall j, 0 <= j < i -> bit b j = false) /\
      bit b' i = false /\ (forall j, 0 <= j -> j <> i -> bit b' j = bit b j) /\
      free_bits b = S (free_bits b') /\
      exists b'', bitmap_free b' i = Ok b'' /\ bitmap_wf b'' /\ forall j, 0 <= j -> bit b'' j = bit b j
  | Ok None => free_bits b = 0%nat /\ forall i, bit b i = false
  | _ => False
  end.
Proof.
  intros Hwf. destruct (bitmap_alloc_spec b Hwf) as [[-> Hz]|(b' & i & -> & Hi & Ht & Hj & Hwf' & Hn & Hnw & Hf & Hs)].
  - split; [|done]. unfold free_bits. induction (seqZ 0 (nbits b)) as [|x l IH]; [done|].
    rewrite filter_cons, decide_False by (rewrite Hz; discriminate). exact IH.
  - split; [done|]. split_and!; try done; [by eapply free_bits_flip|].
    destruct (bitmap_free_spec b' i) as (b'' & H1 & H2 & _ & _ & H3 & H4); [done|lia|done|].
    exists b''. split_and!; try done. intros j Hj'. destruct (decide (j = i)) as [->|]; [by rewrite Ht|]. by rewrite H4, Hs.
Qed.

Lemma bitmap_alloc_first_free_witness :
  exists b', bitmap_alloc (mk_bitmap 40 2 [0; 12]) = Ok (Some (b', 34)) /\ bit b' 34 = false /\ bit b' 35 = true.
Proof.
  assert (bitmap_wf (mk_bitmap 40 2 [0; 12])) as Hwf.
  { unfold bitmap_wf, WORD_BITS; cbn. split_and!; try lia; [repeat constructor; unfold word32; lia|].
    intros i Hi Hb. unfold bit, WORD_BITS in Hb. cbn [bm_map nbits] in *. pose proof (Z.div_mod i 32 ltac:(lia)). pose proof (Z.mod_pos_bound i 32 ltac:(lia)).
    destruct (decide (i < 40)); [done|]. exfalso. pose proof (Z.div_pos i 32 Hi ltac:(lia)).
    destruct (decide (i / 32 = 1)) as [E|E].
    - rewrite E in Hb. change ([0; 12] !! Z.to_nat 1) with (Some 12) in Hb. cbn iota beta in Hb. rewrite Z.bits_above_log2 in Hb; [done|lia|]. change (Z.log2 12) with 3. lia.
    - rewrite lookup_ge_None_2 in Hb; [done|]. cbn. lia. }
  pose proof (bitmap_alloc_first_free _ Hwf) as H. revert H.
  change (bitmap_alloc (mk_bitmap 40 2 [0; 12])) with (Ok (Some (mk_bitmap 40 2 [0; 8], 34))) at 1.
  intros (_ & _ & _ & H1 & H2 & _). exists (mk_bitmap 40 2 [0; 8]).
  split; [reflexivity|]. split; [exact H1|]. rewrite H2; [reflexivity|lia|lia].
Defined.
