(* ===== verification/Iobuf.v ===== *)
(** Transfers between kernel buffers: lab8/kern/fs/iobuf.c.

    An iobuf carries the memory its [io_base] points into as a list of bytes;
    copying outside it is a fault. *)
From S2P Require Import Prelude Layout StateM.

(** * Copying bytes between arrays (the [memmove]/[memset] calls) *)
Definition get_bytes (l : list Z) (i n : Z) : res (list Z) :=
  if (0 <=? i) && (0 <=? n) && (i + n <=? Z.of_nat (length l)) then Ok (bytes_at l (Z.to_nat i) (Z.to_nat n)) else Fault.

Definition put_bytes (l : list Z) (i : Z) (d : list Z) : res (list Z) :=
  if (0 <=? i) && (i + Z.of_nat (length d) <=? Z.of_nat (length l)) then Ok (list_inserts (Z.to_nat i) d l) else Fault.

Record iobuf := mk_iobuf {
  io_mem : list Z;
  io_base : Z;
  io_offset : Z;
  io_len : Z;
  io_resid : Z;
}.

Definition iobuf_used (iob : iobuf) : Z := u64 (io_len iob - io_resid iob).

Definition iobuf_init (mem : list Z) (base len offset : Z) : iobuf := mk_iobuf mem base offset len len.

Definition iobuf_skip (iob : iobuf) (n : Z) : res iobuf :=
  _ ← c_assert (n <=? io_resid iob);
  Ok (mk_iobuf (io_mem iob) (io_base iob + n) (i64 (io_offset iob + n)) (io_len iob) (io_resid iob - n)).

Definition set_mem (iob : iobuf) (mem : list Z) : iobuf :=
  mk_iobuf mem (io_base iob) (io_offset iob) (io_len iob) (io_resid iob).

(** [m2b]: [data] into the buffer, else the buffer into [data].  Results: the
    iobuf, [data], [*copiedp] and the return value. *)
Definition iobuf_move (iob : iobuf) (data : list Z) (len : Z) (m2b : bool) : res (iobuf * list Z * Z * Z) :=
  let alen := if len <? io_resid iob then len else io_resid iob in
  '(iob, data, len) ←
    (if 0 <? alen then
       '(iob, data) ←
         (if m2b then
            d ← get_bytes data 0 alen;
            mem ← put_bytes (io_mem iob) (io_base iob) d;
            Ok (set_mem iob mem, data)
          else
            d ← get_bytes (io_mem iob) (io_base iob) alen;
            data ← put_bytes data 0 d;
            Ok (iob, data));
       iob ← iobuf_skip iob alen;
       Ok (iob, data, len - alen)
     else Ok (iob, data, len));
  Ok (iob, data, alen, if len =? 0 then 0 else - E_NO_MEM).

Definition iobuf_move_zeros (iob : iobuf) (len : Z) : res (iobuf * Z * Z) :=
  let alen := if len <? io_resid iob then len else io_resid iob in
  '(iob, len) ←
    (if 0 <? alen then
       mem ← put_bytes (io_mem iob) (io_base iob) (replicate (Z.to_nat alen) 0);
       iob ← iobuf_skip (set_mem iob mem) alen;
       Ok (iob, len - alen)
     else Ok (iob, len));
  Ok (iob, alen, if len =? 0 then 0 else - E_NO_MEM).

(** * Lemmas *)
Lemma bytes_at_length l off len : (off + len <= length l)%nat -> length (bytes_at l off len) = len.
Proof. intros H. unfold bytes_at. rewrite length_take, length_drop. lia. Qed.

Lemma get_bytes_ok l i n :
  0 <= i -> 0 <= n -> i + n <= Z.of_nat (length l) -> get_bytes l i n = Ok (bytes_at l (Z.to_nat i) (Z.to_nat n)).
Proof. intros H1 H2 H3. unfold get_bytes. by rewrite (proj2 (Z.leb_le 0 i)), (proj2 (Z.leb_le 0 n)), (proj2 (Z.leb_le (i + n) _)). Qed.

Lemma put_bytes_ok l i d :
  0 <= i -> i + Z.of_nat (length d) <= Z.of_nat (length l) -> put_bytes l i d = Ok (list_inserts (Z.to_nat i) d l).
Proof. intros H1 H2. unfold put_bytes. by rewrite (proj2 (Z.leb_le 0 i)), (proj2 (Z.leb_le _ (Z.of_nat (length l)))). Qed.

Lemma put_bytes_length l i d l' : put_bytes l i d = Ok l' -> length l' = length l.
Proof. unfold put_bytes. case_match; [|done]. injection 1 as <-. apply length_inserts. Qed.

Lemma list_lookup_inserts_ne {A} (l : list A) i k j :
  ~ (i <= j < i + length k)%nat -> list_inserts i k l !! j = l !! j.
Proof. intros H. destruct (decide (j < i)%nat); [by apply list_lookup_inserts_lt|apply list_lookup_inserts_ge; lia]. Qed.

Lemma inserts_as_app {A} (l : list A) i d :
  (i + length d <= length l)%nat -> list_inserts i d l = take i l ++ d ++ drop (i + length d) l.
Proof.
  intros H. apply list_eq. intros j. destruct (decide (i <= j < i + length d)%nat) as [Hj|Hj].
  - rewrite list_lookup_inserts by lia. rewrite lookup_app_r by (rewrite length_take; lia).
    rewrite length_take. rewrite lookup_app_l by lia. f_equal. lia.
  - rewrite list_lookup_inserts_ne by lia. destruct (decide (j < i)%nat).
    + rewrite lookup_app_l by (rewrite length_take; lia). by rewrite lookup_take_lt.
    + rewrite !lookup_app_r by (rewrite ?length_take; lia). rewrite length_take, lookup_drop. f_equal. lia.
Qed.

Lemma inserts_whole {A} (l d : list A) : length d = length l -> list_inserts 0 d l = d.
Proof. intros H. rewrite inserts_as_app by lia. cbn. by rewrite drop_ge, app_nil_r by lia. Qed.

Lemma bytes_at_inserts l i d : (i + length d <= length l)%nat -> bytes_at (list_inserts i d l) i (length d) = d.
Proof.
  intros H. rewrite inserts_as_app by lia. unfold bytes_at. rewrite drop_app_length' by (rewrite length_take; lia).
  by rewrite take_app_length.
Qed.

Lemma bytes_at_lookup l off len j : (j < len)%nat -> bytes_at l off len !! j = l !! (off + j)%nat.
Proof. intros H. unfold bytes_at. rewrite lookup_take_lt by done. apply lookup_drop. Qed.

Lemma bytes_at_all l n : length l = n -> bytes_at l 0 n = l.
Proof. intros <-. unfold bytes_at. rewrite drop_0. by apply take_ge. Qed.

Lemma bytes_at_Forall P l off len : Forall P l -> Forall P (bytes_at l off len).
Proof. intros H. unfold bytes_at. by apply Forall_take, Forall_drop. Qed.

(** An iobuf whose remaining part lies inside its memory. *)
Definition iobuf_ok (iob : iobuf) : Prop :=
  0 <= io_base iob /\ 0 <= io_resid iob <= io_len iob /\ io_len iob < 2 ^ 62 /\ - 2 ^ 62 <= io_offset iob /\ io_offset iob + io_resid iob < 2 ^ 62 /\
  io_base iob + io_resid iob <= Z.of_nat (length (io_mem iob)).

(** The iobuf after [n] bytes were moved. *)
Definition advanced (iob : iobuf) (mem : list Z) (n : Z) : iobuf :=
  mk_iobuf mem (io_base iob + n) (io_offset iob + n) (io_len iob) (io_resid iob - n).

Lemma iobuf_skip_ok iob n :
  iobuf_ok iob -> 0 <= n <= io_resid iob -> iobuf_skip iob n = Ok (advanced iob (io_mem iob) n).
Proof.
  intros (H1 & H2 & H3 & H4 & H5 & H6) Hn. unfold iobuf_skip. rewrite (proj2 (Z.leb_le n _)) by lia. cbn.
  unfold advanced. by rewrite i64_small by lia.
Qed.

Lemma advanced_ok iob mem n :
  iobuf_ok iob -> length mem = length (io_mem iob) -> 0 <= n <= io_resid iob -> iobuf_ok (advanced iob mem n).
Proof. intros (H1 & H2 & H3 & H4 & H5 & H6) Hm Hn. unfold iobuf_ok, advanced; cbn. rewrite Hm. lia. Qed.

(** [iobuf_move] into the buffer moves what fits and advances by it. *)
Lemma iobuf_move_in iob data len :
  iobuf_ok iob -> 0 <= len -> len `min` io_resid iob <= Z.of_nat (length data) ->
  iobuf_move iob data len true =
    Ok (advanced iob (list_inserts (Z.to_nat (io_base iob)) (bytes_at data 0 (Z.to_nat (len `min` io_resid iob))) (io_mem iob)) (len `min` io_resid iob),
        data, len `min` io_resid iob, if len <=? io_resid iob then 0 else - E_NO_MEM).
Proof.
  intros Hok Hlen Hd. pose proof Hok as (H1 & H2 & H3 & H4 & H5 & H6). unfold iobuf_move.
  assert ((if len <? io_resid iob then len else io_resid iob) = len `min` io_resid iob) as -> by (destruct (Z.ltb_spec len (io_resid iob)); lia).
  set (a := len `min` io_resid iob) in *.
  assert ((if len - a =? 0 then 0 else - E_NO_MEM) = if len <=? io_resid iob then 0 else - E_NO_MEM) as Hret.
  { destruct (Z.eqb_spec (len - a) 0), (Z.leb_spec len (io_resid iob)); try done; lia. }
  destruct (Z.ltb_spec 0 a) as [Ha|Ha].
  - rewrite get_bytes_ok by lia. cbn [mbind res_bind].
    rewrite put_bytes_ok by (rewrite ?bytes_at_length; lia). cbn [mbind res_bind].
    change (Z.to_nat 0) with 0%nat.
    rewrite iobuf_skip_ok; [|unfold iobuf_ok, set_mem; cbn; rewrite length_inserts; lia|cbn; lia]. cbn [mbind res_bind].
    by rewrite Hret.
  - assert (a = 0) as Ha0 by lia. clearbody a. subst a. cbn [mbind res_bind]. rewrite Z.sub_0_r in Hret. rewrite Hret. do 3 f_equal.
    change (Z.to_nat 0) with 0%nat. unfold bytes_at. cbn [take list_inserts]. f_equal. f_equal.
    unfold advanced. destruct iob; cbn. f_equal; lia.
Qed.

(** [iobuf_move] out of the buffer. *)
Lemma iobuf_move_out iob data len :
  iobuf_ok iob -> 0 <= len -> len `min` io_resid iob <= Z.of_nat (length data) ->
  iobuf_move iob data len false =
    Ok (advanced iob (io_mem iob) (len `min` io_resid iob),
        list_inserts 0 (bytes_at (io_mem iob) (Z.to_nat (io_base iob)) (Z.to_nat (len `min` io_resid iob))) data,
        len `min` io_resid iob, if len <=? io_resid iob then 0 else - E_NO_MEM).
Proof.
  intros Hok Hlen Hd. pose proof Hok as (H1 & H2 & H3 & H4 & H5 & H6). unfold iobuf_move.
  assert ((if len <? io_resid iob then len else io_resid iob) = len `min` io_resid iob) as -> by (destruct (Z.ltb_spec len (io_resid iob)); lia).
  set (a := len `min` io_resid iob) in *.
  assert ((if len - a =? 0 then 0 else - E_NO_MEM) = if len <=? io_resid iob then 0 else - E_NO_MEM) as Hret.
  { destruct (Z.eqb_spec (len - a) 0), (Z.leb_spec len (io_resid iob)); try done; lia. }
  destruct (Z.ltb_spec 0 a) as [Ha|Ha].
  - rewrite get_bytes_ok by lia. cbn [mbind res_bind].
    rewrite put_bytes_ok by (rewrite ?bytes_at_length; lia). cbn [mbind res_bind].
    rewrite iobuf_skip_ok by (done || lia). cbn [mbind res_bind]. by rewrite Hret.
  - assert (a = 0) as Ha0 by lia. clearbody a. subst a. cbn [mbind res_bind]. rewrite Z.sub_0_r in Hret. rewrite Hret. do 3 f_equal.
    unfold bytes_at. cbn [take list_inserts]. f_equal.
    unfold advanced. destruct iob; cbn. f_equal; lia.
Qed.
