(* ===== verification/Disk0.v ===== *)
(** The disk: lab8/kern/driver/ide.c and ramdisk.c under
    lab8/kern/fs/devs/dev_disk0.c, and the interface [Device] (struct device of
    lab8/kern/fs/devs/dev.h) through which SFS uses it.

    [image] is the memory between the two linker symbols of the disk image.  The
    theorems about SFS are proved against [DeviceLaws]; [disk0_laws] shows that the
    driver has them. *)
From S2P Require Import Prelude Layout StateM Iobuf.

(** * The interface *)
Class Device (D : Type) := {
  d_nblocks : D -> Z;
  d_blocksize : D -> Z;
  dop_io : D -> iobuf -> bool -> res (D * iobuf * Z);
}.

(** What a file system relies on: a device is an array of blocks, and a request
    for one of them transfers exactly that block. *)
Class DeviceLaws (D : Type) `{Device D} := {
  dev_ok : D -> Prop;
  block : D -> Z -> list Z;
  dev_blocksize d : dev_ok d -> d_blocksize d = SFS_BLKSIZE;
  block_length d b : dev_ok d -> 0 <= b < d_nblocks d -> length (block d b) = Z.to_nat SFS_BLKSIZE;
  block_bytes d b : dev_ok d -> 0 <= b < d_nblocks d -> Forall is_byte (block d b);
  dev_read d b iob : dev_ok d -> 0 <= b < d_nblocks d -> iobuf_ok iob ->
    io_offset iob = b * SFS_BLKSIZE -> io_resid iob = SFS_BLKSIZE ->
    exists d', dop_io d iob false =
        Ok (d', advanced iob (list_inserts (Z.to_nat (io_base iob)) (block d b) (io_mem iob)) SFS_BLKSIZE, 0) /\
      dev_ok d' /\ d_nblocks d' = d_nblocks d /\ forall b', block d' b' = block d b';
  dev_write d b iob : dev_ok d -> 0 <= b < d_nblocks d -> iobuf_ok iob ->
    io_offset iob = b * SFS_BLKSIZE -> io_resid iob = SFS_BLKSIZE -> Forall is_byte (io_mem iob) ->
    exists d', dop_io d iob true = Ok (d', advanced iob (io_mem iob) SFS_BLKSIZE, 0) /\
      dev_ok d' /\ d_nblocks d' = d_nblocks d /\
      block d' b = bytes_at (io_mem iob) (Z.to_nat (io_base iob)) (Z.to_nat SFS_BLKSIZE) /\
      forall b', 0 <= b' -> b' <> b -> block d' b' = block d b';
}.

(** * ide.c and ramdisk.c *)
Definition SECTSIZE : Z := 512.
Definition MAX_NSECS : Z := 128.
Definition MAX_DISK_NSECS : Z := 0x10000000.

Record ide_device := mk_ide {
  valid : bool;
  size : Z;
  image : list Z;
}.

(** [ramdisk_init] for the image of the disk. *)
Definition ramdisk_init (image : list Z) : ide_device :=
  if (length image =? 0)%nat then mk_ide false 0 []
  else mk_ide true (u32 (Z.of_nat (length image)) / SECTSIZE) image.

(** [MIN(nsecs, dev->size - secno)]: the difference is a size_t. *)
Definition clip (dev : ide_device) (secno nsecs : Z) : Z :=
  let room := u64 (size dev - secno) in if nsecs <? room then nsecs else room.

(** [nsecs < 0] never holds: nsecs is a size_t. *)
Definition ramdisk_read (dev : ide_device) (secno : Z) (dst : list Z) (nsecs : Z) : res (list Z * Z) :=
  let nsecs := clip dev secno nsecs in
  d ← get_bytes (image dev) (secno * SECTSIZE) (nsecs * SECTSIZE);
  dst ← put_bytes dst 0 d;
  Ok (dst, 0).

Definition ramdisk_write (dev : ide_device) (secno : Z) (src : list Z) (nsecs : Z) : res (ide_device * Z) :=
  let nsecs := clip dev secno nsecs in
  d ← get_bytes src 0 (nsecs * SECTSIZE);
  img ← put_bytes (image dev) (secno * SECTSIZE) d;
  Ok (mk_ide (valid dev) (size dev) img, 0).

Definition ide_device_valid (dev : ide_device) : bool := valid dev.

Definition ide_device_size (dev : ide_device) : Z := if ide_device_valid dev then size dev else 0.

Definition ide_read_secs (dev : ide_device) (secno : Z) (dst : list Z) (nsecs : Z) : res (list Z * Z) :=
  _ ← c_assert ((nsecs <=? MAX_NSECS) && valid dev);
  _ ← c_assert ((secno <? MAX_DISK_NSECS) && (u64 (secno + nsecs) <=? MAX_DISK_NSECS));
  ramdisk_read dev secno dst nsecs.

Definition ide_write_secs (dev : ide_device) (secno : Z) (src : list Z) (nsecs : Z) : res (ide_device * Z) :=
  _ ← c_assert ((nsecs <=? MAX_NSECS) && valid dev);
  _ ← c_assert ((secno <? MAX_DISK_NSECS) && (u64 (secno + nsecs) <=? MAX_DISK_NSECS));
  ramdisk_write dev secno src nsecs.

(** * dev_disk0.c *)
Definition DISK0_BLKSIZE : Z := 4096.
Definition DISK0_BUFSIZE : Z := 4 * DISK0_BLKSIZE.
Definition DISK0_BLK_NSECT : Z := DISK0_BLKSIZE / SECTSIZE.

Record disk0 := mk_disk0 {
  dk_blocks : Z;
  dk_blocksize : Z;
  dk_ide : ide_device;
  disk0_buffer : list Z;
  disk0_sem : Z;
}.

Definition set_buffer (d : disk0) (b : list Z) : disk0 :=
  mk_disk0 (dk_blocks d) (dk_blocksize d) (dk_ide d) b (disk0_sem d).
Definition set_ide (d : disk0) (i : ide_device) : disk0 :=
  mk_disk0 (dk_blocks d) (dk_blocksize d) i (disk0_buffer d) (disk0_sem d).
Definition set_sem (d : disk0) (v : Z) : disk0 :=
  mk_disk0 (dk_blocks d) (dk_blocksize d) (dk_ide d) (disk0_buffer d) v.

Definition lock_disk0 (d : disk0) : res disk0 := v ← lock (disk0_sem d); Ok (set_sem d v).
Definition unlock_disk0 (d : disk0) : disk0 := set_sem d (unlock (disk0_sem d)).

Definition disk0_open (d : disk0) (open_flags : Z) : Z := 0.
Definition disk0_close (d : disk0) : Z := 0.
Definition disk0_ioctl (d : disk0) (op : Z) : Z := - E_UNIMP.

Definition disk0_read_blks_nolock (d : disk0) (blkno nblks : Z) : res disk0 :=
  let sectno := u32 (blkno * DISK0_BLK_NSECT) in
  let nsecs := u32 (nblks * DISK0_BLK_NSECT) in
  '(buf, ret) ← ide_read_secs (dk_ide d) sectno (disk0_buffer d) nsecs;
  if negb (ret =? 0) then Panic else Ok (set_buffer d buf).

Definition disk0_write_blks_nolock (d : disk0) (blkno nblks : Z) : res disk0 :=
  let sectno := u32 (blkno * DISK0_BLK_NSECT) in
  let nsecs := u32 (nblks * DISK0_BLK_NSECT) in
  '(i, ret) ← ide_write_secs (dk_ide d) sectno (disk0_buffer d) nsecs;
  if negb (ret =? 0) then Panic else Ok (set_ide d i).

(** One round of the transfer loop: device, iobuf, [resid] and [blkno]. *)
Definition disk0_io_step (write : bool) (st : disk0 * iobuf * Z * Z) : res (disk0 * iobuf * Z * Z + disk0 * iobuf) :=
  let '(d, iob, resid, blkno) := st in
  if resid =? 0 then Ok (inr (d, iob))
  else if write then
    '(iob, buf, copied, _) ← iobuf_move iob (disk0_buffer d) DISK0_BUFSIZE false;
    let d := set_buffer d buf in
    _ ← c_assert (negb (copied =? 0) && (copied <=? resid) && (copied mod DISK0_BLKSIZE =? 0));
    let nblks := u32 (copied / DISK0_BLKSIZE) in
    d ← disk0_write_blks_nolock d blkno nblks;
    Ok (inl (d, iob, resid - copied, u32 (blkno + nblks)))
  else
    let alen := if resid <? DISK0_BUFSIZE then resid else DISK0_BUFSIZE in
    let nblks := u32 (alen / DISK0_BLKSIZE) in
    d ← disk0_read_blks_nolock d blkno nblks;
    '(iob, buf, copied, _) ← iobuf_move iob (disk0_buffer d) alen true;
    let d := set_buffer d buf in
    _ ← c_assert ((copied =? alen) && (copied mod DISK0_BLKSIZE =? 0));
    Ok (inl (d, iob, resid - copied, u32 (blkno + nblks))).

Definition disk0_io (d : disk0) (iob : iobuf) (write : bool) : res (disk0 * iobuf * Z) :=
  let offset := io_offset iob in
  let resid := io_resid iob in
  let blkno := u32 (Z.quot offset DISK0_BLKSIZE) in
  let nblks := u32 (resid / DISK0_BLKSIZE) in
  if negb (Z.rem offset DISK0_BLKSIZE =? 0) || negb (resid mod DISK0_BLKSIZE =? 0) then Ok (d, iob, - E_INVAL)
  else if dk_blocks d <? u32 (blkno + nblks) then Ok (d, iob, - E_INVAL)
  else if nblks =? 0 then Ok (d, iob, 0)
  else
    d ← lock_disk0 d;
    '(d, iob) ← loop (disk0_io_step write) (S (Z.to_nat resid)) (d, iob, resid, blkno);
    Ok (unlock_disk0 d, iob, 0).

(** [ok]: the outcome of the buffer's [kmalloc]; [junk] its contents. *)
Definition disk0_device_init (ide : ide_device) (ok : bool) (junk : list Z) : res disk0 :=
  if negb (ide_device_valid ide) then Panic
  else if negb ok then Panic
  else Ok (mk_disk0 (ide_device_size ide / DISK0_BLK_NSECT) DISK0_BLKSIZE ide junk 1).

#[export] Instance disk0_device : Device disk0 := {|
  d_nblocks := dk_blocks;
  d_blocksize := dk_blocksize;
  dop_io := disk0_io;
|}.

(** * Transfers of whole blocks *)
Definition disk0_ok (d : disk0) : Prop :=
  dk_blocksize d = DISK0_BLKSIZE /\ 0 <= dk_blocks d <= 2 ^ 24 /\ valid (dk_ide d) = true /\
  dk_blocks d * DISK0_BLK_NSECT <= size (dk_ide d) < 2 ^ 32 /\
  size (dk_ide d) * SECTSIZE <= Z.of_nat (length (image (dk_ide d))) /\ Forall is_byte (image (dk_ide d)) /\
  length (disk0_buffer d) = Z.to_nat DISK0_BUFSIZE /\ disk0_sem d = 1.

(** The fields a transfer does not touch. *)
Definition same_disk (d d' : disk0) : Prop :=
  dk_blocks d' = dk_blocks d /\ dk_blocksize d' = dk_blocksize d /\ valid (dk_ide d') = valid (dk_ide d) /\
  size (dk_ide d') = size (dk_ide d) /\ length (image (dk_ide d')) = length (image (dk_ide d)) /\
  length (disk0_buffer d') = length (disk0_buffer d).

Definition disk_bytes (d : disk0) (blkno nblks : Z) : list Z :=
  bytes_at (image (dk_ide d)) (Z.to_nat (blkno * DISK0_BLKSIZE)) (Z.to_nat (nblks * DISK0_BLKSIZE)).

(** What the transfer loop needs: [disk0_ok] with the lock taken. *)
Definition disk0_ready (d : disk0) : Prop :=
  0 <= dk_blocks d <= 2 ^ 24 /\ valid (dk_ide d) = true /\
  dk_blocks d * DISK0_BLK_NSECT <= size (dk_ide d) < 2 ^ 32 /\
  size (dk_ide d) * SECTSIZE <= Z.of_nat (length (image (dk_ide d))) /\
  length (disk0_buffer d) = Z.to_nat DISK0_BUFSIZE.

Ltac disk_const := unfold disk0_ready, disk0_ok, DISK0_BLKSIZE, DISK0_BLK_NSECT, DISK0_BUFSIZE, DISK0_BLKSIZE, SECTSIZE, MAX_NSECS, MAX_DISK_NSECS in *;
  change (4096 / 512) with 8 in *; change (4 * 4096) with 16384 in *.

Lemma clip_inside dev secno nsecs :
  0 <= secno -> 0 <= nsecs -> secno + nsecs <= size dev < 2 ^ 32 -> clip dev secno nsecs = nsecs.
Proof. intros H1 H2 H3. unfold clip. rewrite u64_small by lia. destruct (Z.ltb_spec nsecs (size dev - secno)); lia. Qed.

Lemma read_blks d blkno nblks :
  disk0_ready d -> 0 <= blkno -> 0 <= nblks <= 4 -> blkno + nblks <= dk_blocks d ->
  disk0_read_blks_nolock d blkno nblks =
    Ok (set_buffer d (list_inserts 0 (disk_bytes d blkno nblks) (disk0_buffer d))).
Proof.
  intros (H1 & H2 & H3 & H4 & H5) Hb Hn Hle. unfold disk0_read_blks_nolock, ide_read_secs, ramdisk_read, disk_bytes. disk_const.
  rewrite !u32_small by lia. rewrite H2, (proj2 (Z.leb_le (nblks * 8) 128)), (proj2 (Z.ltb_lt (blkno * 8) 268435456)) by lia.
  rewrite u64_small by lia. rewrite (proj2 (Z.leb_le (blkno * 8 + nblks * 8) 268435456)) by lia. cbn [c_assert andb mbind res_bind].
  rewrite clip_inside by lia. rewrite get_bytes_ok by lia. cbn [mbind res_bind].
  rewrite put_bytes_ok by (rewrite ?bytes_at_length; lia). cbn [mbind res_bind].
  cbn [Z.eqb negb]. do 3 f_equal; f_equal; lia.
Qed.

Lemma write_blks d blkno nblks :
  disk0_ready d -> 0 <= blkno -> 0 <= nblks <= 4 -> blkno + nblks <= dk_blocks d ->
  disk0_write_blks_nolock d blkno nblks =
    Ok (set_ide d (mk_ide true (size (dk_ide d))
          (list_inserts (Z.to_nat (blkno * DISK0_BLKSIZE)) (bytes_at (disk0_buffer d) 0 (Z.to_nat (nblks * DISK0_BLKSIZE))) (image (dk_ide d))))).
Proof.
  intros (H1 & H2 & H3 & H4 & H5) Hb Hn Hle. unfold disk0_write_blks_nolock, ide_write_secs, ramdisk_write. disk_const.
  rewrite !u32_small by lia. rewrite H2, (proj2 (Z.leb_le (nblks * 8) 128)), (proj2 (Z.ltb_lt (blkno * 8) 268435456)) by lia.
  rewrite u64_small by lia. rewrite (proj2 (Z.leb_le (blkno * 8 + nblks * 8) 268435456)) by lia. cbn [c_assert andb mbind res_bind].
  rewrite clip_inside by lia. rewrite get_bytes_ok by lia. cbn [mbind res_bind].
  rewrite put_bytes_ok by (rewrite ?bytes_at_length; lia). cbn [mbind res_bind].
  cbn [Z.eqb negb]. do 4 f_equal; [lia|]. f_equal. lia.
Qed.

Lemma bytes_at_split l off n m : bytes_at l off (n + m) = bytes_at l off n ++ bytes_at l (off + n) m.
Proof.
  unfold bytes_at. rewrite <- (take_drop n (drop off l)) at 1. rewrite drop_drop.
  destruct (decide (n <= length (drop off l))%nat).
  - rewrite take_app, take_take, Nat.min_r by lia. rewrite length_take, Nat.min_l by lia. do 2 f_equal. lia.
  - rewrite !(take_ge (drop off l)) by lia. rewrite length_drop in *. rewrite (drop_ge l (off + n)) by lia.
    rewrite !app_nil_r. rewrite take_nil, app_nil_r. apply take_ge. rewrite length_drop. lia.
Qed.

Lemma disk_bytes_length d blkno nblks :
  disk0_ready d -> 0 <= blkno -> 0 <= nblks -> blkno + nblks <= dk_blocks d ->
  length (disk_bytes d blkno nblks) = Z.to_nat (nblks * DISK0_BLKSIZE).
Proof. intros H Hb Hn Hle. unfold disk_bytes. disk_const. rewrite bytes_at_length; lia. Qed.

Lemma advanced_twice iob m1 m2 a b : advanced (advanced iob m1 a) m2 b = advanced iob m2 (a + b).
Proof. unfold advanced; cbn. f_equal; lia. Qed.

Lemma disk0_read_loop fuel d iob nblks blkno :
  disk0_ready d -> iobuf_ok iob -> 0 <= nblks -> (Z.to_nat nblks < fuel)%nat -> io_resid iob = nblks * DISK0_BLKSIZE ->
  0 <= blkno -> blkno + nblks <= dk_blocks d ->
  exists buf, length buf = length (disk0_buffer d) /\
    loop (disk0_io_step false) fuel (d, iob, io_resid iob, blkno) =
      Ok (set_buffer d buf, advanced iob (list_inserts (Z.to_nat (io_base iob)) (disk_bytes d blkno nblks) (io_mem iob)) (io_resid iob)).
Proof.
  revert d iob nblks blkno. induction fuel as [|fuel IH]; intros d iob nblks blkno Hd Hio Hn Hfuel Hres Hb Hle; [lia|].
  rewrite loop_S. unfold disk0_io_step at 1. destruct (Z.eqb_spec (io_resid iob) 0) as [E|E].
  - exists (disk0_buffer d). split; [done|]. assert (nblks = 0) as -> by (disk_const; lia).
    rewrite E. unfold disk_bytes. rewrite Z.mul_0_l. cbn. unfold bytes_at. cbn [take list_inserts]. do 2 f_equal; [by destruct d|].
    unfold advanced. destruct iob; cbn in *. f_equal; lia.
  - set (k := nblks `min` 4). assert (1 <= k <= 4 /\ k <= nblks) as [Hk1 Hk2] by (disk_const; lia).
    assert ((if io_resid iob <? DISK0_BUFSIZE then io_resid iob else DISK0_BUFSIZE) = k * DISK0_BLKSIZE) as ->.
    { disk_const. destruct (Z.ltb_spec (io_resid iob) 16384); lia. }
    assert (u32 (k * DISK0_BLKSIZE / DISK0_BLKSIZE) = k) as ->.
    { rewrite Z.div_mul by done. apply u32_small. lia. }
    rewrite read_blks by (done || lia). cbn [mbind res_bind].
    pose proof (disk_bytes_length d blkno k Hd Hb ltac:(lia) ltac:(lia)) as Hlen.
    destruct Hd as (Hd1 & Hd2 & Hd3 & Hd4 & Hd5).
    rewrite iobuf_move_in; [|done|disk_const; lia|cbn; rewrite length_inserts; disk_const; lia].
    cbn [mbind res_bind]. rewrite Z.min_l by (disk_const; lia). rewrite Z.eqb_refl. rewrite Z_mod_mult. cbn [andb Z.eqb c_assert mbind res_bind].
    cbn [disk0_buffer set_buffer].
    assert (bytes_at (list_inserts 0 (disk_bytes d blkno k) (disk0_buffer d)) 0 (Z.to_nat (k * DISK0_BLKSIZE)) = disk_bytes d blkno k) as ->.
    { rewrite <- Hlen. apply bytes_at_inserts. disk_const. lia. }
    rewrite u32_small by lia. set (buf1 := list_inserts 0 (disk_bytes d blkno k) (disk0_buffer d)).
    set (mem1 := list_inserts (Z.to_nat (io_base iob)) (disk_bytes d blkno k) (io_mem iob)).
    set (iob1 := advanced iob mem1 (k * DISK0_BLKSIZE)).
    destruct (IH (set_buffer d buf1) iob1 (nblks - k) (blkno + k)) as (buf & Hbuf & Hloop).
    + unfold disk0_ready; cbn. unfold buf1. rewrite length_inserts. exact (conj Hd1 (conj Hd2 (conj Hd3 (conj Hd4 Hd5)))).
    + apply advanced_ok; [done|apply length_inserts|disk_const; lia].
    + lia.
    + lia.
    + cbn. disk_const. lia.
    + lia.
    + cbn. lia.
    + exists buf. split; [rewrite Hbuf; cbn; apply length_inserts|].
      change (io_resid iob - k * DISK0_BLKSIZE) with (io_resid iob1).
      change (set_buffer (set_buffer d buf1) buf1) with (set_buffer d buf1). rewrite Hloop. f_equal. f_equal.
      unfold iob1. rewrite advanced_twice. cbn [io_resid io_base io_mem advanced]. f_equal; [|lia].
      destruct Hio as (Hi1 & Hi2 & _). replace (Z.to_nat (io_base iob + k * DISK0_BLKSIZE)) with (length (disk_bytes d blkno k) + Z.to_nat (io_base iob))%nat by (disk_const; lia).
      unfold mem1. rewrite <- list_inserts_app_l. f_equal.
      unfold disk_bytes. change (dk_ide (set_buffer d buf1)) with (dk_ide d).
      replace (Z.to_nat (nblks * DISK0_BLKSIZE)) with (Z.to_nat (k * DISK0_BLKSIZE) + Z.to_nat ((nblks - k) * DISK0_BLKSIZE))%nat by (disk_const; lia).
      rewrite bytes_at_split. do 2 f_equal. disk_const. lia.
Qed.

Lemma disk0_write_loop fuel d iob nblks blkno :
  disk0_ready d -> iobuf_ok iob -> 0 <= nblks -> (Z.to_nat nblks < fuel)%nat -> io_resid iob = nblks * DISK0_BLKSIZE ->
  0 <= blkno -> blkno + nblks <= dk_blocks d ->
  exists buf, length buf = length (disk0_buffer d) /\
    loop (disk0_io_step true) fuel (d, iob, io_resid iob, blkno) =
      Ok (set_ide (set_buffer d buf) (mk_ide true (size (dk_ide d))
            (list_inserts (Z.to_nat (blkno * DISK0_BLKSIZE)) (bytes_at (io_mem iob) (Z.to_nat (io_base iob)) (Z.to_nat (io_resid iob))) (image (dk_ide d)))),
          advanced iob (io_mem iob) (io_resid iob)).
Proof.
  revert d iob nblks blkno. induction fuel as [|fuel IH]; intros d iob nblks blkno Hd Hio Hn Hfuel Hres Hb Hle; [lia|].
  rewrite loop_S. unfold disk0_io_step at 1. destruct (Z.eqb_spec (io_resid iob) 0) as [E|E].
  - exists (disk0_buffer d). split; [done|]. rewrite E. unfold bytes_at. cbn [Z.to_nat take list_inserts].
    destruct Hd as (_ & Hv & _). destruct d as [? ? [? ? ?] ? ?]; cbn in *. subst. do 2 f_equal.
    unfold advanced. destruct iob; cbn in *. f_equal; lia.
  - set (k := nblks `min` 4). assert (1 <= k <= 4 /\ k <= nblks) as [Hk1 Hk2] by (disk_const; lia).
    pose proof Hd as (Hd1 & Hd2 & Hd3 & Hd4 & Hd5). pose proof Hio as (Hi1 & Hi2 & Hi3 & Hi4 & Hi5 & Hi6).
    assert (DISK0_BUFSIZE `min` io_resid iob = k * DISK0_BLKSIZE) as Hmin by (disk_const; lia).
    rewrite iobuf_move_out; [|done|disk_const; lia|disk_const; lia].
    cbn [mbind res_bind]. rewrite Hmin.
    rewrite (proj2 (Z.eqb_neq (k * DISK0_BLKSIZE) 0)), (proj2 (Z.leb_le (k * DISK0_BLKSIZE) _)) by (disk_const; lia).
    rewrite Z_mod_mult. cbn [negb andb Z.eqb c_assert mbind res_bind].
    assert (u32 (k * DISK0_BLKSIZE / DISK0_BLKSIZE) = k) as ->.
    { rewrite Z.div_mul by done. apply u32_small. lia. }
    set (chunk := bytes_at (io_mem iob) (Z.to_nat (io_base iob)) (Z.to_nat (k * DISK0_BLKSIZE))).
    assert (Hlen : length chunk = Z.to_nat (k * DISK0_BLKSIZE)) by (unfold chunk; apply bytes_at_length; disk_const; lia).
    set (buf1 := list_inserts 0 chunk (disk0_buffer d)).
    assert (Hd' : disk0_ready (set_buffer d buf1)).
    { unfold disk0_ready; cbn. unfold buf1. rewrite length_inserts. exact (conj Hd1 (conj Hd2 (conj Hd3 (conj Hd4 Hd5)))). }
    rewrite write_blks by (done || cbn; lia). cbn [mbind res_bind disk0_buffer set_buffer].
    assert (bytes_at buf1 0 (Z.to_nat (k * DISK0_BLKSIZE)) = chunk) as Hchunk.
    { rewrite <- Hlen. apply bytes_at_inserts. disk_const. lia. }
    change (disk0_buffer (set_buffer d buf1)) with buf1. change (dk_ide (set_buffer d buf1)) with (dk_ide d).
    rewrite Hchunk. rewrite u32_small by lia.
    set (img1 := list_inserts (Z.to_nat (blkno * DISK0_BLKSIZE)) chunk (image (dk_ide d))).
    set (d1 := set_ide (set_buffer d buf1) (mk_ide true (size (dk_ide d)) img1)).
    set (iob1 := advanced iob (io_mem iob) (k * DISK0_BLKSIZE)).
    destruct (IH d1 iob1 (nblks - k) (blkno + k)) as (buf & Hbuf & Hloop).
    + unfold disk0_ready, d1, buf1, img1; cbn. rewrite !length_inserts. exact (conj Hd1 (conj eq_refl (conj Hd3 (conj Hd4 Hd5)))).
    + apply advanced_ok; [done|done|disk_const; lia].
    + lia.
    + lia.
    + cbn. disk_const. lia.
    + lia.
    + cbn. lia.
    + exists buf. split; [rewrite Hbuf; cbn; apply length_inserts|].
      change (io_resid iob - k * DISK0_BLKSIZE) with (io_resid iob1). rewrite Hloop. f_equal. f_equal.
      2: { unfold iob1. rewrite advanced_twice. cbn [io_resid advanced io_mem]. f_equal. lia. }
      unfold set_ide, set_buffer, d1; cbn. f_equal. f_equal. unfold img1.
      replace (Z.to_nat ((blkno + k) * DISK0_BLKSIZE)) with (length chunk + Z.to_nat (blkno * DISK0_BLKSIZE))%nat by (disk_const; lia).
      rewrite <- list_inserts_app_l. f_equal.
      replace (Z.to_nat (io_resid iob)) with (Z.to_nat (k * DISK0_BLKSIZE) + Z.to_nat (io_resid iob - k * DISK0_BLKSIZE))%nat by (disk_const; lia).
      rewrite bytes_at_split. do 2 f_equal. disk_const. lia.
Qed.

(** The guards of [disk0_io] for an aligned request of [n] blocks inside the disk. *)
Lemma disk0_io_enter d iob b n w :
  disk0_ok d -> iobuf_ok iob -> 0 <= b -> 0 < n -> b + n <= dk_blocks d ->
  io_offset iob = b * DISK0_BLKSIZE -> io_resid iob = n * DISK0_BLKSIZE ->
  disk0_io d iob w =
    ('(d, iob) ← loop (disk0_io_step w) (S (Z.to_nat (io_resid iob))) (set_sem d 0, iob, io_resid iob, b);
     Ok (unlock_disk0 d, iob, 0)).
Proof.
  intros (H1 & H2 & H3 & H4 & H5 & H6 & H7 & H8) Hio Hb Hn Hle Ho Hr. unfold disk0_io. rewrite Ho, Hr.
  rewrite Z.rem_mul, Z.quot_mul, Z_mod_mult, Z.div_mul by done.
  rewrite (u32_small b), (u32_small n), (u32_small (b + n)) by lia. cbn [Z.eqb negb orb]. destruct (Z.ltb_spec (dk_blocks d) (b + n)); [lia|].
  rewrite (proj2 (Z.eqb_neq n 0)) by lia. unfold lock_disk0, lock. rewrite H8. done.
Qed.

Lemma disk0_ok_ready d : disk0_ok d -> disk0_ready (set_sem d 0).
Proof. intros (H1 & H2 & H3 & H4 & H5 & H6 & H7 & H8). unfold disk0_ready. cbn. exact (conj H2 (conj H3 (conj H4 (conj H5 H7)))). Qed.

Lemma disk0_read_spec d iob b n :
  disk0_ok d -> iobuf_ok iob -> 0 <= b -> 0 < n -> b + n <= dk_blocks d ->
  io_offset iob = b * DISK0_BLKSIZE -> io_resid iob = n * DISK0_BLKSIZE ->
  exists buf,
    disk0_io d iob false =
      Ok (set_buffer d buf, advanced iob (list_inserts (Z.to_nat (io_base iob)) (disk_bytes d b n) (io_mem iob)) (io_resid iob), 0) /\
    disk0_ok (set_buffer d buf).
Proof.
  intros Hd Hio Hb Hn Hle Ho Hr. rewrite (disk0_io_enter d iob b n) by done.
  destruct (disk0_read_loop (S (Z.to_nat (io_resid iob))) (set_sem d 0) iob n b) as (buf & Hbuf & ->); try done; try lia.
  { by apply disk0_ok_ready. }
  { rewrite Hr. disk_const. lia. }
  exists buf. destruct Hd as (H1 & H2 & H3 & H4 & H5 & H6 & H7 & H8). cbn [mbind res_bind]. split.
  - do 2 f_equal. f_equal. unfold unlock_disk0, unlock, set_sem, set_buffer; cbn. by rewrite H8.
  - unfold disk0_ok; cbn. rewrite Hbuf. cbn. exact (conj H1 (conj H2 (conj H3 (conj H4 (conj H5 (conj H6 (conj H7 H8))))))).
Qed.

Lemma disk0_write_spec d iob b n :
  disk0_ok d -> iobuf_ok iob -> 0 <= b -> 0 < n -> b + n <= dk_blocks d ->
  io_offset iob = b * DISK0_BLKSIZE -> io_resid iob = n * DISK0_BLKSIZE -> Forall is_byte (io_mem iob) ->
  exists buf,
    let d' := set_ide (set_buffer d buf) (mk_ide true (size (dk_ide d))
            (list_inserts (Z.to_nat (b * DISK0_BLKSIZE)) (bytes_at (io_mem iob) (Z.to_nat (io_base iob)) (Z.to_nat (io_resid iob))) (image (dk_ide d)))) in
    disk0_io d iob true = Ok (d', advanced iob (io_mem iob) (io_resid iob), 0) /\ disk0_ok d'.
Proof.
  intros Hd Hio Hb Hn Hle Ho Hr Hby. rewrite (disk0_io_enter d iob b n) by done.
  destruct (disk0_write_loop (S (Z.to_nat (io_resid iob))) (set_sem d 0) iob n b) as (buf & Hbuf & ->); try done; try lia.
  { by apply disk0_ok_ready. }
  { rewrite Hr. disk_const. lia. }
  exists buf. destruct Hd as (H1 & H2 & H3 & H4 & H5 & H6 & H7 & H8). cbn [mbind res_bind]. split.
  - do 2 f_equal. f_equal. unfold unlock_disk0, unlock, set_sem, set_buffer; cbn. by rewrite H8.
  - unfold disk0_ok; cbn. rewrite Hbuf, length_inserts. cbn.
    refine (conj H1 (conj H2 (conj eq_refl (conj H4 (conj H5 (conj _ (conj H7 H8))))))).
    apply Forall_inserts; [done|]. by apply bytes_at_Forall.
Qed.

(** Reading [m] blocks at [c] out of a disk whose blocks from [b] on were replaced. *)
Lemma bytes_at_disjoint l i x off len :
  (i + length x <= off \/ off + len <= i)%nat -> (off + len <= length l)%nat ->
  bytes_at (list_inserts i x l) off len = bytes_at l off len.
Proof.
  intros Hd Hl. apply list_eq. intros j. destruct (decide (j < len)%nat).
  - rewrite !bytes_at_lookup by done. apply list_lookup_inserts_ne. lia.
  - rewrite !lookup_ge_None_2; [done| |]; rewrite bytes_at_length; rewrite ?length_inserts; lia.
Qed.

#[export] Program Instance disk0_laws : DeviceLaws disk0 := {|
  dev_ok := disk0_ok;
  block d b := disk_bytes d b 1;
|}.
Next Obligation.
  intros d (H & _). exact H.
Qed.
Next Obligation.
  intros d b Hd Hb. cbn in Hb. change SFS_BLKSIZE with DISK0_BLKSIZE. rewrite <- (Z.mul_1_l DISK0_BLKSIZE).
  apply disk0_ok_ready in Hd. by apply (disk_bytes_length (set_sem d 0)); [|lia|lia|cbn; lia].
Qed.
Next Obligation.
  intros d b (H1 & H2 & H3 & H4 & H5 & H6 & H7 & H8) Hb. by apply bytes_at_Forall.
Qed.
Next Obligation.
  intros d b iob Hd Hb Hio Ho Hr. cbn in Hb |- *. change SFS_BLKSIZE with DISK0_BLKSIZE in *.
  destruct (disk0_read_spec d iob b 1) as (buf & Hrun & Hok); [done|done|lia|lia|lia|done|lia|].
  exists (set_buffer d buf). rewrite Hr in Hrun. split; [exact Hrun|]. done.
Qed.
Next Obligation.
  intros d b iob Hd Hb Hio Ho Hr Hby. cbn in Hb |- *. change SFS_BLKSIZE with DISK0_BLKSIZE in *.
  destruct (disk0_write_spec d iob b 1) as (buf & Hrun & Hok); [done|done|lia|lia|lia|done|lia|done|].
  eexists. rewrite Hr in Hrun. split; [exact Hrun|]. rewrite Hr in Hok. split; [exact Hok|]. split; [done|].
  destruct Hd as (H1 & H2 & H3 & H4 & H5 & H6 & H7 & H8). destruct Hio as (Hi1 & Hi2 & Hi3 & Hi4 & Hi5 & Hi6).
  assert (length (bytes_at (io_mem iob) (Z.to_nat (io_base iob)) (Z.to_nat DISK0_BLKSIZE)) = Z.to_nat (1 * DISK0_BLKSIZE)) as Hlen.
  { rewrite bytes_at_length; disk_const; lia. }
  split.
  - unfold disk_bytes. cbn [dk_ide set_ide set_buffer image]. rewrite <- Hlen. apply bytes_at_inserts.
    rewrite Hlen. disk_const. lia.
  - intros b' Hb' Hne. unfold disk_bytes. cbn [dk_ide set_ide set_buffer image].
    destruct (decide (b' < dk_blocks d)).
    + apply bytes_at_disjoint; rewrite ?Hlen; disk_const; lia.
    + destruct (decide (b' < b)); [apply bytes_at_disjoint; rewrite ?Hlen; disk_const; lia|].
      unfold bytes_at at 1 3. f_equal. apply list_eq. intros j. rewrite !lookup_drop. apply list_lookup_inserts_ge.
      rewrite Hlen. disk_const. lia.
Qed.

(** The disk driver on any request: one that is not made of whole blocks or
    leaves the disk is refused with [-E_INVAL] and changes nothing; a write of whole
    blocks inside the disk succeeds and a read of the same blocks afterwards returns
    exactly the bytes written, through the 4-block bounce buffer, with the lock
    released. *)
Theorem disk0_io_write_read d iob iob2 b n :
  disk0_ok d -> iobuf_ok iob -> iobuf_ok iob2 -> Forall is_byte (io_mem iob) ->
  0 <= io_offset iob -> io_offset iob / DISK0_BLKSIZE + io_resid iob / DISK0_BLKSIZE < 2 ^ 32 ->
  0 <= b -> 0 < n -> b + n <= dk_blocks d ->
  io_offset iob2 = b * DISK0_BLKSIZE -> io_resid iob2 = n * DISK0_BLKSIZE ->
  ((io_offset iob mod DISK0_BLKSIZE <> 0 \/ io_resid iob mod DISK0_BLKSIZE <> 0 \/
    dk_blocks d < io_offset iob / DISK0_BLKSIZE + io_resid iob / DISK0_BLKSIZE) ->
   forall w, disk0_io d iob w = Ok (d, iob, - E_INVAL)) /\
  (io_offset iob = b * DISK0_BLKSIZE -> io_resid iob = n * DISK0_BLKSIZE ->
   exists d1 d2, disk0_io d iob true = Ok (d1, advanced iob (io_mem iob) (io_resid iob), 0) /\
     disk0_ok d1 /\ disk0_ok d2 /\
     disk0_io d1 iob2 false =
       Ok (d2, advanced iob2 (list_inserts (Z.to_nat (io_base iob2))
             (bytes_at (io_mem iob) (Z.to_nat (io_base iob)) (Z.to_nat (io_resid iob))) (io_mem iob2)) (io_resid iob2), 0)).
Proof.
  intros Hd Hio Hio2 Hby Hpos H32 Hb Hn Hle Ho2 Hr2. split.
  - intros Hbad w. unfold disk0_io. destruct Hio as (Hi1 & Hi2 & Hi3 & Hi4 & Hi5 & Hi6).
    rewrite Z.rem_mod_nonneg, Z.quot_div_nonneg by (disk_const; lia).
    pose proof (Z.div_pos (io_offset iob) DISK0_BLKSIZE ltac:(lia) ltac:(done)).
    pose proof (Z.div_pos (io_resid iob) DISK0_BLKSIZE ltac:(lia) ltac:(done)).
    destruct (Z.eqb_spec (io_offset iob mod DISK0_BLKSIZE) 0); [|done].
    destruct (Z.eqb_spec (io_resid iob mod DISK0_BLKSIZE) 0); [|done]. cbn [negb orb].
    rewrite (u32_small (io_offset iob / _)), (u32_small (io_resid iob / _)), u32_small by lia.
    destruct (Z.ltb_spec (dk_blocks d) (io_offset iob / DISK0_BLKSIZE + io_resid iob / DISK0_BLKSIZE)); [done|lia].
  - intros Ho Hr. destruct (disk0_write_spec d iob b n) as (buf & Hw & Hok); [done..|].
    destruct (disk0_read_spec _ iob2 b n Hok Hio2 Hb Hn Hle Ho2 Hr2) as (buf2 & Hrd & Hok2).
    eexists _, _. split; [exact Hw|]. split; [exact Hok|]. split; [exact Hok2|]. rewrite Hrd. do 4 f_equal.
    unfold disk_bytes. cbn [dk_ide set_ide set_buffer image].
    destruct Hd as (H1 & H2 & H3 & H4 & H5 & H6 & H7 & H8). destruct Hio as (Hi1 & Hi2 & Hi3 & Hi4 & Hi5 & Hi6).
    assert (length (bytes_at (io_mem iob) (Z.to_nat (io_base iob)) (Z.to_nat (io_resid iob))) = Z.to_nat (n * DISK0_BLKSIZE)) as Hlen.
    { rewrite bytes_at_length; lia. }
    rewrite <- Hlen. f_equal. apply bytes_at_inserts. rewrite Hlen. disk_const. lia.
Qed.

(** A disk of two blocks. *)
Definition small_disk : disk0 :=
  mk_disk0 2 DISK0_BLKSIZE (mk_ide true 16 (replicate 8192 0)) (replicate 16384 0) 1.

Lemma small_disk_ok : disk0_ok small_disk.
Proof.
  unfold disk0_ok, small_disk; cbn [dk_blocks dk_blocksize dk_ide valid size image disk0_buffer disk0_sem]. disk_const.
  rewrite !length_replicate. split_and!; try done; try lia. apply Forall_replicate. unfold is_byte. lia.
Qed.

Lemma disk0_io_write_read_witness :
  exists d1 d2, disk0_io small_disk (iobuf_init (replicate 4096 7) 0 4096 4096) true = Ok (d1, advanced (iobuf_init (replicate 4096 7) 0 4096 4096) (replicate 4096 7) 4096, 0) /\
    disk0_io d1 (iobuf_init (replicate 4096 9) 0 4096 4096) false = Ok (d2, advanced (iobuf_init (replicate 4096 9) 0 4096 4096) (replicate 4096 7) 4096, 0).
Proof.
  assert (Hio : forall x, iobuf_ok (iobuf_init (replicate 4096 x) 0 4096 4096)).
  { intros x. unfold iobuf_ok; cbn [io_base io_resid io_len io_offset io_mem iobuf_init]. rewrite length_replicate. lia. }
  destruct (disk0_io_write_read small_disk (iobuf_init (replicate 4096 7) 0 4096 4096) (iobuf_init (replicate 4096 9) 0 4096 4096) 1 1)
    as (_ & H).
  - apply small_disk_ok.
  - apply Hio.
  - apply Hio.
  - apply Forall_replicate. unfold is_byte. lia.
  - cbn [io_offset iobuf_init]. lia.
  - cbn [io_offset io_resid iobuf_init]. change (4096 / DISK0_BLKSIZE) with 1. lia.
  - lia.
  - lia.
  - cbn [dk_blocks small_disk]. lia.
  - reflexivity.
  - reflexivity.
  - destruct (H eq_refl eq_refl) as (d1 & d2 & Hw & _ & _ & Hr). exists d1, d2. split; [exact Hw|].
    replace (replicate 4096 7) with (list_inserts 0 (bytes_at (replicate 4096 7) 0 4096) (replicate 4096 9)) by (vm_compute; reflexivity).
    exact Hr.
Defined.
