(* ===== verification/SfsIo.v ===== *)
(** Block I/O of SFS: lab8/kern/fs/sfs/sfs_io.c and sfs_lock.c, and the state of a
    mounted file system (struct sfs_fs).

    [sfs_fs D] is struct sfs_fs over a device [D]; its linked lists are the lists of
    the inodes (pointers) on them.  [kmem] decides the outcome of the coming
    [kmalloc]s: each call takes its head, and succeeds once it is used up. *)
From S2P Require Import Prelude Layout StateM Iobuf Bitmap Disk0.

Record sfs_fs (D : Type) := mk_sfs {
  super : sfs_super;
  dev : D;
  freemap : bitmap;
  super_dirty : bool;
  sfs_buffer : list Z;
  fs_sem : Z;
  io_sem : Z;
  mutex_sem : Z;
  inode_list : list Z;
  hash_list : gmap Z (list Z);
  kmem : list bool;
}.
Arguments mk_sfs {_} _ _ _ _ _ _ _ _ _ _ _.
Arguments super {_} _.
Arguments dev {_} _.
Arguments freemap {_} _.
Arguments super_dirty {_} _.
Arguments sfs_buffer {_} _.
Arguments fs_sem {_} _.
Arguments io_sem {_} _.
Arguments mutex_sem {_} _.
Arguments inode_list {_} _.
Arguments hash_list {_} _.
Arguments kmem {_} _.

Section Io.
Context {D : Type} `{!Device D}.
Implicit Types sfs : sfs_fs D.

(** * Field updates *)
Definition set_super (s : sfs_super) sfs : sfs_fs D :=
  mk_sfs s (dev sfs) (freemap sfs) (super_dirty sfs) (sfs_buffer sfs) (fs_sem sfs) (io_sem sfs) (mutex_sem sfs) (inode_list sfs) (hash_list sfs) (kmem sfs).
Definition set_dev (d : D) sfs : sfs_fs D :=
  mk_sfs (super sfs) d (freemap sfs) (super_dirty sfs) (sfs_buffer sfs) (fs_sem sfs) (io_sem sfs) (mutex_sem sfs) (inode_list sfs) (hash_list sfs) (kmem sfs).
Definition set_freemap (b : bitmap) sfs : sfs_fs D :=
  mk_sfs (super sfs) (dev sfs) b (super_dirty sfs) (sfs_buffer sfs) (fs_sem sfs) (io_sem sfs) (mutex_sem sfs) (inode_list sfs) (hash_list sfs) (kmem sfs).
Definition set_super_dirty (b : bool) sfs : sfs_fs D :=
  mk_sfs (super sfs) (dev sfs) (freemap sfs) b (sfs_buffer sfs) (fs_sem sfs) (io_sem sfs) (mutex_sem sfs) (inode_list sfs) (hash_list sfs) (kmem sfs).
Definition set_sfs_buffer (b : list Z) sfs : sfs_fs D :=
  mk_sfs (super sfs) (dev sfs) (freemap sfs) (super_dirty sfs) b (fs_sem sfs) (io_sem sfs) (mutex_sem sfs) (inode_list sfs) (hash_list sfs) (kmem sfs).
Definition set_fs_sem (v : Z) sfs : sfs_fs D :=
  mk_sfs (super sfs) (dev sfs) (freemap sfs) (super_dirty sfs) (sfs_buffer sfs) v (io_sem sfs) (mutex_sem sfs) (inode_list sfs) (hash_list sfs) (kmem sfs).
Definition set_io_sem (v : Z) sfs : sfs_fs D :=
  mk_sfs (super sfs) (dev sfs) (freemap sfs) (super_dirty sfs) (sfs_buffer sfs) (fs_sem sfs) v (mutex_sem sfs) (inode_list sfs) (hash_list sfs) (kmem sfs).
Definition set_inode_list (l : list Z) sfs : sfs_fs D :=
  mk_sfs (super sfs) (dev sfs) (freemap sfs) (super_dirty sfs) (sfs_buffer sfs) (fs_sem sfs) (io_sem sfs) (mutex_sem sfs) l (hash_list sfs) (kmem sfs).
Definition set_hash_list (h : gmap Z (list Z)) sfs : sfs_fs D :=
  mk_sfs (super sfs) (dev sfs) (freemap sfs) (super_dirty sfs) (sfs_buffer sfs) (fs_sem sfs) (io_sem sfs) (mutex_sem sfs) (inode_list sfs) h (kmem sfs).
Definition set_kmem (k : list bool) sfs : sfs_fs D :=
  mk_sfs (super sfs) (dev sfs) (freemap sfs) (super_dirty sfs) (sfs_buffer sfs) (fs_sem sfs) (io_sem sfs) (mutex_sem sfs) (inode_list sfs) (hash_list sfs) k.

(** Does the next [kmalloc] succeed? *)
Definition kmalloc : M (sfs_fs D) bool := fun sfs =>
  match kmem sfs with
  | [] => Ok (sfs, inr true)
  | ok :: k => Ok (set_kmem k sfs, inr ok)
  end.

(** * sfs_lock.c *)
Definition lock_sfs_fs sfs : res (sfs_fs D) := v ← lock (fs_sem sfs); Ok (set_fs_sem v sfs).
Definition lock_sfs_io sfs : res (sfs_fs D) := v ← lock (io_sem sfs); Ok (set_io_sem v sfs).
Definition unlock_sfs_fs sfs : sfs_fs D := set_fs_sem (unlock (fs_sem sfs)) sfs.
Definition unlock_sfs_io sfs : sfs_fs D := set_io_sem (unlock (io_sem sfs)) sfs.

(** * sfs_io.c *)

(** One block between the device and the buffer [buf] at [pos]: the buffer
    afterwards and the return value. *)
Definition sfs_rwblock_nolock sfs (buf : list Z) (pos blkno : Z) (write check : bool) : res (sfs_fs D * list Z * Z) :=
  _ ← c_assert ((negb (blkno =? 0) || negb check) && (blkno <? s_blocks (super sfs)));
  let iob := iobuf_init buf pos SFS_BLKSIZE (u32 (blkno * SFS_BLKSIZE)) in
  '(d, iob, ret) ← dop_io (dev sfs) iob write;
  Ok (set_dev d sfs, io_mem iob, ret).

Fixpoint rwblock_loop sfs (buf : list Z) (pos blkno : Z) (nblks : nat) (write : bool) : res (sfs_fs D * list Z * Z) :=
  match nblks with
  | O => Ok (sfs, buf, 0)
  | S n =>
      '(sfs, buf, ret) ← sfs_rwblock_nolock sfs buf pos blkno write true;
      if negb (ret =? 0) then Ok (sfs, buf, ret)
      else rwblock_loop sfs buf (pos + SFS_BLKSIZE) (u32 (blkno + 1)) n write
  end.

Definition sfs_rwblock sfs (buf : list Z) (pos blkno nblks : Z) (write : bool) : res (sfs_fs D * list Z * Z) :=
  sfs ← lock_sfs_io sfs;
  '(sfs, buf, ret) ← rwblock_loop sfs buf pos blkno (Z.to_nat nblks) write;
  Ok (unlock_sfs_io sfs, buf, ret).

Definition sfs_rblock sfs (buf : list Z) (pos blkno nblks : Z) := sfs_rwblock sfs buf pos blkno nblks false.
Definition sfs_wblock sfs (buf : list Z) (pos blkno nblks : Z) := sfs_rwblock sfs buf pos blkno nblks true.

(** [sfs_rwblock_nolock] on the file system's own buffer. *)
Definition rw_buffer sfs (blkno : Z) (write check : bool) : res (sfs_fs D * Z) :=
  '(sfs, buf, ret) ← sfs_rwblock_nolock sfs (sfs_buffer sfs) 0 blkno write check;
  Ok (set_sfs_buffer buf sfs, ret).

(** The bytes copied to the caller's buffer. *)
Definition sfs_rbuf (len blkno offset : Z) : M (sfs_fs D) (list Z) := fun sfs =>
  _ ← c_assert ((0 <=? offset) && (offset <? SFS_BLKSIZE) && (offset + len <=? SFS_BLKSIZE));
  sfs ← lock_sfs_io sfs;
  '(sfs, ret) ← rw_buffer sfs blkno false true;
  r ← (if ret =? 0 then d ← get_bytes (sfs_buffer sfs) offset len; Ok (inr d) else Ok (inl (- ret)));
  Ok (unlock_sfs_io sfs, r).

Definition sfs_wbuf (data : list Z) (blkno offset : Z) : M (sfs_fs D) unit := fun sfs =>
  _ ← c_assert ((0 <=? offset) && (offset <? SFS_BLKSIZE) && (offset + Z.of_nat (length data) <=? SFS_BLKSIZE));
  sfs ← lock_sfs_io sfs;
  '(sfs, ret) ← rw_buffer sfs blkno false true;
  '(sfs, ret) ←
    (if ret =? 0 then
       buf ← put_bytes (sfs_buffer sfs) offset data;
       rw_buffer (set_sfs_buffer buf sfs) blkno true true
     else Ok (sfs, ret));
  Ok (unlock_sfs_io sfs, if ret =? 0 then inr tt else inl (- ret)).

Definition sfs_sync_super : M (sfs_fs D) unit := fun sfs =>
  sfs ← lock_sfs_io sfs;
  buf ← put_bytes (sfs_buffer sfs) 0 (replicate (Z.to_nat SFS_BLKSIZE) 0);
  buf ← put_bytes buf 0 (super_bytes (super sfs));
  '(sfs, ret) ← rw_buffer (set_sfs_buffer buf sfs) SFS_BLKN_SUPER true false;
  Ok (unlock_sfs_io sfs, if ret =? 0 then inr tt else inl (- ret)).

(** [ROUNDUP_DIV(blocks, SFS_BLKBITS)] and [ROUNDUP(blocks, SFS_BLKBITS)], both
    of type uint32_t. *)
Definition sfs_freemap_blocks (s : sfs_super) : Z := u32 (u64 (s_blocks s + SFS_BLKBITS - 1) / SFS_BLKBITS).
Definition sfs_freemap_bits (s : sfs_super) : Z :=
  let a := u64 (s_blocks s + SFS_BLKBITS - 1) in u32 (a - a mod SFS_BLKBITS).

Definition sfs_sync_freemap : M (sfs_fs D) unit := fun sfs =>
  '(sfs, _, ret) ← sfs_wblock sfs (fst (bitmap_getdata (freemap sfs))) 0 SFS_BLKN_FREEMAP (sfs_freemap_blocks (super sfs));
  Ok (sfs, if ret =? 0 then inr tt else inl (- ret)).

Fixpoint clear_loop sfs (blkno : Z) (nblks : nat) (ret : option Z) : res (sfs_fs D * option Z) :=
  match nblks with
  | O => Ok (sfs, ret)
  | S n =>
      '(sfs, ret) ← rw_buffer sfs blkno true true;
      if negb (ret =? 0) then Ok (sfs, Some ret) else clear_loop sfs (u32 (blkno + 1)) n (Some ret)
  end.

(** [ret] has no value when the loop runs for no block. *)
Definition sfs_clear_block (blkno nblks : Z) : M (sfs_fs D) unit := fun sfs =>
  sfs ← lock_sfs_io sfs;
  buf ← put_bytes (sfs_buffer sfs) 0 (replicate (Z.to_nat SFS_BLKSIZE) 0);
  '(sfs, ret) ← clear_loop (set_sfs_buffer buf sfs) blkno (Z.to_nat nblks) None;
  match ret with
  | Some ret => Ok (unlock_sfs_io sfs, if ret =? 0 then inr tt else inl (- ret))
  | None => Fault
  end.

(** * What the block operations do

    [io_ok] is what they need and keep; [io_step sfs f sfs'] says that [sfs'] differs
    from [sfs] only in its scratch buffer and in a device whose blocks are those of
    [f]. *)
Context `{!DeviceLaws D}.

Definition io_ready sfs : Prop :=
  dev_ok (dev sfs) /\ length (sfs_buffer sfs) = Z.to_nat SFS_BLKSIZE /\ Forall is_byte (sfs_buffer sfs) /\
  s_blocks (super sfs) <= d_nblocks (dev sfs) <= 2 ^ 20.

Definition io_ok sfs : Prop := io_ready sfs /\ io_sem sfs = 1.

Definition io_step sfs (f : Z -> list Z) sfs' : Prop :=
  exists d buf, sfs' = set_dev d (set_sfs_buffer buf sfs) /\ io_ok sfs' /\ forall b, 0 <= b -> block d b = f b.

Definition disk_of sfs : Z -> list Z := block (dev sfs).

Definition upd (f : Z -> list Z) (b : Z) (l : list Z) : Z -> list Z := fun x => if decide (x = b) then l else f x.

Lemma upd_eq f b l : upd f b l b = l.
Proof. unfold upd. by rewrite decide_True. Qed.

Lemma upd_ne f b l x : x <> b -> upd f b l x = f x.
Proof. intros H. unfold upd. by rewrite decide_False. Qed.

Lemma io_step_trans s1 f s2 g s3 : io_step s1 f s2 -> io_step s2 g s3 -> io_step s1 g s3.
Proof. intros (d1 & b1 & -> & _ & _) (d2 & b2 & -> & H1 & H2). by exists d2, b2. Qed.

Lemma io_step_ok s f s' : io_step s f s' -> io_ok s'.
Proof. by intros (d & b & -> & H & _). Qed.

Lemma io_step_disk s f s' b : io_step s f s' -> 0 <= b -> disk_of s' b = f b.
Proof. intros (d & buf & -> & _ & H) Hb. by apply H. Qed.

Lemma io_step_ext s f g s' : io_step s f s' -> (forall b, 0 <= b -> f b = g b) -> io_step s g s'.
Proof. intros (d & b & -> & H1 & H2) He. exists d, b. split; [done|]. split; [done|]. intros x Hx. by rewrite H2, He. Qed.

Lemma io_step_refl s : io_ok s -> io_step s (disk_of s) s.
Proof. intros H. exists (dev s), (sfs_buffer s). split; [by destruct s|]. done. Qed.

Lemma rwblock_iob_ok buf pos blkno :
  0 <= pos -> pos + SFS_BLKSIZE <= Z.of_nat (length buf) -> 0 <= blkno < 2 ^ 20 ->
  iobuf_ok (iobuf_init buf pos SFS_BLKSIZE (u32 (blkno * SFS_BLKSIZE))) /\ u32 (blkno * SFS_BLKSIZE) = blkno * SFS_BLKSIZE.
Proof.
  intros Hp Hl Hb. unfold SFS_BLKSIZE in *. rewrite u32_small by lia. split; [|done].
  unfold iobuf_ok; cbn [io_base io_resid io_len io_offset io_mem iobuf_init]. lia.
Qed.

Lemma rwblock_read sfs buf pos blkno check :
  io_ready sfs -> 0 <= blkno < s_blocks (super sfs) -> (check = true -> blkno <> 0) ->
  0 <= pos -> pos + SFS_BLKSIZE <= Z.of_nat (length buf) ->
  exists d, sfs_rwblock_nolock sfs buf pos blkno false check =
      Ok (set_dev d sfs, list_inserts (Z.to_nat pos) (disk_of sfs blkno) buf, 0) /\
    dev_ok d /\ d_nblocks d = d_nblocks (dev sfs) /\ forall b, block d b = disk_of sfs b.
Proof.
  intros (H1 & H2 & H3 & H5) Hb Hc Hp Hl. unfold sfs_rwblock_nolock.
  rewrite c_assert_true. 2: { rewrite (proj2 (Z.ltb_lt blkno _)) by lia. destruct (Z.eqb_spec blkno 0), check; try done. by destruct Hc. }
  cbn [mbind res_bind]. destruct (rwblock_iob_ok buf pos blkno) as [Hio Hu]; [done|done|lia|].
  destruct (dev_read (dev sfs) blkno (iobuf_init buf pos SFS_BLKSIZE (u32 (blkno * SFS_BLKSIZE)))) as (d & -> & Hd & Hn & Hbl); try done; [lia|].
  exists d. cbn [mbind res_bind io_mem advanced io_base iobuf_init]. done.
Qed.

Lemma rwblock_write sfs buf pos blkno check :
  io_ready sfs -> 0 <= blkno < s_blocks (super sfs) -> (check = true -> blkno <> 0) -> Forall is_byte buf ->
  0 <= pos -> pos + SFS_BLKSIZE <= Z.of_nat (length buf) ->
  exists d, sfs_rwblock_nolock sfs buf pos blkno true check = Ok (set_dev d sfs, buf, 0) /\
    dev_ok d /\ d_nblocks d = d_nblocks (dev sfs) /\
    forall b, 0 <= b -> block d b = upd (disk_of sfs) blkno (bytes_at buf (Z.to_nat pos) (Z.to_nat SFS_BLKSIZE)) b.
Proof.
  intros (H1 & H2 & H3 & H5) Hb Hc Hby Hp Hl. unfold sfs_rwblock_nolock.
  rewrite c_assert_true. 2: { rewrite (proj2 (Z.ltb_lt blkno _)) by lia. destruct (Z.eqb_spec blkno 0), check; try done. by destruct Hc. }
  cbn [mbind res_bind]. destruct (rwblock_iob_ok buf pos blkno) as [Hio Hu]; [done|done|lia|].
  destruct (dev_write (dev sfs) blkno (iobuf_init buf pos SFS_BLKSIZE (u32 (blkno * SFS_BLKSIZE)))) as (d & -> & Hd & Hn & Hbl & Hne); try done; [lia|].
  exists d. cbn [mbind res_bind io_mem advanced io_base iobuf_init]. split_and!; try done.
  intros b Hb'. unfold upd. case_decide; [subst; exact Hbl|by apply Hne].
Qed.

Lemma lock_io sfs : io_sem sfs = 1 -> lock_sfs_io sfs = Ok (set_io_sem 0 sfs).
Proof. intros H. unfold lock_sfs_io, lock. by rewrite H. Qed.

Lemma io_ready_set sfs d buf v :
  io_ready sfs -> dev_ok d -> d_nblocks d = d_nblocks (dev sfs) -> length buf = Z.to_nat SFS_BLKSIZE -> Forall is_byte buf ->
  io_ready (set_io_sem v (set_sfs_buffer buf (set_dev d sfs))).
Proof. intros (H1 & H2 & H3 & H4) Hd Hn Hl Hb. unfold io_ready; cbn. by rewrite Hn. Qed.

(** Reading into, and writing from, the file system's buffer. *)
Lemma rw_buffer_read sfs blkno check :
  io_ready sfs -> 0 <= blkno < s_blocks (super sfs) -> (check = true -> blkno <> 0) ->
  exists d, rw_buffer sfs blkno false check = Ok (set_sfs_buffer (disk_of sfs blkno) (set_dev d sfs), 0) /\
    dev_ok d /\ d_nblocks d = d_nblocks (dev sfs) /\ forall b, block d b = disk_of sfs b.
Proof.
  intros Hr Hb Hc. unfold rw_buffer. pose proof Hr as (H1 & H2 & H3 & H4).
  destruct (rwblock_read sfs (sfs_buffer sfs) 0 blkno check) as (d & -> & Hd & Hn & Hbl); [done|done|done|lia| |].
  { rewrite H2. unfold SFS_BLKSIZE. lia. }
  cbn [mbind res_bind]. exists d. rewrite inserts_whole; [done|]. rewrite H2. apply block_length; [done|lia].
Qed.

Lemma rw_buffer_write sfs blkno check :
  io_ready sfs -> 0 <= blkno < s_blocks (super sfs) -> (check = true -> blkno <> 0) ->
  exists d, rw_buffer sfs blkno true check = Ok (set_sfs_buffer (sfs_buffer sfs) (set_dev d sfs), 0) /\
    dev_ok d /\ d_nblocks d = d_nblocks (dev sfs) /\ forall b, 0 <= b -> block d b = upd (disk_of sfs) blkno (sfs_buffer sfs) b.
Proof.
  intros Hr Hb Hc. unfold rw_buffer. pose proof Hr as (H1 & H2 & H3 & H4).
  destruct (rwblock_write sfs (sfs_buffer sfs) 0 blkno check) as (d & -> & Hd & Hn & Hbl); [done|done|done|done|lia| |].
  { rewrite H2. unfold SFS_BLKSIZE. lia. }
  cbn [mbind res_bind]. exists d. split_and!; try done. intros b Hb'. rewrite Hbl by done.
  change (Z.to_nat 0) with 0%nat. by rewrite bytes_at_all.
Qed.

Lemma disk_block_length sfs b : io_ready sfs -> 0 <= b < s_blocks (super sfs) -> length (disk_of sfs b) = Z.to_nat SFS_BLKSIZE.
Proof. intros (H1 & _ & _ & H4) Hb. apply block_length; [done|lia]. Qed.

Lemma disk_block_bytes sfs b : io_ready sfs -> 0 <= b < s_blocks (super sfs) -> Forall is_byte (disk_of sfs b).
Proof. intros (H1 & _ & _ & H4) Hb. apply block_bytes; [done|lia]. Qed.

Lemma sfs_rbuf_spec sfs len blkno offset :
  io_ok sfs -> 0 < blkno < s_blocks (super sfs) -> 0 <= offset < SFS_BLKSIZE -> 0 <= len -> offset + len <= SFS_BLKSIZE ->
  exists sfs', sfs_rbuf len blkno offset sfs = Ok (sfs', inr (bytes_at (disk_of sfs blkno) (Z.to_nat offset) (Z.to_nat len))) /\
    io_step sfs (disk_of sfs) sfs'.
Proof.
  intros [Hr Hs] Hb Ho Hl Hol. unfold sfs_rbuf.
  rewrite (proj2 (Z.leb_le 0 offset)), (proj2 (Z.ltb_lt offset _)), (proj2 (Z.leb_le _ SFS_BLKSIZE)) by lia.
  cbn [andb c_assert mbind res_bind]. rewrite lock_io by done. cbn [mbind res_bind].
  destruct (rw_buffer_read (set_io_sem 0 sfs) blkno true) as (d & -> & Hd & Hn & Hbl); [done|cbn; lia|lia|].
  cbn [mbind res_bind Z.eqb]. cbn [sfs_buffer set_sfs_buffer].
  change (disk_of (set_io_sem 0 sfs)) with (disk_of sfs) in *.
  pose proof (disk_block_length sfs blkno Hr ltac:(lia)) as Hlen.
  rewrite get_bytes_ok by (rewrite ?Hlen; unfold SFS_BLKSIZE in *; lia). cbn [mbind res_bind].
  eexists. split; [done|]. exists d, (disk_of sfs blkno). split; [unfold unlock_sfs_io, set_io_sem, set_sfs_buffer, set_dev, unlock; cbn; by rewrite Hs|].
  split; [|intros b _; apply Hbl]. split; [|done].
  apply (io_ready_set sfs d (disk_of sfs blkno)); try done. apply disk_block_bytes; [done|lia].
Qed.

Lemma sfs_wbuf_spec sfs data blkno offset :
  io_ok sfs -> 0 < blkno < s_blocks (super sfs) -> 0 <= offset < SFS_BLKSIZE -> offset + Z.of_nat (length data) <= SFS_BLKSIZE ->
  Forall is_byte data ->
  exists sfs', sfs_wbuf data blkno offset sfs = Ok (sfs', inr tt) /\
    io_step sfs (upd (disk_of sfs) blkno (list_inserts (Z.to_nat offset) data (disk_of sfs blkno))) sfs'.
Proof.
  intros [Hr Hs] Hb Ho Hol Hby. unfold sfs_wbuf.
  rewrite (proj2 (Z.leb_le 0 offset)), (proj2 (Z.ltb_lt offset _)), (proj2 (Z.leb_le _ SFS_BLKSIZE)) by lia.
  cbn [andb c_assert mbind res_bind]. rewrite lock_io by done. cbn [mbind res_bind].
  destruct (rw_buffer_read (set_io_sem 0 sfs) blkno true) as (d & -> & Hd & Hn & Hbl); [done|cbn; lia|lia|].
  cbn [mbind res_bind Z.eqb]. cbn [sfs_buffer set_sfs_buffer].
  change (disk_of (set_io_sem 0 sfs)) with (disk_of sfs) in *.
  pose proof (disk_block_length sfs blkno Hr ltac:(lia)) as Hlen.
  rewrite put_bytes_ok by (rewrite ?Hlen; unfold SFS_BLKSIZE in *; lia). cbn [mbind res_bind].
  set (buf := list_inserts (Z.to_nat offset) data (disk_of sfs blkno)).
  assert (Hbl' : length buf = Z.to_nat SFS_BLKSIZE) by (unfold buf; by rewrite length_inserts).
  assert (Hbb : Forall is_byte buf) by (apply Forall_inserts; [apply disk_block_bytes; [done|lia]|done]).
  set (s1 := set_sfs_buffer buf (set_sfs_buffer (disk_of sfs blkno) (set_dev d (set_io_sem 0 sfs)))).
  assert (Hr1 : io_ready s1) by (by apply (io_ready_set sfs d buf)).
  destruct (rw_buffer_write s1 blkno true) as (d2 & -> & Hd2 & Hn2 & Hbl2); [done|cbn; lia|lia|].
  cbn [mbind res_bind Z.eqb]. eexists. split; [done|].
  exists d2, buf. split; [unfold unlock_sfs_io, set_io_sem, set_sfs_buffer, set_dev, unlock, s1; cbn; by rewrite Hs|].
  split.
  - split; [|done]. apply (io_ready_set sfs d2 buf); try done. rewrite Hn2. exact Hn.
  - intros b Hb'. rewrite Hbl2 by done. cbn [sfs_buffer s1 set_sfs_buffer]. unfold upd. case_decide; [done|]. apply Hbl.
Qed.

Lemma sfs_clear_block_spec sfs blkno :
  io_ok sfs -> 0 < blkno < s_blocks (super sfs) ->
  exists sfs', sfs_clear_block blkno 1 sfs = Ok (sfs', inr tt) /\
    io_step sfs (upd (disk_of sfs) blkno (replicate (Z.to_nat SFS_BLKSIZE) 0)) sfs'.
Proof.
  intros [Hr Hs] Hb. unfold sfs_clear_block. rewrite lock_io by done. cbn [mbind res_bind sfs_buffer set_io_sem].
  pose proof Hr as (H1 & H2 & H3 & H4).
  rewrite put_bytes_ok by (rewrite ?length_replicate, ?H2; lia). cbn [mbind res_bind]. change (Z.to_nat 0) with 0%nat.
  rewrite inserts_whole by (by rewrite length_replicate). change (Z.to_nat 1) with 1%nat. cbn [clear_loop].
  set (buf := replicate (Z.to_nat SFS_BLKSIZE) 0).
  assert (Hbl' : length buf = Z.to_nat SFS_BLKSIZE) by (unfold buf; apply length_replicate).
  assert (Hbb : Forall is_byte buf) by (apply Forall_replicate; unfold is_byte; lia). clearbody buf.
  destruct (rw_buffer_write (set_sfs_buffer buf (set_io_sem 0 sfs)) blkno true) as (d2 & -> & Hd2 & Hn2 & Hbl2).
  { by apply (io_ready_set sfs (dev sfs) buf). }
  { cbn; lia. }
  { lia. }
  cbn [mbind res_bind Z.eqb negb]. eexists. split; [done|].
  exists d2, buf. split; [unfold unlock_sfs_io, set_io_sem, set_sfs_buffer, set_dev, unlock; cbn; by rewrite Hs|].
  split; [|exact Hbl2]. split; [|done]. by apply (io_ready_set sfs d2 buf).
Qed.

Lemma sfs_rblock_spec sfs buf pos blkno :
  io_ok sfs -> 0 < blkno < s_blocks (super sfs) -> 0 <= pos -> pos + SFS_BLKSIZE <= Z.of_nat (length buf) ->
  exists sfs', sfs_rblock sfs buf pos blkno 1 = Ok (sfs', list_inserts (Z.to_nat pos) (disk_of sfs blkno) buf, 0) /\
    io_step sfs (disk_of sfs) sfs'.
Proof.
  intros [Hr Hs] Hb Hp Hl. unfold sfs_rblock, sfs_rwblock. rewrite lock_io by done. cbn [mbind res_bind].
  change (Z.to_nat 1) with 1%nat. cbn [rwblock_loop].
  destruct (rwblock_read (set_io_sem 0 sfs) buf pos blkno true) as (d & -> & Hd & Hn & Hbl); try done; [cbn; lia|lia|].
  cbn [mbind res_bind Z.eqb negb]. eexists. split; [done|]. exists d, (sfs_buffer sfs).
  split; [unfold unlock_sfs_io, set_io_sem, set_sfs_buffer, set_dev, unlock; cbn; by rewrite Hs|].
  split; [|intros b _; apply Hbl]. split; [|done]. pose proof Hr as (H1 & H2 & H3 & H4).
  by apply (io_ready_set sfs d (sfs_buffer sfs)).
Qed.

Lemma sfs_wblock_spec sfs buf pos blkno :
  io_ok sfs -> 0 < blkno < s_blocks (super sfs) -> 0 <= pos -> pos + SFS_BLKSIZE <= Z.of_nat (length buf) -> Forall is_byte buf ->
  exists sfs', sfs_wblock sfs buf pos blkno 1 = Ok (sfs', buf, 0) /\
    io_step sfs (upd (disk_of sfs) blkno (bytes_at buf (Z.to_nat pos) (Z.to_nat SFS_BLKSIZE))) sfs'.
Proof.
  intros [Hr Hs] Hb Hp Hl Hby. unfold sfs_wblock, sfs_rwblock. rewrite lock_io by done. cbn [mbind res_bind].
  change (Z.to_nat 1) with 1%nat. cbn [rwblock_loop].
  destruct (rwblock_write (set_io_sem 0 sfs) buf pos blkno true) as (d & -> & Hd & Hn & Hbl); try done; [cbn; lia|lia|].
  cbn [mbind res_bind Z.eqb negb]. eexists. split; [done|]. exists d, (sfs_buffer sfs).
  split; [unfold unlock_sfs_io, set_io_sem, set_sfs_buffer, set_dev, unlock; cbn; by rewrite Hs|].
  split; [|exact Hbl]. split; [|done]. pose proof Hr as (H1 & H2 & H3 & H4).
  by apply (io_ready_set sfs d (sfs_buffer sfs)).
Qed.

End Io.
