(* ===== verification/SfsBmap.v ===== *)
(** The blocks of an SFS file: block allocation and the block map of an inode, the
    first part of lab8/kern/fs/sfs/sfs_inode.c.

    A function that works on one inode has the file system and that inode as its
    state; [on_fs] runs a function on the file system only. *)
From S2P Require Import Prelude Layout StateM Iobuf Bitmap Disk0 SfsIo.

Record sfs_inode := mk_sin {
  din : sfs_disk_inode;
  ino : Z;
  dirty : bool;
  reclaim_count : Z;
  sem : Z;
}.

Section Bmap.
Context {D : Type} `{!Device D}.
Implicit Types (sfs : sfs_fs D) (sin : sfs_inode).

Definition St : Type := sfs_fs D * sfs_inode.

Definition on_fs {A} (m : M (sfs_fs D) A) : M St A := zoom fst (fun f s => (f, snd s)) m.

Definition the_din : M St sfs_disk_inode := gets (fun s => din (snd s)).

Definition upd_sin (f : sfs_inode -> sfs_inode) : M St unit := modify (fun s => (fst s, f (snd s))).

Definition set_din (d : sfs_disk_inode) sin : sfs_inode := mk_sin d (ino sin) (dirty sin) (reclaim_count sin) (sem sin).
Definition set_dirty (b : bool) sin : sfs_inode := mk_sin (din sin) (ino sin) b (reclaim_count sin) (sem sin).
Definition set_sin_sem (v : Z) sin : sfs_inode := mk_sin (din sin) (ino sin) (dirty sin) (reclaim_count sin) v.

Definition din_size (v : Z) (d : sfs_disk_inode) : sfs_disk_inode :=
  mk_din v (d_type d) (d_nlinks d) (d_blocks d) (direct d) (indirect d).
Definition din_blocks (v : Z) (d : sfs_disk_inode) : sfs_disk_inode :=
  mk_din (d_size d) (d_type d) (d_nlinks d) v (direct d) (indirect d).
Definition din_direct (i v : Z) (d : sfs_disk_inode) : sfs_disk_inode :=
  mk_din (d_size d) (d_type d) (d_nlinks d) (d_blocks d) (<[Z.to_nat i := v]> (direct d)) (indirect d).
Definition din_indirect (v : Z) (d : sfs_disk_inode) : sfs_disk_inode :=
  mk_din (d_size d) (d_type d) (d_nlinks d) (d_blocks d) (direct d) v.

(** [din->direct[index]] *)
Definition direct_at (d : sfs_disk_inode) (index : Z) : res Z :=
  match direct d !! Z.to_nat index with Some v => Ok v | None => Fault end.

Definition lock_sin : M St unit := fun s =>
  v ← lock (sem (snd s)); Ok ((fst s, set_sin_sem v (snd s)), inr tt).
Definition unlock_sin : M St unit := upd_sin (fun sin => set_sin_sem (unlock (sem sin)) sin).

(** * Allocation of blocks *)
Definition sfs_block_inuse (ino : Z) : M (sfs_fs D) bool := fun sfs =>
  if negb (ino =? 0) && (ino <? s_blocks (super sfs)) then
    b ← bitmap_test (freemap sfs) ino; Ok (sfs, inr (negb b))
  else Panic.

(** [assert(sfs_block_inuse(sfs, ino))] *)
Definition assert_inuse (ino : Z) : M (sfs_fs D) unit := b ← sfs_block_inuse ino; assert (fun _ => b).

Definition with_unused (v : Z) (s : sfs_super) : sfs_super := mk_super (s_magic s) (s_blocks s) v (s_info s).

Definition sfs_block_alloc : M (sfs_fs D) Z := fun sfs =>
  r ← bitmap_alloc (freemap sfs);
  match r with
  | None => Ok (sfs, inl E_NO_MEM)
  | Some (fm, ino) =>
      let sfs := set_freemap fm sfs in
      _ ← c_assert (0 <? unused_blocks (super sfs));
      let sfs := set_super_dirty true (set_super (with_unused (u32 (unused_blocks (super sfs) - 1)) (super sfs)) sfs) in
      (_ ← assert_inuse ino; _ ← sfs_clear_block ino 1; mret ino) sfs
  end.

Definition sfs_block_free (ino : Z) : M (sfs_fs D) unit := fun sfs =>
  '(sfs, r) ← assert_inuse ino sfs;
  match r with
  | inl e => Ok (sfs, inl e)
  | inr _ =>
      fm ← bitmap_free (freemap sfs) ino;
      let sfs := set_freemap fm sfs in
      Ok (set_super_dirty true (set_super (with_unused (u32 (unused_blocks (super sfs) + 1)) (super sfs)) sfs), inr tt)
  end.

(** * The block map *)

(** The end of [sfs_bmap_get_sub_nolock]: a new data block, entered at [offset] of
    the entry block [ent], which is given back if it is new itself and something
    fails. *)
Definition sfs_bmap_new_entry (entp ent offset : Z) : M (sfs_fs D) (Z * Z) :=
  on_error
    (ino ← sfs_block_alloc;
     _ ← on_error (sfs_wbuf (le_bytes 4 ino) ent offset) (sfs_block_free ino);
     mret (ent, ino))
    (if negb (ent =? entp) then sfs_block_free ent else mret tt).

(** [*entp] and [*ino_store] *)
Definition sfs_bmap_get_sub_nolock (entp index : Z) (create : bool) : M (sfs_fs D) (Z * Z) :=
  _ ← assert (fun _ => index <? SFS_BLK_NENTRY);
  let offset := index * 4 in
  if negb (entp =? 0) then
    bs ← sfs_rbuf 4 entp offset;
    let ino := le_value bs in
    if negb (ino =? 0) || negb create then mret (entp, ino) else sfs_bmap_new_entry entp entp offset
  else if negb create then mret (entp, 0)
  else ent ← sfs_block_alloc; sfs_bmap_new_entry entp ent offset.

Definition sfs_bmap_get_nolock (index : Z) (create : bool) : M St Z :=
  d ← the_din;
  ino ←
    (if index <? SFS_NDIRECT then
       ino ← lift (direct_at d index);
       if (ino =? 0) && create then
         ino ← on_fs sfs_block_alloc;
         _ ← upd_sin (fun sin => set_dirty true (set_din (din_direct index ino (din sin)) sin));
         mret ino
       else mret ino
     else
       let index := u32 (index - SFS_NDIRECT) in
       if index <? SFS_BLK_NENTRY then
         '(ent, ino) ← on_fs (sfs_bmap_get_sub_nolock (indirect d) index create);
         _ ← (if negb (ent =? indirect d) then
                _ ← assert (fun s => indirect (din (snd s)) =? 0);
                upd_sin (fun sin => set_dirty true (set_din (din_indirect ent (din sin)) sin))
              else mret tt);
         mret ino
       else fun _ => Panic);
  _ ← (if ino =? 0 then mret tt else on_fs (assert_inuse ino));
  mret ino.

Definition sfs_bmap_free_sub_nolock (ent index : Z) : M (sfs_fs D) unit :=
  _ ← assert_inuse ent;
  _ ← assert (fun _ => index <? SFS_BLK_NENTRY);
  let offset := index * 4 in
  bs ← sfs_rbuf 4 ent offset;
  let ino := le_value bs in
  if negb (ino =? 0) then
    _ ← sfs_wbuf (le_bytes 4 0) ent offset;
    sfs_block_free ino
  else mret tt.

Definition sfs_bmap_free_nolock (index : Z) : M St unit :=
  d ← the_din;
  if index <? SFS_NDIRECT then
    ino ← lift (direct_at d index);
    if negb (ino =? 0) then
      _ ← on_fs (sfs_block_free ino);
      upd_sin (fun sin => set_dirty true (set_din (din_direct index 0 (din sin)) sin))
    else mret tt
  else
    let index := u32 (index - SFS_NDIRECT) in
    if index <? SFS_BLK_NENTRY then
      if negb (indirect d =? 0) then on_fs (sfs_bmap_free_sub_nolock (indirect d) index) else mret tt
    else mret tt.

Definition sfs_bmap_load_nolock (index : Z) : M St Z :=
  d ← the_din;
  _ ← assert (fun _ => index <=? d_blocks d);
  let create := index =? d_blocks d in
  ino ← sfs_bmap_get_nolock index create;
  _ ← on_fs (assert_inuse ino);
  _ ← (if create then upd_sin (fun sin => set_din (din_blocks (u32 (d_blocks (din sin) + 1)) (din sin)) sin) else mret tt);
  mret ino.

Definition sfs_bmap_truncate_nolock : M St unit :=
  d ← the_din;
  _ ← assert (fun _ => negb (d_blocks d =? 0));
  _ ← sfs_bmap_free_nolock (u32 (d_blocks d - 1));
  upd_sin (fun sin => set_dirty true (set_din (din_blocks (u32 (d_blocks (din sin) - 1)) (din sin)) sin)).

(** * Invariants *)
Context `{!DeviceLaws D}.

Definition is_free sfs (b : Z) : bool := bit (freemap sfs) b.

(** Only real blocks are free, and the superblock counts them. *)
Definition freemap_ok sfs : Prop :=
  bitmap_wf (freemap sfs) /\ s_blocks (super sfs) <= nbits (freemap sfs) /\
  (forall i, 0 <= i -> is_free sfs i = true -> 0 < i < s_blocks (super sfs)) /\
  unused_blocks (super sfs) = Z.of_nat (free_bits (freemap sfs)).

Definition fs_inv sfs : Prop := io_ok sfs /\ freemap_ok sfs.

Definition inuse sfs (b : Z) : Prop := 0 < b < s_blocks (super sfs) /\ is_free sfs b = false.

(** What no block operation touches. *)
Definition same_static sfs sfs' : Prop :=
  s_magic (super sfs') = s_magic (super sfs) /\ s_blocks (super sfs') = s_blocks (super sfs) /\ s_info (super sfs') = s_info (super sfs) /\
  fs_sem sfs' = fs_sem sfs /\ mutex_sem sfs' = mutex_sem sfs /\
  inode_list sfs' = inode_list sfs /\ hash_list sfs' = hash_list sfs /\ kmem sfs' = kmem sfs.

(** [sfs'] is a good state with the blocks of [f] and the free blocks of [g]. *)
Definition fs_step sfs (f : Z -> list Z) (g : Z -> bool) sfs' : Prop :=
  fs_inv sfs' /\ same_static sfs sfs' /\
  (forall b, 0 <= b -> disk_of sfs' b = f b) /\ (forall b, 0 <= b -> is_free sfs' b = g b).

Definition updb (g : Z -> bool) (b : Z) (v : bool) : Z -> bool := fun x => if decide (x = b) then v else g x.

#[local] Instance same_static_preorder : PreOrder same_static.
Proof. split; [by intros s|]. intros a b c H1 H2. unfold same_static in *. destruct_and!. split_and!; by etrans. Qed.

Lemma fs_step_trans s1 f g s2 f' g' s3 : fs_step s1 f g s2 -> fs_step s2 f' g' s3 -> fs_step s1 f' g' s3.
Proof. intros (_ & H1 & _) (H2 & H3 & H4 & H5). split; [done|]. split; [by etrans|done]. Qed.

Lemma fs_step_ext s f g f' g' s' :
  fs_step s f g s' -> (forall b, 0 <= b -> f b = f' b) -> (forall b, 0 <= b -> g b = g' b) -> fs_step s f' g' s'.
Proof. intros (H1 & H2 & H3 & H4) Hf Hg. split_and!; try done; intros b Hb; [by rewrite H3, Hf|by rewrite H4, Hg]. Qed.

Lemma fs_step_refl s : fs_inv s -> fs_step s (disk_of s) (is_free s) s.
Proof. intros H. by split_and!. Qed.

Lemma io_fs_step s f s' : fs_inv s -> io_step s f s' -> fs_step s f (is_free s) s'.
Proof. intros [_ Hfm] (d & buf & -> & H1 & H2). by split_and!. Qed.

Lemma inuse_pos sfs b : inuse sfs b -> 0 <= b.
Proof. unfold inuse. lia. Qed.

Lemma inuse_range sfs b : inuse sfs b -> 0 < b < s_blocks (super sfs).
Proof. by intros [? _]. Qed.

Lemma fs_step_blocks s f g s' : fs_step s f g s' -> s_blocks (super s') = s_blocks (super s).
Proof. intros (_ & (_ & H & _) & _). exact H. Qed.

Lemma fs_step_inuse s f g s' b : fs_step s f g s' -> inuse s' b <-> 0 < b < s_blocks (super s) /\ g b = false.
Proof.
  intros Hst. unfold inuse. rewrite (fs_step_blocks _ _ _ _ Hst). destruct Hst as (_ & _ & _ & Hg).
  split; intros [H1 H2]; (split; [done|]); [by rewrite <- Hg by lia|by rewrite Hg by lia].
Qed.

Lemma block_inuse_spec sfs b :
  freemap_ok sfs -> 0 < b < s_blocks (super sfs) -> sfs_block_inuse b sfs = Ok (sfs, inr (negb (is_free sfs b))).
Proof.
  intros (Hwf & Hn & _) Hb. unfold sfs_block_inuse.
  rewrite (proj2 (Z.eqb_neq b 0)), (proj2 (Z.ltb_lt b _)) by lia. cbn [negb andb].
  by rewrite bitmap_test_spec by (done || lia).
Qed.

Lemma assert_inuse_ok sfs b : freemap_ok sfs -> inuse sfs b -> assert_inuse b sfs = Ok (sfs, inr tt).
Proof.
  intros Hok [Hb Hf]. unfold assert_inuse. rewrite (bind_ok _ _ _ _ _ (block_inuse_spec _ _ Hok Hb)).
  rewrite Hf. done.
Qed.

Lemma block_alloc_spec sfs :
  fs_inv sfs ->
  (sfs_block_alloc sfs = Ok (sfs, inl E_NO_MEM) /\ forall b, is_free sfs b = false) \/
  (exists sfs' b, sfs_block_alloc sfs = Ok (sfs', inr b) /\ 0 < b < s_blocks (super sfs) /\ is_free sfs b = true /\
     fs_step sfs (upd (disk_of sfs) b (replicate (Z.to_nat SFS_BLKSIZE) 0)) (updb (is_free sfs) b false) sfs').
Proof.
  intros [Hio Hfm]. pose proof Hfm as (Hwf & Hn & Hreal & Hun). unfold sfs_block_alloc.
  destruct (bitmap_alloc_spec _ Hwf) as [[-> Hz]|(fm & b & -> & Hb & Ht & _ & Hwf' & Hn' & _ & Hf & Hs)].
  - left. done.
  - right. cbn [mbind res_bind]. pose proof (Hreal b ltac:(lia) Ht) as Hrb.
    assert (Hcount : free_bits (freemap sfs) = S (free_bits fm)) by (by eapply free_bits_flip).
    cbn [super set_freemap]. rewrite (proj2 (Z.ltb_lt 0 _)) by lia. cbn [c_assert mbind res_bind].
    match goal with |- exists _ _, (_ ≫= _) ?s = _ /\ _ => set (s1 := s) end.
    assert (Hfm1 : unused_blocks (super s1) = Z.of_nat (free_bits fm)).
    { subst s1. cbn. rewrite Hun, Hcount. destruct Hwf as (W1 & W2 & W3 & _). unfold WORD_BITS in W2.
      assert (free_bits (freemap sfs) <= Z.to_nat (nbits (freemap sfs)))%nat as Hle.
      { unfold free_bits. etrans; [apply length_filter|]. by rewrite length_seqZ. }
      rewrite u32_small; lia. }
    assert (Hok1 : freemap_ok s1).
    { split; [exact Hwf'|]. split; [cbn; by rewrite Hn'|]. split; [|exact Hfm1]. intros i Hi Hfi. cbn.
      apply Hreal; [done|]. unfold is_free in *; cbn in Hfi. destruct (decide (i = b)) as [->|]; [by rewrite Hf in Hfi|]. by rewrite <- Hs. }
    assert (Hio1 : io_ok s1) by exact Hio.
    rewrite (bind_ok _ _ _ _ _ (assert_inuse_ok s1 b Hok1 (conj Hrb Hf))).
    destruct (sfs_clear_block_spec s1 b Hio1) as (s2 & Hclr & Hstep); [exact Hrb|].
    rewrite (bind_ok _ _ _ _ _ Hclr). exists s2, b. split; [done|]. split; [done|]. split; [done|].
    apply (io_fs_step s1) in Hstep; [|by split]. destruct Hstep as (I1 & I2 & I3 & I4). split; [done|]. split.
    { exact I2. }
    split; [done|]. intros x Hx. rewrite I4 by done. unfold updb. case_decide; [subst; exact Hf|]. by apply Hs.
Qed.

Lemma block_free_spec sfs b :
  fs_inv sfs -> inuse sfs b ->
  exists sfs', sfs_block_free b sfs = Ok (sfs', inr tt) /\
    fs_step sfs (disk_of sfs) (updb (is_free sfs) b true) sfs'.
Proof.
  intros [Hio Hfm] Hb. unfold sfs_block_free. rewrite assert_inuse_ok by done. cbn [mbind res_bind].
  pose proof Hfm as (Hwf & Hn & Hreal & Hun). destruct Hb as [Hrb Hf].
  destruct (bitmap_free_spec (freemap sfs) b Hwf ltac:(lia) Hf) as (fm & -> & Hwf' & Hn' & Hnw & Ht & Hs).
  cbn [mbind res_bind]. eexists. split; [done|].
  assert (Hcount : free_bits fm = S (free_bits (freemap sfs))).
  { eapply (free_bits_flip fm (freemap sfs) b); [done|lia|done|done|]. intros j Hj Hne. by rewrite Hs. }
  assert (free_bits fm <= Z.to_nat (nbits fm))%nat as Hle.
  { unfold free_bits. etrans; [apply length_filter|]. by rewrite length_seqZ. }
  pose proof Hwf' as (W1 & W2 & W3 & W4). unfold WORD_BITS in W2.
  split.
  { split; [exact Hio|]. split; [exact Hwf'|]. split; [cbn; by rewrite Hn'|]. split.
    - intros i Hi Hfi. cbn. destruct (decide (i = b)) as [->|]; [done|]. apply Hreal; [done|]. unfold is_free in *; cbn in Hfi. by rewrite <- Hs.
    - cbn. rewrite Hun, Hcount. rewrite u32_small; lia. }
  split; [by split_and!|]. split; [done|]. intros x Hx. unfold updb. case_decide; [subst; exact Ht|]. by apply Hs.
Qed.

(** * Entry blocks *)
Definition entry (f : Z -> list Z) (ent index : Z) : Z := word_at (f ent) (Z.to_nat (index * 4)).

Definition with_entry (l : list Z) (index v : Z) : list Z := list_inserts (Z.to_nat (index * 4)) (le_bytes 4 v) l.

Definition zero_block : list Z := replicate (Z.to_nat SFS_BLKSIZE) 0.

Lemma with_entry_length l index v : length (with_entry l index v) = length l.
Proof. apply length_inserts. Qed.

Lemma word_at_with_entry l index index' v :
  length l = Z.to_nat SFS_BLKSIZE -> 0 <= index < SFS_BLK_NENTRY -> 0 <= index' < SFS_BLK_NENTRY -> word32 v ->
  word_at (with_entry l index v) (Z.to_nat (index' * 4)) = if decide (index' = index) then v else word_at l (Z.to_nat (index' * 4)).
Proof.
  unfold SFS_BLK_NENTRY, SFS_BLKSIZE. change (4096 / 4) with 1024. intros Hl Hi Hi' Hv. unfold word_at, with_entry.
  case_decide as E.
  - subst. pose proof (bytes_at_inserts l (Z.to_nat (index * 4)) (le_bytes 4 v)) as H.
    rewrite le_bytes_length in H. rewrite H by lia. apply le_bytes_value. exact Hv.
  - rewrite bytes_at_disjoint; [done|rewrite le_bytes_length; lia|lia].
Qed.

Lemma word_at_zero k : (k + 4 <= Z.to_nat SFS_BLKSIZE)%nat -> word_at zero_block k = 0.
Proof.
  intros H. unfold word_at, zero_block, bytes_at. rewrite drop_replicate, take_replicate.
  rewrite Nat.min_l by lia. done.
Qed.

Lemma word_at_word32 l k : Forall is_byte l -> word32 (word_at l k).
Proof.
  intros H. unfold word_at, word32. pose proof (le_value_range (bytes_at l k 4) (bytes_at_Forall _ _ _ _ H)) as Hr.
  assert (length (bytes_at l k 4) <= 4)%nat as Hl by (unfold bytes_at; rewrite length_take; lia).
  assert (256 ^ Z.of_nat (length (bytes_at l k 4)) <= 256 ^ 4) by (apply Z.pow_le_mono_r; lia). lia.
Qed.

Lemma inuse_disk_length sfs b : fs_inv sfs -> inuse sfs b -> length (disk_of sfs b) = Z.to_nat SFS_BLKSIZE.
Proof. intros [[Hr _] _] [Hb _]. apply disk_block_length; [done|lia]. Qed.

Lemma inuse_disk_bytes sfs b : fs_inv sfs -> inuse sfs b -> Forall is_byte (disk_of sfs b).
Proof. intros [[Hr _] _] [Hb _]. apply disk_block_bytes; [done|lia]. Qed.

Lemma read_entry sfs ent index :
  fs_inv sfs -> inuse sfs ent -> 0 <= index < SFS_BLK_NENTRY ->
  exists sfs', sfs_rbuf 4 ent (index * 4) sfs = Ok (sfs', inr (bytes_at (disk_of sfs ent) (Z.to_nat (index * 4)) 4)) /\
    fs_step sfs (disk_of sfs) (is_free sfs) sfs'.
Proof.
  intros Hinv [Hb _] Hi. unfold SFS_BLK_NENTRY, SFS_BLKSIZE in Hi. change (4096 / 4) with 1024 in Hi.
  destruct (sfs_rbuf_spec sfs 4 ent (index * 4)) as (sfs' & Hrun & Hst); [apply Hinv|done|unfold SFS_BLKSIZE; lia|lia|unfold SFS_BLKSIZE; lia|].
  exists sfs'. split; [exact Hrun|]. by apply io_fs_step.
Qed.

Lemma write_entry sfs ent index v :
  fs_inv sfs -> inuse sfs ent -> 0 <= index < SFS_BLK_NENTRY ->
  exists sfs', sfs_wbuf (le_bytes 4 v) ent (index * 4) sfs = Ok (sfs', inr tt) /\
    fs_step sfs (upd (disk_of sfs) ent (with_entry (disk_of sfs ent) index v)) (is_free sfs) sfs'.
Proof.
  intros Hinv [Hb _] Hi. unfold SFS_BLK_NENTRY, SFS_BLKSIZE in Hi. change (4096 / 4) with 1024 in Hi.
  destruct (sfs_wbuf_spec sfs (le_bytes 4 v) ent (index * 4)) as (sfs' & Hrun & Hst);
    [apply Hinv|done|unfold SFS_BLKSIZE; lia|rewrite le_bytes_length; unfold SFS_BLKSIZE; lia|apply le_bytes_byte|].
  exists sfs'. split; [exact Hrun|]. by apply io_fs_step.
Qed.

Lemma fs_step_inv s f g s' : fs_step s f g s' -> fs_inv s'.
Proof. by intros (H & _). Qed.

Lemma inuse_not_free sfs b : inuse sfs b -> is_free sfs b = true -> False.
Proof. intros [_ H1] H2. by rewrite H1 in H2. Qed.

(** Taking a free block keeps the others in use. *)
Lemma inuse_after_alloc sfs f b sfs' x :
  fs_step sfs f (updb (is_free sfs) b false) sfs' -> inuse sfs x -> inuse sfs' x.
Proof.
  intros Hst [Hx Hf]. apply (fs_step_inuse _ _ _ _ x Hst). split; [done|]. unfold updb. by case_decide.
Qed.

Lemma new_entry_spec sfs entp ent index :
  fs_inv sfs -> inuse sfs ent -> 0 <= index < SFS_BLK_NENTRY ->
  (exists sfs', sfs_bmap_new_entry entp ent (index * 4) sfs = Ok (sfs', inl E_NO_MEM) /\
     fs_step sfs (disk_of sfs) (if decide (ent = entp) then is_free sfs else updb (is_free sfs) ent true) sfs') \/
  (exists sfs' b, sfs_bmap_new_entry entp ent (index * 4) sfs = Ok (sfs', inr (ent, b)) /\
     0 < b < s_blocks (super sfs) /\ is_free sfs b = true /\
     fs_step sfs (upd (upd (disk_of sfs) b zero_block) ent (with_entry (disk_of sfs ent) index b)) (updb (is_free sfs) b false) sfs').
Proof.
  intros Hinv He Hi. unfold sfs_bmap_new_entry.
  destruct (block_alloc_spec sfs Hinv) as [[Ha _]|(s1 & b & Ha & Hb & Hfree & Hst)].
  - left. case_decide as E.
    + subst. exists sfs. split; [|by apply fs_step_refl]. eapply on_error_err; [by apply bind_err|].
      by rewrite Z.eqb_refl.
    + destruct (block_free_spec sfs ent Hinv He) as (s2 & Hrun & Hst). exists s2. split; [|done].
      eapply on_error_err; [by apply bind_err|]. by rewrite (proj2 (Z.eqb_neq _ _) E).
  - right. pose proof (fs_step_inv _ _ _ _ Hst) as Hinv1. pose proof (inuse_after_alloc _ _ _ _ _ Hst He) as He1.
    destruct (write_entry s1 ent index b Hinv1 He1 Hi) as (s2 & Hw & Hst2).
    exists s2, b. split.
    { apply on_error_ok. rewrite (bind_ok _ _ _ _ _ Ha). rewrite (bind_ok _ _ _ _ _ (on_error_ok _ _ _ _ _ Hw)). done. }
    split; [done|]. split; [done|]. eapply fs_step_ext; [by eapply fs_step_trans| |].
    + intros x Hx. destruct Hst as (_ & _ & Hd & _). pose proof (inuse_pos _ _ He) as Hpe.
      assert (ent <> b) by (intros ->; by apply (inuse_not_free sfs b)).
      destruct (decide (x = ent)) as [->|Hxe].
      * by rewrite !upd_eq, (Hd ent), (upd_ne _ b) by done.
      * rewrite !(upd_ne _ ent) by done. by apply Hd.
    + intros x Hx. destruct Hst as (_ & _ & _ & Hg). by apply Hg.
Qed.

(** * The block map of an inode *)

(** The disk block of the file's block [i], 0 when there is none. *)
Definition bmap (f : Z -> list Z) (d : sfs_disk_inode) (i : Z) : Z :=
  if i <? SFS_NDIRECT then default 0 (direct d !! Z.to_nat i)
  else if indirect d =? 0 then 0 else entry f (indirect d) (i - SFS_NDIRECT).

Definition MAX_BLOCKS : Z := SFS_NDIRECT + SFS_BLK_NENTRY.

(** The blocks the inode owns. *)
Definition own (f : Z -> list Z) (d : sfs_disk_inode) : list Z :=
  (bmap f d <$> seqZ 0 (d_blocks d)) ++ (if indirect d =? 0 then [] else [indirect d]).

Definition inode_ok sfs (d : sfs_disk_inode) : Prop :=
  length (direct d) = 12%nat /\ 0 <= d_blocks d <= MAX_BLOCKS /\ NoDup (own (disk_of sfs) d) /\
  Forall (inuse sfs) (own (disk_of sfs) d) /\
  forall i, d_blocks d <= i < MAX_BLOCKS -> bmap (disk_of sfs) d i = 0.

Lemma max_blocks : MAX_BLOCKS = 1036.
Proof. done. Qed.

Lemma own_elem f d x :
  x ∈ own f d <-> (exists i, 0 <= i < d_blocks d /\ bmap f d i = x) \/ (indirect d <> 0 /\ x = indirect d).
Proof.
  unfold own. rewrite elem_of_app, list_elem_of_fmap. split.
  - intros [(i & -> & Hi)|Hx]; [left; exists i; split; [|done]; apply elem_of_seqZ in Hi; lia|].
    destruct (Z.eqb_spec (indirect d) 0); [by apply not_elem_of_nil in Hx|]. apply list_elem_of_singleton in Hx. by right.
  - intros [(i & Hi & <-)|[Hn ->]]; [left; exists i; split; [done|]; apply elem_of_seqZ; lia|].
    right. rewrite (proj2 (Z.eqb_neq _ _) Hn). by apply list_elem_of_singleton.
Qed.

Lemma inode_inuse sfs d i : inode_ok sfs d -> 0 <= i < d_blocks d -> inuse sfs (bmap (disk_of sfs) d i).
Proof.
  intros (_ & _ & _ & Hu & _) Hi. rewrite Forall_forall in Hu. apply Hu. apply own_elem. left. eauto.
Qed.

Lemma inode_indirect_inuse sfs d : inode_ok sfs d -> indirect d <> 0 -> inuse sfs (indirect d).
Proof. intros (_ & _ & _ & Hu & _) Hi. rewrite Forall_forall in Hu. apply Hu. apply own_elem. by right. Qed.

Lemma inode_inj sfs d i j :
  inode_ok sfs d -> 0 <= i < d_blocks d -> 0 <= j < d_blocks d ->
  bmap (disk_of sfs) d i = bmap (disk_of sfs) d j -> i = j.
Proof.
  intros (_ & _ & Hnd & _) Hi Hj He. unfold own in Hnd. apply NoDup_app in Hnd as (Hnd & _ & _).
  assert (forall k, 0 <= k < d_blocks d -> (bmap (disk_of sfs) d <$> seqZ 0 (d_blocks d)) !! Z.to_nat k = Some (bmap (disk_of sfs) d k)) as Hl.
  { intros k Hk. rewrite list_lookup_fmap, lookup_seqZ_lt by lia. cbn. do 2 f_equal. lia. }
  assert (Z.to_nat i = Z.to_nat j) as Hij; [|lia].
  eapply NoDup_lookup; [exact Hnd|by apply Hl|]. rewrite He. by apply Hl.
Qed.

Lemma inode_not_indirect sfs d i : inode_ok sfs d -> 0 <= i < d_blocks d -> indirect d <> 0 -> bmap (disk_of sfs) d i <> indirect d.
Proof.
  intros (_ & _ & Hnd & _) Hi Hne He. unfold own in Hnd. apply NoDup_app in Hnd as (_ & Hdis & _).
  apply (Hdis (bmap (disk_of sfs) d i)).
  - apply list_elem_of_fmap. exists i. split; [done|]. apply elem_of_seqZ. lia.
  - rewrite (proj2 (Z.eqb_neq _ _) Hne). by apply list_elem_of_singleton.
Qed.

Lemma bmap_direct f d i : 0 <= i < SFS_NDIRECT -> length (direct d) = 12%nat -> direct d !! Z.to_nat i = Some (bmap f d i).
Proof.
  unfold SFS_NDIRECT. intros Hi Hl. unfold bmap, SFS_NDIRECT. rewrite (proj2 (Z.ltb_lt i 12)) by lia.
  destruct (direct d !! Z.to_nat i) eqn:E; [done|]. apply lookup_ge_None in E. lia.
Qed.

Lemma bmap_ext f f' d i : (indirect d <> 0 -> f (indirect d) = f' (indirect d)) -> bmap f d i = bmap f' d i.
Proof. intros H. unfold bmap, entry. case_match; [done|]. destruct (Z.eqb_spec (indirect d) 0); [done|]. by rewrite H. Qed.

Lemma own_ext f f' d : (indirect d <> 0 -> f (indirect d) = f' (indirect d)) -> own f d = own f' d.
Proof. intros H. unfold own. f_equal. apply list_fmap_ext. intros i x _. by apply bmap_ext. Qed.

(** Steps that keep the blocks in use keep the block map. *)
Lemma inode_ok_step sfs f g sfs' d :
  inode_ok sfs d -> fs_step sfs f g sfs' ->
  (indirect d <> 0 -> f (indirect d) = disk_of sfs (indirect d)) ->
  (forall x, x ∈ own (disk_of sfs) d -> g x = false) ->
  inode_ok sfs' d /\ forall i, bmap (disk_of sfs') d i = bmap (disk_of sfs) d i.
Proof.
  intros Hok Hst Hf Hg.
  assert (Hd : indirect d <> 0 -> disk_of sfs' (indirect d) = disk_of sfs (indirect d)).
  { intros Hn. destruct (inode_indirect_inuse _ _ Hok Hn) as [Hb _]. destruct Hst as (_ & _ & Hdisk & _). rewrite Hdisk by lia. by apply Hf. }
  destruct Hok as (H1 & H2 & H3 & H4 & H5). split; [|intros i; by apply bmap_ext]. unfold inode_ok.
  rewrite (own_ext _ (disk_of sfs)) by done. split_and!; try done; [apply H2|apply H2| |].
  - rewrite Forall_forall in *. intros x Hx. apply (fs_step_inuse _ _ _ _ x Hst). split; [by apply H4|by apply Hg].
  - intros i Hi. rewrite (bmap_ext _ (disk_of sfs)) by done. by apply H5.
Qed.

Lemma inode_ok_same sfs sfs' d :
  inode_ok sfs d -> fs_step sfs (disk_of sfs) (is_free sfs) sfs' ->
  inode_ok sfs' d /\ forall i, bmap (disk_of sfs') d i = bmap (disk_of sfs) d i.
Proof.
  intros Hok Hst. eapply inode_ok_step; [done|done|done|]. intros x Hx.
  destruct Hok as (_ & _ & _ & Hu & _). rewrite Forall_forall in Hu. by destruct (Hu x Hx).
Qed.

(** ** Looking a block up *)
Lemma get_sub_lookup sfs ent index create :
  fs_inv sfs -> (ent <> 0 -> inuse sfs ent) -> 0 <= index < SFS_BLK_NENTRY ->
  let v := if ent =? 0 then 0 else entry (disk_of sfs) ent index in
  (create = false \/ v <> 0) ->
  exists sfs', sfs_bmap_get_sub_nolock ent index create sfs = Ok (sfs', inr (ent, v)) /\
    fs_step sfs (disk_of sfs) (is_free sfs) sfs'.
Proof.
  intros Hinv He Hi v Hv. unfold sfs_bmap_get_sub_nolock.
  rewrite (bind_ok _ _ _ sfs tt) by (apply assert_true, Z.ltb_lt; lia).
  destruct (Z.eqb_spec ent 0) as [E|E]; cbn [negb].
  - subst v. destruct Hv as [->|]; [|done]. cbn [negb]. rewrite E. eexists. split; [done|]. by apply fs_step_refl.
  - destruct (read_entry sfs ent index Hinv (He E) Hi) as (sfs' & Hr & Hst). rewrite (bind_ok _ _ _ _ _ Hr).
    change (le_value (bytes_at (disk_of sfs ent) (Z.to_nat (index * 4)) 4)) with v.
    exists sfs'. split; [|done]. destruct Hv as [->|Hv]; [by rewrite orb_true_r|]. by rewrite (proj2 (Z.eqb_neq _ _) Hv).
Qed.

Lemma on_fs_ok {A} (m : M (sfs_fs D) A) sfs sin sfs' (r : Z + A) :
  m sfs = Ok (sfs', r) -> on_fs m (sfs, sin) = Ok ((sfs', sin), r).
Proof. intros H. unfold on_fs. by erewrite zoom_eq by exact H. Qed.

Lemma bmap_get_lookup sfs sin i create :
  fs_inv sfs -> inode_ok sfs (din sin) -> 0 <= i < MAX_BLOCKS ->
  (create = false \/ bmap (disk_of sfs) (din sin) i <> 0) -> (bmap (disk_of sfs) (din sin) i <> 0 -> inuse sfs (bmap (disk_of sfs) (din sin) i)) ->
  exists sfs', sfs_bmap_get_nolock i create (sfs, sin) = Ok ((sfs', sin), inr (bmap (disk_of sfs) (din sin) i)) /\
    fs_step sfs (disk_of sfs) (is_free sfs) sfs'.
Proof.
  rewrite max_blocks. intros Hinv Hok Hi Hv Huse. unfold sfs_bmap_get_nolock. set (v := bmap (disk_of sfs) (din sin) i) in *.
  rewrite (bind_ok _ _ _ (sfs, sin) (din sin)) by done.
  assert (exists sfs', (if i <? SFS_NDIRECT
      then ino ← lift (direct_at (din sin) i);
           if (ino =? 0) && create then
             ino0 ← on_fs sfs_block_alloc;
             _ ← upd_sin (fun sin0 => set_dirty true (set_din (din_direct i ino0 (din sin0)) sin0)); mret ino0
           else mret ino
      else (let index := u32 (i - SFS_NDIRECT) in
        if index <? SFS_BLK_NENTRY then
         '(ent, ino) ← on_fs (sfs_bmap_get_sub_nolock (indirect (din sin)) index create);
         _ ← (if negb (ent =? indirect (din sin)) then
                _ ← assert (fun s => indirect (din (snd s)) =? 0);
                upd_sin (fun sin0 => set_dirty true (set_din (din_indirect ent (din sin0)) sin0))
              else mret tt);
         mret ino
       else fun _ => Panic)) (sfs, sin) = Ok ((sfs', sin), inr v) /\
    fs_step sfs (disk_of sfs) (is_free sfs) sfs') as (sfs' & Hrun & Hst).
  { destruct (Z.ltb_spec i SFS_NDIRECT) as [Hd|Hd].
    - exists sfs. split; [|by apply fs_step_refl].
      rewrite (bind_ok _ _ _ (sfs, sin) v).
      2: { unfold lift, direct_at. rewrite (bmap_direct (disk_of sfs)) by (lia || apply Hok). done. }
      destruct Hv as [->|Hv]; [by rewrite andb_false_r|]. by rewrite (proj2 (Z.eqb_neq _ _) Hv).
    - unfold SFS_NDIRECT in *. rewrite u32_small by lia. cbn zeta.
      rewrite (proj2 (Z.ltb_lt (i - 12) SFS_BLK_NENTRY)) by (unfold SFS_BLK_NENTRY, SFS_BLKSIZE; change (4096 / 4) with 1024; lia).
      assert (v = if indirect (din sin) =? 0 then 0 else entry (disk_of sfs) (indirect (din sin)) (i - 12)) as Hveq.
      { unfold v, bmap, SFS_NDIRECT. by rewrite (proj2 (Z.ltb_ge i 12)) by lia. }
      destruct (get_sub_lookup sfs (indirect (din sin)) (i - 12) create Hinv) as (sfs' & Hr & Hst).
      { intros Hn. by apply inode_indirect_inuse. }
      { unfold SFS_BLK_NENTRY, SFS_BLKSIZE. change (4096 / 4) with 1024. lia. }
      { by rewrite <- Hveq. }
      exists sfs'. split; [|done]. rewrite <- Hveq in Hr. rewrite (bind_ok _ _ _ _ _ (on_fs_ok _ _ sin _ _ Hr)).
      by rewrite Z.eqb_refl. }
  rewrite (bind_ok _ _ _ _ _ Hrun). exists sfs'. split; [|done].
  destruct (Z.eqb_spec v 0) as [E|E]; [by rewrite E|].
  assert (inuse sfs' v) as Hu'.
  { apply (fs_step_inuse _ _ _ _ v Hst). by destruct (Huse E). }
  pose proof (fs_step_inv _ _ _ _ Hst) as [_ Hfm].
  by rewrite (bind_ok _ _ _ _ _ (on_fs_ok _ _ sin _ _ (assert_inuse_ok _ _ Hfm Hu'))).
Qed.

Lemma bmap_load_lookup sfs sin i :
  fs_inv sfs -> inode_ok sfs (din sin) -> 0 <= i < d_blocks (din sin) ->
  exists sfs', sfs_bmap_load_nolock i (sfs, sin) = Ok ((sfs', sin), inr (bmap (disk_of sfs) (din sin) i)) /\
    fs_step sfs (disk_of sfs) (is_free sfs) sfs'.
Proof.
  intros Hinv Hok Hi. unfold sfs_bmap_load_nolock.
  rewrite (bind_ok _ _ _ (sfs, sin) (din sin)) by done.
  rewrite (bind_ok _ _ _ (sfs, sin) tt) by (apply assert_true, Z.leb_le; lia).
  rewrite (proj2 (Z.eqb_neq i _)) by lia.
  pose proof (inode_inuse _ _ _ Hok Hi) as Hu. pose proof Hok as (_ & Hb & _).
  destruct (bmap_get_lookup sfs sin i false Hinv Hok) as (sfs' & Hr & Hst); [lia|by left|done|].
  rewrite (bind_ok _ _ _ _ _ Hr).
  assert (inuse sfs' (bmap (disk_of sfs) (din sin) i)) as Hu'.
  { apply (fs_step_inuse _ _ _ _ _ Hst). by destruct Hu. }
  pose proof (fs_step_inv _ _ _ _ Hst) as [_ Hfm].
  rewrite (bind_ok _ _ _ _ _ (on_fs_ok _ _ sin _ _ (assert_inuse_ok _ _ Hfm Hu'))).
  by exists sfs'.
Qed.

(** ** Adding a block *)

(** What a failed growth leaves: the same blocks in use, unchanged. *)
Definition unchanged sfs sfs' : Prop :=
  exists f, fs_step sfs f (is_free sfs) sfs' /\ forall x, inuse sfs x -> f x = disk_of sfs x.

(** What a successful one keeps. *)
Definition kept sfs (e : Z) sfs' : Prop :=
  fs_inv sfs' /\ same_static sfs sfs' /\ (forall x, inuse sfs x -> inuse sfs' x) /\
  (forall x, inuse sfs x -> x <> e -> disk_of sfs' x = disk_of sfs x).

Lemma kept_trans s1 e s2 s3 : kept s1 e s2 -> kept s2 e s3 -> kept s1 e s3.
Proof.
  intros (_ & H1 & H2 & H3) (H4 & H5 & H6 & H7). split_and!; [done|by etrans|auto|]. intros x Hx Hn. rewrite H7 by auto. auto.
Qed.

Lemma kept_weaken s e s' : kept s 0 s' -> kept s e s'.
Proof. intros (H1 & H2 & H3 & H4). split_and!; try done. intros x Hx Hn. apply H4; [done|]. apply inuse_pos in Hx as ?. intros ->. destruct Hx as [? _]. lia. Qed.

Lemma fs_step_kept sfs f g sfs' e :
  fs_step sfs f g sfs' -> (forall x, inuse sfs x -> g x = false) -> (forall x, inuse sfs x -> x <> e -> f x = disk_of sfs x) ->
  kept sfs e sfs'.
Proof.
  intros Hst Hg Hf. pose proof Hst as (H1 & H2 & H3 & H4). split_and!; try done.
  - intros x Hx. apply (fs_step_inuse _ _ _ _ x Hst). split; [apply Hx|by apply Hg].
  - intros x Hx Hn. rewrite H3 by (by eapply inuse_pos). by apply Hf.
Qed.

Lemma unchanged_same sfs sfs' : fs_step sfs (disk_of sfs) (is_free sfs) sfs' -> unchanged sfs sfs'.
Proof. intros H. by exists (disk_of sfs). Qed.

Lemma unchanged_trans s1 s2 s3 : fs_step s1 (disk_of s1) (is_free s1) s2 -> unchanged s2 s3 -> unchanged s1 s3.
Proof.
  intros H1 (f & H2 & H3). exists f. split.
  - eapply fs_step_ext; [by eapply fs_step_trans|done|]. intros b Hb. destruct H1 as (_ & _ & _ & Hg). by apply Hg.
  - intros x Hx. rewrite H3; [|apply (fs_step_inuse _ _ _ _ x H1); apply Hx]. destruct H1 as (_ & _ & Hd & _).
    apply Hd. by eapply inuse_pos.
Qed.

Lemma get_sub_grow sfs ent index :
  fs_inv sfs -> (ent <> 0 -> inuse sfs ent) -> 0 <= index < SFS_BLK_NENTRY ->
  (if ent =? 0 then 0 else entry (disk_of sfs) ent index) = 0 ->
  (exists sfs', sfs_bmap_get_sub_nolock ent index true sfs = Ok (sfs', inl E_NO_MEM) /\ unchanged sfs sfs') \/
  (exists sfs' e b, sfs_bmap_get_sub_nolock ent index true sfs = Ok (sfs', inr (e, b)) /\ kept sfs ent sfs' /\
     is_free sfs b = true /\ ((e = ent /\ ent <> 0) \/ (ent = 0 /\ e <> 0 /\ is_free sfs e = true)) /\ e <> b /\
     inuse sfs' b /\ inuse sfs' e /\ disk_of sfs' b = zero_block /\
     disk_of sfs' e = with_entry (if ent =? 0 then zero_block else disk_of sfs ent) index b /\
     (forall x, 0 <= x -> is_free sfs x = true -> is_free sfs' x = true \/ x = b \/ x = e)).
Proof.
  intros Hinv He Hi Hv. unfold sfs_bmap_get_sub_nolock.
  rewrite (bind_ok _ _ _ sfs tt) by (apply assert_true, Z.ltb_lt; lia).
  destruct (Z.eqb_spec ent 0) as [E|E]; cbn [negb].
  - subst ent. destruct (block_alloc_spec sfs Hinv) as [[Ha _]|(s1 & e & Ha & Hre & Hfe & Hst)].
    { left. exists sfs. split; [by apply bind_err|]. by apply unchanged_same, fs_step_refl. }
    rewrite (bind_ok _ _ _ _ _ Ha). pose proof (fs_step_inv _ _ _ _ Hst) as Hinv1.
    assert (Hue : inuse s1 e).
    { apply (fs_step_inuse _ _ _ _ e Hst). split; [done|]. unfold updb. by rewrite decide_True. }
    assert (Hd1 : forall x, 0 <= x -> disk_of s1 x = upd (disk_of sfs) e zero_block x) by (by destruct Hst as (_ & _ & ? & _)).
    assert (Hf1 : forall x, 0 <= x -> is_free s1 x = updb (is_free sfs) e false x) by (by destruct Hst as (_ & _ & _ & ?)).
    assert (Hne : forall x, inuse sfs x -> x <> e) by (intros x Hx ->; by apply (inuse_not_free sfs e)).
    destruct (new_entry_spec s1 0 e index Hinv1 Hue Hi) as [(s2 & Hn & Hst2)|(s2 & b & Hn & Hrb & Hfb & Hst2)].
    + left. exists s2. split; [done|]. rewrite decide_False in Hst2 by lia.
      exists (upd (disk_of sfs) e zero_block). split.
      * eapply fs_step_ext; [by eapply fs_step_trans|done|]. intros b Hb. unfold updb. case_decide; [by subst|].
        rewrite Hf1 by done. unfold updb. by rewrite decide_False.
      * intros x Hx. apply upd_ne. by apply Hne.
    + right. exists s2, e, b. split; [done|]. rewrite (fs_step_blocks _ _ _ _ Hst) in Hrb.
      rewrite Hf1 in Hfb by lia. unfold updb in Hfb. case_decide as Eb; [done|].
      pose proof Hst2 as (Hinv2 & Hs2 & Hd2 & Hf2).
      assert (Hkept : kept sfs 0 s2).
      { eapply fs_step_kept; [by eapply fs_step_trans| |].
        - intros x Hx. unfold updb. case_decide; [done|]. rewrite Hf1 by (by eapply inuse_pos). unfold updb. case_decide; [done|]. apply Hx.
        - intros x Hx _. rewrite (upd_ne _ e) by (by apply Hne). rewrite upd_ne by (intros ->; by apply (inuse_not_free sfs b)).
          rewrite Hd1 by (by eapply inuse_pos). apply upd_ne. by apply Hne. }
      split_and!; try done.
      * right. split_and!; try done. lia.
      * apply (fs_step_inuse _ _ _ _ b Hst2). rewrite (fs_step_blocks _ _ _ _ Hst). split; [done|]. unfold updb. by rewrite decide_True.
      * by eapply inuse_after_alloc.
      * rewrite Hd2 by lia. rewrite (upd_ne _ e) by done. by rewrite upd_eq.
      * rewrite Hd2 by lia. rewrite upd_eq. f_equal. rewrite Hd1 by lia. by rewrite upd_eq.
      * intros x Hx Hfx. destruct (decide (x = b)) as [|Hxb]; [tauto|]. destruct (decide (x = e)) as [|Hxe]; [tauto|]. left.
        rewrite Hf2 by done. unfold updb. rewrite decide_False by done. rewrite Hf1 by done. unfold updb. by rewrite decide_False.
  - destruct (read_entry sfs ent index Hinv (He E) Hi) as (s1 & Hr & Hst). rewrite (bind_ok _ _ _ _ _ Hr).
    change (le_value (bytes_at (disk_of sfs ent) (Z.to_nat (index * 4)) 4)) with (entry (disk_of sfs) ent index).
    rewrite Hv. cbn [Z.eqb negb orb]. pose proof (fs_step_inv _ _ _ _ Hst) as Hinv1.
    assert (Hue : inuse s1 ent) by (apply (fs_step_inuse _ _ _ _ ent Hst); apply (He E)).
    assert (Hd1 : forall x, 0 <= x -> disk_of s1 x = disk_of sfs x) by (by destruct Hst as (_ & _ & ? & _)).
    assert (Hf1 : forall x, 0 <= x -> is_free s1 x = is_free sfs x) by (by destruct Hst as (_ & _ & _ & ?)).
    destruct (new_entry_spec s1 ent ent index Hinv1 Hue Hi) as [(s2 & Hn & Hst2)|(s2 & b & Hn & Hrb & Hfb & Hst2)].
    + left. exists s2. split; [done|]. rewrite decide_True in Hst2 by done. eapply unchanged_trans; [done|]. by apply unchanged_same.
    + right. exists s2, ent, b. split; [done|]. rewrite (fs_step_blocks _ _ _ _ Hst) in Hrb. rewrite Hf1 in Hfb by lia.
      pose proof Hst2 as (Hinv2 & Hs2 & Hd2 & Hf2).
      assert (Hbe : ent <> b) by (intros ->; by apply (inuse_not_free sfs b); [apply He|]).
      assert (Hkept : kept sfs ent s2).
      { eapply fs_step_kept; [by eapply fs_step_trans| |].
        - intros x Hx. unfold updb. case_decide; [done|]. rewrite Hf1 by (by eapply inuse_pos). apply Hx.
        - intros x Hx Hxe. rewrite (upd_ne _ ent) by done. rewrite upd_ne by (intros ->; by apply (inuse_not_free sfs b)).
          apply Hd1. by eapply inuse_pos. }
      split_and!; try done; [by left| | | | |].
      * apply (fs_step_inuse _ _ _ _ b Hst2). rewrite (fs_step_blocks _ _ _ _ Hst). split; [done|]. unfold updb. by rewrite decide_True.
      * by eapply inuse_after_alloc.
      * rewrite Hd2 by lia. rewrite (upd_ne _ ent) by done. by rewrite upd_eq.
      * rewrite Hd2 by (by eapply inuse_pos). rewrite upd_eq. f_equal. apply Hd1. eapply inuse_pos. by apply He.
      * intros x Hx Hfx. destruct (decide (x = b)) as [|Hxb]; [tauto|]. left.
        rewrite Hf2 by done. unfold updb. rewrite decide_False by done. by rewrite Hf1.
Qed.

(** The inode [d] has got the block [b] as its next one. *)
Definition grown sfs (d : sfs_disk_inode) (b : Z) sfs' (d' : sfs_disk_inode) : Prop :=
  kept sfs (indirect d) sfs' /\
  (d_size d' = d_size d /\ d_type d' = d_type d /\ d_nlinks d' = d_nlinks d /\ d_blocks d' = d_blocks d) /\
  length (direct d') = 12%nat /\ is_free sfs b = true /\ inuse sfs' b /\ disk_of sfs' b = zero_block /\
  (indirect d' = indirect d \/ (indirect d = 0 /\ is_free sfs (indirect d') = true)) /\
  (indirect d' <> 0 -> inuse sfs' (indirect d') /\ indirect d' <> b) /\
  bmap (disk_of sfs') d' (d_blocks d) = b /\
  (forall j, 0 <= j < MAX_BLOCKS -> j <> d_blocks d -> bmap (disk_of sfs') d' j = bmap (disk_of sfs) d j) /\
  forall x, 0 <= x -> is_free sfs x = true -> is_free sfs' x = true \/ x = b \/ x = indirect d'.

(** The fields of a loaded inode that the block map leaves alone. *)
Definition same_sin sin sin' : Prop :=
  ino sin' = ino sin /\ reclaim_count sin' = reclaim_count sin /\ sem sin' = sem sin.

Lemma lookup_direct_insert d i v j :
  length (direct d) = 12%nat -> 0 <= i < 12 -> 0 <= j < 12 ->
  default 0 (<[Z.to_nat i := v]> (direct d) !! Z.to_nat j) = if decide (j = i) then v else default 0 (direct d !! Z.to_nat j).
Proof.
  intros Hl Hi Hj. case_decide as E; [subst; by rewrite list_lookup_insert_eq by lia|]. by rewrite list_lookup_insert_ne by lia.
Qed.

Lemma grow_direct sfs d i f b sfs' :
  fs_inv sfs -> inode_ok sfs d -> i = d_blocks d -> i < SFS_NDIRECT ->
  0 < b < s_blocks (super sfs) -> is_free sfs b = true ->
  f = upd (disk_of sfs) b zero_block -> fs_step sfs f (updb (is_free sfs) b false) sfs' ->
  grown sfs d b sfs' (din_direct i b d).
Proof.
  intros Hinv Hok -> Hi Hb Hfree -> Hst. unfold SFS_NDIRECT in Hi. pose proof Hok as (Hl & Hbl & _ & _ & Hun).
  assert (Hne : forall x, inuse sfs x -> x <> b) by (intros x Hx ->; by apply (inuse_not_free sfs b)).
  assert (Hkept : kept sfs (indirect d) sfs').
  { eapply fs_step_kept; [done| |].
    - intros x Hx. unfold updb. case_decide; [done|]. apply Hx.
    - intros x Hx _. apply upd_ne. by apply Hne. }
  assert (Hub : inuse sfs' b).
  { apply (fs_step_inuse _ _ _ _ b Hst). split; [done|]. unfold updb. by rewrite decide_True. }
  assert (Hind : indirect d <> 0 -> disk_of sfs' (indirect d) = disk_of sfs (indirect d)).
  { intros Hn. pose proof (inode_indirect_inuse _ _ Hok Hn) as Hu. pose proof Hst as (_ & _ & Hd & _).
    rewrite Hd by (by eapply inuse_pos). apply upd_ne. by apply Hne. }
  assert (Hbm : forall j, 0 <= j < MAX_BLOCKS ->
    bmap (disk_of sfs') (din_direct (d_blocks d) b d) j = if decide (j = d_blocks d) then b else bmap (disk_of sfs) d j).
  { intros j Hj. unfold bmap, SFS_NDIRECT. cbn [direct indirect din_direct]. destruct (Z.ltb_spec j 12).
    - by apply lookup_direct_insert; [|lia|lia].
    - rewrite decide_False by lia. destruct (Z.eqb_spec (indirect d) 0); [done|]. unfold entry. by rewrite Hind. }
  split_and!; try done.
  - cbn. by rewrite length_insert.
  - pose proof Hst as (_ & _ & Hd & _). rewrite Hd by lia. by rewrite upd_eq.
  - by left.
  - intros Hn. cbn in *. pose proof (inode_indirect_inuse _ _ Hok Hn) as Hu. split; [by apply Hkept|by apply Hne].
  - rewrite Hbm by (rewrite max_blocks; lia). by rewrite decide_True.
  - intros j Hj Hjn. rewrite Hbm by done. by rewrite decide_False.
  - intros x Hx Hfx. destruct (decide (x = b)) as [|Hxb]; [tauto|]. left. pose proof Hst as (_ & _ & _ & Hg). rewrite Hg by done. unfold updb. by rewrite decide_False.
Qed.

Lemma grow_indirect sfs d e b sfs' :
  fs_inv sfs -> inode_ok sfs d -> SFS_NDIRECT <= d_blocks d < MAX_BLOCKS ->
  kept sfs (indirect d) sfs' -> is_free sfs b = true ->
  (e = indirect d /\ indirect d <> 0) \/ (indirect d = 0 /\ e <> 0 /\ is_free sfs e = true) -> e <> b ->
  inuse sfs' b -> inuse sfs' e -> disk_of sfs' b = zero_block ->
  disk_of sfs' e = with_entry (if indirect d =? 0 then zero_block else disk_of sfs (indirect d)) (d_blocks d - SFS_NDIRECT) b ->
  (forall x, 0 <= x -> is_free sfs x = true -> is_free sfs' x = true \/ x = b \/ x = e) ->
  grown sfs d b sfs' (din_indirect e d).
Proof.
  intros Hinv Hok Hi Hkept Hfb He Heb Hub Hue Hdb Hde Hleak. rewrite max_blocks in Hi. unfold SFS_NDIRECT in *.
  pose proof Hok as (Hl & Hbl & _ & _ & Hun).
  assert (He0 : e <> 0) by (destruct He as [[-> ?]|(_ & ? & _)]; done).
  assert (Hb32 : word32 b).
  { destruct Hub as [Hb _]. pose proof Hkept as ([[(_ & _ & _ & Hbd) _] _] & _). unfold word32. lia. }
  assert (Hbm : forall j, 0 <= j < MAX_BLOCKS ->
    bmap (disk_of sfs') (din_indirect e d) j = if decide (j = d_blocks d) then b else bmap (disk_of sfs) d j).
  { intros j Hj. rewrite max_blocks in Hj. unfold bmap, SFS_NDIRECT. cbn [direct indirect din_indirect]. destruct (Z.ltb_spec j 12).
    - by rewrite decide_False by lia.
    - rewrite (proj2 (Z.eqb_neq _ _) He0). unfold entry. rewrite Hde.
      rewrite word_at_with_entry; [| |unfold SFS_BLK_NENTRY, SFS_BLKSIZE; change (4096 / 4) with 1024; lia..|done].
      + destruct (decide (j = d_blocks d)) as [->|]; [by rewrite decide_True|]. rewrite decide_False by lia.
        destruct (Z.eqb_spec (indirect d) 0); [|done]. apply word_at_zero. unfold SFS_BLKSIZE. lia.
      + destruct (Z.eqb_spec (indirect d) 0); [apply length_replicate|]. apply inuse_disk_length; [done|]. by apply inode_indirect_inuse. }
  split_and!; try done.
  - cbn. destruct He as [[-> _]|(H0 & _ & Hf)]; [by left|by right].
  - rewrite Hbm by (rewrite max_blocks; lia). by rewrite decide_True.
  - intros j Hj Hjn. rewrite Hbm by done. by rewrite decide_False.
Qed.

Lemma bmap_get_grow sfs sin :
  fs_inv sfs -> inode_ok sfs (din sin) -> d_blocks (din sin) < MAX_BLOCKS ->
  (exists sfs', sfs_bmap_get_nolock (d_blocks (din sin)) true (sfs, sin) = Ok ((sfs', sin), inl E_NO_MEM) /\ unchanged sfs sfs') \/
  (exists sfs' sin' b, sfs_bmap_get_nolock (d_blocks (din sin)) true (sfs, sin) = Ok ((sfs', sin'), inr b) /\
     same_sin sin sin' /\ grown sfs (din sin) b sfs' (din sin')).
Proof.
  rewrite max_blocks. intros Hinv Hok Hi. unfold sfs_bmap_get_nolock. pose proof Hok as (Hl & Hbl & _ & _ & Hun).
  rewrite (bind_ok _ _ _ (sfs, sin) (din sin)) by done.
  pose proof (Hun (d_blocks (din sin)) ltac:(rewrite max_blocks; lia)) as Hzero.
  destruct (Z.ltb_spec (d_blocks (din sin)) SFS_NDIRECT) as [Hd|Hd].
  - assert (direct_at (din sin) (d_blocks (din sin)) = Ok 0) as Hdir.
    { unfold direct_at. rewrite (bmap_direct (disk_of sfs)) by (lia || done). by rewrite Hzero. }
    destruct (block_alloc_spec sfs Hinv) as [[Ha _]|(s1 & b & Ha & Hb & Hfree & Hst)].
    + left. exists sfs. split; [|by apply unchanged_same, fs_step_refl]. apply bind_err.
      rewrite (bind_ok _ _ _ (sfs, sin) 0) by (unfold lift; by rewrite Hdir). cbn [Z.eqb andb].
      apply bind_err. by apply on_fs_ok.
    + right. assert (Hg : grown sfs (din sin) b s1 (din_direct (d_blocks (din sin)) b (din sin))) by (by eapply grow_direct).
      exists s1, (set_dirty true (set_din (din_direct (d_blocks (din sin)) b (din sin)) sin)), b.
      split; [|split; [done|exact Hg]].
      erewrite bind_ok.
      2: { rewrite (bind_ok _ _ _ (sfs, sin) 0) by (unfold lift; by rewrite Hdir). cbn [Z.eqb andb].
           rewrite (bind_ok _ _ _ _ _ (on_fs_ok _ _ sin _ _ Ha)). reflexivity. }
      rewrite (proj2 (Z.eqb_neq b 0)) by lia.
      pose proof (fs_step_inv _ _ _ _ Hst) as [_ Hfm1].
      assert (Hub : inuse s1 b).
      { apply (fs_step_inuse _ _ _ _ b Hst). split; [done|]. unfold updb. by rewrite decide_True. }
      by rewrite (bind_ok _ _ _ _ _ (on_fs_ok _ _ _ _ _ (assert_inuse_ok _ _ Hfm1 Hub))).
  - unfold SFS_NDIRECT in *. rewrite u32_small by lia. cbn zeta.
    rewrite (proj2 (Z.ltb_lt (d_blocks (din sin) - 12) SFS_BLK_NENTRY)) by (unfold SFS_BLK_NENTRY, SFS_BLKSIZE; change (4096 / 4) with 1024; lia).
    assert ((if indirect (din sin) =? 0 then 0 else entry (disk_of sfs) (indirect (din sin)) (d_blocks (din sin) - 12)) = 0) as Hv.
    { etrans; [|exact Hzero]. unfold bmap, SFS_NDIRECT. by rewrite (proj2 (Z.ltb_ge _ 12)) by lia. }
    destruct (get_sub_grow sfs (indirect (din sin)) (d_blocks (din sin) - 12) Hinv) as [(s1 & Hr & Hun1)|(s1 & e & b & Hr & Hk & Hfb & He & Heb & Hub & Hue & Hdb & Hde & Hleak)].
    { intros Hn. by apply inode_indirect_inuse. }
    { unfold SFS_BLK_NENTRY, SFS_BLKSIZE. change (4096 / 4) with 1024. lia. }
    { done. }
    + left. exists s1. split; [|done]. apply bind_err, bind_err. by apply on_fs_ok.
    + right. assert (Hg : grown sfs (din sin) b s1 (din_indirect e (din sin))).
      { by apply grow_indirect. }
      assert (Hfm1 : freemap_ok s1) by (by destruct Hk as ([_ ?] & _)).
      assert (Hb0 : b <> 0) by (destruct Hub; lia).
      destruct (Z.eqb_spec e (indirect (din sin))) as [Ee|Ee].
      * exists s1, sin, b. split; [|split; [done|]].
        -- erewrite bind_ok.
           2: { rewrite (bind_ok _ _ _ _ _ (on_fs_ok _ _ sin _ _ Hr)). rewrite (proj2 (Z.eqb_eq _ _) Ee). reflexivity. }
           rewrite (proj2 (Z.eqb_neq b 0)) by done.
           by rewrite (bind_ok _ _ _ _ _ (on_fs_ok _ _ _ _ _ (assert_inuse_ok _ _ Hfm1 Hub))).
        -- replace (din sin) with (din_indirect e (din sin)) at 2; [exact Hg|]. rewrite Ee. by destruct (din sin).
      * exists s1, (set_dirty true (set_din (din_indirect e (din sin)) sin)), b. split; [|split; [done|exact Hg]].
        destruct He as [[He _]|(H0 & _)]; [done|].
        erewrite bind_ok.
        2: { rewrite (bind_ok _ _ _ _ _ (on_fs_ok _ _ sin _ _ Hr)). rewrite (proj2 (Z.eqb_neq _ _) Ee). cbn [negb].
             erewrite bind_ok.
             2: { rewrite (bind_ok _ _ _ (s1, sin) tt) by (apply assert_ok; cbn; by rewrite H0). reflexivity. }
             reflexivity. }
        rewrite (proj2 (Z.eqb_neq b 0)) by done.
        by rewrite (bind_ok _ _ _ _ _ (on_fs_ok _ _ _ _ _ (assert_inuse_ok _ _ Hfm1 Hub))).
Qed.

Lemma own_length f d : 0 <= d_blocks d -> length (bmap f d <$> seqZ 0 (d_blocks d)) = Z.to_nat (d_blocks d).
Proof. intros H. by rewrite length_fmap, length_seqZ. Qed.

(** A grown inode is well formed. *)
Lemma grown_inode_ok sfs d b sfs' d' :
  fs_inv sfs -> inode_ok sfs d -> d_blocks d < MAX_BLOCKS -> grown sfs d b sfs' d' ->
  inode_ok sfs' (din_blocks (d_blocks d + 1) d').
Proof.
  intros Hinv Hok Hi ((Hinv' & _ & Huse & _) & (_ & _ & _ & Hdb) & Hl & Hfb & Hub & _ & Hind & Hind2 & Hb & Hj & _).
  pose proof Hok as (_ & Hbl & Hnd & Hall & Hun).
  set (d2 := din_blocks (d_blocks d + 1) d').
  assert (Hbm : forall j, bmap (disk_of sfs') d2 j = bmap (disk_of sfs') d' j) by done.
  assert (Hown : own (disk_of sfs') d2 = (bmap (disk_of sfs) d <$> seqZ 0 (d_blocks d)) ++ b :: (if indirect d' =? 0 then [] else [indirect d'])).
  { unfold own. change (d_blocks d2) with (d_blocks d + 1). change (indirect d2) with (indirect d').
    rewrite seqZ_app by lia. rewrite fmap_app, <- app_assoc. f_equal.
    - apply list_fmap_ext. intros k x Hx. apply lookup_seqZ in Hx as [-> Hk]. rewrite Hbm. apply Hj; lia.
    - rewrite seqZ_cons by lia. replace (Z.pred 1) with 0 by lia. cbn [fmap list_fmap app seqZ]. change (seqZ _ 0) with (@nil Z). cbn [fmap list_fmap app]. f_equal.
      rewrite Hbm. by replace (0 + d_blocks d) with (d_blocks d) by lia. }
  assert (Hnotb : forall x, inuse sfs x -> x <> b) by (intros x Hx ->; by apply (inuse_not_free sfs b)).
  rewrite Forall_forall in Hall.
  assert (Hdata : forall x, x ∈ (bmap (disk_of sfs) d <$> seqZ 0 (d_blocks d)) -> inuse sfs x).
  { intros x Hx. apply Hall. unfold own. apply elem_of_app. by left. }
  unfold inode_ok. rewrite Hown. split_and!.
  - exact Hl.
  - cbn. lia.
  - cbn. lia.
  - unfold own in Hnd. apply NoDup_app in Hnd as (Hnd & Hdis & Hnd2). apply NoDup_app. split_and!; [done| |].
    + intros x Hx Hx2. apply elem_of_cons in Hx2 as [-> |Hx2]; [by apply (Hnotb b); [apply Hdata|]|].
      destruct (Z.eqb_spec (indirect d') 0) as [E|E]; [by apply not_elem_of_nil in Hx2|]. apply list_elem_of_singleton in Hx2 as ->.
      destruct Hind as [He|[_ Hf]]; [|by apply (inuse_not_free sfs (indirect d')); [apply Hdata|]].
      apply (Hdis (indirect d')); [done|]. rewrite <- He. rewrite (proj2 (Z.eqb_neq _ _) E). by apply list_elem_of_singleton.
    + apply NoDup_cons. split; [|destruct (indirect d' =? 0); [constructor|apply NoDup_singleton]].
      destruct (Z.eqb_spec (indirect d') 0) as [E|E]; [apply not_elem_of_nil|]. intros Hx%list_elem_of_singleton. by destruct (Hind2 E).
  - apply Forall_app. split; [apply Forall_forall; intros x Hx; apply Huse; by apply Hdata|].
    apply Forall_cons. split; [done|]. destruct (Z.eqb_spec (indirect d') 0) as [E|E]; [constructor|]. apply Forall_singleton. by apply Hind2.
  - intros j Hjr. change (d_blocks d2) with (d_blocks d + 1) in Hjr. rewrite Hbm, Hj by lia. apply Hun. lia.
Qed.

Lemma bmap_load_grow sfs sin :
  fs_inv sfs -> inode_ok sfs (din sin) -> d_blocks (din sin) < MAX_BLOCKS ->
  (exists sfs', sfs_bmap_load_nolock (d_blocks (din sin)) (sfs, sin) = Ok ((sfs', sin), inl E_NO_MEM) /\ unchanged sfs sfs') \/
  (exists sfs' sin' d' b, sfs_bmap_load_nolock (d_blocks (din sin)) (sfs, sin) = Ok ((sfs', sin'), inr b) /\
     same_sin sin sin' /\ grown sfs (din sin) b sfs' d' /\ din sin' = din_blocks (d_blocks (din sin) + 1) d').
Proof.
  intros Hinv Hok Hi. unfold sfs_bmap_load_nolock. pose proof Hok as (_ & Hbl & _).
  rewrite (bind_ok _ _ _ (sfs, sin) (din sin)) by done.
  rewrite (bind_ok _ _ _ (sfs, sin) tt) by (apply assert_true, Z.leb_le; lia).
  rewrite Z.eqb_refl. destruct (bmap_get_grow sfs sin Hinv Hok Hi) as [(s1 & Hr & Hun)|(s1 & sin1 & b & Hr & Hsame & Hg)].
  - left. exists s1. split; [by apply bind_err|done].
  - right. rewrite (bind_ok _ _ _ _ _ Hr).
    destruct Hg as ((Hinv1 & Hk) & Hfields & Hg). pose proof Hinv1 as [_ Hfm1].
    assert (Hub : inuse s1 b) by apply Hg.
    rewrite (bind_ok _ _ _ _ _ (on_fs_ok _ _ _ _ _ (assert_inuse_ok _ _ Hfm1 Hub))).
    rewrite (bind_ok _ _ _ (s1, set_din (din_blocks (u32 (d_blocks (din sin1) + 1)) (din sin1)) sin1) tt) by done.
    exists s1, (set_din (din_blocks (u32 (d_blocks (din sin1) + 1)) (din sin1)) sin1), (din sin1), b.
    split; [done|]. split; [done|]. split; [done|]. cbn. f_equal. destruct Hfields as (_ & _ & _ & ->).
    rewrite max_blocks in Hi. apply u32_small. lia.
Qed.

(** Two inodes that share no block. *)
Definition disjoint_from f (d d2 : sfs_disk_inode) : Prop := forall x, x ∈ own f d -> x ∈ own f d2 -> False.

(** What is done to one inode leaves the others alone. *)
Lemma kept_other sfs d sfs' d2 :
  inode_ok sfs d2 -> kept sfs (indirect d) sfs' -> (indirect d <> 0 -> indirect d ∉ own (disk_of sfs) d2) ->
  inode_ok sfs' d2 /\ (forall i, bmap (disk_of sfs') d2 i = bmap (disk_of sfs) d2 i) /\
  forall x, x ∈ own (disk_of sfs) d2 -> disk_of sfs' x = disk_of sfs x.
Proof.
  intros Hok2 (Hinv' & Hs & Hu & Hd) Hdis. pose proof Hok2 as (_ & _ & _ & Hall & _). rewrite Forall_forall in Hall.
  assert (Hx : forall x, x ∈ own (disk_of sfs) d2 -> disk_of sfs' x = disk_of sfs x).
  { intros x Hx. apply Hd; [by apply Hall|]. intros ->. destruct (decide (indirect d = 0)) as [E|E].
    - destruct (Hall _ Hx). lia.
    - by apply Hdis. }
  assert (Hind : indirect d2 <> 0 -> disk_of sfs' (indirect d2) = disk_of sfs (indirect d2)).
  { intros Hn. apply Hx. apply own_elem. by right. }
  assert (Hbm : forall i, bmap (disk_of sfs') d2 i = bmap (disk_of sfs) d2 i) by (intros i; by apply bmap_ext).
  split; [|done]. pose proof Hok2 as (H1 & H2 & H3 & H4 & H5). unfold inode_ok.
  rewrite (own_ext _ (disk_of sfs)) by done. split; [done|]. split; [done|]. split; [done|]. split.
  - rewrite Forall_forall. intros x Hxo. by apply Hu, Hall.
  - intros i Hi. rewrite Hbm. by apply H5.
Qed.

(** ** Giving the last block up *)

(** The inode [d] has given up its last block. *)
Definition shrunk sfs (d : sfs_disk_inode) sfs' (d' : sfs_disk_inode) : Prop :=
  let last := bmap (disk_of sfs) d (d_blocks d - 1) in
  fs_inv sfs' /\ same_static sfs sfs' /\
  (forall x, 0 <= x -> is_free sfs' x = updb (is_free sfs) last true x) /\
  (forall x, 0 <= x -> x <> indirect d -> disk_of sfs' x = disk_of sfs x) /\
  d_size d' = d_size d /\ d_type d' = d_type d /\ d_nlinks d' = d_nlinks d /\ indirect d' = indirect d /\
  d_blocks d' = d_blocks d - 1 /\ inode_ok sfs' d' /\
  forall j, 0 <= j < d_blocks d - 1 -> bmap (disk_of sfs') d' j = bmap (disk_of sfs) d j.

Lemma shrunk_intro sfs d sfs' d' :
  inode_ok sfs d -> 0 < d_blocks d -> fs_inv sfs' -> same_static sfs sfs' ->
  let last := bmap (disk_of sfs) d (d_blocks d - 1) in
  (forall x, 0 <= x -> is_free sfs' x = updb (is_free sfs) last true x) ->
  (forall x, 0 <= x -> x <> indirect d -> disk_of sfs' x = disk_of sfs x) ->
  d_size d' = d_size d -> d_type d' = d_type d -> d_nlinks d' = d_nlinks d -> indirect d' = indirect d ->
  d_blocks d' = d_blocks d - 1 -> length (direct d') = 12%nat ->
  (forall j, 0 <= j < MAX_BLOCKS -> bmap (disk_of sfs') d' j = if decide (j = d_blocks d - 1) then 0 else bmap (disk_of sfs) d j) ->
  shrunk sfs d sfs' d'.
Proof.
  intros Hok Hpos Hinv' Hst last Hfree Hdisk E1 E2 E3 E4 E5 Hl Hbm. pose proof Hok as (_ & Hbl & Hnd & Hall & Hun).
  split; [done|]. split; [done|]. split; [done|]. split; [done|]. split; [done|]. split; [done|]. split; [done|]. split; [done|]. split; [done|]. split.
  2: { intros j Hj. rewrite Hbm by lia. by rewrite decide_False by lia. }
  assert (Hown : own (disk_of sfs') d' = (bmap (disk_of sfs) d <$> seqZ 0 (d_blocks d - 1)) ++ (if indirect d =? 0 then [] else [indirect d])).
  { unfold own. rewrite E4, E5. f_equal. apply list_fmap_ext. intros k x Hx. apply lookup_seqZ in Hx as [-> Hk].
    rewrite Hbm by lia. by rewrite decide_False by lia. }
  assert (Hown0 : own (disk_of sfs) d = (bmap (disk_of sfs) d <$> seqZ 0 (d_blocks d - 1)) ++ last :: (if indirect d =? 0 then [] else [indirect d])).
  { unfold own. replace (d_blocks d) with ((d_blocks d - 1) + 1) at 1 by lia. rewrite seqZ_app by lia. rewrite fmap_app, <- app_assoc. done. }
  rewrite Hown0 in Hnd, Hall.
  assert (Hnd' : NoDup (last :: own (disk_of sfs') d')) by (rewrite Hown; by rewrite Permutation_middle).
  assert (Hall' : Forall (inuse sfs) (last :: own (disk_of sfs') d')) by (rewrite Hown; by rewrite Permutation_middle).
  apply NoDup_cons in Hnd' as [Hnotin Hnd']. apply Forall_cons in Hall' as [_ Hall'].
  split; [done|]. split; [rewrite E5; lia|]. split; [done|]. split.
  - rewrite Forall_forall in *. intros x Hx. destruct (Hall' x Hx) as [Hr Hf]. split.
    + destruct Hst as (_ & -> & _). exact Hr.
    + rewrite Hfree by lia. unfold updb. rewrite decide_False; [done|]. by intros ->.
  - intros j Hj. rewrite E5 in Hj. rewrite Hbm by lia. case_decide; [done|]. apply Hun. lia.
Qed.

Lemma free_sub_spec sfs ent index :
  fs_inv sfs -> inuse sfs ent -> 0 <= index < SFS_BLK_NENTRY ->
  let v := entry (disk_of sfs) ent index in v <> 0 -> v <> ent -> inuse sfs v ->
  exists sfs', sfs_bmap_free_sub_nolock ent index sfs = Ok (sfs', inr tt) /\
    fs_step sfs (upd (disk_of sfs) ent (with_entry (disk_of sfs ent) index 0)) (updb (is_free sfs) v true) sfs'.
Proof.
  intros Hinv Hu Hi v Hv0 Hve Hv. unfold sfs_bmap_free_sub_nolock. pose proof Hinv as [_ Hfm].
  rewrite (bind_ok _ _ _ _ _ (assert_inuse_ok _ _ Hfm Hu)).
  rewrite (bind_ok _ _ _ sfs tt) by (apply assert_true, Z.ltb_lt; lia).
  destruct (read_entry sfs ent index Hinv Hu Hi) as (s1 & Hr & Hst1). rewrite (bind_ok _ _ _ _ _ Hr).
  change (le_value (bytes_at (disk_of sfs ent) (Z.to_nat (index * 4)) 4)) with v.
  rewrite (proj2 (Z.eqb_neq _ _) Hv0). cbn [negb].
  pose proof (fs_step_inv _ _ _ _ Hst1) as Hinv1. pose proof (inuse_pos _ _ Hu) as Hp. pose proof (inuse_pos _ _ Hv) as Hpv.
  assert (Hd1 : forall x, 0 <= x -> disk_of s1 x = disk_of sfs x) by (by destruct Hst1 as (_ & _ & ? & _)).
  assert (Hf1 : forall x, 0 <= x -> is_free s1 x = is_free sfs x) by (by destruct Hst1 as (_ & _ & _ & ?)).
  assert (Hu1 : inuse s1 ent) by (apply (fs_step_inuse _ _ _ _ ent Hst1); apply Hu).
  destruct (write_entry s1 ent index 0 Hinv1 Hu1 Hi) as (s2 & Hw & Hst2). rewrite (bind_ok _ _ _ _ _ Hw).
  pose proof (fs_step_inv _ _ _ _ Hst2) as Hinv2.
  assert (Hu2 : inuse s2 v).
  { apply (fs_step_inuse _ _ _ _ v Hst2). rewrite (fs_step_blocks _ _ _ _ Hst1), Hf1 by done. apply Hv. }
  destruct (block_free_spec s2 v Hinv2 Hu2) as (s3 & Hfr & Hst3). exists s3. split; [done|].
  assert (Hd2 : forall x, 0 <= x -> disk_of s2 x = upd (disk_of s1) ent (with_entry (disk_of s1 ent) index 0) x) by (by destruct Hst2 as (_ & _ & ? & _)).
  assert (Hf2 : forall x, 0 <= x -> is_free s2 x = is_free s1 x) by (by destruct Hst2 as (_ & _ & _ & ?)).
  eapply fs_step_ext; [eapply fs_step_trans; [exact Hst1|]; by eapply fs_step_trans| |].
  - intros x Hx. rewrite Hd2 by done. unfold upd. rewrite Hd1 by done. case_decide; [done|by apply Hd1].
  - intros x Hx. unfold updb. case_decide; [done|]. by rewrite Hf2, Hf1.
Qed.

Lemma bmap_truncate_spec sfs sin :
  fs_inv sfs -> inode_ok sfs (din sin) -> 0 < d_blocks (din sin) ->
  exists sfs' d', sfs_bmap_truncate_nolock (sfs, sin) = Ok ((sfs', mk_sin d' (ino sin) true (reclaim_count sin) (sem sin)), inr tt) /\
    shrunk sfs (din sin) sfs' d'.
Proof.
  intros Hinv Hok Hpos. unfold sfs_bmap_truncate_nolock. pose proof Hok as (Hl & Hbl & _ & _ & Hun). rewrite max_blocks in Hbl.
  rewrite (bind_ok _ _ _ (sfs, sin) (din sin)) by done.
  rewrite (bind_ok _ _ _ (sfs, sin) tt) by (apply assert_true, negb_true_iff, Z.eqb_neq; lia).
  rewrite u32_small by lia. set (i := d_blocks (din sin) - 1).
  assert (Hi : 0 <= i < d_blocks (din sin)) by lia. pose proof (inode_inuse _ _ _ Hok Hi) as Hv.
  set (v := bmap (disk_of sfs) (din sin) i) in *. assert (Hv0 : v <> 0) by (destruct Hv; lia).
  assert (Hind : indirect (din sin) <> 0 -> inuse sfs (indirect (din sin))) by (by apply inode_indirect_inuse).
  unfold sfs_bmap_free_nolock. destruct (Z.ltb_spec i SFS_NDIRECT) as [Hd|Hd].
  - destruct (block_free_spec sfs v Hinv Hv) as (s1 & Hfr & Hst). pose proof Hst as (Hinv1 & Hs1 & Hd1 & Hf1).
    exists s1, (din_blocks i (din_direct i 0 (din sin))). split.
    { erewrite bind_ok.
      2: { rewrite (bind_ok _ _ _ (sfs, sin) (din sin)) by done.
           rewrite (bind_ok _ _ _ (sfs, sin) v).
           2: { unfold lift, direct_at. by rewrite (bmap_direct (disk_of sfs)) by (lia || done). }
           rewrite (proj2 (Z.eqb_neq _ _) Hv0). cbn [negb]. rewrite (bind_ok _ _ _ _ _ (on_fs_ok _ _ sin _ _ Hfr)). reflexivity. }
      unfold upd_sin, modify. cbn. unfold din_blocks. cbn. by rewrite u32_small by lia. }
    unfold SFS_NDIRECT in Hd. apply shrunk_intro; try done.
    + intros x Hx _. by apply Hd1.
    + cbn. by rewrite length_insert.
    + intros j Hj. rewrite max_blocks in Hj. unfold bmap, SFS_NDIRECT. cbn [direct indirect din_blocks din_direct].
      destruct (Z.ltb_spec j 12); [by apply lookup_direct_insert; [|lia|lia]|]. rewrite decide_False by lia.
      destruct (Z.eqb_spec (indirect (din sin)) 0); [done|]. unfold entry. by rewrite Hd1 by (eapply inuse_pos; eauto).
  - unfold SFS_NDIRECT in Hd.
    assert (Hidx : 0 <= i - 12 < SFS_BLK_NENTRY) by (unfold SFS_BLK_NENTRY, SFS_BLKSIZE; change (4096 / 4) with 1024; lia).
    assert (Hind0 : indirect (din sin) <> 0).
    { intros E. apply Hv0. unfold v, bmap, SFS_NDIRECT. rewrite (proj2 (Z.ltb_ge i 12)) by lia. by rewrite E. }
    assert (Hve : v = entry (disk_of sfs) (indirect (din sin)) (i - 12)).
    { unfold v, bmap, SFS_NDIRECT. rewrite (proj2 (Z.ltb_ge i 12)) by lia. by rewrite (proj2 (Z.eqb_neq _ _) Hind0). }
    destruct (free_sub_spec sfs (indirect (din sin)) (i - 12) Hinv (Hind Hind0) Hidx) as (s1 & Hfr & Hst).
    { by rewrite <- Hve. } { rewrite <- Hve. by apply inode_not_indirect. } { by rewrite <- Hve. }
    pose proof Hst as (Hinv1 & Hs1 & Hd1 & Hf1).
    exists s1, (din_blocks i (din sin)). split.
    { erewrite bind_ok.
      2: { rewrite (bind_ok _ _ _ (sfs, sin) (din sin)) by done.
           cbn zeta. unfold SFS_NDIRECT. rewrite u32_small by lia. rewrite (proj2 (Z.ltb_lt (i - 12) _)) by lia.
           rewrite (proj2 (Z.eqb_neq _ _) Hind0). cbn [negb]. by apply on_fs_ok. }
      unfold upd_sin, modify. cbn. unfold din_blocks. cbn. by rewrite u32_small by lia. }
    apply shrunk_intro; try done.
    + intros x Hx. rewrite Hf1 by done. by rewrite <- Hve.
    + intros x Hx Hn. rewrite Hd1 by done. by apply upd_ne.
    + intros j Hj. rewrite max_blocks in Hj. unfold bmap, SFS_NDIRECT. cbn [direct indirect din_blocks].
      destruct (Z.ltb_spec j 12); [by rewrite decide_False by lia|]. rewrite (proj2 (Z.eqb_neq _ _) Hind0). unfold entry.
      rewrite Hd1 by (eapply inuse_pos; eauto). rewrite upd_eq.
      rewrite word_at_with_entry; [|apply inuse_disk_length; [done|by apply Hind]|done| |unfold word32; lia].
      2: { unfold SFS_BLK_NENTRY, SFS_BLKSIZE. change (4096 / 4) with 1024. lia. }
      destruct (decide (j = i)) as [->|]; [by rewrite !decide_True by done|]. by rewrite !decide_False by lia.
Qed.

End Bmap.
