(* ===== verification/SfsFile.v ===== *)
(** The contents of SFS files: reading and writing ([sfs_io_nolock] and its
    wrappers) and their attributes, from lab8/kern/fs/sfs/sfs_inode.c. *)
From S2P Require Import Prelude Layout StateM Iobuf Bitmap Disk0 SfsIo SfsBmap.

(** libs/stat.h *)
Definition S_IFREG : Z := 0x1000.
Definition S_IFDIR : Z := 0x2000.
Definition S_IFLNK : Z := 0x3000.

Record stat := mk_stat {
  st_mode : Z;
  st_nlinks : Z;
  st_blocks : Z;
  st_size : Z;
}.

(** * Sequences of blocks *)
Definition BLK : nat := Z.to_nat SFS_BLKSIZE.

Definition join_blocks (f : Z -> list Z) (n : Z) : list Z := mjoin (f <$> seqZ 0 n).

Lemma blk_eq : Z.of_nat BLK = 4096.
Proof. unfold BLK, SFS_BLKSIZE. lia. Qed.

Lemma mjoin_blocks_length (f : Z -> list Z) l :
  (forall i, i ∈ l -> length (f i) = BLK) -> length (mjoin (f <$> l)) = (length l * BLK)%nat.
Proof.
  induction l as [|x l IH]; intros Hl; [done|]. change (mjoin (f <$> x :: l)) with (f x ++ mjoin (f <$> l)).
  rewrite length_app, IH, Hl; [cbn [length]; lia|by left|]. intros i Hi. apply Hl. by right.
Qed.

Lemma join_blocks_length f n : 0 <= n -> (forall i, 0 <= i < n -> length (f i) = BLK) -> length (join_blocks f n) = (Z.to_nat n * BLK)%nat.
Proof.
  intros Hn Hl. unfold join_blocks. rewrite mjoin_blocks_length, length_seqZ; [done|].
  intros i Hi. apply Hl. apply elem_of_seqZ in Hi. lia.
Qed.

Lemma join_blocks_S f n : 0 <= n -> join_blocks f (n + 1) = join_blocks f n ++ f n.
Proof.
  intros Hn. unfold join_blocks. rewrite seqZ_app by lia. rewrite fmap_app, join_app. f_equal.
  rewrite seqZ_cons by lia. change (seqZ _ (Z.pred 1)) with (@nil Z). cbn. by rewrite app_nil_r.
Qed.

Lemma join_blocks_lookup f n k :
  (forall i, 0 <= i < n -> length (f i) = BLK) -> 0 <= k < n * 4096 ->
  join_blocks f n !! Z.to_nat k = f (k / 4096) !! Z.to_nat (k mod 4096).
Proof.
  intros Hl Hk. pose proof blk_eq as HB. assert (0 <= n) as Hn by lia. revert Hl Hk. revert k. pattern n. apply natlike_ind; [| |done].
  - intros k _ Hk. lia.
  - clear n Hn. intros n Hn IH k Hl Hk. unfold Z.succ in *. rewrite join_blocks_S by done.
    assert (length (join_blocks f n) = (Z.to_nat n * BLK)%nat) as Hlen by (apply join_blocks_length; [done|intros; apply Hl; lia]).
    destruct (decide (k < n * 4096)).
    + rewrite lookup_app_l by lia. apply IH; [intros; apply Hl; lia|lia].
    + rewrite lookup_app_r by lia. assert (k / 4096 = n /\ k mod 4096 = k - n * 4096) as [-> ->].
      { pose proof (Z.div_unique k 4096 n (k - n * 4096)). pose proof (Z.mod_unique k 4096 n (k - n * 4096)). lia. }
      f_equal. lia.
Qed.

(** Rewriting part of one block. *)
Lemma join_blocks_insert f g n i o w :
  (forall j, 0 <= j < n -> length (f j) = BLK) -> 0 <= i < n -> (o + length w <= BLK)%nat ->
  g i = list_inserts o w (f i) -> (forall j, 0 <= j < n -> j <> i -> g j = f j) ->
  join_blocks g n = list_inserts (Z.to_nat (i * 4096) + o) w (join_blocks f n).
Proof.
  intros Hl Hi How Hgi Hg. pose proof blk_eq as HB.
  assert (Hlg : forall j, 0 <= j < n -> length (g j) = BLK).
  { intros j Hj. destruct (decide (j = i)) as [->|Hne]; [rewrite Hgi, length_inserts; by apply Hl|]. rewrite Hg by done. by apply Hl. }
  assert (Hlenf : length (join_blocks f n) = (Z.to_nat n * BLK)%nat) by (apply join_blocks_length; [lia|done]).
  assert (Hleng : length (join_blocks g n) = (Z.to_nat n * BLK)%nat) by (apply join_blocks_length; [lia|done]).
  apply list_eq. intros k. destruct (decide (Z.of_nat k < n * 4096)) as [Hk|Hk].
  2: { rewrite !lookup_ge_None_2; [done| |]; rewrite ?length_inserts; lia. }
  rewrite <- (Nat2Z.id k) at 1. rewrite join_blocks_lookup by (done || lia).
  pose proof (Z.div_mod (Z.of_nat k) 4096 ltac:(lia)) as Hdm. pose proof (Z.mod_pos_bound (Z.of_nat k) 4096 ltac:(lia)) as Hm.
  assert (0 <= Z.of_nat k / 4096 < n) as Hq by lia.
  destruct (decide (Z.of_nat k / 4096 = i)) as [E|E].
  - rewrite E, Hgi. destruct (decide (o <= Z.to_nat (Z.of_nat k mod 4096) < o + length w)%nat) as [Hin|Hout].
    + rewrite !list_lookup_inserts by (rewrite ?Hl by lia; lia). f_equal. lia.
    + rewrite !list_lookup_inserts_ne by lia. rewrite <- (Nat2Z.id k) at 2. rewrite join_blocks_lookup by (done || lia). by rewrite E.
  - rewrite Hg by done. rewrite list_lookup_inserts_ne by lia. rewrite <- (Nat2Z.id k) at 3. by rewrite join_blocks_lookup by (done || lia).
Qed.

(** Reading part of one block. *)
Lemma join_blocks_read f n i o len :
  (forall j, 0 <= j < n -> length (f j) = BLK) -> 0 <= i < n -> (o + len <= BLK)%nat ->
  bytes_at (join_blocks f n) (Z.to_nat (i * 4096) + o) len = bytes_at (f i) o len.
Proof.
  intros Hl Hi Ho. pose proof blk_eq as HB. apply list_eq. intros j. destruct (decide (j < len)%nat) as [Hj|Hj].
  - rewrite !bytes_at_lookup by done.
    assert (Z.of_nat (o + j) / 4096 = 0 /\ (i * 4096 + Z.of_nat (o + j)) / 4096 = i /\ (i * 4096 + Z.of_nat (o + j)) mod 4096 = Z.of_nat (o + j)) as (_ & Hq & Hm).
    { rewrite Z.div_small by lia. split; [done|]. rewrite Z.add_comm, Z.div_add, Z_mod_plus_full by lia. rewrite Z.div_small, Z.mod_small by lia. lia. }
    replace (Z.to_nat (i * 4096) + o + j)%nat with (Z.to_nat (i * 4096 + Z.of_nat (o + j))) by lia.
    rewrite join_blocks_lookup by (done || lia). rewrite Hq, Hm. by rewrite Nat2Z.id.
  - rewrite !lookup_ge_None_2; [done| |]; unfold bytes_at; rewrite length_take; lia.
Qed.

Section File.
Context {D : Type} `{!Device D}.
#[local] Notation ST := (St (D := D)).
Implicit Types (sfs : sfs_fs D) (sin : sfs_inode).

(** * Reading and writing *)

(** The local variables of [sfs_io_nolock] beside the state: the caller's buffer
    with the position [data] in it, [offset], [alen] and [blkno]. *)
Record io_state := mk_io {
  x_fs : sfs_fs D;
  x_sin : sfs_inode;
  x_buf : list Z;
  x_data : Z;
  x_offset : Z;
  x_alen : Z;
  x_blkno : Z;
}.

Definition x_set_fs (fs : sfs_fs D) (x : io_state) : io_state :=
  mk_io fs (x_sin x) (x_buf x) (x_data x) (x_offset x) (x_alen x) (x_blkno x).
Definition x_set_buf (buf : list Z) (x : io_state) : io_state :=
  mk_io (x_fs x) (x_sin x) buf (x_data x) (x_offset x) (x_alen x) (x_blkno x).

(** [sfs_bmap_load_nolock(sfs, sin, blkno, &ino)] *)
Definition x_load : M io_state Z := fun x =>
  '(s, r) ← sfs_bmap_load_nolock (x_blkno x) (x_fs x, x_sin x);
  Ok (mk_io (fst s) (snd s) (x_buf x) (x_data x) (x_offset x) (x_alen x) (x_blkno x), r).

(** [sfs_buf_op(sfs, data, size, ino, blkoff)] *)
Definition x_buf_op (write : bool) (size ino blkoff : Z) : M io_state unit := fun x =>
  if write then
    d ← get_bytes (x_buf x) (x_data x) size;
    '(fs, r) ← sfs_wbuf d ino blkoff (x_fs x);
    Ok (x_set_fs fs x, r)
  else
    '(fs, r) ← sfs_rbuf size ino blkoff (x_fs x);
    match r with
    | inl e => Ok (x_set_fs fs x, inl e)
    | inr d => buf ← put_bytes (x_buf x) (x_data x) d; Ok (x_set_buf buf (x_set_fs fs x), inr tt)
    end.

(** [sfs_block_op(sfs, data, ino, 1)] *)
Definition x_block_op (write : bool) (ino : Z) : M io_state unit := fun x =>
  '(fs, buf, ret) ← (if write then sfs_wblock (x_fs x) (x_buf x) (x_data x) ino 1 else sfs_rblock (x_fs x) (x_buf x) (x_data x) ino 1);
  Ok (x_set_buf buf (x_set_fs fs x), if ret =? 0 then inr tt else inl (- ret)).

Definition x_advance (size : Z) : M io_state unit :=
  modify (fun x => mk_io (x_fs x) (x_sin x) (x_buf x) (x_data x + size) (x_offset x + size) (x_alen x + size) (u32 (x_blkno x + 1))).

(** The first block when it is not written from its start. *)
Definition x_head (write : bool) (endpos nblks : Z) : M io_state unit :=
  offset ← gets x_offset;
  let blkoff := Z.rem offset SFS_BLKSIZE in
  if negb (blkoff =? 0) then
    let size := if negb (nblks =? 0) then SFS_BLKSIZE - blkoff else endpos - offset in
    ino ← x_load;
    _ ← x_buf_op write size ino blkoff;
    x_advance size
  else mret tt.

(** One whole block. *)
Definition x_block (write : bool) (endpos : Z) (_ : unit) : M io_state (unit + unit) :=
  offset ← gets x_offset;
  if offset + SFS_BLKSIZE <=? endpos then
    ino ← x_load;
    _ ← x_block_op write ino;
    _ ← x_advance SFS_BLKSIZE;
    mret (inl tt)
  else mret (inr tt).

(** What is left in the last block. *)
Definition x_tail (write : bool) (endpos : Z) : M io_state unit :=
  offset ← gets x_offset;
  if offset <? endpos then
    let size := endpos - offset in
    ino ← x_load;
    _ ← x_buf_op write size ino 0;
    modify (fun x => mk_io (x_fs x) (x_sin x) (x_buf x) (x_data x) (x_offset x) (x_alen x + size) (x_blkno x))
  else mret tt.

Definition x_transfer (write : bool) (endpos nblks : Z) (fuel : nat) : M io_state unit :=
  _ ← x_head write endpos nblks;
  _ ← m_loop (x_block write endpos) fuel tt;
  x_tail write endpos.

(** The transfer of [len] bytes between the buffer at [base] and the file at
    [offset]: state and buffer afterwards, [*alenp] and the return value. *)
Definition sfs_io_nolock (buf : list Z) (base offset len : Z) (write : bool) (s : ST) : res (ST * list Z * Z * Z) :=
  let '(sfs, sin) := s in
  _ ← c_assert (negb (d_type (din sin) =? SFS_TYPE_DIR));
  let endpos := i64 (offset + len) in
  if (offset <? 0) || (SFS_MAX_FILE_SIZE <=? offset) || (endpos <? offset) then Ok (s, buf, 0, - E_INVAL)
  else if offset =? endpos then Ok (s, buf, 0, 0)
  else
    let endpos := if SFS_MAX_FILE_SIZE <? endpos then SFS_MAX_FILE_SIZE else endpos in
    if negb write && (d_size (din sin) <=? offset) then Ok (s, buf, 0, 0)
    else
      let endpos := if negb write && (d_size (din sin) <? endpos) then d_size (din sin) else endpos in
      let blkno := u32 (Z.quot offset SFS_BLKSIZE) in
      let nblks := u32 (Z.quot endpos SFS_BLKSIZE - blkno) in
      '(x, r) ← x_transfer write endpos nblks (S (Z.to_nat len)) (mk_io sfs sin buf base offset 0 blkno);
      let ret := match r with inl e => - e | inr _ => 0 end in
      let sin := x_sin x in
      let sin :=
        if write && negb (x_alen x =? 0) && (d_size (din sin) <? offset + x_alen x)
        then set_dirty true (set_din (din_size (u32 (offset + x_alen x)) (din sin)) sin)
        else sin in
      Ok ((x_fs x, sin), x_buf x, x_alen x, ret).

(** [ret] as the code returns it. *)
Definition sfs_io (iob : iobuf) (write : bool) (s : ST) : res (ST * iobuf * Z) :=
  '(s, _) ← lock_sin s;
  '(s, buf, alen, ret) ← sfs_io_nolock (io_mem iob) (io_base iob) (io_offset iob) (io_resid iob) write s;
  iob ← (if negb (alen =? 0) then iobuf_skip (set_mem iob buf) alen else Ok (set_mem iob buf));
  '(s, _) ← unlock_sin s;
  Ok (s, iob, ret).

Definition sfs_read (iob : iobuf) := sfs_io iob false.
Definition sfs_write (iob : iobuf) := sfs_io iob true.

(** * Attributes *)
Definition sfs_gettype : M ST Z := fun s =>
  let t := d_type (din (snd s)) in
  if t =? SFS_TYPE_DIR then Ok (s, inr S_IFDIR)
  else if t =? SFS_TYPE_FILE then Ok (s, inr S_IFREG)
  else if t =? SFS_TYPE_LINK then Ok (s, inr S_IFLNK)
  else Panic.

Definition sfs_fstat : M ST stat :=
  mode ← sfs_gettype;
  d ← the_din (D := D);
  mret (mk_stat mode (d_nlinks d) (d_blocks d) (d_size d)).

(** Writing the inode back when it is dirty. *)
Definition sfs_fsync : M ST unit :=
  d ← gets (fun s : ST => dirty (snd s));
  if (d : bool) then
    _ ← lock_sin (D := D);
    d ← gets (fun s : ST => dirty (snd s));
    r ← (if (d : bool) then
           _ ← upd_sin (D := D) (set_dirty false);
           s ← gets (fun s : ST => s);
           attempt (on_error (on_fs (sfs_wbuf (din_bytes (din (snd s))) (ino (snd s)) 0)) (upd_sin (set_dirty true)))
         else mret (inr tt));
    _ ← unlock_sin (D := D);
    match r with inl e => fail e | inr _ => mret tt end
  else mret tt.

Definition sfs_close : M ST unit := sfs_fsync.

Definition sfs_openfile (open_flags : Z) : M ST unit := mret tt.

Definition O_ACCMODE : Z := 3.
Definition O_APPEND : Z := 0x20.

Definition sfs_opendir (open_flags : Z) : M ST unit :=
  if negb (Z.land open_flags O_ACCMODE =? 0) then fail E_ISDIR
  else if negb (Z.land open_flags O_APPEND =? 0) then fail E_ISDIR
  else mret tt.

(** * The contents of a file *)

(** The number of blocks [z] bytes need. *)
Definition blocks_for (z : Z) : Z := (z + SFS_BLKSIZE - 1) / SFS_BLKSIZE.

Context `{!DeviceLaws D}.

Definition file_block sfs (d : sfs_disk_inode) (i : Z) : list Z := disk_of sfs (bmap (disk_of sfs) d i).

(** All the blocks of the file, one after the other: whole blocks, with what the last of
    them holds behind the size of the file. *)
Definition file_data sfs (d : sfs_disk_inode) : list Z := join_blocks (file_block sfs d) (d_blocks d).

(** [l] filled up with zeros to [n] blocks. *)
Definition padded (l : list Z) (n : Z) : list Z := l ++ replicate (Z.to_nat n * BLK - length l) 0.

(** [sfs'] with the inode [d'] is what an operation on the inode [d] may make of
    [sfs]: the blocks outside the inode's own are as they were, a block the inode
    owns was its own or free before, a block it gives up is free, and no block is
    lost. *)
Definition file_frame sfs (d : sfs_disk_inode) sfs' (d' : sfs_disk_inode) : Prop :=
  fs_inv sfs' /\ inode_ok sfs' d' /\ same_static sfs sfs' /\
  (forall x, inuse sfs x -> x ∉ own (disk_of sfs) d -> inuse sfs' x /\ disk_of sfs' x = disk_of sfs x) /\
  (forall x, x ∈ own (disk_of sfs') d' -> x ∈ own (disk_of sfs) d \/ is_free sfs x = true) /\
  (forall x, x ∈ own (disk_of sfs) d -> x ∈ own (disk_of sfs') d' \/ is_free sfs' x = true) /\
  (forall x, 0 <= x -> is_free sfs x = true -> is_free sfs' x = true \/ x ∈ own (disk_of sfs') d').

(** The attributes growing does not change. *)
Definition same_attrs (d d' : sfs_disk_inode) : Prop :=
  d_size d' = d_size d /\ d_type d' = d_type d /\ d_nlinks d' = d_nlinks d.

Lemma own_inuse sfs d x : inode_ok sfs d -> x ∈ own (disk_of sfs) d -> inuse sfs x.
Proof. intros (_ & _ & _ & H & _). rewrite Forall_forall in H. apply H. Qed.

Lemma free_or_inuse sfs sfs' x : same_static sfs sfs' -> inuse sfs' x -> is_free sfs x = true \/ inuse sfs x.
Proof. intros (_ & E & _) [Hr _]. rewrite E in Hr. destruct (is_free sfs x) eqn:Ef; [by left|by right]. Qed.

Lemma file_frame_refl sfs d : fs_inv sfs -> inode_ok sfs d -> file_frame sfs d sfs d.
Proof. intros H1 H2. split; [done|]. split; [done|]. split; [done|]. split; [done|]. split; [auto|]. split; auto. Qed.

Lemma file_frame_trans s1 d1 s2 d2 s3 d3 :
  inode_ok s1 d1 -> file_frame s1 d1 s2 d2 -> file_frame s2 d2 s3 d3 -> file_frame s1 d1 s3 d3.
Proof.
  intros Hok1 (A1 & A2 & A3 & A4 & A5 & A6 & A7) (B1 & B2 & B3 & B4 & B5 & B6 & B7).
  assert (Hs : same_static s1 s3).
  { destruct A3 as (? & ? & ? & ? & ? & ? & ? & ?), B3 as (? & ? & ? & ? & ? & ? & ? & ?). split_and!; congruence. }
  assert (Hout : forall x, inuse s1 x -> x ∉ own (disk_of s1) d1 -> inuse s2 x /\ x ∉ own (disk_of s2) d2).
  { intros x Hx Hn. split; [by apply A4|]. intros Hx2. destruct (A5 x Hx2) as [?|Hf]; [done|]. by apply (inuse_not_free s1 x). }
  split; [done|]. split; [done|]. split; [done|]. split; [|split; [|split]].
  - intros x Hx Hn. destruct (Hout x Hx Hn) as [Hx2 Hn2]. destruct (B4 x Hx2 Hn2) as [Hx3 Hd3]. split; [done|]. rewrite Hd3. by apply A4.
  - intros x Hx. destruct (B5 x Hx) as [Hx2|Hf]; [by apply A5|].
    destruct (free_or_inuse s1 s3 x Hs) as [?|Hu]; [by eapply own_inuse|by right|].
    destruct (decide (x ∈ own (disk_of s1) d1)) as [?|Hn]; [by left|]. exfalso. destruct (Hout x Hu Hn) as [Hx2 _]. by apply (inuse_not_free s2 x).
  - intros x Hx. pose proof (inuse_pos _ _ (own_inuse _ _ _ Hok1 Hx)) as Hp. destruct (A6 x Hx) as [Hx2|Hf2]; [by apply B6|].
    destruct (B7 x Hp Hf2); [by right|by left].
  - intros x Hp Hf. destruct (A7 x Hp Hf) as [Hf2|Hx2]; [by apply B7|]. destruct (B6 x Hx2); [by right|by left].
Qed.

Lemma file_block_length sfs d i : fs_inv sfs -> inode_ok sfs d -> 0 <= i < d_blocks d -> length (file_block sfs d i) = BLK.
Proof. intros Hinv Hok Hi. apply inuse_disk_length; [done|]. by apply inode_inuse. Qed.

Lemma file_data_length sfs d : fs_inv sfs -> inode_ok sfs d -> length (file_data sfs d) = (Z.to_nat (d_blocks d) * BLK)%nat.
Proof.
  intros Hinv Hok. apply join_blocks_length; [apply Hok|]. intros i Hi. by apply file_block_length.
Qed.

Lemma file_data_same sfs sfs' d d' :
  d_blocks d' = d_blocks d -> (forall i, 0 <= i < d_blocks d -> file_block sfs' d' i = file_block sfs d i) ->
  file_data sfs' d' = file_data sfs d.
Proof.
  intros Hb Hf. unfold file_data, join_blocks. rewrite Hb. f_equal. apply list_fmap_ext. intros k x Hx.
  apply lookup_seqZ in Hx as [-> Hk]. apply Hf. lia.
Qed.

Lemma padded_id l n : (Z.to_nat n * BLK <= length l)%nat -> padded l n = l.
Proof. intros H. unfold padded. replace (_ - _)%nat with 0%nat by lia. cbn. by rewrite app_nil_r. Qed.

(** A step that only changes free blocks. *)
Lemma unchanged_frame sfs d sfs' :
  inode_ok sfs d -> unchanged sfs sfs' -> file_frame sfs d sfs' d /\ file_data sfs' d = file_data sfs d.
Proof.
  intros Hok (f & Hst & Hf).
  destruct (inode_ok_step sfs f (is_free sfs) sfs' d Hok Hst) as [Hok' Hbm].
  { intros Hn. apply Hf. by apply inode_indirect_inuse. }
  { intros x Hx. by destruct (own_inuse _ _ _ Hok Hx). }
  pose proof Hst as (Hinv' & Hs & Hd & Hg).
  assert (Hind : indirect d <> 0 -> disk_of sfs' (indirect d) = disk_of sfs (indirect d)).
  { intros Hn. pose proof (inode_indirect_inuse _ _ Hok Hn) as Hu. rewrite Hd by (by eapply inuse_pos). by apply Hf. }
  split.
  - pose proof (own_ext _ (disk_of sfs) _ Hind) as Hown. split; [done|]. split; [done|]. split; [done|]. split.
    { intros x Hx _. split; [apply (fs_step_inuse _ _ _ _ x Hst); exact Hx|]. rewrite Hd by (by eapply inuse_pos). by apply Hf. }
    rewrite Hown. split; [auto|]. split; [auto|]. intros x Hx Hfx. left. by rewrite Hg.
  - apply file_data_same; [done|]. intros i Hi. unfold file_block. rewrite Hbm. pose proof (inode_inuse _ _ _ Hok Hi) as Hu.
    rewrite Hd by (by eapply inuse_pos). by apply Hf.
Qed.

(** Growing by one block of zeros. *)
Lemma grown_frame sfs d b sfs' d' :
  fs_inv sfs -> inode_ok sfs d -> d_blocks d < MAX_BLOCKS -> grown sfs d b sfs' d' ->
  let d2 := din_blocks (d_blocks d + 1) d' in
  file_frame sfs d sfs' d2 /\ file_data sfs' d2 = file_data sfs d ++ zero_block /\ bmap (disk_of sfs') d2 (d_blocks d) = b.
Proof.
  intros Hinv Hok Hi Hg d2. pose proof (grown_inode_ok _ _ _ _ _ Hinv Hok Hi Hg) as Hok2. fold d2 in Hok2.
  destruct Hg as ((Hinv' & Hs & Huse & Hdisk) & Hattr & Hl & Hfb & Hub & Hzero & Hind & Hind2 & Hb & Hj & Hleak).
  pose proof Hok as (_ & Hbl & _).
  assert (Hblk : forall i, 0 <= i < d_blocks d -> file_block sfs' d2 i = file_block sfs d i).
  { intros i Hir. unfold file_block. change (bmap (disk_of sfs') d2 i) with (bmap (disk_of sfs') d' i). rewrite Hj by lia.
    apply Hdisk; [by apply inode_inuse|]. destruct (decide (indirect d = 0)) as [E|E]; [|by apply inode_not_indirect].
    rewrite E. destruct (inode_inuse _ _ _ Hok Hir). lia. }
  split; [|split; [|exact Hb]].
  - split; [done|]. split; [done|]. split; [done|]. split; [|split; [|split]].
    + intros x Hx Hn. split; [by apply Huse|]. apply Hdisk; [done|]. intros ->. destruct (decide (indirect d = 0)) as [E|E]; [destruct Hx; lia|].
      apply Hn. apply own_elem. by right.
    + intros x Hx. apply own_elem in Hx as [(i & Hir & <-)|[Hn ->]].
      * change (bmap (disk_of sfs') d2 i) with (bmap (disk_of sfs') d' i). change (d_blocks d2) with (d_blocks d + 1) in Hir.
        destruct (decide (i = d_blocks d)) as [->|]; [right; by rewrite Hb|]. left. rewrite Hj by lia. apply own_elem. left. exists i. split; [lia|done].
      * change (indirect d2) with (indirect d') in *. destruct Hind as [E|[_ Hf]]; [|by right]. left. rewrite E in *. apply own_elem. by right.
    + intros x Hx. left. apply own_elem in Hx as [(i & Hir & <-)|[Hn ->]]; apply own_elem.
      * left. exists i. change (d_blocks d2) with (d_blocks d + 1). split; [lia|]. change (bmap (disk_of sfs') d2 i) with (bmap (disk_of sfs') d' i). apply Hj; lia.
      * right. change (indirect d2) with (indirect d'). destruct Hind as [->|[E _]]; [done|]. by rewrite E in Hn.
    + intros x Hp Hf. destruct (Hleak x Hp Hf) as [?|[->|Hx]]; [by left| |].
      * right. apply own_elem. left. exists (d_blocks d). change (d_blocks d2) with (d_blocks d + 1). split; [lia|]. exact Hb.
      * destruct (decide (indirect d' = 0)) as [E|E].
        -- left. rewrite Hx, E in Hf. destruct Hinv as [_ (_ & _ & Hreal & _)]. specialize (Hreal 0 ltac:(lia) Hf). lia.
        -- right. rewrite Hx. apply own_elem. by right.
  - unfold file_data. change (d_blocks d2) with (d_blocks d + 1). rewrite join_blocks_S by lia. f_equal.
    + unfold join_blocks. f_equal. apply list_fmap_ext. intros k x Hx. apply lookup_seqZ in Hx as [-> Hk]. apply Hblk. lia.
    + unfold file_block. change (bmap (disk_of sfs') d2 (d_blocks d)) with (bmap (disk_of sfs') d' (d_blocks d)). rewrite Hb. exact Hzero.
Qed.

(** Overwriting part of one block. *)
Lemma write_frame sfs d i o w f sfs' :
  fs_inv sfs -> inode_ok sfs d -> 0 <= i < d_blocks d -> (o + length w <= BLK)%nat ->
  f = upd (disk_of sfs) (bmap (disk_of sfs) d i) (list_inserts o w (file_block sfs d i)) ->
  fs_step sfs f (is_free sfs) sfs' ->
  file_frame sfs d sfs' d /\ file_data sfs' d = list_inserts (Z.to_nat (i * 4096) + o) w (file_data sfs d).
Proof.
  intros Hinv Hok Hi How -> Hst. set (b := bmap (disk_of sfs) d i) in *. pose proof (inode_inuse _ _ _ Hok Hi) as Hub. fold b in Hub.
  assert (Hbi : indirect d <> 0 -> indirect d <> b) by (intros Hn He; by apply (inode_not_indirect sfs d i)).
  destruct (inode_ok_step sfs _ _ sfs' d Hok Hst) as [Hok' Hbm].
  { intros Hn. apply upd_ne. by apply Hbi. }
  { intros x Hx. by destruct (own_inuse _ _ _ Hok Hx). }
  pose proof Hst as (Hinv' & Hs & Hd & Hg).
  assert (Hind : indirect d <> 0 -> disk_of sfs' (indirect d) = disk_of sfs (indirect d)).
  { intros Hn. rewrite Hd by (eapply inuse_pos; by apply inode_indirect_inuse). apply upd_ne. by apply Hbi. }
  split.
  - pose proof (own_ext _ (disk_of sfs) _ Hind) as Hown. split; [done|]. split; [done|]. split; [done|]. split.
    { intros x Hx Hn. split; [apply (fs_step_inuse _ _ _ _ x Hst); exact Hx|].
      rewrite Hd by (by eapply inuse_pos). apply upd_ne. intros ->. apply Hn. apply own_elem. left. by exists i. }
    rewrite Hown. split; [auto|]. split; [auto|]. intros x Hx Hfx. left. by rewrite Hg.
  - unfold file_data. apply join_blocks_insert; try done.
    + intros j Hj. by apply file_block_length.
    + unfold file_block at 1. rewrite Hbm. fold b. rewrite Hd by (by eapply inuse_pos). by rewrite upd_eq.
    + intros j Hj Hne. unfold file_block. rewrite Hbm. rewrite Hd by (eapply inuse_pos; by apply inode_inuse). apply upd_ne.
      intros He. apply Hne. by apply (inode_inj sfs d).
Qed.

(** Finding, or adding, the block [i]. *)
Lemma load_block sfs sin i :
  fs_inv sfs -> inode_ok sfs (din sin) -> 0 <= i <= d_blocks (din sin) -> i < MAX_BLOCKS ->
  let n := (d_blocks (din sin)) `max` (i + 1) in
  exists sfs' sin' r, sfs_bmap_load_nolock i (sfs, sin) = Ok ((sfs', sin'), r) /\
    same_sin sin sin' /\ same_attrs (din sin) (din sin') /\ file_frame sfs (din sin) sfs' (din sin') /\
    match r with
    | inl e => e = E_NO_MEM /\ din sin' = din sin /\ file_data sfs' (din sin') = file_data sfs (din sin)
    | inr b => d_blocks (din sin') = n /\ bmap (disk_of sfs') (din sin') i = b /\
               file_data sfs' (din sin') = padded (file_data sfs (din sin)) n
    end.
Proof.
  intros Hinv Hok Hi Hmax n. pose proof (file_data_length sfs (din sin) Hinv Hok) as Hlen.
  destruct (decide (i = d_blocks (din sin))) as [->|Hne].
  - destruct (bmap_load_grow sfs sin Hinv Hok Hmax) as [(s1 & Hr & Hun)|(s1 & sin1 & d' & b & Hr & Hsame & Hg & Hdin)].
    + exists s1, sin, (inl E_NO_MEM). destruct (unchanged_frame _ _ _ Hok Hun) as [Hfr Hdata]. by split_and!.
    + destruct (grown_frame _ _ _ _ _ Hinv Hok Hmax Hg) as (Hfr & Hdata & Hb). rewrite <- Hdin in Hfr, Hdata, Hb.
      exists s1, sin1, (inr b). split; [done|]. split; [done|].
      destruct Hg as (_ & (A1 & A2 & A3 & A4) & _). split; [rewrite Hdin; by split_and!|]. split; [done|]. split.
      { rewrite Hdin. cbn. lia. }
      split; [done|]. rewrite Hdata. unfold padded. f_equal. rewrite Hlen. unfold zero_block, n. f_equal. fold BLK.
      replace (Z.to_nat (d_blocks (din sin) `max` (d_blocks (din sin) + 1))) with (Z.to_nat (d_blocks (din sin)) + 1)%nat by lia. lia.
  - destruct (bmap_load_lookup sfs sin i Hinv Hok ltac:(lia)) as (s1 & Hr & Hst).
    exists s1, sin, (inr (bmap (disk_of sfs) (din sin) i)). split; [done|]. split; [done|]. split; [done|].
    destruct (unchanged_frame _ _ _ Hok (unchanged_same _ _ Hst)) as [Hfr Hdata]. split; [done|].
    destruct (inode_ok_same _ _ _ Hok Hst) as [_ Hbm]. split; [lia|]. split; [apply Hbm|]. rewrite Hdata.
    symmetry. apply padded_id. rewrite Hlen. apply Nat.mul_le_mono_r. lia.
Qed.

(** * The shape of a transfer

    Whatever is transferred, [x_transfer] cuts the range into pieces that lie in one
    block each.  [P a fs sin buf] is what holds when [a] bytes are done; the two
    hypotheses say what one piece does, for the two operations. *)
Section Transfer.
Context (write : bool) (base off0 endpos : Z) (P : Z -> sfs_fs D -> sfs_inode -> list Z -> Prop) (Err : Z -> Prop).

Definition piece_done (a size : Z) (i : Z) (x' : io_state) (r : Z + unit) : Prop :=
  x_data x' = base + a /\ x_offset x' = off0 + a /\ x_alen x' = a /\ x_blkno x' = i /\
  match r with inl e => P a (x_fs x') (x_sin x') (x_buf x') /\ Err e | inr _ => P (a + size) (x_fs x') (x_sin x') (x_buf x') end.

Definition piece_in (a i o size : Z) : Prop :=
  off0 + a = i * SFS_BLKSIZE + o /\ 0 <= a /\ 0 <= o /\ 0 < size /\ o + size <= SFS_BLKSIZE /\ off0 + a + size <= endpos.

Hypothesis buf_piece : forall a fs sin buf i o size, P a fs sin buf -> piece_in a i o size ->
  exists x' r, (ino ← x_load; x_buf_op write size ino o) (mk_io fs sin buf (base + a) (off0 + a) a i) = Ok (x', r) /\
    piece_done a size i x' r.
Hypothesis block_piece : forall a fs sin buf i, P a fs sin buf -> piece_in a i 0 SFS_BLKSIZE ->
  exists x' r, (ino ← x_load; x_block_op write ino) (mk_io fs sin buf (base + a) (off0 + a) a i) = Ok (x', r) /\
    piece_done a SFS_BLKSIZE i x' r.
Hypothesis range_ok : 0 <= off0 < endpos /\ endpos < 2 ^ 40.

Lemma bind_assoc {A B C} (m : M io_state A) (f : A -> M io_state B) (g : B -> M io_state C) x :
  ((m ≫= f) ≫= g) x = (m ≫= fun a => f a ≫= g) x.
Proof. unfold mbind, M_bind. cbn. by destruct (m x) as [[s [e|a]]| | |]. Qed.

Lemma x_eta x : x = mk_io (x_fs x) (x_sin x) (x_buf x) (x_data x) (x_offset x) (x_alen x) (x_blkno x).
Proof. by destruct x. Qed.

(** The state after [a] bytes, before the next piece. *)
Definition at_piece (a : Z) (x : io_state) : Prop :=
  P a (x_fs x) (x_sin x) (x_buf x) /\ x_data x = base + a /\ x_offset x = off0 + a /\ x_alen x = a /\ 0 <= a /\ off0 + a <= endpos.

Definition aligned (a : Z) (x : io_state) : Prop :=
  off0 + a = x_blkno x * SFS_BLKSIZE \/ off0 + a = endpos.

Definition ended (x : io_state) (r : Z + unit) : Prop :=
  exists a, P a (x_fs x) (x_sin x) (x_buf x) /\ x_alen x = a /\ 0 <= a <= endpos - off0 /\
    match r with inl e => Err e | inr _ => a = endpos - off0 end.

Lemma advance_piece a size i x' :
  piece_done a size i x' (inr tt) -> 0 <= a -> 0 < size -> off0 + a + size <= endpos -> 0 <= i -> i * SFS_BLKSIZE <= off0 + a ->
  exists x2, x_advance size x' = Ok (x2, inr tt) /\ at_piece (a + size) x2 /\ x_blkno x2 = i + 1.
Proof.
  intros (H1 & H2 & H3 & H4 & H5) Ha Hs He Hi Hio. eexists. split; [reflexivity|]. split.
  - unfold at_piece; cbn. rewrite H1, H2, H3. split_and!; try done; lia.
  - cbn. rewrite H4. apply u32_small. unfold SFS_BLKSIZE in *. lia.
Qed.

Lemma head_piece x i o nblks :
  at_piece 0 x -> x_blkno x = i -> off0 = i * SFS_BLKSIZE + o -> 0 <= o < SFS_BLKSIZE -> 0 <= i ->
  nblks = endpos / SFS_BLKSIZE - i ->
  exists x' r, x_head write endpos nblks x = Ok (x', r) /\
    match r with inl _ => ended x' r | inr _ => exists a, at_piece a x' /\ aligned a x' /\ 0 <= x_blkno x' end.
Proof.
  intros (HP & Hd & Ho & Ha & _ & _) Hb Hoff Hor Hi Hn. unfold x_head.
  rewrite (bind_ok _ _ _ x (x_offset x)) by done. rewrite Ho, Z.add_0_r.
  assert (Z.rem off0 SFS_BLKSIZE = o) as ->.
  { rewrite Z.rem_mod_nonneg by (unfold SFS_BLKSIZE; lia). symmetry. apply (Z.mod_unique_pos off0 SFS_BLKSIZE i o); [done|lia]. }
  destruct (Z.eqb_spec o 0) as [E|E]; cbn [negb].
  - exists x, (inr tt). split; [done|]. exists 0. split; [by split_and!; [..|lia]|]. split; [left; rewrite Hb; lia|lia].
  - set (size := if negb (nblks =? 0) then SFS_BLKSIZE - o else endpos - off0).
    assert (Hsize : 0 < size /\ o + size <= SFS_BLKSIZE /\ off0 + size <= endpos /\ (off0 + size = (i + 1) * SFS_BLKSIZE \/ off0 + size = endpos)).
    { pose proof (Z.div_mod endpos SFS_BLKSIZE ltac:(done)) as Hdm. pose proof (Z.mod_pos_bound endpos SFS_BLKSIZE ltac:(done)) as Hm.
      assert (i <= endpos / SFS_BLKSIZE) as Hge by (apply Z.div_le_lower_bound; unfold SFS_BLKSIZE in *; lia).
      unfold size. destruct (Z.eqb_spec nblks 0); cbn [negb]; unfold SFS_BLKSIZE in *; lia. }
    destruct Hsize as (Hs1 & Hs2 & Hs3 & Hs4).
    destruct (buf_piece 0 (x_fs x) (x_sin x) (x_buf x) i o size HP) as (x' & r & Hrun & Hdone).
    { unfold piece_in. lia. }
    assert (Hx : mk_io (x_fs x) (x_sin x) (x_buf x) (base + 0) (off0 + 0) 0 i = x) by (rewrite (x_eta x) at 4; f_equal; lia).
    rewrite Hx in Hrun. rewrite <- (bind_assoc x_load _ (fun _ => x_advance size)).
    destruct r as [e|[]].
    + exists x', (inl e). split; [by apply bind_err|]. destruct Hdone as (_ & _ & H3 & _ & H5 & HE). exists 0. split; [done|]. split; [done|]. split; [lia|done].
    + rewrite (bind_ok _ _ _ _ _ Hrun). destruct (advance_piece 0 size i x' Hdone) as (x2 & Hadv & Hat & Hblk); try lia.
      exists x2, (inr tt). split; [done|]. exists (0 + size). split; [done|]. split; [|lia]. unfold aligned. rewrite Hblk. lia.
Qed.

Lemma block_loop fuel a x :
  at_piece a x -> aligned a x -> 0 <= x_blkno x -> (Z.to_nat ((endpos - off0 - a) / SFS_BLKSIZE) < fuel)%nat ->
  exists x' r, m_loop (x_block write endpos) fuel tt x = Ok (x', r) /\
    match r with inl _ => ended x' r | inr _ => exists a', at_piece a' x' /\ aligned a' x' /\ 0 <= x_blkno x' /\ endpos < off0 + a' + SFS_BLKSIZE end.
Proof.
  revert a x. induction fuel as [|fuel IH]; intros a x Hat Hal Hbn Hf; [lia|].
  pose proof Hat as (HP & Hd & Ho & Ha & Ha0 & Hae).
  assert (Hx : mk_io (x_fs x) (x_sin x) (x_buf x) (base + a) (off0 + a) a (x_blkno x) = x) by (rewrite (x_eta x) at 5; f_equal; lia).
  destruct (decide (off0 + a + SFS_BLKSIZE <= endpos)) as [Hle|Hgt].
  - assert (Hal' : off0 + a = x_blkno x * SFS_BLKSIZE) by (destruct Hal as [?|?]; [done|unfold SFS_BLKSIZE in *; lia]).
    destruct (block_piece a (x_fs x) (x_sin x) (x_buf x) (x_blkno x) HP) as (x' & r & Hrun & Hdone).
    { unfold piece_in, SFS_BLKSIZE in *. lia. }
    rewrite Hx in Hrun.
    assert (Hbody : x_block write endpos tt x = ((ino ← x_load; x_block_op write ino) ≫= fun _ => x_advance SFS_BLKSIZE ≫= fun _ => mret (inl tt)) x).
    { unfold x_block. rewrite (bind_ok _ _ _ x (x_offset x)) by done. rewrite Ho, (proj2 (Z.leb_le _ _) Hle). by rewrite <- bind_assoc. }
    destruct r as [e|[]].
    + exists x', (inl e). split; [|].
      * apply m_loop_err. rewrite Hbody. by apply bind_err.
      * destruct Hdone as (_ & _ & H3 & _ & H5 & HE). exists a. split; [done|]. split; [done|]. split; [lia|done].
    + destruct (advance_piece a SFS_BLKSIZE (x_blkno x) x' Hdone) as (x2 & Hadv & Hat2 & Hblk); try (unfold SFS_BLKSIZE in *; lia).
      rewrite (m_loop_next _ _ _ _ x2 tt).
      2: { rewrite Hbody. rewrite (bind_ok _ _ _ _ _ Hrun). by rewrite (bind_ok _ _ _ _ _ Hadv). }
      apply (IH (a + SFS_BLKSIZE)); [done|left; rewrite Hblk; unfold SFS_BLKSIZE in *; lia|lia|].
      replace (endpos - off0 - a) with ((endpos - off0 - (a + SFS_BLKSIZE)) + 1 * SFS_BLKSIZE) in Hf by lia.
      rewrite Z.div_add in Hf by done.
      assert (0 <= (endpos - off0 - (a + SFS_BLKSIZE)) / SFS_BLKSIZE) by (apply Z.div_pos; unfold SFS_BLKSIZE in *; lia). lia.
  - exists x, (inr tt). split.
    + apply m_loop_exit. unfold x_block. rewrite (bind_ok _ _ _ x (x_offset x)) by done. by rewrite Ho, (proj2 (Z.leb_gt _ _)) by lia.
    + exists a. split; [done|]. split; [done|]. split; [done|lia].
Qed.

Lemma tail_piece a x :
  at_piece a x -> aligned a x -> endpos < off0 + a + SFS_BLKSIZE ->
  exists x' r, x_tail write endpos x = Ok (x', r) /\ ended x' r.
Proof.
  intros Hat Hal Hend. pose proof Hat as (HP & Hd & Ho & Ha & Ha0 & Hae). unfold x_tail.
  rewrite (bind_ok _ _ _ x (x_offset x)) by done. rewrite Ho. destruct (Z.ltb_spec (off0 + a) endpos) as [Hlt|Hge].
  - destruct Hal as [Hal|]; [|lia].
    assert (Hx : mk_io (x_fs x) (x_sin x) (x_buf x) (base + a) (off0 + a) a (x_blkno x) = x) by (rewrite (x_eta x) at 5; f_equal; lia).
    destruct (buf_piece a (x_fs x) (x_sin x) (x_buf x) (x_blkno x) 0 (endpos - (off0 + a)) HP) as (x' & r & Hrun & Hdone).
    { unfold piece_in, SFS_BLKSIZE in *. lia. }
    rewrite Hx in Hrun. rewrite <- (bind_assoc x_load _ (fun _ => _)). destruct Hdone as (_ & _ & H3 & _ & H5). destruct r as [e|[]].
    + destruct H5 as [H5 HE]. exists x', (inl e). split; [by apply bind_err|]. exists a. split; [done|]. split; [done|]. split; [lia|done].
    + rewrite (bind_ok _ _ _ _ _ Hrun). eexists _, (inr tt). split; [reflexivity|]. cbn.
      exists (a + (endpos - (off0 + a))). cbn. split; [done|]. split; [by rewrite H3|]. split; [lia|lia].
  - exists x, (inr tt). split; [done|]. exists a. split; [done|]. split; [done|]. split; [lia|lia].
Qed.

Lemma transfer_spec fs sin buf fuel :
  P 0 fs sin buf -> (Z.to_nat ((endpos - off0) / SFS_BLKSIZE) < fuel)%nat ->
  exists x' r, x_transfer write endpos (endpos / SFS_BLKSIZE - off0 / SFS_BLKSIZE) fuel
      (mk_io fs sin buf base off0 0 (off0 / SFS_BLKSIZE)) = Ok (x', r) /\ ended x' r.
Proof.
  intros HP Hf. unfold x_transfer. set (x := mk_io _ _ _ _ _ _ _).
  pose proof (Z.div_mod off0 SFS_BLKSIZE ltac:(done)) as Hdm. pose proof (Z.mod_pos_bound off0 SFS_BLKSIZE ltac:(done)) as Hm.
  destruct (head_piece x (off0 / SFS_BLKSIZE) (off0 mod SFS_BLKSIZE) (endpos / SFS_BLKSIZE - off0 / SFS_BLKSIZE)) as (x1 & r1 & Hrun1 & H1); try done.
  { unfold at_piece, x; cbn. split_and!; try done; lia. }
  { lia. }
  { apply Z.div_pos; [lia|done]. }
  destruct r1 as [e|[]]; [exists x1, (inl e); split; [by apply bind_err|done]|].
  destruct H1 as (a1 & Hat1 & Hal1 & Hb1). rewrite (bind_ok _ _ _ _ _ Hrun1).
  destruct (block_loop fuel a1 x1 Hat1 Hal1 Hb1) as (x2 & r2 & Hrun2 & H2).
  { assert ((endpos - off0 - a1) / SFS_BLKSIZE <= (endpos - off0) / SFS_BLKSIZE); [|lia].
    apply Z.div_le_mono; [done|]. destruct Hat1 as (_ & _ & _ & _ & ? & _). lia. }
  destruct r2 as [e|[]]; [exists x2, (inl e); split; [by apply bind_err|done]|].
  destruct H2 as (a2 & Hat2 & Hal2 & Hb2 & Hend). rewrite (bind_ok _ _ _ _ _ Hrun2).
  by apply (tail_piece a2).
Qed.

End Transfer.

(** * Reading *)
Lemma x_load_ok fs sin buf dt off a i s' r :
  sfs_bmap_load_nolock i (fs, sin) = Ok (s', r) ->
  x_load (mk_io fs sin buf dt off a i) = Ok (mk_io (fst s') (snd s') buf dt off a i, r).
Proof. intros H. unfold x_load. cbn. by rewrite H. Qed.

Lemma bytes_at_add l off a b :
  0 <= off -> 0 <= a -> 0 <= b ->
  bytes_at l (Z.to_nat off) (Z.to_nat (a + b)) = bytes_at l (Z.to_nat off) (Z.to_nat a) ++ bytes_at l (Z.to_nat (off + a)) (Z.to_nat b).
Proof.
  intros H1 H2 H3. rewrite Z2Nat.inj_add, bytes_at_split by done. f_equal. f_equal. lia.
Qed.

Section Reading.
Context (sfs0 : sfs_fs D) (sin0 : sfs_inode) (buf0 : list Z) (base off0 endpos : Z).
Hypothesis inv0 : fs_inv sfs0.
Hypothesis ok0 : inode_ok sfs0 (din sin0).
Hypothesis base_ok : 0 <= base /\ base + (endpos - off0) <= Z.of_nat (length buf0).
Hypothesis end_ok : 0 <= off0 /\ endpos <= d_blocks (din sin0) * SFS_BLKSIZE.

Definition read_inv (a : Z) (fs : sfs_fs D) (sin : sfs_inode) (buf : list Z) : Prop :=
  sin = sin0 /\ fs_step sfs0 (disk_of sfs0) (is_free sfs0) fs /\
  buf = list_inserts (Z.to_nat base) (bytes_at (file_data sfs0 (din sin0)) (Z.to_nat off0) (Z.to_nat a)) buf0.

Lemma read_load a fs sin buf i o size dt off al :
  read_inv a fs sin buf -> piece_in off0 endpos a i o size ->
  exists fs', x_load (mk_io fs sin buf dt off al i) = Ok (mk_io fs' sin buf dt off al i, inr (bmap (disk_of sfs0) (din sin0) i)) /\
    read_inv a fs' sin buf /\ 0 <= i < d_blocks (din sin0) /\
    inuse fs' (bmap (disk_of sfs0) (din sin0) i) /\
    disk_of fs' (bmap (disk_of sfs0) (din sin0) i) = file_block sfs0 (din sin0) i.
Proof.
  intros (-> & Hst & Hbuf) (Hp & Ha & Ho & Hs & Hos & He).
  destruct (inode_ok_same _ _ _ ok0 Hst) as [Hok Hbm]. pose proof (fs_step_inv _ _ _ _ Hst) as Hinv.
  assert (Hi : 0 <= i < d_blocks (din sin0)) by (unfold SFS_BLKSIZE in *; lia).
  destruct (bmap_load_lookup fs sin0 i Hinv Hok Hi) as (fs' & Hload & Hst'). rewrite Hbm in Hload.
  assert (Hst2 : fs_step sfs0 (disk_of sfs0) (is_free sfs0) fs').
  { eapply fs_step_ext; [by eapply fs_step_trans| |]; intros b Hb; destruct Hst as (_ & _ & H1 & H2); [by apply H1|by apply H2]. }
  exists fs'. split; [exact (x_load_ok _ _ _ _ _ _ _ _ _ Hload)|]. split; [by split_and!|]. split; [done|].
  pose proof (inode_inuse _ _ _ ok0 Hi) as Hu. split.
  - apply (fs_step_inuse _ _ _ _ _ Hst2). exact Hu.
  - destruct Hst2 as (_ & _ & Hd & _). apply Hd. by eapply inuse_pos.
Qed.

(** The bytes of a piece. *)
Lemma read_piece_data a i o size :
  piece_in off0 endpos a i o size -> 0 <= i < d_blocks (din sin0) ->
  bytes_at (file_block sfs0 (din sin0) i) (Z.to_nat o) (Z.to_nat size) = bytes_at (file_data sfs0 (din sin0)) (Z.to_nat (off0 + a)) (Z.to_nat size).
Proof.
  intros (Hp & Ha & Ho & Hs & Hos & He) Hi. pose proof blk_eq as HB. unfold SFS_BLKSIZE in *.
  replace (Z.to_nat (off0 + a)) with (Z.to_nat (i * 4096) + Z.to_nat o)%nat by lia. symmetry.
  apply join_blocks_read; [|done|lia]. intros j Hj. by apply file_block_length.
Qed.

Lemma read_inv_add a fs sin buf size :
  read_inv a fs sin buf -> 0 <= a -> 0 < size -> off0 + a + size <= endpos ->
  read_inv (a + size) fs sin (list_inserts (Z.to_nat (base + a)) (bytes_at (file_data sfs0 (din sin0)) (Z.to_nat (off0 + a)) (Z.to_nat size)) buf).
Proof.
  intros (-> & Hst & ->) Ha Hs He. split; [done|]. split; [done|].
  rewrite bytes_at_add by lia. rewrite list_inserts_app_l. f_equal.
  rewrite bytes_at_length; [lia|]. rewrite file_data_length by done. pose proof blk_eq. unfold SFS_BLKSIZE in *. destruct ok0 as (_ & ? & _). lia.
Qed.

Lemma read_buf_length a fs sin buf : read_inv a fs sin buf -> length buf = length buf0.
Proof. intros (_ & _ & ->). apply length_inserts. Qed.

Lemma read_buf_piece a fs sin buf i o size :
  read_inv a fs sin buf -> piece_in off0 endpos a i o size ->
  exists x' r, (ino ← x_load; x_buf_op false size ino o) (mk_io fs sin buf (base + a) (off0 + a) a i) = Ok (x', r) /\
    piece_done base off0 read_inv (fun _ => False) a size i x' r.
Proof.
  intros HP Hin. destruct (read_load a fs sin buf i o size (base + a) (off0 + a) a HP Hin) as (fs1 & Hload & HP1 & Hi & Hu & Hblk).
  rewrite (bind_ok _ _ _ _ _ Hload). pose proof Hin as (Hp & Ha & Ho & Hs & Hos & He).
  pose proof HP1 as (Hsin & Hst1 & _). pose proof (fs_step_inv _ _ _ _ Hst1) as Hinv1.
  destruct (sfs_rbuf_spec fs1 size (bmap (disk_of sfs0) (din sin0) i) o) as (fs2 & Hrb & Hio); [apply Hinv1|apply Hu|lia|lia|lia|].
  unfold x_buf_op. cbn [x_fs]. rewrite Hrb. cbn [mbind res_bind x_buf x_data]. rewrite Hblk, (read_piece_data a) by done.
  rewrite put_bytes_ok; [|lia|].
  2: { rewrite (read_buf_length _ _ _ _ HP1). rewrite bytes_at_length; [lia|].
       rewrite file_data_length by done. pose proof blk_eq. unfold SFS_BLKSIZE in *. lia. }
  cbn [mbind res_bind]. eexists _, (inr tt). split; [reflexivity|]. unfold piece_done; cbn. split_and!; try done.
  apply read_inv_add; [|lia..]. destruct HP1 as (-> & _ & Hb). split; [done|]. split; [|done].
  apply (io_fs_step fs1) in Hio; [|done]. eapply fs_step_ext; [by eapply fs_step_trans| |]; intros b Hb2; destruct Hst1 as (_ & _ & H1 & H2); [by apply H1|by apply H2].
Qed.

Lemma read_block_piece a fs sin buf i :
  read_inv a fs sin buf -> piece_in off0 endpos a i 0 SFS_BLKSIZE ->
  exists x' r, (ino ← x_load; x_block_op false ino) (mk_io fs sin buf (base + a) (off0 + a) a i) = Ok (x', r) /\
    piece_done base off0 read_inv (fun _ => False) a SFS_BLKSIZE i x' r.
Proof.
  intros HP Hin. destruct (read_load a fs sin buf i 0 SFS_BLKSIZE (base + a) (off0 + a) a HP Hin) as (fs1 & Hload & HP1 & Hi & Hu & Hblk).
  rewrite (bind_ok _ _ _ _ _ Hload). pose proof Hin as (Hp & Ha & Ho & Hs & Hos & He).
  pose proof HP1 as (Hsin & Hst1 & _). pose proof (fs_step_inv _ _ _ _ Hst1) as Hinv1.
  destruct (sfs_rblock_spec fs1 buf (base + a) (bmap (disk_of sfs0) (din sin0) i)) as (fs2 & Hrb & Hio); [apply Hinv1|apply Hu|lia| |].
  { rewrite (read_buf_length _ _ _ _ HP1). lia. }
  unfold x_block_op. cbn [x_fs x_buf x_data]. rewrite Hrb. cbn [mbind res_bind Z.eqb]. rewrite Hblk.
  pose proof (read_piece_data a i 0 SFS_BLKSIZE Hin Hi) as Hd. rewrite bytes_at_all in Hd by (by apply file_block_length). rewrite Hd.
  eexists _, (inr tt). split; [reflexivity|]. unfold piece_done; cbn. split_and!; try done.
  apply read_inv_add; [|lia..]. destruct HP1 as (-> & _ & Hb). split; [done|]. split; [|done].
  apply (io_fs_step fs1) in Hio; [|done]. eapply fs_step_ext; [by eapply fs_step_trans| |]; intros b Hb2; destruct Hst1 as (_ & _ & H1 & H2); [by apply H1|by apply H2].
Qed.

End Reading.

(** A file has the blocks its size needs. *)
Definition file_ok sfs (d : sfs_disk_inode) : Prop :=
  inode_ok sfs d /\ d_type d = SFS_TYPE_FILE /\ 0 <= d_size d /\ d_blocks d = blocks_for (d_size d).

Lemma blocks_for_holds z : z <= blocks_for z * SFS_BLKSIZE.
Proof.
  unfold blocks_for, SFS_BLKSIZE. pose proof (Z.div_mod (z + 4096 - 1) 4096 ltac:(lia)). pose proof (Z.mod_pos_bound (z + 4096 - 1) 4096 ltac:(lia)). lia.
Qed.

Lemma file_ok_size sfs d : file_ok sfs d -> 0 <= d_size d <= d_blocks d * SFS_BLKSIZE /\ d_blocks d <= 1036.
Proof. intros ((_ & Hb & _) & _ & H0 & E). pose proof (blocks_for_holds (d_size d)) as H. rewrite max_blocks in Hb. rewrite <- E in H. lia. Qed.

(** [sfs_io_nolock] once the position is known to be good. *)
Lemma io_nolock_enter buf base offset len (write : bool) sfs sin :
  d_type (din sin) = SFS_TYPE_FILE -> 0 <= offset < SFS_MAX_FILE_SIZE -> 0 < len < 2 ^ 40 -> (write = false -> offset < d_size (din sin)) ->
  0 <= d_size (din sin) ->
  let endpos := let e := (offset + len) `min` SFS_MAX_FILE_SIZE in if write then e else e `min` d_size (din sin) in
  sfs_io_nolock buf base offset len write (sfs, sin) =
    ('(x, r) ← x_transfer write endpos (endpos / SFS_BLKSIZE - offset / SFS_BLKSIZE) (S (Z.to_nat len)) (mk_io sfs sin buf base offset 0 (offset / SFS_BLKSIZE));
     let ret := match r with inl e => - e | inr _ => 0 end in
     let sin := x_sin x in
     let sin :=
        if write && negb (x_alen x =? 0) && (d_size (din sin) <? offset + x_alen x)
        then set_dirty true (set_din (din_size (u32 (offset + x_alen x)) (din sin)) sin)
        else sin in
     Ok ((x_fs x, sin), x_buf x, x_alen x, ret)).
Proof.
  intros Ht Hoff Hlen Hrd Hsz. unfold sfs_io_nolock. rewrite Ht. change (negb (SFS_TYPE_FILE =? SFS_TYPE_DIR)) with true. cbn [c_assert mbind res_bind].
  assert (SFS_MAX_FILE_SIZE = 134217728) as HM by done. rewrite i64_small by lia.
  rewrite (proj2 (Z.ltb_ge offset 0)), (proj2 (Z.leb_gt SFS_MAX_FILE_SIZE offset)), (proj2 (Z.ltb_ge (offset + len) offset)), (proj2 (Z.eqb_neq offset (offset + len))) by lia.
  cbn [orb].
  assert ((if SFS_MAX_FILE_SIZE <? offset + len then SFS_MAX_FILE_SIZE else offset + len) = (offset + len) `min` SFS_MAX_FILE_SIZE) as ->.
  { destruct (Z.ltb_spec SFS_MAX_FILE_SIZE (offset + len)); lia. }
  set (e := (offset + len) `min` SFS_MAX_FILE_SIZE).
  assert (negb write && (d_size (din sin) <=? offset) = false) as ->.
  { destruct write; [done|]. cbn. apply Z.leb_gt. by apply Hrd. }
  assert ((if negb write && (d_size (din sin) <? e) then d_size (din sin) else e) = if write then e else e `min` d_size (din sin)) as ->.
  { destruct write; cbn; [done|]. destruct (Z.ltb_spec (d_size (din sin)) e); lia. }
  set (endpos := if write then e else e `min` d_size (din sin)).
  assert (offset < endpos <= 134217728) as He by (unfold endpos, e; destruct write; [lia|]; specialize (Hrd eq_refl); lia).
  rewrite !Z.quot_div_nonneg by (unfold SFS_BLKSIZE; lia).
  pose proof (Z.div_pos offset SFS_BLKSIZE ltac:(lia) ltac:(done)).
  assert (offset / SFS_BLKSIZE <= endpos / SFS_BLKSIZE) by (apply Z.div_le_mono; [done|lia]).
  assert (endpos / SFS_BLKSIZE < 2 ^ 20) by (apply Z.div_lt_upper_bound; [done|unfold SFS_BLKSIZE; lia]).
  rewrite (u32_small (offset / SFS_BLKSIZE)) by lia. rewrite u32_small by lia. done.
Qed.

(** [n] bytes can be read at [offset]. *)
Definition readable_bytes (d : sfs_disk_inode) (offset len : Z) : Z := ((offset + len) `min` d_size d - offset) `max` 0.

(** Reading a file: at any offset below the size limit the read succeeds, transfers
    exactly the bytes of the file that lie between the offset and the end of the
    request or of the file, into the caller's buffer and nowhere else, and leaves the
    inode and every block as they were. *)
Lemma sfs_read_bytes sfs sin buf base offset len :
  fs_inv sfs -> file_ok sfs (din sin) -> 0 <= offset < SFS_MAX_FILE_SIZE -> 0 <= len < 2 ^ 40 ->
  0 <= base -> base + len <= Z.of_nat (length buf) ->
  let n := readable_bytes (din sin) offset len in
  exists sfs', sfs_io_nolock buf base offset len false (sfs, sin) =
      Ok ((sfs', sin), list_inserts (Z.to_nat base) (bytes_at (file_data sfs (din sin)) (Z.to_nat offset) (Z.to_nat n)) buf, n, 0) /\
    fs_step sfs (disk_of sfs) (is_free sfs) sfs'.
Proof.
  intros Hinv Hfile Hoff Hlen Hb Hbl n. assert (SFS_MAX_FILE_SIZE = 134217728) as HM by done.
  destruct (file_ok_size _ _ Hfile) as [Hsz Hbmax]. destruct Hfile as (Hok & Ht & _ & _).
  assert (d_size (din sin) < 134217728) as Hmax by (unfold SFS_BLKSIZE in *; lia).
  destruct (decide (len = 0 \/ d_size (din sin) <= offset)) as [Hz|Hnz].
  - exists sfs. split; [|by apply fs_step_refl]. assert (n = 0) as -> by (unfold n, readable_bytes; lia).
    unfold bytes_at. cbn [Z.to_nat take list_inserts]. unfold sfs_io_nolock. rewrite Ht. change (negb (SFS_TYPE_FILE =? SFS_TYPE_DIR)) with true.
    cbn [c_assert mbind res_bind]. rewrite i64_small by lia.
    rewrite (proj2 (Z.ltb_ge offset 0)), (proj2 (Z.leb_gt SFS_MAX_FILE_SIZE offset)), (proj2 (Z.ltb_ge (offset + len) offset)) by lia. cbn [orb].
    destruct (Z.eqb_spec offset (offset + len)); [done|]. destruct (Z.leb_spec (d_size (din sin)) offset); [done|lia].
  - rewrite io_nolock_enter; [|done|lia|lia|lia|lia]. cbv zeta. set (endpos := _ `min` d_size (din sin)).
    assert (Hend : endpos = offset + n /\ 0 < n /\ endpos <= d_size (din sin) /\ n <= len) by (unfold endpos, n, readable_bytes; lia).
    destruct Hend as (He & Hn & Hes & Hnl). clearbody endpos. clearbody n. subst endpos.
    destruct (transfer_spec false base offset (offset + n) (read_inv sfs sin buf base offset) (fun _ => False)) with (fs := sfs) (sin := sin) (buf := buf) (fuel := S (Z.to_nat len)) as (x & r & -> & a & HP & Ha & Har & Hr).
    + intros a fs s b i o size HP Hp. apply (read_buf_piece _ _ _ _ _ (offset + n)); try done; lia.
    + intros a fs s b i HP Hp. apply (read_block_piece _ _ _ _ _ (offset + n)); try done; lia.
    + lia.
    + split; [done|]. split; [by apply fs_step_refl|]. unfold bytes_at. done.
    + assert ((offset + n - offset) / SFS_BLKSIZE <= len); [|lia]. apply Z.div_le_upper_bound; unfold SFS_BLKSIZE; lia.
    + cbn [mbind res_bind andb]. destruct HP as (-> & Hst & Hbuf).
      destruct r as [e|[]]; [done|]. assert (a = n) as -> by lia. exists (x_fs x). split; [|done]. rewrite Ha, <- Hbuf. done.
Qed.

(** * Writing *)
Lemma blocks_for_after off a i o size :
  0 <= off -> 0 <= a -> off + a = i * SFS_BLKSIZE + o -> 0 <= o -> 0 < size -> o + size <= SFS_BLKSIZE ->
  blocks_for (off + (a + size)) = i + 1 /\ blocks_for (off + a) <= i + 1.
Proof.
  unfold blocks_for, SFS_BLKSIZE. intros H1 H2 H3 H4 H5 H6. split.
  - symmetry. apply (Z.div_unique _ 4096 (i + 1) (o + size - 1)); lia.
  - apply Z.lt_succ_r. apply Z.div_lt_upper_bound; lia.
Qed.

Lemma blocks_for_max x y : blocks_for (x `max` y) = (blocks_for x) `max` (blocks_for y).
Proof.
  unfold blocks_for, SFS_BLKSIZE. destruct (Z.max_spec x y) as [[H ->]|[H ->]]; symmetry; [apply Z.max_r|apply Z.max_l]; apply Z.div_le_mono; lia.
Qed.

Lemma padded_length l k n : length l = (k * BLK)%nat -> (k <= Z.to_nat n)%nat -> length (padded l n) = (Z.to_nat n * BLK)%nat.
Proof. intros Hl Hk. unfold padded. rewrite length_app, length_replicate, Hl. nia. Qed.

Lemma padded_inserts l k m n p w :
  length l = (k * BLK)%nat -> (k <= Z.to_nat m)%nat -> (Z.to_nat m <= Z.to_nat n)%nat -> (p + length w <= Z.to_nat m * BLK)%nat ->
  padded (list_inserts p w (padded l m)) n = list_inserts p w (padded l n).
Proof.
  intros Hl Hk Hmn Hp. pose proof (padded_length l k m Hl Hk) as Hlm.
  assert (padded l n = padded l m ++ replicate ((Z.to_nat n - Z.to_nat m) * BLK) 0) as ->.
  { unfold padded. rewrite <- app_assoc, <- replicate_add. do 2 f_equal. rewrite Hl. nia. }
  unfold padded at 1. rewrite length_inserts, Hlm.
  replace (Z.to_nat n * BLK - Z.to_nat m * BLK)%nat with ((Z.to_nat n - Z.to_nat m) * BLK)%nat by nia.
  rewrite (inserts_as_app (padded l m)) by lia. rewrite (inserts_as_app (padded l m ++ _)) by (rewrite length_app; lia).
  rewrite take_app_le, drop_app_le by lia. by rewrite <- !app_assoc.
Qed.

Section Writing.
Context (sfs0 : sfs_fs D) (sin0 : sfs_inode) (buf : list Z) (base off0 endpos : Z).
Hypothesis inv0 : fs_inv sfs0.
Hypothesis ok0 : inode_ok sfs0 (din sin0).
Hypothesis base_ok : 0 <= base /\ base + (endpos - off0) <= Z.of_nat (length buf).
Hypothesis bytes_ok : Forall is_byte buf.
Hypothesis off_ok : 0 <= off0 /\ off0 / SFS_BLKSIZE <= d_blocks (din sin0) /\ endpos <= MAX_BLOCKS * SFS_BLKSIZE.

(** After [a] bytes, with [n] blocks: the file holds the old contents with the new
    bytes over them. *)
Definition write_state (n a : Z) (fs : sfs_fs D) (sin : sfs_inode) (buf' : list Z) : Prop :=
  buf' = buf /\ same_sin sin0 sin /\ same_attrs (din sin0) (din sin) /\ file_frame sfs0 (din sin0) fs (din sin) /\
  d_blocks (din sin) = n /\
  file_data fs (din sin) = list_inserts (Z.to_nat off0) (bytes_at buf (Z.to_nat base) (Z.to_nat a)) (padded (file_data sfs0 (din sin0)) n).

Definition blocks_after (a : Z) : Z := if a =? 0 then d_blocks (din sin0) else (d_blocks (din sin0)) `max` blocks_for (off0 + a).

Definition write_inv (a : Z) := write_state (blocks_after a) a.

Lemma write_buf_length a : 0 <= a -> off0 + a <= endpos -> length (bytes_at buf (Z.to_nat base) (Z.to_nat a)) = Z.to_nat a.
Proof. intros H1 H2. apply bytes_at_length. lia. Qed.

Lemma write_load a fs sin i o size dt off al :
  write_inv a fs sin buf -> piece_in off0 endpos a i o size ->
  exists fs' sin' r, x_load (mk_io fs sin buf dt off al i) = Ok (mk_io fs' sin' buf dt off al i, r) /\
    match r with
    | inl e => write_inv a fs' sin' buf /\ e = E_NO_MEM
    | inr b => write_state (blocks_after a `max` (i + 1)) a fs' sin' buf /\ 0 <= i /\ b = bmap (disk_of fs') (din sin') i
    end.
Proof.
  intros (_ & Hsin & Hat & Hfr & Hb0 & Hdata) Hin. pose proof Hin as (Hp & Ha & Ho & Hs & Hos & He).
  pose proof Hfr as (Hinv & Hok & _). pose proof Hok as (_ & Hbl & _). destruct off_ok as (Hoff1 & Hoff2 & Hoff3). rewrite max_blocks in *.
  pose proof (Z.div_mod off0 SFS_BLKSIZE ltac:(done)) as Hdm. pose proof (Z.mod_pos_bound off0 SFS_BLKSIZE ltac:(done)) as Hm.
  assert (Hba : d_blocks (din sin0) <= blocks_after a /\ (0 < a -> off0 + a <= blocks_after a * SFS_BLKSIZE)).
  { unfold blocks_after. destruct (Z.eqb_spec a 0); [lia|]. pose proof (blocks_for_holds (off0 + a)). unfold SFS_BLKSIZE in *. lia. }
  destruct Hba as [Hba1 Hba2].
  assert (Hi : 0 <= i <= d_blocks (din sin)).
  { rewrite Hb0. destruct (decide (a = 0)) as [->|]; [|specialize (Hba2 ltac:(lia))]; unfold SFS_BLKSIZE in *; lia. }
  assert (Himax : i < MAX_BLOCKS) by (rewrite max_blocks; unfold SFS_BLKSIZE in *; lia).
  destruct (load_block fs sin i Hinv Hok Hi Himax) as (fs1 & sin1 & r & Hrun & Hsin1 & Hat1 & Hfr1 & Hr).
  exists fs1, sin1, r. split; [exact (x_load_ok _ _ _ _ _ _ _ _ _ Hrun)|].
  assert (Hsin2 : same_sin sin0 sin1) by (destruct Hsin as (? & ? & ?), Hsin1 as (? & ? & ?); split_and!; congruence).
  assert (Hat2 : same_attrs (din sin0) (din sin1)) by (destruct Hat as (? & ? & ?), Hat1 as (? & ? & ?); split_and!; congruence).
  assert (Hfr2 : file_frame sfs0 (din sin0) fs1 (din sin1)) by (by eapply file_frame_trans; [exact ok0|..]).
  destruct r as [e|b].
  - destruct Hr as (-> & Hd & Hdata1). split; [|done]. unfold write_inv, write_state. rewrite Hdata1, Hd. rewrite Hd in Hfr2, Hat2. by split_and!.
  - destruct Hr as (Hn & Hb & Hdata1). rewrite Hb0 in Hn, Hdata1. split; [|split; [lia|done]].
    unfold write_state. split; [done|]. split; [done|]. split; [done|]. split; [done|]. split; [done|].
    rewrite Hdata1, Hdata. pose proof (file_data_length _ _ inv0 ok0) as Hl0. destruct ok0 as (_ & Hbl0 & _).
    destruct (decide (a = 0)) as [Ea|Hane].
    + rewrite Ea at 1 4. unfold bytes_at. cbn [Z.to_nat take list_inserts].
      pose proof (padded_inserts (file_data sfs0 (din sin0)) (Z.to_nat (d_blocks (din sin0))) (blocks_after a) (blocks_after a `max` (i + 1)) 0 []) as Hpi.
      cbn [list_inserts] in Hpi. apply Hpi; [done|lia|lia|cbn [length]; lia].
    + apply (padded_inserts _ (Z.to_nat (d_blocks (din sin0)))); [done|lia|lia|]. rewrite write_buf_length by lia.
      specialize (Hba2 ltac:(lia)). pose proof blk_eq. unfold SFS_BLKSIZE in *. nia.
Qed.

(** Writing the bytes of a piece into the block found for it. *)
Lemma write_inv_add a fs sin i o size f fs' :
  write_state (blocks_after a `max` (i + 1)) a fs sin buf -> piece_in off0 endpos a i o size -> 0 <= i ->
  f = upd (disk_of fs) (bmap (disk_of fs) (din sin) i) (list_inserts (Z.to_nat o) (bytes_at buf (Z.to_nat (base + a)) (Z.to_nat size)) (file_block fs (din sin) i)) ->
  fs_step fs f (is_free fs) fs' -> write_inv (a + size) fs' sin buf.
Proof.
  intros (_ & Hsin & Hat & Hfr & Hb0 & Hdata) (Hp & Ha & Ho & Hs & Hos & He) Hi Hf Hst.
  pose proof Hfr as (Hinv & Hok & _). pose proof blk_eq as HB.
  destruct base_ok as [Hb1 Hb2]. destruct off_ok as (Hoff1 & _ & _).
  assert (Hlen : length (bytes_at buf (Z.to_nat (base + a)) (Z.to_nat size)) = Z.to_nat size) by (apply bytes_at_length; lia).
  destruct (write_frame fs (din sin) i (Z.to_nat o) (bytes_at buf (Z.to_nat (base + a)) (Z.to_nat size)) f fs' Hinv Hok) as [Hfr1 Hdata1].
  { rewrite Hb0. lia. }
  { rewrite Hlen. unfold SFS_BLKSIZE in *. lia. }
  { exact Hf. }
  { exact Hst. }
  destruct (blocks_for_after off0 a i o size Hoff1 Ha Hp Ho Hs Hos) as [Hbf1 Hbf2].
  assert (Hn : blocks_after (a + size) = blocks_after a `max` (i + 1)).
  { unfold blocks_after. rewrite (proj2 (Z.eqb_neq (a + size) 0)) by lia. rewrite Hbf1. destruct (Z.eqb_spec a 0); lia. }
  unfold write_inv, write_state. rewrite Hn. split; [done|]. split; [done|]. split; [done|]. split; [by eapply file_frame_trans; [exact ok0|..]|]. split; [done|].
  rewrite Hdata1, Hdata, bytes_at_add by lia. rewrite list_inserts_app_l. f_equal. rewrite write_buf_length by lia.
  unfold SFS_BLKSIZE in *. lia.
Qed.

Lemma write_buf_piece a fs sin buf' i o size :
  write_inv a fs sin buf' -> piece_in off0 endpos a i o size ->
  exists x' r, (ino ← x_load; x_buf_op true size ino o) (mk_io fs sin buf' (base + a) (off0 + a) a i) = Ok (x', r) /\
    piece_done base off0 write_inv (fun e => e = E_NO_MEM) a size i x' r.
Proof.
  intros HP Hin. assert (buf' = buf) as -> by apply HP.
  destruct (write_load a fs sin i o size (base + a) (off0 + a) a HP Hin) as (fs1 & sin1 & r & Hload & Hr).
  pose proof Hin as (Hp & Ha & Ho & Hs & Hos & He). destruct r as [e|b].
  - eexists _, (inl e). split; [by apply bind_err|]. unfold piece_done; cbn. by split_and!; destruct Hr.
  - destruct Hr as (HP1 & Hi & ->). rewrite (bind_ok _ _ _ _ _ Hload). unfold x_buf_op. cbn [x_buf x_data x_fs].
    destruct base_ok as [Hb1 Hb2]. rewrite get_bytes_ok by lia. cbn [mbind res_bind].
    pose proof HP1 as (_ & _ & _ & (Hinv1 & Hok1 & _) & Hn1 & _).
    assert (Hi2 : 0 <= i < d_blocks (din sin1)) by lia. pose proof (inode_inuse _ _ _ Hok1 Hi2) as Hu.
    destruct (sfs_wbuf_spec fs1 (bytes_at buf (Z.to_nat (base + a)) (Z.to_nat size)) (bmap (disk_of fs1) (din sin1) i) o) as (fs2 & Hw & Hio);
      [apply Hinv1|apply Hu|lia|rewrite bytes_at_length; lia|by apply bytes_at_Forall|].
    rewrite Hw. cbn [mbind res_bind]. eexists _, (inr tt). split; [reflexivity|]. unfold piece_done; cbn. split_and!; try done.
    eapply write_inv_add; [exact HP1|done|done|done|]. by apply io_fs_step.
Qed.

Lemma write_block_piece a fs sin buf' i :
  write_inv a fs sin buf' -> piece_in off0 endpos a i 0 SFS_BLKSIZE ->
  exists x' r, (ino ← x_load; x_block_op true ino) (mk_io fs sin buf' (base + a) (off0 + a) a i) = Ok (x', r) /\
    piece_done base off0 write_inv (fun e => e = E_NO_MEM) a SFS_BLKSIZE i x' r.
Proof.
  intros HP Hin. assert (buf' = buf) as -> by apply HP.
  destruct (write_load a fs sin i 0 SFS_BLKSIZE (base + a) (off0 + a) a HP Hin) as (fs1 & sin1 & r & Hload & Hr).
  pose proof Hin as (Hp & Ha & Ho & Hs & Hos & He). destruct r as [e|b].
  - eexists _, (inl e). split; [by apply bind_err|]. unfold piece_done; cbn. by split_and!; destruct Hr.
  - destruct Hr as (HP1 & Hi & ->). rewrite (bind_ok _ _ _ _ _ Hload). unfold x_block_op. cbn [x_buf x_data x_fs].
    destruct base_ok as [Hb1 Hb2].
    pose proof HP1 as (_ & _ & _ & (Hinv1 & Hok1 & _) & Hn1 & _).
    assert (Hi2 : 0 <= i < d_blocks (din sin1)) by lia. pose proof (inode_inuse _ _ _ Hok1 Hi2) as Hu.
    destruct (sfs_wblock_spec fs1 buf (base + a) (bmap (disk_of fs1) (din sin1) i)) as (fs2 & Hw & Hio);
      [apply Hinv1|apply Hu|lia|lia|done|].
    rewrite Hw. cbn [mbind res_bind Z.eqb]. eexists _, (inr tt). split; [reflexivity|]. unfold piece_done; cbn. split_and!; try done.
    eapply write_inv_add; [exact HP1|done|done| |by apply io_fs_step].
    change (Z.to_nat 0) with 0%nat. rewrite inserts_whole; [done|]. rewrite file_block_length by done. apply bytes_at_length.
    pose proof blk_eq. unfold SFS_BLKSIZE in *. lia.
Qed.

End Writing.

(** C12. Writing a file: at any position that does not leave a gap of whole blocks behind
    the file's last block and ends within the 1036 blocks the block map can hold - beyond
    either the code stops the kernel -, the write returns.  It transfers the whole
    request, or it runs out of disk blocks and says so ([-E_NO_MEM]) with the number of
    bytes it did write.  Either way the file's blocks hold what they held with exactly
    those bytes over it (new blocks start as zeros), its size covers them, it is still
    well formed, no block of another file has changed, and every block it gained was
    free. *)
Theorem sfs_write_bytes sfs sin buf base offset len :
  fs_inv sfs -> file_ok sfs (din sin) -> 0 <= offset -> 0 < len -> offset + len <= MAX_BLOCKS * SFS_BLKSIZE ->
  offset / SFS_BLKSIZE <= d_blocks (din sin) ->
  0 <= base -> base + len <= Z.of_nat (length buf) -> Forall is_byte buf ->
  exists sfs' sin' n ret, sfs_io_nolock buf base offset len true (sfs, sin) = Ok ((sfs', sin'), buf, n, ret) /\
    0 <= n <= len /\ (ret = 0 /\ n = len \/ ret = - E_NO_MEM) /\
    file_frame sfs (din sin) sfs' (din sin') /\ file_ok sfs' (din sin') /\ same_sin sin sin' /\
    d_size (din sin') = (if n =? 0 then d_size (din sin) else d_size (din sin) `max` (offset + n)) /\
    file_data sfs' (din sin') =
      list_inserts (Z.to_nat offset) (bytes_at buf (Z.to_nat base) (Z.to_nat n)) (padded (file_data sfs (din sin)) (d_blocks (din sin'))).
Proof.
  intros Hinv (Hok & Ht & Hsz & Hbs) Hoff Hlen Hmax Hgap Hb Hbl Hby. assert (SFS_MAX_FILE_SIZE = 134217728) as HM by done.
  rewrite max_blocks in Hmax. assert (HB : SFS_BLKSIZE = 4096) by done.
  rewrite io_nolock_enter; [|done|lia|lia|done|lia]. cbv zeta. rewrite (Z.min_l (offset + len)) by lia.
  destruct (transfer_spec true base offset (offset + len) (write_inv sfs sin buf base offset) (fun e => e = E_NO_MEM))
    with (fs := sfs) (sin := sin) (buf := buf) (fuel := S (Z.to_nat len)) as (x & r & -> & a & HP & Ha & Har & Hr).
  - intros a fs s b i o size HP Hp. apply (write_buf_piece _ _ _ _ _ (offset + len)); try done; rewrite ?max_blocks; lia.
  - intros a fs s b i HP Hp. apply (write_block_piece _ _ _ _ _ (offset + len)); try done; rewrite ?max_blocks; lia.
  - lia.
  - split; [done|]. split; [done|]. split; [done|]. split; [by apply file_frame_refl|]. split; [done|].
    unfold bytes_at. cbn [Z.to_nat take list_inserts]. symmetry. apply padded_id. by rewrite file_data_length.
  - assert ((offset + len - offset) / SFS_BLKSIZE <= len); [|lia]. apply Z.div_le_upper_bound; lia.
  - cbn [mbind res_bind andb]. destruct HP as (Hbuf & Hsin & Hat & Hfr & Hbn & Hdata). rewrite Ha, Hbuf.
    pose proof Hat as (HA1 & HA2 & HA3). pose proof Hfr as (Hinv' & Hok' & _).
    set (sin1 := if negb (a =? 0) && (d_size (din (x_sin x)) <? offset + a) then set_dirty true (set_din (din_size (u32 (offset + a)) (din (x_sin x))) (x_sin x)) else x_sin x).
    assert (Hs1 : same_sin sin sin1) by (unfold sin1; destruct (negb (a =? 0) && _); exact Hsin).
    assert (Hsize : d_size (din sin1) = if a =? 0 then d_size (din sin) else d_size (din sin) `max` (offset + a)).
    { unfold sin1. destruct (Z.eqb_spec a 0); cbn [negb andb]; [done|]. rewrite HA1.
      destruct (Z.ltb_spec (d_size (din sin)) (offset + a)); cbn; [rewrite u32_small; lia|lia]. }
    assert (Hrest : inode_ok (x_fs x) (din sin1) /\ d_type (din sin1) = d_type (din (x_sin x)) /\ d_blocks (din sin1) = d_blocks (din (x_sin x)) /\ own (disk_of (x_fs x)) (din sin1) = own (disk_of (x_fs x)) (din (x_sin x)) /\ file_data (x_fs x) (din sin1) = file_data (x_fs x) (din (x_sin x))).
    { unfold sin1. destruct (negb (a =? 0) && _); split; [exact Hok'|done|exact Hok'|done]. }
    destruct Hrest as (R1 & R2 & R3 & R4 & R5). exists (x_fs x), sin1, a, (match r with inl e => - e | inr _ => 0 end).
    split; [done|]. split; [lia|]. split; [destruct r as [e|[]]; [right; by rewrite Hr|left; split; [done|lia]]|].
    split; [|split; [|split; [done|split; [done|by rewrite R5, R3, Hbn]]]].
    + destruct Hfr as (F1 & F2 & F3 & F4). split; [done|]. split; [done|]. split; [done|]. by rewrite R4.
    + split; [done|]. split; [by rewrite R2, HA2|]. rewrite R3, Hsize, Hbn. unfold blocks_after.
      destruct (Z.eqb_spec a 0); [by split|]. split; [lia|]. by rewrite blocks_for_max, Hbs.
Qed.

End File.
