(* ===== verification/SfsTrunc.v ===== *)
(** Resizing a file: what [sfs_truncfile] and [sfs_tryseek] of sfs_inode.c do, and where it stops the
    kernel. *)
From S2P Require Import Prelude Layout StateM Iobuf Bitmap Disk0 SfsIo SfsBmap SfsFile.

Section Trunc.
Context {D : Type} `{!Device D} `{!DeviceLaws D}.
#[local] Notation ST := (St (D := D)).
Implicit Types (sfs : sfs_fs D) (sin : sfs_inode).

(** * sfs_truncfile *)
(** [while (nblks != tblks)] adding blocks. *)
Definition grow_step (tblks nblks : Z) : M ST (Z + unit) :=
  if nblks =? tblks then mret (inr tt)
  else _ ← sfs_bmap_load_nolock nblks; mret (inl (u32 (nblks + 1))).

(** [while (tblks != nblks)] freeing blocks. *)
Definition shrink_step (tblks nblks : Z) : M ST (Z + unit) :=
  if tblks =? nblks then mret (inr tt)
  else _ ← sfs_bmap_truncate_nolock; mret (inl (u32 (nblks - 1))).

(** The part of [sfs_truncfile] between the two lock operations. *)
Definition resize_nolock (len tblks nblks : Z) : M ST unit :=
  _ ← (if nblks <? tblks then m_loop (grow_step tblks) (S (Z.to_nat tblks)) nblks
       else if tblks <? nblks then m_loop (shrink_step tblks) (S (Z.to_nat nblks)) nblks
       else mret tt);
  _ ← assert (fun s : ST => d_blocks (din (snd s)) =? tblks);
  upd_sin (fun sin => set_dirty true (set_din (din_size (u32 len) (din sin)) sin)).

Definition sfs_truncfile (len : Z) : M ST unit :=
  if (len <? 0) || (SFS_MAX_FILE_SIZE <? len) then fail E_INVAL
  else
    d ← the_din (D := D);
    let tblks := u32 (u64 (len + SFS_BLKSIZE - 1) / SFS_BLKSIZE) in
    if d_size d =? len then assert (fun _ : ST => tblks =? d_blocks d)
    else
      _ ← lock_sin (D := D);
      r ← attempt (resize_nolock len tblks (d_blocks d));
      _ ← unlock_sin (D := D);
      match r with inl e => fail e | inr _ => mret tt end.

(** [vop_truncate] of an SFS file is [sfs_truncfile]; a directory has none and the
    call stops the kernel. *)
Definition vop_truncate (len : Z) : M ST unit :=
  d ← the_din (D := D);
  if d_type d =? SFS_TYPE_FILE then sfs_truncfile len else fun _ => Panic.

Definition sfs_tryseek (pos : Z) : M ST unit :=
  if (pos <? 0) || (SFS_MAX_FILE_SIZE <=? pos) then fail E_INVAL
  else
    d ← the_din (D := D);
    if d_size d <? pos then vop_truncate pos else mret tt.

(** Giving the last block up. *)
Lemma shrunk_frame sfs d sfs' d' :
  inode_ok sfs d -> 0 < d_blocks d -> shrunk sfs d sfs' d' ->
  file_frame sfs d sfs' d' /\ file_data sfs' d' = take (Z.to_nat (d_blocks d - 1) * BLK) (file_data sfs d).
Proof.
  intros Hok Hpos (Hinv' & Hs & Hf & Hd & _ & _ & _ & Eind & Eb & Hok' & Hbm).
  set (last := bmap (disk_of sfs) d (d_blocks d - 1)) in *.
  assert (Hlast : last ∈ own (disk_of sfs) d) by (apply own_elem; left; exists (d_blocks d - 1); split; [lia|done]).
  assert (Hin : forall x, x ∈ own (disk_of sfs') d' -> x ∈ own (disk_of sfs) d).
  { intros x Hx. apply own_elem in Hx as [(i & Hi & <-)|[Hn ->]]; apply own_elem.
    - left. exists i. split; [lia|]. symmetry. apply Hbm. lia.
    - right. by rewrite <- Eind. }
  assert (Hout : forall x, x ∈ own (disk_of sfs) d -> x ∈ own (disk_of sfs') d' \/ x = last).
  { intros x Hx. apply own_elem in Hx as [(i & Hi & <-)|[Hn ->]].
    - destruct (decide (i = d_blocks d - 1)) as [->|Hne]; [by right|]. left. apply own_elem. left. exists i. split; [lia|]. apply Hbm. lia.
    - left. apply own_elem. right. by rewrite Eind. }
  split.
  - split; [done|]. split; [done|]. split; [done|]. split; [|split; [|split]].
    + intros x Hx Hn. pose proof (inuse_pos _ _ Hx) as Hp. split.
      * destruct Hx as [Hr Hfx]. split; [by destruct Hs as (_ & -> & _)|]. rewrite Hf by done. unfold updb.
        rewrite decide_False; [done|]. by intros ->.
      * apply Hd; [done|]. intros ->. apply Hn. apply own_elem. right. split; [|done]. intros E. destruct Hx. lia.
    + intros x Hx. left. by apply Hin.
    + intros x Hx. destruct (Hout x Hx) as [?| ->]; [by left|]. right. rewrite Hf by exact (inuse_pos _ _ (own_inuse _ _ _ Hok Hlast)).
      unfold updb. by rewrite decide_True.
    + intros x Hp Hfx. left. rewrite Hf by done. unfold updb. by case_decide.
  - unfold file_data. rewrite Eb. replace (d_blocks d) with ((d_blocks d - 1) + 1) at 3 by lia. rewrite join_blocks_S by lia.
    assert (Hlen : length (join_blocks (file_block sfs d) (d_blocks d - 1)) = (Z.to_nat (d_blocks d - 1) * BLK)%nat).
    { apply join_blocks_length; [lia|]. intros i Hi. unfold file_block. destruct Hok as (_ & Hbl & _ & Hall & _).
      rewrite <- Hbm by lia. pose proof (inode_inuse sfs' d' i Hok' ltac:(lia)) as Hu. 
      rewrite <- (Hd (bmap (disk_of sfs') d' i)); [by apply inuse_disk_length|by eapply inuse_pos|].
      destruct (decide (indirect d' = 0)) as [E|E]; [rewrite <- Eind, E; destruct Hu; lia|]. rewrite <- Eind. by apply inode_not_indirect; [|lia|]. }
    rewrite <- Hlen, take_app_length. unfold join_blocks. f_equal. apply list_fmap_ext. intros k x Hx. apply lookup_seqZ in Hx as [-> Hk].
    unfold file_block. rewrite Hbm by lia. apply Hd.
    + eapply inuse_pos. apply inode_inuse; [done|lia].
    + destruct (decide (indirect d = 0)) as [E|E]; [|by apply inode_not_indirect; [|lia|]]. rewrite E.
      destruct (inode_inuse sfs d (0 + Z.of_nat k) Hok ltac:(lia)). lia.
Qed.

(** What a run of the two loops makes of the file: only its blocks change. *)
Definition resized sfs sin sfs' sin' : Prop :=
  same_sin sin sin' /\ same_attrs (din sin) (din sin') /\ file_frame sfs (din sin) sfs' (din sin').

Lemma resized_refl sfs sin : fs_inv sfs -> inode_ok sfs (din sin) -> resized sfs sin sfs sin.
Proof. intros Hinv Hok. split; [done|]. split; [done|by apply file_frame_refl]. Qed.

Lemma resized_trans s1 x1 s2 x2 s3 x3 :
  inode_ok s1 (din x1) -> resized s1 x1 s2 x2 -> resized s2 x2 s3 x3 -> resized s1 x1 s3 x3.
Proof.
  intros Hok (A1 & A2 & A3) (B1 & B2 & B3).
  split; [destruct A1 as (? & ? & ?), B1 as (? & ? & ?); split_and!; congruence|].
  split; [destruct A2 as (? & ? & ?), B2 as (? & ? & ?); split_and!; congruence|].
  by eapply file_frame_trans.
Qed.

Lemma padded_padded l k m n :
  length l = (k * BLK)%nat -> (k <= Z.to_nat m)%nat -> m <= n -> padded (padded l m) n = padded l n.
Proof.
  intros Hl Hk Hmn. pose proof (padded_inserts l k m n 0 [] Hl Hk ltac:(lia)) as H. cbn [list_inserts] in H.
  apply H. cbn [length]. lia.
Qed.

(** The loop that adds blocks stops when the blocks are there, when no block is left
    on the disk, or - beyond what the block map can hold - by stopping the kernel. *)
Lemma grow_spec tblks fuel sfs sin :
  fs_inv sfs -> inode_ok sfs (din sin) -> d_blocks (din sin) <= tblks < 2 ^ 32 - 1 -> (Z.to_nat (tblks - d_blocks (din sin)) < fuel)%nat ->
  (m_loop (grow_step tblks) fuel (d_blocks (din sin)) (sfs, sin) = Panic /\ MAX_BLOCKS < tblks) \/
  exists sfs' sin' r, m_loop (grow_step tblks) fuel (d_blocks (din sin)) (sfs, sin) = Ok ((sfs', sin'), r) /\
    resized sfs sin sfs' sin' /\ d_blocks (din sin) <= d_blocks (din sin') /\
    file_data sfs' (din sin') = padded (file_data sfs (din sin)) (d_blocks (din sin')) /\
    match r with inl e => e = E_NO_MEM /\ d_blocks (din sin') < tblks | inr _ => d_blocks (din sin') = tblks end.
Proof.
  revert sfs sin. induction fuel as [|fuel IH]; intros sfs sin Hinv Hok Hb Hf; [lia|].
  pose proof (file_data_length _ _ Hinv Hok) as Hlen. pose proof Hok as (_ & Hbl & _).
  destruct (decide (d_blocks (din sin) = tblks)) as [E|E].
  { right. exists sfs, sin, (inr tt). split; [apply m_loop_exit; unfold grow_step; by rewrite (proj2 (Z.eqb_eq _ _) E)|].
    split; [by apply resized_refl|]. split; [lia|]. split; [|done]. symmetry. apply padded_id. lia. }
  assert (Hstep : grow_step tblks (d_blocks (din sin)) = (_ ← sfs_bmap_load_nolock (d_blocks (din sin)); mret (inl (u32 (d_blocks (din sin) + 1))) : M ST (Z + unit))).
  { unfold grow_step. by rewrite (proj2 (Z.eqb_neq _ _) E). }
  destruct (decide (d_blocks (din sin) < MAX_BLOCKS)) as [Hlt|Hge].
  - destruct (load_block sfs sin (d_blocks (din sin)) Hinv Hok ltac:(lia) Hlt) as (s1 & x1 & r & Hrun & Hsin & Hat & Hfr & Hr).
    assert (Hres : resized sfs sin s1 x1) by done.
    destruct r as [e|b].
    + destruct Hr as (-> & Ed & Hdata). right. exists s1, x1, (inl E_NO_MEM).
      split; [apply m_loop_err; rewrite Hstep; by apply bind_err|]. split; [done|]. rewrite Hdata, Ed. split; [lia|].
      split; [symmetry; apply padded_id; lia|]. split; [done|lia].
    + destruct Hr as (En & _ & Hdata). rewrite Z.max_r in En, Hdata by lia. rewrite (m_loop_next _ _ _ _ (s1, x1) (d_blocks (din x1))).
      2: { rewrite Hstep, (bind_ok _ _ _ _ _ Hrun). rewrite u32_small by lia. by rewrite En. }
      destruct Hfr as (Hinv1 & Hok1 & Hfr).
      destruct (IH s1 x1 Hinv1 Hok1) as [[Hp Hm]|(s2 & x2 & r & Hrun2 & Hres2 & Hge2 & Hd2 & Hr2)]; [lia|lia|by left|].
      right. exists s2, x2, r. split; [done|]. split; [by eapply resized_trans|]. split; [lia|]. split; [|done].
      rewrite Hd2, Hdata. apply (padded_padded _ (Z.to_nat (d_blocks (din sin)))); [done|lia|lia].
  - left. rewrite max_blocks in *. split; [|lia]. rewrite m_loop_S, Hstep. assert (d_blocks (din sin) = 1036) as Eb by lia.
    unfold sfs_bmap_load_nolock, sfs_bmap_get_nolock, assert, the_din, gets, mbind, M_bind, mret, M_ret. cbn. rewrite Eb. done.
Qed.

(** The loop that gives blocks up always gets there. *)
Lemma shrink_spec tblks fuel sfs sin :
  fs_inv sfs -> inode_ok sfs (din sin) -> 0 <= tblks <= d_blocks (din sin) -> (Z.to_nat (d_blocks (din sin) - tblks) < fuel)%nat ->
  exists sfs' sin', m_loop (shrink_step tblks) fuel (d_blocks (din sin)) (sfs, sin) = Ok ((sfs', sin'), inr tt) /\
    resized sfs sin sfs' sin' /\ d_blocks (din sin') = tblks /\
    file_data sfs' (din sin') = take (Z.to_nat tblks * BLK) (file_data sfs (din sin)).
Proof.
  revert sfs sin. induction fuel as [|fuel IH]; intros sfs sin Hinv Hok Hb Hf; [lia|].
  pose proof (file_data_length _ _ Hinv Hok) as Hlen. pose proof Hok as (_ & Hbl & _). rewrite max_blocks in Hbl.
  destruct (decide (d_blocks (din sin) = tblks)) as [E|E].
  { exists sfs, sin. split; [apply m_loop_exit; unfold shrink_step; by rewrite (proj2 (Z.eqb_eq _ _) (eq_sym E))|].
    split; [by apply resized_refl|]. split; [done|]. symmetry. apply take_ge. rewrite Hlen, E. done. }
  destruct (bmap_truncate_spec sfs sin Hinv Hok ltac:(lia)) as (s1 & d1 & Hrun & Hsh). set (x1 := mk_sin d1 _ _ _ _) in Hrun.
  destruct (shrunk_frame sfs (din sin) s1 d1 Hok ltac:(lia) Hsh) as [Hfr Hdata].
  destruct Hsh as (_ & _ & _ & _ & E1 & E2 & E3 & _ & Eb & _). pose proof Hfr as (Hinv1 & Hok1 & _).
  assert (Hres : resized sfs sin s1 x1) by (split; [done|]; split; [by split_and!|done]).
  rewrite (m_loop_next _ _ _ _ (s1, x1) (d_blocks (din x1))).
  2: { unfold shrink_step. rewrite (proj2 (Z.eqb_neq tblks (d_blocks (din sin)))) by lia. rewrite (bind_ok _ _ _ _ _ Hrun).
       rewrite u32_small by lia. cbn [x1 din]. by rewrite Eb. }
  destruct (IH s1 x1 Hinv1 Hok1) as (s2 & x2 & Hrun2 & Hres2 & Eb2 & Hd2); [cbn; lia|cbn; lia|].
  exists s2, x2. split; [done|]. split; [by eapply resized_trans|]. split; [done|]. rewrite Hd2. change (din x1) with d1. rewrite Hdata, take_take. f_equal.
  assert (Z.to_nat tblks * BLK <= Z.to_nat (d_blocks (din sin) - 1) * BLK)%nat by (apply Nat.mul_le_mono_r; lia). lia.
Qed.

(** The request is good and changes the size. *)
Lemma truncfile_enter len sfs sin :
  0 <= len <= SFS_MAX_FILE_SIZE -> d_size (din sin) <> len -> sem sin = 1 ->
  sfs_truncfile len (sfs, sin) =
    ('(s, r) ← resize_nolock len (blocks_for len) (d_blocks (din sin)) (sfs, set_sin_sem 0 sin);
     Ok ((fst s, set_sin_sem (unlock (sem (snd s))) (snd s)), r)).
Proof.
  intros Hlen Hne Hsem. assert (SFS_MAX_FILE_SIZE = 134217728) as HM by done. unfold sfs_truncfile.
  rewrite (proj2 (Z.ltb_ge len 0)), (proj2 (Z.ltb_ge SFS_MAX_FILE_SIZE len)) by lia. cbn [orb].
  rewrite (bind_ok _ _ _ (sfs, sin) (din sin)) by done. rewrite (proj2 (Z.eqb_neq _ _)) by done.
  assert (u32 (u64 (len + SFS_BLKSIZE - 1) / SFS_BLKSIZE) = blocks_for len) as ->.
  { rewrite HM in Hlen. unfold blocks_for, SFS_BLKSIZE. rewrite u64_small by lia. apply u32_small.
    split; [apply Z.div_pos; lia|apply Z.div_lt_upper_bound; lia]. }
  rewrite (bind_ok _ _ _ (sfs, set_sin_sem 0 sin) tt).
  2: { unfold lock_sin. cbn. by rewrite Hsem. }
  destruct (resize_nolock _ _ _ _) as [[s r]| | |] eqn:E.
  - rewrite (bind_ok _ _ _ _ _ (attempt_eq _ _ _ _ E)). by destruct r as [|[]].
  - unfold attempt, mbind at 1, M_bind. by rewrite E.
  - unfold attempt, mbind at 1, M_bind. by rewrite E.
  - unfold attempt, mbind at 1, M_bind. by rewrite E.
Qed.

Lemma resize_exact len sfs sin n s1 x1 :
  (if d_blocks (din sin) <? n then m_loop (grow_step n) (S (Z.to_nat n)) (d_blocks (din sin))
   else if n <? d_blocks (din sin) then m_loop (shrink_step n) (S (Z.to_nat (d_blocks (din sin)))) (d_blocks (din sin))
   else mret tt) (sfs, sin) = Ok ((s1, x1), inr tt) ->
  d_blocks (din x1) = n ->
  resize_nolock len n (d_blocks (din sin)) (sfs, sin) = Ok ((s1, set_dirty true (set_din (din_size (u32 len) (din x1)) x1)), inr tt).
Proof.
  intros Hrun Hn. unfold resize_nolock. rewrite (bind_ok _ _ _ _ _ Hrun).
  rewrite (bind_ok _ _ _ (s1, x1) tt); [done|]. apply assert_ok. cbn. by apply Z.eqb_eq.
Qed.

(** Everything [resize_nolock] can do. *)
Lemma resize_spec len n sfs sin :
  fs_inv sfs -> inode_ok sfs (din sin) -> 0 <= n < 2 ^ 32 - 1 ->
  let result := resize_nolock len n (d_blocks (din sin)) (sfs, sin) in
  (result = Panic /\ MAX_BLOCKS < n) \/
  exists sfs' sin', resized sfs sin sfs' sin' /\
    ((result = Ok ((sfs', sin'), inl E_NO_MEM) /\ d_blocks (din sin) <= d_blocks (din sin') < n /\
      file_data sfs' (din sin') = padded (file_data sfs (din sin)) (d_blocks (din sin'))) \/
     (result = Ok ((sfs', set_dirty true (set_din (din_size (u32 len) (din sin')) sin')), inr tt) /\ d_blocks (din sin') = n /\
      file_data sfs' (din sin') = padded (take (Z.to_nat n * BLK) (file_data sfs (din sin))) n)).
Proof.
  intros Hinv Hok Hn. cbn zeta. pose proof (file_data_length _ _ Hinv Hok) as Hfl. pose proof Hok as (_ & Hbl & _).
  assert (Hmono : forall a b, a <= b -> (Z.to_nat a * BLK <= Z.to_nat b * BLK)%nat) by (intros a b Hab; apply Nat.mul_le_mono_r; lia).
  destruct (Z.lt_trichotomy (d_blocks (din sin)) n) as [Hlt|[E|Hgt]].
  - assert (Hif : forall A (x y : A), (if d_blocks (din sin) <? n then x else y) = x) by (intros; by rewrite (proj2 (Z.ltb_lt _ _) Hlt)).
    destruct (grow_spec n (S (Z.to_nat n)) sfs sin Hinv Hok) as [[Hp Hm]|(s1 & x1 & r & Hrun & Hres & Hge & Hdata & Hr)]; [lia|lia| |].
    + left. split; [|done]. unfold resize_nolock. rewrite Hif. unfold mbind at 1, M_bind. by rewrite Hp.
    + right. exists s1, x1. split; [done|]. destruct r as [e|[]]; [left|right].
      * destruct Hr as [-> Hb]. split; [|by split]. unfold resize_nolock. rewrite Hif. by apply bind_err.
      * split; [apply resize_exact; [by rewrite Hif|done]|]. split; [done|]. rewrite Hdata, Hr, take_ge; [done|]. rewrite Hfl. apply Hmono. lia.
  - right. exists sfs, sin. split; [by apply resized_refl|]. right. split; [|split; [done|]].
    + apply resize_exact; [|done]. rewrite E. by rewrite (proj2 (Z.ltb_ge n n)) by lia.
    + rewrite <- E, take_ge by lia. symmetry. apply padded_id. lia.
  - destruct (shrink_spec n (S (Z.to_nat (d_blocks (din sin)))) sfs sin Hinv Hok) as (s1 & x1 & Hrun & Hres & Hr & Hdata); [lia|lia|].
    right. exists s1, x1. split; [done|]. right. split; [apply resize_exact; [|done]|].
    + by rewrite (proj2 (Z.ltb_ge (d_blocks (din sin)) n)), (proj2 (Z.ltb_lt n _)) by lia.
    + split; [done|]. rewrite Hdata. symmetry. apply padded_id. rewrite length_take, Hfl. specialize (Hmono n (d_blocks (din sin)) ltac:(lia)). lia.
Qed.

(** A size [sfs_truncfile] has nothing to do for. *)
Lemma truncfile_same sfs sin :
  0 <= d_size (din sin) <= SFS_MAX_FILE_SIZE ->
  sfs_truncfile (d_size (din sin)) (sfs, sin) =
    if blocks_for (d_size (din sin)) =? d_blocks (din sin) then Ok ((sfs, sin), inr tt) else Panic.
Proof.
  intros Hlen. assert (SFS_MAX_FILE_SIZE = 134217728) as HM by done. unfold sfs_truncfile.
  rewrite (proj2 (Z.ltb_ge _ 0)), (proj2 (Z.ltb_ge SFS_MAX_FILE_SIZE _)) by lia. cbn [orb].
  rewrite (bind_ok _ _ _ (sfs, sin) (din sin)) by done. rewrite Z.eqb_refl. unfold assert.
  rewrite HM in Hlen. unfold blocks_for, SFS_BLKSIZE. rewrite u64_small by lia. rewrite u32_small.
  - by destruct (_ =? _).
  - split; [apply Z.div_pos; lia|apply Z.div_lt_upper_bound; lia].
Qed.

Lemma blocks_for_range len k : 0 <= len <= k * SFS_BLKSIZE -> 0 <= blocks_for len <= k.
Proof.
  unfold blocks_for, SFS_BLKSIZE. intros H. split; [apply Z.div_pos; lia|]. apply Z.lt_succ_r, Z.div_lt_upper_bound; lia.
Qed.

(** What a reader sees of a file, and what the last block holds behind it. *)
Definition contents sfs (d : sfs_disk_inode) : list Z := take (Z.to_nat (d_size d)) (file_data sfs d).
Definition slack sfs (d : sfs_disk_inode) : list Z := drop (Z.to_nat (d_size d)) (file_data sfs d).

Lemma contents_resized sfs d sfs' d' len :
  0 <= len -> d_size d' = len ->
  file_data sfs' d' = padded (take (Z.to_nat (blocks_for len) * BLK) (file_data sfs d)) (blocks_for len) ->
  contents sfs' d' = take (Z.to_nat len) (contents sfs d ++ slack sfs d ++ replicate (Z.to_nat len) 0).
Proof.
  intros Hlen Hs Hd. unfold contents at 1, slack, contents. rewrite app_assoc, take_drop, Hs, Hd. unfold padded.
  assert (Hb : (Z.to_nat len <= Z.to_nat (blocks_for len) * BLK)%nat).
  { unfold blocks_for. change BLK with 4096%nat. change SFS_BLKSIZE with 4096. pose proof (Z.div_mod (len + 4096 - 1) 4096 ltac:(lia)). pose proof (Z.mod_pos_bound (len + 4096 - 1) 4096 ltac:(lia)). lia. }
  set (l := file_data sfs d). set (n := (Z.to_nat (blocks_for len) * BLK)%nat) in *. set (k := Z.to_nat len) in *. clearbody l n k. clear -Hb.
  apply list_eq. intros i. destruct (decide (i < k)%nat) as [Hi|Hi]; [|by rewrite !lookup_take_ge by lia].
  rewrite !lookup_take_lt by done. destruct (decide (i < length l)%nat) as [Hl|Hl].
  - rewrite !lookup_app_l by (rewrite ?length_take; lia). by rewrite lookup_take_lt by lia.
  - rewrite !lookup_app_r by (rewrite ?length_take; lia). rewrite length_take, !lookup_replicate_2 by lia. done.
Qed.

(** C36. Resizing a file that the block map can hold: it never stops the kernel.  It
    either succeeds - the file then has the new size and exactly the blocks that size
    needs: its old blocks as they were, as many as it keeps, then blocks of zeros - or
    the disk is full: then the size is as before, the call returns [-E_NO_MEM], and the
    blocks added so far stay with the file, filled with zeros.  No other file is touched,
    blocks given up become free, and the lock is released.  A reader of the resized file
    sees the old contents cut to the new size, or the old contents followed by what the
    last old block happens to hold behind them - the code never clears it, so that a file
    cut and enlarged again may show its old bytes ([stale_bytes] in SfsExample.v) - and
    then zeros. *)
Theorem sfs_truncfile_resizes sfs sin len :
  fs_inv sfs -> file_ok sfs (din sin) -> sem sin = 1 -> 0 <= len <= MAX_BLOCKS * SFS_BLKSIZE ->
  exists sfs' sin' r, sfs_truncfile len (sfs, sin) = Ok ((sfs', sin'), r) /\
    same_sin sin sin' /\ file_frame sfs (din sin) sfs' (din sin') /\
    match r with
    | inr _ => file_ok sfs' (din sin') /\ d_size (din sin') = len /\
               file_data sfs' (din sin') = padded (take (Z.to_nat (blocks_for len) * BLK) (file_data sfs (din sin))) (blocks_for len) /\
               contents sfs' (din sin') = take (Z.to_nat len) (contents sfs (din sin) ++ slack sfs (din sin) ++ replicate (Z.to_nat len) 0)
    | inl e => e = E_NO_MEM /\ d_size (din sin') = d_size (din sin) /\
               d_blocks (din sin) <= d_blocks (din sin') < blocks_for len /\
               file_data sfs' (din sin') = padded (file_data sfs (din sin)) (d_blocks (din sin'))
    end.
Proof.
  intros Hinv (Hok & Ht & Hsz & Hbs) Hsem Hlen. pose proof (blocks_for_range _ _ Hlen) as Hbf. rewrite max_blocks in Hlen, Hbf.
  assert (SFS_MAX_FILE_SIZE = 134217728 /\ SFS_BLKSIZE = 4096) as [HM HB] by done.
  destruct (decide (d_size (din sin) = len)) as [<-|E].
  { exists sfs, sin, (inr tt). split; [rewrite truncfile_same by lia; by rewrite (proj2 (Z.eqb_eq _ _) (eq_sym Hbs))|].
    split; [done|]. split; [by apply file_frame_refl|]. split; [by split_and!|]. split; [done|].
    assert (file_data sfs (din sin) = padded (take (Z.to_nat (blocks_for (d_size (din sin))) * BLK) (file_data sfs (din sin))) (blocks_for (d_size (din sin)))) as Hd
      by (rewrite <- Hbs, take_ge by (by rewrite file_data_length); symmetry; apply padded_id; by rewrite file_data_length).
    split; [done|]. apply contents_resized; [lia|done|done]. }
  rewrite truncfile_enter by (done || lia).
  destruct (resize_spec len (blocks_for len) sfs (set_sin_sem 0 sin) Hinv Hok ltac:(lia)) as [[_ Hm]|(s1 & x1 & Hres & Hr)]; [rewrite max_blocks in Hm; lia|].
  change (d_blocks (din (set_sin_sem 0 sin))) with (d_blocks (din sin)) in Hr. destruct Hres as ((S1 & S2 & S3) & (A1 & A2 & A3) & Hfr).
  destruct Hr as [(-> & Hb & Hdata)|(-> & Hb & Hdata)]; cbn [mbind res_bind fst snd].
  - eexists _, _, (inl _). split; [reflexivity|]. split; [unfold same_sin, unlock; cbn; rewrite S1, S2, S3, Hsem; done|].
    split; [exact Hfr|]. split; [done|]. split; [exact A1|]. by split.
  - eexists _, _, (inr _). split; [reflexivity|]. split; [unfold same_sin, unlock; cbn; rewrite S1, S2, S3, Hsem; done|]. pose proof Hfr as (_ & Hok1 & _).
    split; [exact Hfr|]. cbn [din set_sin_sem set_dirty set_din]. rewrite u32_small by lia.
    split; [|split; [done|split; [exact Hdata|apply contents_resized; [lia|done|exact Hdata]]]].
    split; [exact Hok1|]. split; [cbn; by rewrite A2|]. split; [cbn; lia|exact Hb].
Qed.

(** The documented size limit cannot be reached: enlarging a file beyond the 1036
    blocks that twelve direct entries and one indirect block can name either fails
    for want of disk blocks or stops the kernel, although the size check of
    [sfs_truncfile] lets such requests through, up to 128 MB. *)
Theorem sfs_truncfile_limit sfs sin len :
  fs_inv sfs -> file_ok sfs (din sin) -> sem sin = 1 -> MAX_BLOCKS * SFS_BLKSIZE < len <= SFS_MAX_FILE_SIZE ->
  sfs_truncfile len (sfs, sin) = Panic \/
  exists s, sfs_truncfile len (sfs, sin) = Ok (s, inl E_NO_MEM).
Proof.
  intros Hinv Hfile Hsem Hlen. assert (SFS_MAX_FILE_SIZE = 134217728 /\ SFS_BLKSIZE = 4096) as [HM HB] by done. rewrite max_blocks in Hlen.
  assert (Hbf : 1036 < blocks_for len <= 2 ^ 15).
  { split; [|apply (blocks_for_range _ (2 ^ 15)); lia]. apply Z.lt_le_trans with 1037; [lia|]. unfold blocks_for. rewrite HB in *. apply Z.div_le_lower_bound; lia. }
  pose proof (file_ok_size _ _ Hfile) as [Hsz Hb]. destruct Hfile as (Hok & _). rewrite truncfile_enter by (done || lia).
  destruct (resize_spec len (blocks_for len) sfs (set_sin_sem 0 sin) Hinv Hok ltac:(lia)) as [[Hp _]|(s1 & x1 & Hres & Hr)].
  - left. change (d_blocks (din (set_sin_sem 0 sin))) with (d_blocks (din sin)) in Hp. by rewrite Hp.
  - change (d_blocks (din (set_sin_sem 0 sin))) with (d_blocks (din sin)) in Hr. right. destruct Hr as [(-> & _)|(_ & Hn & _)]; [by eexists|].
    exfalso. destruct Hres as (_ & _ & (_ & (_ & Hb1 & _) & _)). rewrite max_blocks in Hb1. lia.
Qed.

(** A failed enlargement that had added blocks leaves a file that cannot be
    resized to the size it has: [sfs_truncfile] then stops the kernel at
    [assert(tblks == din->blocks)].  For an empty file that is what opening it
    with [O_TRUNC] does. *)
Theorem sfs_truncfile_after_failure sfs sin len sfs' sin' e :
  fs_inv sfs -> file_ok sfs (din sin) -> sem sin = 1 -> 0 <= len <= MAX_BLOCKS * SFS_BLKSIZE ->
  sfs_truncfile len (sfs, sin) = Ok ((sfs', sin'), inl e) -> d_blocks (din sin') <> d_blocks (din sin) ->
  sfs_truncfile (d_size (din sin')) (sfs', sin') = Panic.
Proof.
  intros Hinv Hfile Hsem Hlen Hrun Hne. pose proof (blocks_for_range _ _ Hlen) as Hbf. rewrite max_blocks in Hlen, Hbf.
  assert (SFS_MAX_FILE_SIZE = 134217728 /\ SFS_BLKSIZE = 4096) as [HM HB] by done.
  pose proof (file_ok_size _ _ Hfile) as [Hsz Hb]. destruct Hfile as (Hok & _ & _ & Hbs).
  destruct (decide (d_size (din sin) = len)) as [<-|E].
  { rewrite truncfile_same in Hrun by lia. destruct (_ =? _); [by injection Hrun|done]. }
  rewrite truncfile_enter in Hrun by (done || lia).
  destruct (resize_spec len (blocks_for len) sfs (set_sin_sem 0 sin) Hinv Hok ltac:(lia)) as [[Hp _]|(s1 & x1 & Hres & Hr)].
  { change (d_blocks (din (set_sin_sem 0 sin))) with (d_blocks (din sin)) in Hp. by rewrite Hp in Hrun. }
  change (d_blocks (din (set_sin_sem 0 sin))) with (d_blocks (din sin)) in Hr.
  destruct Hr as [(Hr & _)|(Hr & _)]; rewrite Hr in Hrun; [|done]. injection Hrun as <- <- _.
  destruct Hres as (_ & (A1 & _) & _). cbn [din set_sin_sem fst snd] in *.
  set (x2 := set_sin_sem (unlock (sem x1)) x1). assert (Es : d_size (din x2) = d_size (din sin)) by exact A1.
  change (sfs_truncfile (d_size (din x2)) (s1, x2) = Panic). rewrite truncfile_same by (rewrite Es; lia).
  rewrite Es, <- Hbs. rewrite (proj2 (Z.eqb_neq _ _)); [done|]. by apply not_eq_sym.
Qed.

End Trunc.
