(* ===== verification/SfsDir.v ===== *)
(** Directories: the entries of an SFS directory, one per block
    (sfs_dirent_read_nolock, sfs_dirent_search_nolock, sfs_dirent_findino_nolock and
    sfs_getdirentry_sub_nolock of lab8/kern/fs/sfs/sfs_inode.c). *)
From S2P Require Import Prelude CString Layout StateM Iobuf Bitmap Disk0 SfsIo SfsBmap SfsFile.

(** The bytes of a name up to its terminator. *)
Fixpoint c_string (l : list Z) : list Z :=
  match l with [] => [] | x :: l' => if x =? 0 then [] else x :: c_string l' end.

Section Dir.
Context {D : Type} `{!Device D}.
#[local] Notation ST := (St (D := D)).
Implicit Types (sfs : sfs_fs D) (sin : sfs_inode).

(** * The code *)

(** [strcmp(name, entry->name) == 0], for the string [name] and the 256 bytes of
    an entry laid out one after the other. *)
Definition names_equal (name ename : list Z) : res bool :=
  r ← strcmp (bytes 0 (name ++ [0] ++ ename)) 0 (Z.of_nat (length name) + 1); Ok (r =? 0).

Definition ENTRY_SIZE : Z := 4 + (SFS_MAX_FNAME_LEN + 1).

Definition sfs_dirent_read_nolock (slot : Z) : M ST sfs_disk_entry :=
  d ← the_din (D := D);
  _ ← assert (fun _ : ST => (d_type d =? SFS_TYPE_DIR) && ((0 <=? slot) && (slot <? d_blocks d)));
  ino ← sfs_bmap_load_nolock slot;
  _ ← on_fs (assert_inuse ino);
  l ← on_fs (sfs_rbuf ENTRY_SIZE ino 0);
  let entry := bytes_entry l in
  mret (mk_entry (e_ino entry) (<[Z.to_nat SFS_MAX_FNAME_LEN := 0]> (e_name entry))).

(** The return value (as a positive error code, or 0) and what is stored through
    [ino_store], [slot] and [empty_slot]. *)
Record search := mk_search {
  found : Z + (Z * Z);
  empty_slot : option Z;
}.

Definition search_step (name : list Z) (nslots : Z) (st : Z * Z) : M ST (Z * Z + search) :=
  let '(i, empty) := st in
  if i <? nslots then
    r ← attempt (sfs_dirent_read_nolock i);
    match r with
    | inl e => mret (inr (mk_search (inl e) (Some empty)))
    | inr entry =>
        if e_ino entry =? 0 then mret (inl (i + 1, i))
        else
          eq ← lift (names_equal name (e_name entry));
          if (eq : bool) then mret (inr (mk_search (inr (e_ino entry, i)) (Some empty)))
          else mret (inl (i + 1, empty))
    end
  else mret (inr (mk_search (inl E_NOENT) (Some empty))).

Definition sfs_dirent_search_nolock (name : list Z) : M ST search :=
  _ ← assert (fun _ : ST => Z.of_nat (length name) <=? SFS_MAX_FNAME_LEN);
  ok ← on_fs (kmalloc (D := D));
  if (ok : bool) then
    d ← the_din (D := D);
    let nslots := d_blocks d in
    m_loop (search_step name nslots) (S (Z.to_nat nslots)) (0, nslots)
  else mret (mk_search (inl E_NO_MEM) None).

Definition findino_step (ino nslots i : Z) : M ST (Z + sfs_disk_entry) :=
  if i <? nslots then
    entry ← sfs_dirent_read_nolock i;
    if e_ino entry =? ino then mret (inr entry) else mret (inl (i + 1))
  else fail E_NOENT.

Definition sfs_dirent_findino_nolock (ino : Z) : M ST sfs_disk_entry :=
  d ← the_din (D := D);
  m_loop (findino_step ino (d_blocks d)) (S (Z.to_nat (d_blocks d))) 0.

Definition getdirentry_step (nslots : Z) (st : Z * Z) : M ST (Z * Z + sfs_disk_entry) :=
  let '(i, slot) := st in
  if i <? nslots then
    entry ← sfs_dirent_read_nolock i;
    if negb (e_ino entry =? 0) then
      if slot =? 0 then mret (inr entry) else mret (inl (i + 1, slot - 1))
    else mret (inl (i + 1, slot))
  else fail E_NOENT.

Definition sfs_getdirentry_sub_nolock (slot : Z) : M ST sfs_disk_entry :=
  d ← the_din (D := D);
  m_loop (getdirentry_step (d_blocks d)) (S (Z.to_nat (d_blocks d))) (0, slot).

(** The size of the [name] array of an entry. *)
Definition sfs_dentry_size : Z := SFS_MAX_FNAME_LEN + 1.

(** The next entry of a directory opened for reading: the position in the file is
    the index of the entry times the size of a name. *)
Definition sfs_getdirentry (iob : iobuf) (s : ST) : res (ST * iobuf * Z) :=
  '(s, ok) ← on_fs (kmalloc (D := D)) s;
  match ok with
  | inr false | inl _ => Ok (s, iob, - E_NO_MEM)
  | inr true =>
      let offset := io_offset iob in
      if (offset <? 0) || negb (offset mod sfs_dentry_size =? 0) then Ok (s, iob, - E_INVAL)
      else
        let slot := i32 (Z.quot offset sfs_dentry_size) in
        if d_blocks (din (snd s)) <? u32 slot then Ok (s, iob, - E_NOENT)
        else
          '(s, _) ← lock_sin s;
          '(s, r) ← sfs_getdirentry_sub_nolock slot s;
          '(s, _) ← unlock_sin s;
          match r with
          | inl e => Ok (s, iob, - e)
          | inr entry =>
              '(iob, _, _, ret) ← iobuf_move iob (e_name entry) sfs_dentry_size true;
              Ok (s, iob, ret)
          end
  end.

(** * What a directory holds *)
Context `{!DeviceLaws D}.

Definition dir_entry sfs (d : sfs_disk_inode) (i : Z) : sfs_disk_entry :=
  let e := bytes_entry (file_block sfs d i) in
  mk_entry (e_ino e) (<[255%nat := 0]> (e_name e)).

Definition dir_entries sfs (d : sfs_disk_inode) : list sfs_disk_entry := dir_entry sfs d <$> seqZ 0 (d_blocks d).

Definition dir_ok sfs (d : sfs_disk_inode) : Prop := inode_ok sfs d /\ d_type d = SFS_TYPE_DIR.

(** The reference: the first entry in use with this name. *)
Definition entry_matches (name : list Z) (e : sfs_disk_entry) : Prop := e_ino e <> 0 /\ c_string (e_name e) = name.

#[export] Instance entry_matches_dec name e : Decision (entry_matches name e).
Proof. unfold entry_matches. apply _. Defined.

Definition dir_lookup (name : list Z) (es : list sfs_disk_entry) : option (nat * sfs_disk_entry) := list_find (entry_matches name) es.


Lemma same_trans s1 s2 s3 :
  fs_step s1 (disk_of s1) (is_free s1) s2 -> fs_step s2 (disk_of s2) (is_free s2) s3 -> fs_step s1 (disk_of s1) (is_free s1) s3.
Proof.
  intros (H1 & H2 & H3 & H4) Hst. eapply fs_step_ext; [by eapply fs_step_trans; [split; [exact H1|split; [exact H2|split; [exact H3|exact H4]]]|]| |]; [exact H3|exact H4].
Qed.

(** Reading one entry. *)
Lemma dirent_read_spec sfs sin i :
  fs_inv sfs -> dir_ok sfs (din sin) -> 0 <= i < d_blocks (din sin) ->
  exists sfs', sfs_dirent_read_nolock i (sfs, sin) = Ok ((sfs', sin), inr (dir_entry sfs (din sin) i)) /\
    fs_step sfs (disk_of sfs) (is_free sfs) sfs'.
Proof.
  intros Hinv [Hok Ht] Hi. unfold sfs_dirent_read_nolock. rewrite (bind_ok _ _ _ (sfs, sin) (din sin)) by done.
  rewrite (bind_ok _ _ _ (sfs, sin) tt).
  2: { apply assert_ok. rewrite Ht. rewrite (proj2 (Z.leb_le 0 i)), (proj2 (Z.ltb_lt i _)) by lia. done. }
  destruct (bmap_load_lookup sfs sin i Hinv Hok Hi) as (s1 & Hload & Hst1). rewrite (bind_ok _ _ _ _ _ Hload).
  pose proof (inode_inuse _ _ _ Hok Hi) as Hu. set (b := bmap (disk_of sfs) (din sin) i) in *.
  pose proof (fs_step_inv _ _ _ _ Hst1) as [Hio1 Hfm1].
  assert (Hu1 : inuse s1 b) by (apply (fs_step_inuse _ _ _ _ _ Hst1); exact Hu).
  rewrite (bind_ok _ _ _ _ _ (on_fs_ok _ _ sin _ _ (assert_inuse_ok _ _ Hfm1 Hu1))).
  destruct (sfs_rbuf_spec s1 ENTRY_SIZE b 0) as (s2 & Hr & Hio2); [done|apply Hu1|unfold SFS_BLKSIZE; lia|done|done|].
  rewrite (bind_ok _ _ _ _ _ (on_fs_ok _ _ sin _ _ Hr)). exists s2. split.
  - unfold mret, M_ret. do 3 f_equal. destruct Hst1 as (_ & _ & Hd & _). rewrite Hd by (by eapply inuse_pos).
    unfold dir_entry, file_block. fold b. unfold bytes_entry. cbn [e_ino e_name].
    assert (forall l off n, (off + n <= 260)%nat -> bytes_at (bytes_at l (Z.to_nat 0) (Z.to_nat ENTRY_SIZE)) off n = bytes_at l off n) as Hsub.
    { intros l off n Hn. unfold bytes_at. change (Z.to_nat 0) with 0%nat. change (Z.to_nat ENTRY_SIZE) with 260%nat. rewrite drop_0.
      rewrite <- take_take_drop at 1 || idtac. apply list_eq. intros k. destruct (decide (k < n)%nat).
      - by rewrite !lookup_take_lt, !lookup_drop, lookup_take_lt by lia.
      - by rewrite !lookup_take_ge by lia. }
    unfold word_at. by rewrite !Hsub by lia.
  - eapply same_trans; [exact Hst1|]. by apply io_fs_step.
Qed.

(** ** Names *)
Lemma c_string_nonzero l : Forall (fun x => x <> 0) (c_string l).
Proof. induction l as [|x l IH]; cbn; [done|]. destruct (Z.eqb_spec x 0); [done|]. by constructor. Qed.

Lemma c_string_split l : 0 ∈ l -> exists rest, l = c_string l ++ 0 :: rest.
Proof.
  induction l as [|x l IH]; [by intros ?%not_elem_of_nil|]. intros H. cbn. destruct (Z.eqb_spec x 0) as [->|Hne]; [by exists l|].
  apply elem_of_cons in H as [?|H]; [congruence|]. destruct (IH H) as [rest Hr]. exists rest. cbn. by rewrite <- Hr.
Qed.

Lemma c_string_app l rest : Forall (fun x => x <> 0) l -> c_string (l ++ 0 :: rest) = l.
Proof. induction 1 as [|x l Hx _ IH]; [done|]. cbn. rewrite (proj2 (Z.eqb_neq _ _) Hx). by rewrite IH. Qed.

Lemma bytes_stored a pre l post : stored (bytes a (pre ++ l ++ post)) (a + Z.of_nat (length pre)) l.
Proof.
  apply stored_lookup. intros i x Hi. unfold bytes. apply lookup_map_seqZ_Some. split; [lia|].
  replace (Z.to_nat _) with (length pre + i)%nat by lia. rewrite lookup_app_r by lia.
  replace (length pre + i - length pre)%nat with i by lia. by apply lookup_app_l_Some.
Qed.

Lemma names_equal_spec name ename :
  Forall (fun x => x <> 0) name -> 0 ∈ ename -> names_equal name ename = Ok (bool_decide (c_string ename = name)).
Proof.
  intros Hn H0. destruct (c_string_split ename H0) as [rest Hr]. unfold names_equal.
  rewrite (strcmp_run _ _ _ name (c_string ename)).
  - cbn [mbind res_bind]. f_equal. apply eq_bool_prop_intro. rewrite bool_decide_spec. pose proof (str_compare_eq name (c_string ename) Hn (c_string_nonzero _)) as H.
    rewrite Is_true_true, Z.eqb_eq. rewrite H. split; by intros ->.
  - split; [done|]. pose proof (bytes_stored 0 [] (name ++ [0]) ename) as H. by rewrite <- app_assoc in H.
  - split; [apply c_string_nonzero|]. rewrite Hr at 1. pose proof (bytes_stored 0 (name ++ [0]) (c_string ename ++ [0]) rest) as H.
    rewrite length_app in H. cbn [length] in H. replace (0 + Z.of_nat (length name + 1)) with (Z.of_nat (length name) + 1) in H by lia.
    rewrite <- !app_assoc in H. cbn [app] in H. exact H.
Qed.

Lemma dir_entry_name sfs d i : fs_inv sfs -> inode_ok sfs d -> 0 <= i < d_blocks d -> 0 ∈ e_name (dir_entry sfs d i).
Proof.
  intros Hinv Hok Hi. unfold dir_entry, bytes_entry; cbn [e_name]. eapply list_elem_of_lookup_2. apply list_lookup_insert_eq.
  rewrite bytes_at_length; [lia|]. rewrite file_block_length by done. pose proof blk_eq. lia.
Qed.

Lemma dir_entries_lookup sfs d i : 0 <= i < d_blocks d -> dir_entries sfs d !! Z.to_nat i = Some (dir_entry sfs d i).
Proof.
  intros Hi. unfold dir_entries. rewrite list_lookup_fmap, lookup_seqZ_lt by lia. cbn. do 2 f_equal. lia.
Qed.

(** ** Searching *)

(** The slot reported as empty: the last free one, [acc] when there is none. *)
Fixpoint last_free (es : list sfs_disk_entry) (i acc : Z) : Z :=
  match es with [] => acc | e :: es' => last_free es' (i + 1) (if e_ino e =? 0 then i else acc) end.

(** The search in the list of entries [es] that starts at slot [i]. *)
Definition search_result (name : list Z) (es : list sfs_disk_entry) (i acc : Z) : search :=
  match dir_lookup name es with
  | Some (k, e) => mk_search (inr (e_ino e, i + Z.of_nat k)) (Some (last_free (take k es) i acc))
  | None => mk_search (inl E_NOENT) (Some (last_free es i acc))
  end.

Lemma search_result_skip name e es i acc :
  ~ entry_matches name e -> search_result name (e :: es) i acc = search_result name es (i + 1) (if e_ino e =? 0 then i else acc).
Proof.
  intros Hn. unfold search_result, dir_lookup. cbn [list_find]. rewrite decide_False by done.
  destruct (list_find (entry_matches name) es) as [[k e']|]; [|done]. cbn. f_equal. do 2 f_equal. lia.
Qed.

Lemma dir_entry_same sfs sfs' d i :
  inode_ok sfs d -> fs_step sfs (disk_of sfs) (is_free sfs) sfs' -> 0 <= i < d_blocks d -> dir_entry sfs' d i = dir_entry sfs d i.
Proof.
  intros Hok Hst Hi. destruct (inode_ok_same _ _ _ Hok Hst) as [_ Hbm]. unfold dir_entry, file_block. rewrite Hbm.
  destruct Hst as (_ & _ & Hd & _). by rewrite Hd by (eapply inuse_pos; by apply inode_inuse).
Qed.

(** A step through the entries: the state [s] agrees with the first one, [sfs]. *)
Lemma dirent_read_same sfs s sin i :
  dir_ok sfs (din sin) -> fs_step sfs (disk_of sfs) (is_free sfs) s -> 0 <= i < d_blocks (din sin) ->
  exists s', sfs_dirent_read_nolock i (s, sin) = Ok ((s', sin), inr (dir_entry sfs (din sin) i)) /\
    fs_step sfs (disk_of sfs) (is_free sfs) s'.
Proof.
  intros [Hok Ht] Hst Hi. destruct (inode_ok_same _ _ _ Hok Hst) as [Hok' _].
  destruct (dirent_read_spec s sin i (fs_step_inv _ _ _ _ Hst) (conj Hok' Ht) Hi) as (s' & Hr & Hst').
  rewrite (dir_entry_same sfs s) in Hr by done. exists s'. split; [done|]. by eapply same_trans.
Qed.

Lemma dir_entries_drop sfs d i :
  0 <= i < d_blocks d -> drop (Z.to_nat i) (dir_entries sfs d) = dir_entry sfs d i :: drop (Z.to_nat (i + 1)) (dir_entries sfs d).
Proof.
  intros Hi. rewrite (drop_S _ _ _ (dir_entries_lookup sfs d i Hi)). do 2 f_equal. lia.
Qed.

Lemma dir_entries_end sfs d i : d_blocks d <= i -> drop (Z.to_nat i) (dir_entries sfs d) = [].
Proof. intros Hi. apply drop_ge. unfold dir_entries. rewrite length_fmap, length_seqZ. lia. Qed.

Lemma search_loop sfs sin name fuel i acc s :
  fs_inv sfs -> dir_ok sfs (din sin) -> Forall (fun x => x <> 0) name -> 0 <= i <= d_blocks (din sin) ->
  fs_step sfs (disk_of sfs) (is_free sfs) s -> (Z.to_nat (d_blocks (din sin) - i) < fuel)%nat ->
  exists s', m_loop (search_step name (d_blocks (din sin))) fuel (i, acc) (s, sin) =
      Ok ((s', sin), inr (search_result name (drop (Z.to_nat i) (dir_entries sfs (din sin))) i acc)) /\
    fs_step sfs (disk_of sfs) (is_free sfs) s'.
Proof.
  intros Hinv Hdir Hname. revert i acc s. induction fuel as [|fuel IH]; intros i acc s Hi Hst Hf; [lia|].
  destruct (decide (i = d_blocks (din sin))) as [E|E].
  { exists s. split; [|done]. apply m_loop_exit. unfold search_step. rewrite (proj2 (Z.ltb_ge i _)) by lia.
    by rewrite dir_entries_end by lia. }
  assert (Hir : 0 <= i < d_blocks (din sin)) by lia.
  destruct (dirent_read_same sfs s sin i Hdir Hst Hir) as (s1 & Hr & Hst1). set (e := dir_entry sfs (din sin) i) in *.
  rewrite dir_entries_drop by done. fold e.
  assert (Hstep : search_step name (d_blocks (din sin)) (i, acc) (s, sin) =
    (if e_ino e =? 0 then mret (inl (i + 1, i))
     else eq ← lift (names_equal name (e_name e));
       if (eq : bool) then mret (inr (mk_search (inr (e_ino e, i)) (Some acc))) else mret (inl (i + 1, acc))) (s1, sin)).
  { unfold search_step. rewrite (proj2 (Z.ltb_lt i _)) by lia. by rewrite (bind_ok _ _ _ _ _ (attempt_eq _ _ _ _ Hr)). }
  assert (Hnext : forall acc', exists s', m_loop (search_step name (d_blocks (din sin))) fuel (i + 1, acc') (s1, sin) =
      Ok ((s', sin), inr (search_result name (drop (Z.to_nat (i + 1)) (dir_entries sfs (din sin))) (i + 1) acc')) /\
      fs_step sfs (disk_of sfs) (is_free sfs) s') by (intros acc'; apply IH; [lia|done|lia]).
  destruct (Z.eqb_spec (e_ino e) 0) as [E0|E0].
  - rewrite (m_loop_next _ _ _ _ _ _ Hstep). rewrite search_result_skip by (by intros []). rewrite (proj2 (Z.eqb_eq _ _) E0). apply Hnext.
  - assert (Heq : names_equal name (e_name e) = Ok (bool_decide (c_string (e_name e) = name))).
    { apply names_equal_spec; [done|]. by apply dir_entry_name; [|apply Hdir|]. }
    rewrite (bind_ok _ _ _ (s1, sin) (bool_decide (c_string (e_name e) = name))) in Hstep by (unfold lift; by rewrite Heq).
    case_bool_decide as Hm.
    + exists s1. split; [|done]. rewrite (m_loop_exit _ _ _ _ _ _ Hstep). unfold search_result, dir_lookup. cbn [list_find].
      rewrite decide_True by done. cbn. by rewrite Z.add_0_r.
    + rewrite (m_loop_next _ _ _ _ _ _ Hstep). rewrite search_result_skip by (by intros []). rewrite (proj2 (Z.eqb_neq _ _) E0). apply Hnext.
Qed.

(** Searching a directory: the search ends, reports the first entry in use whose
    name is the one asked for - its inode number and its slot - or that there is
    none, and changes neither the directory nor a block.  As [empty_slot] it reports
    the last free slot before the place where it stopped, and the number of slots
    when there is none.  It fails only when there is no memory for its buffer. *)
Theorem sfs_dirent_search_finds sfs sin name :
  fs_inv sfs -> dir_ok sfs (din sin) -> Forall (fun x => x <> 0) name -> Z.of_nat (length name) <= SFS_MAX_FNAME_LEN ->
  kmem sfs = [] ->
  exists sfs', sfs_dirent_search_nolock name (sfs, sin) =
      Ok ((sfs', sin), inr (search_result name (dir_entries sfs (din sin)) 0 (d_blocks (din sin)))) /\
    fs_step sfs (disk_of sfs) (is_free sfs) sfs'.
Proof.
  intros Hinv Hdir Hname Hlen Hk. unfold sfs_dirent_search_nolock.
  rewrite (bind_ok _ _ _ (sfs, sin) tt) by (apply assert_ok; by apply Z.leb_le).
  rewrite (bind_ok _ _ _ (sfs, sin) true) by (apply (on_fs_ok (kmalloc (D := D)) sfs sin sfs (inr true)); unfold kmalloc; by rewrite Hk).
  rewrite (bind_ok _ _ _ (sfs, sin) (din sin)) by done. cbn zeta. pose proof Hdir as [(_ & Hb & _) _].
  apply (search_loop sfs sin name (S (Z.to_nat (d_blocks (din sin)))) 0); [done|done|done|lia|by apply fs_step_refl|lia].
Qed.

(** ** Finding an inode number, and the entries in use one after the other *)
Lemma findino_loop sfs sin x fuel i s :
  dir_ok sfs (din sin) -> 0 <= i <= d_blocks (din sin) ->
  fs_step sfs (disk_of sfs) (is_free sfs) s -> (Z.to_nat (d_blocks (din sin) - i) < fuel)%nat ->
  exists s', m_loop (findino_step x (d_blocks (din sin))) fuel i (s, sin) =
      Ok ((s', sin), match list_find (fun e => e_ino e = x) (drop (Z.to_nat i) (dir_entries sfs (din sin))) with
                     | Some (_, e) => inr e | None => inl E_NOENT end) /\
    fs_step sfs (disk_of sfs) (is_free sfs) s'.
Proof.
  intros Hdir. revert i s. induction fuel as [|fuel IH]; intros i s Hi Hst Hf; [lia|].
  destruct (decide (i = d_blocks (din sin))) as [E|E].
  { exists s. split; [|done]. rewrite dir_entries_end by lia. apply m_loop_err. unfold findino_step. by rewrite (proj2 (Z.ltb_ge i _)) by lia. }
  assert (Hir : 0 <= i < d_blocks (din sin)) by lia.
  destruct (dirent_read_same sfs s sin i Hdir Hst Hir) as (s1 & Hr & Hst1). set (e := dir_entry sfs (din sin) i) in *.
  rewrite dir_entries_drop by done. fold e. cbn [list_find].
  assert (Hstep : findino_step x (d_blocks (din sin)) i (s, sin) = (if e_ino e =? x then mret (inr e) else mret (inl (i + 1)) : M ST (Z + sfs_disk_entry)) (s1, sin)).
  { unfold findino_step. rewrite (proj2 (Z.ltb_lt i _)) by lia. by rewrite (bind_ok _ _ _ _ _ Hr). }
  destruct (Z.eqb_spec (e_ino e) x) as [Ex|Ex].
  - exists s1. split; [|done]. rewrite (m_loop_exit _ _ _ _ _ _ Hstep). by rewrite decide_True.
  - rewrite (m_loop_next _ _ _ _ _ _ Hstep). rewrite decide_False by done.
    destruct (IH (i + 1) s1) as (s' & Hrun & Hst'); [lia|done|lia|]. exists s'. split; [|done]. rewrite Hrun.
    by destruct (list_find _ _) as [[k e']|].
Qed.

Lemma findino_spec sfs sin x :
  fs_inv sfs -> dir_ok sfs (din sin) ->
  exists s', sfs_dirent_findino_nolock x (sfs, sin) =
      Ok ((s', sin), match list_find (fun e => e_ino e = x) (dir_entries sfs (din sin)) with Some (_, e) => inr e | None => inl E_NOENT end) /\
    fs_step sfs (disk_of sfs) (is_free sfs) s'.
Proof.
  intros Hinv Hdir. unfold sfs_dirent_findino_nolock. rewrite (bind_ok _ _ _ (sfs, sin) (din sin)) by done.
  pose proof Hdir as [(_ & Hb & _) _]. apply (findino_loop sfs sin x _ 0); [done|lia|by apply fs_step_refl|lia].
Qed.

End Dir.
