(* ===== verification/SfsNode.v ===== *)
(** Inodes in memory: the reference counts of lab8/kern/fs/vfs/inode.c and the
    inodes of SFS in its cache - loading, looking up, naming and reclaiming
    (lab8/kern/fs/sfs/sfs_inode.c).

    [world] is the mounted file system together with the heap of struct inode.  The
    lists through the inodes ([inode_list], the chains of [hash_list]) are lists of
    their addresses. *)
From S2P Require Import Prelude CString Layout StateM Iobuf Bitmap Disk0 SfsIo SfsBmap SfsFile SfsTrunc SfsDir.

(** The devices that have an inode. *)
Inductive device := stdin | stdout | disk0_dev.

#[export] Instance device_eq_dec : EqDecision device.
Proof. solve_decision. Defined.

Inductive in_info :=
  | device_info (d : device)
  | sfs_info (sin : sfs_inode).

(** The three tables of operations. *)
Inductive inode_ops := dev_node_ops | sfs_node_dirops | sfs_node_fileops.

#[export] Instance inode_ops_eq_dec : EqDecision inode_ops.
Proof. solve_decision. Defined.

(** [in_fs] is whether the pointer to the file system is set. *)
Record inode := mk_inode {
  info : in_info;
  ref_count : Z;
  open_count : Z;
  in_fs : bool;
  in_ops : inode_ops;
}.

Definition MAX_INODE_COUNT : Z := 0x10000.

Record world (D : Type) := mk_world {
  w_fs : sfs_fs D;
  w_nodes : gmap Z inode;
}.
Arguments mk_world {_} _ _.
Arguments w_fs {_} _.
Arguments w_nodes {_} _.

Definition set_info (i : in_info) (n : inode) : inode := mk_inode i (ref_count n) (open_count n) (in_fs n) (in_ops n).
Definition set_ref (v : Z) (n : inode) : inode := mk_inode (info n) v (open_count n) (in_fs n) (in_ops n).
Definition set_open (v : Z) (n : inode) : inode := mk_inode (info n) (ref_count n) v (in_fs n) (in_ops n).
Definition set_reclaim (v : Z) (sin : sfs_inode) : sfs_inode := mk_sin (din sin) (ino sin) (dirty sin) v (sem sin).

Section Node.
Context {D : Type} `{!Device D}.
#[local] Notation ST := (St (D := D)).
#[local] Notation W := (world D).
Implicit Types (sfs : sfs_fs D) (sin : sfs_inode) (w : W).

(** * Access to the heap *)
Definition get_node (a : Z) : M W inode := fun w =>
  match w_nodes w !! a with Some n => Ok (w, inr n) | None => Fault end.

Definition set_node (a : Z) (n : inode) : M W unit := modify (fun w => mk_world (w_fs w) (<[a := n]> (w_nodes w))).

Definition on_sfs {A} (m : M (sfs_fs D) A) : M W A := zoom w_fs (fun f w => mk_world f (w_nodes w)) m.

(** [vop_info(node, sfs_inode)] checks the type of the inode. *)
Definition get_sin (a : Z) : M W sfs_inode :=
  n ← get_node a; match info n with sfs_info sin => mret sin | device_info _ => m_panic end.

(** A function of SfsFile or SfsDir on the inode at [a]. *)
Definition with_sin {A} (a : Z) (m : M ST A) : M W A := fun w =>
  '(w, r) ← get_sin a w;
  match r with
  | inl e => Ok (w, inl e)
  | inr sin =>
      '((fs, sin), r) ← m (w_fs w, sin);
      Ok (mk_world fs (alter (set_info (sfs_info sin)) a (w_nodes w)), r)
  end.

Definition put_sin (a : Z) (f : sfs_inode -> sfs_inode) : M W unit := with_sin a (upd_sin f).

Definition lock_fs : M W unit := on_sfs (fun sfs => sfs ← lock_sfs_fs sfs; Ok (sfs, inr tt)).
Definition unlock_fs : M W unit := on_sfs (modify unlock_sfs_fs).

(** * inode.c *)
Definition inode_check (n : inode) : bool :=
  ((open_count n <=? ref_count n) && (0 <=? open_count n)) && ((ref_count n <? MAX_INODE_COUNT) && (open_count n <? MAX_INODE_COUNT)).

(** [__vop_op(node, sym)]: the operation [sym] must be in the inode's table. *)
Definition vop_op (a : Z) (has : inode_ops -> bool) : M W inode :=
  n ← get_node a;
  _ ← assert (fun _ : W => has (in_ops n));
  _ ← assert (fun _ : W => inode_check n);
  mret n.

Definition is_fileops (o : inode_ops) : bool := bool_decide (o = sfs_node_fileops).
Definition is_dirops (o : inode_ops) : bool := bool_decide (o = sfs_node_dirops).
Definition is_devops (o : inode_ops) : bool := bool_decide (o = dev_node_ops).
Definition is_sfsops (o : inode_ops) : bool := is_fileops o || is_dirops o.

(** A fresh inode; [kmalloc] may fail. *)
Definition alloc_inode : M W (option Z) :=
  ok ← on_sfs (kmalloc (D := D));
  if (ok : bool) then gets (fun w : W => Some (fresh (dom (w_nodes w)))) else mret None.

Definition inode_ref_inc (a : Z) : M W Z :=
  n ← get_node a; _ ← set_node a (set_ref (ref_count n + 1) n); mret (ref_count n + 1).

(** The inode at [a] is initialised, its count is 0 and then incremented. *)
Definition inode_init (a : Z) (i : in_info) (o : inode_ops) (fs : bool) : M W unit :=
  _ ← set_node a (mk_inode i 0 0 fs o); _ ← inode_ref_inc a; mret tt.

Definition inode_kill (a : Z) : M W unit :=
  n ← get_node a;
  _ ← assert (fun _ : W => ref_count n =? 0);
  _ ← assert (fun _ : W => open_count n =? 0);
  modify (fun w => mk_world (w_fs w) (delete a (w_nodes w))).

Definition inode_open_inc (a : Z) : M W Z :=
  n ← get_node a; _ ← set_node a (set_open (open_count n + 1) n); mret (open_count n + 1).

(** * The cache *)
Definition SFS_HLIST_SHIFT : Z := 10.

Definition sin_hashfn (x : Z) : Z := hash32 x SFS_HLIST_SHIFT.

Definition sfs_hash_list sfs (ino : Z) : list Z := default [] (hash_list sfs !! sin_hashfn ino).

Definition sfs_get_ops (type : Z) : res inode_ops :=
  if type =? SFS_TYPE_DIR then Ok sfs_node_dirops else if type =? SFS_TYPE_FILE then Ok sfs_node_fileops else Panic.

Definition sfs_set_links (a : Z) : M W unit :=
  sin ← get_sin a;
  on_sfs (modify (fun sfs =>
    let sfs := set_inode_list (a :: inode_list sfs) sfs in
    set_hash_list (<[sin_hashfn (ino sin) := a :: sfs_hash_list sfs (ino sin)]> (hash_list sfs)) sfs)).

(** [list_del] on the two links. *)
Definition sfs_remove_links (a : Z) : M W unit :=
  sin ← get_sin a;
  on_sfs (modify (fun sfs =>
    let sfs := set_inode_list (filter (fun x => x <> a) (inode_list sfs)) sfs in
    set_hash_list (<[sin_hashfn (ino sin) := filter (fun x => x <> a) (sfs_hash_list sfs (ino sin))]> (hash_list sfs)) sfs)).

Definition sfs_create_inode (d : sfs_disk_inode) (ino : Z) : M W Z :=
  node ← alloc_inode;
  match node with
  | Some a =>
      ops ← lift (sfs_get_ops (d_type d));
      _ ← inode_init a (sfs_info (mk_sin d ino false 1 1)) ops true;
      mret a
  | None => fail E_NO_MEM
  end.

(** The walk along a chain. *)
Fixpoint lookup_chain (ino_ : Z) (chain : list Z) : M W (option Z) :=
  match chain with
  | [] => mret None
  | a :: chain' =>
      sin ← get_sin a;
      if ino sin =? ino_ then
        n ← inode_ref_inc a;
        _ ← (if n =? 1 then put_sin a (fun sin => set_reclaim (reclaim_count sin + 1) sin) else mret tt);
        mret (Some a)
      else lookup_chain ino_ chain'
  end.

Definition lookup_sfs_nolock (ino : Z) : M W (option Z) :=
  chain ← gets (fun w : W => sfs_hash_list (w_fs w) ino);
  lookup_chain ino chain.

Definition DIN_SIZE : Z := 64.

(** The part of [sfs_load_inode] between the lock operations. *)
Definition load_inode_nolock (ino : Z) : M W Z :=
  node ← lookup_sfs_nolock ino;
  match node with
  | Some a => mret a
  | None =>
      ok ← on_sfs (kmalloc (D := D));
      if (ok : bool) then
        _ ← on_sfs (assert_inuse ino);
        l ← on_sfs (sfs_rbuf DIN_SIZE ino 0);
        let d := bytes_din l in
        _ ← assert (fun _ : W => negb (d_nlinks d =? 0));
        a ← sfs_create_inode d ino;
        _ ← sfs_set_links a;
        mret a
      else fail E_NO_MEM
  end.

Definition sfs_load_inode (ino : Z) : M W Z :=
  _ ← lock_fs;
  r ← attempt (load_inode_nolock ino);
  _ ← unlock_fs;
  match r with inl e => fail e | inr a => mret a end.

(** * Operations on inodes *)
Definition vop_fsync (a : Z) : M W unit := _ ← vop_op a is_sfsops; with_sin a sfs_fsync.

Definition vop_truncate_node (a : Z) (len : Z) : M W unit := _ ← vop_op a is_fileops; with_sin a (sfs_truncfile len).

(** Writing the inode back when it is dirty, and taking it out of the lists. *)
Definition reclaim_flush (a : Z) : M W unit :=
  sin ← get_sin a;
  _ ← (if dirty sin then vop_fsync a else mret tt);
  sfs_remove_links a.

Definition sfs_reclaim (a : Z) : M W unit :=
  _ ← lock_fs;
  sin ← get_sin a;
  _ ← assert (fun _ : W => 0 <? reclaim_count sin);
  _ ← put_sin a (set_reclaim (reclaim_count sin - 1));
  r ← attempt (
    n ← get_node a;
    if negb (reclaim_count sin - 1 =? 0) || negb (ref_count n =? 0) then fail E_BUSY
    else
      _ ← (if d_nlinks (din sin) =? 0 then vop_truncate_node a 0 else mret tt);
      reclaim_flush a);
  _ ← unlock_fs;
  match r with
  | inl e => fail e
  | inr _ =>
      sin ← get_sin a;
      _ ← (if d_nlinks (din sin) =? 0 then
             _ ← on_sfs (sfs_block_free (ino sin));
             if negb (indirect (din sin) =? 0) then on_sfs (sfs_block_free (indirect (din sin))) else mret tt
           else mret tt);
      inode_kill a
  end.

Definition vop_reclaim (a : Z) : M W unit := _ ← vop_op a is_sfsops; sfs_reclaim a.

(** The last reference reclaims the inode; what that returns is only printed. *)
Definition inode_ref_dec (a : Z) : M W Z :=
  n ← get_node a;
  _ ← assert (fun _ : W => 0 <? ref_count n);
  _ ← set_node a (set_ref (ref_count n - 1) n);
  _ ← (if ref_count n - 1 =? 0 then _ ← attempt (vop_reclaim a); mret tt else mret tt);
  mret (ref_count n - 1).

Definition sfs_lookup_once (a : Z) (name : list Z) : M W Z :=
  _ ← with_sin a (lock_sin (D := D));
  r ← with_sin a (sfs_dirent_search_nolock name);
  _ ← with_sin a (unlock_sin (D := D));
  match found r with
  | inr (ino, _) => sfs_load_inode ino
  | inl e => fail e
  end.

Definition sfs_lookup (a : Z) (path : list Z) : M W Z :=
  _ ← assert (fun _ : W => match path with [] => false | c :: _ => negb (c =? 47) end);
  _ ← inode_ref_inc a;
  sin ← get_sin a;
  if negb (d_type (din sin) =? SFS_TYPE_DIR) then
    _ ← inode_ref_dec a; fail E_NOTDIR
  else
    r ← attempt (sfs_lookup_once a path);
    _ ← inode_ref_dec a;
    match r with inl e => fail e | inr node => mret node end.

(** ** The path of a directory *)

(** The local variables of [sfs_namefile]: the inode, the buffer, [ptr] and [resid]. *)
Definition namefile_step (st : Z * list Z * Z * Z) : M W (Z * list Z * Z * Z + Z * list Z * Z * Z) :=
  let '(node, mem, ptr, resid) := st in
  sin ← get_sin node;
  parent ← on_error (sfs_lookup_once node [46; 46]) (_ ← inode_ref_dec node; mret tt);
  _ ← inode_ref_dec node;
  if node =? parent then
    _ ← inode_ref_dec node; mret (inr st)
  else
    let ino_ := ino sin in
    let node := parent in
    sin ← get_sin node;
    _ ← assert (fun _ : W => negb (ino_ =? ino sin) && (d_type (din sin) =? SFS_TYPE_DIR));
    _ ← with_sin node (lock_sin (D := D));
    r ← attempt (with_sin node (sfs_dirent_findino_nolock ino_));
    _ ← with_sin node (unlock_sin (D := D));
    match r with
    | inl e => _ ← inode_ref_dec node; fail e
    | inr entry =>
        let name := c_string (e_name entry) in
        let alen := Z.of_nat (length name) + 1 in
        if resid <? alen then _ ← inode_ref_dec node; fail E_NO_MEM
        else
          let ptr := ptr - alen in
          mem ← lift (put_bytes mem ptr name);
          mem ← lift (put_bytes mem (ptr + alen - 1) [47]);
          mret (inl (node, mem, ptr, resid - alen))
    end.

(** Each turn uses up a byte of the buffer, hence the fuel. *)
Definition sfs_namefile (a : Z) (iob : iobuf) : M W iobuf :=
  if io_resid iob <=? 2 then fail E_NO_MEM
  else
    ok ← on_sfs (kmalloc (D := D));
    if (ok : bool) then
      let ptr := io_base iob + io_resid iob in
      let resid := io_resid iob - 2 in
      _ ← inode_ref_inc a;
      '(_, mem, ptr, resid) ← m_loop namefile_step (S (Z.to_nat (io_resid iob))) (a, io_mem iob, ptr, resid);
      let alen := io_resid iob - resid - 2 in
      name ← lift (get_bytes mem ptr alen);
      mem ← lift (put_bytes mem (io_base iob + 1) name);
      mem ← lift (put_bytes mem (io_base iob) [47]);
      mem ← lift (put_bytes mem (io_base iob + 1 + alen) [0]);
      lift (iobuf_skip (set_mem iob mem) alen)
    else fail E_NO_MEM.

(** * The cache of inodes *)
Context `{!DeviceLaws D}.

Definition sin_of w (a : Z) : option sfs_inode :=
  n ← w_nodes w !! a; match info n with sfs_info sin => Some sin | device_info _ => None end.

(** The two kinds of list hold exactly the inodes of the file system, an inode is in
    the chain of its number, no number is loaded twice, and every inode is
    referenced. *)
Definition cache_ok w : Prop :=
  NoDup (inode_list (w_fs w)) /\
  (forall a, a ∈ inode_list (w_fs w) <-> is_Some (sin_of w a)) /\
  (forall h a, a ∈ default [] (hash_list (w_fs w) !! h) <-> exists sin, sin_of w a = Some sin /\ sin_hashfn (ino sin) = h) /\
  (forall a b sa sb, sin_of w a = Some sa -> sin_of w b = Some sb -> ino sa = ino sb -> a = b) /\
  (forall a n sin, w_nodes w !! a = Some n -> info n = sfs_info sin -> 0 < reclaim_count sin /\ 0 < ref_count n).

Lemma sin_of_node w a sin : sin_of w a = Some sin <-> exists n, w_nodes w !! a = Some n /\ info n = sfs_info sin.
Proof.
  unfold sin_of. split.
  - destruct (w_nodes w !! a) as [n|]; cbn; [|done]. destruct (info n) eqn:E; [done|]. intros [= <-]. by exists n.
  - intros (n & -> & H). cbn. by rewrite H.
Qed.

Lemma get_node_ok w a n : w_nodes w !! a = Some n -> get_node a w = Ok (w, inr n).
Proof. unfold get_node. by intros ->. Qed.

Lemma get_sin_ok w a sin : sin_of w a = Some sin -> get_sin a w = Ok (w, inr sin).
Proof.
  intros (n & Hn & Hi)%sin_of_node. unfold get_sin. rewrite (bind_ok _ _ _ _ _ (get_node_ok _ _ _ Hn)). by rewrite Hi.
Qed.

Lemma on_sfs_ok {A} (m : M (sfs_fs D) A) w sfs' (r : Z + A) :
  m (w_fs w) = Ok (sfs', r) -> on_sfs m w = Ok (mk_world sfs' (w_nodes w), r).
Proof. intros H. unfold on_sfs. by erewrite zoom_eq by exact H. Qed.

Lemma with_sin_ok {A} a (m : M ST A) w n sin sfs' sin' (r : Z + A) :
  w_nodes w !! a = Some n -> info n = sfs_info sin -> m (w_fs w, sin) = Ok ((sfs', sin'), r) ->
  with_sin a m w = Ok (mk_world sfs' (<[a := set_info (sfs_info sin') n]> (w_nodes w)), r).
Proof.
  intros Hn Hi Hm. unfold with_sin. rewrite (get_sin_ok _ _ sin) by (apply sin_of_node; eauto). cbn [mbind res_bind]. rewrite Hm.
  cbn [mbind res_bind]. do 4 f_equal. apply map_eq. intros b. destruct (decide (b = a)) as [->|Hne].
  - by rewrite lookup_alter_eq, lookup_insert_eq, Hn.
  - by rewrite lookup_alter_ne, lookup_insert_ne by done.
Qed.

Lemma inode_ref_inc_ok w a n :
  w_nodes w !! a = Some n ->
  inode_ref_inc a w = Ok (mk_world (w_fs w) (<[a := set_ref (ref_count n + 1) n]> (w_nodes w)), inr (ref_count n + 1)).
Proof. intros Hn. unfold inode_ref_inc. by rewrite (bind_ok _ _ _ _ _ (get_node_ok _ _ _ Hn)). Qed.

Lemma lock_fs_ok w : fs_sem (w_fs w) = 1 -> lock_fs w = Ok (mk_world (set_fs_sem 0 (w_fs w)) (w_nodes w), inr tt).
Proof. intros H. apply on_sfs_ok. unfold lock_sfs_fs. by rewrite H. Qed.

Lemma unlock_fs_ok w : fs_sem (w_fs w) = 0 -> unlock_fs w = Ok (mk_world (set_fs_sem 1 (w_fs w)) (w_nodes w), inr tt).
Proof. intros H. unfold unlock_fs. erewrite on_sfs_ok; [|reflexivity]. unfold unlock_sfs_fs, unlock. by rewrite H. Qed.

Lemma set_fs_sem_same sfs v : fs_sem sfs = v -> set_fs_sem v (set_fs_sem 0 sfs) = sfs.
Proof. intros <-. by destruct sfs. Qed.

(** The inode of number [x], when it is loaded. *)
Lemma lookup_chain_spec x chain w :
  (forall a, a ∈ chain -> exists n sin, w_nodes w !! a = Some n /\ info n = sfs_info sin /\ 0 < ref_count n) ->
  (exists a n sin, a ∈ chain /\ w_nodes w !! a = Some n /\ info n = sfs_info sin /\ ino sin = x /\
     lookup_chain x chain w = Ok (mk_world (w_fs w) (<[a := set_ref (ref_count n + 1) n]> (w_nodes w)), inr (Some a))) \/
  (lookup_chain x chain w = Ok (w, inr None) /\ forall a sin, a ∈ chain -> sin_of w a = Some sin -> ino sin <> x).
Proof.
  induction chain as [|a chain IH]; intros Hall; [right; split; [done|]; by intros a sin ?%not_elem_of_nil|].
  destruct (Hall a) as (n & sin & Hn & Hi & Hr); [by left|]. cbn [lookup_chain].
  assert (Hs : sin_of w a = Some sin) by (apply sin_of_node; eauto).
  destruct (decide (ino sin = x)) as [E|E].
  - left. exists a, n, sin. split; [by left|]. split; [done|]. split; [done|]. split; [done|].
    rewrite (bind_ok _ _ _ _ _ (get_sin_ok _ _ _ Hs)). rewrite (proj2 (Z.eqb_eq _ _) E).
    rewrite (bind_ok _ _ _ _ _ (inode_ref_inc_ok _ _ _ Hn)). by rewrite (proj2 (Z.eqb_neq _ _)) by lia.
  - destruct IH as [(b & nb & sb & Hb & H1 & H2 & H3 & H4)|(H1 & H2)]; [intros b Hb; apply Hall; by right| |].
    + left. exists b, nb, sb. split; [by right|]. split; [done|]. split; [done|]. split; [done|].
      rewrite (bind_ok _ _ _ _ _ (get_sin_ok _ _ _ Hs)). by rewrite (proj2 (Z.eqb_neq _ _) E).
    + right. split.
      * rewrite (bind_ok _ _ _ _ _ (get_sin_ok _ _ _ Hs)). by rewrite (proj2 (Z.eqb_neq _ _) E).
      * intros b sb [->|Hb]%elem_of_cons Hsb; [congruence|by eapply H2].
Qed.

(** The part of [sfs_load_inode] between the lock operations leaves [fs_sem] alone
    and finds or loads the inode. *)
Definition ops_of (type : Z) : inode_ops := if type =? SFS_TYPE_DIR then sfs_node_dirops else sfs_node_fileops.

Definition new_inode (d : sfs_disk_inode) (ino : Z) : inode :=
  mk_inode (sfs_info (mk_sin d ino false 1 1)) 1 0 true (ops_of (d_type d)).

Lemma inode_init_ok w a i o fs :
  inode_init a i o fs w = Ok (mk_world (w_fs w) (<[a := mk_inode i 1 0 fs o]> (w_nodes w)), inr tt).
Proof.
  unfold inode_init. set (n := mk_inode i 0 0 fs o). set (w1 := mk_world (w_fs w) (<[a := n]> (w_nodes w))).
  rewrite (bind_ok _ _ _ w1 tt) by done.
  rewrite (bind_ok _ _ _ _ _ (inode_ref_inc_ok w1 a n (lookup_insert_eq _ _ _))). cbn [w1 w_fs w_nodes]. by rewrite insert_insert_eq.
Qed.

Lemma sfs_create_inode_ok d ino w :
  kmem (w_fs w) = [] -> d_type d = SFS_TYPE_DIR \/ d_type d = SFS_TYPE_FILE ->
  exists a, w_nodes w !! a = None /\
    sfs_create_inode d ino w = Ok (mk_world (w_fs w) (<[a := new_inode d ino]> (w_nodes w)), inr a).
Proof.
  intros Hk Ht. exists (fresh (dom (w_nodes w))). split; [apply not_elem_of_dom; apply is_fresh|].
  unfold sfs_create_inode. set (a := fresh (dom (w_nodes w))).
  rewrite (bind_ok _ _ _ w (Some a)).
  2: { unfold alloc_inode. rewrite (bind_ok _ _ _ w true); [done|]. rewrite (on_sfs_ok _ w (w_fs w) (inr true)); [by destruct w|]. unfold kmalloc. by rewrite Hk. }
  rewrite (bind_ok _ _ _ w (ops_of (d_type d))).
  2: { unfold lift, sfs_get_ops, ops_of. by destruct Ht as [-> | ->]. }
  by rewrite (bind_ok _ _ _ _ _ (inode_init_ok _ _ _ _ _)).
Qed.

Lemma cache_ok_ref w a n :
  cache_ok w -> w_nodes w !! a = Some n -> cache_ok (mk_world (w_fs w) (<[a := set_ref (ref_count n + 1) n]> (w_nodes w))).
Proof.
  intros (H1 & H2 & H3 & H4 & H5) Hn.
  assert (Hsin : forall b, sin_of (mk_world (w_fs w) (<[a := set_ref (ref_count n + 1) n]> (w_nodes w))) b = sin_of w b).
  { intros b. unfold sin_of. cbn [w_nodes]. destruct (decide (b = a)) as [->|Hne]; [by rewrite lookup_insert_eq, Hn|by rewrite lookup_insert_ne]. }
  split; [done|]. split; [intros b; rewrite Hsin; apply H2|]. split; [intros h b; rewrite Hsin; apply H3|]. split.
  - intros b c sb sc. rewrite !Hsin. apply H4.
  - intros b nb sb. cbn [w_nodes]. destruct (decide (b = a)) as [->|Hne].
    + rewrite lookup_insert_eq. intros [= <-] Hi. destruct (H5 a n sb Hn Hi). split; [done|]. cbn. lia.
    + rewrite lookup_insert_ne by done. apply H5.
Qed.

Lemma cache_ok_fs_sem w v : cache_ok w -> cache_ok (mk_world (set_fs_sem v (w_fs w)) (w_nodes w)).
Proof. done. Qed.

(** A file system that only differs in what the cache does not look at. *)
Lemma cache_ok_fs w sfs : cache_ok w -> inode_list sfs = inode_list (w_fs w) -> hash_list sfs = hash_list (w_fs w) -> cache_ok (mk_world sfs (w_nodes w)).
Proof. intros (H1 & H2 & H3 & H4 & H5) E1 E2. unfold cache_ok. cbn [w_fs w_nodes]. rewrite E1, E2. done. Qed.

(** Entering an inode that is not in the cache. *)
Definition linked sfs (a ino : Z) : sfs_fs D :=
  set_hash_list (<[sin_hashfn ino := a :: sfs_hash_list sfs ino]> (hash_list sfs)) (set_inode_list (a :: inode_list sfs) sfs).

Lemma cache_ok_link w a d ino0 :
  cache_ok w -> w_nodes w !! a = None -> (forall b sb, sin_of w b = Some sb -> ino sb <> ino0) ->
  cache_ok (mk_world (linked (w_fs w) a ino0) (<[a := new_inode d ino0]> (w_nodes w))).
Proof.
  intros (H1 & H2 & H3 & H4 & H5) Hn Hfree. set (w' := mk_world _ _).
  assert (Ha : sin_of w a = None) by (unfold sin_of; by rewrite Hn).
  assert (Hsa : sin_of w' a = Some (mk_sin d ino0 false 1 1)) by (unfold sin_of; cbn; by rewrite lookup_insert_eq).
  assert (Hsb : forall b, b <> a -> sin_of w' b = sin_of w b) by (intros b Hne; unfold sin_of; cbn; by rewrite lookup_insert_ne).
  assert (Hnotin : a ∉ inode_list (w_fs w)) by (intros Hin; apply H2 in Hin as [? ?]; congruence).
  split; [|split; [|split; [|split]]].
  - cbn. by constructor.
  - intros b. cbn. rewrite elem_of_cons. destruct (decide (b = a)) as [->|Hne]; [rewrite Hsa; split; [by eexists|by left]|].
    rewrite Hsb by done. rewrite <- H2. split; [by intros [?|?]|by right].
  - intros h b. cbn [w_fs w' linked hash_list set_hash_list set_inode_list]. destruct (decide (h = sin_hashfn ino0)) as [->|Hh].
    + rewrite lookup_insert_eq. cbn [default from_option id]. unfold sfs_hash_list. rewrite elem_of_cons, H3. destruct (decide (b = a)) as [->|Hne].
      * split; [intros _; eexists; by split|by left].
      * rewrite Hsb by done. split; [by intros [?|?]|by right].
    + rewrite lookup_insert_ne by done. rewrite H3. destruct (decide (b = a)) as [->|Hne]; [|by rewrite Hsb].
      rewrite Ha, Hsa. split; [by intros (? & ? & _)|]. intros (? & [= <-] & Hhh). cbn in Hhh. congruence.
  - intros b c sb sc. destruct (decide (b = a)) as [->|Hb], (decide (c = a)) as [->|Hc]; [done| | |].
    + rewrite Hsa, Hsb by done. intros [= <-] Hc2 Heq. cbn in Heq. by destruct (Hfree c sc Hc2).
    + rewrite Hsa, Hsb by done. intros Hb2 [= <-] Heq. cbn in Heq. by destruct (Hfree b sb Hb2).
    + rewrite !Hsb by done. apply H4.
  - intros b nb sb. cbn [w_nodes w']. destruct (decide (b = a)) as [->|Hne].
    + rewrite lookup_insert_eq. intros [= <-] [= <-]. cbn. lia.
    + rewrite lookup_insert_ne by done. apply H5.
Qed.

Lemma load_inode_locked x w sfs nodes a :
  fs_sem (w_fs w) = 1 -> fs_sem sfs = 0 ->
  load_inode_nolock x (mk_world (set_fs_sem 0 (w_fs w)) (w_nodes w)) = Ok (mk_world sfs nodes, inr a) ->
  sfs_load_inode x w = Ok (mk_world (set_fs_sem 1 sfs) nodes, inr a).
Proof.
  intros Hsem Hs Hrun. unfold sfs_load_inode. rewrite (bind_ok _ _ _ _ _ (lock_fs_ok _ Hsem)).
  rewrite (bind_ok _ _ _ _ _ (attempt_eq _ _ _ _ Hrun)). by rewrite (bind_ok _ _ _ _ _ (unlock_fs_ok (mk_world sfs nodes) Hs)).
Qed.

Lemma lookup_sfs_eq w x : lookup_sfs_nolock x w = lookup_chain x (sfs_hash_list (w_fs w) x) w.
Proof. unfold lookup_sfs_nolock. by rewrite (bind_ok _ _ _ w (sfs_hash_list (w_fs w) x)). Qed.

Lemma sfs_set_links_ok w a sin : sin_of w a = Some sin -> sfs_set_links a w = Ok (mk_world (linked (w_fs w) a (ino sin)) (w_nodes w), inr tt).
Proof. intros Hs. unfold sfs_set_links. rewrite (bind_ok _ _ _ _ _ (get_sin_ok _ _ _ Hs)). by apply on_sfs_ok. Qed.

(** Loading an inode that is not in memory. *)
Lemma load_inode_fresh x w :
  fs_inv (w_fs w) -> kmem (w_fs w) = [] -> inuse (w_fs w) x -> lookup_sfs_nolock x w = Ok (w, inr None) ->
  let d := bytes_din (bytes_at (disk_of (w_fs w) x) 0 64) in
  d_nlinks d <> 0 -> d_type d = SFS_TYPE_DIR \/ d_type d = SFS_TYPE_FILE ->
  exists sfs' a, load_inode_nolock x w = Ok (mk_world (linked sfs' a x) (<[a := new_inode d x]> (w_nodes w)), inr a) /\
    w_nodes w !! a = None /\ io_step (w_fs w) (disk_of (w_fs w)) sfs'.
Proof.
  intros Hinv Hk Hu Hlook d Hnl Hty.
  destruct (sfs_rbuf_spec (w_fs w) DIN_SIZE x 0) as (s1 & Hrb & Hio1); [apply Hinv|apply Hu|done|done|done|].
  set (w1 := mk_world s1 (w_nodes w)).
  assert (Hk1 : kmem (w_fs w1) = []) by (cbn; destruct Hio1 as (dv & bf & -> & _); exact Hk).
  destruct (sfs_create_inode_ok d x w1 Hk1 Hty) as (a & Hfresh & Hcreate).
  exists s1, a. split; [|by split]. unfold load_inode_nolock. rewrite (bind_ok _ _ _ _ _ Hlook).
  rewrite (bind_ok _ _ _ w true).
  2: { rewrite (on_sfs_ok _ w (w_fs w) (inr true)); [by destruct w|]. unfold kmalloc. by rewrite Hk. }
  rewrite (bind_ok _ _ _ w tt).
  2: { rewrite (on_sfs_ok _ w (w_fs w) (inr tt)); [by destruct w|]. apply assert_inuse_ok; [apply Hinv|exact Hu]. }
  rewrite (bind_ok _ _ _ _ _ (on_sfs_ok _ w _ _ Hrb)). fold w1.
  change (bytes_din (bytes_at (disk_of (w_fs w) x) (Z.to_nat 0) (Z.to_nat DIN_SIZE))) with d. cbv zeta.
  rewrite (bind_ok _ _ _ w1 tt) by (apply assert_true, negb_true_iff; by apply Z.eqb_neq).
  rewrite (bind_ok _ _ _ _ _ Hcreate). set (w2 := mk_world (w_fs w1) _).
  assert (Hs2 : sin_of w2 a = Some (mk_sin d x false 1 1)) by (unfold sin_of; cbn; by rewrite lookup_insert_eq).
  by rewrite (bind_ok _ _ _ _ _ (sfs_set_links_ok _ _ _ Hs2)).
Qed.

(** C30. An inode is in memory at most once: loading the inode number of a block in
    use returns an inode of that number, keeps the cache well formed and changes no
    other inode and no block.  If the inode is loaded already it is that one, with
    one more reference; otherwise it is a new one, made from what the disk holds. *)
Theorem sfs_load_inode_once w x :
  fs_inv (w_fs w) -> cache_ok w -> fs_sem (w_fs w) = 1 -> kmem (w_fs w) = [] -> inuse (w_fs w) x ->
  let d := bytes_din (bytes_at (disk_of (w_fs w) x) 0 64) in
  d_nlinks d <> 0 -> d_type d = SFS_TYPE_DIR \/ d_type d = SFS_TYPE_FILE ->
  exists w' a, sfs_load_inode x w = Ok (w', inr a) /\ cache_ok w' /\ fs_sem (w_fs w') = 1 /\
    (forall b, 0 <= b -> disk_of (w_fs w') b = disk_of (w_fs w) b) /\
    (exists sin, sin_of w' a = Some sin /\ ino sin = x) /\
    ((exists n, w_nodes w !! a = Some n /\ w_nodes w' = <[a := set_ref (ref_count n + 1) n]> (w_nodes w)) \/
     (w_nodes w !! a = None /\ (forall b sb, sin_of w b = Some sb -> ino sb <> x) /\ w_nodes w' = <[a := new_inode d x]> (w_nodes w))).
Proof.
  intros Hinv Hc Hsem Hk Hu d Hnl Hty. set (w0 := mk_world (set_fs_sem 0 (w_fs w)) (w_nodes w)). pose proof Hc as (C1 & C2 & C3 & C4 & C5).
  assert (Hchain : forall a, a ∈ sfs_hash_list (w_fs w0) x -> exists n sin, w_nodes w0 !! a = Some n /\ info n = sfs_info sin /\ 0 < ref_count n).
  { intros a Ha. apply (C3 (sin_hashfn x) a) in Ha as (sin & (n & Hn & Hi)%sin_of_node & _). exists n, sin. split; [done|]. split; [done|]. by destruct (C5 a n sin Hn Hi). }
  pose proof (lookup_sfs_eq w0 x) as Hl.
  destruct (lookup_chain_spec x _ w0 Hchain) as [(a & n & sin & Ha & Hn & Hi & Hx & Hlook)|[Hlook Hnone]]; rewrite Hlook in Hl.
  - exists (mk_world (w_fs w) (<[a := set_ref (ref_count n + 1) n]> (w_nodes w))), a.
    split; [|split; [by apply cache_ok_ref|split; [done|split; [done|split; [|left; by exists n]]]]].
    + rewrite (load_inode_locked x w (set_fs_sem 0 (w_fs w)) (<[a := set_ref (ref_count n + 1) n]> (w_nodes w)) a Hsem eq_refl); [by rewrite set_fs_sem_same|].
      unfold load_inode_nolock. by rewrite (bind_ok _ _ _ _ _ Hl).
    + exists sin. split; [|done]. apply sin_of_node. eexists. cbn. rewrite lookup_insert_eq. split; [done|exact Hi].
  - assert (Hfree : forall b sb, sin_of w b = Some sb -> ino sb <> x).
    { intros b sb Hsb He. apply (Hnone b sb); [|exact Hsb|done]. apply (C3 (sin_hashfn x) b). exists sb. by rewrite He. }
    destruct (load_inode_fresh x w0 Hinv Hk Hu Hl Hnl Hty) as (s1 & a & Hrun & Hfresh & dv & bf & Es1 & _ & Hdisk).
    exists (mk_world (set_fs_sem 1 (linked s1 a x)) (<[a := new_inode d x]> (w_nodes w))), a.
    split; [|split; [|split; [done|split; [|split; [|right; by split_and!]]]]].
    + apply (load_inode_locked x w (linked s1 a x)); [done|by rewrite Es1|exact Hrun].
    + apply cache_ok_fs_sem. apply (cache_ok_link (mk_world s1 (w_nodes w)) a d x); [|done|exact Hfree]. apply cache_ok_fs; [done|by rewrite Es1..].
    + intros b Hb. rewrite Es1. exact (Hdisk b Hb).
    + exists (mk_sin d x false 1 1). split; [|done]. unfold sin_of; cbn; by rewrite lookup_insert_eq.
Qed.

(** ** The last reference *)
Lemma din_bytes_byte d : Forall is_byte (din_bytes d).
Proof.
  assert (forall ws, Forall is_byte (words_bytes ws)) as Hw.
  { induction ws as [|x ws IH]; [constructor|]. change (words_bytes (x :: ws)) with (le_bytes 4 x ++ words_bytes ws).
    apply Forall_app. split; [apply le_bytes_byte|done]. }
  unfold din_bytes. rewrite !Forall_app. split_and!; (apply le_bytes_byte || apply Hw).
Qed.

(** The inode on the disk is the one in memory. *)
Definition on_disk sfs sin : Prop := bytes_din (bytes_at (disk_of sfs (ino sin)) 0 64) = din sin.

Definition clean sin : sfs_inode := mk_sin (din sin) (ino sin) false (reclaim_count sin) (sem sin).

(** [sfs_fsync]: afterwards the inode is clean and what the disk holds. *)
Lemma fsync_spec sfs sin :
  fs_inv sfs -> inuse sfs (ino sin) -> sem sin = 1 -> din_ok (din sin) -> (dirty sin = false -> on_disk sfs sin) ->
  exists sfs', sfs_fsync (sfs, sin) = Ok ((sfs', clean sin), inr tt) /\
    on_disk sfs' sin /\ (exists f, io_step sfs f sfs' /\ forall b, b <> ino sin -> f b = disk_of sfs b).
Proof.
  intros Hinv Hu Hsem Hd Hclean. unfold sfs_fsync. rewrite (bind_ok _ _ _ (sfs, sin) (dirty sin)) by done.
  destruct (dirty sin) eqn:Edirty.
  - rewrite (bind_ok _ _ _ (sfs, set_sin_sem 0 sin) tt) by (unfold lock_sin; cbn; by rewrite Hsem).
    rewrite (bind_ok _ _ _ (sfs, set_sin_sem 0 sin) true) by (unfold gets; cbn; by rewrite Edirty). cbv iota.
    pose proof (din_bytes_length (din sin) ltac:(apply Hd)) as Hlen.
    set (x := set_dirty false (set_sin_sem 0 sin)).
    destruct (sfs_wbuf_spec sfs (din_bytes (din sin)) (ino sin) 0) as (s1 & Hw & Hio); [apply Hinv|apply Hu|done|rewrite Hlen; done|apply din_bytes_byte|].
    rewrite (bind_ok _ _ _ (s1, x) (inr tt)).
    2: { rewrite (bind_ok _ _ _ (sfs, x) tt) by done. rewrite (bind_ok _ _ _ (sfs, x) (sfs, x)) by done.
         apply attempt_eq, on_error_ok. cbn [snd]. change (din x) with (din sin). change (ino x) with (ino sin). by apply on_fs_ok. }
    rewrite (bind_ok _ _ _ (s1, set_sin_sem 1 x) tt) by done. exists s1. split; [unfold clean; cbn; by rewrite <- Hsem|].
    pose proof (io_fs_step _ _ _ Hinv Hio) as Hst. split.
    + unfold on_disk. destruct Hst as (_ & _ & Hdk & _). rewrite Hdk by (by eapply inuse_pos). rewrite upd_eq. change (Z.to_nat 0) with 0%nat.
      pose proof (bytes_at_inserts (disk_of sfs (ino sin)) 0 (din_bytes (din sin))) as Hbi. rewrite Hlen in Hbi. rewrite Hbi.
      * rewrite <- (app_nil_r (din_bytes (din sin))). by apply bytes_din_bytes.
      * rewrite inuse_disk_length by done. unfold SFS_BLKSIZE. lia.
    + eexists. split; [exact Hio|]. intros b Hb. by apply upd_ne.
  - exists sfs. split; [unfold clean; rewrite <- Edirty; by destruct sin|]. split; [by apply Hclean|].
    exists (disk_of sfs). split; [apply io_step_refl, Hinv|done].
Qed.

Definition unlinked sfs (a ino : Z) : sfs_fs D :=
  set_hash_list (<[sin_hashfn ino := filter (fun x => x <> a) (sfs_hash_list sfs ino)]> (hash_list sfs))
    (set_inode_list (filter (fun x => x <> a) (inode_list sfs)) sfs).

Lemma cache_ok_unlink w a sin :
  cache_ok w -> sin_of w a = Some sin -> cache_ok (mk_world (unlinked (w_fs w) a (ino sin)) (delete a (w_nodes w))).
Proof.
  intros (H1 & H2 & H3 & H4 & H5) Hs. set (w' := mk_world _ _).
  assert (Ha : sin_of w' a = None) by (unfold sin_of; cbn; by rewrite lookup_delete_eq).
  assert (Hb : forall b, b <> a -> sin_of w' b = sin_of w b) by (intros b Hne; unfold sin_of; cbn; by rewrite lookup_delete_ne).
  split; [|split; [|split; [|split]]].
  - cbn. by apply NoDup_filter.
  - intros b. cbn. rewrite list_elem_of_filter. destruct (decide (b = a)) as [->|Hne]; [rewrite Ha; split; [by intros []|by intros []]|].
    rewrite Hb by done. rewrite <- H2. tauto.
  - intros h b. cbn [w_fs w' unlinked hash_list set_hash_list set_inode_list]. destruct (decide (h = sin_hashfn (ino sin))) as [->|Hh].
    + rewrite lookup_insert_eq. cbn [default from_option id]. unfold sfs_hash_list. rewrite list_elem_of_filter, H3.
      destruct (decide (b = a)) as [->|Hne]; [|rewrite Hb by done; tauto]. rewrite Ha. split; [by intros []|by intros (? & ? & _)].
    + rewrite lookup_insert_ne by done. rewrite H3. destruct (decide (b = a)) as [->|Hne]; [|by rewrite Hb].
      rewrite Ha, Hs. split; [intros (? & [= <-] & E); by destruct Hh|by intros (? & ? & _)].
  - intros b c sb sc. destruct (decide (b = a)) as [->|Hne1]; [by rewrite Ha|]. destruct (decide (c = a)) as [->|Hne2]; [by rewrite Ha|].
    rewrite !Hb by done. apply H4.
  - intros b nb sb. cbn [w_nodes w']. destruct (decide (b = a)) as [->|Hne]; [by rewrite lookup_delete_eq|]. rewrite lookup_delete_ne by done. apply H5.
Qed.

Lemma vop_op_ok a has w n :
  w_nodes w !! a = Some n -> has (in_ops n) = true -> inode_check n = true -> vop_op a has w = Ok (w, inr n).
Proof.
  intros Hn H1 H2. unfold vop_op. rewrite (bind_ok _ _ _ _ _ (get_node_ok _ _ _ Hn)).
  rewrite (bind_ok _ _ _ w tt) by (by apply assert_true). by rewrite (bind_ok _ _ _ w tt) by (by apply assert_true).
Qed.

Lemma flush_spec w a n sin :
  w_nodes w !! a = Some n -> info n = sfs_info sin -> is_sfsops (in_ops n) = true -> inode_check n = true ->
  fs_inv (w_fs w) -> inuse (w_fs w) (ino sin) -> sem sin = 1 -> din_ok (din sin) -> (dirty sin = false -> on_disk (w_fs w) sin) ->
  exists sfs' x, reclaim_flush a w = Ok (mk_world (unlinked sfs' a (ino sin)) (<[a := set_info (sfs_info x) n]> (w_nodes w)), inr tt) /\
    din x = din sin /\ ino x = ino sin /\ on_disk sfs' sin /\
    (exists f, io_step (w_fs w) f sfs' /\ forall b, b <> ino sin -> f b = disk_of (w_fs w) b).
Proof.
  intros Hn Hi Hops Hcheck Hinv Hu Hs Hd Hclean. unfold reclaim_flush.
  assert (Hrm : forall sfs x, ino x = ino sin ->
     sfs_remove_links a (mk_world sfs (<[a := set_info (sfs_info x) n]> (w_nodes w))) =
     Ok (mk_world (unlinked sfs a (ino sin)) (<[a := set_info (sfs_info x) n]> (w_nodes w)), inr tt)).
  { intros sfs x <-. unfold sfs_remove_links. erewrite bind_ok; [|apply get_sin_ok; apply sin_of_node; eexists; cbn; rewrite lookup_insert_eq; done].
    by apply on_sfs_ok. }
  rewrite (bind_ok _ _ _ _ _ (get_sin_ok w a sin ltac:(apply sin_of_node; eauto))).
  destruct (dirty sin) eqn:Edirty.
  - destruct (fsync_spec (w_fs w) sin Hinv Hu Hs Hd ltac:(by rewrite Edirty)) as (s1 & Hsync & Hdisk & f & Hst & Hf).
    exists s1, (clean sin). split; [|split_and!; try done; by exists f].
    rewrite (bind_ok _ _ _ (mk_world s1 (<[a := set_info (sfs_info (clean sin)) n]> (w_nodes w))) tt); [by apply Hrm|].
    unfold vop_fsync. rewrite (bind_ok _ _ _ w n) by (by apply vop_op_ok). exact (with_sin_ok _ _ w _ _ _ _ _ Hn Hi Hsync).
  - exists (w_fs w), sin. split; [|split_and!; try done; [by apply Hclean|exists (disk_of (w_fs w)); by split; [apply io_step_refl, Hinv|]]].
    rewrite (bind_ok _ _ _ w tt) by done. specialize (Hrm (w_fs w) sin eq_refl).
    assert (Hsame : <[a := set_info (sfs_info sin) n]> (w_nodes w) = w_nodes w) by (apply insert_id; rewrite Hn; f_equal; destruct n; cbn in *; by rewrite Hi).
    rewrite Hsame in *. by destruct w.
Qed.

(** A file system of which only the disk and the buffer for whole blocks differ. *)
Definition moved (d : D) (buf : list Z) sfs : sfs_fs D := set_dev d (set_sfs_buffer buf sfs).

(** [sfs_reclaim] of an inode that nothing refers to and that still has a name. *)
Lemma reclaim_spec w a n sin :
  fs_inv (w_fs w) -> fs_sem (w_fs w) = 1 -> w_nodes w !! a = Some n -> info n = sfs_info sin -> ref_count n = 0 -> open_count n = 0 ->
  is_sfsops (in_ops n) = true -> reclaim_count sin = 1 -> sem sin = 1 -> d_nlinks (din sin) <> 0 -> din_ok (din sin) ->
  inuse (w_fs w) (ino sin) -> (dirty sin = false -> on_disk (w_fs w) sin) ->
  exists d buf, sfs_reclaim a w = Ok (mk_world (unlinked (moved d buf (w_fs w)) a (ino sin)) (delete a (w_nodes w)), inr tt) /\
    on_disk (moved d buf (w_fs w)) sin /\ fs_inv (moved d buf (w_fs w)) /\
    (forall b, 0 <= b -> b <> ino sin -> disk_of (moved d buf (w_fs w)) b = disk_of (w_fs w) b).
Proof.
  intros Hinv Hsem Hn Hi Hr Ho Hops Hrc Hs Hnl Hd Hu Hclean. unfold sfs_reclaim. rewrite (bind_ok _ _ _ _ _ (lock_fs_ok _ Hsem)).
  set (w0 := mk_world (set_fs_sem 0 (w_fs w)) (w_nodes w)). set (sin0 := set_reclaim 0 sin). set (n0 := set_info (sfs_info sin0) n).
  rewrite (bind_ok _ _ _ _ _ (get_sin_ok w0 a sin ltac:(apply sin_of_node; eauto))). rewrite Hrc.
  rewrite (bind_ok _ _ _ w0 tt) by done. set (w1 := mk_world (set_fs_sem 0 (w_fs w)) (<[a := n0]> (w_nodes w))).
  rewrite (bind_ok _ _ _ w1 tt) by (unfold put_sin; by rewrite (with_sin_ok a _ w0 n sin (w_fs w0) sin0 (inr tt) Hn Hi)).
  assert (Hn1 : w_nodes w1 !! a = Some n0) by (unfold w1; cbn; by rewrite lookup_insert_eq).
  destruct (flush_spec w1 a n0 sin0 Hn1 eq_refl Hops) as (s2 & x & Hrun & Ex1 & Ex2 & Hdisk & f & Hst & Hf); try done.
  { unfold inode_check, n0. cbn. by rewrite Hr, Ho. }
  assert (Hinv2 : fs_inv s2) by (by apply (io_fs_step (w_fs w1) f s2)). destruct Hst as (d & buf & -> & _ & Hd2). exists d, buf. split; [|split; [exact Hdisk|split; [exact Hinv2|]]].
  2: { intros b Hb Hne. transitivity (f b); [by apply Hd2|by apply Hf]. }
  assert (Hback : unlinked (moved d buf (w_fs w)) a (ino sin) = set_fs_sem 1 (unlinked (set_dev d (set_sfs_buffer buf (w_fs w1))) a (ino sin))) by (unfold moved, w1; cbn [w_fs]; destruct (w_fs w); cbn in Hsem |- *; by rewrite Hsem).
  rewrite Hback. clear Hback. set (s2 := set_dev d _) in *. assert (Efs : fs_sem s2 = 0) by done. clearbody s2.
  set (n2 := set_info (sfs_info x) n0) in *. set (w2 := mk_world (unlinked s2 a (ino sin)) (<[a := n2]> (w_nodes w))).
  rewrite (bind_ok _ _ _ w2 (inr tt)).
  2: { apply attempt_eq. rewrite (bind_ok _ _ _ _ _ (get_node_ok _ _ _ Hn1)). unfold n0 at 1. cbn [ref_count set_info]. rewrite Hr.
       change (negb (1 - 1 =? 0) || negb (0 =? 0)) with false. cbv iota.
       rewrite (proj2 (Z.eqb_neq _ _) Hnl). rewrite (bind_ok _ _ _ w1 tt) by done. rewrite Hrun. unfold w2, w1. cbn [w_nodes]. by rewrite insert_insert_eq. }
  rewrite (bind_ok _ _ _ _ _ (unlock_fs_ok w2 ltac:(cbn; by rewrite Efs))). set (w3 := mk_world _ _).
  assert (Hn3 : w_nodes w3 !! a = Some n2) by (unfold w3, w2; cbn; by rewrite lookup_insert_eq).
  rewrite (bind_ok _ _ _ _ _ (get_sin_ok w3 a x ltac:(apply sin_of_node; eexists; split; [exact Hn3|done]))).
  rewrite Ex1. change (din sin0) with (din sin). rewrite (proj2 (Z.eqb_neq _ _) Hnl). rewrite (bind_ok _ _ _ w3 tt) by done.
  unfold inode_kill. rewrite (bind_ok _ _ _ _ _ (get_node_ok _ _ _ Hn3)).
  rewrite (bind_ok _ _ _ w3 tt) by (apply assert_true; cbn; by rewrite Hr). rewrite (bind_ok _ _ _ w3 tt) by (apply assert_true; cbn; by rewrite Ho).
  unfold modify, w3, w2. cbn [w_fs w_nodes]. by rewrite delete_insert_eq.
Qed.

(** Giving up the last reference to an inode of a file that still has a name. *)
Lemma ref_dec_last w a n sin :
  fs_inv (w_fs w) -> fs_sem (w_fs w) = 1 ->
  w_nodes w !! a = Some n -> info n = sfs_info sin -> ref_count n = 1 -> open_count n = 0 -> is_sfsops (in_ops n) = true ->
  reclaim_count sin = 1 -> sem sin = 1 -> d_nlinks (din sin) <> 0 -> din_ok (din sin) -> inuse (w_fs w) (ino sin) ->
  (dirty sin = false -> on_disk (w_fs w) sin) ->
  exists d buf, inode_ref_dec a w = Ok (mk_world (unlinked (moved d buf (w_fs w)) a (ino sin)) (delete a (w_nodes w)), inr 0) /\
    on_disk (moved d buf (w_fs w)) sin /\ fs_inv (moved d buf (w_fs w)) /\
    (forall b, 0 <= b -> b <> ino sin -> disk_of (moved d buf (w_fs w)) b = disk_of (w_fs w) b).
Proof.
  intros Hinv Hsem Hn Hi Hr Ho Hops Hrc Hs Hnl Hd Hu Hclean.
  set (n0 := set_ref 0 n). set (w0 := mk_world (w_fs w) (<[a := n0]> (w_nodes w))).
  assert (Hn0 : w_nodes w0 !! a = Some n0) by (unfold w0; cbn; by rewrite lookup_insert_eq).
  destruct (reclaim_spec w0 a n0 sin) as (d & buf & Hrun & Hrest); try done.
  assert (Hdel : delete a (w_nodes w0) = delete a (w_nodes w)) by (unfold w0; cbn; apply delete_insert_eq). rewrite Hdel in Hrun.
  exists d, buf. split; [|exact Hrest]. unfold inode_ref_dec. rewrite (bind_ok _ _ _ _ _ (get_node_ok _ _ _ Hn)). rewrite Hr. rewrite (bind_ok _ _ _ w tt) by done.
  rewrite (bind_ok _ _ _ w0 tt) by done. change (1 - 1 =? 0) with true. cbv iota. unfold vop_reclaim.
  erewrite bind_ok; [reflexivity|]. erewrite bind_ok; [reflexivity|]. apply attempt_eq.
  rewrite (bind_ok _ _ _ w0 n0); [exact Hrun|]. apply vop_op_ok; [done|done|]. unfold inode_check, n0. cbn. by rewrite Ho.
Qed.

(** C37. Giving up the last reference to an inode of a file that still has a name: the
    inode leaves the memory, the list and the hash chain of its number, and the cache
    stays well formed; what the disk then holds for it is the inode as it was in memory,
    so that loading it again gives the same file.  Of the rest of the file system only the
    disk and the buffer for whole blocks may differ, and of the disk only the inode's own
    block: no block is freed - the free map and the superblock are as they were -, no
    other inode and no lock changes. *)
Theorem inode_ref_dec_writes_back w a n sin :
  fs_inv (w_fs w) -> cache_ok w -> fs_sem (w_fs w) = 1 ->
  w_nodes w !! a = Some n -> info n = sfs_info sin -> ref_count n = 1 -> open_count n = 0 -> is_sfsops (in_ops n) = true ->
  reclaim_count sin = 1 -> sem sin = 1 -> d_nlinks (din sin) <> 0 -> din_ok (din sin) -> inuse (w_fs w) (ino sin) ->
  (dirty sin = false -> on_disk (w_fs w) sin) ->
  exists w', inode_ref_dec a w = Ok (w', inr 0) /\ w_nodes w' = delete a (w_nodes w) /\ cache_ok w' /\
    fs_inv (w_fs w') /\ on_disk (w_fs w') sin /\
    (forall b, 0 <= b -> b <> ino sin -> disk_of (w_fs w') b = disk_of (w_fs w) b) /\
    (forall b, is_free (w_fs w') b = is_free (w_fs w) b) /\ super (w_fs w') = super (w_fs w) /\
    exists d buf, w_fs w' = unlinked (moved d buf (w_fs w)) a (ino sin).
Proof.
  intros Hinv Hc Hsem Hn Hi Hr Ho Hops Hrc Hs Hnl Hd Hu Hclean.
  destruct (ref_dec_last w a n sin) as (d & buf & Hrun & Hdisk & Hinv2 & Hother); try done.
  eexists. split; [exact Hrun|]. split; [done|]. split; [|split; [exact Hinv2|split; [exact Hdisk|split; [exact Hother|split; [done|split; [done|by exists d, buf]]]]]].
  pose proof (cache_ok_unlink w a sin Hc ltac:(apply sin_of_node; eauto)) as Hcu. by apply (cache_ok_fs _ (unlinked (moved d buf (w_fs w)) a (ino sin))) in Hcu.
Qed.

End Node.
