(* ===== verification/SfsMount.v ===== *)
(** Mounting, syncing and unmounting a file system: lab8/kern/fs/sfs/sfs_fs.c. *)
From S2P Require Import Prelude CString Layout StateM Iobuf Bitmap Disk0 SfsIo SfsBmap SfsFile SfsTrunc SfsDir SfsNode.

Section Mount.
Context {D : Type} `{!Device D}.
#[local] Notation W := (world D).
Implicit Types (sfs : sfs_fs D) (w : W).

(** * Sync and unmount *)

(** Every inode in memory is written back; what that returns is ignored. *)
Fixpoint sync_inodes (l : list Z) : M W unit :=
  match l with
  | [] => mret tt
  | a :: l' => _ ← attempt (vop_fsync a); sync_inodes l'
  end.

Definition sfs_sync : M W unit :=
  _ ← lock_fs;
  l ← gets (fun w : W => inode_list (w_fs w));
  _ ← sync_inodes l;
  _ ← unlock_fs;
  d ← gets (fun w : W => super_dirty (w_fs w));
  if (d : bool) then
    _ ← on_sfs (modify (set_super_dirty false));
    _ ← on_error (on_sfs sfs_sync_super) (on_sfs (modify (set_super_dirty true)));
    on_error (on_sfs sfs_sync_freemap) (on_sfs (modify (set_super_dirty true)))
  else mret tt.

Definition sfs_get_root : M W Z := fun w =>
  '(w, r) ← sfs_load_inode SFS_BLKN_ROOT w;
  match r with inl _ => Panic | inr a => Ok (w, inr a) end.

Definition sfs_unmount : M W unit :=
  l ← gets (fun w : W => inode_list (w_fs w));
  match l with
  | _ :: _ => fail E_BUSY
  | [] => assert (fun w : W => negb (super_dirty (w_fs w)))
  end.

(** [for (i = 0; i < 32; i ++)] until one sync succeeds. *)
Fixpoint cleanup_loop (n : nat) : M W unit :=
  match n with
  | O => mret tt
  | S n' => r ← attempt sfs_sync; match r with inr _ => mret tt | inl _ => cleanup_loop n' end
  end.

Definition sfs_cleanup : M W unit := cleanup_loop 32.

(** * Mount

    The state is the device and the outcomes of the coming allocations. *)
#[local] Notation MS := (D * list bool)%type.

Definition mount_kmalloc : M MS bool := fun s =>
  match snd s with [] => Ok (s, inr true) | ok :: k => Ok ((fst s, k), inr ok) end.

(** One block read to the place [pos] of the buffer. *)
Definition sfs_init_read (blkno : Z) (buf : list Z) (pos : Z) : M MS (list Z) := fun s =>
  let iob := iobuf_init buf pos SFS_BLKSIZE (u32 (blkno * SFS_BLKSIZE)) in
  '(d, iob, ret) ← dop_io (fst s) iob false;
  Ok ((d, snd s), if ret =? 0 then inr (io_mem iob) else inl (- ret)).

Fixpoint init_freemap_loop (blkno : Z) (nblks : nat) (data : list Z) (pos : Z) : M MS (list Z) :=
  match nblks with
  | O => mret data
  | S n => data ← sfs_init_read blkno data pos; init_freemap_loop (u32 (blkno + 1)) n data (pos + SFS_BLKSIZE)
  end.

Definition sfs_init_freemap (freemap : bitmap) (blkno nblks : Z) : M MS bitmap :=
  let '(data, len) := bitmap_getdata freemap in
  _ ← assert (fun _ : MS => len =? u32 (nblks * SFS_BLKSIZE));
  data ← init_freemap_loop blkno (Z.to_nat nblks) data 0;
  mret (mk_bitmap (nbits freemap) (nwords freemap) (words (Z.to_nat (nwords freemap)) data)).

(** The number of free blocks, counted bit by bit. *)
Fixpoint count_unused (freemap : bitmap) (i : Z) (n : nat) (unused_blocks : Z) : res Z :=
  match n with
  | O => Ok unused_blocks
  | S n' => b ← bitmap_test freemap i; count_unused freemap (i + 1) n' (if (b : bool) then u32 (unused_blocks + 1) else unused_blocks)
  end.

(** [junk] is what the allocated buffer holds before it is read into. *)
Definition sfs_do_mount (junk : list Z) : M MS (sfs_fs D) :=
  dev0 ← gets (fun s : MS => fst s);
  if negb (d_blocksize dev0 =? SFS_BLKSIZE) then fail E_NA_DEV
  else
    ok ← mount_kmalloc;
    if negb ok then fail E_NO_MEM
    else
      ok ← mount_kmalloc;
      if negb ok then fail E_NO_MEM
      else
        buf ← sfs_init_read SFS_BLKN_SUPER junk 0;
        let super := bytes_super buf in
        if negb (s_magic super =? SFS_MAGIC) then fail E_INVAL
        else if d_nblocks dev0 <? s_blocks super then fail E_INVAL
        else
          let buf := <[Z.to_nat (12 + SFS_MAX_INFO_LEN) := 0]> buf in
          let super := bytes_super buf in
          ok ← mount_kmalloc;
          if negb ok then fail E_NO_MEM
          else
            ok1 ← mount_kmalloc;
            ok2 ← (if (ok1 : bool) then mount_kmalloc else mret false);
            freemap ← lift (bitmap_create ok1 ok2 (sfs_freemap_bits super));
            match freemap with
            | None => fail E_NO_MEM
            | Some freemap =>
                freemap ← sfs_init_freemap freemap SFS_BLKN_FREEMAP (sfs_freemap_blocks super);
                unused ← lift (count_unused freemap 0 (Z.to_nat (sfs_freemap_bits super)) 0);
                _ ← assert (fun _ : MS => unused =? unused_blocks super);
                s ← gets (fun s : MS => s);
                mret (mk_sfs super (fst s) freemap false buf 1 1 1 [] ∅ (snd s))
            end.

(** * What is on the disk after a sync is what a mount finds *)
Context `{!DeviceLaws D}.

(** [n] blocks from [b] on hold the bytes of [data]. *)
Definition upds (f : Z -> list Z) (b n : Z) (data : list Z) (pos : Z) : Z -> list Z :=
  fun x => if decide (b <= x < b + n) then bytes_at data (Z.to_nat (pos + (x - b) * SFS_BLKSIZE)) (Z.to_nat SFS_BLKSIZE) else f x.

Lemma rwblock_loop_write n sfs data pos b :
  io_ready sfs -> 0 < b -> b + Z.of_nat n <= s_blocks (super sfs) -> Forall is_byte data -> 0 <= pos ->
  pos + Z.of_nat n * SFS_BLKSIZE <= Z.of_nat (length data) ->
  exists d, rwblock_loop sfs data pos b n true = Ok (set_dev d sfs, data, 0) /\
    dev_ok d /\ d_nblocks d = d_nblocks (dev sfs) /\
    forall x, 0 <= x -> block d x = upds (disk_of sfs) b (Z.of_nat n) data pos x.
Proof.
  assert (SFS_BLKSIZE = 4096) as HB by done.
  revert sfs pos b. induction n as [|n IH]; intros sfs pos b Hr Hb Hn Hby Hp Hl; cbn [rwblock_loop].
  - exists (dev sfs). split; [by destruct sfs|]. split; [apply Hr|]. split; [done|]. intros x Hx. unfold upds. by rewrite decide_False by lia.
  - pose proof Hr as (R1 & R2 & R3 & R4).
    destruct (rwblock_write sfs data pos b true) as (d1 & -> & Hd1 & Hn1 & Hbl1); try done; [lia|lia|lia|]. cbn [mbind res_bind Z.eqb negb].
    rewrite u32_small by lia.
    assert (Hr1 : io_ready (set_dev d1 sfs)) by (unfold io_ready; cbn; by rewrite Hn1).
    destruct (IH (set_dev d1 sfs) (pos + SFS_BLKSIZE) (b + 1) Hr1) as (d2 & -> & Hd2 & Hn2 & Hbl2); [lia|cbn; lia|done|lia|lia|].
    exists d2. split; [done|]. split; [done|]. split; [by rewrite Hn2|]. intros x Hx. rewrite Hbl2 by done. unfold upds.
    destruct (decide (x = b)) as [->|Hne].
    + rewrite decide_False, decide_True by lia. unfold disk_of. cbn [dev set_dev]. rewrite Hbl1 by done. rewrite upd_eq. do 2 f_equal. lia.
    + destruct (decide (b + 1 <= x < b + 1 + Z.of_nat n)).
      * rewrite decide_True by lia. do 2 f_equal. lia.
      * rewrite decide_False by lia. unfold disk_of. cbn [dev set_dev]. rewrite Hbl1 by done. by apply upd_ne.
Qed.

Lemma sync_freemap_spec sfs data :
  io_ok sfs -> data = fst (bitmap_getdata (freemap sfs)) -> Forall is_byte data ->
  let n := sfs_freemap_blocks (super sfs) in
  0 <= n -> 2 + n <= s_blocks (super sfs) -> n * SFS_BLKSIZE <= Z.of_nat (length data) ->
  exists sfs', sfs_sync_freemap sfs = Ok (sfs', inr tt) /\ io_step sfs (upds (disk_of sfs) 2 n data 0) sfs'.
Proof.
  intros [Hr Hs] -> Hby n Hn Hle Hl. unfold sfs_sync_freemap, sfs_wblock, sfs_rwblock. rewrite lock_io by done. cbn [mbind res_bind].
  fold n. destruct (rwblock_loop_write (Z.to_nat n) (set_io_sem 0 sfs) (fst (bitmap_getdata (freemap sfs))) 0 SFS_BLKN_FREEMAP) as (d & -> & Hd & Hnb & Hbl);
    [done|done|change (super (set_io_sem 0 sfs)) with (super sfs); unfold SFS_BLKN_FREEMAP; lia|done|lia|lia|].
  cbn [mbind res_bind Z.eqb]. eexists. split; [done|]. exists d, (sfs_buffer sfs).
  split; [unfold unlock_sfs_io, set_io_sem, set_sfs_buffer, set_dev, unlock; cbn; by rewrite Hs|]. pose proof Hr as (R1 & R2 & R3 & R4).
  split; [split; [by apply (io_ready_set sfs d (sfs_buffer sfs))|done]|]. intros b Hb. rewrite Hbl by done. rewrite Z2Nat.id by done. done.
Qed.

Definition super_block (s : sfs_super) : list Z := list_inserts 0 (super_bytes s) zero_block.

Lemma super_bytes_length s : length (s_info s) = 32%nat -> length (super_bytes s) = 44%nat.
Proof. intros H. unfold super_bytes. rewrite !length_app, !le_bytes_length, H. done. Qed.

Lemma sync_super_spec sfs :
  io_ok sfs -> 0 < s_blocks (super sfs) -> length (s_info (super sfs)) = 32%nat -> Forall is_byte (s_info (super sfs)) ->
  exists sfs', sfs_sync_super sfs = Ok (sfs', inr tt) /\ io_step sfs (upd (disk_of sfs) 0 (super_block (super sfs))) sfs'.
Proof.
  intros [Hr Hs] Hb Hi Hib. unfold sfs_sync_super. rewrite lock_io by done. cbn [mbind res_bind sfs_buffer set_io_sem].
  pose proof Hr as (H1 & H2 & H3 & H4). rewrite put_bytes_ok by (rewrite ?length_replicate, ?H2; lia). cbn [mbind res_bind]. change (Z.to_nat 0) with 0%nat.
  rewrite inserts_whole by (by rewrite length_replicate). change (replicate (Z.to_nat SFS_BLKSIZE) 0) with zero_block.
  assert (Hz : length zero_block = Z.to_nat SFS_BLKSIZE) by apply length_replicate.
  change (super (set_io_sem 0 sfs)) with (super sfs).
  rewrite put_bytes_ok by (rewrite ?(super_bytes_length _ Hi), ?Hz; unfold SFS_BLKSIZE; lia). cbn [mbind res_bind]. change (Z.to_nat 0) with 0%nat. fold (super_block (super sfs)).
  assert (Hbl : length (super_block (super sfs)) = Z.to_nat SFS_BLKSIZE) by (unfold super_block; by rewrite length_inserts).
  assert (Hbb : Forall is_byte (super_block (super sfs))).
  { apply Forall_inserts; [apply Forall_replicate; unfold is_byte; lia|]. unfold super_bytes. rewrite !Forall_app. split_and!; (apply le_bytes_byte || done). }
  destruct (rw_buffer_write (set_sfs_buffer (super_block (super sfs)) (set_io_sem 0 sfs)) 0 false) as (d & Hw & Hd & Hn & Hdk).
  { by apply (io_ready_set sfs (dev sfs)). }
  { cbn; lia. }
  { done. }
  unfold SFS_BLKN_SUPER. rewrite Hw. cbn [mbind res_bind Z.eqb]. eexists. split; [done|]. exists d, (super_block (super sfs)).
  split; [unfold unlock_sfs_io, set_io_sem, set_sfs_buffer, set_dev, unlock; cbn; by rewrite Hs|].
  split; [split; [by apply (io_ready_set sfs d)|done]|exact Hdk].
Qed.

(** ** Reading it all back *)

Lemma init_read_spec d b buf pos :
  dev_ok d -> 0 <= b < d_nblocks d -> d_nblocks d <= 2 ^ 20 -> 0 <= pos -> pos + SFS_BLKSIZE <= Z.of_nat (length buf) ->
  exists d', sfs_init_read b buf pos (d, []) = Ok ((d', []), inr (list_inserts (Z.to_nat pos) (block d b) buf)) /\
    dev_ok d' /\ d_nblocks d' = d_nblocks d /\ forall x, block d' x = block d x.
Proof.
  intros Hd Hb Hn Hp Hl. unfold sfs_init_read. destruct (rwblock_iob_ok buf pos b) as [Hio Hu]; [done|done|lia|].
  destruct (dev_read d b (iobuf_init buf pos SFS_BLKSIZE (u32 (b * SFS_BLKSIZE)))) as (d' & Hr & H1 & H2 & H3); try done.
  exists d'. cbn [fst]. rewrite Hr. done.
Qed.

(** The loop fills in the target [t], block after block. *)
Lemma init_freemap_spec t n d b data pos :
  dev_ok d -> 0 <= b -> b + Z.of_nat n <= d_nblocks d -> d_nblocks d <= 2 ^ 20 ->
  0 <= pos -> pos + Z.of_nat n * SFS_BLKSIZE = Z.of_nat (length data) -> length t = length data -> take (Z.to_nat pos) data = take (Z.to_nat pos) t ->
  (forall k, 0 <= k < Z.of_nat n -> block d (b + k) = bytes_at t (Z.to_nat (pos + k * SFS_BLKSIZE)) (Z.to_nat SFS_BLKSIZE)) ->
  exists d', init_freemap_loop b n data pos (d, []) = Ok ((d', []), inr t) /\
    dev_ok d' /\ d_nblocks d' = d_nblocks d /\ forall x, block d' x = block d x.
Proof.
  assert (SFS_BLKSIZE = 4096) as HB by done.
  revert d b data pos. induction n as [|n IH]; intros d b data pos Hd Hb Hn Hnb Hp Hl Ht Htake Hblk; cbn [init_freemap_loop].
  - exists d. split; [|done]. rewrite !take_ge in Htake by lia. by rewrite Htake.
  - destruct (init_read_spec d b data pos Hd) as (d1 & Hr & Hd1 & Hn1 & Hbl1); [lia|done|lia|lia|].
    rewrite (bind_ok _ _ _ _ _ Hr). rewrite u32_small by lia.
    assert (Hb0 : block d b = bytes_at t (Z.to_nat pos) (Z.to_nat SFS_BLKSIZE)) by (specialize (Hblk 0 ltac:(lia)); rewrite !Z.add_0_r in Hblk; exact Hblk).
    assert (Hlb : length (block d b) = Z.to_nat SFS_BLKSIZE) by (apply block_length; [done|lia]).
    destruct (IH d1 (b + 1) (list_inserts (Z.to_nat pos) (block d b) data) (pos + SFS_BLKSIZE) Hd1) as (d2 & Hrun & Hd2 & Hn2 & Hbl2).
    + lia.
    + rewrite Hn1. lia.
    + by rewrite Hn1.
    + lia.
    + rewrite length_inserts. lia.
    + by rewrite length_inserts.
    + rewrite inserts_as_app by lia. rewrite Hlb. rewrite Z2Nat.inj_add by lia.
      rewrite app_assoc, take_app_le by (rewrite length_app, length_take; lia). rewrite take_ge by (rewrite length_app, length_take; lia).
      rewrite Htake, Hb0. unfold bytes_at. symmetry. rewrite <- (take_drop (Z.to_nat pos) t) at 1.
      rewrite take_app_ge by (rewrite length_take; lia). f_equal. f_equal. rewrite length_take. lia.
    + intros k Hk. rewrite Hbl1. specialize (Hblk (k + 1) ltac:(lia)). replace (b + 1 + k) with (b + (k + 1)) by lia. rewrite Hblk. do 2 f_equal. lia.
    + exists d2. split; [done|]. split; [done|]. split; [by rewrite Hn2|]. intros x. by rewrite Hbl2.
Qed.

Lemma count_unused_spec m i n u :
  bitmap_wf m -> 0 <= i -> i + Z.of_nat n <= nbits m -> 0 <= u -> u + Z.of_nat n < 2 ^ 32 ->
  count_unused m i n u = Ok (u + Z.of_nat (length (filter (fun j => bit m j = true) (seqZ i (Z.of_nat n))))).
Proof.
  intros Hm. revert i u. induction n as [|n IH]; intros i u Hi Hn Hu Hb; cbn [count_unused].
  - cbn. by rewrite Z.add_0_r.
  - rewrite bitmap_test_spec by (done || lia). cbn [mbind res_bind]. rewrite Nat2Z.inj_succ, seqZ_cons by lia. rewrite Z.pred_succ, filter_cons. change (Z.succ i) with (i + 1).
    destruct (bit m i) eqn:E.
    + rewrite u32_small by lia. rewrite IH by lia. rewrite decide_True by done. f_equal. cbn [length]. lia.
    + rewrite IH by lia. rewrite decide_False by done. done.
Qed.

Lemma bytes_super_bytes s rest :
  word32 (s_magic s) -> word32 (s_blocks s) -> word32 (unused_blocks s) -> length (s_info s) = 32%nat -> bytes_super (super_bytes s ++ rest) = s.
Proof.
  intros H1 H2 H3 H4. destruct s as [m b u i]; cbn in *. unfold bytes_super, super_bytes; cbn. rewrite <- !app_assoc. f_equal.
  - by apply (word_at_field []).
  - by apply (word_at_field (le_bytes 4 m)).
  - rewrite (app_assoc (le_bytes 4 m)). by apply (word_at_field (le_bytes 4 m ++ le_bytes 4 b)).
  - rewrite (app_assoc (le_bytes 4 b)), (app_assoc (le_bytes 4 m)). by apply bytes_at_field.
Qed.

(** What [mksfs] and the operations above keep: a superblock with the magic number
    and a terminated name, and a free map of whole blocks behind it. *)
Definition mount_ok sfs : Prop :=
  fs_inv sfs /\ s_magic (super sfs) = SFS_MAGIC /\ length (s_info (super sfs)) = 32%nat /\ Forall is_byte (s_info (super sfs)) /\
  s_info (super sfs) !! 31%nat = Some 0 /\ word32 (unused_blocks (super sfs)) /\
  nbits (freemap sfs) = sfs_freemap_bits (super sfs) /\ nwords (freemap sfs) * 32 = sfs_freemap_bits (super sfs) /\
  0 < s_blocks (super sfs) /\ 2 + sfs_freemap_blocks (super sfs) <= s_blocks (super sfs).

Lemma freemap_size s : 0 < s_blocks s <= 2 ^ 20 ->
  0 < sfs_freemap_blocks s <= 2 ^ 5 /\ sfs_freemap_bits s = sfs_freemap_blocks s * 32768.
Proof.
  intros Hb. unfold sfs_freemap_blocks, sfs_freemap_bits, SFS_BLKBITS, SFS_BLKSIZE. change (4096 * 8) with 32768.
  rewrite u64_small by lia. pose proof (Z.div_mod (s_blocks s + 32768 - 1) 32768 ltac:(lia)) as Hd. pose proof (Z.mod_pos_bound (s_blocks s + 32768 - 1) 32768 ltac:(lia)) as Hm.
  assert (1 <= (s_blocks s + 32768 - 1) / 32768 <= 32).
  { split; [apply Z.div_le_lower_bound; lia|]. apply Z.lt_succ_r, Z.div_lt_upper_bound; lia. }
  cbv zeta. rewrite !u32_small by lia. lia.
Qed.

Lemma words_bytes_byte ws : Forall is_byte (words_bytes ws).
Proof.
  induction ws as [|x ws IH]; [constructor|]. change (words_bytes (x :: ws)) with (le_bytes 4 x ++ words_bytes ws).
  apply Forall_app. split; [apply le_bytes_byte|done].
Qed.

(** The blocks of the superblock and the free map, as a mount wants them. *)
Definition synced (f : Z -> list Z) (s : sfs_super) (m : bitmap) : Prop :=
  f 0 = super_block s /\
  forall k, 0 <= k < sfs_freemap_blocks s -> f (2 + k) = bytes_at (words_bytes (bm_map m)) (Z.to_nat (k * SFS_BLKSIZE)) (Z.to_nat SFS_BLKSIZE).

Lemma sync_spec w :
  mount_ok (w_fs w) -> inode_list (w_fs w) = [] -> fs_sem (w_fs w) = 1 -> super_dirty (w_fs w) = true ->
  exists sfs', sfs_sync w = Ok (mk_world sfs' (w_nodes w), inr tt) /\ super_dirty sfs' = false /\
    super sfs' = super (w_fs w) /\ freemap sfs' = freemap (w_fs w) /\ mount_ok sfs' /\
    synced (disk_of sfs') (super (w_fs w)) (freemap (w_fs w)) /\
    (forall b, 0 < b -> b = 1 \/ 2 + sfs_freemap_blocks (super (w_fs w)) <= b -> disk_of sfs' b = disk_of (w_fs w) b).
Proof.
  intros (Hinv & Hmag & Hil & Hib & Hit & Hun & Hnb & Hnw & Hb & Hble) Hl Hsem Hdirty. destruct w as [sfs nodes]. cbn [w_fs w_nodes] in *.
  pose proof Hinv as [Hio (Hwf & _)]. pose proof Hwf as (_ & _ & _ & Hmap & _). pose proof Hio as [(_ & _ & _ & Hnbk) _].
  destruct (freemap_size (super sfs) ltac:(lia)) as [Hfb Hbits].
  set (s0 := set_super_dirty false sfs). assert (Hio0 : io_ok s0) by exact Hio.
  destruct (sync_super_spec s0 Hio0 Hb Hil Hib) as (s1 & Hrun1 & Hst1). pose proof Hst1 as (d1 & b1 & E1 & Hio1 & Hd1).
  assert (Hdata : Z.of_nat (length (words_bytes (bm_map (freemap sfs)))) = sfs_freemap_blocks (super sfs) * SFS_BLKSIZE).
  { rewrite words_bytes_length, Hmap. unfold SFS_BLKSIZE. lia. }
  destruct (sync_freemap_spec s1 (words_bytes (bm_map (freemap sfs))) Hio1) as (s2 & Hrun2 & Hst2);
    [by rewrite E1|apply words_bytes_byte|rewrite E1; cbn [super set_dev set_sfs_buffer s0 set_super_dirty]; lia..|].
  assert (Es1 : super s1 = super sfs) by (by rewrite E1). rewrite Es1 in Hst2. pose proof Hst2 as (d2 & b2 & E2 & Hio2 & Hd2).
  assert (Hdisk : forall b, 0 <= b -> disk_of s2 b = upds (upd (disk_of sfs) 0 (super_block (super sfs))) 2 (sfs_freemap_blocks (super sfs)) (words_bytes (bm_map (freemap sfs))) 0 b).
  { intros b Hb0. rewrite (io_step_disk _ _ _ b Hst2 Hb0). unfold upds. case_decide; [done|]. by rewrite (io_step_disk _ _ _ b Hst1 Hb0). }
  exists s2. split; [|split; [by rewrite E2, E1|split; [by rewrite E2, E1|split; [by rewrite E2, E1|split; [|split]]]]].
  - unfold sfs_sync. rewrite (bind_ok _ _ _ _ _ (lock_fs_ok (mk_world sfs nodes) Hsem)). set (w1 := mk_world (set_fs_sem 0 sfs) nodes).
    rewrite (bind_ok _ _ _ w1 []) by (unfold gets; cbn; by rewrite Hl). rewrite (bind_ok _ _ _ w1 tt) by done.
    rewrite (bind_ok _ _ _ _ _ (unlock_fs_ok w1 eq_refl)). cbn [w_fs w_nodes w1]. rewrite set_fs_sem_same by done.
    rewrite (bind_ok _ _ _ (mk_world sfs nodes) true) by (unfold gets; cbn; by rewrite Hdirty). cbv iota.
    rewrite (bind_ok _ _ _ (mk_world s0 nodes) tt) by done.
    rewrite (bind_ok _ _ _ (mk_world s1 nodes) tt) by (apply on_error_ok; by rewrite (on_sfs_ok _ (mk_world s0 nodes) _ _ Hrun1)).
    apply on_error_ok. by rewrite (on_sfs_ok _ (mk_world s1 nodes) _ _ Hrun2).
  - assert (Es : super s2 = super sfs /\ freemap s2 = freemap sfs) by (by rewrite E2, E1). destruct Es as [Es Ef].
    unfold mount_ok. rewrite Es, Ef. split; [|done]. split; [exact Hio2|]. unfold freemap_ok, is_free. rewrite Es, Ef. apply Hinv.
  - split.
    + rewrite Hdisk by lia. unfold upds. rewrite decide_False by lia. apply upd_eq.
    + intros k Hk. rewrite Hdisk by lia. unfold upds. rewrite decide_True by lia. do 2 f_equal. lia.
  - intros b Hb0 Hor. rewrite Hdisk by lia. unfold upds. rewrite decide_False by lia. apply upd_ne. lia.
Qed.

(** [bitmap_create] for a free map of whole blocks. *)
Lemma create_freemap n : 0 < n <= 2 ^ 5 ->
  bitmap_create true true (n * 32768) = Ok (Some (mk_bitmap (n * 32768) (n * 1024) (replicate (Z.to_nat (n * 1024)) (2 ^ 32 - 1)))).
Proof.
  intros Hn. unfold bitmap_create, WORD_BITS. rewrite (u64_small (n * 32768 + 32)) by lia.
  rewrite (proj2 (Z.eqb_neq (n * 32768) 0)), (proj2 (Z.ltb_lt (n * 32768) (n * 32768 + 32))) by lia. cbn [negb andb c_assert mbind res_bind].
  rewrite (u64_small (n * 32768 + 32 - 1)) by lia. replace ((n * 32768 + 32 - 1) / 32) with (n * 1024).
  2: { apply (Z.div_unique_pos _ 32 _ 31); lia. }
  rewrite (u32_small (n * 1024)) by lia. rewrite (u64_small (n * 1024 * 32)) by lia. by rewrite (proj2 (Z.eqb_eq (n * 32768) (n * 1024 * 32))) by lia.
Qed.

Lemma mount_spec junk d s m :
  dev_ok d -> d_nblocks d <= 2 ^ 20 -> length junk = Z.to_nat SFS_BLKSIZE -> Forall is_byte junk ->
  s_magic s = SFS_MAGIC -> length (s_info s) = 32%nat -> s_info s !! 31%nat = Some 0 -> word32 (unused_blocks s) -> Forall is_byte (s_info s) ->
  0 < s_blocks s <= d_nblocks d -> 2 + sfs_freemap_blocks s <= s_blocks s ->
  bitmap_wf m -> nbits m = sfs_freemap_bits s -> nwords m * 32 = sfs_freemap_bits s -> unused_blocks s = Z.of_nat (free_bits m) ->
  synced (block d) s m ->
  exists d' buf, sfs_do_mount junk (d, []) = Ok ((d', []), inr (mk_sfs s d' m false buf 1 1 1 [] ∅ [])) /\
    dev_ok d' /\ d_nblocks d' = d_nblocks d /\ (forall b, block d' b = block d b) /\ length buf = Z.to_nat SFS_BLKSIZE /\ Forall is_byte buf.
Proof.
  intros Hd Hnd Hj Hjb Hmag Hil Hit Hun Hib Hb Hble Hwf Hnb Hnw Hfree [Hsup Hmapb].
  assert (SFS_BLKSIZE = 4096) as HB by done. destruct (freemap_size s ltac:(lia)) as [Hfb Hbits]. pose proof Hwf as (_ & _ & _ & Hmap & Hw32 & _).
  assert (Hnw' : nwords m = sfs_freemap_blocks s * 1024) by lia.
  destruct (init_read_spec d 0 junk 0 Hd) as (d1 & Hr1 & Hd1 & Hn1 & Hbl1); [lia|done|lia|lia|].
  assert (Hbuf : list_inserts (Z.to_nat 0) (block d 0) junk = super_block s).
  { change (Z.to_nat 0) with 0%nat. rewrite Hsup. apply inserts_whole. unfold super_block. by rewrite length_inserts, Hj; apply length_replicate. }
  rewrite Hbuf in Hr1.
  assert (Hsplit : super_block s = super_bytes s ++ drop 44 zero_block).
  { unfold super_block. rewrite inserts_as_app by (rewrite super_bytes_length by done; unfold zero_block; rewrite length_replicate; lia).
    rewrite super_bytes_length by done. done. }
  assert (Hid : <[Z.to_nat (12 + SFS_MAX_INFO_LEN) := 0]> (super_block s) = super_block s).
  { apply list_insert_id. change (Z.to_nat (12 + SFS_MAX_INFO_LEN)) with 43%nat. rewrite Hsplit.
    rewrite lookup_app_l by (rewrite super_bytes_length by done; lia). unfold super_bytes. rewrite !app_assoc. rewrite lookup_app_r; rewrite !length_app, !le_bytes_length; [exact Hit|lia]. }
  assert (Hsb : bytes_super (super_block s) = s).
  { rewrite Hsplit. apply bytes_super_bytes; [rewrite Hmag; unfold word32, SFS_MAGIC; lia|unfold word32; lia|done|done]. }
  destruct (init_freemap_spec (words_bytes (bm_map m)) (Z.to_nat (sfs_freemap_blocks s)) d1 2 (words_bytes (replicate (Z.to_nat (nwords m)) (2 ^ 32 - 1))) 0)
    as (d2 & Hr2 & Hd2 & Hn2 & Hbl2).
  { done. } { lia. } { rewrite Hn1. lia. } { by rewrite Hn1. } { lia. }
  { rewrite words_bytes_length, length_replicate. lia. }
  { by rewrite !words_bytes_length, length_replicate, Hmap. }
  { done. }
  { intros k Hk. rewrite Hbl1, Hmapb by lia. done. }
  exists d2, (super_block s). split; [|split; [done|split; [by rewrite Hn2|split; [intros b; by rewrite Hbl2|]]]].
  - unfold sfs_do_mount. rewrite (bind_ok _ _ _ (d, []) d) by done. rewrite (dev_blocksize d Hd), Z.eqb_refl. cbn [negb].
    assert (Hk : forall e : D, mount_kmalloc (e, []) = Ok ((e, []), inr true)) by done.
    do 2 (rewrite (bind_ok _ _ _ _ _ (Hk d)); cbn [negb]). unfold SFS_BLKN_SUPER. rewrite (bind_ok _ _ _ _ _ Hr1). cbv zeta. rewrite Hid, Hsb.
    rewrite (proj2 (Z.eqb_eq _ _) Hmag), (proj2 (Z.ltb_ge _ (s_blocks s))) by lia. cbn [negb].
    do 3 (rewrite (bind_ok _ _ _ _ _ (Hk d1)); cbn [negb]).
    rewrite (bind_ok _ _ _ (d1, []) (Some (mk_bitmap (nbits m) (nwords m) (replicate (Z.to_nat (nwords m)) (2 ^ 32 - 1))))).
    2: { unfold lift. rewrite Hbits, create_freemap by done. by rewrite Hnb, Hbits, Hnw'. }
    rewrite (bind_ok _ _ _ (d2, []) m).
    2: { unfold sfs_init_freemap, bitmap_getdata. cbn [nwords bm_map nbits]. rewrite (bind_ok _ _ _ (d1, []) tt).
         2: { apply assert_true, Z.eqb_eq. rewrite u64_small, u32_small by lia. lia. }
         unfold SFS_BLKN_FREEMAP. rewrite (bind_ok _ _ _ _ _ Hr2). unfold mret, M_ret. do 3 f_equal.
         destruct m as [nb nw ws]; cbn [nbits nwords bm_map] in *. f_equal. rewrite <- Hmap, <- (app_nil_r (words_bytes ws)). apply words_words_bytes.
         eapply Forall_impl; [exact Hw32|]. done. }
    rewrite (bind_ok _ _ _ (d2, []) (unused_blocks s)).
    2: { unfold lift. rewrite count_unused_spec by (done || lia). cbn [mbind res_bind]. do 3 f_equal. rewrite Hfree. unfold free_bits.
         rewrite Z2Nat.id by lia. rewrite Hnb. lia. }
    rewrite (bind_ok _ _ _ (d2, []) tt) by (apply assert_true, Z.eqb_refl). by rewrite (bind_ok _ _ _ (d2, []) (d2, [])).
  - split; [unfold super_block; rewrite length_inserts; apply length_replicate|].
    apply Forall_inserts; [apply Forall_replicate; unfold is_byte; lia|]. unfold super_bytes. rewrite !Forall_app. split_and!; (apply le_bytes_byte || done).
Qed.

(** C21. What a sync leaves on the disk is what the next mount finds: when no inode is
    in memory, [sfs_sync] writes the superblock and the free map and leaves the rest
    of the disk as it was, and [sfs_do_mount] on that disk then succeeds - every
    check it makes holds - with the same superblock, the same free map, every block
    of the files as before, and a state that is well formed. *)
Theorem sfs_sync_then_mount w junk :
  mount_ok (w_fs w) -> inode_list (w_fs w) = [] -> fs_sem (w_fs w) = 1 -> super_dirty (w_fs w) = true ->
  length junk = Z.to_nat SFS_BLKSIZE -> Forall is_byte junk ->
  exists sfs', sfs_sync w = Ok (mk_world sfs' (w_nodes w), inr tt) /\
  exists d' sfs2, sfs_do_mount junk (dev sfs', []) = Ok ((d', []), inr sfs2) /\
    super sfs2 = super (w_fs w) /\ freemap sfs2 = freemap (w_fs w) /\ mount_ok sfs2 /\
    (forall b, 0 < b -> b = 1 \/ 2 + sfs_freemap_blocks (super (w_fs w)) <= b -> disk_of sfs2 b = disk_of (w_fs w) b).
Proof.
  intros Hok Hl Hsem Hdirty Hj Hjb. destruct (sync_spec w Hok Hl Hsem Hdirty) as (s1 & Hrun & _ & Es & Ef & Hok1 & Hsync & Hother).
  exists s1. split; [exact Hrun|]. rewrite <- Es, <- Ef in *. pose proof Hok1 as (Hinv1 & Hmag & Hil & Hib & Hit & Hun & Hnb & Hnw & Hb & Hble).
  pose proof Hinv1 as [Hio1 (Hwf & Hnbits & Hreal & Hcount)]. pose proof Hio1 as [(Hd1 & _ & _ & Hnd) _].
  destruct (mount_spec junk (dev s1) (super s1) (freemap s1)) as (d2 & buf & Hmount & Hd2 & Hn2 & Hbl2 & Hlb & Hbb); try done; [lia..|].
  exists d2, (mk_sfs (super s1) d2 (freemap s1) false buf 1 1 1 [] ∅ []). split; [exact Hmount|]. split; [done|]. split; [done|]. split.
  - split; [|done]. split; [|done]. split; [|done]. split; [done|]. split; [done|]. split; [done|]. cbn [super dev]. by rewrite Hn2.
  - intros b Hb0 Hor. rewrite <- Hother by done. exact (Hbl2 b).
Qed.

End Mount.
