(* ===== verification/Vfs.v ===== *)
(** The virtual file system: devices (lab8/kern/fs/devs), the table of named devices
    (vfs/vfsdev.c), path lookup (vfs/vfslookup.c, vfs/vfspath.c, vfs/vfs.c) and
    opening and closing (vfs/vfsfile.c).

    [kernel] adds to [world] what these files keep in global variables, and the
    [files_struct] of the running process.  A path is a buffer of bytes with a
    terminator in it: looking a path up writes into it. *)
From S2P Require Import Prelude CString Layout StateM Iobuf Bitmap Disk0 SfsIo SfsBmap SfsFile SfsTrunc SfsDir SfsNode SfsMount.

(** vfs_dev_t; [vd_fs] is whether a file system is mounted on it. *)
Record vfs_dev := mk_vdev {
  devname : list Z;
  devnode : option Z;
  vd_fs : bool;
  mountable : bool;
}.

(** struct file *)
Inductive fd_status := FD_NONE | FD_INIT | FD_OPENED | FD_CLOSED.

#[export] Instance fd_status_eq_dec : EqDecision fd_status.
Proof. solve_decision. Defined.

Record file := mk_file {
  status : fd_status;
  readable : bool;
  writable : bool;
  fd : Z;
  pos : Z;
  node : option Z;
  fopen_count : Z;
}.

(** struct files_struct *)
Record files_struct := mk_files {
  pwd : option Z;
  fd_array : list file;
  files_count : Z;
  files_sem : Z;
}.

Record kernel (D : Type) := mk_kernel {
  k_world : world D;
  vdev_list : list vfs_dev;
  vdev_list_sem : Z;
  bootfs_node : option Z;
  bootfs_sem : Z;
  filesp : files_struct;
  (* the keyboard buffer with its two positions, and what was written to the console *)
  stdin_buffer : list Z;
  p_rpos : Z;
  p_wpos : Z;
  console : list Z;
}.
Arguments mk_kernel {_} _ _ _ _ _ _ _ _ _ _.
Arguments k_world {_} _.
Arguments vdev_list {_} _.
Arguments vdev_list_sem {_} _.
Arguments bootfs_node {_} _.
Arguments bootfs_sem {_} _.
Arguments filesp {_} _.
Arguments stdin_buffer {_} _.
Arguments p_rpos {_} _.
Arguments p_wpos {_} _.
Arguments console {_} _.

Section Fields.
Context {D : Type}.
Implicit Types k : kernel D.

Definition set_world (w : world D) k : kernel D :=
  mk_kernel w (vdev_list k) (vdev_list_sem k) (bootfs_node k) (bootfs_sem k) (filesp k) (stdin_buffer k) (p_rpos k) (p_wpos k) (console k).
Definition set_vdevs (l : list vfs_dev) k : kernel D :=
  mk_kernel (k_world k) l (vdev_list_sem k) (bootfs_node k) (bootfs_sem k) (filesp k) (stdin_buffer k) (p_rpos k) (p_wpos k) (console k).
Definition set_vdev_sem (v : Z) k : kernel D :=
  mk_kernel (k_world k) (vdev_list k) v (bootfs_node k) (bootfs_sem k) (filesp k) (stdin_buffer k) (p_rpos k) (p_wpos k) (console k).
Definition set_bootfs (n : option Z) k : kernel D :=
  mk_kernel (k_world k) (vdev_list k) (vdev_list_sem k) n (bootfs_sem k) (filesp k) (stdin_buffer k) (p_rpos k) (p_wpos k) (console k).
Definition set_bootfs_sem (v : Z) k : kernel D :=
  mk_kernel (k_world k) (vdev_list k) (vdev_list_sem k) (bootfs_node k) v (filesp k) (stdin_buffer k) (p_rpos k) (p_wpos k) (console k).
Definition set_filesp (f : files_struct) k : kernel D :=
  mk_kernel (k_world k) (vdev_list k) (vdev_list_sem k) (bootfs_node k) (bootfs_sem k) f (stdin_buffer k) (p_rpos k) (p_wpos k) (console k).
Definition set_stdin (b : list Z) (r w : Z) k : kernel D :=
  mk_kernel (k_world k) (vdev_list k) (vdev_list_sem k) (bootfs_node k) (bootfs_sem k) (filesp k) b r w (console k).
Definition set_console (c : list Z) k : kernel D :=
  mk_kernel (k_world k) (vdev_list k) (vdev_list_sem k) (bootfs_node k) (bootfs_sem k) (filesp k) (stdin_buffer k) (p_rpos k) (p_wpos k) c.
End Fields.

Definition set_pwd (p : option Z) (f : files_struct) : files_struct := mk_files p (fd_array f) (files_count f) (files_sem f).
Definition set_fds (l : list file) (f : files_struct) : files_struct := mk_files (pwd f) l (files_count f) (files_sem f).
Definition set_files_sem (v : Z) (f : files_struct) : files_struct := mk_files (pwd f) (fd_array f) (files_count f) v.

(** libs/unistd.h *)
Definition O_RDONLY : Z := 0.
Definition O_WRONLY : Z := 1.
Definition O_RDWR : Z := 2.
Definition O_CREAT : Z := 4.
Definition O_EXCL : Z := 8.
Definition O_TRUNC : Z := 16.
Definition FS_MAX_DNAME_LEN : Z := 31.

Definition flag (open_flags f : Z) : bool := negb (Z.land open_flags f =? 0).

Section Vfs.
Context {D : Type} `{!Device D}.
#[local] Notation W := (world D).
#[local] Notation K := (kernel D).
Implicit Types k : K.

Definition on_world {A} (m : M W A) : M K A := zoom k_world set_world m.

(** * Devices (dev.c, dev_stdin.c, dev_stdout.c) *)
Definition STDIN_BUFSIZE : Z := 4096.

(** A character from the keyboard, without the wake-up of a waiting reader. *)
Definition dev_stdin_write (c : Z) k : res K :=
  if negb (c =? 0) then
    buf ← put_bytes (stdin_buffer k) (Z.rem (p_wpos k) STDIN_BUFSIZE) [c];
    Ok (set_stdin buf (p_rpos k) (if p_wpos k - p_rpos k <? STDIN_BUFSIZE then p_wpos k + 1 else p_wpos k) k)
  else Ok k.

(** The bytes read.  With nothing in the buffer the reader sleeps until a key is
    pressed, which no step of this model does. *)
Fixpoint dev_stdin_read (len : nat) : M K (list Z) :=
  match len with
  | O => mret []
  | S n => fun k =>
      if p_rpos k <? p_wpos k then
        c ← get_bytes (stdin_buffer k) (Z.rem (p_rpos k) STDIN_BUFSIZE) 1;
        '(k, r) ← dev_stdin_read n (set_stdin (stdin_buffer k) (p_rpos k + 1) (p_wpos k) k);
        Ok (k, match r with inl e => inl e | inr l => inr (c ++ l) end)
      else Diverge
  end.

Definition set_resid (iob : iobuf) (v : Z) : iobuf := mk_iobuf (io_mem iob) (io_base iob) (io_offset iob) (io_len iob) v.

Definition dop_open (d : device) (open_flags : Z) : Z :=
  match d with
  | stdin => if negb (open_flags =? O_RDONLY) then - E_INVAL else 0
  | stdout => if negb (open_flags =? O_WRONLY) then - E_INVAL else 0
  | disk0_dev => 0
  end.

Definition dop_close (d : device) : Z := 0.

Definition dop_ioctl (d : device) (op : Z) : Z := match d with stdin | stdout => - E_INVAL | disk0_dev => - E_UNIMP end.

Definition d_blocks_of (d : device) k : Z := match d with stdin | stdout => 0 | disk0_dev => d_nblocks (dev (w_fs (k_world k))) end.
Definition d_blocksize_of (d : device) k : Z := match d with stdin | stdout => 1 | disk0_dev => d_blocksize (dev (w_fs (k_world k))) end.

Definition stdin_io (iob : iobuf) (write : bool) : M K (iobuf * Z) :=
  if negb write then
    l ← dev_stdin_read (Z.to_nat (io_resid iob));
    mem ← lift (put_bytes (io_mem iob) (io_base iob) l);
    let ret := Z.of_nat (length l) in
    let iob := set_mem iob mem in
    mret (if 0 <? ret then set_resid iob (io_resid iob - ret) else iob, ret)
  else mret (iob, - E_INVAL).

Definition stdout_io (iob : iobuf) (write : bool) : M K (iobuf * Z) :=
  if write then
    l ← lift (get_bytes (io_mem iob) (io_base iob) (io_resid iob));
    _ ← modify (fun k : K => set_console (console k ++ l) k);
    mret (set_resid iob 0, 0)
  else mret (iob, - E_INVAL).

(** [dop_io] on an inode's device; the disk is the one under the mounted file system. *)
Definition dev_io (d : device) (iob : iobuf) (write : bool) : M K (iobuf * Z) :=
  match d with
  | stdin => stdin_io iob write
  | stdout => stdout_io iob write
  | disk0_dev => fun k =>
      let w := k_world k in
      '(d, iob, ret) ← dop_io (dev (w_fs w)) iob write;
      Ok (set_world (mk_world (set_dev d (w_fs w)) (w_nodes w)) k, inr (iob, ret))
  end.

Definition dev_open (d : device) (open_flags : Z) : Z :=
  if flag open_flags (Z.lor (Z.lor O_CREAT O_TRUNC) (Z.lor O_EXCL O_APPEND)) then - E_INVAL else dop_open d open_flags.

Definition dev_read (d : device) (iob : iobuf) : M K (iobuf * Z) := dev_io d iob false.
Definition dev_write (d : device) (iob : iobuf) : M K (iobuf * Z) := dev_io d iob true.
Definition dev_ioctl (d : device) (op : Z) : Z := dop_ioctl d op.

Definition S_IFCHR : Z := 0x4000.
Definition S_IFBLK : Z := 0x5000.

Definition dev_gettype (d : device) k : Z := if 0 <? d_blocks_of d k then S_IFBLK else S_IFCHR.

Definition dev_fstat (d : device) k : stat :=
  mk_stat (dev_gettype d k) 1 (d_blocks_of d k) (u64 (d_blocks_of d k * d_blocksize_of d k)).

(** [pos] is signed, the size is not: a negative position is compared as a large one. *)
Definition dev_tryseek (d : device) (pos : Z) k : Z :=
  if (0 <? d_blocks_of d k) && (u64 pos mod d_blocksize_of d k =? 0) && ((0 <=? pos) && (u64 pos <? u64 (d_blocks_of d k * d_blocksize_of d k)))
  then 0 else - E_INVAL.

(** * Operations through the table of an inode *)
Definition ret_code (r : Z) : M K unit := if r =? 0 then mret tt else fail (- r).

Definition get_dev (a : Z) : M K device :=
  n ← on_world (get_node a); match info n with device_info d => mret d | sfs_info _ => m_panic end.

Definition is_any (o : inode_ops) : bool := true.

(** [dev] on a device inode, [sfs] on one of the file system. *)
Definition dispatch {A} (a : Z) (has : inode_ops -> bool) (on_dev : device -> M K A) (on_file : M K A) : M K A :=
  n ← on_world (vop_op a has);
  if is_devops (in_ops n) then d ← get_dev a; on_dev d else on_file.

Definition vop_open (a open_flags : Z) : M K unit :=
  n ← on_world (vop_op a is_any);
  if is_devops (in_ops n) then d ← get_dev a; ret_code (dev_open d open_flags)
  else if is_dirops (in_ops n) then on_world (with_sin a (sfs_opendir open_flags))
  else on_world (with_sin a (sfs_openfile open_flags)).

Definition vop_close (a : Z) : M K unit :=
  dispatch a is_any (fun d => ret_code (dop_close d)) (on_world (vop_fsync a)).

Definition not_dir (o : inode_ops) : bool := negb (is_dirops o).

Definition sfs_rw (a : Z) (iob : iobuf) (write : bool) : M K (iobuf * Z) :=
  on_world (with_sin a (fun s => '(s, iob, ret) ← sfs_io iob write s; Ok (s, inr (iob, ret)))).

Definition vop_read (a : Z) (iob : iobuf) : M K (iobuf * Z) :=
  dispatch a not_dir (fun d => dev_read d iob) (sfs_rw a iob false).

Definition vop_write (a : Z) (iob : iobuf) : M K (iobuf * Z) :=
  dispatch a not_dir (fun d => dev_write d iob) (sfs_rw a iob true).

Definition vop_gettype (a : Z) : M K Z :=
  dispatch a is_any (fun d => gets (fun k : K => dev_gettype d k)) (on_world (with_sin a sfs_gettype)).

Definition vop_fstat (a : Z) : M K stat :=
  dispatch a is_any (fun d => gets (fun k : K => dev_fstat d k)) (on_world (with_sin a sfs_fstat)).

Definition vop_tryseek (a pos : Z) : M K unit :=
  dispatch a not_dir (fun d => k ← gets (fun k : K => k); ret_code (dev_tryseek d pos k)) (on_world (with_sin a (sfs_tryseek pos))).

Definition is_dir (o : inode_ops) : bool := is_dirops o.

Definition vop_getdirentry (a : Z) (iob : iobuf) : M K (iobuf * Z) :=
  _ ← on_world (vop_op a is_dir);
  on_world (with_sin a (fun s => '(s, iob, ret) ← sfs_getdirentry iob s; Ok (s, inr (iob, ret)))).

Definition vop_namefile (a : Z) (iob : iobuf) : M K iobuf := _ ← on_world (vop_op a is_dir); on_world (sfs_namefile a iob).

Definition not_file (o : inode_ops) : bool := negb (is_fileops o).

Definition vop_lookup (a : Z) (path : list Z) : M K Z :=
  dispatch a not_file
    (fun _ => match path with [] => _ ← on_world (inode_ref_inc a); mret a | _ => fail E_NOENT end)
    (on_world (sfs_lookup a path)).

(** No table has [vop_create]. *)
Definition vop_create (a : Z) : M K Z := _ ← on_world (vop_op a (fun _ => false)); m_panic.

(** inode.c: the last close is passed on; what it returns is only printed. *)
Definition inode_open_dec (a : Z) : M K Z :=
  n ← on_world (get_node a);
  _ ← assert (fun _ : K => 0 <? open_count n);
  _ ← on_world (set_node a (set_open (open_count n - 1) n));
  _ ← (if open_count n - 1 =? 0 then _ ← attempt (vop_close a); mret tt else mret tt);
  mret (open_count n - 1).

(** * Named devices (vfsdev.c) *)
Definition lock_vdev_list : M K unit := fun k => v ← lock (vdev_list_sem k); Ok (set_vdev_sem v k, inr tt).
Definition unlock_vdev_list : M K unit := modify (fun k => set_vdev_sem (unlock (vdev_list_sem k)) k).

(** [strcmp] on two strings; both are laid out with their terminators. *)
Definition str_eq (s t : list Z) : res bool := names_equal s (t ++ [0]).

Fixpoint find_vdev (p : vfs_dev -> bool) (name : list Z) (l : list vfs_dev) : res (option vfs_dev) :=
  match l with
  | [] => Ok None
  | v :: l' => if p v then eq ← str_eq name (devname v); if (eq : bool) then Ok (Some v) else find_vdev p name l' else find_vdev p name l'
  end.

Definition vfs_get_root (name : list Z) : M K Z :=
  l ← gets (fun k : K => vdev_list k);
  match l with
  | [] => fail E_NO_DEV
  | _ =>
      _ ← lock_vdev_list;
      v ← lift (find_vdev (fun _ => true) name l);
      r ← attempt (
        match v with
        | None => fail E_NO_DEV
        | Some v =>
            if vd_fs v then on_world sfs_get_root
            else if negb (mountable v) then
              match devnode v with Some a => _ ← on_world (inode_ref_inc a); mret a | None => lift Fault end
            else fail E_NA_DEV
        end);
      _ ← unlock_vdev_list;
      match r with inl e => fail e | inr a => mret a end
  end.

(** The name under which the file system is mounted, for an inode that has one. *)
Definition vfs_get_devname : M K (list Z) :=
  l ← gets (fun k : K => vdev_list k);
  match list_find (fun v => vd_fs v = true) l with Some (_, v) => mret (devname v) | None => lift Fault end.

(** Is the name free? *)
Definition check_devname_conflict (name : list Z) (l : list vfs_dev) : res bool :=
  v ← find_vdev (fun _ => true) name l; Ok (match v with None => true | Some _ => false end).

Definition k_malloc : M K bool := on_world (on_sfs (kmalloc (D := D))).

Definition vfs_do_add (name : list Z) (devnode : option Z) (fs mountable : bool) : M K unit :=
  dev ← (match devnode with
         | None => mret true
         | Some a => n ← on_world (get_node a); mret (match info n with device_info _ => true | sfs_info _ => false end)
         end);
  _ ← assert (fun _ : K => (bool_decide (devnode = None) && negb mountable) || (bool_decide (devnode <> None) && dev));
  if FS_MAX_DNAME_LEN <? Z.of_nat (length name) then fail E_TOO_BIG
  else
    ok ← k_malloc;
    if negb ok then fail E_NO_MEM
    else
      ok ← k_malloc;
      if negb ok then fail E_NO_MEM
      else
        _ ← lock_vdev_list;
        l ← gets (fun k : K => vdev_list k);
        free ← lift (check_devname_conflict name l);
        if negb free then _ ← unlock_vdev_list; fail E_EXISTS
        else
          _ ← modify (set_vdevs (mk_vdev name devnode fs mountable :: l));
          unlock_vdev_list.

Definition vfs_add_fs (name : list Z) (fs : bool) : M K unit := vfs_do_add name None fs false.
Definition vfs_add_dev (name : list Z) (devnode : Z) (mountable : bool) : M K unit := vfs_do_add name (Some devnode) false mountable.

Definition find_mount (name : list Z) : M K vfs_dev :=
  l ← gets (fun k : K => vdev_list k);
  v ← lift (find_vdev mountable name l);
  match v with Some v => mret v | None => fail E_NO_DEV end.

(** [vdev->fs] of the device with this name. *)
Definition set_mounted (name : list Z) (b : bool) (l : list vfs_dev) : list vfs_dev :=
  (fun v => if bool_decide (devname v = name) then mk_vdev (devname v) (devnode v) b (mountable v) else v) <$> l.

(** [sfs_do_mount] on the disk, whose state becomes that of the mounted system. *)
Definition run_mount (junk : list Z) : M K unit := fun k =>
  let w := k_world k in
  '((d, km), r) ← sfs_do_mount junk (dev (w_fs w), kmem (w_fs w));
  match r with
  | inl e => Ok (set_world (mk_world (set_kmem km (set_dev d (w_fs w))) (w_nodes w)) k, inl e)
  | inr sfs => Ok (set_world (mk_world sfs (w_nodes w)) k, inr tt)
  end.

Definition vfs_mount (name : list Z) (mountfunc : M K unit) : M K unit :=
  _ ← lock_vdev_list;
  r ← attempt (
    v ← find_mount name;
    if vd_fs v then fail E_BUSY
    else
      _ ← assert (fun _ : K => mountable v);
      _ ← (match devnode v with Some a => get_dev a | None => lift Fault end);
      _ ← mountfunc;
      modify (fun k => set_vdevs (set_mounted name true (vdev_list k)) k));
  _ ← unlock_vdev_list;
  match r with inl e => fail e | inr _ => mret tt end.

Definition sfs_mount (junk name : list Z) : M K unit := vfs_mount name (run_mount junk).

Definition vfs_unmount (name : list Z) : M K unit :=
  _ ← lock_vdev_list;
  r ← attempt (
    v ← find_mount name;
    if negb (vd_fs v) then fail E_INVAL
    else
      _ ← assert (fun _ : K => mountable v);
      _ ← on_world sfs_sync;
      _ ← on_world sfs_unmount;
      modify (fun k => set_vdevs (set_mounted name false (vdev_list k)) k));
  _ ← unlock_vdev_list;
  match r with inl e => fail e | inr _ => mret tt end.

(** [fsop_sync] and [fsop_unmount] of every mounted device; what fails is skipped. *)
Fixpoint unmount_loop (l : list vfs_dev) : M K unit :=
  match l with
  | [] => mret tt
  | v :: l' =>
      _ ← (if mountable v && vd_fs v then
             r ← attempt (_ ← on_world sfs_sync; on_world sfs_unmount);
             match r with
             | inl _ => mret tt
             | inr _ => modify (fun k => set_vdevs (set_mounted (devname v) false (vdev_list k)) k)
             end
           else mret tt);
      unmount_loop l'
  end.

Definition vfs_unmount_all : M K unit :=
  l ← gets (fun k : K => vdev_list k);
  match l with
  | [] => mret tt
  | _ => _ ← lock_vdev_list; _ ← unmount_loop l; unlock_vdev_list
  end.

Fixpoint vfs_cleanup_loop (l : list vfs_dev) : M K unit :=
  match l with
  | [] => mret tt
  | v :: l' => _ ← (if vd_fs v then on_world sfs_cleanup else mret tt); vfs_cleanup_loop l'
  end.

Definition vfs_cleanup : M K unit :=
  l ← gets (fun k : K => vdev_list k);
  match l with
  | [] => mret tt
  | _ => _ ← lock_vdev_list; _ ← vfs_cleanup_loop l; unlock_vdev_list
  end.

(** * The current directory (vfspath.c) *)
Definition lock_cfs : M K unit := fun k => v ← lock (files_sem (filesp k)); Ok (set_filesp (set_files_sem v (filesp k)) k, inr tt).
Definition unlock_cfs : M K unit := modify (fun k => set_filesp (set_files_sem (unlock (files_sem (filesp k))) (filesp k)) k).

Definition get_cwd_nolock : M K (option Z) := gets (fun k : K => pwd (filesp k)).
Definition set_cwd_nolock (p : option Z) : M K unit := modify (fun k => set_filesp (set_pwd p (filesp k)) k).

Definition vfs_get_curdir : M K Z :=
  p ← get_cwd_nolock;
  match p with Some a => _ ← on_world (inode_ref_inc a); mret a | None => fail E_NOENT end.

Definition S_IFMT : Z := 0x7000.

Definition vfs_set_curdir (dir : option Z) : M K unit :=
  _ ← lock_cfs;
  old ← get_cwd_nolock;
  r ← attempt (
    if bool_decide (old = dir) then mret tt
    else
      _ ← (match dir with
           | Some a =>
               type ← vop_gettype a;
               if negb (Z.land type S_IFMT =? S_IFDIR) then fail E_NOTDIR
               else _ ← on_world (inode_ref_inc a); mret tt
           | None => mret tt
           end);
      _ ← set_cwd_nolock dir;
      match old with Some a => _ ← on_world (inode_ref_dec a); mret tt | None => mret tt end);
  _ ← unlock_cfs;
  match r with inl e => fail e | inr _ => mret tt end.

(** * Looking a path up (vfslookup.c) *)
Definition lock_bootfs : M K unit := fun k => v ← lock (bootfs_sem k); Ok (set_bootfs_sem v k, inr tt).
Definition unlock_bootfs : M K unit := modify (fun k => set_bootfs_sem (unlock (bootfs_sem k)) k).

Definition vfs_get_bootfs : M K Z :=
  b ← gets (fun k : K => bootfs_node k);
  match b with
  | None => fail E_NOENT
  | Some a => _ ← lock_bootfs; _ ← on_world (inode_ref_inc a); _ ← unlock_bootfs; mret a
  end.

Definition change_bootfs (n : option Z) : M K unit :=
  _ ← lock_bootfs;
  old ← gets (fun k : K => bootfs_node k);
  _ ← modify (set_bootfs n);
  _ ← unlock_bootfs;
  match old with Some a => _ ← on_world (inode_ref_dec a); mret tt | None => mret tt end.

(** [path[i]] *)
Definition char_at (path : list Z) (i : nat) : res Z := match path !! i with Some c => Ok c | None => Fault end.

(** The first [':'] or ['/'] of the path: [colon] and [slash], -1 when there is none. *)
Fixpoint scan_path (path : list Z) (i : nat) (n : nat) : res (Z * Z) :=
  match n with
  | O => Fault
  | S n' =>
      c ← char_at path i;
      if c =? 0 then Ok (-1, -1)
      else if c =? 58 then Ok (Z.of_nat i, -1)
      else if c =? 47 then Ok (-1, Z.of_nat i)
      else scan_path path (S i) n'
  end.

(** [while (path[++ i] == '/');]: the next place that is no slash. *)
Fixpoint skip_slashes (path : list Z) (i : nat) (n : nat) : res nat :=
  match n with
  | O => Fault
  | S n' => c ← char_at path (S i); if c =? 47 then skip_slashes path (S i) n' else Ok (S i)
  end.

(** The buffer afterwards, where the rest of the path starts in it, and the inode to
    start from. *)
Definition get_device (path : list Z) : M K (list Z * nat * Z) :=
  '(colon, slash) ← lift (scan_path path 0 (length path));
  if (colon <? 0) && negb (slash =? 0) then
    a ← vfs_get_curdir; mret (path, 0%nat, a)
  else if 0 <? colon then
    let i := Z.to_nat colon in
    let path := <[i := 0]> path in
    i ← lift (skip_slashes path i (length path));
    a ← vfs_get_root (c_string path);
    mret (path, i, a)
  else
    c ← lift (char_at path 0);
    a ← (if c =? 47 then vfs_get_bootfs
         else
           _ ← assert (fun _ : K => c =? 58);
           a ← vfs_get_curdir;
           n ← on_world (get_node a);
           _ ← assert (fun _ : K => in_fs n);
           root ← on_world sfs_get_root;
           _ ← on_world (inode_ref_dec a);
           mret root);
    i ← lift (skip_slashes path 0 (length path));
    mret (path, i, a).

(** The path buffer afterwards, and the inode. *)
Definition vfs_lookup (path : list Z) : K -> res (K * list Z * (Z + Z)) := fun k =>
  '(k, r) ← get_device path k;
  match r with
  | inl e => Ok (k, path, inl e)
  | inr (path, i, a) =>
      let sub := c_string (drop i path) in
      match sub with
      | _ :: _ =>
          '(k, r) ← vop_lookup a sub k;
          '(k, _) ← on_world (inode_ref_dec a) k;
          Ok (k, path, r)
      | [] => Ok (k, path, inr a)
      end
  end.

Definition lookup_path (path : list Z) : M K (list Z * (Z + Z)) := fun k => '(k, path, r) ← vfs_lookup path k; Ok (k, inr (path, r)).

Definition vfs_lookup_parent (path : list Z) : M K Z := '(_, _, a) ← get_device path; mret a.

Definition vfs_chdir (path : list Z) : M K unit :=
  '(_, r) ← lookup_path path;
  match r with
  | inl e => fail e
  | inr a =>
      r ← attempt (vfs_set_curdir (Some a));
      _ ← on_world (inode_ref_dec a);
      match r with inl e => fail e | inr _ => mret tt end
  end.

(** [fsname] must be a device name and a colon. *)
Definition vfs_set_bootfs (fsname : option (list Z)) : M K unit :=
  n ← (match fsname with
       | None => mret None
       | Some s =>
           match list_find (fun c => c = 58) (c_string s) with
           | Some (i, _) =>
               c ← lift (char_at s (S i));
               if c =? 0 then _ ← vfs_chdir s; a ← vfs_get_curdir; mret (Some a) else fail E_INVAL
           | None => fail E_INVAL
           end
       end);
  change_bootfs n.

Definition move_out (iob : iobuf) (data : list Z) : M K iobuf :=
  '(iob, _, _, ret) ← lift (iobuf_move iob data (Z.of_nat (length data)) true);
  _ ← ret_code ret; mret iob.

Definition vfs_getcwd (iob : iobuf) : M K iobuf :=
  a ← vfs_get_curdir;
  n ← on_world (get_node a);
  _ ← assert (fun _ : K => in_fs n);
  r ← attempt (
    name ← vfs_get_devname;
    iob ← move_out iob name;
    iob ← move_out iob [58];
    vop_namefile a iob);
  _ ← on_world (inode_ref_dec a);
  match r with inl e => fail e | inr iob => mret iob end.

(** * Opening and closing (vfsfile.c) *)
Definition vfs_close (a : Z) : M K unit :=
  _ ← inode_open_dec a; _ ← on_world (inode_ref_dec a); mret tt.

Definition vfs_open (path : list Z) (open_flags : Z) : M K Z :=
  let acc := Z.land open_flags O_ACCMODE in
  if negb ((acc =? O_RDONLY) || (acc =? O_WRONLY) || (acc =? O_RDWR)) then fail E_INVAL
  else
    let can_write := negb (acc =? O_RDONLY) in
    if flag open_flags O_TRUNC && negb can_write then fail E_INVAL
    else
      let excl := flag open_flags O_EXCL in
      let create := flag open_flags O_CREAT in
      '(path, r) ← lookup_path path;
      a ← (match r with
           | inl e =>
               if (e =? 16) && create then dir ← vfs_lookup_parent path; vop_create dir
               else fail e
           | inr a => if excl && create then fail E_EXISTS else mret a
           end);
      _ ← on_error (vop_open a open_flags) (_ ← on_world (inode_ref_dec a); mret tt);
      _ ← on_world (inode_open_inc a);
      _ ← (if flag open_flags O_TRUNC || create then
             on_error (on_world (vop_truncate_node a 0)) (_ ← inode_open_dec a; _ ← on_world (inode_ref_dec a); mret tt)
           else mret tt);
      mret a.

(** Not implemented. *)
Definition vfs_unlink (path : list Z) : M K unit := fail E_UNIMP.
Definition vfs_rename (old_path new_path : list Z) : M K unit := fail E_UNIMP.
Definition vfs_link (old_path new_path : list Z) : M K unit := fail E_UNIMP.
Definition vfs_symlink (old_path new_path : list Z) : M K unit := fail E_UNIMP.
Definition vfs_readlink (path : list Z) (iob : iobuf) : M K iobuf := fail E_UNIMP.
Definition vfs_mkdir (path : list Z) : M K unit := fail E_UNIMP.

(** * Starting up *)
Definition vfs_devlist_init : M K unit := modify (fun k => set_vdev_sem 1 (set_vdevs [] k)).

Definition vfs_init : M K unit := _ ← modify (set_bootfs_sem 1); vfs_devlist_init.

Definition dev_create_inode (d : device) : M K (option Z) :=
  on_world (
    a ← alloc_inode;
    match a with
    | Some a => _ ← inode_init a (device_info d) dev_node_ops false; mret (Some a)
    | None => mret None
    end).

(** [node], [init] and the entry in the table; every failure stops the kernel. *)
Definition dev_init_as (d : device) (name : list Z) (mountable : bool) (init : M K unit) : M K unit :=
  node ← dev_create_inode d;
  match node with
  | None => m_panic
  | Some a =>
      _ ← init;
      r ← attempt (vfs_add_dev name a mountable);
      match r with inl _ => m_panic | inr _ => mret tt end
  end.

Definition stdin_name : list Z := [115; 116; 100; 105; 110].
Definition stdout_name : list Z := [115; 116; 100; 111; 117; 116].
Definition disk0_name : list Z := [100; 105; 115; 107; 48].

Definition dev_init_stdin : M K unit := dev_init_as stdin stdin_name false (modify (fun k => set_stdin (stdin_buffer k) 0 0 k)).
Definition dev_init_stdout : M K unit := dev_init_as stdout stdout_name false (mret tt).

Definition sfs_init (junk : list Z) : M K unit :=
  r ← attempt (sfs_mount junk disk0_name);
  match r with inl _ => m_panic | inr _ => mret tt end.

Definition fs_cleanup : M K unit := vfs_cleanup.

End Vfs.

(** The device on the disk is set up from the drive under it. *)
Section Boot.
#[local] Notation K := (kernel disk0).

Definition dev_init_disk0 (junk : list Z) : M K unit :=
  dev_init_as disk0_dev disk0_name true (
    ok ← k_malloc;
    k ← gets (fun k : K => k);
    d ← lift (disk0_device_init (dk_ide (dev (w_fs (k_world k)))) ok junk);
    modify (fun k => set_world (mk_world (set_dev d (w_fs (k_world k))) (w_nodes (k_world k))) k)).

Definition dev_init (junk : list Z) : M K unit := _ ← dev_init_stdin; _ ← dev_init_stdout; dev_init_disk0 junk.

(** [junk], [junk2]: what the buffers of the disk and of the file system hold at first. *)
Definition fs_init (junk junk2 : list Z) : M K unit := _ ← vfs_init; _ ← dev_init junk; sfs_init junk2.

End Boot.
