(* ===== verification/FileTable.v ===== *)
(** The table of open files of a process: lab8/kern/fs/file.c and fs.c.

    A function of file.c that is handed a pointer to a struct file is here a function
    of the file itself, which returns the file as it is afterwards; the functions on
    file descriptors store it back. *)
From S2P Require Import Prelude CString Layout StateM Iobuf Bitmap Disk0 SfsIo SfsBmap SfsFile SfsTrunc SfsDir SfsNode SfsMount Vfs.

(** The table fills the rest of a page: struct files_struct has 48 bytes and struct
    file has 56, since a bool is a long long. *)
Definition FILES_STRUCT_BUFSIZE : Z := 4096 - 48.
Definition FILES_STRUCT_NENTRY : Z := FILES_STRUCT_BUFSIZE / 56.

Definition NO_FD : Z := - 0x9527.
Definition LSEEK_SET : Z := 0.
Definition LSEEK_CUR : Z := 1.
Definition LSEEK_END : Z := 2.

Definition set_status (s : fd_status) (f : file) : file := mk_file s (readable f) (writable f) (fd f) (pos f) (node f) (fopen_count f).
Definition set_pos (p : Z) (f : file) : file := mk_file (status f) (readable f) (writable f) (fd f) p (node f) (fopen_count f).
Definition set_file_node (n : option Z) (f : file) : file := mk_file (status f) (readable f) (writable f) (fd f) (pos f) n (fopen_count f).
Definition set_modes (r w : bool) (f : file) : file := mk_file (status f) r w (fd f) (pos f) (node f) (fopen_count f).
Definition set_count (c : Z) (f : file) : file := mk_file (status f) (readable f) (writable f) (fd f) (pos f) (node f) c.

Definition testfd (fd : Z) : bool := (0 <=? fd) && (fd <? FILES_STRUCT_NENTRY).

Definition is_status (s : fd_status) (f : file) : bool := bool_decide (status f = s).

(** * fd_array_init and files_create *)
Definition fd_array_init : list file :=
  (fun i => mk_file FD_NONE false false i 0 None 0) <$> seqZ 0 FILES_STRUCT_NENTRY.

Section Files.
Context {D : Type} `{!Device D}.
#[local] Notation K := (kernel D).
Implicit Types k : K.

Definition files_create : M K (option files_struct) :=
  ok ← k_malloc; mret (if (ok : bool) then Some (mk_files None fd_array_init 0 1) else None).

(** * One entry of the table *)
Definition fd_array_free (f : file) : M K file :=
  _ ← assert (fun _ : K => is_status FD_INIT f || is_status FD_CLOSED f);
  _ ← assert (fun _ : K => fopen_count f =? 0);
  _ ← (if is_status FD_CLOSED f then match node f with Some a => vfs_close a | None => lift Fault end else mret tt);
  mret (set_status FD_NONE f).

Definition fd_array_acquire (f : file) : M K file :=
  _ ← assert (fun _ : K => is_status FD_OPENED f); mret (set_count (fopen_count f + 1) f).

Definition fd_array_release (f : file) : M K file :=
  _ ← assert (fun _ : K => is_status FD_OPENED f || is_status FD_CLOSED f);
  _ ← assert (fun _ : K => 0 <? fopen_count f);
  let f := set_count (fopen_count f - 1) f in
  if fopen_count f =? 0 then fd_array_free f else mret f.

Definition fd_array_open (f : file) : M K file :=
  _ ← assert (fun _ : K => is_status FD_INIT f && bool_decide (node f <> None));
  mret (set_count (fopen_count f + 1) (set_status FD_OPENED f)).

Definition fd_array_close (f : file) : M K file :=
  _ ← assert (fun _ : K => is_status FD_OPENED f);
  _ ← assert (fun _ : K => 0 <? fopen_count f);
  let f := set_count (fopen_count f - 1) (set_status FD_CLOSED f) in
  if fopen_count f =? 0 then fd_array_free f else mret f.

Definition fd_array_dup (to from : file) : M K file :=
  _ ← assert (fun _ : K => is_status FD_INIT to && is_status FD_OPENED from);
  match node from with
  | None => lift Fault
  | Some a =>
      _ ← on_world (inode_ref_inc a);
      _ ← on_world (inode_open_inc a);
      fd_array_open (set_file_node (Some a) (set_modes (readable from) (writable from) (set_pos (pos from) to)))
  end.

(** * The table of the running process *)
Definition get_fd_array : M K (list file) :=
  fs ← gets (fun k : K => filesp k);
  _ ← assert (fun _ : K => 0 <? files_count fs);
  mret (fd_array fs).

Definition get_file (i : Z) : M K file :=
  l ← get_fd_array; match l !! Z.to_nat i with Some f => mret f | None => lift Fault end.

Definition put_file (i : Z) (f : file) : M K unit :=
  modify (fun k => set_filesp (set_fds (<[Z.to_nat i := f]> (fd_array (filesp k))) (filesp k)) k).

(** A function on the file at [i]. *)
Definition with_file (i : Z) (m : file -> M K file) : M K unit := f ← get_file i; f ← m f; put_file i f.

(** The index of the file that was given out. *)
Definition fd_array_alloc (fd : Z) : M K Z :=
  l ← get_fd_array;
  i ← (if fd =? NO_FD then
         match list_find (fun f => status f = FD_NONE) (take (Z.to_nat FILES_STRUCT_NENTRY) l) with
         | Some (i, _) => mret (Z.of_nat i)
         | None => fail E_MAX_OPEN
         end
       else if testfd fd then
         f ← get_file fd;
         if is_status FD_NONE f then mret fd else fail E_BUSY
       else fail E_INVAL);
  f ← get_file i;
  _ ← assert (fun _ : K => fopen_count f =? 0);
  _ ← put_file i (set_file_node None (set_status FD_INIT f));
  mret i.

(** The index is the descriptor. *)
Definition fd2file (fd_ : Z) : M K file :=
  if testfd fd_ then
    f ← get_file fd_;
    if is_status FD_OPENED f && (fd f =? fd_) then mret f else fail E_INVAL
  else fail E_INVAL.

Definition file_testfd (fd : Z) (rd wr : bool) : M K bool :=
  r ← attempt (fd2file fd);
  mret (match r with inl _ => false | inr f => negb (rd && negb (readable f)) && negb (wr && negb (writable f)) end).

Definition the_node (f : file) : M K Z := match node f with Some a => mret a | None => lift Fault end.

Definition file_open (path : list Z) (open_flags : Z) : M K Z :=
  let acc := Z.land open_flags O_ACCMODE in
  if negb ((acc =? O_RDONLY) || (acc =? O_WRONLY) || (acc =? O_RDWR)) then fail E_INVAL
  else
    let rd := negb (acc =? O_WRONLY) in
    let wr := negb (acc =? O_RDONLY) in
    i ← fd_array_alloc NO_FD;
    a ← on_error (vfs_open path open_flags) (with_file i fd_array_free);
    _ ← with_file i (fun f => mret (set_pos 0 f));
    _ ← (if flag open_flags O_APPEND then
           st ← on_error (vop_fstat a) (_ ← vfs_close a; with_file i fd_array_free);
           with_file i (fun f => mret (set_pos (i64 (st_size st)) f))
         else mret tt);
    _ ← with_file i (fun f => fd_array_open (set_modes rd wr (set_file_node (Some a) f)));
    f ← get_file i;
    mret (fd f).

Definition file_close (fd : Z) : M K unit := _ ← fd2file fd; with_file fd fd_array_close.

(** The buffer afterwards, [*copied_store] and the return value. *)
Definition file_io (fd : Z) (mem : list Z) (base len : Z) (write : bool) : M K (list Z * Z * Z) :=
  r ← attempt (fd2file fd);
  match r with
  | inl e => mret (mem, 0, - e)
  | inr f =>
      if negb (if write then writable f else readable f) then mret (mem, 0, - E_INVAL)
      else
        _ ← with_file fd fd_array_acquire;
        a ← the_node f;
        let iob := iobuf_init mem base len (pos f) in
        r ← attempt (if write then vop_write a iob else vop_read a iob);
        let '(iob, ret) := match r with inl e => (iob, - e) | inr p => p end in
        let copied := iobuf_used iob in
        _ ← with_file fd (fun f => mret (if is_status FD_OPENED f then set_pos (i64 (pos f + copied)) f else f));
        _ ← with_file fd fd_array_release;
        mret (io_mem iob, copied, ret)
  end.

Definition file_read (fd : Z) (mem : list Z) (base len : Z) := file_io fd mem base len false.
Definition file_write (fd : Z) (mem : list Z) (base len : Z) := file_io fd mem base len true.

(** A call between [fd_array_acquire] and [fd_array_release]. *)
Definition acquired {A} (fd : Z) (m : file -> Z -> M K A) : M K A :=
  f ← fd2file fd;
  _ ← with_file fd fd_array_acquire;
  a ← the_node f;
  r ← attempt (m f a);
  _ ← with_file fd fd_array_release;
  match r with inl e => fail e | inr x => mret x end.

Definition file_seek (fd p whence : Z) : M K unit :=
  acquired fd (fun f a =>
    p ← (if whence =? LSEEK_SET then mret p
         else if whence =? LSEEK_CUR then mret (i64 (p + pos f))
         else if whence =? LSEEK_END then st ← vop_fstat a; mret (i64 (p + st_size st))
         else fail E_INVAL);
    _ ← vop_tryseek a p;
    with_file fd (fun f => mret (set_pos p f))).

Definition file_fstat (fd : Z) : M K stat := acquired fd (fun _ a => vop_fstat a).

Definition file_fsync (fd : Z) : M K unit := acquired fd (fun _ a => on_world (vop_fsync a)).

(** struct dirent: the position and the name; 256 bytes of name. *)
Definition file_getdirentry (fd offset : Z) (name : list Z) : M K (Z * list Z) :=
  acquired fd (fun _ a =>
    '(iob, ret) ← vop_getdirentry a (iobuf_init name 0 (SFS_MAX_FNAME_LEN + 1) offset);
    _ ← ret_code ret;
    mret (i64 (offset + iobuf_used iob), io_mem iob)).

Definition file_dup (fd1 fd2 : Z) : M K Z :=
  f1 ← fd2file fd1;
  i ← fd_array_alloc fd2;
  _ ← with_file i (fun f2 => fd_array_dup f2 f1);
  f2 ← get_file i;
  mret (fd f2).

(** * fs.c *)
Fixpoint close_all (l : list file) : M K (list file) :=
  match l with
  | [] => mret []
  | f :: l' => f ← (if is_status FD_OPENED f then fd_array_close f else mret f); l' ← close_all l'; mret (f :: l')
  end.

(** The descriptors from 2 up: standard input and output stay open. *)
Definition files_closeall : M K unit :=
  fs ← gets (fun k : K => filesp k);
  _ ← assert (fun _ : K => 0 <? files_count fs);
  l ← close_all (drop 2 (fd_array fs));
  modify (fun k => set_filesp (set_fds (take 2 (fd_array fs) ++ l) (filesp k)) k).

(** A process's table when the process ends. *)
Fixpoint destroy_all (l : list file) : M K unit :=
  match l with
  | [] => mret tt
  | f :: l' =>
      f ← (if is_status FD_OPENED f then fd_array_close f else mret f);
      _ ← assert (fun _ : K => is_status FD_NONE f);
      destroy_all l'
  end.

Definition files_destroy (fs : files_struct) : M K unit :=
  _ ← assert (fun _ : K => files_count fs =? 0);
  _ ← (match pwd fs with Some a => _ ← on_world (inode_ref_dec a); mret tt | None => mret tt end);
  destroy_all (fd_array fs).

(** The table of a new process is made from its parent's. *)
Fixpoint dup_all (to from : list file) : M K (list file) :=
  match to, from with
  | t :: to', f :: from' =>
      t ← (if is_status FD_OPENED f then fd_array_dup (set_status FD_INIT t) f else mret t);
      l ← dup_all to' from';
      mret (t :: l)
  | _, _ => mret to
  end.

Definition dup_files (to from : files_struct) : M K files_struct :=
  _ ← assert (fun _ : K => (files_count to =? 0) && (0 <? files_count from));
  _ ← (match pwd from with Some a => _ ← on_world (inode_ref_inc a); mret tt | None => mret tt end);
  l ← dup_all (fd_array to) (fd_array from);
  mret (mk_files (pwd from) l (files_count to) (files_sem to)).

(** * The table between two system calls

    Every entry is free or open once; each open entry holds one open of its inode,
    which other processes may hold open as well. *)
Definition opens (a : Z) (l : list file) : nat := length (filter (fun f => status f = FD_OPENED /\ node f = Some a) l).

Definition entry_ok (k : K) (i : nat) (f : file) : Prop :=
  fd f = Z.of_nat i /\
  (status f = FD_NONE /\ fopen_count f = 0 \/
   status f = FD_OPENED /\ fopen_count f = 1 /\
   exists a n, node f = Some a /\ w_nodes (k_world k) !! a = Some n /\ inode_check n = true /\
     Z.of_nat (opens a (fd_array (filesp k))) <= open_count n).

Definition table_ok (k : K) : Prop :=
  0 < files_count (filesp k) /\ Z.of_nat (length (fd_array (filesp k))) = FILES_STRUCT_NENTRY /\
  forall i f, fd_array (filesp k) !! i = Some f -> entry_ok k i f.

Lemma fd_array_init_lookup i f : fd_array_init !! i = Some f <-> Z.of_nat i < FILES_STRUCT_NENTRY /\ f = mk_file FD_NONE false false (Z.of_nat i) 0 None 0.
Proof.
  unfold fd_array_init. rewrite list_lookup_fmap_Some. split.
  - intros (x & -> & [-> Hx]%lookup_seqZ). split; [lia|f_equal; lia].
  - intros [Hi ->]. exists (Z.of_nat i). split; [done|]. apply lookup_seqZ. lia.
Qed.

Definition put_fd (i : nat) (f : file) (k : K) : K :=
  set_filesp (set_fds (<[i := f]> (fd_array (filesp k))) (filesp k)) k.

Definition with_node (a : Z) (n : inode) (k : K) : K :=
  set_world (mk_world (w_fs (k_world k)) (<[a := n]> (w_nodes (k_world k)))) k.

Lemma on_world_ok {A} (m : M (world D) A) k w' (r : Z + A) :
  m (k_world k) = Ok (w', r) -> on_world m k = Ok (set_world w' k, r).
Proof. apply zoom_eq. Qed.

Lemma get_fd_array_ok k : 0 < files_count (filesp k) -> get_fd_array k = Ok (k, inr (fd_array (filesp k))).
Proof.
  intros H. unfold get_fd_array. rewrite (bind_ok _ _ k k (filesp k)) by done.
  rewrite (bind_ok _ _ k k tt) by (apply assert_true; lia). done.
Qed.

Lemma get_file_ok k i f : 0 < files_count (filesp k) -> fd_array (filesp k) !! i = Some f -> get_file (Z.of_nat i) k = Ok (k, inr f).
Proof.
  intros H Hf. unfold get_file. rewrite (bind_ok _ _ _ _ _ (get_fd_array_ok k H)). by rewrite Nat2Z.id, Hf.
Qed.

Lemma put_file_ok k i f : put_file (Z.of_nat i) f k = Ok (put_fd i f k, inr tt).
Proof. unfold put_file. by rewrite Nat2Z.id. Qed.

Lemma with_file_ok k i f m k1 f' :
  0 < files_count (filesp k) -> fd_array (filesp k) !! i = Some f -> m f k = Ok (k1, inr f') ->
  with_file (Z.of_nat i) m k = Ok (put_fd i f' k1, inr tt).
Proof.
  intros H Hf Hm. unfold with_file. rewrite (bind_ok _ _ _ _ _ (get_file_ok k i f H Hf)). rewrite (bind_ok _ _ _ _ _ Hm). apply put_file_ok.
Qed.

Lemma testfd_index k i f : table_ok k -> fd_array (filesp k) !! i = Some f -> testfd (Z.of_nat i) = true.
Proof. intros (_ & Hl & _) Hf%lookup_lt_Some. unfold testfd. lia. Qed.

(** A descriptor is open when its entry is, and every other number is refused. *)
Lemma fd2file_spec k x :
  table_ok k ->
  fd2file x k = Ok (k, match fd_array (filesp k) !! Z.to_nat x with
                       | Some f => if (0 <=? x) && is_status FD_OPENED f then inr f else inl E_INVAL
                       | None => inl E_INVAL end).
Proof.
  intros Hk. pose proof Hk as (Hc & Hl & He). unfold fd2file. destruct (testfd x) eqn:Ex; unfold testfd in Ex.
  - destruct (fd_array (filesp k) !! Z.to_nat x) as [f|] eqn:Hf; [|apply lookup_ge_None in Hf; lia].
    assert (Z.of_nat (Z.to_nat x) = x) as Hx by lia. rewrite <- Hx at 1. rewrite (bind_ok _ _ _ _ _ (get_file_ok _ _ _ Hc Hf)).
    destruct (He _ _ Hf) as [-> _]. rewrite Hx, Z.eqb_refl. destruct (Z.leb_spec 0 x); [|lia]. rewrite andb_true_r. cbn [andb]. by destruct (is_status FD_OPENED f).
  - destruct (Z.leb_spec 0 x); [|by destruct (_ !! _)]. rewrite (proj2 (lookup_ge_None _ _)) by lia. done.
Qed.

Lemma fd2file_open k i f : table_ok k -> fd_array (filesp k) !! i = Some f -> status f = FD_OPENED -> fd2file (Z.of_nat i) k = Ok (k, inr f).
Proof.
  intros Hk Hf Hs. rewrite fd2file_spec by done. rewrite Nat2Z.id, Hf. unfold is_status. rewrite Hs.
  destruct (Z.leb_spec 0 (Z.of_nat i)); [done|lia].
Qed.

(** The descriptor [fd_array_alloc] gives out, or its error. *)
Definition alloc_target (l : list file) (x : Z) : Z + nat :=
  if x =? NO_FD then
    match list_find (fun f => status f = FD_NONE) l with Some (i, _) => inr i | None => inl E_MAX_OPEN end
  else if (0 <=? x) && (x <? Z.of_nat (length l)) then
    match l !! Z.to_nat x with Some f => if is_status FD_NONE f then inr (Z.to_nat x) else inl E_BUSY | None => inl E_INVAL end
  else inl E_INVAL.

Lemma fd_array_alloc_spec k x :
  table_ok k ->
  match alloc_target (fd_array (filesp k)) x with
  | inl e => fd_array_alloc x k = Ok (k, inl e)
  | inr i => exists f, fd_array (filesp k) !! i = Some f /\ status f = FD_NONE /\ fopen_count f = 0 /\
      fd_array_alloc x k = Ok (put_fd i (set_file_node None (set_status FD_INIT f)) k, inr (Z.of_nat i))
  end.
Proof.
  intros (Hc & Hl & He). unfold alloc_target, fd_array_alloc.
  rewrite (bind_ok _ _ _ _ _ (get_fd_array_ok k Hc)).
  set (rest := fun i : Z => f ← get_file i; _ ← assert (fun _ : K => fopen_count f =? 0); _ ← put_file i (set_file_node None (set_status FD_INIT f)); mret i).
  assert (Hrest : forall i f, fd_array (filesp k) !! i = Some f -> status f = FD_NONE ->
    fopen_count f = 0 /\ rest (Z.of_nat i) k = Ok (put_fd i (set_file_node None (set_status FD_INIT f)) k, inr (Z.of_nat i))).
  { intros i f Hf Hs. assert (fopen_count f = 0) as H0 by (destruct (He _ _ Hf) as [_ [[_ H]|[H _]]]; [done|congruence]). split; [done|].
    unfold rest. rewrite (bind_ok _ _ _ _ _ (get_file_ok _ _ _ Hc Hf)). rewrite (bind_ok _ _ _ k tt) by (apply assert_true; by rewrite H0).
    by rewrite (bind_ok _ _ _ _ _ (put_file_ok _ _ _)). }
  rewrite firstn_all2 by lia. fold rest. destruct (x =? NO_FD).
  - destruct (list_find _ _) as [[i f]|] eqn:Ef; [|done]. apply list_find_Some in Ef as (Hf & Hs & _). destruct (Hrest i f Hf Hs) as [H0 Hr].
    by exists f.
  - unfold testfd. rewrite Hl. destruct ((0 <=? x) && (x <? FILES_STRUCT_NENTRY)) eqn:Ex; [|done].
    assert (Z.of_nat (Z.to_nat x) = x) as Hx by lia. destruct (fd_array (filesp k) !! Z.to_nat x) as [f|] eqn:Hf; [|apply lookup_ge_None in Hf; lia].
    pose proof (get_file_ok _ _ _ Hc Hf) as Hg. rewrite Hx in Hg.
    destruct (is_status FD_NONE f) eqn:Es.
    + apply bool_decide_eq_true in Es. destruct (Hrest _ f Hf Es) as [H0 Hr]. exists f. split_and!; try done. rewrite Hx in *.
      rewrite (bind_ok _ _ _ k x); [exact Hr|]. rewrite (bind_ok _ _ _ _ _ Hg). unfold is_status. by rewrite Es.
    + erewrite bind_err; [done|]. rewrite (bind_ok _ _ _ _ _ Hg). by rewrite Es.
Qed.

(** * Duplicating and closing *)
Definition holds (a : Z) (f : file) : nat := if decide (status f = FD_OPENED /\ node f = Some a) then 1 else 0.

Lemma opens_insert a l i f f' :
  l !! i = Some f -> (opens a (<[i := f']> l) + holds a f = opens a l + holds a f')%nat.
Proof.
  unfold opens, holds. revert i. induction l as [|g l IH]; intros [|i] Hi; try done; cbn in Hi.
  - injection Hi as ->. cbn [insert list_insert]. rewrite !filter_cons. repeat case_decide; cbn [length]; lia.
  - change (<[S i := f']> (g :: l)) with (g :: <[i := f']> l). rewrite !filter_cons. specialize (IH _ Hi).
    destruct (decide (status g = FD_OPENED /\ node g = Some a)); cbn [length]. all: lia.
Qed.

Lemma opens_held a l i f : l !! i = Some f -> status f = FD_OPENED -> node f = Some a -> (1 <= opens a l)%nat.
Proof.
  intros Hi Hs Hn. pose proof (opens_insert a l i f (set_status FD_NONE f) Hi) as H. unfold holds in H.
  cbn [status node set_status] in H. rewrite decide_True in H by done. rewrite decide_False in H by (by intros [? _]). lia.
Qed.

(** The entry at [i] and the inode at [a] change, together, so that the count of the
    inode still covers the entries that hold it. *)
Lemma table_ok_put k i f f' a n :
  table_ok k -> fd_array (filesp k) !! i = Some f ->
  fd f' = fd f -> inode_check n = true -> (forall b, b <> a -> holds b f' = holds b f) ->
  (forall n0, w_nodes (k_world k) !! a = Some n0 -> open_count n0 - Z.of_nat (holds a f) <= open_count n - Z.of_nat (holds a f')) ->
  (Z.of_nat (opens a (fd_array (filesp k))) <= Z.of_nat (holds a f) + open_count n - Z.of_nat (holds a f')) ->
  (status f' = FD_NONE /\ fopen_count f' = 0 \/ status f' = FD_OPENED /\ fopen_count f' = 1 /\ node f' = Some a) ->
  table_ok (put_fd i f' (with_node a n k)).
Proof.
  intros (Hc & Hl & He) Hi Hfd Hcheck Hother Hcount Hopens Hf'. split; [done|]. split; [cbn; by rewrite length_insert|].
  intros j g. cbn [put_fd filesp set_filesp set_fds fd_array with_node set_world]. intros Hj.
  assert (Hop : forall b, Z.of_nat (opens b (<[i := f']> (fd_array (filesp k)))) = Z.of_nat (opens b (fd_array (filesp k))) + Z.of_nat (holds b f') - Z.of_nat (holds b f)).
  { intros b. pose proof (opens_insert b _ i f f' Hi). lia. }
  unfold entry_ok. cbn [put_fd filesp set_filesp set_fds fd_array with_node set_world k_world w_nodes].
  destruct (decide (j = i)) as [->|Hne].
  - rewrite list_lookup_insert_eq in Hj by (by apply lookup_lt_Some in Hi). injection Hj as <-. split; [rewrite Hfd; by destruct (He _ _ Hi)|].
    destruct Hf' as [?|(Hs & Ho & Hn)]; [by left|right]. split; [done|]. split; [done|]. exists a, n. rewrite lookup_insert_eq. split_and!; try done.
    rewrite Hop. lia.
  - rewrite list_lookup_insert_ne in Hj by done. destruct (He _ _ Hj) as [Hg [?|(Hs & Ho & b & nb & Hn & Hb & Hcb & Hle)]]; (split; [done|]); [by left|right].
    split; [done|]. split; [done|]. exists b. destruct (decide (b = a)) as [->|Hba].
    + exists n. rewrite lookup_insert_eq. split_and!; try done. rewrite Hop. lia.
    + exists nb. rewrite lookup_insert_ne by done. split_and!; try done. rewrite Hop, (Hother b Hba). lia.
Qed.

Lemma dup_entry k f f1 a n :
  status f1 = FD_OPENED -> node f1 = Some a -> w_nodes (k_world k) !! a = Some n -> status f = FD_INIT -> fopen_count f = 0 ->
  fd_array_dup f f1 k =
  Ok (with_node a (set_open (open_count n + 1) (set_ref (ref_count n + 1) n)) k,
      inr (mk_file FD_OPENED (readable f1) (writable f1) (fd f) (pos f1) (Some a) 1)).
Proof.
  intros Hs Hn Ha Hi H0. unfold fd_array_dup. rewrite (bind_ok _ _ _ k tt) by (apply assert_true; unfold is_status; by rewrite Hs, Hi). rewrite Hn.
  set (k1 := with_node a (set_ref (ref_count n + 1) n) k).
  rewrite (bind_ok _ _ _ k1 (ref_count n + 1)) by (apply on_world_ok; by apply inode_ref_inc_ok).
  assert (H1 : w_nodes (k_world k1) !! a = Some (set_ref (ref_count n + 1) n)) by (unfold k1; cbn; by rewrite lookup_insert_eq).
  set (k2 := with_node a (set_open (open_count n + 1) (set_ref (ref_count n + 1) n)) k).
  rewrite (bind_ok _ _ _ k2 (open_count n + 1)).
  2: { erewrite on_world_ok; [|unfold inode_open_inc; rewrite (bind_ok _ _ _ _ _ (get_node_ok _ _ _ H1)); reflexivity].
       unfold k2, k1, with_node. cbn. by rewrite insert_insert_eq. }
  unfold fd_array_open. rewrite (bind_ok _ _ _ k2 tt) by (apply assert_true; unfold is_status; cbn; by rewrite Hi). unfold set_count, set_status, set_file_node, set_modes, set_pos. cbn. by rewrite H0.
Qed.

(** Closing an inode that something else holds open as well. *)
Lemma vfs_close_shared k a n :
  w_nodes (k_world k) !! a = Some n -> 1 < open_count n -> 1 < ref_count n ->
  vfs_close a k = Ok (with_node a (set_open (open_count n - 1) (set_ref (ref_count n - 1) n)) k, inr tt).
Proof.
  intros Ha Ho Hr. unfold vfs_close, inode_open_dec. set (n1 := set_open (open_count n - 1) n). set (k1 := with_node a n1 k).
  rewrite (bind_ok _ _ _ k1 (open_count n - 1)).
  2: { rewrite (bind_ok _ _ _ k n) by (by erewrite on_world_ok by (by apply get_node_ok); destruct k as [w]; destruct w).
       rewrite (bind_ok _ _ _ k tt) by (apply assert_true; lia). rewrite (bind_ok _ _ _ k1 tt) by (by apply on_world_ok).
       destruct (Z.eqb_spec (open_count n - 1) 0); [lia|]. by rewrite (bind_ok _ _ _ k1 tt). }
  assert (H1 : w_nodes (k_world k1) !! a = Some n1) by (unfold k1; cbn; by rewrite lookup_insert_eq).
  set (k2 := with_node a (set_open (open_count n - 1) (set_ref (ref_count n - 1) n)) k).
  rewrite (bind_ok _ _ _ k2 (ref_count n - 1)); [done|].
  erewrite on_world_ok.
  2: { unfold inode_ref_dec. rewrite (bind_ok _ _ _ _ _ (get_node_ok _ _ _ H1)). change (ref_count n1) with (ref_count n).
       rewrite (bind_ok _ _ _ (k_world k1) tt) by (apply assert_true; lia). erewrite bind_ok by reflexivity.
       rewrite (proj2 (Z.eqb_neq (ref_count n - 1) 0)) by lia. erewrite bind_ok by reflexivity. reflexivity. }
  unfold k2, k1, with_node. cbn. by rewrite insert_insert_eq.
Qed.

(** The entry a duplicate of [f1] gets, and what closing it leaves of it. *)
Definition dup_of (f1 : file) (i : nat) : file := mk_file FD_OPENED (readable f1) (writable f1) (Z.of_nat i) (pos f1) (node f1) 1.
Definition freed (f : file) : file := set_count 0 (set_status FD_NONE f).

Lemma put_fd_twice i f g k : put_fd i f (put_fd i g k) = put_fd i f k.
Proof. unfold put_fd. cbn. by rewrite list_insert_insert_eq. Qed.

Lemma with_node_twice a n m k : with_node a n (with_node a m k) = with_node a n k.
Proof. unfold with_node. cbn. by rewrite insert_insert_eq. Qed.

Lemma with_node_same a n k : w_nodes (k_world k) !! a = Some n -> with_node a n k = k.
Proof. intros H. unfold with_node. rewrite insert_id by done. by destruct k as [[]]. Qed.

Lemma put_fd_with_node i f a n k : put_fd i f (with_node a n k) = with_node a n (put_fd i f k).
Proof. done. Qed.

(** Closing an open descriptor is closing its inode. *)
Lemma file_close_run k i f a k' :
  table_ok k -> fd_array (filesp k) !! i = Some f -> status f = FD_OPENED -> node f = Some a -> vfs_close a k = Ok (k', inr tt) ->
  file_close (Z.of_nat i) k = Ok (put_fd i (freed f) k', inr tt).
Proof.
  intros Hk Hf Hs Hn Hclose. pose proof Hk as (Hc & _ & He). destruct (He _ _ Hf) as [_ [[? _]|(_ & H1 & _)]]; [congruence|].
  unfold file_close. rewrite (bind_ok _ _ _ _ _ (fd2file_open k i f Hk Hf Hs)). apply with_file_ok with (f := f); [done|done|]. unfold fd_array_close.
  rewrite (bind_ok _ _ _ k tt) by (apply assert_true; unfold is_status; by rewrite Hs).
  rewrite (bind_ok _ _ _ k tt) by (apply assert_true; lia). cbn [fopen_count set_count set_status]. rewrite H1. change (1 - 1 =? 0) with true.
  cbv iota. unfold fd_array_free. rewrite (bind_ok _ _ _ k tt) by done. rewrite (bind_ok _ _ _ k tt) by done. cbn [node set_count set_status].
  rewrite Hn. change (is_status FD_CLOSED (set_count (1 - 1) (set_status FD_CLOSED f))) with true. cbv iota.
  by rewrite (bind_ok _ _ _ _ _ Hclose).
Qed.

(** Closing an open descriptor whose inode something else holds open. *)
Lemma file_close_shared k i f a n :
  table_ok k -> fd_array (filesp k) !! i = Some f -> status f = FD_OPENED -> node f = Some a ->
  w_nodes (k_world k) !! a = Some n -> 1 < open_count n ->
  file_close (Z.of_nat i) k = Ok (put_fd i (freed f) (with_node a (set_open (open_count n - 1) (set_ref (ref_count n - 1) n)) k), inr tt) /\
  table_ok (put_fd i (freed f) (with_node a (set_open (open_count n - 1) (set_ref (ref_count n - 1) n)) k)).
Proof.
  intros Hk Hf Hs Hn Ha Ho. pose proof Hk as (Hc & _ & He).
  destruct (He _ _ Hf) as [_ [[? _]|(_ & H1 & b & nb & Hb & Hnb & Hcheck & Hle)]]; [congruence|].
  assert (b = a) as -> by congruence. assert (nb = n) as -> by congruence. unfold inode_check in Hcheck. split.
  - apply (file_close_run k i f a); [done..|]. apply vfs_close_shared; [done|lia|lia].
  - assert (holds a f = 1%nat) as Hh1 by (unfold holds; by rewrite decide_True).
    assert (forall b, holds b (freed f) = 0%nat) as Hh0 by (intros b; unfold holds; cbn; by rewrite decide_False by (by intros [? _])).
    apply (table_ok_put k i f); try done.
    + unfold inode_check. cbn. lia.
    + intros b Hba. rewrite Hh0. unfold holds. rewrite decide_False; [done|]. intros [_ E]. congruence.
    + intros n0 E. assert (n0 = n) as -> by congruence. rewrite Hh0, Hh1. cbn. lia.
    + rewrite Hh0, Hh1. cbn. lia.
    + by left.
Qed.

(** C31. Duplicating an open descriptor, and closing the duplicate: the duplicate is the
    descriptor asked for, or the lowest free one, and the errors are those of a full
    table, a descriptor in use and a number out of range; it stands for the same
    inode at the same position with the same rights, the inode counts one open and
    one reference more, and the table stays well formed.  Closing it undoes all of
    that: the inodes are as they were and only the freed entry's old contents are
    left. *)
Theorem file_dup_close k i1 f1 a n x :
  table_ok k -> fd_array (filesp k) !! i1 = Some f1 -> status f1 = FD_OPENED -> node f1 = Some a ->
  w_nodes (k_world k) !! a = Some n -> ref_count n + 1 < MAX_INODE_COUNT ->
  match alloc_target (fd_array (filesp k)) x with
  | inl e => file_dup (Z.of_nat i1) x k = Ok (k, inl e)
  | inr i => exists k1 k2,
      file_dup (Z.of_nat i1) x k = Ok (k1, inr (Z.of_nat i)) /\ table_ok k1 /\
      k1 = put_fd i (dup_of f1 i) (with_node a (set_open (open_count n + 1) (set_ref (ref_count n + 1) n)) k) /\
      file_close (Z.of_nat i) k1 = Ok (k2, inr tt) /\ table_ok k2 /\
      k2 = put_fd i (freed (dup_of f1 i)) k
  end.
Proof.
  intros Hk Hf1 Hs1 Hn1 Ha Href. pose proof Hk as (Hc & _ & He). pose proof (fd_array_alloc_spec k x Hk) as Halloc.
  pose proof (fd2file_open k i1 f1 Hk Hf1 Hs1) as Hfd.
  destruct (alloc_target _ x) as [e|i]; [unfold file_dup; by rewrite (bind_ok _ _ _ _ _ Hfd), (bind_err _ _ _ _ _ Halloc)|].
  destruct Halloc as (f & Hf & Hs & H0 & Hrun). set (n1 := set_open _ _). set (k1 := put_fd i (dup_of f1 i) (with_node a n1 k)).
  destruct (He _ _ Hf) as [Hfdi _]. destruct (He _ _ Hf1) as [_ [[? _]|(_ & _ & b & nb & Hb & Hnb & Hcheck & Hle)]]; [congruence|].
  assert (b = a) as -> by congruence. assert (nb = n) as -> by congruence. pose proof (opens_held a _ _ _ Hf1 Hs1 Hn1) as Hheld.
  unfold inode_check in Hcheck.
  assert (Hi1 : fd_array (filesp k1) !! i = Some (dup_of f1 i)) by (apply list_lookup_insert_eq; by apply lookup_lt_Some in Hf).
  assert (Ha1 : w_nodes (k_world k1) !! a = Some n1) by apply lookup_insert_eq.
  assert (Hdup : file_dup (Z.of_nat i1) x k = Ok (k1, inr (Z.of_nat i))).
  { unfold file_dup. rewrite (bind_ok _ _ _ _ _ Hfd), (bind_ok _ _ _ _ _ Hrun). set (k0 := put_fd i _ k).
    assert (Hi0 : fd_array (filesp k0) !! i = Some (set_file_node None (set_status FD_INIT f))) by (apply list_lookup_insert_eq; by apply lookup_lt_Some in Hf).
    pose proof (with_file_ok k0 i _ (fun f2 => fd_array_dup f2 f1) _ _ Hc Hi0 (dup_entry k0 (set_file_node None (set_status FD_INIT f)) f1 a n Hs1 Hn1 Ha eq_refl H0)) as Hw; cbn [fd set_file_node set_status] in Hw.
    rewrite put_fd_with_node in Hw. unfold k0 in Hw at 2. rewrite put_fd_twice, <- put_fd_with_node, Hfdi, <- Hn1 in Hw.
    rewrite (bind_ok _ _ _ _ _ Hw). fold n1. fold (dup_of f1 i). fold k1. by rewrite (bind_ok _ _ _ _ _ (get_file_ok k1 i _ Hc Hi1)). }
  assert (Hh1 : holds a (dup_of f1 i) = 1%nat) by (unfold holds; by rewrite decide_True).
  assert (Hh0 : holds a f = 0%nat) by (unfold holds; rewrite decide_False; [done|intros [E _]; congruence]).
  assert (Hk1 : table_ok k1).
  { apply (table_ok_put k i f); try done.
    - unfold inode_check, n1. cbn. lia.
    - intros b Hba. unfold holds. cbn. rewrite !decide_False; [done|intros [E _]; congruence|intros [_ E]; congruence].
    - intros n0 E. assert (n0 = n) as -> by congruence. rewrite Hh0, Hh1. cbn. lia.
    - rewrite Hh0, Hh1. cbn. lia.
    - by right. }
  destruct (file_close_shared k1 i (dup_of f1 i) a n1 Hk1 Hi1 eq_refl Hn1 Ha1) as [Hclose Hk2]; [cbn; lia|].
  assert (Hn : set_open (open_count n1 - 1) (set_ref (ref_count n1 - 1) n1) = n).
  { unfold n1. destruct n. unfold set_open, set_ref. cbn. f_equal; lia. }
  rewrite Hn in Hclose, Hk2.
  assert (E : put_fd i (freed (dup_of f1 i)) (with_node a n k1) = put_fd i (freed (dup_of f1 i)) k).
  { unfold k1. rewrite (put_fd_with_node i (dup_of f1 i)), with_node_twice. by rewrite with_node_same, put_fd_twice by done. }
  rewrite E in Hclose, Hk2. by exists k1, (put_fd i (freed (dup_of f1 i)) k).
Qed.

(** * Reading through a descriptor *)
Context `{!DeviceLaws D}.

Definition is_open (l : list file) (x : Z) : Prop := 0 <= x /\ exists f, l !! Z.to_nat x = Some f /\ status f = FD_OPENED /\ readable f = true.

Lemma with_locks sin : sem sin = 1 -> set_sin_sem 1 (set_sin_sem 0 sin) = sin.
Proof. intros <-. by destruct sin. Qed.

(** [vop_read] of a file with its counts in order. *)
Lemma vop_read_file k a n sin mem base len off :
  w_nodes (k_world k) !! a = Some n -> inode_check n = true -> in_ops n = sfs_node_fileops -> info n = sfs_info sin -> sem sin = 1 ->
  fs_inv (w_fs (k_world k)) -> file_ok (w_fs (k_world k)) (din sin) -> 0 <= off < SFS_MAX_FILE_SIZE -> 0 <= len < 2 ^ 40 ->
  0 <= base -> base + len <= Z.of_nat (length mem) ->
  let cnt := readable_bytes (din sin) off len in
  exists sfs' iob, vop_read a (iobuf_init mem base len off) k = Ok (set_world (mk_world sfs' (w_nodes (k_world k))) k, inr (iob, 0)) /\
    io_mem iob = list_inserts (Z.to_nat base) (bytes_at (file_data (w_fs (k_world k)) (din sin)) (Z.to_nat off) (Z.to_nat cnt)) mem /\
    iobuf_used iob = cnt /\
    fs_step (w_fs (k_world k)) (disk_of (w_fs (k_world k))) (is_free (w_fs (k_world k))) sfs'.
Proof.
  intros Ha Hcheck Hops Hinfo Hsem Hinv Hfile Hoff Hlen Hb Hbl cnt. set (w := k_world k) in *.
  destruct (sfs_read_bytes (w_fs w) (set_sin_sem 0 sin) mem base off len) as (sfs' & Hrun & Hstep); try done.
  assert (Hcnt : 0 <= cnt <= len) by (unfold cnt, readable_bytes; lia).
  change (readable_bytes (din (set_sin_sem 0 sin)) off len) with cnt in Hrun. set (mem' := list_inserts _ _ mem) in Hrun.
  set (iob := if negb (cnt =? 0) then mk_iobuf mem' (base + cnt) (i64 (off + cnt)) len (len - cnt) else mk_iobuf mem' base off len len).
  exists sfs', iob. split; [|split; [|split; [|exact Hstep]]].
  - unfold vop_read, dispatch.
    rewrite (bind_ok _ _ _ k n).
    2: { erewrite on_world_ok by (apply vop_op_ok; [exact Ha|by rewrite Hops|done]). by destruct k. }
    rewrite Hops. change (is_devops sfs_node_fileops) with false. cbv iota. unfold sfs_rw.
    apply on_world_ok. fold w.
    assert (Hsame : <[a := set_info (sfs_info sin) n]> (w_nodes w) = w_nodes w).
    { apply insert_id. rewrite Ha. f_equal. destruct n; cbn in *. by rewrite Hinfo. }
    rewrite <- Hsame at 1.
    apply (with_sin_ok a _ w n sin sfs' sin (inr (iob, 0)) Ha Hinfo). unfold sfs_io, lock_sin. cbn [snd fst]. rewrite Hsem.
    cbn [lock Z.ltb Z.compare mbind res_bind]. change (1 - 1) with 0. cbn [io_mem io_base io_offset io_resid iobuf_init]. rewrite Hrun.
    cbn [mbind res_bind]. unfold iobuf_skip. cbn [io_resid io_mem io_base io_offset io_len set_mem iobuf_init].
    destruct (Z.leb_spec cnt len); [|lia]. cbn [c_assert].
    assert (Hun : unlock_sin (sfs', set_sin_sem 0 sin) = Ok (sfs', sin, inr tt)) by (unfold unlock_sin, upd_sin, modify; cbn [fst snd]; do 3 f_equal; exact (with_locks sin Hsem)).
    unfold iob. destruct (negb (cnt =? 0)); cbn [mbind res_bind]; by rewrite Hun.
  - by unfold iob; destruct (negb _).
  - unfold iob, iobuf_used. destruct (Z.eqb_spec cnt 0) as [->|]; cbn [negb io_len io_resid]; rewrite u64_small by lia; lia.
Qed.

Lemma file_read_run k mem base len i f a n sin :
  table_ok k -> fd_array (filesp k) !! i = Some f -> status f = FD_OPENED -> readable f = true -> node f = Some a ->
  w_nodes (k_world k) !! a = Some n -> in_ops n = sfs_node_fileops -> info n = sfs_info sin -> sem sin = 1 ->
  fs_inv (w_fs (k_world k)) -> file_ok (w_fs (k_world k)) (din sin) -> 0 <= pos f < SFS_MAX_FILE_SIZE -> 0 <= len < 2 ^ 40 ->
  0 <= base -> base + len <= Z.of_nat (length mem) ->
  let cnt := readable_bytes (din sin) (pos f) len in
  exists sfs', file_read (Z.of_nat i) mem base len k =
      Ok (put_fd i (set_pos (pos f + cnt) f) (set_world (mk_world sfs' (w_nodes (k_world k))) k),
          inr (list_inserts (Z.to_nat base) (bytes_at (file_data (w_fs (k_world k)) (din sin)) (Z.to_nat (pos f)) (Z.to_nat cnt)) mem, cnt, 0)) /\
    fs_step (w_fs (k_world k)) (disk_of (w_fs (k_world k))) (is_free (w_fs (k_world k))) sfs'.
Proof.
  intros Hk Hf Hs Hr Hn Ha Hops Hinfo Hsem Hinv Hfile Hpos Hlen Hb Hbl cnt. pose proof Hk as (Hc & _ & He).
  assert (Hcnt : 0 <= cnt <= len) by (unfold cnt, readable_bytes; lia).
  destruct (He _ _ Hf) as [_ [[? _]|(_ & H1 & b & nb & Hnb & Hab & Hcheck & _)]]; [congruence|].
  assert (b = a) as -> by congruence. assert (nb = n) as -> by congruence.
  assert (SFS_MAX_FILE_SIZE = 134217728) as HM by done.
  pose proof (lookup_lt_Some _ _ _ Hf) as Hi.
  assert (Hat : forall g k', fd_array (filesp k') = fd_array (filesp k) -> fd_array (filesp (put_fd i g k')) !! i = Some g).
  { intros g k' E. cbn. rewrite E. by apply list_lookup_insert_eq. }
  set (f2 := set_count 2 f). set (k1 := put_fd i f2 k).
  destruct (vop_read_file k1 a n sin mem base len (pos f)) as (sfs' & iob & Hrun & Hmem & Hused & Hst); try done.
  set (k2 := set_world _ k1) in Hrun. exists sfs'. split; [|exact Hst].
  set (f3 := set_pos (pos f + cnt) f2). set (k3 := put_fd i f3 k2).
  unfold file_read, file_io. rewrite (bind_ok _ _ _ _ _ (attempt_eq _ _ _ _ (fd2file_open k i f Hk Hf Hs))). rewrite Hr. cbn [negb].
  rewrite (bind_ok _ _ _ k1 tt).
  2: { apply with_file_ok with (f := f); [done|done|]. unfold fd_array_acquire.
       rewrite (bind_ok _ _ _ k tt) by (apply assert_true; unfold is_status; by rewrite Hs). by rewrite H1. }
  rewrite (bind_ok _ _ _ k1 a) by (unfold the_node; by rewrite Hn).
  cbv zeta. rewrite (bind_ok _ _ _ _ _ (attempt_eq _ _ _ _ Hrun)). rewrite Hused.
  rewrite (bind_ok _ _ _ k3 tt).
  2: { apply with_file_ok with (f := f2); [done|by apply Hat|]. unfold is_status. cbn. rewrite Hs. cbn. rewrite i64_small by lia. done. }
  rewrite (bind_ok _ _ _ (put_fd i (set_pos (pos f + cnt) f) k3) tt).
  2: { apply with_file_ok with (f := f3); [done|change (<[i := f3]> (<[i := f2]> (fd_array (filesp k))) !! i = Some f3); by rewrite list_insert_insert_eq, list_lookup_insert_eq|]. unfold fd_array_release.
       rewrite (bind_ok _ _ _ k3 tt) by (apply assert_true; unfold is_status; cbn; by rewrite Hs).
       rewrite (bind_ok _ _ _ k3 tt) by (by apply assert_true). unfold f3, f2, set_count, set_pos. cbn. by rewrite H1. }
  unfold k3. rewrite Hmem, put_fd_twice. by change k2 with (put_fd i f2 (set_world (mk_world sfs' (w_nodes (k_world k))) k)); rewrite put_fd_twice.
Qed.

(** Reading through a descriptor, down to the blocks on the disk: an open, readable
    descriptor of a file at a position below the size limit gives exactly the bytes of
    the file from that position to the end of the request or of the file, in the
    caller's buffer and nowhere else; the position moves past them and nothing else
    changes - no other entry, no inode, no block and no lock.  Any other number is refused
    and changes nothing at all. *)
Theorem file_read_returns_bytes k mem base len :
  table_ok k ->
  (forall x, ~ is_open (fd_array (filesp k)) x -> file_read x mem base len k = Ok (k, inr (mem, 0, - E_INVAL))) /\
  (forall i f a n sin,
    fd_array (filesp k) !! i = Some f -> status f = FD_OPENED -> readable f = true -> node f = Some a ->
    w_nodes (k_world k) !! a = Some n -> in_ops n = sfs_node_fileops -> info n = sfs_info sin -> sem sin = 1 ->
    fs_inv (w_fs (k_world k)) -> file_ok (w_fs (k_world k)) (din sin) -> 0 <= pos f < SFS_MAX_FILE_SIZE -> 0 <= len < 2 ^ 40 ->
    0 <= base -> base + len <= Z.of_nat (length mem) ->
    let cnt := readable_bytes (din sin) (pos f) len in
    exists sfs', file_read (Z.of_nat i) mem base len k =
        Ok (put_fd i (set_pos (pos f + cnt) f) (set_world (mk_world sfs' (w_nodes (k_world k))) k),
            inr (list_inserts (Z.to_nat base) (bytes_at (file_data (w_fs (k_world k)) (din sin)) (Z.to_nat (pos f)) (Z.to_nat cnt)) mem, cnt, 0)) /\
      fs_step (w_fs (k_world k)) (disk_of (w_fs (k_world k))) (is_free (w_fs (k_world k))) sfs').
Proof.
  intros Hk. split.
  - intros x Hx. unfold file_read, file_io. pose proof (fd2file_spec k x Hk) as Hfd.
    rewrite (bind_ok _ _ _ _ _ (attempt_eq _ _ _ _ Hfd)).
    destruct (_ !! Z.to_nat x) as [f|] eqn:Hf; [|done]. destruct ((0 <=? x) && is_status FD_OPENED f) eqn:E; [|done].
    apply andb_true_iff in E as [Ex Es]. apply bool_decide_eq_true in Es.
    destruct (readable f) eqn:Er; [|done]. destruct Hx. split; [lia|]. by exists f.
  - intros i f a n sin. by apply file_read_run.
Qed.

End Files.
