(* ===== verification/SfsExample.v ===== *)
(** A small mounted file system, on which the theorems about SFS are tried: eight
    blocks on disk0 with the root inode in block 1 and the free map in block 2, and
    a file of ten bytes with its data in block 3; or a root directory with an entry
    for itself in block 3 and a file in block 4, the inode of which is in block 5. *)
From S2P Require Import Prelude Layout StateM Iobuf Bitmap Disk0 SfsIo SfsBmap SfsFile SfsTrunc SfsDir SfsNode SfsMount Vfs FileTable.

Definition demo_disk (img : list Z) : disk0 :=
  mk_disk0 8 DISK0_BLKSIZE (mk_ide true 64 img) (replicate 16384 0) 1.

(** The blocks from [n] up are free. *)
Definition demo_of (img : list Z) (n : Z) : sfs_fs disk0 :=
  mk_sfs (mk_super SFS_MAGIC 8 (8 - n) (replicate 32 0)) (demo_disk img) (mk_bitmap 32768 1024 ((256 - 2 ^ n) :: replicate 1023 0)) false
    (replicate 4096 0) 1 1 1 [] ∅ [].

Definition demo_blank : list Z := replicate 32768 0.

Definition demo_fs (n : Z) : sfs_fs disk0 := demo_of demo_blank n.

Definition demo_din : sfs_disk_inode := mk_din 10 SFS_TYPE_FILE 1 1 (3 :: replicate 11 0) 0.

Definition demo_sin : sfs_inode := mk_sin demo_din 1 false 0 1.

Definition demo_image (img : list Z) : Prop := Z.of_nat (length img) = 32768 /\ Forall is_byte img.

Lemma demo_blank_ok : demo_image demo_blank.
Proof. split; [unfold demo_blank; rewrite length_replicate; by vm_compute|]. apply Forall_replicate. unfold is_byte. lia. Qed.

Lemma demo_disk_ok img : demo_image img -> disk0_ok (demo_disk img).
Proof.
  intros [Hl Hb]. unfold disk0_ok, demo_disk; cbn [dk_blocks dk_blocksize dk_ide valid size image disk0_buffer disk0_sem]. disk_const.
  rewrite length_replicate, Hl. split_and!; try done; lia.
Qed.

(** The cases that are used: four free blocks, two, or one. *)
Definition demo_free (n : Z) : Prop := n = 4 \/ n = 6 \/ n = 7.

Lemma demo_bits img n i : demo_free n -> 0 <= i -> is_free (demo_of img n) i = true -> 0 < i < 8.
Proof.
  intros Hn Hi. unfold is_free, bit, demo_of. cbn [freemap bm_map]. unfold WORD_BITS.
  destruct (decide (i < 32)) as [Hlt|Hge].
  - rewrite Z.div_small, Z.mod_small by lia. change (((256 - 2 ^ n) :: replicate 1023 0) !! Z.to_nat 0) with (Some (256 - 2 ^ n)). cbv iota.
    destruct (decide (i < 8)).
    + destruct (decide (i = 0)) as [->|]; [|lia]. by destruct Hn as [-> |[-> | ->]].
    + rewrite Z.bits_above_log2; [done|destruct Hn as [-> |[-> | ->]]; lia|]. assert (Z.log2 (256 - 2 ^ n) = 7) as -> by (by destruct Hn as [-> |[-> | ->]]). lia.
  - assert (1 <= i / 32) by (apply Z.div_le_lower_bound; lia). destruct (Z.to_nat (i / 32)) as [|k] eqn:E; [lia|].
    change (((256 - 2 ^ n) :: replicate 1023 0) !! S k) with (replicate 1023 0 !! k). destruct (replicate 1023 0 !! k) as [v|] eqn:Ev; [|done].
    apply lookup_replicate in Ev as [-> _]. by rewrite Z.bits_0.
Qed.

Lemma demo_count img n : demo_free n -> unused_blocks (super (demo_of img n)) = Z.of_nat (free_bits (freemap (demo_of img n))).
Proof.
  intros Hn. unfold free_bits. change (nbits (freemap (demo_of img n))) with (8 + 32760). rewrite seqZ_app by lia. rewrite filter_app.
  assert (filter (fun i => bit (freemap (demo_of img n)) i = true) (seqZ (0 + 8) 32760) = []) as ->.
  { destruct (filter _ _) as [|x l] eqn:E; [done|exfalso]. assert (x ∈ x :: l) as Hx by left. rewrite <- E in Hx.
    apply list_elem_of_filter in Hx as [Hb Hx]. apply elem_of_seqZ in Hx. pose proof (demo_bits img n x Hn ltac:(lia) Hb). lia. }
  rewrite app_nil_r. by destruct Hn as [-> |[-> | ->]]; vm_compute.
Qed.

Lemma demo_of_inv img n : demo_image img -> demo_free n -> fs_inv (demo_of img n).
Proof.
  intros Himg Hn. split.
  - split; [|done]. split; [by apply demo_disk_ok|]. cbn [sfs_buffer demo_of super s_blocks dev d_nblocks demo_disk dk_blocks disk0_device].
    split; [apply length_replicate|]. split; [apply Forall_replicate; unfold is_byte; lia|lia].
  - split; [|split; [cbn; lia|split; [intros i; by apply demo_bits|by apply demo_count]]].
    unfold bitmap_wf. cbn [freemap demo_of nbits nwords bm_map]. split; [lia|]. split; [unfold WORD_BITS; lia|]. split; [lia|]. split; [done|]. split.
    + constructor; [unfold word32; destruct Hn as [-> |[-> | ->]]; lia|apply Forall_replicate; unfold word32; lia].
    + intros i Hi Hb. pose proof (demo_bits img n i Hn Hi Hb). lia.
Qed.

Lemma demo_fs_inv n : demo_free n -> fs_inv (demo_fs n).
Proof. apply demo_of_inv. exact demo_blank_ok. Qed.

Lemma demo_file n : demo_free n -> file_ok (demo_fs n) (din demo_sin).
Proof.
  intros Hn. split; [|by split_and!]. split; [done|]. split; [rewrite max_blocks; cbn; lia|]. split; [apply NoDup_singleton|]. split.
  - apply Forall_singleton. change (inuse (demo_fs n) 3). split; [change (0 < 3 < 8); lia|]. by destruct Hn as [-> |[-> | ->]].
  - intros i Hi. unfold bmap. cbn [din demo_sin demo_din direct indirect d_blocks] in *. unfold SFS_NDIRECT. destruct (Z.ltb_spec i 12); [|done].
    destruct (Z.to_nat i) as [|k] eqn:E; [lia|]. do 11 (destruct k as [|k]; [reflexivity|]). lia.
Qed.

(** A write over the end of the first block. *)
Lemma sfs_write_bytes_witness :
  exists sfs' sin' n ret, sfs_io_nolock (replicate 20 7) 0 4090 20 true (demo_fs 4, demo_sin) = Ok ((sfs', sin'), replicate 20 7, n, ret) /\
    0 <= n <= 20 /\ (ret = 0 /\ n = 20 \/ ret = - E_NO_MEM) /\
    file_frame (demo_fs 4) (din demo_sin) sfs' (din sin') /\ file_ok sfs' (din sin') /\ same_sin demo_sin sin' /\
    d_size (din sin') = (if n =? 0 then d_size (din demo_sin) else d_size (din demo_sin) `max` (4090 + n)) /\
    file_data sfs' (din sin') =
      list_inserts (Z.to_nat 4090) (bytes_at (replicate 20 7) (Z.to_nat 0) (Z.to_nat n)) (padded (file_data (demo_fs 4) (din demo_sin)) (d_blocks (din sin'))).
Proof.
  apply (sfs_write_bytes (demo_fs 4) demo_sin (replicate 20 7) 0 4090 20).
  - by apply demo_fs_inv; left.
  - by apply demo_file; left.
  - lia.
  - lia.
  - rewrite max_blocks. unfold SFS_BLKSIZE. lia.
  - change (4090 / SFS_BLKSIZE) with 0. cbn. lia.
  - lia.
  - rewrite length_replicate. lia.
  - apply Forall_replicate. unfold is_byte. lia.
Defined.

Lemma sfs_truncfile_resizes_witness :
  exists sfs' sin' r, sfs_truncfile 9000 (demo_fs 4, demo_sin) = Ok ((sfs', sin'), r) /\
    same_sin demo_sin sin' /\ file_frame (demo_fs 4) (din demo_sin) sfs' (din sin') /\
    match r with
    | inr _ => file_ok sfs' (din sin') /\ d_size (din sin') = 9000 /\
               file_data sfs' (din sin') = padded (take (Z.to_nat (blocks_for 9000) * BLK) (file_data (demo_fs 4) (din demo_sin))) (blocks_for 9000) /\
               contents sfs' (din sin') = take (Z.to_nat 9000) (contents (demo_fs 4) (din demo_sin) ++ slack (demo_fs 4) (din demo_sin) ++ replicate (Z.to_nat 9000) 0)
    | inl e => e = E_NO_MEM /\ d_size (din sin') = d_size (din demo_sin) /\
               d_blocks (din demo_sin) <= d_blocks (din sin') < blocks_for 9000 /\
               file_data sfs' (din sin') = padded (file_data (demo_fs 4) (din demo_sin)) (d_blocks (din sin'))
    end.
Proof.
  apply (sfs_truncfile_resizes (demo_fs 4) demo_sin 9000); [by apply demo_fs_inv; left|by apply demo_file; left|done|].
  rewrite max_blocks. unfold SFS_BLKSIZE. lia.
Defined.

(** Ten bytes are written, the file is cut to five and enlarged to ten again. *)
Definition demo_resized : res (sfs_fs disk0 * sfs_inode) :=
  '(st, _, _, _) ← sfs_io_nolock (replicate 10 7) 0 0 10 true (demo_fs 4, demo_sin);
  '(st, _) ← sfs_truncfile 5 st;
  '(st, _) ← sfs_truncfile 10 st;
  Ok st.

Example stale_bytes : match demo_resized with Ok (sfs, sin) => contents sfs (din sin) = replicate 10 7 | _ => False end.
Proof. vm_compute. reflexivity. Qed.

Lemma sfs_truncfile_limit_witness :
  sfs_truncfile 5000000 (demo_fs 4, demo_sin) = Panic \/
  exists s, sfs_truncfile 5000000 (demo_fs 4, demo_sin) = Ok (s, inl E_NO_MEM).
Proof.
  apply (sfs_truncfile_limit (demo_fs 4) demo_sin 5000000); [by apply demo_fs_inv; left|by apply demo_file; left|done|].
  rewrite max_blocks. change SFS_MAX_FILE_SIZE with 134217728. unfold SFS_BLKSIZE. lia.
Defined.

(** Six blocks do not fit: one is added before the disk is full, and now the file
    cannot be cut to its own size. *)
Definition demo_failed : res (sfs_fs disk0 * sfs_inode) :=
  '(s, _) ← sfs_truncfile 24000 (demo_fs 7, demo_sin); Ok s.

Lemma sfs_truncfile_after_failure_witness :
  exists s, demo_failed = Ok s /\ d_blocks (din (snd s)) = 2 /\ sfs_truncfile (d_size (din (snd s))) s = Panic.
Proof.
  assert (H : match sfs_truncfile 24000 (demo_fs 7, demo_sin) with Ok (s, inl _) => d_blocks (din (snd s)) =? 2 | _ => false end = true)
    by (vm_compute; reflexivity).
  unfold demo_failed. pose proof (sfs_truncfile_after_failure (demo_fs 7) demo_sin 24000) as Hlater.
  destruct (sfs_truncfile 24000 (demo_fs 7, demo_sin)) as [[[fs sin] [e|u]]| | |]; [|discriminate H..].
  apply Z.eqb_eq in H. exists (fs, sin). split; [done|]. split; [exact H|]. apply (Hlater fs sin e); [by apply demo_fs_inv; right; right|by apply demo_file; right; right|done| |done|].
  - rewrite max_blocks. unfold SFS_BLKSIZE. lia.
  - cbn [snd] in H. rewrite H. cbn. lia.
Defined.

(** * A directory *)
Definition demo_name (l : list Z) : list Z := l ++ replicate (256 - length l) 0.

Definition demo_root : sfs_disk_inode := mk_din 512 SFS_TYPE_DIR 1 2 (3 :: 4 :: replicate 10 0) 0.

Definition demo_block (l : list Z) : list Z := l ++ replicate (4096 - length l) 0.

Definition demo_tree : list Z :=
  demo_block [] ++ demo_block (din_bytes demo_root) ++ demo_block [] ++
  demo_block (entry_bytes (mk_entry 1 (demo_name [46; 46]))) ++ demo_block (entry_bytes (mk_entry 5 (demo_name [104; 105]))) ++
  demo_block (din_bytes demo_din) ++ demo_block [] ++ demo_block [].

Lemma demo_block_length l : Z.of_nat (length l) <= 4096 -> Z.of_nat (length (demo_block l)) = 4096.
Proof. intros H. unfold demo_block. rewrite length_app, length_replicate. lia. Qed.

Lemma demo_tree_ok : demo_image demo_tree.
Proof.
  split.
  { unfold demo_tree. rewrite !length_app, !Nat2Z.inj_add, !demo_block_length; [lia|by vm_compute..]. }
  apply Forall_forall. intros x Hx.
  assert (forallb (fun y => (0 <=? y) && (y <? 256)) demo_tree = true) as H by (vm_compute; reflexivity).
  rewrite forallb_forall in H. apply list_elem_of_In, H in Hx. unfold is_byte. lia.
Qed.

Definition demo_dir_fs : sfs_fs disk0 := demo_of demo_tree 6.

Lemma demo_dir_inv : fs_inv demo_dir_fs.
Proof. apply demo_of_inv; [exact demo_tree_ok|right; by left]. Qed.

Lemma demo_dir : dir_ok demo_dir_fs demo_root.
Proof.
  split; [|done]. split; [done|]. split; [rewrite max_blocks; cbn; lia|]. split; [|split].
  - change (own (disk_of demo_dir_fs) demo_root) with [3; 4]. apply NoDup_cons. split; [|apply NoDup_singleton]. intros ?%list_elem_of_singleton. lia.
  - change (own (disk_of demo_dir_fs) demo_root) with [3; 4]. repeat constructor; cbn; lia.
  - intros i Hi. unfold bmap. cbn [demo_root direct indirect d_blocks] in *. unfold SFS_NDIRECT. destruct (Z.ltb_spec i 12); [|done].
    destruct (Z.to_nat i) as [|[|k]] eqn:E; [lia|lia|]. do 10 (destruct k as [|k]; [reflexivity|]). lia.
Qed.

Lemma sfs_dirent_search_finds_witness :
  exists sfs', sfs_dirent_search_nolock [104; 105] (demo_dir_fs, mk_sin demo_root 1 false 1 1) =
      Ok ((sfs', mk_sin demo_root 1 false 1 1), inr (mk_search (inr (5, 1)) (Some 2))) /\
    fs_step demo_dir_fs (disk_of demo_dir_fs) (is_free demo_dir_fs) sfs'.
Proof.
  replace (mk_search (inr (5, 1)) (Some 2)) with (search_result [104; 105] (dir_entries demo_dir_fs demo_root) 0 2) by (vm_compute; reflexivity).
  apply (sfs_dirent_search_finds demo_dir_fs (mk_sin demo_root 1 false 1 1) [104; 105]).
  - exact demo_dir_inv.
  - exact demo_dir.
  - repeat constructor; lia.
  - cbn. unfold SFS_MAX_FNAME_LEN. lia.
  - reflexivity.
Defined.

Lemma demo_empty_cache : cache_ok (mk_world demo_dir_fs ∅).
Proof.
  split; [constructor|]. split; [|split; [|split]].
  - intros a. split; [intros H; by apply not_elem_of_nil in H|intros [sin H]; discriminate H].
  - intros h a. change (hash_list (w_fs (mk_world demo_dir_fs ∅))) with (∅ : gmap Z (list Z)). rewrite lookup_empty. cbn [default from_option].
    split; [intros H; by apply not_elem_of_nil in H|intros (sin & H & _); discriminate H].
  - intros a b sa sb H. discriminate H.
  - intros a n sin H. discriminate H.
Qed.

Lemma sfs_load_inode_once_witness :
  exists w' a, sfs_load_inode 5 (mk_world demo_dir_fs ∅) = Ok (w', inr a) /\ cache_ok w' /\ w_nodes w' = <[a := new_inode demo_din 5]> ∅.
Proof.
  assert (Hd : bytes_din (bytes_at (disk_of demo_dir_fs 5) 0 64) = demo_din) by (vm_compute; reflexivity).
  destruct (sfs_load_inode_once (mk_world demo_dir_fs ∅) 5) as (w' & a & Hrun & Hc & _ & _ & _ & Hn).
  - exact demo_dir_inv.
  - exact demo_empty_cache.
  - reflexivity.
  - reflexivity.
  - split; [cbn; lia|reflexivity].
  - cbn [w_fs]. by rewrite Hd.
  - cbn [w_fs]. rewrite Hd. by right.
  - exists w', a. split; [exact Hrun|]. split; [exact Hc|]. cbn [w_fs w_nodes] in Hn. rewrite Hd in Hn.
    destruct Hn as [(n & Hn & _)|(_ & _ & Hn)]; [done|exact Hn].
Defined.

(** The root directory loaded at address 10, with one reference. *)
Definition demo_root_sin : sfs_inode := mk_sin demo_root 1 false 1 1.

Definition demo_world : world disk0 :=
  mk_world (set_hash_list {[ sin_hashfn 1 := [10] ]} (set_inode_list [10] demo_dir_fs))
    {[ 10 := mk_inode (sfs_info demo_root_sin) 1 0 true sfs_node_dirops ]}.

Lemma demo_world_sin b sb : sin_of demo_world b = Some sb -> b = 10 /\ sb = demo_root_sin.
Proof.
  unfold sin_of, demo_world. cbn [w_nodes]. destruct (decide (b = 10)) as [->|Hne].
  - rewrite lookup_singleton_eq. cbn. by intros [= <-].
  - by rewrite lookup_singleton_ne by done.
Qed.

Lemma demo_world_ok : cache_ok demo_world.
Proof.
  split; [apply NoDup_singleton|]. split; [|split; [|split]].
  - intros b. cbn [demo_world w_fs set_hash_list set_inode_list inode_list]. rewrite list_elem_of_singleton. split; [intros ->; by eexists|].
    by intros [sb [-> _]%demo_world_sin].
  - intros h b. cbn [demo_world w_fs set_hash_list set_inode_list hash_list]. destruct (decide (h = sin_hashfn 1)) as [->|Hne].
    + rewrite lookup_singleton_eq. cbn [default from_option id]. rewrite list_elem_of_singleton. split; [intros ->; eexists; by split|].
      by intros (sb & [-> _]%demo_world_sin & _).
    + rewrite lookup_singleton_ne by done. split; [by intros ?%not_elem_of_nil|]. intros (sb & [-> ->]%demo_world_sin & E). by destruct Hne.
  - by intros b c sb sc [-> _]%demo_world_sin [-> _]%demo_world_sin _.
  - intros b n sin Hn Hi. cbn [demo_world w_nodes] in Hn. apply lookup_singleton_Some in Hn as [_ <-]. injection Hi as <-. cbn. lia.
Qed.

Lemma inode_ref_dec_writes_back_witness :
  exists w', inode_ref_dec 10 demo_world = Ok (w', inr 0) /\ w_nodes w' = ∅ /\ cache_ok w' /\ on_disk (w_fs w') demo_root_sin.
Proof.
  destruct (inode_ref_dec_writes_back demo_world 10 (mk_inode (sfs_info demo_root_sin) 1 0 true sfs_node_dirops) demo_root_sin)
    as (w' & Hrun & Hn & Hc & _ & Hd & _); try reflexivity.
  - exact demo_dir_inv.
  - exact demo_world_ok.
  - cbn. lia.
  - unfold din_ok, word32, word16. cbn. split_and!; try lia; try done. repeat constructor; unfold word32; lia.
  - split; [cbn; lia|reflexivity].
  - exists w'. split; [exact Hrun|]. split; [|by split]. rewrite Hn. apply map_eq. intros b. cbn [demo_world w_nodes].
    destruct (decide (b = 10)) as [->|Hne]; [by rewrite lookup_delete_eq|]. by rewrite lookup_delete_ne, lookup_singleton_ne.
Defined.

(** * Sync and mount *)
Definition demo_dirty : world disk0 := mk_world (set_super_dirty true (demo_fs 4)) ∅.

Lemma sfs_sync_then_mount_witness :
  exists sfs', sfs_sync demo_dirty = Ok (mk_world sfs' ∅, inr tt) /\
  exists d' sfs2, sfs_do_mount (replicate 4096 7) (dev sfs', []) = Ok ((d', []), inr sfs2) /\
    super sfs2 = mk_super SFS_MAGIC 8 4 (replicate 32 0) /\ fs_inv sfs2.
Proof.
  destruct (sfs_sync_then_mount demo_dirty (replicate 4096 7)) as (s1 & Hrun & d2 & s2 & Hmount & Hs & _ & (Hinv & _) & _).
  - split; [apply demo_fs_inv; by left|]. split; [done|]. split; [done|]. split; [apply Forall_replicate; unfold is_byte; lia|].
    split; [done|]. split; [cbn; unfold word32; lia|]. split; [done|]. split; [done|]. split; [cbn; lia|].
    change (sfs_freemap_blocks (super (w_fs demo_dirty))) with 1. cbn. lia.
  - reflexivity.
  - reflexivity.
  - reflexivity.
  - apply length_replicate.
  - apply Forall_replicate. unfold is_byte. lia.
  - exists s1. split; [exact Hrun|]. exists d2, s2. split; [exact Hmount|]. split; [exact Hs|exact Hinv].
Defined.

(** * A process with one open file *)
Definition demo_file0 : file := mk_file FD_OPENED true false 0 2 (Some 20) 1.

Definition demo_inode : inode := mk_inode (sfs_info demo_sin) 1 1 true sfs_node_fileops.

Definition demo_kernel : kernel disk0 :=
  mk_kernel (mk_world (demo_fs 4) {[ 20 := demo_inode ]}) [] 1 None 1 (mk_files None (<[0%nat := demo_file0]> fd_array_init) 1 1) [] 0 0 [].

Lemma demo_table : table_ok demo_kernel.
Proof.
  split; [done|]. split; [reflexivity|]. intros i f. cbn [demo_kernel filesp fd_array]. destruct (decide (i = 0%nat)) as [->|Hne].
  - intros [= <-]. split; [done|]. right. split; [done|]. split; [done|]. by exists 20, demo_inode.
  - rewrite list_lookup_insert_ne by done. intros [Hi ->]%fd_array_init_lookup. split; [done|]. by left.
Qed.

(** Twenty bytes are asked for, eight are left. *)
Lemma file_read_returns_bytes_witness :
  exists sfs', file_read 0 (replicate 20 7) 0 20 demo_kernel =
      Ok (put_fd 0 (set_pos 10 demo_file0) (set_world (mk_world sfs' {[ 20 := demo_inode ]}) demo_kernel), inr (replicate 8 0 ++ replicate 12 7, 8, 0)) /\
    file_read 1 (replicate 20 7) 0 20 demo_kernel = Ok (demo_kernel, inr (replicate 20 7, 0, - E_INVAL)).
Proof.
  destruct (file_read_returns_bytes demo_kernel (replicate 20 7) 0 20 demo_table) as [Hbad Hgood].
  destruct (Hgood 0%nat demo_file0 20 demo_inode demo_sin) as (sfs' & Hrun & _); try reflexivity; try lia.
  - by apply demo_fs_inv; left.
  - by apply demo_file; left.
  - change SFS_MAX_FILE_SIZE with 134217728. cbn. lia.
  - exists sfs'. split; [|apply Hbad].
    + replace (replicate 8 0 ++ replicate 12 7) with
        (list_inserts (Z.to_nat 0) (bytes_at (file_data (demo_fs 4) demo_din) (Z.to_nat 2) (Z.to_nat 8)) (replicate 20 7)) by (vm_compute; reflexivity).
      exact Hrun.
    + intros (_ & f & Hf & Hs & _). vm_compute in Hf. by injection Hf as <-.
Defined.

Lemma file_dup_close_witness :
  exists k1 k2, file_dup 0 NO_FD demo_kernel = Ok (k1, inr 1) /\ table_ok k1 /\ file_close 1 k1 = Ok (k2, inr tt) /\ k_world k2 = k_world demo_kernel.
Proof.
  pose proof (file_dup_close demo_kernel 0 demo_file0 20 demo_inode NO_FD demo_table eq_refl eq_refl eq_refl (lookup_singleton_eq _ _) ltac:(cbn; done)) as H.
  assert (E : alloc_target (fd_array (filesp demo_kernel)) NO_FD = inr 1%nat) by (vm_compute; reflexivity). rewrite E in H.
  destruct H as (k1 & k2 & Hdup & Hk1 & _ & Hclose & _ & ->). exists k1, (put_fd 1 (freed (dup_of demo_file0 1)) demo_kernel). by split; [|split; [|split]].
Defined.
