(* ===== verification/Printf.v ===== *)
(** Formatted output: lab8/libs/printfmt.c, and the generator of lab8/libs/rand.c.

    [putch] is called for one character after the other and gives nothing back, so
    [vprintfmt] is a function to the list of characters it prints.  A string is a
    list of characters with a terminator in it; what lies behind its end is not
    there. *)
From Stdlib Require String Ascii.
From S2P Require Import Prelude CString StateM.

Definition MAXERROR : Z := 24.

(** An argument: a word, or a pointer with the string behind it. *)
Inductive va_val :=
  | va_word (w : Z)
  | va_ptr (p : Z) (s : option (list Z)).

Definition va_list := list va_val.

Definition va_next (ap : va_list) : res (Z * va_list) :=
  match ap with va_word w :: ap => Ok (w, ap) | _ => Fault end.

Definition va_string (ap : va_list) : res (Z * option (list Z) * va_list) :=
  match ap with va_ptr p s :: ap => Ok (p, s, ap) | _ => Fault end.

(** A string constant. *)
Definition text (s : string) : list Z := (fun c => Z.of_nat (Ascii.nat_of_ascii c)) <$> String.list_ascii_of_string s.
Definition c_text (s : string) : list Z := text s ++ [0].

Definition error_string (e : Z) : option (list Z) :=
  if e =? 1 then Some (c_text "unspecified error") else if e =? 2 then Some (c_text "bad process")
  else if e =? 3 then Some (c_text "invalid parameter") else if e =? 4 then Some (c_text "out of memory")
  else if e =? 5 then Some (c_text "out of processes") else if e =? 6 then Some (c_text "segmentation fault")
  else if e =? 8 then Some (c_text "invalid elf file") else if e =? 9 then Some (c_text "process is killed")
  else if e =? 10 then Some (c_text "panic failure") else if e =? 13 then Some (c_text "no such device")
  else if e =? 14 then Some (c_text "device not available") else if e =? 15 then Some (c_text "device/file is busy")
  else if e =? 16 then Some (c_text "no such file or directory") else if e =? 17 then Some (c_text "is a directory")
  else if e =? 18 then Some (c_text "not a directory") else if e =? 19 then Some (c_text "cross device link")
  else if e =? 20 then Some (c_text "unimplemented feature") else if e =? 21 then Some (c_text "illegal seek")
  else if e =? 22 then Some (c_text "too many files are open") else if e =? 23 then Some (c_text "file or directory already exists")
  else if e =? 24 then Some (c_text "directory is not empty") else None.

(** [do_div]: the remainder, an int, and the quotient. *)
Definition do_div (n base : Z) : res (Z * Z) :=
  if base =? 0 then Fault else Ok (i32 (u64 n mod u32 base), u64 n / u32 base).

Definition digit_char (d : Z) : res Z :=
  match text "0123456789abcdef" !! Z.to_nat d with Some c => if 0 <=? d then Ok c else Fault | None => Fault end.

(** [while (-- width > 0) putch(padc, putdat, fd);] *)
Definition pad (width padc : Z) : list Z := replicate (Z.to_nat (width - 1)) padc.

Fixpoint printnum (fuel : nat) (num base width padc : Z) : res (list Z) :=
  match fuel with
  | O => Diverge
  | S fuel' =>
      '(mod_, result) ← do_div num base;
      before ← (if base <=? num then printnum fuel' result base (i32 (width - 1)) padc else Ok (pad width padc));
      c ← digit_char (u32 mod_);
      Ok (before ++ [c])
  end.

(** A 64-bit number has at most 64 digits. *)
Definition PRINTNUM_FUEL : nat := 65.

Definition getuint (w lflag : Z) : Z := if 2 <=? lflag then u64 w else if negb (lflag =? 0) then u64 w else u32 w.
Definition getint (w lflag : Z) : Z := if 2 <=? lflag then i64 w else if negb (lflag =? 0) then i64 w else i32 w.

(** The characters of a string up to its end or the precision, and [width] after them. *)
Fixpoint put_string (alt : bool) (s : list Z) (precision width : Z) : res (list Z * Z) :=
  match s with
  | [] => Fault
  | ch :: s' =>
      if ch =? 0 then Ok ([], width)
      else if (precision <? 0) || (0 <=? precision - 1) then
        let precision := if precision <? 0 then precision else precision - 1 in
        '(out, width) ← put_string alt s' precision (i32 (width - 1));
        Ok ((if alt && ((ch <? 32) || (126 <? ch)) then 63 else ch) :: out, width)
      else Ok ([], width)
  end.

(** [strnlen], with a length that may be -1 converted to a size_t. *)
Fixpoint strnlen_at (s : list Z) (n cnt : Z) : res Z :=
  if cnt <? n then
    match s with
    | [] => Fault
    | ch :: s' => if ch =? 0 then Ok cnt else strnlen_at s' n (cnt + 1)
    end
  else Ok cnt.

(** * One conversion *)
Record spec := mk_spec {
  padc : Z;
  width : Z;
  precision : Z;
  lflag : Z;
  altflag : bool;
}.

(** Between two characters of the format: text, or inside a conversion. *)
Record fmt_state := mk_fmt {
  at_ : nat;
  ap : va_list;
  out : list Z;
  conv : option spec;
}.

Definition spec0 : spec := mk_spec 32 (-1) (-1) 0 false.

Definition set_padc (c : Z) (sp : spec) : spec := mk_spec c (width sp) (precision sp) (lflag sp) (altflag sp).
Definition set_width (w : Z) (sp : spec) : spec := mk_spec (padc sp) w (precision sp) (lflag sp) (altflag sp).
Definition set_precision (p : Z) (sp : spec) : spec := mk_spec (padc sp) (width sp) p (lflag sp) (altflag sp).
Definition set_lflag (l : Z) (sp : spec) : spec := mk_spec (padc sp) (width sp) (precision sp) l (altflag sp).
Definition set_altflag (sp : spec) : spec := mk_spec (padc sp) (width sp) (precision sp) (lflag sp) true.

Definition fmt_char (fmt : list Z) (i : nat) : res Z := match fmt !! i with Some c => Ok c | None => Fault end.

Definition is_digit (ch : Z) : bool := (48 <=? ch) && (ch <=? 57).

(** The width field: the number, and the position behind it. *)
Fixpoint scan_num (fmt : list Z) (i : nat) (prec ch : Z) (fuel : nat) : res (Z * nat) :=
  match fuel with
  | O => Diverge
  | S fuel' =>
      let prec := i32 (i32 (prec * 10 + ch) - 48) in
      ch ← fmt_char fmt i;
      if is_digit ch then scan_num fmt (S i) prec ch fuel' else Ok (prec, i)
  end.

(** [process_precision] *)
Definition process_precision (p : Z) (sp : spec) : spec :=
  if width sp <? 0 then set_precision (-1) (set_width p sp) else set_precision p sp.

(** [for (fmt --; fmt[-1] != '%'; fmt --);] *)
Fixpoint rewind (fmt : list Z) (i : nat) : res nat :=
  match i with
  | O => Fault
  | S i' => c ← fmt_char fmt i'; if c =? 37 then Ok i else rewind fmt i'
  end.

(** One character of the format.  [fmt_rec] is the nested [printfmt]. *)
Definition fmt_step (fmt_rec : list Z -> va_list -> res (list Z)) (fmt : list Z) (st : fmt_state) : res (fmt_state + list Z) :=
  ch ← fmt_char fmt (at_ st);
  let next := S (at_ st) in
  match conv st with
  | None =>
      if ch =? 37 then Ok (inl (mk_fmt next (ap st) (out st) (Some spec0)))
      else if ch =? 0 then Ok (inr (out st))
      else Ok (inl (mk_fmt next (ap st) (out st ++ [ch]) None))
  | Some sp =>
      let flag sp := Ok (inl (mk_fmt next (ap st) (out st) (Some sp))) in
      let done ap s := Ok (inl (mk_fmt next ap (out st ++ s) None)) in
      let number pre num base ap :=
        s ← printnum PRINTNUM_FUEL num base (width sp) (padc sp); done ap (pre ++ s) in
      if ch =? 45 then flag (set_padc 45 sp)
      else if ch =? 48 then flag (set_padc 48 sp)
      else if (49 <=? ch) && (ch <=? 57) then
        '(p, i) ← scan_num fmt next 0 ch (S (length fmt));
        Ok (inl (mk_fmt i (ap st) (out st) (Some (process_precision p sp))))
      else if ch =? 42 then
        '(w, ap) ← va_next (ap st);
        Ok (inl (mk_fmt next ap (out st) (Some (process_precision (i32 w) sp))))
      else if ch =? 46 then flag (if width sp <? 0 then set_width 0 sp else sp)
      else if ch =? 35 then flag (set_altflag sp)
      else if ch =? 108 then flag (set_lflag (i32 (lflag sp + 1)) sp)
      else if ch =? 99 then '(w, ap) ← va_next (ap st); done ap [i32 w]
      else if ch =? 101 then
        '(w, ap) ← va_next (ap st);
        let err := i32 w in
        let err := if err <? 0 then i32 (- err) else err in
        if MAXERROR <? err then s ← fmt_rec (c_text "error %d") [va_word err]; done ap s
        else if err <? 0 then Fault
        else
          match error_string err with
          | None => s ← fmt_rec (c_text "error %d") [va_word err]; done ap s
          | Some p => s ← fmt_rec (c_text "%s") [va_ptr 1 (Some p)]; done ap s
          end
      else if ch =? 115 then
        '(_, p, ap) ← va_string (ap st);
        let p := default (c_text "(null)") p in
        '(before, w) ←
          (if (0 <? width sp) && negb (padc sp =? 45) then
             n ← strnlen_at p (u64 (precision sp)) 0;
             let w := i32 (width sp - n) in
             Ok (replicate (Z.to_nat w) (padc sp), if 0 <? w then 0 else w)
           else Ok ([], width sp));
        '(s, w) ← put_string (altflag sp) p (precision sp) w;
        done ap (before ++ s ++ replicate (Z.to_nat w) 32)
      else if ch =? 100 then
        '(w, ap) ← va_next (ap st);
        let num := getint w (lflag sp) in
        if num <? 0 then number [45] (u64 (- num)) 10 ap else number [] (u64 num) 10 ap
      else if ch =? 117 then '(w, ap) ← va_next (ap st); number [] (getuint w (lflag sp)) 10 ap
      else if ch =? 111 then '(w, ap) ← va_next (ap st); number [] (getuint w (lflag sp)) 8 ap
      else if ch =? 112 then '(p, _, ap) ← va_string (ap st); number (text "0x") (u64 p) 16 ap
      else if ch =? 120 then '(w, ap) ← va_next (ap st); number [] (getuint w (lflag sp)) 16 ap
      else if ch =? 37 then done (ap st) [ch]
      else i ← rewind fmt (at_ st); Ok (inl (mk_fmt i (ap st) (out st ++ [37]) None))
  end.

(** A conversion that is not known is printed as text, so that a part of the format
    is passed over twice. *)
Definition fmt_fuel (fmt : list Z) : nat := S ((length fmt + 1) * (2 * length fmt + 4)).

(** [%e] calls [printfmt], on formats without [%e]. *)
Fixpoint vprintfmt_at (depth : nat) (fmt : list Z) (ap : va_list) : res (list Z) :=
  match depth with
  | O => Diverge
  | S depth' => loop (fmt_step (vprintfmt_at depth') fmt) (fmt_fuel fmt) (mk_fmt 0 ap [] None)
  end.

Definition vprintfmt (fmt : list Z) (ap : va_list) : res (list Z) := vprintfmt_at 2 fmt ap.

Definition printfmt (fmt : list Z) (args : va_list) : res (list Z) := vprintfmt fmt args.

(** * Printing into a buffer *)

(** [buf] and [ebuf] are offsets into the buffer. *)
Record sprintbuf := mk_sprintbuf {
  mem : list Z;
  buf : Z;
  ebuf : Z;
  cnt : Z;
}.

Definition put_at (m : list Z) (i c : Z) : res (list Z) :=
  if (0 <=? i) && (i <? Z.of_nat (length m)) then Ok (<[Z.to_nat i := c]> m) else Fault.

Definition sprintputch (ch : Z) (b : sprintbuf) : res sprintbuf :=
  if buf b <? ebuf b then
    m ← put_at (mem b) (buf b) (ch mod 256); Ok (mk_sprintbuf m (buf b + 1) (ebuf b) (i32 (cnt b + 1)))
  else Ok (mk_sprintbuf (mem b) (buf b) (ebuf b) (i32 (cnt b + 1))).

Fixpoint sprint_all (s : list Z) (b : sprintbuf) : res sprintbuf :=
  match s with [] => Ok b | ch :: s' => b ← sprintputch ch b; sprint_all s' b end.

(** The buffer afterwards and the return value; a size of 0 puts the end of the buffer
    before its start. *)
Definition vsnprintf (str : option (list Z)) (size : Z) (fmt : list Z) (ap : va_list) : res (list Z * Z) :=
  match str with
  | None => Ok ([], - E_INVAL)
  | Some m =>
      let b := mk_sprintbuf m 0 (size - 1) 0 in
      if ebuf b <? buf b then Ok (m, - E_INVAL)
      else
        s ← vprintfmt fmt ap;
        b ← sprint_all s b;
        m ← put_at (mem b) (buf b) 0;
        Ok (m, cnt b)
  end.

Definition snprintf (str : option (list Z)) (size : Z) (fmt : list Z) (args : va_list) : res (list Z * Z) :=
  vsnprintf str size fmt args.

(** * rand.c *)
Definition RAND_MAX : Z := 2147483647.

(** The new [next] and the result. *)
Definition rand (next : Z) : res (Z * Z) :=
  let next := Z.land (u64 (u64 (next * 0x5DEECE66D) + 0xB)) (Z.shiftl 1 48 - 1) in
  let result := Z.shiftr next 12 in
  '(r, _) ← do_div result (RAND_MAX + 1);
  Ok (next, i32 r).

Definition srand (seed : Z) : Z := u32 seed.

#[global] Arguments printnum : simpl never.

(** * Numbers *)
Definition digit_of (d : Z) : Z := if d <? 10 then 48 + d else 87 + d.

(** The reference: the [k] digits of [num], the one of weight [base ^ i] for each [i]
    from the highest down. *)
Definition numeral (base num k : Z) : list Z := (fun i => digit_of ((num / base ^ i) mod base)) <$> reverse (seqZ 0 k).

Lemma digit_char_ok d : 0 <= d < 16 -> digit_char d = Ok (digit_of d).
Proof.
  intros Hd. assert (forallb (fun d => match digit_char d with Ok c => c =? digit_of d | _ => false end) (seqZ 0 16) = true) as H by (vm_compute; reflexivity).
  rewrite forallb_forall in H. specialize (H d ltac:(apply list_elem_of_In, elem_of_seqZ; lia)).
  destruct (digit_char d); try done. f_equal. lia.
Qed.

Lemma do_div_ok n base : 0 <= n < 2 ^ 64 -> 0 < base < 2 ^ 31 -> do_div n base = Ok (n mod base, n / base).
Proof.
  intros Hn Hb. unfold do_div. rewrite (proj2 (Z.eqb_neq base 0)) by lia. rewrite u64_small, u32_small by lia.
  pose proof (Z.mod_pos_bound n base). by rewrite i32_small by lia.
Qed.

Lemma numeral_one base num : 0 <= num < base -> numeral base num 1 = [digit_of num].
Proof. intros H. change (numeral base num 1) with [digit_of ((num / base ^ 0) mod base)]. by rewrite Z.pow_0_r, Z.div_1_r, Z.mod_small. Qed.

Lemma numeral_step base num k : 1 < base -> 1 <= k -> 0 <= num -> numeral base num (k + 1) = numeral base (num / base) k ++ [digit_of (num mod base)].
Proof.
  intros Hb Hk Hn. unfold numeral. rewrite (seqZ_cons 0 (k + 1)) by lia. rewrite reverse_cons, fmap_app. cbn [fmap list_fmap]. rewrite Z.pow_0_r, Z.div_1_r. f_equal.
  replace (Z.pred (k + 1)) with k by lia. change (Z.succ 0) with (1 + 0). rewrite <- (fmap_add_seqZ 1 0 k). rewrite <- fmap_reverse, <- list_fmap_compose.
  apply list_fmap_ext. intros i x Hx. apply list_elem_of_lookup_2, elem_of_reverse, elem_of_seqZ in Hx. cbn.
  rewrite Z.div_div by (try apply Z.pow_pos_nonneg; lia). rewrite <- (Z.pow_succ_r base x) by lia. by rewrite Z.add_comm.
Qed.

Lemma printnum_S fuel num base width padc :
  printnum (S fuel) num base width padc =
    ('(mod_, result) ← do_div num base;
     before ← (if base <=? num then printnum fuel result base (i32 (width - 1)) padc else Ok (pad width padc));
     c ← digit_char (u32 mod_);
     Ok (before ++ [c])).
Proof. done. Qed.

Lemma printnum_run fuel num base width padc :
  2 <= base <= 16 -> 0 <= num < 2 ^ Z.of_nat fuel -> (fuel <= 64)%nat -> - 2 ^ 31 + Z.of_nat fuel <= width < 2 ^ 31 ->
  exists k, 1 <= k <= Z.of_nat (S fuel) /\ num < base ^ k /\ (k = 1 \/ base ^ (k - 1) <= num) /\
    printnum (S fuel) num base width padc = Ok (replicate (Z.to_nat (width - k)) padc ++ numeral base num k).
Proof.
  revert num width. induction fuel as [|fuel IH]; intros num width Hb Hn Hf Hw.
  all: assert (2 ^ Z.of_nat 64 = 18446744073709551616) as H64 by done.
  all: assert (num < 2 ^ 64) as Hn64 by (pose proof (Z.pow_le_mono_r 2 _ _ ltac:(lia) (inj_le _ _ Hf)); change (Z.of_nat 64) with 64 in *; lia).
  all: rewrite printnum_S, (do_div_ok num base) by lia; cbn [mbind res_bind].
  all: pose proof (Z.mod_pos_bound num base ltac:(lia)) as Hm; rewrite (u32_small (num mod base)) by lia; rewrite (digit_char_ok (num mod base)) by lia.
  - exists 1. cbn in Hn. destruct (Z.leb_spec base num); [lia|]. cbn [mbind res_bind]. split; [lia|]. split; [lia|]. split; [by left|].
    rewrite numeral_one by lia. rewrite Z.mod_small by lia. done.
  - destruct (Z.leb_spec base num) as [Hge|Hlt].
    + assert (num / base < 2 ^ Z.of_nat fuel).
      { apply Z.div_lt_upper_bound; [lia|]. rewrite Nat2Z.inj_succ, Z.pow_succ_r in Hn by lia. nia. }
      rewrite i32_small by lia.
      destruct (IH (num / base) (width - 1)) as (k & Hk & Hlo & Hhi & Hrun); [lia|split; [apply Z.div_pos; lia|done]|lia|lia|].
      rewrite Hrun. cbn [mbind res_bind]. exists (k + 1). split; [lia|]. split; [|split].
      * replace (k + 1) with (Z.succ k) by lia. rewrite Z.pow_succ_r by lia. apply Z.nle_gt. intros Hc. apply Z.nle_gt in Hlo. apply Hlo. apply Z.div_le_lower_bound; lia.
      * right. replace (k + 1 - 1) with k by lia. destruct Hhi as [->|Hhi]; [rewrite Z.pow_1_r; lia|]. replace k with (Z.succ (k - 1)) by lia. rewrite Z.pow_succ_r by lia.
        pose proof (Z.mul_div_le num base ltac:(lia)). nia.
      * rewrite numeral_step by lia. rewrite app_assoc. by replace (width - (k + 1)) with (width - 1 - k) by lia.
    + exists 1. cbn [mbind res_bind]. split; [lia|]. split; [lia|]. split; [by left|]. rewrite numeral_one by lia. rewrite Z.mod_small by lia. done.
Qed.

Lemma digit_digit_of d : 0 <= d < 16 -> digit (digit_of d) = Some d /\ digit_of d <> 0.
Proof.
  intros Hd. assert (forallb (fun d => bool_decide (digit (digit_of d) = Some d) && negb (digit_of d =? 0)) (seqZ 0 16) = true) as H by (vm_compute; reflexivity).
  rewrite forallb_forall in H. specialize (H d ltac:(apply list_elem_of_In, elem_of_seqZ; lia)). apply andb_true_iff in H as [H1%bool_decide_eq_true H2]. split; [done|lia].
Qed.

(** The numeral is read back as the number. *)
Lemma numeral_value base k num :
  2 <= base <= 16 -> 0 <= num < base ^ Z.of_nat (S k) ->
  digits_value base (numeral base num (Z.of_nat (S k))) 0 = num /\ all_digits base (numeral base num (Z.of_nat (S k))) /\
  Forall (fun x => x <> 0) (numeral base num (Z.of_nat (S k))).
Proof.
  intros Hb. revert num. induction k as [|k IH]; intros num Hn.
  - change (Z.of_nat 1) with 1 in *. rewrite Z.pow_1_r in Hn. rewrite numeral_one by lia. destruct (digit_digit_of num ltac:(lia)) as [H H0].
    split; [unfold digits_value; cbn [foldl]; by rewrite H|]. split; [|by apply Forall_singleton]. apply Forall_singleton. exists num. split; [done|lia].
  - replace (Z.of_nat (S (S k))) with (Z.of_nat (S k) + 1) in * by lia. rewrite numeral_step by lia.
    pose proof (Z.mod_pos_bound num base ltac:(lia)). destruct (digit_digit_of (num mod base) ltac:(lia)) as [Hdig H0].
    destruct (IH (num / base)) as (Hv & Hd & Hz).
    { split; [apply Z.div_pos; lia|]. apply Z.div_lt_upper_bound; [lia|]. replace (Z.of_nat (S k) + 1) with (Z.succ (Z.of_nat (S k))) in Hn by lia. rewrite Z.pow_succ_r in Hn; lia. }
    split; [|split].
    + unfold digits_value in *. rewrite foldl_app, Hv. cbn [foldl]. rewrite Hdig. cbn [default from_option]. pose proof (Z.div_mod num base). cbn. lia.
    + apply Forall_app. split; [done|]. apply Forall_singleton. exists (num mod base). split; [done|lia].
    + apply Forall_app. split; [done|]. by apply Forall_singleton.
Qed.

(** [printnum] prints the numeral: for every base from 2 to 16 and every 64-bit
    number, with [k] the number of digits that the number needs, the digits printed
    are those of the positional notation, one for each weight [base ^ i], after as
    many padding characters as fill the field.  The recursion ends within 65 calls. *)
Theorem printnum_numeral num base width padc :
  2 <= base <= 16 -> 0 <= num < 2 ^ 64 -> - 2 ^ 31 + 64 <= width < 2 ^ 31 ->
  exists k, 1 <= k /\ num < base ^ k /\ (k = 1 \/ base ^ (k - 1) <= num) /\
    printnum PRINTNUM_FUEL num base width padc = Ok (replicate (Z.to_nat (width - k)) padc ++ numeral base num k).
Proof.
  intros Hb Hn Hw. destruct (printnum_run 64 num base width padc) as (k & Hk & H); [done|done|done|done|].
  exists k. split; [lia|exact H].
Qed.

Lemma printnum_numeral_witness :
  exists k, 1000 < 16 ^ k /\ printnum PRINTNUM_FUEL 1000 16 5 48 = Ok (replicate (Z.to_nat (5 - k)) 48 ++ numeral 16 1000 k) /\
    printnum PRINTNUM_FUEL 1000 16 5 48 = Ok (text "003e8").
Proof.
  destruct (printnum_numeral 1000 16 5 48) as (k & _ & Hlt & _ & Hrun); [lia|lia|lia|].
  exists k. split; [exact Hlt|]. split; [exact Hrun|vm_compute; reflexivity].
Defined.

(** C39. What ["%ld"] prints is what [strtol] reads: for every 64-bit signed number the
    text is printed without a fault, and wherever it lies in memory as a string,
    [strtol] in base 10 returns the number and stops at the end of the text. *)
Theorem print_then_strtol n :
  - 2 ^ 63 <= n < 2 ^ 63 ->
  exists s, vprintfmt (c_text "%ld") [va_word n] = Ok s /\
    forall m a, cstr m a s -> strtol m a 10 = Ok (n, a + Z.of_nat (length s)).
Proof.
  intros Hn. set (num := u64 (if n <? 0 then - n else n)). set (sg := if n <? 0 then [45] else []).
  assert (Hnum : 0 <= num < 2 ^ 64 /\ i64 (if n <? 0 then - num else num) = n).
  { unfold num. rewrite u64_small by (destruct (Z.ltb_spec n 0); lia). destruct (Z.ltb_spec n 0); (split; [lia|]); [rewrite Z.opp_involutive|]; by rewrite i64_small. }
  destruct Hnum as [Hnum Hback].
  destruct (printnum_run 64 num 10 (-1) 32) as (k & Hk & Hlt & _ & Hrun); [done|done|done|done|].
  replace (Z.to_nat (-1 - k)) with 0%nat in Hrun by lia. cbn [replicate app] in Hrun.
  assert (exists j, k = Z.of_nat (S j)) as [j ->] by (exists (Z.to_nat (k - 1)); lia).
  destruct (numeral_value 10 j num) as (Hv & Hd & _); [lia|lia|]. set (ds := numeral _ _ _) in *.
  exists (sg ++ ds). split.
  - change (c_text "%ld") with [37; 108; 100; 0]. unfold vprintfmt, vprintfmt_at. 
    change (fmt_fuel [37; 108; 100; 0]) with 61%nat. rewrite loop_S. cbn -[loop]. rewrite loop_S. cbn -[loop].
    rewrite loop_S. cbn -[loop i64 Z.opp u64 Z.ltb]. change (getint n (i32 (0 + 1))) with (i64 n). rewrite (i64_small n) by done.
    change PRINTNUM_FUEL with 65%nat. unfold num, sg in *. by destruct (n <? 0); rewrite Hrun.
  - intros m a Hs. pose proof (strtol_parses m a 10 [] sg (n <? 0) [] 10 ds []) as H.
    cbn [app] in H. rewrite app_nil_r in H. rewrite H; [|done|constructor|..].
    + rewrite Hv. by rewrite Hback.
    + unfold sg. destruct (n <? 0); constructor.
    + by constructor.
    + done.
    + intros E%(f_equal length). unfold ds, numeral in E. rewrite length_fmap, length_reverse, length_seqZ in E. cbn in E. lia.
    + done.
Qed.

(** * Termination *)
Lemma printnum_ends fuel num base width padc :
  2 <= base <= 16 -> 0 <= num < 2 ^ Z.of_nat fuel -> (fuel <= 64)%nat -> ends (printnum (S fuel) num base width padc).
Proof.
  revert num width. induction fuel as [|fuel IH]; intros num width Hb Hn Hf.
  all: assert (num < 2 ^ 64) as Hn64 by (pose proof (Z.pow_le_mono_r 2 _ _ ltac:(lia) (inj_le _ _ Hf)); change (Z.of_nat 64) with 64 in *; lia).
  all: rewrite printnum_S, (do_div_ok num base) by lia; cbn [mbind res_bind].
  all: pose proof (Z.mod_pos_bound num base ltac:(lia)) as Hm; rewrite (u32_small (num mod base)) by lia; rewrite (digit_char_ok (num mod base)) by lia.
  - cbn in Hn. destruct (Z.leb_spec base num); [lia|done].
  - destruct (Z.leb_spec base num) as [Hge|Hlt]; [|done]. apply ends_bind; [|done]. apply IH; [done| |lia].
    split; [apply Z.div_pos; lia|]. apply Z.div_lt_upper_bound; [lia|]. rewrite Nat2Z.inj_succ, Z.pow_succ_r in Hn by lia. nia.
Qed.

Lemma put_string_ends alt s precision width : ends (put_string alt s precision width).
Proof.
  revert precision width. induction s as [|ch s IH]; intros precision width; [done|]. cbn [put_string].
  destruct (ch =? 0); [done|]. destruct (_ || _); [|done]. apply ends_bind; [apply IH|]. by intros [out w] _.
Qed.

Lemma strnlen_ends s n cnt : ends (strnlen_at s n cnt).
Proof. revert cnt. induction s as [|ch s IH]; intros cnt; cbn [strnlen_at]; destruct (cnt <? n); try done. destruct (ch =? 0); [done|apply IH]. Qed.

Lemma scan_num_spec fmt i prec ch fuel :
  (i <= length fmt < fuel + i)%nat ->
  ends (scan_num fmt i prec ch fuel) /\
  forall p i', scan_num fmt i prec ch fuel = Ok (p, i') -> (i <= i' <= length fmt)%nat /\ forall j, (i <= j < i')%nat -> fmt !! j <> Some 37.
Proof.
  revert i prec ch. induction fuel as [|fuel IH]; intros i prec ch Hf.
  { lia. }
  cbn [scan_num]. unfold fmt_char. destruct (fmt !! i) as [c|] eqn:Hc; [|done]. cbn [mbind res_bind].
  pose proof (lookup_lt_Some _ _ _ Hc) as Hi. destruct (is_digit c) eqn:Ed.
  - destruct (IH (S i) (i32 (i32 (prec * 10 + ch) - 48)) c ltac:(lia)) as [He Hs]. split; [done|]. intros p i' Hr. destruct (Hs p i' Hr) as [Hr1 Hr2].
    split; [lia|]. intros j Hj. destruct (decide (j = i)) as [->|Hne]; [|apply Hr2; lia]. rewrite Hc. intros [= ->]. discriminate Ed.
  - split; [done|]. intros p i' [= _ <-]. split; [lia|]. intros j Hj. lia.
Qed.

Lemma rewind_spec fmt s i : (s < i)%nat -> fmt !! s = Some 37 -> (forall j, (s < j < i)%nat -> fmt !! j <> Some 37) -> (i <= length fmt)%nat -> rewind fmt i = Ok (S s).
Proof.
  intros Hs H37 Hno. induction i as [|i IH]; intros Hl; [lia|]. cbn [rewind]. unfold fmt_char.
  destruct (decide (i = s)) as [->|Hne]; [by rewrite H37|].
  destruct (fmt !! i) as [c|] eqn:Hc; [|apply lookup_ge_None in Hc; lia]. cbn [mbind res_bind].
  destruct (Z.eqb_spec c 37) as [->|]; [by destruct (Hno i ltac:(lia))|]. apply IH; [lia|intros j Hj; apply Hno; lia|lia].
Qed.

(** How many conversions may still begin, and how much of the format is left. *)
Definition percents (fmt : list Z) (i : nat) : nat := length (filter (fun c => c = 37) (drop i fmt)).

Definition fmt_measure (fmt : list Z) (st : fmt_state) : nat :=
  percents fmt (at_ st) * (2 * length fmt + 4) + (if conv st then length fmt + 2 else 0) + (length fmt - at_ st).

(** Inside a conversion, its ['%'] is the last one before. *)
Definition fmt_inv (fmt : list Z) (st : fmt_state) : Prop :=
  match conv st with
  | None => True
  | Some _ => exists s, (s < at_ st)%nat /\ fmt !! s = Some 37 /\ forall j, (s < j < at_ st)%nat -> fmt !! j <> Some 37
  end.

Lemma percents_step fmt i (c : Z) : fmt !! i = Some c -> percents fmt i = ((if decide (c = 37)%Z then 1 else 0) + percents fmt (S i))%nat.
Proof. intros Hc. unfold percents. rewrite (drop_S fmt c i Hc), filter_cons. by destruct (decide (c = 37)). Qed.

Lemma percents_skip fmt i i' : (i <= i' <= length fmt)%nat -> (forall j, (i <= j < i')%nat -> fmt !! j <> Some 37) -> percents fmt i = percents fmt i'.
Proof.
  intros [Hle Hl] Hno. induction i' as [|i' IH]; [by assert (i = 0)%nat as -> by lia|]. destruct (decide (i = S i')) as [->|Hne]; [done|].
  rewrite IH by (try lia; intros j Hj; apply Hno; lia). destruct (fmt !! i') as [c|] eqn:Hc; [|apply lookup_ge_None in Hc; lia].
  rewrite (percents_step fmt i' c Hc). rewrite decide_False; [done|]. intros ->. by destruct (Hno i' ltac:(lia)).
Qed.

Lemma percents_le fmt i : (percents fmt i <= length fmt)%nat.
Proof. unfold percents. etrans; [apply length_filter|]. rewrite length_drop. lia. Qed.

(** What a step may lead to. *)
Definition steps_to (fmt : list Z) (st : fmt_state) (r : res (fmt_state + list Z)) : Prop :=
  ends r /\ forall st', r = Ok (inl st') -> fmt_inv fmt st' /\ (fmt_measure fmt st' < fmt_measure fmt st)%nat.

Lemma steps_bind {A} fmt st (r : res A) f : ends r -> (forall a, r = Ok a -> steps_to fmt st (f a)) -> steps_to fmt st (r ≫= f).
Proof. destruct r; cbn; try done. auto. Qed.

Lemma va_next_ends ap : ends (va_next ap).
Proof. by destruct ap as [|[]]. Qed.

Lemma va_string_ends ap : ends (va_string ap).
Proof. by destruct ap as [|[]]. Qed.

(** The rest of a conversion that has come to its character [c], not a ['%']... *)
Section Conversion.
Variables (fmt : list Z) (st : fmt_state) (sp : spec) (c : Z).
Hypotheses (Hc : fmt !! at_ st = Some c) (Hconv : conv st = Some sp) (Hinv : fmt_inv fmt st).

Lemma at_inside : (S (at_ st) <= length fmt)%nat.
Proof. by apply lookup_lt_Some in Hc. Qed.

(** ... goes on behind it, *)
Lemma goes_on i ap out sp' :
  c <> 37 -> (S (at_ st) <= i <= length fmt)%nat -> (forall j, (S (at_ st) <= j < i)%nat -> fmt !! j <> Some 37) ->
  steps_to fmt st (Ok (inl (mk_fmt i ap out (Some sp')))).
Proof.
  intros H37 Hi Hno. split; [done|]. intros st' [= <-]. unfold fmt_inv in *. rewrite Hconv in Hinv. destruct Hinv as (s & Hs & H & Hn). split.
  - exists s. cbn [at_ conv]. split; [lia|]. split; [done|]. intros j Hj. destruct (decide (j < at_ st)%nat); [apply Hn; lia|].
    destruct (decide (j = at_ st)) as [->|]; [congruence|]. apply Hno. lia.
  - unfold fmt_measure. rewrite Hconv. cbn [at_ conv]. rewrite <- (percents_skip fmt (at_ st) i); [lia|lia|].
    intros j Hj. destruct (decide (j = at_ st)) as [->|]; [congruence|]. apply Hno. lia.
Qed.

(** ... or ends there. *)
Lemma is_over ap out : steps_to fmt st (Ok (inl (mk_fmt (S (at_ st)) ap out None))).
Proof.
  split; [done|]. intros st' [= <-]. split; [done|]. unfold fmt_measure. rewrite Hconv. cbn [at_ conv].
  rewrite (percents_step fmt _ c Hc). pose proof at_inside. destruct (decide _); lia.
Qed.

Lemma number_over (pre : list Z) num base ap :
  2 <= base <= 16 -> 0 <= num < 2 ^ 64 ->
  steps_to fmt st (s ← printnum PRINTNUM_FUEL num base (width sp) (padc sp); Ok (inl (mk_fmt (S (at_ st)) ap (out st ++ pre ++ s) None))).
Proof.
  intros Hb Hn. apply steps_bind; [by apply printnum_ends|]. intros s _. apply is_over.
Qed.

Lemma falls_back ap out : c <> 37 -> steps_to fmt st (i ← rewind fmt (at_ st); Ok (inl (mk_fmt i ap out None))).
Proof.
  intros H37. unfold fmt_inv in Hinv. rewrite Hconv in Hinv. destruct Hinv as (s & Hs & H & Hn). pose proof at_inside as Hl.
  rewrite (rewind_spec fmt s); [|done..|lia]. cbn [mbind res_bind]. split; [done|]. intros st' [= <-]. split; [done|].
  unfold fmt_measure. rewrite Hconv. cbn [at_ conv]. rewrite (percents_skip fmt (S s) (at_ st)); [lia|lia|]. intros j Hj. apply Hn. lia.
Qed.

End Conversion.

(** The nested calls that [%e] makes. *)
Definition rec_ok (fmt_rec : list Z -> va_list -> res (list Z)) : Prop :=
  (forall e, ends (fmt_rec (c_text "error %d") [va_word e])) /\
  (forall e p, error_string e = Some p -> ends (fmt_rec (c_text "%s") [va_ptr 1 (Some p)])).

Lemma u64_range2 z : 0 <= u64 z < 2 ^ 64.
Proof. apply u64_range. Qed.

Lemma getuint_range w l : 0 <= getuint w l < 2 ^ 64.
Proof. unfold getuint. pose proof (u64_range w). pose proof (u32_range w). destruct (2 <=? l); [done|]. destruct (negb _); [done|lia]. Qed.

Lemma fmt_step_steps fmt_rec fmt st : rec_ok fmt_rec -> fmt_inv fmt st -> steps_to fmt st (fmt_step fmt_rec fmt st).
Proof.
  intros [Hrec1 Hrec2] Hinv. unfold fmt_step, fmt_char at 1. destruct (fmt !! at_ st) as [c|] eqn:Hc; [|done]. cbn [mbind res_bind].
  pose proof (lookup_lt_Some _ _ _ Hc) as Hl. destruct (conv st) as [sp|] eqn:Hconv; cbv zeta.
  2: { pose proof (percents_step fmt _ c Hc) as Hp. destruct (Z.eqb_spec c 37) as [->|H37]; [|destruct (c =? 0); [done|]]; (split; [done|]); intros st' [= <-].
       - split; [exists (at_ st); cbn [at_]; split_and!; [lia|done|intros; lia]|]. unfold fmt_measure. rewrite Hconv. cbn [at_ conv]. rewrite decide_True in Hp by done. lia.
       - split; [done|]. unfold fmt_measure. rewrite Hconv. cbn [at_ conv]. rewrite decide_False in Hp by done. lia. }
  assert (Hflag : forall ap sp', c <> 37 -> steps_to fmt st (Ok (inl (mk_fmt (S (at_ st)) ap (out st) (Some sp'))))).
  { intros ap sp' H. apply (goes_on fmt st sp c); try done; intros; lia. }
  assert (Hover : forall ap out, steps_to fmt st (Ok (inl (mk_fmt (S (at_ st)) ap out None)))) by (intros; by apply (is_over fmt st sp c)).
  assert (Hnum : forall pre num base ap, 2 <= base <= 16 -> 0 <= num < 2 ^ 64 -> steps_to fmt st
     (s ← printnum PRINTNUM_FUEL num base (width sp) (padc sp); Ok (inl (mk_fmt (S (at_ st)) ap (out st ++ pre ++ s) None)))) by (intros; by apply (number_over fmt st sp c)).
  destruct (Z.eqb_spec c 45) as [->|_]; [by apply Hflag|]. destruct (Z.eqb_spec c 48) as [->|_]; [by apply Hflag|].
  destruct ((49 <=? c) && (c <=? 57)) eqn:Ed.
  { destruct (scan_num_spec fmt (S (at_ st)) 0 c (S (length fmt)) ltac:(lia)) as [He Hs]. apply steps_bind; [done|]. intros [p i] Hr.
    destruct (Hs p i Hr). apply (goes_on fmt st sp c); try done. lia. }
  destruct (Z.eqb_spec c 42) as [->|_]; [apply steps_bind; [apply va_next_ends|]; intros [w ap] _; by apply Hflag|].
  destruct (Z.eqb_spec c 46) as [->|_]; [by apply Hflag|]. destruct (Z.eqb_spec c 35) as [->|_]; [by apply Hflag|].
  destruct (Z.eqb_spec c 108) as [->|_]; [by apply Hflag|].
  destruct (Z.eqb_spec c 99) as [->|_]; [apply steps_bind; [apply va_next_ends|]; by intros [w ap] _|].
  destruct (Z.eqb_spec c 101) as [->|_].
  { apply steps_bind; [apply va_next_ends|]. intros [w ap] _. set (err := if i32 w <? 0 then _ else _).
    destruct (MAXERROR <? err); [apply steps_bind; [apply Hrec1|by intros; apply Hover]|]. destruct (err <? 0); [done|].
    destruct (error_string err) eqn:Ee; apply steps_bind; try by intros; apply Hover. by apply (Hrec2 err). by apply Hrec1. }
  destruct (Z.eqb_spec c 115) as [->|_].
  { apply steps_bind; [apply va_string_ends|]. intros [[q p] ap] _. apply steps_bind.
    { destruct ((0 <? width sp) && _); [|exact I]. apply ends_bind; [apply strnlen_ends|intros; exact I]. }
    intros [before w] _. apply steps_bind; [apply put_string_ends|]. intros [s w'] _. apply Hover. }
  destruct (Z.eqb_spec c 100) as [->|_].
  { apply steps_bind; [apply va_next_ends|]. intros [w ap] _. destruct (_ <? 0); apply Hnum; (lia || apply u64_range). }
  destruct (Z.eqb_spec c 117) as [->|_]; [apply steps_bind; [apply va_next_ends|]; intros [w ap] _; apply Hnum; [lia|apply getuint_range]|].
  destruct (Z.eqb_spec c 111) as [->|_]; [apply steps_bind; [apply va_next_ends|]; intros [w ap] _; apply Hnum; [lia|apply getuint_range]|].
  destruct (Z.eqb_spec c 112) as [->|_]; [apply steps_bind; [apply va_string_ends|]; intros [[q p] ap] _; apply Hnum; [lia|apply u64_range]|].
  destruct (Z.eqb_spec c 120) as [->|_]; [apply steps_bind; [apply va_next_ends|]; intros [w ap] _; apply Hnum; [lia|apply getuint_range]|].
  destruct (Z.eqb_spec c 37) as [->|H37]; [by apply Hover|]. by apply (falls_back fmt st sp c).
Qed.

Lemma format_ends fmt_rec fmt ap : rec_ok fmt_rec -> ends (loop (fmt_step fmt_rec fmt) (fmt_fuel fmt) (mk_fmt 0 ap [] None)).
Proof.
  intros Hrec. apply (loop_ends _ (fmt_inv fmt) (fmt_measure fmt)); [|done|].
  - intros st Hinv. by apply fmt_step_steps.
  - unfold fmt_measure, fmt_fuel. cbn [at_ conv]. pose proof (percents_le fmt 0). nia.
Qed.

Lemma error_number_ends e : ends (vprintfmt_at 1 (c_text "error %d") [va_word e]).
Proof.
  assert (forall p : bool, ends (printnum PRINTNUM_FUEL (u64 (if p then - i32 e else i32 e)) 10 (-1) 32)) as H.
  { intros p. apply printnum_ends; [lia|apply u64_range|lia]. }
  change (c_text "error %d") with [101; 114; 114; 111; 114; 32; 37; 100; 0]. cbn [vprintfmt_at]. change (fmt_fuel _) with 221%nat.
  do 7 (rewrite loop_S; cbn -[loop i32 Z.opp u64 Z.ltb]). rewrite loop_S. cbn -[loop i32 Z.opp u64 Z.ltb]. change (getint e 0) with (i32 e).
  pose proof (H (i32 e <? 0)) as Hp. destruct (i32 e <? 0), (printnum _ _ _ _ _) as [s| | |]; try done; cbn [mbind res_bind]; by rewrite loop_S.
Qed.

Lemma error_text_ends e p : error_string e = Some p -> ends (vprintfmt_at 1 (c_text "%s") [va_ptr 1 (Some p)]).
Proof. unfold error_string. repeat case_match; intros [= <-]; vm_compute; exact I. Qed.

(** C38. [vprintfmt] comes to an end on every format and every list of arguments, in
    particular on a conversion it does not know, which makes it walk back in the
    format: the state of the loop has a measure that each character decreases, and
    the only other outcome is an access behind the end of the format or of a string,
    or an argument that is not there. *)
Theorem vprintfmt_terminates fmt ap : ends (vprintfmt fmt ap).
Proof. apply format_ends. split; [exact error_number_ends|exact error_text_ends]. Qed.

(** * The buffer *)
Definition byte_of (c : Z) : Z := c mod 256.

Lemma sprint_all_run s pre post k c :
  (k < length post)%nat -> 0 <= c -> c + Z.of_nat (length s) < 2 ^ 31 ->
  sprint_all s (mk_sprintbuf (pre ++ post) (Z.of_nat (length pre)) (Z.of_nat (length pre + k)) c) =
  Ok (mk_sprintbuf (pre ++ (byte_of <$> take k s) ++ drop (length (take k s)) post) (Z.of_nat (length pre + length (take k s)))
        (Z.of_nat (length pre + k)) (c + Z.of_nat (length s))).
Proof.
  revert pre post k c. induction s as [|ch s IH]; intros pre post k c Hk Hc Hcs.
  - rewrite take_nil. cbn [sprint_all length fmap list_fmap app drop]. by rewrite Nat.add_0_r, Z.add_0_r.
  - cbn [sprint_all length] in *. unfold sprintputch. cbn [mem buf ebuf cnt]. rewrite i32_small by lia. destruct k as [|k].
    + destruct (Z.ltb_spec (Z.of_nat (length pre)) (Z.of_nat (length pre + 0))); [lia|]. cbn [mbind res_bind].
      rewrite (IH pre post 0%nat) by lia. cbn [take length fmap list_fmap app drop]. f_equal. f_equal. lia.
    + destruct post as [|x post]; [cbn in Hk; lia|]. cbn [length] in Hk.
      destruct (Z.ltb_spec (Z.of_nat (length pre)) (Z.of_nat (length pre + S k))); [|lia].
      assert (put_at (pre ++ x :: post) (Z.of_nat (length pre)) (ch mod 256) = Ok ((pre ++ [byte_of ch]) ++ post)) as ->.
      { unfold put_at. rewrite length_app. cbn [length]. destruct (Z.leb_spec 0 (Z.of_nat (length pre))), (Z.ltb_spec (Z.of_nat (length pre)) (Z.of_nat (length pre + S (length post)))); try lia.
        rewrite Nat2Z.id. cbn [andb]. rewrite <- app_assoc. f_equal. rewrite <- (Nat.add_0_r (length pre)), insert_app_r. done. }
      cbn [mbind res_bind]. replace (Z.of_nat (length pre) + 1) with (Z.of_nat (length (pre ++ [byte_of ch]))) by (rewrite length_app; cbn; lia).
      replace (Z.of_nat (length pre + S k)) with (Z.of_nat (length (pre ++ [byte_of ch]) + k)) by (rewrite length_app; cbn; lia).
      rewrite IH by lia. rewrite length_app. cbn [take length fmap list_fmap app drop]. rewrite <- !app_assoc. cbn [app]. f_equal. f_equal; lia.
Qed.

(** Printing into a buffer never goes past it: whatever the format prints, a buffer
    of [size] bytes holds at most [size - 1] characters of it followed by a
    terminator, the bytes behind that are untouched, and the return value is the
    length the whole text has.  A buffer of no bytes is refused. *)
Theorem vsnprintf_truncates m size fmt args s :
  vprintfmt fmt args = Ok s -> 0 <= size <= Z.of_nat (length m) -> Z.of_nat (length s) < 2 ^ 31 ->
  let shown := take (Z.to_nat (size - 1)) s in
  vsnprintf (Some m) size fmt args =
    if size =? 0 then Ok (m, - E_INVAL)
    else Ok ((byte_of <$> shown) ++ 0 :: drop (S (length shown)) m, Z.of_nat (length s)).
Proof.
  intros Hs Hsize Hlen shown. unfold vsnprintf. cbn [ebuf buf]. destruct (Z.eqb_spec size 0) as [->|Hne]; [done|].
  destruct (Z.ltb_spec (size - 1) 0); [lia|]. rewrite Hs. cbn [mbind res_bind].
  pose proof (sprint_all_run s [] m (Z.to_nat (size - 1)) 0 ltac:(lia) ltac:(lia) ltac:(lia)) as Hrun. cbn [app length Nat.add] in Hrun.
  rewrite Z2Nat.id in Hrun by lia. change (Z.of_nat 0) with 0 in Hrun. rewrite Hrun. cbn [mbind res_bind mem buf cnt]. fold shown.
  assert (length shown < length m)%nat as Hsh by (unfold shown; rewrite length_take; lia).
  unfold put_at. rewrite length_app, length_fmap, length_drop.
  destruct (Z.leb_spec 0 (Z.of_nat (length shown))), (Z.ltb_spec (Z.of_nat (length shown)) (Z.of_nat (length shown + (length m - length shown)))); try lia.
  cbn [andb mbind res_bind]. rewrite Nat2Z.id. f_equal. f_equal.
  destruct (lookup_lt_is_Some_2 m (length shown) Hsh) as [x Hx]. rewrite (drop_S m x _ Hx).
  pose proof (insert_app_r (byte_of <$> shown) (x :: drop (S (length shown)) m) 0 0) as Hins. rewrite length_fmap, Nat.add_0_r in Hins. by rewrite Hins.
Qed.

Lemma vsnprintf_truncates_witness :
  vsnprintf (Some (replicate 8 7)) 5 (c_text "%d-%s") [va_word (-12); va_ptr 1 (Some (c_text "abc"))] = Ok (text "-12-" ++ [0; 7; 7; 7], 7).
Proof.
  exact (vsnprintf_truncates (replicate 8 7) 5 (c_text "%d-%s") [va_word (-12); va_ptr 1 (Some (c_text "abc"))] (text "-12-abc")
    ltac:(vm_compute; reflexivity) ltac:(cbn; lia) ltac:(vm_compute; reflexivity)).
Defined.

Lemma print_then_strtol_witness :
  exists s, vprintfmt (c_text "%ld") [va_word (-9223372036854775808)] = Ok s /\
    forall m a, cstr m a s -> strtol m a 10 = Ok (-9223372036854775808, a + Z.of_nat (length s)).
Proof. apply (print_then_strtol (-9223372036854775808)). lia. Defined.

(** * Random numbers *)
Lemma rand_range next : exists next' r, rand next = Ok (next', r) /\ 0 <= next' < 2 ^ 48 /\ 0 <= r <= RAND_MAX.
Proof.
  unfold rand, RAND_MAX. change (Z.shiftl 1 48 - 1) with (Z.ones 48). rewrite Z.land_ones by lia.
  set (next' := _ mod 2 ^ 48). pose proof (Z.mod_pos_bound (u64 (u64 (next * 0x5DEECE66D) + 0xB)) (2 ^ 48) ltac:(lia)) as Hn. fold next' in Hn.
  assert (0 <= Z.shiftr next' 12 < 2 ^ 36) as Hr.
  { rewrite Z.shiftr_div_pow2 by lia. split; [apply Z.div_pos; lia|]. apply Z.div_lt_upper_bound; lia. }
  unfold do_div. change (2147483647 + 1 =? 0) with false. cbv iota. cbn [mbind res_bind]. change (u32 (2147483647 + 1)) with 2147483648.
  rewrite u64_small by lia. pose proof (Z.mod_pos_bound (Z.shiftr next' 12) 2147483648 ltac:(lia)).
  rewrite (i32_small (Z.shiftr next' 12 mod 2147483648)) by lia. rewrite i32_small by lia. eexists _, _. split; [reflexivity|]. lia.
Qed.
