(* ===== verification/Process.v ===== *)
(** Processes: numbers, tables and family relations (lab8/kern/process/proc.c).

    The processes themselves are those of the scheduler's state.  The lists through
    them - [proc_list] and the chains of [hash_list] - are lists of their addresses;
    the relations between parents and children are the pointers [proc_parent],
    [cptr], [optr] and [yptr] in the processes, as in the source. *)
From S2P Require Import Prelude Lists SkewHeap ProcStruct SchedClass RoundRobin Sched CString StateM.

Definition E_BAD_PROC : Z := 2.
Definition E_KILLED : Z := 9.

Definition HASH_SHIFT : Z := 10.

Definition pid_hashfn (x : Z) : Z := hash32 x HASH_SHIFT.

Record ptable : Type := PTable {
  pk : kernel;
  proc_list : list Z;
  hash_list : gmap Z (list Z);
  initproc : Z;
  nr_process : Z;
  next_safe : Z;
  last_pid : Z
}.

Definition with_pk (t : ptable) (k : kernel) : ptable :=
  PTable k (proc_list t) (hash_list t) (initproc t) (nr_process t) (next_safe t) (last_pid t).
Definition with_proc_list (t : ptable) (l : list Z) : ptable :=
  PTable (pk t) l (hash_list t) (initproc t) (nr_process t) (next_safe t) (last_pid t).
Definition with_hash_list (t : ptable) (h : gmap Z (list Z)) : ptable :=
  PTable (pk t) (proc_list t) h (initproc t) (nr_process t) (next_safe t) (last_pid t).
Definition with_nr_process (t : ptable) (n : Z) : ptable :=
  PTable (pk t) (proc_list t) (hash_list t) (initproc t) n (next_safe t) (last_pid t).
Definition with_pids (t : ptable) (next last : Z) : ptable :=
  PTable (pk t) (proc_list t) (hash_list t) (initproc t) (nr_process t) next last.

Definition procs_of (t : ptable) : gmap Z proc_struct := procs (sched (pk t)).

(** [proc->... = ...] *)
Definition put (t : ptable) (p : Z) (f : proc_struct -> proc_struct) : res ptable :=
  s ← upd_proc (sched (pk t)) p f; Ok (with_pk t (with_sched (pk t) s)).

Definition get (t : ptable) (p : Z) : res proc_struct := deref (procs_of t) p.

(** * One process *)

(** [boot_pgdir_pa]: the page table of the kernel. *)
Definition new_proc (boot_pgdir_pa : Z) : proc_struct :=
  Proc PROC_UNINIT (-1) 0 None 0 None None boot_pgdir_pa 0 (replicate (Z.to_nat (PROC_NAME_LEN + 1)) 0) 0 0 None None None None 0 0 0 None.

(** At a fresh address; [ok] is the outcome of [kmalloc].  What [memset] and the
    assignments do not write - the last byte of the name, the exit code - is [junk]. *)
Definition alloc_proc (boot_pgdir_pa junk_code junk_name : Z) (ok : bool) (t : ptable) : ptable * option Z :=
  if ok then
    let p := fresh (dom (procs_of t)) in
    let pr := ProcStruct.set_exit_code junk_code (ProcStruct.set_proc_name (replicate (Z.to_nat PROC_NAME_LEN) 0 ++ [junk_name]) (new_proc boot_pgdir_pa)) in
    (with_pk t (with_sched (pk t) (proc_new (sched (pk t)) p pr)), Some p)
  else (t, None).

(** [memcpy] of PROC_NAME_LEN bytes. *)
Definition set_proc_name (t : ptable) (p : Z) (name : list Z) : res ptable :=
  if Z.of_nat (length name) <? PROC_NAME_LEN then Fault
  else put t p (ProcStruct.set_proc_name (take (Z.to_nat PROC_NAME_LEN) name ++ [0])).

Definition get_proc_name (t : ptable) (p : Z) : res (list Z) :=
  pr ← get t p; Ok (take (Z.to_nat PROC_NAME_LEN) (proc_name pr) ++ [0]).

(** * Family *)
Definition set_links (t : ptable) (p : Z) : res ptable :=
  let t := with_proc_list t (p :: proc_list t) in
  t ← put t p (set_yptr None);
  pr ← get t p;
  par ← match proc_parent pr with Some par => Ok par | None => Fault end;
  ppr ← get t par;
  t ← put t p (set_optr (cptr ppr));
  t ← match cptr ppr with Some o => put t o (set_yptr (Some p)) | None => Ok t end;
  t ← put t par (set_cptr (Some p));
  Ok (with_nr_process t (i32 (nr_process t + 1))).

Definition remove_links (t : ptable) (p : Z) : res ptable :=
  let t := with_proc_list t (filter (fun x => x <> p) (proc_list t)) in
  pr ← get t p;
  t ← match optr pr with Some o => put t o (set_yptr (yptr pr)) | None => Ok t end;
  pr ← get t p;
  t ← match yptr pr with
      | Some y => put t y (set_optr (optr pr))
      | None => par ← match proc_parent pr with Some par => Ok par | None => Fault end; put t par (set_cptr (optr pr))
      end;
  Ok (with_nr_process t (i32 (nr_process t - 1))).

(** * Process numbers *)

(** One step of the walk: what is left of the list, [last_pid] and [next_safe]. *)
Definition get_pid_step (m : gmap Z proc_struct) (l : list Z) (st : list Z * Z * Z) : res (list Z * Z * Z + Z * Z) :=
  let '(rest, last, next) := st in
  match rest with
  | [] => Ok (inr (last, next))
  | p :: rest =>
      pr ← deref m p;
      if pid pr =? last then
        let last := i32 (last + 1) in
        if next <=? last then Ok (inl (l, if MAX_PID <=? last then 1 else last, MAX_PID))
        else Ok (inl (rest, last, next))
      else if (last <? pid pr) && (pid pr <? next) then Ok (inl (rest, last, pid pr))
      else Ok (inl (rest, last, next))
  end.

(** Every hit moves [last_pid] on, so that there are fewer than MAX_PID of them, and
    the walk starts again after a hit at most. *)
Definition get_pid_fuel (l : list Z) : nat := Z.to_nat MAX_PID * S (length l).

Definition get_pid_search (t : ptable) (last : Z) : res (Z * Z) :=
  loop (get_pid_step (procs_of t) (proc_list t)) (get_pid_fuel (proc_list t)) (proc_list t, last, MAX_PID).

Definition get_pid (t : ptable) : res (ptable * Z) :=
  let last := i32 (last_pid t + 1) in
  '(last, next) ←
    (if MAX_PID <=? last then get_pid_search t 1
     else if next_safe t <=? last then get_pid_search t last
     else Ok (last, next_safe t));
  Ok (with_pids t next last, last).

(** * Finding a process *)
Definition pid_chain (t : ptable) (pid : Z) : list Z := default [] (hash_list t !! pid_hashfn pid).

Definition hash_proc (t : ptable) (p : Z) : res ptable :=
  pr ← get t p;
  Ok (with_hash_list t (<[pid_hashfn (pid pr) := p :: pid_chain t (pid pr)]> (hash_list t))).

(** [list_del] on the link, wherever it is. *)
Definition unhash_proc (t : ptable) (p : Z) : ptable :=
  with_hash_list t (filter (fun x => x <> p) <$> hash_list t).

Fixpoint find_in (t : ptable) (x : Z) (chain : list Z) : res (option Z) :=
  match chain with
  | [] => Ok None
  | p :: chain' => pr ← get t p; if pid pr =? x then Ok (Some p) else find_in t x chain'
  end.

Definition find_proc (t : ptable) (x : Z) : res (option Z) :=
  if (0 <? x) && (x <? MAX_PID) then find_in t x (pid_chain t x) else Ok None.

Section Scheduled.
Context (c : sched_class).

Definition wakeup (t : ptable) (p : Z) : res ptable := k ← wakeup_proc c (pk t) p; Ok (with_pk t k).

Definition do_kill (t : ptable) (x : Z) : res (ptable * Z) :=
  f ← find_proc t x;
  match f with
  | Some p =>
      pr ← get t p;
      if Z.land (proc_flags pr) PF_EXITING =? 0 then
        t ← put t p (set_proc_flags (Z.lor (proc_flags pr) PF_EXITING));
        pr ← get t p;
        t ← (if negb (Z.land (wait_state pr) WT_INTERRUPTED =? 0) then wakeup t p else Ok t);
        Ok (t, 0)
      else Ok (t, - E_KILLED)
  | None => Ok (t, - E_INVAL)
  end.

Definition do_yield (t : ptable) : res ptable := put t (current (pk t)) (set_need_resched 1).

Definition lab6_set_priority (t : ptable) (priority : Z) : res ptable :=
  put t (current (pk t)) (ProcStruct.set_lab6_priority (if priority =? 0 then 1 else priority)).

(** * The end of a process *)

(** The first child [p] of [cur] becomes the first child of [init]. *)
Definition move_child (t : ptable) (cur init p : Z) : res ptable :=
  cpr ← get t p;
  t ← put t cur (set_cptr (optr cpr));
  t ← put t p (set_yptr None);
  ipr ← get t init;
  t ← put t p (set_optr (cptr ipr));
  t ← match cptr ipr with Some o => put t o (set_yptr (Some p)) | None => Ok t end;
  t ← put t p (set_proc_parent (Some init));
  put t init (set_cptr (Some p)).

(** [do_exit] gives the children of the current process to [initproc]; one round. *)
Definition exit_step (t : ptable) : res (ptable + ptable) :=
  let cur := current (pk t) in
  let init := initproc t in
  pr ← get t cur;
  match cptr pr with
  | None => Ok (inr t)
  | Some p =>
      t ← move_child t cur init p;
      cpr ← get t p;
      ipr ← get t init;
      t ← (if bool_decide (state cpr = PROC_ZOMBIE) && (wait_state ipr =? WT_CHILD) then wakeup t init else Ok t);
      Ok (inl t)
  end.

(** [do_exit] from the point where the memory and the files of the process are given
    up to the call of [schedule]. *)
Definition exit_notify (t : ptable) (error_code : Z) : res ptable :=
  let cur := current (pk t) in
  t ← put t cur (ProcStruct.set_state PROC_ZOMBIE);
  t ← put t cur (ProcStruct.set_exit_code error_code);
  pr ← get t cur;
  par ← match proc_parent pr with Some par => Ok par | None => Fault end;
  ppr ← get t par;
  t ← (if wait_state ppr =? WT_CHILD then wakeup t par else Ok t);
  loop exit_step (S (size (procs_of t))) t.

(** [do_wait]: is there a zombie among the children, and are there children at all? *)
Fixpoint wait_scan (t : ptable) (p : option Z) (haskid : bool) (n : nat) : res (option Z * bool) :=
  match n with
  | O => Diverge
  | S n' =>
      match p with
      | None => Ok (None, haskid)
      | Some p => pr ← get t p; if decide (state pr = PROC_ZOMBIE) then Ok (Some p, true) else wait_scan t (optr pr) true n'
      end
  end.

Definition wait_find (t : ptable) (x : Z) : res (option Z * bool) :=
  if negb (x =? 0) then
    f ← find_proc t x;
    match f with
    | Some p =>
        pr ← get t p;
        if bool_decide (proc_parent pr = Some (current (pk t))) then Ok (if decide (state pr = PROC_ZOMBIE) then Some p else None, true)
        else Ok (None, false)
    | None => Ok (None, false)
    end
  else
    pr ← get t (current (pk t));
    wait_scan t (cptr pr) false (S (size (procs_of t))).

End Scheduled.

(** * Numbers are unique *)
Definition pids (t : ptable) (l : list Z) : list Z := omap (fun p => pid <$> procs_of t !! p) l.

Definition live (t : ptable) (p : Z) : Prop := is_Some (procs_of t !! p).

(** No process in the table has a number strictly between the two. *)
Definition window (last next : Z) (ps : list Z) : Prop := Forall (fun x => ~ (last < x < next)) ps.

Lemma pids_cons t p l pr : procs_of t !! p = Some pr -> pids t (p :: l) = pid pr :: pids t l.
Proof. intros H. unfold pids. cbn [omap list_omap]. by rewrite H. Qed.

Lemma free_pid ps : Z.of_nat (length ps) < MAX_PID - 1 -> exists f, 1 <= f < MAX_PID /\ f ∉ ps.
Proof.
  intros Hl. destruct (decide (Exists (fun f => f ∉ ps) (seqZ 1 (MAX_PID - 1)))) as [He|Hn].
  - apply Exists_exists in He as (f & Hf & Hno). apply elem_of_seqZ in Hf. exists f. split; [lia|done].
  - assert (seqZ 1 (MAX_PID - 1) ⊆+ ps) as Hs.
    { apply NoDup_submseteq; [apply NoDup_seqZ|]. intros x Hx. destruct (decide (x ∈ ps)); [done|]. destruct Hn. apply Exists_exists. by exists x. }
    apply submseteq_length in Hs. rewrite length_seqZ in Hs. lia.
Qed.

(** How far the search may still move to reach the free number [f]. *)
Definition pid_dist (f last : Z) : Z := (f - last) mod (MAX_PID - 1).

Lemma pid_dist_step f last :
  1 <= f < MAX_PID -> 1 <= last < MAX_PID -> f <> last ->
  pid_dist f (if MAX_PID <=? last + 1 then 1 else last + 1) = pid_dist f last - 1 /\ 1 <= pid_dist f last < MAX_PID.
Proof.
  intros Hf Hl Hne. unfold pid_dist. set (N := MAX_PID - 1) in *. assert (N = 8191) as HN by done. assert (MAX_PID = 8192) as HM by done.
  assert (1 <= (f - last) mod N < MAX_PID) as Hd.
  { pose proof (Z.mod_pos_bound (f - last) N ltac:(lia)). split; [|lia]. destruct (decide ((f - last) mod N = 0)) as [H0|]; [|lia].
    apply Z.mod_divide in H0 as [q Hq]; [|lia]. nia. }
  split; [|done]. destruct (Z.leb_spec MAX_PID (last + 1)).
  - assert (last = N) as -> by lia. assert ((f - N) mod N = f mod N) as E by (replace (f - N) with (f + (-1) * N) by lia; apply Z.mod_add; lia).
    rewrite E in *. rewrite <- (Z.mod_small (f mod N - 1) N) by lia.
    by rewrite Zminus_mod_idemp_l.
  - rewrite <- (Z.mod_small ((f - last) mod N - 1) N) by lia. rewrite Zminus_mod_idemp_l. f_equal. lia.
Qed.

Section PidSearch.
Variables (t : ptable) (f : Z).
Hypothesis (Hlive : Forall (live t) (proc_list t)).
Hypothesis (Hf : 1 <= f < MAX_PID) (Hfree : f ∉ pids t (proc_list t)).

(** What the walk has passed lies below [last] or from [next] on. *)
Definition pid_inv (st : list Z * Z * Z) : Prop :=
  let '(rest, last, next) := st in
  1 <= last < next /\ next <= MAX_PID /\
  exists done, proc_list t = done ++ rest /\ Forall (fun x => x < last \/ next <= x) (pids t done).

Definition pid_measure (st : list Z * Z * Z) : nat :=
  let '(rest, last, _) := st in Z.to_nat (pid_dist f last) * S (length (proc_list t)) + length rest.

Lemma pids_app l1 l2 : pids t (l1 ++ l2) = pids t l1 ++ pids t l2.
Proof. unfold pids. by rewrite omap_app. Qed.

Lemma get_pid_walk fuel last :
  1 <= last < MAX_PID -> (pid_measure (proc_list t, last, MAX_PID) < fuel)%nat ->
  exists r, loop (get_pid_step (procs_of t) (proc_list t)) fuel (proc_list t, last, MAX_PID) = Ok r /\
    1 <= fst r < snd r /\ snd r <= MAX_PID /\ Forall (fun x => x < fst r \/ snd r <= x) (pids t (proc_list t)).
Proof.
  intros Hlast Hm. apply (loop_total _ pid_inv _ pid_measure); [|split; [lia|split; [lia|exists []; by split]]|done].
  intros [[rest l] next] (Hl & Hn & done & Hdone & Hpast). assert (MAX_PID = 8192) as HM by done.
  destruct rest as [|p rest]; [right|left].
  { exists (l, next). split; [reflexivity|]. rewrite Hdone, app_nil_r. by split. }
  assert (exists pr, procs_of t !! p = Some pr) as [pr Hp].
  { rewrite Forall_forall in Hlive. apply Hlive. rewrite Hdone. apply elem_of_app. right. left. }
  assert (pid pr ∈ pids t (proc_list t)) as Hin.
  { rewrite Hdone, pids_app, (pids_cons t p rest pr Hp). apply elem_of_app. right. left. }
  assert (Hsplit : proc_list t = (done ++ [p]) ++ rest) by (by rewrite <- app_assoc).
  assert (Hpids : pids t (done ++ [p]) = pids t done ++ [pid pr]) by (by rewrite pids_app, (pids_cons t p [] pr Hp)).
  cbn [get_pid_step]. rewrite (deref_some _ _ _ Hp). cbn [mbind res_bind].
  destruct (Z.eqb_spec (pid pr) l) as [Heq|Hne].
  - assert (f <> l) as Hfl by (intros ->; rewrite Heq in Hin; done).
    destruct (pid_dist_step f l Hf ltac:(lia) Hfl) as [Hdist Hpos]. rewrite i32_small by lia.
    destruct (Z.leb_spec next (l + 1)).
    + eexists. split; [reflexivity|]. split.
      * split; [destruct (Z.leb_spec MAX_PID (l + 1)); lia|]. split; [lia|]. exists []. by split.
      * unfold pid_measure. rewrite Hdist. cbn [length]. nia.
    + eexists. split; [reflexivity|]. split.
      * split; [lia|]. split; [lia|]. exists (done ++ [p]). split; [done|]. rewrite Hpids. apply Forall_app. split; [|apply Forall_singleton; lia].
        eapply Forall_impl; [exact Hpast|]. cbn. lia.
      * destruct (Z.leb_spec MAX_PID (l + 1)); [lia|]. unfold pid_measure. rewrite Hdist. cbn [length]. nia.
  - destruct ((l <? pid pr) && (pid pr <? next)) eqn:E; (eexists; split; [reflexivity|]; split; [|unfold pid_measure; cbn [length]; lia]).
    + split; [lia|]. split; [lia|]. exists (done ++ [p]). split; [done|]. rewrite Hpids. apply Forall_app. split; [|apply Forall_singleton; lia].
      eapply Forall_impl; [exact Hpast|]. cbn. lia.
    + split; [lia|]. split; [lia|]. exists (done ++ [p]). split; [done|]. rewrite Hpids. apply Forall_app. split; [done|]. apply Forall_singleton. lia.
Qed.
End PidSearch.

Lemma get_pid_run t :
  Forall (live t) (proc_list t) -> Z.of_nat (length (proc_list t)) < MAX_PID - 1 ->
  0 <= last_pid t <= MAX_PID -> next_safe t <= MAX_PID -> window (last_pid t) (next_safe t) (pids t (proc_list t)) ->
  exists next r, get_pid t = Ok (with_pids t next r, r) /\
    1 <= r < MAX_PID /\ r ∉ pids t (proc_list t) /\ next <= MAX_PID /\ window r next (r :: pids t (proc_list t)).
Proof.
  intros Hlive Hnum Hlast Hnext Hwin. assert (MAX_PID = 8192) as HM by done.
  destruct (free_pid (pids t (proc_list t))) as (f & Hf & Hfree).
  { unfold pids. eapply Z.le_lt_trans; [|exact Hnum]. apply inj_le. clear. induction (proc_list t) as [|p l IH]; [done|]. cbn. destruct (_ !! p); cbn; lia. }
  assert (Hsearch : forall last, 1 <= last < MAX_PID -> exists next r, get_pid_search t last = Ok (r, next) /\ 1 <= r < MAX_PID /\
     r ∉ pids t (proc_list t) /\ next <= MAX_PID /\ window r next (r :: pids t (proc_list t))).
  { intros last Hl. destruct (get_pid_walk t f Hlive Hf Hfree (get_pid_fuel (proc_list t)) last Hl) as ([r next] & Hrun & Hr & Hn & Hall).
    - unfold pid_measure, get_pid_fuel, pid_dist. pose proof (Z.mod_pos_bound (f - last) (MAX_PID - 1) ltac:(lia)). set (d := _ mod _) in *.
      assert (Z.to_nat d + 1 <= Z.to_nat MAX_PID)%nat by lia. nia.
    - cbn [fst snd] in *. exists next, r. split; [done|]. split; [lia|]. split; [|split; [done|]].
      + intros Hin. rewrite Forall_forall in Hall. specialize (Hall r Hin). lia.
      + apply Forall_cons. split; [lia|]. eapply Forall_impl; [exact Hall|]. cbn. lia. }
  unfold get_pid. rewrite i32_small by lia. destruct (Z.leb_spec MAX_PID (last_pid t + 1)).
  - destruct (Hsearch 1 ltac:(lia)) as (next & r & -> & H'). by exists next, r.
  - destruct (Z.leb_spec (next_safe t) (last_pid t + 1)).
    + destruct (Hsearch (last_pid t + 1) ltac:(lia)) as (next & r & -> & H'). by exists next, r.
    + exists (next_safe t), (last_pid t + 1). split; [done|]. split; [lia|]. unfold window in *. rewrite Forall_forall in Hwin. split; [|split; [done|]].
      * intros Hin. specialize (Hwin _ Hin). lia.
      * apply Forall_cons. split; [lia|]. apply Forall_forall. intros x Hx. specialize (Hwin x Hx). lia.
Qed.

(** C14. Process numbers are unique: with fewer processes than numbers, [get_pid] comes to
    an end, however often it has to start again, with a number from 1 to MAX_PID - 1
    that no process in the list has; and it keeps the range it remembers free of
    numbers in use, which is what lets the next calls return without a search. *)
Theorem get_pid_unique t :
  Forall (live t) (proc_list t) -> Z.of_nat (length (proc_list t)) < MAX_PID - 1 ->
  0 <= last_pid t <= MAX_PID -> next_safe t <= MAX_PID -> window (last_pid t) (next_safe t) (pids t (proc_list t)) ->
  exists next r, get_pid t = Ok (with_pids t next r, r) /\
    1 <= r < MAX_PID /\ r ∉ pids t (proc_list t) /\ next <= MAX_PID /\ window r next (r :: pids t (proc_list t)).
Proof. apply get_pid_run. Qed.
