(* ===== verification/ProcFamily.v ===== *)
(** The relations between parents and children keep their shape: what [exit_notify],
    [set_links], [remove_links] and the parts of [do_wait] do to them.

    [family m ch] says that in the heap [m] of processes the children of [p], from the
    youngest to the oldest, are [ch p]: [cptr] points at the first, [optr] from each to
    the next and [yptr] back, and [proc_parent] from each to [p]. *)
From S2P Require Import Prelude Lists SkewHeap ProcStruct SchedClass RoundRobin Sched CString StateM Process.

Definition before (l : list Z) (i : nat) : option Z := match i with O => None | S j => l !! j end.

Definition kids (m : gmap Z proc_struct) (p : Z) (l : list Z) : Prop :=
  NoDup l /\ cptr <$> m !! p = Some (head l) /\
  forall i c, l !! i = Some c ->
    proc_parent <$> m !! c = Some (Some p) /\ optr <$> m !! c = Some (l !! S i) /\ yptr <$> m !! c = Some (before l i).

Definition family (m : gmap Z proc_struct) (ch : Z -> list Z) : Prop := forall p, is_Some (m !! p) -> kids m p (ch p).

(** * Assignments to one process *)
Lemma put_run t p f : live t p -> exists t', put t p f = Ok t'.
Proof. intros [pr Hp]. unfold put. rewrite (upd_proc_ok _ _ _ _ Hp). eauto. Qed.

Lemma put_inv t p f t' :
  put t p f = Ok t' -> exists pr, procs_of t !! p = Some pr /\
    t' = with_pk t (with_sched (pk t) (with_procs (sched (pk t)) (<[p := f pr]> (procs_of t)))).
Proof. unfold put, upd_proc. destruct (procs (sched (pk t)) !! p) as [pr|] eqn:Hp; unfold deref; rewrite Hp; [|done]. intros [= <-]. by exists pr. Qed.

Lemma put_same {A} (g : proc_struct -> A) t p f t' x :
  (forall pr, g (f pr) = g pr) -> put t p f = Ok t' -> g <$> procs_of t' !! x = g <$> procs_of t !! x.
Proof.
  intros Hg (pr & Hp & ->)%put_inv. cbn. destruct (decide (x = p)) as [->|Hne]; [|by rewrite lookup_insert_ne].
  rewrite lookup_insert_eq, Hp. cbn. by rewrite Hg.
Qed.

Lemma put_set {A} (g : proc_struct -> A) v t p f t' x :
  (forall pr, g (f pr) = v) -> put t p f = Ok t' -> g <$> procs_of t' !! x = if decide (x = p) then Some v else g <$> procs_of t !! x.
Proof.
  intros Hg (pr & Hp & ->)%put_inv. cbn. destruct (decide (x = p)) as [->|Hne]; [|by rewrite lookup_insert_ne].
  rewrite lookup_insert_eq. cbn. by rewrite Hg.
Qed.

Lemma put_live t p f t' x : put t p f = Ok t' -> live t' x <-> live t x.
Proof.
  intros (pr & Hp & ->)%put_inv. unfold live. cbn. destruct (decide (x = p)) as [->|Hne]; [|by rewrite lookup_insert_ne].
  rewrite lookup_insert_eq, Hp. split; eauto.
Qed.

(** The parts of the table an assignment leaves alone. *)
Definition same_table (t t' : ptable) : Prop :=
  same_cpu (pk t) (pk t') /\ proc_list t' = proc_list t /\ hash_list t' = hash_list t /\ initproc t' = initproc t /\
  nr_process t' = nr_process t /\ next_safe t' = next_safe t /\ last_pid t' = last_pid t.

Lemma put_table t p f t' : put t p f = Ok t' -> same_table t t'.
Proof. intros (pr & Hp & ->)%put_inv. by repeat split. Qed.

Lemma same_table_refl t : same_table t t.
Proof. by repeat split. Qed.

Lemma same_table_trans t1 t2 t3 : same_table t1 t2 -> same_table t2 t3 -> same_table t1 t3.
Proof. intros ([]&?&?&?&?&?&?) ([]&?&?&?&?&?&?). repeat split; congruence. Qed.

Lemma field_get {A} (g : proc_struct -> A) t p pr : procs_of t !! p = Some pr -> g <$> procs_of t !! p = Some (g pr).
Proof. by intros ->. Qed.

Lemma get_ok t p pr : procs_of t !! p = Some pr -> get t p = Ok pr.
Proof. apply deref_some. Qed.

(** What a chain of assignments left in a field. *)
Ltac fields :=
  repeat match goal with
  | H : put ?a ?p ?f = Ok ?b |- context [?g <$> procs_of ?b !! ?x] =>
      first [rewrite (put_same g a p f b x (fun _ => eq_refl) H) | rewrite (put_set g _ a p f b x (fun _ => eq_refl) H)]
  end.

Ltac fields_in E :=
  repeat match goal with
  | H : put ?a ?p ?f = Ok ?b |- _ =>
      match type of E with
      | context [?g <$> procs_of b !! ?x] =>
          first [rewrite (put_same g a p f b x (fun _ => eq_refl) H) in E | rewrite (put_set g _ a p f b x (fun _ => eq_refl) H) in E]
      end
  end.

Ltac lives := repeat match goal with H : put _ _ _ = Ok ?b |- live ?b _ => apply (put_live _ _ _ _ _ H) end; try done.

(** The scheduler does not care about the relations. *)
Section Quiet.
Context `{SchedClass c}.

Lemma put_sched t p f t' q :
  put t p f = Ok t' -> sched_inv (c := c) (pk t) q -> quiet f -> (forall pr, state (f pr) = state pr) -> sched_inv (c := c) (pk t') q.
Proof.
  intros Hput [Hq Hc Hi Hoff Hin Hall] Hf Hs. pose proof (put_same state t p f t') as Hst. pose proof (put_live t p f t') as Hlv.
  destruct (put_table _ _ _ _ Hput) as ([Ec Ei] & _). pose proof Hput as (pr & Hp & Ht)%put_inv.
  assert (Hrun : forall x, runnable (pk t') x <-> runnable (pk t) x).
  { intros x. rewrite !runnable_states. unfold states. change (state <$> procs_of t' !! x = Some PROC_RUNNABLE <-> state <$> procs_of t !! x = Some PROC_RUNNABLE). by rewrite Hst. }
  split.
  - rewrite Ht. by apply (queue_upd _ _ _ pr).
  - rewrite Ec. by apply Hlv.
  - rewrite Ei. by apply Hlv.
  - by rewrite Ec, Ei.
  - intros x Hx. by apply Hrun, Hin.
  - intros x Hx%Hrun. rewrite Ec, Ei. by apply Hall.
Qed.

(** The current process may leave the runnable state. *)
Lemma put_current_state t v t' q :
  sched_inv (c := c) (pk t) q -> put t (current (pk t)) (set_state v) = Ok t' -> sched_inv (c := c) (pk t') q.
Proof.
  intros [Hq Hc Hi Hoff Hin Hall] Hput. pose proof (fun x => put_set state v t (current (pk t)) (set_state v) t' x (fun _ => eq_refl) Hput) as Hst. pose proof (fun x => put_live t _ _ t' x Hput) as Hlv.
  destruct (put_table _ _ _ _ Hput) as ([Ec Ei] & _). pose proof Hput as (pr & Hp & Ht)%put_inv.
  assert (Hrun : forall x, x <> current (pk t) -> runnable (pk t') x <-> runnable (pk t) x).
  { intros x Hx. rewrite !runnable_states. unfold states. change (state <$> procs_of t' !! x = Some PROC_RUNNABLE <-> state <$> procs_of t !! x = Some PROC_RUNNABLE).
    rewrite Hst. by rewrite decide_False. }
  split.
  - rewrite Ht. by apply (queue_upd _ _ _ pr).
  - rewrite Ec. by apply Hlv.
  - rewrite Ei. by apply Hlv.
  - by rewrite Ec, Ei.
  - intros x Hx. apply Hrun; [|by apply Hin]. intros E. destruct Hoff as [Hoff _]. by rewrite E in Hx.
  - intros x Hx. rewrite Ec, Ei. destruct (decide (x = current (pk t))) as [|Hne]; [by left|]. apply Hall. by apply Hrun.
Qed.

Lemma wakeup_run t q p pr :
  sched_inv (c := c) (pk t) q -> procs_of t !! p = Some pr -> state pr <> PROC_ZOMBIE ->
  exists t' q', wakeup c t p = Ok t' /\ sched_inv (c := c) (pk t') q' /\ same_table t t' /\
    (forall x, live t' x <-> live t x) /\
    (forall A (g : proc_struct -> A) x, (forall pr, g (core pr) = g pr) -> (forall pr, g (woken pr) = g pr) -> g <$> procs_of t' !! x = g <$> procs_of t !! x) /\
    (forall x, x <> p -> procs_of t' !! x = procs_of t !! x) /\ state <$> procs_of t' !! p = Some PROC_RUNNABLE.
Proof.
  intros Hinv Hp Hz. destruct (wakeup_proc_run (pk t) q p pr Hinv Hp Hz) as (k' & q' & Hrun & Hinv' & Hcpu & Hother & pr' & Hp' & Hst & Hcase).
  exists (with_pk t k'), q'. unfold wakeup. rewrite Hrun. change (procs_of (with_pk t k')) with (procs (sched k')).
  split; [done|]. split; [done|]. split; [by repeat split; destruct Hcpu|]. split; [|split; [|split; [done|by rewrite Hp', <- Hst]]].
  - intros x. unfold live. change (procs_of (with_pk t k')) with (procs (sched k')). destruct (decide (x = p)) as [->|Hne]; [|by rewrite Hother].
    rewrite Hp', Hp. split; eauto.
  - intros A g x Hg1 Hg2. destruct (decide (x = p)) as [->|Hne]; [|by rewrite Hother]. rewrite Hp', Hp. cbn. f_equal.
    destruct Hcase as [[_ Hcore]| ->]; [|done]. by rewrite <- (Hg1 pr'), Hcore, Hg1, Hg2.
Qed.
End Quiet.

(** * Orphans *)

(** The children still to be given away: the links back are not kept up. *)
Definition orphans (m : gmap Z proc_struct) (p : Z) (l : list Z) : Prop :=
  NoDup l /\ cptr <$> m !! p = Some (head l) /\
  forall i c, l !! i = Some c -> proc_parent <$> m !! c = Some (Some p) /\ optr <$> m !! c = Some (l !! S i).

Lemma kids_orphans m p l : kids m p l -> orphans m p l.
Proof. intros (H1 & H2 & H3). split; [done|]. split; [done|]. intros i c Hc. by destruct (H3 i c Hc) as (? & ? & _). Qed.

Lemma kids_parent m p l c : kids m p l -> c ∈ l -> proc_parent <$> m !! c = Some (Some p).
Proof. intros (_ & _ & H) [i Hi]%list_elem_of_lookup. by destruct (H i c Hi). Qed.

Lemma orphans_parent m p l c : orphans m p l -> c ∈ l -> proc_parent <$> m !! c = Some (Some p).
Proof. intros (_ & _ & H) [i Hi]%list_elem_of_lookup. by destruct (H i c Hi). Qed.

(** Processes whose relations are the same have the same children. *)
Lemma kids_same m m' p l :
  cptr <$> m' !! p = cptr <$> m !! p ->
  (forall c, c ∈ l -> proc_parent <$> m' !! c = proc_parent <$> m !! c /\ optr <$> m' !! c = optr <$> m !! c /\ yptr <$> m' !! c = yptr <$> m !! c) ->
  kids m p l -> kids m' p l.
Proof.
  intros Hc Hl (H1 & H2 & H3). split; [done|]. split; [by rewrite Hc|]. intros i x Hx.
  destruct (Hl x) as (-> & -> & ->); [by eapply list_elem_of_lookup_2|]. by apply H3.
Qed.

Lemma orphans_same m m' p l :
  cptr <$> m' !! p = cptr <$> m !! p ->
  (forall c, c ∈ l -> proc_parent <$> m' !! c = proc_parent <$> m !! c /\ optr <$> m' !! c = optr <$> m !! c) ->
  orphans m p l -> orphans m' p l.
Proof.
  intros Hc Hl (H1 & H2 & H3). split; [done|]. split; [by rewrite Hc|]. intros i x Hx.
  destruct (Hl x) as (-> & ->); [by eapply list_elem_of_lookup_2|]. by apply H3.
Qed.

Section Exit.
Context `{SchedClass c}.

(** The state in the middle of the loop of [do_exit]: [l] is still to be given away,
    [L] is what [initproc] has. *)
Record exit_inv (ch : Z -> list Z) (t : ptable) (cur init : Z) (l L : list Z) : Prop := ExitInv {
  ei_sched : exists q, sched_inv (c := c) (pk t) q;
  ei_cur : current (pk t) = cur;
  ei_init : initproc t = init;
  ei_ne : cur <> init;
  ei_live : live t cur /\ live t init;
  ei_alive : state <$> procs_of t !! init <> Some PROC_ZOMBIE;
  ei_parents : proc_parent <$> procs_of t !! cur <> Some (Some cur) /\
    proc_parent <$> procs_of t !! init <> Some (Some cur) /\ proc_parent <$> procs_of t !! init <> Some (Some init);
  ei_orphans : orphans (procs_of t) cur l;
  ei_kids : kids (procs_of t) init L;
  ei_other : forall p, live t p -> p <> cur -> p <> init -> kids (procs_of t) p (ch p)
}.

(** A process without its relations. *)
Definition kin (pr : proc_struct) : proc_struct := set_proc_parent None (set_cptr None (set_optr None (set_yptr None (core pr)))).

(** The assignments of one round, on the oldest state and the newest. *)
Lemma move_orphan ch t cur init p l L t' :
  exit_inv ch t cur init (p :: l) L ->
  (forall x, live t' x <-> live t x) -> same_table t t' -> (exists q, sched_inv (c := c) (pk t') q) ->
  state <$> procs_of t' !! init <> Some PROC_ZOMBIE ->
  (forall x, cptr <$> procs_of t' !! x = if decide (x = init) then Some (Some p) else if decide (x = cur) then Some (head l) else cptr <$> procs_of t !! x) ->
  (forall x, proc_parent <$> procs_of t' !! x = if decide (x = p) then Some (Some init) else proc_parent <$> procs_of t !! x) ->
  (forall x, optr <$> procs_of t' !! x = if decide (x = p) then Some (head L) else optr <$> procs_of t !! x) ->
  (forall x, yptr <$> procs_of t' !! x = if decide (head L = Some x) then Some (Some p) else if decide (x = p) then Some None else yptr <$> procs_of t !! x) ->
  exit_inv ch t' cur init l (p :: L).
Proof.
  intros [Hs Hc Hi Hne [Hlc Hli] Hal (Hpc & Hpi1 & Hpi2) Ho Hk Hot] Hlive Hsame Hs' Hal' Ecptr Epar Eoptr Eyptr.
  pose proof Hsame as ([Ec _] & _ & _ & Ei & _). pose proof Ho as (Hnd & _ & Hol). apply NoDup_cons in Hnd as [Hpl Hnd].
  assert (Hp : proc_parent <$> procs_of t !! p = Some (Some cur)) by (eapply orphans_parent; [exact Ho|by left]).
  assert (Hpcur : p <> cur) by (intros ->; done). assert (Hpinit : p <> init) by (intros ->; done).
  assert (HpL : p ∉ L) by (intros Hin; rewrite (kids_parent _ _ _ _ Hk Hin) in Hp; congruence).
  split; [done|by rewrite Ec|by rewrite Ei|done|by rewrite !Hlive|done| | | |].
  - rewrite !Epar, !decide_False by done. done.
  - split; [done|]. split; [rewrite Ecptr, decide_False, decide_True by done; done|]. intros i x Hx.
    assert (x <> p) by (intros ->; apply Hpl; by eapply list_elem_of_lookup_2). rewrite Epar, Eoptr, !decide_False by done. exact (Hol (S i) x Hx).
  - destruct Hk as (HndL & _ & HkL). split; [by apply NoDup_cons|]. split; [by rewrite Ecptr, decide_True|]. intros [|i] x Hx.
    + injection Hx as <-. rewrite Epar, Eoptr, Eyptr, !(decide_True (P := p = p)) by done. rewrite decide_False; [by destruct L|].
      intros E. apply HpL. destruct L; [done|]. injection E as ->. by left.
    + cbn in Hx. assert (x <> p) by (intros ->; apply HpL; by eapply list_elem_of_lookup_2). destruct (HkL i x Hx) as (H1 & H2 & H3).
      rewrite Epar, Eoptr, Eyptr, !(decide_False (P := x = p)) by done. split; [done|]. split; [done|]. destruct i as [|i].
      * rewrite decide_True; [done|]. by destruct L.
      * rewrite decide_False; [done|]. intros E. destruct L as [|y L]; [done|]. injection E as ->.
        assert (0%nat = S i) by (eapply NoDup_lookup; [exact HndL|done|exact Hx]). done.
  - intros q Hq Hqc Hqi. apply Hlive in Hq. pose proof (Hot q Hq Hqc Hqi) as Hkq. apply (kids_same (procs_of t)); [by rewrite Ecptr, !decide_False| |done].
    intros x Hx. pose proof (kids_parent _ _ _ _ Hkq Hx) as Hpx. assert (x <> p) by (intros ->; congruence).
    rewrite Epar, Eoptr, Eyptr, !(decide_False (P := x = p)) by done. rewrite decide_False; [done|]. intros E.
    assert (x ∈ L) as HxL by (destruct L; [done|]; injection E as ->; by left). rewrite (kids_parent _ _ _ _ Hk HxL) in Hpx. congruence.
Qed.

Lemma link_back t q (o : option Z) p :
  sched_inv (c := c) (pk t) q -> (forall x, o = Some x -> live t x) ->
  exists t', match o with Some o => put t o (set_yptr (Some p)) | None => Ok t end = Ok t' /\
    (forall x, live t' x <-> live t x) /\ same_table t t' /\ sched_inv (c := c) (pk t') q /\
    (forall A (g : proc_struct -> A) x, (forall v pr, g (set_yptr v pr) = g pr) -> g <$> procs_of t' !! x = g <$> procs_of t !! x) /\
    (forall x, yptr <$> procs_of t' !! x = if decide (o = Some x) then Some (Some p) else yptr <$> procs_of t !! x).
Proof.
  intros Hs Hl. destruct o as [o|].
  - destruct (put_run t o (set_yptr (Some p))) as [t4 E4]; [by apply Hl|]. exists t4. split; [done|]. split; [intros x; by eapply put_live|].
    split; [by eapply put_table|]. split; [exact (put_sched _ _ _ _ _ E4 Hs (fun _ => eq_refl) (fun _ => eq_refl))|]. split.
    + intros A g x Hg. apply (put_same g _ _ _ _ _ (Hg _) E4).
    + intros x. rewrite (put_set yptr (Some p) t o (set_yptr (Some p)) t4 x (fun _ => eq_refl) E4). destruct (decide (x = o)) as [->|Hxo]; [by rewrite decide_True|].
      rewrite decide_False; [done|]. by intros [= ->].
  - exists t. split; [done|]. split; [done|]. split; [apply same_table_refl|done].
Qed.

Lemma exit_step_none ch t cur init L : exit_inv ch t cur init [] L -> exit_step c t = Ok (inr t).
Proof.
  intros [_ Hc _ _ [[pr Hp] _] _ _ (_ & Ho & _) _ _]. unfold exit_step. rewrite Hc, (get_ok _ _ _ Hp). cbn [mbind res_bind].
  rewrite Hp in Ho. cbn in Ho. injection Ho as ->. done.
Qed.

Lemma move_child_run ch t cur init p l L :
  exit_inv ch t cur init (p :: l) L ->
  exists t', move_child t cur init p = Ok t' /\ exit_inv ch t' cur init l (p :: L) /\ (forall x, live t' x <-> live t x) /\ same_table t t' /\
    (forall x, kin <$> procs_of t' !! x = kin <$> procs_of t !! x).
Proof.
  intros Hinv. pose proof Hinv as [[q Hs] Hc Hi Hne [Hlc Hli] Hal (Hpc & Hpi1 & _) Ho Hk _].
  assert (Hp : proc_parent <$> procs_of t !! p = Some (Some cur)) by (eapply orphans_parent; [exact Ho|by left]).
  assert (Hpcur : p <> cur) by (intros ->; done). assert (Hpinit : p <> init) by (intros ->; done).
  destruct Ho as (_ & _ & Hol). destruct (Hol 0%nat p eq_refl) as [_ Hop]. destruct Hk as (_ & Hci & HkL).
  destruct (procs_of t !! p) as [cpr|] eqn:Hcpr; [|done]. assert (Hlp : live t p) by (by exists cpr). cbn in Hop. injection Hop as Hop.
  unfold move_child. rewrite (get_ok _ _ _ Hcpr). cbn [mbind res_bind].
  destruct (put_run t cur (set_cptr (optr cpr))) as [t1 E1]; [done|]. rewrite E1. cbn [mbind res_bind].
  destruct (put_run t1 p (set_yptr None)) as [t2 E2]; [lives|]. rewrite E2. cbn [mbind res_bind].
  assert (exists ipr2, procs_of t2 !! init = Some ipr2 /\ cptr ipr2 = head L) as (ipr2 & Hipr2 & Hc2).
  { assert (cptr <$> procs_of t2 !! init = Some (head L)) as E by (fields; rewrite decide_False by done; exact Hci).
    destruct (procs_of t2 !! init) as [i2|]; [|done]. exists i2. split; [done|]. by injection E. }
  rewrite (get_ok _ _ _ Hipr2). cbn [mbind res_bind]. rewrite Hc2.
  destruct (put_run t2 p (set_optr (head L))) as [t3 E3]; [lives|]. rewrite E3. cbn [mbind res_bind].
  pose proof (put_sched _ _ _ _ _ E1 Hs (fun _ => eq_refl) (fun _ => eq_refl)) as Hs1.
  pose proof (put_sched _ _ _ _ _ E2 Hs1 (fun _ => eq_refl) (fun _ => eq_refl)) as Hs2.
  pose proof (put_sched _ _ _ _ _ E3 Hs2 (fun _ => eq_refl) (fun _ => eq_refl)) as Hs3.
  destruct (link_back t3 q (head L) p) as (t4 & E4 & Hl4 & Ht4 & Hs4 & Hg4 & Hy4); [done| |].
  { intros o Ho. lives. destruct L as [|o' L]; [done|]. injection Ho as <-. destruct (HkL 0%nat o' eq_refl) as (Ho & _). unfold live. by destruct (procs_of t !! o'). }
  rewrite E4. cbn [mbind res_bind].
  destruct (put_run t4 p (set_proc_parent (Some init))) as [t5 E5]; [apply Hl4; lives|]. rewrite E5. cbn [mbind res_bind].
  destruct (put_run t5 init (set_cptr (Some p))) as [t6 E6]; [lives; apply Hl4; lives|].
  pose proof (put_sched _ _ _ _ _ E5 Hs4 (fun _ => eq_refl) (fun _ => eq_refl)) as Hs5.
  pose proof (put_sched _ _ _ _ _ E6 Hs5 (fun _ => eq_refl) (fun _ => eq_refl)) as Hs6.
  assert (Hlive : forall x, live t6 x <-> live t x).
  { intros x. rewrite (put_live _ _ _ _ x E6), (put_live _ _ _ _ x E5), Hl4, (put_live _ _ _ _ x E3), (put_live _ _ _ _ x E2). by apply put_live with (1 := E1). }
  assert (Htab : same_table t t6).
  { repeat (eapply same_table_trans; [by eapply put_table|]). eapply same_table_trans; [exact Ht4|]. eapply same_table_trans; by eapply put_table. }
  assert (Hkin : forall x, kin <$> procs_of t6 !! x = kin <$> procs_of t !! x) by (intros x; fields; rewrite Hg4 by done; by fields).
  exists t6. split; [exact E6|]. split; [|by split_and!].
  apply (move_orphan ch t cur init p l L t6 Hinv); [done|done|by exists q| | | | |].
  - pose proof (Hkin init) as E. destruct (procs_of t6 !! init), (procs_of t !! init); try done. injection E as E. cbn. intros [= E']. apply Hal. cbn. by rewrite <- E, E'.
  - intros x. fields. rewrite Hg4 by done. fields. rewrite Hop. by destruct l.
  - intros x. fields. rewrite Hg4 by done. by fields.
  - intros x. fields. rewrite Hg4 by done. by fields.
  - intros x. fields. rewrite Hy4. by fields.
Qed.

Lemma kin_field {A} (g : proc_struct -> A) t t' x :
  (forall pr, g (kin pr) = g pr) -> kin <$> procs_of t' !! x = kin <$> procs_of t !! x -> g <$> procs_of t' !! x = g <$> procs_of t !! x.
Proof.
  intros Hg E. destruct (procs_of t' !! x) as [a|], (procs_of t !! x) as [b|]; try done. cbn in E |- *. apply (inj Some) in E. f_equal. by rewrite <- Hg, E.
Qed.

Lemma exit_inv_wakeup ch t cur init l L p pr :
  exit_inv ch t cur init l L -> procs_of t !! p = Some pr -> state pr <> PROC_ZOMBIE ->
  exists t', wakeup c t p = Ok t' /\ exit_inv ch t' cur init l L /\ (forall x, live t' x <-> live t x) /\ same_table t t' /\
    (forall x, x <> p -> procs_of t' !! x = procs_of t !! x) /\ state <$> procs_of t' !! p = Some PROC_RUNNABLE.
Proof.
  intros [[q Hs] Hc Hi Hne Hl Hal Hpar Ho Hk Hot] Hp Hz.
  destruct (wakeup_run t q p pr Hs Hp Hz) as (t' & q' & Hrun & Hs' & Htab & Hlive & Hg & Hother & Hr). exists t'.
  split; [done|]. split; [|by split_and!]. pose proof Htab as ([Ec _] & _ & _ & Ei & _).
  split; [by exists q'|by rewrite Ec|by rewrite Ei|done|by rewrite !Hlive| | | | |].
  - destruct (decide (init = p)) as [->|Hip]; [by rewrite Hr|by rewrite Hother].
  - by rewrite !(Hg _ proc_parent).
  - apply (orphans_same (procs_of t)); [by apply Hg|intros x _; split; by apply Hg|done].
  - apply (kids_same (procs_of t)); [by apply Hg|intros x _; split_and!; by apply Hg|done].
  - intros x Hx Hxc Hxi. apply (kids_same (procs_of t)); [by apply Hg|intros y _; split_and!; by apply Hg|]. apply Hot; [by apply Hlive|done|done].
Qed.

Lemma exit_step_some ch t cur init p l L :
  exit_inv ch t cur init (p :: l) L ->
  exists t', exit_step c t = Ok (inl t') /\ exit_inv ch t' cur init l (p :: L) /\ (forall x, live t' x <-> live t x) /\ same_table t t' /\
    (forall x, x <> init -> kin <$> procs_of t' !! x = kin <$> procs_of t !! x) /\
    (state <$> procs_of t' !! init = Some PROC_RUNNABLE \/
     kin <$> procs_of t' !! init = kin <$> procs_of t !! init /\
     ~ (state <$> procs_of t !! p = Some PROC_ZOMBIE /\ wait_state <$> procs_of t !! init = Some WT_CHILD)).
Proof.
  intros Hinv. pose proof Hinv as [_ Hc Hi _ [[pr Hpr] Hli] _ _ Ho _ _].
  destruct (move_child_run _ _ _ _ _ _ _ Hinv) as (t1 & Hmove & Hinv1 & Hlive1 & Htab1 & Hkin1).
  assert (live t p) as Hlp by (pose proof (orphans_parent _ _ _ p Ho ltac:(by left)) as E; unfold live; by destruct (procs_of t !! p)).
  destruct Ho as (_ & Hcp & _). rewrite Hpr in Hcp. cbn in Hcp. injection Hcp as Hcp.
  unfold exit_step. rewrite Hc, Hi, (get_ok _ _ _ Hpr). cbn [mbind res_bind]. rewrite Hcp, Hmove. cbn [mbind res_bind].
  apply Hlive1 in Hlp as [cpr Hcpr]. pose proof Hli as Hli1. apply Hlive1 in Hli1 as [ipr Hipr].
  rewrite (get_ok _ _ _ Hcpr), (get_ok _ _ _ Hipr). cbn [mbind res_bind].
  pose proof (kin_field state t t1 p (fun _ => eq_refl) (Hkin1 p)) as Es. pose proof (kin_field wait_state t t1 init (fun _ => eq_refl) (Hkin1 init)) as Ew.
  rewrite Hcpr in Es. rewrite Hipr in Ew. cbn in Es, Ew.
  destruct (bool_decide (state cpr = PROC_ZOMBIE) && (wait_state ipr =? WT_CHILD)) eqn:E.
  - destruct (exit_inv_wakeup _ _ _ _ _ _ init ipr Hinv1 Hipr) as (t2 & Hw & Hinv2 & Hlive2 & Htab2 & Hother & Hr).
    { intros Hz. apply (ei_alive _ _ _ _ _ _ Hinv1). by rewrite Hipr, <- Hz. }
    rewrite Hw. cbn [mbind res_bind]. exists t2. split; [done|]. split; [done|]. split; [intros x; by rewrite Hlive2, Hlive1|].
    split; [by eapply same_table_trans|]. split; [intros x Hx; by rewrite Hother, Hkin1|by left].
  - cbn [mbind res_bind]. exists t1. split; [done|]. split; [done|]. split; [done|]. split; [done|]. split; [intros x _; by rewrite Hkin1|].
    right. split; [done|]. rewrite <- Es, <- Ew. intros [[= H1] [= H2]]. rewrite H1, H2, Z.eqb_refl in E. by rewrite bool_decide_true in E.
Qed.

Lemma exit_loop ch cur init l fuel :
  forall t L, exit_inv ch t cur init l L -> (length l < fuel)%nat ->
  exists t', loop (exit_step c) fuel t = Ok t' /\ exit_inv ch t' cur init [] (reverse l ++ L) /\ same_table t t' /\ (forall x, live t' x <-> live t x) /\
    (forall x, x <> init -> kin <$> procs_of t' !! x = kin <$> procs_of t !! x) /\
    (state <$> procs_of t' !! init = Some PROC_RUNNABLE \/
     kin <$> procs_of t' !! init = kin <$> procs_of t !! init /\
     forall z, z ∈ l -> ~ (state <$> procs_of t !! z = Some PROC_ZOMBIE /\ wait_state <$> procs_of t !! init = Some WT_CHILD)).
Proof.
  revert fuel. induction l as [|p l IH]; intros [|fuel] t L Hinv Hf; try (cbn in Hf; lia); rewrite loop_S.
  - rewrite (exit_step_none _ _ _ _ _ Hinv). exists t. split; [done|]. split; [done|]. split; [apply same_table_refl|]. split; [done|]. split; [done|].
    right. split; [done|]. by intros z ?%elem_of_nil.
  - destruct (exit_step_some _ _ _ _ _ _ _ Hinv) as (t1 & -> & Hinv1 & Hlive1 & Htab1 & Hkin1 & Hw1).
    destruct (IH fuel t1 (p :: L) Hinv1 ltac:(cbn in Hf; lia)) as (t2 & -> & Hinv2 & Htab2 & Hlive2 & Hkin2 & Hw2).
    exists t2. split; [done|]. split; [by rewrite reverse_cons, <- app_assoc|]. split; [by eapply same_table_trans|]. split; [intros x; by rewrite Hlive2|].
    split; [intros x Hx; by rewrite Hkin2, Hkin1|].
    destruct Hw2 as [|[E2 Hno2]]; [by left|]. destruct Hw1 as [E1|[E1 Hno1]].
    + left. rewrite <- E1. by apply kin_field.
    + right. split; [congruence|]. intros z [->|Hz]%elem_of_cons; [done|].
      assert (z <> init) as Hzi.
      { intros ->. pose proof (orphans_parent _ _ _ init (ei_orphans _ _ _ _ _ _ Hinv1) Hz) as Hp. by destruct (ei_parents _ _ _ _ _ _ Hinv1) as (_ & Hp' & _). }
      specialize (Hno2 z Hz). rewrite (kin_field state t t1 z (fun _ => eq_refl) (Hkin1 z Hzi)) in Hno2. by rewrite (kin_field wait_state t t1 init (fun _ => eq_refl) E1) in Hno2.
Qed.

(** What a process table must satisfy for a process to end: everybody's children are
    listed, the current process is not [initproc], and neither is its own parent nor
    the other's... *)
Definition exit_ready (t : ptable) (ch : Z -> list Z) (par : Z) : Prop :=
  (exists q, sched_inv (c := c) (pk t) q) /\ family (procs_of t) ch /\ current (pk t) <> initproc t /\
  live t (initproc t) /\ state <$> procs_of t !! initproc t <> Some PROC_ZOMBIE /\
  proc_parent <$> procs_of t !! current (pk t) = Some (Some par) /\ par <> current (pk t) /\
  proc_parent <$> procs_of t !! initproc t <> Some (Some (current (pk t))) /\
  proc_parent <$> procs_of t !! initproc t <> Some (Some (initproc t)) /\
  live t par /\ state <$> procs_of t !! par <> Some PROC_ZOMBIE.

(** The children after [cur] has ended. *)
Definition ch_exit (ch : Z -> list Z) (cur init p : Z) : list Z :=
  if decide (p = cur) then [] else if decide (p = init) then reverse (ch cur) ++ ch init else ch p.

(** The process becomes a zombie. *)
Lemma exit_marked t ch par code :
  exit_ready t ch par ->
  exists t1 t2, put t (current (pk t)) (ProcStruct.set_state PROC_ZOMBIE) = Ok t1 /\ put t1 (current (pk t)) (ProcStruct.set_exit_code code) = Ok t2 /\
    exit_inv ch t2 (current (pk t)) (initproc t) (ch (current (pk t))) (ch (initproc t)) /\ same_table t t2 /\ (forall x, live t2 x <-> live t x) /\
    (forall x, x <> current (pk t) -> procs_of t2 !! x = procs_of t !! x) /\
    exists cpr, procs_of t2 !! current (pk t) = Some cpr /\ state cpr = PROC_ZOMBIE /\ exit_code cpr = code /\ proc_parent cpr = Some par.
Proof.
  intros ([q Hs] & Hfam & Hne & Hli & Hal & Hpc & Hparne & Hpi1 & Hpi2 & Hlp & Halp). set (cur := current (pk t)) in *. set (init := initproc t) in *.
  assert (live t cur) as Hlc by (unfold live; by destruct (procs_of t !! cur)).
  destruct (put_run t cur (ProcStruct.set_state PROC_ZOMBIE)) as [t1 E1]; [done|].
  destruct (put_run t1 cur (ProcStruct.set_exit_code code)) as [t2 E2]; [lives|]. exists t1, t2. split; [done|]. split; [done|].
  pose proof (put_current_state _ _ _ _ Hs E1) as Hs1. pose proof (put_sched _ _ _ _ _ E2 Hs1 (fun _ => eq_refl) (fun _ => eq_refl)) as Hs2.
  assert (Htab2 : same_table t t2) by (eapply same_table_trans; by eapply put_table). pose proof Htab2 as ([Ec _] & _ & _ & Ei & _).
  assert (Hlive2 : forall x, live t2 x <-> live t x) by (intros x; rewrite (put_live _ _ _ _ x E2); by apply put_live with (1 := E1)).
  assert (Hother : forall x, x <> cur -> procs_of t2 !! x = procs_of t !! x).
  { intros x Hx. apply put_inv in E1 as (? & _ & ->), E2 as (? & _ & ->). cbn. by rewrite !lookup_insert_ne. }
  assert (Hrel : forall A (g : proc_struct -> A) x, (forall v pr, g (set_state v pr) = g pr) -> (forall v pr, g (set_exit_code v pr) = g pr) -> g <$> procs_of t2 !! x = g <$> procs_of t !! x).
  { intros A g x Hg1 Hg2. by rewrite (put_same g _ _ _ _ x (Hg2 _) E2), (put_same g _ _ _ _ x (Hg1 _) E1). }
  assert (Hkids2 : forall p, live t p -> kids (procs_of t2) p (ch p)).
  { intros p Hp. apply (kids_same (procs_of t)); [by apply Hrel|intros x _; split_and!; by apply Hrel|by apply Hfam]. }
  split; [|split; [done|split; [done|split; [done|]]]].
  - split; [by exists q|done|done|done|by rewrite !Hlive2|by rewrite Hother by done| |by apply kids_orphans, Hkids2|by apply Hkids2|].
    + rewrite !Hrel by done. rewrite Hpc. split; [congruence|done].
    + intros p Hp _ _. by apply Hkids2, Hlive2.
  - assert (live t2 cur) as [cpr Hcpr] by (by apply Hlive2). exists cpr. split; [done|].
    pose proof (Hrel _ proc_parent cur ltac:(done) ltac:(done)) as H1. rewrite Hpc in H1.
    assert (state <$> procs_of t2 !! cur = Some PROC_ZOMBIE) as H2 by (fields; by rewrite decide_True).
    assert (exit_code <$> procs_of t2 !! cur = Some code) as H3 by (fields; by rewrite decide_True).
    rewrite Hcpr in H1, H2, H3. cbn in H1, H2, H3. split; [congruence|]. split; congruence.
Qed.

(** The parent is woken when it waits. *)
Lemma wake_parent ch t cur init l L par ppr :
  exit_inv ch t cur init l L -> procs_of t !! par = Some ppr -> state ppr <> PROC_ZOMBIE ->
  exists t', (if wait_state ppr =? WT_CHILD then wakeup c t par else Ok t) = Ok t' /\ exit_inv ch t' cur init l L /\
    (forall x, live t' x <-> live t x) /\ same_table t t' /\ (forall x, x <> par -> procs_of t' !! x = procs_of t !! x) /\
    (if wait_state ppr =? WT_CHILD then state <$> procs_of t' !! par = Some PROC_RUNNABLE else t' = t).
Proof.
  intros Hinv Hp Hz. destruct (wait_state ppr =? WT_CHILD); [by eapply exit_inv_wakeup|].
  exists t. split; [done|]. split; [done|]. split; [done|]. split; [apply same_table_refl|done].
Qed.

Lemma exit_family ch t cur init L :
  exit_inv ch t cur init [] L -> forall p, live t p -> kids (procs_of t) p (if decide (p = cur) then [] else if decide (p = init) then L else ch p).
Proof.
  intros [_ _ _ _ _ _ _ (_ & Ho & _) Hk Hot] p Hp. repeat case_decide; subst; try done; [|by apply Hot].
  split; [constructor|]. by split.
Qed.

(** C22. The end of a process loses nobody: [do_exit] up to its call of [schedule] comes to
    an end with the process a zombie that keeps its exit code; all its children, the
    zombies among them included, are now the youngest children of [initproc], all
    family pointers are consistent again and the run queue is as the scheduler needs
    it; the parent is runnable if it was waiting for a child, and so is [initproc] if
    it was and has inherited a zombie. *)
Theorem exit_notify_reparents t ch par code :
  exit_ready t ch par ->
  exists t', exit_notify c t code = Ok t' /\ (exists q, sched_inv (c := c) (pk t') q) /\
    family (procs_of t') (ch_exit ch (current (pk t)) (initproc t)) /\ same_table t t' /\
    state <$> procs_of t' !! current (pk t) = Some PROC_ZOMBIE /\ exit_code <$> procs_of t' !! current (pk t) = Some code /\
    (wait_state <$> procs_of t !! par = Some WT_CHILD -> state <$> procs_of t' !! par = Some PROC_RUNNABLE) /\
    (forall z, z ∈ ch (current (pk t)) -> state <$> procs_of t !! z = Some PROC_ZOMBIE ->
       wait_state <$> procs_of t !! initproc t = Some WT_CHILD -> state <$> procs_of t' !! initproc t = Some PROC_RUNNABLE).
Proof.
  intros Hready. destruct (exit_marked t ch par code Hready) as (t1 & t2 & E1 & E2 & Hinv2 & Htab2 & Hlive2 & Hother2 & cpr & Hcpr & Hz & Hcode & Hpar).
  destruct Hready as (_ & Hfam & Hne & Hli & _ & Hpc & Hparne & _ & _ & Hlp & Halp). set (cur := current (pk t)) in *. set (init := initproc t) in *.
  unfold exit_notify. fold cur. rewrite E1. cbn [mbind res_bind]. rewrite E2. cbn [mbind res_bind].
  rewrite (get_ok _ _ _ Hcpr). cbn [mbind res_bind]. rewrite Hpar. cbn [mbind res_bind].
  destruct Hlp as [ppr Hppr]. pose proof Hppr as Hppr2. rewrite <- Hother2 in Hppr2 by done. rewrite (get_ok _ _ _ Hppr2). cbn [mbind res_bind].
  destruct (wake_parent _ _ _ _ _ _ par ppr Hinv2 Hppr2) as (t3 & -> & Hinv3 & Hlive3 & Htab3 & Hother3 & Hr3).
  { intros E. apply Halp. by rewrite Hppr, <- E. }
  cbn [mbind res_bind]. destruct (exit_loop ch cur init (ch cur) (S (size (procs_of t3))) t3 (ch init) Hinv3) as (t4 & -> & Hinv4 & Htab4 & Hlive4 & Hkin4 & Hw4).
  { apply Nat.lt_succ_r, live_length; [by apply (ei_orphans _ _ _ _ _ _ Hinv3)|]. intros x Hx.
    pose proof (orphans_parent _ _ _ x (ei_orphans _ _ _ _ _ _ Hinv3) Hx). by destruct (procs_of t3 !! x). }
  assert (Hst4 : forall x, x <> init -> state <$> procs_of t4 !! x = state <$> procs_of t3 !! x) by (intros x Hx; apply kin_field; [done|by apply Hkin4]).
  assert (Hrun : state <$> procs_of t3 !! init = Some PROC_RUNNABLE -> state <$> procs_of t4 !! init = Some PROC_RUNNABLE).
  { intros E. destruct Hw4 as [|[E' _]]; [done|]. rewrite <- E. by apply kin_field. }
  exists t4. split; [done|]. split; [exact (ei_sched _ _ _ _ _ _ Hinv4)|]. split; [exact (exit_family _ _ _ _ _ Hinv4)|].
  split; [by eapply same_table_trans; [|eapply same_table_trans]|]. split; [|split; [|split]].
  - rewrite Hst4, Hother3, Hcpr by done. cbn. by rewrite Hz.
  - rewrite (kin_field exit_code t3 t4) by (try done; by apply Hkin4). rewrite Hother3, Hcpr by done. cbn. by rewrite Hcode.
  - rewrite Hppr. intros [= Hwp]. rewrite Hwp, Z.eqb_refl in Hr3. destruct (decide (par = init)) as [->|Hpi]; [by apply Hrun|by rewrite Hst4].
  - intros z Hzin Hzz Hwi. destruct (decide (init = par)) as [E|Hpi].
    + rewrite E, Hppr in Hwi. injection Hwi as Hwi. rewrite Hwi, Z.eqb_refl, <- E in Hr3. by apply Hrun.
    + destruct Hw4 as [|[_ Hno]]; [done|]. destruct (Hno z Hzin). split.
      * pose proof (kids_parent _ _ _ _ (Hfam cur ltac:(unfold live; destruct (procs_of t !! cur); [eauto|done])) Hzin) as Hzp.
        rewrite Hother3, Hother2; [done|intros ->; congruence|intros ->; congruence].
      * by rewrite Hother3, Hother2.
Qed.
End Exit.

(** * Waiting for a child *)
Definition zombie (t : ptable) (p : Z) : Prop := state <$> procs_of t !! p = Some PROC_ZOMBIE.

#[export] Instance zombie_dec t p : Decision (zombie t p).
Proof. unfold zombie. apply _. Defined.

Lemma wait_scan_run t p l n : 
  kids (procs_of t) p l -> forall i hk, (length l < n + i)%nat -> (i <= length l)%nat ->
  wait_scan t (l !! i) hk n =
    Ok (match list_find (zombie t) (drop i l) with Some (_, z) => (Some z, true) | None => (None, hk || (Nat.ltb i (length l))) end).
Proof.
  intros (_ & _ & Hl). induction n as [|n IH]; intros i hk Hn Hi; [lia|]. cbn [wait_scan].
  destruct (l !! i) as [z|] eqn:Hz.
  - destruct (Hl i z Hz) as (_ & Ho & _). destruct (procs_of t !! z) as [pr|] eqn:Hpr; [|done]. cbn in Ho. injection Ho as Ho.
    rewrite (get_ok _ _ _ Hpr). cbn [mbind res_bind]. rewrite (drop_S l z i Hz). cbn [list_find]. pose proof (lookup_lt_Some _ _ _ Hz).
    destruct (decide (state pr = PROC_ZOMBIE)) as [Hs|Hs].
    + rewrite decide_True; [done|]. unfold zombie. by rewrite Hpr, <- Hs.
    + rewrite decide_False; [|unfold zombie; rewrite Hpr; intros [= E]; done]. rewrite Ho, IH by lia.
      destruct (list_find _ (drop (S i) l)) as [[j z']|]; [done|]. cbn -[Nat.ltb]. by rewrite (proj2 (Nat.ltb_lt i (length l))), orb_true_r by done.
  - apply lookup_ge_None in Hz. rewrite drop_ge by done. cbn -[Nat.ltb]. by rewrite (proj2 (Nat.ltb_ge i (length l))), orb_false_r by done.
Qed.

(** The lists when [z] goes from between [l1] and [l2]. *)
Lemma kids_remove m m' p z l1 l2 :
  kids m p (l1 ++ z :: l2) ->
  cptr <$> m' !! p = (if decide (l1 = []) then Some (head l2) else cptr <$> m !! p) ->
  (forall x, x ∈ l1 ++ l2 -> proc_parent <$> m' !! x = proc_parent <$> m !! x) ->
  (forall x, x ∈ l1 ++ l2 -> optr <$> m' !! x = if decide (last l1 = Some x) then Some (head l2) else optr <$> m !! x) ->
  (forall x, x ∈ l1 ++ l2 -> yptr <$> m' !! x = if decide (head l2 = Some x) then Some (last l1) else yptr <$> m !! x) ->
  kids m' p (l1 ++ l2).
Proof.
  intros (Hnd & Hc & Hl) Ec Ep Eo Ey. pose proof Hnd as Hnd0. apply NoDup_app in Hnd0 as (Hnd1 & Hdis & Hnd2). apply NoDup_cons in Hnd2 as [_ Hnd2].
  split; [|split].
  - apply NoDup_app. split; [done|]. split; [|done]. intros x Hx. specialize (Hdis x Hx). rewrite elem_of_cons in Hdis. tauto.
  - rewrite Ec. destruct (decide (l1 = [])) as [E|E]; [by rewrite E|]. rewrite Hc. by destruct l1.
  - intros i x Hx. pose proof (list_elem_of_lookup_2 _ _ _ Hx) as Hin. rewrite Ep, Eo, Ey by done. destruct (decide (i < length l1)%nat) as [Hi|Hi].
    + rewrite lookup_app_l in Hx by done. destruct (Hl i x) as (H1 & H2 & H3); [by rewrite lookup_app_l|]. rewrite H1, H2, H3. split; [done|].
      assert (head l2 <> Some x) as Hh.
      { intros E. apply (Hdis x); [by eapply list_elem_of_lookup_2|]. right. destruct l2; [done|]. injection E as ->. by left. }
      rewrite (decide_False (P := head l2 = _)) by done. split; [|destruct i; cbn; [done|by rewrite !lookup_app_l by lia]].
      destruct (decide (last l1 = Some x)) as [E|E].
      * rewrite last_lookup in E. assert (i = pred (length l1)) as -> by (eapply NoDup_lookup; [exact Hnd1|done|done]).
        rewrite lookup_app_r by lia. replace (S (pred (length l1)) - length l1)%nat with 0%nat by lia. by destruct l2.
      * f_equal. destruct (decide (S i = length l1)) as [Es|Es].
        { destruct E. rewrite last_lookup, <- Hx. f_equal. lia. }
        by rewrite !lookup_app_l by lia.
    + rewrite lookup_app_r in Hx by lia. destruct (Hl (S i) x) as (H1 & H2 & H3); [rewrite lookup_app_r by lia; by replace (S i - length l1)%nat with (S (i - length l1)) by lia|].
      rewrite H1, H2, H3. split; [done|].
      assert (last l1 <> Some x) as Hh.
      { intros E. apply (Hdis x); [rewrite last_lookup in E; by eapply list_elem_of_lookup_2|]. right. by eapply list_elem_of_lookup_2. }
      rewrite (decide_False (P := last l1 = _)) by done. split.
      * f_equal. rewrite !lookup_app_r by lia. replace (S (S i) - length l1)%nat with (S (S i - length l1)) by lia. done.
      * destruct (decide (head l2 = Some x)) as [E|E].
        -- assert (i = length l1) as -> by (destruct l2 as [|y l2]; [done|]; injection E as ->; assert ((i - length l1)%nat = 0%nat) by (eapply NoDup_lookup; [exact Hnd2|exact Hx|done]); lia).
           f_equal. rewrite last_lookup. destruct l1 as [|y0 l1]; [done|]. change (before ((y0 :: l1) ++ l2) (length (y0 :: l1))) with (((y0 :: l1) ++ l2) !! length l1).
           rewrite lookup_app_l by (cbn; lia). done.
        -- f_equal. destruct i as [|i]; [destruct l1; [destruct l2; [done|]|cbn in Hi; lia]; cbn in Hx; injection Hx as ->; done|]. cbn [before].
           destruct (decide (S i = length l1)) as [Es|Es]; [rewrite Es, Nat.sub_diag in Hx; destruct l2; [done|]; injection Hx as ->; done|].
           rewrite !lookup_app_r by lia. by replace (S i - length l1)%nat with (S (i - length l1)) by lia.
Qed.

Section Wait.
Context `{SchedClass c}.

Lemma put_option t (o : option Z) f :
  (forall x, o = Some x -> live t x) -> quiet f -> (forall pr, state (f pr) = state pr) ->
  exists t', match o with Some x => put t x f | None => Ok t end = Ok t' /\ (forall x, live t' x <-> live t x) /\ same_table t t' /\
    (forall q, sched_inv (c := c) (pk t) q -> sched_inv (c := c) (pk t') q) /\
    (forall A (g : proc_struct -> A) x, (forall pr, g (f pr) = g pr) -> g <$> procs_of t' !! x = g <$> procs_of t !! x) /\
    (forall A (g : proc_struct -> A) v x, (forall pr, g (f pr) = v) ->
       g <$> procs_of t' !! x = if decide (o = Some x) then Some v else g <$> procs_of t !! x).
Proof.
  intros Hl Hf Hst. destruct o as [o|].
  - destruct (put_run t o f) as [t' E]; [by apply Hl|]. exists t'. split; [done|]. split; [intros x; by eapply put_live|]. split; [by eapply put_table|].
    split; [intros q Hq; by eapply put_sched|].
    split; [intros A g x Hg; by eapply put_same|]. intros A g v x Hg. rewrite (put_set g v t o f t' x Hg E).
    destruct (decide (x = o)) as [->|Hne]; [by rewrite decide_True|]. rewrite decide_False; [done|]. by intros [= ->].
  - exists t. split; [done|]. split; [done|]. split; [apply same_table_refl|]. split; [done|]. done.
Qed.

Lemma before_middle (l1 l2 : list Z) z : before (l1 ++ z :: l2) (length l1) = last l1.
Proof.
  rewrite last_lookup. destruct l1 as [|y l1]; [done|]. change (before ((y :: l1) ++ z :: l2) (length (y :: l1))) with (((y :: l1) ++ z :: l2) !! length l1).
  rewrite lookup_app_l by (cbn; lia). done.
Qed.

Lemma remove_links_run t p z l1 l2 :
  kids (procs_of t) p (l1 ++ z :: l2) ->
  exists t', remove_links t z = Ok t' /\ (forall x, live t' x <-> live t x) /\
    (forall q, sched_inv (c := c) (pk t) q -> sched_inv (c := c) (pk t') q) /\
    proc_list t' = filter (fun x => x <> z) (proc_list t) /\ nr_process t' = i32 (nr_process t - 1) /\
    same_cpu (pk t) (pk t') /\ hash_list t' = hash_list t /\ initproc t' = initproc t /\
    (forall x, kin <$> procs_of t' !! x = kin <$> procs_of t !! x) /\
    (forall x, proc_parent <$> procs_of t' !! x = proc_parent <$> procs_of t !! x) /\
    (forall x, cptr <$> procs_of t' !! x = if decide (l1 = [] /\ x = p) then Some (head l2) else cptr <$> procs_of t !! x) /\
    (forall x, optr <$> procs_of t' !! x = if decide (last l1 = Some x) then Some (head l2) else optr <$> procs_of t !! x) /\
    (forall x, yptr <$> procs_of t' !! x = if decide (head l2 = Some x) then Some (last l1) else yptr <$> procs_of t !! x).
Proof.
  intros (Hnd & Hcp & Hl). destruct (Hl (length l1) z) as (Hzp & Hzo & Hzy); [by rewrite lookup_app_r, Nat.sub_diag by lia|].
  apply NoDup_app in Hnd as (_ & Hdis & Hnd2). apply NoDup_cons in Hnd2 as [Hz2 _].
  assert (Hlive : forall x, x ∈ l1 ++ z :: l2 -> live t x).
  { intros x [i Hi]%list_elem_of_lookup. destruct (Hl i x Hi) as [E _]. unfold live. by destruct (procs_of t !! x). }
  rewrite lookup_app_r in Hzo by lia. replace (S (length l1) - length l1)%nat with 1%nat in Hzo by lia. cbn [lookup list_lookup] in Hzo. rewrite before_middle in Hzy.
  unfold remove_links. set (t0 := with_proc_list t _). change (procs_of t) with (procs_of t0) in *.
  destruct (procs_of t0 !! z) as [zr|] eqn:Hzr; [|done]. rewrite (get_ok _ _ _ Hzr). cbn [mbind res_bind].
  assert (optr zr = head l2) as Hzo' by (cbn in Hzo; injection Hzo as ->; by destruct l2). rewrite Hzo'. cbn in Hzy, Hzp. injection Hzy as Hzy. injection Hzp as Hzp. rewrite Hzy.
  destruct (put_option t0 (head l2) (set_yptr (last l1))) as (t1 & -> & Hl1 & Ht1 & Hi1 & Hs1 & Hv1); [|done|done|].
  { intros x Hx. apply Hlive, elem_of_app. right. right. destruct l2; [done|]. injection Hx as ->. by left. }
  cbn [mbind res_bind].
  assert (exists zr1, procs_of t1 !! z = Some zr1 /\ optr zr1 = head l2 /\ yptr zr1 = last l1 /\ proc_parent zr1 = Some p) as (zr1 & Hzr1 & Ho1 & Hy1 & Hp1).
  { assert (live t1 z) as [zr1 E1] by (apply Hl1; by exists zr). exists zr1. split; [done|].
    pose proof (Hs1 _ optr z ltac:(done)) as H1. pose proof (Hs1 _ proc_parent z ltac:(done)) as H2. pose proof (Hv1 _ yptr (last l1) z ltac:(done)) as H3.
    rewrite decide_False in H3. 2: { intros E. apply Hz2. destruct l2; [done|]. injection E as ->. by left. }
    rewrite E1, Hzr in H1, H2, H3. cbn in H1, H2, H3. split; [|split]; congruence. }
  rewrite (get_ok _ _ _ Hzr1). cbn [mbind res_bind]. rewrite Ho1, Hy1, Hp1.
  (* the child before [z], or the parent *)
  assert (exists t2, match last l1 with Some y => put t1 y (set_optr (head l2)) | None => put t1 p (set_cptr (head l2)) end = Ok t2 /\
    (forall x, live t2 x <-> live t1 x) /\ same_table t1 t2 /\ (forall q, sched_inv (c := c) (pk t1) q -> sched_inv (c := c) (pk t2) q) /\
    (forall x, kin <$> procs_of t2 !! x = kin <$> procs_of t1 !! x) /\ (forall x, proc_parent <$> procs_of t2 !! x = proc_parent <$> procs_of t1 !! x) /\
    (forall x, yptr <$> procs_of t2 !! x = yptr <$> procs_of t1 !! x) /\
    (forall x, cptr <$> procs_of t2 !! x = if decide (l1 = [] /\ x = p) then Some (head l2) else cptr <$> procs_of t1 !! x) /\
    (forall x, optr <$> procs_of t2 !! x = if decide (last l1 = Some x) then Some (head l2) else optr <$> procs_of t1 !! x))
    as (t2 & E2 & Hl2 & Ht2 & Hi2 & Hk2 & Hp2 & Hy2 & Hc2 & Ho2).
  { destruct (last l1) as [y|] eqn:Hlasty.
    - destruct (put_run t1 y (set_optr (head l2))) as [t2 E2].
      { apply Hl1, Hlive, elem_of_app. left. rewrite last_lookup in Hlasty. by eapply list_elem_of_lookup_2. }
      exists t2. split; [done|]. split; [intros x; by eapply put_live|]. split; [by eapply put_table|]. split; [intros q Hq; by eapply put_sched|].
      split; [intros x; by fields|]. split; [intros x; by fields|]. split; [intros x; by fields|]. split; intros x; fields.
      + rewrite decide_False; [done|]. intros [-> _]. done.
      + destruct (decide (x = y)) as [->|Hne]; [by rewrite decide_True|]. rewrite decide_False; [done|]. by intros [= ->].
    - apply last_None in Hlasty. subst l1. destruct (put_run t1 p (set_cptr (head l2))) as [t2 E2].
      { apply Hl1. unfold live. cbn in Hcp. by destruct (procs_of t0 !! p). }
      exists t2. split; [done|]. split; [intros x; by eapply put_live|]. split; [by eapply put_table|]. split; [intros q Hq; by eapply put_sched|].
      split; [intros x; by fields|]. split; [intros x; by fields|]. split; [intros x; by fields|]. split; intros x; fields.
      + destruct (decide (x = p)) as [->|Hne]; [by rewrite decide_True|]. rewrite decide_False; [done|]. by intros [_ ?].
      + by rewrite decide_False. }
  assert (E2' : match last l1 with
     | Some y => put t1 y (set_optr (head l2))
     | None => par ← Ok p; put t1 par (set_cptr (head l2)) end = Ok t2) by (rewrite <- E2; by destruct (last l1)).
  rewrite E2'. cbn [mbind res_bind]. eexists. split; [reflexivity|]. destruct Ht1 as ([]&?&?&?&?&?&?), Ht2 as ([]&?&?&?&?&?&?).
  split; [intros x; change (live t2 x <-> live t0 x); by rewrite Hl2, Hl1|]. split; [intros q Hq; by apply Hi2, Hi1|]. subst t0. cbn [with_proc_list with_nr_process proc_list nr_process pk hash_list initproc] in *.
  split; [congruence|]. split; [congruence|]. split; [split; congruence|]. split; [congruence|]. split; [congruence|].
  change (procs_of (with_nr_process t2 _)) with (procs_of t2).
  split; [intros x; by rewrite Hk2, Hs1|]. split; [intros x; by rewrite Hp2, Hs1|]. split; [intros x; rewrite Hc2, Hs1; done|].
  split; [intros x; rewrite Ho2, Hs1; done|]. intros x. rewrite Hy2. by apply Hv1.
Qed.

Lemma free_sched t q z :
  sched_inv (c := c) (pk t) q -> zombie t z -> z <> current (pk t) -> z <> idleproc (pk t) ->
  sched_inv (c := c) (with_sched (pk t) (proc_free (sched (pk t)) z)) q.
Proof.
  unfold zombie. intros [Hq Hc Hi Hoff Hin Hall] Hz Hzc Hzi.
  assert (Hnr : ~ runnable (pk t) z) by (rewrite runnable_states; unfold states; change (procs (sched (pk t))) with (procs_of t); by rewrite Hz).
  assert (Hrun : forall x, runnable (with_sched (pk t) (proc_free (sched (pk t)) z)) x <-> x <> z /\ runnable (pk t) x).
  { intros x. unfold runnable. cbn. split.
    - intros (pr & [Hne Hx]%lookup_delete_Some & Hr). split; [congruence|by exists pr].
    - intros (Hne & pr & Hx & Hr). exists pr. by rewrite lookup_delete_ne. }
  split; cbn.
  - apply queue_free; [done|]. intros Hzq. by apply Hnr, Hin.
  - rewrite lookup_delete_ne; done.
  - rewrite lookup_delete_ne; done.
  - done.
  - intros x Hx. apply Hrun. split; [|by apply Hin]. intros ->. by apply Hnr, Hin.
  - intros x [_ Hx]%Hrun. by apply Hall.
Qed.

(** What is left of the family when the child [z] of [p] is freed. *)
Lemma free_family t t' ch p z l1 l2 :
  family (procs_of t) ch -> live t p -> ch p = l1 ++ z :: l2 -> z <> p ->
  (forall x, proc_parent <$> procs_of t' !! x = proc_parent <$> procs_of t !! x) ->
  (forall x, cptr <$> procs_of t' !! x = if decide (l1 = [] /\ x = p) then Some (head l2) else cptr <$> procs_of t !! x) ->
  (forall x, optr <$> procs_of t' !! x = if decide (last l1 = Some x) then Some (head l2) else optr <$> procs_of t !! x) ->
  (forall x, yptr <$> procs_of t' !! x = if decide (head l2 = Some x) then Some (last l1) else yptr <$> procs_of t !! x) ->
  (forall x, live t' x <-> live t x) ->
  family (delete z (procs_of t')) (fun x => if decide (x = p) then l1 ++ l2 else ch x).
Proof.
  intros Hfam Hp Hch Hzp Ep Ec Eo Ey Hlive x [pr [Hxz Hx]%lookup_delete_Some].
  pose proof (Hfam p Hp) as Hkp. rewrite Hch in Hkp. pose proof Hkp as (Hnd & _).
  assert (Hin : forall y, y ∈ l1 ++ l2 -> y <> z /\ proc_parent <$> procs_of t !! y = Some (Some p)).
  { intros y Hy. split; [|eapply kids_parent; [exact Hkp|]; rewrite elem_of_app, elem_of_cons; apply elem_of_app in Hy; tauto].
    intros ->. apply NoDup_app in Hnd as (_ & Hdis & Hnd2). apply NoDup_cons in Hnd2 as [Hz2 _]. apply elem_of_app in Hy as [Hy|Hy]; [|done].
    apply (Hdis z Hy). by left. }
  destruct (decide (x = p)) as [->|Hxp].
  - eapply kids_remove; [exact Hkp| | | |].
    + rewrite lookup_delete_ne, Ec by done. apply decide_ext. tauto.
    + intros y [Hyz _]%Hin. by rewrite lookup_delete_ne, Ep.
    + intros y [Hyz _]%Hin. by rewrite lookup_delete_ne, Eo.
    + intros y [Hyz _]%Hin. by rewrite lookup_delete_ne, Ey.
  - assert (live t x) as Hlx by (apply Hlive; by exists pr). pose proof (Hfam x Hlx) as Hkx.
    apply (kids_same (procs_of t)); [|intros y Hy|done].
    + rewrite lookup_delete_ne, Ec by done. rewrite decide_False; [done|]. tauto.
    + pose proof (kids_parent _ _ _ _ Hkx Hy) as Hpy.
      assert (Hyz : y <> z) by (intros ->; rewrite (kids_parent _ _ _ _ Hkp) in Hpy; [congruence|rewrite elem_of_app, elem_of_cons; tauto]).
      assert (Hno : y ∉ l1 ++ l2) by (intros [_ Hin']%Hin; congruence). rewrite elem_of_app in Hno.
      rewrite !lookup_delete_ne, Ep, Eo, Ey by done. split; [done|]. rewrite !decide_False; [done| |].
      * intros E. apply Hno. right. destruct l2; [done|]. injection E as ->. by left.
      * intros E. apply Hno. left. rewrite last_lookup in E. by eapply list_elem_of_lookup_2.
Qed.

(** What a process table must satisfy for a process to wait. *)
Definition wait_ready (t : ptable) (ch : Z -> list Z) : Prop :=
  (exists q, sched_inv (c := c) (pk t) q) /\ family (procs_of t) ch /\
  state <$> procs_of t !! current (pk t) = Some PROC_RUNNABLE /\
  forall z, z ∈ ch (current (pk t)) -> z <> idleproc (pk t) /\ z <> initproc t.

Lemma wait_find_run t ch :
  wait_ready t ch ->
  wait_find t 0 = Ok (match list_find (zombie t) (ch (current (pk t))) with
                      | Some (_, z) => (Some z, true) | None => (None, bool_decide (ch (current (pk t)) <> [])) end).
Proof.
  intros ([q Hs] & Hfam & Hrun & _). set (cur := current (pk t)) in *.
  assert (live t cur) as Hlc by apply (si_current _ _ Hs). destruct Hlc as [pr Hpr]. pose proof (Hfam cur ltac:(by exists pr)) as Hk.
  unfold wait_find. cbn [Z.eqb negb]. fold cur. rewrite (get_ok _ _ _ Hpr). cbn [mbind res_bind].
  pose proof Hk as (Hnd & Hc & Hl). rewrite Hpr in Hc. cbn in Hc. injection Hc as Hc.
  replace (cptr pr) with (ch cur !! 0%nat) by (rewrite Hc; by destruct (ch cur)). rewrite (wait_scan_run t cur (ch cur)); [|done| |lia].
  - rewrite drop_0. destruct (list_find _ _) as [[i z]|]; [done|]. cbn [orb]. f_equal. f_equal. destruct (ch cur); [done|]. symmetry. by apply bool_decide_true.
  - rewrite Nat.add_0_r. apply Nat.lt_succ_r, live_length; [done|]. intros x [i Hi]%list_elem_of_lookup. destruct (Hl i x Hi) as [E _]. by destruct (procs_of t !! x).
Qed.

(** The processes [z] was taken out of: the child of [cur] at place [i]. *)
Record reaped (t t' : ptable) (ch : Z -> list Z) (i : nat) (z : Z) : Prop := Reaped {
  rp_sched : exists q, sched_inv (c := c) (pk t') q;
  rp_cpu : same_cpu (pk t) (pk t');
  rp_family : family (procs_of t') (fun p => if decide (p = current (pk t)) then delete i (ch p) else ch p);
  rp_list : proc_list t' = filter (fun x => x <> z) (proc_list t);
  rp_hash : hash_list t' = filter (fun x => x <> z) <$> hash_list t;
  rp_count : nr_process t' = i32 (nr_process t - 1);
  rp_init : initproc t' = initproc t;
  rp_gone : procs_of t' !! z = None;
  rp_others x : x <> z -> kin <$> procs_of t' !! x = kin <$> procs_of t !! x;
  rp_parents x : x <> z -> proc_parent <$> procs_of t' !! x = proc_parent <$> procs_of t !! x
}.

(** [unhash_proc], [remove_links] and [kfree] of a child that has ended. *)
Lemma reap_run t ch i z :
  wait_ready t ch -> zombie t z -> ch (current (pk t)) !! i = Some z ->
  exists t1, remove_links (unhash_proc t z) z = Ok t1 /\ kin <$> procs_of t1 !! z = kin <$> procs_of t !! z /\
    reaped t (with_pk t1 (with_sched (pk t1) (proc_free (sched (pk t1)) z))) ch i z.
Proof.
  intros ([q Hs] & Hfam & Hrun & Hspecial) Hz Hi. set (cur := current (pk t)) in *.
  assert (live t cur) as Hlc by apply (si_current _ _ Hs). assert (Hzc : z <> cur) by (intros ->; unfold zombie in Hz; congruence).
  destruct (Hspecial z) as [Hzidle Hzinit]; [by eapply list_elem_of_lookup_2|].
  pose proof (Hfam cur Hlc) as Hk. rewrite <- (take_drop_middle _ _ _ Hi) in Hk.
  destruct (remove_links_run (unhash_proc t z) cur z _ _ Hk) as (t1 & -> & Hlive & Hinv1 & Hpl & Hnr & [Ec Ei] & Hhl & Einit & Hkin & Hpar & Hcp & Hop & Hyp).
  exists t1. split; [done|]. split; [by apply Hkin|].
  assert (Hz1 : zombie t1 z).
  { unfold zombie in Hz |- *. rewrite <- Hz. apply kin_field; [done|apply Hkin]. }
  split; try done.
  - exists q. apply free_sched; [by apply Hinv1|done|by rewrite Ec|by rewrite Ei].
  - pose proof (free_family (unhash_proc t z) t1 ch cur z _ _ Hfam Hlc (eq_sym (take_drop_middle _ _ _ Hi)) Hzc Hpar Hcp Hop Hyp Hlive) as Hf.
    intros x Hx. specialize (Hf x Hx). cbn beta in Hf |- *. fold cur. destruct (decide (x = cur)) as [->|]; [|done]. by rewrite delete_take_drop.
  - exact (lookup_delete_eq (procs_of t1) z).
  - intros x Hx. change (kin <$> delete z (procs_of t1) !! x = kin <$> procs_of t !! x). rewrite lookup_delete_ne by done. apply Hkin.
  - intros x Hx. change (proc_parent <$> delete z (procs_of t1) !! x = proc_parent <$> procs_of t !! x). rewrite lookup_delete_ne by done. apply Hpar.
Qed.

(** The process goes to sleep. *)
Lemma wait_sleep t ch :
  wait_ready t ch ->
  exists t1 t2 k, put t (current (pk t)) (ProcStruct.set_state PROC_SLEEPING) = Ok t1 /\
    put t1 (current (pk t)) (ProcStruct.set_wait_state WT_CHILD) = Ok t2 /\ schedule c (pk t2) = Ok k /\
    (exists q, sched_inv (c := c) k q) /\ idleproc k = idleproc (pk t) /\ family (procs (sched k)) ch /\
    state <$> procs (sched k) !! current (pk t) = Some PROC_SLEEPING /\ wait_state <$> procs (sched k) !! current (pk t) = Some WT_CHILD /\
    (runnable k (current k) \/ current k = idleproc k) /\ (forall x, view (sched k) x = view (sched (pk t2)) x) /\ same_table t2 t.
Proof.
  intros ([q Hs] & Hfam & _ & _). set (cur := current (pk t)) in *.
  assert (live t cur) as Hlc by apply (si_current _ _ Hs). destruct (put_run t cur (ProcStruct.set_state PROC_SLEEPING)) as [t1 E1]; [done|].
  destruct (put_run t1 cur (ProcStruct.set_wait_state WT_CHILD)) as [t2 E2]; [lives|].
  pose proof (put_current_state _ _ _ _ Hs E1) as Hs1. pose proof (put_sched _ _ _ _ _ E2 Hs1 (fun _ => eq_refl) (fun _ => eq_refl)) as Hs2.
  assert (Htab : same_table t t2) by (eapply same_table_trans; by eapply put_table). pose proof Htab as ([Ec Ei] & _).
  destruct (schedule_run _ _ Hs2) as (k & q' & Ek & Hsk & Hik & Hv & Hcase).
  assert (Hrel : forall A (g : proc_struct -> A) x, (forall pr, g (quiet_core pr) = g pr) -> g <$> procs (sched k) !! x = g <$> procs_of t2 !! x).
  { intros A g x Hg. by apply view_field. }
  exists t1, t2, k. split; [done|]. split; [done|]. split; [done|]. split; [by exists q'|]. split; [by rewrite Hik|]. split; [|split; [|split; [|split; [|split; [done|]]]]].
  - intros x [pr Hx]. assert (live t x) as Hlx.
    { apply (put_live _ _ _ _ x E1), (put_live _ _ _ _ x E2). change (is_Some (procs (sched (pk t2)) !! x)). rewrite live_view, <- Hv, <- live_view. by exists pr. }
    apply (kids_same (procs_of t)); [rewrite Hrel by done; by fields| |by apply Hfam]. intros y _. rewrite !Hrel by done. split; [|split]; by fields.
  - rewrite Hrel by done. fields. by rewrite decide_True.
  - rewrite Hrel by done. fields. by rewrite decide_True.
  - destruct Hcase as [|[? _]]; [by left|by right].
  - destruct Htab as ([]&?&?&?&?&?&?). repeat split; congruence.
Qed.
End Wait.
