(* ===== verification/ProcExample.v ===== *)
(** A concrete process table, on which the theorems of Process.v and ProcFamily.v are
    run: the idle process 1, [initproc] 2 waiting for a child, the running process 3
    and its children, the zombie 5 and the sleeping 4. *)
From S2P Require Import Prelude Lists SkewHeap ProcStruct SchedClass RoundRobin Sched CString StateM Process ProcFamily.

Definition example_proc (st : proc_state) (n : Z) (par c y o : option Z) (wait code : Z) : proc_struct :=
  Proc st n 0 None 0 par None 0 0 [] code wait c y o None 0 0 1 None.

Definition example_procs : gmap Z proc_struct := list_to_map
  [(1, example_proc PROC_RUNNABLE 0 None (Some 2) None None 0 0);
   (2, example_proc PROC_SLEEPING 1 (Some 1) (Some 3) None None WT_CHILD 0);
   (3, example_proc PROC_RUNNABLE 2 (Some 2) (Some 5) None None 0 0);
   (4, example_proc PROC_SLEEPING 3 (Some 3) None (Some 5) None 0 0);
   (5, example_proc PROC_ZOMBIE 4 (Some 3) None None (Some 4) 0 7)].

Definition example_sched : sched_state :=
  SchedState example_procs (list_to_map ((RunList, ListEntry RunList RunList) :: (self_link <$> [1; 2; 3; 4; 5]))) ∅ (RunQueue 0 5 None).

Definition example_chains : gmap Z (list Z) :=
  list_to_map ((fun p => (pid_hashfn (p - 1), [p])) <$> [2; 3; 4; 5]).

Definition example_table : ptable := PTable (Kernel example_sched 3 1 0) [5; 4; 3; 2] example_chains 2 4 MAX_PID 4.

Definition example_children (p : Z) : list Z :=
  if decide (p = 1) then [2] else if decide (p = 2) then [3] else if decide (p = 3) then [5; 4] else [].

Lemma example_cases p pr :
  example_procs !! p = Some pr -> p = 1 \/ p = 2 \/ p = 3 \/ p = 4 \/ p = 5.
Proof.
  intros Hp. apply elem_of_list_to_map_2 in Hp. rewrite !elem_of_cons in Hp.
  destruct Hp as [[= -> _]|[[= -> _]|[[= -> _]|[[= -> _]|[[= -> _]|[]%elem_of_nil]]]]]; auto.
Qed.

Lemma example_family : family (procs_of example_table) example_children.
Proof.
  intros p [pr Hp]. destruct (example_cases p pr Hp) as [->|[->|[->|[->| ->]]]];
    (split; [by repeat constructor; set_solver|split; [reflexivity|intros [|[|[]]] c Hc; try discriminate Hc; injection Hc as <-; by repeat split]]).
Qed.

Lemma example_sched_inv : sched_inv (c := default_sched_class) (pk example_table) [].
Proof.
  split; [|by eexists|by eexists|by split; apply not_elem_of_nil|by intros p ?%elem_of_nil|].
  - split; [split|by intros p ?%elem_of_nil|done].
    + split; [apply NoDup_singleton|split; reflexivity].
    + intros p [pr Hp] _. destruct (example_cases p pr Hp) as [->|[->|[->|[->| ->]]]];
        (split; [apply NoDup_singleton|split; reflexivity]).
  - intros p (pr & Hp & Hr). destruct (example_cases p pr Hp) as [->|[->|[->|[->| ->]]]]; auto; exfalso; vm_compute in Hp; injection Hp as <-; discriminate Hr.
Qed.

Lemma get_pid_unique_witness : exists next, get_pid example_table = Ok (with_pids example_table next 5, 5).
Proof.
  destruct (get_pid_unique example_table) as (next & r & Hrun & Hr & _).
  - repeat constructor; by eexists.
  - vm_compute. reflexivity.
  - vm_compute. split; discriminate.
  - vm_compute. discriminate.
  - repeat constructor; vm_compute; intros [? ?]; discriminate.
  - exists next. rewrite Hrun. vm_compute in Hrun. injection Hrun as <- <-. reflexivity.
Defined.

Lemma exit_notify_reparents_witness :
  exists t', exit_notify default_sched_class example_table 9 = Ok t' /\
    family (procs_of t') (ch_exit example_children 3 2) /\ ch_exit example_children 3 2 2 = [4; 5; 3] /\
    state <$> procs_of t' !! 2 = Some PROC_RUNNABLE.
Proof.
  destruct (exit_notify_reparents (c := default_sched_class) example_table example_children 2 9) as (t' & Hrun & _ & Hfam & _ & _ & _ & Hw & _).
  - split; [exists []; exact example_sched_inv|]. split; [exact example_family|]. split_and!; try done; by eexists.
  - exists t'. split; [exact Hrun|]. split; [exact Hfam|]. split; [reflexivity|]. by apply Hw.
Defined.
