(* ===== verification/Vmm.v ===== *)
(** Virtual memory areas (lab8/kern/mm/vmm.c).

    A process's memory is described by an [mm_struct] with a list of areas
    ([vma_struct]) sorted by address; [mmap_list] is the list of their addresses, and
    [mmap_cache] the area found last.  The page tables are in PageTable.v; the
    semaphore [mm_sem] is one of Sync.v's. *)
From S2P Require Import Prelude StateM CString.

(** * Layout: kern/mm/memlayout.h, mmu.h and libs/defs.h *)
Definition PGSIZE : Z := 4096.
Definition KERNBASE : Z := 0xFFFFFFFFC0200000.
Definition KMEMSIZE : Z := 0x7E00000.
Definition KERNTOP : Z := KERNBASE + KMEMSIZE.
Definition USERTOP : Z := 0x80000000.
Definition USERBASE : Z := 0x00200000.
Definition USTACKTOP : Z := USERTOP.
Definition USTACKPAGE : Z := 256.
Definition USTACKSIZE : Z := USTACKPAGE * PGSIZE.

Definition USER_ACCESS (start end_ : Z) : bool := (USERBASE <=? start) && (start <? end_) && (end_ <=? USERTOP).
Definition KERN_ACCESS (start end_ : Z) : bool := (KERNBASE <=? start) && (start <? end_) && (end_ <=? KERNTOP).

Definition ROUNDDOWN (a n : Z) : Z := a - a mod n.
Definition ROUNDUP (a n : Z) : Z := ROUNDDOWN (u64 (a + n - 1)) n.

Definition VM_READ : Z := 1.
Definition VM_WRITE : Z := 2.
Definition VM_EXEC : Z := 4.
Definition VM_STACK : Z := 8.

(** * State *)
Record vma_struct : Type := Vma { vm_mm : option Z; vm_start : Z; vm_end : Z; vm_flags : Z }.

Record mm_struct : Type := Mm {
  mmap_list : list Z;
  mmap_cache : option Z;
  mm_pgdir : option Z;
  map_count : Z;
  mm_count : Z
}.

Record vmm : Type := Vmm { vmas : gmap Z vma_struct; mms : gmap Z mm_struct }.

Definition set_mmap_cache (c : option Z) (m : mm_struct) : mm_struct := Mm (mmap_list m) c (mm_pgdir m) (map_count m) (mm_count m).
Definition set_mmap_list (l : list Z) (m : mm_struct) : mm_struct := Mm l (mmap_cache m) (mm_pgdir m) (map_count m) (mm_count m).
Definition set_map_count (n : Z) (m : mm_struct) : mm_struct := Mm (mmap_list m) (mmap_cache m) (mm_pgdir m) n (mm_count m).
Definition set_mm_pgdir (p : option Z) (m : mm_struct) : mm_struct := Mm (mmap_list m) (mmap_cache m) p (map_count m) (mm_count m).
Definition put_mm_count (n : Z) (m : mm_struct) : mm_struct := Mm (mmap_list m) (mmap_cache m) (mm_pgdir m) (map_count m) n.
Definition set_vm_mm (o : option Z) (a : vma_struct) : vma_struct := Vma o (vm_start a) (vm_end a) (vm_flags a).

Definition upd_mm (v : vmm) (mm : Z) (f : mm_struct -> mm_struct) : res vmm :=
  m ← deref (mms v) mm; Ok (Vmm (vmas v) (<[mm := f m]> (mms v))).
Definition upd_vma (v : vmm) (vma : Z) (f : vma_struct -> vma_struct) : res vmm :=
  a ← deref (vmas v) vma; Ok (Vmm (<[vma := f a]> (vmas v)) (mms v)).

(** * vmm.h *)
Definition set_mm_count (v : vmm) (mm val : Z) : res vmm := upd_mm v mm (put_mm_count val).

Definition mm_count_inc (v : vmm) (mm : Z) : res (vmm * Z) :=
  m ← deref (mms v) mm;
  let n := i32 (mm_count m + 1) in
  v ← upd_mm v mm (put_mm_count n); Ok (v, n).

Definition mm_count_dec (v : vmm) (mm : Z) : res (vmm * Z) :=
  m ← deref (mms v) mm;
  let n := i32 (mm_count m - 1) in
  v ← upd_mm v mm (put_mm_count n); Ok (v, n).

(** * vmm.c.  [ok] is the outcome of [kmalloc]. *)
Definition mm_create (ok : bool) (v : vmm) : vmm * option Z :=
  if ok then
    let mm := fresh (dom (mms v)) in
    (Vmm (vmas v) (<[mm := Mm [] None None 0 0]> (mms v)), Some mm)
  else (v, None).

Definition vma_create (ok : bool) (v : vmm) (start end_ flags : Z) : vmm * option Z :=
  if ok then
    let vma := fresh (dom (vmas v)) in
    (Vmm (<[vma := Vma None start end_ flags]> (vmas v)) (mms v), Some vma)
  else (v, None).

Definition contains (a : vma_struct) (addr : Z) : bool := (vm_start a <=? addr) && (addr <? vm_end a).

Fixpoint find_vma_list (v : vmm) (l : list Z) (addr : Z) : res (option Z) :=
  match l with
  | [] => Ok None
  | vma :: l' => a ← deref (vmas v) vma; if contains a addr then Ok (Some vma) else find_vma_list v l' addr
  end.

Definition find_vma (v : vmm) (mm : option Z) (addr : Z) : res (vmm * option Z) :=
  match mm with
  | None => Ok (v, None)
  | Some mm =>
      m ← deref (mms v) mm;
      hit ← match mmap_cache m with Some vma => a ← deref (vmas v) vma; Ok (contains a addr) | None => Ok false end;
      vma ← (if (hit : bool) then Ok (mmap_cache m) else find_vma_list v (mmap_list m) addr);
      match vma with
      | Some x => v ← upd_mm v mm (set_mmap_cache (Some x)); Ok (v, Some x)
      | None => Ok (v, None)
      end
  end.

Definition check_vma_overlap (v : vmm) (prev next : Z) : res unit :=
  p ← deref (vmas v) prev; n ← deref (vmas v) next;
  _ ← c_assert (vm_start p <? vm_end p);
  _ ← c_assert (vm_end p <=? vm_start n);
  c_assert (vm_start n <? vm_end n).

(** The areas before the first one that starts behind [start], and the others. *)
Fixpoint split_at (v : vmm) (start : Z) (l : list Z) : res (list Z * list Z) :=
  match l with
  | [] => Ok ([], [])
  | x :: l' =>
      a ← deref (vmas v) x;
      if start <? vm_start a then Ok ([], l)
      else '(l1, l2) ← split_at v start l'; Ok (x :: l1, l2)
  end.

Definition insert_vma_struct (v : vmm) (mm vma : Z) : res vmm :=
  a ← deref (vmas v) vma;
  _ ← c_assert (vm_start a <? vm_end a);
  m ← deref (mms v) mm;
  '(l1, l2) ← split_at v (vm_start a) (mmap_list m);
  _ ← match last l1 with Some p => check_vma_overlap v p vma | None => Ok tt end;
  _ ← match head l2 with Some n => check_vma_overlap v vma n | None => Ok tt end;
  v ← upd_vma v vma (set_vm_mm (Some mm));
  v ← upd_mm v mm (set_mmap_list (l1 ++ vma :: l2));
  upd_mm v mm (set_map_count (i32 (map_count m + 1))).

Definition mm_destroy (v : vmm) (mm : Z) : res vmm :=
  m ← deref (mms v) mm;
  _ ← c_assert (mm_count m =? 0);
  Ok (Vmm (foldr delete (vmas v) (mmap_list m)) (delete mm (mms v))).

(** [inl e] is a return of [-e]. *)
Definition mm_map (ok : bool) (v : vmm) (mm addr len flags : Z) : res (vmm * (Z + Z)) :=
  let start := ROUNDDOWN addr PGSIZE in
  let end_ := ROUNDUP (u64 (addr + len)) PGSIZE in
  if USER_ACCESS start end_ then
    '(v, f) ← find_vma v (Some mm) start;
    hit ← match f with Some vma => a ← deref (vmas v) vma; Ok (vm_start a <? end_) | None => Ok false end;
    if (hit : bool) then Ok (v, inl E_INVAL)
    else
      match vma_create ok v start end_ flags with
      | (v, None) => Ok (v, inl E_NO_MEM)
      | (v, Some vma) => v ← insert_vma_struct v mm vma; Ok (v, inr vma)
      end
  else Ok (v, inl E_INVAL).

Definition user_mem_step (mm end_ : Z) (write : bool) (st : vmm * Z) : res (vmm * Z + vmm * bool) :=
  let '(v, start) := st in
  if start <? end_ then
    '(v, f) ← find_vma v (Some mm) start;
    match f with
    | None => Ok (inr (v, false))
    | Some vma =>
        a ← deref (vmas v) vma;
        if start <? vm_start a then Ok (inr (v, false))
        else if Z.land (vm_flags a) (if write then VM_WRITE else VM_READ) =? 0 then Ok (inr (v, false))
        else if write && negb (Z.land (vm_flags a) VM_STACK =? 0) && (start <? vm_start a + PGSIZE) then Ok (inr (v, false))
        else Ok (inl (v, vm_end a))
    end
  else Ok (inr (v, true)).

(** Every turn goes on behind another area. *)
Definition user_mem_check (v : vmm) (mm : option Z) (addr len : Z) (write : bool) : res (vmm * bool) :=
  let end_ := u64 (addr + len) in
  match mm with
  | Some mm =>
      if USER_ACCESS addr end_ then
        m ← deref (mms v) mm;
        loop (user_mem_step mm end_ write) (S (S (length (mmap_list m)))) (v, addr)
      else Ok (v, false)
  | None => Ok (v, KERN_ACCESS addr end_)
  end.

(** Copies between the kernel and user memory. *)
Definition copy_from_user (v : vmm) (m : memory) (mm : option Z) (dst src len : Z) (writable : bool) : res (vmm * memory * bool) :=
  '(v, ok) ← user_mem_check v mm src len writable;
  if (ok : bool) then '(m, _) ← memcpy m dst src len; Ok (v, m, true) else Ok (v, m, false).

Definition copy_to_user (v : vmm) (m : memory) (mm : option Z) (dst src len : Z) : res (vmm * memory * bool) :=
  '(v, ok) ← user_mem_check v mm dst len true;
  if (ok : bool) then '(m, _) ← memcpy m dst src len; Ok (v, m, true) else Ok (v, m, false).

Definition copy_string_step (mm : option Z) (st : vmm * memory * Z * Z * Z * Z) : res (vmm * memory * Z * Z * Z * Z + vmm * memory * bool) :=
  let '(v, m, dst, src, maxn, part) := st in
  let part := if maxn <? part then maxn else part in
  '(v, ok) ← user_mem_check v mm src part false;
  if (ok : bool) then
    alen ← strnlen m src part;
    if alen <? part then '(m, _) ← memcpy m dst src (alen + 1); Ok (inr (v, m, true))
    else if part =? maxn then Ok (inr (v, m, false))
    else '(m, _) ← memcpy m dst src part; Ok (inl (v, m, u64 (dst + part), u64 (src + part), maxn - part, PGSIZE))
  else Ok (inr (v, m, false)).

(** One page in every turn. *)
Definition copy_string (v : vmm) (m : memory) (mm : option Z) (dst src maxn : Z) : res (vmm * memory * bool) :=
  let part := u64 (ROUNDDOWN (u64 (src + PGSIZE)) PGSIZE - src) in
  loop (copy_string_step mm) (S (S (Z.to_nat (maxn / PGSIZE)))) (v, m, dst, src, maxn, part).

(** Demand paging is not implemented. *)
Definition do_pgfault (error_code addr : Z) : Z := - E_INVAL.

(** * Well-formed memory descriptions *)

(** [a] is the area at address [x]. *)
Definition area_is (v : vmm) (x : Z) (a : vma_struct) : Prop := vmas v !! x = Some a.

(** Areas in ascending order, from [lo] on, disjoint and not empty. *)
Fixpoint ascending (lo : Z) (al : list vma_struct) : Prop :=
  match al with
  | [] => True
  | a :: al' => lo <= vm_start a /\ vm_start a < vm_end a /\ ascending (vm_end a) al'
  end.

(** [mm] describes the areas [al]. *)
Record mm_inv (v : vmm) (mm : Z) (al : list vma_struct) : Prop := MmInv {
  mi_ascending : ascending 0 al;
  mi_mm : exists m, mms v !! mm = Some m /\ NoDup (mmap_list m) /\ Forall2 (area_is v) (mmap_list m) al /\
    (forall c, mmap_cache m = Some c -> c ∈ mmap_list m) /\ map_count m = i32 (Z.of_nat (length al))
}.

(** Only what is cached for [mm] may differ. *)
Definition same_areas (mm : Z) (v v' : vmm) : Prop :=
  vmas v' = vmas v /\ (forall x, x <> mm -> mms v' !! x = mms v !! x) /\
  set_mmap_cache None <$> mms v' !! mm = set_mmap_cache None <$> mms v !! mm.

#[export] Instance same_areas_preorder mm : PreOrder (same_areas mm).
Proof.
  split; [by split|]. intros v1 v2 v3 (H1 & H2 & H3) (H4 & H5 & H6). split; [congruence|]. split; [|congruence].
  intros x Hx. by rewrite H5, H2.
Qed.

Lemma ascending_weaken lo lo' al : lo' <= lo -> ascending lo al -> ascending lo' al.
Proof. destruct al; cbn; [done|]. intros ? (?&?&?). split; [lia|done]. Qed.

Lemma ascending_elem lo al a : ascending lo al -> a ∈ al -> lo <= vm_start a /\ vm_start a < vm_end a.
Proof.
  revert lo. induction al as [|b al IH]; intros lo; [by intros _ ?%elem_of_nil|]. cbn. intros (H1 & H2 & H3) [->|Ha]%elem_of_cons; [done|].
  destruct (IH _ H3 Ha). split; [lia|done].
Qed.

Lemma ascending_app lo al1 al2 :
  ascending lo (al1 ++ al2) <-> ascending lo al1 /\ ascending (List.last (vm_end <$> al1) lo) al2.
Proof.
  revert lo. induction al1 as [|a al1 IH]; intros lo; cbn -[List.last]; [tauto|].
  rewrite IH. rewrite last_cons_default. tauto.
Qed.

(** The areas are disjoint: an address is in one of them at most. *)
Lemma ascending_unique lo al a b x : ascending lo al -> a ∈ al -> b ∈ al -> contains a x = true -> contains b x = true -> a = b.
Proof.
  revert lo. induction al as [|c al IH]; intros lo; [by intros _ ?%elem_of_nil|]. cbn. unfold contains. intros (H1 & H2 & H3) [->|Ha]%elem_of_cons [->|Hb]%elem_of_cons Ea Eb; [done| | |].
  - destruct (ascending_elem _ _ _ H3 Hb). lia.
  - destruct (ascending_elem _ _ _ H3 Ha). lia.
  - by eapply IH.
Qed.

Lemma mm_inv_cache v mm al mm' c m :
  mm_inv v mm al -> mms v !! mm' = Some m -> c ∈ mmap_list m -> mm_inv (Vmm (vmas v) (<[mm' := set_mmap_cache (Some c) m]> (mms v))) mm al.
Proof.
  intros [Ha (m0 & Hm & Hnd & Hl & Hc & Hn)] Hm' Hin. split; [done|]. cbn. destruct (decide (mm = mm')) as [->|Hne].
  - rewrite lookup_insert_eq. eexists. split; [done|]. rewrite Hm in Hm'. injection Hm' as <-. split; [done|]. split; [done|]. split; [|done]. by intros ? [= <-].
  - rewrite lookup_insert_ne by done. by exists m0.
Qed.

(** * Finding an area *)
Lemma find_vma_list_run v l al addr :
  Forall2 (area_is v) l al ->
  exists r, find_vma_list v l addr = Ok r /\
    match r with
    | Some x => exists a, area_is v x a /\ x ∈ l /\ a ∈ al /\ contains a addr = true
    | None => Forall (fun a => contains a addr = false) al
    end.
Proof.
  induction 1 as [|x a l al Hx _ IH]; [by exists None|]. cbn [find_vma_list]. rewrite (deref_some _ _ _ Hx). cbn [mbind res_bind].
  destruct (contains a addr) eqn:E.
  - exists (Some x). split; [done|]. exists a. split; [done|]. split; [left|]. by split; [left|].
  - destruct IH as (r & -> & Hr). exists r. split; [done|]. destruct r as [y|]; [|by constructor].
    destruct Hr as (b & ? & ? & ? & ?). exists b. split; [done|]. split; [by right|]. split; [by right|done].
Qed.

Lemma Forall2_area v l al x a : Forall2 (area_is v) l al -> x ∈ l -> area_is v x a -> a ∈ al.
Proof.
  intros Hl Hx Ha. apply list_elem_of_lookup in Hx as [i Hi]. destruct (Forall2_lookup_l _ _ _ _ _ Hl Hi) as (b & Hb & Hxb).
  unfold area_is in *. assert (a = b) as -> by congruence. by eapply list_elem_of_lookup_2.
Qed.

(** [find_vma] finds the area of an address, whether through the cache or the list. *)
Lemma find_vma_run v mm al addr :
  mm_inv v mm al ->
  exists v' r, find_vma v (Some mm) addr = Ok (v', r) /\ same_areas mm v v' /\ mm_inv v' mm al /\
    match r with
    | Some x => exists a, area_is v x a /\ a ∈ al /\ contains a addr = true
    | None => Forall (fun a => contains a addr = false) al
    end.
Proof.
  intros Hinv. pose proof Hinv as [_ (m & Hm & _ & Hl & Hc & _)]. unfold find_vma. rewrite (deref_some _ _ _ Hm). cbn [mbind res_bind].
  assert (exists hit, match mmap_cache m with Some vma => a ← deref (vmas v) vma; Ok (contains a addr) | None => Ok false end = Ok hit /\
    (hit = true -> exists x a, mmap_cache m = Some x /\ x ∈ mmap_list m /\ area_is v x a /\ a ∈ al /\ contains a addr = true)) as (hit & -> & Hhit).
  { destruct (mmap_cache m) as [x|] eqn:Ec; [|by exists false]. pose proof (Hc x eq_refl) as Hx. pose proof Hx as [i Hi]%list_elem_of_lookup.
    destruct (Forall2_lookup_l _ _ _ _ _ Hl Hi) as (a & Ha & Hxa). rewrite (deref_some _ _ _ Hxa). cbn. eexists. split; [reflexivity|]. intros E.
    exists x, a. split; [done|]. split; [done|]. split; [done|]. split; [|done]. by eapply list_elem_of_lookup_2. }
  cbn [mbind res_bind].
  assert (exists r, (if hit then Ok (mmap_cache m) else find_vma_list v (mmap_list m) addr) = Ok r /\
    match r with Some x => exists a, area_is v x a /\ x ∈ mmap_list m /\ a ∈ al /\ contains a addr = true | None => Forall (fun a => contains a addr = false) al end) as (r & -> & Hr).
  { destruct hit; [|by apply find_vma_list_run]. destruct (Hhit eq_refl) as (x & a & -> & ? & ? & ? & ?). exists (Some x). split; [done|]. by exists a. }
  cbn [mbind res_bind]. destruct r as [x|].
  - destruct Hr as (a & Hxa & Hx & Ha & Hca). unfold upd_mm. rewrite (deref_some _ _ _ Hm). cbn [mbind res_bind]. eexists _, (Some x). split; [reflexivity|].
    split; [|split; [by apply mm_inv_cache|by exists a]]. split; [done|]. split; [intros y Hy; by apply lookup_insert_ne|]. cbn. by rewrite lookup_insert_eq, Hm.
  - exists v, None. by split.
Qed.

(** * Checking user memory *)

(** What a user process may do at one address.  The lowest page of a stack is a guard. *)
Definition may (al : list vma_struct) (write : bool) (x : Z) : Prop :=
  exists a, a ∈ al /\ contains a x = true /\ Z.land (vm_flags a) (if write then VM_WRITE else VM_READ) <> 0 /\
    ~ (write = true /\ Z.land (vm_flags a) VM_STACK <> 0 /\ x < vm_start a + PGSIZE).

Definition behind (al : list vma_struct) (x : Z) : nat := length (filter (fun a => x < vm_end a) al).

Lemma filter_length_lt {A} (P Q : A -> Prop) `{!forall x, Decision (P x), !forall x, Decision (Q x)} (l : list A) x :
  x ∈ l -> P x -> ~ Q x -> (forall y, y ∈ l -> Q y -> P y) -> (length (filter Q l) < length (filter P l))%nat.
Proof.
  intros Hx Hp Hq Hpq. assert (Hle : forall l : list A, (forall y, y ∈ l -> Q y -> P y) -> (length (filter Q l) <= length (filter P l))%nat).
  { clear. induction l as [|y l IH]; intros Hl; [done|]. rewrite !filter_cons. specialize (IH (fun z Hz => Hl z (list_elem_of_further _ _ _ Hz))).
    destruct (decide (Q y)); [rewrite (decide_True (P := P y)) by (apply Hl; [left|done]); cbn; lia|]. destruct (decide (P y)); cbn; lia. }
  induction l as [|y l IH]; [by apply elem_of_nil in Hx|]. rewrite !filter_cons. apply elem_of_cons in Hx as [<-|Hx].
  - rewrite (decide_False (P := Q x)), (decide_True (P := P x)) by done. cbn. apply Nat.lt_succ_r, Hle. intros z Hz. apply Hpq. by right.
  - specialize (IH Hx (fun z Hz => Hpq z (list_elem_of_further _ _ _ Hz))). destruct (decide (Q y)); [rewrite (decide_True (P := P y)) by (apply Hpq; [left|done]); cbn; lia|].
    destruct (decide (P y)); cbn; lia.
Qed.

(** [user_mem_check] is the pointwise check: it allows a range exactly when every
    address of it may be accessed. *)
Lemma user_mem_loop v mm al addr end_ write :
  mm_inv v mm al -> addr <= end_ ->
  exists v' b, loop (user_mem_step mm end_ write) (S (S (length al))) (v, addr) = Ok (v', b) /\ same_areas mm v v' /\ mm_inv v' mm al /\
    (b = true <-> forall x, addr <= x < end_ -> may al write x).
Proof.
  intros Hinv Hle.
  destruct (loop_total (user_mem_step mm end_ write)
    (fun st => same_areas mm v st.1 /\ mm_inv st.1 mm al /\ addr <= st.2 /\ forall x, addr <= x < st.2 -> x < end_ -> may al write x)
    (fun r => same_areas mm v r.1 /\ mm_inv r.1 mm al /\ (r.2 = true <-> forall x, addr <= x < end_ -> may al write x))
    (fun st => behind al st.2)) with (fuel := S (S (length al))) (a := (v, addr)) as ([v' b] & Hrun & Hs & Hi & Hb).
  - intros [v1 s] (Hs & Hi & Hle1 & Hpast). cbn [fst snd] in *. cbn [user_mem_step]. destruct (Z.ltb_spec s end_) as [Hlt|Hge].
    2:{ right. eexists. split; [reflexivity|]. split; [done|]. split; [done|]. split; [|done]. intros _ x Hx. apply Hpast; lia. }
    destruct (find_vma_run v1 mm al s Hi) as (v2 & r & -> & Hs2 & Hi2 & Hr). cbn [mbind res_bind]. assert (Hs12 : same_areas mm v v2) by by etrans.
    assert (Hno : ~ may al write s -> (false = true <-> forall x, addr <= x < end_ -> may al write x)) by (intros Hn; split; [done|]; intros Hall; destruct Hn; apply Hall; lia).
    destruct r as [x|].
    2:{ right. eexists. split; [reflexivity|]. split; [done|]. split; [done|]. apply Hno. intros (a & Ha & Hc & _). rewrite Forall_forall in Hr. by rewrite (Hr a Ha) in Hc. }
    destruct Hr as (a & Hxa & Ha & Hc). pose proof (mi_ascending _ _ _ Hi) as Hasc. assert (Huniq : forall y b, b ∈ al -> contains b y = true -> contains a y = true -> b = a) by (intros; by eapply ascending_unique).
    unfold area_is in Hxa. rewrite <- (proj1 Hs2) in Hxa. rewrite (deref_some _ _ _ Hxa). cbn [mbind res_bind]. pose proof Hc as Hc'. unfold contains in Hc'.
    rewrite (proj2 (Z.ltb_ge s (vm_start a))) by lia. destruct (Z.eqb_spec (Z.land (vm_flags a) (if write then VM_WRITE else VM_READ)) 0) as [E|E].
    { right. eexists. split; [reflexivity|]. split; [done|]. split; [done|]. apply Hno. intros (b & Hb & Hcb & Hf & _). by rewrite (Huniq s b Hb Hcb Hc) in Hf. }
    destruct (write && negb (Z.land (vm_flags a) VM_STACK =? 0) && (s <? vm_start a + PGSIZE)) eqn:Eg.
    { right. eexists. split; [reflexivity|]. split; [done|]. split; [done|]. apply Hno. intros (b & Hb & Hcb & _ & Hg). rewrite (Huniq s b Hb Hcb Hc) in Hg. apply Hg.
      apply andb_prop in Eg as [[-> Eg]%andb_prop ?]. split; [done|]. split; [|lia]. apply negb_true_iff in Eg. lia. }
    left. eexists. split; [reflexivity|]. split; [split; [done|split; [done|split; [cbn; lia|]]]|].
    + intros y Hy Hye. cbn in Hy. destruct (decide (y < s)) as [Hys|Hys]; [apply Hpast; lia|]. exists a. split; [done|]. split; [unfold contains; lia|]. split; [done|].
      intros (-> & Hst & Hy2). rewrite (proj2 (Z.eqb_neq _ _) Hst) in Eg. cbn in Eg. lia.
    + cbn. eapply filter_length_lt; [exact Ha|cbn; lia|cbn; lia|]. cbn. lia.
  - cbn. split; [done|]. split; [done|]. split; [lia|]. intros x Hx. lia.
  - cbn. apply Nat.lt_succ_r. unfold behind. pose proof (length_filter (fun a => addr < vm_end a) al). lia.
  - exists v', b. by split_and!.
Qed.

Lemma user_mem_check_run v mm al addr len write :
  mm_inv v mm al ->
  exists v' b, user_mem_check v (Some mm) addr len write = Ok (v', b) /\ same_areas mm v v' /\ mm_inv v' mm al /\
    (b = true <-> USERBASE <= addr /\ addr < u64 (addr + len) <= USERTOP /\ forall x, addr <= x < u64 (addr + len) -> may al write x).
Proof.
  intros Hinv. unfold user_mem_check. destruct (USER_ACCESS addr (u64 (addr + len))) eqn:E; unfold USER_ACCESS in E.
  - pose proof Hinv as [_ (m & Hm & _ & Hl & _)]. rewrite (deref_some _ _ _ Hm). cbn [mbind res_bind]. rewrite (Forall2_length _ _ _ Hl).
    destruct (user_mem_loop v mm al addr (u64 (addr + len)) write Hinv) as (v' & b & -> & Hs & Hi & Hb); [lia|].
    exists v', b. split; [done|]. split; [done|]. split; [done|]. rewrite Hb. split; [intros H; split_and!; [lia|lia|lia|done]|tauto].
  - exists v, false. split; [done|]. split; [done|]. split; [done|]. split; [done|]. lia.
Qed.

(** C24. User memory is checked pointwise: whatever the cache holds, [user_mem_check] of a
    process's memory comes to an end, changes nothing but the cache, and answers yes
    exactly when the range is a non-empty range of user addresses each of which
    lies in an area of the process that allows the access - and, for writes, not in
    the guard page of a stack. *)
Theorem user_mem_check_pointwise v mm al addr len write :
  mm_inv v mm al ->
  exists v' b, user_mem_check v (Some mm) addr len write = Ok (v', b) /\ same_areas mm v v' /\ mm_inv v' mm al /\
    (b = true <-> USERBASE <= addr /\ addr < u64 (addr + len) <= USERTOP /\ forall x, addr <= x < u64 (addr + len) -> may al write x).
Proof. apply user_mem_check_run. Qed.

(** * Adding an area *)
Definition overlaps (a b : vma_struct) : Prop := vm_start a < vm_end b /\ vm_start b < vm_end a.

#[export] Instance overlaps_dec a b : Decision (overlaps a b).
Proof. unfold overlaps. apply _. Defined.

Lemma split_at_run v s l al :
  Forall2 (area_is v) l al ->
  exists l1 l2 al1 al2, split_at v s l = Ok (l1, l2) /\ l = l1 ++ l2 /\ al = al1 ++ al2 /\
    Forall2 (area_is v) l1 al1 /\ Forall2 (area_is v) l2 al2 /\
    Forall (fun a => vm_start a <= s) al1 /\ (forall a, head al2 = Some a -> s < vm_start a).
Proof.
  induction 1 as [|x a l al Hx Hl IH]; [exists [], [], [], []; by repeat constructor|].
  cbn [split_at]. rewrite (deref_some _ _ _ Hx). cbn [mbind res_bind]. destruct (Z.ltb_spec s (vm_start a)).
  - exists [], (x :: l), [], (a :: al). repeat (split; [by repeat constructor|]). by intros b [= <-].
  - destruct IH as (l1 & l2 & al1 & al2 & -> & -> & -> & H1 & H2 & H3 & H4). exists (x :: l1), l2, (a :: al1), al2.
    repeat (split; [by repeat constructor|]). done.
Qed.

Lemma Forall2_last_some v l al x : Forall2 (area_is v) l al -> last l = Some x -> exists a, last al = Some a /\ area_is v x a.
Proof.
  intros Hl Hx. rewrite last_lookup in Hx. destruct (Forall2_lookup_l _ _ _ _ _ Hl Hx) as (a & Ha & Hxa). exists a.
  by rewrite last_lookup, <- (Forall2_length _ _ _ Hl).
Qed.

Lemma Forall2_last_none v l al : Forall2 (area_is v) l al -> last l = None -> al = [].
Proof. intros Hl ->%last_None. by inversion Hl. Qed.

Lemma check_vma_overlap_run v x y a b :
  area_is v x a -> area_is v y b -> vm_start a < vm_end a -> vm_start b < vm_end b ->
  check_vma_overlap v x y = if vm_end a <=? vm_start b then Ok tt else Panic.
Proof.
  intros Ha Hb H1 H2. unfold check_vma_overlap. rewrite (deref_some _ _ _ Ha), (deref_some _ _ _ Hb). cbn [mbind res_bind].
  rewrite (proj2 (Z.ltb_lt _ _) H1). cbn [c_assert mbind res_bind]. destruct (vm_end a <=? vm_start b); [|done]. cbn [c_assert mbind res_bind].
  by rewrite (proj2 (Z.ltb_lt _ _) H2).
Qed.

(** What lies before and behind the place of the new area decides. *)
Lemma place_overlaps al1 al2 a0 :
  ascending 0 (al1 ++ al2) -> vm_start a0 < vm_end a0 -> Forall (fun a => vm_start a <= vm_start a0) al1 ->
  (forall a, head al2 = Some a -> vm_start a0 < vm_start a) ->
  Exists (overlaps a0) (al1 ++ al2) <->
  (exists a, last al1 = Some a /\ vm_start a0 < vm_end a) \/ (exists a, head al2 = Some a /\ vm_start a < vm_end a0).
Proof.
  intros Hasc Hne H1 H2. rewrite Exists_exists. split.
  - intros (a & Ha & [Ho1 Ho2]). apply elem_of_app in Ha as [Ha|Ha].
    + left. destruct al1 as [|z al1 _] using rev_ind; [by apply elem_of_nil in Ha|]. exists z. rewrite last_snoc. split; [done|].
      apply elem_of_app in Ha as [Ha| ->%list_elem_of_singleton]; [|done]. apply ascending_app in Hasc as [Hasc _]. apply ascending_app in Hasc as [Hasc Hz].
      cbn in Hz. apply list_elem_of_split in Ha as (l1 & l2 & ->). rewrite fmap_app in Hz. cbn -[List.last] in Hz. rewrite last_app_cons in Hz.
      apply ascending_app in Hasc as [_ Hasc]. cbn in Hasc. destruct Hasc as (_ & Hane & Hasc). clear -Ho1 Hz Hasc.
      assert (vm_end a <= List.last (vm_end <$> l2) (vm_end a)); [|lia]. clear Ho1 Hz. revert Hasc. generalize (vm_end a). induction l2 as [|b l2 IH]; intros lo; [by cbn|].
      cbn -[List.last]. intros (? & ? & Hb). rewrite last_cons_default. specialize (IH _ Hb). lia.
    + right. destruct al2 as [|z al2]; [by apply elem_of_nil in Ha|]. exists z. split; [done|]. apply elem_of_cons in Ha as [->|Ha]; [done|].
      apply ascending_app in Hasc as [_ (_ & Hz & Hasc)]. destruct (ascending_elem _ _ _ Hasc Ha). lia.
  - intros [(a & Ha & Ho)|(a & Ha & Ho)].
    + exists a. assert (a ∈ al1) as Hin by (rewrite last_lookup in Ha; by eapply list_elem_of_lookup_2). split; [apply elem_of_app; by left|].
      rewrite Forall_forall in H1. specialize (H1 a Hin). split; [done|]. lia.
    + exists a. assert (a ∈ al2) as Hin by (destruct al2; [done|]; injection Ha as ->; by left). split; [apply elem_of_app; by right|].
      assert (Hin' : a ∈ al1 ++ al2) by (apply elem_of_app; by right). destruct (ascending_elem _ _ _ Hasc Hin'). specialize (H2 a Ha). split; [lia|done].
Qed.

Lemma placed_ascending al1 al2 a0 :
  ascending 0 (al1 ++ al2) -> 0 <= vm_start a0 < vm_end a0 ->
  (forall a, last al1 = Some a -> vm_end a <= vm_start a0) -> (forall a, head al2 = Some a -> vm_end a0 <= vm_start a) ->
  ascending 0 (al1 ++ a0 :: al2).
Proof.
  intros [Ha1 Ha2]%ascending_app Hne H1 H2. apply ascending_app. split; [done|]. split; [|split; [lia|]].
  - destruct al1 as [|z al1 _] using rev_ind; [cbn; lia|]. rewrite fmap_app. cbn -[List.last]. rewrite last_app_cons. cbn. apply H1. by rewrite last_snoc.
  - destruct al2 as [|z al2]; [done|]. cbn in Ha2 |- *. split; [by apply H2|tauto].
Qed.

Lemma i32_succ z : i32 (i32 z + 1) = i32 (z + 1).
Proof.
  unfold i32. replace ((z + 2 ^ 31) mod 2 ^ 32 - 2 ^ 31 + 1 + 2 ^ 31) with ((z + 2 ^ 31) mod 2 ^ 32 + 1) by lia.
  rewrite Zplus_mod_idemp_l. f_equal. f_equal. lia.
Qed.

(** But for its areas the description [mm] is what it was. *)
Definition same_else (mm : Z) (v v' : vmm) : Prop :=
  forall A (g : mm_struct -> A), (forall l n m, g (set_map_count n (set_mmap_list l m)) = g m) -> g <$> mms v' !! mm = g <$> mms v !! mm.

Lemma insert_vma_struct_run v mm al vma a0 m :
  mm_inv v mm al -> mms v !! mm = Some m -> area_is v vma a0 -> vma ∉ mmap_list m -> 0 <= vm_start a0 < vm_end a0 ->
  if decide (Exists (overlaps a0) al) then insert_vma_struct v mm vma = Panic
  else exists v' al1 al2, insert_vma_struct v mm vma = Ok v' /\ al = al1 ++ al2 /\ mm_inv v' mm (al1 ++ set_vm_mm (Some mm) a0 :: al2) /\
    vmas v' = <[vma := set_vm_mm (Some mm) a0]> (vmas v) /\ (forall x, x <> mm -> mms v' !! x = mms v !! x) /\
    same_else mm v v'.
Proof.
  intros [Hasc (m' & Hm' & Hnd & Hl & Hc & Hcount)] Hm Hvma Hfresh Hne. rewrite Hm in Hm'. injection Hm' as <-.
  unfold insert_vma_struct. rewrite (deref_some _ _ _ Hvma). cbn [mbind res_bind]. rewrite (proj2 (Z.ltb_lt _ _)) by lia. cbn [c_assert mbind res_bind].
  rewrite (deref_some _ _ _ Hm). cbn [mbind res_bind].
  destruct (split_at_run v (vm_start a0) _ _ Hl) as (l1 & l2 & al1 & al2 & -> & Hll & -> & Hl1 & Hl2 & Hle & Hgt). cbn [mbind res_bind].
  pose proof (place_overlaps al1 al2 a0 Hasc ltac:(lia) Hle Hgt) as Hiff.
  assert (Hprev : match last l1 with Some p => check_vma_overlap v p vma | None => Ok tt end =
    if from_option (fun a => vm_start a0 <? vm_end a) false (last al1) then Panic else Ok tt).
  { destruct (last l1) as [p|] eqn:E; [|by rewrite (Forall2_last_none _ _ _ Hl1 E)].
    destruct (Forall2_last_some _ _ _ _ Hl1 E) as (a & Ha & Hpa). assert (a ∈ al1 ++ al2) as Hin by (apply elem_of_app; left; rewrite last_lookup in Ha; by eapply list_elem_of_lookup_2).
    rewrite (check_vma_overlap_run _ _ _ _ _ Hpa Hvma) by (try apply (ascending_elem _ _ _ Hasc Hin); lia). rewrite Ha. cbn. by rewrite Z.leb_antisym, negb_if. }
  assert (Hnext : match head l2 with Some n => check_vma_overlap v vma n | None => Ok tt end =
    if from_option (fun a => vm_start a <? vm_end a0) false (head al2) then Panic else Ok tt).
  { destruct Hl2 as [|n b l2 al2 Hnb Hl2]; [done|]. assert (b ∈ al1 ++ b :: al2) as Hin by (apply elem_of_app; right; by left). cbn.
    rewrite (check_vma_overlap_run _ _ _ _ _ Hvma Hnb) by (try apply (ascending_elem _ _ _ Hasc Hin); lia). by rewrite Z.leb_antisym, negb_if. }
  rewrite Hprev, Hnext. assert (Hhits : forall (o : option vma_struct) f, from_option f false o = true <-> exists a, o = Some a /\ f a = true) by (intros [b|] f; cbn; naive_solver).
  pose proof (Hhits (last al1) (fun a => vm_start a0 <? vm_end a)) as Hp. pose proof (Hhits (head al2) (fun a => vm_start a <? vm_end a0)) as Hn. setoid_rewrite Z.ltb_lt in Hp. setoid_rewrite Z.ltb_lt in Hn.
  rewrite <- Hp, <- Hn in Hiff. clear Hprev Hnext Hhits.
  destruct (from_option _ _ (last al1)) eqn:Ep; [rewrite decide_True by tauto; done|]. cbn [mbind res_bind].
  destruct (from_option _ _ (head al2)) eqn:En; [rewrite decide_True by tauto; done|].
  assert (~ Exists (overlaps a0) (al1 ++ al2)) as Ho by (intros Ho%Hiff; destruct Ho; done). rewrite decide_False by done.
  apply not_true_iff_false in Ep, En. assert (Hp' : ~ (exists a, last al1 = Some a /\ vm_start a0 < vm_end a)) by (rewrite <- Hp; done).
  assert (Hn' : ~ (exists a, head al2 = Some a /\ vm_start a < vm_end a0)) by (rewrite <- Hn; done).
  cbn [mbind res_bind]. unfold upd_vma, upd_mm. rewrite (deref_some _ _ _ Hvma). cbn [mbind res_bind vmas mms].
  rewrite (deref_some _ _ _ Hm). cbn [mbind res_bind vmas mms]. rewrite (deref_some _ _ _ (lookup_insert_eq _ _ _)). cbn [mbind res_bind vmas mms]. rewrite insert_insert_eq.
  eexists _, al1, al2. split; [reflexivity|]. split; [done|]. split; [|split; [done|split; [by intros x Hx; apply lookup_insert_ne|intros A g Hg; cbn; rewrite lookup_insert_eq, Hm; cbn; by rewrite Hg]]].
  split.
  - apply placed_ascending; [done|done| |].
    + intros a Ha. destruct (Z.le_gt_cases (vm_end a) (vm_start a0)); [done|]. destruct Hp'. exists a. split; [done|lia].
    + intros a Ha. destruct (Z.le_gt_cases (vm_end a0) (vm_start a)); [done|]. destruct Hn'. exists a. split; [done|]. lia.
  - eexists. cbn. rewrite lookup_insert_eq. split; [reflexivity|]. cbn. rewrite Hll in Hnd, Hfresh, Hc. split; [|split; [|split]].
    + rewrite elem_of_app in Hfresh. apply NoDup_app in Hnd as (? & Hdis & ?). apply NoDup_app. split; [done|]. split; [|apply NoDup_cons; tauto].
      intros y Hy [->|Hy2]%elem_of_cons; [tauto|by apply (Hdis y)].
    + assert (Hmono : forall k ak, Forall2 (area_is v) k ak -> vma ∉ k -> Forall2 (area_is (Vmm (<[vma := set_vm_mm (Some mm) a0]> (vmas v)) (<[mm := set_map_count (i32 (map_count m + 1)) (set_mmap_list (l1 ++ vma :: l2) m)]> (mms v)))) k ak).
      { intros k ak Hk Hnot. induction Hk as [|y b k ak Hy _ IHk]; [constructor|]. apply not_elem_of_cons in Hnot as [Hn1 Hn2]. constructor; [|by apply IHk].
        unfold area_is. cbn. by rewrite lookup_insert_ne. }
      rewrite elem_of_app in Hfresh. apply Forall2_app; [apply Hmono; tauto|]. constructor; [unfold area_is; cbn; apply lookup_insert_eq|apply Hmono; tauto].
    + intros c Hc'. specialize (Hc c Hc'). rewrite elem_of_app in Hc. rewrite elem_of_app, elem_of_cons. tauto.
    + rewrite Hcount, i32_succ, !length_app. cbn [length]. f_equal. lia.
Qed.

Lemma area_is_insert v l al vma a :
  Forall2 (area_is v) l al -> vma ∉ l -> Forall2 (area_is (Vmm (<[vma := a]> (vmas v)) (mms v))) l al.
Proof.
  intros Hl Hn. induction Hl as [|x b l al Hx _ IH]; [constructor|]. apply not_elem_of_cons in Hn as [Hn1 Hn2]. constructor; [|by apply IH].
  unfold area_is. cbn. by rewrite lookup_insert_ne.
Qed.

Lemma area_not_fresh v l al vma : Forall2 (area_is v) l al -> vmas v !! vma = None -> vma ∉ l.
Proof. intros Hl Hn [i Hi]%list_elem_of_lookup. destruct (Forall2_lookup_l _ _ _ _ _ Hl Hi) as (a & _ & Ha). unfold area_is in Ha. congruence. Qed.

Lemma mm_inv_new v mm al vma a : mm_inv v mm al -> vmas v !! vma = None -> mm_inv (Vmm (<[vma := a]> (vmas v)) (mms v)) mm al.
Proof.
  intros [Hasc (m & Hm & Hnd & Hl & Hc & Hn)] Hv. split; [done|]. exists m. split; [done|]. split; [done|]. split; [|done].
  apply area_is_insert; [done|]. by eapply area_not_fresh.
Qed.

Lemma mm_inv_other v v' mm al :
  mm_inv v mm al -> mms v' !! mm = mms v !! mm -> (forall x a, area_is v x a -> area_is v' x a) -> mm_inv v' mm al.
Proof.
  intros [Hasc (m & Hm & Hnd & Hl & Hc & Hn)] Hmm Ha. split; [done|]. exists m. rewrite Hmm. split; [done|]. split; [done|]. split; [|done].
  eapply Forall2_impl; [exact Hl|]. intros x a. apply Ha.
Qed.

(** [mm_map] when no area contains the first page: what is left to do is to make the new
    area. *)
Lemma mm_map_gap ok v mm al addr len flags :
  mm_inv v mm al ->
  let start := ROUNDDOWN addr PGSIZE in
  let end_ := ROUNDUP (u64 (addr + len)) PGSIZE in
  USER_ACCESS start end_ = true -> ~ Exists (fun a => contains a start = true) al ->
  exists v1, same_areas mm v v1 /\ mm_inv v1 mm al /\ mm_map ok v mm addr len flags =
    match vma_create ok v1 start end_ flags with
    | (v, None) => Ok (v, inl E_NO_MEM)
    | (v, Some vma) => v ← insert_vma_struct v mm vma; Ok (v, inr vma)
    end.
Proof.
  intros Hinv start end_ Eu Hno. unfold mm_map. fold start end_. rewrite Eu. destruct (find_vma_run v mm al start Hinv) as (v1 & r & -> & Hs1 & Hi1 & Hr). cbn [mbind res_bind].
  destruct r as [x|]; [destruct Hr as (a & _ & Ha & Hca); destruct Hno; apply Exists_exists; by exists a|]. by exists v1.
Qed.

(** The new area in its place, unless it runs into another one. *)
Lemma mm_map_insert v mm al addr len flags :
  mm_inv v mm al ->
  let start := ROUNDDOWN addr PGSIZE in
  let end_ := ROUNDUP (u64 (addr + len)) PGSIZE in
  let new := Vma (Some mm) start end_ flags in
  USER_ACCESS start end_ = true -> ~ Exists (fun a => contains a start = true) al ->
  if decide (Exists (overlaps new) al) then mm_map true v mm addr len flags = Panic
  else exists v' vma al1 al2, mm_map true v mm addr len flags = Ok (v', inr vma) /\ al = al1 ++ al2 /\ area_is v' vma new /\
    mm_inv v' mm (al1 ++ new :: al2) /\ (forall mm' al', mm' <> mm -> mm_inv v mm' al' -> mm_inv v' mm' al') /\
    mm_pgdir <$> mms v' !! mm = mm_pgdir <$> mms v !! mm.
Proof.
  intros Hinv start end_ new Eu Hno. destruct (mm_map_gap true v mm al addr len flags Hinv Eu Hno) as (v1 & Hs1 & Hi1 & ->). cbn [vma_create]. fold start end_. unfold USER_ACCESS in Eu. assert (0 < USERBASE) as Hub by done.
  pose proof Hi1 as [_ (m & Hm & _ & Hl & _)]. set (vma := fresh (dom (vmas v1))).
  assert (Hfresh : vmas v1 !! vma = None) by (apply not_elem_of_dom, is_fresh).
  set (v2 := Vmm (<[vma := Vma None start end_ flags]> (vmas v1)) (mms v1)).
  pose proof (insert_vma_struct_run v2 mm al vma (Vma None start end_ flags) m (mm_inv_new _ _ _ _ _ Hi1 Hfresh) Hm (lookup_insert_eq _ _ _) (area_not_fresh _ _ _ _ Hl Hfresh)) as Hins.
  cbn [vm_start vm_end set_vm_mm vm_flags] in Hins. specialize (Hins ltac:(lia)). change (overlaps new) with (overlaps (Vma None start end_ flags)).
  destruct (decide (Exists (overlaps (Vma None start end_ flags)) al)); [by rewrite Hins|].
  destruct Hins as (v' & al1 & al2 & -> & Hal & Hinv' & Hvmas & Hothers & Helse). exists v', vma, al1, al2. cbn [mbind res_bind]. split; [done|]. split; [done|].
  split; [unfold area_is; rewrite Hvmas; apply lookup_insert_eq|]. split; [done|]. split.
  - intros mm' al' Hne Hinv2. apply (mm_inv_other v); [done|rewrite Hothers by done; by apply Hs1|]. intros x a Hx. unfold area_is in *. rewrite Hvmas. cbn.
    rewrite <- (proj1 Hs1) in Hx. rewrite !lookup_insert_ne; congruence.
  - rewrite Helse by done. destruct Hs1 as (_ & _ & Hpg). apply (f_equal (fmap mm_pgdir)) in Hpg. by rewrite <- !option_fmap_compose in Hpg.
Qed.

(** C26. Mapping memory, on every path.  A request outside user space, or whose first page
    is in an area already, is refused as invalid; a lack of memory is reported; a
    request that starts in a gap but runs into a later area stops the kernel in
    [check_vma_overlap]; and otherwise the page-aligned area is added at its place
    in the ascending order, for this process and no other. *)
Theorem mm_map_paths ok v mm al addr len flags :
  mm_inv v mm al ->
  let start := ROUNDDOWN addr PGSIZE in
  let end_ := ROUNDUP (u64 (addr + len)) PGSIZE in
  let new := Vma (Some mm) start end_ flags in
  if negb (USER_ACCESS start end_) then mm_map ok v mm addr len flags = Ok (v, inl E_INVAL)
  else if decide (Exists (fun a => contains a start = true) al) then
    exists v', mm_map ok v mm addr len flags = Ok (v', inl E_INVAL) /\ same_areas mm v v' /\ mm_inv v' mm al
  else if negb ok then exists v', mm_map ok v mm addr len flags = Ok (v', inl E_NO_MEM) /\ same_areas mm v v' /\ mm_inv v' mm al
  else if decide (Exists (overlaps new) al) then mm_map ok v mm addr len flags = Panic
  else exists v' vma al1 al2, mm_map ok v mm addr len flags = Ok (v', inr vma) /\ al = al1 ++ al2 /\ area_is v' vma new /\
    mm_inv v' mm (al1 ++ new :: al2) /\ forall mm' al', mm' <> mm -> mm_inv v mm' al' -> mm_inv v' mm' al'.
Proof.
  intros Hinv start end_ new. destruct (USER_ACCESS start end_) eqn:Eu; cbn [negb]; [|unfold mm_map; fold start end_; by rewrite Eu].
  destruct (decide (Exists (fun a => contains a start = true) al)) as [Hc|Hno].
  - unfold mm_map. fold start end_. rewrite Eu. destruct (find_vma_run v mm al start Hinv) as (v1 & r & -> & Hs1 & Hi1 & Hr). cbn [mbind res_bind].
    destruct r as [x|]; [|apply Exists_exists in Hc as (a & Ha & Hca); rewrite Forall_forall in Hr; by rewrite (Hr a Ha) in Hca].
    destruct Hr as (a & Hxa & Ha & Hca). unfold area_is in Hxa. rewrite <- (proj1 Hs1) in Hxa. rewrite (deref_some _ _ _ Hxa). cbn [mbind res_bind].
    unfold contains in Hca. unfold USER_ACCESS in Eu. rewrite (proj2 (Z.ltb_lt (vm_start a) end_)) by lia. by exists v1.
  - destruct ok; cbn [negb].
    + pose proof (mm_map_insert v mm al addr len flags Hinv Eu Hno) as H. fold start end_ new in H. destruct (decide (Exists (overlaps new) al)); [done|].
      destruct H as (v' & vma & al1 & al2 & ? & ? & ? & ? & ? & _). by exists v', vma, al1, al2.
    + destruct (mm_map_gap false v mm al addr len flags Hinv Eu Hno) as (v1 & Hs1 & Hi1 & ->). by exists v1.
Qed.

(** * Copying strings from user memory *)

(** A C string of [k] bytes at [a]. *)
Definition str_at (m : memory) (a k : Z) : Prop :=
  (forall i, 0 <= i < k -> exists c, m !! (a + i) = Some c /\ c <> 0) /\ m !! (a + k) = Some 0.

(** The areas of a process lie in user space and consist of pages. *)
Definition user_areas (al : list vma_struct) : Prop :=
  Forall (fun a => USERBASE <= vm_start a /\ vm_end a <= USERTOP /\ vm_start a mod PGSIZE = 0 /\ vm_end a mod PGSIZE = 0) al.

Lemma mapped_size m a k : mapped m a (Z.of_nat k) -> (k <= size m)%nat.
Proof.
  intros Hm. assert (exists l, length l = k /\ stored m a l) as (l & <- & Hl); [|by apply stored_size in Hl].
  revert a Hm. induction k as [|k IH]; intros a Hm; [by exists []|]. destruct (Hm a) as [x Hx]; [lia|].
  destruct (IH (a + 1)) as (l & Hlen & Hl); [intros i Hi; apply Hm; lia|]. exists (x :: l). cbn. split; [by rewrite Hlen|done].
Qed.

Lemma strnlen_loop m len k s cnt fuel :
  mapped m s (Z.of_nat k) -> len = cnt + Z.of_nat k -> (k < fuel)%nat ->
  exists n, loop (strnlen_step m len) fuel (s, cnt) = Ok (cnt + n) /\ 0 <= n <= Z.of_nat k /\
    (forall i, 0 <= i < n -> exists c, m !! (s + i) = Some c /\ c <> 0) /\ (n < Z.of_nat k -> m !! (s + n) = Some 0).
Proof.
  revert s cnt fuel. induction k as [|k IH]; intros s cnt [|fuel] Hm -> Hf; try lia; rewrite loop_S; cbn [strnlen_step].
  - rewrite (proj2 (Z.ltb_ge _ _)) by lia. exists 0. split; [f_equal; lia|]. split; [lia|]. split; intros; lia.
  - rewrite (proj2 (Z.ltb_lt _ _)) by lia. destruct (Hm s) as [ch Hch]; [lia|]. unfold load. rewrite (deref_some _ _ _ Hch). cbn [mbind res_bind].
    destruct (Z.eqb_spec ch 0) as [->|Hne]; [exists 0; split; [f_equal; lia|]; split; [lia|]; split; [intros; lia|by rewrite Z.add_0_r]|].
    destruct (IH (s + 1) (cnt + 1) fuel) as (n & -> & Hn & Hb & Hz); [intros i Hi; apply Hm; lia|lia|lia|].
    exists (n + 1). split; [f_equal; lia|]. split; [lia|]. split.
    + intros i Hi. destruct (decide (i = 0)) as [->|]; [rewrite Z.add_0_r; by exists ch|]. destruct (Hb (i - 1)) as (c & Hc & ?); [lia|]. exists c. by replace (s + i) with (s + 1 + (i - 1)) by lia.
    + intros. replace (s + (n + 1)) with (s + 1 + n) by lia. apply Hz. lia.
Qed.

Lemma strnlen_run m s len :
  0 <= len -> mapped m s len ->
  exists n, strnlen m s len = Ok n /\ 0 <= n <= len /\ (forall i, 0 <= i < n -> exists c, m !! (s + i) = Some c /\ c <> 0) /\ (n < len -> m !! (s + n) = Some 0).
Proof.
  intros Hlen Hm. destruct (strnlen_loop m len (Z.to_nat len) s 0 (S (size m))) as (n & Hrun & Hrest); [by rewrite Z2Nat.id|lia| |].
  - apply Nat.lt_succ_r, (mapped_size m s). by rewrite Z2Nat.id.
  - rewrite Z2Nat.id in Hrest by done. exists n. split; [exact Hrun|]. exact Hrest.
Qed.

Lemma memcpy_run m d s n :
  0 <= n -> mapped m d n -> mapped m s n -> d <= s \/ s + n <= d ->
  exists m', memcpy m d s n = Ok (m', d) /\ forall i, m' !! i = if decide (d <= i < d + n) then m !! (s + (i - d)) else m !! i.
Proof.
  intros Hn Hd Hs Hov. destruct (copy_up_run m d s (Z.to_nat n)) as (m' & Hrun & Hm'); [by rewrite Z2Nat.id|by rewrite Z2Nat.id|by rewrite Z2Nat.id|].
  exists m'. unfold memcpy. rewrite Hrun. split; [done|]. by rewrite Z2Nat.id in Hm'.
Qed.

(** An allowed read is allowed on the whole page. *)
Lemma may_page al x y :
  user_areas al -> may al false x -> x <= y < x + (PGSIZE - x mod PGSIZE) -> may al false y /\ USERBASE <= x /\ x + (PGSIZE - x mod PGSIZE) <= USERTOP.
Proof.
  intros Hal (a & Ha & Hc & Hf & _) Hy. pose proof Hal as Hal'. unfold user_areas in Hal'. rewrite Forall_forall in Hal'. destruct (Hal' a Ha) as (H1 & H2 & H3 & H4).
  unfold contains in Hc. assert (x + (PGSIZE - x mod PGSIZE) <= vm_end a) as Hend.
  { unfold PGSIZE in *. pose proof (Z.div_mod x 4096 ltac:(lia)). pose proof (Z.div_mod (vm_end a) 4096 ltac:(lia)). pose proof (Z.mod_pos_bound x 4096 ltac:(lia)). nia. }
  split; [|lia]. exists a. split; [done|]. split; [unfold contains; lia|]. split; [done|]. by intros [? _].
Qed.

Lemma next_page s : 0 <= s -> (s + (PGSIZE - s mod PGSIZE)) mod PGSIZE = 0.
Proof.
  intros _. unfold PGSIZE. replace (s + (4096 - s mod 4096)) with ((s / 4096 + 1) * 4096); [apply Z.mod_mul; lia|].
  pose proof (Z.div_mod s 4096 ltac:(lia)). lia.
Qed.

Section CopyString.
Variables (v : vmm) (m : memory) (mm dst src maxn : Z) (al : list vma_struct).
Hypothesis (Hal : user_areas al) (Hread : forall x, may al false x -> is_Some (m !! x)).
Hypothesis (Hmax : 0 <= maxn) (Hdst : mapped m dst maxn) (Hkern : USERTOP <= dst) (Htop : dst + maxn < 2 ^ 64) (Hsrc : 0 <= src).

(** A whole string of fewer than [maxn] bytes that the process may read. *)
Definition readable_string (k : Z) : Prop := 0 <= k < maxn /\ str_at m src k /\ forall x, src <= x <= src + k -> may al false x.

(** [j] bytes, none of them the end of the string, have been copied. *)
Definition copied (st : vmm * memory * Z * Z * Z * Z) : Prop :=
  let '(v', m', d, s, n, part) := st in
  exists j, 0 <= j <= maxn /\ d = dst + j /\ s = src + j /\ n = maxn - j /\ part = PGSIZE - s mod PGSIZE /\
    same_areas mm v v' /\ mm_inv v' mm al /\
    (forall i, 0 <= i < j -> may al false (src + i) /\ m' !! (dst + i) = m !! (src + i) /\ exists c, m !! (src + i) = Some c /\ c <> 0) /\
    (forall x, ~ dst <= x < dst + j -> m' !! x = m !! x).

Definition copy_result (r : vmm * memory * bool) : Prop :=
  let '(v', m', b) := r in
  same_areas mm v v' /\ mm_inv v' mm al /\ (forall x, ~ dst <= x < dst + maxn -> m' !! x = m !! x) /\
  if (b : bool) then exists k, readable_string k /\ forall i, 0 <= i <= k -> m' !! (dst + i) = m !! (src + i)
  else forall k, ~ readable_string k.

Definition pages_left (st : vmm * memory * Z * Z * Z * Z) : nat :=
  let '(_, _, _, s, n, _) := st in Z.to_nat (n / PGSIZE + (if s mod PGSIZE =? 0 then 0 else 1)).

Lemma pages_left_step s n :
  0 <= s -> PGSIZE - s mod PGSIZE < n ->
  (Z.to_nat ((n - (PGSIZE - s mod PGSIZE)) / PGSIZE + 0) < Z.to_nat (n / PGSIZE + (if (s mod PGSIZE =? 0)%Z then 0 else 1)))%nat.
Proof.
  intros Hs Hn. unfold PGSIZE in *. pose proof (Z.mod_pos_bound s 4096 ltac:(lia)). pose proof (Z.div_mod n 4096 ltac:(lia)). pose proof (Z.mod_pos_bound n 4096 ltac:(lia)).
  set (k := n - (4096 - s mod 4096)) in *. pose proof (Z.div_mod k 4096 ltac:(lia)). pose proof (Z.mod_pos_bound k 4096 ltac:(lia)).
  destruct (Z.eqb_spec (s mod 4096) 0); apply Z2Nat.inj_lt; nia.
Qed.

(** A string that goes on past what has been copied. *)
Lemma string_behind j k : (forall i, 0 <= i < j -> exists c, m !! (src + i) = Some c /\ c <> 0) -> readable_string k -> j <= k.
Proof.
  intros Hj (Hk & (_ & Hz) & _). destruct (Z.le_gt_cases j k); [done|]. destruct (Hj k) as (c & Hc & Hne); [lia|]. congruence.
Qed.

Lemma copy_string_turn st :
  copied st ->
  (exists st', copy_string_step (Some mm) st = Ok (inl st') /\ copied st' /\ (pages_left st' < pages_left st)%nat) \/
  (exists r, copy_string_step (Some mm) st = Ok (inr r) /\ copy_result r).
Proof.
  destruct st as [[[[[v1 m1] d] s] n] part]. intros (j & Hj & -> & -> & -> & -> & Hs & Hi & Hcop & Hout). cbn [copy_string_step]. set (s := src + j) in *. assert (Hs0 : 0 <= s) by lia.
  pose proof (Z.mod_pos_bound s PGSIZE ltac:(done)) as Hmod. set (p := PGSIZE - s mod PGSIZE) in *.
  set (q := if maxn - j <? p then maxn - j else p). assert (Hq : q <= p /\ q <= maxn - j /\ 0 <= q) by (unfold q; destruct (Z.ltb_spec (maxn - j) p); lia).
  destruct (user_mem_check_run v1 mm al s q false Hi) as (v2 & b & -> & Hs2 & Hi2 & Hb). cbn [mbind res_bind].
  assert (Hs12 : same_areas mm v v2) by by etrans.
  assert (Hout' : forall x, ~ dst <= x < dst + maxn -> m1 !! x = m !! x) by (intros x Hx; apply Hout; lia).
  assert (Htop2 : USERTOP < 2 ^ 64) by done. assert (HB : 0 < USERBASE) by done.
  destruct b; cbn [mbind res_bind].
  2:{ right. eexists. split; [reflexivity|]. split; [done|]. split; [done|]. split; [done|]. intros k Hk.
      assert (Hjk : j <= k) by (apply string_behind; [intros i Hij; apply Hcop; lia|done]). pose proof Hk as (Hk1 & _ & Hmay).
      destruct (may_page al s s Hal (Hmay s ltac:(lia)) ltac:(lia)) as (_ & Hlo & Hhi). fold p in Hhi.
      assert (q = maxn - j \/ q = p) as Hq' by (unfold q; destruct (_ <? _); auto). apply diff_false_true, Hb. rewrite u64_small by lia. split; [lia|]. split; [lia|].
      intros x Hx. apply (may_page al s x Hal (Hmay s ltac:(lia))). fold p. lia. }
  destruct (proj1 Hb eq_refl) as (Hlo & Hend & Hmay). assert (Hq0 : u64 (s + q) = s + q) by (apply u64_small; pose proof (u64_range (s + q)); unfold u64 in Hend; destruct (Z.lt_ge_cases (s + q) (2 ^ 64)); [lia|];
    exfalso; assert (s + q < 2 * 2 ^ 64) by (unfold PGSIZE in *; lia); assert ((s + q) mod 2 ^ 64 = s + q - 2 ^ 64) by (symmetry; apply (Z.mod_unique _ _ 1); lia); unfold PGSIZE in *; lia).
  rewrite Hq0 in Hend, Hmay. assert (Hm1 : forall x, s <= x < s + q -> m1 !! x = m !! x) by (intros x Hx; apply Hout; lia).
  assert (Hmap : mapped m1 s q) by (intros x Hx; rewrite Hm1 by done; by apply Hread, Hmay).
  destruct (strnlen_run m1 s q) as (alen & -> & Hal0 & Hbytes & Hzero); [lia|done|]. cbn [mbind res_bind].
  assert (Hbytes' : forall i, 0 <= i < alen -> exists c, m !! (s + i) = Some c /\ c <> 0) by (intros i Hi'; rewrite <- Hm1 by lia; by apply Hbytes).
  assert (Hnz : forall i, 0 <= i < j + alen -> exists c, m !! (src + i) = Some c /\ c <> 0).
  { intros i Hij. destruct (Z.lt_ge_cases i j); [apply Hcop; lia|]. replace (src + i) with (s + (i - j)) by lia. apply Hbytes'. lia. }
  assert (Hdm : forall k, 0 <= k <= maxn - j -> mapped m1 (dst + j) k).
  { intros k Hk x Hx. destruct (Z.lt_ge_cases x (dst + j)); [lia|]. rewrite Hout by lia. apply Hdst. lia. }
  destruct (Z.ltb_spec alen q) as [Hlt|Hge].
  - right. destruct (memcpy_run m1 (dst + j) s (alen + 1)) as (m2 & -> & Hm2); [lia|apply Hdm; lia|intros x Hx; apply Hmap; lia|lia|]. cbn [mbind res_bind].
    eexists. split; [reflexivity|]. split; [done|]. split; [done|]. split; [intros x Hx; rewrite Hm2, decide_False by lia; by apply Hout'|].
    exists (j + alen). split; [split; [lia|split; [split; [done|]|]]|].
    + replace (src + (j + alen)) with (s + alen) by lia. rewrite <- Hm1 by lia. by apply Hzero.
    + intros x Hx. destruct (Z.lt_ge_cases x s) as [Hxs|Hxs]; [|apply Hmay; lia]. replace x with (src + (x - src)) by lia. apply Hcop. lia.
    + intros i Hij. rewrite Hm2. destruct (Z.lt_ge_cases i j) as [Hil|Hil]; [rewrite decide_False by lia; apply Hcop; lia|]. rewrite decide_True by lia.
      replace (s + (dst + i - (dst + j))) with (src + i) by lia. apply Hm1. lia.
  - assert (alen = q) as -> by lia. destruct (Z.eqb_spec q (maxn - j)) as [Heq|Hne].
    + right. eexists. split; [reflexivity|]. split; [done|]. split; [done|]. split; [done|]. intros k Hk.
      pose proof (string_behind (j + q) k Hnz Hk). destruct Hk as [Hk _]. lia.
    + left. assert (q = p) as Hqp by (unfold q in *; destruct (_ <? _); lia). clearbody q. subst q.
      destruct (memcpy_run m1 (dst + j) s p) as (m2 & -> & Hm2); [lia|apply Hdm; lia|done|lia|]. cbn [mbind res_bind].
      rewrite Hq0, (u64_small (dst + j + p)) by lia. eexists. split; [reflexivity|]. pose proof (next_page s Hs0) as Hnext. fold p in Hnext. split.
      * exists (j + p). split; [lia|]. split; [lia|]. split; [lia|]. split; [lia|]. rewrite Hnext. split; [lia|]. split; [done|]. split; [done|]. split.
        -- intros i Hij. split; [|split; [|by apply Hnz]].
           ++ destruct (Z.lt_ge_cases i j); [apply Hcop; lia|]. apply Hmay. lia.
           ++ rewrite Hm2. destruct (Z.lt_ge_cases i j); [rewrite decide_False by lia; apply Hcop; lia|]. rewrite decide_True by lia.
              replace (s + (dst + i - (dst + j))) with (src + i) by lia. apply Hm1. lia.
        -- intros x Hx. rewrite Hm2, decide_False by lia. apply Hout. lia.
      * cbn [pages_left]. rewrite Hnext. cbn [Z.eqb]. replace (maxn - j - p) with (maxn - j - (PGSIZE - s mod PGSIZE)) by done. apply pages_left_step; [done|]. fold p. lia.
Qed.
End CopyString.

Lemma copy_string_run v m mm dst src maxn al :
  mm_inv v mm al -> user_areas al -> (forall x, may al false x -> is_Some (m !! x)) ->
  0 <= maxn -> mapped m dst maxn -> USERTOP <= dst -> dst + maxn < 2 ^ 64 -> 0 <= src < 2 ^ 64 ->
  exists v' m' b, copy_string v m (Some mm) dst src maxn = Ok (v', m', b) /\ same_areas mm v v' /\ mm_inv v' mm al /\
    (forall x, ~ dst <= x < dst + maxn -> m' !! x = m !! x) /\
    if (b : bool) then exists k, readable_string m src maxn al k /\ forall i, 0 <= i <= k -> m' !! (dst + i) = m !! (src + i)
    else forall k, ~ readable_string m src maxn al k.
Proof.
  intros Hinv Hal Hread Hmax Hdst Hkern Htop Hsrc. unfold copy_string. destruct (Z.lt_ge_cases src USERTOP) as [Hu|Hu].
  - assert (u64 (ROUNDDOWN (u64 (src + PGSIZE)) PGSIZE - src) = PGSIZE - src mod PGSIZE) as ->.
    { unfold ROUNDDOWN, PGSIZE. unfold USERTOP in Hu. rewrite (u64_small (src + 4096)) by lia. replace (src + 4096) with (src + 1 * 4096) at 2 by lia. rewrite Z.mod_add by lia.
      pose proof (Z.mod_pos_bound src 4096 ltac:(lia)). rewrite u64_small; lia. }
    destruct (loop_total (copy_string_step (Some mm)) (copied v m mm dst src maxn al) (copy_result v m mm dst src maxn al) pages_left)
      with (fuel := S (S (Z.to_nat (maxn / PGSIZE)))) (a := (v, m, dst, src, maxn, PGSIZE - src mod PGSIZE)) as ([[v' m'] b] & Hrun & Hres).
    + intros st Hst. destruct (copy_string_turn v m mm dst src maxn al Hal Hread Hdst Hkern Htop ltac:(lia) st Hst) as [(st' & ? & ? & ?)|(r & ? & ?)]; [left; by exists st'|right; by exists r].
    + exists 0. split; [lia|]. split; [lia|]. split; [lia|]. split; [lia|]. split; [done|]. split; [done|]. split; [done|]. split; [intros; lia|done].
    + cbn [pages_left]. pose proof (Z.div_pos maxn PGSIZE Hmax ltac:(done)). destruct (_ =? _); lia.
    + exists v', m', b. split; [done|]. exact Hres.
  - rewrite loop_S. cbn [copy_string_step]. set (part := u64 _). set (q := if maxn <? part then maxn else part).
    destruct (user_mem_check_run v mm al src q false Hinv) as (v' & b & -> & Hs & Hi & Hb). cbn [mbind res_bind].
    destruct b; [destruct (proj1 Hb eq_refl) as (? & ? & _); lia|]. exists v', m, false. split; [done|]. split; [done|]. split; [done|]. split; [done|].
    intros k (Hk & _ & Hmay). destruct (Hmay src ltac:(lia)) as (a & Ha & Hc & _). unfold user_areas in Hal. rewrite Forall_forall in Hal.
    destruct (Hal a Ha) as (_ & ? & _). unfold contains in Hc. lia.
Qed.

(** C25. Strings come safely out of user memory.  For a process whose areas are mapped and
    a kernel buffer of [maxn] bytes, [copy_string] comes to an end; it writes nothing
    outside the buffer; it answers yes exactly when a whole string of fewer than
    [maxn] bytes lies at [src] in memory the process may read, and then the buffer
    holds that string with its terminator.  It reads no address the process may not
    read, since all others need not be mapped. *)
Theorem copy_string_safe v m mm dst src maxn al :
  mm_inv v mm al -> user_areas al -> (forall x, may al false x -> is_Some (m !! x)) ->
  0 <= maxn -> mapped m dst maxn -> USERTOP <= dst -> dst + maxn < 2 ^ 64 -> 0 <= src < 2 ^ 64 ->
  exists v' m' b, copy_string v m (Some mm) dst src maxn = Ok (v', m', b) /\ same_areas mm v v' /\ mm_inv v' mm al /\
    (forall x, ~ dst <= x < dst + maxn -> m' !! x = m !! x) /\
    if (b : bool) then exists k, readable_string m src maxn al k /\ forall i, 0 <= i <= k -> m' !! (dst + i) = m !! (src + i)
    else forall k, ~ readable_string m src maxn al k.
Proof. apply copy_string_run. Qed.

(** ** A concrete process: a page of text and a stack *)
Definition example_areas : list vma_struct :=
  [Vma (Some 1) 0x800000 0x801000 VM_READ; Vma (Some 1) 0x7ff00000 0x80000000 (VM_READ + VM_WRITE + VM_STACK)].

Definition example_vmm : vmm :=
  Vmm (list_to_map (zip [1; 2] example_areas)) (<[1 := Mm [1; 2] (Some 2) None 2 1]> ∅).

Lemma example_mm_inv : mm_inv example_vmm 1 example_areas.
Proof.
  split; [cbn; lia|]. eexists. split; [reflexivity|]. split; [by repeat constructor; set_solver|]. split; [repeat constructor|].
  split; [|reflexivity]. intros c [= <-]. right. left.
Qed.

Lemma user_mem_check_pointwise_witness :
  exists v1 v2, user_mem_check example_vmm (Some 1) 0x7ff00010 4 true = Ok (v1, false) /\
    user_mem_check example_vmm (Some 1) 0x7ff01000 4096 true = Ok (v2, true) /\ may example_areas true 0x7ff01fff.
Proof.
  destruct (user_mem_check_pointwise example_vmm 1 example_areas 0x7ff00010 4 true example_mm_inv) as (v1 & b1 & H1 & _).
  destruct (user_mem_check_pointwise example_vmm 1 example_areas 0x7ff01000 4096 true example_mm_inv) as (v2 & b2 & H2 & _ & _ & Hb).
  exists v1, v2. assert (b1 = false) as -> by (vm_compute in H1; by injection H1). assert (b2 = true) as -> by (vm_compute in H2; by injection H2).
  split; [exact H1|]. split; [exact H2|]. apply Hb; [reflexivity|]. vm_compute. split; [discriminate|reflexivity].
Defined.

(** A second page of text; then a request that starts in the gap and runs into the stack. *)
Lemma mm_map_paths_witness :
  (exists v' vma, mm_map true example_vmm 1 0x801000 100 VM_READ = Ok (v', inr vma)) /\
  mm_map true example_vmm 1 0x7fe00000 0x200000 VM_READ = Panic.
Proof.
  split.
  - pose proof (mm_map_paths true example_vmm 1 example_areas 0x801000 100 VM_READ example_mm_inv) as H. cbv zeta in H.
    destruct (negb _) eqn:E in H; [vm_compute in E; discriminate|]. destruct (decide _) as [Hd|_] in H; [apply (bool_decide_pack _) in Hd; vm_compute in Hd; destruct Hd|].
    cbn [negb] in H. destruct (decide _) as [Hd|_] in H; [apply (bool_decide_pack _) in Hd; vm_compute in Hd; destruct Hd|].
    destruct H as (v' & vma & _ & _ & H & _). exists v', vma. exact H.
  - pose proof (mm_map_paths true example_vmm 1 example_areas 0x7fe00000 0x200000 VM_READ example_mm_inv) as H. cbv zeta in H.
    destruct (negb _) eqn:E in H; [vm_compute in E; discriminate|]. destruct (decide _) as [Hd|_] in H; [apply (bool_decide_pack _) in Hd; vm_compute in Hd; destruct Hd|].
    cbn [negb] in H. destruct (decide _) as [_|Hd] in H; [exact H|]. exfalso. apply Hd. apply Exists_exists. eexists. split; [right; left|]. split; reflexivity.
Defined.

Definition text_areas : list vma_struct := [Vma (Some 1) 0x800000 0x801000 VM_READ].

Definition text_vmm : vmm := Vmm (<[1 := Vma (Some 1) 0x800000 0x801000 VM_READ]> ∅) (<[1 := Mm [1] None None 1 1]> ∅).

Definition text_memory : memory := map_seqZ 0x800000 ([104; 105; 0] ++ replicate 4093 7) ∪ map_seqZ 0x90000000 (replicate 8 0).

Lemma text_lookup i x : [104; 105; 0] !! i = Some x -> text_memory !! (0x800000 + Z.of_nat i) = Some x.
Proof.
  intros Hi. apply lookup_union_Some_l, lookup_map_seqZ_Some. split; [lia|]. rewrite Z.add_simpl_l, Nat2Z.id.
  apply lookup_lt_Some in Hi as Hlt. by rewrite lookup_app_l.
Qed.

Lemma copy_string_safe_witness :
  exists v' m', copy_string text_vmm text_memory (Some 1) 0x90000000 0x800000 8 = Ok (v', m', true) /\
    m' !! 0x90000000 = Some 104 /\ m' !! 0x90000002 = Some 0.
Proof.
  destruct (copy_string_safe text_vmm text_memory 1 0x90000000 0x800000 8 text_areas) as (v' & m' & b & Hrun & _ & _ & _ & Hb).
  - split; [cbn; lia|]. eexists. split; [reflexivity|]. split; [apply NoDup_singleton|]. split; [by repeat constructor|]. split; [|reflexivity]. by intros ? [=].
  - apply Forall_singleton. repeat split; vm_compute; discriminate.
  - intros x (a & ->%list_elem_of_singleton & Hc & _). unfold contains in Hc. cbn [vm_start vm_end] in Hc.
    unfold text_memory. apply lookup_union_is_Some. left. apply lookup_map_seqZ_is_Some. rewrite length_app, length_replicate. cbn [length]. lia.
  - lia.
  - intros x Hx. unfold text_memory. apply lookup_union_is_Some. right. apply lookup_map_seqZ_is_Some. rewrite length_replicate. lia.
  - vm_compute. discriminate.
  - reflexivity.
  - split; [vm_compute; discriminate|reflexivity].
  - pose proof (text_lookup 0 104 eq_refl) as H0. pose proof (text_lookup 1 105 eq_refl) as H1. pose proof (text_lookup 2 0 eq_refl) as H2.
    change (Z.of_nat 0) with 0 in H0. change (Z.of_nat 1) with 1 in H1. change (Z.of_nat 2) with 2 in H2.
    destruct b.
    + destruct Hb as (k & (Hk & (_ & Hz) & _) & Hcopy). exists v', m'. split; [exact Hrun|].
      assert (k <> 0) by (intros ->; congruence).
      assert (k <> 1) by (intros ->; congruence).
      split; [etrans; [exact (Hcopy 0 ltac:(lia))|exact H0]|etrans; [exact (Hcopy 2 ltac:(lia))|exact H2]].
    + exfalso. apply (Hb 2). split; [lia|]. split; [split; [|exact H2]|].
      * intros i Hi. assert (i = 0 \/ i = 1) as [->| ->] by lia; eexists; [split; [exact H0|discriminate]|split; [exact H1|discriminate]].
      * intros x Hx. exists (Vma (Some 1) 0x800000 0x801000 VM_READ). split; [left|]. split; [unfold contains; cbn; lia|]. split; [discriminate|]. by intros [? _].
Defined.
