(* ===== verification/SysFile.v ===== *)
(** The file system calls (lab8/kern/fs/sysfile.c) and the part of the system call table
    that leads to them (lab8/kern/syscall/syscall.c).

    Here user memory, the areas of the process and the open file table meet.  Memory is
    what the kernel sees while the process runs: its own buffers and the mapped pages of
    the process, byte by byte.  [lock_mm] would wait for another thread of the same memory
    and is left out, as in Vmm.v. *)
From S2P Require Import Prelude CString Layout StateM Iobuf Disk0 SfsIo SfsBmap SfsFile SfsNode Vfs FileTable Vmm.

Definition IOBUF_SIZE : Z := 4096.
Definition FS_MAX_FPATH_LEN : Z := 4095.

(** The sizes of [struct stat] and of [struct dirent]. *)
Definition STAT_SIZE : Z := 32.
Definition DIRENT_SIZE : Z := 8 + (SFS_MAX_FNAME_LEN + 1).

(** libs/unistd.h *)
Definition SYS_open : Z := 100.
Definition SYS_close : Z := 101.
Definition SYS_read : Z := 102.
Definition SYS_write : Z := 103.
Definition SYS_seek : Z := 104.
Definition SYS_fstat : Z := 110.
Definition SYS_fsync : Z := 111.
Definition SYS_getcwd : Z := 121.
Definition SYS_getdirentry : Z := 128.
Definition SYS_dup : Z := 130.

(** * Bytes of memory *)
Fixpoint load_bytes (m : memory) (a : Z) (n : nat) : res (list Z) :=
  match n with
  | O => Ok []
  | S n' => x ← load m a; l ← load_bytes m (a + 1) n'; Ok (x :: l)
  end.

Fixpoint store_bytes (m : memory) (a : Z) (l : list Z) : res memory :=
  match l with
  | [] => Ok m
  | x :: l' => m ← store m a x; store_bytes m (a + 1) l'
  end.

(** The fields of a [struct stat]; the padding behind [st_mode] stays. *)
Definition store_stat (m : memory) (a : Z) (st : stat) : res memory :=
  m ← store_bytes m a (le_bytes 4 (st_mode st));
  m ← store_bytes m (a + 8) (le_bytes 8 (st_nlinks st));
  m ← store_bytes m (a + 16) (le_bytes 8 (st_blocks st));
  store_bytes m (a + 24) (le_bytes 8 (st_size st)).

Record user (D : Type) : Type := mk_user { u_k : kernel D; u_v : vmm; u_mem : memory }.
Arguments mk_user {D} _ _ _.
Arguments u_k {D} _.
Arguments u_v {D} _.
Arguments u_mem {D} _.

Section SysFile.
Context {D : Type} `{!Device D}.
#[local] Notation K := (kernel D).
#[local] Notation U := (user D).
Implicit Types s : U.

Definition set_k (k : K) s : U := mk_user k (u_v s) (u_mem s).
Definition set_u_mem (m : memory) s : U := mk_user (u_k s) (u_v s) m.

Definition on_kernel {A} (m : M K A) : M U A := zoom u_k set_k m.

Definition on_user {A} (f : vmm -> memory -> res (vmm * memory * A)) : M U A := fun s =>
  '(v, m, a) ← f (u_v s) (u_mem s); Ok (mk_user (u_k s) v m, inr a).

Definition on_memory {A} (f : memory -> res (memory * A)) : M U A := on_user (fun v m => '(m, a) ← f m; Ok (v, m, a)).

(** A function of the file system that works on the [n] bytes at [a]. *)
Definition with_buffer {A} (a n : Z) (f : list Z -> M K (list Z * A)) : M U A :=
  b ← on_memory (fun m => b ← load_bytes m a (Z.to_nat n); Ok (m, b));
  '(b, x) ← on_kernel (f b);
  _ ← on_memory (fun m => m ← store_bytes m a (take (Z.to_nat n) b); Ok (m, tt));
  mret x.

(** What a C function returns that has no other result than 0 or an error, and one that
    returns a number. *)
Definition returned (m : M U Z) : M U Z := r ← attempt m; mret (match r with inl e => - e | inr n => n end).
Definition returns0 (m : M K unit) : M U Z := returned (_ ← on_kernel m; mret 0).

(** [mm] is [current->mm]; [buf] and [buf2] are the addresses that the first and the second
    [kmalloc] of a call return, [local] that of the local variable [__local_stat], and
    [junk] is what a failed [vfs_getcwd] leaves in its buffer. *)
Context (mm : option Z) (buf buf2 local : Z) (junk : list Z -> list Z).

(** The buffer with the path; it is given back when the call that follows returns, so what
    that call does to it is not kept. *)
Definition copy_path (buffer from : Z) : M U (list Z) :=
  ok ← on_kernel k_malloc;
  if (ok : bool) then
    ok ← on_user (fun v m => copy_string v m mm buffer from (FS_MAX_FPATH_LEN + 1));
    if (ok : bool) then on_memory (fun m => b ← load_bytes m buffer (Z.to_nat (FS_MAX_FPATH_LEN + 1)); Ok (m, b))
    else fail E_INVAL
  else fail E_NO_MEM.

Definition sysfile_open (__path open_flags : Z) : M U Z :=
  returned (path ← copy_path buf __path; on_kernel (file_open path open_flags)).

Definition sysfile_close (fd : Z) : M U Z := returns0 (file_close fd).

(** The part of a request that one turn of the loops handles. *)
Definition piece (len : Z) : Z := if len <? IOBUF_SIZE then len else IOBUF_SIZE.

(** One turn of the loop of [sysfile_read]: [base], [len] and [copied]; at the end [copied]
    and [ret]. *)
Definition read_turn (fd : Z) (st : Z * Z * Z) : M U (Z * Z * Z + Z * Z) :=
  let '(base, len, copied) := st in
  if len =? 0 then mret (inr (copied, 0))
  else
    '(alen, ret) ← with_buffer buf IOBUF_SIZE (fun b => '(b, alen, ret) ← file_read fd b 0 (piece len); mret (b, (alen, ret)));
    '(st, ret) ←
      (if negb (alen =? 0) then
         ok ← on_user (fun v m => copy_to_user v m mm base buf alen);
         if (ok : bool) then
           _ ← assert (fun _ : U => alen <=? len);
           mret (u64 (base + alen), len - alen, u64 (copied + alen), ret)
         else mret (st, if ret =? 0 then - E_INVAL else ret)
       else mret (st, ret));
    if negb (ret =? 0) || (alen =? 0) then mret (inr (st.2, ret)) else mret (inl st).

(** [size_t] to [int]. *)
Definition io_result (r : Z * Z) : Z := let '(copied, ret) := r in if negb (copied =? 0) then i32 copied else ret.

(** A turn that does not end the loop moves a byte at least. *)
Definition sysfile_read (fd base len : Z) : M U Z :=
  if len =? 0 then mret 0
  else
    ok ← on_kernel (file_testfd fd true false);
    if negb ok then mret (- E_INVAL)
    else
      ok ← on_kernel k_malloc;
      if (ok : bool) then r ← m_loop (read_turn fd) (S (Z.to_nat len)) (base, len, 0); mret (io_result r)
      else mret (- E_NO_MEM).

Definition write_turn (fd : Z) (st : Z * Z * Z) : M U (Z * Z * Z + Z * Z) :=
  let '(base, len, copied) := st in
  if len =? 0 then mret (inr (copied, 0))
  else
    ok ← on_user (fun v m => copy_from_user v m mm buf base (piece len) false);
    if negb ok then mret (inr (copied, - E_INVAL))
    else
      '(alen, ret) ← with_buffer buf IOBUF_SIZE (fun b => '(b, alen, ret) ← file_write fd b 0 (piece len); mret (b, (alen, ret)));
      st ←
        (if negb (alen =? 0) then
           _ ← assert (fun _ : U => alen <=? len);
           mret (u64 (base + alen), len - alen, u64 (copied + alen))
         else mret st);
      if negb (ret =? 0) || (alen =? 0) then mret (inr (st.2, ret)) else mret (inl st).

Definition sysfile_write (fd base len : Z) : M U Z :=
  if len =? 0 then mret 0
  else
    ok ← on_kernel (file_testfd fd false true);
    if negb ok then mret (- E_INVAL)
    else
      ok ← on_kernel k_malloc;
      if (ok : bool) then r ← m_loop (write_turn fd) (S (Z.to_nat len)) (base, len, 0); mret (io_result r)
      else mret (- E_NO_MEM).

Definition sysfile_seek (fd pos whence : Z) : M U Z := returns0 (file_seek fd pos whence).

Definition sysfile_fstat (fd __stat : Z) : M U Z :=
  returned (
    st ← on_kernel (file_fstat fd);
    _ ← on_memory (fun m => m ← store_stat m local st; Ok (m, tt));
    ok ← on_user (fun v m => copy_to_user v m mm __stat local STAT_SIZE);
    if (ok : bool) then mret 0 else fail E_INVAL).

Definition sysfile_fsync (fd : Z) : M U Z := returns0 (file_fsync fd).

Definition sysfile_chdir (__path : Z) : M U Z :=
  returned (path ← copy_path buf __path; _ ← on_kernel (vfs_chdir path); mret 0).

Definition sysfile_link (__path1 __path2 : Z) : M U Z :=
  returned (old_path ← copy_path buf __path1; new_path ← copy_path buf2 __path2; _ ← on_kernel (vfs_link old_path new_path); mret 0).

Definition sysfile_rename (__path1 __path2 : Z) : M U Z :=
  returned (old_path ← copy_path buf __path1; new_path ← copy_path buf2 __path2; _ ← on_kernel (vfs_rename old_path new_path); mret 0).

Definition sysfile_unlink (__path : Z) : M U Z :=
  returned (path ← copy_path buf __path; _ ← on_kernel (vfs_unlink path); mret 0).

(** [vfs_getcwd] writes to user memory itself. *)
Definition sysfile_getcwd (ubuf len : Z) : M U Z :=
  if len =? 0 then mret (- E_INVAL)
  else
    ok ← on_user (fun v m => '(v, ok) ← user_mem_check v mm ubuf len true; Ok (v, m, ok));
    if negb ok then mret (- E_INVAL)
    else
      with_buffer ubuf len (fun b =>
        r ← attempt (vfs_getcwd (iobuf_init b 0 len 0));
        mret (match r with inr iob => (io_mem iob, 0) | inl e => (junk b, - e) end)).

(** [direntp->offset] is read with the access to write that the answer needs. *)
Definition sysfile_getdirentry (fd __direntp : Z) : M U Z :=
  ok ← on_kernel k_malloc;
  if (ok : bool) then
    ok ← on_user (fun v m => copy_from_user v m mm buf __direntp 8 true);
    if negb ok then mret (- E_INVAL)
    else
      returned (
        _ ← with_buffer buf DIRENT_SIZE (fun b =>
          '(offset, name) ← file_getdirentry fd (i64 (le_value (take 8 b))) (drop 8 b);
          mret (le_bytes 8 offset ++ name, tt));
        ok ← on_user (fun v m => copy_to_user v m mm __direntp buf DIRENT_SIZE);
        if (ok : bool) then mret 0 else fail E_INVAL)
  else mret (- E_NO_MEM).

Definition sysfile_dup (fd1 fd2 : Z) : M U Z := returned (on_kernel (file_dup fd1 fd2)).

Definition sysfile_pipe (fd_store : Z) : M U Z := mret (- E_UNIMP).
Definition sysfile_mkfifo (__name open_flags : Z) : M U Z := mret (- E_UNIMP).

(** * The system calls on files: [arg] are the five registers behind the number. *)
Definition sys_open (arg : nat -> Z) : M U Z := sysfile_open (arg 0%nat) (u32 (arg 1%nat)).
Definition sys_close (arg : nat -> Z) : M U Z := sysfile_close (i32 (arg 0%nat)).
Definition sys_read (arg : nat -> Z) : M U Z := sysfile_read (i32 (arg 0%nat)) (arg 1%nat) (arg 2%nat).
Definition sys_write (arg : nat -> Z) : M U Z := sysfile_write (i32 (arg 0%nat)) (arg 1%nat) (arg 2%nat).
Definition sys_seek (arg : nat -> Z) : M U Z := sysfile_seek (i32 (arg 0%nat)) (i64 (arg 1%nat)) (i32 (arg 2%nat)).
Definition sys_fstat (arg : nat -> Z) : M U Z := sysfile_fstat (i32 (arg 0%nat)) (arg 1%nat).
Definition sys_fsync (arg : nat -> Z) : M U Z := sysfile_fsync (i32 (arg 0%nat)).
Definition sys_getcwd (arg : nat -> Z) : M U Z := sysfile_getcwd (arg 0%nat) (arg 1%nat).
Definition sys_getdirentry (arg : nat -> Z) : M U Z := sysfile_getdirentry (i32 (arg 0%nat)) (arg 1%nat).
Definition sys_dup (arg : nat -> Z) : M U Z := sysfile_dup (i32 (arg 0%nat)) (i32 (arg 1%nat)).

(** The rows of the table [syscalls] from [SYS_open] up. *)
Definition file_syscalls : list (Z * ((nat -> Z) -> M U Z)) :=
  [(SYS_open, sys_open); (SYS_close, sys_close); (SYS_read, sys_read); (SYS_write, sys_write); (SYS_seek, sys_seek);
   (SYS_fstat, sys_fstat); (SYS_fsync, sys_fsync); (SYS_getcwd, sys_getcwd); (SYS_getdirentry, sys_getdirentry); (SYS_dup, sys_dup)].
End SysFile.
