(* ===== verification/SysFileSpec.v ===== *)
(** What the file system calls promise: they write only where the process may write, and
    [sysfile_read] brings the bytes of the file into user memory. *)
From S2P Require Import Prelude CString Layout StateM Iobuf Disk0 SfsIo SfsBmap SfsFile SfsNode Vfs FileTable Vmm SysFile.

(** * Writing to memory *)

(** Only the [n] bytes at [a] may differ, and what was mapped stays mapped. *)
Definition wrote (a n : Z) (m m' : memory) : Prop :=
  (forall x, ~ a <= x < a + n -> m' !! x = m !! x) /\ forall x, is_Some (m !! x) -> is_Some (m' !! x).

Lemma wrote_refl a n m : wrote a n m m.
Proof. by split. Qed.

Lemma wrote_trans a n m1 m2 m3 : wrote a n m1 m2 -> wrote a n m2 m3 -> wrote a n m1 m3.
Proof. intros [H1 H2] [H3 H4]. split; [intros x Hx; by rewrite H3, H1|by auto]. Qed.

Lemma wrote_within a n b k m m' : wrote b k m m' -> a <= b -> b + k <= a + n -> wrote a n m m'.
Proof. intros [H1 H2] Ha Hb. split; [|done]. intros x Hx. apply H1. lia. Qed.

Lemma store_wrote m a v m' : store m a v = Ok m' -> wrote a 1 m m'.
Proof.
  unfold store. destruct (deref m a); cbn; [intros [= <-]|done..]. split; [intros x Hx; by rewrite lookup_insert_ne by lia|].
  intros x Hx. rewrite lookup_insert_is_Some'. by right.
Qed.

Lemma store_bytes_wrote l : forall m a m', store_bytes m a l = Ok m' -> wrote a (Z.of_nat (length l)) m m'.
Proof.
  induction l as [|x l IH]; intros m a m'; cbn [store_bytes length]; [intros [= <-]; apply wrote_refl|].
  destruct (store m a x) as [m1| | |] eqn:E; cbn; try done. intros H%IH. apply store_wrote in E.
  apply (wrote_trans _ _ _ m1); [apply (wrote_within _ _ _ _ _ _ E)|apply (wrote_within _ _ _ _ _ _ H)]; lia.
Qed.

Lemma copy_up_wrote n : forall m d s m', copy_up m d s n = Ok m' -> wrote d (Z.of_nat n) m m'.
Proof.
  induction n as [|n IH]; intros m d s m'; cbn [copy_up]; [intros [= <-]; apply wrote_refl|].
  destruct (load m s) as [ch| | |]; cbn; try done. destruct (store m d ch) as [m1| | |] eqn:E; cbn; try done. intros H%IH. apply store_wrote in E.
  apply (wrote_trans _ _ _ m1); [apply (wrote_within _ _ _ _ _ _ E)|apply (wrote_within _ _ _ _ _ _ H)]; lia.
Qed.

Lemma memcpy_wrote m d s n m' r : 0 <= n -> memcpy m d s n = Ok (m', r) -> wrote d n m m'.
Proof.
  intros Hn. unfold memcpy. destruct (copy_up m d s (Z.to_nat n)) eqn:E; cbn; try done. intros [= <- _]. apply copy_up_wrote in E. by rewrite Z2Nat.id in E.
Qed.

Lemma store_stat_wrote m a st m' : store_stat m a st = Ok m' -> wrote a STAT_SIZE m m'.
Proof.
  unfold store_stat. destruct (store_bytes m a _) as [m1| | |] eqn:E1; cbn; try done.
  destruct (store_bytes m1 _ _) as [m2| | |] eqn:E2; cbn; try done. destruct (store_bytes m2 _ _) as [m3| | |] eqn:E3; cbn; try done. intros E4.
  apply store_bytes_wrote in E1, E2, E3, E4. rewrite le_bytes_length in E1, E2, E3, E4. unfold STAT_SIZE.
  apply (wrote_trans _ _ _ m1); [eapply wrote_within; [exact E1|lia..]|]. apply (wrote_trans _ _ _ m2); [eapply wrote_within; [exact E2|lia..]|].
  apply (wrote_trans _ _ _ m3); [eapply wrote_within; [exact E3|lia..]|]. eapply wrote_within; [exact E4|lia..].
Qed.

(** The range that [user_mem_check] has let pass. *)
Lemma checked_range a len : 0 <= len < 2 ^ 64 -> USERBASE <= a -> a < u64 (a + len) <= USERTOP -> u64 (a + len) = a + len.
Proof.
  unfold USERBASE, USERTOP. intros Hl Ha He. destruct (Z.lt_ge_cases (a + len) (2 ^ 64)); [apply u64_small; lia|]. exfalso.
  destruct (Z.lt_ge_cases a (2 ^ 64)).
  - assert (u64 (a + len) = a + len - 2 ^ 64) by (unfold u64; symmetry; apply (Z.mod_unique _ _ 1); lia). lia.
  - lia.
Qed.

(** What the results of a function have in common. *)
Definition yields {T A} (m : M T A) (Q : A -> Prop) : Prop := forall t t' a, m t = Ok (t', inr a) -> Q a.

Lemma yields_ret {T A} (a : A) (Q : A -> Prop) : Q a -> yields (T := T) (mret a) Q.
Proof. by intros Ha t t' b [= _ <-]. Qed.

Lemma yields_bind {T A B} (m : M T A) (f : A -> M T B) P Q : yields m P -> (forall a, P a -> yields (f a) Q) -> yields (m ≫= f) Q.
Proof. intros Hm Hf t t' b [(t1 & a & E1 & E2)|(e & _ & [=])]%bind_inv. eapply Hf; [by eapply Hm|exact E2]. Qed.

Lemma yields_any {T A} (m : M T A) : yields m (fun _ => True).
Proof. done. Qed.

Lemma yields_last {T A B} (m : M T A) (f : A -> M T B) Q : (forall a, yields (f a) Q) -> yields (m ≫= f) Q.
Proof. intros Hf. apply (yields_bind _ _ (fun _ => True)); [apply yields_any|by intros a _]. Qed.

(** [copy_string] writes to its buffer only, and keeps the description of the memory. *)
Lemma copy_string_wrote v m mm al dst src maxn v' m' b :
  mm_inv v mm al -> 0 <= dst -> 0 <= maxn -> dst + maxn < 2 ^ 64 -> copy_string v m (Some mm) dst src maxn = Ok (v', m', b) ->
  same_areas mm v v' /\ mm_inv v' mm al /\ wrote dst maxn m m'.
Proof.
  intros Hv Hd Hmax Htop. unfold copy_string.
  set (I := fun st : vmm * memory * Z * Z * Z * Z => let '(v1, m1, d, s, n, part) := st in same_areas mm v v1 /\ mm_inv v1 mm al /\ wrote dst maxn m m1 /\ dst <= d /\ 0 <= n /\ d + n = dst + maxn /\ 0 <= part).
  apply (loop_partial _ I (fun r => same_areas mm v r.1.1 /\ mm_inv r.1.1 mm al /\ wrote dst maxn m r.1.2)).
  2: { cbn. split; [done|]. split; [done|]. split; [apply wrote_refl|]. pose proof (u64_range (ROUNDDOWN (u64 (src + PGSIZE)) PGSIZE - src)). lia. }
  intros [[[[[v1 m1] d] s] n] part] r (Hs1 & Hv1 & Hw & Hd1 & Hn & Hsum & Hpart). cbn [copy_string_step]. set (q := if n <? part then n else part).
  assert (0 <= q <= n) as Hq by (unfold q; destruct (Z.ltb_spec n part); lia). clearbody q.
  destruct (user_mem_check_run v1 mm al s q false Hv1) as (v2 & ok & -> & Hs2 & Hi & _). cbn [mbind res_bind].
  assert (same_areas mm v v2) as Hs by (by etrans). destruct ok; [|by intros [= <-]].
  destruct (strnlen m1 s q) as [alen| | |]; cbn [mbind res_bind]; try done. destruct (Z.ltb_spec alen q).
  - destruct (memcpy m1 d s (alen + 1)) as [[m2 x]| | |] eqn:E; cbn [mbind res_bind]; try done. intros [= <-]. split; [done|]. split; [done|].
    apply (wrote_trans _ _ _ m1); [done|]. cbn. destruct (Z.lt_ge_cases (alen + 1) 0) as [Hneg|Hpos].
    + unfold memcpy in E. replace (Z.to_nat (alen + 1)) with 0%nat in E by lia. cbn in E. injection E as <- _. apply wrote_refl.
    + apply (wrote_within _ _ _ _ _ _ (memcpy_wrote _ _ _ _ _ _ Hpos E)); lia.
  - destruct (Z.eqb_spec q n); [by intros [= <-]|]. destruct (memcpy m1 d s q) as [[m2 x]| | |] eqn:E; cbn [mbind res_bind]; try done. intros [= <-].
    assert (wrote d q m1 m2) as Hw2 by exact (memcpy_wrote _ _ _ _ _ _ (proj1 Hq) E). rewrite u64_small by lia. split; [done|]. split; [done|].
    split; [apply (wrote_trans _ _ _ m1); [done|]; apply (wrote_within _ _ _ _ _ _ Hw2); lia|]. unfold PGSIZE. lia.
Qed.

Section Safe.
Context {D : Type} `{!Device D} (p buf buf2 local : Z) (junk : list Z -> list Z).
Context (al : list vma_struct).
#[local] Notation U := (user D).
Implicit Types s : U.

(** The kernel's own memory of a call. *)
Definition scratch (x : Z) : Prop := buf <= x < buf + 4096 \/ buf2 <= x < buf2 + 4096 \/ local <= x < local + STAT_SIZE.

(** The running process has the areas [al], all of them mapped, and the buffers are above
    user memory. *)
Record user_ok s : Prop := UserOk {
  uo_mm : mm_inv (u_v s) p al;
  uo_user : user_areas al;
  uo_mapped x w : may al w x -> is_Some (u_mem s !! x);
  uo_scratch x : scratch x -> is_Some (u_mem s !! x)
}.

(** What a call may have done to memory. *)
Definition kept s s' : Prop :=
  (forall x, ~ may al true x -> ~ scratch x -> u_mem s' !! x = u_mem s !! x) /\ (forall x, is_Some (u_mem s !! x) -> is_Some (u_mem s' !! x)) /\ same_areas p (u_v s) (u_v s').

#[local] Instance kept_preorder : PreOrder kept.
Proof. split; [by repeat split|]. intros s1 s2 s3 (H1 & H2 & H5) (H3 & H4 & H6). split; [intros x Hx Hk; by rewrite H3, H1|]. split; [auto|by etrans]. Qed.

Definition safe {A} (m : M U A) : Prop := forall s s' r, user_ok s -> m s = Ok (s', r) -> user_ok s' /\ kept s s'.

Lemma safe_ret {A} (a : A) : safe (mret a).
Proof. intros s s' r Hs [= <- <-]. by split. Qed.

Lemma safe_fail {A} e : safe (fail (A := A) e).
Proof. intros s s' r Hs [= <- <-]. by split. Qed.

Lemma safe_assert b : safe (StateM.assert b).
Proof. intros s s' r Hs. unfold StateM.assert. destruct (c_assert _); cbn; [intros [= <- <-]; by split|done..]. Qed.

Lemma safe_bind {A B} (m : M U A) (f : A -> M U B) : safe m -> (forall a, safe (f a)) -> safe (m ≫= f).
Proof.
  intros Hm Hf s s' r Hs [(s1 & a & E1 & E2)|(e & E & _)]%bind_inv.
  - destruct (Hm _ _ _ Hs E1) as [Hs1 H1]. destruct (Hf a _ _ _ Hs1 E2) as [Hs2 H2]. split; [done|]. by etrans.
  - by apply (Hm _ _ _ Hs E).
Qed.

Lemma safe_attempt {A} (m : M U A) : safe m -> safe (attempt m).
Proof. intros Hm s s' r Hs. unfold attempt. destruct (m s) as [[s1 r1]| | |] eqn:E; cbn; [intros [= <- <-]|done..]. by apply (Hm _ _ _ Hs E). Qed.

Lemma safe_bind_yields {A B} (m : M U A) (f : A -> M U B) Q : safe m -> yields m Q -> (forall a, Q a -> safe (f a)) -> safe (m ≫= f).
Proof.
  intros Hm Hq Hf s s' r Hs [(s1 & a & E1 & E2)|(e & E & _)]%bind_inv.
  - destruct (Hm _ _ _ Hs E1) as [Hs1 H1]. destruct (Hf a (Hq _ _ _ E1) _ _ _ Hs1 E2) as [Hs2 H2]. split; [done|]. by etrans.
  - by apply (Hm _ _ _ Hs E).
Qed.

Lemma safe_loop {A B} (body : A -> M U (A + B)) (P : A -> Prop) fuel :
  (forall a, P a -> safe (body a)) -> (forall a, P a -> yields (body a) (fun r => match r with inl a' => P a' | inr _ => True end)) ->
  forall a, P a -> safe (m_loop body fuel a).
Proof.
  intros Hb Hp. induction fuel as [|fuel IH]; intros a Ha s s' r Hs; [done|]. rewrite m_loop_S. revert s s' r Hs.
  apply (safe_bind_yields _ _ _ (Hb a Ha) (Hp a Ha)). intros [a'|b] Hr; [by apply IH|apply safe_ret].
Qed.

Lemma safe_kernel {A} (m : M (kernel D) A) : safe (on_kernel m).
Proof.
  intros s s' r [H1 H2 H3 H4]. unfold on_kernel, zoom. destruct (m (u_k s)) as [[k x]| | |]; cbn; [intros [= <- <-]|done..]. by split.
Qed.

(** A function on user memory that writes in one range, if at all. *)
Lemma safe_user {A} (f : vmm -> memory -> res (vmm * memory * A)) :
  (forall s v m a, user_ok s -> f (u_v s) (u_mem s) = Ok (v, m, a) ->
     mm_inv v p al /\ same_areas p (u_v s) v /\ exists b n, wrote b n (u_mem s) m /\ forall x, b <= x < b + n -> may al true x \/ scratch x) ->
  safe (on_user f).
Proof.
  intros Hf s s' r Hs. unfold on_user. destruct (f (u_v s) (u_mem s)) as [[[v m] a]| | |] eqn:E; cbn; [intros [= <- <-]|done..].
  destruct (Hf _ _ _ _ Hs E) as (Hv & Hsame & b & n & [Hw Hd] & Hr). destruct Hs as [H1 H2 H3 H4].
  assert (kept s (mk_user (u_k s) v m)) as (Hk1 & Hk2 & _).
  { split; [|done]. intros x Hx Hx2. apply Hw. intros Hin. by destruct (Hr x Hin). }
  split; [|by split_and!]. split; [done|done|intros x w Hx; eapply Hk2, H3, Hx|intros x Hx; by apply Hk2, H4].
Qed.

Lemma safe_memory {A} (f : memory -> res (memory * A)) b n :
  (forall m m' a, f m = Ok (m', a) -> wrote b n m m') -> (forall x, b <= x < b + n -> may al true x \/ scratch x) -> safe (on_memory f).
Proof.
  intros Hf Hr. apply safe_user. intros s v m a Hs. destruct (f (u_mem s)) as [[m1 a1]| | |] eqn:E; cbn; [intros [= <- <- <-]|done..].
  split; [apply Hs|]. split; [done|]. exists b, n. split; [by eapply Hf|done].
Qed.

Lemma safe_buffer {A} a n (f : list Z -> M (kernel D) (list Z * A)) :
  0 <= n -> (forall x, a <= x < a + n -> may al true x \/ scratch x) -> safe (with_buffer a n f).
Proof.
  intros Hn Hr. apply safe_bind; [|intros b; apply safe_bind; [apply safe_kernel|intros [l x]; apply safe_bind; [|intros; apply safe_ret]]].
  - apply (safe_memory _ a 0); [|lia]. intros m m' b. destruct (load_bytes _ _ _); cbn; [intros [= <- _]; apply wrote_refl|done..].
  - apply (safe_memory _ a n); [|done]. intros m m' []. destruct (store_bytes _ _ _) eqn:E; cbn; [intros [= <-]|done..].
    apply store_bytes_wrote in E. apply (wrote_within _ _ _ _ _ _ E); [lia|]. rewrite length_take. lia.
Qed.

Lemma safe_to_user dst src len : 0 <= len < 2 ^ 64 -> safe (on_user (fun v m => copy_to_user v m (Some p) dst src len)).
Proof.
  intros Hlen. apply safe_user. intros s v m b Hs. unfold copy_to_user.
  destruct (user_mem_check_run (u_v s) p al dst len true (uo_mm _ Hs)) as (v1 & ok & -> & Hsm & Hi & Hok). cbn [mbind res_bind]. destruct ok.
  - destruct (proj1 Hok eq_refl) as (H1 & H2 & H3). pose proof (checked_range _ _ Hlen H1 H2) as E0. destruct (memcpy _ _ _ _) as [[m1 r]| | |] eqn:E; cbn; [intros [= <- <- <-]|done..].
    split; [done|]. split; [done|]. exists dst, len. split; [apply (memcpy_wrote _ _ _ _ _ _ (proj1 Hlen) E)|]. intros x Hx. left. apply H3. lia.
  - intros [= <- <- <-]. split; [done|]. split; [done|]. exists 0, 0. split; [apply wrote_refl|lia].
Qed.

Lemma safe_from_user dst src len w : 0 <= len -> (forall x, dst <= x < dst + len -> scratch x) -> safe (on_user (fun v m => copy_from_user v m (Some p) dst src len w)).
Proof.
  intros Hlen Hr. apply safe_user. intros s v m b Hs. unfold copy_from_user.
  destruct (user_mem_check_run (u_v s) p al src len w (uo_mm _ Hs)) as (v1 & ok & -> & Hsm & Hi & Hok). cbn [mbind res_bind]. destruct ok.
  - destruct (memcpy _ _ _ _) as [[m1 r]| | |] eqn:E; cbn; [intros [= <- <- <-]|done..]. split; [done|]. split; [done|]. exists dst, len. split; [by eapply memcpy_wrote|]. intros x Hx. right. by apply Hr.
  - intros [= <- <- <-]. split; [done|]. split; [done|]. exists 0, 0. split; [apply wrote_refl|lia].
Qed.

Lemma file_io_count fd b base len w : yields (file_io fd b base len w) (fun x => 0 <= x.1.2 < 2 ^ 64).
Proof.
  unfold file_io. apply yields_last. intros [e|f]; [by apply yields_ret|]. destruct (negb _); [by apply yields_ret|].
  apply yields_last. intros _. apply yields_last. intros a. apply yields_last. intros r. destruct (match r with inl e => _ | inr q => q end) as [iob ret].
  apply yields_last. intros _. apply yields_last. intros _. apply yields_ret. apply u64_range.
Qed.

Lemma buffer_yields {A} a n (f : list Z -> M (kernel D) (list Z * A)) Q : (forall b, yields (f b) (fun x => Q x.2)) -> yields (with_buffer a n f) Q.
Proof.
  intros Hf. apply yields_last. intros b. apply (yields_bind _ _ (fun x => Q x.2)).
  - intros s s' x. unfold on_kernel, zoom. destruct (f b (u_k s)) as [[k [e|y]]| | |] eqn:E; cbn; try done. intros [= _ <-]. by apply (Hf b _ _ _ E).
  - intros [l x] Hx. apply yields_last. intros _. by apply yields_ret.
Qed.

Lemma io_yields fd len w : yields (T := U) (with_buffer buf IOBUF_SIZE (fun b => '(b, alen, ret) ← file_io fd b 0 len w; mret (b, (alen, ret)))) (fun x => 0 <= x.1 < 2 ^ 64).
Proof.
  apply buffer_yields. intros b. apply (yields_bind _ _ _ _ (file_io_count fd b 0 len w)). intros [[l c] r] Hc. by apply yields_ret.
Qed.

Lemma safe_returned m : safe m -> safe (returned m).
Proof. intros Hm. apply safe_bind; [by apply safe_attempt|intros r; apply safe_ret]. Qed.

Lemma safe_returns0 m : safe (returns0 m).
Proof. apply safe_returned, safe_bind; [apply safe_kernel|intros; apply safe_ret]. Qed.

(** * The calls *)
Hypothesis (Hplace : forall b, b = buf \/ b = buf2 -> USERTOP <= b /\ b + 4096 < 2 ^ 64).

Lemma safe_copy_path b from : b = buf \/ b = buf2 -> safe (copy_path (Some p) b from).
Proof.
  intros Hb. destruct (Hplace b Hb) as [Hb1 Hb2]. assert (Hsc : forall x, b <= x < b + 4096 -> scratch x) by (intros x Hx; unfold scratch; destruct Hb as [->| ->]; auto).
  apply safe_bind; [apply safe_kernel|]. intros [|]; [|apply safe_fail]. apply safe_bind.
  - apply safe_user. intros s v m ok [H1 H2 H3 H4] E. unfold USERTOP in Hb1. apply (copy_string_wrote _ _ _ al) in E as (Hsm & Hi & Hw); [|done|lia|done|done].
    split; [done|]. split; [done|]. exists b, 4096. auto.
  - intros [|]; [|apply safe_fail]. apply (safe_memory _ b 0); [|lia]. intros m m' l. destruct (load_bytes _ _ _); cbn; [intros [= <- _]; apply wrote_refl|done..].
Qed.

Lemma safe_file_io fd len w : safe (with_buffer buf IOBUF_SIZE (fun b => '(b, alen, ret) ← file_io fd b 0 len w; mret (b, (alen, ret)))).
Proof. apply safe_buffer; [done|]. intros x Hx. right. by left. Qed.

Lemma safe_read_turn fd st : safe (read_turn (Some p) buf fd st).
Proof.
  destruct st as [[base len] copied]. unfold read_turn, file_read. destruct (len =? 0); [apply safe_ret|].
  eapply safe_bind_yields; [apply safe_file_io|apply io_yields|]. intros [alen ret] Hlen. cbn [fst] in Hlen. apply safe_bind.
  - destruct (negb _); [|apply safe_ret]. apply safe_bind; [by apply safe_to_user|]. intros [|]; [|apply safe_ret].
    apply safe_bind; [apply safe_assert|intros; apply safe_ret].
  - intros [st ret']. destruct (_ || _); apply safe_ret.
Qed.

Lemma safe_write_turn fd st : 0 <= st.1.2 -> safe (write_turn (Some p) buf fd st).
Proof.
  destruct st as [[base len] copied]. cbn [fst snd]. intros Hlen. unfold write_turn, file_write. destruct (len =? 0); [apply safe_ret|].
  apply safe_bind; [apply safe_from_user|]; [unfold piece, IOBUF_SIZE; destruct (Z.ltb_spec len 4096); lia| |].
  { intros x Hx. left. revert Hx. unfold piece, IOBUF_SIZE. destruct (Z.ltb_spec len 4096); lia. }
  intros [|]; [|apply safe_ret]. cbn [negb]. apply safe_bind; [apply safe_file_io|]. intros [alen ret]. apply safe_bind.
  - destruct (negb _); [|apply safe_ret]. apply safe_bind; [apply safe_assert|intros; apply safe_ret].
  - intros st. destruct (_ || _); apply safe_ret.
Qed.

Lemma write_turn_len fd st : 0 <= st.1.2 -> yields (write_turn (Some p) buf fd st) (fun r => match r with inl st' => 0 <= st'.1.2 | inr _ => True end).
Proof.
  destruct st as [[base len] copied]. cbn [fst snd]. intros Hlen. unfold write_turn. destruct (len =? 0); [by apply yields_ret|].
  apply yields_last. intros [|]; [|by apply yields_ret]. apply yields_last. intros [alen ret].
  apply (yields_bind _ _ (fun st : Z * Z * Z => 0 <= st.1.2)).
  - destruct (negb _); [|by apply yields_ret]. apply (yields_bind _ _ (fun _ => alen <= len)); [|intros _ Hle; apply yields_ret; cbn; lia].
    intros t t' [] E. unfold StateM.assert in E. destruct (Z.leb_spec alen len); [done|discriminate].
  - intros st Hst. destruct (_ || _); by apply yields_ret.
Qed.

Lemma safe_sysfile_read fd base len : safe (sysfile_read (Some p) buf fd base len).
Proof.
  unfold sysfile_read. destruct (len =? 0); [apply safe_ret|]. apply safe_bind; [apply safe_kernel|]. intros [|]; [|apply safe_ret].
  apply safe_bind; [apply safe_kernel|]. intros [|]; [|apply safe_ret]. apply safe_bind; [|intros; apply safe_ret].
  apply (safe_loop _ (fun _ => True)); [|by intros a _ t t' [|] _|done]. intros st _. apply safe_read_turn.
Qed.

Lemma safe_sysfile_write fd base len : 0 <= len -> safe (sysfile_write (Some p) buf fd base len).
Proof.
  intros Hlen. unfold sysfile_write. destruct (len =? 0); [apply safe_ret|]. apply safe_bind; [apply safe_kernel|]. intros [|]; [|apply safe_ret].
  apply safe_bind; [apply safe_kernel|]. intros [|]; [|apply safe_ret]. apply safe_bind; [|intros; apply safe_ret].
  apply (safe_loop _ (fun st : Z * Z * Z => 0 <= st.1.2)); [|intros st Hst; by apply write_turn_len|done]. intros st Hst. by apply safe_write_turn.
Qed.

Lemma safe_sysfile_fstat fd st : safe (sysfile_fstat (Some p) local fd st).
Proof.
  apply safe_returned, safe_bind; [apply safe_kernel|]. intros x. apply safe_bind.
  - apply (safe_memory _ local STAT_SIZE); [|intros y Hy; right; right; by right]. intros m m' []. destruct (store_stat _ _ _) eqn:E; cbn; [intros [= <-]|done..]. by eapply store_stat_wrote.
  - intros _. apply safe_bind; [by apply safe_to_user|]. intros [|]; [apply safe_ret|apply safe_fail].
Qed.

Lemma safe_sysfile_getcwd ubuf len : 0 <= len < 2 ^ 64 -> safe (sysfile_getcwd (Some p) junk ubuf len).
Proof.
  intros Hlen s s' r Hs. unfold sysfile_getcwd. destruct (len =? 0); [by apply safe_ret|]. unfold on_user at 1.
  destruct (user_mem_check_run (u_v s) p al ubuf len true (uo_mm _ Hs)) as (v & ok & E & Hsm & Hi & Hok). unfold mbind at 1, M_bind at 1. cbn beta. rewrite E. cbn [mbind res_bind].
  assert (Hs1 : user_ok (mk_user (u_k s) v (u_mem s))) by (destruct Hs; by split). destruct ok; cbn [negb]; [|intros [= <- <-]; by split].
  destruct (proj1 Hok eq_refl) as (H1 & H2 & H3). pose proof (checked_range _ _ Hlen H1 H2) as E0. intros H.
  apply (safe_buffer _ _ _ (proj1 Hlen)) in H; [|intros x Hx; left; apply H3; lia|done]. destruct H as (? & H4 & H5 & H6). split; [done|]. split; [exact H4|]. split; [exact H5|]. by etrans.
Qed.

Lemma safe_sysfile_getdirentry fd d : safe (sysfile_getdirentry (Some p) buf fd d).
Proof.
  apply safe_bind; [apply safe_kernel|]. intros [|]; [|apply safe_ret]. assert (Hsc : forall n x, n <= 4096 -> buf <= x < buf + n -> scratch x) by (intros n x Hn Hx; left; lia).
  apply safe_bind; [apply safe_from_user; [done|intros x; by apply (Hsc 8)]|]. intros [|]; [|apply safe_ret]. apply safe_returned, safe_bind.
  - apply safe_buffer; [done|]. intros x Hx. right. by apply (Hsc DIRENT_SIZE).
  - intros _. apply safe_bind; [by apply safe_to_user|]. intros [|]; [apply safe_ret|apply safe_fail].
Qed.

Lemma file_syscalls_safe num sys arg : (num, sys) ∈ file_syscalls (Some p) buf local junk -> (forall i, 0 <= arg i < 2 ^ 64) -> safe (sys arg).
Proof.
  intros Hin Harg. pose proof (Harg 1%nat). pose proof (Harg 2%nat).
  repeat (apply elem_of_cons in Hin as [[= -> ->]|Hin]); [..|by apply elem_of_nil in Hin]; try apply safe_returns0.
  - apply safe_returned, safe_bind; [apply safe_copy_path; by left|intros; apply safe_kernel].
  - apply safe_sysfile_read.
  - apply safe_sysfile_write. lia.
  - apply safe_sysfile_fstat.
  - by apply safe_sysfile_getcwd.
  - apply safe_sysfile_getdirentry.
  - apply safe_returned, safe_kernel.
Qed.

(** Whatever a process asks for, the file system calls write only where it may write.
    For every row of the table of system calls from [SYS_open] up, with any five register
    values as arguments: if the call returns - it may also wait for input or stop the
    kernel - then every byte of memory outside the areas the process may write and
    outside the call's own buffers is as it was, nothing has been unmapped, and the
    process still has the areas it had. *)
Theorem file_syscalls_write_user_memory s num sys arg s' r :
  user_ok s -> (num, sys) ∈ file_syscalls (Some p) buf local junk -> (forall i, 0 <= arg i < 2 ^ 64) -> sys arg s = Ok (s', r) ->
  user_ok s' /\ (forall x, ~ may al true x -> ~ scratch x -> u_mem s' !! x = u_mem s !! x) /\ forall x, is_Some (u_mem s !! x) -> is_Some (u_mem s' !! x).
Proof. intros Hs Hin Harg. intros Hrun. destruct (file_syscalls_safe num sys arg Hin Harg s s' r Hs Hrun) as (H1 & H2 & H3 & _). by split_and!. Qed.
End Safe.
