(* ===== verification/SysFileRead.v ===== *)
(** Reading a file through the system call: what [sysfile_read] brings into user memory. *)
From S2P Require Import Prelude CString Layout StateM Iobuf Disk0 SfsIo SfsBmap SfsFile SfsNode Vfs FileTable Vmm SysFile SysFileSpec.

(** * The kernel's buffer *)
Lemma load_bytes_run m n : forall a, mapped m a (Z.of_nat n) ->
  exists l, load_bytes m a n = Ok l /\ length l = n /\ forall k, (k < n)%nat -> m !! (a + Z.of_nat k) = l !! k.
Proof.
  induction n as [|n IH]; intros a Hm; cbn [load_bytes]; [exists []; split_and!; [done|done|lia]|].
  destruct (Hm a ltac:(lia)) as [x Hx]. unfold load. rewrite (deref_some _ _ _ Hx). cbn [mbind res_bind].
  destruct (IH (a + 1)) as (l & -> & Hl & Hk); [intros i Hi; apply Hm; lia|]. exists (x :: l). split; [done|]. split; [cbn; by rewrite Hl|].
  intros [|k] Hlt; [by rewrite Z.add_0_r|]. cbn. rewrite <- Hk by lia. f_equal. lia.
Qed.

Lemma store_bytes_run l : forall m a, mapped m a (Z.of_nat (length l)) ->
  exists m', store_bytes m a l = Ok m' /\ forall x, m' !! x = if decide (a <= x < a + Z.of_nat (length l)) then l !! Z.to_nat (x - a) else m !! x.
Proof.
  induction l as [|y l IH]; intros m a Hm; cbn [store_bytes length].
  - exists m. split; [done|]. intros x. by rewrite decide_False by lia.
  - cbn [length] in Hm. rewrite store_ok by (apply Hm; lia). cbn [mbind res_bind].
    destruct (IH (<[a := y]> m) (a + 1)) as (m' & -> & Hm'); [apply mapped_insert; intros i Hi; apply Hm; lia|]. exists m'. split; [done|].
    intros x. rewrite Hm'. destruct (decide (x = a)) as [->|Hne].
    + rewrite decide_False, decide_True, lookup_insert_eq by lia. by rewrite Z.sub_diag.
    + rewrite lookup_insert_ne by done. destruct (decide (a + 1 <= x < a + 1 + Z.of_nat (length l))); [rewrite decide_True by lia|by rewrite decide_False by lia].
      replace (Z.to_nat (x - a)) with (S (Z.to_nat (x - (a + 1)))) by lia. done.
Qed.

Section Read.
Context {D : Type} `{!Device D} `{!DeviceLaws D} (p buf buf2 local : Z) (al : list vma_struct).
#[local] Notation U := (user D).
#[local] Notation K := (kernel D).

(** Steps that change no block change no file. *)
Lemma file_step_same (fs fs' : sfs_fs D) d :
  file_ok fs d -> fs_step fs (disk_of fs) (is_free fs) fs' -> file_ok fs' d /\ file_data fs' d = file_data fs d.
Proof.
  intros (Hi & Hrest) Hst. destruct (inode_ok_same fs fs' d Hi Hst) as [Hi' _]. split; [by split|].
  apply (unchanged_frame fs d fs' Hi). exists (disk_of fs). by split.
Qed.

(** One call of [file_read] by way of a buffer of the kernel. *)
Lemma buffer_run {A} (s : U) a n (f : list Z -> M K (list Z * A)) :
  0 <= n -> mapped (u_mem s) a n ->
  exists b, Z.of_nat (length b) = n /\ forall k1 b1 (x : A), f b (u_k s) = Ok (k1, inr (b1, x)) -> length b1 = length b ->
    exists m1, with_buffer a n f s = Ok (mk_user k1 (u_v s) m1, inr x) /\
      forall y, m1 !! y = if decide (a <= y < a + n) then b1 !! Z.to_nat (y - a) else u_mem s !! y.
Proof.
  intros Hn Hm. destruct (load_bytes_run (u_mem s) (Z.to_nat n) a) as (b & E & Hl & Hb); [by rewrite Z2Nat.id|].
  exists b. split; [lia|]. intros k1 b1 x Hf Hl1. destruct (store_bytes_run b1 (u_mem s) a) as (m1 & E1 & Hm1); [rewrite Hl1, Hl, Z2Nat.id by done; exact Hm|].
  exists m1. split.
  - unfold with_buffer. rewrite (bind_ok _ _ s s b).
    2: { unfold on_memory, on_user. rewrite E. by destruct s. }
    rewrite (bind_ok _ _ s (set_k k1 s) (b1, x)) by (apply zoom_eq; exact Hf). rewrite (bind_ok _ _ _ (mk_user k1 (u_v s) m1) tt); [done|].
    unfold on_memory, on_user. cbn [u_mem set_k u_v u_k]. rewrite take_ge by lia. by rewrite E1.
  - intros y. rewrite Hm1, Hl1, Hl, Z2Nat.id by done. done.
Qed.

Lemma to_user_run (s : U) dst src len :
  mm_inv (u_v s) p al -> 0 < len < 2 ^ 64 -> USERBASE <= dst -> dst + len <= USERTOP -> (forall x, dst <= x < dst + len -> may al true x) ->
  mapped (u_mem s) dst len -> mapped (u_mem s) src len -> dst <= src \/ src + len <= dst ->
  exists v1 m1, on_user (fun v m => copy_to_user v m (Some p) dst src len) s = Ok (mk_user (u_k s) v1 m1, inr true) /\ mm_inv v1 p al /\
    forall y, m1 !! y = if decide (dst <= y < dst + len) then u_mem s !! (src + (y - dst)) else u_mem s !! y.
Proof.
  intros Hv Hlen Hlo Hhi Hmay Hd Hs Hov. destruct (user_mem_check_run (u_v s) p al dst len true Hv) as (v1 & ok & E & _ & Hi & Hok).
  unfold USERBASE, USERTOP in *.
  assert (ok = true) as ->. { apply Hok. rewrite u64_small by lia. split; [done|]. split; [lia|done]. }
  destruct (memcpy_run (u_mem s) dst src len ltac:(lia) Hd Hs Hov) as (m1 & E1 & Hm1). exists v1, m1. split; [|by split].
  unfold on_user, copy_to_user. rewrite E. cbn [mbind res_bind]. by rewrite E1.
Qed.

(** A kernel whose process has moved on in a file. *)
Definition moved (i : nat) (f : file) (k : K) (n : Z) (fs : sfs_fs D) : K :=
  put_fd i (set_pos (pos f + n) f) (set_world (mk_world fs (w_nodes (k_world k))) k).

Lemma moved_twice i f k n fs n' fs' :
  put_fd i (set_pos (pos (set_pos (pos f + n) f) + n') (set_pos (pos f + n) f)) (set_world (mk_world fs' (w_nodes (k_world (moved i f k n fs)))) (moved i f k n fs)) = moved i f k (n + n') fs'.
Proof. unfold moved, put_fd, set_pos. cbn. rewrite list_insert_insert_eq, Z.add_assoc. done. Qed.

Lemma moved_start i f k : fd_array (filesp k) !! i = Some f -> moved i f k 0 (w_fs (k_world k)) = k.
Proof.
  intros Hf. unfold moved, put_fd, set_pos. rewrite Z.add_0_r. cbn. rewrite list_insert_id by (rewrite Hf; by destruct f). by destruct k as [[] ? ? ? ? [] ? ? ? ?].
Qed.

Lemma moved_table i f k n fs : table_ok k -> fd_array (filesp k) !! i = Some f -> status f = FD_OPENED -> table_ok (moved i f k n fs).
Proof.
  intros Hk Hf Hs. pose proof Hk as (_ & _ & He). destruct (He _ _ Hf) as [_ [[? _]|(_ & H1 & a & nd & Ha & Hn & Hc & Hle)]]; [congruence|].
  pose proof (opens_held a _ _ _ Hf Hs Ha). assert (holds a f = holds a (set_pos (pos f + n) f)) as Hh by done.
  change (table_ok (put_fd i (set_pos (pos f + n) f) k)). rewrite <- (with_node_same a nd k Hn) at 1.
  apply (table_ok_put k i f); try done; [intros n0 E; assert (n0 = nd) as -> by congruence; rewrite <- Hh; lia| rewrite <- Hh; lia|by right].
Qed.

(** * The loop of [sysfile_read] *)
Section Loop.
Context (s0 : U) (i : nat) (f : file) (a : Z) (n : inode) (sin : sfs_inode) (base len : Z).
Let k := u_k s0.
Let fs := w_fs (k_world k).
Let d := din sin.
Let total := readable_bytes d (pos f) len.

(** The descriptor is open for reading on a file whose inode is in order. *)
Record open_file : Prop := OpenFile {
  of_table : table_ok k; of_entry : fd_array (filesp k) !! i = Some f; of_open : status f = FD_OPENED; of_mode : readable f = true; of_node : node f = Some a;
  of_inode : w_nodes (k_world k) !! a = Some n; of_ops : in_ops n = sfs_node_fileops; of_info : info n = sfs_info sin; of_sem : sem sin = 1;
  of_fs : fs_inv fs; of_file : file_ok fs d; of_pos : 0 <= pos f < SFS_MAX_FILE_SIZE; of_len : 0 <= len < 2 ^ 40
}.

(** The same, and the process may write the whole of its buffer. *)
Record reading : Prop := Reading {
  rd_table : table_ok k; rd_entry : fd_array (filesp k) !! i = Some f; rd_open : status f = FD_OPENED; rd_mode : readable f = true; rd_node : node f = Some a;
  rd_inode : w_nodes (k_world k) !! a = Some n; rd_ops : in_ops n = sfs_node_fileops; rd_info : info n = sfs_info sin; rd_sem : sem sin = 1;
  rd_fs : fs_inv fs; rd_file : file_ok fs d; rd_pos : 0 <= pos f < SFS_MAX_FILE_SIZE;
  rd_len : 0 <= len < 2 ^ 40; rd_low : USERBASE <= base; rd_high : base + len <= USERTOP; rd_may x : base <= x < base + len -> may al true x
}.

Lemma reading_open : reading -> open_file.
Proof. intros []. by split. Qed.

(** Where the bytes go: [copy_to_user] works there while the areas are in order - [I] - and
    the kernel's buffer lies elsewhere. *)
Record destination (mm : option Z) (I : vmm -> Prop) : Prop := Destination {
  ds_low : 0 <= base; ds_high : base + len < 2 ^ 64;
  ds_apart : base + len <= buf \/ buf + IOBUF_SIZE <= base;
  ds_mapped : mapped (u_mem s0) base len;
  ds_buffer : mapped (u_mem s0) buf IOBUF_SIZE;
  ds_copy (s : U) dst c : I (u_v s) -> base <= dst -> 0 < c <= IOBUF_SIZE -> dst + c <= base + len -> mapped (u_mem s) dst c -> mapped (u_mem s) buf c ->
    exists v1 m1, on_user (fun v m => copy_to_user v m mm dst buf c) s = Ok (mk_user (u_k s) v1 m1, inr true) /\ I v1 /\
      forall y, m1 !! y = if decide (dst <= y < dst + c) then u_mem s !! (buf + (y - dst)) else u_mem s !! y
}.

Context (mm : option Z) (I : vmm -> Prop).

(** [j] bytes have been read. *)
Record progress (j : Z) (s : U) : Prop := Progress {
  pr_range : 0 <= j <= total;
  pr_mm : I (u_v s);
  pr_kernel : exists fs', u_k s = moved i f k j fs' /\ fs_step fs (disk_of fs) (is_free fs) fs';
  pr_bytes x : base <= x < base + j -> u_mem s !! x = file_data fs d !! Z.to_nat (pos f + (x - base));
  pr_other x : ~ base <= x < base + j -> ~ buf <= x < buf + IOBUF_SIZE -> u_mem s !! x = u_mem s0 !! x;
  pr_mapped x : is_Some (u_mem s0 !! x) -> is_Some (u_mem s !! x)
}.

Hypothesis (Hr : open_file) (Hds : destination mm I).

Lemma total_bounds : 0 <= total <= len /\ (0 < total -> pos f + total <= d_size d) /\ d_size d < SFS_MAX_FILE_SIZE.
Proof.
  pose proof (of_len Hr). destruct (file_ok_size _ _ (of_file Hr)) as [Hs1 Hs2]. unfold total, readable_bytes, SFS_MAX_FILE_SIZE, SFS_BLKSIZE in *. lia.
Qed.

Lemma data_bound : d_size d <= Z.of_nat (length (file_data fs d)).
Proof.
  rewrite file_data_length; [|apply Hr|apply Hr]. pose proof (file_ok_size _ _ (of_file Hr)) as [Hs1 _]. pose proof blk_eq. unfold SFS_BLKSIZE in Hs1.
  assert (0 <= d_blocks d) by lia. nia.
Qed.

(** The bytes of one turn, and what is left after them. *)
Lemma turn_bytes j : 0 <= j <= total -> j < len ->
  let c := readable_bytes d (pos f + j) (piece (len - j)) in 0 <= c <= piece (len - j) /\ j + c <= total /\ (c = 0 -> j = total).
Proof.
  intros Hj Hl. pose proof (of_len Hr). unfold total, piece, readable_bytes, IOBUF_SIZE in *. destruct (Z.ltb_spec (len - j) 4096); lia.
Qed.

Lemma read_turn_run j s : progress j s -> 
  exists s', progress (j + (if j <? len then readable_bytes d (pos f + j) (piece (len - j)) else 0)) s' /\
    read_turn mm buf (Z.of_nat i) (base + j, len - j, j) s =
      Ok (s', inr (if (j <? len) && negb (readable_bytes d (pos f + j) (piece (len - j)) =? 0)
                   then inl (base + (j + readable_bytes d (pos f + j) (piece (len - j))), len - (j + readable_bytes d (pos f + j) (piece (len - j))), j + readable_bytes d (pos f + j) (piece (len - j)))
                   else inr (j, 0))).
Proof.
  intros [Hj Hmm (fs' & Hk & Hst) Hbytes Hother Hmapped]. destruct total_bounds as (Htot & Hsz & Hmax). unfold read_turn.
  destruct (Z.eqb_spec (len - j) 0) as [E|E]; [rewrite (proj2 (Z.ltb_ge j len)) by lia; rewrite Z.add_0_r; exists s; split; [by split; [..|by exists fs'| | |]|done]|].
  rewrite (proj2 (Z.ltb_lt j len)) by lia. cbn [andb]. pose proof (turn_bytes j Hj ltac:(lia)) as Hc. cbv zeta in Hc. set (pc := piece (len - j)) in *. set (c := readable_bytes d (pos f + j) pc) in *.
  assert (0 <= pc <= IOBUF_SIZE /\ pc <= len - j) as Hpc by (unfold pc, piece, IOBUF_SIZE; destruct (Z.ltb_spec (len - j) 4096); lia). pose proof (of_len Hr) as Hlen. pose proof (of_pos Hr) as Hpos.
  destruct (file_step_same fs fs' d (of_file Hr) Hst) as [Hfile Hdata].
  assert (Hbmap : forall m : memory, (forall x, is_Some (u_mem s0 !! x) -> is_Some (m !! x)) -> mapped m buf IOBUF_SIZE) by (intros m Hm x Hx; by apply Hm, (ds_buffer _ _ Hds)).
  destruct (buffer_run s buf IOBUF_SIZE (fun b => '(b, alen, ret) ← file_read (Z.of_nat i) b 0 pc; mret (b, (alen, ret)))) as (b & Hb & Hrun); [done|by apply Hbmap|].
  destruct (file_read_run (u_k s) b 0 pc i (set_pos (pos f + j) f) a n sin) as (fs2 & Hread & Hst2); rewrite ?Hk; try apply Hr; try done; try lia.
  { apply moved_table; apply Hr. }
  { unfold moved, put_fd. cbn. apply list_lookup_insert_eq. eapply lookup_lt_Some, Hr. }
  { exact (proj1 Hst). }
  { destruct (decide (0 < total)); cbn [pos set_pos]; [|lia]. pose proof (Hsz ltac:(done)). lia. }
  change (readable_bytes (din sin) (pos (set_pos (pos f + j) f)) pc) with c in Hread. rewrite Hk, moved_twice in Hread. change (w_fs (k_world (moved i f k j fs'))) with fs' in Hread, Hst2. rewrite Hk in Hst2. fold d in Hread. rewrite Hdata in Hread.
  destruct (Hrun (moved i f k (j + c) fs2) (list_inserts (Z.to_nat 0) (bytes_at (file_data fs d) (Z.to_nat (pos f + j)) (Z.to_nat c)) b) (c, 0)) as (m1 & E1 & Hm1).
  { rewrite Hk. by rewrite (bind_ok _ _ _ _ _ Hread). }
  { apply length_inserts. }
  rewrite (bind_ok _ _ _ _ _ E1). assert (Hst3 : fs_step fs (disk_of fs) (is_free fs) fs2).
  { destruct Hst as (Hs1 & Hs2 & Hs3 & Hs4). eapply fs_step_ext; [by eapply fs_step_trans|done|done]. }
  set (s1 := mk_user _ _ m1). assert (Hmap1 : forall x, is_Some (u_mem s0 !! x) -> is_Some (m1 !! x)).
  { intros x Hx. rewrite Hm1. case_decide as Hd; [apply lookup_lt_is_Some_2; rewrite length_inserts; lia|by apply Hmapped]. }
  pose proof (ds_high _ _ Hds) as Hhigh. pose proof (ds_low _ _ Hds) as Hlow. pose proof (ds_apart _ _ Hds) as Hb2.
  assert (Hm1o : forall x, ~ buf <= x < buf + IOBUF_SIZE -> m1 !! x = u_mem s !! x) by (intros x Hx; by rewrite Hm1, decide_False).
  destruct (Z.eqb_spec c 0) as [E0|E0]; cbn [negb andb orb].
  - exists s1. split; [|done]. replace (j + c) with j by lia. split; [done|done|exists fs2; split; [cbn; f_equal; lia|done]| | |done]; cbn [s1 u_mem].
    + intros x Hx. rewrite Hm1o by lia. by apply Hbytes.
    + intros x Hx Hx2. rewrite Hm1o by done. by apply Hother.
  - assert (Hfit : (Z.to_nat (pos f + j) + Z.to_nat c <= length (file_data fs d))%nat) by (pose proof data_bound; pose proof (Hsz ltac:(lia)); lia).
    destruct (ds_copy _ _ Hds s1 (base + j) c) as (v1 & m2 & E2 & Hv1 & Hm2); [done|lia|lia|lia| | |].
    { intros x Hx. apply Hmap1, (ds_mapped _ _ Hds). lia. }
    { intros x Hx. apply (Hbmap m1 Hmap1). lia. }
    rewrite (bind_ok _ _ _ (mk_user (moved i f k (j + c) fs2) v1 m2) (base + j + c, len - j - c, j + c, 0)).
    2: { rewrite (bind_ok _ _ _ _ _ E2). rewrite (bind_ok _ _ _ _ tt) by (apply assert_true; lia). rewrite !u64_small by lia. done. }
    eexists. split; [|cbn [orb fst negb]; rewrite Z.add_assoc, Z.sub_add_distr; reflexivity].
    split; [lia|done|by exists fs2| | |]; cbn [u_mem].
    + intros x Hx. rewrite Hm2. destruct (decide (base + j <= x < base + j + c)) as [Hin|Hin].
      * rewrite Hm1, decide_True by lia. change (Z.to_nat 0) with 0%nat. rewrite list_lookup_inserts by (rewrite ?bytes_at_length by done; lia). rewrite Nat.sub_0_r, bytes_at_lookup by lia. f_equal. lia.
      * rewrite Hm1o by lia. apply Hbytes. lia.
    + intros x Hx Hx2. rewrite Hm2, decide_False, Hm1o by lia. apply Hother; lia.
    + intros x Hx. rewrite Hm2. case_decide; [apply (Hbmap m1 Hmap1); lia|by apply Hmap1].
Qed.

Lemma read_loop fuel : forall j s, progress j s -> (Z.to_nat (len - j) < fuel)%nat ->
  exists s', progress total s' /\ m_loop (read_turn mm buf (Z.of_nat i)) fuel (base + j, len - j, j) s = Ok (s', inr (total, 0)).
Proof.
  induction fuel as [|fuel IH]; intros j s Hj Hf; [lia|]. destruct (read_turn_run j s Hj) as (s1 & H1 & E1). pose proof (pr_range _ _ Hj) as Hrange. destruct total_bounds as (Ht & _).
  destruct (Z.ltb_spec j len) as [Hlt|Hge]; cbn [andb] in E1.
  - pose proof (turn_bytes j Hrange Hlt) as (Hc & Hjc & Hc0). cbv zeta in Hc, Hjc, Hc0. set (c := readable_bytes d (pos f + j) (piece (len - j))) in *. destruct (Z.eqb_spec c 0) as [E0|E0]; cbn [negb] in E1.
    + exists s1. rewrite (m_loop_exit _ _ _ _ _ _ E1). rewrite <- (Hc0 E0). split; [by rewrite E0, Z.add_0_r in H1|done].
    + destruct (IH (j + c) s1 H1) as (s2 & H2 & E2); [lia|]. exists s2. split; [done|]. by rewrite (m_loop_next _ _ _ _ _ _ E1).
  - exists s1. rewrite (m_loop_exit _ _ _ _ _ _ E1). assert (j = total) as -> by lia. by rewrite Z.add_0_r in H1.
Qed.
End Loop.

Lemma reading_same s1 s2 i f a n sin base len : u_k s1 = u_k s2 -> reading s1 i f a n sin base len -> reading s2 i f a n sin base len.
Proof. destruct s1, s2. cbn. intros <- []. by constructor. Qed.

Lemma total_range s i f a n sin base len : reading s i f a n sin base len ->
  let d := din sin in let total := readable_bytes d (pos f) len in 0 <= total <= len /\ (0 < total -> pos f + total <= d_size d) /\ d_size d < SFS_MAX_FILE_SIZE.
Proof. intros Hr. eapply total_bounds, reading_open, Hr. Qed.

Lemma data_length s i f a n sin base len : reading s i f a n sin base len -> d_size (din sin) <= Z.of_nat (length (file_data (w_fs (k_world (u_k s))) (din sin))).
Proof. intros Hr. eapply data_bound, reading_open, Hr. Qed.

(** [sysfile_read] for any place the bytes may go to. *)
Lemma sysfile_read_to s i f a n sin base len mm I :
  open_file s i f a n sin len -> destination s base len mm I -> I (u_v s) -> kmem (w_fs (k_world (u_k s))) = [] ->
  let d := din sin in
  let total := readable_bytes d (pos f) len in
  exists s' fs', sysfile_read mm buf (Z.of_nat i) base len s = Ok (s', inr total) /\
    (forall x, base <= x < base + total -> u_mem s' !! x = file_data (w_fs (k_world (u_k s))) d !! Z.to_nat (pos f + (x - base))) /\
    (forall x, ~ base <= x < base + total -> ~ buf <= x < buf + IOBUF_SIZE -> u_mem s' !! x = u_mem s !! x) /\
    I (u_v s') /\ u_k s' = moved i f (u_k s) total fs' /\
    fs_step (w_fs (k_world (u_k s))) (disk_of (w_fs (k_world (u_k s)))) (is_free (w_fs (k_world (u_k s)))) fs'.
Proof.
  intros Hr Hd HI Hk d total. pose proof Hr as [Ht Hf Ho Hm _ _ _ _ _ Hfs _ Hpos Hlen]. pose proof (total_bounds _ _ _ _ _ _ _ Hr) as (Htot & Hsz & Hmax). fold d total in Htot, Hsz.
  assert (H0 : progress s i f sin base len I 0 s).
  { split; [fold d total; lia|done|exists (w_fs (k_world (u_k s))); split; [by rewrite moved_start|by apply fs_step_refl]|lia|done|done]. }
  unfold sysfile_read. destruct (Z.eqb_spec len 0) as [E|E].
  - assert (total = 0) as E0 by lia. rewrite E0. destruct H0 as [_ Hmm (fs' & Hk' & Hst) _ _ _]. exists s, fs'. split; [done|]. split; [lia|]. by split.
  - destruct (read_loop _ _ _ _ _ _ _ _ _ _ Hr Hd (S (Z.to_nat len)) 0 s H0 ltac:(lia)) as (s' & [_ Hmm (fs' & Hk' & Hst) Hb Hoth _] & E1). rewrite Z.add_0_r, Z.sub_0_r in E1. fold d total in E1, Hk', Hb, Hoth.
    exists s', fs'. split; [|by split].
    assert (forall A (g : M K A) r, g (u_k s) = Ok (u_k s, r) -> on_kernel g s = Ok (s, r)) as Hsame by (intros A g r Eg; unfold on_kernel; rewrite (zoom_eq _ _ _ _ _ _ Eg); by destruct s).
    rewrite (bind_ok _ _ s s true).
    2: { apply Hsame. unfold file_testfd. rewrite (bind_ok _ _ _ _ _ (attempt_eq _ _ _ _ (fd2file_open _ _ _ Ht Hf Ho))). by rewrite Hm. }
    cbn [negb]. rewrite (bind_ok _ _ s s true).
    2: { apply Hsame. unfold k_malloc, on_world, on_sfs, zoom, SfsIo.kmalloc. rewrite Hk. cbn. by destruct (u_k s) as [[] ? ? ? ? ? ? ? ? ?]. }
    rewrite (bind_ok _ _ _ _ _ E1). unfold io_result. destruct (Z.eqb_spec total 0) as [->|Hne]; [done|]. cbn [negb]. rewrite i32_small; [done|].
    pose proof (Hsz ltac:(lia)). unfold SFS_MAX_FILE_SIZE in Hmax. fold d in Hmax. lia.
Qed.

Lemma user_destination s i f a n sin base len :
  reading s i f a n sin base len -> user_ok p buf buf2 local al s -> USERTOP <= buf -> destination s base len (Some p) (fun v => mm_inv v p al).
Proof.
  intros Hr Hs Hbuf. pose proof (rd_high _ _ _ _ _ _ _ _ Hr) as Hhigh. pose proof (rd_low _ _ _ _ _ _ _ _ Hr) as Hlow. pose proof (rd_may _ _ _ _ _ _ _ _ Hr) as Hmay. pose proof (rd_len _ _ _ _ _ _ _ _ Hr) as Hlen.
  assert (HB : 0 < USERBASE) by done. assert (HT : USERTOP < 2 ^ 64) by done. split; [lia|lia|lia| | |].
  - intros x Hx. eapply (uo_mapped _ _ _ _ _ _ Hs), Hmay. lia.
  - intros x Hx. apply (uo_scratch _ _ _ _ _ _ Hs). by left.
  - intros s1 dst c Hi Hd Hc Hle Hm1 Hm2. unfold IOBUF_SIZE in Hc. apply to_user_run; [done|lia|lia|lia|intros x Hx; apply Hmay; lia|done|done|lia].
Qed.

Lemma sysfile_read_run s i f a n sin base len :
  reading s i f a n sin base len -> user_ok p buf buf2 local al s -> USERTOP <= buf -> kmem (w_fs (k_world (u_k s))) = [] ->
  let d := din sin in
  let total := readable_bytes d (pos f) len in
  exists s' fs', sysfile_read (Some p) buf (Z.of_nat i) base len s = Ok (s', inr total) /\
    (forall x, base <= x < base + total -> u_mem s' !! x = file_data (w_fs (k_world (u_k s))) d !! Z.to_nat (pos f + (x - base))) /\
    (forall x, ~ base <= x < base + total -> ~ buf <= x < buf + IOBUF_SIZE -> u_mem s' !! x = u_mem s !! x) /\
    mm_inv (u_v s') p al /\ u_k s' = moved i f (u_k s) total fs' /\
    fs_step (w_fs (k_world (u_k s))) (disk_of (w_fs (k_world (u_k s)))) (is_free (w_fs (k_world (u_k s)))) fs'.
Proof.
  intros Hr Hs Hbuf Hk. apply (sysfile_read_to s i f a n sin base len (Some p) (fun v => mm_inv v p al)); [by eapply reading_open|by eapply user_destination|apply Hs|done].
Qed.

(** C9. The system call that reads brings the file into user memory.  For a process with
    an open, readable descriptor of a regular file and a buffer it may write to, when
    [kmalloc] succeeds: [sysfile_read] comes to an end, whatever number of turns through its
    own buffer of one page it takes; it returns the number of bytes between the position
    and the end of the request or of the file; exactly those bytes of the file are then
    in the process's buffer; no other byte of memory has changed but those of the kernel's
    buffer; the position has moved past them; and no block, inode or other descriptor has
    changed. *)
Theorem sysfile_read_brings_file s i f a n sin base len :
  reading s i f a n sin base len -> user_ok p buf buf2 local al s -> USERTOP <= buf -> kmem (w_fs (k_world (u_k s))) = [] ->
  let d := din sin in
  let total := readable_bytes d (pos f) len in
  exists s' fs', sysfile_read (Some p) buf (Z.of_nat i) base len s = Ok (s', inr total) /\
    (forall x, base <= x < base + total -> u_mem s' !! x = file_data (w_fs (k_world (u_k s))) d !! Z.to_nat (pos f + (x - base))) /\
    (forall x, ~ base <= x < base + total -> ~ buf <= x < buf + IOBUF_SIZE -> u_mem s' !! x = u_mem s !! x) /\
    mm_inv (u_v s') p al /\ u_k s' = moved i f (u_k s) total fs' /\
    fs_step (w_fs (k_world (u_k s))) (disk_of (w_fs (k_world (u_k s)))) (is_free (w_fs (k_world (u_k s)))) fs'.
Proof. apply sysfile_read_run. Qed.
End Read.
