(* ===== verification/SysFileExample.v ===== *)
(** A process with a page of data and one open file, on which the theorems about the file
    system calls are tried. *)
From S2P Require Import Prelude CString Layout StateM Iobuf Disk0 SfsIo SfsBmap SfsFile SfsNode Vfs FileTable Vmm SfsExample SysFile SysFileSpec SysFileRead.

Definition data_areas : list vma_struct := [Vma (Some 1) 0x800000 0x801000 (VM_READ + VM_WRITE)].

Definition data_vmm : vmm := Vmm (<[1 := Vma (Some 1) 0x800000 0x801000 (VM_READ + VM_WRITE)]> ∅) (<[1 := Mm [1] None None 1 1]> ∅).

Definition kbuf : Z := 0x90000000.
Definition kbuf2 : Z := 0x90001000.
Definition klocal : Z := 0x90002000.

Definition data_memory : memory := map_seqZ 0x800000 (replicate 4096 7) ∪ map_seqZ kbuf (replicate (Z.to_nat 8224) 0).

Definition demo_user : user disk0 := mk_user demo_kernel data_vmm data_memory.

Lemma data_mm_inv : mm_inv data_vmm 1 data_areas.
Proof.
  split; [cbn; lia|]. eexists. split; [reflexivity|]. split; [apply NoDup_singleton|]. split; [by repeat constructor|]. split; [|reflexivity]. by intros ? [=].
Qed.

Lemma data_may x : 0x800000 <= x < 0x801000 -> may data_areas true x.
Proof. intros Hx. eexists. split; [by left|]. split; [unfold contains; cbn [vm_start vm_end]; lia|]. split; [done|]. by intros (_ & ? & _). Qed.

Lemma demo_user_ok : user_ok 1 kbuf kbuf2 klocal data_areas demo_user.
Proof.
  split.
  - exact data_mm_inv.
  - apply Forall_singleton. repeat split; vm_compute; discriminate.
  - intros x w (a & ->%list_elem_of_singleton & Hc & _). unfold contains in Hc. cbn [vm_start vm_end] in Hc.
    apply lookup_union_is_Some. left. apply lookup_map_seqZ_is_Some. rewrite length_replicate. lia.
  - intros x Hx. apply lookup_union_is_Some. right. apply lookup_map_seqZ_is_Some. rewrite length_replicate.
    unfold scratch, kbuf, kbuf2, klocal, STAT_SIZE in *. lia.
Qed.

Lemma demo_reading : reading data_areas demo_user 0 demo_file0 20 demo_inode demo_sin 0x800010 20.
Proof.
  split; try reflexivity; try lia.
  - exact demo_table.
  - by apply demo_fs_inv; left.
  - by apply demo_file; left.
  - change SFS_MAX_FILE_SIZE with 134217728. cbn. lia.
  - vm_compute. discriminate.
  - vm_compute. discriminate.
  - intros x Hx. apply data_may. lia.
Qed.

(** Twenty bytes are asked for, eight are left, and the ninth stays. *)
Lemma sysfile_read_brings_file_witness :
  exists s', sysfile_read (Some 1) kbuf 0 0x800010 20 demo_user = Ok (s', inr 8) /\ u_mem s' !! 0x800017 = Some 0 /\ u_mem s' !! 0x800018 = Some 7.
Proof.
  destruct (sysfile_read_brings_file 1 kbuf kbuf2 klocal data_areas demo_user 0 demo_file0 20 demo_inode demo_sin 0x800010 20) as (s' & fs' & Hrun & Hb & Ho & _).
  - exact demo_reading.
  - exact demo_user_ok.
  - vm_compute. discriminate.
  - reflexivity.
  - change (readable_bytes (din demo_sin) (pos demo_file0) 20) with 8 in *. exists s'. split; [exact Hrun|]. split.
    + rewrite Hb by lia. vm_compute. reflexivity.
    + rewrite Ho by (unfold kbuf, IOBUF_SIZE; lia). apply lookup_union_Some_l, lookup_map_seqZ_Some. split; [lia|]. apply lookup_replicate. lia.
Defined.

(** The attributes of the open file go to user memory. *)
Definition demo_fstat : res (user disk0 * (Z + Z)) := sys_fstat (Some 1) klocal (fun i => match i with O => 0 | _ => 0x800100 end) demo_user.

Lemma file_syscalls_write_user_memory_witness :
  exists s', demo_fstat = Ok (s', inr 0) /\ user_ok 1 kbuf kbuf2 klocal data_areas s' /\ forall x, ~ 0x800000 <= x < 0x801000 -> ~ kbuf <= x < kbuf + 8224 -> u_mem s' !! x = u_mem demo_user !! x.
Proof.
  assert (E : match demo_fstat with Ok (_, inr r) => r =? 0 | _ => false end = true) by (vm_compute; reflexivity).
  pose proof (file_syscalls_write_user_memory 1 kbuf kbuf2 klocal (fun b => b) data_areas) as Hsafe. unfold demo_fstat in *.
  destruct (sys_fstat _ _ _ demo_user) as [[s' [e|r]]| | |] eqn:Hrun; try discriminate E. apply Z.eqb_eq in E as ->.
  destruct (Hsafe ltac:(intros b [->| ->]; split; vm_compute; [discriminate|reflexivity|discriminate|reflexivity])
    demo_user SYS_fstat (sys_fstat (Some 1) klocal) (fun i => match i with O => 0 | _ => 0x800100 end) s' (inr 0) demo_user_ok) as (Hok & Hw & _).
  - do 5 right. left.
  - intros [|i]; lia.
  - exact Hrun.
  - exists s'. split; [done|]. split; [exact Hok|]. intros x Hx Hx2. apply Hw.
    + intros (a & ->%list_elem_of_singleton & Hc & _). unfold contains in Hc. cbn [vm_start vm_end] in Hc. lia.
    + unfold scratch, kbuf, kbuf2, klocal, STAT_SIZE in *. lia.
Defined.
