(* ===== verification/PageTable.v ===== *)
(** Page tables (lab8/kern/mm/pmm.c, pmm.h and mmu.h; Sv39).

    A page frame is named by the index of its descriptor in [pages]; [frames] gives
    the 512 words of every frame, which the kernel reads and writes through its
    direct map ([page2kva], [KADDR]).  The code is written against a page allocator,
    given by its two functions as in [struct pmm_manager]; what is proved about it
    uses the contract [PageAllocator] that the allocators of this kernel discharge.
    The TLB has no state here: [tlb_invalidate] and [flush_tlb] are not modelled. *)
From S2P Require Import Prelude Lists Page Blocks FreeArea StateM Vmm.

(** * mmu.h *)
Definition NPTEENTRY : Z := 512.
Definition PTSIZE : Z := PGSIZE * NPTEENTRY.
Definition PDSIZE : Z := PTSIZE * NPTEENTRY.

Definition PDX1 (la : Z) : Z := Z.land (Z.shiftr la 30) 0x1FF.
Definition PDX0 (la : Z) : Z := Z.land (Z.shiftr la 21) 0x1FF.
Definition PTX (la : Z) : Z := Z.land (Z.shiftr la 12) 0x1FF.
Definition PPN (la : Z) : Z := Z.shiftr la 12.
Definition PGOFF (la : Z) : Z := Z.land la 0xFFF.

Definition PTE_V : Z := 0x1.
Definition PTE_R : Z := 0x2.
Definition PTE_W : Z := 0x4.
Definition PTE_X : Z := 0x8.
Definition PTE_U : Z := 0x10.
Definition PTE_USER : Z := Z.lor (Z.lor (Z.lor (Z.lor PTE_R PTE_W) PTE_X) PTE_U) PTE_V.

(** [(pte & ~0x3FF) << (PTXSHIFT - PTE_PPN_SHIFT)] *)
Definition PTE_ADDR (pte : Z) : Z := u64 (Z.shiftl (Z.land pte (Z.lnot 0x3FF)) 2).

Definition pte_create (ppn type : Z) : Z := Z.lor (Z.lor (u64 (Z.shiftl ppn 10)) PTE_V) type.

Definition valid (pte : Z) : bool := negb (Z.land pte PTE_V =? 0).

(** [DRAM_BASE / PGSIZE] *)
Definition nbase : Z := 0x80000000 / PGSIZE.

Record pmem : Type := Pmem { area : free_area; frames : gmap Z (list Z) }.

Definition with_area (m : pmem) (a : free_area) : pmem := Pmem a (frames m).
Definition with_frames (m : pmem) (f : gmap Z (list Z)) : pmem := Pmem (area m) f.

Definition set_ref (v : Z) (p : Page) : Page := MkPage v (flags p) (property p).

Definition word (m : pmem) (f i : Z) : res Z :=
  l ← deref (frames m) f; match l !! Z.to_nat i with Some x => Ok x | None => Fault end.

Definition set_word (m : pmem) (f i v : Z) : res pmem :=
  l ← deref (frames m) f;
  if decide (Z.to_nat i < length l)%nat then Ok (with_frames m (<[f := <[Z.to_nat i := v]> l]> (frames m))) else Fault.

(** [memset(kva, 0, PGSIZE)] and [memcpy] of a page. *)
Definition clear_frame (m : pmem) (f : Z) : res pmem :=
  _ ← deref (frames m) f; Ok (with_frames m (<[f := replicate (Z.to_nat NPTEENTRY) 0]> (frames m))).

Definition copy_frame (m : pmem) (dst src : Z) : res pmem :=
  l ← deref (frames m) src; _ ← deref (frames m) dst; Ok (with_frames m (<[dst := l]> (frames m))).

Definition upd_pmem_page (m : pmem) (p : Z) (f : Page -> Page) : res pmem := a ← upd_page (area m) p f; Ok (with_area m a).

Definition set_page_ref (m : pmem) (p val : Z) : res pmem := upd_pmem_page m p (set_ref val).

Definition page_ref_inc (m : pmem) (p : Z) : res (pmem * Z) :=
  pg ← deref (pages (area m)) p; let n := i32 (ref pg + 1) in m ← upd_pmem_page m p (set_ref n); Ok (m, n).

Definition page_ref_dec (m : pmem) (p : Z) : res (pmem * Z) :=
  pg ← deref (pages (area m)) p; let n := i32 (ref pg - 1) in m ← upd_pmem_page m p (set_ref n); Ok (m, n).

Section PageTables.
Context (alloc : alloc_pages_t) (free : free_pages_t) (npage : Z).

Definition page2ppn (p : Z) : Z := p + nbase.

Definition page2pa (p : Z) : Z := Z.shiftl (page2ppn p) 12.

Definition pa2page (pa : Z) : res Z := if npage <=? PPN pa then Panic else Ok (PPN pa - nbase).

(** The frame behind [KADDR(pa)], for a page-aligned [pa]. *)
Definition KADDR (pa : Z) : res Z := if npage <=? PPN pa then Panic else Ok (PPN pa - nbase).

Definition page2kva (p : Z) : res Z := KADDR (page2pa p).

Definition pte2page (pte : Z) : res Z := if valid pte then pa2page (PTE_ADDR pte) else Panic.
Definition pde2page (pde : Z) : res Z := pa2page (PTE_ADDR pde).

Definition alloc_page (m : pmem) : res (pmem * option Z) := '(a, p) ← alloc (area m) 1; Ok (with_area m a, p).
Definition free_page (m : pmem) (p : Z) : res pmem := a ← free (area m) p 1; Ok (with_area m a).

(** One level of the walk: the table behind entry [i] of the table [f], made if it is
    not there and [create] asks for it. *)
Definition next_table (m : pmem) (f i : Z) (create : bool) : res (pmem * option Z) :=
  pde ← word m f i;
  m ← (if valid pde then Ok (m, true)
       else if create then
         '(m, page) ← alloc_page m;
         match page with
         | None => Ok (m, false)
         | Some page =>
             m ← set_page_ref m page 1;
             k ← KADDR (page2pa page);
             m ← clear_frame m k;
             m ← set_word m f i (pte_create (page2ppn page) (Z.lor PTE_U PTE_V));
             Ok (m, true)
         end
       else Ok (m, false));
  let '(m, there) := m in
  if (there : bool) then
    pde ← word m f i;
    t ← KADDR (PTE_ADDR pde);
    Ok (m, Some t)
  else Ok (m, None).

(** The address of the entry for [la]: a frame and an index. *)
Definition get_pte (m : pmem) (pgdir la : Z) (create : bool) : res (pmem * option (Z * Z)) :=
  '(m, pd0) ← next_table m pgdir (PDX1 la) create;
  match pd0 with
  | None => Ok (m, None)
  | Some pd0 =>
      '(m, pt) ← next_table m pd0 (PDX0 la) create;
      match pt with
      | None => Ok (m, None)
      | Some pt => Ok (m, Some (pt, PTX la))
      end
  end.

(** The page, and the entry for [ptep_store]. *)
Definition get_page (m : pmem) (pgdir la : Z) : res (pmem * option (Z * Z) * option Z) :=
  '(m, ptep) ← get_pte m pgdir la false;
  match ptep with
  | Some (f, i) => pte ← word m f i; if valid pte then p ← pte2page pte; Ok (m, ptep, Some p) else Ok (m, ptep, None)
  | None => Ok (m, ptep, None)
  end.

Definition page_remove_pte (m : pmem) (f i : Z) : res pmem :=
  pte ← word m f i;
  if valid pte then
    page ← pte2page pte;
    '(m, n) ← page_ref_dec m page;
    m ← (if n =? 0 then free_page m page else Ok m);
    set_word m f i 0
  else Ok m.

Definition page_remove (m : pmem) (pgdir la : Z) : res pmem :=
  '(m, ptep) ← get_pte m pgdir la false;
  match ptep with Some (f, i) => page_remove_pte m f i | None => Ok m end.

(** 0, or [- E_NO_MEM]. *)
Definition page_insert (m : pmem) (pgdir page la perm : Z) : res (pmem * Z) :=
  '(m, ptep) ← get_pte m pgdir la true;
  match ptep with
  | None => Ok (m, - E_NO_MEM)
  | Some (f, i) =>
      '(m, _) ← page_ref_inc m page;
      pte ← word m f i;
      m ← (if valid pte then
             p ← pte2page pte;
             if p =? page then '(m, _) ← page_ref_dec m page; Ok m else page_remove_pte m f i
           else Ok m);
      m ← set_word m f i (pte_create (page2ppn page) (Z.lor PTE_V perm));
      Ok (m, 0)
  end.

Definition pgdir_alloc_page (m : pmem) (pgdir la perm : Z) : res (pmem * option Z) :=
  '(m, page) ← alloc_page m;
  match page with
  | None => Ok (m, None)
  | Some page =>
      '(m, r) ← page_insert m pgdir page la perm;
      if r =? 0 then
        pg ← deref (pages (area m)) page;
        _ ← c_assert (ref pg =? 1);
        Ok (m, Some page)
      else m ← free_page m page; Ok (m, None)
  end.

(** * Ranges *)
Definition range_ok (start end_ : Z) : res unit :=
  _ ← c_assert ((start mod PGSIZE =? 0) && (end_ mod PGSIZE =? 0)); c_assert (USER_ACCESS start end_).

(** [while (start != 0 && start < end)] *)
Definition more (start end_ : Z) : bool := negb (start =? 0) && (start <? end_).

Definition range_fuel (start end_ : Z) : nat := S (Z.to_nat ((end_ - start) / PGSIZE)).

Definition unmap_step (pgdir end_ : Z) (st : pmem * Z) : res (pmem * Z + pmem) :=
  let '(m, start) := st in
  '(m, ptep) ← get_pte m pgdir start false;
  '(m, start) ← match ptep with
                | None => Ok (m, u64 (ROUNDDOWN (u64 (start + PTSIZE)) PTSIZE))
                | Some (f, i) =>
                    pte ← word m f i;
                    m ← (if negb (pte =? 0) then page_remove_pte m f i else Ok m);
                    Ok (m, u64 (start + PGSIZE))
                end;
  if more start end_ then Ok (inl (m, start)) else Ok (inr m).

Definition unmap_range (m : pmem) (pgdir start end_ : Z) : res pmem :=
  _ ← range_ok start end_; loop (unmap_step pgdir end_) (range_fuel start end_) (m, start).

(** Is there a valid entry in the table [pt]? *)
Definition table_in_use (m : pmem) (pt : Z) : res bool := l ← deref (frames m) pt; Ok (existsb valid l).

Definition exit_step0 (pd0 d1start end_ : Z) (st : pmem * Z * bool) : res (pmem * Z * bool + pmem * Z * bool) :=
  let '(m, d0start, free_pd0) := st in
  pde0 ← word m pd0 (PDX0 d0start);
  '(m, free_pd0) ←
    (if valid pde0 then
       page ← pde2page pde0;
       pt ← page2kva page;
       used ← table_in_use m pt;
       if (used : bool) then Ok (m, free_pd0)
       else m ← free_page m page; m ← set_word m pd0 (PDX0 d0start) 0; Ok (m, free_pd0)
     else Ok (m, false));
  let d0start := u64 (d0start + PTSIZE) in
  if negb (d0start =? 0) && (d0start <? u64 (d1start + PDSIZE)) && (d0start <? end_) then Ok (inl (m, d0start, free_pd0))
  else Ok (inr (m, d0start, free_pd0)).

Definition exit_step1 (pgdir end_ : Z) (st : pmem * Z * Z) : res (pmem * Z * Z + pmem) :=
  let '(m, d1start, d0start) := st in
  pde1 ← word m pgdir (PDX1 d1start);
  '(m, d0start) ←
    (if valid pde1 then
       page ← pde2page pde1;
       pd0 ← page2kva page;
       '(m, d0start, free_pd0) ← loop (exit_step0 pd0 d1start end_) (S (Z.to_nat NPTEENTRY)) (m, d0start, true);
       if (free_pd0 : bool) then m ← free_page m page; m ← set_word m pgdir (PDX1 d1start) 0; Ok (m, d0start)
       else Ok (m, d0start)
     else Ok (m, d0start));
  let d1start := u64 (d1start + PDSIZE) in
  if more d1start end_ then Ok (inl (m, d1start, d1start)) else Ok (inr m).

Definition exit_range (m : pmem) (pgdir start end_ : Z) : res pmem :=
  _ ← range_ok start end_;
  loop (exit_step1 pgdir end_) (S (Z.to_nat ((end_ - start) / PDSIZE) + 1)) (m, ROUNDDOWN start PDSIZE, ROUNDDOWN start PTSIZE).

Definition copy_step (to from end_ : Z) (st : pmem * Z) : res (pmem * Z + pmem * Z) :=
  let '(m, start) := st in
  '(m, ptep) ← get_pte m from start false;
  match ptep with
  | None =>
      let start := u64 (ROUNDDOWN (u64 (start + PTSIZE)) PTSIZE) in
      if more start end_ then Ok (inl (m, start)) else Ok (inr (m, 0))
  | Some (f, i) =>
      pte ← word m f i;
      '(m, r) ←
        (if valid pte then
           '(m, nptep) ← get_pte m to start true;
           match nptep with
           | None => Ok (m, - E_NO_MEM)
           | Some _ =>
               let perm := Z.land pte PTE_USER in
               page ← pte2page pte;
               '(m, npage') ← alloc_page m;
               match npage' with
               | None => Panic
               | Some np =>
                   src ← page2kva page;
                   dst ← page2kva np;
                   m ← copy_frame m dst src;
                   '(m, ret) ← page_insert m to np start perm;
                   _ ← c_assert (ret =? 0);
                   Ok (m, 0)
               end
           end
         else Ok (m, 0));
      if r =? 0 then
        let start := u64 (start + PGSIZE) in
        if more start end_ then Ok (inl (m, start)) else Ok (inr (m, 0))
      else Ok (inr (m, r))
  end.

Definition copy_range (m : pmem) (to from start end_ : Z) : res (pmem * Z) :=
  _ ← range_ok start end_; loop (copy_step to from end_) (range_fuel start end_) (m, start).

(** [assert(ptep != NULL)] *)
Fixpoint boot_map (m : pmem) (pgdir la pa perm : Z) (n : nat) : res pmem :=
  match n with
  | O => Ok m
  | S n' =>
      '(m, ptep) ← get_pte m pgdir la true;
      match ptep with
      | None => Panic
      | Some (f, i) =>
          m ← set_word m f i (pte_create (Z.shiftr pa 12) (Z.lor PTE_V perm));
          boot_map m pgdir (u64 (la + PGSIZE)) (u64 (pa + PGSIZE)) perm n'
      end
  end.

Definition boot_map_segment (m : pmem) (pgdir la size pa perm : Z) : res pmem :=
  _ ← c_assert (PGOFF la =? PGOFF pa);
  let n := ROUNDUP (u64 (size + PGOFF la)) PGSIZE / PGSIZE in
  boot_map m pgdir (ROUNDDOWN la PGSIZE) (ROUNDDOWN pa PGSIZE) perm (Z.to_nat n).
End PageTables.

(** * Entries *)
Lemma bits_small t k n : 0 <= t < 2 ^ k -> k <= n -> 0 <= k -> Z.testbit t n = false.
Proof.
  intros Ht Hn Hk. destruct (decide (t = 0)) as [->|Hne]; [apply Z.bits_0|]. apply Z.bits_above_log2; [lia|].
  apply Z.lt_le_trans with k; [|done]. apply Z.log2_lt_pow2; lia.
Qed.

Lemma valid_create ppn t : valid (pte_create ppn t) = true.
Proof.
  unfold valid, pte_create, PTE_V. apply negb_true_iff, Z.eqb_neq. intros E. apply (f_equal (fun z => Z.testbit z 0)) in E.
  rewrite Z.land_spec, !Z.lor_spec, Z.bits_0 in E. change (Z.testbit 1 0) with true in E. by rewrite orb_true_r in E.
Qed.

Lemma PTE_ADDR_create ppn t : 0 <= ppn < 2 ^ 44 -> 0 <= t < 2 ^ 10 -> PTE_ADDR (pte_create ppn t) = Z.shiftl ppn 12.
Proof.
  intros Hp Ht. unfold PTE_ADDR, pte_create, PTE_V. rewrite (u64_small (Z.shiftl ppn 10)) by (rewrite Z.shiftl_mul_pow2 by lia; lia).
  assert (Z.land (Z.lor (Z.lor (Z.shiftl ppn 10) 1) t) (Z.lnot 0x3FF) = Z.shiftl ppn 10) as ->.
  { apply Z.bits_inj'. intros n Hn. rewrite Z.land_spec, !Z.lor_spec, Z.lnot_spec by done. change 0x3FF with (Z.ones 10).
    destruct (Z.lt_ge_cases n 10) as [Hlt|Hge].
    - rewrite Z.ones_spec_low by lia. cbn [negb]. rewrite andb_false_r, Z.shiftl_spec by done. symmetry. apply Z.testbit_neg_r. lia.
    - rewrite Z.ones_spec_high by lia. rewrite (bits_small t 10) by lia. rewrite (bits_small 1 10) by lia. by rewrite !orb_false_r, andb_true_r. }
  rewrite Z.shiftl_shiftl by lia. apply u64_small. rewrite Z.shiftl_mul_pow2 by lia. change (10 + 2) with 12. lia.
Qed.

Lemma PPN_shift ppn : 0 <= ppn -> PPN (Z.shiftl ppn 12) = ppn.
Proof. intros. unfold PPN. rewrite Z.shiftr_shiftl_l by lia. apply Z.shiftl_0_r. Qed.

(** The page a valid entry leads to. *)
Definition target (pte : Z) : Z := PPN (PTE_ADDR pte) - nbase.

Lemma target_create p t : 0 <= p < 2 ^ 40 -> 0 <= t < 2 ^ 10 -> target (pte_create (page2ppn p) t) = p.
Proof.
  intros Hp Ht. assert (nbase = 2 ^ 19) as Hb by reflexivity. unfold target, page2ppn. rewrite PTE_ADDR_create by lia. rewrite PPN_shift by lia. lia.
Qed.

Lemma index_range la : 0 <= PDX1 la < 512 /\ 0 <= PDX0 la < 512 /\ 0 <= PTX la < 512.
Proof.
  unfold PDX1, PDX0, PTX. change 0x1FF with (Z.ones 9). rewrite !Z.land_ones by lia. change 512 with (2 ^ 9). split_and!; apply Z.mod_pos_bound; lia.
Qed.

(** The page number of an Sv39 address is the triple of its indices. *)
Definition vpn (la : Z) : Z := PPN la mod 2 ^ 27.

Lemma index_vpn la la' : PDX1 la = PDX1 la' /\ PDX0 la = PDX0 la' /\ PTX la = PTX la' <-> vpn la = vpn la'.
Proof.
  unfold PDX1, PDX0, PTX, vpn, PPN. change 0x1FF with (Z.ones 9). rewrite !Z.land_ones by lia.
  rewrite !(Z.shiftr_div_pow2 _ 30), !(Z.shiftr_div_pow2 _ 21), !(Z.shiftr_div_pow2 _ 12) by lia.
  assert (H : forall z, (z / 2 ^ 12) mod 2 ^ 27 = (z / 2 ^ 30) mod 2 ^ 9 * 2 ^ 18 + (z / 2 ^ 21) mod 2 ^ 9 * 2 ^ 9 + (z / 2 ^ 12) mod 2 ^ 9).
  { intros z. change (2 ^ 30) with (2 ^ 12 * 2 ^ 18). change (2 ^ 21) with (2 ^ 12 * 2 ^ 9). rewrite <- !Z.div_div by lia. set (y := z / 2 ^ 12).
    change (2 ^ 18) with (2 ^ 9 * 2 ^ 9) at 1. rewrite <- Z.div_div by lia. change (2 ^ 27) with (2 ^ 9 * (2 ^ 9 * 2 ^ 9)). rewrite Z.rem_mul_r by lia. rewrite (Z.rem_mul_r (y / 2 ^ 9)) by lia. lia. }
  rewrite !H. pose proof (fun z k => Z.mod_pos_bound (z / k) (2 ^ 9) ltac:(lia)) as Hb.
  pose proof (Hb la (2 ^ 30)). pose proof (Hb la (2 ^ 21)). pose proof (Hb la (2 ^ 12)). pose proof (Hb la' (2 ^ 30)). pose proof (Hb la' (2 ^ 21)). pose proof (Hb la' (2 ^ 12)).
  change (2 ^ 9) with 512 in *. change (2 ^ 18) with 262144 in *. split; [intros (-> & -> & ->); lia|]. intros. split_and!; lia.
Qed.

(** * Words of frames *)

(** The word at [i] of frame [f], for an index inside the frame. *)
Definition entry (m : pmem) (f i : Z) : option Z := if decide (0 <= i < 512) then frames m !! f ≫= (fun l => l !! Z.to_nat i) else None.

Definition frame_ok (m : pmem) (f : Z) : Prop := exists l, frames m !! f = Some l /\ length l = 512%nat.

Lemma word_run m f i : frame_ok m f -> 0 <= i < 512 -> exists w, word m f i = Ok w /\ entry m f i = Some w.
Proof.
  intros (l & Hl & Hlen) Hi. destruct (lookup_lt_is_Some_2 l (Z.to_nat i)) as [w Hw]; [lia|]. exists w. unfold word, entry.
  rewrite (deref_some _ _ _ Hl), decide_True by done. cbn. by rewrite Hl, Hw.
Qed.

Lemma set_word_run m f i v :
  frame_ok m f -> 0 <= i < 512 ->
  exists m', set_word m f i v = Ok m' /\ area m' = area m /\ (forall g, frame_ok m g -> frame_ok m' g) /\
    (forall g, g <> f -> frames m' !! g = frames m !! g) /\
    forall g j, entry m' g j = if decide (g = f /\ j = i) then Some v else entry m g j.
Proof.
  intros (l & Hl & Hlen) Hi. unfold set_word. rewrite (deref_some _ _ _ Hl). cbn [mbind res_bind]. rewrite decide_True by lia.
  eexists. split; [reflexivity|]. split; [done|]. split; [|split].
  - intros g (lg & Hg & Hlg). unfold frame_ok. cbn. destruct (decide (g = f)) as [->|Hne].
    + rewrite lookup_insert_eq. eexists. split; [reflexivity|]. by rewrite length_insert.
    + rewrite lookup_insert_ne by done. by exists lg.
  - intros g Hg. cbn. by rewrite lookup_insert_ne.
  - intros g j. unfold entry. cbn. destruct (decide (g = f)) as [->|Hne].
    + rewrite lookup_insert_eq, Hl. cbn. destruct (decide (0 <= j < 512)) as [Hj|Hj]; [|rewrite decide_False by lia; done].
      destruct (decide (j = i)) as [->|Hji]; [rewrite decide_True by done; apply list_lookup_insert_eq; lia|].
      rewrite decide_False by tauto. apply list_lookup_insert_ne. lia.
    + rewrite lookup_insert_ne by done. rewrite (decide_False (P := g = f /\ j = i)); [done|tauto].
Qed.

Lemma clear_frame_run m f :
  frame_ok m f ->
  exists m', clear_frame m f = Ok m' /\ area m' = area m /\ (forall g, frame_ok m g -> frame_ok m' g) /\
    (forall g, g <> f -> frames m' !! g = frames m !! g) /\
    forall j, entry m' f j = if decide (0 <= j < 512) then Some 0 else None.
Proof.
  intros (l & Hl & Hlen). unfold clear_frame. rewrite (deref_some _ _ _ Hl). cbn [mbind res_bind]. eexists. split; [reflexivity|]. split; [done|].
  split; [|split].
  - intros g (lg & Hg & Hlg). unfold frame_ok. cbn. destruct (decide (g = f)) as [->|Hne]; [rewrite lookup_insert_eq; by eexists|].
    rewrite lookup_insert_ne by done. by exists lg.
  - intros g Hg. cbn. by rewrite lookup_insert_ne.
  - intros j. unfold entry. cbn. destruct (decide (0 <= j < 512)); [|done]. rewrite lookup_insert_eq. cbn -[replicate]. apply lookup_replicate_2. unfold NPTEENTRY. lia.
Qed.

Lemma entry_frames m m' f i : frames m' !! f = frames m !! f -> entry m' f i = entry m f i.
Proof. intros E. unfold entry. by rewrite E. Qed.

(** * The tree of tables *)
Definition child (m : pmem) (f i : Z) : option Z :=
  match entry m f i with Some e => if valid e then Some (target e) else None | None => None end.

(** The root entries of user addresses, below [USERTOP].  The others belong to the
    kernel; every process gets them with its copy of [boot_pgdir_va]. *)
Definition NUDX : Z := USERTOP / PDSIZE.

(** The tables of the second and third level. *)
Definition dir0 (m : pmem) (root i : Z) : option Z := if decide (0 <= i < NUDX) then child m root i else None.
Definition table (m : pmem) (root i j : Z) : option Z := dir0 m root i ≫= fun f => child m f j.

(** What the page table [root] says of the page of the user address [la]: the entry, 0 if there is none. *)
Definition vm_pte (m : pmem) (root la : Z) : Z :=
  match table m root (PDX1 la) (PDX0 la) with Some t => default 0 (entry m t (PTX la)) | None => 0 end.

(** The kernel's part of the address space. *)
Definition kernel_same (m m' : pmem) (root : Z) : Prop := forall j, NUDX <= j -> entry m' root j = entry m root j.

Inductive is_table (m : pmem) (root : Z) : Z -> Prop :=
| is_root : is_table m root root
| is_dir0 i f : dir0 m root i = Some f -> is_table m root f
| is_leaf i j f : table m root i j = Some f -> is_table m root f.

Section Proofs.
Context `{PageAllocator alloc free} (npg : Z) (Hnpg : npg + 1 < 2 ^ 32).
Abbreviation npage := (npg + nbase).

(** A page table is a tree: every table hangs in one place. *)
Record pt_ok (m : pmem) (root : Z) : Prop := PtOk {
  po_range f : is_table m root f -> 0 <= f < npg;
  po_root i : dir0 m root i <> Some root;
  po_dir0 i i' f : dir0 m root i = Some f -> dir0 m root i' = Some f -> i = i';
  po_level i j f : table m root i j = Some f -> f <> root /\ forall i', dir0 m root i' <> Some f;
  po_leaf i j i' j' f : table m root i j = Some f -> table m root i' j' = Some f -> i = i' /\ j = j'
}.

(** The memory, and the frames in use by a page table. *)
Definition mem_ok (m : pmem) (bl : list block) : Prop := fl_inv npg 0 (area m) bl /\ forall f, 0 <= f < npg -> frame_ok m f.

Definition owned (m : pmem) (bl : list block) (f : Z) : Prop := in_use (area m) bl f 1.

Definition owns (m : pmem) (bl : list block) (root : Z) : Prop := forall f, is_table m root f -> owned m bl f.

Lemma owned_pages m bl f : owned m bl f -> exists p, pages (area m) !! f = Some p.
Proof. intros Ho. destruct (Ho f ltac:(lia)) as [(p & Hp & _) _]. eauto. Qed.

Lemma KADDR_target pte : 0 <= target pte < npg -> KADDR npage (PTE_ADDR pte) = Ok (target pte).
Proof. unfold KADDR, target. intros. by rewrite (proj2 (Z.leb_gt _ _)) by lia. Qed.

Lemma page2pa_PPN p : 0 <= p -> PPN (page2pa p) = p + nbase.
Proof. intros. unfold page2pa, page2ppn. assert (0 < nbase) by done. by rewrite PPN_shift by lia. Qed.

Lemma page2kva_run p : 0 <= p < npg -> page2kva npage p = Ok p.
Proof. intros. unfold page2kva, KADDR. rewrite page2pa_PPN by lia. rewrite (proj2 (Z.leb_gt _ _)) by lia. f_equal. lia. Qed.

(** Descriptors may change their reference counts. *)
Lemma set_ref_inv s bl p pg v :
  fl_inv npg 0 s bl -> pages s !! p = Some pg -> fl_inv npg 0 (FreeArea (<[p := set_ref v pg]> (pages s)) (links s) (nr_free s)) bl.
Proof.
  intros [H1 H2 H3 H4 H5 H6 H7 H8 H9] Hp. split; cbn; try done.
  - intros i. rewrite lookup_insert_is_Some', <- H2. split; [intros [<-|?]; [by exists pg|done]|by right].
  - intros i q. destruct (decide (i = p)) as [->|Hne]; [|rewrite lookup_insert_ne by done; apply H7].
    rewrite lookup_insert_eq. intros [= <-]. exact (H7 p pg Hp).
  - intros i Hi. apply page_free_ok_insert; [by apply H8|]. intros ->. destruct (H8 p Hi) as (q & Hq & Hr). rewrite Hp in Hq. by injection Hq as <-.
Qed.

Lemma set_ref_in_use s bl p pg v c k :
  pages s !! p = Some pg -> in_use s bl c k -> in_use (FreeArea (<[p := set_ref v pg]> (pages s)) (links s) (nr_free s)) bl c k.
Proof.
  intros Hp Hu i Hi. destruct (Hu i Hi) as [Hf Hc]. split; [|done]. cbn. apply page_free_ok_insert; [done|]. intros ->.
  destruct Hf as (q & Hq & Hr). rewrite Hp in Hq. by injection Hq as <-.
Qed.

Lemma upd_ref_run m bl p v :
  mem_ok m bl -> 0 <= p < npg ->
  exists m' pg, upd_pmem_page m p (set_ref v) = Ok m' /\ pages (area m) !! p = Some pg /\ pages (area m') = <[p := set_ref v pg]> (pages (area m)) /\
    frames m' = frames m /\ mem_ok m' bl /\ forall c k, in_use (area m) bl c k -> in_use (area m') bl c k.
Proof.
  intros [Hinv Hfr] Hp. apply (fl_pages _ _ _ _ Hinv) in Hp as [pg Hpg]. unfold upd_pmem_page. rewrite (upd_page_ok _ _ _ _ Hpg). cbn [mbind res_bind].
  eexists _, pg. split; [reflexivity|]. split; [done|]. split; [done|]. split; [done|]. split; [split; [by apply set_ref_inv|done]|].
  intros c k. by apply set_ref_in_use.
Qed.

Lemma alloc_page_refs m m' r g : alloc_page alloc m = Ok (m', r) -> refs (area m') g = refs (area m) g.
Proof.
  unfold alloc_page. destruct (alloc (area m) 1) as [[a q]| | |] eqn:E; cbn [mbind res_bind]; try done. intros [= <- _]. exact (pa_alloc_refs _ _ _ _ g E).
Qed.

(** A page from the allocator: a frame that nobody uses. *)
Lemma alloc_page_run m bl :
  mem_ok m bl ->
  (exists m', alloc_page alloc m = Ok (m', None) /\ m' = m /\ total bl = 0) \/
  (exists m' p bl', alloc_page alloc m = Ok (m', Some p) /\ total bl' = total bl - 1 /\ mem_ok m' bl' /\ frames m' = frames m /\ 0 <= p < npg /\ owned m' bl' p /\
     forall f, owned m bl f -> owned m' bl' f /\ f <> p).
Proof.
  intros [Hinv Hfr]. destruct (pa_alloc npg (area m) bl 1 Hinv Hnpg ltac:(lia)) as (a & r & Hrun & Hr). unfold alloc_page. rewrite Hrun. cbn [mbind res_bind].
  destruct r as [p|].
  - right. destruct Hr as (bl' & Hinv' & Hu & Htot & _ & Hk). eexists _, p, bl'. split; [reflexivity|]. split; [done|]. split; [by split|]. split; [done|].
    destruct (Hu p ltac:(lia)) as [(q & Hq & _) _]. split; [apply (fl_pages _ _ _ _ Hinv'); by exists q|]. split; [done|].
    intros f Hf. destruct (Hk f 1 Hf) as [Hf' Hne]. split; [done|]. intros ->. apply (Hne p); lia.
  - left. destruct Hr as [-> Hr]. eexists. split; [reflexivity|]. split; [by destruct m|]. destruct bl as [|[b k] bl]; [done|].
    apply Forall_cons in Hr as [Hr _]. destruct (fl_ordered _ _ _ _ Hinv) as (_ & ? & _). cbn in Hr. lia.
Qed.
(** * Walking *)
Lemma next_table_there m f i create t :
  frame_ok m f -> 0 <= i < 512 -> child m f i = Some t -> 0 <= t < npg -> next_table alloc npage m f i create = Ok (m, Some t).
Proof.
  intros Hf Hi Hc Ht. destruct (word_run m f i Hf Hi) as (e & Hw & He). unfold child in Hc. rewrite He in Hc.
  destruct (valid e) eqn:Hv; [|done]. injection Hc as <-. unfold next_table. rewrite Hw. cbn [mbind res_bind]. rewrite Hv. cbn [mbind res_bind].
  rewrite Hw. cbn [mbind res_bind]. by rewrite KADDR_target.
Qed.

Lemma next_table_absent m f i :
  frame_ok m f -> 0 <= i < 512 -> child m f i = None -> next_table alloc npage m f i false = Ok (m, None).
Proof.
  intros Hf Hi Hc. destruct (word_run m f i Hf Hi) as (e & Hw & He). unfold child in Hc. rewrite He in Hc.
  destruct (valid e) eqn:Hv; [done|]. unfold next_table. rewrite Hw. cbn [mbind res_bind]. by rewrite Hv.
Qed.

(** A new table: a frame of zeros behind entry [i] of [f]. *)
Definition linked (m m' : pmem) (f i p : Z) : Prop :=
  child m' f i = Some p /\ (forall j, entry m' p j = if decide (0 <= j < 512) then Some 0 else None) /\
  (forall g j, g <> p -> ~ (g = f /\ j = i) -> entry m' g j = entry m g j) /\
  forall g, g <> p -> refs (area m') g = refs (area m) g.

Lemma next_table_new m bl f i :
  mem_ok m bl -> 0 <= f < npg -> owned m bl f -> 0 <= i < 512 -> child m f i = None ->
  (next_table alloc npage m f i true = Ok (m, None) /\ total bl = 0) \/
  exists m' p bl', next_table alloc npage m f i true = Ok (m', Some p) /\ total bl' = total bl - 1 /\ mem_ok m' bl' /\ 0 <= p < npg /\ owned m' bl' p /\
    (forall g, owned m bl g -> owned m' bl' g /\ g <> p) /\ linked m m' f i p.
Proof.
  intros Hm Hf Hown Hi Hc. destruct (word_run m f i) as (e & Hw & He); [by apply Hm|done|]. pose proof Hc as Hc'. unfold child in Hc'. rewrite He in Hc'.
  destruct (valid e) eqn:Hv; [done|]. unfold next_table. rewrite Hw. cbn [mbind res_bind]. rewrite Hv.
  destruct (alloc_page_run m bl Hm) as [(m1 & -> & -> & Hz)|(m1 & p & bl1 & E1 & Htot & Hm1 & Hfr1 & Hp & Hownp & Hown1)]; [by left|right]. rewrite E1. cbn [mbind res_bind].
  destruct (Hown1 f Hown) as [_ Hfp].
  destruct (upd_ref_run m1 bl1 p 1 Hm1 Hp) as (m2 & pg & E2 & _ & Hpg2 & Hfr2 & Hm2 & Hu2). unfold set_page_ref. rewrite E2. cbn [mbind res_bind].
  fold (page2kva npage p). rewrite (page2kva_run p Hp). cbn [mbind res_bind].
  destruct (clear_frame_run m2 p) as (m3 & E3 & Ha3 & Hok3 & Hfr3 & Hz3); [by apply Hm2|]. rewrite E3. cbn [mbind res_bind].
  destruct (set_word_run m3 f i (pte_create (page2ppn p) (Z.lor PTE_U PTE_V))) as (m4 & E4 & Ha4 & Hok4 & _ & He4); [by apply Hok3, Hm2|done|]. rewrite E4. cbn [mbind res_bind].
  assert (Hm4 : mem_ok m4 bl1) by (split; [rewrite Ha4, Ha3; apply Hm2|intros g Hg; by apply Hok4, Hok3, Hm2]).
  assert (Hlink : linked m m4 f i p).
  { assert (Hch : child m4 f i = Some p).
    { unfold child. rewrite He4, decide_True by done. rewrite valid_create, target_create; [done|lia|vm_compute; split; [discriminate|done]]. }
    split; [done|]. split; [|split].
    - intros j. rewrite He4, decide_False by (intros [E _]; congruence). apply Hz3.
    - intros g j Hg Hn. rewrite He4, decide_False by done. rewrite (entry_frames m2) by (by apply Hfr3). apply entry_frames. by rewrite Hfr2, Hfr1.
    - intros g Hg. rewrite Ha4, Ha3. unfold refs. rewrite Hpg2, lookup_insert_ne by done. exact (alloc_page_refs _ _ _ g E1). }
  exists m4, p, bl1. split; [|split; [done|split; [done|split; [done|split; [|split; [|done]]]]]].
  - destruct (word_run m4 f i) as (e4 & Hw4 & Hee4); [by apply Hm4|done|]. rewrite Hw4. cbn [mbind res_bind]. destruct Hlink as [Hch _]. unfold child in Hch. rewrite Hee4 in Hch.
    destruct (valid e4); [|done]. injection Hch as Ht. rewrite KADDR_target by (rewrite Ht; done). by rewrite Ht.
  - unfold owned. rewrite Ha4, Ha3. by apply Hu2.
  - intros g Hg. destruct (Hown1 g Hg). split; [|done]. unfold owned. rewrite Ha4, Ha3. by apply Hu2.
Qed.

Lemma child_entry m m' f i : entry m' f i = entry m f i -> child m' f i = child m f i.
Proof. unfold child. by intros ->. Qed.

Lemma dir0_entry m m' root i : entry m' root i = entry m root i -> dir0 m' root i = dir0 m root i.
Proof. intros E. unfold dir0. by rewrite (child_entry _ _ _ _ E). Qed.

Lemma dir0_child m root i d : dir0 m root i = Some d -> child m root i = Some d /\ 0 <= i < NUDX.
Proof. unfold dir0. destruct (decide (0 <= i < NUDX)); [done|discriminate]. Qed.

Lemma dir0_user m root la : PDX1 la < NUDX -> dir0 m root (PDX1 la) = child m root (PDX1 la).
Proof. intros. unfold dir0. destruct (index_range la) as (? & _). by rewrite decide_True by lia. Qed.

Lemma user_index la : 0 <= la < USERTOP -> PDX1 la < NUDX.
Proof.
  intros Hla. unfold PDX1. change 0x1FF with (Z.ones 9). rewrite Z.land_ones, Z.shiftr_div_pow2 by lia. change NUDX with 2. change USERTOP with (2 * 2 ^ 30) in Hla.
  assert (0 <= la / 2 ^ 30 < 2) by (split; [apply Z.div_pos; lia|apply Z.div_lt_upper_bound; lia]). rewrite Z.mod_small; lia.
Qed.

(** The tree with a new second-level table. *)
Lemma linked_dir0 m m' root i0 p :
  pt_ok m root -> 0 <= i0 < NUDX -> dir0 m root i0 = None -> linked m m' root i0 p -> 0 <= p < npg -> ~ is_table m root p ->
  pt_ok m' root /\ (forall f, is_table m' root f -> f = p \/ is_table m root f) /\
  dir0 m' root i0 = Some p /\ (forall la, vm_pte m' root la = vm_pte m root la) /\ kernel_same m m' root.
Proof.
  intros [Hr Hrt Hd Hl Hlf] Hi0 Hn (Hch & Hz & He) Hp Hnt.
  assert (Hproot : p <> root) by (intros ->; apply Hnt; constructor).
  assert (Hd' : forall i, dir0 m' root i = if decide (i = i0) then Some p else dir0 m root i).
  { intros i. destruct (decide (i = i0)) as [->|Hne]; [unfold dir0; by rewrite decide_True|]. apply dir0_entry, He; [done|]. tauto. }
  assert (Hpz : forall j, child m' p j = None).
  { intros j. unfold child. rewrite Hz. destruct (decide (0 <= j < 512)); [|done]. done. }
  assert (Ht' : forall i j, table m' root i j = table m root i j).
  { intros i j. unfold table. rewrite Hd'. destruct (decide (i = i0)) as [->|Hne]; [rewrite Hn; cbn; apply Hpz|].
    destruct (dir0 m root i) as [f|] eqn:Ef; [|done]. cbn. apply child_entry, He.
    - intros ->. apply Hnt. by eapply is_dir0.
    - intros [-> _]. by apply (Hrt i). }
  assert (His : forall f, is_table m' root f -> f = p \/ is_table m root f).
  { intros f [|i g Hg|i j g Hg]; [right; constructor| |right; rewrite Ht' in Hg; by eapply is_leaf].
    rewrite Hd' in Hg. destruct (decide (i = i0)); [left; congruence|right; by eapply is_dir0]. }
  split; [split|split; [done|split; [rewrite Hd'; by rewrite decide_True|split]]].
  - intros f [->|Hf]%His; [done|by apply Hr].
  - intros i. rewrite Hd'. destruct (decide (i = i0)); [congruence|apply Hrt].
  - intros i i' f. rewrite !Hd'. destruct (decide (i = i0)) as [->|], (decide (i' = i0)) as [->|]; [done| | |apply Hd].
    + intros [= <-] Hf. destruct Hnt. by eapply is_dir0.
    + intros Hf [= <-]. destruct Hnt. by eapply is_dir0.
  - intros i j f. rewrite Ht'. intros Hf. destruct (Hl i j f Hf) as [H1 H2]. split; [done|]. intros i'. rewrite Hd'.
    destruct (decide (i' = i0)); [|apply H2]. intros [= <-]. apply Hnt. by eapply is_leaf.
  - intros i j i' j' f. rewrite !Ht'. apply Hlf.
  - intros la. unfold vm_pte. rewrite Ht'. destruct (table m root (PDX1 la) (PDX0 la)) as [t|] eqn:Et; [|done]. f_equal. apply He.
    + intros ->. apply Hnt. by eapply is_leaf.
    + intros [-> _]. by destruct (Hl _ _ _ Et).
  - intros j Hj. apply He; [done|lia].
Qed.

(** The tree with a new third-level table. *)
Lemma linked_leaf m m' root i0 d j0 p :
  pt_ok m root -> dir0 m root i0 = Some d -> table m root i0 j0 = None -> linked m m' d j0 p -> 0 <= p < npg -> ~ is_table m root p ->
  pt_ok m' root /\ (forall f, is_table m' root f -> f = p \/ is_table m root f) /\
  table m' root i0 j0 = Some p /\ (forall la, vm_pte m' root la = vm_pte m root la) /\ kernel_same m m' root.
Proof.
  intros [Hr Hrt Hd Hl Hlf] Hd0 Hn (Hch & Hz & He) Hp Hnt.
  assert (Hproot : p <> root) by (intros ->; apply Hnt; constructor).
  assert (Hdroot : root <> d) by (intros <-; by apply (Hrt i0)).
  assert (Hd' : forall i, dir0 m' root i = dir0 m root i) by (intros i; apply dir0_entry, He; [done|tauto]).
  assert (Ht' : forall i j, table m' root i j = if decide (i = i0 /\ j = j0) then Some p else table m root i j).
  { intros i j. unfold table. rewrite Hd'. destruct (decide (i = i0 /\ j = j0)) as [[-> ->]|Hne]; [by rewrite Hd0|].
    destruct (dir0 m root i) as [f|] eqn:Ef; [|done]. cbn. apply child_entry, He.
    - intros ->. apply Hnt. by eapply is_dir0.
    - intros [-> ->]. apply Hne. split; [|done]. by eapply Hd. }
  assert (His : forall f, is_table m' root f -> f = p \/ is_table m root f).
  { intros f [|i g Hg|i j g Hg]; [right; constructor|right; rewrite Hd' in Hg; by eapply is_dir0|].
    rewrite Ht' in Hg. destruct (decide (i = i0 /\ j = j0)); [left; congruence|right; by eapply is_leaf]. }
  split; [split|split; [done|split; [rewrite Ht'; by rewrite decide_True|split]]].
  - intros f [->|Hf]%His; [done|by apply Hr].
  - intros i. rewrite Hd'. apply Hrt.
  - intros i i' f. rewrite !Hd'. apply Hd.
  - intros i j f. rewrite Ht'. destruct (decide (i = i0 /\ j = j0)).
    + intros [= <-]. split; [done|]. intros i'. rewrite Hd'. intros Hf. apply Hnt. by eapply is_dir0.
    + intros Hf. destruct (Hl i j f Hf) as [H1 H2]. split; [done|]. intros i'. by rewrite Hd'.
  - intros i j i' j' f. rewrite !Ht'. destruct (decide (i = i0 /\ j = j0)) as [[-> ->]|], (decide (i' = i0 /\ j' = j0)) as [[-> ->]|]; [done| | |apply Hlf].
    + intros [= <-] Hf. destruct Hnt. by eapply is_leaf.
    + intros Hf [= <-]. destruct Hnt. by eapply is_leaf.
  - intros la. unfold vm_pte. rewrite Ht'. destruct (decide (PDX1 la = i0 /\ PDX0 la = j0)) as [[-> ->]|Hne].
    + rewrite Hn, Hz. destruct (index_range la) as (_ & _ & ?). by rewrite decide_True.
    + destruct (table m root (PDX1 la) (PDX0 la)) as [t|] eqn:Et; [|done]. f_equal. apply He.
      * intros ->. apply Hnt. by eapply is_leaf.
      * intros [-> _]. destruct (Hl _ _ _ Et) as [_ Hnd]. by apply (Hnd i0).
  - intros j Hj. apply He; [done|tauto].
Qed.
(** Without [create] the walk is a look-up. *)
Lemma get_pte_look m root la :
  (forall f, 0 <= f < npg -> frame_ok m f) -> pt_ok m root -> PDX1 la < NUDX ->
  get_pte alloc npage m root la false = Ok (m, (fun t => (t, PTX la)) <$> table m root (PDX1 la) (PDX0 la)).
Proof.
  intros Hm Ht Hu. destruct (index_range la) as (H1 & H0 & _). pose proof (po_range _ _ Ht root ltac:(constructor)) as Hroot. unfold get_pte, table.
  destruct (dir0 m root (PDX1 la)) as [d|] eqn:Ed; pose proof Ed as Ec; rewrite dir0_user in Ec by done.
  - pose proof (po_range _ _ Ht d ltac:(by eapply is_dir0)) as Hd. rewrite (next_table_there m root (PDX1 la) false d) by auto. cbn [mbind res_bind option_bind].
    destruct (child m d (PDX0 la)) as [t|] eqn:Et.
    + assert (table m root (PDX1 la) (PDX0 la) = Some t) as Htab by (unfold table; by rewrite Ed).
      pose proof (po_range _ _ Ht t ltac:(by eapply is_leaf)). by rewrite (next_table_there m d (PDX0 la) false t) by auto.
    + by rewrite (next_table_absent m d (PDX0 la)) by auto.
  - by rewrite (next_table_absent m root (PDX1 la)) by auto.
Qed.

(** What a walk that makes tables keeps: all of memory but the new tables. *)
Record grown (m : pmem) (bl : list block) (root : Z) (m' : pmem) (bl' : list block) : Prop := Grown {
  gr_mem : mem_ok m' bl';
  gr_tree : pt_ok m' root;
  gr_own : owns m' bl' root;
  gr_pte la : vm_pte m' root la = vm_pte m root la;
  gr_kernel : kernel_same m m' root;
  gr_owned f : owned m bl f -> owned m' bl' f /\ (~ is_table m root f -> ~ is_table m' root f /\ frames m' !! f = frames m !! f);
  gr_refs f : owned m bl f -> refs (area m') f = refs (area m) f
}.

Lemma grown_refl m bl root : mem_ok m bl -> pt_ok m root -> owns m bl root -> grown m bl root m bl.
Proof. by split. Qed.

Lemma grown_trans m bl root m1 bl1 m2 bl2 : grown m bl root m1 bl1 -> grown m1 bl1 root m2 bl2 -> grown m bl root m2 bl2.
Proof.
  intros [H1 H2 H3 H4 H5 H6 H7] [G1 G2 G3 G4 G5 G6 G7]. split; [done|done|done|intros la; by rewrite G4|intros j Hj; by rewrite G5, H5| |intros f Hf; rewrite G7; [by apply H7|by apply H6]].
  intros f Hf. destruct (H6 f Hf) as [Hf1 Hk1]. destruct (G6 f Hf1) as [Hf2 Hk2]. split; [done|]. intros Hn. destruct (Hk1 Hn) as [Hn1 E1]. destruct (Hk2 Hn1). split; [done|congruence].
Qed.

Lemma linked_frames m m' f i p g : linked m m' f i p -> frame_ok m g -> frame_ok m' g -> g <> p -> g <> f -> frames m' !! g = frames m !! g.
Proof.
  intros (_ & _ & He & _) (l & Hl & Hlen) (l' & Hl' & Hlen') Hp Hf. rewrite Hl, Hl'. f_equal. apply list_eq. intros k.
  destruct (decide (k < 512)%nat) as [Hk|Hk]; [|rewrite !lookup_ge_None_2 by lia; done].
  specialize (He g (Z.of_nat k) Hp ltac:(tauto)). unfold entry in He. rewrite !decide_True, Hl, Hl', Nat2Z.id in He by lia. exact He.
Qed.

Lemma linked_grown m bl m' bl' root f i p :
  owns m bl root -> mem_ok m bl -> mem_ok m' bl' -> owned m' bl' p -> (forall g, owned m bl g -> owned m' bl' g /\ g <> p) -> linked m m' f i p -> is_table m root f ->
  pt_ok m root -> pt_ok m' root /\ (forall g, is_table m' root g -> g = p \/ is_table m root g) /\ (forall la, vm_pte m' root la = vm_pte m root la) /\ kernel_same m m' root ->
  grown m bl root m' bl'.
Proof.
  intros Hown Hm Hm' Hp Hkeep Hl Hf Ht (Ht' & His & Hpte & Hkn). split; [done|done| |done|done| |intros g Hg; apply Hl; by destruct (Hkeep g Hg)].
  - intros g [->|Hg]%His; [done|]. by apply Hkeep, Hown.
  - intros g Hg. destruct (Hkeep g Hg) as [Hg' Hgp]. split; [done|]. intros Hn. split; [by intros [->|?]%His|].
    assert (0 <= g < npg) as Hr. { destruct (owned_pages _ _ _ Hg) as [pg Hpg]. apply (fl_pages _ _ _ _ (proj1 Hm)). by exists pg. }
    eapply linked_frames; [exact Hl|by apply Hm|by apply Hm'|done|]. by intros ->.
Qed.

(** One level of the walk with [create], in a tree. *)
Lemma get_pte_make m bl root la :
  mem_ok m bl -> pt_ok m root -> owns m bl root -> PDX1 la < NUDX ->
  exists m' bl' r, get_pte alloc npage m root la true = Ok (m', r) /\ grown m bl root m' bl' /\ total bl <= total bl' + 2 /\
    match r with Some s => exists t, s = (t, PTX la) /\ table m' root (PDX1 la) (PDX0 la) = Some t | None => total bl' = 0 end.
Proof.
  intros Hm Ht Hown Hu. destruct (index_range la) as (H1 & H0 & _). pose proof (po_range _ _ Ht root ltac:(constructor)) as Hroot. unfold get_pte.
  assert (exists m1 bl1 r, next_table alloc npage m root (PDX1 la) true = Ok (m1, r) /\ grown m bl root m1 bl1 /\ total bl <= total bl1 + 1 /\
    match r with Some d => dir0 m1 root (PDX1 la) = Some d | None => total bl1 = 0 end) as (m1 & bl1 & r1 & -> & Hg1 & Htot1 & Hr1).
  { destruct (dir0 m root (PDX1 la)) as [d|] eqn:Ed; pose proof Ed as Ec; rewrite dir0_user in Ec by done.
    - exists m, bl, (Some d). rewrite (next_table_there m root (PDX1 la) true d); [|by apply Hm|done|done|by apply (po_range _ _ Ht); eapply is_dir0]. split; [done|]. split; [by apply grown_refl|]. split; [lia|done].
    - destruct (next_table_new m bl root (PDX1 la) Hm Hroot (Hown root ltac:(constructor)) H1 Ec) as [[-> Hz]|(m1 & p & bl1 & -> & Htot & Hm1 & Hp & Hop & Hk & Hl)].
      + exists m, bl, None. split; [done|]. split; [by apply grown_refl|]. split; [lia|done].
      + assert (~ is_table m root p) as Hnt by (intros Hpt; by destruct (Hk p (Hown p Hpt))).
        destruct (linked_dir0 m m1 root (PDX1 la) p Ht (conj (proj1 H1) Hu) Ed Hl Hp Hnt) as (Ht1 & His & Hd & Hpte & Hkn). exists m1, bl1, (Some p). split; [done|]. split; [|split; [lia|done]].
        eapply linked_grown; try done. constructor. }
  cbn [mbind res_bind]. destruct r1 as [d|]; [|exists m1, bl1, None; split; [done|]; split; [done|]; split; [lia|done]]. pose proof Hg1 as [Hm1 Ht1 Hown1 _ _ _ _].
  pose proof (is_dir0 _ _ _ _ Hr1) as Hdt. pose proof (po_range _ _ Ht1 d Hdt) as Hd.
  destruct (table m1 root (PDX1 la) (PDX0 la)) as [t|] eqn:Et.
  - assert (child m1 d (PDX0 la) = Some t) as Ec by (unfold table in Et; by rewrite Hr1 in Et).
    rewrite (next_table_there m1 d (PDX0 la) true t); [|by apply Hm1|done|done|by apply (po_range _ _ Ht1); eapply is_leaf]. cbn [mbind res_bind].
    exists m1, bl1, (Some (t, PTX la)). split; [done|]. split; [done|]. split; [lia|]. by exists t.
  - assert (child m1 d (PDX0 la) = None) as Ec by (unfold table in Et; by rewrite Hr1 in Et).
    destruct (next_table_new m1 bl1 d (PDX0 la) Hm1 Hd (Hown1 d Hdt) H0 Ec) as [[-> Hz]|(m2 & p & bl2 & -> & Htot & Hm2 & Hp & Hop & Hk & Hl)]; cbn [mbind res_bind].
    + exists m1, bl1, None. split; [done|]. split; [done|]. split; [lia|done].
    + assert (~ is_table m1 root p) as Hnt by (intros Hpt; by destruct (Hk p (Hown1 p Hpt))).
      destruct (linked_leaf m1 m2 root (PDX1 la) d (PDX0 la) p Ht1 Hr1 Et Hl Hp Hnt) as (Ht2 & His & Htab & Hpte & Hkn). exists m2, bl2, (Some (p, PTX la)). split; [done|]. split; [|split; [lia|by exists p]].
      eapply grown_trans; [exact Hg1|]. by eapply linked_grown.
Qed.
(** * Writing an entry of a third-level table *)
Lemma leaf_written m m' root t la v :
  pt_ok m root -> table m root (PDX1 la) (PDX0 la) = Some t ->
  (forall g j, entry m' g j = if decide (g = t /\ j = PTX la) then Some v else entry m g j) ->
  pt_ok m' root /\ (forall f, is_table m' root f <-> is_table m root f) /\ (forall i j, table m' root i j = table m root i j) /\
  (forall la', vm_pte m' root la' = if decide (vpn la' = vpn la) then v else vm_pte m root la') /\ kernel_same m m' root.
Proof.
  intros [Hr Hrt Hd Hl Hlf] Ht He. destruct (Hl _ _ _ Ht) as [Htr Htd].
  assert (Hd' : forall i, dir0 m' root i = dir0 m root i) by (intros i; apply dir0_entry; rewrite He, decide_False; [done|]; intros [-> _]; done).
  assert (Ht' : forall i j, table m' root i j = table m root i j).
  { intros i j. unfold table. rewrite Hd'. destruct (dir0 m root i) as [f|] eqn:Ef; [|done]. cbn. apply child_entry. rewrite He, decide_False; [done|]. intros [-> _]. by apply (Htd i). }
  assert (His : forall f, is_table m' root f <-> is_table m root f).
  { intros f. split; intros [|i g Hg|i j g Hg]; [constructor| | |constructor| |]; rewrite ?Hd', ?Ht' in Hg; [by eapply is_dir0|by eapply is_leaf|eapply is_dir0; by rewrite Hd'|eapply is_leaf; by rewrite Ht']. }
  split; [split|split; [done|split; [done|split]]].
  - intros f Hf%His. by apply Hr.
  - intros i. by rewrite Hd'.
  - intros i i' f. rewrite !Hd'. apply Hd.
  - intros i j f. rewrite Ht'. intros Hf. destruct (Hl i j f Hf) as [H1 H2]. split; [done|]. intros i'. by rewrite Hd'.
  - intros i j i' j' f. rewrite !Ht'. apply Hlf.
  - intros la'. unfold vm_pte. rewrite Ht'. destruct (decide (vpn la' = vpn la)) as [E|E].
    + apply index_vpn in E as (-> & -> & ->). by rewrite Ht, He, decide_True.
    + destruct (table m root (PDX1 la') (PDX0 la')) as [t'|] eqn:Et'; [|done]. rewrite He, decide_False; [done|]. intros [-> E'].
      apply E, index_vpn. destruct (Hlf _ _ _ _ _ Et' Ht). by split_and!.
  - intros j Hj. rewrite He, decide_False; [done|]. by intros [-> _].
Qed.

Lemma get_page_look m root la p :
  (forall f, 0 <= f < npg -> frame_ok m f) -> pt_ok m root -> PDX1 la < NUDX -> valid (vm_pte m root la) = true -> target (vm_pte m root la) = p -> 0 <= p < npg ->
  exists ptep, get_page alloc npage m root la = Ok (m, Some ptep, Some p).
Proof.
  intros Hm Ht Hu Hv Hp Hr. unfold get_page. rewrite get_pte_look by done. cbn [mbind res_bind]. unfold vm_pte in Hv, Hp.
  destruct (table m root (PDX1 la) (PDX0 la)) as [t|] eqn:Et; [|done]. cbn [fmap option_fmap option_map].
  destruct (index_range la) as (_ & _ & Hx). destruct (word_run m t (PTX la)) as (w & -> & Hw); [apply Hm, (po_range _ _ Ht); by eapply is_leaf|done|].
  rewrite Hw in Hv, Hp. cbn in Hv, Hp. cbn [mbind res_bind]. rewrite Hv. unfold pte2page. rewrite Hv. change (pa2page npage (PTE_ADDR w)) with (KADDR npage (PTE_ADDR w)).
  rewrite KADDR_target by (by rewrite Hp). cbn. rewrite Hp. by eexists.
Qed.

(** The walk does not make what is there. *)
Lemma get_pte_there m root la create t :
  (forall f, 0 <= f < npg -> frame_ok m f) -> pt_ok m root -> table m root (PDX1 la) (PDX0 la) = Some t ->
  get_pte alloc npage m root la create = Ok (m, Some (t, PTX la)).
Proof.
  intros Hm Ht Htab. destruct (index_range la) as (H1 & H0 & _). unfold table in Htab. destruct (dir0 m root (PDX1 la)) as [d|] eqn:Ed; [|done]. destruct (dir0_child _ _ _ _ Ed) as [Ec _]. cbn in Htab.
  pose proof (po_range _ _ Ht root ltac:(constructor)). pose proof (po_range _ _ Ht d ltac:(by eapply is_dir0)).
  assert (0 <= t < npg) by (apply (po_range _ _ Ht); eapply (is_leaf _ _ (PDX1 la) (PDX0 la)); unfold table; by rewrite Ed).
  unfold get_pte. rewrite (next_table_there m root (PDX1 la) create d) by auto. cbn [mbind res_bind]. by rewrite (next_table_there m d (PDX0 la) create t) by auto.
Qed.

(** [page_insert] once the walk has found the entry. *)
Lemma page_insert_at m m1 bl1 root page la perm t :
  get_pte alloc npage m root la true = Ok (m1, Some (t, PTX la)) -> table m1 root (PDX1 la) (PDX0 la) = Some t ->
  mem_ok m1 bl1 -> pt_ok m1 root -> owns m1 bl1 root -> owned m1 bl1 page -> valid (vm_pte m1 root la) = false ->
  exists m', page_insert alloc free npage m root page la perm = Ok (m', 0) /\
    mem_ok m' bl1 /\ pt_ok m' root /\ owns m' bl1 root /\
    (forall f, owned m1 bl1 f -> owned m' bl1 f) /\ (forall f, is_table m' root f <-> is_table m1 root f) /\
    (forall f, ~ is_table m1 root f -> frames m' !! f = frames m1 !! f) /\
    (forall la', vm_pte m' root la' = if decide (vpn la' = vpn la) then pte_create (page2ppn page) (Z.lor PTE_V perm) else vm_pte m1 root la') /\
    kernel_same m1 m' root.
Proof.
  intros Hget Htab Hm1 Ht1 Hown1 Hop1 Hnv. unfold page_insert. rewrite Hget. cbn [mbind res_bind]. destruct (owned_pages _ _ _ Hop1) as [pg Hpg].
  assert (0 <= page < npg) as Hp by (apply (fl_pages _ _ _ _ (proj1 Hm1)); by exists pg).
  unfold page_ref_inc. rewrite (deref_some _ _ _ Hpg). cbn [mbind res_bind].
  destruct (upd_ref_run m1 bl1 page (i32 (ref pg + 1)) Hm1 Hp) as (m2 & pg2 & -> & _ & _ & Hfr2 & Hm2 & Hu2). cbn [mbind res_bind].
  assert (He2 : forall g j, entry m2 g j = entry m1 g j) by (intros g j; apply entry_frames; by rewrite Hfr2).
  pose proof (po_range _ _ Ht1 t ltac:(by eapply is_leaf)) as Htr. destruct (index_range la) as (_ & _ & Hx).
  destruct (word_run m2 t (PTX la)) as (w & -> & Hw); [by apply Hm2|done|]. cbn [mbind res_bind].
  assert (valid w = false) as -> by (unfold vm_pte in Hnv; rewrite Htab, <- He2, Hw in Hnv; exact Hnv).
  cbn [mbind res_bind]. destruct (set_word_run m2 t (PTX la) (pte_create (page2ppn page) (Z.lor PTE_V perm))) as (m3 & -> & Ha3 & Hok3 & Hfr3 & He3); [by apply Hm2|done|]. cbn [mbind res_bind].
  assert (He13 : forall g j, entry m3 g j = if decide (g = t /\ j = PTX la) then Some (pte_create (page2ppn page) (Z.lor PTE_V perm)) else entry m1 g j) by (intros; by rewrite He3, He2).
  destruct (leaf_written m1 m3 root t la _ Ht1 Htab He13) as (Ht3 & His3 & _ & Hpte3 & Hkn3).
  assert (Hu3 : forall g, owned m1 bl1 g -> owned m3 bl1 g) by (intros g Hg; unfold owned; rewrite Ha3; by apply Hu2).
  exists m3. split; [done|]. split; [split; [rewrite Ha3; apply Hm2|intros g Hg; by apply Hok3, Hm2]|]. split; [done|].
  split; [intros g Hg%His3; by apply Hu3, Hown1|]. split; [done|]. split; [done|]. split; [|done].
  intros f Hf. rewrite Hfr3, Hfr2; [done|]. intros ->. apply Hf. by eapply is_leaf.
Qed.

Lemma perm_range perm : 0 <= perm < 2 ^ 10 -> 0 <= Z.lor PTE_V perm < 2 ^ 10.
Proof.
  intros Hperm.
  split; [apply Z.lor_nonneg; split; [done|lia]|]. destruct (decide (Z.lor PTE_V perm = 0)) as [->|]; [lia|]. apply Z.log2_lt_pow2; [pose proof (proj2 (Z.lor_nonneg PTE_V perm)); unfold PTE_V in *; lia|].
    rewrite Z.log2_lor by (unfold PTE_V; lia). change (Z.log2 PTE_V) with 0. destruct (decide (perm = 0)) as [->|]; [done|]. apply Z.max_lub_lt; [done|]. apply Z.log2_lt_pow2; lia.
Qed.
End Proofs.
