(* ===== verification/PageRange.v ===== *)
(** Ranges of user memory: [unmap_range] and [copy_range] of lab8/kern/mm/pmm.c, on the
    page tables of PageTable.v. *)
From S2P Require Import Prelude Lists Page Blocks FreeArea StateM Vmm PageTable.

(** * Page numbers *)
Lemma index_of_vpn la : PDX1 la = vpn la / 2 ^ 18 /\ PDX0 la = (vpn la / 2 ^ 9) mod 2 ^ 9 /\ PTX la = vpn la mod 2 ^ 9.
Proof.
  unfold PDX1, PDX0, PTX, vpn, PPN. change 0x1FF with (Z.ones 9). rewrite !Z.land_ones by lia.
  rewrite (Z.shiftr_div_pow2 _ 30), (Z.shiftr_div_pow2 _ 21), (Z.shiftr_div_pow2 _ 12) by lia.
  change (2 ^ 30) with (2 ^ 12 * 2 ^ 18). change (2 ^ 21) with (2 ^ 12 * 2 ^ 9). rewrite <- !Z.div_div by lia. set (y := la / 2 ^ 12).
  change (2 ^ 27) with (2 ^ 18 * 2 ^ 9). rewrite (Z.rem_mul_r y) by lia.
  assert (H18 : y / 2 ^ 18 = y / 2 ^ 9 / 2 ^ 9) by (rewrite Z.div_div by lia; done). split_and!.
  - rewrite Z.add_comm, Z.mul_comm, Z.div_add_l by lia. rewrite (Z.div_small (y mod 2 ^ 18)) by (apply Z.mod_pos_bound; lia). lia.
  - change (2 ^ 18) with (2 ^ 9 * 2 ^ 9). rewrite (Z.rem_mul_r y (2 ^ 9) (2 ^ 9)) by lia.
    replace (y mod 2 ^ 9 + 2 ^ 9 * ((y / 2 ^ 9) mod 2 ^ 9) + 2 ^ 9 * 2 ^ 9 * ((y / (2 ^ 9 * 2 ^ 9)) mod 2 ^ 9))
      with (((y / 2 ^ 9) mod 2 ^ 9 + ((y / (2 ^ 9 * 2 ^ 9)) mod 2 ^ 9) * 2 ^ 9) * 2 ^ 9 + y mod 2 ^ 9) by lia.
    rewrite Z.div_add_l by lia. rewrite (Z.div_small (y mod 2 ^ 9)) by (apply Z.mod_pos_bound; lia). rewrite Z.add_0_r, Z.mod_add by lia. by rewrite Z.mod_mod by lia.
  - change (2 ^ 18) with (2 ^ 9 * 2 ^ 9). rewrite (Z.rem_mul_r y (2 ^ 9) (2 ^ 9)) by lia.
    replace (y mod 2 ^ 9 + 2 ^ 9 * ((y / 2 ^ 9) mod 2 ^ 9) + 2 ^ 9 * 2 ^ 9 * ((y / (2 ^ 9 * 2 ^ 9)) mod 2 ^ 9))
      with (y mod 2 ^ 9 + ((y / 2 ^ 9) mod 2 ^ 9 + 2 ^ 9 * ((y / (2 ^ 9 * 2 ^ 9)) mod 2 ^ 9)) * 2 ^ 9) by lia.
    rewrite Z.mod_add by lia. by rewrite Z.mod_mod by lia.
Qed.

(** A user address has its own page number. *)
Lemma vpn_user la : 0 <= la < 2 ^ 39 -> vpn la = la / PGSIZE.
Proof.
  intros H. unfold vpn, PPN. rewrite Z.shiftr_div_pow2 by lia. change (2 ^ 12) with PGSIZE. apply Z.mod_small. unfold PGSIZE. split; [apply Z.div_pos; lia|].
  apply Z.div_lt_upper_bound; lia.
Qed.

Lemma next_vpn s e : s mod PGSIZE = 0 -> e mod PGSIZE = 0 -> s < e -> (s + PGSIZE) / PGSIZE = s / PGSIZE + 1 /\ s / PGSIZE + 1 <= e / PGSIZE.
Proof.
  intros Hs He Hlt. change PGSIZE with 4096 in *. replace (s + 4096) with (s + 1 * 4096) by lia. rewrite Z.div_add by done. split; [done|].
  pose proof (Z.div_mod s 4096 ltac:(done)). pose proof (Z.div_mod e 4096 ltac:(done)). lia.
Qed.

(** Pages of the same 2 MiB have their entries in the same table. *)
Lemma same_table la la' : vpn la' / 2 ^ 9 = vpn la / 2 ^ 9 -> PDX1 la' = PDX1 la /\ PDX0 la' = PDX0 la.
Proof.
  intros E. destruct (index_of_vpn la) as (-> & -> & _), (index_of_vpn la') as (-> & -> & _). rewrite E. split; [|done].
  change (2 ^ 18) with (2 ^ 9 * 2 ^ 9). rewrite <- !Z.div_div by lia. by rewrite E.
Qed.

(** The next 2 MiB boundary. *)
Lemma next_table_page s : 0 <= s -> s mod PGSIZE = 0 ->
  ROUNDDOWN (s + PTSIZE) PTSIZE = (s / PGSIZE / 2 ^ 9 + 1) * 2 ^ 9 * PGSIZE /\ (ROUNDDOWN (s + PTSIZE) PTSIZE) mod PGSIZE = 0 /\ s + PGSIZE <= ROUNDDOWN (s + PTSIZE) PTSIZE.
Proof.
  intros Hs Ha. unfold ROUNDDOWN. replace (s + PTSIZE - (s + PTSIZE) mod PTSIZE) with ((s + PTSIZE) / PTSIZE * PTSIZE) by (pose proof (Z.div_mod (s + PTSIZE) PTSIZE ltac:(done)); lia).
  replace (s + PTSIZE) with (s + 1 * PTSIZE) by lia. rewrite Z.div_add by done. assert (Hd : s / PTSIZE = s / PGSIZE / 2 ^ 9) by (rewrite Z.div_div by done; done).
  rewrite Hd. assert (HP : PTSIZE = 2 ^ 9 * PGSIZE) by done. rewrite HP. split; [lia|]. split.
  - rewrite Z.mul_assoc. apply Z.mod_mul. done.
  - rewrite Z.mul_assoc. assert (s = s / PGSIZE * PGSIZE) as Hs' by (pose proof (Z.div_mod s PGSIZE ltac:(done)); lia). set (y := s / PGSIZE) in *.
    pose proof (Z.div_mod y (2 ^ 9) ltac:(lia)). pose proof (Z.mod_pos_bound y (2 ^ 9) ltac:(lia)). assert (y + 1 <= (y / 2 ^ 9 + 1) * 2 ^ 9) by lia. unfold PGSIZE in *. nia.
Qed.

(** A free frame above [p] makes [p] fit for [free_pages]. *)
Lemma not_last_free bl p x : covers bl x -> ~ covers bl p -> p < x -> not_last p bl.
Proof.
  intros (b & k & Hin & Hx) Hp Hpx. left. assert (p < b) as Hb.
  { destruct (Z.lt_ge_cases p b); [done|]. destruct Hp. exists b, k. split; [done|lia]. }
  clear -Hin Hb. induction bl as [|[c n] bl IH]; [by apply elem_of_nil in Hin|]. cbn. destruct (Z.ltb_spec p c); [done|].
  apply elem_of_cons in Hin as [[= -> ->]|Hin]; [lia|by apply IH].
Qed.

(** What is mapped depends on the page number. *)
Lemma vm_pte_vpn m root la la' : vpn la = vpn la' -> vm_pte m root la = vm_pte m root la'.
Proof. intros (E1 & E0 & Ex)%index_vpn. unfold vm_pte. by rewrite E1, E0, Ex. Qed.

(** A walk over the pages of a user range that goes on by a page, or by a table, at a
    time keeps an invariant of the memory and the page number reached. *)
Lemma range_walk {B} (step : pmem * Z -> res (pmem * Z + B)) (fin : pmem -> B) (Inv : pmem -> Z -> Prop) m start end_ :
  start mod PGSIZE = 0 -> end_ mod PGSIZE = 0 -> USER_ACCESS start end_ = true -> Inv m (start / PGSIZE) ->
  (forall m1 s, start <= s < end_ -> s mod PGSIZE = 0 -> Inv m1 (s / PGSIZE) ->
     exists m2 s', step (m1, s) = (if more s' end_ then Ok (inl (m2, s')) else Ok (inr (fin m2))) /\
       s + PGSIZE <= s' /\ s' mod PGSIZE = 0 /\ Inv m2 (Z.min (s' / PGSIZE) (end_ / PGSIZE))) ->
  exists m', loop step (range_fuel start end_) (m, start) = Ok (fin m') /\ Inv m' (end_ / PGSIZE).
Proof.
  intros Has Hae Hu Hinit Hstep. unfold USER_ACCESS in Hu. assert (HB : 0 < USERBASE) by done. assert (HP : PGSIZE = 2 ^ 12) by done.
  assert (Hdiv : forall z, z mod PGSIZE = 0 -> z = z / PGSIZE * PGSIZE) by (intros z Hz; pose proof (Z.div_mod z PGSIZE ltac:(done)); lia).
  pose proof (Hdiv start Has) as Hs0. pose proof (Hdiv end_ Hae) as He0.
  destruct (loop_total step (fun st => start <= st.2 < end_ /\ st.2 mod PGSIZE = 0 /\ Inv st.1 (st.2 / PGSIZE))
    (fun b => exists m', b = fin m' /\ Inv m' (end_ / PGSIZE)) (fun st => Z.to_nat ((end_ - st.2) / PGSIZE))) with (fuel := range_fuel start end_) (a := (m, start)) as (b & Hrun & m' & -> & Hm').
  - intros [m1 s] (Hs & Hsa & Hun). cbn [fst snd] in *. pose proof (Hdiv s Hsa) as Hsd. destruct (Hstep m1 s Hs Hsa Hun) as (m2 & s' & -> & Hs' & Ha' & Hu').
    pose proof (Hdiv s' Ha') as Hsd'. unfold more. rewrite (proj2 (Z.eqb_neq s' 0)) by lia. cbn [negb andb].
    destruct (Z.ltb_spec s' end_) as [Hlt|Hge]; [left|right].
    + exists (m2, s'). split; [done|]. cbn [fst snd]. rewrite Z.min_l in Hu' by nia. split; [split; [lia|done]|].
      replace (end_ - s') with ((end_ / PGSIZE - s' / PGSIZE) * PGSIZE) by lia. replace (end_ - s) with ((end_ / PGSIZE - s / PGSIZE) * PGSIZE) by lia.
      rewrite !Z.div_mul by done. apply Z2Nat.inj_lt; nia.
    + exists (fin m2). split; [done|]. exists m2. rewrite Z.min_r in Hu' by nia. done.
  - cbn [fst snd]. split; [lia|]. done.
  - unfold range_fuel. cbn [snd]. lia.
  - by exists m'.
Qed.

(** The walk goes on behind a table that is not there: no page up to that point is mapped. *)
Lemma skip_table m root s :
  USERBASE <= s < USERTOP -> s mod PGSIZE = 0 -> table m root (PDX1 s) (PDX0 s) = None ->
  exists s', u64 (ROUNDDOWN (u64 (s + PTSIZE)) PTSIZE) = s' /\ s + PGSIZE <= s' /\ s' mod PGSIZE = 0 /\ vpn s <= s' / PGSIZE /\
    forall la, vpn s <= vpn la < s' / PGSIZE -> vm_pte m root la = 0.
Proof.
  intros Hs Hsa Etab. assert (HT : USERTOP = 2 ^ 31) by done. assert (HB : 0 < USERBASE) by done. assert (PTSIZE = 2 ^ 21) as HPT by done.
  rewrite (u64_small (s + PTSIZE)) by lia. destruct (next_table_page s ltac:(lia) Hsa) as (Hn1 & Hn2 & Hn3).
  assert (Hn4 : ROUNDDOWN (s + PTSIZE) PTSIZE <= s + PTSIZE) by (unfold ROUNDDOWN; pose proof (Z.mod_pos_bound (s + PTSIZE) PTSIZE ltac:(done)); lia).
  assert (0 < PGSIZE) as HP by done. rewrite u64_small by lia. set (s' := ROUNDDOWN (s + PTSIZE) PTSIZE) in *. exists s'. split; [done|]. split; [done|]. split; [done|].
  pose proof (vpn_user s ltac:(lia)) as Hvs. assert (Hsd' : s' / PGSIZE = (s / PGSIZE / 2 ^ 9 + 1) * 2 ^ 9) by (rewrite Hn1; by apply Z.div_mul). rewrite Hsd', Hvs.
  pose proof (Z.div_mod (s / PGSIZE) (2 ^ 9) ltac:(lia)). pose proof (Z.mod_pos_bound (s / PGSIZE) (2 ^ 9) ltac:(lia)). split; [lia|].
  intros la Hla. assert (vpn la / 2 ^ 9 = vpn s / 2 ^ 9) as E by (rewrite Hvs; symmetry; apply (Z.div_unique _ _ _ (vpn la - s / PGSIZE / 2 ^ 9 * 2 ^ 9)); lia).
  destruct (same_table s la E) as [E1 E0]. unfold vm_pte. by rewrite E1, E0, Etab.
Qed.

Section Ranges.
Context `{PageAllocator alloc free} (npg : Z) (Hnpg : npg + 1 < 2 ^ 32).
Abbreviation npage := (npg + nbase).
Abbreviation mem_ok := (mem_ok npg).
Abbreviation pt_ok := (pt_ok npg).

Lemma free_page_run m bl p x :
  mem_ok m bl -> owned m bl p -> covers bl x -> p < x ->
  exists m' bl', free_page free m p = Ok m' /\ frames m' = frames m /\ mem_ok m' bl' /\ covers bl' x /\ covers bl' p /\ forall f, owned m bl f -> f <> p -> owned m' bl' f.
Proof.
  intros [Hinv Hfr] Ho Hx Hpx. destruct (pa_free npg (area m) bl p 1 Hinv ltac:(lia) Ho) as (a & bl' & Hrun & Hinv' & _ & Hc & Hk).
  { eapply not_last_free; [exact Hx| |done]. apply (Ho p). lia. }
  unfold free_page. rewrite Hrun. cbn [mbind res_bind]. eexists _, bl'. split; [reflexivity|]. split; [done|]. split; [by split|]. split; [apply Hc; by left|]. split; [apply Hc; right; lia|].
  intros f Hf Hne. apply (Hk f 1 Hf). intros i Hi Hi'. lia.
Qed.

Lemma free_page_refs m p m' f : free_page free m p = Ok m' -> f <> p -> refs (area m') f = refs (area m) f.
Proof.
  unfold free_page. destruct (free (area m) p 1) as [a| | |] eqn:E; cbn [mbind res_bind]; try done. intros [= <-] Hf. apply (pa_free_refs _ _ _ _ f E). lia.
Qed.

(** One use of the page [q] less: at its last use it is given back. *)
Definition dropped (m : pmem) (bl : list block) (q : Z) (m' : pmem) (bl' : list block) : Prop :=
  (forall f, f <> q -> refs (area m') f = refs (area m) f) /\
  forall k, refs (area m) q = Some k ->
    if decide (i32 (k - 1) = 0) then covers bl' q else (forall f, owned m bl f -> owned m' bl' f) /\ refs (area m') q = Some (i32 (k - 1)).

(** Removing the mapping of one page. *)
Lemma page_remove_pte_run m bl root la t x :
  mem_ok m bl -> pt_ok m root -> owns m bl root -> covers bl x -> table m root (PDX1 la) (PDX0 la) = Some t ->
  (valid (vm_pte m root la) = true -> owned m bl (target (vm_pte m root la)) /\ ~ is_table m root (target (vm_pte m root la)) /\ target (vm_pte m root la) < x) ->
  exists m' bl', page_remove_pte free npage m t (PTX la) = Ok m' /\ mem_ok m' bl' /\ pt_ok m' root /\ owns m' bl' root /\ covers bl' x /\
    (forall f, is_table m' root f <-> is_table m root f) /\
    (forall f, owned m bl f -> ~ (valid (vm_pte m root la) = true /\ f = target (vm_pte m root la)) -> owned m' bl' f) /\
    (forall f, ~ is_table m root f -> frames m' !! f = frames m !! f) /\ kernel_same m m' root /\
    (forall la', vm_pte m' root la' = if decide (vpn la' = vpn la /\ valid (vm_pte m root la) = true) then 0 else vm_pte m root la') /\
    (valid (vm_pte m root la) = true -> dropped m bl (target (vm_pte m root la)) m' bl') /\ forall i j, table m' root i j = table m root i j.
Proof.
  intros Hm Ht Hown Hx Htab Hpage. destruct (index_range la) as (_ & _ & Hi). pose proof (po_range _ _ _ Ht t ltac:(by eapply is_leaf)) as Htr.
  destruct (word_run m t (PTX la)) as (w & Hw & He); [by apply Hm|done|]. assert (Hpte : vm_pte m root la = w) by (unfold vm_pte; by rewrite Htab, He).
  unfold page_remove_pte. rewrite Hw. cbn [mbind res_bind]. rewrite Hpte in *. destruct (valid w) eqn:Hv.
  2:{ exists m, bl. repeat (split; [done|]). split; [|by split]. intros la'. rewrite decide_False; [done|]. by intros [_ ?]. }
  destruct (Hpage eq_refl) as (Hop & Hnt & Hpx). destruct (owned_pages _ _ _ Hop) as [pg Hpg]. set (p := target w) in *.
  assert (0 <= p < npg) as Hp by (apply (fl_pages _ _ _ _ (proj1 Hm)); by exists pg).
  unfold pte2page. rewrite Hv. change (pa2page npage (PTE_ADDR w)) with (KADDR npage (PTE_ADDR w)). rewrite KADDR_target by done. cbn [mbind res_bind]. fold p.
  unfold page_ref_dec. rewrite (deref_some _ _ _ Hpg). cbn [mbind res_bind]. destruct (upd_ref_run npg m bl p (i32 (ref pg - 1)) Hm Hp) as (m1 & pg1 & -> & _ & Hpg1 & Hfr1 & Hm1 & Hu1). cbn [mbind res_bind].
  assert (Hr1 : forall f, f <> p -> refs (area m1) f = refs (area m) f) by (intros f Hf; unfold refs; by rewrite Hpg1, lookup_insert_ne).
  assert (exists m2 bl2, (if i32 (ref pg - 1) =? 0 then free_page free m1 p else Ok m1) = Ok m2 /\ frames m2 = frames m /\ mem_ok m2 bl2 /\ covers bl2 x /\
    (forall f, owned m bl f -> f <> p -> owned m2 bl2 f) /\ dropped m bl p m2 bl2) as (m2 & bl2 & -> & Hfr2 & Hm2 & Hx2 & Hk2 & Hdr2).
  { unfold dropped. assert (Hrp : refs (area m) p = Some (ref pg)) by (unfold refs; by rewrite Hpg). rewrite Hrp. destruct (Z.eqb_spec (i32 (ref pg - 1)) 0) as [E|E].
    - destruct (free_page_run m1 bl p x Hm1) as (m2 & bl2 & Ef & Hfr & Hm2 & Hx2 & Hxp & Hk); [by apply Hu1|done|done|]. exists m2, bl2. split; [done|]. split; [congruence|]. split; [done|]. split; [done|].
      split; [intros f Hf Hne; apply Hk; [by apply Hu1|done]|]. split; [intros f Hf; by rewrite (free_page_refs _ _ _ _ Ef Hf), Hr1|]. intros k [= <-]. by rewrite decide_True.
    - exists m1, bl. split; [done|]. split; [done|]. split; [done|]. split; [done|]. split; [intros f Hf _; by apply Hu1|]. split; [done|]. intros k [= <-]. rewrite decide_False by done.
      split; [intros f; apply Hu1|]. unfold refs. by rewrite Hpg1, lookup_insert_eq. }
  cbn [mbind res_bind]. destruct (set_word_run m2 t (PTX la) 0) as (m3 & -> & Ha3 & Hok3 & Hfr3 & He3); [by apply Hm2|done|].
  assert (He03 : forall g j, entry m3 g j = if decide (g = t /\ j = PTX la) then Some 0 else entry m g j) by (intros g j; rewrite He3; by rewrite (entry_frames m m2) by (by rewrite Hfr2)).
  destruct (leaf_written npg m m3 root t la 0 Ht Htab He03) as (Ht3 & His & Htab3 & Hpte3 & Hkn3).
  assert (Hk3 : forall f, owned m bl f -> f <> p -> owned m3 bl2 f) by (intros f Hf Hne; unfold owned; rewrite Ha3; by apply Hk2).
  exists m3, bl2. split; [done|]. split; [split; [rewrite Ha3; apply Hm2|intros g Hg; by apply Hok3, Hm2]|]. split; [done|].
  split; [intros f Hf%His; apply Hk3; [by apply Hown|by intros ->]|]. split; [done|]. split; [done|].
  split; [intros f Hf Hn; apply Hk3; [done|]; intros ->; by apply Hn|].
  split; [intros f Hf; rewrite Hfr3, Hfr2; [done|]; intros ->; apply Hf; by eapply is_leaf|].
  split; [done|]. split; [intros la'; rewrite Hpte3; apply decide_ext; tauto|]. split; [|done]. intros _. destruct Hdr2 as [Hd1 Hd2]. unfold dropped, owned. rewrite Ha3. by split.
Qed.
(** * Unmapping *)

(** The pages mapped at the page numbers from [lo] to [hi] are private to their one
    address: in use, no tables, below a free frame [x], and none is mapped twice. *)
Definition private (m : pmem) (bl : list block) (root lo hi x : Z) : Prop :=
  (forall la, lo <= vpn la < hi -> valid (vm_pte m root la) = true ->
     owned m bl (target (vm_pte m root la)) /\ ~ is_table m root (target (vm_pte m root la)) /\ target (vm_pte m root la) < x) /\
  (forall la la', lo <= vpn la < hi -> lo <= vpn la' < hi -> valid (vm_pte m root la) = true -> valid (vm_pte m root la') = true ->
     target (vm_pte m root la) = target (vm_pte m root la') -> vpn la = vpn la').

(** The page numbers from [lo] to [hi] have been unmapped. *)
Definition unmapped (m : pmem) (bl : list block) (root lo hi x : Z) (m' : pmem) : Prop :=
  exists bl', mem_ok m' bl' /\ pt_ok m' root /\ owns m' bl' root /\ covers bl' x /\
    (forall f, is_table m' root f <-> is_table m root f) /\ (forall f, ~ is_table m root f -> frames m' !! f = frames m !! f) /\ kernel_same m m' root /\
    (forall f, owned m bl f -> (forall la, lo <= vpn la < hi -> valid (vm_pte m root la) = true -> f <> target (vm_pte m root la)) -> owned m' bl' f) /\
    forall la, vm_pte m' root la = if decide (lo <= vpn la < hi /\ valid (vm_pte m root la) = true) then 0 else vm_pte m root la.

Lemma unmapped_absent m bl root lo s s' x m' :
  unmapped m bl root lo s x m' -> lo <= s <= s' -> (forall la, s <= vpn la < s' -> vm_pte m' root la = 0) -> unmapped m bl root lo s' x m'.
Proof.
  intros (bl' & H1 & H2 & H3 & H4 & H5 & H6 & Hkn & H7 & Hpte) Hs Habs.
  assert (Hinv : forall la, s <= vpn la < s' -> valid (vm_pte m root la) = false).
  { intros la Hla. specialize (Habs la Hla). rewrite Hpte, decide_False in Habs by lia. by rewrite Habs. }
  exists bl'. do 7 (split; [done|]). split.
  - intros f Hf Hn. apply H7; [done|]. intros la Hla. apply Hn. lia.
  - intros la. rewrite Hpte. apply decide_ext. split; [intros [? ?]; split; [lia|done]|]. intros [Hla Hv]. split; [|done].
    destruct (Z.lt_ge_cases (vpn la) s); [lia|]. rewrite Hinv in Hv; [done|lia].
Qed.

Lemma unmap_one m bl root lo hi x s m1 t :
  private m bl root lo hi x -> unmapped m bl root lo (vpn s) x m1 -> lo <= vpn s < hi -> table m1 root (PDX1 s) (PDX0 s) = Some t ->
  exists m2, page_remove_pte free npage m1 t (PTX s) = Ok m2 /\ unmapped m bl root lo (vpn s + 1) x m2.
Proof.
  intros [Hp1 Hp2] (bl1 & Hm1 & Ht1 & Ho1 & Hx1 & His1 & Hfr1 & Hkn1 & Hk1 & Hpte1) Hs Htab.
  assert (Hold : vm_pte m1 root s = vm_pte m root s) by (rewrite Hpte1, decide_False; [done|lia]).
  destruct (page_remove_pte_run m1 bl1 root s t x Hm1 Ht1 Ho1 Hx1 Htab) as (m2 & bl2 & -> & Hm2 & Ht2 & Ho2 & Hx2 & His2 & Hk2 & Hfr2 & Hkn2 & Hpte2 & _).
  { rewrite Hold. intros Hv. destruct (Hp1 s Hs Hv) as (Ho & Hn & Hlt). split; [|split; [by rewrite His1|done]]. apply Hk1; [done|].
    intros la Hla Hvla E. assert (vpn s = vpn la) by (apply Hp2; [lia|lia|done|done|done]). lia. }
  exists m2. split; [done|]. exists bl2. split; [done|]. split; [done|]. split; [done|]. split; [done|]. split; [intros f; by rewrite His2|].
  split; [intros f Hf; rewrite Hfr2 by (by rewrite His1); by apply Hfr1|]. split; [intros j Hj; by rewrite Hkn2, Hkn1|]. split.
  - intros f Hf Hn. apply Hk2; [apply Hk1; [done|]; intros la Hla; apply Hn; lia|]. rewrite Hold. intros [Hv ->]. by apply (Hn s); [lia|done|].
  - intros la. rewrite Hpte2, Hold, Hpte1. destruct (decide (vpn la = vpn s /\ valid (vm_pte m root s) = true)) as [[E Hv]|E].
    + rewrite decide_True; [done|]. split; [lia|]. by rewrite (vm_pte_vpn m root la s).
    + apply decide_ext. split; [intros [? ?]; split; [lia|done]|]. intros [Hla Hv]. split; [|done]. destruct (decide (vpn la = vpn s)) as [E'|]; [|lia].
      destruct E. split; [done|]. by rewrite <- (vm_pte_vpn m root la s).
Qed.

Lemma range_ok_user start end_ : start mod PGSIZE = 0 -> end_ mod PGSIZE = 0 -> USER_ACCESS start end_ = true -> range_ok start end_ = Ok tt.
Proof. intros H1 H2 H3. unfold range_ok. by rewrite H1, H2, H3. Qed.

(** C23. A range of user memory is unmapped, completely and nothing else: when the pages
    mapped in it are mapped once and lie below some free frame - which is what keeps
    [free_pages] clear of its defect at the end of the free list - [unmap_range] comes
    to an end; no address of the range leads to a page any more, every other address
    leads where it did, the tables are still a tree, and only pages mapped in the
    range have been given back. *)
Theorem unmap_range_unmaps m bl root start end_ x :
  mem_ok m bl -> pt_ok m root -> owns m bl root -> covers bl x ->
  start mod PGSIZE = 0 -> end_ mod PGSIZE = 0 -> USER_ACCESS start end_ = true -> private m bl root (start / PGSIZE) (end_ / PGSIZE) x ->
  exists m', unmap_range alloc free npage m root start end_ = Ok m' /\ unmapped m bl root (start / PGSIZE) (end_ / PGSIZE) x m'.
Proof.
  intros Hm Ht Hown Hx Has Hae Hu Hpriv. unfold unmap_range. rewrite range_ok_user by done. cbn [mbind res_bind].
  apply (range_walk _ (fun m' => m') (fun m' h => unmapped m bl root (start / PGSIZE) h x m')); try done.
  { exists bl. repeat (split; [done|]). intros la. rewrite decide_False; [done|lia]. }
  unfold USER_ACCESS in Hu. assert (HB : 0 < USERBASE) by done. assert (HT : USERTOP = 2 ^ 31) by done. assert (HP : 0 < PGSIZE) by done.
  intros m1 s Hs Hsa Hun. pose proof Hun as (bl1 & Hm1 & Ht1 & _). pose proof (vpn_user s ltac:(lia)) as Hvs. rewrite <- Hvs in Hun.
  assert (Hlo : start / PGSIZE <= vpn s) by (rewrite Hvs; apply Z.div_le_mono; lia).
  unfold unmap_step. rewrite (get_pte_look npg) by (done || apply Hm1 || (apply user_index; lia)). cbn [mbind res_bind].
  destruct (table m1 root (PDX1 s) (PDX0 s)) as [t|] eqn:Etab; cbn [fmap option_fmap option_map].
  - destruct (index_range s) as (_ & _ & Hi). destruct (word_run m1 t (PTX s)) as (w & -> & He); [apply Hm1, (po_range _ _ _ Ht1); by eapply is_leaf|done|]. cbn [mbind res_bind].
    assert (Hpte : vm_pte m1 root s = w) by (unfold vm_pte; by rewrite Etab, He).
    destruct (next_vpn s end_ Hsa Hae ltac:(lia)) as [Hnext Hhi]. rewrite <- Hvs in Hnext, Hhi.
    assert (exists m2, (if negb (w =? 0) then page_remove_pte free npage m1 t (PTX s) else Ok m1) = Ok m2 /\ unmapped m bl root (start / PGSIZE) (vpn s + 1) x m2) as (m2 & -> & Hu2).
    { destruct (Z.eqb_spec w 0) as [->|_]; cbn [negb].
      - exists m1. split; [done|]. eapply unmapped_absent; [exact Hun|lia|]. intros la Hla. rewrite (vm_pte_vpn m1 root la s); [done|lia].
      - eapply unmap_one; [exact Hpriv|done|lia|done]. }
    cbn [mbind res_bind]. exists m2, (s + PGSIZE). rewrite u64_small by (unfold PGSIZE in *; lia). split; [done|]. split; [lia|]. split.
    + replace (s + PGSIZE) with (s + 1 * PGSIZE) by lia. by rewrite Z.mod_add.
    + by rewrite Hnext, Z.min_l.
  - cbn [mbind res_bind]. destruct (skip_table m1 root s ltac:(lia) Hsa Etab) as (s' & -> & Hs' & Ha' & Hle & Habs). exists m1, s'. split; [done|]. split; [done|]. split; [done|].
    assert (vpn s <= end_ / PGSIZE) by (rewrite Hvs; apply Z.div_le_mono; lia). eapply unmapped_absent; [exact Hun|lia|]. intros la Hla. apply Habs. lia.
Qed.
End Ranges.
