(* ===== verification/PageCopy.v ===== *)
(** [copy_range] of lab8/kern/mm/pmm.c: the memory of a forked process. *)
From S2P Require Import Prelude Lists Page Blocks FreeArea StateM Vmm PageTable PageRange.

Section Copy.
Context `{PageAllocator alloc free} (npg : Z) (Hnpg : npg + 1 < 2 ^ 32).
Abbreviation npage := (npg + nbase).
Abbreviation mem_ok := (mem_ok npg).
Abbreviation pt_ok := (pt_ok npg).

(** A page table whose frames are as they were is the page table it was. *)
Lemma tree_same m m' root :
  (forall f, is_table m root f -> frames m' !! f = frames m !! f) ->
  (forall f, is_table m' root f <-> is_table m root f) /\ (forall la, vm_pte m' root la = vm_pte m root la) /\ (pt_ok m root -> pt_ok m' root) /\
  forall i j, table m' root i j = table m root i j.
Proof.
  intros Hf. assert (Hd : forall i, dir0 m' root i = dir0 m root i) by (intros i; apply dir0_entry, entry_frames, Hf; constructor).
  assert (Ht : forall i j, table m' root i j = table m root i j).
  { intros i j. unfold table. rewrite Hd. destruct (dir0 m root i) as [f|] eqn:Ef; [|done]. cbn. apply child_entry, entry_frames, Hf. by eapply is_dir0. }
  assert (His : forall f, is_table m' root f <-> is_table m root f).
  { intros f. split; intros [|i g Hg|i j g Hg]; [constructor| | |constructor| |]; rewrite ?Hd, ?Ht in Hg; [by eapply is_dir0|by eapply is_leaf|eapply is_dir0; by rewrite Hd|eapply is_leaf; by rewrite Ht]. }
  split; [done|]. split; [|split; [|done]].
  - intros la. unfold vm_pte. rewrite Ht. destruct (table m root (PDX1 la) (PDX0 la)) as [t|] eqn:Et; [|done]. f_equal. apply entry_frames, Hf. by eapply is_leaf.
  - intros [Hr Hrt Hd0 Hl Hlf]. split.
    + intros f Hft%His. by apply Hr.
    + intros i. by rewrite Hd.
    + intros i i' f. rewrite !Hd. apply Hd0.
    + intros i j f. rewrite Ht. intros E. destruct (Hl i j f E) as [? Hn]. split; [done|]. intros i'. by rewrite Hd.
    + intros i j i' j' f. rewrite !Ht. apply Hlf.
Qed.

Lemma copy_frame_run m bl dst src :
  mem_ok m bl -> 0 <= dst < npg -> 0 <= src < npg ->
  exists m', copy_frame m dst src = Ok m' /\ area m' = area m /\ mem_ok m' bl /\ frames m' !! dst = frames m !! src /\ forall g, g <> dst -> frames m' !! g = frames m !! g.
Proof.
  intros [Hinv Hfr] Hd Hs. destruct (Hfr src Hs) as (l & Hl & Hlen). destruct (Hfr dst Hd) as (l' & Hl' & _).
  unfold copy_frame. rewrite (deref_some _ _ _ Hl), (deref_some _ _ _ Hl'). cbn [mbind res_bind]. eexists. split; [reflexivity|]. split; [done|]. split; [|split].
  - split; [done|]. intros f Hf. unfold frame_ok. cbn. destruct (decide (f = dst)) as [->|Hne]; [rewrite lookup_insert_eq; by exists l|rewrite lookup_insert_ne by done; by apply Hfr].
  - cbn. by rewrite lookup_insert_eq.
  - intros g Hg. cbn. by rewrite lookup_insert_ne.
Qed.

(** The copy of a page at [la] under [to] of the page that [m] has there under [from]. *)
Definition copy_of (m : pmem) (bl : list block) (from : Z) (m' : pmem) (bl' : list block) (to la : Z) : Prop :=
  exists np, vm_pte m' to la = pte_create (page2ppn np) (Z.lor PTE_V (Z.land (vm_pte m from la) PTE_USER)) /\
    frames m' !! np = frames m !! target (vm_pte m from la) /\ owned m' bl' np /\ ~ is_table m' to np /\ ~ owned m bl np.

(** The page numbers from [lo] to [hi] have been copied; at most three frames per page
    are used up. *)
Record copied_to (m : pmem) (bl : list block) (to from lo hi : Z) (m' : pmem) (bl' : list block) : Prop := CopiedTo {
  ct_mem : mem_ok m' bl';
  ct_tree : pt_ok m' to;
  ct_owns : owns m' bl' to;
  ct_pages la : lo <= vpn la < hi -> valid (vm_pte m from la) = true -> copy_of m bl from m' bl' to la;
  ct_rest la : ~ (lo <= vpn la < hi /\ valid (vm_pte m from la) = true) -> vm_pte m' to la = vm_pte m to la;
  ct_keep f : owned m bl f -> owned m' bl' f /\ (~ is_table m to f -> ~ is_table m' to f /\ frames m' !! f = frames m !! f);
  ct_kernel : kernel_same m m' to;
  ct_memory : total bl <= total bl' + 3 * (hi - lo)
}.

Variables (m : pmem) (bl : list block) (to from lo hi : Z).
Hypothesis (Hto : pt_ok m to) (Hfrom : pt_ok m from) (Hm : mem_ok m bl) (Hoto : owns m bl to) (Hofrom : owns m bl from).
Hypothesis (Hdis : forall f, is_table m from f -> ~ is_table m to f).
Hypothesis (Hpages : forall la, lo <= vpn la < hi -> valid (vm_pte m from la) = true ->
  owned m bl (target (vm_pte m from la)) /\ ~ is_table m to (target (vm_pte m from la)) /\ valid (vm_pte m to la) = false).

(** The parent's page table does not change. *)
Lemma from_same m' bl' h : copied_to m bl to from lo h m' bl' -> pt_ok m' from /\ (forall la, vm_pte m' from la = vm_pte m from la) /\ forall f, is_table m' from f <-> is_table m from f.
Proof.
  intros Hc. destruct (tree_same m m' from) as (H1 & H2 & H3 & _); [|split; [by apply H3|done]].
  intros f Hf. destruct (ct_keep _ _ _ _ _ _ _ _ Hc f (Hofrom f Hf)) as [_ Hk]. by apply Hk, Hdis.
Qed.

Lemma copied_further m1 bl1 h h' :
  copied_to m bl to from lo h m1 bl1 -> h <= h' -> (forall la, h <= vpn la < h' -> valid (vm_pte m from la) = false) -> copied_to m bl to from lo h' m1 bl1.
Proof.
  intros [H1 H2 H3 H4 H5 H6 H7 H8] Hle Hno. split; try done.
  - intros la Hla Hv. apply H4; [|done]. destruct (Z.lt_ge_cases (vpn la) h); [lia|]. rewrite Hno in Hv; [done|lia].
  - intros la Hla. apply H5. intros [? ?]. apply Hla. split; [lia|done].
  - lia.
Qed.

(** One page. *)
Lemma copy_one m1 bl1 s w :
  copied_to m bl to from lo (vpn s) m1 bl1 -> lo <= vpn s < hi -> PDX1 s < NUDX -> 3 <= total bl1 -> vm_pte m from s = w -> valid w = true ->
  exists m2 bl2 nptep m3 np m4 m5,
    get_pte alloc npage m1 to s true = Ok (m2, Some nptep) /\ pte2page npage w = Ok (target w) /\ alloc_page alloc m2 = Ok (m3, Some np) /\
    page2kva npage (target w) = Ok (target w) /\ page2kva npage np = Ok np /\ copy_frame m3 np (target w) = Ok m4 /\
    page_insert alloc free npage m4 to np s (Z.land w PTE_USER) = Ok (m5, 0) /\ copied_to m bl to from lo (vpn s + 1) m5 bl2.
Proof.
  intros [Hm1 Ht1 Ho1 Hp1 Hr1 Hk1 Hkn1 Htot1] Hs Hus Hmem Hw Hv. destruct (Hpages s Hs ltac:(by rewrite Hw)) as (Hpo & Hpn & Hnv). rewrite Hw in Hpo, Hpn. set (p := target w) in *.
  destruct (Hk1 p Hpo) as [Hpo1 Hpk1]. destruct (Hpk1 Hpn) as [Hpn1 Hpf1].
  destruct (get_pte_make npg Hnpg m1 bl1 to s Hm1 Ht1 Ho1 Hus) as (m2 & bl2 & r & E2 & [Hm2 Ht2 Ho2 Hpte2 Hkn2 Hk2 _] & Htot2 & Hr2).
  destruct r as [nptep|]; [|lia]. destruct Hr2 as (t & -> & Htab2).
  destruct (alloc_page_run npg Hnpg m2 bl2 Hm2) as [(m3 & _ & _ & Hz)|(m3 & np & bl3 & E3 & Htot3 & Hm3 & Hfr3 & Hnp & Hnpo & Hk3)]; [lia|].
  destruct (Hk2 p Hpo1) as [Hpo2 Hpk2]. destruct (Hpk2 Hpn1) as [Hpn2 Hpf2]. destruct (Hk3 p Hpo2) as [Hpo3 Hpnp].
  assert (0 <= p < npg) as Hp by (destruct (owned_pages _ _ _ Hpo3) as [pg Hpg]; apply (fl_pages _ _ _ _ (proj1 Hm3)); by exists pg).
  destruct (copy_frame_run m3 bl3 np p Hm3 Hnp Hp) as (m4 & E4 & Ha4 & Hm4 & Hfnp & Hfr4).
  assert (Hnt2 : ~ is_table m2 to np) by (intros Hf; by destruct (Hk3 np (Ho2 np Hf))).
  assert (Hsame : forall f, is_table m2 to f -> frames m4 !! f = frames m2 !! f) by (intros f Hf; rewrite Hfr4, Hfr3; [done|]; intros ->; done).
  destruct (tree_same m2 m4 to Hsame) as (His4 & Hpte4 & Ht4 & Htab4). specialize (Ht4 Ht2). specialize (Htab4 (PDX1 s) (PDX0 s)). rewrite Htab2 in Htab4.
  assert (Hown4 : forall f, owned m3 bl3 f -> owned m4 bl3 f) by (intros f; unfold owned; by rewrite Ha4).
  assert (Hsto : vm_pte m4 to s = vm_pte m to s) by (rewrite Hpte4, Hpte2; apply Hr1; lia).
  assert (Ho4 : owns m4 bl3 to) by (intros f Hf%His4; apply Hown4, Hk3, Ho2, Hf).
  assert (Hget4 : get_pte alloc npage m4 to s true = Ok (m4, Some (t, PTX s))) by (eapply get_pte_there; [apply Hm4|done|done]).
  destruct (page_insert_at (free := free) npg m4 m4 bl3 to np s (Z.land w PTE_USER) t Hget4 Htab4 Hm4 Ht4 Ho4) as (m5 & E5 & Hm5 & Ht5 & Ho5 & Hu5 & His5 & Hfr5 & Hpte5 & Hkn5); [by apply Hown4|by rewrite Hsto|].
  assert (Hkeep : forall f, owned m1 bl1 f -> owned m5 bl3 f /\ f <> np /\ (~ is_table m1 to f -> ~ is_table m5 to f /\ frames m5 !! f = frames m1 !! f)).
  { intros f Hf. destruct (Hk2 f Hf) as [Hf2 Hkf]. destruct (Hk3 f Hf2) as [Hf3 Hne]. split; [by apply Hu5, Hown4|]. split; [done|]. intros Hn. destruct (Hkf Hn) as [Hn2 <-].
    split; [by rewrite His5, His4|]. rewrite Hfr5, Hfr4, Hfr3; [done|done|by rewrite His4]. }
  exists m2, bl3, (t, PTX s), m3, np, m4, m5. split; [done|]. split.
  { unfold pte2page. rewrite Hv. change (pa2page npage (PTE_ADDR w)) with (KADDR npage (PTE_ADDR w)). by apply KADDR_target. }
  split; [done|]. split; [by apply page2kva_run|]. split; [by apply page2kva_run|]. split; [done|]. split; [done|].
  split; [done|done|done| | | | |].
  - intros la Hla Hvla. destruct (decide (vpn la = vpn s)) as [E|E].
    + exists np. rewrite (vm_pte_vpn m from la s E), Hw, Hpte5, decide_True by done. split; [done|]. split; [|split; [by apply Hu5, Hown4|]].
      * rewrite Hfr5, Hfnp, Hfr3, Hpf2, Hpf1; [done|]. by rewrite His4.
      * split; [by rewrite His5, His4|]. intros Hnpm. by destruct (Hkeep np (proj1 (Hk1 np Hnpm))) as (_ & ? & _).
    + destruct (Hp1 la) as (q & Hq1 & Hq2 & Hq3 & Hq4 & Hq5); [lia|done|]. destruct (Hkeep q Hq3) as (Hq6 & _ & Hq7). destruct (Hq7 Hq4) as [Hq8 Hq9].
      exists q. rewrite Hpte5, decide_False, Hpte4, Hpte2 by done. split; [done|]. split; [by rewrite Hq9|]. done.
  - intros la Hla. rewrite Hpte5, Hpte4, Hpte2. destruct (decide (vpn la = vpn s)) as [E|E].
    + destruct Hla. split; [lia|]. by rewrite (vm_pte_vpn m from la s E), Hw.
    + apply Hr1. intros [? ?]. apply Hla. split; [lia|done].
  - intros f Hf. destruct (Hk1 f Hf) as [Hf1 Hkf]. destruct (Hkeep f Hf1) as (Hf5 & _ & Hkf5). split; [done|]. intros Hn. destruct (Hkf Hn) as [Hn1 <-]. by apply Hkf5.
  - intros j Hj. rewrite Hkn5 by done. rewrite (entry_frames m2) by (apply Hsame; constructor). by rewrite Hkn2, Hkn1.
  - lia.
Qed.
(** One turn of the loop. *)
Lemma copy_turn m1 bl1 s end_ :
  hi = end_ / PGSIZE -> 3 * (hi - lo) <= total bl -> s mod PGSIZE = 0 -> end_ mod PGSIZE = 0 -> USERBASE <= s < end_ -> end_ <= USERTOP ->
  lo <= vpn s -> copied_to m bl to from lo (vpn s) m1 bl1 ->
  exists m2 s', copy_step alloc free npage to from end_ (m1, s) = (if more s' end_ then Ok (inl (m2, s')) else Ok (inr (m2, 0))) /\
    s + PGSIZE <= s' /\ s' mod PGSIZE = 0 /\ exists bl', copied_to m bl to from lo (Z.min (s' / PGSIZE) hi) m2 bl'.
Proof.
  intros Hhieq Hmem Hsa Hae Hs Hu Hlo Hc. assert (HB : 0 < USERBASE) by done. assert (HT : USERTOP = 2 ^ 31) by done. assert (HP : 0 < PGSIZE) by done.
  pose proof (vpn_user s ltac:(lia)) as Hvs.
  destruct (from_same m1 bl1 _ Hc) as (Hf1 & Hfpte & Hfis). pose proof Hc as [Hm1 _ _ _ _ _ _ Htot].
  assert (Hus : PDX1 s < NUDX) by (apply user_index; lia).
  unfold copy_step. rewrite (get_pte_look npg) by (done || apply Hm1). cbn [mbind res_bind].
  destruct (table m1 from (PDX1 s) (PDX0 s)) as [t|] eqn:Etab; cbn [fmap option_fmap option_map].
  + destruct (index_range s) as (_ & _ & Hi). destruct (word_run m1 t (PTX s)) as (w & -> & He); [apply Hm1, (po_range _ _ _ Hf1); by eapply is_leaf|done|]. cbn [mbind res_bind].
    assert (Hpte : vm_pte m from s = w) by (rewrite <- Hfpte; unfold vm_pte; by rewrite Etab, He).
    destruct (next_vpn s end_ Hsa Hae ltac:(lia)) as [Hnext Hhi]. rewrite <- Hvs in Hnext, Hhi. rewrite <- Hhieq in Hhi.
    assert (Hout : forall m2 bl2, copied_to m bl to from lo (vpn s + 1) m2 bl2 -> exists m3 s',
      (if 0 =? 0 then if more (u64 (s + PGSIZE)) end_ then Ok (inl (m2, u64 (s + PGSIZE))) else Ok (inr (m2, 0)) else Ok (inr (m2, 0))) = (if more s' end_ then Ok (inl (m3, s')) else Ok (inr (m3, 0))) /\
      s + PGSIZE <= s' /\ s' mod PGSIZE = 0 /\ exists bl', copied_to m bl to from lo (Z.min (s' / PGSIZE) hi) m3 bl').
    { intros m2 bl2 Hc2. exists m2, (s + PGSIZE). rewrite u64_small by (unfold PGSIZE in *; lia). split; [done|]. split; [lia|]. split.
      - replace (s + PGSIZE) with (s + 1 * PGSIZE) by lia. by rewrite Z.mod_add.
      - exists bl2. by rewrite Hnext, Z.min_l. }
    destruct (valid w) eqn:Hv.
    * destruct (copy_one m1 bl1 s w Hc ltac:(lia) Hus ltac:(lia) Hpte Hv) as (m2 & bl2 & nptep & m3 & np & m4 & m5 & E1 & E2 & E3 & E4 & E5 & E6 & E7 & Hc').
      rewrite E1. cbn [mbind res_bind]. rewrite E2. cbn [mbind res_bind]. rewrite E3. cbn [mbind res_bind]. rewrite E4. cbn [mbind res_bind]. rewrite E5. cbn [mbind res_bind]. rewrite E6. cbn [mbind res_bind]. rewrite E7. cbn [mbind res_bind c_assert Z.eqb].
      by eapply (Hout m5).
    * cbn [mbind res_bind]. apply (Hout m1 bl1). eapply copied_further; [exact Hc|lia|]. intros la Hla. by rewrite (vm_pte_vpn m from la s) by lia; rewrite Hpte.
  + destruct (skip_table m1 from s ltac:(lia) Hsa Etab) as (s' & -> & Hs' & Ha' & Hle & Habs). exists m1, s'. split; [done|]. split; [done|]. split; [done|].
    exists bl1. assert (vpn s <= hi) by (rewrite Hvs, Hhieq; apply Z.div_le_mono; lia). eapply copied_further; [exact Hc|lia|]. intros la Hla. rewrite <- Hfpte, Habs by lia. done.
Qed.
End Copy.

(** Over any allocator that keeps its contract, with three frames free for every page of
    the range and nothing mapped there in the child, [copy_range] comes to an end and
    succeeds. *)
Lemma copy_range_run `{PageAllocator alloc free} npg m bl to from start end_ :
  npg + 1 < 2 ^ 32 -> mem_ok npg m bl -> pt_ok npg m to -> pt_ok npg m from -> owns m bl to -> owns m bl from ->
  (forall f, is_table m from f -> ~ is_table m to f) ->
  start mod PGSIZE = 0 -> end_ mod PGSIZE = 0 -> USER_ACCESS start end_ = true -> 3 * (end_ / PGSIZE - start / PGSIZE) <= total bl ->
  (forall la, start / PGSIZE <= vpn la < end_ / PGSIZE -> valid (vm_pte m from la) = true ->
     owned m bl (target (vm_pte m from la)) /\ ~ is_table m to (target (vm_pte m from la)) /\ valid (vm_pte m to la) = false) ->
  exists m' bl', copy_range alloc free (npg + nbase) m to from start end_ = Ok (m', 0) /\
    copied_to npg m bl to from (start / PGSIZE) (end_ / PGSIZE) m' bl' /\ forall la, vm_pte m' from la = vm_pte m from la.
Proof.
  intros Hnpg Hm Hto Hfrom Hoto Hofrom Hdis Has Hae Hu Hmem Hpages. set (lo := start / PGSIZE) in *. set (hi := end_ / PGSIZE) in *.
  unfold copy_range. rewrite range_ok_user by done. cbn [mbind res_bind].
  destruct (range_walk (copy_step alloc free (npg + nbase) to from end_) (fun m' => (m', 0)) (fun m' h => exists bl', copied_to npg m bl to from lo h m' bl') m start end_ Has Hae Hu) as (m' & -> & bl' & Hc).
  - exists bl. split; try done; try lia.
  - unfold USER_ACCESS in Hu. assert (HB : 0 < USERBASE) by done. assert (HT : USERTOP = 2 ^ 31) by done. assert (HP : 0 < PGSIZE) by done.
    intros m1 s Hs Hsa (bl1 & Hc). pose proof (vpn_user s ltac:(lia)) as Hvs. rewrite <- Hvs in Hc.
    assert (lo <= vpn s) by (rewrite Hvs; apply Z.div_le_mono; lia). eapply copy_turn; [exact Hnpg|exact Hfrom|exact Hofrom|exact Hdis|exact Hpages|done|lia|done|done|lia|lia|done|exact Hc].
  - exists m', bl'. split; [done|]. split; [done|]. by eapply from_same.
Qed.
