(* ===== verification/PageExit.v ===== *)
(** [exit_range] of lab8/kern/mm/pmm.c: the page tables of a process that ends. *)
From S2P Require Import Prelude Lists Page Blocks FreeArea StateM Vmm PageTable PageRange.

Lemma rounddown_pd la : 0 <= la < 2 ^ 31 -> PDX1 (ROUNDDOWN la PDSIZE) = PDX1 la /\ PDX0 (ROUNDDOWN la PTSIZE) = PDX0 la.
Proof.
  intros Hla. assert (Hr : forall n, 0 < n -> ROUNDDOWN la n / n = la / n).
  { intros n Hn. unfold ROUNDDOWN. replace (la - la mod n) with (la / n * n) by (pose proof (Z.div_mod la n ltac:(lia)); lia). by apply Z.div_mul; lia. }
  unfold PDX1, PDX0. rewrite !Z.shiftr_div_pow2 by lia. change (2 ^ 30) with PDSIZE. change (2 ^ 21) with PTSIZE. by rewrite !Hr.
Qed.

Section Exit.
Context `{PageAllocator alloc free} (npg : Z) (Hnpg : npg + 1 < 2 ^ 32).
Abbreviation npage := (npg + nbase).
Abbreviation mem_ok := (mem_ok npg).
Abbreviation pt_ok := (pt_ok npg).

Lemma table_in_use_run m t i : frame_ok m t -> is_Some (child m t i) -> table_in_use m t = Ok true.
Proof.
  intros (l & Hl & _) [c Hc]. unfold table_in_use. rewrite (deref_some _ _ _ Hl). cbn [mbind res_bind]. f_equal. apply existsb_exists.
  unfold child, entry in Hc. rewrite Hl in Hc. destruct (decide (0 <= i < 512)); [|done]. cbn in Hc. destruct (l !! Z.to_nat i) as [w|] eqn:Ew; [|done].
  exists w. split; [by apply list_elem_of_In, (list_elem_of_lookup_2 _ (Z.to_nat i))|]. by destruct (valid w).
Qed.

Lemma pde2page_target e p : 0 <= p < npg -> target e = p -> pde2page npage e = Ok p.
Proof. intros Hp He. unfold pde2page. change (pa2page npage (PTE_ADDR e)) with (KADDR npage (PTE_ADDR e)). rewrite KADDR_target by (by rewrite He). by rewrite He. Qed.

(** An entry that leads to a table. *)
Lemma child_word m f i c : frame_ok m f -> 0 <= i < 512 -> child m f i = Some c -> exists e, word m f i = Ok e /\ valid e = true /\ target e = c.
Proof.
  intros Hf Hi Hc. destruct (word_run m f i Hf Hi) as (e & Hw & He). unfold child in Hc. rewrite He in Hc. destruct (valid e) eqn:Hv; [|done]. injection Hc as Hc. by exists e.
Qed.

(** C40. The test for an empty directory in [exit_range] is the wrong way round.  When the
    range lies in one table and that table still has a page, the table is kept, as it
    must be, but [free_pd0] stays 1: the directory that leads to it is given back and
    the root entry cleared.  No address of that gigabyte leads anywhere any more, while
    the table stays allocated, with the pages it leads to. *)
Theorem exit_range_drops_used_directory m bl root start end_ x d t i :
  mem_ok m bl -> pt_ok m root -> owns m bl root -> covers bl x ->
  start mod PGSIZE = 0 -> end_ mod PGSIZE = 0 -> USER_ACCESS start end_ = true -> end_ <= ROUNDDOWN start PTSIZE + PTSIZE ->
  dir0 m root (PDX1 start) = Some d -> d < x -> table m root (PDX1 start) (PDX0 start) = Some t -> is_Some (child m t i) ->
  exists m' bl', exit_range free npage m root start end_ = Ok m' /\ mem_ok m' bl' /\ covers bl' d /\ owned m' bl' t /\ frames m' !! t = frames m !! t /\
    forall la, vm_pte m' root la = if decide (PDX1 la = PDX1 start) then 0 else vm_pte m root la.
Proof.
  intros Hm Ht Hown Hx Has Hae Hu Hone Hd Hdx Htab Hi. unfold exit_range. rewrite range_ok_user by done. cbn [mbind res_bind].
  unfold USER_ACCESS in Hu. assert (HB : 0 < USERBASE) by done. assert (HT : USERTOP = 2 ^ 31) by done. assert (HPD : PDSIZE = 2 ^ 30) by done. assert (HPT : PTSIZE = 2 ^ 21) by done.
  destruct (rounddown_pd start ltac:(lia)) as [Hr1 Hr0]. destruct (index_range start) as (Hi1 & Hi0 & _).
  pose proof (po_range _ _ _ Ht root ltac:(constructor)) as Hroot. pose proof (is_dir0 _ _ _ _ Hd) as Hdt. pose proof (po_range _ _ _ Ht d Hdt) as Hdr.
  pose proof (is_leaf _ _ _ _ _ Htab) as Htt. pose proof (po_range _ _ _ Ht t Htt) as Htr. destruct (dir0_child _ _ _ _ Hd) as [Hdc _].
  destruct (child_word m root (PDX1 start) d) as (e1 & Hw1 & Hv1 & Ht1); [by apply Hm|done|done|].
  destruct (child_word m d (PDX0 start) t) as (e0 & Hw0 & Hv0 & Ht0); [by apply Hm|done|by unfold table in Htab; rewrite Hd in Htab|].
  assert (Hd0 : 0 <= ROUNDDOWN start PTSIZE <= start /\ 0 <= ROUNDDOWN start PDSIZE <= start /\ start < ROUNDDOWN start PDSIZE + PDSIZE).
  { unfold ROUNDDOWN. pose proof (Z.mod_pos_bound start PTSIZE ltac:(done)). pose proof (Z.mod_pos_bound start PDSIZE ltac:(done)). pose proof (Z.mod_le start PTSIZE ltac:(lia) ltac:(done)). pose proof (Z.mod_le start PDSIZE ltac:(lia) ltac:(done)). lia. }
  assert (Hend : end_ <= ROUNDDOWN start PDSIZE + PDSIZE).
  { unfold ROUNDDOWN in *. rewrite HPD, HPT in *. pose proof (Z.div_mod start (2 ^ 21) ltac:(done)). pose proof (Z.div_mod start (2 ^ 30) ltac:(done)). pose proof (Z.mod_pos_bound start (2 ^ 30) ltac:(done)). pose proof (Z.mod_pos_bound start (2 ^ 21) ltac:(done)). lia. }
  rewrite loop_S. unfold exit_step1 at 1. rewrite Hr1, Hw1. cbn [mbind res_bind]. rewrite Hv1. rewrite (pde2page_target _ _ Hdr Ht1). cbn [mbind res_bind]. rewrite page2kva_run by done. cbn [mbind res_bind].
  rewrite loop_S. unfold exit_step0 at 1. rewrite Hr0, Hw0. cbn [mbind res_bind]. rewrite Hv0. rewrite (pde2page_target _ _ Htr Ht0). cbn [mbind res_bind]. rewrite page2kva_run by done. cbn [mbind res_bind].
  rewrite (table_in_use_run m t i) by (done || by apply Hm). cbn [mbind res_bind]. rewrite (u64_small (ROUNDDOWN start PTSIZE + PTSIZE)) by lia.
  rewrite (proj2 (Z.ltb_ge _ end_)) by lia. rewrite andb_false_r. cbn [mbind res_bind].
  destruct (free_page_run npg m bl d x Hm (Hown d Hdt) Hx Hdx) as (m1 & bl1 & -> & Hfr1 & Hm1 & Hx1 & Hd1 & Hk1). cbn [mbind res_bind].
  destruct (set_word_run m1 root (PDX1 start) 0) as (m2 & -> & Ha2 & Hok2 & Hfr2 & He2); [by apply Hm1|done|]. cbn [mbind res_bind].
  rewrite (u64_small (ROUNDDOWN start PDSIZE + PDSIZE)) by lia. unfold more. rewrite (proj2 (Z.ltb_ge _ end_)) by lia. rewrite andb_false_r.
  destruct (po_level _ _ _ Ht _ _ _ Htab) as [Htroot Htd]. assert (Htdne : t <> d) by (intros ->; by apply (Htd (PDX1 start))).
  exists m2, bl1. split; [done|]. split; [split; [rewrite Ha2; apply Hm1|intros g Hg; by apply Hok2, Hm1]|]. split; [done|].
  split; [unfold owned; rewrite Ha2; apply Hk1; [by apply Hown|done]|]. split; [by rewrite Hfr2, Hfr1|].
  assert (He : forall g j, entry m2 g j = if decide (g = root /\ j = PDX1 start) then Some 0 else entry m g j) by (intros g j; rewrite He2; by rewrite (entry_frames m m1) by (by rewrite Hfr1)).
  intros la. unfold vm_pte, table. destruct (decide (PDX1 la = PDX1 start)) as [E|E].
  - rewrite E. assert (dir0 m2 root (PDX1 start) = None) as ->; [|done]. unfold dir0, child. destruct (decide (0 <= PDX1 start < NUDX)); [|done]. by rewrite He, decide_True.
  - assert (dir0 m2 root (PDX1 la) = dir0 m root (PDX1 la)) as -> by (apply dir0_entry; rewrite He, decide_False; [done|tauto]).
    destruct (dir0 m root (PDX1 la)) as [d'|] eqn:Ed; [|done]. cbn. assert (d' <> root) by (intros ->; by apply (po_root _ _ _ Ht (PDX1 la))).
    assert (child m2 d' (PDX0 la) = child m d' (PDX0 la)) as -> by (apply child_entry; rewrite He, decide_False; [done|tauto]).
    destruct (child m d' (PDX0 la)) as [t'|] eqn:Et; [|done]. rewrite He, decide_False; [done|]. intros [-> _]. destruct (po_level _ _ _ Ht (PDX1 la) (PDX0 la) root) as [? _]; [unfold table; by rewrite Ed|done].
Qed.
End Exit.
