(* ===== verification/PageFresh.v ===== *)
(** New pages for a process: [pgdir_alloc_page] of lab8/kern/mm/pmm.c, which maps a page that
    the allocator gives out and asserts that its reference count is then 1.  That holds in
    a memory whose free pages have the count 0 ([spare]), and such a memory stays one. *)
From S2P Require Import Prelude Lists Page Blocks FreeArea DefaultPmm BestFitPmm StateM Vmm PageTable PageCopy.

(** A state has one list of free blocks. *)
Lemma fl_unique npg s bl1 bl2 : fl_inv npg 0 s bl1 -> fl_inv npg 0 s bl2 -> bl1 = bl2.
Proof.
  intros H1 H2. pose proof (dll_det _ _ _ _ (fl_dll _ _ _ _ H1) (fl_dll _ _ _ _ H2)) as E.
  assert (Hsize : forall b m bl, fl_inv npg 0 s bl -> (b, m) ∈ bl -> exists p, pages s !! b = Some p /\ property p = m).
  { intros b m bl Hinv Hin. destruct (fl_usable _ _ _ _ Hinv b) as (p & Hp & _).
    - exists b, m. split; [done|]. destruct (ordered_elem 0 _ _ _ _ ltac:(lia) (fl_ordered _ _ _ _ Hinv) Hin). lia.
    - exists p. split; [done|]. by apply (fl_marked _ _ _ _ Hinv b p Hp). }
  apply list_eq. intros k. apply (f_equal (fun l => l !! k)) in E. rewrite !list_lookup_fmap in E.
  destruct (bl1 !! k) as [[b m]|] eqn:E1, (bl2 !! k) as [[b' m']|] eqn:E2; try done. injection E as <-. f_equal. f_equal.
  destruct (Hsize b m bl1 H1) as (p & Hp & <-); [by eapply list_elem_of_lookup_2|]. destruct (Hsize b m' bl2 H2) as (p' & Hp' & <-); [by eapply list_elem_of_lookup_2|]. congruence.
Qed.

(** * Page tables *)
Section Fresh.
Context `{PageAllocator alloc free} (npg : Z) (Hnpg : npg + 1 < 2 ^ 32).
Abbreviation npage := (npg + nbase).
Abbreviation mem_ok := (mem_ok npg).
Abbreviation pt_ok := (pt_ok npg).

(** Every free page has the count 0, and is one of [P]. *)
Definition spare (P : Z -> Prop) (m : pmem) (bl : list block) : Prop := forall i, covers bl i -> P i /\ refs (area m) i = Some 0.

Lemma mem_unique m bl bl' : mem_ok m bl -> mem_ok m bl' -> bl = bl'.
Proof. intros [H1 _] [H2 _]. by eapply fl_unique. Qed.

Lemma alloc_page_spare P m bl m' p bl' :
  mem_ok m bl -> spare P m bl -> alloc_page alloc m = Ok (m', Some p) -> mem_ok m' bl' ->
  spare P m' bl' /\ P p /\ refs (area m') p = Some 0 /\ forall i, refs (area m') i = refs (area m) i.
Proof.
  intros [Hinv Hfr] Hs. unfold alloc_page. destruct (pa_alloc npg (area m) bl 1 Hinv Hnpg ltac:(lia)) as (a & r & Hrun & Hr). rewrite Hrun. cbn [mbind res_bind].
  intros [= <- ->] [Hinv' _]. destruct Hr as (bl2 & Hinv2 & _ & _ & Hcov & _). cbn in Hinv'. assert (bl2 = bl') as -> by (by eapply fl_unique).
  pose proof (fun i => pa_alloc_refs _ _ _ _ i Hrun) as Hk. assert (covers bl p) as Hp by (apply Hcov; right; lia). destruct (Hs p Hp) as [HPp Hrp]. cbn [area with_area].
  split; [|split; [done|split; [by rewrite Hk|done]]]. intros i Hi. cbn [area with_area]. rewrite Hk. apply Hs. apply Hcov. by left.
Qed.

Lemma set_word_frames m f i v m' : set_word m f i v = Ok m' -> area m' = area m /\ forall g, frame_ok m g -> frame_ok m' g.
Proof.
  unfold set_word, deref. destruct (frames m !! f) as [l|] eqn:E; cbn [mbind res_bind]; [|done]. destruct (decide _); [|done]. intros [= <-]. split; [done|].
  intros g (lg & Hg & Hl). unfold frame_ok. cbn. destruct (decide (g = f)) as [->|Hne]; [rewrite lookup_insert_eq|rewrite lookup_insert_ne by done; by exists lg].
  eexists. split; [reflexivity|]. rewrite length_insert. congruence.
Qed.

(** What a step of the walk does to the counts: those of pages in use stay. *)
Definition counts_kept (P : Z -> Prop) (m : pmem) (bl : list block) (m' : pmem) : Prop :=
  exists bl', mem_ok m' bl' /\ spare P m' bl' /\ forall g, owned m bl g -> owned m' bl' g /\ refs (area m') g = refs (area m) g.

Lemma counts_kept_refl P m bl : mem_ok m bl -> spare P m bl -> counts_kept P m bl m.
Proof. intros. by exists bl. Qed.

Lemma next_table_spare P m bl f i create m' r :
  mem_ok m bl -> spare P m bl -> next_table alloc npage m f i create = Ok (m', r) -> counts_kept P m bl m'.
Proof.
  intros Hm Hs. unfold next_table. destruct (word m f i) as [pde| | |]; cbn [mbind res_bind]; try done.
  assert (Hend : forall m1 (there : bool), counts_kept P m bl m1 ->
    (if there then pde ← word m1 f i; t ← KADDR npage (PTE_ADDR pde); Ok (m1, Some t) else Ok (m1, None)) = Ok (m', r) -> counts_kept P m bl m').
  { intros m1 [|] Hc; [|by intros [= <- _]]. destruct (word m1 f i) as [e| | |]; cbn [mbind res_bind]; try done. destruct (KADDR _ _); cbn [mbind res_bind]; try done. by intros [= <- _]. }
  destruct (valid pde); [cbn [mbind res_bind]; apply (Hend m true); by apply counts_kept_refl|]. destruct create; [|cbn [mbind res_bind]; apply (Hend m false); by apply counts_kept_refl].
  destruct (alloc_page_run npg Hnpg m bl Hm) as [(m1 & -> & -> & _)|(m1 & p & bl1 & E1 & _ & Hm1 & Hfr1 & Hp & Hownp & Hown1)]; [cbn [mbind res_bind]; apply (Hend m false); by apply counts_kept_refl|].
  rewrite E1. cbn [mbind res_bind]. destruct (alloc_page_spare P m bl m1 p bl1 Hm Hs E1 Hm1) as (Hs1 & _ & _ & Hr1).
  destruct (upd_ref_run npg m1 bl1 p 1 Hm1 Hp) as (m2 & pg & E2 & Hpg & Hpg2 & Hfr2 & Hm2 & Hu2). unfold set_page_ref. rewrite E2. cbn [mbind res_bind].
  destruct (KADDR npage (page2pa p)) as [k| | |]; cbn [mbind res_bind]; try done.
  unfold clear_frame. destruct (deref (frames m2) k) as [lk| | |]; cbn [mbind res_bind]; try done.
  set (m3 := with_frames m2 _). destruct (set_word m3 f i _) as [m4| | |] eqn:E4; cbn [mbind res_bind]; try done.
  destruct (set_word_frames _ _ _ _ _ E4) as [Ha4 Hok4]. change (area m3) with (area m2) in Ha4. apply (Hend m4 true). exists bl1. split; [|split].
  - split; [rewrite Ha4; apply Hm2|]. intros g Hg. apply Hok4. unfold frame_ok, m3. cbn [frames with_frames]. destruct (decide (g = k)) as [->|Hne]; [rewrite lookup_insert_eq; by eexists|rewrite lookup_insert_ne by done; by apply Hm2].
  - intros j Hj. destruct (Hs1 j Hj) as [HPj Hrj]. split; [done|]. rewrite Ha4. unfold refs in *. rewrite Hpg2, lookup_insert_ne; [done|]. intros <-. by destruct (Hownp p ltac:(lia)).
  - intros g Hg. destruct (Hown1 g Hg) as [Hg1 Hgp]. split; [unfold owned; rewrite Ha4; by apply Hu2|]. rewrite Ha4, <- Hr1. unfold refs. by rewrite Hpg2, lookup_insert_ne.
Qed.

Lemma get_pte_spare P m bl root la create m' r :
  mem_ok m bl -> spare P m bl -> get_pte alloc npage m root la create = Ok (m', r) -> counts_kept P m bl m'.
Proof.
  intros Hm Hs. unfold get_pte. destruct (next_table _ _ _ _ _ _) as [[m1 pd0]| | |] eqn:E1; cbn [mbind res_bind]; try done. pose proof (next_table_spare P m bl _ _ _ _ _ Hm Hs E1) as Hc1.
  destruct pd0 as [pd0|]; [|by intros [= <- _]]. destruct (next_table _ _ _ pd0 _ _) as [[m2 pt]| | |] eqn:E2; cbn [mbind res_bind]; try done.
  assert (counts_kept P m bl m2) as Hc2.
  { destruct Hc1 as (bl1 & Hm1 & Hs1 & Hk1). destruct (next_table_spare P m1 bl1 _ _ _ _ _ Hm1 Hs1 E2) as (bl2 & Hm2 & Hs2 & Hk2). exists bl2. split; [done|]. split; [done|].
    intros g Hg. destruct (Hk1 g Hg) as [Hg1 <-]. by apply Hk2. }
  by destruct pt; intros [= <- _].
Qed.

(** The counts after [page_insert] at an address without a page. *)
Lemma page_insert_refs m m1 bl1 root p la perm t m' r0 :
  get_pte alloc npage m root la true = Ok (m1, Some (t, PTX la)) -> table m1 root (PDX1 la) (PDX0 la) = Some t -> mem_ok m1 bl1 -> pt_ok m1 root ->
  0 <= p < npg -> refs (area m1) p = Some r0 -> valid (vm_pte m1 root la) = false -> page_insert alloc free npage m root p la perm = Ok (m', 0) ->
  refs (area m') p = Some (i32 (r0 + 1)) /\ forall i, i <> p -> refs (area m') i = refs (area m1) i.
Proof.
  intros Hget Htab Hm1 Ht1 Hp Hr Hnv. unfold page_insert. rewrite Hget. cbn [mbind res_bind]. unfold refs in Hr. destruct (pages (area m1) !! p) as [pg|] eqn:Hpg; [|done]. injection Hr as <-.
  unfold page_ref_inc. rewrite (deref_some _ _ _ Hpg). cbn [mbind res_bind].
  destruct (upd_ref_run npg m1 bl1 p (i32 (ref pg + 1)) Hm1 Hp) as (m2 & pg2 & -> & Hpg2 & Ep2 & Hfr2 & Hm2 & _). cbn [mbind res_bind].
  pose proof (po_range _ _ _ Ht1 t ltac:(by eapply is_leaf)) as Htr. destruct (index_range la) as (_ & _ & Hx).
  destruct (word_run m2 t (PTX la)) as (w & -> & Hw); [by apply Hm2|done|]. cbn [mbind res_bind]. rewrite (entry_frames m1) in Hw by (by rewrite Hfr2).
  assert (valid w = false) as -> by (unfold vm_pte in Hnv; rewrite Htab, Hw in Hnv; exact Hnv). cbn [mbind res_bind].
  destruct (set_word _ _ _ _) as [m3| | |] eqn:E3; cbn [mbind res_bind]; try done. intros [= <-]. destruct (set_word_frames _ _ _ _ _ E3) as [Ha3 _]. unfold refs. rewrite Ha3, Ep2.
  split; [by rewrite lookup_insert_eq|]. intros i Hi. by rewrite lookup_insert_ne.
Qed.

(** What [pgdir_alloc_page] makes: a page [p] that nobody used, at [la]. *)
Record mapped_new (P : Z -> Prop) (m : pmem) (bl : list block) (root la perm p : Z) (m' : pmem) (bl' : list block) : Prop := MappedNew {
  mn_mem : mem_ok m' bl';
  mn_tree : pt_ok m' root;
  mn_owns : owns m' bl' root;
  mn_spare : spare P m' bl';
  mn_page : P p /\ 0 <= p < npg /\ owned m' bl' p /\ ~ is_table m' root p /\ ~ owned m bl p;
  mn_pte la' : vm_pte m' root la' = if decide (vpn la' = vpn la) then pte_create (page2ppn p) (Z.lor PTE_V perm) else vm_pte m root la';
  mn_keep f : owned m bl f -> owned m' bl' f /\ (~ is_table m root f -> ~ is_table m' root f /\ frames m' !! f = frames m !! f);
  mn_kernel : kernel_same m m' root;
  mn_memory : total bl <= total bl' + 3
}.

Lemma pgdir_alloc_page_run P m bl root la perm :
  mem_ok m bl -> pt_ok m root -> owns m bl root -> spare P m bl -> PDX1 la < NUDX -> valid (vm_pte m root la) = false -> 4 <= total bl ->
  exists m' bl' p, pgdir_alloc_page alloc free npage m root la perm = Ok (m', Some p) /\ mapped_new P m bl root la perm p m' bl'.
Proof.
  intros Hm Ht Hown Hs Hu Hnv Htot.
  destruct (alloc_page_run npg Hnpg m bl Hm) as [(m1 & _ & _ & Hz)|(m1 & p & bl1 & E1 & Htot1 & Hm1 & Hfr1 & Hp & Hownp & Hown1)]; [lia|].
  destruct (alloc_page_spare P m bl m1 p bl1 Hm Hs E1 Hm1) as (Hs1 & HPp & Hrp & Hr1).
  destruct (tree_same npg m m1 root) as (His1 & Hpte1 & Ht1 & _); [intros f _; by rewrite Hfr1|]. specialize (Ht1 Ht).
  assert (Ho1 : owns m1 bl1 root) by (intros f Hf%His1; by apply Hown1, Hown).
  assert (Hpt : ~ is_table m1 root p) by (intros Hf%His1; by destruct (Hown1 p (Hown p Hf))).
  destruct (get_pte_make npg Hnpg m1 bl1 root la Hm1 Ht1 Ho1 Hu) as (m2 & bl2 & r & E2 & [Hm2 Ht2 Ho2 Hpte2 Hkn2 Hk2 _] & Htot2 & Hr2).
  destruct r as [x|]; [|lia]. destruct Hr2 as (t & -> & Htab2). destruct (Hk2 p Hownp) as [Hownp2 Hkp2]. destruct (Hkp2 Hpt) as [Hpt2 _].
  destruct (get_pte_spare P m1 bl1 root la true m2 _ Hm1 Hs1 E2) as (bl2' & Hm2' & Hs2 & Hc2). assert (bl2' = bl2) as -> by (by eapply mem_unique).
  assert (Hnv2 : valid (vm_pte m2 root la) = false) by (by rewrite Hpte2, Hpte1).
  destruct (page_insert_at (free := free) npg m1 m2 bl2 root p la perm t E2 Htab2 Hm2 Ht2 Ho2 Hownp2 Hnv2) as (m3 & E3 & Hm3 & Ht3 & Ho3 & Hu3 & His3 & Hfr3 & Hpte3 & Hkn3).
  destruct (Hc2 p Hownp) as [_ Hrp2]. rewrite Hrp in Hrp2. destruct (page_insert_refs m1 m2 bl2 root p la perm t m3 0 E2 Htab2 Hm2 Ht2 Hp Hrp2 Hnv2 E3) as [Hr3 Hr3o].
  exists m3, bl2, p. split.
  - unfold pgdir_alloc_page. rewrite E1. cbn [mbind res_bind]. rewrite E3. cbn [mbind res_bind]. change (0 =? 0) with true. cbv iota. unfold refs in Hr3. destruct (pages (area m3) !! p) as [pg|] eqn:Epg; [|done].
    rewrite (deref_some _ _ _ Epg). cbn [mbind res_bind]. injection Hr3 as ->. done.
  - split; [done|done|done| | | | | |lia].
    + intros i Hi. destruct (Hs2 i Hi) as [HPi Hri]. split; [done|]. rewrite Hr3o; [done|]. intros ->. by destruct (Hownp2 p ltac:(lia)).
    + split; [done|]. split; [done|]. split; [by apply Hu3|]. split; [by rewrite His3|]. intros Hf. by destruct (Hown1 p Hf).
    + intros la'. rewrite Hpte3. destruct (decide (vpn la' = vpn la)); [done|]. by rewrite Hpte2, Hpte1.
    + intros f Hf. destruct (Hown1 f Hf) as [Hf1 _]. destruct (Hk2 f Hf1) as [Hf2 Hkf]. split; [by apply Hu3|]. intros Hn. destruct (Hkf ltac:(by rewrite His1)) as [Hn2 E]. split; [by rewrite His3|]. rewrite Hfr3 by done. by rewrite E, Hfr1.
    + intros j Hj. rewrite Hkn3, Hkn2 by done. apply entry_frames. by rewrite Hfr1.
Qed.
End Fresh.
