(* ===== verification/PageInsert.v ===== *)
(** [page_insert] of lab8/kern/mm/pmm.c, whether or not the address has a page already, with
    the reference counts of the pages.

    [inserted] is what a successful call leaves: the mapping, the counts of the new and of
    the old page, and everything else as it was. *)
From S2P Require Import Prelude Lists Page Blocks FreeArea DefaultPmm BestFitPmm StateM Vmm PageTable PageRange PageCopy PageFresh.

(** The address [la] leads to the page [q]. *)
Definition mapped (m : pmem) (root la q : Z) : Prop := valid (vm_pte m root la) = true /\ target (vm_pte m root la) = q.

#[export] Instance mapped_dec m root la q : Decision (mapped m root la q).
Proof. unfold mapped. apply _. Defined.

Section Insert.
Context `{PageAllocator alloc free} (npg : Z) (Hnpg : npg + 1 < 2 ^ 32).
Abbreviation npage := (npg + nbase).
Abbreviation mem_ok := (mem_ok npg).
Abbreviation pt_ok := (pt_ok npg).

(** The page [page], of count [n], is at [la] now; [bl] and [bl'] are the free blocks. *)
Record inserted (m : pmem) (bl : list block) (root page la perm n : Z) (m' : pmem) (bl' : list block) : Prop := Inserted {
  in_mem : mem_ok m' bl';
  in_tree : pt_ok m' root;
  in_owns : owns m' bl' root;
  in_kernel : kernel_same m m' root;
  in_pte la' : vm_pte m' root la' = if decide (vpn la' = vpn la) then pte_create (page2ppn page) (Z.lor PTE_V perm) else vm_pte m root la';
  in_page : owned m' bl' page /\ refs (area m') page = Some (if decide (mapped m root la page) then n else n + 1);
  in_old q k : mapped m root la q -> q <> page -> refs (area m) q = Some k -> 0 < k < 2 ^ 31 ->
    if decide (k = 1) then covers bl' q else owned m' bl' q /\ refs (area m') q = Some (k - 1);
  in_rest f : owned m bl f -> f <> page -> ~ mapped m root la f -> owned m' bl' f /\ refs (area m') f = refs (area m) f;
  in_frames f : owned m bl f -> ~ is_table m root f -> frames m' !! f = frames m !! f
}.

Definition insert_ready (m : pmem) (bl : list block) (root page la perm n : Z) : Prop :=
  mem_ok m bl /\ pt_ok m root /\ owns m bl root /\ PDX1 la < NUDX /\ owned m bl page /\ ~ is_table m root page /\
  refs (area m) page = Some n /\ 0 <= n < 2 ^ 31 - 1.

(** No page there yet. *)
Lemma insert_absent m bl root page la perm n :
  insert_ready m bl root page la perm n -> valid (vm_pte m root la) = false ->
  exists m' bl' r, page_insert alloc free npage m root page la perm = Ok (m', r) /\
    (r = 0 /\ inserted m bl root page la perm n m' bl' \/ r = - E_NO_MEM /\ grown npg m bl root m' bl').
Proof.
  intros (Hm & Ht & Hown & Hu & Hop & Hnt & Hn & Hnr) Hnv.
  destruct (get_pte_make npg Hnpg m bl root la Hm Ht Hown Hu) as (m1 & bl1 & r & Hget & Hg & _ & Hr). destruct r as [s|].
  2:{ exists m1, bl1, (- E_NO_MEM). unfold page_insert. rewrite Hget. split; [done|]. by right. }
  destruct Hr as (t & -> & Htab). pose proof Hg as [Hm1 Ht1 Hown1 Hpte1 Hkn1 Hk1 Hr1]. destruct (Hk1 page Hop) as [Hop1 _].
  destruct (page_insert_at (free := free) npg m m1 bl1 root page la perm t Hget Htab Hm1 Ht1 Hown1 Hop1) as (m' & Hrun & Hm' & Ht' & Hown' & Hu' & His & Hfr & Hpte & Hkn); [by rewrite Hpte1|].
  exists m', bl1, 0. split; [done|]. left. split; [done|]. destruct (owned_pages _ _ _ Hop1) as [pg Hpg].
  assert (0 <= page < npg) as Hp by (apply (fl_pages _ _ _ _ (proj1 Hm1)); by exists pg).
  destruct (page_insert_refs (free := free) npg m m1 bl1 root page la perm t m' n Hget Htab Hm1 Ht1 Hp) as [Hrp Hro]; [by rewrite Hr1|by rewrite Hpte1|done|].
  assert (Hno : forall q, ~ mapped m root la q) by (intros q [Hv _]; by rewrite Hnv in Hv).
  split; [done|done|done|intros j Hj; by rewrite Hkn, Hkn1| |split; [by apply Hu'|by rewrite Hrp, decide_False, i32_small by (done || lia)]|by intros q k Hq%Hno| |].
  - intros la'. rewrite Hpte. destruct (decide _); [done|apply Hpte1].
  - intros f Hf Hne _. split; [by apply Hu', Hk1|]. rewrite Hro by done. by apply Hr1.
  - intros f Hf Hn'. destruct (Hk1 f Hf) as [_ Hkf]. destruct (Hkf Hn') as [Hn1 <-]. by apply Hfr.
Qed.

Lemma mapped_table m root la : valid (vm_pte m root la) = true -> exists t, table m root (PDX1 la) (PDX0 la) = Some t.
Proof. unfold vm_pte. destruct (table m root (PDX1 la) (PDX0 la)) as [t|]; [by exists t|done]. Qed.

(** The last step: the entry is written in a memory [m1] with the mappings of [m], but for [la]. *)
Lemma entry_written m m1 bl1 root la v t :
  mem_ok m1 bl1 -> pt_ok m1 root -> table m1 root (PDX1 la) (PDX0 la) = Some t -> (forall la', vpn la' <> vpn la -> vm_pte m1 root la' = vm_pte m root la') ->
  exists m', set_word m1 t (PTX la) v = Ok m' /\ area m' = area m1 /\ mem_ok m' bl1 /\ pt_ok m' root /\ (forall f, is_table m' root f <-> is_table m1 root f) /\
    (forall la', vm_pte m' root la' = if decide (vpn la' = vpn la) then v else vm_pte m root la') /\ kernel_same m1 m' root /\
    forall f, ~ is_table m1 root f -> frames m' !! f = frames m1 !! f.
Proof.
  intros Hm1 Ht1 Htab Hsame. pose proof (po_range _ _ _ Ht1 t ltac:(by eapply is_leaf)) as Htr. destruct (index_range la) as (_ & _ & Hx).
  destruct (set_word_run m1 t (PTX la) v) as (m2 & -> & Ha & Hok & Hfr & He); [by apply Hm1|done|].
  destruct (leaf_written npg m1 m2 root t la v Ht1 Htab He) as (Ht2 & His & _ & Hpte & Hkn). exists m2. split; [done|]. split; [done|].
  split; [split; [rewrite Ha; apply Hm1|intros g Hg; by apply Hok, Hm1]|]. split; [done|]. split; [done|]. split; [|split; [done|]].
  - intros la'. rewrite Hpte. destruct (decide (vpn la' = vpn la)); [done|by apply Hsame].
  - intros f Hf. apply Hfr. intros ->. apply Hf. by eapply is_leaf.
Qed.

(** Counting a use of the page more or less changes nothing else. *)
Lemma recount m bl root page v n :
  mem_ok m bl -> pt_ok m root -> 0 <= page < npg -> refs (area m) page = Some n ->
  exists m1 pg, pages (area m) !! page = Some pg /\ ref pg = n /\ upd_pmem_page m page (set_ref v) = Ok m1 /\ mem_ok m1 bl /\ pt_ok m1 root /\
    frames m1 = frames m /\ (forall c, owned m bl c -> owned m1 bl c) /\ (forall i, refs (area m1) i = if decide (i = page) then Some v else refs (area m) i) /\
    (forall f, is_table m1 root f <-> is_table m root f) /\ (forall la, vm_pte m1 root la = vm_pte m root la) /\ forall i j, table m1 root i j = table m root i j.
Proof.
  intros Hm Ht Hp Hn. destruct (upd_ref_run npg m bl page v Hm Hp) as (m1 & pg & E & Hpg & Hpg1 & Hfr & Hm1 & Hu).
  destruct (tree_same npg m m1 root) as (His & Hpte & Ht1 & Htab); [intros f _; by rewrite Hfr|].
  exists m1, pg. split; [done|]. split; [unfold refs in Hn; rewrite Hpg in Hn; by injection Hn|]. split; [done|]. split; [done|]. split; [by apply Ht1|]. split; [done|].
  split; [intros c; apply Hu|]. split; [|by split_and!]. intros i. unfold refs. rewrite Hpg1. destruct (decide (i = page)) as [->|Hne]; [by rewrite lookup_insert_eq|by rewrite lookup_insert_ne].
Qed.

(** The same page is there already: only the permissions are new. *)
Lemma insert_same m bl root page la perm n :
  insert_ready m bl root page la perm n -> mapped m root la page ->
  exists m', page_insert alloc free npage m root page la perm = Ok (m', 0) /\ inserted m bl root page la perm n m' bl.
Proof.
  intros (Hm & Ht & Hown & Hu & Hop & Hnt & Hn & Hnr) [Hv Hq]. destruct (owned_pages _ _ _ Hop) as [pg0 Hpg0].
  assert (0 <= page < npg) as Hp by (apply (fl_pages _ _ _ _ (proj1 Hm)); by exists pg0).
  destruct (mapped_table m root la Hv) as [t Htab]. pose proof (get_pte_there (alloc := alloc) npg m root la true t (proj2 Hm) Ht Htab) as Hget.
  destruct (recount m bl root page (i32 (n + 1)) n Hm Ht Hp Hn) as (m1 & pg & Hpg & Er & E1 & Hm1 & Ht1 & Hfr1 & Ho1 & Hr1 & His1 & Hpte1 & Htab1).
  destruct (recount m1 bl root page (i32 (i32 (n + 1) - 1)) (i32 (n + 1)) Hm1 Ht1 Hp) as (m2 & pg1 & Hpg1 & Er1 & E2 & Hm2 & Ht2 & Hfr2 & Ho2 & Hr2 & His2 & Hpte2 & Htab2); [by rewrite Hr1, decide_True|].
  pose proof (po_range _ _ _ Ht t ltac:(by eapply is_leaf)) as Htr. destruct (index_range la) as (_ & _ & Hx).
  destruct (word_run m1 t (PTX la)) as (w & Hw & Hwe); [by apply Hm1|done|]. assert (Hwv : vm_pte m root la = w) by (rewrite <- Hpte1; unfold vm_pte; by rewrite Htab1, Htab, Hwe).
  rewrite Hwv in Hv, Hq.
  destruct (entry_written m m2 bl root la (pte_create (page2ppn page) (Z.lor PTE_V perm)) t) as (m3 & E3 & Ha3 & Hm3 & Ht3 & His3 & Hpte3 & Hkn3 & Hfr3); [done|done|by rewrite Htab2, Htab1|intros la' _; by rewrite Hpte2, Hpte1|].
  exists m3. split.
  - unfold page_insert. rewrite Hget. cbn [mbind res_bind]. unfold page_ref_inc. rewrite (deref_some _ _ _ Hpg). cbn [mbind res_bind]. rewrite Er, E1. cbn [mbind res_bind]. rewrite Hw. cbn [mbind res_bind].
    rewrite Hv. unfold pte2page. rewrite Hv. change (pa2page npage (PTE_ADDR w)) with (KADDR npage (PTE_ADDR w)). rewrite KADDR_target by (by rewrite Hq). cbn [mbind res_bind]. rewrite Hq, Z.eqb_refl.
    unfold page_ref_dec. rewrite (deref_some _ _ _ Hpg1). cbn [mbind res_bind]. rewrite Er1, E2. cbn [mbind res_bind]. by rewrite E3.
  - assert (Hrefs : forall i, refs (area m3) i = refs (area m) i).
    { intros i. rewrite Ha3, Hr2, Hr1. destruct (decide (i = page)) as [->|]; [|done]. rewrite !i32_small by (rewrite ?i32_small by lia; lia). rewrite Hn. f_equal. lia. }
    assert (Hown3 : forall f, owned m bl f -> owned m3 bl f) by (intros f Hf; unfold owned; rewrite Ha3; by apply Ho2, Ho1).
    split; [done|done| | |done| | | |].
    + intros f Hf%His3%His2%His1. by apply Hown3, Hown.
    + intros j Hj. rewrite Hkn3 by done. apply entry_frames. by rewrite Hfr2, Hfr1.
    + split; [by apply Hown3|]. rewrite Hrefs, decide_True by (split; by rewrite Hwv). done.
    + intros q k [_ Hq'] Hne. rewrite Hwv in Hq'. congruence.
    + intros f Hf _ _. split; [by apply Hown3|by rewrite Hrefs].
    + intros f _ Hf. rewrite Hfr3 by (by rewrite His2, His1). by rewrite Hfr2, Hfr1.
Qed.

(** Another page is there: it is given up. *)
Lemma insert_over m bl root page la perm n q x :
  insert_ready m bl root page la perm n -> mapped m root la q -> q <> page -> owned m bl q -> ~ is_table m root q -> covers bl x -> q < x ->
  exists m' bl', page_insert alloc free npage m root page la perm = Ok (m', 0) /\ inserted m bl root page la perm n m' bl'.
Proof.
  intros (Hm & Ht & Hown & Hu & Hop & Hnt & Hn & Hnr) [Hv Hq] Hne Hoq Hntq Hcx Hqx. destruct (owned_pages _ _ _ Hop) as [pg0 Hpg0]. destruct (owned_pages _ _ _ Hoq) as [qg0 Hqg0].
  assert (0 <= page < npg) as Hp by (apply (fl_pages _ _ _ _ (proj1 Hm)); by exists pg0). assert (0 <= q < npg) as Hqr by (apply (fl_pages _ _ _ _ (proj1 Hm)); by exists qg0).
  destruct (mapped_table m root la Hv) as [t Htab]. pose proof (get_pte_there (alloc := alloc) npg m root la true t (proj2 Hm) Ht Htab) as Hget.
  destruct (recount m bl root page (i32 (n + 1)) n Hm Ht Hp Hn) as (m1 & pg & Hpg & Er & E1 & Hm1 & Ht1 & Hfr1 & Ho1 & Hr1 & His1 & Hpte1 & Htab1).
  pose proof (po_range _ _ _ Ht t ltac:(by eapply is_leaf)) as Htr. destruct (index_range la) as (_ & _ & Hx).
  destruct (word_run m1 t (PTX la)) as (w & Hw & Hwe); [by apply Hm1|done|]. assert (Hwv : vm_pte m root la = w) by (rewrite <- Hpte1; unfold vm_pte; by rewrite Htab1, Htab, Hwe).
  destruct (page_remove_pte_run (free := free) npg m1 bl root la t x Hm1 Ht1) as (m2 & bl2 & E2 & Hm2 & Ht2 & Hown2 & _ & His2 & Ho2 & Hfr2 & Hkn2 & Hpte2 & Hdr & Htab2).
  { intros f Hf%His1. by apply Ho1, Hown. } { done. } { by rewrite Htab1. } { intros _. rewrite Hpte1, Hq, His1. split; [by apply Ho1|done]. }
  rewrite Hpte1, Hq in Hdr, Ho2. destruct (Hdr Hv) as [Hd1 Hd2]. rewrite Hwv in Hv, Hq.
  destruct (entry_written m m2 bl2 root la (pte_create (page2ppn page) (Z.lor PTE_V perm)) t) as (m3 & E3 & Ha3 & Hm3 & Ht3 & His3 & Hpte3 & Hkn3 & Hfr3); [done|done|by rewrite Htab2, Htab1| |].
  { intros la' Hla. rewrite Hpte2, decide_False by tauto. apply Hpte1. }
  exists m3, bl2. split.
  - unfold page_insert. rewrite Hget. cbn [mbind res_bind]. unfold page_ref_inc. rewrite (deref_some _ _ _ Hpg). cbn [mbind res_bind]. rewrite Er, E1. cbn [mbind res_bind]. rewrite Hw. cbn [mbind res_bind].
    rewrite Hv. unfold pte2page. rewrite Hv. change (pa2page npage (PTE_ADDR w)) with (KADDR npage (PTE_ADDR w)). rewrite KADDR_target by (by rewrite Hq). cbn [mbind res_bind]. rewrite Hq, (proj2 (Z.eqb_neq _ _) Hne), E2.
    cbn [mbind res_bind]. by rewrite E3.
  - assert (Hown3 : forall f, owned m bl f -> f <> q -> owned m3 bl2 f) by (intros f Hf Hfq; unfold owned; rewrite Ha3; apply Ho2; [by apply Ho1|by intros [_ ->]]).
    split; [done|done| | |done| | | |].
    + intros f Hf%His3. unfold owned. rewrite Ha3. by apply Hown2.
    + intros j Hj. rewrite Hkn3, Hkn2 by done. apply entry_frames. by rewrite Hfr1.
    + split; [apply Hown3; [done|congruence]|]. rewrite Ha3, Hd1, Hr1, decide_True by congruence. rewrite decide_False, i32_small by (lia || (intros [_ E]; rewrite Hwv in E; congruence)). done.
    + intros q' k [_ Hq'] _ Hk Hkr. rewrite Hwv, Hq in Hq'. subst q'. specialize (Hd2 k). rewrite Hr1, decide_False in Hd2 by done. specialize (Hd2 Hk).
      rewrite i32_small in Hd2 by lia. destruct (decide (k = 1)) as [->|Hk1]; [by rewrite decide_True in Hd2|]. rewrite decide_False in Hd2 by lia. destruct Hd2 as [Hd2 Hd3].
      unfold owned. rewrite Ha3. split; [by apply Hd2, Ho1|done].
    + intros f Hf Hfp Hnm. assert (Hfq : f <> q) by (intros ->; apply Hnm; split; by rewrite Hwv). split; [by apply Hown3|]. rewrite Ha3, Hd1, Hr1, decide_False by done. done.
    + intros f _ Hf. rewrite Hfr3 by (by rewrite His2, His1). rewrite Hfr2 by (by rewrite His1). by rewrite Hfr1.
Qed.

(** C13. [page_insert] maps the page, over any allocator that keeps its contract.  At a user
    address where another page is mapped - a page in use that is no table and lies below
    some free frame, as a release of its last use needs - or the same page, or none, it
    returns 0 or, when a table is missing and there is no memory for it, [- E_NO_MEM]
    (which the comment at pmm.c line 511 denies).  After 0 exactly the addresses on that
    virtual page lead to the page, with the permissions asked for, [get_page] finds it
    again, and every other user address leads where it led before; the page counts one use
    more, unless it was mapped there already; the page that was there counts one use less
    and is free again if that was its last one; every other page in use keeps its count.
    After [- E_NO_MEM] no address leads elsewhere and no count has changed.  The kernel's
    entries in the root never change, the tables stay a tree of frames in use, and the
    contents of no page in use are touched. *)
Theorem page_insert_maps m bl root page la perm n x :
  insert_ready m bl root page la perm n -> 0 <= perm < 2 ^ 10 ->
  (forall q, mapped m root la q -> q <> page -> owned m bl q /\ ~ is_table m root q /\ covers bl x /\ q < x) ->
  exists m' bl' r, page_insert alloc free npage m root page la perm = Ok (m', r) /\
    (r = 0 /\ inserted m bl root page la perm n m' bl' /\ (exists ptep, get_page alloc npage m' root la = Ok (m', Some ptep, Some page)) \/
     r = - E_NO_MEM /\ grown npg m bl root m' bl').
Proof.
  intros Hr Hperm Hold. pose proof Hr as (Hm & Ht & _ & Hu & Hop & _).
  assert (Hfound : forall m' bl', inserted m bl root page la perm n m' bl' -> exists ptep, get_page alloc npage m' root la = Ok (m', Some ptep, Some page)).
  { intros m' bl' Hi. destruct (in_page _ _ _ _ _ _ _ _ _ Hi) as [Hop' _]. destruct (owned_pages _ _ _ Hop') as [pg Hpg]. pose proof (in_mem _ _ _ _ _ _ _ _ _ Hi) as Hm'.
    assert (0 <= page < npg) as Hp by (apply (fl_pages _ _ _ _ (proj1 Hm')); by exists pg).
    apply (get_page_look npg); [apply Hm'|by eapply in_tree|done| | |done]; rewrite (in_pte _ _ _ _ _ _ _ _ _ Hi), decide_True by done; [apply valid_create|apply target_create; [lia|by apply perm_range]]. }
  destruct (valid (vm_pte m root la)) eqn:Hv.
  - destruct (decide (target (vm_pte m root la) = page)) as [E|E].
    + destruct (insert_same m bl root page la perm n Hr) as (m' & -> & Hi); [by split|]. exists m', bl, 0. split; [done|]. left. split; [done|]. split; [done|]. by eapply Hfound.
    + destruct (Hold (target (vm_pte m root la))) as (Ho & Hnt & Hx & Hlt); [by split|done|].
      destruct (insert_over m bl root page la perm n _ x Hr (conj Hv eq_refl) E Ho Hnt Hx Hlt) as (m' & bl' & -> & Hi). exists m', bl', 0. split; [done|]. left. split; [done|]. split; [done|]. by eapply Hfound.
  - destruct (insert_absent m bl root page la perm n Hr Hv) as (m' & bl' & r & -> & [[-> Hi]|[-> Hg]]); exists m', bl'; [exists 0|exists (- E_NO_MEM)]; (split; [done|]); [left|by right].
    split; [done|]. split; [done|]. by eapply Hfound.
Qed.
End Insert.
