(* ===== verification/Memory.v ===== *)
(** The memory of a process as a whole (lab8/kern/mm/vmm.c, [dup_mmap] and [exit_mmap]):
    the areas of Vmm.v with the page tables of PageTable.v. *)
From S2P Require Import Prelude Lists Page Blocks FreeArea StateM Vmm PageTable PageRange PageCopy.

Section Memory.
Context (alloc : alloc_pages_t) (free : free_pages_t) (npage : Z).

Definition pgdir_of (v : vmm) (mm : Z) : res Z := x ← deref (mms v) mm; match mm_pgdir x with Some d => Ok d | None => Fault end.

(** The loop of [dup_mmap] over the areas [l]; [ok x] is the outcome of [kmalloc] for the
    copy of the area at [x]. *)
Fixpoint dup_areas (ok : Z -> bool) (v : vmm) (m : pmem) (to from : Z) (l : list Z) : res (vmm * pmem * Z) :=
  match l with
  | [] => Ok (v, m, 0)
  | x :: l' =>
      a ← deref (vmas v) x;
      match vma_create (ok x) v (vm_start a) (vm_end a) (vm_flags a) with
      | (v, None) => Ok (v, m, - E_NO_MEM)
      | (v, Some nvma) =>
          v ← insert_vma_struct v to nvma;
          td ← pgdir_of v to;
          fd ← pgdir_of v from;
          '(m, r) ← copy_range alloc free npage m td fd (vm_start a) (vm_end a);
          if r =? 0 then dup_areas ok v m to from l' else Ok (v, m, - E_NO_MEM)
      end
  end.

(** From the last area to the first; [to] and [from] are different descriptions. *)
Definition dup_mmap (ok : Z -> bool) (v : vmm) (m : pmem) (to from : Z) : res (vmm * pmem * Z) :=
  f ← deref (mms v) from; dup_areas ok v m to from (rev (mmap_list f)).

Fixpoint over_areas (f : pmem -> Z -> Z -> Z -> res pmem) (v : vmm) (m : pmem) (pgdir : Z) (l : list Z) : res pmem :=
  match l with
  | [] => Ok m
  | x :: l' => a ← deref (vmas v) x; m ← f m pgdir (vm_start a) (vm_end a); over_areas f v m pgdir l'
  end.

Definition exit_mmap (v : vmm) (m : pmem) (mm : Z) : res pmem :=
  x ← deref (mms v) mm;
  _ ← c_assert (mm_count x =? 0);
  pgdir ← pgdir_of v mm;
  m ← over_areas (unmap_range alloc free npage) v m pgdir (mmap_list x);
  over_areas (exit_range free npage) v m pgdir (mmap_list x).
End Memory.

(** * The memory of a forked process *)

(** [la] is on a page of one of the areas. *)
Definition in_areas (al : list vma_struct) (la : Z) : Prop := Exists (fun a => vm_start a / PGSIZE <= vpn la < vm_end a / PGSIZE) al.

#[export] Instance in_areas_dec al la : Decision (in_areas al la).
Proof. unfold in_areas. apply _. Defined.

Fixpoint area_pages (al : list vma_struct) : Z :=
  match al with [] => 0 | a :: al' => vm_end a / PGSIZE - vm_start a / PGSIZE + area_pages al' end.

(** The pages of the areas [al] have been copied from [from] in [m] to [to] in [m']. *)
Record dup_done (npg : Z) (m : pmem) (bl : list block) (to from : Z) (al : list vma_struct) (m' : pmem) (bl' : list block) : Prop := DupDone {
  dd_mem : mem_ok npg m' bl';
  dd_tree : pt_ok npg m' to;
  dd_owns : owns m' bl' to;
  dd_pages la : in_areas al la -> valid (vm_pte m from la) = true -> copy_of m bl from m' bl' to la;
  dd_rest la : ~ (in_areas al la /\ valid (vm_pte m from la) = true) -> vm_pte m' to la = vm_pte m to la;
  dd_keep f : owned m bl f -> owned m' bl' f /\ (~ is_table m to f -> ~ is_table m' to f /\ frames m' !! f = frames m !! f);
  dd_kernel : kernel_same m m' to;
  dd_memory : total bl <= total bl' + 3 * area_pages al
}.

Section Fork.
Context `{PageAllocator alloc free} (npg : Z) (Hnpg : npg + 1 < 2 ^ 32).
Abbreviation npage := (npg + nbase).
Abbreviation mem_ok := (mem_ok npg).
Abbreviation pt_ok := (pt_ok npg).
Abbreviation dup_done := (dup_done npg).

Variables (m : pmem) (bl : list block) (to from : Z) (al : list vma_struct).
Hypothesis (Hm : mem_ok m bl) (Hto : pt_ok m to) (Hfrom : pt_ok m from) (Hoto : owns m bl to) (Hofrom : owns m bl from).
Hypothesis (Hdis : forall f, is_table m from f -> ~ is_table m to f).
Hypothesis (Huser : user_areas al) (Hasc : ascending 0 al).
Hypothesis (Hpages : forall la, in_areas al la -> valid (vm_pte m from la) = true ->
  owned m bl (target (vm_pte m from la)) /\ ~ is_table m to (target (vm_pte m from la)) /\ valid (vm_pte m to la) = false).

Lemma dup_nothing : dup_done m bl to from [] m bl.
Proof. split; try done; [by intros la Hla%Exists_nil|cbn; lia]. Qed.

(** What the parent has is not touched. *)
Lemma dup_from done m' bl' :
  dup_done m bl to from done m' bl' ->
  pt_ok m' from /\ owns m' bl' from /\ (forall la, vm_pte m' from la = vm_pte m from la) /\ (forall f, is_table m' from f <-> is_table m from f) /\
  forall f, is_table m' from f -> ~ is_table m' to f.
Proof.
  intros Hd. destruct (tree_same npg m m' from) as (H1 & H2 & H3 & _).
  { intros f Hf. destruct (dd_keep _ _ _ _ _ _ _ _ Hd f (Hofrom f Hf)) as [_ Hk]. by apply Hk, Hdis. }
  split; [by apply H3|]. split; [intros f Hf%H1; by apply (dd_keep _ _ _ _ _ _ _ _ Hd), Hofrom|]. split; [done|]. split; [done|].
  intros f Hf%H1. destruct (dd_keep _ _ _ _ _ _ _ _ Hd f (Hofrom f Hf)) as [_ Hk]. by apply Hk, Hdis.
Qed.

(** One more area. *)
Lemma dup_more a done m1 bl1 m2 bl2 :
  dup_done m bl to from done m1 bl1 -> (forall la, in_areas (a :: done) la -> in_areas al la) ->
  (forall la, vm_start a / PGSIZE <= vpn la < vm_end a / PGSIZE -> ~ in_areas done la) ->
  copied_to npg m1 bl1 to from (vm_start a / PGSIZE) (vm_end a / PGSIZE) m2 bl2 -> dup_done m bl to from (a :: done) m2 bl2.
Proof.
  intros Hd Hsub Hapart [C1 C2 C3 C4 C5 C6 C7 C8]. destruct (dup_from _ _ _ Hd) as (_ & _ & Hfpte & _). destruct Hd as [D1 D2 D3 D4 D5 D6 D7 D8].
  set (here := fun la => vm_start a / PGSIZE <= vpn la < vm_end a / PGSIZE) in *.
  split; [done|done|done| | | | |].
  - intros la Hla Hv. destruct (Hpages la (Hsub la Hla) Hv) as (Ho & Hn & _). destruct (D6 _ Ho) as [_ Hkt]. destruct (Hkt Hn) as [_ Hft].
    destruct (decide (here la)) as [Hh|Hh].
    + destruct (C4 la Hh) as (np & E & Hf & Hnp & Hnt & Hnew); [by rewrite Hfpte|]. rewrite Hfpte in E, Hf. exists np. split; [done|]. split; [by rewrite Hf|]. split; [done|]. split; [done|].
      intros Hold. by apply Hnew, D6.
    + apply Exists_cons in Hla as [Hla|Hla]; [done|]. destruct (D4 la Hla Hv) as (np & E & Hf & Hnp & Hnt & Hnew). destruct (C6 np Hnp) as [Hnp2 Hk2]. destruct (Hk2 Hnt) as [Hnt2 Hf2].
      exists np. split; [rewrite C5; [done|]; by intros [? _]|]. split; [by rewrite Hf2|]. done.
  - intros la Hla. rewrite C5.
    + apply D5. intros [Hla' Hv]. apply Hla. split; [by apply Exists_cons_tl|done].
    + rewrite Hfpte. intros [Hla' Hv]. apply Hla. split; [by apply Exists_cons_hd|done].
  - intros f Hf. destruct (D6 f Hf) as [Hf1 Hk1]. destruct (C6 f Hf1) as [Hf2 Hk2]. split; [done|]. intros Hn. destruct (Hk1 Hn) as [Hn1 <-]. by apply Hk2.
  - intros j Hj. by rewrite C7, D7.
  - cbn [area_pages]. lia.
Qed.

(** The areas of [pre] lie before those of [done]. *)
Lemma apart pre a done la :
  ascending 0 (pre ++ a :: done) -> vm_start a / PGSIZE <= vpn la < vm_end a / PGSIZE -> ~ in_areas done la.
Proof.
  intros Hp Hla (b & Hb & Hlab)%Exists_exists. apply ascending_app in Hp as [_ (_ & _ & Ha)]. destruct (ascending_elem _ _ _ Ha Hb) as [Hle _].
  pose proof (Z.div_le_mono (vm_end a) (vm_start b) PGSIZE ltac:(done) Hle). lia.
Qed.

Lemma area_pages_app al1 al2 : area_pages (al1 ++ al2) = area_pages al1 + area_pages al2.
Proof. induction al1 as [|a al1 IH]; cbn; lia. Qed.

Lemma area_pages_nonneg lo l : ascending lo l -> 0 <= area_pages l.
Proof.
  revert lo. induction l as [|a l IH]; intros lo; cbn; [done|]. intros (_ & Ha & Hl). specialize (IH _ Hl).
  pose proof (Z.div_le_mono (vm_start a) (vm_end a) PGSIZE ltac:(done) ltac:(lia)). lia.
Qed.

(** The new area comes first in the child. *)
Lemma placed_first al1 al2 a done : done = al1 ++ al2 -> ascending 0 (al1 ++ a :: al2) -> (forall b, b ∈ done -> vm_start a < vm_start b) -> al1 = [] /\ al2 = done.
Proof.
  intros -> Ha Hb. destruct al1 as [|b al1]; [done|]. exfalso. pose proof (Hb b ltac:(left)). cbn in Ha. destruct Ha as (_ & ? & Ha).
  destruct (ascending_elem _ _ a Ha) as [? _]; [apply elem_of_app; right; left|lia].
Qed.

Lemma dup_areas_run ok : forall pre lpre done v1 m1 bl1 tm fm,
  Forall2 (area_is v1) lpre pre -> al = pre ++ done -> mm_inv v1 tm (set_vm_mm (Some tm) <$> done) -> pgdir_of v1 tm = Ok to -> pgdir_of v1 fm = Ok from -> tm <> fm ->
  dup_done m bl to from done m1 bl1 -> 3 * area_pages pre <= total bl1 -> (forall x, x ∈ lpre -> ok x = true) ->
  exists v2 m2 bl2, dup_areas alloc free npage ok v1 m1 tm fm (rev lpre) = Ok (v2, m2, 0) /\ mm_inv v2 tm (set_vm_mm (Some tm) <$> al) /\
    dup_done m bl to from al m2 bl2 /\ (forall mm' al', mm' <> tm -> mm_inv v1 mm' al' -> mm_inv v2 mm' al') /\
    (forall x, x <> tm -> mms v2 !! x = mms v1 !! x) /\ same_else tm v1 v2.
Proof.
  induction pre as [|a pre IH] using rev_ind; intros lpre done v1 m1 bl1 tm fm Hl Hal Hmm Htd Hfd Hne Hd Hmem Hok.
  { apply Forall2_nil_inv_r in Hl as ->. cbn in Hal. rewrite Hal. by exists v1, m1, bl1. }
  apply Forall2_app_inv_r in Hl as (lpre' & l1 & Hl & Hl1 & ->). apply Forall2_cons_inv_r in Hl1 as (x & l1' & Hx & Hl1 & ->). apply Forall2_nil_inv_r in Hl1 as ->.
  rewrite rev_app_distr. cbn [rev app dup_areas]. unfold area_is in Hx. rewrite (deref_some _ _ _ Hx). cbn [mbind res_bind]. rewrite (Hok x) by (apply elem_of_app; right; left). cbn [vma_create].
  assert (Hal' : al = pre ++ a :: done) by (rewrite Hal, <- app_assoc; done).
  assert (Hall : a ∈ al) by (rewrite Hal'; apply elem_of_app; right; left).
  pose proof Hmm as [_ (t & Ht & _ & Hlt & _)]. set (vma := fresh (dom (vmas v1))). assert (Hfresh : vmas v1 !! vma = None) by (apply not_elem_of_dom, is_fresh).
  set (new := Vma None (vm_start a) (vm_end a) (vm_flags a)). set (v2 := Vmm (<[vma := new]> (vmas v1)) (mms v1)).
  rewrite Hal' in Hasc. pose proof Hasc as Hasc'. apply ascending_app in Hasc' as [_ (Hlast & Hlt_a & Hdone)].
  assert (0 <= vm_start a) as Hpos by (destruct (ascending_elem 0 _ a Hasc); [apply elem_of_app; right; left|done]).
  pose proof (insert_vma_struct_run v2 tm (set_vm_mm (Some tm) <$> done) vma new t (mm_inv_new _ _ _ _ _ Hmm Hfresh) Ht (lookup_insert_eq _ _ _) (area_not_fresh _ _ _ _ Hlt Hfresh)) as Hins.
  specialize (Hins ltac:(cbn; lia)). rewrite decide_False in Hins.
  2:{ intros (b & (c & -> & Hc)%list_elem_of_fmap & Ho)%Exists_exists. unfold overlaps in Ho. cbn in Ho. destruct (ascending_elem _ _ _ Hdone Hc). lia. }
  destruct Hins as (v3 & al1 & al2 & -> & Hsplit & Hmm3 & Hvmas3 & Hothers3 & Hpg3). cbn [mbind res_bind].
  destruct (placed_first al1 al2 _ _ Hsplit (mi_ascending _ _ _ Hmm3)) as [-> ->].
  { intros b (c & -> & Hc)%list_elem_of_fmap. cbn. destruct (ascending_elem _ _ _ Hdone Hc). lia. }
  assert (Hpd : forall mm, pgdir_of v3 mm = pgdir_of v1 mm).
  { intros mm. unfold pgdir_of, deref. destruct (decide (mm = tm)) as [->|Hmt]; [|by rewrite Hothers3 by done].
    specialize (Hpg3 _ mm_pgdir (fun _ _ _ => eq_refl)). cbn in Hpg3. destruct (mms v3 !! tm), (mms v1 !! tm); try discriminate. cbn in Hpg3. injection Hpg3 as E. cbn [mbind res_bind]. by rewrite E. }
  assert (Hmono : forall y b, area_is v1 y b -> area_is v3 y b).
  { intros y b Hy. unfold area_is in *. rewrite Hvmas3. cbn. rewrite !lookup_insert_ne; congruence. }
  rewrite !Hpd, Htd, Hfd. cbn [mbind res_bind]. destruct (dup_from _ _ _ Hd) as (Hf1 & Hof1 & Hfpte & Hfis & Hdis1).
  assert (Hua : USERBASE <= vm_start a /\ vm_end a <= USERTOP /\ vm_start a mod PGSIZE = 0 /\ vm_end a mod PGSIZE = 0) by (unfold user_areas in Huser; rewrite Forall_forall in Huser; by apply Huser).
  destruct Hua as (Hu1 & Hu2 & Ha1 & Ha2). rewrite area_pages_app in Hmem. cbn [area_pages] in Hmem. assert (0 <= area_pages pre) as Hpp by (apply (area_pages_nonneg 0); by apply ascending_app in Hasc as [? _]).
  assert (Hlain : forall la, vm_start a / PGSIZE <= vpn la < vm_end a / PGSIZE -> in_areas al la /\ ~ in_areas done la).
  { intros la Hla. split; [apply Exists_exists; by exists a|]. by apply (apart pre a). }
  destruct (copy_range_run (alloc := alloc) (free := free) npg m1 bl1 to from (vm_start a) (vm_end a) Hnpg) as (m2 & bl2 & -> & Hc & _); try done.
  - apply Hd.
  - apply Hd.
  - apply Hd.
  - unfold USER_ACCESS. lia.
  - lia.
  - intros la Hla. destruct (Hlain la Hla) as [Hin Hout]. rewrite Hfpte. intros Hv. destruct (Hpages la Hin Hv) as (Ho & Hn & Hnv). destruct (dd_keep _ _ _ _ _ _ _ _ Hd _ Ho) as [Ho1 Hk].
    split; [done|]. split; [by apply Hk|]. rewrite (dd_rest _ _ _ _ _ _ _ _ Hd); [done|]. by intros [? _].
  - cbn [mbind res_bind Z.eqb]. assert (Hd2 : dup_done m bl to from (a :: done) m2 bl2).
    { eapply dup_more; [exact Hd| |by intros la Hla; apply Hlain|exact Hc]. intros la [b [Hb Hbl]]%Exists_exists. apply Exists_exists. exists b. split; [|done]. rewrite Hal'. apply elem_of_app. by right. }
    destruct (IH lpre' (a :: done) v3 m2 bl2 tm fm) as (v4 & m4 & bl4 & -> & Hmm4 & Hd4 & Hoth4 & Hmms4 & Helse4); try done.
    + eapply Forall2_impl; [exact Hl|exact Hmono].
    + by rewrite Hpd.
    + by rewrite Hpd.
    + pose proof (dd_memory _ _ _ _ _ _ _ _ Hd2). pose proof (ct_memory _ _ _ _ _ _ _ _ _ Hc). lia.
    + intros y Hy. apply Hok, elem_of_app. by left.
    + exists v4, m4, bl4. split; [done|]. split; [done|]. split; [done|]. split; [intros mm' al' Hmt Hmm'; apply Hoth4; [done|]; apply (mm_inv_other v1); [done|by apply Hothers3|exact Hmono]|].
      split; [intros y Hy; rewrite Hmms4 by done; by apply Hothers3|]. intros A g Hg. by rewrite (Helse4 A g Hg), (Hpg3 A g Hg).
Qed.
End Fork.

Lemma dup_mmap_run `{PageAllocator alloc free} npg ok v m bl tm fm to from al :
  npg + 1 < 2 ^ 32 -> mm_inv v fm al -> user_areas al -> mm_inv v tm [] -> tm <> fm -> pgdir_of v tm = Ok to -> pgdir_of v fm = Ok from ->
  mem_ok npg m bl -> pt_ok npg m to -> pt_ok npg m from -> owns m bl to -> owns m bl from -> (forall f, is_table m from f -> ~ is_table m to f) ->
  3 * area_pages al <= total bl -> (forall x, ok x = true) ->
  (forall la, in_areas al la -> valid (vm_pte m from la) = true ->
     owned m bl (target (vm_pte m from la)) /\ ~ is_table m to (target (vm_pte m from la)) /\ valid (vm_pte m to la) = false) ->
  exists v' m' bl', dup_mmap alloc free (npg + nbase) ok v m tm fm = Ok (v', m', 0) /\ mm_inv v' tm (set_vm_mm (Some tm) <$> al) /\ mm_inv v' fm al /\
    dup_done npg m bl to from al m' bl' /\ (forall la, vm_pte m' from la = vm_pte m from la) /\
    (forall x, x <> tm -> mms v' !! x = mms v !! x) /\ same_else tm v v'.
Proof.
  intros Hnpg Hfm Hu Htm Hne Htd Hfd Hm Hto Hfrom Hoto Hofrom Hdis Hmem Hok Hpages. pose proof Hfm as [Hasc (f & Hf & _ & Hl & _)].
  unfold dup_mmap. rewrite (deref_some _ _ _ Hf). cbn [mbind res_bind].
  destruct (dup_areas_run (alloc := alloc) (free := free) npg Hnpg m bl to from al Hfrom Hofrom Hdis Hu Hasc Hpages ok al (mmap_list f) [] v m bl tm fm) as (v2 & m2 & bl2 & -> & Hmm2 & Hd2 & Ho2 & Hmms2 & He2); try done.
  - by rewrite app_nil_r.
  - by apply dup_nothing.
  - exists v2, m2, bl2. split; [done|]. split; [done|]. split; [by apply Ho2|]. split; [done|]. split; [by eapply dup_from|by split].
Qed.

(** C6. A forked process gets its own copy of its parent's memory.  Over any allocator that
    keeps its contract, with three frames free for every page of the parent's areas, a
    child without areas whose page table maps nothing there, and memory for the
    descriptions, [dup_mmap] comes to an end and succeeds: the child has the same areas
    in the same order; each page the parent has in them is in the child at the same
    address, in a frame nobody used before, with the same contents and permissions;
    elsewhere the child's addresses lead where they did, its kernel entries too; and
    the parent keeps its areas, its page table and the contents of all its pages. *)
Theorem dup_mmap_copies `{PageAllocator alloc free} npg ok v m bl tm fm to from al :
  npg + 1 < 2 ^ 32 -> mm_inv v fm al -> user_areas al -> mm_inv v tm [] -> tm <> fm -> pgdir_of v tm = Ok to -> pgdir_of v fm = Ok from ->
  mem_ok npg m bl -> pt_ok npg m to -> pt_ok npg m from -> owns m bl to -> owns m bl from -> (forall f, is_table m from f -> ~ is_table m to f) ->
  3 * area_pages al <= total bl -> (forall x, ok x = true) ->
  (forall la, in_areas al la -> valid (vm_pte m from la) = true ->
     owned m bl (target (vm_pte m from la)) /\ ~ is_table m to (target (vm_pte m from la)) /\ valid (vm_pte m to la) = false) ->
  exists v' m' bl', dup_mmap alloc free (npg + nbase) ok v m tm fm = Ok (v', m', 0) /\ mm_inv v' tm (set_vm_mm (Some tm) <$> al) /\ mm_inv v' fm al /\
    dup_done npg m bl to from al m' bl' /\ (forall la, vm_pte m' from la = vm_pte m from la).
Proof.
  intros. edestruct (dup_mmap_run (alloc := alloc) (free := free) npg ok v m bl tm fm to from al) as (v' & m' & bl' & ? & ? & ? & ? & ? & _); [done..|]. by exists v', m', bl'.
Qed.
