(* ===== verification/PageExample.v ===== *)
(** Witnesses for the page tables: a memory of 16 frames under the first-fit allocator,
    with the kernel's entry in the root of a parent and of a child. *)
From S2P Require Import Prelude Lists Page Blocks FreeArea DefaultPmm StateM Vmm PageTable PageRange PageCopy PageExit PageInsert Memory.

(** [boot_page_table_sv39] (lab8/kern/init/entry.S): the last entry maps 1 GiB. *)
Definition boot_root : list Z := replicate 511 0 ++ [Z.lor (Z.shiftl 0x80000 10) 0xcf].

Definition zero_frames : gmap Z (list Z) := gset_to_gmap boot_root (list_to_set (seqZ 0 16)).

Notation alloc16 := (alloc_page default_alloc_pages).
Notation insert16 := (page_insert default_alloc_pages default_free_pages (16 + nbase)).

(** Frames for the parent's root, the child's root and one page of the parent. *)
Definition example_area : res (free_area * (option Z * option Z * option Z)) :=
  a ← default_init (boot 16);
  a ← default_init_memmap a 0 16;
  '(a, from) ← default_alloc_pages a 1;
  '(a, to) ← default_alloc_pages a 1;
  '(a, page) ← default_alloc_pages a 1;
  Ok (a, (from, to, page)).

Definition example : pmem := match example_area with Ok (a, _) => Pmem a zero_frames | _ => Pmem (boot 16) zero_frames end.

Lemma example_frames : example_area = (a ← default_init (boot 16); a ← default_init_memmap a 0 16; '(a, from) ← default_alloc_pages a 1; '(a, to) ← default_alloc_pages a 1; '(a, page) ← default_alloc_pages a 1; Ok (a, (from, to, page))) /\
  match example_area with Ok (_, l) => l | _ => (None, None, None) end = (Some 0, Some 1, Some 2).
Proof. split; [reflexivity|]. vm_compute. reflexivity. Qed.

Lemma example_ok : exists bl, mem_ok 16 example bl /\ owned example bl 0 /\ owned example bl 1 /\ owned example bl 2 /\ total bl = 13.
Proof.
  destruct (default_boot 16 (boot 16) 0 16) as (s1 & s2 & H1 & H2 & Hi); [by apply (boot_all_reserved 16)|lia..|].
  assert (Hw : fl_inv 16 0 s2 [(0, 16)]) by (destruct Hi; by split).
  assert (Hstep : forall s bl, fl_inv 16 0 s bl -> 0 < total bl -> exists s' p bl', default_alloc_pages s 1 = Ok (s', Some p) /\ fl_inv 16 0 s' bl' /\ total bl' = total bl - 1 /\
    in_use s' bl' p 1 /\ forall c, in_use s bl c 1 -> in_use s' bl' c 1).
  { intros s bl Hs Ht. destruct (pa_alloc 16 s bl 1 Hs ltac:(lia) ltac:(lia)) as (s' & r & E & Hr). destruct r as [p|].
    - destruct Hr as (bl' & ? & ? & ? & _ & Hk). exists s', p, bl'. repeat (split; [done|]). intros c Hc. by apply (Hk c 1).
    - destruct Hr as [_ Hr]. destruct bl as [|[b k] bl]; [cbn in Ht; lia|]. apply Forall_cons in Hr as [Hr _]. destruct (fl_ordered _ _ _ _ Hs) as (_ & ? & _). cbn in Hr. lia. }
  destruct (Hstep s2 _ Hw ltac:(done)) as (s3 & p3 & bl3 & E3 & I3 & T3 & U3 & K3). destruct (Hstep s3 _ I3 ltac:(cbn in T3; lia)) as (s4 & p4 & bl4 & E4 & I4 & T4 & U4 & K4).
  destruct (Hstep s4 _ I4 ltac:(cbn in T3; lia)) as (s5 & p5 & bl5 & E5 & I5 & T5 & U5 & K5). destruct example_frames as [Erun Hl].
  assert (Ea : example_area = Ok (s5, (Some p3, Some p4, Some p5))).
  { rewrite Erun, H1. cbn [mbind res_bind]. rewrite H2. cbn [mbind res_bind]. rewrite E3. cbn [mbind res_bind]. rewrite E4. cbn [mbind res_bind]. by rewrite E5. }
  rewrite Ea in Hl. injection Hl as -> -> ->. exists bl5. unfold example. rewrite Ea. split; [split; [exact I5|]|].
  - intros f Hf. exists boot_root. split; [|reflexivity]. apply lookup_gset_to_gmap_Some. split; [|done]. apply elem_of_list_to_set, elem_of_seqZ. lia.
  - split; [by apply K5, K4|]. split; [by apply K5|]. split; [exact U5|]. cbn in T3. lia.
Qed.

(** A root like the boot page table maps no user address. *)
Lemma boot_tree npg m root : 0 <= root < npg -> frames m !! root = Some boot_root ->
  pt_ok npg m root /\ (forall f, is_table m root f -> f = root) /\ forall la, vm_pte m root la = 0.
Proof.
  intros Hr Hf. assert (Hd : forall i, dir0 m root i = None).
  { intros i. unfold dir0. destruct (decide (0 <= i < NUDX)) as [Hi|]; [|done]. change NUDX with 2 in Hi. unfold child, entry. rewrite decide_True, Hf by lia. cbn -[boot_root].
    assert (i = 0 \/ i = 1) as [-> | ->] by lia; reflexivity. }
  assert (Ht : forall i j, table m root i j = None) by (intros; unfold table; by rewrite Hd).
  assert (His : forall f, is_table m root f -> f = root) by (intros f [|i g Hg|i j g Hg]; [done|by rewrite Hd in Hg|by rewrite Ht in Hg]).
  split; [|split; [done|intros la; unfold vm_pte; by rewrite Ht]]. split.
  - intros f ->%His. lia.
  - intros i. by rewrite Hd.
  - intros i i' f. by rewrite Hd.
  - intros i j f. by rewrite Ht.
  - intros i j i' j' f. by rewrite Ht.
Qed.

Lemma example_trees root : root = 0 \/ root = 1 ->
  pt_ok 16 example root /\ (forall f, is_table example root f -> f = root) /\ forall la, vm_pte example root la = 0.
Proof.
  intros Hr. apply boot_tree; [lia|]. unfold example. destruct example_area as [[a l]| | |]; apply lookup_gset_to_gmap_Some; (split; [|done]); apply elem_of_list_to_set, elem_of_seqZ; lia.
Qed.

(** The parent with its page mapped at 0x10000000. *)
Lemma example_mapped :
  exists m bl, insert16 example 0 2 0x10000000 PTE_USER = Ok (m, 0) /\ mem_ok 16 m bl /\ pt_ok 16 m 0 /\ pt_ok 16 m 1 /\ owns m bl 0 /\ owns m bl 1 /\
    owned m bl 2 /\ ~ is_table m 0 2 /\ (forall f, is_table m 1 f -> f = 1) /\ ~ is_table m 0 1 /\ 11 <= total bl /\ (forall la, vm_pte m 1 la = 0) /\
    forall la, vm_pte m 0 la = if decide (vpn la = 0x10000) then pte_create (page2ppn 2) PTE_USER else 0.
Proof.
  destruct example_ok as (bl & Hm & H0 & H1 & H2 & Htot). destruct (example_trees 0 ltac:(lia)) as (Ht & His & Hpte).
  destruct (get_pte_make (alloc := default_alloc_pages) (free := default_free_pages) 16 ltac:(lia) example bl 0 0x10000000 Hm Ht) as (m1 & bl1 & r & E1 & [Hm1 Ht1 Ho1 Hp1 Hk1 Hu1 _] & Htot1 & Hr).
  { intros f ->%His. exact H0. } { apply user_index. split; [discriminate|reflexivity]. }
  destruct r as [s|]; [|lia]. destruct Hr as (t & -> & Htab). destruct (Hu1 2 H2) as [H2' Hn2]. destruct (Hu1 1 H1) as [H1' Hn1].
  destruct (Hn2 ltac:(intros E%His; discriminate)) as [Hn2' _]. destruct (Hn1 ltac:(intros E%His; discriminate)) as [Hn1' Hf1].
  destruct (page_insert_at (alloc := default_alloc_pages) (free := default_free_pages) 16 example m1 bl1 0 2 0x10000000 PTE_USER t E1 Htab Hm1 Ht1 Ho1 H2') as (m2 & E2 & Hm2 & Ht2 & Ho2 & Hu2 & His2 & Hfr2 & Hp2 & _).
  { by rewrite Hp1, Hpte. }
  destruct (boot_tree 16 m2 1 ltac:(lia)) as (Htc & Hisc & Hptec).
  { rewrite Hfr2, Hf1 by done. unfold example. destruct example_area as [[a l]| | |]; apply lookup_gset_to_gmap_Some; (split; [|done]); apply elem_of_list_to_set, elem_of_seqZ; lia. }
  exists m2, bl1. split; [exact E2|]. do 4 (split; [done|]). split; [intros f ->%Hisc; by apply Hu2|]. split; [by apply Hu2|]. split; [by rewrite His2|]. split; [done|]. split; [by rewrite His2|].
  split; [lia|]. split; [done|]. intros la. rewrite Hp2. change (vpn 0x10000000) with 0x10000. destruct (decide (vpn la = 0x10000)); [reflexivity|by rewrite Hp1, Hpte].
Qed.

Lemma example_entry : valid (pte_create (page2ppn 2) PTE_USER) = true /\ target (pte_create (page2ppn 2) PTE_USER) = 2.
Proof. split; reflexivity. Qed.

(** There are free frames, all above the three in use from the start. *)
Lemma example_free m bl : mem_ok 16 m bl -> owns m bl 0 -> owns m bl 1 -> owned m bl 2 -> 11 <= total bl -> exists x, covers bl x /\ 2 < x.
Proof.
  intros Hm H0 H1 H2 Htot. destruct bl as [|[b k] bl]; [cbn in Htot; lia|]. exists b. destruct (fl_ordered _ _ _ _ (proj1 Hm)) as (Hb & Hk & _).
  assert (Hc : covers ((b, k) :: bl) b) by (exists b, k; split; [left|lia]). split; [done|].
  assert (forall f, owned m ((b, k) :: bl) f -> b <> f) as Hne by (intros f Hf ->; by apply (Hf f ltac:(lia))).
  pose proof (Hne 0 (H0 0 ltac:(constructor))). pose proof (Hne 1 (H1 1 ltac:(constructor))). pose proof (Hne 2 H2). lia.
Qed.

Lemma example_pages m : (forall la, vm_pte m 0 la = if decide (vpn la = 0x10000) then pte_create (page2ppn 2) PTE_USER else 0) ->
  forall la, valid (vm_pte m 0 la) = true -> vpn la = 0x10000 /\ target (vm_pte m 0 la) = 2.
Proof. intros Hp la. rewrite Hp. destruct (decide (vpn la = 0x10000)); [intros _; split; [done|apply example_entry]|discriminate]. Qed.

Lemma example_counts : match insert16 example 0 2 0x10000000 PTE_USER with
  | Ok (m, _) => (refs (area m) 1, refs (area m) 2, match insert16 m 0 1 0x10000000 PTE_R with Ok (_, r) => Some r | _ => None end) | _ => (None, None, None) end = (Some 0, Some 1, Some 0).
Proof. vm_compute. reflexivity. Qed.

(** Frame 1 takes the place of page 2, which is free again. *)
Lemma page_insert_maps_witness :
  exists m m' bl', insert16 example 0 2 0x10000000 PTE_USER = Ok (m, 0) /\ insert16 m 0 1 0x10000000 PTE_R = Ok (m', 0) /\ vm_pte m' 0 0x10000000 = pte_create (page2ppn 1) (Z.lor PTE_V PTE_R) /\ refs (area m') 1 = Some 1 /\ mem_ok 16 m' bl' /\ covers bl' 2.
Proof.
  destruct example_mapped as (m & bl & E & Hm & Ht & _ & Ho & Ho1 & H2 & Hn & _ & Hn1 & Htot & _ & Hp). destruct (example_free m bl Hm Ho Ho1 H2 Htot) as (x & Hx & Hx2).
  pose proof example_counts as Hc. rewrite E in Hc. injection Hc as Hr1 Hr2 Hr.
  assert (Hv : forall q, mapped m 0 0x10000000 q -> q = 2).
  { intros q [Hv Hq]. destruct (example_pages m Hp _ Hv) as [_ Ht2]. by rewrite <- Hq. }
  assert (Hm2 : mapped m 0 0x10000000 2) by (unfold mapped; rewrite Hp; apply example_entry).
  destruct (page_insert_maps (alloc := default_alloc_pages) (free := default_free_pages) 16 ltac:(lia) m bl 0 1 0x10000000 PTE_R 0 x) as (m' & bl' & r & Hrun & Hcase).
  - split; [exact Hm|]. split; [exact Ht|]. split; [exact Ho|]. split; [apply user_index; split; [discriminate|reflexivity]|]. split; [apply Ho1; constructor|]. split; [exact Hn1|]. split; [exact Hr1|split; [discriminate|reflexivity]].
  - split; [discriminate|reflexivity].
  - intros q Hq _. rewrite (Hv q Hq). split; [exact H2|split; [exact Hn|split; [exact Hx|exact Hx2]]].
  - rewrite Hrun in Hr. injection Hr as Hr. destruct Hcase as [(-> & Hi & _)|(-> & _)]; [|discriminate Hr]. exists m, m', bl'. split; [exact E|]. split; [exact Hrun|].
    split; [rewrite (in_pte _ _ _ _ _ _ _ _ _ _ Hi); by rewrite decide_True|]. split; [|split; [by eapply in_mem|]].
    + destruct (in_page _ _ _ _ _ _ _ _ _ _ Hi) as [_ ->]. rewrite decide_False; [reflexivity|]. intros Hq%Hv. discriminate.
    + pose proof (in_old _ _ _ _ _ _ _ _ _ _ Hi 2 1 Hm2 ltac:(discriminate) Hr2 ltac:(split; reflexivity)) as Hc2. by rewrite decide_True in Hc2.
Defined.

Lemma unmap_range_unmaps_witness :
  exists m m', insert16 example 0 2 0x10000000 PTE_USER = Ok (m, 0) /\
    unmap_range default_alloc_pages default_free_pages (16 + nbase) m 0 0x10000000 0x10002000 = Ok m' /\ vm_pte m' 0 0x10000000 = 0.
Proof.
  destruct example_mapped as (m & bl & E & Hm & Ht & _ & Ho & Ho1 & H2 & Hn & _ & _ & Htot & _ & Hp). destruct (example_free m bl Hm Ho Ho1 H2 Htot) as (x & Hx & Hx2).
  pose proof (example_pages m Hp) as Hv.
  destruct (unmap_range_unmaps (alloc := default_alloc_pages) (free := default_free_pages) 16 m bl 0 0x10000000 0x10002000 x Hm Ht Ho Hx) as (m' & Hrun & bl' & _ & _ & _ & _ & _ & _ & _ & _ & Hp'); [reflexivity..| |].
  - split.
    + intros la _ Hvla. destruct (Hv la Hvla) as [_ ->]. split; [exact H2|split; [exact Hn|exact Hx2]].
    + intros la la' _ _ H1 H1' _. destruct (Hv la H1), (Hv la' H1'). congruence.
  - exists m, m'. split; [exact E|]. split; [exact Hrun|]. rewrite Hp'. destruct (decide (_ /\ valid _ = true)) as [|Hd]; [reflexivity|]. destruct Hd.
    split; [split; [discriminate|reflexivity]|]. rewrite Hp. apply example_entry.
Defined.

(** The parent (description 1) has two pages of memory, the child (description 2) none. *)
Definition example_mms : vmm :=
  Vmm (<[1 := Vma (Some 1) 0x10000000 0x10002000 VM_READ]> ∅) (<[1 := Mm [1] None (Some 0) 1 1]> (<[2 := Mm [] None (Some 1) 0 0]> ∅)).

Lemma example_mms_inv : mm_inv example_mms 1 [Vma (Some 1) 0x10000000 0x10002000 VM_READ] /\ mm_inv example_mms 2 [].
Proof.
  split; (split; [cbn; lia|]); eexists; (split; [reflexivity|]).
  - split; [apply NoDup_singleton|]. split; [repeat constructor|]. split; [done|reflexivity].
  - split; [apply NoDup_nil_2|]. split; [constructor|]. split; [done|reflexivity].
Qed.

Lemma dup_mmap_copies_witness :
  exists m v' m', insert16 example 0 2 0x10000000 PTE_USER = Ok (m, 0) /\
    dup_mmap default_alloc_pages default_free_pages (16 + nbase) (fun _ => true) example_mms m 2 1 = Ok (v', m', 0) /\
    exists np, vm_pte m' 1 0x10000000 = pte_create (page2ppn np) PTE_USER /\ frames m' !! np = frames m !! 2.
Proof.
  destruct example_mapped as (m & bl & E & Hm & Ht & Ht1 & Ho & Ho1 & H2 & Hn & His1 & Hn1 & Htot & Hp1 & Hp). pose proof (example_pages m Hp) as Hv. destruct example_mms_inv as [Hi1 Hi2].
  destruct (dup_mmap_copies (alloc := default_alloc_pages) (free := default_free_pages) 16 (fun _ => true) example_mms m bl 2 1 1 0 _ ltac:(lia) Hi1) as (v' & m' & bl' & Hrun & _ & _ & Hd & _).
  - constructor; [|constructor]. split; [discriminate|split; [discriminate|split; reflexivity]].
  - exact Hi2.
  - discriminate.
  - reflexivity.
  - reflexivity.
  - exact Hm.
  - exact Ht1.
  - exact Ht.
  - exact Ho1.
  - exact Ho.
  - intros f Hf E1%His1. subst f. exact (Hn1 Hf).
  - etransitivity; [|exact Htot]. discriminate.
  - reflexivity.
  - intros la _ Hvla. destruct (Hv la Hvla) as [_ ->]. split; [exact H2|]. split; [intros E2%His1; lia|]. rewrite Hp1. reflexivity.
  - exists m, v', m'. split; [exact E|]. split; [exact Hrun|].
    destruct (dd_pages _ _ _ _ _ _ _ _ Hd 0x10000000) as (np & Hnp & Hfr & _); [left; split; [discriminate|reflexivity]|rewrite Hp; apply example_entry|].
    rewrite Hp in Hnp, Hfr. exists np. split; [exact Hnp|exact Hfr].
Defined.

(** The directory and the table that the mapping made. *)
Lemma example_tables : match insert16 example 0 2 0x10000000 PTE_USER with Ok (m, _) => (dir0 m 0 0, table m 0 0 128, child m 4 0) | _ => (None, None, None) end = (Some 3, Some 4, Some 2).
Proof. vm_compute. reflexivity. Qed.

Lemma exit_range_drops_used_directory_witness :
  exists m m', insert16 example 0 2 0x10000000 PTE_USER = Ok (m, 0) /\ exit_range default_free_pages (16 + nbase) m 0 0x10000000 0x10002000 = Ok m' /\
    vm_pte m' 0 0x10000000 = 0 /\ frames m' !! 4 = frames m !! 4.
Proof.
  destruct example_mapped as (m & bl & E & Hm & Ht & _ & Ho & Ho1 & H2 & _ & _ & _ & Htot & _). pose proof example_tables as Htab. rewrite E in Htab. injection Htab as Hd Htb Hc.
  assert (exists x, covers bl x /\ 3 < x) as (x & Hx & Hx3).
  { destruct (example_free m bl Hm Ho Ho1 H2 Htot) as (x & Hx & Hx2). exists x. split; [exact Hx|]. assert (x <> 3); [|lia]. intros ->. apply (Ho 3 ltac:(eapply is_dir0; exact Hd) 3 ltac:(lia)), Hx. }
  destruct (exit_range_drops_used_directory (alloc := default_alloc_pages) (free := default_free_pages) 16 m bl 0 0x10000000 0x10002000 x 3 4 0 Hm Ht Ho Hx) as (m' & bl' & Hrun & _ & _ & _ & Hfr & Hp); [reflexivity..| | | | | |].
  - discriminate.
  - exact Hd.
  - exact Hx3.
  - exact Htb.
  - rewrite Hc. by eexists.
  - exists m, m'. split; [exact E|]. split; [exact Hrun|]. split; [|exact Hfr]. rewrite Hp. reflexivity.
Defined.
