(* ===== verification/Fork.v ===== *)
(** Making a process and ending one (lab8/kern/process/proc.c): kernel stacks, page
    directories, [copy_mm], [copy_files], [copy_thread], [do_fork] and [do_exit].

    Here the parts meet: the process table and the scheduler, the areas, the physical
    memory with the page allocator, and the tables of open files.  The last are reached
    through the interface [Files].  A process that has the CPU keeps it through these
    functions: [lock_mm], which would wait for another thread of the same memory, is left
    out.  [kmalloc] is a parameter of each call, as in the components. *)
From S2P Require Import Prelude Lists Page Blocks FreeArea ProcStruct SchedClass Sched StateM Process Vmm PageTable Memory.

Definition E_NO_FREE_PROC : Z := 5.

Definition CLONE_VM : Z := 0x100.
Definition CLONE_FS : Z := 0x800.

Definition KSTACKPAGE : Z := 2.
Definition KSTACKSIZE : Z := KSTACKPAGE * PGSIZE.
Definition PHYSICAL_MEMORY_OFFSET : Z := 0xFFFFFFFF40000000.

(** A trap frame is its 36 words: 32 registers, [status], [epc], [tval] and [cause]. *)
Definition TRAPFRAME_WORDS : Z := 36.
Definition reg_sp : Z := 2.
Definition reg_s0 : Z := 8.
Definition reg_s1 : Z := 9.
Definition reg_a0 : Z := 10.
Definition tf_status : Z := 32.
Definition tf_epc : Z := 33.

Definition SSTATUS_SIE : Z := 0x2.
Definition SSTATUS_SPIE : Z := 0x20.
Definition SSTATUS_SPP : Z := 0x100.

(** [context.ra], [context.sp] and [tf] of a process. *)
Record context : Type := Ctx { ctx_ra : Z; ctx_sp : Z; ctx_tf : Z }.

(** Tables of open files at addresses, with their reference counts; [files_at] is what is
    open under each descriptor: the inode and the position. *)
Class Files (F : Type) : Type := {
  files_create_at : F -> res (F * option Z);
  dup_files_at : F -> Z -> Z -> res (F * Z);
  files_destroy_at : F -> Z -> res F;
  files_count_inc : F -> Z -> res (F * Z);
  files_count_dec : F -> Z -> res (F * Z);
  files_ok : F -> gmap Z Z -> Prop;
  files_new : F -> Z -> Prop;
  files_at : F -> Z -> option (list (option (Z * Z)));
  files_create_ok f cs : files_ok f cs -> exists f' r, files_create_at f = Ok (f', r) /\
    match r with
    | Some a => cs !! a = None /\ files_ok f' (<[a := 0]> cs) /\ files_new f' a /\ forall b, b <> a -> files_at f' b = files_at f b
    | None => files_ok f' cs
    end;
  dup_files_ok f cs to from n : files_ok f cs -> cs !! to = Some 0 -> files_new f to -> cs !! from = Some n -> 0 < n ->
    exists f', dup_files_at f to from = Ok (f', 0) /\ files_ok f' cs /\ files_at f' to = files_at f from /\ forall b, b <> to -> files_at f' b = files_at f b;
  files_count_inc_ok f cs a n : files_ok f cs -> cs !! a = Some n ->
    exists f', files_count_inc f a = Ok (f', i32 (n + 1)) /\ files_ok f' (<[a := i32 (n + 1)]> cs) /\ forall b, files_at f' b = files_at f b
}.

Record sys (F : Type) : Type := Sys { tab : ptable; spaces : vmm; ram : pmem; opened : F; ctxs : gmap Z context }.
Arguments Sys {F} _ _ _ _ _.
Arguments tab {F} _.
Arguments spaces {F} _.
Arguments ram {F} _.
Arguments opened {F} _.
Arguments ctxs {F} _.

(** The outcomes of [kmalloc], and what it leaves in memory. *)
Record outcomes : Type := Outcomes { ok_proc : bool; ok_mm : bool; ok_vma : Z -> bool; junk_code : Z; junk_name : Z }.

Section Code.
Context {F : Type} `{!Files F} (c : sched_class) (alloc : alloc_pages_t) (free : free_pages_t) (npage boot forkret : Z).
Implicit Types s : sys F.

Definition with_tab s (t : ptable) : sys F := Sys t (spaces s) (ram s) (opened s) (ctxs s).
Definition with_spaces s (v : vmm) : sys F := Sys (tab s) v (ram s) (opened s) (ctxs s).
Definition with_ram s (m : pmem) : sys F := Sys (tab s) (spaces s) m (opened s) (ctxs s).
Definition with_opened s (f : F) : sys F := Sys (tab s) (spaces s) (ram s) f (ctxs s).
Definition with_ctxs s (x : gmap Z context) : sys F := Sys (tab s) (spaces s) (ram s) (opened s) x.

(** [boot] is the frame of [boot_pgdir_va]. *)
Definition boot_pgdir_pa : Z := page2pa boot.

Definition setup_kstack s (proc : Z) : res (sys F * Z) :=
  '(a, page) ← alloc (area (ram s)) KSTACKPAGE;
  let s := with_ram s (with_area (ram s) a) in
  match page with
  | Some page => kva ← page2kva npage page; t ← put (tab s) proc (set_kstack (Some kva)); Ok (with_tab s t, 0)
  | None => Ok (s, - E_NO_MEM)
  end.

(** [PADDR] of the address 0 panics. *)
Definition put_kstack s (proc : Z) : res (sys F) :=
  pr ← get (tab s) proc;
  match kstack pr with
  | Some k => a ← free (area (ram s)) k KSTACKPAGE; Ok (with_ram s (with_area (ram s) a))
  | None => Panic
  end.

Definition setup_pgdir s (mm : Z) : res (sys F * Z) :=
  '(m, page) ← alloc_page alloc (ram s);
  let s := with_ram s m in
  match page with
  | None => Ok (s, - E_NO_MEM)
  | Some page =>
      pgdir ← page2kva npage page;
      m ← copy_frame (ram s) pgdir boot;
      v ← upd_mm (spaces s) mm (set_mm_pgdir (Some pgdir));
      Ok (with_spaces (with_ram s m) v, 0)
  end.

Definition put_pgdir s (mm : Z) : res (sys F) := d ← pgdir_of (spaces s) mm; m ← free_page free (ram s) d; Ok (with_ram s m).

(** [exit_mmap], [put_pgdir] and [mm_destroy], one after the other. *)
Definition drop_mm s (mm : Z) : res (sys F) :=
  m ← exit_mmap alloc free npage (spaces s) (ram s) mm;
  s ← put_pgdir (with_ram s m) mm;
  v ← mm_destroy (spaces s) mm;
  Ok (with_spaces s v).

(** The memory for the new process, or the error. *)
Definition copy_mm_get (o : outcomes) (clone_flags : Z) s (oldmm : Z) : res (sys F * (Z + Z)) :=
  if negb (Z.land clone_flags CLONE_VM =? 0) then Ok (s, inr oldmm)
  else
    match mm_create (ok_mm o) (spaces s) with
    | (_, None) => Ok (s, inl (- E_NO_MEM))
    | (v, Some mm) =>
        '(s, r) ← setup_pgdir (with_spaces s v) mm;
        if negb (r =? 0) then v ← mm_destroy (spaces s) mm; Ok (with_spaces s v, inl (- E_NO_MEM))
        else
          '(v, m, r) ← dup_mmap alloc free npage (ok_vma o) (spaces s) (ram s) mm oldmm;
          let s := with_ram (with_spaces s v) m in
          if negb (r =? 0) then s ← drop_mm s mm; Ok (s, inl r) else Ok (s, inr mm)
    end.

Definition copy_mm (o : outcomes) (clone_flags : Z) s (proc : Z) : res (sys F * Z) :=
  cur ← get (tab s) (current (pk (tab s)));
  match mm cur with
  | None => Ok (s, 0)
  | Some oldmm =>
      '(s, r) ← copy_mm_get o clone_flags s oldmm;
      match r with
      | inl e => Ok (s, e)
      | inr mm =>
          '(v, _) ← mm_count_inc (spaces s) mm;
          let s := with_spaces s v in
          t ← put (tab s) proc (set_mm (Some mm));
          d ← pgdir_of (spaces s) mm;
          t ← put t proc (set_pgdir (page2pa d));
          Ok (with_tab s t, 0)
      end
  end.

(** [(struct trapframe * )(proc->kstack + KSTACKSIZE) - 1] *)
Definition tf_addr (kstack : Z) : Z := u64 (page2pa kstack + PHYSICAL_MEMORY_OFFSET) + KSTACKSIZE - TRAPFRAME_WORDS * 8.

Fixpoint set_words (m : pmem) (f i : Z) (ws : list Z) : res pmem :=
  match ws with [] => Ok m | w :: ws' => m ← set_word m f i w; set_words m f (i + 1) ws' end.

(** The trap frame lies at the end of the second page of the stack. *)
Definition copy_thread s (proc esp : Z) (tf : list Z) : res (sys F) :=
  pr ← get (tab s) proc;
  k ← match kstack pr with Some k => Ok k | None => Fault end;
  let f := k + 1 in
  let i := NPTEENTRY - TRAPFRAME_WORDS in
  m ← set_words (ram s) f i tf;
  m ← set_word m f (i + reg_a0) 0;
  m ← set_word m f (i + reg_sp) (if esp =? 0 then tf_addr k else esp);
  Ok (with_ctxs (with_ram s m) (<[proc := Ctx forkret (tf_addr k) (tf_addr k)]> (ctxs s))).

Definition copy_files (clone_flags : Z) s (proc : Z) : res (sys F * Z) :=
  cur ← get (tab s) (current (pk (tab s)));
  match filesp cur with
  | None => Panic
  | Some old =>
      '(s, r) ←
        (if negb (Z.land clone_flags CLONE_FS =? 0) then Ok (s, inr old)
         else
           '(f, new) ← files_create_at (opened s);
           let s := with_opened s f in
           match new with
           | None => Ok (s, inl (- E_NO_MEM))
           | Some new =>
               '(f, ret) ← dup_files_at (opened s) new old;
               let s := with_opened s f in
               if negb (ret =? 0) then f ← files_destroy_at (opened s) new; Ok (with_opened s f, inl ret)
               else Ok (s, inr new)
           end);
      match r with
      | inl e => Ok (s, e)
      | inr new =>
          '(f, _) ← files_count_inc (opened s) new;
          t ← put (tab s) proc (set_filesp (Some new));
          Ok (with_tab (with_opened s f) t, 0)
      end
  end.

Definition put_files s (proc : Z) : res (sys F) :=
  pr ← get (tab s) proc;
  match filesp pr with
  | None => Ok s
  | Some fs =>
      '(f, n) ← files_count_dec (opened s) fs;
      let s := with_opened s f in
      if n =? 0 then f ← files_destroy_at (opened s) fs; Ok (with_opened s f) else Ok s
  end.

(** [mm_count_dec], and the end of the memory when it was the last use. *)
Definition put_mm s (mm : Z) : res (sys F) :=
  '(v, n) ← mm_count_dec (spaces s) mm;
  let s := with_spaces s v in
  if n =? 0 then drop_mm s mm else Ok s.

Definition kfree_proc s (proc : Z) : sys F :=
  with_tab s (with_pk (tab s) (with_sched (pk (tab s)) (proc_free (sched (pk (tab s))) proc))).

(** The labels [bad_fork_cleanup_*]. *)
Definition bad_fork_cleanup_proc s (proc ret : Z) : res (sys F * Z) := Ok (kfree_proc s proc, ret).

Definition bad_fork_cleanup_kstack s (proc ret : Z) : res (sys F * Z) := s ← put_kstack s proc; bad_fork_cleanup_proc s proc ret.

Definition bad_fork_cleanup_fs s (proc ret : Z) : res (sys F * Z) :=
  s ← put_files s proc;
  pr ← get (tab s) proc;
  s ← match mm pr with
      | Some mm => s ← put_mm s mm; t ← put (tab s) proc (set_mm None); Ok (with_tab s t)
      | None => Ok s
      end;
  bad_fork_cleanup_kstack s proc ret.

(** The new process gets its number and its place among the others. *)
Definition fork_finish s (proc : Z) : res (sys F * Z) :=
  '(t, r) ← get_pid (tab s);
  t ← put t proc (set_pid r);
  cur ← get t (current (pk t));
  t ← Process.set_proc_name t proc (proc_name cur);
  t ← hash_proc t proc;
  t ← set_links t proc;
  t ← wakeup c t proc;
  pr ← get t proc;
  Ok (with_tab s t, pid pr).

Definition do_fork (o : outcomes) (clone_flags stack : Z) (tf : list Z) s : res (sys F * Z) :=
  if MAX_PROCESS <=? nr_process (tab s) then Ok (s, - E_NO_FREE_PROC)
  else
    match alloc_proc boot_pgdir_pa (junk_code o) (junk_name o) (ok_proc o) (tab s) with
    | (_, None) => Ok (s, - E_NO_MEM)
    | (t, Some proc) =>
        t ← put t proc (set_proc_parent (Some (current (pk t))));
        t ← put t (current (pk t)) (set_wait_state 0);
        '(s, ret) ← setup_kstack (with_tab s t) proc;
        if negb (ret =? 0) then bad_fork_cleanup_proc s proc ret
        else
          '(s, ret) ← copy_mm o clone_flags s proc;
          if negb (ret =? 0) then bad_fork_cleanup_kstack s proc ret
          else
            '(s, ret) ← copy_files clone_flags s proc;
            if negb (ret =? 0) then bad_fork_cleanup_fs s proc ret
            else
              s ← copy_thread s proc stack tf;
              fork_finish s proc
    end.

(** The frame that makes the new thread call [fn] with [arg], in the supervisor's mode;
    [sstatus] is the register and [entry] the address of [kernel_thread_entry]. *)
Definition kernel_frame (fn arg sstatus entry : Z) : list Z :=
  <[Z.to_nat reg_s0 := fn]> (<[Z.to_nat reg_s1 := arg]>
    (<[Z.to_nat tf_status := Z.ldiff (Z.lor (Z.lor sstatus SSTATUS_SPP) SSTATUS_SPIE) SSTATUS_SIE]>
      (<[Z.to_nat tf_epc := entry]> (replicate (Z.to_nat TRAPFRAME_WORDS) 0)))).

Definition kernel_thread (o : outcomes) (fn arg clone_flags sstatus entry : Z) s : res (sys F * Z) :=
  do_fork o (Z.lor clone_flags CLONE_VM) 0 (kernel_frame fn arg sstatus entry) s.

(** Up to the call of [schedule], which does not return. *)
Definition do_exit (error_code : Z) s : res (sys F) :=
  let cur := current (pk (tab s)) in
  _ ← c_assert (negb (cur =? idleproc (pk (tab s))));
  _ ← c_assert (negb (cur =? initproc (tab s)));
  pr ← get (tab s) cur;
  s ← match mm pr with
      | Some mm =>
          s ← put_mm s mm;
          t ← put (tab s) cur (set_mm None);
          put_files (with_tab s t) cur
      | None => Ok s
      end;
  t ← exit_notify c (tab s) error_code;
  k ← schedule c (pk t);
  Ok (with_tab s (with_pk t k)).
End Code.
