(* ===== verification/ForkMem.v ===== *)
(** What [do_fork] does to memory: the kernel stack, the page directory and the copy of the
    parent's memory. *)
From S2P Require Import Prelude Lists Page Blocks FreeArea ProcStruct SchedClass Sched StateM Process Vmm PageTable PageRange PageCopy Memory Fork.

(** A root without user entries. *)
Lemma empty_root npg m root : 0 <= root < npg -> (forall i, 0 <= i < NUDX -> child m root i = None) ->
  pt_ok npg m root /\ (forall f, is_table m root f -> f = root) /\ forall la, vm_pte m root la = 0.
Proof.
  intros Hr Hc. assert (Hd : forall i, dir0 m root i = None) by (intros i; unfold dir0; destruct (decide (0 <= i < NUDX)); [by apply Hc|done]).
  assert (Ht : forall i j, table m root i j = None) by (intros; unfold table; by rewrite Hd).
  assert (His : forall f, is_table m root f -> f = root) by (intros f [|i g Hg|i j g Hg]; [done|by rewrite Hd in Hg|by rewrite Ht in Hg]).
  split; [|split; [done|intros la; unfold vm_pte; by rewrite Ht]]. split.
  - intros f ->%His. lia.
  - intros i. by rewrite Hd.
  - intros i i' f. by rewrite Hd.
  - intros i j f. by rewrite Ht.
  - intros i j i' j' f. by rewrite Ht.
Qed.

Lemma mm_create_run v :
  exists mm v', mm_create true v = (v', Some mm) /\ mms v !! mm = None /\ mms v' = <[mm := Mm [] None None 0 0]> (mms v) /\ vmas v' = vmas v /\ mm_inv v' mm [].
Proof.
  set (mm := fresh (dom (mms v))). assert (mms v !! mm = None) by (apply not_elem_of_dom, is_fresh).
  exists mm, (Vmm (vmas v) (<[mm := Mm [] None None 0 0]> (mms v))). do 4 (split; [done|]). split; [done|]. eexists. cbn. rewrite lookup_insert_eq. split; [done|].
  split; [apply NoDup_nil_2|]. split; [constructor|]. by split.
Qed.

(** Counting uses and setting the page directory leave the areas alone. *)
Lemma mm_inv_set v mm al f :
  mm_inv v mm al -> (forall m, mmap_list (f m) = mmap_list m /\ mmap_cache (f m) = mmap_cache m /\ map_count (f m) = map_count m) ->
  exists v', upd_mm v mm f = Ok v' /\ mm_inv v' mm al /\ vmas v' = vmas v /\ (forall x, x <> mm -> mms v' !! x = mms v !! x) /\ mms v' !! mm = f <$> mms v !! mm.
Proof.
  intros [Hasc (m & Hm & Hnd & Hl & Hc & Hn)] Hf. unfold upd_mm. rewrite (deref_some _ _ _ Hm). cbn [mbind res_bind]. eexists. split; [done|].
  destruct (Hf m) as (E1 & E2 & E3). split; [|split; [done|split; [intros x Hx; cbn; by rewrite lookup_insert_ne|cbn; by rewrite lookup_insert_eq, Hm]]].
  split; [done|]. exists (f m). cbn. rewrite lookup_insert_eq, E1, E2, E3. done.
Qed.

(** Consecutive words of a frame. *)
Lemma set_words_run m f ws : forall i,
  frame_ok m f -> 0 <= i -> i + Z.of_nat (length ws) <= 512 ->
  exists m', set_words m f i ws = Ok m' /\ area m' = area m /\ (forall g, frame_ok m g -> frame_ok m' g) /\ (forall g, g <> f -> frames m' !! g = frames m !! g) /\
    forall j, entry m' f j = if decide (i <= j < i + Z.of_nat (length ws)) then ws !! Z.to_nat (j - i) else entry m f j.
Proof.
  revert m. induction ws as [|w ws IH]; intros m i Hf Hi Hlen; cbn [set_words length] in *.
  - exists m. do 4 (split; [done|]). intros j. rewrite decide_False; [done|lia].
  - destruct (set_word_run m f i w Hf ltac:(lia)) as (m1 & -> & Ha1 & Hok1 & Hfr1 & He1). cbn [mbind res_bind].
    destruct (IH m1 (i + 1)) as (m2 & -> & Ha2 & Hok2 & Hfr2 & He2); [by apply Hok1|lia|lia|]. exists m2. split; [done|]. split; [congruence|]. split; [auto|]. split; [intros g Hg; by rewrite Hfr2, Hfr1|].
    intros j. rewrite He2, He1. destruct (decide (j = i)) as [->|Hj].
    + rewrite decide_False, (decide_True (P := f = f /\ i = i)), decide_True by lia. by rewrite Z.sub_diag.
    + rewrite (decide_False (P := f = f /\ j = i)) by tauto. destruct (decide (i + 1 <= j < i + 1 + Z.of_nat (length ws))).
      * rewrite decide_True by lia. replace (Z.to_nat (j - i)) with (S (Z.to_nat (j - (i + 1)))) by lia. done.
      * rewrite decide_False; [done|lia].
Qed.

(** The words of the trap frame of a new process: its parent's, but for the stack pointer
    and the result of the system call. *)
Definition child_frame (tf : list Z) (sp : Z) : list Z := <[Z.to_nat reg_sp := sp]> (<[Z.to_nat reg_a0 := 0]> tf).

Lemma thread_words_run m f tf sp :
  frame_ok m f -> Z.of_nat (length tf) = TRAPFRAME_WORDS -> let i := NPTEENTRY - TRAPFRAME_WORDS in
  exists m1 m2 m', set_words m f i tf = Ok m1 /\ set_word m1 f (i + reg_a0) 0 = Ok m2 /\ set_word m2 f (i + reg_sp) sp = Ok m' /\
    area m' = area m /\ (forall g, frame_ok m g -> frame_ok m' g) /\ (forall g, g <> f -> frames m' !! g = frames m !! g) /\
    forall j, 0 <= j < TRAPFRAME_WORDS -> entry m' f (i + j) = child_frame tf sp !! Z.to_nat j.
Proof.
  intros Hf Hlen i. assert (Hi : i = 476) by done. assert (HT : TRAPFRAME_WORDS = 36) by done. assert (Ha0 : reg_a0 = 10) by done. assert (Hsp : reg_sp = 2) by done.
  destruct (set_words_run m f tf i Hf) as (m1 & E1 & A1 & O1 & F1 & W1); [lia|lia|].
  destruct (set_word_run m1 f (i + reg_a0) 0) as (m2 & E2 & A2 & O2 & F2 & W2); [by apply O1|lia|].
  destruct (set_word_run m2 f (i + reg_sp) sp) as (m3 & E3 & A3 & O3 & F3 & W3); [by apply O2, O1|lia|].
  exists m1, m2, m3. do 3 (split; [done|]). split; [congruence|]. split; [auto|]. split; [intros g Hg; by rewrite F3, F2, F1|].
  intros j Hj. rewrite W3, W2, W1. unfold child_frame. rewrite Hsp, Ha0 in *.
  destruct (decide (j = 2)) as [->|Hn2]; [rewrite decide_True by lia; symmetry; apply list_lookup_insert_eq; rewrite length_insert; lia|].
  rewrite (decide_False (P := f = f /\ i + j = i + 2)) by lia. rewrite list_lookup_insert_ne by lia.
  destruct (decide (j = 10)) as [->|Hn10]; [rewrite decide_True by lia; symmetry; apply list_lookup_insert_eq; lia|].
  rewrite (decide_False (P := f = f /\ i + j = i + 10)) by lia. rewrite list_lookup_insert_ne by lia.
  rewrite decide_True by lia. f_equal. lia.
Qed.

Section Memory.
Context {F : Type} `{!Files F} `{PageAllocator alloc free} (npg boot : Z) (Hnpg : npg + 1 < 2 ^ 32).
Abbreviation npage := (npg + nbase).
Abbreviation mem_ok := (mem_ok npg).
Abbreviation pt_ok := (pt_ok npg).
Implicit Types s : sys F.

(** [setup_pgdir]: a root of its own for [mm], with the kernel's entries. *)
Lemma setup_pgdir_run s bl mm :
  mem_ok (ram s) bl -> 0 < total bl -> 0 <= boot < npg -> owned (ram s) bl boot -> (forall i, 0 <= i < NUDX -> child (ram s) boot i = None) -> mm_inv (spaces s) mm [] ->
  exists v' m' bl' d, setup_pgdir alloc npage boot s mm = Ok (with_spaces (with_ram s m') v', 0) /\ mem_ok m' bl' /\ total bl' = total bl - 1 /\
    (forall f, owned (ram s) bl f -> owned m' bl' f /\ f <> d /\ frames m' !! f = frames (ram s) !! f) /\ owned m' bl' d /\
    pt_ok m' d /\ (forall f, is_table m' d f -> f = d) /\ (forall la, vm_pte m' d la = 0) /\
    mm_inv v' mm [] /\ pgdir_of v' mm = Ok d /\ vmas v' = vmas (spaces s) /\ (forall x, x <> mm -> mms v' !! x = mms (spaces s) !! x) /\ mms v' !! mm = set_mm_pgdir (Some d) <$> mms (spaces s) !! mm /\
    frames m' !! d = frames (ram s) !! boot.
Proof.
  intros Hm Htot Hb Hob Hboot Hmm. unfold setup_pgdir.
  destruct (alloc_page_run npg Hnpg (ram s) bl Hm) as [(m1 & _ & _ & Hz)|(m1 & p & bl1 & -> & Htot1 & Hm1 & Hfr1 & Hp & Hop & Hk1)]; [lia|]. cbn [mbind res_bind].
  rewrite page2kva_run by done. cbn [mbind res_bind]. destruct (copy_frame_run npg m1 bl1 p boot Hm1 Hp Hb) as (m2 & E2 & Ha2 & Hm2 & Hfp & Hfr2). cbn [ram with_ram]. rewrite E2. cbn [mbind res_bind].
  destruct (mm_inv_set (spaces s) mm [] (set_mm_pgdir (Some p)) Hmm) as (v' & Ev & Hmm' & Hv & Hoth & Hset); [done|]. cbn [spaces with_ram]. rewrite Ev. cbn [mbind res_bind].
  destruct (empty_root npg m2 p Hp) as (Ht & His & Hpte).
  { intros i Hi. rewrite <- (Hboot i Hi). unfold child, entry. by rewrite Hfp, Hfr1. }
  assert (Hkeep : forall f, owned (ram s) bl f -> owned m2 bl1 f /\ f <> p /\ frames m2 !! f = frames (ram s) !! f).
  { intros f Hf. destruct (Hk1 f Hf) as [Hf1 Hne]. split; [unfold owned; by rewrite Ha2|]. split; [done|]. by rewrite Hfr2, Hfr1. }
  exists v', m2, bl1, p. split; [done|]. split; [done|]. split; [done|]. split; [done|]. split; [unfold owned; by rewrite Ha2|]. do 4 (split; [done|]). split; [|by rewrite Hfp, Hfr1].
  destruct Hmm as [_ (x & Hx & _)]. unfold pgdir_of. rewrite Hx in Hset. by rewrite (deref_some _ _ _ Hset).
Qed.

(** The two pages of a kernel stack. *)
Lemma stack_alloc_run m bl :
  mem_ok m bl -> Exists (fun x => KSTACKPAGE <= x.2) bl ->
  exists a k bl', alloc (area m) KSTACKPAGE = Ok (a, Some k) /\ mem_ok (with_area m a) bl' /\ total bl' = total bl - KSTACKPAGE /\ 0 <= k /\ k + 1 < npg /\
    owned (with_area m a) bl' k /\ owned (with_area m a) bl' (k + 1) /\
    forall f, owned m bl f -> owned (with_area m a) bl' f /\ f <> k /\ f <> k + 1.
Proof.
  intros [Hinv Hfr] Hbig. assert (HK : KSTACKPAGE = 2) by done. destruct (pa_alloc npg (area m) bl KSTACKPAGE Hinv Hnpg ltac:(done)) as (a & r & E & Hr). destruct r as [k|].
  2:{ destruct Hr as [_ Hr]. exfalso. apply Exists_exists in Hbig as (x & Hx & Hx2). rewrite Forall_forall in Hr. specialize (Hr x Hx). lia. }
  destruct Hr as (bl' & Hinv' & Hu & Htot & _ & Hk). exists a, k, bl'. rewrite HK in *. assert (forall i, k <= i < k + 2 -> owned (with_area m a) bl' i) as Hown by (intros i Hi j Hj; apply Hu; lia).
  assert (Hrange : forall i, k <= i < k + 2 -> 0 <= i < npg) by (intros i Hi; apply (fl_pages _ _ _ _ Hinv'); destruct (owned_pages _ _ _ (Hown i Hi)) as [p Hp]; by exists p).
  split; [done|]. split; [by split|]. split; [done|]. split; [apply (Hrange k); lia|]. split; [apply (Hrange (k + 1)); lia|]. split; [apply Hown; lia|]. split; [apply Hown; lia|].
  intros f Hf. destruct (Hk f 1 Hf) as [Hf' Hne]. split; [done|]. specialize (Hne f ltac:(lia)). lia.
Qed.

(** The memory of the child with root [d], of the areas [al] of a parent with root [from]. *)
Record forked (m : pmem) (bl : list block) (from : Z) (al : list vma_struct) (m' : pmem) (bl' : list block) (d : Z) : Prop := Forked {
  fk_mem : mem_ok m' bl';
  fk_tree : pt_ok m' d;
  fk_owns : owns m' bl' d;
  fk_pages la : in_areas al la -> valid (vm_pte m from la) = true ->
    exists np, vm_pte m' d la = pte_create (page2ppn np) (Z.lor PTE_V (Z.land (vm_pte m from la) PTE_USER)) /\
      frames m' !! np = frames m !! target (vm_pte m from la) /\ owned m' bl' np /\ ~ owned m bl np;
  fk_rest la : ~ (in_areas al la /\ valid (vm_pte m from la) = true) -> vm_pte m' d la = 0;
  fk_keep f : owned m bl f -> owned m' bl' f /\ ~ is_table m' d f /\ frames m' !! f = frames m !! f
}.

Definition fork_memory_ready (s : sys F) (bl : list block) (oldmm from : Z) (al : list vma_struct) : Prop :=
  mem_ok (ram s) bl /\ pt_ok (ram s) from /\ owns (ram s) bl from /\ mm_inv (spaces s) oldmm al /\ user_areas al /\ pgdir_of (spaces s) oldmm = Ok from /\
  0 <= boot < npg /\ owned (ram s) bl boot /\ (forall i, 0 <= i < NUDX -> child (ram s) boot i = None) /\
  forall la, in_areas al la -> valid (vm_pte (ram s) from la) = true -> owned (ram s) bl (target (vm_pte (ram s) from la)).

Lemma copy_mm_get_run o s bl oldmm from al :
  fork_memory_ready s bl oldmm from al -> ok_mm o = true -> (forall x, ok_vma o x = true) -> 1 + 3 * area_pages al <= total bl ->
  exists v' m' bl' mm d, copy_mm_get alloc free npage boot o 0 s oldmm = Ok (with_ram (with_spaces s v') m', inr mm) /\ forked (ram s) bl from al m' bl' d /\
    mm_inv v' mm (set_vm_mm (Some mm) <$> al) /\ mm_inv v' oldmm al /\ pgdir_of v' mm = Ok d /\ mm_count <$> mms v' !! mm = Some 0 /\
    mms (spaces s) !! mm = None /\ forall x, x <> mm -> mms v' !! x = mms (spaces s) !! x.
Proof.
  intros (Hm & Hf & Hof & Hal & Hu & Hfd & Hb & Hob & Hboot & Hpages) Hok Hokv Hmem. unfold copy_mm_get. change (Z.land 0 CLONE_VM) with 0. cbn [negb Z.eqb]. rewrite Hok.
  destruct (mm_create_run (spaces s)) as (mm & v1 & -> & Hfresh & Hmms1 & Hvmas1 & Hmm1). pose proof (area_pages_nonneg 0 al (mi_ascending _ _ _ Hal)) as Hap.
  destruct (setup_pgdir_run (with_spaces s v1) bl mm) as (v2 & m2 & bl2 & d & -> & Hm2 & Htot2 & Hk2 & Hod & Htd & Hisd & Hpted & Hmm2 & Hpd2 & Hvmas2 & Hmms2 & Hset2 & _); [done|lia|done|done|done|done|].
  cbn [mbind res_bind Z.eqb negb]. cbn [spaces ram with_spaces with_ram] in *.
  assert (Hne : mm <> oldmm) by (intros ->; destruct Hal as [_ (x & Hx & _)]; congruence).
  assert (Hal2 : mm_inv v2 oldmm al).
  { apply (mm_inv_other (spaces s)); [done|rewrite Hmms2, Hmms1 by done; by rewrite lookup_insert_ne|]. intros x a. unfold area_is. by rewrite Hvmas2, Hvmas1. }
  destruct (tree_same npg (ram s) m2 from) as (Hisf & Hptef & Hf2 & _); [intros f Hft; by apply Hk2, Hof|].
  assert (Hfd2 : pgdir_of v2 oldmm = Ok from) by (unfold pgdir_of, deref in *; rewrite Hmms2, Hmms1, lookup_insert_ne by done; done).
  destruct (dup_mmap_run (alloc := alloc) (free := free) npg (ok_vma o) v2 m2 bl2 mm oldmm d from al) as (v3 & m3 & bl3 & -> & Hmm3 & Hal3 & Hd3 & _ & Hmms3 & He3); try done.
  - by apply Hf2.
  - intros f ->%Hisd. done.
  - intros f Hft%Hisf. by apply Hk2, Hof.
  - intros f Hft%Hisf E%Hisd. by destruct (Hk2 f (Hof f Hft)) as (_ & ? & _).
  - lia.
  - intros la Hin. rewrite Hptef. intros Hv. destruct (Hk2 _ (Hpages la Hin Hv)) as (? & Hned & _). split; [done|]. split; [by intros E%Hisd|by rewrite Hpted].
  - cbn [mbind res_bind Z.eqb negb]. exists v3, m3, bl3, mm, d. split; [done|].
    assert (Hkk : forall f, owned (ram s) bl f -> owned m3 bl3 f /\ ~ is_table m3 d f /\ frames m3 !! f = frames (ram s) !! f).
    { intros f Hfo. destruct (Hk2 f Hfo) as (Hf3 & Hned & Efr). destruct (dd_keep _ _ _ _ _ _ _ _ Hd3 f Hf3) as [Ho3 Hk3]. split; [done|]. destruct (Hk3 ltac:(by intros E%Hisd)) as [Hn3 E3]. split; [done|congruence]. }
    split; [|split; [done|split; [done|split; [|split; [|split; [done|]]]]]].
    + split; try apply Hd3; [|  |exact Hkk].
      * intros la Hin Hv. destruct (dd_pages _ _ _ _ _ _ _ _ Hd3 la Hin) as (np & E & Hfr & Ho & _ & Hnew); [by rewrite Hptef|]. rewrite Hptef in E, Hfr. exists np. split; [done|].
        split; [rewrite Hfr; by apply Hk2, Hpages|]. split; [done|]. intros Hold. by apply Hnew, Hk2.
      * intros la Hla. rewrite (dd_rest _ _ _ _ _ _ _ _ Hd3); [done|]. by rewrite Hptef.
    + unfold pgdir_of, deref in *. pose proof (He3 _ mm_pgdir (fun _ _ _ => eq_refl)) as E. destruct (mms v2 !! mm) as [x2|]; [|done]. destruct (mms v3 !! mm) as [x3|]; [|done]. cbn in *. injection E as E. by rewrite E.
    + rewrite (He3 _ mm_count (fun _ _ _ => eq_refl)).
      by rewrite Hset2, Hmms1, lookup_insert_eq.
    + intros x Hx. rewrite Hmms3, Hmms2, Hmms1 by done. by rewrite lookup_insert_ne.
Qed.
End Memory.
