(* ===== verification/ForkProc.v ===== *)
(** The place of a new process among the others: what [do_fork] does to the process
    table. *)
From S2P Require Import Prelude Lists SkewHeap ProcStruct SchedClass RoundRobin Sched StateM Process ProcFamily Fork.

Definition nowait (pr : proc_struct) : proc_struct := set_wait_state 0 pr.

(** What [do_fork] does not change in other processes. *)
Definition link_free (pr : proc_struct) : proc_struct := set_cptr None (set_yptr None (nowait pr)).

Lemma put_ne t p f t' x : put t p f = Ok t' -> x <> p -> procs_of t' !! x = procs_of t !! x.
Proof. intros (pr & _ & ->)%put_inv Hx. by apply lookup_insert_ne. Qed.

(** * A new process *)
Section Fork.
Context `{SchedClass c}.

Lemma new_sched t q p pr :
  sched_inv (c := c) (pk t) q -> procs_of t !! p = None -> rq pr = None -> state pr <> PROC_RUNNABLE -> Z.of_nat (size (procs_of t)) + 1 < 2 ^ 32 ->
  sched_inv (c := c) (with_sched (pk t) (proc_new (sched (pk t)) p pr)) q.
Proof.
  intros [Hq Hc Hi Hoff Hin Hall] Hp Hrq Hst Hsize. change (procs_of t) with (procs (sched (pk t))) in *.
  assert (Hrun : forall x, runnable (with_sched (pk t) (proc_new (sched (pk t)) p pr)) x <-> runnable (pk t) x).
  { intros x. unfold runnable. cbn. destruct (decide (x = p)) as [->|Hne]; [|by rewrite lookup_insert_ne].
    rewrite lookup_insert_eq, Hp. split; [intros (y & [= <-] & Hy); done|by intros (y & ? & _)]. }
  split; cbn.
  - by apply queue_new.
  - rewrite lookup_insert_ne; [done|]. intros ->. rewrite Hp in Hc. by destruct Hc.
  - rewrite lookup_insert_ne; [done|]. intros ->. rewrite Hp in Hi. by destruct Hi.
  - done.
  - intros x Hx. by apply Hrun, Hin.
  - intros x Hx%Hrun. by apply Hall.
Qed.

(** The table [t'] is [t] with a process [p] that is still being made by [cur]. *)
Record prepared (t t' : ptable) (cur p : Z) (pr : proc_struct) : Prop := Prepared {
  pp_sched q : sched_inv (c := c) (pk t) q -> sched_inv (c := c) (pk t') q;
  pp_table : same_table t t';
  pp_fresh : procs_of t !! p = None;
  pp_proc : procs_of t' !! p = Some pr;
  pp_parent : proc_parent pr = Some cur;
  pp_cptr : cptr pr = None;
  pp_state : state pr = PROC_UNINIT;
  pp_other x : x <> p -> nowait <$> procs_of t' !! x = nowait <$> procs_of t !! x
}.

Lemma prepared_put t t' cur p pr f :
  prepared t t' cur p pr -> quiet f -> (forall x, state (f x) = state x) -> (forall x, proc_parent (f x) = proc_parent x) -> (forall x, cptr (f x) = cptr x) ->
  exists t2, put t' p f = Ok t2 /\ prepared t t2 cur p (f pr).
Proof.
  intros [H1 H2 H3 H4 H5 H6 H7 H8] Hq Hs Hpar Hc. destruct (put_run t' p f) as [t2 E]; [by exists pr|]. exists t2. split; [done|].
  pose proof E as (pr' & Hp' & Et)%put_inv. rewrite H4 in Hp'. injection Hp' as <-.
  assert (Hx : forall x, procs_of t2 !! x = if decide (x = p) then Some (f pr) else procs_of t' !! x).
  { intros x. rewrite Et. cbn. destruct (decide (x = p)) as [->|Hne]; [by rewrite lookup_insert_eq|by rewrite lookup_insert_ne]. }
  split; [|eapply same_table_trans; [done|by eapply put_table]|done|by rewrite Hx, decide_True|by rewrite Hpar|by rewrite Hc|by rewrite Hs|].
  - intros q Hq'. eapply put_sched; [exact E|by apply H1|done|done].
  - intros x Hne. rewrite Hx, decide_False by done. by apply H8.
Qed.

(** From [alloc_proc] on. *)
Lemma prepared_start t q boot_pa jc jn :
  sched_inv (c := c) (pk t) q -> Z.of_nat (size (procs_of t)) + 1 < 2 ^ 32 ->
  exists t1 p t2 t3 pr, alloc_proc boot_pa jc jn true t = (t1, Some p) /\ put t1 p (set_proc_parent (Some (current (pk t1)))) = Ok t2 /\
    put t2 (current (pk t2)) (set_wait_state 0) = Ok t3 /\ prepared t t3 (current (pk t)) p pr.
Proof.
  intros Hinv Hsize. unfold alloc_proc. set (p := fresh (dom (procs_of t))). set (npr := ProcStruct.set_exit_code jc _).
  assert (Hp : procs_of t !! p = None) by (apply not_elem_of_dom, is_fresh). pose proof (new_sched t q p npr Hinv Hp eq_refl ltac:(discriminate) Hsize) as Hinv1.
  set (t1 := with_pk t (with_sched (pk t) (proc_new (sched (pk t)) p npr))). set (cur := current (pk t)).
  assert (Hp1 : procs_of t1 !! p = Some npr) by apply lookup_insert_eq. assert (Hoth1 : forall x, x <> p -> procs_of t1 !! x = procs_of t !! x) by (intros x Hx; by apply lookup_insert_ne).
  destruct (put_run t1 p (set_proc_parent (Some cur))) as [t2 E2]; [by exists npr|].
  assert (Hcur : live t cur) by apply (si_current _ _ Hinv). assert (Hpc : cur <> p) by (intros E; rewrite <- E in Hp; destruct Hcur; congruence).
  pose proof E2 as (pr' & Hp' & Et2)%put_inv. rewrite Hp1 in Hp'. injection Hp' as <-. assert (Ec2 : current (pk t2) = cur) by (by rewrite Et2).
  assert (Hx2 : forall x, procs_of t2 !! x = if decide (x = p) then Some (set_proc_parent (Some cur) npr) else procs_of t !! x).
  { intros x. rewrite Et2. cbn. destruct (decide (x = p)) as [->|Hne]; [by rewrite lookup_insert_eq|]. rewrite !lookup_insert_ne; done. }
  destruct (put_run t2 cur (set_wait_state 0)) as [t3 E3]; [unfold live; by rewrite Hx2, decide_False|].
  pose proof E3 as (pr' & Hp' & Et3)%put_inv. rewrite Hx2, decide_False in Hp' by done.
  exists t1, p, t2, t3, (set_proc_parent (Some cur) npr). split; [done|]. split; [done|]. split; [by rewrite Ec2|].
  assert (Hx3 : forall x, procs_of t3 !! x = if decide (x = cur) then Some (set_wait_state 0 pr') else procs_of t2 !! x).
  { intros x. rewrite Et3. cbn. destruct (decide (x = cur)) as [->|Hne]; [by rewrite lookup_insert_eq|by rewrite lookup_insert_ne]. }
  split; [| |done|by rewrite Hx3, Hx2, decide_False, decide_True|done|done|done|].
  - intros q' Hq'. eapply put_sched; [exact E3| |done|done]. eapply put_sched; [exact E2| |done|done]. by apply new_sched.
  - eapply same_table_trans; [|by eapply put_table]. eapply same_table_trans; [|by eapply put_table]. by repeat split.
  - intros x Hne. rewrite Hx3. destruct (decide (x = cur)) as [->|Hxc]; [by rewrite Hp'|]. by rewrite Hx2, decide_False.
Qed.

(** The children of everybody when [p] has become the youngest child of [cur]. *)
Definition ch_fork (ch : Z -> list Z) (cur p x : Z) : list Z := if decide (x = p) then [] else if decide (x = cur) then p :: ch cur else ch x.

Lemma kids_cons m m' cur p l :
  kids m cur l -> p ∉ l -> cptr <$> m' !! cur = Some (Some p) -> proc_parent <$> m' !! p = Some (Some cur) -> optr <$> m' !! p = Some (head l) -> yptr <$> m' !! p = Some None ->
  (forall x, x ∈ l -> proc_parent <$> m' !! x = proc_parent <$> m !! x /\ optr <$> m' !! x = optr <$> m !! x /\ yptr <$> m' !! x = if decide (head l = Some x) then Some (Some p) else yptr <$> m !! x) ->
  kids m' cur (p :: l).
Proof.
  intros (Hnd & Hc & Hk) Hp Ec Ep Eo Ey Hx. split; [by apply NoDup_cons|]. split; [done|]. intros [|i] x Hi.
  - injection Hi as <-. split; [done|]. split; [by rewrite Eo; destruct l|done].
  - cbn in Hi. assert (Hin : x ∈ l) by (by eapply list_elem_of_lookup_2). destruct (Hk i x Hi) as (K1 & K2 & K3). destruct (Hx x Hin) as (X1 & X2 & X3).
    split; [by rewrite X1|]. split; [by rewrite X2|]. rewrite X3. destruct i as [|j]; cbn [before].
    + rewrite decide_True; [done|]. by destruct l.
    + rewrite decide_False; [rewrite K3; done|]. intros Eh. destruct l as [|y l]; [done|]. injection Eh as ->. apply NoDup_cons in Hnd as [Hn _]. apply Hn. by eapply list_elem_of_lookup_2.
Qed.

Lemma set_links_run t q p cur pr ch :
  sched_inv (c := c) (pk t) q -> procs_of t !! p = Some pr -> proc_parent pr = Some cur -> cptr pr = None -> cur <> p -> live t cur ->
  (forall x, live t x -> x <> p -> kids (procs_of t) x (ch x) /\ p ∉ ch x) ->
  exists t', set_links t p = Ok t' /\ sched_inv (c := c) (pk t') q /\ same_cpu (pk t) (pk t') /\ proc_list t' = p :: proc_list t /\ nr_process t' = i32 (nr_process t + 1) /\
    hash_list t' = hash_list t /\ initproc t' = initproc t /\ next_safe t' = next_safe t /\ last_pid t' = last_pid t /\
    (forall x, live t' x <-> live t x) /\ family (procs_of t') (ch_fork ch cur p) /\
    (forall x, x <> p -> link_free <$> procs_of t' !! x = link_free <$> procs_of t !! x) /\
    (forall A (g : proc_struct -> A), (forall v pr, g (set_yptr v pr) = g pr) -> (forall v pr, g (set_optr v pr) = g pr) -> g <$> procs_of t' !! p = Some (g pr)).
Proof.
  intros Hs Hp Hpar Hcp Hne Hlc Hk. unfold set_links. set (t0 := with_proc_list t (p :: proc_list t)). assert (Hp0 : procs_of t0 !! p = Some pr) by done.
  destruct (put_run t0 p (set_yptr None)) as [t1 E1]; [by exists pr|]. rewrite E1. cbn [mbind res_bind].
  pose proof E1 as (x & Hx & Et1)%put_inv. rewrite Hp0 in Hx. injection Hx as <-. assert (Hp1 : procs_of t1 !! p = Some (set_yptr None pr)) by (rewrite Et1; apply lookup_insert_eq).
  rewrite (get_ok _ _ _ Hp1). cbn [mbind res_bind]. change (proc_parent (set_yptr None pr)) with (proc_parent pr). rewrite Hpar. cbn [mbind res_bind].
  destruct (Hk cur Hlc Hne) as [Hkc Hpc]. pose proof Hkc as (_ & Hcc & Hol).
  assert (exists cpr, procs_of t1 !! cur = Some cpr /\ cptr cpr = head (ch cur)) as (cpr & Hcpr & Hhd).
  { assert (cptr <$> procs_of t1 !! cur = Some (head (ch cur))) as E by (fields; exact Hcc). destruct (procs_of t1 !! cur) as [i2|]; [|done]. exists i2. split; [done|]. by injection E. }
  rewrite (get_ok _ _ _ Hcpr). cbn [mbind res_bind]. rewrite Hhd.
  destruct (put_run t1 p (set_optr (head (ch cur)))) as [t2 E2]; [by eexists|]. rewrite E2. cbn [mbind res_bind].
  pose proof (put_sched _ _ _ _ _ E1 (Hs : sched_inv (c := c) (pk t0) q) (fun _ => eq_refl) (fun _ => eq_refl)) as Hs1.
  pose proof (put_sched _ _ _ _ _ E2 Hs1 (fun _ => eq_refl) (fun _ => eq_refl)) as Hs2.
  assert (Hl2 : forall x, live t2 x <-> live t x) by (intros x; rewrite (put_live _ _ _ _ x E2), (put_live _ _ _ _ x E1); done).
  destruct (link_back t2 q (head (ch cur)) p) as (t3 & E3 & Hl3 & Ht3 & Hs3 & Hg3 & Hy3); [done| |].
  { intros o Ho. apply Hl2. destruct (ch cur) as [|o' L]; [done|]. injection Ho as <-. destruct (Hol 0%nat o' eq_refl) as (Ho & _). unfold live. by destruct (procs_of t !! o'). }
  rewrite E3. cbn [mbind res_bind]. destruct (put_run t3 cur (set_cptr (Some p))) as [t4 E4]; [by apply Hl3, Hl2|]. rewrite E4. cbn [mbind res_bind].
  pose proof (put_sched _ _ _ _ _ E4 Hs3 (fun _ => eq_refl) (fun _ => eq_refl)) as Hs4.
  pose proof (put_table _ _ _ _ E1) as Ht1. pose proof (put_table _ _ _ _ E2) as Ht2. pose proof (put_table _ _ _ _ E4) as Ht4.
  assert (Ht : same_table t0 t4) by (do 3 (eapply same_table_trans; [eassumption|]); exact Ht4). destruct Ht as ([Ec Ei] & Epl & Ehl & Ein & Enr & Ens & Elp).
  eexists. split; [reflexivity|]. split; [exact Hs4|]. split; [by split|]. split; [done|]. split; [cbn [with_nr_process nr_process]; by rewrite Enr|]. do 4 (split; [done|]).
  change (procs_of (with_nr_process t4 _)) with (procs_of t4).
  assert (Hl4 : forall x, live t4 x <-> live t x) by (intros x; rewrite (put_live _ _ _ _ x E4), Hl3; apply Hl2). split; [exact Hl4|].
  assert (Fp : forall x, proc_parent <$> procs_of t4 !! x = proc_parent <$> procs_of t !! x) by (intros x; fields; rewrite Hg3 by done; by fields).
  assert (Fc : forall x, cptr <$> procs_of t4 !! x = if decide (x = cur) then Some (Some p) else cptr <$> procs_of t !! x) by (intros x; fields; rewrite Hg3 by done; by fields).
  assert (Fo : forall x, optr <$> procs_of t4 !! x = if decide (x = p) then Some (head (ch cur)) else optr <$> procs_of t !! x) by (intros x; fields; rewrite Hg3 by done; by fields).
  assert (Fy : forall x, yptr <$> procs_of t4 !! x = if decide (head (ch cur) = Some x) then Some (Some p) else if decide (x = p) then Some None else yptr <$> procs_of t !! x) by (intros x; fields; rewrite Hy3; by fields).
  split; [|split].
  - intros x Hx%Hl4. unfold ch_fork. destruct (decide (x = p)) as [->|Hxp]; [|destruct (decide (x = cur)) as [->|Hxc]].
    + split; [constructor|]. split; [rewrite Fc, decide_False, Hp by congruence; cbn; by rewrite Hcp|intros i y Hy; by rewrite lookup_nil in Hy].
    + apply (kids_cons (procs_of t)); [done|done|by rewrite Fc, decide_True|by rewrite Fp, Hp; cbn; rewrite Hpar|by rewrite Fo, decide_True| |].
      * rewrite Fy, decide_False, decide_True; [done|done|]. intros Eh. apply Hpc. destruct (ch cur); [done|]. injection Eh as ->. by left.
      * intros y Hy. assert (y <> p) by (by intros ->). rewrite Fp, Fo, Fy, !(decide_False (P := y = p)) by done. done.
    + destruct (Hk x Hx Hxp) as [Hkx Hpx]. apply (kids_same (procs_of t)); [by rewrite Fc, decide_False| |done]. intros y Hy. assert (y <> p) by (by intros ->).
      rewrite Fp, Fo, Fy, !(decide_False (P := y = p)) by done. rewrite decide_False; [done|]. intros Eh. destruct (ch cur) as [|z L] eqn:Ech; [done|]. injection Eh as ->.
      assert (y ∈ ch cur) as Hyc by (rewrite Ech; left). rewrite <- Ech in Hkc. pose proof (kids_parent _ _ _ _ Hkc Hyc). pose proof (kids_parent _ _ _ _ Hkx Hy). congruence.
  - intros x Hxp. rewrite (put_same link_free _ _ (set_cptr (Some p)) _ x (fun _ => eq_refl) E4), Hg3, (put_ne _ _ _ _ _ E2 Hxp), (put_ne _ _ _ _ _ E1 Hxp) by done. done.
  - intros A g Hgy Hgo. rewrite (put_ne _ _ _ _ _ E4 (not_eq_sym Hne)).
    rewrite Hg3 by done. rewrite (put_same g _ _ _ _ _ (Hgo _) E2), (put_same g _ _ _ _ _ (Hgy _) E1). change (procs_of t0) with (procs_of t). by rewrite Hp.
Qed.

(** Another process in the table while [p] is made. *)
Lemma prepared_get {A} (g : proc_struct -> A) t t' cur p pr x :
  prepared t t' cur p pr -> (forall pr, g (nowait pr) = g pr) -> x <> p -> g <$> procs_of t' !! x = g <$> procs_of t !! x.
Proof.
  intros Hp Hg Hx. pose proof (pp_other _ _ _ _ _ Hp x Hx) as E. destruct (procs_of t' !! x) as [a|], (procs_of t !! x) as [b|]; try done. apply (inj Some) in E. cbn. f_equal. by rewrite <- (Hg a), <- (Hg b), E.
Qed.

Lemma prepared_live t t' cur p pr x : prepared t t' cur p pr -> x <> p -> live t' x <-> live t x.
Proof. intros Hp Hx. pose proof (pp_other _ _ _ _ _ Hp x Hx) as E. unfold live. destruct (procs_of t' !! x), (procs_of t !! x); try done; eauto. Qed.

Lemma prepared_pids t t' cur p pr next last : prepared t t' cur p pr -> prepared (with_pids t next last) (with_pids t' next last) cur p pr.
Proof. intros [G1 (Gc & Gl & Gh & Gi & Gn & _ & _) G3 G4 G5 G6 G7 G8]. by split. Qed.

Lemma pids_same t t' l : (forall x, x ∈ l -> pid <$> procs_of t' !! x = pid <$> procs_of t !! x) -> pids t' l = pids t l.
Proof.
  intros Hx. unfold pids. induction l as [|y l IH]; [done|]. cbn [omap list_omap]. rewrite Hx by by left. by rewrite IH by (intros z Hz; apply Hx; by right).
Qed.

(** The children of a living process are alive. *)
Lemma kids_live t x l y : kids (procs_of t) x l -> y ∈ l -> live t y.
Proof. intros Hk Hy. pose proof (kids_parent _ _ _ _ Hk Hy) as E. unfold live. by destruct (procs_of t !! y). Qed.

(** What a process table must satisfy for a process to be made. *)
Record fork_ready (t : ptable) (ch : Z -> list Z) : Prop := ForkReady {
  fr_sched : exists q, sched_inv (c := c) (pk t) q;
  fr_family : family (procs_of t) ch;
  fr_live : Forall (live t) (proc_list t);
  fr_room : nr_process t < MAX_PROCESS;
  fr_number : Z.of_nat (length (proc_list t)) < MAX_PID - 1;
  fr_size : Z.of_nat (size (procs_of t)) + 1 < 2 ^ 32;
  fr_last : 0 <= last_pid t <= MAX_PID;
  fr_next : next_safe t <= MAX_PID;
  fr_window : window (last_pid t) (next_safe t) (pids t (proc_list t));
  fr_name cur : procs_of t !! current (pk t) = Some cur -> PROC_NAME_LEN <= Z.of_nat (length (proc_name cur))
}.

(** The process [p] has taken its place in the table, as number [r]. *)
Record joined (t t' : ptable) (ch : Z -> list Z) (p r : Z) (pr : proc_struct) : Prop := Joined {
  jn_pid : 1 <= r < MAX_PID;
  jn_new : r ∉ pids t (proc_list t);
  jn_sched : exists q, sched_inv (c := c) (pk t') q;
  jn_cpu : same_cpu (pk t) (pk t');
  jn_family : family (procs_of t') (ch_fork ch (current (pk t)) p);
  jn_list : proc_list t' = p :: proc_list t;
  jn_hash : hash_list t' = <[pid_hashfn r := p :: pid_chain t r]> (hash_list t);
  jn_find : find_proc t' r = Ok (Some p);
  jn_count : nr_process t' = i32 (nr_process t + 1);
  jn_init : initproc t' = initproc t;
  jn_window : last_pid t' = r /\ next_safe t' <= MAX_PID /\ window r (next_safe t') (pids t' (proc_list t'));
  jn_child : exists pr', procs_of t' !! p = Some pr' /\ state pr' = PROC_RUNNABLE /\ pid pr' = r /\ proc_parent pr' = Some (current (pk t)) /\
    (forall cur, procs_of t !! current (pk t) = Some cur -> proc_name pr' = take (Z.to_nat PROC_NAME_LEN) (proc_name cur) ++ [0]) /\
    kstack pr' = kstack pr /\ mm pr' = mm pr /\ pgdir pr' = pgdir pr /\ filesp pr' = filesp pr;
  jn_other x : x <> p -> link_free <$> procs_of t' !! x = link_free <$> procs_of t !! x
}.

Context {F : Type} `{!Files F}.

Lemma named t t' cur p pr name :
  prepared t t' cur p pr -> PROC_NAME_LEN <= Z.of_nat (length name) ->
  exists t2, Process.set_proc_name t' p name = Ok t2 /\ prepared t t2 cur p (ProcStruct.set_proc_name (take (Z.to_nat PROC_NAME_LEN) name ++ [0]) pr).
Proof. intros Hp Hn. unfold Process.set_proc_name. rewrite (proj2 (Z.ltb_ge _ _)) by done. by apply prepared_put. Qed.

Lemma fork_finish_run (s : sys F) t ch p pr :
  fork_ready t ch -> prepared t (tab s) (current (pk t)) p pr ->
  exists t' r, fork_finish c s p = Ok (with_tab s t', r) /\ joined t t' ch p r pr.
Proof.
  intros [[q Hs] Hfam Hlive _ Hnum _ Hlast Hnext Hwin Hname] Hprep. unfold fork_finish. set (cur := current (pk t)) in *.
  pose proof Hprep as [_ Hsame Hfresh _ _ _ _ _]. pose proof Hsame as ([Ecur Eidle] & Epl & Ehl & Einit & Enr & Ens & Elp).
  assert (Hlc : live t cur) by apply (si_current _ _ Hs). assert (Hpc : cur <> p) by (intros E; rewrite <- E in Hfresh; destruct Hlc; congruence).
  assert (Hpl : p ∉ proc_list t) by (intros Hin; rewrite Forall_forall in Hlive; destruct (Hlive p Hin); congruence).
  assert (Hpids : pids (tab s) (proc_list (tab s)) = pids t (proc_list t)).
  { rewrite Epl. apply pids_same. intros x Hx. apply (prepared_get pid _ _ _ _ _ _ Hprep); [done|by intros ->]. }
  destruct (get_pid_run (tab s)) as (next & r & -> & Hr & Hrn & Hn & Hw).
  { rewrite Epl. eapply Forall_impl; [apply Forall_and; split; [exact Hlive|apply Forall_forall; exact (fun x (Hx : x ∈ proc_list t) => Hx)]|].
    intros x [Hx Hin]. apply (prepared_live _ _ _ _ _ _ Hprep); [by intros ->|done]. }
  1-4: rewrite ?Hpids, ?Epl, ?Ens, ?Elp; done.
  rewrite Hpids in Hrn, Hw. cbn [mbind res_bind]. apply (prepared_pids _ _ _ _ _ next r) in Hprep.
  destruct (prepared_put _ _ _ _ _ (set_pid r) Hprep) as (t3 & -> & Hprep3); [done..|]. cbn [mbind res_bind].
  pose proof (pp_table _ _ _ _ _ Hprep3) as ([Ec3 _] & _). change (current (pk t3) = cur) in Ec3. rewrite Ec3.
  destruct Hlc as [curp Hcurp]. assert (exists cp, procs_of t3 !! cur = Some cp /\ proc_name cp = proc_name curp) as (cp & Hcp & Ecp).
  { pose proof (prepared_get proc_name _ _ _ _ _ cur Hprep3 (fun _ => eq_refl) Hpc) as E. change (procs_of (with_pids t next r)) with (procs_of t) in E. rewrite Hcurp in E.
    destruct (procs_of t3 !! cur) as [cp|]; [|done]. exists cp. split; [done|]. by injection E. }
  rewrite (get_ok _ _ _ Hcp). cbn [mbind res_bind]. rewrite Ecp.
  destruct (named _ _ _ _ _ (proc_name curp) Hprep3 (Hname curp Hcurp)) as (t4 & -> & Hprep4). cbn [mbind res_bind].
  set (pr4 := ProcStruct.set_proc_name _ (set_pid r pr)) in *. pose proof Hprep4 as [Hs4 ([Ec4 Ei4] & Epl4 & Ehl4 & Ein4 & Enr4 & Ens4 & Elp4) _ Hp4 Hpar4 Hcp4 Hst4 _].
  unfold hash_proc. rewrite (get_ok _ _ _ Hp4). cbn [mbind res_bind]. change (pid pr4) with r.
  set (t5 := with_hash_list t4 _). change (procs_of t4) with (procs_of t5) in Hp4.
  assert (Hlive5 : forall x, x <> p -> live t5 x <-> live t x) by (intros x Hx; apply (prepared_live _ _ _ _ _ x Hprep4 Hx)).
  destruct (set_links_run t5 q p cur pr4 ch) as (t6 & -> & Hs6 & [Ec6 Ei6] & Epl6 & Enr6 & Ehl6 & Ein6 & Ens6 & Elp6 & Hl6 & Hfam6 & Hoth6 & Hg6); try done.
  { by apply (Hs4 q). } { apply Hlive5; [done|by exists curp]. }
  { intros x Hx Hxp. apply Hlive5 in Hx; [|done]. pose proof (Hfam x Hx) as Hk. assert (Hnp : forall y, y ∈ ch x -> y <> p).
    { intros y Hy ->. destruct (kids_live _ _ _ _ Hk Hy). congruence. }
    split; [|intros Hy; by apply (Hnp p Hy)]. apply (kids_same (procs_of t)); [by apply (prepared_get cptr _ _ _ _ _ x Hprep4)| |done].
    intros y Hy%Hnp. split; [by apply (prepared_get proc_parent _ _ _ _ _ y Hprep4)|]. split; [by apply (prepared_get optr _ _ _ _ _ y Hprep4)|by apply (prepared_get yptr _ _ _ _ _ y Hprep4)]. }
  cbn [mbind res_bind]. assert (exists pr6, procs_of t6 !! p = Some pr6 /\ state pr6 = PROC_UNINIT) as (pr6 & Hp6 & Hst6).
  { pose proof (Hg6 _ state (fun _ _ => eq_refl) (fun _ _ => eq_refl)) as E. destruct (procs_of t6 !! p) as [pr6|]; [|done]. exists pr6. split; [done|]. injection E as ->. done. }
  destruct (wakeup_run t6 q p pr6 Hs6 Hp6 ltac:(by rewrite Hst6)) as (t7 & q7 & -> & Hs7 & ([Ec7 Ei7] & Epl7 & Ehl7 & Ein7 & Enr7 & Ens7 & Elp7) & Hl7 & Hg7 & Hoth7 & Hst7).
  cbn [mbind res_bind]. destruct (procs_of t7 !! p) as [pr7|] eqn:Hp7; [|done]. injection Hst7 as Hst7. rewrite (get_ok _ _ _ Hp7). cbn [mbind res_bind].
  assert (Hgp : forall A (g : proc_struct -> A), (forall pr, g (core pr) = g pr) -> (forall pr, g (woken pr) = g pr) -> (forall v pr, g (set_yptr v pr) = g pr) -> (forall v pr, g (set_optr v pr) = g pr) -> g pr7 = g pr4).
  { intros A g Hg1 Hg2 Hg3 Hg4. pose proof (Hg7 A g p Hg1 Hg2) as E. rewrite Hp7, (Hg6 A g Hg3 Hg4) in E. by injection E. }
  assert (Hpid : pid pr7 = r) by (by apply (Hgp _ pid)). exists t7, r. rewrite Hpid. split; [done|].
  assert (Hother : forall x, x <> p -> link_free <$> procs_of t7 !! x = link_free <$> procs_of t !! x).
  { intros x Hx. rewrite Hoth7, Hoth6 by done. by apply (prepared_get link_free _ _ _ _ _ x Hprep4). }
  cbn [t5 with_hash_list with_pids proc_list hash_list nr_process initproc next_safe last_pid pk] in *.
  assert (Hhash : hash_list t7 = <[pid_hashfn r := p :: pid_chain t r]> (hash_list t)) by (rewrite Ehl7, Ehl6; cbn; unfold pid_chain; by rewrite Ehl4).
  assert (Hlist : proc_list t7 = p :: proc_list t) by congruence.
  split; [done|done|by exists q7|split; congruence| |done|done| |congruence|congruence| | |done].
  - intros x Hx. apply Hl7 in Hx. apply (kids_same (procs_of t6)); [by apply Hg7| |by apply Hfam6]. intros y _. rewrite !Hg7 by done. done.
  - unfold find_proc, pid_chain. rewrite Hhash, lookup_insert_eq. cbn [default from_option id find_in]. rewrite (get_ok _ _ _ Hp7). cbn [mbind res_bind]. rewrite Hpid, Z.eqb_refl.
    assert ((0 <? r) && (r <? MAX_PID) = true) as -> by lia. done.
  - split; [congruence|]. assert (next_safe t7 = next) as -> by congruence. split; [done|]. rewrite Hlist, (pids_cons _ _ _ _ Hp7), Hpid, (pids_same t); [done|].
    intros x Hx. assert (Hxp : x <> p) by (by intros ->). pose proof (Hother x Hxp) as E. destruct (procs_of t7 !! x) as [a|], (procs_of t !! x) as [b|]; try done. apply (inj Some), (f_equal pid) in E. cbn. f_equal. exact E.
  - exists pr7. split; [done|]. split; [done|]. split; [done|]. split; [by rewrite (Hgp _ proc_parent)|]. split; [intros cur' Ecur'; rewrite (Hgp _ proc_name) by done; fold cur in Ecur'; rewrite Hcurp in Ecur'; injection Ecur' as <-; done|].
    rewrite (Hgp _ kstack), (Hgp _ mm), (Hgp _ pgdir), (Hgp _ filesp) by done. done.
Qed.
End Fork.
