(* ===== verification/ForkSpec.v ===== *)
(** [do_fork] of a user process without sharing: the steps of the function one after the
    other, and the new process they make. *)
From S2P Require Import Prelude Lists Page Blocks FreeArea SkewHeap ProcStruct SchedClass RoundRobin Sched StateM Process ProcFamily Vmm PageTable PageRange PageCopy Memory Fork ForkMem ForkProc.

Section Spec.
Context `{SchedClass c} {F : Type} `{!Files F} `{PageAllocator alloc free} (npg boot forkret : Z) (Hnpg : npg + 1 < 2 ^ 32).
Abbreviation npage := (npg + nbase).
Abbreviation ready := (fork_memory_ready npg boot).
Abbreviation prepared := (prepared (c := c)).
Implicit Types s : sys F.

(** The kernel stack. *)
Lemma setup_kstack_run s t cur p pr bl oldmm from al :
  prepared t (tab s) cur p pr -> ready s bl oldmm from al -> Exists (fun x => KSTACKPAGE <= x.2) bl ->
  exists t' a k bl', let s' := with_tab (with_ram s (with_area (ram s) a)) t' in
    setup_kstack alloc npage s p = Ok (s', 0) /\ prepared t t' cur p (set_kstack (Some k) pr) /\ ready s' bl' oldmm from al /\
    total bl' = total bl - KSTACKPAGE /\ 0 <= k /\ k + 1 < npg /\ owned (ram s') bl' k /\ owned (ram s') bl' (k + 1) /\
    (forall f, owned (ram s) bl f -> owned (ram s') bl' f /\ f <> k /\ f <> k + 1).
Proof.
  intros Hp (Hm & Hf & Hof & Hal & Hu & Hfd & Hb & Hob & Hboot & Hpages) Hbig. unfold setup_kstack.
  destruct (stack_alloc_run (free := free) npg Hnpg (ram s) bl Hm Hbig) as (a & k & bl' & -> & Hm' & Htot & Hk & Hk1 & Ho & Ho1 & Hkeep). cbn [mbind res_bind].
  rewrite page2kva_run by lia. cbn [mbind res_bind]. change (tab (with_ram s (with_area (ram s) a))) with (tab s).
  destruct (prepared_put _ _ _ _ _ (set_kstack (Some k)) Hp) as (t' & -> & Hp'); [done..|]. cbn [mbind res_bind].
  exists t', a, k, bl'. destruct (tree_same npg (ram s) (with_area (ram s) a) from) as (Hisf & Hptef & Hf2 & _); [done|].
  split; [done|]. split; [done|]. split; [|by split_and!]. split; [done|]. split; [by apply Hf2|]. split; [intros f Hft%Hisf; by apply Hkeep, Hof|]. do 4 (split; [done|]).
  split; [by apply Hkeep|]. split; [done|]. intros la Hin. cbn. rewrite Hptef. intros Hv. by apply Hkeep, Hpages.
Qed.

(** The memory. *)
Lemma copy_mm_run o s t p pr cpr bl oldmm from al :
  prepared t (tab s) (current (pk t)) p pr -> procs_of t !! current (pk t) = Some cpr -> mm cpr = Some oldmm -> ready s bl oldmm from al ->
  ok_mm o = true -> (forall x, ok_vma o x = true) -> 1 + 3 * area_pages al <= total bl ->
  exists t' v' m' bl' mm d, let s' := with_tab (with_spaces (with_ram s m') v') t' in
    copy_mm alloc free npage boot o 0 s p = Ok (s', 0) /\ prepared t t' (current (pk t)) p (set_pgdir (page2pa d) (set_mm (Some mm) pr)) /\
    forked npg (ram s) bl from al m' bl' d /\ mm_inv v' mm (set_vm_mm (Some mm) <$> al) /\ mm_inv v' oldmm al /\ pgdir_of v' mm = Ok d /\
    mm_count <$> mms v' !! mm = Some 1 /\ mms (spaces s) !! mm = None /\ forall x, x <> mm -> mms v' !! x = mms (spaces s) !! x.
Proof.
  intros Hp Hcpr Hmm Hr Hok Hokv Hmem. unfold copy_mm. pose proof (pp_table _ _ _ _ _ Hp) as ([-> _] & _).
  assert (Hpc : current (pk t) <> p) by (intros E; rewrite E in Hcpr; rewrite (pp_fresh _ _ _ _ _ Hp) in Hcpr; done).
  pose proof (prepared_get mm _ _ _ _ _ _ Hp (fun _ => eq_refl) Hpc) as E. rewrite Hcpr in E. destruct (procs_of (tab s) !! current (pk t)) as [cp|] eqn:Hcp; [|done].
  rewrite (get_ok _ _ _ Hcp). cbn [mbind res_bind]. apply (inj Some) in E. rewrite E, Hmm.
  pose proof Hr as (_ & _ & _ & Hal & _).
  destruct (copy_mm_get_run npg boot Hnpg o s bl oldmm from al Hr Hok Hokv Hmem) as (v1 & m1 & bl1 & x & d & -> & Hfk & Hx & Hal1 & Hd & Hcnt & Hnew & Hoth). cbn [mbind res_bind].
  unfold mm_count_inc. cbn [spaces with_ram with_spaces]. destruct (mms v1 !! x) as [xm|] eqn:Hxm; [|done]. injection Hcnt as Hcnt. rewrite (deref_some _ _ _ Hxm). cbn [mbind res_bind]. rewrite Hcnt. change (i32 (0 + 1)) with 1.
  destruct (mm_inv_set v1 x _ (put_mm_count 1) Hx) as (v2 & Ev & Hx2 & Hv2 & Hoth2 & Hset2); [done|]. rewrite Ev. cbn [mbind res_bind tab with_spaces with_ram spaces].
  destruct (prepared_put _ _ _ _ _ (set_mm (Some x)) Hp) as (t1 & -> & Hp1); [done..|]. cbn [mbind res_bind].
  rewrite Hxm in Hset2. assert (Hd2 : pgdir_of v2 x = Ok d) by (unfold pgdir_of, deref in *; rewrite Hset2; rewrite Hxm in Hd; exact Hd).
  rewrite Hd2. cbn [mbind res_bind]. destruct (prepared_put _ _ _ _ _ (set_pgdir (page2pa d)) Hp1) as (t2 & -> & Hp2); [done..|]. cbn [mbind res_bind].
  assert (Hne : oldmm <> x) by (intros ->; destruct Hal as [_ (y & Hy & _)]; congruence).
  exists t2, v2, m1, bl1, x, d. split; [done|]. split; [done|]. split; [done|]. split; [done|]. split.
  { apply (mm_inv_other v1); [done|by rewrite Hoth2|]. intros y a. unfold area_is. by rewrite Hv2. }
  split; [done|]. split; [by rewrite Hset2|]. split; [done|]. intros y Hy. by rewrite Hoth2, Hoth.
Qed.

(** The open files. *)
Lemma copy_files_run s t p pr cpr cs f1 new old n :
  prepared t (tab s) (current (pk t)) p pr -> procs_of t !! current (pk t) = Some cpr -> filesp cpr = Some old ->
  files_ok (opened s) cs -> cs !! old = Some n -> 0 < n -> files_create_at (opened s) = Ok (f1, Some new) ->
  exists t' f', copy_files 0 s p = Ok (with_tab (with_opened s f') t', 0) /\ prepared t t' (current (pk t)) p (set_filesp (Some new) pr) /\
    cs !! new = None /\ files_ok f' (<[new := 1]> cs) /\ files_at f' new = files_at (opened s) old /\ forall a, a <> new -> files_at f' a = files_at (opened s) a.
Proof.
  intros Hp Hcpr Hfs Hok Hn Hn0 Hcreate. unfold copy_files. pose proof (pp_table _ _ _ _ _ Hp) as ([-> _] & _).
  assert (Hpc : current (pk t) <> p) by (intros E; rewrite E in Hcpr; rewrite (pp_fresh _ _ _ _ _ Hp) in Hcpr; done).
  pose proof (prepared_get filesp _ _ _ _ _ _ Hp (fun _ => eq_refl) Hpc) as E. rewrite Hcpr in E. destruct (procs_of (tab s) !! current (pk t)) as [cp|] eqn:Hcp; [|done].
  rewrite (get_ok _ _ _ Hcp). cbn [mbind res_bind]. apply (inj Some) in E. rewrite E, Hfs. change (Z.land 0 CLONE_FS) with 0. cbn [negb Z.eqb]. rewrite Hcreate. cbn [mbind res_bind].
  destruct (files_create_ok _ _ Hok) as (f1' & r & E1 & Hr). rewrite Hcreate in E1. injection E1 as <- <-. destruct Hr as (Hnew & Hok1 & Hfresh & Hat1). assert (Hne : old <> new) by congruence.
  destruct (dup_files_ok f1 (<[new := 0]> cs) new old n Hok1) as (f2 & E2 & Hok2 & Hto & Hat2); [apply lookup_insert_eq|done|by rewrite lookup_insert_ne|done|].
  cbn [opened with_opened]. rewrite E2. cbn [mbind res_bind Z.eqb negb opened with_opened].
  destruct (files_count_inc_ok f2 _ new 0 Hok2) as (f3 & -> & Hok3 & Hat3); [apply lookup_insert_eq|]. cbn [mbind res_bind tab with_opened].
  destruct (prepared_put _ _ _ _ _ (set_filesp (Some new)) Hp) as (t' & -> & Hp'); [done..|]. cbn [mbind res_bind].
  exists t', f3. split; [done|]. split; [done|]. split; [done|]. rewrite insert_insert_eq in Hok3. split; [exact Hok3|]. split; [rewrite Hat3, Hto; by apply Hat1|]. intros a Ha. by rewrite Hat3, Hat2, Hat1.
Qed.

(** The trap frame and the context. *)
Lemma copy_thread_run s p pr k esp tf :
  procs_of (tab s) !! p = Some pr -> kstack pr = Some k -> frame_ok (ram s) (k + 1) -> Z.of_nat (length tf) = TRAPFRAME_WORDS ->
  exists m', copy_thread forkret s p esp tf = Ok (with_ctxs (with_ram s m') (<[p := Ctx forkret (tf_addr k) (tf_addr k)]> (ctxs s))) /\
    area m' = area (ram s) /\ (forall g, frame_ok (ram s) g -> frame_ok m' g) /\ (forall g, g <> k + 1 -> frames m' !! g = frames (ram s) !! g) /\
    forall j, 0 <= j < TRAPFRAME_WORDS -> entry m' (k + 1) (NPTEENTRY - TRAPFRAME_WORDS + j) = child_frame tf (if esp =? 0 then tf_addr k else esp) !! Z.to_nat j.
Proof.
  intros Hp Hk Hf Hlen. unfold copy_thread. rewrite (get_ok _ _ _ Hp). cbn [mbind res_bind]. rewrite Hk. cbn [mbind res_bind].
  destruct (thread_words_run (ram s) (k + 1) tf (if esp =? 0 then tf_addr k else esp) Hf Hlen) as (m1 & m2 & m' & -> & E2 & E3 & Hrest). cbn [mbind res_bind].
  rewrite E2. cbn [mbind res_bind]. rewrite E3. cbn [mbind res_bind]. exists m'. by split.
Qed.

(** The stack of the new process is not part of what [forked] speaks about. *)
Lemma forked_stack m0 bl0 m bl from al m' bl' d m2 g :
  forked npg m bl from al m' bl' d -> frames m = frames m0 -> (forall la, vm_pte m from la = vm_pte m0 from la) ->
  (forall f, owned m0 bl0 f -> owned m bl f /\ f <> g) -> owned m bl g ->
  area m2 = area m' -> (forall f, frame_ok m' f -> frame_ok m2 f) -> (forall f, f <> g -> frames m2 !! f = frames m' !! f) ->
  forked npg m0 bl0 from al m2 bl' d.
Proof.
  intros [[Hi Hfr] Ht Ho Hpg Hrest Hkeep] Efr Epte Hown Hg Ea Hok Hsame. assert (Ho2 : forall f, owned m' bl' f -> owned m2 bl' f) by (intros f; unfold owned; by rewrite Ea).
  destruct (tree_same npg m' m2 d) as (His & Hpte & Ht2 & _); [intros f Hf; apply Hsame; intros ->; by destruct (Hkeep g Hg) as (_ & ? & _)|].
  split; [split; [by rewrite Ea|auto]|by apply Ht2|intros f Hf%His; auto| | |].
  - intros la Hin Hv. rewrite <- Epte in *. destruct (Hpg la Hin Hv) as (np & E1 & E2 & E3 & E4). exists np. rewrite Hpte. split; [done|]. split; [|split; [auto|]].
    + rewrite Hsame, E2, Efr; [done|]. by intros ->.
    + intros Hold. by apply E4, Hown.
  - intros la Hla. rewrite Hpte. apply Hrest. by rewrite Epte.
  - intros f Hf. destruct (Hown f Hf) as [Hf1 Hfg]. destruct (Hkeep f Hf1) as (H1 & H2 & H3). split; [auto|]. split; [by rewrite His|]. by rewrite Hsame, H3, Efr.
Qed.

(** The process [p] that [do_fork] made from the state [s]: what it has, and where. *)
Record child_made (s s' : sys F) (bl : list block) (oldmm from : Z) (al : list vma_struct) (cs : gmap Z Z) (old : Z) (tf : list Z) (stack p : Z) (pr : proc_struct) : Prop := ChildMade {
  cm_memory : exists x d bl', mm pr = Some x /\ pgdir pr = page2pa d /\ forked npg (ram s) bl from al (ram s') bl' d /\
    pgdir_of (spaces s') x = Ok d /\ mm_inv (spaces s') x (set_vm_mm (Some x) <$> al) /\ mm_count <$> mms (spaces s') !! x = Some 1 /\
    mms (spaces s) !! x = None /\ (forall y, y <> x -> mms (spaces s') !! y = mms (spaces s) !! y) /\ mm_inv (spaces s') oldmm al;
  cm_thread : exists k, kstack pr = Some k /\ ~ owned (ram s) bl k /\ ~ owned (ram s) bl (k + 1) /\
    ctxs s' = <[p := Ctx forkret (tf_addr k) (tf_addr k)]> (ctxs s) /\
    forall j, 0 <= j < TRAPFRAME_WORDS -> entry (ram s') (k + 1) (NPTEENTRY - TRAPFRAME_WORDS + j) = child_frame tf (if stack =? 0 then tf_addr k else stack) !! Z.to_nat j;
  cm_files : exists new, filesp pr = Some new /\ cs !! new = None /\ files_ok (opened s') (<[new := 1]> cs) /\
    files_at (opened s') new = files_at (opened s) old /\ forall a, a <> new -> files_at (opened s') a = files_at (opened s) a
}.

(** C3. A fork makes a copy: with processes, memory and open files to be had, [do_fork]
    returns a number no process had; the new process is runnable, found under that
    number and the youngest child of its parent, in a table that still satisfies the
    invariants of the scheduler, of the family relations and of the numbers; its memory
    has the parent's areas and, page by page, the parent's bytes in frames that nobody
    used before, while the parent's page table and pages are as they were; its trap
    frame, at the end of its own kernel stack, is the parent's with 0 as the result of
    the system call; and its own table of open files has what its parent's has. *)
Theorem do_fork_creates o s tf stack ch bl oldmm from al cpr cs f1 new old n :
  fork_ready (c := c) (tab s) ch -> procs_of (tab s) !! current (pk (tab s)) = Some cpr -> mm cpr = Some oldmm -> filesp cpr = Some old ->
  ready s bl oldmm from al -> Exists (fun x => KSTACKPAGE <= x.2) bl -> KSTACKPAGE + 1 + 3 * area_pages al <= total bl ->
  files_ok (opened s) cs -> cs !! old = Some n -> 0 < n -> files_create_at (opened s) = Ok (f1, Some new) ->
  ok_proc o = true -> ok_mm o = true -> (forall x, ok_vma o x = true) -> Z.of_nat (length tf) = TRAPFRAME_WORDS ->
  exists s' r p pr, do_fork c alloc free npage boot forkret o 0 stack tf s = Ok (s', r) /\
    joined (c := c) (tab s) (tab s') ch p r pr /\ child_made s s' bl oldmm from al cs old tf stack p pr.
Proof.
  intros Hready Hcpr Hmm Hfs Hr Hbig Hmem Hok Hn Hn0 Hcreate Hokp Hokm Hokv Hlen. unfold do_fork. pose proof Hready as [[q Hs] _ _ Hroom _ Hsize _ _ _ _].
  rewrite (proj2 (Z.leb_gt _ _) Hroom), Hokp.
  destruct (prepared_start (tab s) q (boot_pgdir_pa boot) (junk_code o) (junk_name o) Hs Hsize) as (t1 & p & t2 & t3 & pr & -> & -> & E3 & Hp). cbn [mbind res_bind]. rewrite E3. cbn [mbind res_bind].
  destruct (setup_kstack_run (with_tab s t3) (tab s) _ p pr bl oldmm from al Hp Hr Hbig) as (t4 & a & k & bl1 & -> & Hp4 & Hr4 & Htot & Hk & Hk1 & Hok4 & Hok41 & Hkeep). cbn [mbind res_bind Z.eqb negb].
  set (s4 := with_tab _ t4) in *.
  destruct (copy_mm_run o s4 (tab s) p _ cpr bl1 oldmm from al Hp4 Hcpr Hmm Hr4 Hokm Hokv) as (t5 & v5 & m5 & bl5 & x & d & -> & Hp5 & Hfk & Hx & Hal & Hd & Hcnt & Hnew & Hoth); [lia|]. cbn [mbind res_bind Z.eqb negb].
  set (s5 := with_tab _ t5) in *.
  destruct (copy_files_run s5 (tab s) p _ cpr cs f1 new old n Hp5 Hcpr Hfs Hok Hn Hn0 Hcreate) as (t6 & f6 & -> & Hp6 & Hfresh & Hok6 & Hat). cbn [mbind res_bind Z.eqb negb].
  set (s6 := with_tab _ t6) in *.
  destruct (copy_thread_run s6 p _ k stack tf (pp_proc _ _ _ _ _ Hp6) eq_refl) as (m7 & -> & Ea & Hokf & Hsame & Htf); [apply (fk_mem _ _ _ _ _ _ _ _ Hfk); lia|done|]. cbn [mbind res_bind].
  set (s7 := with_ctxs _ _). destruct (fork_finish_run s7 (tab s) ch p _ Hready Hp6) as (t8 & r & -> & Hj).
  eexists _, r, p, _. split; [reflexivity|]. split; [exact Hj|]. split.
  - exists x, d, bl5. split; [done|]. split; [done|]. split; [|by split_and!].
    apply (forked_stack (ram s) bl (ram s4) bl1 from al m5 bl5 d m7 (k + 1)); try done. intros f Hf. by destruct (Hkeep f Hf) as (? & ? & ?).
  - exists k. split; [done|]. split; [intros Ho; by destruct (Hkeep k Ho) as (_ & ? & _)|]. split; [intros Ho; by destruct (Hkeep (k + 1) Ho) as (_ & _ & ?)|]. by split.
  - exists new. split; [done|]. split; [done|]. split; [done|]. exact Hat.
Qed.
End Spec.
