(* ===== verification/ForkFiles.v ===== *)
(** The tables of open files of all processes (lab8/kern/fs/fs.c) as [do_fork] uses them:
    the interface [Files] over the functions of FileTable.v. *)
From S2P Require Import Prelude Layout StateM Disk0 SfsIo SfsNode Vfs FileTable Fork.

Section Tables.
Context {D : Type} `{!Device D}.
#[local] Notation K := (kernel D).

(** The tables at their addresses, and the state the functions on them work on; the table
    of the running process in it is not consulted. *)
Record files_heap : Type := FilesHeap { fh_kernel : K; fh_tables : gmap Z files_struct }.

Definition fh_create (h : files_heap) : res (files_heap * option Z) :=
  '(k, r) ← files_create (fh_kernel h);
  match r with
  | inr (Some fs) => let a := fresh (dom (fh_tables h)) in Ok (FilesHeap k (<[a := fs]> (fh_tables h)), Some a)
  | _ => Ok (FilesHeap k (fh_tables h), None)
  end.

Definition fh_dup (h : files_heap) (to from : Z) : res (files_heap * Z) :=
  t ← deref (fh_tables h) to;
  f ← deref (fh_tables h) from;
  '(k, r) ← dup_files t f (fh_kernel h);
  match r with
  | inr t => Ok (FilesHeap k (<[to := t]> (fh_tables h)), 0)
  | inl e => Ok (FilesHeap k (fh_tables h), - e)
  end.

Definition fh_destroy (h : files_heap) (a : Z) : res files_heap :=
  t ← deref (fh_tables h) a;
  '(k, _) ← files_destroy t (fh_kernel h);
  Ok (FilesHeap k (delete a (fh_tables h))).

Definition set_files_count (n : Z) (t : files_struct) : files_struct := mk_files (pwd t) (fd_array t) n (files_sem t).

Definition fh_count (d : Z) (h : files_heap) (a : Z) : res (files_heap * Z) :=
  t ← deref (fh_tables h) a;
  let n := i32 (files_count t + d) in
  Ok (FilesHeap (fh_kernel h) (<[a := set_files_count n t]> (fh_tables h)), n).

(** The inodes a table refers to exist. *)
Definition refers (k : K) (t : files_struct) : Prop :=
  length (fd_array t) = Z.to_nat FILES_STRUCT_NENTRY /\ (forall a, pwd t = Some a -> is_Some (w_nodes (k_world k) !! a)) /\
  forall f, f ∈ fd_array t -> status f = FD_OPENED -> exists a, node f = Some a /\ is_Some (w_nodes (k_world k) !! a).

Definition fh_ok (h : files_heap) (cs : gmap Z Z) : Prop :=
  files_count <$> fh_tables h = cs /\ forall a t, fh_tables h !! a = Some t -> refers (fh_kernel h) t.

Definition fh_new (h : files_heap) (a : Z) : Prop := fd_array <$> fh_tables h !! a = Some fd_array_init.

(** What is open under a descriptor. *)
Definition opening (f : file) : option (Z * Z) := if is_status FD_OPENED f then (fun a => (a, pos f)) <$> node f else None.

Definition fh_at (h : files_heap) (a : Z) : option (list (option (Z * Z))) := (fun t => opening <$> fd_array t) <$> fh_tables h !! a.

Definition same_nodes (k k' : K) : Prop := forall a, is_Some (w_nodes (k_world k') !! a) <-> is_Some (w_nodes (k_world k) !! a).

Lemma same_nodes_refers k k' t : same_nodes k k' -> refers k t -> refers k' t.
Proof.
  intros Hs (H1 & H2 & H3). split; [done|]. split; [intros a Ha; by apply Hs, H2|]. intros f Hf Ho. destruct (H3 f Hf Ho) as (a & Ha & Hn). exists a. split; [done|]. by apply Hs.
Qed.

Lemma with_node_same_nodes k a n : is_Some (w_nodes (k_world k) !! a) -> same_nodes k (with_node a n k).
Proof.
  intros Ha b. cbn. destruct (decide (b = a)) as [->|Hne]; [|by rewrite lookup_insert_ne]. rewrite lookup_insert_eq. split; eauto.
Qed.

Lemma files_create_run k :
  exists k' (ok : bool), files_create k = Ok (k', inr (if ok then Some (mk_files None fd_array_init 0 1) else None)) /\ same_nodes k k'.
Proof.
  assert (exists k' ok, k_malloc k = Ok (k', inr ok) /\ w_nodes (k_world k') = w_nodes (k_world k)) as (k' & ok & E & Hn).
  { unfold k_malloc, on_world, on_sfs, zoom, kmalloc. cbn. destruct (kmem (w_fs (k_world k))) as [|ok l] eqn:Ek; rewrite ?Ek; by eexists _, _. }
  exists k', ok. unfold files_create. rewrite (bind_ok _ _ _ _ _ E). split; [done|]. intros a. by rewrite Hn.
Qed.

(** The entries of the new table. *)
Definition dup_of_entry (t f : file) : file :=
  if is_status FD_OPENED f then mk_file FD_OPENED (readable f) (writable f) (fd t) (pos f) (node f) 1 else t.

Lemma dup_all_run from : forall to k,
  length to = length from -> (forall f, f ∈ from -> status f = FD_OPENED -> exists a, node f = Some a /\ is_Some (w_nodes (k_world k) !! a)) ->
  Forall (fun t => fopen_count t = 0) to ->
  exists k', dup_all to from k = Ok (k', inr (zip_with dup_of_entry to from)) /\ same_nodes k k'.
Proof.
  induction from as [|f from IH]; intros [|t to] k Hlen Hn Ht; try done; [by exists k|]. cbn [dup_all zip_with].
  apply Forall_cons in Ht as [Ht0 Ht]. assert (exists k1, (if is_status FD_OPENED f then fd_array_dup (FileTable.set_status FD_INIT t) f else mret t) k = Ok (k1, inr (dup_of_entry t f)) /\ same_nodes k k1) as (k1 & E1 & Hs1).
  { unfold dup_of_entry. destruct (is_status FD_OPENED f) eqn:Es; [|by exists k]. apply bool_decide_eq_true in Es.
    destruct (Hn f ltac:(by left) Es) as (a & Ha & [n Hna]). eexists. rewrite (dup_entry k (FileTable.set_status FD_INIT t) f a n Es Ha Hna eq_refl Ht0), Ha. split; [done|]. apply with_node_same_nodes. by exists n. }
  rewrite (bind_ok _ _ _ _ _ E1). destruct (IH to k1) as (k2 & E2 & Hs2); [by injection Hlen| |done|].
  - intros g Hg Ho. destruct (Hn g ltac:(by right) Ho) as (a & Ha & Hsome). exists a. split; [done|]. by apply Hs1.
  - rewrite (bind_ok _ _ _ _ _ E2). exists k2. split; [done|]. intros a. by rewrite (Hs2 a).
Qed.

Lemma dup_files_run k to from :
  refers k from -> fd_array to = fd_array_init -> files_count to = 0 -> 0 < files_count from ->
  exists k', dup_files to from k = Ok (k', inr (mk_files (pwd from) (zip_with dup_of_entry fd_array_init (fd_array from)) 0 (files_sem to))) /\ same_nodes k k'.
Proof.
  intros (Hlen & Hpwd & Hn) Hto Hc0 Hc. unfold dup_files. rewrite Hc0, Hto. rewrite (bind_ok _ _ _ k tt) by (apply assert_true; lia).
  assert (exists k1, (match pwd from with Some a => _ ← on_world (inode_ref_inc a); mret tt | None => mret tt end : M K unit) k = Ok (k1, inr tt) /\ same_nodes k k1) as (k1 & E1 & Hs1).
  { destruct (pwd from) as [a|]; [|by exists k]. destruct (Hpwd a eq_refl) as [n Ha]. exists (with_node a (set_ref (ref_count n + 1) n) k).
    split; [|apply with_node_same_nodes; by exists n]. rewrite (bind_ok _ _ _ (with_node a (set_ref (ref_count n + 1) n) k) (ref_count n + 1)); [done|]. apply on_world_ok. by apply inode_ref_inc_ok. }
  rewrite (bind_ok _ _ _ _ _ E1). destruct (dup_all_run (fd_array from) fd_array_init k1) as (k2 & E2 & Hs2).
  - rewrite Hlen. unfold fd_array_init. by rewrite length_fmap, length_seqZ.
  - intros f Hf Ho. destruct (Hn f Hf Ho) as (a & Ha & Hsome). exists a. split; [done|]. by apply Hs1.
  - unfold fd_array_init. apply Forall_fmap, Forall_forall. done.
  - rewrite (bind_ok _ _ _ _ _ E2). exists k2. split; [done|]. intros a. by rewrite (Hs2 a).
Qed.

Lemma opening_dup i f : opening (dup_of_entry (mk_file FD_NONE false false i 0 None 0) f) = opening f.
Proof. unfold dup_of_entry, opening. destruct (is_status FD_OPENED f) eqn:E; [done|]. done. Qed.

Lemma fh_at_other h a b k t : b <> a -> fh_at (FilesHeap k (<[a := t]> (fh_tables h))) b = fh_at h b.
Proof. intros Hne. unfold fh_at. cbn. by rewrite lookup_insert_ne. Qed.

Lemma fh_ok_put h cs k a t n : fh_ok h cs -> same_nodes (fh_kernel h) k -> refers k t -> files_count t = n -> fh_ok (FilesHeap k (<[a := t]> (fh_tables h))) (<[a := n]> cs).
Proof.
  intros [<- Hr] Hs Ht <-. split; [cbn; by rewrite fmap_insert|]. intros b u Hb. cbn in Hb. destruct (decide (b = a)) as [->|Hne].
  - rewrite lookup_insert_eq in Hb. by injection Hb as <-.
  - rewrite lookup_insert_ne in Hb by done. eapply same_nodes_refers; [exact Hs|]. by eapply Hr.
Qed.

#[export] Program Instance files_heap_files : Files files_heap := {|
  files_create_at := fh_create; dup_files_at := fh_dup; files_destroy_at := fh_destroy; files_count_inc := fh_count 1; files_count_dec := fh_count (-1);
  files_ok := fh_ok; files_new := fh_new; files_at := fh_at
|}.
Next Obligation.
  intros h cs Hok. unfold fh_create. destruct (files_create_run (fh_kernel h)) as (k & ok & -> & Hs). cbn [mbind res_bind].
  assert (Hsame : fh_ok (FilesHeap k (fh_tables h)) cs) by (destruct Hok as [<- Hr]; split; [done|]; intros a t Ha; eapply same_nodes_refers; [exact Hs|by eapply Hr]).
  destruct ok; [|by eexists _, None]. set (a := fresh _). eexists _, (Some a). split; [reflexivity|]. assert (Ha : fh_tables h !! a = None) by (apply not_elem_of_dom, is_fresh).
  split; [destruct Hok as [<- _]; by rewrite lookup_fmap, Ha|]. split; [|split; [|intros b Hb; by apply fh_at_other]].
  - apply fh_ok_put; [done|done| |done]. split; [done|]. split; [done|]. intros f Hf Ho. cbn in Hf. apply list_elem_of_lookup in Hf as [i Hi]. by apply fd_array_init_lookup in Hi as [_ ->].
  - unfold fh_new. cbn. by rewrite lookup_insert_eq.
Qed.
Next Obligation.
  intros h cs to from n Hok Hto Hnew Hfrom Hn. pose proof Hok as [Hcs Hr]. rewrite <- Hcs, lookup_fmap in Hto, Hfrom.
  destruct (fh_tables h !! to) as [t|] eqn:Et; [|done]. destruct (fh_tables h !! from) as [f|] eqn:Ef; [|done]. injection Hto as Hto. injection Hfrom as Hfrom.
  unfold fh_new in Hnew. rewrite Et in Hnew. injection Hnew as Hnew.
  unfold fh_dup. rewrite (deref_some _ _ _ Et). cbn [mbind res_bind]. rewrite (deref_some _ _ _ Ef). cbn [mbind res_bind].
  destruct (dup_files_run (fh_kernel h) t f) as (k & -> & Hs); [by eapply Hr|done|done|lia|]. cbn [mbind res_bind]. set (t' := mk_files _ _ 0 _).
  pose proof (Hr _ _ Ef) as (Hlen & Hpwd & Hnodes).
  eexists. split; [reflexivity|]. split; [|split; [|intros b Hb; by apply fh_at_other]].
  - assert (cs = <[to := 0]> cs) as -> by (symmetry; apply insert_id; by rewrite <- Hcs, lookup_fmap, Et; cbn; rewrite Hto). apply fh_ok_put; try done. split; [|split].
    + cbn. unfold fd_array_init. rewrite length_zip_with, length_fmap, length_seqZ, Hlen. lia.
    + intros a Ha. by apply Hs, Hpwd.
    + intros g Hg Ho. cbn in Hg. apply elem_of_lookup_zip_with in Hg as (i & x & y & -> & Hx & Hy). apply fd_array_init_lookup in Hx as [_ ->]. unfold dup_of_entry in *.
      destruct (is_status FD_OPENED y) eqn:Es; [|done]. apply bool_decide_eq_true in Es. destruct (Hnodes y ltac:(by eapply list_elem_of_lookup_2) Es) as (a & Ha & Hsome). exists a. split; [done|]. by apply Hs.
  - unfold fh_at. cbn. rewrite lookup_insert_eq, Ef. cbn. f_equal. apply list_eq. intros i. rewrite !list_lookup_fmap, lookup_zip_with.
    destruct (fd_array f !! i) as [y|] eqn:Ey.
    + assert (fd_array_init !! i = Some (mk_file FD_NONE false false (Z.of_nat i) 0 None 0)) as ->; [apply fd_array_init_lookup; split; [|done]; apply lookup_lt_Some in Ey; lia|]. cbn. f_equal. apply opening_dup.
    + by destruct (fd_array_init !! i).
Qed.
Next Obligation.
  intros h cs a n Hok Ha. pose proof Hok as [Hcs Hr]. rewrite <- Hcs, lookup_fmap in Ha. destruct (fh_tables h !! a) as [t|] eqn:Et; [|done]. injection Ha as Ha.
  unfold fh_count. rewrite (deref_some _ _ _ Et). cbn [mbind res_bind]. rewrite Ha. eexists. split; [reflexivity|]. split.
  - apply fh_ok_put; [done|done|exact (Hr _ _ Et)|done].
  - intros b. destruct (decide (b = a)) as [->|Hne]; [|by apply fh_at_other]. unfold fh_at. cbn. by rewrite lookup_insert_eq, Et.
Qed.
End Tables.
