(* ===== verification/ForkExample.v ===== *)
(** A concrete system, on which the theorem about [do_fork] is run: the idle process 1 and
    its child, the running process 2, with the memory of PageExample.v and a table without
    open files. *)
From S2P Require Import Prelude Lists Page Blocks FreeArea DefaultPmm SkewHeap ProcStruct SchedClass RoundRobin Sched Layout StateM Disk0 SfsIo SfsBmap SfsFile SfsTrunc SfsDir SfsNode SfsMount Vfs FileTable SfsExample Process ProcFamily Vmm PageTable PageRange PageCopy Memory PageExample Fork ForkMem ForkProc ForkSpec ForkFiles.

(** Struct [proc_struct] by struct. *)
Definition fork_proc (n : Z) (par c : option Z) (pmm pfs : option Z) : proc_struct :=
  Proc PROC_RUNNABLE n 0 None 0 par pmm 0 0 (replicate (Z.to_nat (PROC_NAME_LEN + 1)) 0) 0 0 c None None None 0 0 1 pfs.

Definition fork_procs : gmap Z proc_struct := list_to_map [(1, fork_proc 0 None (Some 2) None None); (2, fork_proc 1 (Some 1) None (Some 1) (Some 1))].

Definition fork_sched : sched_state :=
  SchedState fork_procs (list_to_map ((RunList, ListEntry RunList RunList) :: (self_link <$> [1; 2]))) ∅ (RunQueue 0 5 None).

Definition fork_table : ptable := PTable (Kernel fork_sched 2 1 0) [2] ∅ 2 2 MAX_PID 1.

Definition fork_children (p : Z) : list Z := if decide (p = 1) then [2] else [].

Lemma fork_cases p pr : fork_procs !! p = Some pr -> p = 1 \/ p = 2.
Proof. intros Hp. apply elem_of_list_to_map_2 in Hp. rewrite !elem_of_cons in Hp. destruct Hp as [[= -> _]|[[= -> _]|[]%elem_of_nil]]; auto. Qed.

Lemma fork_sched_inv : sched_inv (c := default_sched_class) (pk fork_table) [].
Proof.
  split; [|by eexists|by eexists|by split; apply not_elem_of_nil|by intros p ?%elem_of_nil|].
  - split; [split|by intros p ?%elem_of_nil|done].
    + split; [apply NoDup_singleton|split; reflexivity].
    + intros p [pr Hp] _. destruct (fork_cases p pr Hp) as [->| ->]; (split; [apply NoDup_singleton|split; reflexivity]).
  - intros p (pr & Hp & Hr). destruct (fork_cases p pr Hp) as [->| ->]; auto.
Qed.

Lemma fork_family : family (procs_of fork_table) fork_children.
Proof.
  intros p [pr Hp]. destruct (fork_cases p pr Hp) as [->| ->].
  - split; [apply NoDup_singleton|]. split; [reflexivity|]. intros [|[|i]] x Hx; [injection Hx as <-; done|done|done].
  - split; [apply NoDup_nil_2|]. split; [reflexivity|]. intros i x Hx. change (fork_children 2) with (@nil Z) in Hx. by rewrite lookup_nil in Hx.
Qed.

Lemma fork_table_ready : fork_ready (c := default_sched_class) fork_table fork_children.
Proof.
  split.
  - exists []. exact fork_sched_inv.
  - exact fork_family.
  - repeat constructor. by eexists.
  - reflexivity.
  - reflexivity.
  - reflexivity.
  - split; discriminate.
  - discriminate.
  - repeat constructor. intros [? ?]. discriminate.
  - intros cur Hcur. vm_compute in Hcur. injection Hcur as <-. discriminate.
Qed.

(** One table, with a file open under descriptor 0. *)
Definition fork_files : files_heap (D := disk0) := FilesHeap demo_kernel {[1 := Vfs.filesp demo_kernel]}.

Lemma fork_files_ok : fh_ok fork_files {[1 := 1]}.
Proof.
  split; [cbn [fork_files fh_tables]; by rewrite map_fmap_singleton|]. intros a t Ha. cbn [fork_files fh_tables fh_kernel] in *. apply lookup_singleton_Some in Ha as [<- <-]. split; [vm_compute; reflexivity|]. split; [done|].
  intros f Hf Ho. apply list_elem_of_lookup in Hf as [[|i] Hi]; cbn -[fd_array_init] in Hi.
  - assert (f = demo_file0) as -> by (vm_compute in Hi; by injection Hi as <-). exists 20. split; [done|]. by exists demo_inode.
  - rewrite list_lookup_insert_ne in Hi by done. apply fd_array_init_lookup in Hi as [_ ->]. done.
Qed.

Definition fork_state (m : pmem) : sys files_heap := Sys fork_table example_mms m fork_files ∅.

(** The root at frame 1 serves as the kernel's; the free frames are one block. *)
Lemma example_block : match insert16 example 0 2 0x10000000 PTE_USER with
  | Ok (m, _) => ((fun p => (PageProperty p, property p)) <$> pages (area m) !! 5, child m 1 0, child m 1 1) | _ => (None, None, None) end = (Some (true, 11), None, None).
Proof. vm_compute. reflexivity. Qed.

Lemma fork_memory m bl : insert16 example 0 2 0x10000000 PTE_USER = Ok (m, 0) -> mem_ok 16 m bl -> pt_ok 16 m 0 -> owns m bl 0 -> owns m bl 1 -> owned m bl 2 ->
  (forall la, vm_pte m 0 la = if decide (vpn la = 0x10000) then pte_create (page2ppn 2) PTE_USER else 0) ->
  fork_memory_ready 16 1 (fork_state m) bl 1 0 [Vma (Some 1) 0x10000000 0x10002000 VM_READ] /\ Exists (fun x => KSTACKPAGE <= x.2) bl.
Proof.
  intros E Hm Ht Ho Ho1 H2 Hp. pose proof example_block as Hb. rewrite E in Hb. injection Hb as Hblock Hc0 Hc1. split.
  - split; [exact Hm|]. split; [exact Ht|]. split; [exact Ho|]. split; [apply example_mms_inv|]. split; [constructor; [|constructor]; split; [discriminate|split; [discriminate|split; reflexivity]]|].
    split; [reflexivity|]. split; [lia|]. split; [apply Ho1; constructor|]. split.
    + intros i Hi. change NUDX with 2 in Hi. cbn [ram fork_state]. assert (i = 0 \/ i = 1) as [-> | ->] by lia; assumption.
    + intros la _ Hv. cbn [ram fork_state] in *. destruct (example_pages m Hp la Hv) as [_ ->]. exact H2.
  - destruct (pages (area m) !! 5) as [pg|] eqn:Hpg; [|discriminate Hblock]. cbn in Hblock. injection Hblock as H1 H3.
    assert ((5, 11) ∈ bl) as Hin by (apply (fl_marked _ _ _ _ (proj1 Hm) 5 pg Hpg); split; assumption). apply Exists_exists. exists (5, 11). split; [exact Hin|]. discriminate.
Qed.

Definition fork_outcomes : outcomes := Outcomes true true (fun _ => true) 0 0.

Lemma do_fork_creates_witness :
  exists m s' r p pr x d np, insert16 example 0 2 0x10000000 PTE_USER = Ok (m, 0) /\
    do_fork default_sched_class default_alloc_pages default_free_pages (16 + nbase) 1 77 fork_outcomes 0 0 (replicate 36 5) (fork_state m) = Ok (s', r) /\
    proc_list (tab s') = [p; 2] /\ find_proc (tab s') r = Ok (Some p) /\ mm pr = Some x /\ pgdir_of (spaces s') x = Ok d /\
    vm_pte (ram s') d 0x10000000 = pte_create (page2ppn np) PTE_USER /\ frames (ram s') !! np = frames m !! 2.
Proof.
  destruct example_mapped as (m & bl & E & Hm & Ht & _ & Ho & Ho1 & H2 & _ & His1 & _ & Htot & _ & Hp).
  destruct (fork_memory m bl E Hm Ht Ho Ho1 H2 Hp) as [Hready Hbig].
  destruct (do_fork_creates (c := default_sched_class) (alloc := default_alloc_pages) (free := default_free_pages) 16 1 77 ltac:(lia) fork_outcomes (fork_state m) (replicate 36 5) 0 fork_children bl 1 0
    [Vma (Some 1) 0x10000000 0x10002000 VM_READ] (fork_proc 1 (Some 1) None (Some 1) (Some 1)) {[1 := 1]} (FilesHeap (set_world (mk_world (demo_fs 4) {[ 20 := demo_inode ]}) demo_kernel) (<[2 := mk_files None fd_array_init 0 1]> {[1 := Vfs.filesp demo_kernel]})) 2 1 1)
    as (s' & r & p & pr & Hrun & Hj & [(x & d & bl' & Hx & _ & Hfk & Hd & _) _ _]).
  - exact fork_table_ready.
  - reflexivity.
  - reflexivity.
  - reflexivity.
  - exact Hready.
  - exact Hbig.
  - etransitivity; [|exact Htot]. discriminate.
  - exact fork_files_ok.
  - reflexivity.
  - reflexivity.
  - reflexivity.
  - reflexivity.
  - reflexivity.
  - reflexivity.
  - reflexivity.
  - destruct (fk_pages _ _ _ _ _ _ _ _ Hfk 0x10000000) as (np & Hnp & Hfr & _); [left; split; [discriminate|reflexivity]|cbn [ram fork_state]; rewrite Hp; apply example_entry|].
    cbn [ram fork_state] in Hnp, Hfr. rewrite Hp in Hnp, Hfr. exists m, s', r, p, pr, x, d, np. split; [exact E|]. split; [exact Hrun|]. split; [exact (jn_list _ _ _ _ _ _ Hj)|].
    split; [exact (jn_find _ _ _ _ _ _ Hj)|]. split; [exact Hx|]. split; [exact Hd|]. split; [exact Hnp|exact Hfr].
Defined.
