(* ===== verification/Phys.v ===== *)
(** The bytes of physical frames, and the memory a process sees through its page table.

    A frame is 512 words; a word holds eight bytes, the lowest first.  The processor turns a
    user address into a frame and an offset by the page table ([user_byte]); [view] is the
    memory that this gives for a list of addresses, and [write_back] puts what a call has
    changed in it back into the frames. *)
From S2P Require Import Prelude Lists Page Blocks FreeArea CString StateM Vmm PageTable PageCopy.

Definition get_byte (w k : Z) : Z := (w / 256 ^ k) mod 256.
Definition set_byte (w k b : Z) : Z := w + (b - get_byte w k) * 256 ^ k.

(** One byte of a frame. *)
Definition phys_byte (m : pmem) (f i : Z) : option Z := (fun w => get_byte w (i mod 8)) <$> entry m f (i / 8).

Definition put_byte (m : pmem) (f i b : Z) : res pmem := w ← word m f (i / 8); set_word m f (i / 8) (set_byte w (i mod 8) b).

Definition user_byte (m : pmem) (root x : Z) : option Z :=
  if valid (vm_pte m root x) then phys_byte m (target (vm_pte m root x)) (PGOFF x) else None.

Definition view (m : pmem) (root : Z) (xs : list Z) : memory :=
  foldr (fun x mem => match user_byte m root x with Some b => <[x := b]> mem | None => mem end) ∅ xs.

(** The bytes of [new] that [old] did not have; [m0] is the memory with the page table. *)
Fixpoint write_back (m0 : pmem) (root : Z) (old new : memory) (xs : list Z) (m : pmem) : res pmem :=
  match xs with
  | [] => Ok m
  | x :: xs' =>
      m ← match new !! x with
          | Some b => if decide (old !! x = Some b) then Ok m else put_byte m (target (vm_pte m0 root x)) (PGOFF x) b
          | None => Ok m
          end;
      write_back m0 root old new xs' m
  end.

(** * Bytes of a word *)
Lemma get_set_byte w k b j : 0 <= k -> 0 <= j -> 0 <= b < 256 -> get_byte (set_byte w k b) j = if decide (j = k) then b else get_byte w j.
Proof.
  intros Hk Hj Hb. unfold get_byte at 1, set_byte. set (c := b - get_byte w k). pose proof (Z.pow_pos_nonneg 256 k ltac:(lia) Hk) as Hpk. pose proof (Z.pow_pos_nonneg 256 j ltac:(lia) Hj) as Hpj.
  assert (Hq : (w + c * 256 ^ k) / 256 ^ k = w / 256 ^ k + c) by (apply Z.div_add; lia).
  assert (Hw : w / 256 ^ k = 256 * (w / 256 ^ k / 256) + get_byte w k) by (apply Z.div_mod; lia).
  destruct (decide (j = k)) as [->|Hne].
  - rewrite Hq. unfold c. rewrite Hw at 1. replace (256 * (w / 256 ^ k / 256) + get_byte w k + (b - get_byte w k)) with (b + w / 256 ^ k / 256 * 256) by lia.
    rewrite Z.mod_add by lia. by apply Z.mod_small.
  - destruct (Z.lt_ge_cases j k).
    + replace (256 ^ k) with (256 ^ (k - j - 1) * 256 * 256 ^ j).
      2: { rewrite <- (Z.pow_1_r 256) at 2. rewrite <- !Z.pow_add_r by lia. f_equal. lia. }
      replace (c * (256 ^ (k - j - 1) * 256 * 256 ^ j)) with (c * 256 ^ (k - j - 1) * 256 * 256 ^ j) by lia. rewrite Z.div_add by lia. by rewrite Z.mod_add by lia.
    + replace (256 ^ j) with (256 ^ k * 256 * 256 ^ (j - k - 1)).
      2: { rewrite <- (Z.pow_1_r 256) at 2. rewrite <- !Z.pow_add_r by lia. f_equal. lia. }
      pose proof (Z.pow_pos_nonneg 256 (j - k - 1) ltac:(lia) ltac:(lia)). unfold get_byte. replace (256 ^ j) with (256 ^ k * 256 * 256 ^ (j - k - 1)).
      2: { rewrite <- (Z.pow_1_r 256) at 2. rewrite <- !Z.pow_add_r by lia. f_equal. lia. }
      rewrite <- !Z.div_div by lia. rewrite Hq. do 2 f_equal. rewrite Hw at 1. unfold c.
      replace (256 * (w / 256 ^ k / 256) + get_byte w k + (b - get_byte w k)) with (b + w / 256 ^ k / 256 * 256) by lia. rewrite Z.div_add by lia. rewrite (Z.div_small b) by lia. done.
Qed.

Lemma get_byte_range w k : 0 <= get_byte w k < 256.
Proof. apply Z.mod_pos_bound. lia. Qed.

Lemma phys_byte_range m f i b : phys_byte m f i = Some b -> 0 <= b < 256.
Proof. unfold phys_byte. intros (w & _ & ->)%fmap_Some. apply get_byte_range. Qed.

Lemma phys_byte_frames m m' f i : frames m' !! f = frames m !! f -> phys_byte m' f i = phys_byte m f i.
Proof. intros E. unfold phys_byte. by rewrite (entry_frames _ _ _ _ E). Qed.

Lemma phys_byte_some m f i : frame_ok m f -> 0 <= i < 4096 -> is_Some (phys_byte m f i).
Proof.
  intros Hf Hi. destruct (word_run m f (i / 8) Hf) as (w & _ & He); [split; [apply Z.div_pos; lia|apply Z.div_lt_upper_bound; lia]|]. unfold phys_byte. rewrite He. by eexists.
Qed.

(** * Writing a byte *)
Definition put_done (m m' : pmem) (f i b : Z) : Prop :=
  area m' = area m /\ (forall g, frame_ok m g -> frame_ok m' g) /\ (forall g, g <> f -> frames m' !! g = frames m !! g) /\
  forall g j, 0 <= j < 4096 -> phys_byte m' g j = if decide (g = f /\ j = i) then Some b else phys_byte m g j.

Lemma put_byte_run m f i b : frame_ok m f -> 0 <= i < 4096 -> 0 <= b < 256 -> exists m', put_byte m f i b = Ok m' /\ put_done m m' f i b.
Proof.
  intros Hf Hi Hb. assert (Hi8 : 0 <= i / 8 < 512) by (split; [apply Z.div_pos; lia|apply Z.div_lt_upper_bound; lia]).
  destruct (word_run m f (i / 8) Hf Hi8) as (w & Hw & He). unfold put_byte. rewrite Hw. cbn [mbind res_bind].
  destruct (set_word_run m f (i / 8) (set_byte w (i mod 8) b) Hf Hi8) as (m' & -> & Ha & Hok & Hfr & Hent). exists m'. split; [done|]. split; [done|]. split; [done|]. split; [done|].
  intros g j Hj. unfold phys_byte. rewrite Hent. pose proof (Z.div_mod i 8 ltac:(lia)). pose proof (Z.div_mod j 8 ltac:(lia)). pose proof (Z.mod_pos_bound i 8 ltac:(lia)). pose proof (Z.mod_pos_bound j 8 ltac:(lia)).
  destruct (decide (g = f /\ j / 8 = i / 8)) as [[-> E]|Hn].
  - cbn [fmap option_fmap option_map]. rewrite get_set_byte by lia. destruct (decide (j mod 8 = i mod 8)) as [E'|E']; [rewrite decide_True by (split; [done|lia]); done|].
    rewrite decide_False by (intros [_ ->]; done). by rewrite E, He.
  - rewrite decide_False; [done|]. intros [-> ->]. by apply Hn.
Qed.

(** Without any condition on the byte: only the one frame can change. *)
Lemma put_byte_frames m f i b m' : put_byte m f i b = Ok m' -> area m' = area m /\ (forall g, g <> f -> frames m' !! g = frames m !! g) /\ dom (frames m') = dom (frames m).
Proof.
  unfold put_byte. destruct (word m f (i / 8)) as [w| | |]; cbn [mbind res_bind]; try done. unfold set_word. unfold deref. destruct (frames m !! f) as [l|] eqn:E; [|done].
  cbn [mbind res_bind]. destruct (decide _); [|done]. intros [= <-]. split; [done|]. split; [intros g Hg; cbn; by rewrite lookup_insert_ne|].
  cbn. rewrite dom_insert_L. apply elem_of_dom_2 in E. set_solver.
Qed.

(** * The view *)
Lemma view_lookup m root xs x : view m root xs !! x = if decide (x ∈ xs) then user_byte m root x else None.
Proof.
  induction xs as [|y xs IH]; [done|]. cbn [view foldr]. fold (view m root xs). destruct (decide (x = y)) as [->|Hne].
  - rewrite (decide_True (P := y ∈ y :: xs)) by left. destruct (user_byte m root y) as [b|] eqn:E; [apply lookup_insert_eq|]. rewrite IH. destruct (decide _); done.
  - assert (view m root (y :: xs) !! x = view m root xs !! x) as Hx by (cbn; destruct (user_byte m root y); [by rewrite lookup_insert_ne|done]). cbn [view foldr] in Hx. fold (view m root xs) in Hx. rewrite Hx, IH.
    destruct (decide (x ∈ xs)); [rewrite decide_True by (by right); done|rewrite decide_False; [done|]]. by intros [->|?]%elem_of_cons.
Qed.

(** Frames that nothing was written to are as they were. *)
Lemma write_back_frames m0 root old new xs : forall m m',
  write_back m0 root old new xs m = Ok m' ->
  area m' = area m /\ dom (frames m') = dom (frames m) /\
  forall f, (forall x, x ∈ xs -> f = target (vm_pte m0 root x) -> new !! x = old !! x \/ new !! x = None) -> frames m' !! f = frames m !! f.
Proof.
  induction xs as [|x xs IH]; intros m m'; cbn [write_back]; [by intros [= <-]|].
  destruct (new !! x) as [b|] eqn:E; [destruct (decide (old !! x = Some b)) as [Eo|Eo]|]; cbn [mbind res_bind].
  - intros Hr. destruct (IH _ _ Hr) as (Ha & Hd & Hf). split; [done|]. split; [done|]. intros f Hin. apply Hf. intros y Hy. apply Hin. by right.
  - destruct (put_byte m _ _ b) as [m1| | |] eqn:Ep; cbn [mbind res_bind]; try done. destruct (put_byte_frames _ _ _ _ _ Ep) as (Ha1 & Hf1 & Hd1). intros Hr.
    destruct (IH _ _ Hr) as (Ha & Hd & Hf). split; [congruence|]. split; [congruence|]. intros f Hin. rewrite Hf by (intros y Hy; apply Hin; by right). apply Hf1. intros ->.
    destruct (Hin x ltac:(by left) eq_refl); congruence.
  - intros Hr. destruct (IH _ _ Hr) as (Ha & Hd & Hf). split; [done|]. split; [done|]. intros f Hin. apply Hf. intros y Hy. apply Hin. by right.
Qed.

(** Every address has its own byte of memory. *)
Definition separate (m : pmem) (root : Z) (xs : list Z) : Prop :=
  forall x y, x ∈ xs -> y ∈ xs -> target (vm_pte m root x) = target (vm_pte m root y) -> PGOFF x = PGOFF y -> x = y.

Lemma PGOFF_range x : 0 <= PGOFF x < 4096.
Proof. unfold PGOFF. change 0xFFF with (Z.ones 12). rewrite Z.land_ones by lia. change 4096 with (2 ^ 12). apply Z.mod_pos_bound. lia. Qed.

(** Afterwards the addresses hold the bytes of [new]. *)
Lemma write_back_run m0 root old new xs :
  NoDup xs -> separate m0 root xs -> (forall x, x ∈ xs -> frame_ok m0 (target (vm_pte m0 root x))) ->
  (forall x, x ∈ xs -> exists b, new !! x = Some b /\ 0 <= b < 256) ->
  forall m, (forall f, frame_ok m0 f -> frame_ok m f) -> (forall x, x ∈ xs -> phys_byte m (target (vm_pte m0 root x)) (PGOFF x) = old !! x) ->
  exists m', write_back m0 root old new xs m = Ok m' /\ (forall f, frame_ok m f -> frame_ok m' f) /\
    (forall x, x ∈ xs -> phys_byte m' (target (vm_pte m0 root x)) (PGOFF x) = new !! x) /\
    forall f i, 0 <= i < 4096 -> (forall x, x ∈ xs -> ~ (f = target (vm_pte m0 root x) /\ i = PGOFF x)) -> phys_byte m' f i = phys_byte m f i.
Proof.
  induction xs as [|x xs IH]; intros Hnd Hsep Hok Hnew m Hm Hold; [exists m; split; [done|]; split; [done|]; split; [by intros x Hx%elem_of_nil|done]|]. apply NoDup_cons in Hnd as [Hx Hnd].
  destruct (Hnew x ltac:(by left)) as (b & Eb & Hb). cbn [write_back]. rewrite Eb. pose proof (PGOFF_range x) as Hoff.
  assert (exists m1, (if decide (old !! x = Some b) then Ok m else put_byte m (target (vm_pte m0 root x)) (PGOFF x) b) = Ok m1 /\ (forall f, frame_ok m f -> frame_ok m1 f) /\
    forall g j, 0 <= j < 4096 -> phys_byte m1 g j = if decide (g = target (vm_pte m0 root x) /\ j = PGOFF x) then Some b else phys_byte m g j) as (m1 & -> & Hm1 & Hb1).
  { destruct (decide (old !! x = Some b)) as [Eo|Eo].
    - exists m. split; [done|]. split; [done|]. intros g j Hj. destruct (decide _) as [[-> ->]|]; [|done]. rewrite Hold by left. done.
    - destruct (put_byte_run m (target (vm_pte m0 root x)) (PGOFF x) b) as (m1 & -> & (_ & Hf & _ & Hp)); [by apply Hm, Hok; left|done|done|]. by exists m1. }
  cbn [mbind res_bind]. destruct (IH Hnd) with (m := m1) as (m' & -> & Hf' & Hb' & Hrest).
  - intros y z Hy Hz. apply Hsep; by right.
  - intros y Hy. apply Hok. by right.
  - intros y Hy. apply Hnew. by right.
  - intros f Hf. by apply Hm1, Hm.
  - intros y Hy. rewrite Hb1 by apply PGOFF_range. rewrite decide_False; [by apply Hold; right|]. intros [E1 E2]. assert (y = x) as -> by (apply Hsep; [by right|by left|done|done]). done.
  - exists m'. split; [done|]. split; [intros f Hf; by apply Hf', Hm1|]. split.
    + intros y [->|Hy]%elem_of_cons; [|by apply Hb']. rewrite Hrest by (first [done|intros y Hy [E1 E2]; assert (x = y) as -> by (apply Hsep; [by left|by right|done|done]); done]).
      rewrite Hb1, decide_True by done. done.
    + intros f i Hi Hno. rewrite Hrest by (first [done|intros y Hy; apply Hno; by right]). rewrite Hb1, decide_False by (first [done|apply Hno; by left]). done.
Qed.
