(* ===== verification/Wait.v ===== *)
(** Waiting for a child ([do_wait] of lab8/kern/process/proc.c): the check of [code_store],
    the search among the children, sleeping, and the end of a child that has exited, with its
    exit code stored in the memory of the parent and its kernel stack given back.

    A call of [do_wait] ends where the process goes to sleep, since another process runs then;
    [do_wait_resume] is what it does when it gets the processor back. *)
From S2P Require Import Prelude Lists Page Blocks FreeArea ProcStruct SchedClass Sched StateM Process ProcFamily Vmm PageTable PageRange PageCopy Memory Fork Phys.

(** * The code *)

(** The bytes of an [int]. *)
Definition int_bytes (w : Z) : list Z := get_byte (u32 w) <$> [0; 1; 2; 3].

(** The frame the processor finds for a store to [x]: through the page table of the process,
    or, in the memory of the kernel, at a fixed distance. *)
Definition store_frame (m : pmem) (root x : Z) : res Z :=
  let pte := vm_pte m root x in
  if valid pte && negb (Z.land pte PTE_W =? 0) then Ok (target pte) else Fault.

Definition linear_frame (x : Z) : res Z := Ok ((x - PHYSICAL_MEMORY_OFFSET) / PGSIZE - nbase).

(** The processor has found all the frames before it writes the first byte. *)
Fixpoint store_code (frame : Z -> res Z) (x : Z) (bs : list Z) (m : pmem) : res pmem :=
  match bs with
  | [] => Ok m
  | b :: bs' => f ← frame x; m ← put_byte m f (PGOFF x) b; store_code frame (x + 1) bs' m
  end.

(** How a call goes on: it returns, the process sleeps until it is woken, or it has ended. *)
Inductive waiting : Type := Returned (r : Z) | Asleep | Exited.

Section Code.
Context {F : Type} `{!Files F} (c : sched_class) (alloc : alloc_pages_t) (free : free_pages_t) (npage : Z).
Implicit Types s : sys F.

(** [*x = w]. *)
Definition store_int (mm : option Z) (x w : Z) s : res (sys F) :=
  frame ← match mm with Some mm => root ← pgdir_of (spaces s) mm; Ok (store_frame (ram s) root) | None => Ok linear_frame end;
  m ← store_code frame x (int_bytes w) (ram s);
  Ok (with_ram s m).

(** From the label [found]; a null pointer is 0. *)
Definition wait_found (mm : option Z) (code_store proc : Z) s : res (sys F) :=
  _ ← c_assert (negb ((proc =? idleproc (pk (tab s))) || (proc =? initproc (tab s))));
  pr ← get (tab s) proc;
  s ← (if code_store =? 0 then Ok s else store_int mm code_store (exit_code pr) s);
  t ← remove_links (unhash_proc (tab s) proc) proc;
  s ← put_kstack free (with_tab s t) proc;
  Ok (kfree_proc s proc).

(** From the label [repeat] to the call of [schedule]. *)
Definition wait_repeat (mm : option Z) (x code_store : Z) s : res (sys F * waiting) :=
  '(z, haskid) ← wait_find (tab s) x;
  match z with
  | Some proc => s ← wait_found mm code_store proc s; Ok (s, Returned 0)
  | None =>
      if (haskid : bool) then
        let cur := current (pk (tab s)) in
        t ← put (tab s) cur (set_state PROC_SLEEPING);
        t ← put t cur (set_wait_state WT_CHILD);
        k ← schedule c (pk t);
        Ok (with_tab s (with_pk t k), Asleep)
      else Ok (s, Returned (- E_BAD_PROC))
  end.

Definition do_wait (x code_store : Z) s : res (sys F * waiting) :=
  cur ← get (tab s) (current (pk (tab s)));
  '(v, ok) ← (if code_store =? 0 then Ok (spaces s, true) else user_mem_check (spaces s) (mm cur) code_store 4 true);
  let s := with_spaces s v in
  if (ok : bool) then wait_repeat (mm cur) x code_store s else Ok (s, Returned (- E_INVAL)).

(** Behind [schedule]; [do_exit] does not return. *)
Definition do_wait_resume (mm : option Z) (x code_store : Z) s : res (sys F * waiting) :=
  cur ← get (tab s) (current (pk (tab s)));
  if Z.land (proc_flags cur) PF_EXITING =? 0 then wait_repeat mm x code_store s
  else s ← do_exit c alloc free npage (- E_KILLED) s; Ok (s, Exited).
End Code.

(** * The process tables *)

(** Every process of the list is in the chain of its number, the numbers differ, and the
    children of a process are those of the list whose parent it is. *)
Record table_ok (t : ptable) (ch : Z -> list Z) : Prop := TableOk {
  tk_listed z : z ∈ proc_list t -> exists pr, procs_of t !! z = Some pr /\ 0 < pid pr < MAX_PID /\ z ∈ pid_chain t (pid pr);
  tk_chain h z : z ∈ default [] (hash_list t !! h) -> z ∈ proc_list t;
  tk_unique y z : y ∈ proc_list t -> z ∈ proc_list t -> pid <$> procs_of t !! y = pid <$> procs_of t !! z -> y = z;
  tk_children p z : live t p -> z ∈ ch p <-> z ∈ proc_list t /\ proc_parent <$> procs_of t !! z = Some (Some p)
}.

(** The children a call waits for: all of them, or the one with the number. *)
Definition waited (t : ptable) (ch : Z -> list Z) (x : Z) : list Z :=
  filter (fun z => x = 0 \/ pid <$> procs_of t !! z = Some x) (ch (current (pk t))).

Lemma find_in_run t x chain :
  Forall (live t) chain -> exists r, find_in t x chain = Ok r /\
    match r with Some z => z ∈ chain /\ pid <$> procs_of t !! z = Some x | None => forall z, z ∈ chain -> pid <$> procs_of t !! z <> Some x end.
Proof.
  induction 1 as [|z chain [pr Hz] Hl (r & IH & Hr)]; cbn [find_in]; [exists None; split; [done|by intros z Hz%elem_of_nil]|].
  rewrite (get_ok _ _ _ Hz). cbn [mbind res_bind]. destruct (pid pr =? x) eqn:E.
  - exists (Some z). split; [done|]. split; [by left|]. rewrite Hz. cbn. f_equal. lia.
  - exists r. split; [done|]. destruct r as [y|]; [destruct Hr; split; [by right|done]|]. intros y [->|Hy]%elem_of_cons; [|by apply Hr]. rewrite Hz. intros [= ?]. lia.
Qed.

(** [find_proc] finds exactly the process with the number. *)
Lemma find_proc_run t ch x :
  table_ok t ch -> x <> 0 -> exists r, find_proc t x = Ok r /\
    match r with
    | Some z => z ∈ proc_list t /\ pid <$> procs_of t !! z = Some x
    | None => forall z, z ∈ proc_list t -> pid <$> procs_of t !! z <> Some x
    end.
Proof.
  intros Ht Hx. unfold find_proc. destruct ((0 <? x) && (x <? MAX_PID)) eqn:E.
  - destruct (find_in_run t x (pid_chain t x)) as (r & -> & Hr).
    { apply Forall_forall. intros z Hz. apply (tk_chain _ _ Ht) in Hz. destruct (tk_listed _ _ Ht z Hz) as (pr & Hp & _). by exists pr. }
    exists r. split; [done|]. destruct r as [z|]; [destruct Hr as [Hz Hp]; split; [by eapply (tk_chain _ _ Ht)|done]|].
    intros z Hz Hp. destruct (tk_listed _ _ Ht z Hz) as (pr & Hpr & _ & Hc). rewrite Hpr in Hp. injection Hp as <-. apply (Hr z Hc). by rewrite Hpr.
  - exists None. split; [done|]. intros z Hz Hp. destruct (tk_listed _ _ Ht z Hz) as (pr & Hpr & Hr & _). rewrite Hpr in Hp. injection Hp as <-. lia.
Qed.

Section Table.
Context `{SchedClass c}.

Lemma filter_all {A} (P : A -> Prop) `{forall x, Decision (P x)} (l : list A) : (forall x, x ∈ l -> P x) -> filter P l = l.
Proof.
  induction l as [|x l IH]; intros Hp; [done|]. rewrite filter_cons, decide_True by (apply Hp; by left). f_equal. apply IH. intros y Hy. apply Hp. by right.
Qed.

(** The search, for a number or for any child. *)
Lemma wait_find_ok t ch x :
  wait_ready (c := c) t ch -> table_ok t ch ->
  exists haskid, wait_find t x = Ok (snd <$> list_find (zombie t) (waited t ch x), haskid) /\
    (list_find (zombie t) (waited t ch x) = None -> haskid = bool_decide (waited t ch x <> [])).
Proof.
  intros Hready Ht. destruct (decide (x = 0)) as [->|Hx].
  - rewrite (wait_find_run t ch Hready). assert (waited t ch 0 = ch (current (pk t))) as -> by (apply filter_all; by left).
    destruct (list_find _ _) as [[i z]|]; eexists; (split; [reflexivity|done]).
  - pose proof Hready as ([q Hs] & _). pose proof (si_current _ _ Hs) as Hlc. change (live t (current (pk t))) in Hlc.
    unfold wait_find. rewrite (proj2 (Z.eqb_neq _ _) Hx). cbn [negb]. destruct (find_proc_run t ch x Ht Hx) as (r & -> & Hr). cbn [mbind res_bind]. destruct r as [z|].
    + destruct Hr as [Hz Hp]. destruct (tk_listed _ _ Ht z Hz) as (pr & Hpr & _). rewrite (get_ok _ _ _ Hpr). cbn [mbind res_bind].
      pose proof (tk_children _ _ Ht (current (pk t)) z Hlc) as Hc. rewrite Hpr in Hc. destruct (decide (proc_parent pr = Some (current (pk t)))) as [E|E].
      * rewrite bool_decide_true by done. assert (waited t ch x = [z]) as ->.
        { apply Permutation_singleton_r, NoDup_Permutation; [apply NoDup_filter; by destruct Hready as (_ & Hf & _); destruct (Hf _ Hlc)|apply NoDup_singleton|].
          intros y. unfold waited. rewrite list_elem_of_filter, list_elem_of_singleton. split.
          - intros [[?|Hy] Hin]; [done|]. apply (tk_children _ _ Ht _ y Hlc) in Hin as [Hin _]. by apply (tk_unique _ _ Ht); [| |congruence].
          - intros ->. split; [by right|]. apply Hc. split; [done|]. cbn. by rewrite E. }
        assert (zombie t z <-> state pr = PROC_ZOMBIE) as Hzz by (unfold zombie; rewrite Hpr; cbn; split; congruence).
        exists true. cbn [list_find]. destruct (decide (zombie t z)) as [Ez|Ez]; [rewrite decide_True by tauto|rewrite decide_False by tauto]; done.
      * rewrite bool_decide_false by done. assert (waited t ch x = []) as ->; [|by exists false].
        apply elem_of_nil_inv. intros y [[?|Hy] Hin]%list_elem_of_filter; [done|]. apply (tk_children _ _ Ht _ y Hlc) in Hin as [Hin Hpy].
        assert (y = z) as -> by (apply (tk_unique _ _ Ht); [done|done|congruence]). rewrite Hpr in Hpy. injection Hpy as ?. done.
    + assert (waited t ch x = []) as ->; [|by exists false].
      apply elem_of_nil_inv. intros y [[?|Hy] Hin]%list_elem_of_filter; [done|]. apply (tk_children _ _ Ht _ y Hlc) in Hin as [Hin _]. by apply (Hr y Hin).
Qed.

(** The tables stay in order when a child is taken out. *)
Lemma reaped_table t t' ch i z :
  table_ok t ch -> wait_ready (c := c) t ch -> ch (current (pk t)) !! i = Some z -> reaped (c := c) t t' ch i z ->
  table_ok t' (fun p => if decide (p = current (pk t)) then delete i (ch p) else ch p).
Proof.
  intros Ht ([q Hs] & Hfam & _) Hi Hr. pose proof (si_current _ _ Hs) as Hlc. change (live t (current (pk t))) in Hlc.
  assert (Hpid : forall y, y <> z -> pid <$> procs_of t' !! y = pid <$> procs_of t !! y) by (intros y Hy; apply kin_field; [done|by apply (rp_others _ _ _ _ _ Hr)]).
  assert (Hchain : forall h, default [] (hash_list t' !! h) = filter (fun x => x <> z) (default [] (hash_list t !! h))).
  { intros h. rewrite (rp_hash _ _ _ _ _ Hr), lookup_fmap. by destruct (hash_list t !! h). }
  assert (Hz : z ∈ ch (current (pk t))) by (by eapply list_elem_of_lookup_2). apply (tk_children _ _ Ht _ z Hlc) in Hz as [_ Hzp]. split.
  - intros y. rewrite (rp_list _ _ _ _ _ Hr), list_elem_of_filter. intros [Hy Hin]. destruct (tk_listed _ _ Ht y Hin) as (pr & Hpr & Hrange & Hc).
    pose proof (Hpid y Hy) as E. rewrite Hpr in E. destruct (procs_of t' !! y) as [pr'|] eqn:Hpr'; [|done]. injection E as E. exists pr'. split; [done|]. rewrite E. split; [done|].
    unfold pid_chain. rewrite Hchain, list_elem_of_filter. by split.
  - intros h y. rewrite Hchain, (rp_list _ _ _ _ _ Hr), !list_elem_of_filter. intros [? Hy]. split; [done|]. by eapply (tk_chain _ _ Ht).
  - intros y w. rewrite (rp_list _ _ _ _ _ Hr), !list_elem_of_filter. intros [? ?] [? ?]. rewrite !Hpid by done. by apply (tk_unique _ _ Ht).
  - intros p y [pr Hp]. assert (p <> z) as Hpz by (intros ->; by rewrite (rp_gone _ _ _ _ _ Hr) in Hp).
    assert (live t p) as Hlp. { pose proof (Hpid p Hpz) as E. rewrite Hp in E. unfold live. by destruct (procs_of t !! p). }
    rewrite (rp_list _ _ _ _ _ Hr), list_elem_of_filter. assert (y ∈ (if decide (p = current (pk t)) then delete i (ch p) else ch p) <-> y <> z /\ y ∈ ch p) as ->.
    { destruct (decide (p = current (pk t))) as [->|Hne].
      - destruct (Hfam _ Hlc) as [Hnd _]. rewrite <- (take_drop_middle _ _ _ Hi) in Hnd |- * at 2. rewrite delete_take_drop.
        apply NoDup_app in Hnd as (_ & Hd & [Hn _]%NoDup_cons). rewrite !elem_of_app, elem_of_cons. split; [|tauto]. intros Hin. split; [|tauto]. intros ->.
        destruct Hin as [Hin|Hin]; [|done]. apply (Hd z Hin). by left.
      - split; [|tauto]. intros Hin. split; [|done]. intros ->. apply (tk_children _ _ Ht _ _ Hlp) in Hin as [_ E]. congruence. }
    rewrite (tk_children _ _ Ht p y Hlp). split.
    + intros (Hy & Hin & E). by rewrite (rp_parents _ _ _ _ _ Hr).
    + intros ([Hy Hin] & E). by rewrite (rp_parents _ _ _ _ _ Hr) in E.
Qed.
End Table.

(** * Storing the exit code *)
Lemma PGOFF_next x i : 0 < i < 4096 -> PGOFF (x + i) <> PGOFF x.
Proof.
  intros Hi. unfold PGOFF. change 0xFFF with (Z.ones 12). rewrite !Z.land_ones by lia. change (2 ^ 12) with 4096. intros E.
  Z.to_euclidean_division_equations; lia.
Qed.

(** The bytes [bs] are at [x], and every other byte is as it was. *)
Record stored (frame : Z -> res Z) (x : Z) (bs : list Z) (m m' : pmem) : Prop := Stored {
  sd_area : area m' = area m;
  sd_frames f : frame_ok m f -> frame_ok m' f;
  sd_bytes i b f : bs !! i = Some b -> frame (x + Z.of_nat i) = Ok f -> phys_byte m' f (PGOFF (x + Z.of_nat i)) = Some b;
  sd_others f j : 0 <= j < 4096 -> (forall i, 0 <= i < Z.of_nat (length bs) -> ~ (frame (x + i) = Ok f /\ j = PGOFF (x + i))) ->
    phys_byte m' f j = phys_byte m f j;
  sd_apart f : (forall i, 0 <= i < Z.of_nat (length bs) -> frame (x + i) <> Ok f) -> frames m' !! f = frames m !! f
}.

Lemma store_code_run frame bs x m :
  (length bs <= 4096)%nat -> Forall (fun b => 0 <= b < 256) bs ->
  (forall i, 0 <= i < Z.of_nat (length bs) -> exists f, frame (x + i) = Ok f /\ frame_ok m f) ->
  exists m', store_code frame x bs m = Ok m' /\ stored frame x bs m m'.
Proof.
  revert x m. induction bs as [|b bs IH]; intros x m Hlen Hb Hf; cbn [store_code].
  - exists m. by repeat split.
  - cbn [length] in *. apply Forall_cons in Hb as [Hb Hbs]. destruct (Hf 0 ltac:(lia)) as (f & E & Hok). rewrite Z.add_0_r in E. rewrite E. cbn [mbind res_bind].
    destruct (put_byte_run m f (PGOFF x) b Hok (PGOFF_range x) Hb) as (m1 & -> & Ha & Hfo & Hfr & Hby). cbn [mbind res_bind].
    destruct (IH (x + 1) m1) as (m' & -> & [Ha' Hf' Hb' Ho' Hp']); [lia|done| |].
    { intros i Hi. destruct (Hf (i + 1) ltac:(lia)) as (g & Eg & Hg). exists g. split; [by replace (x + 1 + i) with (x + (i + 1)) by lia|by apply Hfo]. }
    exists m'. split; [done|]. split; [congruence|by auto| | |].
    + intros [|i] b' g Hi Eg.
      * injection Hi as <-. change (Z.of_nat 0) with 0 in *. rewrite Z.add_0_r in *. assert (g = f) as -> by congruence.
        rewrite Ho', Hby, decide_True; [done|done|apply PGOFF_range|apply PGOFF_range|]. intros i Hi [_ Ei]. apply (PGOFF_next x (1 + i)); [lia|]. rewrite Ei. f_equal. lia.
      * cbn in Hi. replace (x + Z.of_nat (S i)) with (x + 1 + Z.of_nat i) in * by lia. by apply Hb'.
    + intros g j Hj Hno. cbn [length] in Hno. rewrite Ho', Hby, decide_False; [done| |done|done|].
      * intros [-> ->]. apply (Hno 0 ltac:(lia)). by rewrite Z.add_0_r.
      * intros i Hi. replace (x + 1 + i) with (x + (1 + i)) by lia. apply Hno. lia.
    + intros g Hno. cbn [length] in Hno. rewrite Hp', Hfr; [done| |].
      * intros ->. apply (Hno 0 ltac:(lia)). by rewrite Z.add_0_r.
      * intros i Hi. replace (x + 1 + i) with (x + (1 + i)) by lia. apply Hno. lia.
Qed.

Lemma int_bytes_ok w : length (int_bytes w) = 4%nat /\ Forall (fun b => 0 <= b < 256) (int_bytes w).
Proof. split; [done|]. repeat constructor; apply get_byte_range. Qed.

(** * The call *)
Section Spec.
Context `{SchedClass c} {F : Type} `{!Files F} `{PageAllocator alloc free} (npg : Z).
Implicit Types s : sys F.

(** The tables are in order, and every child that has ended has its kernel stack, in use
    below some free frame, if there is any (so that [free_pages] takes it). *)
Record wait_env s (bl : list block) (ch : Z -> list Z) : Prop := WaitEnv {
  we_ready : wait_ready (c := c) (tab s) ch;
  we_table : table_ok (tab s) ch;
  we_mem : mem_ok npg (ram s) bl;
  we_stacks z : z ∈ ch (current (pk (tab s))) -> zombie (tab s) z ->
    exists zr k, procs_of (tab s) !! z = Some zr /\ kstack zr = Some k /\ in_use (area (ram s)) bl k KSTACKPAGE /\ not_last k bl
}.

(** The process may write the four bytes at [x]. *)
Definition int_allowed (al : list vma_struct) (x : Z) : Prop :=
  USERBASE <= x /\ x + 4 <= USERTOP /\ forall y, x <= y < x + 4 -> may al true y.

(** The memory of the process: what its areas allow to be written is mapped. *)
Record writable_space s (p root : Z) (al : list vma_struct) : Prop := WritableSpace {
  ws_areas : mm_inv (spaces s) p al;
  ws_root : pgdir_of (spaces s) p = Ok root;
  ws_mapped y : may al true y -> exists f, store_frame (ram s) root y = Ok f /\ 0 <= f < npg
}.

(** Where the exit code [w] goes. *)
Definition code_stored s (root code_store w : Z) (m' : pmem) : Prop :=
  if decide (code_store = 0) then forall f, frames m' !! f = frames (ram s) !! f
  else (forall i b f, int_bytes w !! i = Some b -> store_frame (ram s) root (code_store + Z.of_nat i) = Ok f -> phys_byte m' f (PGOFF (code_store + Z.of_nat i)) = Some b) /\
    (forall f j, 0 <= j < 4096 -> (forall i, 0 <= i < 4 -> ~ (store_frame (ram s) root (code_store + i) = Ok f /\ j = PGOFF (code_store + i))) ->
      phys_byte m' f j = phys_byte (ram s) f j) /\
    forall f, (forall i, 0 <= i < 4 -> store_frame (ram s) root (code_store + i) <> Ok f) -> frames m' !! f = frames (ram s) !! f.

(** The child [z] is gone: it is taken out of the tables, the parent has its exit code, and
    the two frames of its stack are free again. *)
Record child_reaped s (bl : list block) (ch : Z -> list Z) (root code_store z : Z) s' : Prop := ChildReaped {
  cr_child : exists zr k i bl', procs_of (tab s) !! z = Some zr /\ kstack zr = Some k /\ ch (current (pk (tab s))) !! i = Some z /\
    reaped (c := c) (tab s) (tab s') ch i z /\ table_ok (tab s') (fun p => if decide (p = current (pk (tab s))) then delete i (ch p) else ch p) /\
    code_stored s root code_store (exit_code zr) (ram s') /\
    mem_ok npg (ram s') bl' /\ total bl' = total bl + KSTACKPAGE /\ (forall f, covers bl' f <-> covers bl f \/ k <= f < k + KSTACKPAGE) /\
    (forall b n, in_use (area (ram s)) bl b n -> (forall f, b <= f < b + n -> ~ (k <= f < k + KSTACKPAGE)) -> in_use (area (ram s')) bl' b n);
  cr_rest : spaces s' = spaces s /\ opened s' = opened s /\ ctxs s' = ctxs s
}.

(** The process sleeps, and another one runs. *)
Record fell_asleep s (ch : Z -> list Z) s' : Prop := FellAsleep {
  fa_sched : exists q, sched_inv (c := c) (pk (tab s')) q;
  fa_family : family (procs_of (tab s')) ch;
  fa_table : table_ok (tab s') ch;
  fa_state : state <$> procs_of (tab s') !! current (pk (tab s)) = Some PROC_SLEEPING;
  fa_wait : wait_state <$> procs_of (tab s') !! current (pk (tab s)) = Some WT_CHILD;
  fa_others y : y <> current (pk (tab s)) -> Sched.view (sched (pk (tab s'))) y = Sched.view (sched (pk (tab s))) y;
  fa_next : runnable (pk (tab s')) (current (pk (tab s'))) \/ current (pk (tab s')) = idleproc (pk (tab s'));
  fa_rest : ram s' = ram s /\ spaces s' = spaces s /\ opened s' = opened s /\ ctxs s' = ctxs s
}.

Definition wait_outcome s (bl : list block) (ch : Z -> list Z) (root x code_store : Z) s' (r : waiting) : Prop :=
  match list_find (zombie (tab s)) (waited (tab s) ch x) with
  | Some (_, z) => r = Returned 0 /\ child_reaped s bl ch root code_store z s'
  | None => if decide (waited (tab s) ch x = []) then r = Returned (- E_BAD_PROC) /\ s' = s else r = Asleep /\ fell_asleep s ch s'
  end.

Lemma store_int_run s p root al x w :
  (forall f, 0 <= f < npg -> frame_ok (ram s) f) -> writable_space s p root al -> int_allowed al x ->
  exists m', store_int (Some p) x w s = Ok (with_ram s m') /\ stored (store_frame (ram s) root) x (int_bytes w) (ram s) m'.
Proof.
  intros Hm [_ Hroot Hmap] (_ & _ & Hal). unfold store_int. rewrite Hroot. cbn [mbind res_bind]. destruct (int_bytes_ok w) as [Hlen Hb].
  destruct (store_code_run (store_frame (ram s) root) (int_bytes w) x (ram s)) as (m' & -> & Hs); [rewrite Hlen; lia|done| |by exists m'].
  rewrite Hlen. intros i Hi. destruct (Hmap (x + i)) as (f & E & Hf); [apply Hal; lia|]. exists f. auto.
Qed.

Lemma wait_found_run s bl ch cur root al code_store i z :
  wait_env s bl ch -> zombie (tab s) z -> ch (current (pk (tab s))) !! i = Some z ->
  (code_store = 0 \/ exists p, mm cur = Some p /\ writable_space s p root al /\ int_allowed al code_store) ->
  exists s', wait_found free (mm cur) code_store z s = Ok s' /\ child_reaped s bl ch root code_store z s'.
Proof.
  intros [Hready Ht [Hfl Hfo] Hst] Hz Hi Hcs. assert (Hin : z ∈ ch (current (pk (tab s)))) by (by eapply list_elem_of_lookup_2).
  destruct (Hst z Hin Hz) as (zr & k & Hzr & Hk & Hu & Hnl). pose proof Hready as (_ & _ & _ & Hspecial). destruct (Hspecial z Hin) as [Hzidle Hzinit].
  unfold wait_found. rewrite (proj2 (Z.eqb_neq _ _) Hzidle), (proj2 (Z.eqb_neq _ _) Hzinit). cbn [orb negb c_assert mbind res_bind].
  rewrite (get_ok _ _ _ Hzr). cbn [mbind res_bind].
  assert (exists m', (if code_store =? 0 then Ok s else store_int (mm cur) code_store (exit_code zr) s) = Ok (with_ram s m') /\ area m' = area (ram s) /\
    (forall f, frame_ok (ram s) f -> frame_ok m' f) /\ forall a, code_stored s root code_store (exit_code zr) (with_area m' a)) as (m' & -> & Ham & Hfm & Hcode).
  { destruct Hcs as [->|(p & Hp & Hws & Hal)].
    - exists (ram s). split; [by destruct s|]. done.
    - assert (code_store <> 0) as Hne by (intros ->; destruct Hal as (Hb & _); done). rewrite (proj2 (Z.eqb_neq _ _) Hne), Hp.
      destruct (store_int_run s p root al code_store (exit_code zr) Hfo Hws Hal) as (m' & -> & [Ha Hf Hb Ho Hap]). exists m'. split; [done|]. split; [done|]. split; [done|].
      intros a. unfold code_stored. rewrite decide_False by done. done. }
  cbn [mbind res_bind]. change (tab (with_ram s m')) with (tab s). destruct (reap_run (tab s) ch i z Hready Hz Hi) as (t1 & -> & Hkin & Hreaped). cbn [mbind res_bind].
  assert (exists zr1, procs_of t1 !! z = Some zr1 /\ kstack zr1 = Some k) as (zr1 & Hzr1 & Hk1).
  { pose proof (kin_field kstack _ _ z (fun _ => eq_refl) Hkin) as E. rewrite Hzr in E. destruct (procs_of t1 !! z) as [zr1|]; [|done]. exists zr1. split; [done|]. injection E as ->. done. }
  unfold put_kstack. cbn [tab with_tab with_ram ram]. rewrite (get_ok _ _ _ Hzr1). cbn [mbind res_bind]. rewrite Hk1.
  destruct (pa_free npg (area (ram s)) bl k KSTACKPAGE Hfl ltac:(done) Hu Hnl) as (a & bl' & E & Hfl' & Htot & Hcov & Hkeep).
  rewrite Ham, E. cbn [mbind res_bind]. eexists. split; [reflexivity|]. split; [|done].
  exists zr, k, i, bl'. split; [done|]. split; [done|]. split; [done|]. split; [exact Hreaped|]. split; [by eapply reaped_table|].
  split; [apply Hcode|]. split; [split; [done|]; intros f Hf; by apply Hfm, Hfo|]. done.
Qed.

Lemma put_core_view t p f t' y : put t p f = Ok t' -> y <> p -> Sched.view (sched (pk t')) y = Sched.view (sched (pk t)) y.
Proof. intros (pr & Hp & ->)%put_inv Hy. unfold Sched.view. cbn. by rewrite lookup_insert_ne. Qed.

Lemma table_same t t' ch :
  table_ok t ch -> proc_list t' = proc_list t -> hash_list t' = hash_list t -> (forall x, live t' x <-> live t x) ->
  (forall x, pid <$> procs_of t' !! x = pid <$> procs_of t !! x) -> (forall x, proc_parent <$> procs_of t' !! x = proc_parent <$> procs_of t !! x) -> table_ok t' ch.
Proof.
  intros [H1 H2 H3 H4] El Eh Elive Ep Epar. split.
  - rewrite El. intros z Hz. destruct (H1 z Hz) as (pr & Hpr & Hr & Hc). specialize (Ep z). rewrite Hpr in Ep. destruct (procs_of t' !! z) as [pr'|] eqn:E; [|done].
    injection Ep as Ep. exists pr'. split; [done|]. unfold pid_chain. rewrite Ep, Eh. done.
  - intros h z. rewrite El, Eh. apply H2.
  - intros y z. rewrite El, !Ep. apply H3.
  - intros p z Hp%Elive. rewrite El, Epar. by apply H4.
Qed.

(** A round of the loop. *)
Lemma wait_repeat_run s bl ch cur root al x code_store :
  wait_env s bl ch ->
  (code_store = 0 \/ exists p, mm cur = Some p /\ writable_space s p root al /\ int_allowed al code_store) ->
  exists s' r, wait_repeat c free (mm cur) x code_store s = Ok (s', r) /\ wait_outcome s bl ch root x code_store s' r.
Proof.
  intros Henv Hcs. pose proof Henv as [Hready Ht _ _]. unfold wait_repeat, wait_outcome. destruct (wait_find_ok (tab s) ch x Hready Ht) as (haskid & -> & Hkid). cbn [mbind res_bind].
  destruct (list_find (zombie (tab s)) (waited (tab s) ch x)) as [[j z]|] eqn:Hfind; cbn [snd fmap option_fmap option_map].
  - apply list_find_Some in Hfind as (Hj & Hz & _). apply list_elem_of_lookup_2, list_elem_of_filter in Hj as [_ [i Hi]%list_elem_of_lookup].
    destruct (wait_found_run s bl ch cur root al code_store i z Henv Hz Hi Hcs) as (s' & -> & Hr). cbn [mbind res_bind]. by exists s', (Returned 0).
  - rewrite (Hkid eq_refl). destruct (decide (waited (tab s) ch x = [])) as [E|E].
    + rewrite bool_decide_false by tauto. by exists s, (Returned (- E_BAD_PROC)).
    + rewrite bool_decide_true by done. destruct (wait_sleep (tab s) ch Hready) as (t1 & t2 & k & E1 & E2 & Ek & Hs & Hik & Hfam & Hst & Hws & Hnext & Hv & Hsame).
      rewrite E1. cbn [mbind res_bind]. rewrite E2. cbn [mbind res_bind]. rewrite Ek. cbn [mbind res_bind]. eexists _, Asleep. split; [reflexivity|]. split; [done|].
      assert (Hrel : forall A (g : proc_struct -> A) y, (forall pr, g (quiet_core pr) = g pr) -> g <$> procs (sched k) !! y = g <$> procs_of t2 !! y) by (intros A g y Hg; by apply view_field).
      pose proof Hsame as (_ & Hpl & Hhl & Hin & _). split; cbn [tab with_tab pk with_pk ram spaces opened ctxs]; try done.
      * apply (table_same (tab s)); [done|done|done| | |].
        -- intros y. change (is_Some (procs (sched k) !! y) <-> live (tab s) y). rewrite live_view, Hv, <- live_view.
           change (live t2 y <-> live (tab s) y). by rewrite (put_live _ _ _ _ y E2), (put_live _ _ _ _ y E1).
        -- intros y. change (pid <$> procs (sched k) !! y = pid <$> procs_of (tab s) !! y). rewrite Hrel by done. by fields.
        -- intros y. change (proc_parent <$> procs (sched k) !! y = proc_parent <$> procs_of (tab s) !! y). rewrite Hrel by done. by fields.
      * intros y Hy. by rewrite Hv, (put_core_view _ _ _ _ _ E2 Hy), (put_core_view _ _ _ _ _ E1 Hy).
Qed.

Lemma wait_check_run s cur root al code_store :
  (code_store = 0 \/ exists p, mm cur = Some p /\ writable_space s p root al) -> 0 <= code_store < 2 ^ 64 ->
  exists v b, (if code_store =? 0 then Ok (spaces s, true) else user_mem_check (spaces s) (mm cur) code_store 4 true) = Ok (v, b) /\
    (v = spaces s \/ exists p, mm cur = Some p /\ same_areas p (spaces s) v /\ mm_inv v p al) /\
    (b = true <-> code_store = 0 \/ int_allowed al code_store).
Proof.
  intros Hs Hr. destruct (decide (code_store = 0)) as [->|Hne]; [exists (spaces s), true; split; [done|]; split; [by left|]; split; [by left|done]|].
  destruct Hs as [?|(p & Hp & [Hi _ _])]; [done|]. rewrite (proj2 (Z.eqb_neq _ _) Hne), Hp.
  destruct (user_mem_check_run (spaces s) p al code_store 4 true Hi) as (v & b & -> & Hsame & Hi' & Hb). exists v, b. split; [done|]. split; [right; by exists p|].
  rewrite Hb. unfold int_allowed. assert (USERBASE = 0x200000 /\ USERTOP = 0x80000000) as [HB HT] by done. unfold u64 in *. change (2 ^ 64) with 18446744073709551616 in *. split.
  - intros (H1 & H2 & H3). right. rewrite Z.mod_small in * by (Z.to_euclidean_division_equations; lia). split_and!; [done|lia|done].
  - intros [?|(H1 & H2 & H3)]; [done|]. rewrite Z.mod_small by lia. split_and!; [done|lia|lia|done].
Qed.

(** C20. Waiting for a child, from the call to its return or to the point where the process
    sleeps, and again from there when it is woken and was not killed.  [code_store] may be
    null; when the process may not write the [int] there, the call returns [-E_INVAL].
    Otherwise, among the children with the number [x], or all of them for [x] = 0: the
    youngest that has ended is reaped, and the call returns 0 - its exit code is at
    [code_store] and no other byte of memory has changed, it has left the process list,
    the hash chains and the family, the two frames of its kernel stack are free again and its
    [proc_struct] is gone, and every other process is as it was; when there are no such
    children, the call returns [-E_BAD_PROC]; and when they all run, the process sleeps until
    a child wakes it, with the processor given to somebody else. *)
Theorem do_wait_reaps npage s bl ch cur root al x code_store :
  wait_env s bl ch -> procs_of (tab s) !! current (pk (tab s)) = Some cur ->
  (code_store = 0 \/ exists p, mm cur = Some p /\ writable_space s p root al) -> 0 <= code_store < 2 ^ 64 ->
  let allowed := code_store = 0 \/ int_allowed al code_store in
  (exists v s' r, do_wait c free x code_store s = Ok (s', r) /\
     (v = spaces s \/ exists p, mm cur = Some p /\ same_areas p (spaces s) v /\ mm_inv v p al) /\
     (allowed -> wait_outcome (with_spaces s v) bl ch root x code_store s' r) /\
     (~ allowed -> r = Returned (- E_INVAL) /\ s' = with_spaces s v)) /\
  (allowed -> Z.land (proc_flags cur) PF_EXITING = 0 ->
   exists s' r, do_wait_resume c alloc free npage (mm cur) x code_store s = Ok (s', r) /\ wait_outcome s bl ch root x code_store s' r).
Proof.
  intros Henv Hcur Hspace Hcs allowed.
  assert (Hplace : forall v, allowed -> v = spaces s \/ (exists p, mm cur = Some p /\ same_areas p (spaces s) v /\ mm_inv v p al) ->
    code_store = 0 \/ exists p, mm cur = Some p /\ writable_space (with_spaces s v) p root al /\ int_allowed al code_store).
  { intros v [?|Hal] Hv; [by left|]. destruct Hspace as [?|(p & Hp & Hw)]; [by left|]. right. exists p. split; [done|]. split; [|done].
    destruct Hv as [->|(p' & Hp' & (_ & _ & Hc) & Hi)]; [by destruct Hw|]. assert (p' = p) as -> by congruence. destruct Hw as [_ Hroot Hmap]. split; [done| |done].
    cbn [spaces with_spaces]. unfold pgdir_of, deref in *. destruct (mms (spaces s) !! p) as [y|], (mms v !! p) as [y'|]; try done. cbn in Hc, Hroot |- *.
    apply (inj Some) in Hc. by replace (mm_pgdir y') with (mm_pgdir y) by (by apply (f_equal mm_pgdir) in Hc). }
  split.
  - unfold do_wait. rewrite (get_ok _ _ _ Hcur). cbn [mbind res_bind]. destruct (wait_check_run s cur root al code_store Hspace Hcs) as (v & b & -> & Hv & Hb). cbn [mbind res_bind].
    destruct b.
    + assert (Hal : allowed) by (by apply Hb). destruct (wait_repeat_run (with_spaces s v) bl ch cur root al x code_store) as (s' & r & -> & Ho); [by destruct Henv|by apply Hplace|].
      exists v, s', r. by split_and!.
    + assert (Hno : ~ allowed) by (intros Hal; by apply Hb in Hal). eexists v, _, _. split; [reflexivity|]. by split_and!.
  - intros Hal Hfl. unfold do_wait_resume. rewrite (get_ok _ _ _ Hcur). cbn [mbind res_bind]. rewrite Hfl. cbn [Z.eqb].
    apply (wait_repeat_run s bl ch cur root al); [done|]. destruct s as [t0 sp0 r0 o0 c0]. exact (Hplace sp0 Hal ltac:(by left)).
Qed.
End Spec.
