(* ===== verification/Machine.v ===== *)
(** The whole machine: the process table, the areas, the physical memory with the page
    tables, and the open files of all processes ([sys] of Fork.v over the tables of
    ForkFiles.v), and a file system call of the running process in it.

    While a process runs, the kernel reaches its memory through its page table: the call
    works on the [view] of the areas and the kernel's own buffers, and what it has changed
    goes back into the frames. *)
From S2P Require Import Prelude Lists Page Blocks FreeArea ProcStruct SchedClass Sched CString Layout StateM Iobuf Disk0 SfsIo SfsBmap SfsFile SfsNode Vfs FileTable Process Vmm PageTable PageCopy SysFile SysFileSpec SysFileRead Memory Fork ForkFiles Phys.

(** Every address of the areas in a list. *)
Fixpoint area_addresses (v : vmm) (l : list Z) : res (list Z) :=
  match l with
  | [] => Ok []
  | x :: l' => a ← deref (vmas v) x; xs ← area_addresses v l'; Ok (seqZ (vm_start a) (vm_end a - vm_start a) ++ xs)
  end.

Definition addresses (v : vmm) (mm : Z) : res (list Z) := m ← deref (mms v) mm; area_addresses v (mmap_list m).

Section Machine.
Context {D : Type} `{!Device D}.
#[local] Notation K := (Vfs.kernel D).
#[local] Notation machine := (sys (files_heap (D := D))).
Implicit Types s : machine.

(** [current] and [current->filesp]; the functions of file.c assert that there is a table. *)
Definition running s : res proc_struct := get (tab s) (current (pk (tab s))).

Definition running_table s : res (Z * files_struct) :=
  cur ← running s;
  match ProcStruct.filesp cur with
  | Some a => t ← deref (fh_tables (opened s)) a; Ok (a, t)
  | None => Panic
  end.

Definition put_table s (a : Z) (k : K) : machine := with_opened s (FilesHeap k (<[a := Vfs.filesp k]> (fh_tables (opened s)))).

(** A function of the file system on the table of the running process. *)
Definition on_table {A} (m : M K A) : M machine A := fun s =>
  '(a, t) ← running_table s;
  '(k, r) ← m (set_filesp t (fh_kernel (opened s)));
  Ok (put_table s a k, r).

(** A call that works on the memory of the running process too; [kmem0] is the memory of
    its kernel buffers as the call finds it. *)
Definition on_space {A} (kmem0 : memory) (m : option Z -> M (user D) A) : M machine A := fun s =>
  '(a, t) ← running_table s;
  cur ← running s;
  let k := set_filesp t (fh_kernel (opened s)) in
  match ProcStruct.mm cur with
  | None => '(u, r) ← m None (mk_user k (spaces s) kmem0); Ok (with_spaces (put_table s a (u_k u)) (u_v u), r)
  | Some x =>
      root ← pgdir_of (spaces s) x;
      xs ← addresses (spaces s) x;
      let old := view (ram s) root xs in
      '(u, r) ← m (Some x) (mk_user k (spaces s) (old ∪ kmem0));
      m ← write_back (ram s) root old (u_mem u) xs (ram s);
      Ok (with_ram (with_spaces (put_table s a (u_k u)) (u_v u)) m, r)
  end.

(** The addresses of the call's own buffers, and their contents. *)
Context (buf buf2 local : Z) (junk : list Z -> list Z) (kmem0 : memory).

(** A system call on files, by its number. *)
Definition file_syscall (num : Z) (arg : nat -> Z) : M machine Z :=
  on_space kmem0 (fun mm =>
    match list_find (fun row => row.1 = num) (file_syscalls mm buf local junk) with
    | Some (_, (_, sys)) => sys arg
    | None => m_panic
    end).

(** * The running process and its memory *)
Record space_ok s (pr : proc_struct) (p root : Z) (al : list vma_struct) : Prop := SpaceOk {
  so_running : running s = Ok pr;
  so_mm : ProcStruct.mm pr = Some p;
  so_root : pgdir_of (spaces s) p = Ok root;
  so_inv : mm_inv (spaces s) p al;
  so_user : user_areas al;
  so_mapped a x : a ∈ al -> contains a x = true -> is_Some (user_byte (ram s) root x)
}.

Lemma area_addresses_run v l al lo :
  Forall2 (area_is v) l al -> ascending lo al ->
  exists xs, area_addresses v l = Ok xs /\ NoDup xs /\ forall x, x ∈ xs <-> exists a, a ∈ al /\ contains a x = true.
Proof.
  intros Hl. revert lo. induction Hl as [|x a l al Ha Hl IH]; intros lo Hasc; cbn [area_addresses].
  - exists []. split; [done|]. split; [constructor|]. intros x. split; [by intros Hx%elem_of_nil|by intros (a & Ha%elem_of_nil & _)].
  - rewrite (deref_some _ _ _ Ha). cbn [mbind res_bind]. cbn in Hasc. destruct Hasc as (H1 & H2 & H3). destruct (IH _ H3) as (xs & -> & Hnd & Hxs). cbn [mbind res_bind].
    eexists. split; [reflexivity|]. split.
    + apply NoDup_app. split; [apply NoDup_seqZ|]. split; [|done]. intros y Hy%elem_of_seqZ Hy2. apply Hxs in Hy2 as (b & Hb & Hc). destruct (ascending_elem _ _ _ H3 Hb). unfold contains in Hc. lia.
    + intros y. rewrite elem_of_app, elem_of_seqZ, Hxs. unfold contains at 2. split.
      * intros [Hy|(b & Hb & Hc)]; [exists a; split; [by left|lia]|exists b; split; [by right|done]].
      * intros (b & [->|Hb]%elem_of_cons & Hc); [left; lia|right; by exists b].
Qed.

Lemma addresses_run v p al : mm_inv v p al -> exists xs, addresses v p = Ok xs /\ NoDup xs /\ forall x, x ∈ xs <-> exists a, a ∈ al /\ contains a x = true.
Proof.
  intros [Hasc (m & Hm & _ & Hl & _)]. unfold addresses. rewrite (deref_some _ _ _ Hm). cbn [mbind res_bind]. by eapply area_addresses_run.
Qed.

(** The buffers of the kernel are mapped and lie above user memory. *)
Definition buffers_ok : Prop :=
  (forall x, scratch buf buf2 local x -> is_Some (kmem0 !! x) /\ USERTOP <= x) /\ forall b, b = buf \/ b = buf2 -> USERTOP <= b /\ b + 4096 < 2 ^ 64.

Lemma space_user_ok s pr p root al xs k :
  space_ok s pr p root al -> buffers_ok -> (forall x, x ∈ xs <-> exists a, a ∈ al /\ contains a x = true) ->
  user_ok (D := D) p buf buf2 local al (mk_user k (spaces s) (view (ram s) root xs ∪ kmem0)).
Proof.
  intros [_ _ _ Hi Hu Hm] [Hb _] Hxs. split; cbn; [done|done| |].
  - intros x w (a & Ha & Hc & _). apply lookup_union_is_Some. left. rewrite view_lookup, decide_True by (apply Hxs; eauto). by eapply Hm.
  - intros x Hx. apply lookup_union_is_Some. right. by apply Hb.
Qed.

(** C8. Processes are isolated from each other's file system calls, down to the frames of
    physical memory.  Whatever file system call the running process makes, with whatever
    arguments: if it returns, then the page descriptors are as they were, and so is
    every frame but those behind addresses that the process may write - the page tables, its
    own read-only pages and the pages of every other process among them, unless it shares
    them; the process table and the contexts are unchanged, and so is every other process's
    table of open files. *)
Theorem file_syscalls_isolate s pr p root al num arg s' r :
  space_ok s pr p root al -> buffers_ok -> (forall i, 0 <= arg i < 2 ^ 64) -> file_syscall num arg s = Ok (s', r) ->
  area (ram s') = area (ram s) /\
  (forall f, (forall x, may al true x -> f <> target (vm_pte (ram s) root x)) -> frames (ram s') !! f = frames (ram s) !! f) /\
  tab s' = tab s /\ ctxs s' = ctxs s /\ (forall q, q <> p -> mms (spaces s') !! q = mms (spaces s) !! q) /\ mm_inv (spaces s') p al /\
  forall b, ProcStruct.filesp pr <> Some b -> fh_tables (opened s') !! b = fh_tables (opened s) !! b.
Proof.
  intros Hs Hb Harg. pose proof Hs as [Hrun Hmm Hroot Hinv Hu Hmap]. unfold file_syscall, on_space, running_table. rewrite Hrun. cbn [mbind res_bind].
  destruct (ProcStruct.filesp pr) as [a|] eqn:Ea; [|done]. destruct (deref _ a) as [t| | |]; cbn [mbind res_bind]; try done. rewrite Hmm, Hroot. cbn [mbind res_bind].
  destruct (addresses_run _ _ _ Hinv) as (xs & -> & Hnd & Hxs). cbn [mbind res_bind]. set (old := view _ _ _). set (k := set_filesp _ _).
  assert (Hok : user_ok p buf buf2 local al (mk_user k (spaces s) (old ∪ kmem0))) by (by eapply space_user_ok).
  destruct (list_find _ _) as [[j [n sys]]|] eqn:Ef; [|done]. apply list_find_Some in Ef as (Hin%list_elem_of_lookup_2 & _ & _).
  destruct (sys arg _) as [[u r1]| | |] eqn:Eu; cbn [mbind res_bind]; try done.
  pose proof (file_syscalls_safe p buf buf2 local junk al (proj2 Hb) n sys arg Hin Harg _ _ _ Hok Eu) as (Hok' & Hkept & _ & Hsame). cbn [u_mem u_v] in Hkept, Hsame.
  destruct (write_back _ _ _ _ _ _) as [m| | |] eqn:Ew; cbn [mbind res_bind]; try done. intros [= <- <-]. destruct (write_back_frames _ _ _ _ _ _ _ Ew) as (Ha & _ & Hf). cbn.
  split; [done|]. split; [|split; [done|split; [done|split; [apply Hsame|split; [apply Hok'|]]]]].
  - intros f Hno. apply Hf. intros x Hx ->. left. apply Hxs in Hx as (b & Hbin & Hc). destruct (Hmap b x Hbin Hc) as [y Hy].
    assert (old !! x = Some y) as Hold by (unfold old; rewrite view_lookup, decide_True by (apply Hxs; eauto); done).
    rewrite Hkept, Hold; [by apply lookup_union_Some_l|intros Hm; by apply (Hno x)|]. intros Hsc%(proj1 Hb). unfold user_areas in Hu. rewrite Forall_forall in Hu. destruct (Hu b Hbin) as (_ & ? & _). unfold contains in Hc. lia.
  - intros b Hne. rewrite lookup_insert_ne; [done|congruence].
Qed.
End Machine.
