(* ===== verification/MachineRead.v ===== *)
(** [sys_read] in the whole machine: from the blocks of the disk to the frames of the
    process that reads. *)
From S2P Require Import Prelude Lists Page Blocks FreeArea ProcStruct SchedClass Sched CString Layout StateM Iobuf Disk0 SfsIo SfsBmap SfsFile SfsNode Vfs FileTable Process Vmm PageTable PageCopy SysFile SysFileSpec SysFileRead Memory Fork ForkFiles Phys Machine.

Definition in_areas_at (al : list vma_struct) (x : Z) : Prop := exists a, a ∈ al /\ contains a x = true.

Lemma vpn_PGOFF x y : 0 <= x < USERTOP -> 0 <= y < USERTOP -> vpn x = vpn y -> PGOFF x = PGOFF y -> x = y.
Proof.
  unfold vpn, PGOFF, PPN, USERTOP. change 0xFFF with (Z.ones 12). rewrite !Z.land_ones, !Z.shiftr_div_pow2 by lia. intros Hx Hy.
  rewrite !Z.mod_small by (split; [apply Z.div_pos; lia|apply Z.div_lt_upper_bound; lia]). intros H1 H2.
  rewrite (Z.div_mod x (2 ^ 12)), (Z.div_mod y (2 ^ 12)) by lia. congruence.
Qed.

Section MachineRead.
Context {D : Type} `{!Device D} `{!DeviceLaws D}.
#[local] Notation K := (Vfs.kernel D).
#[local] Notation machine := (sys (files_heap (D := D))).
Implicit Types s : machine.

(** The blocks of a file hold bytes. *)
Lemma file_data_bytes (fs : sfs_fs D) d : fs_inv fs -> inode_ok fs d -> Forall is_byte (file_data fs d).
Proof.
  intros Hinv Hok. unfold file_data, join_blocks. apply Forall_forall. intros b Hb. apply list_elem_of_join in Hb as (l & Hb & Hl). apply list_elem_of_fmap in Hl as (i & -> & Hi%elem_of_seqZ).
  pose proof (inuse_disk_bytes fs (bmap (disk_of fs) d i) Hinv ltac:(apply inode_inuse; [done|lia])) as HF. rewrite Forall_forall in HF. by apply HF.
Qed.

(** The pages of the areas are frames that are no tables, each in one place. *)
Record pages_ok (m : pmem) (root : Z) (al : list vma_struct) : Prop := PagesOk {
  pk_frame x : in_areas_at al x -> frame_ok m (target (vm_pte m root x));
  pk_table x : in_areas_at al x -> ~ is_table m root (target (vm_pte m root x));
  pk_once x y : in_areas_at al x -> in_areas_at al y -> target (vm_pte m root x) = target (vm_pte m root y) -> vpn x = vpn y
}.

Lemma in_user al x : user_areas al -> in_areas_at al x -> 0 <= x < USERTOP.
Proof.
  intros Hu (a & Ha & Hc). unfold user_areas in Hu. rewrite Forall_forall in Hu. destruct (Hu a Ha) as (H1 & H2 & _). unfold contains in Hc. assert (0 < USERBASE) by done. lia.
Qed.

Lemma user_byte_valid m root x b : user_byte m root x = Some b -> valid (vm_pte m root x) = true /\ phys_byte m (target (vm_pte m root x)) (PGOFF x) = Some b.
Proof. unfold user_byte. by destruct (valid _). Qed.

(** A call that has run on the view of a process's memory has run on its frames. *)
Lemma on_space_run {A} (kmem0 : memory) (call : option Z -> M (user D) A) s pr p root al tb t r (P : list Z -> user D -> Prop) :
  space_ok s pr p root al -> pages_ok (ram s) root al -> ProcStruct.filesp pr = Some tb -> fh_tables (opened s) !! tb = Some t ->
  (forall xs, (forall x, x ∈ xs <-> in_areas_at al x) ->
     exists u, call (Some p) (mk_user (set_filesp t (fh_kernel (opened s))) (spaces s) (view (ram s) root xs ∪ kmem0)) = Ok (u, r) /\
       (forall x, in_areas_at al x -> exists b, u_mem u !! x = Some b /\ 0 <= b < 256) /\ P xs u) ->
  exists xs u s', (forall x, x ∈ xs <-> in_areas_at al x) /\ P xs u /\ on_space kmem0 call s = Ok (s', r) /\
    (forall x, in_areas_at al x -> user_byte (ram s') root x = u_mem u !! x) /\
    spaces s' = u_v u /\ opened s' = FilesHeap (u_k u) (<[tb := Vfs.filesp (u_k u)]> (fh_tables (opened s))).
Proof.
  intros [Hrun Hmm Hroot Hinv Hu Hmap] [Hfr Htb Hon] Ea Et Hcall. destruct (addresses_run _ _ _ Hinv) as (xs & Eaddr & Hnd & Hxs). destruct (Hcall xs Hxs) as (u & Eu & Hbytes & HP).
  destruct (write_back_run (ram s) root (view (ram s) root xs) (u_mem u) xs Hnd) with (m := ram s) as (m' & Ew & Hok' & Hb' & _).
  - intros x y Hx%Hxs Hy%Hxs E1 E2. apply (vpn_PGOFF x y); [by eapply in_user|by eapply in_user|by apply Hon|done].
  - intros x Hx%Hxs. by apply Hfr.
  - intros x Hx%Hxs. by apply Hbytes.
  - done.
  - intros x Hx. rewrite view_lookup, decide_True by done. apply Hxs in Hx as (a & Ha & Hc). destruct (Hmap a x Ha Hc) as [b Hb]. rewrite Hb. by apply user_byte_valid.
  - exists xs, u. eexists. split; [done|]. split; [done|]. split.
    + unfold on_space, running_table. rewrite Hrun. cbn [mbind res_bind]. rewrite Ea, (deref_some _ _ _ Et). cbn [mbind res_bind]. rewrite Hmm, Hroot. cbn [mbind res_bind]. rewrite Eaddr. cbn [mbind res_bind].
      rewrite Eu. cbn [mbind res_bind]. rewrite Ew. reflexivity.
    + split; [|done]. intros x Hx. cbn. destruct (write_back_frames _ _ _ _ _ _ _ Ew) as (_ & _ & Hsame).
      destruct (tree_same 0 (ram s) m' root) as (_ & Hpte & _); [intros f Hf; apply Hsame; intros y Hy%Hxs ->; by destruct (Htb y Hy)|].
      pose proof Hx as (a & Ha & Hc). destruct (Hmap a x Ha Hc) as [b Hb]. apply user_byte_valid in Hb as [Hv _]. unfold user_byte. rewrite Hpte, Hv. by apply Hb', Hxs.
Qed.

Context (buf buf2 local : Z) (junk : list Z -> list Z) (kmem0 : memory).

(** The arguments of [read]. *)
Definition read_args (fd : nat) (base len : Z) (i : nat) : Z := match i with O => Z.of_nat fd | 1%nat => base | 2%nat => len | _ => 0 end.

(** C7. A read, from the blocks of the disk to the frames of the process.  The running
    process has an open, readable descriptor of a regular file, [kmalloc] succeeds, and the
    process may write to the buffer it names; its pages are frames of its own.  Then the
    system call comes to an end and returns the number of bytes between the position and
    the end of the request or of the file; those bytes of the file are what the process
    finds through its page table from [base] on, and at every other address of its areas it
    finds what was there before. *)
Theorem sys_read_reaches_frames s pr p root al tb t i f a n sin base len :
  let k := set_filesp t (fh_kernel (opened s)) in
  space_ok s pr p root al -> pages_ok (ram s) root al -> buffers_ok buf buf2 local kmem0 ->
  ProcStruct.filesp pr = Some tb -> fh_tables (opened s) !! tb = Some t ->
  reading al (mk_user k (spaces s) ∅) i f a n sin base len -> kmem (w_fs (k_world k)) = [] ->
  let d := din sin in
  let total := readable_bytes d (pos f) len in
  exists s', file_syscall buf local junk kmem0 SYS_read (read_args i base len) s = Ok (s', inr total) /\
    (forall x, base <= x < base + total -> user_byte (ram s') root x = file_data (w_fs (k_world k)) d !! Z.to_nat (pos f + (x - base))) /\
    (forall x, in_areas_at al x -> ~ base <= x < base + total -> user_byte (ram s') root x = user_byte (ram s) root x) /\
    mm_inv (spaces s') p al /\
    fd_array <$> fh_tables (opened s') !! tb = Some (<[i := set_pos (pos f + total) f]> (fd_array t)).
Proof.
  intros k Hs Hp Hb Ea Et Hr Hk d total. pose proof Hr as [Htab Hent Hop _ _ _ _ _ _ Hfs Hfile Hpos Hlen Hlow Hhigh Hmay].
  set (call := fun mm : option Z => match list_find (fun row : Z * ((nat -> Z) -> M (user D) Z) => row.1 = SYS_read) (file_syscalls mm buf local junk) with Some (_, (_, sys)) => sys (read_args i base len) | None => m_panic end).
  pose proof (lookup_lt_Some _ _ _ Hent) as Hi. pose proof Htab as (_ & Hn & _). assert (FILES_STRUCT_NENTRY < 100) as HN by done.
  assert (0 < USERBASE) as HB0 by done. assert (USERTOP = 2 ^ 31) as HT by done.
  assert (Hcall : call (Some p) = sysfile_read (Some p) buf (Z.of_nat i) base len).
  { change (call (Some p)) with (sysfile_read (Some p) buf (i32 (Z.of_nat i)) base len). rewrite i32_small by lia. done. }
  pose proof (ltac:(eapply total_range; exact Hr)) as (Htot & _ & _). cbn [u_k] in Htot. fold d total in Htot.
  destruct (on_space_run kmem0 call s pr p root al tb t (inr total)
    (fun xs u => (forall x, base <= x < base + total -> u_mem u !! x = file_data (w_fs (k_world k)) d !! Z.to_nat (pos f + (x - base))) /\
       (forall x, ~ base <= x < base + total -> ~ buf <= x < buf + IOBUF_SIZE -> u_mem u !! x = (view (ram s) root xs ∪ kmem0) !! x) /\
       mm_inv (u_v u) p al /\ exists fs', u_k u = moved i f k total fs') Hs Hp Ea Et) as (xs & u & s' & Hxs & (Hin & Hout & Hmm & fs' & Hku) & Hrun & Hbytes & Hsp & Hopen).
  - intros xs Hxs. rewrite Hcall. pose proof (space_user_ok buf buf2 local kmem0 s pr p root al xs k Hs Hb Hxs) as Hok.
    assert (Hr' : reading al (mk_user k (spaces s) (view (ram s) root xs ∪ kmem0)) i f a n sin base len) by (by eapply reading_same; [|exact Hr]).
    destruct (sysfile_read_run p buf buf2 local al _ i f a n sin base len Hr' Hok ltac:(apply (proj2 Hb); by left) Hk) as (u & fs' & Eu & Hin & Hout & Hmm & Hku & _). fold d total in Eu, Hin, Hout, Hku.
    exists u. split; [exact Eu|]. split; [|split; [done|split; [done|split; [done|by exists fs']]]]. intros x Hx.
    pose proof (in_user al x (so_user _ _ _ _ _ Hs) Hx) as Hux. destruct (decide (base <= x < base + total)) as [Hd|Hd].
    + rewrite Hin by done. pose proof (ltac:(eapply data_length; exact Hr')) as Hdl. pose proof (ltac:(eapply total_range; exact Hr')) as (_ & Hsz & _). cbn [u_k] in Hdl, Hsz. fold d total in Hdl, Hsz. specialize (Hsz ltac:(lia)).
      destruct (lookup_lt_is_Some_2 (file_data (w_fs (k_world k)) d) (Z.to_nat (pos f + (x - base)))) as [b Eb]; [lia|]. exists b. split; [exact Eb|].
      pose proof (file_data_bytes _ _ Hfs (proj1 Hfile)) as HF. rewrite Forall_forall in HF. apply HF. by eapply list_elem_of_lookup_2.
    + rewrite Hout; [|done|destruct (proj2 Hb buf); [by left|lia]]. destruct Hx as (ar & Har & Hc). destruct (so_mapped _ _ _ _ _ Hs ar x Har Hc) as [b Eb]. exists b. split.
      * apply lookup_union_Some_l. rewrite view_lookup, decide_True; [done|]. apply Hxs. by exists ar.
      * apply user_byte_valid in Eb as [_ Eb]. by apply phys_byte_range in Eb.
  - exists s'. split; [exact Hrun|]. split; [|split; [|split]].
    + intros x Hx. rewrite Hbytes; [by apply Hin|]. destruct (Hmay x ltac:(lia)) as (ar & ? & ? & _). by exists ar.
    + intros x Hx Hno. pose proof (in_user al x (so_user _ _ _ _ _ Hs) Hx) as Hux. rewrite Hbytes, Hout by (first [done|destruct (proj2 Hb buf); [by left|lia]]).
      destruct Hx as (ar & Har & Hc). destruct (so_mapped _ _ _ _ _ Hs ar x Har Hc) as [b Eb]. rewrite Eb. apply lookup_union_Some_l. rewrite view_lookup, decide_True; [done|]. apply Hxs. by exists ar.
    + by rewrite Hsp.
    + rewrite Hopen. cbn. rewrite lookup_insert_eq, Hku. done.
Qed.
End MachineRead.
