(* ===== verification/MachineExample.v ===== *)
(** A concrete machine, on which the theorems about file system calls are run: the processes
    of ForkExample.v, the second of which has a page of data at 0x800000 - frame 3 behind the
    tables in frames 0, 1 and 2 - and a file open under descriptor 0.
    Then, for the theorem about [do_wait], the processes of ProcExample.v, the running one
    of which has that memory, while its child that has ended keeps the frames 4 and 5 as its
    kernel stack. *)
From S2P Require Import Prelude Lists Page Blocks FreeArea DefaultPmm SkewHeap ProcStruct SchedClass RoundRobin Sched CString StateM Layout Iobuf Disk0 SfsIo SfsBmap SfsFile SfsNode Vfs FileTable SfsExample Process ProcFamily ProcExample Vmm SysFile SysFileSpec SysFileRead SysFileExample PageTable PageRange PageCopy Memory Fork ForkFiles ForkExample Phys Wait Machine MachineRead.

Definition zeros : list Z := replicate 512 0.
Definition link_to (f : Z) : Z := pte_create (page2ppn f) (Z.lor PTE_U PTE_V).
Definition data_pte : Z := pte_create (page2ppn 3) (Z.lor PTE_V PTE_USER).

Definition machine_frames : gmap Z (list Z) :=
  list_to_map [(0, <[0%nat := link_to 1]> zeros); (1, <[4%nat := link_to 2]> zeros); (2, <[0%nat := data_pte]> zeros); (3, replicate 512 0x0707070707070707)].

Definition machine_ram : pmem := Pmem (FreeArea ∅ ∅ 0) machine_frames.

Definition machine_spaces : vmm := Vmm (vmas data_vmm) (<[1 := Mm [1] None (Some 0) 1 1]> ∅).

Definition demo_machine : sys (files_heap (D := disk0)) := Sys fork_table machine_spaces machine_ram fork_files ∅.

Lemma machine_vpn x : 0x800000 <= x < 0x801000 -> vpn x = vpn 0x800000.
Proof.
  intros Hx. unfold vpn, PPN. rewrite !Z.shiftr_div_pow2 by lia. f_equal.
  change (0x800000 / 2 ^ 12) with 0x800. symmetry. apply (Z.div_unique _ _ _ (x - 0x800000)); lia.
Qed.

Lemma machine_pte x : 0x800000 <= x < 0x801000 -> vm_pte machine_ram 0 x = data_pte.
Proof. intros Hx. rewrite (vm_pte_vpn machine_ram 0 x 0x800000) by (by apply machine_vpn). vm_compute. reflexivity. Qed.

Lemma machine_area x : in_areas_at data_areas x <-> 0x800000 <= x < 0x801000.
Proof.
  split; [intros (a & ->%list_elem_of_singleton & Hc)|intros Hx; eexists; split; [by left|]]; unfold contains in *; cbn [vm_start vm_end] in *; lia.
Qed.

Lemma machine_frame f : 0 <= f < 4 -> frame_ok machine_ram f.
Proof.
  intros Hf. assert (f = 0 \/ f = 1 \/ f = 2 \/ f = 3) as [->|[->|[->| ->]]] by lia; eexists; (split; [vm_compute; reflexivity|reflexivity]).
Qed.

Lemma machine_mm_inv : mm_inv machine_spaces 1 data_areas.
Proof.
  split; [cbn; lia|]. eexists. split; [reflexivity|]. split; [apply NoDup_singleton|]. split; [by repeat constructor|]. split; [|reflexivity]. by intros ? [=].
Qed.

Lemma machine_space : space_ok demo_machine (fork_proc 1 (Some 1) None (Some 1) (Some 1)) 1 0 data_areas.
Proof.
  split; [reflexivity|reflexivity|reflexivity|exact machine_mm_inv|apply Forall_singleton; repeat split; vm_compute; discriminate|].
  intros a x Ha Hc. assert (0x800000 <= x < 0x801000) as Hx by (apply machine_area; by exists a). unfold user_byte. cbn [ram demo_machine]. rewrite machine_pte by done.
  change (valid data_pte) with true. cbv iota. change (target data_pte) with 3. apply phys_byte_some; [apply machine_frame; lia|apply PGOFF_range].
Qed.

(** An entry of a table with one link. *)
Lemma one_link f i e j g : machine_frames !! f = Some (<[i := e]> zeros) -> child machine_ram f j = Some g -> g = target e.
Proof.
  intros Hf. unfold child, entry. cbn [machine_ram frames]. rewrite Hf. destruct (decide (0 <= j < 512)); [|done]. cbn [mbind option_bind].
  destruct (decide (i = Z.to_nat j)) as [->|Hne].
  - unfold zeros. rewrite list_lookup_insert_eq by (rewrite length_replicate; lia). destruct (valid e); congruence.
  - rewrite list_lookup_insert_ne by done. unfold zeros. rewrite lookup_replicate_2 by lia. done.
Qed.

Lemma machine_tables f : is_table machine_ram 0 f -> f <> 3.
Proof.
  assert (Hd : forall i g, dir0 machine_ram 0 i = Some g -> g = 1).
  { intros i g Hg. apply dir0_child in Hg as [Hg _]. by apply (one_link 0 0%nat (link_to 1) i g eq_refl) in Hg. }
  intros [|i g Hg|i j g Hg]; [done|by rewrite (Hd _ _ Hg)|]. unfold table in Hg. destruct (dir0 machine_ram 0 i) as [d|] eqn:E; [|done].
  cbn in Hg. rewrite (Hd _ _ E) in Hg. by rewrite (one_link 1 4%nat (link_to 2) j g eq_refl Hg).
Qed.

Lemma machine_pages : pages_ok machine_ram 0 data_areas.
Proof.
  split.
  - intros x Hx%machine_area. rewrite machine_pte by done. by apply machine_frame.
  - intros x Hx%machine_area Ht. rewrite machine_pte in Ht by done. by apply machine_tables in Ht.
  - intros x y Hx%machine_area Hy%machine_area _. unfold vpn, PPN. rewrite !Z.shiftr_div_pow2 by lia. f_equal.
    rewrite <- (Z.div_unique x (2 ^ 12) 0x800 (x - 0x800000)) by lia. by rewrite <- (Z.div_unique y (2 ^ 12) 0x800 (y - 0x800000)) by lia.
Qed.

Definition machine_buffers : memory := map_seqZ kbuf (replicate (Z.to_nat 8224) 0).

Lemma machine_buffers_ok : buffers_ok kbuf kbuf2 klocal machine_buffers.
Proof.
  split.
  - intros x Hx. unfold scratch, kbuf, kbuf2, klocal, STAT_SIZE, USERTOP in *. split; [|lia]. apply lookup_map_seqZ_is_Some. rewrite length_replicate. unfold kbuf. lia.
  - intros b [->| ->]; unfold kbuf, kbuf2, USERTOP; lia.
Qed.

Lemma machine_reading : reading data_areas (mk_user (set_filesp (Vfs.filesp demo_kernel) demo_kernel) machine_spaces ∅) 0 demo_file0 20 demo_inode demo_sin 0x800010 20.
Proof. apply (reading_same data_areas demo_user); [reflexivity|exact demo_reading]. Qed.

(** Eight bytes of the file, from position 2 on, in frame 3. *)
Lemma sys_read_reaches_frames_witness :
  exists s', file_syscall kbuf klocal (fun b => b) machine_buffers SYS_read (read_args 0 0x800010 20) demo_machine = Ok (s', inr 8) /\
    user_byte (ram s') 0 0x800017 = Some 0 /\ user_byte (ram s') 0 0x800018 = Some 7.
Proof.
  destruct (sys_read_reaches_frames kbuf kbuf2 klocal (fun b => b) machine_buffers demo_machine (fork_proc 1 (Some 1) None (Some 1) (Some 1)) 1 0 data_areas 1 (Vfs.filesp demo_kernel) 0 demo_file0 20 demo_inode demo_sin 0x800010 20)
    as (s' & Hrun & Hin & Hout & _).
  - exact machine_space.
  - exact machine_pages.
  - exact machine_buffers_ok.
  - reflexivity.
  - reflexivity.
  - exact machine_reading.
  - reflexivity.
  - change (readable_bytes (din demo_sin) (pos demo_file0) 20) with 8 in *. exists s'. split; [exact Hrun|]. split.
    + rewrite Hin by lia. vm_compute. reflexivity.
    + rewrite Hout; [vm_compute; reflexivity|apply machine_area; lia|lia].
Defined.

(** A call of [fstat] leaves the tables of the process alone. *)
Definition machine_fstat : res (sys (files_heap (D := disk0)) * (Z + Z)) :=
  file_syscall kbuf klocal (fun b => b) machine_buffers SYS_fstat (fun i => match i with O => 0 | _ => 0x800100 end) demo_machine.

Lemma file_syscalls_isolate_witness :
  exists s', machine_fstat = Ok (s', inr 0) /\ tab s' = tab demo_machine /\ forall f, 0 <= f < 3 -> frames (ram s') !! f = frames machine_ram !! f.
Proof.
  assert (E : match machine_fstat with Ok (_, inr r) => r =? 0 | _ => false end = true) by (vm_compute; reflexivity).
  destruct machine_fstat as [[s' [e|r]]| | |] eqn:Hrun; try discriminate E. apply Z.eqb_eq in E as ->.
  destruct (file_syscalls_isolate kbuf kbuf2 klocal (fun b => b) machine_buffers demo_machine (fork_proc 1 (Some 1) None (Some 1) (Some 1)) 1 0 data_areas
    SYS_fstat (fun i => match i with O => 0 | _ => 0x800100 end) s' (inr 0) machine_space machine_buffers_ok) as (_ & Hf & Ht & _).
  - intros [|i]; lia.
  - exact Hrun.
  - exists s'. split; [reflexivity|]. split; [exact Ht|]. intros f Hf3. apply Hf. intros x (a & Ha & Hc & _). cbn [ram demo_machine].
    rewrite machine_pte by (apply machine_area; exists a; by split). change (target data_pte) with 3. lia.
Defined.

(** * Waiting for a child *)
Definition wait_procs : gmap Z proc_struct :=
  <[3 := set_mm (Some 1) (example_proc PROC_RUNNABLE 2 (Some 2) (Some 5) None None 0 0)]>
    (<[5 := set_kstack (Some 4) (example_proc PROC_ZOMBIE 4 (Some 3) None None (Some 4) 0 7)]> example_procs).

Definition wait_sched : sched_state :=
  SchedState wait_procs (list_to_map ((RunList, ListEntry RunList RunList) :: (self_link <$> [1; 2; 3; 4; 5]))) ∅ (RunQueue 0 5 None).

Definition wait_table : ptable := PTable (Kernel wait_sched 3 1 0) [5; 4; 3; 2] example_chains 2 4 MAX_PID 4.

(** Eight frames: the tables and the page of the process, the stack, and two free ones. *)
Definition wait_frames : gmap Z (list Z) := list_to_map ((fun f => (f, zeros)) <$> [4; 5; 6; 7]) ∪ machine_frames.

Definition wait_area : res (free_area * option Z) :=
  a ← default_init (boot 8);
  a ← default_init_memmap a 4 4;
  default_alloc_pages a 2.

Definition wait_ram : pmem := match wait_area with Ok (a, _) => Pmem a wait_frames | _ => Pmem (boot 8) wait_frames end.

Definition wait_system : sys (files_heap (D := disk0)) := Sys wait_table machine_spaces wait_ram fork_files ∅.

Lemma wait_cases p pr : wait_procs !! p = Some pr -> p = 1 \/ p = 2 \/ p = 3 \/ p = 4 \/ p = 5.
Proof.
  unfold wait_procs. intros [[<- _]|[_ Hp]]%lookup_insert_Some; [tauto|]. apply lookup_insert_Some in Hp as [[<- _]|[_ Hp]]; [tauto|]. by eapply example_cases.
Qed.

Lemma wait_example_family : family (procs_of wait_table) example_children.
Proof.
  intros p [pr Hp]. destruct (wait_cases p pr Hp) as [->|[->|[->|[->| ->]]]];
    (split; [by repeat constructor; set_solver|split; [reflexivity|intros [|[|[]]] c Hc; try discriminate Hc; injection Hc as <-; by repeat split]]).
Qed.

Lemma wait_sched_inv : sched_inv (c := default_sched_class) (pk wait_table) [].
Proof.
  split; [|by eexists|by eexists|by split; apply not_elem_of_nil|by intros p ?%elem_of_nil|].
  - split; [split|by intros p ?%elem_of_nil|done].
    + split; [apply NoDup_singleton|split; reflexivity].
    + intros p [pr Hp] _. destruct (wait_cases p pr Hp) as [->|[->|[->|[->| ->]]]];
        (split; [apply NoDup_singleton|split; reflexivity]).
  - intros p (pr & Hp & Hr). destruct (wait_cases p pr Hp) as [->|[->|[->|[->| ->]]]]; auto; exfalso; vm_compute in Hp; injection Hp as <-; discriminate Hr.
Qed.

Lemma wait_listed z : z ∈ [5; 4; 3; 2] -> z = 5 \/ z = 4 \/ z = 3 \/ z = 2.
Proof. rewrite !elem_of_cons. intros [?|[?|[?|[?|[]%elem_of_nil]]]]; tauto. Qed.

Lemma wait_table_ok : table_ok wait_table example_children.
Proof.
  split.
  - intros z Hz%wait_listed. destruct Hz as [->|[->|[->| ->]]]; (eexists; split; [reflexivity|split; [split; reflexivity|left]]).
  - intros h z. cbn [hash_list wait_table proc_list]. destruct (example_chains !! h) as [l|] eqn:E; [|by intros ?%elem_of_nil].
    apply elem_of_list_to_map_2 in E. cbn in E. rewrite !elem_of_cons in E. cbn [default from_option id].
    destruct E as [[= -> ->]|[[= -> ->]|[[= -> ->]|[[= -> ->]|[]%elem_of_nil]]]]; intros ->%list_elem_of_singleton; set_solver.
  - intros y z Hy%wait_listed Hz%wait_listed. destruct Hy as [->|[->|[->| ->]]], Hz as [->|[->|[->| ->]]]; intros E; first [reflexivity|vm_compute in E; discriminate E].
  - intros p z [pr Hp]. cbn [proc_list wait_table]. destruct (decide (z ∈ [5; 4; 3; 2])) as [Hz|Hz].
    + pose proof Hz as Hz'. apply wait_listed in Hz'. destruct (wait_cases p pr Hp) as [->|[->|[->|[->| ->]]]], Hz' as [->|[->|[->| ->]]]; vm_compute example_children;
        (split; [intros Hin; split; [done|]; revert Hin|intros [_ E]; revert E]); rewrite ?elem_of_cons, ?elem_of_nil; vm_compute; intuition congruence.
    + split; [|tauto]. intros Hin. destruct Hz. destruct (wait_cases p pr Hp) as [->|[->|[->|[->| ->]]]]; vm_compute in Hin; set_solver.
Qed.

Lemma wait_area_eq : wait_area = (a ← default_init (boot 8); a ← default_init_memmap a 4 4; default_alloc_pages a 2) /\
  match wait_area with Ok (_, r) => r | _ => None end = Some 4.
Proof. split; [reflexivity|]. vm_compute. reflexivity. Qed.

Lemma wait_frame f : 0 <= f < 8 -> frame_ok wait_ram f.
Proof.
  intros Hf. unfold frame_ok. assert (frames wait_ram = wait_frames) as -> by (unfold wait_ram; by destruct wait_area as [[]| | |]).
  assert (f = 0 \/ f = 1 \/ f = 2 \/ f = 3 \/ f = 4 \/ f = 5 \/ f = 6 \/ f = 7) as [->|[->|[->|[->|[->|[->|[->| ->]]]]]]] by lia; eexists; (split; [vm_compute; reflexivity|reflexivity]).
Qed.

Lemma wait_memory : exists bl, mem_ok 8 wait_ram bl /\ in_use (area wait_ram) bl 4 2 /\ not_last 4 bl /\ total bl = 2.
Proof.
  destruct (default_boot 8 (boot 8) 4 4) as (s1 & s2 & H1 & H2 & Hi); [by apply (boot_all_reserved 8)|lia..|].
  assert (Hw : fl_inv 8 0 s2 [(4, 4)]) by (destruct Hi; by split).
  destruct (pa_alloc 8 s2 [(4, 4)] 2 Hw ltac:(lia) ltac:(lia)) as (a & r & E & Hr). destruct wait_area_eq as [Erun Hl].
  assert (Ea : wait_area = Ok (a, r)) by (rewrite Erun, H1; cbn [mbind res_bind]; rewrite H2; cbn [mbind res_bind]; exact E).
  rewrite Ea in Hl. rewrite Hl in Hr. destruct Hr as (bl & Hfl & Hu & Ht & Hc & _). exists bl.
  assert (area wait_ram = a) as Har by (unfold wait_ram; by rewrite Ea). rewrite Har. split; [split; [by rewrite Har|intros f Hf; by apply wait_frame]|]. split; [exact Hu|].
  split; [|cbn in Ht; lia]. left. destruct bl as [|[b k] bl]; [cbn in Ht; lia|]. cbn [above]. destruct (fl_ordered _ _ _ _ Hfl) as (Hb & Hk & _).
  assert (4 < b) as Hlt.
  { assert (covers ((b, k) :: bl) b) as Hcb by (apply covers_cons; left; lia). pose proof Hcb as Hcb'. assert (covers [(4, 4)] b) as [?|[]%covers_nil]%covers_cons by (apply Hc; by left).
    assert (b <> 4); [|lia]. intros ->. by apply (Hu 4 ltac:(lia)). }
  by rewrite (proj2 (Z.ltb_lt 4 b)).
Qed.

Lemma wait_pte x : 0x800000 <= x < 0x801000 -> vm_pte wait_ram 0 x = data_pte.
Proof. intros Hx. rewrite (vm_pte_vpn wait_ram 0 x 0x800000) by (by apply machine_vpn). vm_compute. reflexivity. Qed.

Lemma wait_user x : 0x800000 <= x < 0x801000 -> store_frame wait_ram 0 x = Ok 3.
Proof. intros Hx. unfold store_frame. rewrite wait_pte by done. reflexivity. Qed.

Lemma wait_writable : writable_space 8 wait_system 1 0 data_areas.
Proof.
  split; [exact machine_mm_inv|reflexivity|]. intros y (a & Ha & Hc & _). exists 3. split; [|lia]. apply wait_user, machine_area. by exists a.
Qed.

(** What a child needs in the memory [m] that its parent waits in. *)
Lemma wait_env_example bl : mem_ok 8 wait_ram bl -> in_use (area wait_ram) bl 4 2 -> not_last 4 bl -> wait_env (c := default_sched_class) 8 wait_system bl example_children.
Proof.
  intros Hm Hu Hn. split; [|exact wait_table_ok|exact Hm|].
  - split; [exists []; exact wait_sched_inv|]. split; [exact wait_example_family|]. split; [reflexivity|].
    intros z Hz. apply elem_of_cons in Hz as [->|Hz%list_elem_of_singleton]; [done|by subst].
  - intros z Hz Hzz. apply elem_of_cons in Hz as [->|Hz%list_elem_of_singleton]; [|by subst].
    exists (set_kstack (Some 4) (example_proc PROC_ZOMBIE 4 (Some 3) None None (Some 4) 0 7)), 4. split; [reflexivity|]. split; [reflexivity|]. by split.
Qed.

(** The process waits for number 4, with room for the exit code at 0x800010. *)
Lemma do_wait_reaps_witness :
  exists s' bl', do_wait default_sched_class default_free_pages 4 0x800010 wait_system = Ok (s', Returned 0) /\
    phys_byte (ram s') 3 16 = Some 7 /\ phys_byte (ram s') 3 17 = Some 0 /\ proc_list (tab s') = [4; 3; 2] /\ procs_of (tab s') !! 5 = None /\
    mem_ok 8 (ram s') bl' /\ total bl' = 4.
Proof.
  destruct wait_memory as (bl & Hm & Hu & Hn & Ht).
  destruct (do_wait_reaps (c := default_sched_class) (alloc := default_alloc_pages) (free := default_free_pages) 8 (8 + nbase) wait_system bl example_children
    (set_mm (Some 1) (example_proc PROC_RUNNABLE 2 (Some 2) (Some 5) None None 0 0)) 0 data_areas 4 0x800010) as [(v & s' & r & Hrun & _ & Ho & _) _].
  - exact (wait_env_example bl Hm Hu Hn).
  - reflexivity.
  - right. exists 1. split; [reflexivity|exact wait_writable].
  - split; [discriminate|reflexivity].
  - assert (Hal : int_allowed data_areas 0x800010) by (split; [discriminate|]; split; [discriminate|]; intros y Hy; apply data_may; lia).
    destruct (Ho (or_intror Hal)) as (-> & [(zr & k & i & bl' & Hzr & _ & Hi & Hr & _ & Hc & Hm' & Htot & _) _]).
    injection Hzr as <-. exists s', bl'. split; [exact Hrun|]. destruct Hc as (Hb & _).
    split; [exact (Hb 0%nat 7 3 eq_refl (wait_user (0x800010 + Z.of_nat 0) ltac:(lia)))|]. split; [exact (Hb 1%nat 0 3 eq_refl (wait_user (0x800010 + Z.of_nat 1) ltac:(lia)))|].
    split; [exact (rp_list _ _ _ _ _ Hr)|]. split; [exact (rp_gone _ _ _ _ _ Hr)|]. split; [exact Hm'|]. rewrite Htot, Ht. reflexivity.
Defined.

(** A place outside the areas of the process is refused, and a process that is no child of
    the caller is not waited for. *)
Example do_wait_refused :
  (match do_wait default_sched_class default_free_pages 4 0x900000 wait_system with Ok (_, r) => r | _ => Asleep end,
   match do_wait default_sched_class default_free_pages 1 0 wait_system with Ok (_, r) => r | _ => Asleep end,
   match do_wait default_sched_class default_free_pages 3 0 wait_system with Ok (_, r) => r | _ => Exited end) = (Returned (- E_INVAL), Returned (- E_BAD_PROC), Asleep).
Proof. vm_compute. reflexivity. Qed.
