(* ===== verification/Exec.v ===== *)
(** Running another program (lab8/kern/process/proc.c): [load_icode], which reads an ELF file
    into a new address space, [copy_kargv] and [do_execve].

    These functions use everything below them: the open files and the disk, the areas and
    the page tables, the frames behind them and the process table.  They work on the
    machine of Machine.v.  What they allocate with [kmalloc] for a while is a list of
    bytes here, taken out of the buffer when the function that filled it returns. *)
From S2P Require Import Prelude Lists Page Blocks FreeArea ProcStruct SchedClass Sched CString Layout StateM Iobuf Disk0 SfsIo SfsBmap SfsFile SfsDir SfsNode Vfs FileTable Printf Process Vmm PageTable SysFile Memory Fork ForkFiles Phys Machine.

(** * libs/elf.h *)
Definition ELF_MAGIC : Z := 0x464C457F.
Definition ELF_PT_LOAD : Z := 1.
Definition ELF_PF_X : Z := 1.
Definition ELF_PF_W : Z := 2.
Definition ELF_PF_R : Z := 4.

(** The field of [n] bytes at [off]. *)
Definition field (l : list Z) (off n : nat) : Z := le_value (bytes_at l off n).

Record elfhdr : Type := Elfhdr { e_magic : Z; e_entry : Z; e_phoff : Z; e_shoff : Z; e_phnum : Z; e_shentsize : Z; e_shnum : Z }.
Definition SIZEOF_ELFHDR : Z := 64.
Definition elfhdr_of (l : list Z) : elfhdr := Elfhdr (field l 0 4) (field l 24 8) (field l 32 8) (field l 40 8) (field l 56 2) (field l 58 2) (field l 60 2).

Record proghdr : Type := Proghdr { p_type : Z; p_flags : Z; p_offset : Z; p_va : Z; p_filesz : Z; p_memsz : Z }.
Definition SIZEOF_PROGHDR : Z := 56.
Definition proghdr_of (l : list Z) : proghdr := Proghdr (field l 0 4) (field l 4 4) (field l 8 8) (field l 16 8) (field l 32 8) (field l 40 8).

(** The definitions inside [load_icode]. *)
Record elf64_shdr : Type := Shdr { sh_type : Z; sh_offset : Z; sh_size : Z; sh_link : Z; sh_entsize : Z }.
Definition SIZEOF_SHDR : Z := 64.
Definition shdr_of (l : list Z) : elf64_shdr := Shdr (field l 4 4) (field l 24 8) (field l 32 8) (field l 40 4) (field l 56 8).
Definition SHT_SYMTAB : Z := 2.

Record elf64_sym : Type := Sym { st_name : Z; st_value : Z }.
Definition SIZEOF_SYM : Z := 24.
Definition sym_of (l : list Z) : elf64_sym := Sym (field l 0 4) (field l 8 8).

Definition EXEC_MAX_ARG_NUM : Z := 32.
Definition EXEC_MAX_ARG_LEN : Z := 4095.

(** The section header with number [i]; there is nothing behind the last one. *)
Definition shdr_at (shdrs : list Z) (i : Z) : res elf64_shdr :=
  let off := (Z.to_nat i * Z.to_nat SIZEOF_SHDR)%nat in
  if (off + Z.to_nat SIZEOF_SHDR <=? length shdrs)%nat then Ok (shdr_of (bytes_at shdrs off (Z.to_nat SIZEOF_SHDR))) else Fault.

(** The value of the first symbol with that name, 0 if there is none.  The names are where
    the string table is; the literal is somewhere else. *)
Definition gp_name : list Z := c_text "__global_pointer$".
Definition gp_literal : Z := - 64.

Fixpoint find_gp (names : memory) (syms : list Z) (n : nat) : res Z :=
  match n with
  | O => Ok 0
  | S n' =>
      let sym := sym_of (take (Z.to_nat SIZEOF_SYM) syms) in
      r ← strcmp names (st_name sym) gp_literal;
      if r =? 0 then Ok (st_value sym) else find_gp names (drop (Z.to_nat SIZEOF_SYM) syms) n'
  end.

(** [memcpy] to the address of byte [i] of a frame, and assignments of words; physical memory
    goes on behind a frame with the next one. *)
Fixpoint put_bytes (m : pmem) (f i : Z) (l : list Z) : res pmem :=
  match l with
  | [] => Ok m
  | b :: l' => m ← put_byte m (f + i / PGSIZE) (i mod PGSIZE) b; put_bytes m f (i + 1) l'
  end.

Fixpoint put_words (m : pmem) (f i : Z) (ws : list Z) : res pmem :=
  match ws with
  | [] => Ok m
  | w :: ws' => m ← set_word m (f + i / NPTEENTRY) (i mod NPTEENTRY) w; put_words m f (i + 1) ws'
  end.

(** The kernel's address of a frame. *)
Definition kernel_address (f : Z) : Z := u64 (page2pa f + PHYSICAL_MEMORY_OFFSET).

Definition reg_gp : Z := 3.
Definition reg_a1 : Z := 11.

(** The trap frame with which a program starts. *)
Definition user_frame (sp argc argv gp sstatus entry : Z) : list Z :=
  <[Z.to_nat reg_sp := sp]> (<[Z.to_nat reg_a0 := argc]> (<[Z.to_nat reg_a1 := argv]> (<[Z.to_nat reg_gp := gp]>
    (<[Z.to_nat tf_status := Z.ldiff (Z.lor sstatus SSTATUS_SPIE) SSTATUS_SPP]>
      (<[Z.to_nat tf_epc := entry]> (replicate (Z.to_nat TRAPFRAME_WORDS) 0)))))).

(** [do_execve] returns, or the process has ended. *)
Inductive exec_result : Type := Returned (r : Z) | Exited.

Section Exec.
Context {D : Type} `{!Device D} (c : sched_class) (alloc : alloc_pages_t) (free : free_pages_t) (npage boot : Z).
#[local] Notation machine := (sys (files_heap (D := D))).
#[local] Notation U := (user D).
Implicit Types s : machine.

(** [buf] is the buffer of 4096 bytes that [kmalloc] gives to the functions of sysfile.c and
    to [copy_kargv], [heap] the address of what [load_icode] itself reads into, [local] that
    of [local_name]; [kmem0] is what is in memory there, [o] the outcomes of [kmalloc] for
    areas, and [sstatus] the register. *)
Context (buf heap local : Z) (kmem0 : memory) (o : outcomes) (sstatus : Z).

Definition on_ram {A} (f : pmem -> res (pmem * A)) : M machine A := fun s => '(m, a) ← f (ram s); Ok (with_ram s m, inr a).
Definition on_spaces {A} (f : vmm -> res (vmm * A)) : M machine A := fun s => '(v, a) ← f (spaces s); Ok (with_spaces s v, inr a).
Definition on_sys {A} (f : machine -> res (machine * A)) : M machine A := fun s => '(s, a) ← f s; Ok (s, inr a).
Definition do_sys (f : machine -> res machine) : M machine unit := on_sys (fun s => s ← f s; Ok (s, tt)).

(** A call of sysfile.c with the address of a buffer of the kernel, and what is then in it. *)
Definition on_buffer {A} (dst : Z) (old : list Z) (f : option Z -> M U A) : M machine (list Z * A) := fun s =>
  '(a, t) ← running_table s;
  cur ← running s;
  '(u, r) ← (x ← f (ProcStruct.mm cur); b ← on_memory (fun m => b ← load_bytes m dst (length old); Ok (m, b)); mret (b, x))
    (mk_user (set_filesp t (fh_kernel (opened s))) (spaces s) (map_seqZ dst old ∪ kmem0));
  Ok (with_spaces (put_table s a (u_k u)) (u_v u), r).

Definition sysfile_close_fd (fd : Z) : M machine unit := _ ← attempt (on_table (file_close fd)); mret tt.

(** What is in the buffer afterwards, and the result. *)
Definition load_icode_read (fd dst : Z) (old : list Z) (offset : Z) : M machine (list Z * Z) :=
  r ← attempt (on_table (file_seek fd (i64 offset) LSEEK_SET));
  match r with
  | inl e => mret (old, - e)
  | inr _ =>
      let len := Z.of_nat (length old) in
      '(b, ret) ← on_buffer dst old (fun mm => sysfile_read mm buf fd dst len);
      mret (b, if u64 ret =? len then 0 else if ret <? 0 then ret else -1)
  end.

(** A read that has to succeed; what was in the buffer before does not matter then. *)
Definition read_all (fd len offset : Z) : M machine (list Z) :=
  '(b, ret) ← load_icode_read fd heap (replicate (Z.to_nat len) 0) offset;
  if negb (ret =? 0) then fail (- ret) else mret b.

(** * The global pointer *)
Fixpoint scan_sections (fd : Z) (shdrs : list Z) (idx : list Z) : M machine Z :=
  match idx with
  | [] => mret 0
  | i :: idx' =>
      sh ← lift (shdr_at shdrs i);
      if negb (sh_type sh =? SHT_SYMTAB) || negb (sh_entsize sh =? SIZEOF_SYM) then scan_sections fd shdrs idx'
      else
        str_sh ← lift (shdr_at shdrs (sh_link sh));
        ok ← on_table k_malloc;
        ok ← (if (ok : bool) then on_table k_malloc else mret false);
        if negb ok then fail E_NO_MEM
        else
          syms ← read_all fd (sh_size sh) (sh_offset sh);
          strtab ← read_all fd (sh_size str_sh) (sh_offset str_sh);
          gp ← lift (find_gp (map_seqZ 0 strtab ∪ map_seqZ gp_literal gp_name) syms (Z.to_nat (sh_size sh / SIZEOF_SYM)));
          if negb (gp =? 0) then mret gp else scan_sections fd shdrs idx'
  end.

Definition load_gp (fd : Z) (elf : elfhdr) : M machine Z :=
  if negb (e_shoff elf =? 0) && negb (e_shnum elf =? 0) && (e_shentsize elf =? SIZEOF_SHDR) then
    ok ← on_table k_malloc;
    if negb ok then fail E_NO_MEM
    else
      shdrs ← read_all fd (e_shnum elf * SIZEOF_SHDR) (e_shoff elf);
      scan_sections fd shdrs (seqZ 0 (e_shnum elf))
  else mret 0.

(** * Segments *)
Definition seg_vm_flags (ph : proghdr) : Z :=
  let has b := negb (Z.land (p_flags ph) b =? 0) in
  Z.lor (Z.lor (if has ELF_PF_X then VM_EXEC else 0) (if has ELF_PF_W then VM_WRITE else 0)) (if has ELF_PF_R then VM_READ else 0).

Definition seg_perm (ph : proghdr) : Z :=
  let has b := negb (Z.land (p_flags ph) b =? 0) in
  Z.lor (Z.lor (Z.lor PTE_U (if has ELF_PF_X then Z.lor PTE_X PTE_R else 0)) (if has ELF_PF_W then Z.lor PTE_W PTE_R else 0)) (if has ELF_PF_R then PTE_R else 0).

(** A new page of zeros at [la]. *)
Definition new_page (mm la perm : Z) : M machine Z :=
  root ← (fun s => d ← pgdir_of (spaces s) mm; Ok (s, inr d));
  page ← on_ram (fun m => pgdir_alloc_page alloc free npage m root la perm);
  match page with
  | None => fail E_NO_MEM
  | Some page =>
      kva ← lift (page2kva npage page);
      _ ← on_ram (fun m => m ← clear_frame m kva; Ok (m, tt));
      mret kva
  end.

(** The part of a page that comes from the file. *)
Definition page_copy (la file_end : Z) : Z :=
  let size := file_end - la in let copy := PGSIZE - PGOFF la in if size <? copy then size else copy.

(** One turn of the loop over the pages of a segment. *)
Definition page_turn (fd mm : Z) (ph : proghdr) (la : Z) : M machine (Z + unit) :=
  let file_end := u64 (p_va ph + p_filesz ph) in
  let mem_end := u64 (p_va ph + p_memsz ph) in
  if la <? mem_end then
    kva ← new_page mm la (seg_perm ph);
    _ ← (if la <? file_end then
           let off := la - p_va ph in
           '(b, ret) ← load_icode_read fd (kernel_address kva + PGOFF la) (replicate (Z.to_nat (page_copy la file_end)) 0) (u64 (p_offset ph + off));
           _ ← on_ram (fun m => m ← put_bytes m kva (PGOFF la) b; Ok (m, tt));
           if negb (ret =? 0) then fail (- ret) else mret tt
         else mret tt);
    mret (inl (u64 (la + PGSIZE)))
  else mret (inr tt).

Definition load_pages (fd mm : Z) (ph : proghdr) : M machine unit :=
  m_loop (page_turn fd mm ph) (S (S (Z.to_nat (p_memsz ph / PGSIZE)))) (p_va ph).

Definition map_area (mm addr len flags : Z) : M machine unit :=
  r ← on_spaces (fun v => mm_map (ok_vma o addr) v mm addr len flags);
  match r with inl e => fail e | inr _ => mret tt end.

Definition load_segment (fd mm : Z) (ph : proghdr) : M machine unit :=
  if negb (p_type ph =? ELF_PT_LOAD) then mret tt
  else if p_memsz ph <? p_filesz ph then fail E_INVAL
  else if negb (USER_ACCESS (p_va ph) (u64 (p_va ph + p_memsz ph))) then fail E_INVAL
  else
    _ ← map_area mm (p_va ph) (p_memsz ph) (seg_vm_flags ph);
    load_pages fd mm ph.

Fixpoint load_segments (fd mm phoff : Z) (idx : list Z) : M machine unit :=
  match idx with
  | [] => mret tt
  | i :: idx' =>
      b ← read_all fd SIZEOF_PROGHDR (u64 (phoff + i * SIZEOF_PROGHDR));
      _ ← load_segment fd mm (proghdr_of b);
      load_segments fd mm phoff idx'
  end.

(** * The stack and the arguments *)
Fixpoint stack_pages (mm la : Z) (n : nat) : M machine unit :=
  match n with
  | O => mret tt
  | S n' => _ ← new_page mm la (Z.lor (Z.lor PTE_U PTE_R) PTE_W); stack_pages mm (la + PGSIZE) n'
  end.

Definition load_stack (mm : Z) : M machine unit :=
  _ ← map_area mm (USTACKTOP - USTACKSIZE) USTACKSIZE (Z.lor (Z.lor VM_READ VM_WRITE) VM_STACK);
  stack_pages mm (USTACKTOP - USTACKSIZE) (Z.to_nat USTACKPAGE).

(** [memcpy] to the page of [dst]. *)
Definition put_stack (mm dst : Z) (l : list Z) : M machine unit :=
  root ← (fun s => d ← pgdir_of (spaces s) mm; Ok (s, inr d));
  on_ram (fun m =>
    '(m, _, page) ← get_page alloc npage m root dst;
    match page with
    | None => Panic
    | Some page => kva ← page2kva npage page; m ← put_bytes m kva (PGOFF dst) l; Ok (m, tt)
    end).

(** The strings, the last first. *)
Fixpoint push_strings (mm : Z) (l : list (list Z)) (sp : Z) (uargv : list Z) : M machine (Z * list Z) :=
  match l with
  | [] => mret (sp, uargv)
  | str :: l' =>
      let sp := u64 (sp - (Z.of_nat (length str) + 1)) in
      if sp <? USTACKTOP - USTACKSIZE then fail E_NO_MEM
      else _ ← put_stack mm sp (str ++ [0]); push_strings mm l' sp (sp :: uargv)
  end.

Fixpoint push_words (mm dst : Z) (l : list Z) : M machine unit :=
  match l with [] => mret tt | w :: l' => _ ← put_stack mm dst (le_bytes 8 w); push_words mm (dst + 8) l' end.

(** The stack pointer and [argv] of the program. *)
Definition load_args (mm argc : Z) (kargv : list (list Z)) : M machine (Z * Z) :=
  '(sp, uargv) ← push_strings mm (reverse kargv) USTACKTOP [];
  let sp := Z.land (ROUNDDOWN sp 8) (Z.lnot 0xF) in
  let argv_user := u64 (sp - (argc + 1) * 8) in
  _ ← push_words mm argv_user uargv;
  _ ← put_stack mm (argv_user + argc * 8) (le_bytes 8 0);
  let sp := u64 (argv_user - 4) in
  _ ← put_stack mm sp (le_bytes 4 argc);
  mret (Z.land (u64 (sp - 0x80)) (Z.lnot 0xF), argv_user).

(** * The process gets its memory *)
Definition set_trapframe (tf : Z) (ws : list Z) (m : pmem) : res pmem :=
  let pa := u64 (tf - PHYSICAL_MEMORY_OFFSET) in put_words m (PPN pa - nbase) (PGOFF pa / 8) ws.

Definition enter (mm sp argc argv_user gp entry : Z) s : res machine :=
  v ← set_mm_count (spaces s) mm 1;
  root ← pgdir_of v mm;
  let cur := current (pk (tab s)) in
  t ← put (tab s) cur (set_mm (Some mm));
  t ← put t cur (set_pgdir (page2pa root));
  x ← deref (ctxs s) cur;
  m ← set_trapframe (ctx_tf x) (user_frame sp argc argv_user gp sstatus entry) (ram s);
  Ok (with_ram (with_tab (with_spaces s v) t) m).

Definition load_image (fd argc : Z) (kargv : list (list Z)) (mm : Z) (elf : elfhdr) : M machine (Z * Z) :=
  _ ← load_segments fd mm (e_phoff elf) (seqZ 0 (e_phnum elf));
  _ ← load_stack mm;
  load_args mm argc kargv.

(** The labels [bad_cleanup_mmap], [bad_mm] and [fail_close_fd] are the three [on_error]s,
    the last with the end of the function; [ret] is still 0 when the magic number is wrong. *)
Definition bad_cleanup_mmap (mm : Z) : M machine unit :=
  do_sys (fun s => m ← exit_mmap alloc free npage (spaces s) (ram s) mm; put_pgdir free (with_ram s m) mm).

Definition bad_mm (mm : Z) : M machine unit := on_spaces (fun v => v ← mm_destroy v mm; Ok (v, tt)).

Definition load_icode_body (fd argc : Z) (kargv : list (list Z)) : M machine unit :=
  b ← read_all fd SIZEOF_ELFHDR 0;
  let elf := elfhdr_of b in
  if negb (e_magic elf =? ELF_MAGIC) then fail 0
  else
    mm ← on_spaces (fun v => Ok (mm_create (ok_mm o) v));
    match mm with
    | None => fail E_NO_MEM
    | Some mm =>
        '(sp, argv_user, gp) ← on_error
          (r ← on_sys (fun s => setup_pgdir alloc npage boot s mm);
           if negb (r =? 0) then fail (- r)
           else
             gp ← load_gp fd elf;
             '(sp, argv_user) ← on_error (load_image fd argc kargv mm elf) (bad_cleanup_mmap mm);
             mret (sp, argv_user, gp))
          (bad_mm mm);
        do_sys (enter mm sp argc argv_user gp (e_entry elf))
    end.

Definition load_icode (fd argc : Z) (kargv : list (list Z)) : M machine Z :=
  r ← attempt (load_icode_body fd argc kargv);
  _ ← sysfile_close_fd fd;
  mret (match r with inl e => - e | inr _ => 0 end).

(** * do_execve *)

(** One argument after the other; [n] are left. *)
Fixpoint kargv_loop (mm : option Z) (argv : Z) (n : nat) : M U (list (list Z)) :=
  match n with
  | O => mret []
  | S n' =>
      ok ← on_kernel k_malloc;
      if negb ok then fail E_NO_MEM
      else
        a ← on_memory (fun m => b ← load_bytes m argv 8; Ok (m, le_value b));
        ok ← on_user (fun v m => copy_string v m mm buf a (EXEC_MAX_ARG_LEN + 1));
        if negb ok then fail E_INVAL
        else
          b ← on_memory (fun m => b ← load_bytes m buf (Z.to_nat (EXEC_MAX_ARG_LEN + 1)); Ok (m, b));
          l ← kargv_loop mm (argv + 8) n';
          mret (c_string b :: l)
  end.

Definition copy_kargv (mm : option Z) (argc argv : Z) : M U (list (list Z)) :=
  ok ← on_user (fun v m => '(v, ok) ← user_mem_check v mm argv (8 * argc) false; Ok (v, m, ok));
  if negb ok then fail E_INVAL else kargv_loop mm argv (Z.to_nat argc).

(** The new name of the process, the arguments and [argv[0]]. *)
Definition exec_args (pid name argc argv : Z) (mm : option Z) : M U (list Z * list (list Z) * Z) :=
  local_name ←
    (if name =? 0 then '(l, _) ← lift (snprintf (Some (replicate (Z.to_nat (PROC_NAME_LEN + 1)) 0)) (PROC_NAME_LEN + 1) (c_text "<null> %d") [va_word pid]); mret l
     else
       _ ← on_memory (fun m => m ← store_bytes m local (replicate (Z.to_nat (PROC_NAME_LEN + 1)) 0); Ok (m, tt));
       ok ← on_user (fun v m => copy_string v m mm local name (PROC_NAME_LEN + 1));
       if negb ok then fail E_INVAL else on_memory (fun m => b ← load_bytes m local (Z.to_nat (PROC_NAME_LEN + 1)); Ok (m, b)));
  kargv ← copy_kargv mm argc argv;
  path ← on_memory (fun m => b ← load_bytes m argv 8; Ok (m, le_value b));
  mret (local_name, kargv, path).

Definition leave_space : M machine unit := do_sys (fun s =>
  cur ← running s;
  match ProcStruct.mm cur with
  | None => Ok s
  | Some mm =>
      s ← put_mm alloc free npage s mm;
      t ← put (tab s) (current (pk (tab s))) (set_mm None);
      Ok (with_tab s t)
  end).

Definition execve_exit (ret : Z) : M machine exec_result := _ ← do_sys (do_exit c alloc free npage ret); mret Exited.

Definition do_execve (name argc argv : Z) : M machine exec_result :=
  if negb ((1 <=? argc) && (argc <=? EXEC_MAX_ARG_NUM)) then fail E_INVAL
  else
    cur ← (fun s => cur ← running s; Ok (s, inr cur));
    '(local_name, kargv, path) ← on_space kmem0 (exec_args (pid cur) name argc argv);
    _ ← attempt (on_table files_closeall);
    fd ← on_space kmem0 (fun mm => sysfile_open mm buf path O_RDONLY);
    if fd <? 0 then execve_exit fd
    else
      _ ← leave_space;
      ret ← load_icode fd argc kargv;
      if negb (ret =? 0) then execve_exit ret
      else
        _ ← do_sys (fun s => t ← Process.set_proc_name (tab s) (current (pk (tab s))) local_name; Ok (with_tab s t));
        mret (Returned 0).

(** [sys_exec] of lab8/kern/syscall/syscall.c. *)
Definition sys_exec (arg : nat -> Z) : M machine exec_result := do_execve (arg 0%nat) (i32 (arg 1%nat)) (arg 2%nat).
End Exec.
