(* ===== verification/ExecLoad.v ===== *)
(** Loading a segment of a program ([load_icode] of lab8/kern/process/proc.c): what
    [load_icode_read] reads - the bytes of the file, for a process that has no memory of its
    own yet, into a buffer of the kernel -, the pages that the loop makes, and what the
    program finds in them. *)
From S2P Require Import Prelude Lists Page Blocks FreeArea ProcStruct SchedClass Sched CString Layout StateM Iobuf Disk0 SfsIo SfsBmap SfsFile SfsTrunc SfsNode Vfs FileTable Process Vmm PageTable PageRange PageCopy PageFresh SysFile SysFileSpec SysFileRead Memory Fork ForkFiles Phys Machine MachineRead Exec.

Section ExecRead.
Context {D : Type} `{!Device D} `{!DeviceLaws D} (buf : Z) (kmem0 : memory).
#[local] Notation K := (Vfs.kernel D).
#[local] Notation machine := (sys (files_heap (D := D))).
Implicit Types (s : machine) (k : K).

(** * Seeking inside a file *)
Lemma vop_tryseek_inside k a n sin p :
  w_nodes (k_world k) !! a = Some n -> inode_check n = true -> in_ops n = sfs_node_fileops -> info n = sfs_info sin ->
  0 <= p < SFS_MAX_FILE_SIZE -> p <= d_size (din sin) -> vop_tryseek a p k = Ok (k, inr tt).
Proof.
  intros Ha Hc Ho Hi Hp Hsz. unfold vop_tryseek, dispatch. rewrite (bind_ok _ _ _ k n).
  2: { erewrite on_world_ok by (apply vop_op_ok; [exact Ha|by rewrite Ho|done]). by destruct k. }
  rewrite Ho. change (is_devops sfs_node_fileops) with false. cbv iota. rewrite (on_world_ok _ _ (k_world k) (inr tt)); [by destruct k|].
  rewrite (with_sin_ok a _ (k_world k) n sin (w_fs (k_world k)) sin (inr tt) Ha Hi).
  - rewrite insert_id; [by destruct (k_world k)|]. rewrite Ha. f_equal. destruct n; cbn in *. by rewrite Hi.
  - unfold sfs_tryseek. rewrite (proj2 (Z.ltb_ge p 0)), (proj2 (Z.leb_gt _ p)) by lia. cbn [orb]. rewrite (bind_ok _ _ _ (w_fs (k_world k), sin) (din sin)) by done. by rewrite (proj2 (Z.ltb_ge _ p)) by lia.
Qed.

Lemma file_seek_run k i f a n sin p v m :
  open_file (mk_user k v m) i f a n sin 0 -> 0 <= p < SFS_MAX_FILE_SIZE -> p <= d_size (din sin) ->
  file_seek (Z.of_nat i) p LSEEK_SET k = Ok (put_fd i (set_pos p f) k, inr tt).
Proof.
  intros [Hk Hf Hs _ Hn Ha Hops Hinfo _ _ _ _ _] Hp Hsz. cbn [u_k] in *. pose proof Hk as (Hc & _ & He).
  destruct (He _ _ Hf) as [_ [[? _]|(_ & H1 & b & nb & Hnb & Hab & Hcheck & _)]]; [congruence|].
  assert (b = a) as -> by congruence. assert (nb = n) as -> by congruence. pose proof (lookup_lt_Some _ _ _ Hf) as Hi.
  set (f2 := set_count 2 f). set (k1 := put_fd i f2 k). set (f3 := set_pos p f2). set (k2 := put_fd i f3 k1).
  unfold file_seek, acquired. rewrite (bind_ok _ _ _ _ _ (fd2file_open k i f Hk Hf Hs)). rewrite (bind_ok _ _ _ k1 tt).
  2: { apply with_file_ok with (f := f); [done|done|]. unfold fd_array_acquire.
       rewrite (bind_ok _ _ _ k tt) by (apply assert_true; unfold is_status; by rewrite Hs). by rewrite H1. }
  rewrite (bind_ok _ _ _ k1 a) by (unfold the_node; by rewrite Hn).
  rewrite (bind_ok _ _ _ k2 (inr tt)).
  2: { apply attempt_eq. change (LSEEK_SET =? LSEEK_SET) with true. cbv iota. rewrite (bind_ok _ _ _ k1 p) by done.
       rewrite (bind_ok _ _ _ k1 tt) by (by eapply vop_tryseek_inside).
       apply with_file_ok with (f := f2); [done|by apply list_lookup_insert_eq|done]. }
  rewrite (bind_ok _ _ _ (put_fd i (set_pos p f) k2) tt); [unfold k2, k1; by rewrite !put_fd_twice|].
  apply with_file_ok with (f := f3); [done|unfold k2, k1; rewrite put_fd_twice; by apply list_lookup_insert_eq|]. unfold fd_array_release.
  rewrite (bind_ok _ _ _ k2 tt) by (apply assert_true; unfold is_status; cbn; by rewrite Hs).
  rewrite (bind_ok _ _ _ k2 tt) by (by apply assert_true). unfold f3, f2, set_count, set_pos. cbn. by rewrite H1.
Qed.

(** * The file of the running process *)

(** What a close of the file needs: either something else holds its inode open, or this is
    the last reference, and the inode is as it is on the disk or can be written there. *)
Definition closes (fs : sfs_fs D) (n : inode) (sin : sfs_inode) : Prop :=
  1 < open_count n \/
  open_count n = 1 /\ ref_count n = 1 /\ fs_sem fs = 1 /\ reclaim_count sin = 1 /\ d_nlinks (din sin) <> 0 /\ din_ok (din sin) /\ inuse fs (ino sin) /\
  (dirty sin = false -> on_disk fs sin).

Lemma closes_step fs n sin fs' : closes fs n sin -> fs_step fs (disk_of fs) (is_free fs) fs' -> closes fs' n sin.
Proof.
  intros [Ho|(H1 & H2 & H3 & H4 & H5 & H6 & Hu & Hd)] Hst; [by left|]. right. pose proof Hst as (_ & (_ & Hb & _ & Hsem & _) & Hdisk & Hfree).
  do 2 (split; [done|]). split; [congruence|]. do 3 (split; [done|]). split; [apply (fs_step_inuse _ _ _ _ _ Hst); exact Hu|].
  intros E. unfold on_disk. rewrite Hdisk by (by eapply inuse_pos). by apply Hd.
Qed.

(** The running process has no memory of its own, and the file open under [i]; [k] is the
    kernel of its file system calls, and [kmalloc] succeeds. *)
Record exec_file s (pr : proc_struct) (tb : Z) k (i : nat) (f : file) (a : Z) (n : inode) (sin : sfs_inode) : Prop := ExecFile {
  xf_running : running s = Ok pr;
  xf_mm : ProcStruct.mm pr = None;
  xf_filesp : ProcStruct.filesp pr = Some tb;
  xf_table : exists t, fh_tables (opened s) !! tb = Some t /\ k = set_filesp t (fh_kernel (opened s));
  xf_open : open_file (mk_user k (spaces s) ∅) i f a n sin 0;
  xf_kmem : kmem (w_fs (k_world k)) = [];
  xf_closes : closes (w_fs (k_world k)) n sin
}.

Lemma open_file_same (u u' : user D) i f a n sin len len' : u_k u = u_k u' -> 0 <= len' < 2 ^ 40 -> open_file u i f a n sin len -> open_file u' i f a n sin len'.
Proof. destruct u, u'. cbn. intros <- Hl []. by split. Qed.

Lemma open_file_seek (u : user D) i f a n sin p v m :
  open_file u i f a n sin 0 -> 0 <= p < SFS_MAX_FILE_SIZE -> open_file (mk_user (put_fd i (set_pos p f) (u_k u)) v m) i (set_pos p f) a n sin 0.
Proof.
  intros [Hk Hf Hs Hm Hn Ha Hops Hi Hsem Hfs Hfile Hpos Hl] Hp. pose proof (moved_table i f (u_k u) (p - pos f) (w_fs (k_world (u_k u))) Hk Hf Hs) as Ht.
  unfold moved in Ht. replace (pos f + (p - pos f)) with p in Ht by lia.
  assert (set_world (mk_world (w_fs (k_world (u_k u))) (w_nodes (k_world (u_k u)))) (u_k u) = u_k u) as E by (by destruct (u_k u) as [[] ? ? ? ? ? ? ? ? ?]).
  rewrite E in Ht. split; cbn [u_k]; try done. apply list_lookup_insert_eq. by eapply lookup_lt_Some.
Qed.

Lemma open_file_moved (u : user D) i f a n sin c fs' v m :
  open_file u i f a n sin 0 -> fs_step (w_fs (k_world (u_k u))) (disk_of (w_fs (k_world (u_k u)))) (is_free (w_fs (k_world (u_k u)))) fs' -> 0 <= pos f + c < SFS_MAX_FILE_SIZE ->
  open_file (mk_user (moved i f (u_k u) c fs') v m) i (set_pos (pos f + c) f) a n sin 0 /\ file_data fs' (din sin) = file_data (w_fs (k_world (u_k u))) (din sin).
Proof.
  intros [Hk Hf Hs Hm Hn Ha Hops Hi Hsem Hfs Hfile Hpos Hl] Hst Hp. destruct (file_step_same _ _ _ Hfile Hst) as [Hfile' Hd]. split; [|done].
  split; cbn [u_k]; try done; [by apply moved_table| |exact (fs_step_inv _ _ _ _ Hst)]. apply list_lookup_insert_eq. by eapply lookup_lt_Some.
Qed.

(** * A kernel buffer as the destination *)
Lemma kernel_destination (k : K) v dst old :
  mapped kmem0 buf IOBUF_SIZE -> 0 <= buf < 2 ^ 64 -> let len := Z.of_nat (length old) in
  KERNBASE <= dst -> dst + len <= KERNTOP -> dst + len <= buf \/ buf + IOBUF_SIZE <= dst ->
  destination buf (mk_user k v (map_seqZ dst old ∪ kmem0)) dst len None (fun v' => v' = v).
Proof.
  intros Hb Hbr len Hlo Hhi Hap. assert (KERNTOP < 2 ^ 64) as HT by done. assert (0 < KERNBASE) as HB by done. split; [lia|lia|done| | |].
  - intros x Hx. apply lookup_union_is_Some. left. apply lookup_map_seqZ_is_Some. lia.
  - intros x Hx. apply lookup_union_is_Some. right. by apply Hb.
  - intros s dst' c HI Hd Hc Hle Hm1 Hm2. unfold on_user, copy_to_user, user_mem_check. rewrite u64_small by lia.
    assert (KERN_ACCESS dst' (dst' + c) = true) as -> by (unfold KERN_ACCESS; lia). cbn [mbind res_bind].
    destruct (memcpy_run (u_mem s) dst' buf c ltac:(lia) Hm1 Hm2) as (m1 & E1 & Hm1'); [lia|]. rewrite E1. cbn [mbind res_bind]. by exists (u_v s), m1.
Qed.

Lemma put_table_open s tb (k : K) : opened (put_table s tb k) = FilesHeap k (<[tb := Vfs.filesp k]> (fh_tables (opened s))).
Proof. done. Qed.

Lemma set_filesp_same (k : K) : set_filesp (Vfs.filesp k) k = k.
Proof. by destruct k. Qed.

(** [f] on the table of the running process. *)
Lemma on_table_run {A} s pr tb t (m : M K A) k1 r :
  running s = Ok pr -> ProcStruct.filesp pr = Some tb -> fh_tables (opened s) !! tb = Some t -> m (set_filesp t (fh_kernel (opened s))) = Ok (k1, r) ->
  on_table m s = Ok (put_table s tb k1, r).
Proof.
  intros Hr Hf Ht Hm. unfold on_table, running_table. rewrite Hr. cbn [mbind res_bind]. rewrite Hf, (deref_some _ _ _ Ht). cbn [mbind res_bind]. by rewrite Hm.
Qed.

Lemma exec_file_put s pr tb k i f a n sin k' f' :
  exec_file s pr tb k i f a n sin -> open_file (mk_user k' (spaces s) ∅) i f' a n sin 0 -> kmem (w_fs (k_world k')) = [] -> closes (w_fs (k_world k')) n sin -> exec_file (put_table s tb k') pr tb k' i f' a n sin.
Proof.
  intros [H1 H2 H3 _ _ _ _] Ho Hk Hc. split; try done. exists (Vfs.filesp k'). split; [apply lookup_insert_eq|]. symmetry. apply set_filesp_same.
Qed.

(** [load_icode_read] up to the end of the file: the buffer starts with the bytes of the
    file from [off] on, and the result is 0 if they fill it and -1 if the file is too short. *)
Lemma load_icode_read_run s pr tb k i f a n sin dst old off :
  exec_file s pr tb k i f a n sin -> mapped kmem0 buf IOBUF_SIZE -> 0 <= buf < 2 ^ 64 ->
  let len := Z.of_nat (length old) in let d := din sin in let total := readable_bytes d off len in
  len < 2 ^ 31 -> KERNBASE <= dst -> dst + len <= KERNTOP -> dst + len <= buf \/ buf + IOBUF_SIZE <= dst -> 0 <= off <= d_size d ->
  exists b k' fs', load_icode_read buf kmem0 (Z.of_nat i) dst old off s = Ok (put_table s tb k', inr (b, if total =? len then 0 else -1)) /\
    length b = length old /\ (forall j, (j < Z.to_nat total)%nat -> b !! j = file_data (w_fs (k_world k)) d !! (Z.to_nat off + j)%nat) /\
    exec_file (put_table s tb k') pr tb k' i (set_pos (off + total) f) a n sin /\
    file_data (w_fs (k_world k')) d = file_data (w_fs (k_world k)) d /\
    k' = moved i (set_pos off f) (put_fd i (set_pos off f) k) total fs' /\ fs_step (w_fs (k_world k)) (disk_of (w_fs (k_world k))) (is_free (w_fs (k_world k))) fs'.
Proof.
  intros Hx Hb Hbr len d total Hlen Hlo Hhi Hap Hoff. pose proof Hx as [Hr Hmm Hfp (t & Ht & Hk) Ho Hkm Hcl].
  pose proof (total_bounds _ _ _ _ _ _ _ Ho) as (_ & _ & Hmax). fold d in Hmax.
  set (f1 := set_pos off f). set (k1 := put_fd i f1 k). set (s1 := put_table s tb k1).
  unfold load_icode_read. rewrite (bind_ok _ _ _ s1 (inr tt)).
  2: { apply attempt_eq. rewrite i64_small by (unfold SFS_MAX_FILE_SIZE in Hmax; lia). eapply on_table_run; [done|done|done|]. rewrite <- Hk. eapply file_seek_run; [exact Ho|lia|fold d; lia]. }
  fold len. pose proof (open_file_seek _ _ _ _ _ _ off (spaces s) (map_seqZ dst old ∪ kmem0) Ho ltac:(lia)) as Ho1. cbn [u_k] in Ho1. fold f1 k1 in Ho1.
  assert (Hlen0 : 0 <= len) by (unfold len; lia). set (u1 := mk_user k1 (spaces s) (map_seqZ dst old ∪ kmem0)) in *.
  destruct (sysfile_read_to buf u1 i f1 a n sin dst len None (fun v' => v' = spaces s)) as (u2 & fs' & E2 & Hin & Hout & HI & Hk2 & Hst); [|by apply kernel_destination|done|exact Hkm|].
  { eapply open_file_same; [reflexivity| |exact Ho1]. lia. }
  change (pos f1) with off in E2, Hin, Hout, Hk2. fold d total in E2, Hin, Hout, Hk2. cbn [u_k u1] in Hk2, Hst, Hin.
  assert (Htot : 0 <= total <= len) by (unfold total, readable_bytes; lia). assert (Htd : off + total <= d_size d) by (unfold total, readable_bytes; lia).
  assert (Hmap2 : mapped (u_mem u2) dst (Z.of_nat (length old))).
  { intros x Hx2. destruct (decide (dst <= x < dst + total)) as [Hd|Hd].
    - rewrite Hin by done. apply lookup_lt_is_Some_2. pose proof (data_bound u1 i f1 a n sin 0 Ho1) as Hdl. cbn [u_k u1] in Hdl. fold d in Hdl. change (pos f1) with off. lia.
    - rewrite Hout by lia. apply lookup_union_is_Some. left. apply lookup_map_seqZ_is_Some. lia. }
  destruct (load_bytes_run (u_mem u2) (length old) dst Hmap2) as (b & Eb & Hbl & Hbj).
  destruct (open_file_moved u1 i f1 a n sin total fs' (spaces s) ∅ Ho1 Hst) as [Ho2 Hd2]; [change (pos f1) with off; lia|]. change (pos f1) with off in Ho2. change (u_k u1) with k1 in Ho2, Hd2. rewrite <- Hk2 in Ho2.
  exists b, (u_k u2), fs'. split; [|split; [done|split; [|split; [|split; [by rewrite Hk2|split; [done|exact Hst]]]]]].
  - rewrite (bind_ok _ _ _ (put_table s tb (u_k u2)) (b, total)).
    2: { unfold on_buffer, running_table. change (running s1) with (running s). rewrite Hr. cbn [mbind res_bind]. rewrite Hfp. unfold s1. rewrite put_table_open. cbn [fh_tables fh_kernel].
         rewrite (deref_some _ _ (Vfs.filesp k1)) by apply lookup_insert_eq. cbn [mbind res_bind]. rewrite Hmm, set_filesp_same. change (spaces (put_table s tb k1)) with (spaces s). fold u1. fold len.
         pose proof (bind_ok (sysfile_read None buf (Z.of_nat i) dst len) (fun x => b ← on_memory (fun m => b ← load_bytes m dst (length old); Ok (m, b)); mret (b, x)) _ _ _ E2) as ->.
         rewrite (bind_ok _ _ _ u2 b); [|unfold on_memory, on_user; rewrite Eb; cbn; by destruct u2]. cbn [mret M_ret mbind res_bind]. rewrite HI. unfold put_table, with_opened, with_spaces. cbn. by rewrite insert_insert_eq. }
    unfold u64. rewrite Z.mod_small by lia. destruct (Z.eqb_spec total len); [done|]. by rewrite (proj2 (Z.ltb_ge total 0)) by lia.
  - intros j Hj. rewrite <- Hbj by lia. rewrite Hin by lia. f_equal. change (pos f1) with off. lia.
  - eapply exec_file_put; [exact Hx|exact Ho2| |rewrite Hk2; exact (closes_step _ _ _ _ Hcl Hst)]. rewrite Hk2. change (kmem fs' = []). destruct Hst as (_ & Hss & _). unfold same_static in Hss. destruct_and!. etrans; [eassumption|exact Hkm].
Qed.
End ExecRead.

(** * Bytes in a frame *)
Lemma put_bytes_run l : forall m f i, frame_ok m f -> 0 <= i -> i + Z.of_nat (length l) <= PGSIZE -> Forall is_byte l ->
  exists m', put_bytes m f i l = Ok m' /\ area m' = area m /\ (forall g, frame_ok m g -> frame_ok m' g) /\ (forall g, g <> f -> frames m' !! g = frames m !! g) /\
    forall j, 0 <= j < 4096 -> phys_byte m' f j = if decide (i <= j < i + Z.of_nat (length l)) then l !! Z.to_nat (j - i) else phys_byte m f j.
Proof.
  assert (PGSIZE = 4096) as HP by done. induction l as [|b l IH]; intros m f i Hf Hi Hlen Hb; cbn [put_bytes length] in *.
  - exists m. split; [done|]. split; [done|]. split; [done|]. split; [done|]. intros j _. by rewrite decide_False by lia.
  - apply Forall_cons in Hb as [Hb Hbl]. rewrite Z.div_small, Z.mod_small, Z.add_0_r by lia.
    destruct (put_byte_run m f i b Hf) as (m1 & -> & Ha1 & Hok1 & Hfr1 & Hb1); [lia|exact Hb|]. cbn [mbind res_bind].
    destruct (IH m1 f (i + 1)) as (m2 & -> & Ha2 & Hok2 & Hfr2 & Hb2); [by apply Hok1|lia|lia|done|]. exists m2. split; [done|]. split; [congruence|]. split; [intros g Hg; by apply Hok2, Hok1|].
    split; [intros g Hg; by rewrite Hfr2, Hfr1|]. intros j Hj. rewrite Hb2 by done. destruct (decide (j = i)) as [->|Hne].
    + rewrite decide_False, decide_True by lia. rewrite Hb1, decide_True by done. by rewrite Z.sub_diag.
    + rewrite Hb1 by done. rewrite (decide_False (P := f = f /\ j = i)) by (by intros [_ ?]). destruct (decide (i + 1 <= j < i + 1 + Z.of_nat (length l))).
      * rewrite decide_True by lia. replace (Z.to_nat (j - i)) with (S (Z.to_nat (j - (i + 1)))) by lia. done.
      * by rewrite decide_False by lia.
Qed.

Lemma zero_frame m f : (forall j, entry m f j = if decide (0 <= j < 512) then Some 0 else None) -> forall i, 0 <= i < 4096 -> phys_byte m f i = Some 0.
Proof.
  intros He i Hi. unfold phys_byte. rewrite He, decide_True by (split; [apply Z.div_pos; lia|apply Z.div_lt_upper_bound; lia]). cbn. unfold get_byte. by rewrite Z.div_0_l by (apply Z.pow_nonzero; pose proof (Z.mod_pos_bound i 8); lia).
Qed.

Lemma page_offset x : PGOFF x = x mod 4096.
Proof. unfold PGOFF. change 0xFFF with (Z.ones 12). by rewrite Z.land_ones. Qed.

Lemma user_page x y : 0 <= x < USERTOP -> 0 <= y < USERTOP -> vpn x = vpn y <-> x / 4096 = y / 4096.
Proof. intros Hx Hy. unfold USERTOP in *. rewrite !vpn_user by lia. done. Qed.

(** * The pages of a segment *)
Definition seg_pages (ph : proghdr) : Z := (p_memsz ph + 4095) / 4096.

(** The first page of the segment, and where in it the segment begins; the turns of the loop
    are at this offset in their pages. *)
Definition seg_skew (ph : proghdr) : Z := p_va ph mod 4096.
Definition seg_base (ph : proghdr) : Z := p_va ph - seg_skew ph.

(** What the program finds at an address of the pages: a byte of the file [data], and behind
    those and before the offset in the page zeros. *)
Definition seg_byte (data : list Z) (ph : proghdr) (x : Z) : option Z :=
  if (seg_skew ph <=? x mod 4096) && (x <? p_va ph + p_filesz ph) then data !! Z.to_nat (p_offset ph + (x - p_va ph)) else Some 0.

(** In the first page, and everywhere when the segment begins on a page boundary, that is the
    segment of the file. *)
Lemma seg_byte_right data ph x : p_va ph <= x -> seg_skew ph = 0 \/ x < seg_base ph + 4096 ->
  seg_byte data ph x = if x <? p_va ph + p_filesz ph then data !! Z.to_nat (p_offset ph + (x - p_va ph)) else Some 0.
Proof.
  intros Hx Hs. unfold seg_byte, seg_base, seg_skew in *. rewrite (proj2 (Z.leb_le _ (x mod 4096))); [done|].
  pose proof (Z.mod_pos_bound x 4096 ltac:(lia)). destruct Hs as [->|Hs]; [lia|].
  pose proof (Z.div_mod (p_va ph) 4096 ltac:(lia)). pose proof (Z.mod_pos_bound (p_va ph) 4096 ltac:(lia)).
  assert (x / 4096 = p_va ph / 4096) as E by (symmetry; apply (Z.div_unique _ _ _ (x - 4096 * (p_va ph / 4096))); lia).
  pose proof (Z.div_mod x 4096 ltac:(lia)). lia.
Qed.

(** A segment inside a file of [size] bytes and in user space. *)
Record seg_ok (size : Z) (ph : proghdr) : Prop := SegOk {
  so_sizes : 0 <= p_filesz ph <= p_memsz ph;
  so_access : USER_ACCESS (p_va ph) (p_va ph + p_memsz ph) = true;
  so_offset : 0 <= p_offset ph;
  so_inside : p_offset ph + p_filesz ph <= size
}.

Lemma seg_range size ph :
  seg_ok size ph -> 0 < seg_base ph /\ 0 < p_memsz ph /\ p_memsz ph <= seg_pages ph * 4096 < p_memsz ph + 4096 /\ seg_base ph + seg_pages ph * 4096 <= USERTOP /\ p_va ph + p_memsz ph < 2 ^ 64.
Proof.
  intros [Hs Hu _ _]. unfold USER_ACCESS in Hu. assert (USERBASE = 512 * 4096) by done. assert (USERTOP = 524288 * 4096) as HT by done. unfold seg_pages, seg_base, seg_skew.
  pose proof (Z.div_mod (p_memsz ph + 4095) 4096 ltac:(lia)). pose proof (Z.mod_pos_bound (p_memsz ph + 4095) 4096 ltac:(lia)). pose proof (Z.div_mod (p_va ph) 4096 ltac:(lia)). pose proof (Z.mod_pos_bound (p_va ph) 4096 ltac:(lia)). lia.
Qed.

Lemma seg_base_range ph : p_va ph = seg_base ph + seg_skew ph /\ 0 <= seg_skew ph < 4096 /\ seg_base ph mod 4096 = 0.
Proof.
  unfold seg_base, seg_skew. pose proof (Z.mod_pos_bound (p_va ph) 4096 ltac:(lia)). split; [lia|]. split; [lia|].
  rewrite Zminus_mod_idemp_r, Z.sub_diag. done.
Qed.

Lemma seg_perm_range ph : 0 <= seg_perm ph < 2 ^ 10.
Proof. unfold seg_perm. destruct (negb _), (negb _), (negb _); by vm_compute. Qed.

Section Pages.
Context `{PageAllocator alloc free} (npg : Z) (Hnpg : npg + 1 < 2 ^ 32).
Abbreviation npage := (npg + nbase).
Context (P : Z -> Prop) (m0 : pmem) (bl0 : list Blocks.block) (root va perm : Z) (byte_at : Z -> option Z).

(** [h] pages from [va] on have been made; each of their addresses has its byte. *)
Record pages_loaded (h : Z) (m : pmem) (bl : list Blocks.block) : Prop := PagesLoaded {
  pl_mem : mem_ok npg m bl;
  pl_tree : pt_ok npg m root;
  pl_owns : owns m bl root;
  pl_spare : spare P m bl;
  pl_pages x : va <= x < va + h * 4096 -> exists p, vm_pte m root x = pte_create (page2ppn p) (Z.lor PTE_V perm) /\ 0 <= p < npg /\
    owned m bl p /\ ~ is_table m root p /\ ~ owned m0 bl0 p /\ phys_byte m p (PGOFF x) = byte_at x;
  pl_once x y : va <= x < va + h * 4096 -> va <= y < va + h * 4096 -> vm_pte m root x = vm_pte m root y -> vpn x = vpn y;
  pl_rest x : 0 <= x < USERTOP -> ~ va <= x < va + h * 4096 -> vm_pte m root x = vm_pte m0 root x;
  pl_keep f : owned m0 bl0 f -> owned m bl f /\ (~ is_table m0 root f -> ~ is_table m root f /\ frames m !! f = frames m0 !! f);
  pl_kernel : kernel_same m0 m root;
  pl_memory : total bl0 <= total bl + 3 * h
}.

Lemma pages_loaded_none : mem_ok npg m0 bl0 -> pt_ok npg m0 root -> owns m0 bl0 root -> spare P m0 bl0 -> pages_loaded 0 m0 bl0.
Proof. intros. split; try done; lia. Qed.

(** Writing to a new page changes nothing but its bytes. *)
Lemma mapped_new_write m bl la p m1 bl1 m2 :
  mapped_new npg P m bl root la perm p m1 bl1 -> area m2 = area m1 -> (forall g, frame_ok m1 g -> frame_ok m2 g) -> (forall g, g <> p -> frames m2 !! g = frames m1 !! g) ->
  mapped_new npg P m bl root la perm p m2 bl1.
Proof.
  intros [Hm Ht Ho Hs (HP & Hp & Hop & Hpt & Hpn) Hpte Hk Hkn Hmem] Ha Hok Hfr.
  destruct (tree_same npg m1 m2 root) as (His & Hpte2 & Ht2 & _); [intros f Hf; apply Hfr; by intros ->|].
  assert (Hown : forall f, owned m1 bl1 f -> owned m2 bl1 f) by (intros f; unfold owned; by rewrite Ha). split.
  - split; [rewrite Ha; apply Hm|]. intros f Hf. by apply Hok, Hm.
  - by apply Ht2.
  - intros f Hf%His. by apply Hown, Ho.
  - intros i Hi. rewrite Ha. by apply Hs.
  - split; [done|]. split; [done|]. split; [by apply Hown|]. split; [by rewrite His|done].
  - intros la'. by rewrite Hpte2.
  - intros f Hf. destruct (Hk f Hf) as [Hf1 Hkf]. split; [by apply Hown|]. intros Hn. destruct (Hkf Hn) as [Hn1 <-]. split; [by rewrite His|]. apply Hfr. by intros ->.
  - intros j Hj. rewrite <- Hkn by done. apply entry_frames, Hfr. intros ->. apply Hpt. constructor.
  - done.
Qed.

(** One page more. *)
Lemma pages_loaded_next h m bl la p m' bl' :
  0 <= perm < 2 ^ 10 -> vpn la = vpn (va + h * 4096) -> 0 <= va -> va mod 4096 = 0 -> 0 <= h -> va + (h + 1) * 4096 <= USERTOP ->
  pages_loaded h m bl -> mapped_new npg P m bl root la perm p m' bl' ->
  (forall x, va + h * 4096 <= x < va + (h + 1) * 4096 -> phys_byte m' p (PGOFF x) = byte_at x) -> pages_loaded (h + 1) m' bl'.
Proof.
  intros Hperm Hpn Hva Hal Hh Htop [H1 H2 H3 H4 Hpg Honce Hrest Hkeep Hkn Hmem] [G1 G2 G3 G4 (HP & Hp & Hop & Hpt & Hpnew) Gpte Gk Gkn Gmem] Hb. rewrite Hpn in Gpte.
  assert (Hdiv : forall x, 0 <= x < USERTOP -> vpn x = vpn (va + h * 4096) <-> va + h * 4096 <= x < va + (h + 1) * 4096).
  { intros x Hx. rewrite user_page by lia. pose proof (Z.div_mod va 4096 ltac:(lia)). rewrite Hal in *. pose proof (Z.div_mod x 4096 ltac:(lia)). pose proof (Z.mod_pos_bound x 4096 ltac:(lia)). rewrite Z.div_add by lia. lia. }
  split; try done.
  - intros x Hx. destruct (Z.lt_ge_cases x (va + h * 4096)) as [Hlt|Hge].
    + destruct (Hpg x ltac:(lia)) as (q & Hq1 & Hq2 & Hq3 & Hq4 & Hq5 & Hq6). destruct (Gk q Hq3) as [Hq7 Hq8]. destruct (Hq8 Hq4) as [Hq9 Hq10]. exists q.
      rewrite Gpte, decide_False by (rewrite Hdiv by lia; lia). split; [done|]. split; [done|]. split; [done|]. split; [done|]. split; [done|]. by rewrite (phys_byte_frames m).
    + exists p. rewrite Gpte, decide_True by (rewrite Hdiv by lia; lia). split; [done|]. split; [done|]. split; [done|]. split; [done|]. split; [|apply Hb; lia]. intros Hf. by destruct (Hkeep p Hf).
  - intros x y Hx Hy. rewrite !Gpte. assert (Hnew : forall z, va <= z < va + h * 4096 -> vm_pte m root z <> pte_create (page2ppn p) (Z.lor PTE_V perm)).
    { intros z Hz E. destruct (Hpg z Hz) as (q & Hq1 & Hq2 & Hq3 & _). rewrite Hq1 in E. apply (f_equal target) in E. rewrite !target_create in E by (first [lia|by apply perm_range]). subst q. done. }
    destruct (decide (vpn x = vpn (va + h * 4096))) as [Ex|Ex], (decide (vpn y = vpn (va + h * 4096))) as [Ey|Ey]; [congruence| | |]; rewrite Hdiv in Ex, Ey by lia; intros E.
    + destruct (Hnew y); [lia|done].
    + destruct (Hnew x); [lia|done].
    + apply Honce; [lia|lia|done].
  - intros x Hx Hno. rewrite Gpte, decide_False by (rewrite Hdiv by lia; lia). apply Hrest; [done|lia].
  - intros f Hf. destruct (Hkeep f Hf) as [Hf1 Hkf]. destruct (Gk f Hf1) as [Hf2 Hkf2]. split; [done|]. intros Hn. destruct (Hkf Hn) as [Hn1 <-]. by apply Hkf2.
  - intros j Hj. by rewrite Gkn, Hkn.
  - lia.
Qed.
End Pages.

(** * The loop *)
Section Load.
Context {D : Type} `{!Device D} `{!DeviceLaws D} `{PageAllocator alloc free} (npg : Z) (Hnpg : npg + 1 < 2 ^ 32) (buf : Z) (kmem0 : memory).
Abbreviation npage := (npg + nbase).
#[local] Notation K := (Vfs.kernel D).
#[local] Notation machine := (sys (files_heap (D := D))).
Implicit Types (s : machine) (k : K).

(** A frame that the kernel can give to a process: its address is one of the kernel, and
    it is not where the buffer of [sysfile_read] lies. *)
Definition load_frame (p : Z) : Prop := 512 <= p < 32768 /\ (kernel_address p + 4096 <= buf \/ buf + 4096 <= kernel_address p).

Definition buffer_ok : Prop := mapped kmem0 buf IOBUF_SIZE /\ 0 <= buf < 2 ^ 64.

Lemma load_frame_address p : load_frame p -> KERNBASE <= kernel_address p /\ kernel_address p + 4096 <= KERNTOP.
Proof.
  intros [Hp _]. unfold kernel_address, page2pa, page2ppn, PHYSICAL_MEMORY_OFFSET. assert (nbase = 2 ^ 19) as -> by done. rewrite Z.shiftl_mul_pow2 by lia.
  unfold KERNBASE, KERNTOP, KMEMSIZE. rewrite u64_small by lia. unfold KERNBASE. lia.
Qed.

Lemma exec_file_ram s m pr tb k i f a n sin : exec_file s pr tb k i f a n sin -> exec_file (with_ram s m) pr tb k i f a n sin.
Proof. intros []. by split. Qed.

(** A page of zeros. *)
Lemma new_page_run s mm root la perm bl :
  pgdir_of (spaces s) mm = Ok root -> mem_ok npg (ram s) bl -> pt_ok npg (ram s) root -> owns (ram s) bl root -> spare load_frame (ram s) bl ->
  PDX1 la < NUDX -> valid (vm_pte (ram s) root la) = false -> 4 <= total bl ->
  exists p m' bl', new_page alloc free npage mm la perm s = Ok (with_ram s m', inr p) /\ mapped_new npg load_frame (ram s) bl root la perm p m' bl' /\
    forall j, 0 <= j < 4096 -> phys_byte m' p j = Some 0.
Proof.
  intros Hroot Hm Ht Ho Hs Hu Hnv Htot. destruct (pgdir_alloc_page_run npg Hnpg load_frame (ram s) bl root la perm Hm Ht Ho Hs Hu Hnv Htot) as (m1 & bl1 & p & E1 & Hnew).
  pose proof (mn_page _ _ _ _ _ _ _ _ _ _ Hnew) as (_ & Hp & _). pose proof (mn_mem _ _ _ _ _ _ _ _ _ _ Hnew) as Hm1.
  destruct (clear_frame_run m1 p) as (m2 & E2 & Ha2 & Hok2 & Hfr2 & Hz2); [by apply Hm1|]. exists p, m2, bl1. split; [|split; [by eapply mapped_new_write|by apply zero_frame]].
  unfold new_page. rewrite (bind_ok _ _ s s root) by (by rewrite Hroot). rewrite (bind_ok _ _ s (with_ram s m1) (Some p)) by (unfold on_ram; by rewrite E1).
  rewrite (bind_ok _ _ _ (with_ram s m1) p) by (unfold lift; by rewrite page2kva_run). rewrite (bind_ok _ _ _ (with_ram s m2) tt) by (unfold on_ram; cbn [ram with_ram]; by rewrite E2). done.
Qed.

Context (s0 : machine) (pr : proc_struct) (tb : Z) (k0 : K) (i : nat) (f0 : file) (a : Z) (n : inode) (sin : sfs_inode) (mm root : Z) (ph : proghdr) (bl0 : list Blocks.block).
Let d := din sin.
Let fs0 := w_fs (k_world k0).
Let data := file_data fs0 d.
Let va := seg_base ph.
Let skew := seg_skew ph.

(** The new address space has room for it. *)
Record room (s : machine) : Prop := Room {
  rm_root : pgdir_of (spaces s) mm = Ok root;
  rm_mem : mem_ok npg (ram s) bl0; rm_tree : pt_ok npg (ram s) root; rm_owns : owns (ram s) bl0 root; rm_spare : spare load_frame (ram s) bl0;
  rm_free x : va <= x < va + seg_pages ph * 4096 -> valid (vm_pte (ram s) root x) = false;
  rm_memory : 3 * seg_pages ph + 1 <= total bl0
}.

Record seg_state (h : Z) (s : machine) (bl : list Blocks.block) : Prop := SegState {
  sg_tab : tab s = tab s0; sg_spaces : spaces s = spaces s0; sg_ctxs : ctxs s = ctxs s0;
  sg_tables b : b <> tb -> fh_tables (opened s) !! b = fh_tables (opened s0) !! b;
  sg_file : exists k q, exec_file s pr tb k i (set_pos q f0) a n sin /\ fs_step fs0 (disk_of fs0) (is_free fs0) (w_fs (k_world k));
  sg_mem : pages_loaded npg load_frame (ram s0) bl0 root va (seg_perm ph) (seg_byte data ph) h (ram s) bl
}.

Hypothesis (Hx : exec_file s0 pr tb k0 i f0 a n sin) (Hseg : seg_ok (d_size d) ph) (Hroom : room s0) (Hbuf : buffer_ok).

Lemma seg_data_length : d_size d <= Z.of_nat (length data).
Proof. exact (data_bound _ _ _ _ _ _ _ (xf_open _ _ _ _ _ _ _ _ _ Hx)). Qed.

Lemma seg_start : seg_state 0 s0 bl0.
Proof.
  split; try done.
  - exists k0, (pos f0). split; [by destruct f0|]. apply fs_step_refl. exact (of_fs _ _ _ _ _ _ _ (xf_open _ _ _ _ _ _ _ _ _ Hx)).
  - apply pages_loaded_none; apply Hroom.
Qed.

(** The part of a page of zeros that comes from the file, read and put there. *)
Lemma fill_run s k q p la copy :
  exec_file s pr tb k i (set_pos q f0) a n sin -> fs_step fs0 (disk_of fs0) (is_free fs0) (w_fs (k_world k)) ->
  frame_ok (ram s) p -> load_frame p -> (forall j, 0 <= j < 4096 -> phys_byte (ram s) p j = Some 0) -> PGOFF la = skew -> 0 < copy <= 4096 - skew ->
  let off := p_offset ph + (la - p_va ph) in 0 <= off -> off + copy <= d_size d ->
  exists b k' m, load_icode_read buf kmem0 (Z.of_nat i) (kernel_address p + PGOFF la) (replicate (Z.to_nat copy) 0) (u64 off) s = Ok (put_table s tb k', inr (b, 0)) /\
    put_bytes (ram s) p (PGOFF la) b = Ok m /\ area m = area (ram s) /\ (forall g, frame_ok (ram s) g -> frame_ok m g) /\ (forall g, g <> p -> frames m !! g = frames (ram s) !! g) /\
    (forall j, 0 <= j < 4096 -> phys_byte m p j = if decide (skew <= j < skew + copy) then data !! Z.to_nat (off + (j - skew)) else Some 0) /\
    exec_file (put_table s tb k') pr tb k' i (set_pos (off + copy) f0) a n sin /\ fs_step fs0 (disk_of fs0) (is_free fs0) (w_fs (k_world k')).
Proof.
  intros Hxf Hst Hfp HPp Hz Hoff0 Hcopy off Hoff Hin. destruct (load_frame_address p HPp) as [Hka1 Hka2]. destruct (seg_base_range ph) as (_ & Hskew & _). fold skew in Hskew.
  pose proof (xf_open _ _ _ _ _ _ _ _ _ Hx) as Ho0. pose proof (of_file _ _ _ _ _ _ _ Ho0) as Hfile. cbn [u_k] in Hfile. fold fs0 in Hfile.
  destruct (file_step_same fs0 _ (din sin) Hfile Hst) as [_ Hdata]. fold d data in Hdata. pose proof (total_bounds _ _ _ _ _ _ _ Ho0) as (_ & _ & Hmax). fold d in Hmax. unfold SFS_MAX_FILE_SIZE in Hmax.
  set (dst := kernel_address p + PGOFF la). set (old := replicate (Z.to_nat copy) 0). assert (Hol : Z.of_nat (length old) = copy) by (unfold old; rewrite length_replicate; lia).
  assert (Hapart : dst + copy <= buf \/ buf + IOBUF_SIZE <= dst) by (destruct HPp as [_ [?|?]]; [left|right; unfold IOBUF_SIZE]; lia).
  destruct (load_icode_read_run buf kmem0 s pr tb k i (set_pos q f0) a n sin dst old off) as (b & k' & fs' & E2 & Hbl & Hbj & Hxf' & Hdata' & Hk' & Hst');
    [done|apply Hbuf|apply Hbuf|rewrite Hol; lia|lia|rewrite Hol; lia|rewrite Hol; exact Hapart|fold d; lia|].
  rewrite Hol in E2, Hbj, Hxf', Hk'. fold d in E2, Hbj, Hdata', Hxf', Hk'. assert (Hblen : Z.of_nat (length b) = copy) by (rewrite Hbl; exact Hol).
  assert (Htotal : readable_bytes d off copy = copy) by (unfold readable_bytes; lia). rewrite Htotal in E2, Hbj, Hxf', Hk'. rewrite Hdata in Hbj. rewrite Z.eqb_refl in E2.
  assert (Hbytes : Forall is_byte b).
  { apply Forall_lookup. intros j y Hj. pose proof (lookup_lt_Some _ _ _ Hj) as Hjl. rewrite Hbj in Hj by lia. pose proof (file_data_bytes fs0 d (of_fs _ _ _ _ _ _ _ Ho0) (proj1 Hfile)) as HF.
    rewrite Forall_forall in HF. apply HF. by eapply list_elem_of_lookup_2. }
  destruct (put_bytes_run b (ram s) p (PGOFF la)) as (m & E3 & Ha & Hok & Hfr & Hb); [done|lia|change PGSIZE with 4096; lia|done|]. rewrite Hoff0, Hblen in Hb.
  exists b, k', m. rewrite (u64_small off) by lia. split; [done|]. split; [done|]. split; [done|]. split; [done|]. split; [done|]. split; [|split; [by destruct f0|]].
  - intros j Hj. rewrite Hb by done. destruct (decide (skew <= j < skew + copy)); [|by apply Hz]. rewrite Hbj by lia. f_equal. lia.
  - destruct Hst as (Q1 & Q2 & Q3 & Q4). eapply fs_step_ext; [eapply fs_step_trans; [by split|]|done|done]. rewrite Hk'. exact Hst'.
Qed.

(** One turn. *)
Lemma page_turn_run h s bl :
  seg_state h s bl -> 0 <= h -> h * 4096 < p_memsz ph ->
  exists s' bl', page_turn alloc free npage buf kmem0 (Z.of_nat i) mm ph (p_va ph + h * 4096) s = Ok (s', inr (inl (p_va ph + (h + 1) * 4096))) /\ seg_state (h + 1) s' bl'.
Proof.
  intros [Htab Hsp Hctx Htables (k & q & Hxf & Hst) Hpl] Hh Hlt. destruct (seg_range _ _ Hseg) as (Hva & Hms & Hpages & Htop & Hend). fold va in Hva, Htop. pose proof (so_sizes _ _ Hseg) as Hsz.
  destruct (seg_base_range ph) as (Hpva & Hskew & Hal). fold va in Hpva, Hal. fold skew in Hpva, Hskew. assert (USERTOP = 2 ^ 31) as HT by done.
  set (base := va + h * 4096) in *. set (la := p_va ph + h * 4096) in *. assert (Hla : la = base + skew) by (unfold la, base; lia). assert (Hbase : base mod 4096 = 0) by (unfold base; by rewrite Z.mod_add by lia).
  assert (h < seg_pages ph) as Hhp by lia. assert (Hin : forall x, base <= x < base + 4096 -> PGOFF x = x - base).
  { intros x Hxr. rewrite page_offset. symmetry. apply (Z.mod_unique_pos _ _ (base / 4096)); [lia|]. pose proof (Z.div_mod base 4096 ltac:(lia)). lia. }
  assert (Hvpn : vpn la = vpn base). { apply user_page; [lia|lia|]. pose proof (Z.div_mod base 4096 ltac:(lia)). rewrite Hla. symmetry. apply (Z.div_unique _ _ _ skew); lia. }
  assert (Hoffla : PGOFF la = skew) by (rewrite Hin by lia; lia).
  pose proof Hpl as [Hm Ht Ho Hs _ _ Hrest _ _ Hmem]. pose proof (rm_memory _ Hroom) as Hroomm.
  destruct (new_page_run s mm root la (seg_perm ph) bl) as (p & m1 & bl1 & E1 & Hnew & Hz1); try done; [rewrite Hsp; apply Hroom|apply user_index; lia| |lia|].
  { rewrite (vm_pte_vpn _ _ la base) by done. rewrite Hrest by (unfold base; lia). apply (rm_free _ Hroom). unfold base. lia. }
  pose proof (mn_page _ _ _ _ _ _ _ _ _ _ Hnew) as (HPp & Hp & _). pose proof (proj2 (mn_mem _ _ _ _ _ _ _ _ _ _ Hnew) p Hp) as Hfp.
  unfold page_turn. rewrite (u64_small (p_va ph + p_memsz ph)), (u64_small (p_va ph + p_filesz ph)) by lia. cbv zeta. rewrite (proj2 (Z.ltb_lt la _)) by (unfold la; lia). rewrite (bind_ok _ _ _ _ _ E1).
  assert (Hfin : forall s', tab s' = tab s -> spaces s' = spaces s -> ctxs s' = ctxs s -> (forall b, b <> tb -> fh_tables (opened s') !! b = fh_tables (opened s) !! b) ->
    (exists k q, exec_file s' pr tb k i (set_pos q f0) a n sin /\ fs_step fs0 (disk_of fs0) (is_free fs0) (w_fs (k_world k))) ->
    mapped_new npg load_frame (ram s) bl root la (seg_perm ph) p (ram s') bl1 ->
    (forall x, base <= x < base + 4096 -> phys_byte (ram s') p (x - base) = if decide (skew <= x - base /\ x < p_va ph + p_filesz ph) then data !! Z.to_nat (p_offset ph + (x - p_va ph)) else Some 0) -> seg_state (h + 1) s' bl1).
  { intros s' T1 T2 T3 T4 T5 T6 T7. split; [congruence|congruence|congruence|intros b Hb; by rewrite T4, Htables|done|].
    eapply (pages_loaded_next npg Hnpg); [apply seg_perm_range|exact Hvpn| |exact Hal| | |exact Hpl|exact T6|]; [lia|lia|lia|]. fold base. intros x Hxr.
    rewrite (Hin x), T7 by lia. unfold seg_byte. fold skew. rewrite <- page_offset, (Hin x) by lia. destruct (decide _), (Z.leb_spec skew (x - base)), (Z.ltb_spec x (p_va ph + p_filesz ph)); (done || lia). }
  assert (Hnext : u64 (la + PGSIZE) = p_va ph + (h + 1) * 4096) by (change PGSIZE with 4096; unfold la; rewrite u64_small by lia; lia).
  destruct (Z.ltb_spec la (p_va ph + p_filesz ph)) as [Hfe|Hfe].
  - set (copy := page_copy la (p_va ph + p_filesz ph)). assert (Hcopy : 0 < copy <= 4096 - skew /\ (copy = 4096 - skew /\ 4096 - skew <= p_va ph + p_filesz ph - la \/ copy = p_va ph + p_filesz ph - la)).
    { unfold copy, page_copy. rewrite Hoffla. change PGSIZE with 4096. destruct (Z.ltb_spec (p_va ph + p_filesz ph - la) (4096 - skew)); lia. }
    pose proof (so_inside _ _ Hseg) as Hins. pose proof (so_offset _ _ Hseg) as Hofs.
    destruct (fill_run (with_ram s m1) k q p la copy) as (b & k' & m2 & E2 & E3 & Ha2 & Hok2 & Hfr2 & Hb2 & Hxf' & Hst'); try done; try lia; [by apply exec_file_ram|].
    set (s2 := put_table (with_ram s m1) tb k') in *. exists (with_ram s2 m2), bl1. split.
    + rewrite (bind_ok _ _ _ (with_ram s2 m2) tt); [by rewrite Hnext|]. rewrite (bind_ok _ _ _ _ _ E2). rewrite (bind_ok _ _ _ (with_ram s2 m2) tt); [done|]. unfold on_ram. change (ram s2) with (ram (with_ram s m1)). by rewrite E3.
    + apply Hfin; try done.
      * intros b' Hb'. cbn. by rewrite lookup_insert_ne.
      * exists k', (p_offset ph + (la - p_va ph) + copy). split; [by apply exec_file_ram|done].
      * by eapply mapped_new_write.
      * intros x Hxr. cbn [ram with_ram]. rewrite Hb2 by lia. destruct (decide (skew <= x - base < skew + copy)), (decide (skew <= x - base /\ x < p_va ph + p_filesz ph)); try lia; [f_equal; lia|done].
  - exists (with_ram s m1), bl1. split; [rewrite (bind_ok _ _ _ (with_ram s m1) tt) by done; by rewrite Hnext|]. apply Hfin; try done.
    + exists k, q. split; [by apply exec_file_ram|done].
    + intros x Hxr. cbn [ram with_ram]. rewrite Hz1 by lia. by rewrite decide_False by lia.
Qed.

(** The loop ends with the last page. *)
Lemma load_loop fuel : forall h s bl, seg_state h s bl -> 0 <= h <= seg_pages ph -> (Z.to_nat (seg_pages ph - h) < fuel)%nat ->
  exists s' bl', m_loop (page_turn alloc free npage buf kmem0 (Z.of_nat i) mm ph) fuel (p_va ph + h * 4096) s = Ok (s', inr tt) /\ seg_state (seg_pages ph) s' bl'.
Proof.
  induction fuel as [|fuel IH]; intros h s bl Hs Hh Hf; [lia|]. destruct (seg_range _ _ Hseg) as (Hva & Hms & Hpages & _ & Hend). destruct (seg_base_range ph) as (Hpva & Hskew & _). destruct (decide (h = seg_pages ph)) as [->|Hne].
  - exists s, bl. split; [|done]. apply m_loop_exit. unfold page_turn. rewrite (u64_small (p_va ph + p_memsz ph)) by lia. by rewrite (proj2 (Z.ltb_ge _ (p_va ph + p_memsz ph))) by lia.
  - destruct (page_turn_run h s bl Hs ltac:(lia) ltac:(lia)) as (s1 & bl1 & E1 & Hs1). rewrite (m_loop_next _ _ _ _ _ _ E1). apply (IH (h + 1) s1 bl1 Hs1); lia.
Qed.

Lemma load_pages_run : exists s' bl', load_pages alloc free npage buf kmem0 (Z.of_nat i) mm ph s0 = Ok (s', inr tt) /\ seg_state (seg_pages ph) s' bl'.
Proof.
  destruct (seg_range _ _ Hseg) as (_ & Hms & Hpages & _). unfold load_pages.
  pose proof (load_loop (S (S (Z.to_nat (p_memsz ph / PGSIZE)))) 0 s0 bl0 seg_start ltac:(lia)) as Hl. rewrite Z.add_0_r in Hl. apply Hl.
  change PGSIZE with 4096. pose proof (Z.div_mod (p_memsz ph) 4096 ltac:(lia)). pose proof (Z.mod_pos_bound (p_memsz ph) 4096 ltac:(lia)). lia.
Qed.
End Load.
