(* ===== verification/ExecImage.v ===== *)
(** The image of a program ([load_icode] of lab8/kern/process/proc.c): every segment that the
    program headers of an ELF file describe is in the new address space. *)
From S2P Require Import Prelude Lists Page Blocks FreeArea ProcStruct SchedClass Sched CString Layout StateM Iobuf Disk0 SfsIo SfsBmap SfsFile SfsNode Vfs FileTable Process Vmm PageTable PageRange PageCopy PageFresh SysFile SysFileSpec SysFileRead Memory Fork ForkFiles Phys Machine MachineRead Exec ExecLoad.

(** The area goes to the end of the last page that the segment reaches. *)
Definition seg_end (ph : proghdr) : Z := (p_va ph + p_memsz ph + 4095) / 4096 * 4096.

Definition seg_area (mm : Z) (ph : proghdr) : vma_struct := Vma (Some mm) (seg_base ph) (seg_end ph) (seg_vm_flags ph).

(** One page of it may be without a frame: the pages made are counted from [p_va] on. *)
Lemma seg_end_range size ph : seg_ok size ph -> seg_base ph + seg_pages ph * 4096 <= seg_end ph <= USERTOP /\ seg_end ph <= seg_base ph + (seg_pages ph + 1) * 4096.
Proof.
  intros Hs. pose proof (so_access _ _ Hs) as Hacc. destruct (seg_base_range ph) as (Hva & Hskew & Hal). unfold USER_ACCESS in Hacc. assert (USERTOP = 524288 * 4096) as HT by done. unfold seg_end, seg_pages.
  pose proof (Z.div_mod (seg_base ph) 4096 ltac:(lia)). Z.to_euclidean_division_equations; lia.
Qed.

Lemma seg_area_range mm size ph :
  seg_ok size ph -> ROUNDDOWN (p_va ph) PGSIZE = vm_start (seg_area mm ph) /\ ROUNDUP (u64 (p_va ph + p_memsz ph)) PGSIZE = vm_end (seg_area mm ph) /\
  USER_ACCESS (vm_start (seg_area mm ph)) (vm_end (seg_area mm ph)) = true.
Proof.
  intros Hs. destruct (seg_range size ph Hs) as (Hva & Hms & Hp & Htop & _). destruct (seg_end_range size ph Hs) as [Hend _]. pose proof (so_access _ _ Hs) as Hacc. cbn [vm_start vm_end seg_area].
  destruct (seg_base_range ph) as (Epva & Hskew & Hal). assert (USERTOP = 2 ^ 31) as HT by done. assert (USERBASE = 512 * 4096) as HB by done. unfold USER_ACCESS in Hacc. change PGSIZE with 4096. unfold ROUNDUP, ROUNDDOWN. rewrite (u64_small (p_va ph + p_memsz ph)), u64_small by lia.
  split; [unfold seg_base, seg_skew; lia|]. split; [|unfold USER_ACCESS; pose proof (Z.div_mod (seg_base ph) 4096); lia].
  unfold seg_end. replace (p_va ph + p_memsz ph + 4096 - 1) with (p_va ph + p_memsz ph + 4095) by lia. pose proof (Z.div_mod (p_va ph + p_memsz ph + 4095) 4096 ltac:(lia)). lia.
Qed.

Lemma seg_area_contains mm ph x : contains (seg_area mm ph) x = true <-> seg_base ph <= x < seg_end ph.
Proof. unfold contains. cbn [vm_start vm_end seg_area]. lia. Qed.

(** The pages of an address space from [lo] to [hi] hold the bytes [g]. *)
Definition shows (m : pmem) (bl : list Blocks.block) (root perm lo hi : Z) (g : Z -> option Z) : Prop :=
  forall x, lo <= x < hi -> exists p, vm_pte m root x = pte_create (page2ppn p) (Z.lor PTE_V perm) /\ 0 <= p < 2 ^ 32 /\ owned m bl p /\ ~ is_table m root p /\ phys_byte m p (PGOFF x) = g x.

Lemma shows_byte m bl root ph lo hi g x : shows m bl root (seg_perm ph) lo hi g -> lo <= x < hi -> user_byte m root x = g x.
Proof.
  intros Hs Hx. destruct (Hs x Hx) as (p & Hp & Hr & _ & _ & Hb). unfold user_byte. rewrite Hp, valid_create, target_create by (first [lia|apply perm_range, seg_perm_range]). exact Hb.
Qed.

(** The pages from [lo] to [hi] under [m'] are frames that nobody used under [m], each in one
    place. *)
Definition apart (m : pmem) (bl : list Blocks.block) (root : Z) (m' : pmem) (lo hi : Z) : Prop :=
  (forall x, lo <= x < hi -> ~ owned m bl (target (vm_pte m' root x))) /\
  forall x y, lo <= x < hi -> lo <= y < hi -> target (vm_pte m' root x) = target (vm_pte m' root y) -> vpn x = vpn y.

Section Image.
Context {D : Type} `{!Device D} `{!DeviceLaws D} `{PageAllocator alloc free} (npg : Z) (Hnpg : npg + 1 < 2 ^ 32) (buf heap : Z) (kmem0 : memory) (o : outcomes).
Abbreviation npage := (npg + nbase).
#[local] Notation K := (Vfs.kernel D).
#[local] Notation machine := (sys (files_heap (D := D))).
Implicit Types (s : machine) (k : K).

(** The address space that a program is loaded into: its areas, its page table, which
    maps nothing outside them, and the memory. *)
Record image_ok s (mm root : Z) (al : list vma_struct) (bl : list Blocks.block) : Prop := ImageOk {
  im_areas : mm_inv (spaces s) mm al;
  im_root : pgdir_of (spaces s) mm = Ok root;
  im_mapped x : 0 <= x < USERTOP -> valid (vm_pte (ram s) root x) = true -> in_areas_at al x;
  im_mem : mem_ok npg (ram s) bl; im_tree : pt_ok npg (ram s) root; im_owns : owns (ram s) bl root; im_spare : spare (load_frame buf) (ram s) bl
}.

(** What stays when pages are added at the addresses [Q]. *)
Record extended (root : Z) (Q : Z -> Prop) s (bl : list Blocks.block) s' (bl' : list Blocks.block) : Prop := Extended {
  ex_rest x : 0 <= x < USERTOP -> ~ Q x -> vm_pte (ram s') root x = vm_pte (ram s) root x;
  ex_keep p : owned (ram s) bl p -> owned (ram s') bl' p /\ (~ is_table (ram s) root p -> ~ is_table (ram s') root p /\ frames (ram s') !! p = frames (ram s) !! p);
  ex_fresh x : 0 <= x < USERTOP -> vm_pte (ram s') root x = vm_pte (ram s) root x \/ ~ owned (ram s) bl (target (vm_pte (ram s') root x));
  ex_kernel : kernel_same (ram s) (ram s') root;
  ex_tab : tab s' = tab s; ex_ctxs : ctxs s' = ctxs s
}.

Lemma extended_same root Q s bl s' : ram s' = ram s -> tab s' = tab s -> ctxs s' = ctxs s -> extended root Q s bl s' bl.
Proof. intros E1 E2 E3. split; unfold kernel_same; rewrite ?E1; try done. by left. Qed.

Lemma extended_trans root (Q Q1 Q2 : Z -> Prop) s bl s1 bl1 s2 bl2 :
  (forall x, Q1 x \/ Q2 x -> Q x) -> extended root Q1 s bl s1 bl1 -> extended root Q2 s1 bl1 s2 bl2 -> extended root Q s bl s2 bl2.
Proof.
  intros HQ [H1 H2 H5 H6 H3 H4] [G1 G2 G5 G6 G3 G4]. split; [| | |intros j Hj; by rewrite G6, H6|congruence|congruence].
  - intros x Hx Hn. rewrite G1, H1; [done|done| |done|]; intros Hq; apply Hn, HQ; [by left|by right].
  - intros p Hp. destruct (H2 p Hp) as [Hp1 Hk1]. destruct (G2 p Hp1) as [Hp2 Hk2]. split; [done|]. intros Hn. destruct (Hk1 Hn) as [Hn1 <-]. by apply Hk2.
  - intros x Hx. destruct (G5 x Hx) as [E|Hn]; [rewrite E; by apply H5|]. right. intros Ho. apply Hn. by destruct (H2 _ Ho).
Qed.

Lemma shows_extended root Q s bl s' bl' perm lo hi g :
  extended root Q s bl s' bl' -> 0 <= lo -> hi <= USERTOP -> (forall x, lo <= x < hi -> ~ Q x) -> shows (ram s) bl root perm lo hi g -> shows (ram s') bl' root perm lo hi g.
Proof.
  intros [Hr Hk _ _ _ _] Hlo Hhi HQ Hs x Hx. destruct (Hs x Hx) as (p & Hp & Hpr & Ho & Ht & Hb). destruct (Hk p Ho) as [Ho' Hk']. destruct (Hk' Ht) as [Ht' Hf].
  exists p. rewrite Hr by (first [lia|by apply HQ]). split; [done|]. split; [done|]. split; [done|]. split; [done|]. by rewrite (phys_byte_frames (ram s)).
Qed.

Lemma exec_file_spaces s v pr tb k i f a n sin : exec_file s pr tb k i f a n sin -> exec_file (with_spaces s v) pr tb k i f a n sin.
Proof. intros [H1 H2 H3 H4 H5 H6 H7]. split; try done. eapply (open_file_same (mk_user k (spaces s) ∅)); [reflexivity|lia|exact H5]. Qed.

(** * Areas and their pages *)

(** A new area that overlaps none: its addresses lead nowhere yet. *)
Lemma map_area_run s mm root al bl new addr len :
  image_ok s mm root al bl -> ROUNDDOWN addr PGSIZE = vm_start new -> ROUNDUP (u64 (addr + len)) PGSIZE = vm_end new -> vm_mm new = Some mm ->
  USER_ACCESS (vm_start new) (vm_end new) = true -> ~ Exists (overlaps new) al -> ok_vma o addr = true ->
  exists v' al', map_area o mm addr len (vm_flags new) s = Ok (with_spaces s v', inr tt) /\ mm_inv v' mm al' /\ (forall b, b ∈ al' <-> b = new \/ b ∈ al) /\
    pgdir_of v' mm = Ok root /\ forall x, 0 <= x < USERTOP -> contains new x = true -> valid (vm_pte (ram s) root x) = false.
Proof.
  intros [Hal Hroot Hmap _ _ _ _] Ers Ere Emm Eacc Hno Hok. unfold USER_ACCESS in Eacc. assert (0 < USERBASE) as HB by done.
  assert (Hmiss : forall x b, b ∈ al -> contains b x = true -> contains new x = true -> False).
  { intros x b Hbin Hc Hc2. apply Hno, Exists_exists. exists b. split; [done|]. unfold contains in *. unfold overlaps. lia. }
  pose proof (mm_map_insert (spaces s) mm al addr len (vm_flags new) Hal) as Hmm. cbv zeta in Hmm. rewrite Ers, Ere in Hmm.
  assert (Vma (Some mm) (vm_start new) (vm_end new) (vm_flags new) = new) as Enew by (rewrite <- Emm; by destruct new). rewrite Enew in Hmm. specialize (Hmm Eacc).
  destruct (decide (Exists (overlaps new) al)) as [|_]; [done|]. destruct Hmm as (v' & vma & al1 & al2 & Emap & -> & _ & Hinv & _ & Hpgd).
  { intros (b & Hbin & Hc)%Exists_exists. apply (Hmiss (vm_start new) b Hbin Hc). unfold contains. lia. }
  exists v', (al1 ++ new :: al2). split; [|split; [done|split; [intros b; rewrite !elem_of_app, elem_of_cons; tauto|split]]].
  - unfold map_area. rewrite (bind_ok _ _ _ (with_spaces s v') (inr vma)); [done|]. unfold on_spaces. by rewrite Hok, Emap.
  - unfold pgdir_of, deref in *. destruct (mms v' !! mm), (mms (spaces s) !! mm); cbn in *; try congruence. by injection Hpgd as ->.
  - intros x Hxu Hc. destruct (valid (vm_pte (ram s) root x)) eqn:Ev; [|done]. destruct (Hmap x Hxu Ev) as (b & Hbin & Hc2). by destruct (Hmiss x b Hbin Hc2).
Qed.

(** The pages of the new area. *)
Lemma pages_image s mm root al bl new perm g h s' bl' al' :
  0 <= perm < 2 ^ 10 -> image_ok s mm root al bl -> mm_inv (spaces s') mm al' -> (forall b, b ∈ al' <-> b = new \/ b ∈ al) -> pgdir_of (spaces s') mm = Ok root -> tab s' = tab s -> ctxs s' = ctxs s ->
  npg + 1 < 2 ^ 32 -> 0 <= h -> vm_start new + h * 4096 <= vm_end new -> pages_loaded npg (load_frame buf) (ram s) bl root (vm_start new) perm g h (ram s') bl' ->
  image_ok s' mm root al' bl' /\ shows (ram s') bl' root perm (vm_start new) (vm_start new + h * 4096) g /\ extended root (fun x => contains new x = true) s bl s' bl' /\
  apart (ram s) bl root (ram s') (vm_start new) (vm_start new + h * 4096).
Proof.
  intros Hperm [_ _ Hmap _ _ _ _] Hinv Hal Hroot Htab Hctx Hn Hh Hend [P1 P2 P3 P4 Ppg Ponce Prest Pkeep Pkn Pmem]. split; [|split; [|split; [|split]]].
  - split; try done. intros x Hxu Hv. destruct (contains new x) eqn:Hd; [exists new; split; [apply Hal; by left|done]|].
    rewrite Prest in Hv by (first [done|unfold contains in Hd; lia]). destruct (Hmap x Hxu Hv) as (b & Hbin & Hc). exists b. split; [apply Hal; by right|done].
  - intros x Hd. destruct (Ppg x ltac:(lia)) as (p & Hp1 & Hp2 & Hp3 & Hp4 & _ & Hp6). exists p. split; [done|]. split; [lia|done].
  - split; [|exact Pkeep| |exact Pkn|done|done].
    + intros x Hxu Hd. apply Prest; [done|]. unfold contains in Hd. lia.
    + intros x Hxu. destruct (decide (vm_start new <= x < vm_start new + h * 4096)) as [Hd|Hd]; [right|left; by apply Prest].
      destruct (Ppg x Hd) as (p & Hp1 & Hp2 & _ & _ & Hp5 & _). by rewrite Hp1, target_create by (first [lia|by apply perm_range]).
  - intros x Hd. destruct (Ppg x ltac:(lia)) as (p & Hp1 & Hp2 & _ & _ & Hp5 & _). rewrite Hp1, target_create by (first [lia|by apply perm_range]). done.
  - intros x y Hx Hy E. destruct (Ppg x ltac:(lia)) as (p & Hp1 & Hp2 & _). destruct (Ppg y ltac:(lia)) as (q & Hq1 & Hq2 & _). apply Ponce; [lia|lia|]. rewrite Hp1, Hq1, !target_create in E by (first [lia|by apply perm_range]). congruence.
Qed.

(** * One segment *)
Lemma load_segment_run s pr tb k i f a n sin mm root al bl ph :
  exec_file s pr tb k i f a n sin -> image_ok s mm root al bl -> buffer_ok buf kmem0 ->
  p_type ph = ELF_PT_LOAD -> seg_ok (d_size (din sin)) ph -> ~ Exists (overlaps (seg_area mm ph)) al -> ok_vma o (p_va ph) = true -> 3 * seg_pages ph + 1 <= total bl ->
  let data := file_data (w_fs (k_world k)) (din sin) in
  exists s' bl' al' k' q, load_segment alloc free npage buf kmem0 o (Z.of_nat i) mm ph s = Ok (s', inr tt) /\
    image_ok s' mm root al' bl' /\ (forall b, b ∈ al' <-> b = seg_area mm ph \/ b ∈ al) /\
    exec_file s' pr tb k' i (set_pos q f) a n sin /\ file_data (w_fs (k_world k')) (din sin) = data /\
    shows (ram s') bl' root (seg_perm ph) (seg_base ph) (seg_base ph + seg_pages ph * 4096) (seg_byte data ph) /\
    extended root (fun x => contains (seg_area mm ph) x = true) s bl s' bl' /\ total bl <= total bl' + 3 * seg_pages ph.
Proof.
  intros Hx Him Hb Hty Hseg Hno Hok Hmem data. destruct (seg_area_range mm _ ph Hseg) as (Ers & Ere & Eacc). destruct (seg_range _ ph Hseg) as (Hva & Hms & Hpg & Htop & Hend). destruct (seg_end_range _ ph Hseg) as [Hsend _].
  destruct (map_area_run s mm root al bl (seg_area mm ph) _ _ Him Ers Ere eq_refl Eacc Hno Hok) as (v' & al' & Emap & Hinv & Hal & Hroot & Hfree).
  set (s1 := with_spaces s v'). assert (Hroom : room npg buf mm root ph bl s1).
  { destruct Him. split; try done. intros x Hxr. apply Hfree; [lia|]. apply seg_area_contains. lia. }
  pose proof (exec_file_spaces s v' _ _ _ _ _ _ _ _ Hx) as Hx1.
  destruct (load_pages_run npg Hnpg buf kmem0 s1 pr tb k i f a n sin mm root ph bl Hx1 Hseg Hroom Hb) as (s' & bl' & Erun & [Htab Hspaces Hctx _ (k' & q & Hxf & Hst) Hpl]).
  change (ram s1) with (ram s) in Hpl. pose proof (pl_memory _ _ _ _ _ _ _ _ _ _ _ Hpl) as Htot.
  destruct (pages_image s mm root al bl (seg_area mm ph) (seg_perm ph) (seg_byte data ph) (seg_pages ph) s' bl' al' (seg_perm_range ph) Him) as (Him' & Hsh & Hext & _); try done; [by rewrite Hspaces|by rewrite Hspaces|lia|exact (proj1 Hsend)|].
  exists s', bl', al', k', q. split; [|split; [done|split; [done|split; [done|split; [|done]]]]].
  - unfold load_segment. rewrite Hty. change (negb (ELF_PT_LOAD =? ELF_PT_LOAD)) with false. cbv iota. rewrite (proj2 (Z.ltb_ge _ _)) by apply Hseg. destruct (seg_base_range ph) as (Hpva & Hskew & _). rewrite (u64_small (p_va ph + p_memsz ph)), (so_access _ _ Hseg) by lia. cbn [negb].
    change (seg_vm_flags ph) with (vm_flags (seg_area mm ph)). by rewrite (bind_ok _ _ _ _ _ Emap).
  - destruct (file_step_same _ _ (din sin) (of_file _ _ _ _ _ _ _ (xf_open _ _ _ _ _ _ _ _ _ Hx)) Hst) as [_ Hd]. exact Hd.
Qed.

(** * The stack *)
Definition stack_area (mm : Z) : vma_struct := Vma (Some mm) (USTACKTOP - USTACKSIZE) USTACKTOP (Z.lor (Z.lor VM_READ VM_WRITE) VM_STACK).
Definition stack_perm : Z := Z.lor (Z.lor PTE_U PTE_R) PTE_W.

Lemma stack_pages_run s0 mm root bl0 n : forall h s bl,
  pgdir_of (spaces s0) mm = Ok root -> pages_loaded npg (load_frame buf) (ram s0) bl0 root (USTACKTOP - USTACKSIZE) stack_perm (fun _ => Some 0) h (ram s) bl ->
  (forall x, USTACKTOP - USTACKSIZE <= x < USTACKTOP -> valid (vm_pte (ram s0) root x) = false) -> s = with_ram s0 (ram s) -> 0 <= h -> h + Z.of_nat n = USTACKPAGE -> 3 * USTACKPAGE + 1 <= total bl0 ->
  exists m' bl', stack_pages alloc free npage mm (USTACKTOP - USTACKSIZE + h * 4096) n s = Ok (with_ram s0 m', inr tt) /\
    pages_loaded npg (load_frame buf) (ram s0) bl0 root (USTACKTOP - USTACKSIZE) stack_perm (fun _ => Some 0) USTACKPAGE m' bl'.
Proof.
  assert (HT : USTACKTOP = 2 ^ 31) by done. assert (HZ : USTACKSIZE = 256 * 4096) by done. assert (HU : USERTOP = 2 ^ 31) by done. assert (HP : USTACKPAGE = 256) by done.
  induction n as [|n IH]; intros h s bl Hroot Hpl Hfree Es Hh Hn Hmem; cbn [stack_pages].
  - exists (ram s), bl. rewrite <- Es. split; [done|]. by replace USTACKPAGE with h by lia.
  - pose proof Hpl as [Hm Ht Ho Hs _ _ Hrest _ _ Htot]. set (la := USTACKTOP - USTACKSIZE + h * 4096) in *.
    destruct (new_page_run npg Hnpg buf s mm root la stack_perm bl) as (p & m1 & bl1 & E1 & Hnew & Hz); try done; [by rewrite Es|apply user_index; lia|rewrite Hrest by lia; apply Hfree; lia|lia|].
    unfold stack_perm in E1. rewrite (bind_ok _ _ _ _ _ E1). replace (la + PGSIZE) with (USTACKTOP - USTACKSIZE + (h + 1) * 4096) by (change PGSIZE with 4096; lia).
    apply (IH (h + 1) (with_ram s m1) bl1 Hroot); try done; [|by rewrite Es|lia|lia].
    eapply (pages_loaded_next npg Hnpg); [done|reflexivity| |done|done| |exact Hpl|exact Hnew|]; [lia|lia|]. intros x Hx. by apply Hz, PGOFF_range.
Qed.

Lemma load_stack_run s mm root al bl :
  image_ok s mm root al bl -> ~ Exists (overlaps (stack_area mm)) al -> ok_vma o (USTACKTOP - USTACKSIZE) = true -> 3 * USTACKPAGE + 1 <= total bl ->
  exists s' bl' al', load_stack alloc free npage o mm s = Ok (s', inr tt) /\ image_ok s' mm root al' bl' /\ (forall b, b ∈ al' <-> b = stack_area mm \/ b ∈ al) /\
    opened s' = opened s /\ shows (ram s') bl' root stack_perm (USTACKTOP - USTACKSIZE) USTACKTOP (fun _ => Some 0) /\
    extended root (fun x => contains (stack_area mm) x = true) s bl s' bl' /\ apart (ram s) bl root (ram s') (USTACKTOP - USTACKSIZE) USTACKTOP.
Proof.
  intros Him Hno Hok Hmem. destruct (map_area_run s mm root al bl (stack_area mm) (USTACKTOP - USTACKSIZE) USTACKSIZE Him eq_refl eq_refl eq_refl eq_refl Hno Hok) as (v' & al' & Emap & Hinv & Hal & Hroot & Hfree).
  set (s1 := with_spaces s v'). pose proof Him as [_ _ _ Hm Ht Ho Hsp].
  destruct (stack_pages_run s1 mm root bl (Z.to_nat USTACKPAGE) 0 s1 bl Hroot) as (m' & bl' & Erun & Hpl); try done; [by apply pages_loaded_none|intros x Hx; apply Hfree; [unfold USTACKTOP, USTACKSIZE, USTACKPAGE, PGSIZE, USERTOP in *; lia|unfold contains, stack_area; cbn; lia]|].
  destruct (pages_image s mm root al bl (stack_area mm) stack_perm (fun _ => Some 0) USTACKPAGE (with_ram s1 m') bl' al' ltac:(done) Him) as (Him' & Hsh & Hext & Hap); try done.
  exists (with_ram s1 m'), bl', al'. split; [|done]. unfold load_stack. change (Z.lor (Z.lor VM_READ VM_WRITE) VM_STACK) with (vm_flags (stack_area mm)). rewrite (bind_ok _ _ _ _ _ Emap). exact Erun.
Qed.

(** * The program headers *)

(** Where [load_icode] reads the headers and tables to: [room] bytes of the kernel. *)
Definition heap_ok (room : Z) : Prop := 4096 <= room < 2 ^ 31 /\ KERNBASE <= heap /\ heap + room <= KERNTOP /\ (heap + room <= buf \/ buf + IOBUF_SIZE <= heap).

Lemma read_all_run room s pr tb k i f a n sin off len :
  exec_file s pr tb k i f a n sin -> buffer_ok buf kmem0 -> heap_ok room -> 0 <= len <= room -> 0 <= off -> off + len <= d_size (din sin) ->
  let data := file_data (w_fs (k_world k)) (din sin) in
  exists k', read_all buf heap kmem0 (Z.of_nat i) len off s = Ok (put_table s tb k', inr (bytes_at data (Z.to_nat off) (Z.to_nat len))) /\
    exec_file (put_table s tb k') pr tb k' i (set_pos (off + len) f) a n sin /\ file_data (w_fs (k_world k')) (din sin) = data.
Proof.
  intros Hx [Hb1 Hb2] (Hh0 & Hh1 & Hh2 & Hh3) Hlen Hoff Hin data. set (old := replicate (Z.to_nat len) 0). assert (Hol : Z.of_nat (length old) = len) by (unfold old; rewrite length_replicate; lia).
  destruct (load_icode_read_run buf kmem0 s pr tb k i f a n sin heap old off Hx Hb1 Hb2) as (b & k' & fs' & E & Hbl & Hbj & Hx' & Hd & _ & _); rewrite ?Hol; try lia.
  rewrite Hol in E, Hbj, Hx'. assert (Htot : readable_bytes (din sin) off len = len) by (unfold readable_bytes; lia). rewrite Htot in E, Hbj, Hx'. rewrite Z.eqb_refl in E.
  pose proof (data_bound _ _ _ _ _ _ _ (xf_open _ _ _ _ _ _ _ _ _ Hx)) as Hdl. cbn [u_k] in Hdl. fold data in Hdl.
  exists k'. split; [|split; [done|exact Hd]]. unfold read_all. fold old. rewrite (bind_ok _ _ _ _ _ E). change (negb (0 =? 0)) with false. cbv iota.
  assert (b = bytes_at data (Z.to_nat off) (Z.to_nat len)) as ->; [|done]. apply list_eq. intros j. destruct (decide (j < Z.to_nat len)%nat) as [Hj|Hj].
  - rewrite Hbj by done. by rewrite bytes_at_lookup.
  - rewrite !lookup_ge_None_2; [done|rewrite bytes_at_length; lia|lia].
Qed.

(** The headers of the segments to be loaded, and that there is room for all of them. *)
Definition phdr (data : list Z) (phoff j : Z) : proghdr := proghdr_of (bytes_at data (Z.to_nat (phoff + j * SIZEOF_PROGHDR)) (Z.to_nat SIZEOF_PROGHDR)).

Definition is_load (ph : proghdr) : Prop := p_type ph = ELF_PT_LOAD.

Fixpoint fits (size mm : Z) (al : list vma_struct) (phs : list proghdr) : Prop :=
  match phs with
  | [] => True
  | ph :: phs' =>
      (is_load ph -> seg_ok size ph /\ ~ Exists (overlaps (seg_area mm ph)) al /\ ok_vma o (p_va ph) = true) /\
      fits size mm (if p_type ph =? ELF_PT_LOAD then seg_area mm ph :: al else al) phs'
  end.

Fixpoint pages_needed (phs : list proghdr) : Z :=
  match phs with [] => 0 | ph :: phs' => (if p_type ph =? ELF_PT_LOAD then seg_pages ph else 0) + pages_needed phs' end.

Lemma fits_ext size mm phs : forall al al', (forall b, b ∈ al' -> b ∈ al) -> fits size mm al phs -> fits size mm al' phs.
Proof.
  induction phs as [|ph phs IH]; intros al al' Hin; cbn [fits]; [done|]. intros [H1 H2]. split.
  - intros Hl. destruct (H1 Hl) as (? & Hn & ?). split; [done|]. split; [|done]. intros (b & Hb & Ho)%Exists_exists. apply Hn, Exists_exists. exists b. split; [by apply Hin|done].
  - eapply IH; [|exact H2]. intros b. destruct (_ =? _); [|apply Hin]. rewrite !elem_of_cons. intros [->|Hb]; [by left|right; by apply Hin].
Qed.

(** No later segment is at an address that already belongs to an area. *)
Lemma fits_apart size mm phs : forall al ph b x, fits size mm al phs -> ph ∈ phs -> is_load ph -> b ∈ al -> contains b x = true -> contains (seg_area mm ph) x = true -> False.
Proof.
  induction phs as [|ph0 phs IH]; intros al ph b x; [by intros _ ?%elem_of_nil|]. cbn [fits]. intros [H1 H2] [->|Hin]%elem_of_cons Hl Hb Hc1 Hc2.
  - destruct (H1 Hl) as (_ & Hn & _). apply Hn, Exists_exists. exists b. split; [done|]. unfold contains in *. unfold overlaps. lia.
  - eapply (IH _ ph b x H2 Hin Hl); [|done|done]. destruct (_ =? _); [by right|done].
Qed.

Lemma fits_elem size mm phs : forall al ph, fits size mm al phs -> ph ∈ phs -> is_load ph -> seg_ok size ph.
Proof.
  induction phs as [|ph0 phs IH]; intros al ph; [by intros _ ?%elem_of_nil|]. cbn [fits]. intros [H1 H2] [->|Hin]%elem_of_cons; [|by eapply IH].
  intros Hl. by destruct (H1 Hl).
Qed.

Lemma pages_needed_pos size mm phs : forall al, fits size mm al phs -> 0 <= pages_needed phs.
Proof.
  induction phs as [|ph phs IH]; intros al; cbn [fits pages_needed]; [lia|]. intros [H1 H2]. specialize (IH _ H2). destruct (Z.eqb_spec (p_type ph) ELF_PT_LOAD) as [E|E]; [|lia].
  destruct (H1 E) as (Hs & _). destruct (seg_range _ _ Hs) as (_ & ? & ? & _). lia.
Qed.

Definition seg_addresses (mm : Z) (phs : list proghdr) (x : Z) : Prop := exists ph, ph ∈ phs /\ is_load ph /\ contains (seg_area mm ph) x = true.

Section Headers.
Context (pr : proc_struct) (tb : Z) (i : nat) (a : Z) (n : inode) (sin : sfs_inode) (mm root phoff : Z) (data : list Z).
Context (room : Z).
Hypothesis (Hb : buffer_ok buf kmem0) (Hh : heap_ok room) (Hphoff : 0 <= phoff).

(** A header that is not to be loaded, or one segment. *)
Lemma load_header_run s k f al bl ph :
  exec_file s pr tb k i f a n sin -> file_data (w_fs (k_world k)) (din sin) = data -> image_ok s mm root al bl ->
  fits (d_size (din sin)) mm al [ph] -> 3 * pages_needed [ph] + 1 <= total bl ->
  exists s' bl' al' k' q, load_segment alloc free npage buf kmem0 o (Z.of_nat i) mm ph s = Ok (s', inr tt) /\
    image_ok s' mm root al' bl' /\ (forall b, b ∈ al' <-> (is_load ph /\ b = seg_area mm ph) \/ b ∈ al) /\
    exec_file s' pr tb k' i (set_pos q f) a n sin /\ file_data (w_fs (k_world k')) (din sin) = data /\
    (is_load ph -> shows (ram s') bl' root (seg_perm ph) (seg_base ph) (seg_base ph + seg_pages ph * 4096) (seg_byte data ph)) /\
    extended root (seg_addresses mm [ph]) s bl s' bl' /\ total bl <= total bl' + 3 * pages_needed [ph].
Proof.
  intros Hx Hd Him [Hfit _] Hmem. cbn [pages_needed] in *. destruct (Z.eqb_spec (p_type ph) ELF_PT_LOAD) as [E|E].
  - destruct (Hfit E) as (Hs & Hno & Hok). destruct (load_segment_run s pr tb k i f a n sin mm root al bl ph Hx Him Hb E Hs Hno Hok ltac:(lia)) as (s' & bl' & al' & k' & q & Erun & Him' & Hal & Hx' & Hd' & Hsh & Hext & Htot).
    rewrite Hd in Hsh, Hd'. exists s', bl', al', k', q. split; [done|]. split; [done|]. split; [intros b; rewrite Hal; unfold is_load; tauto|]. split; [done|]. split; [done|]. split; [done|]. split; [|lia].
    eapply (extended_trans root _ _ (fun _ => False)); [|exact Hext|by apply extended_same]. intros x [Hc|[]]. exists ph. split; [by left|done].
  - exists s, bl, al, k, (pos f). split; [unfold load_segment; by rewrite (proj2 (Z.eqb_neq _ _) E)|]. split; [done|]. split; [unfold is_load; tauto|]. split; [by destruct f|]. split; [done|]. split; [done|]. split; [by apply extended_same|lia].
Qed.

Lemma load_segments_run idx : forall s k f al bl,
  exec_file s pr tb k i f a n sin -> file_data (w_fs (k_world k)) (din sin) = data -> image_ok s mm root al bl ->
  Forall (fun j => 0 <= j /\ phoff + j * SIZEOF_PROGHDR + SIZEOF_PROGHDR <= d_size (din sin)) idx ->
  let phs := phdr data phoff <$> idx in
  fits (d_size (din sin)) mm al phs -> 3 * pages_needed phs + 1 <= total bl ->
  exists s' bl' al' k' q, load_segments alloc free npage buf heap kmem0 o (Z.of_nat i) mm phoff idx s = Ok (s', inr tt) /\
    image_ok s' mm root al' bl' /\ (forall b, b ∈ al' <-> (exists ph, ph ∈ phs /\ is_load ph /\ b = seg_area mm ph) \/ b ∈ al) /\
    exec_file s' pr tb k' i (set_pos q f) a n sin /\ file_data (w_fs (k_world k')) (din sin) = data /\
    (forall ph, ph ∈ phs -> is_load ph -> shows (ram s') bl' root (seg_perm ph) (seg_base ph) (seg_base ph + seg_pages ph * 4096) (seg_byte data ph)) /\
    extended root (seg_addresses mm phs) s bl s' bl' /\ total bl <= total bl' + 3 * pages_needed phs.
Proof.
  induction idx as [|j idx IH]; intros s k f al bl Hx Hd Him Hidx phs Hfit Hmem.
  - exists s, bl, al, k, (pos f). split; [done|]. split; [done|]. split; [intros b; split; [tauto|intros [(? & ?%elem_of_nil & _)|?]; done]|]. split; [by destruct f|]. split; [done|]. split; [by intros ph ?%elem_of_nil|]. split; [by apply extended_same|cbn; lia].
  - apply Forall_cons in Hidx as [[Hj0 Hj] Hidx]. pose proof (total_bounds _ _ _ _ _ _ _ (xf_open _ _ _ _ _ _ _ _ _ Hx)) as (_ & _ & Hmax). unfold SFS_MAX_FILE_SIZE in Hmax.
    assert (HS : SIZEOF_PROGHDR = 56) by done. set (off := phoff + j * SIZEOF_PROGHDR) in *. set (ph := phdr data phoff j). change phs with (ph :: (phdr data phoff <$> idx)) in *.
    destruct (read_all_run room s pr tb k i f a n sin off SIZEOF_PROGHDR Hx Hb Hh) as (k1 & E1 & Hx1 & Hd1); [destruct Hh; lia|unfold off; lia|lia|]. rewrite Hd in E1, Hd1.
    destruct Hfit as [Hf1 Hf2]. cbn [pages_needed] in Hmem. pose proof (pages_needed_pos _ _ _ _ Hf2) as Hpos.
    assert (Him1 : image_ok (put_table s tb k1) mm root al bl) by (by destruct Him).
    destruct (load_header_run (put_table s tb k1) k1 _ al bl ph Hx1 Hd1 Him1) as (s2 & bl2 & al2 & k2 & q2 & E2 & Him2 & Hal2 & Hx2 & Hd2 & Hsh2 & Hext2 & Htot2); [by split|cbn [pages_needed]; lia|]. cbn [pages_needed] in Htot2.
    assert (Hf3 : fits (d_size (din sin)) mm al2 (phdr data phoff <$> idx)).
    { eapply fits_ext; [|exact Hf2]. intros b [[Hl ->]|Hbin]%Hal2; [rewrite (proj2 (Z.eqb_eq _ _) Hl); by left|]. destruct (_ =? _); [by right|done]. }
    destruct (IH s2 k2 _ al2 bl2 Hx2 Hd2 Him2 Hidx Hf3 ltac:(lia)) as (s3 & bl3 & al3 & k3 & q3 & E3 & Him3 & Hal3 & Hx3 & Hd3 & Hsh3 & Hext3 & Htot3).
    exists s3, bl3, al3, k3, q3. split; [|split; [done|split; [|split; [by destruct f|split; [done|split; [|split; [|cbn [pages_needed]; lia]]]]]]].
    + cbn [load_segments]. rewrite u64_small by (unfold off in *; lia). fold off. rewrite (bind_ok _ _ _ _ _ E1). fold (phdr data phoff j). fold ph. by rewrite (bind_ok _ _ _ _ _ E2).
    + intros b. rewrite Hal3, Hal2. setoid_rewrite elem_of_cons. naive_solver.
    + intros ph' [->|Hin]%elem_of_cons Hl; [|by apply Hsh3]. specialize (Hsh2 Hl). destruct (Hf1 Hl) as (Hs & _). destruct (seg_range _ _ Hs) as (? & _ & _ & ? & _). destruct (seg_end_range _ _ Hs) as [? _].
      eapply shows_extended; [exact Hext3|lia|lia| |exact Hsh2]. intros x Hxr (ph' & Hin & Hl' & Hc). eapply (fits_apart _ mm _ al2 ph' (seg_area mm ph) x Hf3 Hin Hl'); [apply Hal2; by left|apply seg_area_contains; lia|done].
    + eapply (extended_trans root _ (seg_addresses mm [ph])); [| |exact Hext3].
      * intros x [(ph' & ->%list_elem_of_singleton & ? & ?)|(ph' & Hin & ? & ?)]; [exists ph; split; [by left|done]|exists ph'; split; [by right|done]].
      * apply (extended_trans root _ (fun _ => False) (seg_addresses mm [ph]) s bl (put_table s tb k1) bl); [by intros x [[]|?]|by apply extended_same|exact Hext2].
Qed.
End Headers.
End Image.
