(* ===== verification/ExecSections.v ===== *)
(** The global pointer of a program ([load_icode] of lab8/kern/process/proc.c, the part that
    reads the section headers and the symbol tables). *)
From S2P Require Import Prelude Lists Page Blocks FreeArea ProcStruct SchedClass Sched CString Layout StateM Iobuf Disk0 SfsIo SfsBmap SfsFile SfsDir SfsNode Vfs FileTable Printf Process Vmm PageTable PageRange PageCopy PageFresh SysFile SysFileSpec SysFileRead Memory Fork ForkFiles Phys Machine MachineRead Exec ExecLoad ExecImage.

(** * The tables of a file *)
Definition has_sections (elf : elfhdr) : bool := negb (e_shoff elf =? 0) && negb (e_shnum elf =? 0) && (e_shentsize elf =? SIZEOF_SHDR).

Definition shdr (data : list Z) (shoff i : Z) : elf64_shdr := shdr_of (bytes_at data (Z.to_nat (shoff + i * SIZEOF_SHDR)) (Z.to_nat SIZEOF_SHDR)).

Definition sections (data : list Z) (elf : elfhdr) : list elf64_shdr := shdr data (e_shoff elf) <$> seqZ 0 (e_shnum elf).

Definition contents (data : list Z) (sh : elf64_shdr) : list Z := bytes_at data (Z.to_nat (sh_offset sh)) (Z.to_nat (sh_size sh)).

Definition is_symtab (sh : elf64_shdr) : Prop := sh_type sh = SHT_SYMTAB /\ sh_entsize sh = SIZEOF_SYM.
#[export] Instance is_symtab_dec sh : Decision (is_symtab sh) := _.

Definition symbols (l : list Z) (n : nat) : list elf64_sym := (fun j => sym_of (bytes_at l (j * Z.to_nat SIZEOF_SYM) (Z.to_nat SIZEOF_SYM))) <$> seq 0 n.

Definition symbol_name (strtab : list Z) (sym : elf64_sym) : list Z := c_string (drop (Z.to_nat (st_name sym)) strtab).

Definition is_gp (strtab : list Z) (sym : elf64_sym) : Prop := symbol_name strtab sym = text "__global_pointer$".
#[export] Instance is_gp_dec strtab sym : Decision (is_gp strtab sym) := decide (symbol_name strtab sym = _).

(** The value of the first symbol with the name, 0 if there is none. *)
Definition gp_value (strtab : list Z) (syms : list elf64_sym) : Z := match list_find (is_gp strtab) syms with Some (_, sym) => st_value sym | None => 0 end.

Definition table_symbols (data : list Z) (sh : elf64_shdr) : list elf64_sym := symbols (contents data sh) (Z.to_nat (sh_size sh / SIZEOF_SYM)).

Definition table_gp (data : list Z) (shs : list elf64_shdr) (sh : elf64_shdr) : Z :=
  match shs !! Z.to_nat (sh_link sh) with Some str => gp_value (contents data str) (table_symbols data sh) | None => 0 end.

(** The global pointer of a program: what the first symbol table says that has one. *)
Definition gp_of_tables (data : list Z) (shs tables : list elf64_shdr) : Z := default 0 (head (filter (fun gp => gp <> 0) (table_gp data shs <$> filter is_symtab tables))).

Definition global_pointer (data : list Z) (elf : elfhdr) : Z := if has_sections elf then gp_of_tables data (sections data elf) (sections data elf) else 0.

(** A section in a file of [size] bytes that the kernel has [room] for. *)
Record section_ok (size room : Z) (sh : elf64_shdr) : Prop := SectionOk {
  sc_offset : 0 <= sh_offset sh; sc_size : 0 <= sh_size sh <= room; sc_inside : sh_offset sh + sh_size sh <= size
}.

(** A symbol table with its string table; every name in it has an end. *)
Record symtab_ok (size room : Z) (data : list Z) (shs : list elf64_shdr) (sh : elf64_shdr) : Prop := SymtabOk {
  sy_section : section_ok size room sh;
  sy_strings : exists str, 0 <= sh_link sh /\ shs !! Z.to_nat (sh_link sh) = Some str /\ section_ok size room str /\
    Forall (fun sym => 0 <= st_name sym /\ 0 ∈ drop (Z.to_nat (st_name sym)) (contents data str)) (table_symbols data sh)
}.

Record sections_ok (size room : Z) (data : list Z) (elf : elfhdr) : Prop := SectionsOk {
  ss_shoff : 0 <= e_shoff elf;
  ss_inside : 0 <= e_shnum elf * SIZEOF_SHDR <= room /\ e_shoff elf + e_shnum elf * SIZEOF_SHDR <= size;
  ss_tables sh : sh ∈ sections data elf -> is_symtab sh -> symtab_ok size room data (sections data elf) sh
}.

(** * One table *)
Lemma bytes_at_inside l off n off' n' : (off' + n' <= n)%nat -> bytes_at (bytes_at l off n) off' n' = bytes_at l (off + off') n'.
Proof.
  intros Hn. apply list_eq. intros j. destruct (decide (j < n')%nat) as [Hj|Hj].
  - rewrite !bytes_at_lookup by lia. f_equal. lia.
  - unfold bytes_at. by rewrite !lookup_take_ge by lia.
Qed.

Lemma shdr_at_run data shoff n i : 0 <= shoff -> shoff + n * SIZEOF_SHDR <= Z.of_nat (length data) -> 0 <= i < n ->
  shdr_at (bytes_at data (Z.to_nat shoff) (Z.to_nat (n * SIZEOF_SHDR))) i = Ok (shdr data shoff i).
Proof.
  intros Ho Hn Hi. assert (SIZEOF_SHDR = 64) as HS by done. unfold shdr_at. rewrite bytes_at_length by lia. rewrite (proj2 (Nat.leb_le _ _)) by lia.
  unfold shdr. rewrite bytes_at_inside by lia. do 3 f_equal. lia.
Qed.

Lemma symbols_S l n : symbols l (S n) = sym_of (take (Z.to_nat SIZEOF_SYM) l) :: symbols (drop (Z.to_nat SIZEOF_SYM) l) n.
Proof.
  unfold symbols. rewrite <- cons_seq, fmap_cons, <- fmap_S_seq, <- list_fmap_compose. f_equal. apply list_fmap_ext. intros _ j _. cbn [compose]. unfold bytes_at. by rewrite drop_drop.
Qed.

(** The literal and the string table are in different places. *)
Lemma gp_names strtab : let names := map_seqZ 0 strtab ∪ map_seqZ gp_literal gp_name in
  cstr names gp_literal (text "__global_pointer$") /\
  forall sym, 0 <= st_name sym -> 0 ∈ drop (Z.to_nat (st_name sym)) strtab -> cstr names (st_name sym) (symbol_name strtab sym).
Proof.
  intros names. split.
  - split; [repeat constructor; discriminate|]. apply stored_lookup. intros i x Hi. apply lookup_union_Some_raw. right. pose proof (lookup_lt_Some _ _ _ Hi) as Hlt. change (length _) with 18%nat in Hlt. unfold gp_literal. split.
    + apply lookup_map_seqZ_None. left. lia.
    + apply lookup_map_seqZ_Some. split; [lia|]. replace (Z.to_nat _) with i by lia. exact Hi.
  - intros sym Hn H0. split; [apply c_string_nonzero|]. apply stored_lookup. intros i x Hi. apply lookup_union_Some_raw. left. destruct (c_string_split _ H0) as [rest Hr].
    apply lookup_map_seqZ_Some. split; [lia|]. replace (Z.to_nat _) with (Z.to_nat (st_name sym) + i)%nat by lia. rewrite <- lookup_drop, Hr. unfold symbol_name in Hi.
    change (c_string ?l ++ 0 :: rest) with (c_string l ++ [0] ++ rest). rewrite app_assoc. by apply lookup_app_l_Some.
Qed.

Lemma find_gp_run strtab n : forall l, Forall (fun sym => 0 <= st_name sym /\ 0 ∈ drop (Z.to_nat (st_name sym)) strtab) (symbols l n) ->
  find_gp (map_seqZ 0 strtab ∪ map_seqZ gp_literal gp_name) l n = Ok (gp_value strtab (symbols l n)).
Proof.
  destruct (gp_names strtab) as [Hlit Hnames]. unfold gp_value. induction n as [|n IH]; intros l; cbn [find_gp]; [done|]. rewrite symbols_S. intros [[Hn H0] Hall]%Forall_cons.
  specialize (Hnames _ Hn H0). rewrite (strcmp_run _ _ _ _ _ Hnames Hlit). cbn [mbind res_bind list_find]. unfold is_gp at 1.
  pose proof (str_compare_eq (symbol_name strtab (sym_of (take (Z.to_nat SIZEOF_SYM) l))) (text "__global_pointer$") (c_string_nonzero _) (proj1 Hlit)) as Heq.
  destruct (decide (symbol_name _ _ = _)) as [E|E]; [by rewrite (proj2 (Z.eqb_eq _ _) (proj2 Heq E))|].
  rewrite (proj2 (Z.eqb_neq _ _)) by (by rewrite Heq). rewrite IH by done. by destruct (list_find _ _) as [[? ?]|].
Qed.

(** * The scan *)
Section Scan.
Context {D : Type} `{!Device D} `{!DeviceLaws D} (buf heap : Z) (kmem0 : memory) (room : Z).
#[local] Notation K := (Vfs.kernel D).
#[local] Notation machine := (sys (files_heap (D := D))).
Implicit Types (s : machine) (k : K).
Context (pr : proc_struct) (tb : Z) (i : nat) (a : Z) (n : inode) (sin : sfs_inode) (data : list Z).
Hypothesis (Hb : buffer_ok buf kmem0) (Hh : heap_ok buf heap room).

(** The file is open at some position and has these bytes. *)
Definition reads s k : Prop := (exists f, exec_file s pr tb k i f a n sin) /\ file_data (w_fs (k_world k)) (din sin) = data.

(** What the scan leaves alone. *)
Record scanned s s' : Prop := Scanned {
  sn_ram : ram s' = ram s; sn_spaces : spaces s' = spaces s; sn_tab : tab s' = tab s; sn_ctxs : ctxs s' = ctxs s
}.

Lemma scanned_put s s' k : scanned s s' -> scanned s (put_table s' tb k).
Proof. by intros []. Qed.

(** [kmalloc] succeeds. *)
Lemma malloc_run s k : reads s k -> exists s', on_table k_malloc s = Ok (s', inr true) /\ scanned s s' /\ reads s' k.
Proof.
  intros [[f Hx] Hd]. pose proof Hx as [Hr Hmm Hf (t & Ht & Hk) Ho Hkm Hc]. exists (put_table s tb k). split; [|split; [done|split; [|done]]].
  - eapply on_table_run; [done|done|done|]. rewrite <- Hk. unfold k_malloc, on_world, on_sfs, zoom, SfsIo.kmalloc. rewrite Hkm. cbn. by destruct k as [[] ? ? ? ? ? ? ? ? ?].
  - exists f. by eapply exec_file_put.
Qed.

Lemma read_run s k off len : reads s k -> 0 <= len <= room -> 0 <= off -> off + len <= d_size (din sin) ->
  exists s' k', read_all buf heap kmem0 (Z.of_nat i) len off s = Ok (s', inr (bytes_at data (Z.to_nat off) (Z.to_nat len))) /\ scanned s s' /\ reads s' k'.
Proof.
  intros [[f Hx] Hd] Hlen Hoff Hin. destruct (read_all_run buf heap kmem0 room s pr tb k i f a n sin off len Hx Hb Hh Hlen Hoff Hin) as (k' & E & Hx' & Hd'). rewrite Hd in E, Hd'.
  exists (put_table s tb k'), k'. split; [done|]. split; [done|]. split; [by eexists|done].
Qed.

Lemma read_section s k sh : reads s k -> section_ok (d_size (din sin)) room sh ->
  exists s' k', read_all buf heap kmem0 (Z.of_nat i) (sh_size sh) (sh_offset sh) s = Ok (s', inr (contents data sh)) /\ scanned s s' /\ reads s' k'.
Proof. intros Hr [H1 H2 H3]. by apply (read_run s k). Qed.

Lemma scanned_trans s1 s2 s3 : scanned s1 s2 -> scanned s2 s3 -> scanned s1 s3.
Proof. intros [] []. split; congruence. Qed.

Lemma scan_sections_run shdrs shs idx : (forall j sh, shs !! Z.to_nat j = Some sh -> 0 <= j -> shdr_at shdrs j = Ok sh) ->
  forall s k tables, reads s k -> Forall2 (fun j sh => 0 <= j /\ shs !! Z.to_nat j = Some sh) idx tables ->
  Forall (fun sh => is_symtab sh -> symtab_ok (d_size (din sin)) room data shs sh) tables ->
  exists s' k', scan_sections buf heap kmem0 (Z.of_nat i) shdrs idx s = Ok (s', inr (gp_of_tables data shs tables)) /\ scanned s s' /\ reads s' k'.
Proof.
  intros Hat. unfold gp_of_tables. induction idx as [|j idx IH]; intros s k tables Hr Hidx Hok.
  - apply Forall2_nil_inv_l in Hidx as ->. exists s, k. split; [done|]. by split.
  - apply Forall2_cons_inv_l in Hidx as (sh & tables' & [Hj Hsh] & Hidx & ->). apply Forall_cons in Hok as [Hsym Hok].
    cbn [scan_sections]. rewrite (bind_ok _ _ _ s sh) by (unfold lift; by rewrite (Hat j sh)). rewrite filter_cons.
    destruct (decide (is_symtab sh)) as [Hs|Hs].
    2: { assert (negb (sh_type sh =? SHT_SYMTAB) || negb (sh_entsize sh =? SIZEOF_SYM) = true) as -> by (unfold is_symtab in Hs; lia). by apply (IH s k). }
    assert (negb (sh_type sh =? SHT_SYMTAB) || negb (sh_entsize sh =? SIZEOF_SYM) = false) as -> by (unfold is_symtab in Hs; lia). cbv iota.
    destruct (Hsym Hs) as [Hsec (str & Hl & Hstr & Hstrok & Hnames)]. rewrite (bind_ok _ _ _ s str) by (unfold lift; by rewrite (Hat _ str)).
    destruct (malloc_run s k Hr) as (s1 & E1 & Hs1 & Hr1). rewrite (bind_ok _ _ _ _ _ E1). destruct (malloc_run s1 k Hr1) as (s2 & E2 & Hs2 & Hr2). cbv iota. rewrite (bind_ok _ _ _ _ _ E2). cbn [negb].
    destruct (read_section s2 k sh Hr2 Hsec) as (s3 & k3 & E3 & Hs3 & Hr3). rewrite (bind_ok _ _ _ _ _ E3).
    destruct (read_section s3 k3 str Hr3 Hstrok) as (s4 & k4 & E4 & Hs4 & Hr4). rewrite (bind_ok _ _ _ _ _ E4).
    assert (find_gp (map_seqZ 0 (contents data str) ∪ map_seqZ gp_literal gp_name) (contents data sh) (Z.to_nat (sh_size sh / SIZEOF_SYM)) = Ok (table_gp data shs sh)) as Eg by (unfold table_gp; rewrite Hstr; by apply find_gp_run).
    rewrite (bind_ok _ _ _ s4 (table_gp data shs sh)) by (unfold lift; by rewrite Eg).
    assert (scanned s s4) as Hs04 by (do 3 (eapply scanned_trans; [eassumption|]); done).
    rewrite fmap_cons, filter_cons. destruct (Z.eqb_spec (table_gp data shs sh) 0) as [E|E]; cbn [negb].
    + rewrite decide_False by (by intros []). destruct (IH s4 k4 tables' Hr4 Hidx Hok) as (s' & k' & E' & Hs' & Hr'). exists s', k'. split; [exact E'|]. split; [by eapply scanned_trans|done].
    + exists s4, k4. rewrite decide_True by done. split; [done|]. by split.
Qed.

(** The whole part: the global pointer of the file. *)
Lemma load_gp_run s k elf : reads s k -> (has_sections elf = true -> sections_ok (d_size (din sin)) room data elf) ->
  exists s' k', load_gp buf heap kmem0 (Z.of_nat i) elf s = Ok (s', inr (global_pointer data elf)) /\ scanned s s' /\ reads s' k'.
Proof.
  intros Hr Hok. unfold load_gp, global_pointer. fold (has_sections elf). destruct (has_sections elf); [|by exists s, k]. destruct (Hok eq_refl) as [Hoff [Hlen Hin] Htab].
  assert (SIZEOF_SHDR = 64) as HS by done. destruct (malloc_run s k Hr) as (s1 & E1 & Hs1 & Hr1). rewrite (bind_ok _ _ _ _ _ E1). cbn [negb].
  destruct (read_run s1 k (e_shoff elf) (e_shnum elf * SIZEOF_SHDR) Hr1 Hlen Hoff Hin) as (s2 & k2 & E2 & Hs2 & Hr2). rewrite (bind_ok _ _ _ _ _ E2).
  assert (Z.to_nat (d_size (din sin)) <= length data)%nat as Hdl.
  { destruct Hr as [[f Hx] Hd]. pose proof (data_bound _ _ _ _ _ _ _ (xf_open _ _ _ _ _ _ _ _ _ Hx)) as Hdl. cbn [u_k] in Hdl. rewrite Hd in Hdl. lia. }
  assert (Hnth : forall j sh, sections data elf !! Z.to_nat j = Some sh -> 0 <= j -> j < e_shnum elf /\ sh = shdr data (e_shoff elf) j).
  { intros j sh Hj H0. unfold sections in Hj. apply list_lookup_fmap_Some in Hj as (y & -> & Hy). apply lookup_seqZ in Hy as [-> Hlt]. split; [lia|]. f_equal. lia. }
  destruct (scan_sections_run (bytes_at data (Z.to_nat (e_shoff elf)) (Z.to_nat (e_shnum elf * SIZEOF_SHDR))) (sections data elf) (seqZ 0 (e_shnum elf))) with (s := s2) (k := k2) (tables := sections data elf) as (s3 & k3 & E3 & Hs3 & Hr3); [|done| | |].
  - intros j sh Hj H0. destruct (Hnth j sh Hj H0) as [Hlt ->]. apply shdr_at_run; lia.
  - apply Forall2_same_length_lookup. split; [unfold sections; by rewrite length_fmap|]. intros j x sh Hx Hsh. apply lookup_seqZ in Hx as [-> Hlt]. split; [lia|]. by replace (Z.to_nat (0 + Z.of_nat j)) with j by lia.
  - apply Forall_forall. exact Htab.
  - exists s3, k3. split; [exact E3|]. split; [do 2 (eapply scanned_trans; [eassumption|]); done|done].
Qed.
End Scan.
