(* ===== verification/ExecProgram.v ===== *)
(** The new program ([load_icode] of lab8/kern/process/proc.c): the strings, the vector [argv]
    and [argc] on the new stack; and its segments, its stack and its arguments are all there
    when [load_image] returns.

    [memcpy] writes to the frame of the first byte and goes on behind its end, so what it
    writes is what the program sees as long as the block stays in one page; the theorem is
    about a block in the last page of the stack. *)
From S2P Require Import Prelude Lists Page Blocks FreeArea ProcStruct SchedClass Sched CString Layout StateM Iobuf Disk0 SfsIo SfsBmap SfsFile SfsNode Vfs FileTable Process Vmm PageTable PageRange PageCopy PageFresh SysFile SysFileSpec SysFileRead Memory Fork ForkFiles Phys Machine MachineRead Exec ExecLoad ExecImage.

(** The last page of the stack. *)
Definition top_base : Z := USTACKTOP - 4096.

(** The bytes [l] from [a] on, as the program sees them. *)
Definition holds_bytes (m : pmem) (root a : Z) (l : list Z) : Prop := forall j b, l !! j = Some b -> user_byte m root (a + Z.of_nat j) = Some b.

(** The bytes that the strings take. *)
Fixpoint string_bytes (l : list (list Z)) : Z := match l with [] => 0 | str :: l' => Z.of_nat (length str) + 1 + string_bytes l' end.

Lemma string_bytes_app l1 l2 : string_bytes (l1 ++ l2) = string_bytes l1 + string_bytes l2.
Proof. induction l1 as [|str l1 IH]; cbn [string_bytes app]; lia. Qed.

Lemma string_bytes_reverse l : string_bytes (reverse l) = string_bytes l.
Proof. induction l as [|str l IH]; [done|]. rewrite reverse_cons, string_bytes_app, IH. cbn [string_bytes]. lia. Qed.

Lemma string_bytes_pos l : 0 <= string_bytes l.
Proof. induction l as [|str l IH]; cbn [string_bytes]; lia. Qed.

Lemma land_lnot_15 a : Z.land a (Z.lnot 0xF) = a - a mod 16.
Proof.
  change (Z.land a (Z.lnot 0xF)) with (Z.land a (Z.lnot (Z.ones 4))). rewrite <- Z.ldiff_land, Z.ldiff_ones_r by lia. rewrite Z.shiftl_mul_pow2, Z.shiftr_div_pow2 by lia.
  change (2 ^ 4) with 16. pose proof (Z.div_mod a 16). lia.
Qed.

Section Args.
Context {D : Type} `{!Device D} `{PageAllocator alloc free} (npg : Z) (Hnpg : npg + 1 < 2 ^ 32) (mm root p : Z).
Abbreviation npage := (npg + nbase).
#[local] Notation machine := (sys (files_heap (D := D))).
Implicit Types (s : machine).

(** The page is mapped, and its frame [p] is no table. *)
Record top_page s : Prop := TopPage {
  tp_root : pgdir_of (spaces s) mm = Ok root;
  tp_frames f : 0 <= f < npg -> frame_ok (ram s) f;
  tp_tree : pt_ok npg (ram s) root;
  tp_pte x : top_base <= x < USTACKTOP -> valid (vm_pte (ram s) root x) = true /\ target (vm_pte (ram s) root x) = p;
  tp_page : 0 <= p < npg /\ ~ is_table (ram s) root p
}.

(** Only the frame [p] has changed, and there only the bytes from [lo] to [hi]. *)
Record stacked s (lo hi : Z) s' : Prop := Stacked {
  st_state : s' = with_ram s (ram s');
  st_top : top_page s';
  st_area : area (ram s') = area (ram s);
  st_frames g : g <> p -> frames (ram s') !! g = frames (ram s) !! g;
  st_bytes x : top_base <= x < USTACKTOP -> ~ lo <= x < hi -> user_byte (ram s') root x = user_byte (ram s) root x
}.

Lemma stacked_refl s lo hi : top_page s -> stacked s lo hi s.
Proof. intros Ht. split; try done. by destruct s. Qed.

Lemma stacked_trans s lo1 hi1 s1 lo2 hi2 s2 lo hi :
  stacked s lo1 hi1 s1 -> stacked s1 lo2 hi2 s2 -> lo <= lo1 -> hi1 <= hi -> lo <= lo2 -> hi2 <= hi -> stacked s lo hi s2.
Proof.
  intros [H1 H2 H3 H4 H5] [G1 G2 G3 G4 G5] ? ? ? ?. split; [rewrite G1, H1; by destruct s|done|congruence|intros g Hg; by rewrite G4, H4|].
  intros x Hx Hn. rewrite G5, H5 by (first [done|lia]). done.
Qed.

Lemma holds_stacked s lo hi s' a l : stacked s lo hi s' -> top_base <= a -> a + Z.of_nat (length l) <= USTACKTOP -> a + Z.of_nat (length l) <= lo \/ hi <= a -> holds_bytes (ram s) root a l -> holds_bytes (ram s') root a l.
Proof. intros Hs Hlo Hhi Hap Hh j b Hj. pose proof (lookup_lt_Some _ _ _ Hj). rewrite (st_bytes _ _ _ _ Hs) by lia. by apply Hh. Qed.

Lemma top_offset x : top_base <= x < USTACKTOP -> PGOFF x = x - top_base.
Proof.
  intros Hx. rewrite page_offset. assert (top_base = 524287 * 4096) as E by done. assert (USTACKTOP = 524288 * 4096) as E2 by done. symmetry. apply (Z.mod_unique_pos _ _ 524287); lia.
Qed.

(** One [memcpy]. *)
Lemma put_stack_run s dst l :
  top_page s -> top_base <= dst -> (0 < length l)%nat -> dst + Z.of_nat (length l) <= USTACKTOP -> Forall is_byte l ->
  exists s', put_stack alloc npage mm dst l s = Ok (s', inr tt) /\ stacked s dst (dst + Z.of_nat (length l)) s' /\ holds_bytes (ram s') root dst l.
Proof.
  intros [Hroot Hfr Ht Hpte [Hp Hnt]] Hlo Hl Hhi Hb. assert (USTACKTOP = top_base + 4096) as HT by done. destruct (Hpte dst ltac:(lia)) as [Hv Htg].
  destruct (get_page_look (alloc := alloc) npg (ram s) root dst p Hfr Ht) as (ptep & Eg); [apply user_index; assert (0 < top_base) by done; assert (USTACKTOP = USERTOP) by done; lia|done|done|done|].
  destruct (put_bytes_run l (ram s) p (PGOFF dst) (Hfr p Hp)) as (m' & Ew & Ha & Hok & Hfr' & Hby); [rewrite top_offset by lia; lia|rewrite top_offset by lia; change PGSIZE with 4096; lia|done|].
  destruct (tree_same npg (ram s) m' root) as (His & Hpte' & Ht' & _); [intros f Hf; apply Hfr'; by intros ->|].
  assert (Hub : forall x, top_base <= x < USTACKTOP -> forall m, vm_pte m root x = vm_pte (ram s) root x -> user_byte m root x = phys_byte m p (x - top_base)).
  { intros x Hx m E. unfold user_byte. rewrite E. destruct (Hpte x Hx) as [-> ->]. by rewrite top_offset. }
  exists (with_ram s m'). split; [|split].
  - unfold put_stack. rewrite (bind_ok _ _ s s root) by (by rewrite Hroot). unfold on_ram. rewrite Eg. cbn [mbind res_bind]. rewrite page2kva_run by done. cbn [mbind res_bind]. by rewrite Ew.
  - split; try done.
    + split; try done; cbn [ram with_ram]; [intros f Hf; by apply Hok, Hfr|by apply Ht'|intros x Hx; rewrite Hpte'; by apply Hpte|by rewrite His].
    + intros x Hx Hn. cbn [ram with_ram]. rewrite !Hub by done. rewrite Hby by lia. rewrite decide_False; [done|]. rewrite (top_offset dst) by lia. lia.
  - intros j b Hj. pose proof (lookup_lt_Some _ _ _ Hj). cbn [ram with_ram]. rewrite Hub by (first [lia|done]). rewrite Hby by lia. rewrite (top_offset dst), decide_True by lia. rewrite <- Hj. f_equal. lia.
Qed.

(** The strings, each below the one before it. *)
Lemma push_strings_run l : forall s sp uargv,
  top_page s -> top_base + string_bytes l <= sp <= USTACKTOP -> Forall (Forall is_byte) l ->
  exists s' ptrs, push_strings alloc npage mm l sp uargv s = Ok (s', inr (sp - string_bytes l, ptrs ++ uargv)) /\ stacked s (sp - string_bytes l) sp s' /\
    Forall2 (fun str ptr => holds_bytes (ram s') root ptr (str ++ [0]) /\ sp - string_bytes l <= ptr /\ ptr + Z.of_nat (length str) + 1 <= sp) (reverse l) ptrs.
Proof.
  assert (HT : top_base = USTACKTOP - 4096) by done. assert (HS : USTACKTOP - USTACKSIZE < top_base /\ 0 < USTACKTOP - USTACKSIZE /\ USTACKTOP < 2 ^ 64) by done.
  induction l as [|str l IH]; intros s sp uargv Htop Hsp Hb; cbn [push_strings string_bytes] in *.
  - exists s, []. rewrite Z.sub_0_r. split; [done|]. split; [by apply stacked_refl|]. constructor.
  - apply Forall_cons in Hb as [Hb Hbl]. pose proof (string_bytes_pos l) as Hpos. set (len := Z.of_nat (length str) + 1) in *. rewrite u64_small by lia. rewrite (proj2 (Z.ltb_ge _ _)) by lia.
    assert (Hlen : Z.of_nat (length (str ++ [0])) = len) by (rewrite length_app; cbn [length]; lia).
    destruct (put_stack_run s (sp - len) (str ++ [0]) Htop) as (s1 & E1 & Hs1 & Hh1); [lia|lia|lia|apply Forall_app; split; [done|by apply Forall_singleton]|]. rewrite Hlen in Hs1. rewrite (bind_ok _ _ _ _ _ E1).
    destruct (IH s1 (sp - len) (sp - len :: uargv) (st_top _ _ _ _ Hs1)) as (s2 & ptrs & E2 & Hs2 & Hall); [lia|done|]. exists s2, (ptrs ++ [sp - len]). split; [|split].
    + rewrite E2, <- app_assoc. cbn [app]. do 4 f_equal. lia.
    + eapply stacked_trans; [exact Hs1|exact Hs2|lia|lia|lia|lia].
    + rewrite reverse_cons. apply Forall2_app.
      * eapply Forall2_impl; [exact Hall|]. cbn. intros st pt (? & ? & ?). split; [done|]. lia.
      * constructor; [|constructor]. split; [|lia]. eapply holds_stacked; [exact Hs2|lia|lia|right; lia|exact Hh1].
Qed.

(** The vector. *)
Lemma push_words_run l : forall s dst,
  top_page s -> top_base <= dst -> dst + 8 * Z.of_nat (length l) <= USTACKTOP ->
  exists s', push_words alloc npage mm dst l s = Ok (s', inr tt) /\ stacked s dst (dst + 8 * Z.of_nat (length l)) s' /\
    forall j w, l !! j = Some w -> holds_bytes (ram s') root (dst + 8 * Z.of_nat j) (le_bytes 8 w).
Proof.
  induction l as [|w l IH]; intros s dst Htop Hlo Hhi; cbn [push_words length] in *; [exists s; split; [done|]; split; [by apply stacked_refl|done]|].
  destruct (put_stack_run s dst (le_bytes 8 w) Htop) as (s1 & E1 & Hs1 & Hh1); rewrite ?le_bytes_length; [lia|lia|lia|apply le_bytes_byte|]. rewrite le_bytes_length in Hs1. rewrite (bind_ok _ _ _ _ _ E1).
  destruct (IH s1 (dst + 8) (st_top _ _ _ _ Hs1)) as (s2 & E2 & Hs2 & Hall); [lia|lia|]. exists s2. split; [done|]. split; [eapply stacked_trans; [exact Hs1|exact Hs2|lia|lia|lia|lia]|].
  intros [|j] w' Hj.
  - injection Hj as <-. replace (dst + 8 * Z.of_nat 0) with dst by lia. eapply holds_stacked; [exact Hs2|lia|rewrite le_bytes_length; lia|rewrite le_bytes_length; left; lia|exact Hh1].
  - replace (dst + 8 * Z.of_nat (S j)) with (dst + 8 + 8 * Z.of_nat j) by lia. by apply Hall.
Qed.

(** What a program finds at its start. *)
Record arguments (m : pmem) (kargv : list (list Z)) (sp argv : Z) : Prop := Arguments {
  ar_aligned : sp mod 16 = 0;
  ar_below : top_base <= sp /\ sp <= argv - 4 - 0x80;
  ar_range : argv + 8 * (Z.of_nat (length kargv) + 1) <= USTACKTOP;
  ar_argc : holds_bytes m root (argv - 4) (le_bytes 4 (Z.of_nat (length kargv)));
  ar_null : holds_bytes m root (argv + 8 * Z.of_nat (length kargv)) (le_bytes 8 0);
  ar_argv j str : kargv !! j = Some str -> exists ptr, holds_bytes m root (argv + 8 * Z.of_nat j) (le_bytes 8 ptr) /\ holds_bytes m root ptr (str ++ [0]) /\ argv < ptr /\ ptr + Z.of_nat (length str) + 1 <= USTACKTOP
}.

Lemma load_args_run s kargv :
  top_page s -> Forall (Forall is_byte) kargv -> string_bytes kargv + 8 * Z.of_nat (length kargv) + 200 <= 4096 ->
  exists s' sp argv, load_args alloc npage mm (Z.of_nat (length kargv)) kargv s = Ok (s', inr (sp, argv)) /\ stacked s sp USTACKTOP s' /\ arguments (ram s') kargv sp argv.
Proof.
  intros Htop Hb Hsize. set (argc := Z.of_nat (length kargv)) in *. assert (HT : USTACKTOP = top_base + 4096) by done. assert (HB : 0 < top_base /\ top_base < 2 ^ 32) by done. pose proof (string_bytes_pos kargv) as Hpos.
  destruct (push_strings_run (reverse kargv) s USTACKTOP [] Htop) as (s1 & uargv & E1 & Hs1 & Hall); [rewrite string_bytes_reverse; lia|by apply Forall_reverse|]. rewrite string_bytes_reverse in E1, Hs1, Hall. rewrite reverse_involutive in Hall. rewrite app_nil_r in E1.
  set (sp1 := USTACKTOP - string_bytes kargv) in *. assert (Esp1 : sp1 = USTACKTOP - string_bytes kargv) by done. clearbody sp1. set (sp2 := Z.land (ROUNDDOWN sp1 8) (Z.lnot 0xF)).
  assert (Hsp2 : sp1 - 22 <= sp2 <= sp1).
  { unfold sp2, ROUNDDOWN. rewrite land_lnot_15. pose proof (Z.mod_pos_bound sp1 8 ltac:(lia)). pose proof (Z.mod_pos_bound (sp1 - sp1 mod 8) 16 ltac:(lia)). lia. }
  assert (Hlen : Z.of_nat (length uargv) = argc) by (unfold argc; by rewrite (Forall2_length _ _ _ Hall)). set (argv := sp2 - (argc + 1) * 8). assert (Hargc : 0 <= argc) by (unfold argc; lia).
  destruct (push_words_run uargv s1 argv (st_top _ _ _ _ Hs1)) as (s2 & E2 & Hs2 & Hw); [unfold argv; lia|unfold argv; lia|]. rewrite Hlen in Hs2.
  destruct (put_stack_run s2 (argv + argc * 8) (le_bytes 8 0) (st_top _ _ _ _ Hs2)) as (s3 & E3 & Hs3 & Hh3); rewrite ?le_bytes_length; [unfold argv; lia|lia|unfold argv; lia|apply le_bytes_byte|]. rewrite le_bytes_length in Hs3.
  destruct (put_stack_run s3 (argv - 4) (le_bytes 4 argc) (st_top _ _ _ _ Hs3)) as (s4 & E4 & Hs4 & Hh4); rewrite ?le_bytes_length; [unfold argv; lia|lia|unfold argv; lia|apply le_bytes_byte|]. rewrite le_bytes_length in Hs4.
  set (sp := Z.land (argv - 4 - 0x80) (Z.lnot 0xF)). assert (Hsp : argv - 4 - 0x80 - 15 <= sp <= argv - 4 - 0x80) by (unfold sp; rewrite land_lnot_15; pose proof (Z.mod_pos_bound (argv - 4 - 0x80) 16 ltac:(lia)); lia).
  exists s4, sp, argv. split; [|split].
  - unfold load_args. rewrite (bind_ok _ _ _ _ _ E1). fold sp2. rewrite (u64_small (sp2 - _)) by (unfold argv in *; lia). fold argv. rewrite (bind_ok _ _ _ _ _ E2), (bind_ok _ _ _ _ _ E3). rewrite (u64_small (argv - 4)), (u64_small (argv - 4 - 0x80)) by (unfold argv; lia).
    by rewrite (bind_ok _ _ _ _ _ E4).
  - assert (stacked s sp USTACKTOP s2) as H2 by (eapply stacked_trans; [exact Hs1|exact Hs2|unfold argv in *; lia..]).
    assert (stacked s sp USTACKTOP s3) as H3 by (eapply stacked_trans; [exact H2|exact Hs3|unfold argv in *; lia..]). eapply stacked_trans; [exact H3|exact Hs4|unfold argv in *; lia..].
  - split.
    + unfold sp. rewrite land_lnot_15. rewrite Zminus_mod, Zmod_mod, Z.sub_diag. done.
    + unfold argv in *. lia.
    + fold argc. unfold argv. lia.
    + exact Hh4.
    + replace (8 * Z.of_nat (length kargv)) with (argc * 8) by (unfold argc; lia). eapply holds_stacked; [exact Hs4|unfold argv; lia|rewrite le_bytes_length; unfold argv; lia|rewrite le_bytes_length; right; unfold argv; lia|exact Hh3].
    + intros j str Hj. destruct (Forall2_lookup_l _ _ _ _ _ Hall Hj) as (ptr & Hptr & Hh & Hp1 & Hp2). exists ptr. pose proof (lookup_lt_Some _ _ _ Hj) as Hjl.
      assert (Hl1 : Z.of_nat (length (str ++ [0])) = Z.of_nat (length str) + 1) by (rewrite length_app; cbn [length]; lia). split; [|split; [|unfold argv; lia]].
      * eapply holds_stacked; [exact Hs4|unfold argv; lia|rewrite le_bytes_length; unfold argv; lia|rewrite le_bytes_length; right; unfold argv; lia|].
        eapply holds_stacked; [exact Hs3|unfold argv; lia|rewrite le_bytes_length; unfold argv; lia|rewrite le_bytes_length; left; unfold argc; lia|]. by apply Hw.
      * eapply holds_stacked; [exact Hs4|lia|lia|right; unfold argv in *; lia|]. eapply holds_stacked; [exact Hs3|lia|lia|right; unfold argv in *; lia|].
        eapply holds_stacked; [exact Hs2|lia|lia|right; unfold argv in *; lia|exact Hh].
Qed.
End Args.

Section Program.
Context {D : Type} `{!Device D} `{!DeviceLaws D} `{PageAllocator alloc free} (npg : Z) (Hnpg : npg + 1 < 2 ^ 32) (buf heap : Z) (kmem0 : memory) (o : outcomes).
Abbreviation npage := (npg + nbase).
#[local] Notation K := (Vfs.kernel D).
#[local] Notation machine := (sys (files_heap (D := D))).
Implicit Types (s : machine) (k : K).

(** The last page of a stack that has just been made. *)
Lemma stack_top s mm root al bl g :
  image_ok npg buf s mm root al bl -> shows (ram s) bl root stack_perm (USTACKTOP - USTACKSIZE) USTACKTOP g ->
  top_page npg mm root (target (vm_pte (ram s) root top_base)) s.
Proof.
  intros [_ Hroot _ Hm Ht _ _] Hs. assert (HT : top_base = 524287 * 4096) by done. assert (HU : USTACKTOP = 524288 * 4096) by done. assert (HZ : USTACKSIZE = 256 * 4096) by done. assert (HV : USERTOP = 2 ^ 31) by done.
  destruct (Hs top_base ltac:(lia)) as (p & Hp & Hr & Ho & Hnt & _). assert (target (vm_pte (ram s) root top_base) = p) as -> by (rewrite Hp; by apply target_create; [lia|]).
  assert (0 <= p < npg) as Hpr by (destruct (owned_pages _ _ _ Ho) as [pg Hpg]; apply (fl_pages _ _ _ _ (proj1 Hm)); by exists pg).
  split; [done|apply Hm|done| |done]. intros x Hx. assert (vm_pte (ram s) root x = vm_pte (ram s) root top_base) as ->.
  { apply vm_pte_vpn. apply user_page; [lia|lia|]. rewrite HT. rewrite (Z.div_mul 524287) by lia. symmetry. apply (Z.div_unique _ _ _ (x - top_base)); lia. }
  rewrite Hp, valid_create. split; [done|]. by apply target_create; [lia|].
Qed.

(** Bytes in other frames. *)
Lemma stacked_elsewhere s mm root p lo hi s' :
  top_page npg mm root p s -> stacked npg mm root p s lo hi s' ->
  (forall x, vm_pte (ram s') root x = vm_pte (ram s) root x) /\ (forall f, is_table (ram s') root f <-> is_table (ram s) root f) /\
  forall x, target (vm_pte (ram s) root x) <> p -> user_byte (ram s') root x = user_byte (ram s) root x.
Proof.
  intros Htop Hst. destruct (tp_page _ _ _ _ _ Htop) as [_ Hnt]. destruct (tree_same npg (ram s) (ram s') root) as (His & Hpte & _); [intros f Hf; apply (st_frames _ _ _ _ _ _ _ _ Hst); by intros ->|].
  split; [done|]. split; [done|]. intros x Hx. unfold user_byte. rewrite Hpte. destruct (valid _); [|done]. apply phys_byte_frames. by apply (st_frames _ _ _ _ _ _ _ _ Hst).
Qed.

(** What a program finds in its memory: at every address of the pages of a segment what the
    loop puts there ([seg_byte]: the segment of the file and zeros behind it, if it begins on a
    page boundary), with the permissions of the header; its arguments, from the
    stack pointer [sp] up, and zeros below; and nothing outside the areas [al'], which are
    those of [al], the segments and the stack. *)
Record program (data : list Z) (phs : list proghdr) (kargv : list (list Z)) (mm root : Z) (al : list vma_struct) (m : pmem) (v : vmm) (sp argv : Z) (al' : list vma_struct) : Prop := Program {
  pg_segment ph x : ph ∈ phs -> is_load ph -> seg_base ph <= x < seg_base ph + seg_pages ph * 4096 ->
    user_byte m root x = seg_byte data ph x /\ exists p, vm_pte m root x = pte_create (page2ppn p) (Z.lor PTE_V (seg_perm ph));
  pg_arguments : arguments root m kargv sp argv;
  pg_stack x : USTACKTOP - USTACKSIZE <= x < sp -> user_byte m root x = Some 0;
  pg_areas : mm_inv v mm al';
  pg_area b : b ∈ al' <-> b = stack_area mm \/ (exists ph, ph ∈ phs /\ is_load ph /\ b = seg_area mm ph) \/ b ∈ al;
  pg_mapped x : 0 <= x < USERTOP -> valid (vm_pte m root x) = true -> in_areas_at al' x
}.

(** What the arguments change is in a page that is new since [s]. *)
Lemma stacked_extended s bl mm root p s1 bl1 lo hi s2 Q :
  extended root Q s bl s1 bl1 -> ~ owned (ram s) bl p -> top_page npg mm root p s1 -> stacked npg mm root p s1 lo hi s2 -> extended root (fun _ => True) s bl s2 bl1.
Proof.
  intros Hext Hp Htop Hst. destruct (stacked_elsewhere _ _ _ _ _ _ _ Htop Hst) as (Hpte & His & _). destruct (tp_page _ _ _ _ _ Htop) as [_ Hnt].
  assert (tab s2 = tab s1 /\ ctxs s2 = ctxs s1) as [Et Ec] by (by rewrite (st_state _ _ _ _ _ _ _ _ Hst)). split.
  - intros x _ Hn. by destruct Hn.
  - intros q Hq. destruct (ex_keep _ _ _ _ _ _ Hext q Hq) as [Hq1 Hk]. split; [unfold owned; by rewrite (st_area _ _ _ _ _ _ _ _ Hst)|]. intros Hn. destruct (Hk Hn) as [Hn1 <-]. rewrite His.
    split; [done|]. apply (st_frames _ _ _ _ _ _ _ _ Hst). by intros ->.
  - intros x Hx. rewrite Hpte. by apply (ex_fresh _ _ _ _ _ _ Hext).
  - intros j Hj. rewrite <- (ex_kernel _ _ _ _ _ _ Hext j Hj). apply entry_frames, (st_frames _ _ _ _ _ _ _ _ Hst). intros ->. apply Hnt. constructor.
  - rewrite Et. apply Hext.
  - rewrite Ec. apply Hext.
Qed.

Lemma exec_file_same s s' pr tb k i f a n sin : tab s' = tab s -> opened s' = opened s -> exec_file s pr tb k i f a n sin -> exec_file s' pr tb k i f a n sin.
Proof.
  intros Et Eo [H1 H2 H3 H4 H5 H6 H7]. split; rewrite ?Eo; try done; [unfold running in *; by rewrite Et|]. eapply (open_file_same (mk_user k (spaces s) ∅)); [reflexivity|lia|exact H5].
Qed.

(** A program is in memory when [load_icode] has gone through its headers: in new frames
    only, and the rest of the memory, the process table and the file are as they were. *)
Lemma load_image_run room s pr tb k i f a n sin mm root al bl elf kargv :
  let data := file_data (w_fs (k_world k)) (din sin) in
  let phs := phdr data (e_phoff elf) <$> seqZ 0 (e_phnum elf) in
  exec_file s pr tb k i f a n sin -> image_ok npg buf s mm root al bl -> buffer_ok buf kmem0 -> heap_ok buf heap room ->
  0 <= e_phoff elf -> e_phoff elf + e_phnum elf * SIZEOF_PROGHDR <= d_size (din sin) ->
  fits o (d_size (din sin)) mm al phs -> (forall ph, ph ∈ phs -> is_load ph -> seg_end ph <= USTACKTOP - USTACKSIZE) ->
  ~ Exists (overlaps (stack_area mm)) al -> ok_vma o (USTACKTOP - USTACKSIZE) = true -> 3 * (pages_needed phs + USTACKPAGE) + 1 <= total bl ->
  Forall (Forall is_byte) kargv -> string_bytes kargv + 8 * Z.of_nat (length kargv) + 200 <= 4096 ->
  exists s' sp argv al' bl' k' q, load_image alloc free npage buf heap kmem0 o (Z.of_nat i) (Z.of_nat (length kargv)) kargv mm elf s = Ok (s', inr (sp, argv)) /\
    program data phs kargv mm root al (ram s') (spaces s') sp argv al' /\ pgdir_of (spaces s') mm = Ok root /\ mem_ok npg (ram s') bl' /\
    extended root (fun _ => True) s bl s' bl' /\ exec_file s' pr tb k' i (set_pos q f) a n sin.
Proof.
  intros data phs Hx Him Hb Hh Hoff Hin Hfit Hlow Hno Hok Hmem Hby Hsize. assert (HT : top_base = 524287 * 4096) by done. assert (HU : USTACKTOP = 524288 * 4096) by done. assert (HZ : USTACKSIZE = 256 * 4096) by done. assert (HV : USERTOP = 2 ^ 31) by done. assert (HP : USTACKPAGE = 256) by done.
  destruct (load_segments_run npg Hnpg buf heap kmem0 o pr tb i a n sin mm root (e_phoff elf) data room Hb Hh Hoff (seqZ 0 (e_phnum elf)) s k f al bl Hx eq_refl Him) as (s1 & bl1 & al1 & k1 & q1 & E1 & Him1 & Hal1 & Hx1 & _ & Hsh1 & Hext1 & Htot1); [|done|fold phs; lia|].
  { apply Forall_forall. intros j Hj%elem_of_seqZ. unfold SIZEOF_PROGHDR in *. lia. }
  destruct (load_stack_run npg Hnpg buf o s1 mm root al1 bl1 Him1) as (s2 & bl2 & al2 & E2 & Him2 & Hal2 & Ho2 & Hsh2 & Hext2 & Hap1 & Hap2); [|done|fold phs in Htot1; lia|].
  { intros (b & Hbin & Ho)%Exists_exists. apply Hal1 in Hbin as [(ph & Hph & Hl & ->)|Hbin]; [|apply Hno, Exists_exists; by exists b]. pose proof (Hlow ph Hph Hl). unfold overlaps, stack_area, seg_area in Ho. cbn [vm_start vm_end] in Ho. lia. }
  pose proof (stack_top s2 mm root al2 bl2 _ Him2 Hsh2) as Htop. set (p := target (vm_pte (ram s2) root top_base)) in *.
  destruct (load_args_run (alloc := alloc) npg mm root p s2 kargv Htop Hby Hsize) as (s3 & sp & argv & E3 & Hst & Hargs). destruct (stacked_elsewhere s2 mm root p sp USTACKTOP s3 Htop Hst) as (Hpte3 & _ & Helse).
  assert (Hpn : ~ owned (ram s1) bl1 p) by (apply Hap1; lia). pose proof (st_state _ _ _ _ _ _ _ _ Hst) as Es3. assert (Esp : spaces s3 = spaces s2 /\ tab s3 = tab s2 /\ opened s3 = opened s2) by (by rewrite Es3). destruct Esp as (Esp & Etab & Eop).
  exists s3, sp, argv, al2, bl2, k1, q1. split; [|split; [split|split; [rewrite Esp; apply Him2|split; [|split]]]].
  - unfold load_image. rewrite (bind_ok _ _ _ _ _ E1), (bind_ok _ _ _ _ _ E2). exact E3.
  - intros ph x Hph Hl Hxr. pose proof (Hlow ph Hph Hl) as Hlowp. pose proof (fits_elem _ _ _ _ _ _ Hfit Hph Hl) as Hs. destruct (seg_end_range _ _ Hs) as [[Hse1 Hse2] _]. specialize (Hsh1 ph Hph Hl). destruct (Hsh1 x Hxr) as (q & Hq1 & Hq2 & Hq3 & _). assert (0 <= x) as Hx0 by (destruct (seg_range _ _ Hs); lia).
    assert (vm_pte (ram s2) root x = vm_pte (ram s1) root x) as E by (apply (ex_rest _ _ _ _ _ _ Hext2); [lia|unfold contains, stack_area; cbn; lia]).
    assert (target (vm_pte (ram s2) root x) <> p) as Hne by (rewrite E, Hq1, target_create by (first [lia|apply perm_range, seg_perm_range]); by intros ->).
    split; [|exists q; by rewrite Hpte3, E]. rewrite Helse by done. eapply shows_byte; [|exact Hxr].
    destruct (seg_range _ _ Hs) as (? & _).
    eapply shows_extended; [exact Hext2|lia|lia| |exact Hsh1]. intros y Hy. unfold contains, stack_area. cbn. lia.
  - exact Hargs.
  - intros x Hxr. pose proof (ar_below _ _ _ _ _ Hargs) as [Hb1 Hb2]. pose proof (ar_range _ _ _ _ _ Hargs) as Hb3. assert (user_byte (ram s2) root x = Some 0) as Hz.
    { destruct (Hsh2 x) as (q & Hq1 & Hq2 & _ & _ & Hq5); [lia|]. unfold user_byte. rewrite Hq1, valid_create, target_create by (first [lia|done]). exact Hq5. }
    destruct (Z.lt_ge_cases x top_base).
    + rewrite Helse; [done|]. intros E. pose proof (Hap2 x top_base ltac:(lia) ltac:(lia) E) as Ev. rewrite user_page in Ev by lia. rewrite HT, (Z.div_mul 524287) in Ev by lia. pose proof (Z.div_mod x 4096 ltac:(lia)). pose proof (Z.mod_pos_bound x 4096 ltac:(lia)). lia.
    + rewrite (st_bytes _ _ _ _ _ _ _ _ Hst); [done|lia|lia].
  - rewrite Esp. apply Him2.
  - intros b. rewrite Hal2, Hal1. tauto.
  - intros x Hxu Hv. rewrite Hpte3 in Hv. by apply (im_mapped _ _ _ _ _ _ _ Him2).
  - destruct (im_mem _ _ _ _ _ _ _ Him2) as [Hfl _]. split; [by rewrite (st_area _ _ _ _ _ _ _ _ Hst)|]. apply (st_top _ _ _ _ _ _ _ _ Hst).
  - eapply (extended_trans root _ (fun _ => True) (fun _ => True)); [done| |eapply stacked_extended; [exact Hext2|exact Hpn|exact Htop|exact Hst]].
    eapply (extended_trans root _ _ (fun _ => False)); [done|exact Hext1|by apply extended_same].
  - apply (exec_file_same s1); [rewrite Etab; apply Hext2|rewrite Eop; exact Ho2|exact Hx1].
Qed.

End Program.
