(* ===== verification/ExecStart.v ===== *)
(** A process starts a program ([load_icode] of lab8/kern/process/proc.c, from its first read
    to the end): the header is read, the new address space gets a page table, [load_image]
    fills it, the process changes over to it, and the file is closed. *)
From S2P Require Import Prelude Lists Page Blocks FreeArea ProcStruct SchedClass Sched CString Layout StateM Iobuf Disk0 SfsIo SfsBmap SfsFile SfsNode Vfs FileTable Process ProcFamily Vmm PageTable PageRange PageCopy PageFresh SysFile SysFileSpec SysFileRead Memory Fork ForkMem ForkProc ForkFiles Phys Machine MachineRead Exec ExecLoad ExecImage ExecSections ExecProgram.

(** * Closing the file *)
Section Close.
Context {D : Type} `{!Device D} `{!DeviceLaws D}.
#[local] Notation K := (Vfs.kernel D).
#[local] Notation machine := (sys (files_heap (D := D))).
Implicit Types (s : machine) (k : K).

(** The last close writes the inode back if that is necessary, and takes it out of memory. *)
Lemma vfs_close_last k a n sin :
  fs_inv (w_fs (k_world k)) -> w_nodes (k_world k) !! a = Some n -> in_ops n = sfs_node_fileops -> info n = sfs_info sin -> sem sin = 1 -> open_count n = 1 ->
  closes (w_fs (k_world k)) n sin -> exists k', vfs_close a k = Ok (k', inr tt) /\ filesp k' = filesp k.
Proof.
  intros Hinv Ha Hops Hi Hs Ho [?|(_ & Hr & Hsem & Hrc & Hnl & Hd & Hu & Hclean)]; [lia|].
  set (n1 := set_open 0 n). set (w1 := mk_world (w_fs (k_world k)) (<[a := n1]> (w_nodes (k_world k)))). set (k1 := set_world w1 k).
  assert (Hn1 : w_nodes w1 !! a = Some n1) by (unfold w1; cbn; by rewrite lookup_insert_eq). assert (Hc1 : inode_check n1 = true) by (unfold inode_check, n1; cbn; by rewrite Hr).
  destruct (fsync_spec (w_fs (k_world k)) sin Hinv Hu Hs Hd Hclean) as (fs2 & Hsync & Hdisk & f & Hio & _). pose proof (io_fs_step _ _ _ Hinv Hio) as Hst. pose proof Hst as (Hinv2 & (_ & _ & _ & Hsem2 & _) & _).
  set (n2 := set_info (sfs_info (clean sin)) n1). set (w2 := mk_world fs2 (<[a := n2]> (w_nodes w1))). set (k2 := set_world w2 k1).
  destruct (ref_dec_last w2 a n2 (clean sin)) as (d & buf & Hdec & _); try done; [cbn; congruence|unfold w2; cbn; by rewrite lookup_insert_eq|by cbn; rewrite Hops|by apply (fs_step_inuse _ _ _ _ _ Hst)|].
  exists (set_world (mk_world (unlinked (SfsNode.moved d buf fs2) a (ino (clean sin))) (delete a (w_nodes w2))) k2). split; [|done]. unfold vfs_close. rewrite (bind_ok _ _ _ k2 0).
  2: { unfold inode_open_dec. rewrite (bind_ok _ _ _ k n) by (by erewrite on_world_ok by (by apply get_node_ok); destruct k as [[]]). rewrite Ho. rewrite (bind_ok _ _ _ k tt) by done.
       rewrite (bind_ok _ _ _ k1 tt) by (by apply on_world_ok). change (1 - 1 =? 0) with true. cbv iota. rewrite (bind_ok _ _ _ k2 tt); [done|].
       rewrite (bind_ok _ _ _ k2 (inr tt)); [done|]. apply attempt_eq. unfold vop_close, dispatch.
       rewrite (bind_ok _ _ _ k1 n1) by (erewrite on_world_ok by (by apply (vop_op_ok a is_any w1 n1)); done). change (in_ops n1) with (in_ops n). rewrite Hops. change (is_devops sfs_node_fileops) with false. cbv iota.
       apply on_world_ok. unfold vop_fsync. rewrite (bind_ok _ _ _ w1 n1) by (apply vop_op_ok; [done|by cbn; rewrite Hops|done]). exact (with_sin_ok a _ w1 n1 sin _ _ _ Hn1 Hi Hsync). }
  rewrite (bind_ok _ _ _ (set_world (mk_world (unlinked (SfsNode.moved d buf fs2) a (ino (clean sin))) (delete a (w_nodes w2))) k2) 0); [done|]. by apply on_world_ok.
Qed.

Lemma file_close_ends k v i f a n sin :
  open_file (mk_user k v ∅) i f a n sin 0 -> closes (w_fs (k_world k)) n sin -> exists k', file_close (Z.of_nat i) k = Ok (k', inr tt) /\ fd_array (filesp k') !! i = Some (freed f).
Proof.
  intros [Hk Hf Hs _ Hn Ha Hops Hi Hsem Hfs _ _ _] Hc. cbn [u_k] in *. pose proof (lookup_lt_Some _ _ _ Hf) as Hlt.
  destruct (decide (1 < open_count n)) as [Ho|Ho].
  - destruct (file_close_shared k i f a n Hk Hf Hs Hn Ha Ho) as [E _]. eexists. split; [exact E|]. by apply list_lookup_insert_eq.
  - assert (open_count n = 1) as Ho1 by (destruct Hc as [?|[? _]]; lia). destruct (vfs_close_last k a n sin Hfs Ha Hops Hi Hsem Ho1 Hc) as (k' & E & Efp).
    eexists. split; [by apply (file_close_run k i f a)|]. cbn. rewrite Efp. by apply list_lookup_insert_eq.
Qed.

(** The process may have got a memory in the meantime. *)
Lemma exec_close_run s s' pr pr' tb k i f a n sin :
  exec_file s pr tb k i f a n sin -> opened s' = opened s -> running s' = Ok pr' -> ProcStruct.filesp pr' = Some tb ->
  exists k', sysfile_close_fd (Z.of_nat i) s' = Ok (put_table s' tb k', inr tt) /\ fd_array (filesp k') !! i = Some (freed f).
Proof.
  intros [_ _ _ (t & Ht & Hk) Ho _ Hc] Eo Hr Hf. destruct (file_close_ends k (spaces s) i f a n sin Ho Hc) as (k' & E & Hd). exists k'. split; [|done].
  unfold sysfile_close_fd. rewrite (bind_ok _ _ _ (put_table s' tb k') (inr tt)); [done|]. apply attempt_eq. eapply on_table_run; [exact Hr|exact Hf|by rewrite Eo|]. by rewrite Eo, <- Hk.
Qed.
End Close.

(** * Changing over *)

(** The frame that holds the trap frame belongs to the kernel: the program keeps what it has. *)
Lemma program_frames (npg : Z) data phs kargv mm root al m v sp argv al' m' v' g :
  program data phs kargv mm root al m v sp argv al' -> (forall f, f <> g -> frames m' !! f = frames m !! f) -> ~ is_table m root g ->
  (forall x, 0 <= x < USERTOP -> valid (vm_pte m root x) = true -> target (vm_pte m root x) <> g) ->
  (forall ph, ph ∈ phs -> is_load ph -> 0 <= seg_base ph /\ seg_base ph + seg_pages ph * 4096 <= USERTOP) -> mm_inv v' mm al' -> program data phs kargv mm root al m' v' sp argv al'.
Proof.
  intros [Hseg Hargs Hst Ha Hin Hmap] Hfr Hg Ht Hph Hv. destruct (tree_same npg m m' root) as (_ & Hpte & _); [intros f Hf; apply Hfr; by intros ->|].
  assert (HU : USTACKTOP = USERTOP /\ 0 < top_base /\ 0 < USTACKTOP - USTACKSIZE) by done.
  assert (Hb : forall x, 0 <= x < USERTOP -> user_byte m' root x = user_byte m root x).
  { intros x Hx. unfold user_byte. rewrite Hpte. destruct (valid (vm_pte m root x)) eqn:E; [|done]. apply phys_byte_frames, Hfr. by apply Ht. }
  assert (Hh : forall b l, 0 <= b -> b + Z.of_nat (length l) <= USERTOP -> holds_bytes m root b l -> holds_bytes m' root b l).
  { intros b l Hlo Hhi H j c Hj. pose proof (lookup_lt_Some _ _ _ Hj). rewrite Hb by lia. by apply H. }
  destruct Hargs as [A1 A2 A3 A4 A5 A6]. split; try done.
  - intros ph x Hp Hl Hx. destruct (Hph ph Hp Hl). rewrite Hpte, Hb by lia. by apply Hseg.
  - split; try done; [apply Hh; [lia|rewrite le_bytes_length; lia|done]|apply Hh; [lia|rewrite le_bytes_length; lia|done]|].
    intros j str Hj. destruct (A6 j str Hj) as (ptr & H1 & H2 & H3). exists ptr. pose proof (lookup_lt_Some _ _ _ Hj). split; [apply Hh; [lia|rewrite le_bytes_length; lia|done]|]. split; [|done].
    apply Hh; [lia|rewrite length_app; cbn [length]; lia|done].
  - intros x Hx. rewrite Hb by lia. by apply Hst.
  - intros x Hx. rewrite Hpte. by apply Hmap.
Qed.

Lemma put_words_set ws : forall m f i, 0 <= i -> i + Z.of_nat (length ws) <= NPTEENTRY -> put_words m f i ws = set_words m f i ws.
Proof.
  induction ws as [|w ws IH]; intros m f i Hi Hlen; cbn [put_words set_words length] in *; [done|].
  rewrite Z.div_small, Z.add_0_r, Z.mod_small by lia. destruct (set_word m f i w); cbn [mbind res_bind]; [|done..]. apply IH; lia.
Qed.

(** The trap frame is at the end of the kernel stack in the frames [k] and [k + 1]. *)
Lemma set_trapframe_run m k ws :
  0 <= k < 2 ^ 32 -> frame_ok m (k + 1) -> Z.of_nat (length ws) = TRAPFRAME_WORDS ->
  exists m', set_trapframe (tf_addr k) ws m = Ok m' /\ area m' = area m /\ (forall g, g <> k + 1 -> frames m' !! g = frames m !! g) /\
    forall j, 0 <= j < TRAPFRAME_WORDS -> entry m' (k + 1) (NPTEENTRY - TRAPFRAME_WORDS + j) = ws !! Z.to_nat j.
Proof.
  intros Hk Hf Hl. assert (HN : NPTEENTRY = 512 /\ TRAPFRAME_WORDS = 36) by done. destruct (set_words_run m (k + 1) ws 476 Hf) as (m' & E & Ha & _ & Hfr & He); [lia|lia|].
  exists m'. split; [|split; [done|split; [done|]]].
  - unfold set_trapframe. assert (u64 (tf_addr k - PHYSICAL_MEMORY_OFFSET) = (k + nbase) * 4096 + 4096 + 3808) as ->.
    { unfold tf_addr, page2pa, page2ppn, u64. change nbase with (2 ^ 19). change KSTACKSIZE with 8192. change (TRAPFRAME_WORDS * 8) with 288. rewrite Z.shiftl_mul_pow2 by lia.
      set (c := PHYSICAL_MEMORY_OFFSET). assert (c = 2 ^ 64 - 2 ^ 30 - 2 ^ 31) as Ec by done. clearbody c. subst c.
      rewrite <- (Z.mod_small ((k + 2 ^ 19) * 4096 + 4096 + 3808) (2 ^ 64)) by lia.
      replace ((((k + 2 ^ 19) * 2 ^ 12 + (2 ^ 64 - 2 ^ 30 - 2 ^ 31)) mod 2 ^ 64) + 8192 - 288 - (2 ^ 64 - 2 ^ 30 - 2 ^ 31))
        with ((((k + 2 ^ 19) * 2 ^ 12 + (2 ^ 64 - 2 ^ 30 - 2 ^ 31)) mod 2 ^ 64) + (8192 - 288 - (2 ^ 64 - 2 ^ 30 - 2 ^ 31))) by lia.
      rewrite Zplus_mod_idemp_l. f_equal. lia. }
    unfold PPN. rewrite Z.shiftr_div_pow2, page_offset by lia. change (2 ^ 12) with 4096. replace ((k + nbase) * 4096 + 4096 + 3808) with (3808 + (k + 1 + nbase) * 4096) by lia.
    rewrite Z.div_add, Z.mod_add by lia. change (3808 / 4096) with 0. change (3808 mod 4096 / 8) with 476. replace (0 + (k + 1 + nbase) - nbase) with (k + 1) by lia. rewrite put_words_set by lia. exact E.
  - intros j Hj. rewrite He. rewrite decide_True by lia. f_equal. lia.
Qed.

Section Start.
Context {D : Type} `{!Device D} `{!DeviceLaws D} `{PageAllocator alloc free} (npg : Z) (Hnpg : npg + 1 < 2 ^ 32) (boot buf heap room : Z) (kmem0 : memory) (o : outcomes) (sstatus : Z).
Abbreviation npage := (npg + nbase).
#[local] Notation K := (Vfs.kernel D).
#[local] Notation machine := (sys (files_heap (D := D))).
Implicit Types (s : machine) (k : K).

(** What [enter] changes: the current process has the memory, and its trap frame is the one
    with which the program starts. *)
Lemma enter_run s pr mm root al sp argc argv gp pc ks x :
  running s = Ok pr -> mm_inv (spaces s) mm al -> pgdir_of (spaces s) mm = Ok root -> ctxs s !! current (pk (tab s)) = Some x -> ctx_tf x = tf_addr ks ->
  0 <= ks < 2 ^ 32 -> frame_ok (ram s) (ks + 1) ->
  exists t v m, enter sstatus mm sp argc argv gp pc s = Ok (with_ram (with_tab (with_spaces s v) t) m) /\
    get t (current (pk t)) = Ok (set_pgdir (page2pa root) (set_mm (Some mm) pr)) /\ (forall q, q <> current (pk (tab s)) -> procs_of t !! q = procs_of (tab s) !! q) /\
    mm_inv v mm al /\ area m = area (ram s) /\ (forall g, g <> ks + 1 -> frames m !! g = frames (ram s) !! g) /\
    forall j, 0 <= j < TRAPFRAME_WORDS -> PageTable.entry m (ks + 1) (NPTEENTRY - TRAPFRAME_WORDS + j) = user_frame sp argc argv gp sstatus pc !! Z.to_nat j.
Proof.
  intros Hr Hal Hroot Hx Htf Hk Hf. set (cur := current (pk (tab s))) in *.
  destruct (mm_inv_set (spaces s) mm al (put_mm_count 1) Hal) as (v & Ev & Hal' & _ & _ & Hset); [done|].
  assert (pgdir_of v mm = Ok root) as Hroot'.
  { unfold pgdir_of, deref in *. rewrite Hset. destruct (mms (spaces s) !! mm); done. }
  assert (procs_of (tab s) !! cur = Some pr) as Hp by (unfold running, get, deref in Hr; fold cur in Hr; destruct (procs_of (tab s) !! cur); congruence).
  destruct (set_trapframe_run (ram s) ks (user_frame sp argc argv gp sstatus pc) Hk Hf) as (m & Em & Ha & Hfr & Hw); [unfold user_frame; by rewrite !length_insert, length_replicate|].
  set (pr1 := set_mm (Some mm) pr). set (S1 := with_procs (sched (pk (tab s))) (<[cur := pr1]> (procs_of (tab s)))). set (t1 := with_pk (tab s) (with_sched (pk (tab s)) S1)).
  set (S2 := with_procs S1 (<[cur := set_pgdir (page2pa root) pr1]> (procs S1))). set (t2 := with_pk t1 (with_sched (pk t1) S2)).
  exists t2, v, m. split; [|split; [|split; [|done]]].
  - unfold enter, set_mm_count. rewrite Ev. cbn [mbind res_bind]. rewrite Hroot'. cbn [mbind res_bind]. fold cur.
    assert (put (tab s) cur (set_mm (Some mm)) = Ok t1) as -> by (unfold put, upd_proc; fold (procs_of (tab s)); by rewrite (deref_some _ _ _ Hp)). cbn [mbind res_bind].
    assert (put t1 cur (set_pgdir (page2pa root)) = Ok t2) as -> by (unfold put, upd_proc; rewrite (deref_some _ _ pr1) by (by apply lookup_insert_eq); done). cbn [mbind res_bind].
    rewrite (deref_some _ _ _ Hx). cbn [mbind res_bind]. rewrite Htf, Em. done.
  - apply (deref_some (procs_of t2)). change (current (pk t2)) with cur. apply lookup_insert_eq.
  - intros q Hq. change (<[cur := set_pgdir (page2pa root) pr1]> (<[cur := pr1]> (procs_of (tab s))) !! q = procs_of (tab s) !! q). by rewrite !lookup_insert_ne.
Qed.

(** A new address space keeps the free pages free. *)
Lemma setup_pgdir_spare s bl mm s' r bl' P :
  mem_ok npg (ram s) bl -> 0 <= boot < npg -> spare P (ram s) bl -> setup_pgdir alloc npage boot s mm = Ok (s', r) -> mem_ok npg (ram s') bl' -> spare P (ram s') bl'.
Proof.
  intros Hm Hb Hs. unfold setup_pgdir. destruct (alloc_page_run npg Hnpg (ram s) bl Hm) as [(m1 & E & -> & _)|(m1 & p & bl1 & E & _ & Hm1 & _ & Hp & _)]; rewrite E; cbn [mbind res_bind].
  - intros [= <- _] Hm'. by rewrite <- (mem_unique npg _ _ _ Hm Hm').
  - rewrite page2kva_run by done. cbn [mbind res_bind]. destruct (copy_frame_run npg m1 bl1 p boot Hm1 Hp Hb) as (m2 & E2 & Ha2 & Hm2 & _). cbn [ram with_ram]. rewrite E2. cbn [mbind res_bind].
    destruct (upd_mm _ _ _) as [v| | |]; cbn [mbind res_bind]; try done. intros [= <- _] Hm'. cbn [ram with_ram with_spaces] in *. rewrite <- (mem_unique npg _ _ _ Hm2 Hm').
    destruct (alloc_page_spare npg Hnpg P (ram s) bl m1 p bl1 Hm Hs E Hm1) as (Hs1 & _). intros i Hi. rewrite Ha2. by apply Hs1.
Qed.

(** * The program *)
Definition header (data : list Z) : elfhdr := elfhdr_of (bytes_at data 0 (Z.to_nat SIZEOF_ELFHDR)).
Definition headers (data : list Z) : list proghdr := phdr data (e_phoff (header data)) <$> seqZ 0 (e_phnum (header data)).

(** A file with the bytes [data], [size] of them, that can be loaded: an ELF file, the
    segments of which lie in the file and in user space below the stack, with no page in two
    of them; if it has section headers that [load_icode] looks at, the symbol tables and
    their strings are in the file, have an end, and are no larger than the [room] the kernel
    has for them.  A segment can begin at any address. *)
Record executable (size : Z) (data : list Z) : Prop := Executable {
  xe_header : SIZEOF_ELFHDR <= size;
  xe_magic : e_magic (header data) = ELF_MAGIC;
  xe_sections : has_sections (header data) = true -> sections_ok size room data (header data);
  xe_phoff : 0 <= e_phoff (header data);
  xe_phdrs : e_phoff (header data) + e_phnum (header data) * SIZEOF_PROGHDR <= size;
  xe_fits mm : fits o size mm [] (headers data);
  xe_below ph : ph ∈ headers data -> is_load ph -> seg_end ph <= USTACKTOP - USTACKSIZE;
  xe_stack : ok_vma o (USTACKTOP - USTACKSIZE) = true
}.

(** The memory that [load_icode] needs: a kernel page table that maps no user address, three
    free frames for each page of the program and its stack, and two more. *)
Record room_to_start (m : pmem) (bl : list Blocks.block) (data : list Z) : Prop := RoomToStart {
  rs_mem : mem_ok npg m bl; rs_spare : spare (load_frame buf) m bl;
  rs_boot : 0 <= boot < npg; rs_owned : owned m bl boot; rs_kernel i : 0 <= i < NUDX -> child m boot i = None;
  rs_free : 3 * (pages_needed (headers data) + USTACKPAGE) + 2 <= total bl
}.

(** The file header, an empty address space, and its page table. *)
Lemma load_icode_prepare s pr tb k i f a n sin bl data :
  exec_file s pr tb k i f a n sin -> file_data (w_fs (k_world k)) (din sin) = data -> buffer_ok buf kmem0 -> heap_ok buf heap room ->
  executable (d_size (din sin)) data -> room_to_start (ram s) bl data ->
  exists s1 k1 v2 mm s3 root bl3, read_all buf heap kmem0 (Z.of_nat i) SIZEOF_ELFHDR 0 s = Ok (s1, inr (bytes_at data 0 (Z.to_nat SIZEOF_ELFHDR))) /\
    mm_create true (spaces s1) = (v2, Some mm) /\ setup_pgdir alloc npage boot (with_spaces s1 v2) mm = Ok (s3, 0) /\
    exec_file s3 pr tb k1 i (set_pos SIZEOF_ELFHDR f) a n sin /\ file_data (w_fs (k_world k1)) (din sin) = data /\ image_ok npg buf s3 mm root [] bl3 /\ total bl3 = total bl - 1 /\
    (forall x, vm_pte (ram s3) root x = 0) /\ (forall g, owned (ram s) bl g -> owned (ram s3) bl3 g /\ ~ is_table (ram s3) root g /\ frames (ram s3) !! g = frames (ram s) !! g) /\
    frames (ram s3) !! root = frames (ram s) !! boot /\ mms (spaces s) !! mm = None /\ tab s3 = tab s /\ ctxs s3 = ctxs s.
Proof.
  intros Hx Hd Hb Hh [Hsz _ _ _ _ Hfits _ _] [Hm Hsp Hbr Hbo Hbc Hfree]. assert (HE : SIZEOF_ELFHDR = 64) by done.
  destruct (read_all_run buf heap kmem0 room s pr tb k i f a n sin 0 SIZEOF_ELFHDR Hx Hb Hh) as (k1 & E1 & Hx1 & Hd1); [destruct Hh; lia|lia|lia|]. rewrite Hd in E1, Hd1. change (Z.to_nat 0) with 0%nat in E1. set (s1 := put_table s tb k1) in *.
  destruct (mm_create_run (spaces s1)) as (mm & v2 & E2 & Hfresh & _ & _ & Hmm).
  assert (0 < total bl) as Htot.
  { pose proof (pages_needed_pos o _ 0 _ _ (Hfits 0)). assert (USTACKPAGE = 256) by done. lia. }
  destruct (setup_pgdir_run npg boot Hnpg (with_spaces s1 v2) bl mm) as (v3 & m3 & bl3 & root & E3 & Hm3 & Htot3 & Hk3 & Hor & Ht & His & Hpte & Hmm3 & Hroot & _ & _ & _ & Hfr); try done.
  set (s3 := with_spaces (with_ram (with_spaces s1 v2) m3) v3) in *.
  exists s1, k1, v2, mm, s3, root, bl3. split; [done|]. split; [done|]. split; [done|]. split; [by apply (exec_file_same s1)|]. split; [done|]. split.
  { split; try done; [intros x _; unfold s3; cbn [ram with_spaces with_ram]; by rewrite Hpte|by intros q ->%His|]. apply (setup_pgdir_spare (with_spaces s1 v2) bl mm s3 0); done. }
  split; [done|]. split; [done|]. split; [|done]. intros g Hg. destruct (Hk3 g Hg) as (? & Hne & ?). split; [done|]. split; [by intros ->%His|done].
Qed.

(** C4. A process starts a program.  The process has the program's file open and no memory
    of its own; the file is an [executable]: what its headers and tables name lies in the
    file and in user space below the stack, and no page is in two segments; the memory has
    room; [kmalloc] succeeds; and the arguments fit in a page.  Then [load_icode] comes to
    an end and returns 0.  Afterwards the process has
    an address space that did not exist before, in which it finds the program, its stack
    and its arguments ([program]: the pages of a segment hold its [seg_byte]s, also when it
    begins inside a page), and in which the kernel is where it was; its trap frame
    leads to the entry point, with the stack pointer, [argc], [argv] and the global pointer
    that the symbol tables of the file give (0 if they give none) in their registers;
    and the descriptor of the file is free.  No frame that was in use has changed but the
    one with the trap frame, and no other process has changed. *)
Theorem load_icode_starts s pr tb k i f a n sin bl kargv x ks :
  let data := file_data (w_fs (k_world k)) (din sin) in let argc := Z.of_nat (length kargv) in
  exec_file s pr tb k i f a n sin -> buffer_ok buf kmem0 -> heap_ok buf heap room -> ok_mm o = true ->
  executable (d_size (din sin)) data -> room_to_start (ram s) bl data ->
  Forall (Forall is_byte) kargv -> string_bytes kargv + 8 * argc + 200 <= 4096 ->
  ctxs s !! current (pk (tab s)) = Some x -> ctx_tf x = tf_addr ks -> 0 <= ks -> owned (ram s) bl (ks + 1) ->
  exists s' mm root sp argv al' t' f', load_icode alloc free npage boot buf heap kmem0 o sstatus (Z.of_nat i) argc kargv s = Ok (s', inr 0) /\
    mms (spaces s) !! mm = None /\ program data (headers data) kargv mm root [] (ram s') (spaces s') sp argv al' /\
    running s' = Ok (set_pgdir (page2pa root) (set_mm (Some mm) pr)) /\ (forall q, q <> current (pk (tab s)) -> procs_of (tab s') !! q = procs_of (tab s) !! q) /\
    (forall j, 0 <= j < TRAPFRAME_WORDS -> PageTable.entry (ram s') (ks + 1) (NPTEENTRY - TRAPFRAME_WORDS + j) = user_frame sp argc argv (global_pointer data (header data)) sstatus (e_entry (header data)) !! Z.to_nat j) /\
    (forall j, NUDX <= j -> PageTable.entry (ram s') root j = PageTable.entry (ram s) boot j) /\
    (forall q, owned (ram s) bl q -> q <> ks + 1 -> frames (ram s') !! q = frames (ram s) !! q) /\
    fh_tables (opened s') !! tb = Some t' /\ fd_array t' !! i = Some f' /\ status f' = FD_NONE.
Proof.
  intros data argc Hx Hb Hh Hok Hex Hroom Hby Hsize Hcx Htf Hks Hg. set (g := ks + 1) in *.
  destruct (load_icode_prepare s pr tb k i f a n sin bl data Hx eq_refl Hb Hh Hex Hroom) as (s1 & k1 & v2 & mm & s3 & root & bl3 & E1 & E2 & E3 & Hx3 & Hd3 & Him3 & Htot3 & Hpte3 & Hk3 & Hfr3 & Hfresh & Htab3 & Hctx3).
  pose proof Hex as [_ Hmagic Hsec Hoff Hphs Hfits Hbelow Hstk]. pose proof Hroom as [_ _ _ _ _ Hfree].
  destruct (load_gp_run buf heap kmem0 room pr tb i a n sin data Hb Hh s3 k1 (header data)) as (s3' & k3 & Egp & [Eram Esp Etab Ectx] & [f3 Hx3'] & Hd3'); [split; [by eexists|done]|exact Hsec|].
  assert (image_ok npg buf s3' mm root [] bl3) as Him3' by (destruct Him3; split; by rewrite ?Esp, ?Eram).
  destruct (load_image_run npg Hnpg buf heap kmem0 o room s3' pr tb k3 i f3 a n sin mm root [] bl3 (header data) kargv Hx3' Him3' Hb Hh Hoff Hphs) as (s4 & sp & argv & al' & bl4 & k4 & q4 & E4 & Hprog & Hroot4 & Hm4 & Hext & Hx4);
    rewrite ?Hd3'; [exact (Hfits mm)|exact Hbelow|by intros ?%Exists_nil|exact Hstk|fold (headers data); lia|done|done|]. rewrite Hd3' in Hprog. fold (headers data) in Hprog. fold argc in E4.
  rewrite <- Eram in Hpte3, Hk3, Hfr3. rewrite <- Etab in Htab3. rewrite <- Ectx in Hctx3. destruct (Hk3 g Hg) as (Hg3 & Hn3 & _).
  pose proof (ex_tab _ _ _ _ _ _ Hext) as Htab4. pose proof (ex_ctxs _ _ _ _ _ _ Hext) as Hctx4. destruct (ex_keep _ _ _ _ _ _ Hext g Hg3) as [Hg4 Hk4]. destruct (Hk4 Hn3) as [Hn4 _].
  assert (0 <= g < npg) as Hgr by (destruct (owned_pages _ _ _ Hg) as [pg Hpg]; apply (fl_pages _ _ _ _ (proj1 (rs_mem _ _ _ Hroom))); by exists pg).
  destruct (enter_run s4 pr mm root al' sp argc argv (global_pointer data (header data)) (e_entry (header data)) ks x (xf_running _ _ _ _ _ _ _ _ _ Hx4) (pg_areas _ _ _ _ _ _ _ _ _ _ _ Hprog) Hroot4) as (t5 & v5 & m5 & E5 & Hrun5 & Hoth5 & Hal5 & Ha5 & Hfr5 & Hw5);
    [rewrite Hctx4, Hctx3, Htab4, Htab3; exact Hcx|exact Htf|unfold g in Hgr; lia|by apply Hm4|]. fold g in Hfr5, Hw5. set (s5 := with_ram (with_tab (with_spaces s4 v5) t5) m5) in *.
  destruct (exec_close_run s4 s5 pr (set_pgdir (page2pa root) (set_mm (Some mm) pr)) tb k4 i _ a n sin Hx4 eq_refl Hrun5) as (k6 & E6 & Hd6); [exact (xf_filesp _ _ _ _ _ _ _ _ _ Hx4)|].
  exists (put_table s5 tb k6), mm, root, sp, argv, al', (Vfs.filesp k6). eexists. split; [|split; [done|split; [|split; [exact Hrun5|split; [|split; [exact Hw5|split; [|split; [|split; [apply lookup_insert_eq|split; [exact Hd6|done]]]]]]]]]].
  - unfold load_icode. rewrite (bind_ok _ _ _ s5 (inr tt)); [by rewrite (bind_ok _ _ _ _ _ E6)|]. apply attempt_eq. unfold load_icode_body. rewrite (bind_ok _ _ _ _ _ E1). fold (header data). rewrite Hmagic. change (negb (ELF_MAGIC =? ELF_MAGIC)) with false. cbv iota.
    rewrite (bind_ok _ _ _ (with_spaces s1 v2) (Some mm)) by (unfold on_spaces; rewrite Hok, E2; done). rewrite (bind_ok _ _ _ s4 (sp, argv, global_pointer data (header data))); [unfold do_sys, on_sys; rewrite E5; done|].
    apply on_error_ok. rewrite (bind_ok _ _ _ s3 0) by (unfold on_sys; by rewrite E3). change (negb (0 =? 0)) with false. cbv iota.
    rewrite (bind_ok _ _ _ _ _ Egp). by rewrite (bind_ok _ _ _ s4 (sp, argv)) by (by apply on_error_ok).
  - apply (program_frames npg data (headers data) kargv mm root [] (ram s4) (spaces s4) sp argv al' m5 v5 g Hprog Hfr5 Hn4); [| |exact Hal5].
    + intros y Hy Hv. destruct (ex_fresh _ _ _ _ _ _ Hext y Hy) as [E|Hno]; [rewrite E, Hpte3 in Hv; discriminate Hv|]. intros E. by rewrite E in Hno.
    + intros ph Hin Hl. destruct (seg_range _ _ (fits_elem _ _ _ _ _ _ (Hfits mm) Hin Hl)) as (? & _ & _ & ? & _). lia.
  - intros q Hq. rewrite Htab4, Htab3 in Hoth5. by apply Hoth5.
  - intros j Hj. transitivity (PageTable.entry (ram s4) root j); [apply entry_frames, Hfr5; intros <-; apply Hn4; constructor|]. rewrite (ex_kernel _ _ _ _ _ _ Hext j Hj). unfold PageTable.entry. by rewrite Hfr3.
  - intros q Hq Hne. destruct (Hk3 q Hq) as (Hq3 & Hnq & <-). destruct (ex_keep _ _ _ _ _ _ Hext q Hq3) as [_ Hkq]. destruct (Hkq Hnq) as [_ <-]. by apply Hfr5.
Qed.
End Start.
