(* ===== verification/ExecExample.v ===== *)
(** A concrete program, linked where tools/user.ld puts it: a process without memory has a
    file of 328 bytes open - the ELF header, one program header, eight bytes of code, two
    section headers, a symbol table and its strings - and 777 page frames are free. *)
From S2P Require Import Prelude Lists Page Blocks FreeArea DefaultPmm ProcStruct SchedClass Sched CString Layout StateM Iobuf Disk0 SfsIo SfsBmap SfsFile SfsDir SfsNode Vfs FileTable Printf SfsExample Process Vmm PageTable PageRange PageCopy PageFresh PageExample SysFile SysFileSpec SysFileRead Memory Fork ForkMem ForkFiles ForkExample Phys Machine MachineRead Exec ExecLoad ExecImage ExecSections ExecProgram ExecStart.

(** * The file *)
Definition exec_header : list Z :=
  [0x7f; 0x45; 0x4c; 0x46] ++ replicate 20 0 ++ le_bytes 8 0x800020 ++ le_bytes 8 64 ++ le_bytes 8 128 ++ replicate 8 0 ++ le_bytes 2 1 ++ le_bytes 2 64 ++ le_bytes 2 2 ++ replicate 2 0.

Definition exec_segment : list Z :=
  le_bytes 4 ELF_PT_LOAD ++ le_bytes 4 (ELF_PF_R + ELF_PF_X) ++ le_bytes 8 120 ++ le_bytes 8 0x800020 ++ replicate 8 0 ++ le_bytes 8 8 ++ le_bytes 8 5000 ++ replicate 8 0.

Definition exec_code : list Z := [19; 1; 1; 255; 115; 0; 0; 0].

Definition exec_section (type offset size entsize : Z) : list Z :=
  replicate 4 0 ++ le_bytes 4 type ++ replicate 16 0 ++ le_bytes 8 offset ++ le_bytes 8 size ++ le_bytes 4 1 ++ replicate 12 0 ++ le_bytes 8 entsize.

Definition exec_symbol (name value : Z) : list Z := le_bytes 4 name ++ replicate 4 0 ++ le_bytes 8 value ++ replicate 8 0.

Definition exec_strings : list Z := [0] ++ c_text "main" ++ c_text "__global_pointer$".

Definition exec_program : list Z :=
  exec_header ++ exec_segment ++ exec_code ++ exec_section SHT_SYMTAB 256 48 SIZEOF_SYM ++ exec_section 3 304 24 0 ++ exec_symbol 1 0x800020 ++ exec_symbol 6 0x800820 ++ exec_strings.

Definition exec_din : sfs_disk_inode := mk_din 328 SFS_TYPE_FILE 1 1 (3 :: replicate 11 0) 0.

Definition exec_image : list Z :=
  demo_block [] ++ demo_block [] ++ demo_block [] ++ demo_block exec_program ++ demo_block [] ++ demo_block (din_bytes exec_din) ++ demo_block [] ++ demo_block [].

Definition exec_sin : sfs_inode := mk_sin exec_din 5 false 1 1.

Definition exec_fs : sfs_fs disk0 := demo_of exec_image 6.

Definition exec_inode : inode := mk_inode (sfs_info exec_sin) 1 1 true sfs_node_fileops.

Definition exec_kernel : Vfs.kernel disk0 :=
  mk_kernel (mk_world exec_fs {[ 20 := exec_inode ]}) [] 1 None 1 (mk_files None (<[0%nat := demo_file0]> fd_array_init) 1 1) [] 0 0 [].

Lemma exec_image_ok : demo_image exec_image.
Proof.
  split; [unfold exec_image; rewrite !length_app, !Nat2Z.inj_add, !demo_block_length; [lia|by vm_compute..]|].
  apply Forall_forall. intros x Hx. assert (forallb (fun y => (0 <=? y) && (y <? 256)) exec_image = true) as H by (vm_compute; reflexivity).
  rewrite forallb_forall in H. apply list_elem_of_In, H in Hx. unfold is_byte. lia.
Qed.

Lemma exec_fs_inv : fs_inv exec_fs.
Proof. apply demo_of_inv; [exact exec_image_ok|right; by left]. Qed.

Lemma exec_file_ok : file_ok exec_fs exec_din.
Proof.
  split; [|by split_and!]. split; [done|]. split; [rewrite max_blocks; cbn; lia|]. split; [apply NoDup_singleton|]. split.
  - apply Forall_singleton. split; [split; reflexivity|reflexivity].
  - intros i Hi. unfold bmap. cbn [exec_din direct indirect d_blocks] in *. unfold SFS_NDIRECT. destruct (Z.ltb_spec i 12); [|done].
    destruct (Z.to_nat i) as [|k] eqn:E; [lia|]. do 11 (destruct k as [|k]; [reflexivity|]). lia.
Qed.

Lemma exec_table_ok : table_ok exec_kernel.
Proof.
  split; [done|]. split; [reflexivity|]. intros i f. cbn [exec_kernel filesp fd_array]. destruct (decide (i = 0%nat)) as [->|Hne].
  - intros [= <-]. split; [done|]. right. split; [done|]. split; [done|]. by exists 20, exec_inode.
  - rewrite list_lookup_insert_ne by done. intros [Hi ->]%fd_array_init_lookup. split; [done|]. by left.
Qed.

Lemma exec_closes : closes exec_fs exec_inode exec_sin.
Proof.
  right. do 4 (split; [reflexivity|]). split; [discriminate|]. split.
  { unfold din_ok, word32, word16. cbn. split_and!; try lia; try done. repeat constructor; unfold word32; lia. }
  split; [split; [split; reflexivity|reflexivity]|]. intros _. vm_compute. reflexivity.
Qed.

(** * The memory: the kernel is in the frames up to 519, its page table in frame 520, the
    kernel stack of the process in the frames 521 and 522, and the others are free. *)
Definition exec_npg : Z := 1300.

Definition exec_area : res (free_area * option Z * option Z) :=
  a ← default_init (boot (Z.to_nat exec_npg)); a ← default_init_memmap a 520 780;
  '(a, root) ← default_alloc_pages a 1; '(a, stack) ← default_alloc_pages a KSTACKPAGE; Ok (a, root, stack).

Definition exec_ram : pmem :=
  Pmem (match exec_area with Ok (a, _, _) => a | _ => boot 0 end) (gset_to_gmap boot_root (list_to_set (seqZ 0 exec_npg))).

Lemma exec_area_run : match exec_area with
  | Ok (a, Some p, Some q) => (p =? 520) && (q =? 521) && forallb (fun i => bool_decide (refs a i = Some 0)) (seqZ 520 780) | _ => false end = true.
Proof. vm_compute. reflexivity. Qed.

Definition exec_buf : Z := 0xFFFFFFFFC0600000.
Definition exec_heap : Z := 0xFFFFFFFFC0700000.

Lemma exec_frames i : 0 <= i < exec_npg -> frames exec_ram !! i = Some boot_root.
Proof. intros Hi. apply lookup_gset_to_gmap_Some. split; [|done]. apply elem_of_list_to_set, elem_of_seqZ. lia. Qed.

Lemma exec_memory : exists bl, mem_ok exec_npg exec_ram bl /\ owned exec_ram bl 520 /\ owned exec_ram bl 522 /\ total bl = 777 /\ spare (load_frame exec_buf) exec_ram bl.
Proof.
  pose proof exec_area_run as Hrun. unfold exec_ram. unfold exec_area in *. assert (HK : KSTACKPAGE = 2) by done.
  destruct (default_boot exec_npg (boot (Z.to_nat exec_npg)) 520 780) as (s1 & s2 & H1 & H2 & Hi); [by apply (boot_all_reserved (Z.to_nat exec_npg))|lia|lia|unfold exec_npg; lia|].
  rewrite H1 in *. cbn [mbind res_bind] in *. rewrite H2 in *. cbn [mbind res_bind] in *.
  destruct (pa_alloc exec_npg s2 [(520, 780)] 1) as (s3 & r & E3 & Hr); [destruct Hi; by split|done|lia|]. rewrite E3 in *. cbn [mbind res_bind] in *.
  destruct r as [p|]; [destruct Hr as (bl1 & Hbl1 & Hu1 & Htot1 & Hcov1 & _)|destruct Hr as [_ Hr]; apply Forall_cons in Hr as [Hr _]; cbn in Hr; lia].
  destruct (pa_alloc exec_npg s3 bl1 KSTACKPAGE Hbl1) as (s4 & r & E4 & Hr); [done|done|]. rewrite E4 in *. cbn [mbind res_bind] in *. destruct r as [q|]; [|discriminate Hrun].
  apply andb_prop in Hrun as [Hpq Hrefs]. apply andb_prop in Hpq as [->%Z.eqb_eq ->%Z.eqb_eq]. destruct Hr as (bl & Hbl & Hu & Htot & Hcov & Hkeep). rewrite HK in *. exists bl. split; [split; [exact Hbl|]|split; [|split; [|split; [cbn in Htot1; cbn; lia|]]]].
  - intros f Hf. exists boot_root. split; [|reflexivity]. apply lookup_gset_to_gmap_Some. split; [|done]. apply elem_of_list_to_set, elem_of_seqZ. lia.
  - by apply (Hkeep 520 1).
  - intros i Hi2. apply Hu. lia.
  - intros i Hc. assert (520 <= i < 1300) as Hir.
    { destruct (proj2 (Hcov1 i) (or_introl (proj2 (Hcov i) (or_introl Hc)))) as (b & k & [= -> ->]%list_elem_of_singleton & Hb); lia. }
    split.
    + split; [lia|]. left. unfold kernel_address, page2pa, page2ppn, PHYSICAL_MEMORY_OFFSET. change nbase with (2 ^ 19). rewrite Z.shiftl_mul_pow2 by lia. unfold KERNBASE, exec_buf. rewrite u64_small by lia. lia.
    + rewrite forallb_forall in Hrefs. specialize (Hrefs i). apply bool_decide_eq_true in Hrefs; [exact Hrefs|]. apply list_elem_of_In, elem_of_seqZ. lia.
Qed.

(** * The process *)
Definition exec_proc : proc_struct := set_kstack (Some 521) (fork_proc 1 (Some 1) None None (Some 1)).

Definition exec_procs : gmap Z proc_struct := list_to_map [(1, fork_proc 0 None (Some 2) None None); (2, exec_proc)].

Definition exec_sched : sched_state := SchedState exec_procs (list_to_map ((RunList, ListEntry RunList RunList) :: (self_link <$> [1; 2]))) ∅ (RunQueue 0 5 None).

Definition exec_machine : sys (files_heap (D := disk0)) :=
  Sys (PTable (Sched.Kernel exec_sched 2 1 0) [2] ∅ 2 2 MAX_PID 1) (Vmm ∅ ∅) exec_ram (FilesHeap exec_kernel {[1 := Vfs.filesp exec_kernel]}) {[2 := Ctx 0 0 (tf_addr 521)]}.

Definition exec_buffers : memory := map_seqZ exec_buf (replicate (Z.to_nat 4096) 0).

Lemma exec_file_open : exec_file exec_machine exec_proc 1 (set_filesp (Vfs.filesp exec_kernel) exec_kernel) 0 demo_file0 20 exec_inode exec_sin.
Proof.
  split; [reflexivity|reflexivity|reflexivity|by eexists| |reflexivity|exact exec_closes].
  split; try reflexivity; try lia; [exact exec_table_ok|exact exec_fs_inv|exact exec_file_ok|]. change SFS_MAX_FILE_SIZE with 134217728. cbn. lia.
Qed.

Lemma exec_buffers_ok : buffer_ok exec_buf exec_buffers /\ heap_ok exec_buf exec_heap 4096.
Proof.
  split; [split|].
  - intros x Hx. apply lookup_map_seqZ_is_Some. rewrite length_replicate. unfold IOBUF_SIZE, exec_buf in *. lia.
  - unfold exec_buf. lia.
  - unfold heap_ok, exec_heap, exec_buf. split; [lia|]. split; [vm_compute; discriminate|]. split; [vm_compute; discriminate|]. unfold IOBUF_SIZE. lia.
Qed.

(** * Loading it *)
Definition exec_outcomes : outcomes := Outcomes true true (fun _ => true) 0 0.

(** Two pages are asked for, eight bytes are in the file. *)
Definition exec_ph : proghdr := Proghdr ELF_PT_LOAD 5 120 0x800020 8 5000.

Definition exec_bytes : list Z := file_data (w_fs (k_world (set_filesp (Vfs.filesp exec_kernel) exec_kernel))) (din exec_sin).

Lemma exec_elf : header exec_bytes = Elfhdr ELF_MAGIC 0x800020 64 128 1 64 2.
Proof. vm_compute. reflexivity. Qed.

Lemma exec_headers : headers exec_bytes = [exec_ph].
Proof. vm_compute. reflexivity. Qed.

Lemma exec_tables : sections exec_bytes (Elfhdr ELF_MAGIC 0x800020 64 128 1 64 2) = [Shdr SHT_SYMTAB 256 48 1 SIZEOF_SYM; Shdr 3 304 24 1 0].
Proof. vm_compute. reflexivity. Qed.

Lemma exec_gp : global_pointer exec_bytes (Elfhdr ELF_MAGIC 0x800020 64 128 1 64 2) = 0x800820.
Proof. vm_compute. reflexivity. Qed.

Lemma exec_symbols : forallb (fun sym => (0 <=? st_name sym) && bool_decide (0 ∈ drop (Z.to_nat (st_name sym)) (contents exec_bytes (Shdr 3 304 24 1 0)))) (table_symbols exec_bytes (Shdr SHT_SYMTAB 256 48 1 SIZEOF_SYM)) = true.
Proof. vm_compute. reflexivity. Qed.

Lemma exec_sections : sections_ok (d_size (din exec_sin)) 4096 exec_bytes (Elfhdr ELF_MAGIC 0x800020 64 128 1 64 2).
Proof.
  split; [discriminate|split; [split|]; discriminate|]. rewrite exec_tables. intros sh [->| ->%list_elem_of_singleton]%elem_of_cons Hs; [|by destruct Hs].
  split; [by split; try (split; discriminate); discriminate|]. exists (Shdr 3 304 24 1 0). split; [discriminate|]. split; [reflexivity|]. split; [by split; try (split; discriminate); discriminate|].
  pose proof exec_symbols as H. apply Forall_forall. intros sym Hin. rewrite forallb_forall in H. apply list_elem_of_In, H, andb_prop in Hin as [H1 H2%bool_decide_eq_true]. split; [lia|done].
Qed.

Lemma exec_executable : executable 4096 exec_outcomes (d_size (din exec_sin)) exec_bytes.
Proof.
  split; rewrite ?exec_elf, ?exec_headers; try (cbn; done); [intros _; exact exec_sections| |].
  - intros mm. cbn [fits]. split; [|done]. intros _. split; [|split; [by intros ?%Exists_nil|reflexivity]]. split; try reflexivity; cbn; lia.
  - intros ph ->%list_elem_of_singleton _. discriminate.
Qed.

Lemma exec_room : exists bl, room_to_start exec_npg 520 exec_buf exec_ram bl exec_bytes /\ owned exec_ram bl 522.
Proof.
  destruct exec_memory as (bl & Hm & H1 & H2 & Htot & Hsp). exists bl. split; [|exact H2]. split; [exact Hm|exact Hsp|unfold exec_npg; lia|exact H1| |rewrite exec_headers, Htot; discriminate].
  intros i Hi. change NUDX with 2 in Hi. unfold child, entry. rewrite decide_True, exec_frames by (unfold exec_npg; lia). cbn -[boot_root]. assert (i = 0 \/ i = 1) as [-> | ->] by lia; reflexivity.
Qed.

Lemma exec_program_byte : seg_byte exec_bytes exec_ph 0x800024 = Some 115 /\ seg_byte exec_bytes exec_ph 0x800028 = Some 0.
Proof. vm_compute. split; reflexivity. Qed.

Lemma load_icode_starts_witness :
  exists s' mm root sp argv, load_icode default_alloc_pages default_free_pages (exec_npg + nbase) 520 exec_buf exec_heap exec_buffers exec_outcomes 0 0 1 [[104; 105]] exec_machine = Ok (s', inr 0) /\
    user_byte (ram s') root 0x800024 = Some 115 /\ user_byte (ram s') root 0x800028 = Some 0 /\ arguments root (ram s') [[104; 105]] sp argv /\
    entry (ram s') 522 (NPTEENTRY - TRAPFRAME_WORDS + reg_sp) = Some sp /\ entry (ram s') 522 (NPTEENTRY - TRAPFRAME_WORDS + reg_gp) = Some 0x800820 /\ running s' = Ok (set_pgdir (page2pa root) (set_mm (Some mm) exec_proc)).
Proof.
  destruct exec_room as (bl & Hroom & Hk). destruct exec_buffers_ok as [Hb Hh].
  destruct (load_icode_starts (alloc := default_alloc_pages) (free := default_free_pages) exec_npg ltac:(done) 520 exec_buf exec_heap 4096 exec_buffers exec_outcomes 0 exec_machine exec_proc 1
    (set_filesp (Vfs.filesp exec_kernel) exec_kernel) 0 demo_file0 20 exec_inode exec_sin bl [[104; 105]] (Ctx 0 0 (tf_addr 521)) 521) as (s' & mm & root & sp & argv & al' & t' & f' & Hrun & _ & Hprog & Hcur & Hoth & Htf & _).
  - exact exec_file_open.
  - exact Hb.
  - exact Hh.
  - reflexivity.
  - exact exec_executable.
  - exact Hroom.
  - repeat constructor; discriminate.
  - discriminate.
  - reflexivity.
  - reflexivity.
  - discriminate.
  - exact Hk.
  - exists s', mm, root, sp, argv. split; [exact Hrun|]. fold exec_bytes in Hprog. rewrite exec_headers in Hprog. destruct exec_program_byte as [E1 E2].
    split; [|split; [|split; [apply Hprog|split; [|split]]]].
    + rewrite <- E1. apply (pg_segment _ _ _ _ _ _ _ _ _ _ _ Hprog exec_ph); [by left|done|]. split; [discriminate|reflexivity].
    + rewrite <- E2. apply (pg_segment _ _ _ _ _ _ _ _ _ _ _ Hprog exec_ph); [by left|done|]. split; [discriminate|reflexivity].
    + rewrite Htf; [reflexivity|split; [discriminate|reflexivity]].
    + rewrite Htf; [|split; [discriminate|reflexivity]]. fold exec_bytes. rewrite exec_elf, exec_gp. reflexivity.
    + exact Hcur.
Defined.

(** A segment of two pages that begins inside a page: the bytes of the first page are right,
    but the loop goes on at the same offset in the next one, and what the file has for the
    bytes before that offset is not read. *)
Example unaligned_segment :
  let ph := Proghdr ELF_PT_LOAD 5 120 0x800020 5000 5000 in let data := replicate (Z.to_nat 5200) 7 in
  (forall x, 0x800020 <= x < 0x801000 -> seg_byte data ph x = data !! Z.to_nat (120 + (x - 0x800020))) /\
  seg_byte data ph 0x801010 = Some 0 /\ data !! Z.to_nat (120 + (0x801010 - 0x800020)) = Some 7.
Proof.
  intros ph data. split; [|vm_compute; by split]. intros x Hx. rewrite seg_byte_right; [|exact (proj1 Hx)|right; exact (proj2 Hx)].
  cbn [ph p_va p_filesz p_offset]. rewrite (proj2 (Z.ltb_lt _ _)) by lia. reflexivity.
Qed.
