(* ===== verification/Threads.v ===== *)
(** Threads of the kernel that communicate through semaphores and shared variables.

    A thread is the rest of its program: C statements that read and write shared
    variables, calls of [down] and [up], and marked points where it does something that
    others observe.  A semaphore is its value and the queue of threads that sleep on it,
    in the order of [wait_queue_add]; [up] hands the unit to the first of them, as
    [__up] does through [wakeup_wait].  Any thread that is not asleep may take the next
    step. *)
From S2P Require Import Prelude.

(** * sem.c, as its callers see it *)
Definition q_down {T} (s : Z * list T) (t : T) : Z * list T * bool :=
  if 0 <? s.1 then ((s.1 - 1, s.2), true) else ((s.1, s.2 ++ [t]), false).

Definition q_up {T} (s : Z * list T) : Z * list T * option T :=
  match s.2 with [] => ((i32 (s.1 + 1), []), None) | t :: ws => ((s.1, ws), Some t) end.

Section Threads.
Context {N : Type} `{EqDecision N} {V L : Type}.

Inductive prog : Type :=
| Done
| Act (f : V -> V * prog)
| Down (m : N) (k : prog)
| Up (m : N) (k : prog)
| Mark (l : L) (k : prog).

(** A thread that sleeps on a semaphore goes on with [k] once it is woken. *)
Inductive thread : Type := Ready (p : prog) | Waiting (m : N) (k : prog).

Record pool : Type := Pool { sems : N -> Z * list nat; vars : V; threads : list thread }.

Definition wake (t : nat) (ts : list thread) : list thread :=
  match ts !! t with Some (Waiting _ k) => <[t := Ready k]> ts | _ => ts end.

(** * A step of thread [t] *)
Definition set_sem (m : N) (q : Z * list nat) (s : N -> Z * list nat) : N -> Z * list nat := fun n => if decide (n = m) then q else s n.

Definition pool_step (t : nat) (s : pool) : option pool :=
  match threads s !! t with
  | Some (Ready (Act f)) => let '(v, p) := f (vars s) in Some (Pool (sems s) v (<[t := Ready p]> (threads s)))
  | Some (Ready (Down m k)) =>
      let '(q, ok) := q_down (sems s m) t in
      Some (Pool (set_sem m q (sems s)) (vars s) (<[t := if (ok : bool) then Ready k else Waiting m k]> (threads s)))
  | Some (Ready (Up m k)) =>
      let '(q, w) := q_up (sems s m) in
      let ts := <[t := Ready k]> (threads s) in
      Some (Pool (set_sem m q (sems s)) (vars s) (match w with Some u => wake u ts | None => ts end))
  | Some (Ready (Mark l k)) => Some (Pool (sems s) (vars s) (<[t := Ready k]> (threads s)))
  | _ => None
  end.

Definition pool_steps (s s' : pool) : Prop := exists t, pool_step t s = Some s'.

(** Steps of the threads in [ts], in this order. *)
Fixpoint run (ts : list nat) (s : pool) : option pool :=
  match ts with [] => Some s | t :: ts' => s ← pool_step t s; run ts' s end.

(** A scheduler: each thread in turn for as long as it can go on. *)
Fixpoint drive (fuel : nat) (t n : nat) (s : pool) : list nat * pool :=
  match fuel with
  | O => ([], s)
  | S fuel' =>
      match pool_step t s with
      | Some s1 => let '(ts, s2) := drive fuel' t n s1 in (t :: ts, s2)
      | None => drive fuel' (if decide (S t = n) then O else S t) n s
      end
  end.

Lemma drive_run fuel t n s : run (drive fuel t n s).1 s = Some (drive fuel t n s).2.
Proof.
  revert t s. induction fuel as [|fuel IH]; intros t s; [done|]. cbn [drive]. destruct (pool_step t s) as [s1|] eqn:E; [|apply IH].
  specialize (IH t s1). destruct (drive fuel t n s1) as [ts s2]. cbn [fst snd run] in *. by rewrite E.
Qed.

Lemma run_steps ts s s' : run ts s = Some s' -> rtc pool_steps s s'.
Proof.
  revert s. induction ts as [|t ts IH]; intros s; cbn; [by intros [= ->]|]. destruct (pool_step t s) as [s1|] eqn:E; [|done]. intros Hr. eapply rtc_l; [by exists t|by apply IH].
Qed.

Lemma set_sem_eq m q s : set_sem m q s m = q.
Proof. unfold set_sem. by rewrite decide_True. Qed.

Lemma set_sem_ne m n q s : n <> m -> set_sem m q s n = s n.
Proof. intros. unfold set_sem. by rewrite decide_False. Qed.

Lemma wake_length t ts : length (wake t ts) = length ts.
Proof. unfold wake. destruct (ts !! t) as [[p|m k]|]; [done| |done]. by rewrite length_insert. Qed.

Lemma pool_step_length t s s' : pool_step t s = Some s' -> length (threads s') = length (threads s).
Proof.
  unfold pool_step. destruct (threads s !! t) as [[[|f|m k|m k|l k]|m k]|]; try done.
  - destruct (f (vars s)) as [v p]. intros [= <-]. cbn [threads]. by rewrite length_insert.
  - destruct (q_down (sems s m) t) as [q ok]. intros [= <-]. cbn [threads]. by rewrite length_insert.
  - destruct (q_up (sems s m)) as [q [u|]]; intros [= <-]; cbn [threads]; rewrite ?wake_length; by rewrite length_insert.
  - intros [= <-]. cbn [threads]. by rewrite length_insert.
Qed.

Lemma steps_length s s' : rtc pool_steps s s' -> length (threads s') = length (threads s).
Proof. intros Hr. induction Hr as [|s s1 s' [t Ht] _ IH]; [done|]. rewrite IH. by eapply pool_step_length. Qed.

(** * Programs of bounded length *)
Inductive bounded : nat -> prog -> Prop :=
| bounded_done n : bounded n Done
| bounded_act n f : (forall v, bounded n (f v).2) -> bounded (S n) (Act f)
| bounded_down n m k : bounded n k -> bounded (S n) (Down m k)
| bounded_up n m k : bounded n k -> bounded (S n) (Up m k)
| bounded_mark n l k : bounded n k -> bounded (S n) (Mark l k).

Lemma bounded_le n n' p : bounded n p -> (n <= n')%nat -> bounded n' p.
Proof.
  intros Hb. revert n'. induction Hb as [n|n f _ IH|n m k _ IH|n m k _ IH|n l k _ IH]; intros n' Hn; [constructor|..]; (destruct n'; [lia|]); constructor; intros; apply IH; lia.
Qed.

(** A sleeping thread has one step more to go than when it is woken. *)
Inductive budget : nat -> thread -> Prop :=
| budget_ready n p : bounded n p -> budget (2 * n) (Ready p)
| budget_waiting n m k : bounded n k -> budget (2 * n + 1) (Waiting m k).

Lemma sum_insert (l : list nat) i x y : l !! i = Some x -> (sum_list (<[i := y]> l) + x = sum_list l + y)%nat.
Proof.
  revert i. induction l as [|z l IH]; intros [|i] Hi; try done; [injection Hi as ->; cbn; lia|]. cbn in Hi. change (<[S i := y]> (z :: l)) with (z :: <[i := y]> l). specialize (IH i Hi). cbn. lia.
Qed.

Definition pool_budget (n : nat) (s : pool) : Prop := exists ns, Forall2 budget ns (threads s) /\ (sum_list ns <= n)%nat.

Lemma wake_budget t ts ns : Forall2 budget ns ts -> exists ns', Forall2 budget ns' (wake t ts) /\ (sum_list ns' <= sum_list ns)%nat.
Proof.
  intros Hb. unfold wake. destruct (ts !! t) as [[p|m k]|] eqn:Ht; [by exists ns| |by exists ns].
  destruct (Forall2_lookup_r _ _ _ _ _ Hb Ht) as (n & Hn & Hbn). inversion Hbn as [|n' m' k' Hk]; subst.
  exists (<[t := (2 * n')%nat]> ns). split; [apply Forall2_insert; [done|by constructor]|]. pose proof (sum_insert ns t _ (2 * n') Hn). lia.
Qed.

Lemma pool_step_budget n t s s' : pool_budget n s -> pool_step t s = Some s' -> exists n', (n' < n)%nat /\ pool_budget n' s'.
Proof.
  intros (ns & Hb & Hn) Hstep. unfold pool_step in Hstep. destruct (threads s !! t) as [[p|m k]|] eqn:Ht; try done.
  destruct (Forall2_lookup_r _ _ _ _ _ Hb Ht) as (x & Hx & Hbx). inversion Hbx as [b p' Hp|]; subst.
  assert (Hto : forall y th, budget y th -> (y < 2 * b)%nat -> exists ns', Forall2 budget ns' (<[t := th]> (threads s)) /\ (sum_list ns' < sum_list ns)%nat).
  { intros y th Hy Hlt. exists (<[t := y]> ns). split; [by apply Forall2_insert|]. pose proof (sum_insert ns t _ y Hx). lia. }
  assert (Hdone : forall ts, (exists ns', Forall2 budget ns' ts /\ (sum_list ns' < sum_list ns)%nat) -> forall ss vv, exists n', (n' < n)%nat /\ pool_budget n' (Pool ss vv ts)).
  { intros ts (ns' & Hb' & Hlt) ss vv. exists (sum_list ns'). split; [lia|]. exists ns'. by split. }
  destruct p as [|f|m k|m k|l k]; [done|inversion Hp as [|b' f' Hk| | |]|inversion Hp as [| |b' m' k' Hk| |]|inversion Hp as [| | |b' m' k' Hk|]|inversion Hp as [| | | |b' l' k' Hk]]; subst.
  - specialize (Hk (vars s)). destruct (f (vars s)) as [v p]. injection Hstep as <-. apply Hdone, (Hto (2 * b')%nat); [by constructor|lia].
  - destruct (q_down (sems s m) t) as [q ok]. injection Hstep as <-. apply Hdone. destruct ok; [apply (Hto (2 * b')%nat)|apply (Hto (2 * b' + 1)%nat)]; (by constructor) || lia.
  - destruct (q_up (sems s m)) as [q w]. injection Hstep as <-. apply Hdone. destruct (Hto (2 * b')%nat (Ready k)) as (ns' & Hb' & Hlt); [by constructor|lia|]. destruct w as [u|]; [|by exists ns'].
    destruct (wake_budget u _ _ Hb') as (ns2 & Hb2 & Hle). exists ns2. split; [done|lia].
  - injection Hstep as <-. apply Hdone, (Hto (2 * b')%nat); [by constructor|lia].
Qed.

Lemma run_budget ts : forall n s s', pool_budget n s -> run ts s = Some s' -> (length ts <= n)%nat.
Proof.
  induction ts as [|t ts IH]; intros n s s' Hb Hr; cbn in Hr |- *; [lia|]. destruct (pool_step t s) as [s1|] eqn:E; [|done].
  destruct (pool_step_budget n t s s1 Hb E) as (n' & Hlt & Hb1). specialize (IH n' s1 s' Hb1 Hr). lia.
Qed.
End Threads.

#[global] Arguments prog : clear implicits.
#[global] Arguments thread : clear implicits.
#[global] Arguments pool : clear implicits.
#[global] Arguments prog _ _ _ : assert.

(** How many elements of a list have a property. *)
Definition count_of {A} (f : A -> bool) (l : list A) : Z := Z.of_nat (length (filter (fun x => f x = true) l)).

Lemma count_of_insert {A} (f : A -> bool) l i x y : l !! i = Some x -> count_of f (<[i := y]> l) + Z.b2z (f x) = count_of f l + Z.b2z (f y).
Proof.
  unfold count_of. revert i. induction l as [|z l IH]; intros [|i] Hi; try done; cbn in Hi.
  - injection Hi as ->. cbn [insert list_insert]. rewrite !filter_cons. destruct (decide (f x = true)) as [Ex|Ex], (decide (f y = true)) as [Ey|Ey]; rewrite ?Ex, ?Ey, ?(not_true_is_false _ Ex), ?(not_true_is_false _ Ey); cbn [length Z.b2z]; lia.
  - change (<[S i := y]> (z :: l)) with (z :: <[i := y]> l). rewrite !filter_cons. specialize (IH _ Hi). destruct (decide (f z = true)); cbn [length]; lia.
Qed.

Lemma count_of_pos {A} (f : A -> bool) l : 0 < count_of f l -> exists i x, l !! i = Some x /\ f x = true.
Proof.
  unfold count_of. intros Hp. destruct (filter (fun x => f x = true) l) as [|x k] eqn:E; [cbn in Hp; lia|].
  assert (x ∈ filter (fun x => f x = true) l) as Hx by (rewrite E; left). apply list_elem_of_filter in Hx as [Hf [i Hi]%list_elem_of_lookup]. by exists i, x.
Qed.

Lemma count_of_elem {A} (f : A -> bool) l i x : l !! i = Some x -> f x = true -> 0 < count_of f l.
Proof.
  intros Hi Hf. assert (x ∈ filter (fun x => f x = true) l) as Hx by (apply list_elem_of_filter; split; [done|by eapply list_elem_of_lookup_2]).
  unfold count_of. destruct (filter _ l); [by apply not_elem_of_nil in Hx|cbn [length]; lia].
Qed.

Lemma count_of_le {A} (f : A -> bool) l : 0 <= count_of f l <= Z.of_nat (length l).
Proof. unfold count_of. pose proof (length_filter (fun x => f x = true) l). lia. Qed.

Lemma count_of_zero {A} (f : A -> bool) l : Forall (fun x => f x = false) l -> count_of f l = 0.
Proof.
  intros Hl. unfold count_of. induction Hl as [|x l Hx _ IH]; [done|]. rewrite filter_cons, decide_False by congruence. done.
Qed.
