(* ===== verification/Monitor.v ===== *)
(** Monitors and their condition variables (lab8/kern/sync/monitor.c), and the rules by
    which the routines of a monitor are shown correct.

    A routine is a program of [Threads] that enters with [down(&mutex)], works on the
    data of the monitor, may call [cond_wait] and [cond_signal], and leaves as the
    comment of monitor.h prescribes.  [rt] and [ot] are the rules: the monitor's
    invariant [MI] holds whenever nobody is inside; who signals a condition variable
    hands over what [PC] promises for it; what a thread says about the data while it is
    outside or asleep must survive what the others do ([G]).  [minv] is what holds in
    every state that such threads can reach. *)
From S2P Require Import Prelude Threads.

Inductive msem : Type := Mutex | Next | CvSem (i : Z).

#[export] Instance msem_eq_dec : EqDecision msem.
Proof. solve_decision. Defined.

(** [next_count], the [count]s of the condition variables, and the client's data. *)
Record monitor (D : Type) : Type := Mon { next_count : Z; cv_count : Z -> Z; data : D }.
Arguments Mon {D} _ _ _.
Arguments next_count {D} _.
Arguments cv_count {D} _.
Arguments data {D} _.

Section Code.
Context {D L : Type}.
Notation mprog := (prog msem (monitor D) L).
Implicit Types k : mprog.

Definition add_next (d : Z) (v : monitor D) : monitor D := Mon (i32 (next_count v + d)) (cv_count v) (data v).
Definition add_count (cv d : Z) (v : monitor D) : monitor D :=
  Mon (next_count v) (fun i => if decide (i = cv) then i32 (cv_count v cv + d) else cv_count v i) (data v).

(** The client's own statement on its data. *)
Definition client (f : D -> D * mprog) : mprog := Act (fun v => let '(d, p) := f (data v) in (Mon (next_count v) (cv_count v) d, p)).

(** [if (next_count > 0) up(&next); else up(&mutex);] *)
Definition release k : mprog := Act (fun v => (v, if 0 <? next_count v then Up Next k else Up Mutex k)).

Definition enter k : mprog := Down Mutex k.

(** [cond_signal], from the end. *)
Definition signal_end k : mprog := Act (fun v => (add_next (-1) v, k)).
Definition signal_sleep k : mprog := Down Next (signal_end k).
Definition signal_wake (cv : Z) k : mprog := Up (CvSem cv) (signal_sleep k).
Definition signal_start (cv : Z) k : mprog := Act (fun v => (add_next 1 v, signal_wake cv k)).
Definition cond_signal (cv : Z) k : mprog := Act (fun v => (v, if 0 <? cv_count v cv then signal_start cv k else k)).

(** [cond_wait], from the end. *)
Definition wait_end (cv : Z) k : mprog := Act (fun v => (add_count cv (-1) v, k)).
Definition wait_sleep (cv : Z) k : mprog := Down (CvSem cv) (wait_end cv k).
Definition cond_wait (cv : Z) k : mprog := Act (fun v => (add_count cv 1 v, release (wait_sleep cv k))).

(** How long they are. *)
Lemma bounded_client n f : (forall d, bounded n (f d).2) -> bounded (S n) (client f).
Proof. intros Hf. constructor. intros v. specialize (Hf (data v)). cbn. by destruct (f (data v)). Qed.

Lemma bounded_release n k : bounded n k -> bounded (2 + n) (release k).
Proof. intros Hk. constructor. intros v. cbn. destruct (0 <? next_count v); by constructor. Qed.

Lemma bounded_signal n cv k : bounded n k -> bounded (5 + n) (cond_signal cv k).
Proof.
  intros Hk. constructor. intros v. cbn. destruct (0 <? cv_count v cv); [|eapply bounded_le; [exact Hk|lia]].
  constructor. intros v1. do 2 constructor. constructor. intros v2. exact Hk.
Qed.

Lemma bounded_wait n cv k : bounded n k -> bounded (5 + n) (cond_wait cv k).
Proof. intros Hk. constructor. intros v. apply (bounded_release (2 + n)). do 2 constructor. intros v1. exact Hk. Qed.

(** The pool that [monitor_init] leaves, with the threads [ts] ready.  The counter of a
    condition variable and its semaphore are functions of its number, 0 for each: the loop
    sets them for the numbers below [num_cv], and the clients use no others (five
    philosophers, [N] variables).  That [num_cv] is not 0 and that [kmalloc] succeeds, which
    it asserts, is taken for granted. *)
Definition monitor_init (d : D) (ts : list mprog) : pool msem (monitor D) L :=
  Pool (fun m => (if decide (m = Mutex) then 1 else 0, [])) (Mon 0 (fun _ => 0) d) (Ready <$> ts).
End Code.

(** * The rules *)
Section Rules.
Context {D L A : Type}.
Notation mprog := (prog msem (monitor D) L).

(** Beyond the data, assertions speak about the threads: the condition variable that each
    waits for, which the rules keep up to date, and a note [A] of its own. *)
Abbreviation notes := (nat -> option Z * A).
Abbreviation assn := (D -> notes -> Prop).

Definition waiting_note (g : notes) (t : nat) (w : option Z) (a : A) : notes := fun x => if decide (x = t) then (w, a) else g x.
Abbreviation note g t a := (waiting_note g t None a).

Definition nobody_waits (cv : Z) (g : notes) : Prop := forall t, (g t).1 <> Some cv.

Context (MI : assn) (PC : Z -> assn) (G : nat -> D -> notes -> D -> notes -> Prop).
(** What else a thread owes: while it is not inside, and at its marks or its end. *)
Context (Rest : nat -> assn) (LI : option L -> nat -> assn).
(** What every step keeps, inside or not. *)
Context (AL : assn) (HAL : forall t d g d' g', G t d g d' g' -> AL d g -> AL d' g').

Definition stable (t : nat) (B : assn) : Prop := forall t' d g d' g', t' <> t -> G t' d g d' g' -> B d g -> B d' g'.

Definition shift (t : nat) (B B' : assn) : Prop := forall d g, B d g -> exists a, G t d g d (note g t a) /\ B' d (note g t a).

Definition outside (t : nat) (B : assn) : Prop := stable t B /\ forall d g, B d g -> Rest t d g.

(** The same with a note that the thread waits for [cv]. *)
Definition shift_wait (t : nat) (cv : Z) (B B' : assn) : Prop :=
  forall d g, B d g -> exists a, G t d g d (waiting_note g t (Some cv) a) /\ B' d (waiting_note g t (Some cv) a).

Inductive rt (t : nat) : assn -> mprog -> Prop :=
| rt_client (B : assn) f :
    (forall d g, B d g -> exists a B', G t d g (f d).1 (note g t a) /\ (B' : assn) (f d).1 (note g t a) /\ rt t B' (f d).2) ->
    rt t B (client f)
| rt_signal (B1 B B2 B3 : assn) cv k :
    shift t (fun d g => B1 d g /\ ~ nobody_waits cv g) (fun d g => PC cv d g /\ B d g) -> stable t B -> shift t (fun d g => MI d g /\ B d g) B2 -> rt t B2 k ->
    shift t (fun d g => B1 d g /\ nobody_waits cv g) B3 -> rt t B3 k -> rt t B1 (cond_signal cv k)
| rt_wait (B1 B B2 : assn) cv k :
    shift_wait t cv B1 (fun d g => MI d g /\ B d g) -> outside t B -> shift t (fun d g => PC cv d g /\ B d g) B2 ->
    rt t B2 k -> rt t B1 (cond_wait cv k)
| rt_release (B1 B : assn) k :
    shift t B1 (fun d g => MI d g /\ B d g) -> stable t B -> ot t B k -> rt t B1 (release k)
with ot (t : nat) : assn -> mprog -> Prop :=
| ot_done (B : assn) : outside t B -> (forall d g, B d g -> LI None t d g) -> ot t B Done
| ot_mark (B : assn) l k : outside t B -> (forall d g, B d g -> LI (Some l) t d g) -> ot t B k -> ot t B (Mark l k)
| ot_enter (B B1 : assn) k : outside t B -> shift t (fun d g => MI d g /\ B d g) B1 -> rt t B1 k -> ot t B (enter k).

(** * What holds in every reachable state *)

(** Where a thread is in the code; [active]: inside the monitor; [in_signal] and
    [in_wait]: counted by [next_count] and by the [count] of a condition variable. *)
Inductive place : Type := POut | PEnter | PIn | PSignal1 | PSignal2 | PSignal3 | PSignal4 | PSignal5 | PWait1 (cv : Z) | PWait2 (cv : Z) | PWait3 (cv : Z) | PWait4 (cv : Z) | PWait5 (cv : Z) | PRelease.

Definition active (p : place) : bool :=
  match p with PIn | PSignal1 | PSignal2 | PSignal5 | PWait1 _ | PWait2 _ | PWait5 _ | PRelease => true | _ => false end.
Definition in_signal (p : place) : bool := match p with PSignal2 | PSignal3 | PSignal4 | PSignal5 => true | _ => false end.
Definition in_wait (cv : Z) (p : place) : bool := match p with PWait1 i | PWait2 i | PWait3 i | PWait4 i | PWait5 i => bool_decide (i = cv) | _ => false end.

(** Who waits for which condition variable. *)
Definition waits_for (p : place) : option Z := match p with PWait1 i | PWait2 i | PWait3 i | PWait4 i => Some i | _ => None end.

Definition waiter (pls : list place) (t : nat) : option Z := pls !! t ≫= waits_for.

(** The semaphore that is raised to let somebody in. *)
Definition release_to (n : Z) (m : msem) : Prop := m = if 0 <? n then Next else Mutex.

(** Thread [t] is at a place, with what it knows; in the state [v]. *)
Inductive at_place (v : monitor D) (g : notes) (t : nat) : thread msem (monitor D) L -> place -> Prop :=
| at_out B p : ot t B p -> B (data v) g -> at_place v g t (Ready p) POut
| at_enter B B1 k : outside t B -> B (data v) g -> shift t (fun d g => MI d g /\ B d g) B1 -> rt t B1 k -> at_place v g t (Waiting Mutex k) PEnter
| at_in B p : rt t B p -> B (data v) g -> at_place v g t (Ready p) PIn
| at_signal1 cv B B2 k : 0 < cv_count v cv -> PC cv (data v) g -> B (data v) g -> stable t B -> shift t (fun d g => MI d g /\ B d g) B2 -> rt t B2 k -> at_place v g t (Ready (signal_start cv k)) PSignal1
| at_signal2 cv B B2 k : 0 < cv_count v cv -> PC cv (data v) g -> B (data v) g -> stable t B -> shift t (fun d g => MI d g /\ B d g) B2 -> rt t B2 k -> at_place v g t (Ready (signal_wake cv k)) PSignal2
| at_signal3 B B2 k : B (data v) g -> stable t B -> shift t (fun d g => MI d g /\ B d g) B2 -> rt t B2 k -> at_place v g t (Ready (signal_sleep k)) PSignal3
| at_signal4 B B2 k : B (data v) g -> stable t B -> shift t (fun d g => MI d g /\ B d g) B2 -> rt t B2 k -> at_place v g t (Waiting Next (signal_end k)) PSignal4
| at_signal5 B k : rt t B k -> B (data v) g -> at_place v g t (Ready (signal_end k)) PSignal5
| at_wait1 cv B B2 k : MI (data v) g -> B (data v) g -> outside t B -> shift t (fun d g => PC cv d g /\ B d g) B2 -> rt t B2 k ->
    at_place v g t (Ready (release (wait_sleep cv k))) (PWait1 cv)
| at_wait2 cv m B B2 k : release_to (next_count v) m -> MI (data v) g -> B (data v) g -> outside t B -> shift t (fun d g => PC cv d g /\ B d g) B2 -> rt t B2 k ->
    at_place v g t (Ready (Up m (wait_sleep cv k))) (PWait2 cv)
| at_wait3 cv B B2 k : B (data v) g -> outside t B -> shift t (fun d g => PC cv d g /\ B d g) B2 -> rt t B2 k ->
    at_place v g t (Ready (wait_sleep cv k)) (PWait3 cv)
| at_wait4 cv B B2 k : B (data v) g -> outside t B -> shift t (fun d g => PC cv d g /\ B d g) B2 -> rt t B2 k ->
    at_place v g t (Waiting (CvSem cv) (wait_end cv k)) (PWait4 cv)
| at_wait5 cv B k : rt t B k -> B (data v) g -> at_place v g t (Ready (wait_end cv k)) (PWait5 cv)
| at_release m B k : release_to (next_count v) m -> MI (data v) g -> B (data v) g -> stable t B -> ot t B k -> at_place v g t (Ready (Up m k)) PRelease.

(** Who may be inside: a thread, or whoever takes the unit of a semaphore next. *)
Inductive holder : Type := HSem (m : msem) | HThread (t : nat).

#[local] Instance holder_eq_dec : EqDecision holder.
Proof. solve_decision. Defined.

(** What a unit of a semaphore carries. *)
Definition gives (m : msem) : assn := match m with CvSem cv => PC cv | _ => MI end.

Record minv (s : pool msem (monitor D) L) (g : notes) (pls : list place) (h : holder) : Prop := MInv {
  mi_threads t th : threads s !! t = Some th -> exists pl, pls !! t = Some pl /\ at_place (vars s) g t th pl;
  mi_length : length pls = length (threads s) /\ Z.of_nat (length pls) < 2 ^ 31;
  mi_active t pl : pls !! t = Some pl -> active pl = true -> h = HThread t;
  mi_holder t : h = HThread t -> exists pl, pls !! t = Some pl /\ active pl = true;
  mi_value m : (sems s m).1 = if decide (h = HSem m) then 1 else 0;
  mi_queue m : (h = HSem m -> (sems s m).2 = []) /\ NoDup (sems s m).2 /\ forall t, t ∈ (sems s m).2 <-> exists k, threads s !! t = Some (Waiting m k);
  mi_gives m : h = HSem m -> gives m (data (vars s)) g /\
    match m with
    | Mutex => next_count (vars s) = 0
    | Next => exists t, pls !! t = Some PSignal3
    | CvSem cv => exists t, pls !! t = Some (PWait3 cv)
    end;
  mi_always : AL (data (vars s)) g;
  mi_notes t : (g t).1 = waiter pls t;
  mi_next : next_count (vars s) = count_of in_signal pls;
  mi_count cv : cv_count (vars s) cv = count_of (in_wait cv) pls
}.

(** A thread that is not inside does not mind what the others do. *)
Lemma at_place_other v g v' g' t th pl :
  at_place v g t th pl -> active pl = false -> (forall B, stable t B -> B (data v) g -> B (data v') g') -> at_place v' g' t th pl.
Proof.
  intros Hat Hpl Hs. destruct Hat; try discriminate Hpl; econstructor; try eassumption; try (eapply Hs; [|eassumption]; try eassumption).
  all: try (match goal with H : outside _ _ |- _ => apply H end).
  inversion H; subst; match goal with H : outside _ _ |- _ => apply H end.
Qed.

(** Taking the unit of semaphore [m], at once or when woken. *)
Lemma at_place_take v g t m k pl th :
  th = Ready (Down m k) \/ th = Waiting m k -> at_place v g t th pl -> active pl = false -> gives m (data v) g ->
  exists a pl', G t (data v) g (data v) (note g t a) /\ at_place v (note g t a) t (Ready k) pl' /\ active pl' = true /\ waits_for pl' = None /\
    in_signal pl' = in_signal pl /\ (forall cv, in_wait cv pl' = in_wait cv pl).
Proof.
  intros Hth Hat Hpl Hg.
  destruct Hat as [B p Hot HB|B B1 k' Ho HB Hsh Hrt| | | |B B2 k' HB Hst Hsh Hrt|B B2 k' HB Hst Hsh Hrt| | | |cv B B2 k' HB Ho Hsh Hrt|cv B B2 k' HB Ho Hsh Hrt| |]; try discriminate Hpl.
  - destruct Hth as [Hth|Hth]; [|discriminate Hth]. injection Hth as ->. inversion Hot as [| |B' B1 k' Ho Hsh Hrt E1 E2]; subst. destruct (Hsh (data v) g (conj Hg HB)) as (a & HG & HB1).
    exists a, PIn. split; [done|]. split; [by econstructor|done].
  - destruct Hth as [Hth|Hth]; [discriminate Hth|]. injection Hth as <- <-. destruct (Hsh (data v) g (conj Hg HB)) as (a & HG & HB1). exists a, PIn. split; [done|]. split; [by econstructor|done].
  - destruct Hth as [Hth|Hth]; [|discriminate Hth]. injection Hth as <- <-. destruct (Hsh (data v) g (conj Hg HB)) as (a & HG & HB1). exists a, PSignal5. split; [done|]. split; [by econstructor|done].
  - destruct Hth as [Hth|Hth]; [discriminate Hth|]. injection Hth as <- <-. destruct (Hsh (data v) g (conj Hg HB)) as (a & HG & HB1). exists a, PSignal5. split; [done|]. split; [by econstructor|done].
  - destruct Hth as [Hth|Hth]; [|discriminate Hth]. injection Hth as <- <-. destruct (Hsh (data v) g (conj Hg HB)) as (a & HG & HB1). exists a, (PWait5 cv). split; [done|]. split; [by econstructor|done].
  - destruct Hth as [Hth|Hth]; [discriminate Hth|]. injection Hth as <- <-. destruct (Hsh (data v) g (conj Hg HB)) as (a & HG & HB1). exists a, (PWait5 cv). split; [done|]. split; [by econstructor|done].
Qed.

(** Falling asleep instead. *)
Lemma at_place_sleep v g t m k pl :
  at_place v g t (Ready (Down m k)) pl -> active pl = false ->
  exists pl', at_place v g t (Waiting m k) pl' /\ active pl' = false /\ waits_for pl' = waits_for pl /\ in_signal pl' = in_signal pl /\ (forall cv, in_wait cv pl' = in_wait cv pl).
Proof.
  intros Hat Hpl. inversion Hat as [B p Hot HB| |B p Hrt HB| | |B B2 k' HB Hst Hsh Hrt| | | | |cv B B2 k' HB Ho Hsh Hrt| | |]; subst; try discriminate Hpl.
  - inversion Hot as [| |B' B1 k' Ho Hsh Hrt E1 E2]; subst. exists PEnter. split; [by econstructor|done].
  - exists PSignal4. split; [by econstructor|done].
  - exists (PWait4 cv). split; [by econstructor|done].
Qed.

Lemma queue_update (ts : list (thread msem (monitor D) L)) t th m (q : list nat) :
  (exists k, ts !! t = Some (Ready k)) -> (forall k, th <> Waiting m k) -> (forall x, x ∈ q <-> exists k, ts !! x = Some (Waiting m k)) ->
  forall x, x ∈ q <-> exists k, <[t := th]> ts !! x = Some (Waiting m k).
Proof.
  intros [k0 Ht] Hth Hq x. rewrite Hq. destruct (decide (x = t)) as [->|Hne]; [|by rewrite list_lookup_insert_ne by done].
  rewrite list_lookup_insert_eq by (by apply lookup_lt_Some in Ht). split; [intros [k Hk]; congruence|intros [k [= E]]; by destruct (Hth k)].
Qed.

Lemma waiter_insert pls t pl x : (t < length pls)%nat -> waiter (<[t := pl]> pls) x = if decide (x = t) then waits_for pl else waiter pls x.
Proof. intros Hlt. unfold waiter. destruct (decide (x = t)) as [->|Hne]; [by rewrite list_lookup_insert_eq|by rewrite list_lookup_insert_ne]. Qed.

Lemma waiter_same pls t pl pl' x : pls !! t = Some pl -> waits_for pl' = waits_for pl -> waiter (<[t := pl']> pls) x = waiter pls x.
Proof.
  intros Hpl Hw. rewrite waiter_insert by (by eapply lookup_lt_Some). destruct (decide (x = t)) as [->|]; [|done]. unfold waiter. by rewrite Hpl, Hw.
Qed.

Lemma note_other g t w a x : x <> t -> waiting_note g t w a x = g x.
Proof. intros. unfold waiting_note. by rewrite decide_False. Qed.

Lemma note_self g t w a : waiting_note g t w a t = (w, a).
Proof. unfold waiting_note. by rewrite decide_True. Qed.

Lemma waiter_note g pls t pl a x :
  (forall y, (g y).1 = waiter pls y) -> (t < length pls)%nat -> waits_for pl = None -> (note g t a x).1 = waiter (<[t := pl]> pls) x.
Proof.
  intros Hg Hlt Hw. rewrite waiter_insert by done. destruct (decide (x = t)) as [->|Hne]; [by rewrite note_self, Hw|]. rewrite note_other by done. apply Hg.
Qed.

(** A statement of a thread that is inside. *)
Lemma minv_act s g pls h t f v' p' g' pl pl' :
  minv s g pls h -> threads s !! t = Some (Ready (Act f)) -> f (vars s) = (v', p') -> pls !! t = Some pl -> active pl = true -> active pl' = true ->
  at_place v' g' t (Ready p') pl' -> (forall t' B, t' <> t -> stable t' B -> B (data (vars s)) g -> B (data v') g') ->
  next_count v' = next_count (vars s) + Z.b2z (in_signal pl') - Z.b2z (in_signal pl) ->
  (forall cv, cv_count v' cv = cv_count (vars s) cv + Z.b2z (in_wait cv pl') - Z.b2z (in_wait cv pl)) ->
  (g' t).1 = waits_for pl' -> (forall x, x <> t -> (g' x).1 = (g x).1) -> (AL (data (vars s)) g -> AL (data v') g') ->
  exists g pls h, minv (Pool (sems s) v' (<[t := Ready p']> (threads s))) g pls h.
Proof.
  intros [Hth [Hlen Hsmall] Hact Hhold Hval Hq Hg Hal Hnotes Hn Hc] Ht Hf Hpl Ha Ha' Hat Hoth En Ec Hw Hwo Hal'. exists g', (<[t := pl']> pls), h.
  pose proof (Hact t pl Hpl Ha) as ->. pose proof (lookup_lt_Some _ _ _ Hpl) as Hlt. split; cbn [threads vars sems].
  - intros x th Hx. destruct (decide (x = t)) as [->|Hne].
    + rewrite list_lookup_insert_eq in Hx by lia. injection Hx as <-. exists pl'. by rewrite list_lookup_insert_eq.
    + rewrite list_lookup_insert_ne in Hx by done. destruct (Hth x th Hx) as (plx & Hplx & Hax). exists plx. rewrite list_lookup_insert_ne by done. split; [done|].
      eapply at_place_other; [exact Hax| |exact (fun B => Hoth x B Hne)]. destruct (active plx) eqn:E; [|done]. specialize (Hact x plx Hplx E). congruence.
  - rewrite !length_insert. done.
  - intros x plx Hx Hax. destruct (decide (x = t)) as [->|Hne]; [done|]. rewrite list_lookup_insert_ne in Hx by done. by eapply Hact.
  - intros x [= <-]. exists pl'. by rewrite list_lookup_insert_eq.
  - done.
  - intros m. destruct (Hq m) as (H1 & H2 & H3). split; [done|]. split; [done|]. by apply queue_update; [eexists| |].
  - done.
  - by apply Hal'.
  - intros x. rewrite waiter_insert by done. destruct (decide (x = t)) as [->|Hne]; [done|]. by rewrite Hwo.
  - pose proof (count_of_insert in_signal pls t pl pl' Hpl). lia.
  - intros cv. pose proof (count_of_insert (in_wait cv) pls t pl pl' Hpl). rewrite Ec, Hc. lia.
Qed.

(** A marked point: outside, and nothing changes. *)
Lemma minv_mark s g pls h t l k :
  minv s g pls h -> threads s !! t = Some (Ready (Mark l k)) -> exists g pls h, minv (Pool (sems s) (vars s) (<[t := Ready k]> (threads s))) g pls h.
Proof.
  intros [Hth [Hlen Hsmall] Hact Hhold Hval Hq Hg Hal Hnotes Hn Hc] Ht. exists g, pls, h. destruct (Hth t _ Ht) as (pl & Hpl & Hat).
  inversion Hat as [B p Hot HB| |B p Hrt HB| | | | | | | | | | |]; subst; [|inversion Hrt].
  inversion Hot as [|B' l' k' Ho HL Hk|]; subst. split; cbn [threads vars sems]; try done.
  - intros x th Hx. destruct (decide (x = t)) as [->|Hne].
    + rewrite list_lookup_insert_eq in Hx by (by apply lookup_lt_Some in Ht). injection Hx as <-. exists POut. split; [done|]. by econstructor.
    + rewrite list_lookup_insert_ne in Hx by done. by apply Hth.
  - rewrite length_insert. done.
  - intros m. destruct (Hq m) as (H1 & H2 & H3). split; [done|]. split; [done|]. by apply queue_update; [eexists| |].
Qed.

Lemma down_place v g t m k pl :
  at_place v g t (Ready (Down m k)) pl -> active pl = false /\ (pl = PSignal3 -> m = Next) /\ (forall cv, pl = PWait3 cv -> m = CvSem cv).
Proof.
  intros Hat. inversion Hat as [| |B p Hrt HB| | | | | | | | | | |]; subst; try (by split; [|split; intros; simplify_eq]). inversion Hrt.
Qed.

(** Threads other than [t] when [t] stepped from outside. *)
Lemma others_kept s g pls h t th' pl' g' :
  minv s g pls h -> (t < length pls)%nat -> (forall x plx, x <> t -> pls !! x = Some plx -> active plx = false) ->
  (forall t' B, t' <> t -> stable t' B -> B (data (vars s)) g -> B (data (vars s)) g') ->
  at_place (vars s) g' t th' pl' ->
  forall x th, <[t := th']> (threads s) !! x = Some th -> exists pl, <[t := pl']> pls !! x = Some pl /\ at_place (vars s) g' x th pl.
Proof.
  intros [Hth [Hlen _] _ _ _ _ _ _ _ _ _] Hlt Hin Hoth Hat x th Hx. destruct (decide (x = t)) as [->|Hne].
  - rewrite list_lookup_insert_eq in Hx by lia. injection Hx as <-. exists pl'. by rewrite list_lookup_insert_eq by lia.
  - rewrite list_lookup_insert_ne in Hx by done. destruct (Hth x th Hx) as (plx & Hplx & Hax). exists plx. rewrite list_lookup_insert_ne by done. split; [done|].
    eapply at_place_other; [exact Hax|by eapply Hin|exact (fun B => Hoth x B Hne)].
Qed.

Lemma minv_down s g pls h t m k s' :
  minv s g pls h -> threads s !! t = Some (Ready (Down m k)) -> pool_step t s = Some s' -> exists g pls h, minv s' g pls h.
Proof.
  intros Hinv Ht Hstep. pose proof Hinv as [Hth [Hlen Hsmall] Hact Hhold Hval Hq Hg Hal Hnotes Hn Hc]. destruct (Hth t _ Ht) as (pl & Hpl & Hat). destruct (down_place _ _ _ _ _ _ Hat) as (Hpa & Hp3 & Hw3).
  pose proof (lookup_lt_Some _ _ _ Hpl) as Hlt. unfold pool_step in Hstep. rewrite Ht in Hstep. unfold q_down in Hstep. rewrite Hval in Hstep.
  destruct (decide (h = HSem m)) as [->|Hm]; cbn in Hstep; injection Hstep as <-.
  - destruct (Hg m eq_refl) as [Hgm _]. destruct (Hq m) as (Hq0 & _ & Hqm). specialize (Hq0 eq_refl).
    destruct (at_place_take _ _ _ m k pl _ (or_introl eq_refl) Hat Hpa Hgm) as (a & pl' & HG & Hat' & Ha' & Ewf & Es & Ew).
    exists (note g t a), (<[t := pl']> pls), (HThread t). split; cbn [threads vars sems].
    + apply others_kept with (1 := Hinv); [done| | |done].
      * intros x plx _ Hx. destruct (active plx) eqn:E; [|done]. specialize (Hact x plx Hx E). done.
      * intros t' B Hne Hst. by apply (Hst t).
    + rewrite !length_insert. done.
    + intros x plx Hx Hax. destruct (decide (x = t)) as [->|Hne]; [done|]. rewrite list_lookup_insert_ne in Hx by done. specialize (Hact x plx Hx Hax). done.
    + intros x [= <-]. exists pl'. by rewrite list_lookup_insert_eq.
    + intros m'. rewrite (decide_False (P := HThread t = HSem m')) by done. unfold set_sem. destruct (decide (m' = m)) as [->|Hne]; [done|]. rewrite Hval, decide_False; [done|congruence].
    + intros m'. split; [done|]. unfold set_sem. destruct (decide (m' = m)) as [->|Hne]; cbn [snd]; [|destruct (Hq m') as (_ & Hnd & Hqm')]; (split; [by try (rewrite Hq0; constructor)|by apply queue_update; [eexists| |]]).
    + done.
    + by eapply HAL.
    + intros x. by apply waiter_note.
    + pose proof (count_of_insert in_signal pls t pl pl' Hpl). rewrite Es in *. lia.
    + intros cv. pose proof (count_of_insert (in_wait cv) pls t pl pl' Hpl). rewrite Ew in *. rewrite Hc. lia.
  - destruct (at_place_sleep _ _ _ m k pl Hat Hpa) as (pl' & Hat' & Ha' & Ewf & Es & Ew). exists g, (<[t := pl']> pls), h. split; cbn [threads vars sems].
    + intros x th Hx. destruct (decide (x = t)) as [->|Hne].
      * rewrite list_lookup_insert_eq in Hx by lia. injection Hx as <-. exists pl'. by rewrite list_lookup_insert_eq by lia.
      * rewrite list_lookup_insert_ne in Hx by done. destruct (Hth x th Hx) as (plx & Hplx & Hax). exists plx. by rewrite list_lookup_insert_ne by done.
    + rewrite !length_insert. done.
    + intros x plx Hx Hax. destruct (decide (x = t)) as [->|Hne]; [rewrite list_lookup_insert_eq in Hx by done; congruence|]. rewrite list_lookup_insert_ne in Hx by done. by eapply Hact.
    + intros x ->. destruct (Hhold x eq_refl) as (plx & Hx & Hax). assert (x <> t) by congruence. exists plx. by rewrite list_lookup_insert_ne.
    + intros m'. unfold set_sem. destruct (decide (m' = m)) as [->|Hne]; [by rewrite decide_False|]. apply Hval.
    + intros m'. destruct (Hq m') as (H1 & H2 & H3). assert (Hnt : t ∉ (sems s m').2) by (intros [k' Hk']%H3; congruence). unfold set_sem. destruct (decide (m' = m)) as [->|Hne]; cbn [snd].
      * split; [done|]. split; [apply NoDup_app; split; [done|]; split; [intros x Hx ->%list_elem_of_singleton; done|apply NoDup_singleton]|].
        intros x. rewrite elem_of_app, list_elem_of_singleton, H3. destruct (decide (x = t)) as [->|Hxt].
        -- rewrite list_lookup_insert_eq by lia. split; [intros _; by eexists|by right].
        -- rewrite list_lookup_insert_ne by done. split; [intros [?|?]; [done|congruence]|by left].
      * split; [done|]. split; [done|]. intros x. rewrite H3. destruct (decide (x = t)) as [->|Hxt]; [|by rewrite list_lookup_insert_ne].
        rewrite list_lookup_insert_eq by lia. split; [intros [k' Hk']; congruence|intros [k' [= E]]; congruence].
    + intros m' ->. destruct (Hg m' eq_refl) as [Hgm Hex]. split; [done|]. destruct m' as [| |cv]; [done| |]; destruct Hex as [x Hx]; exists x; (destruct (decide (x = t)) as [->|Hne]; [exfalso|by rewrite list_lookup_insert_ne]).
      * apply Hm. rewrite Hp3; [done|congruence].
      * apply Hm. rewrite (Hw3 cv); [done|congruence].
    + done.
    + intros x. by rewrite (waiter_same _ _ pl).
    + pose proof (count_of_insert in_signal pls t pl pl' Hpl). rewrite Es in *. lia.
    + intros cv. pose proof (count_of_insert (in_wait cv) pls t pl pl' Hpl). rewrite Ew in *. rewrite Hc. lia.
Qed.

(** A thread gives up its unit: to the semaphore when nobody sleeps on it, and to the first
    sleeper otherwise. *)
Lemma minv_up s g pls h t m k pl pl' s' :
  minv s g pls h -> threads s !! t = Some (Ready (Up m k)) -> pool_step t s = Some s' -> pls !! t = Some pl -> active pl = true ->
  at_place (vars s) g t (Ready k) pl' -> active pl' = false -> waits_for pl' = waits_for pl -> in_signal pl' = in_signal pl -> (forall cv, in_wait cv pl' = in_wait cv pl) ->
  gives m (data (vars s)) g ->
  ((sems s m).2 = [] -> match m with Mutex => next_count (vars s) = 0 | Next => exists x, <[t := pl']> pls !! x = Some PSignal3 | CvSem cv => exists x, <[t := pl']> pls !! x = Some (PWait3 cv) end) ->
  exists g pls h, minv s' g pls h.
Proof.
  intros Hinv Ht Hstep Hpl Ha Hat Ha' Ewf Es Ew Hgm Hfree. pose proof Hinv as [Hth [Hlen Hsmall] Hact Hhold Hval Hq Hg Hal Hnotes Hn Hc]. pose proof (Hact t pl Hpl Ha) as ->.
  pose proof (lookup_lt_Some _ _ _ Hpl) as Hlt. unfold pool_step in Hstep. rewrite Ht in Hstep. unfold q_up in Hstep. rewrite Hval in Hstep. rewrite decide_False in Hstep by done.
  assert (Hina : forall x plx, x <> t -> pls !! x = Some plx -> active plx = false) by (intros x plx Hne Hx; destruct (active plx) eqn:E; [specialize (Hact x plx Hx E); congruence|done]).
  assert (Hcs : count_of in_signal (<[t := pl']> pls) = count_of in_signal pls) by (pose proof (count_of_insert in_signal pls t pl pl' Hpl); rewrite Es in *; lia).
  assert (Hcw : forall cv, count_of (in_wait cv) (<[t := pl']> pls) = count_of (in_wait cv) pls) by (intros cv; pose proof (count_of_insert (in_wait cv) pls t pl pl' Hpl); rewrite Ew in *; lia).
  destruct (sems s m).2 as [|u ws] eqn:Eq; injection Hstep as <-.
  - exists g, (<[t := pl']> pls), (HSem m). split; cbn [threads vars sems].
    + by apply others_kept with (1 := Hinv).
    + rewrite !length_insert. done.
    + intros x plx Hx Hax. destruct (decide (x = t)) as [->|Hne]; [rewrite list_lookup_insert_eq in Hx by done; congruence|]. rewrite list_lookup_insert_ne in Hx by done. specialize (Hina x plx Hne Hx). congruence.
    + done.
    + intros m'. unfold set_sem. destruct (decide (m' = m)) as [->|Hne]; [by rewrite decide_True|]. rewrite Hval, !decide_False by congruence. done.
    + intros m'. destruct (Hq m') as (_ & H2 & H3). unfold set_sem. destruct (decide (m' = m)) as [->|Hne]; cbn [snd].
      * split; [done|]. split; [constructor|]. rewrite <- Eq. by apply queue_update; [eexists| |].
      * split; [congruence|]. split; [done|]. by apply queue_update; [eexists| |].
    + intros m' [= <-]. split; [done|]. by apply Hfree.
    + done.
    + intros x. by rewrite (waiter_same _ _ pl).
    + by rewrite Hcs.
    + intros cv. by rewrite Hcw.
  - destruct (Hq m) as (_ & Hnd & Hqm). rewrite Eq in Hnd, Hqm. destruct (proj1 (Hqm u)) as [ku Hu]; [by left|]. assert (Hut : u <> t) by congruence.
    destruct (Hth u _ Hu) as (plu & Hplu & Hatu). pose proof (Hina u plu Hut Hplu) as Hau. pose proof (lookup_lt_Some _ _ _ Hplu) as Hltu.
    destruct (at_place_take _ _ _ m ku plu _ (or_intror eq_refl) Hatu Hau Hgm) as (a & plu' & HG & Hatu' & Hau' & Ewfu & Esu & Ewu).
    assert (Hoth : forall t' B, t' <> u -> stable t' B -> B (data (vars s)) g -> B (data (vars s)) (note g u a)) by (intros t' B Hne Hst; by apply (Hst u)).
    unfold wake. rewrite list_lookup_insert_ne, Hu by done.
    exists (note g u a), (<[u := plu']> (<[t := pl']> pls)), (HThread u). split; cbn [threads vars sems].
    + intros x th Hx. destruct (decide (x = u)) as [->|Hxu].
      * rewrite list_lookup_insert_eq in Hx by (rewrite length_insert; lia). injection Hx as <-. exists plu'. by rewrite list_lookup_insert_eq by (by rewrite length_insert).
      * rewrite list_lookup_insert_ne in Hx by done. rewrite list_lookup_insert_ne by done. destruct (decide (x = t)) as [->|Hxt].
        -- rewrite list_lookup_insert_eq in Hx by lia. injection Hx as <-. exists pl'. rewrite list_lookup_insert_eq by done. split; [done|]. eapply at_place_other; [exact Hat|done|exact (fun B => Hoth t B Hxu)].
        -- rewrite list_lookup_insert_ne in Hx by done. rewrite list_lookup_insert_ne by done. destruct (Hth x th Hx) as (plx & Hplx & Hax). exists plx. split; [done|]. eapply at_place_other; [exact Hax|by eapply Hina|exact (fun B => Hoth x B Hxu)].
    + rewrite !length_insert. done.
    + intros x plx Hx Hax. destruct (decide (x = u)) as [->|Hxu]; [done|]. rewrite list_lookup_insert_ne in Hx by done. destruct (decide (x = t)) as [->|Hxt].
      * rewrite list_lookup_insert_eq in Hx by done. congruence.
      * rewrite list_lookup_insert_ne in Hx by done. specialize (Hina x plx Hxt Hx). congruence.
    + intros x [= <-]. exists plu'. by rewrite list_lookup_insert_eq by (by rewrite length_insert).
    + intros m'. rewrite (decide_False (P := HThread u = HSem m')) by done. unfold set_sem. destruct (decide (m' = m)) as [->|Hne]; [done|]. rewrite Hval, decide_False; done.
    + intros m'. split; [done|]. destruct (Hq m') as (_ & H2 & H3).
      assert (Hq2 : forall q, (forall x, x ∈ q <-> exists k, threads s !! x = Some (Waiting m' k)) -> forall x, x ∈ q <-> exists k', <[t := Ready k]> (threads s) !! x = Some (Waiting m' k')) by (intros q Hqq; by apply queue_update; [eexists| |]).
      unfold set_sem. destruct (decide (m' = m)) as [->|Hne]; cbn [snd].
      * apply NoDup_cons in Hnd as [Hnu Hnd]. split; [done|]. intros x. destruct (decide (x = u)) as [->|Hxu].
        -- rewrite list_lookup_insert_eq by (rewrite length_insert; lia). split; [done|by intros [k' Hk']].
        -- rewrite list_lookup_insert_ne by done. rewrite <- (Hq2 (u :: ws) Hqm x), elem_of_cons. tauto.
      * split; [done|]. intros x. rewrite (Hq2 _ H3 x). destruct (decide (x = u)) as [->|Hxu]; [|by rewrite (list_lookup_insert_ne _ u)].
        rewrite list_lookup_insert_ne, Hu by done. rewrite list_lookup_insert_eq by (rewrite length_insert; lia). split; intros [k' Hk']; congruence.
    + done.
    + by eapply HAL.
    + intros x. apply waiter_note; [|by rewrite length_insert|done]. intros y. by rewrite (waiter_same _ _ pl).
    + pose proof (count_of_insert in_signal (<[t := pl']> pls) u plu plu') as E. rewrite list_lookup_insert_ne in E by done. specialize (E Hplu). rewrite Esu in E. lia.
    + intros cv. pose proof (count_of_insert (in_wait cv) (<[t := pl']> pls) u plu plu') as E. rewrite list_lookup_insert_ne in E by done. specialize (E Hplu). rewrite Ewu in E. rewrite Hc. specialize (Hcw cv). lia.
Qed.

(** Somebody counted in [next_count] or in a [count] who is not inside, when nobody of the
    kind sleeps, has yet to call [down] and will find the unit. *)
Lemma signaller_left s g pls h t pl :
  minv s g pls h -> pls !! t = Some pl -> active pl = true -> in_signal pl = false -> 0 < next_count (vars s) -> (sems s Next).2 = [] ->
  exists x, x <> t /\ pls !! x = Some PSignal3.
Proof.
  intros Hinv Hpl Ha Hs Hpos Hq. pose proof (mi_active _ _ _ _ Hinv t pl Hpl Ha) as ->. rewrite (mi_next _ _ _ _ Hinv) in Hpos. apply count_of_pos in Hpos as (x & plx & Hx & Hsx).
  assert (Hxt : x <> t) by congruence. exists x. split; [done|]. assert (active plx = false) as Hax by (destruct (active plx) eqn:E; [pose proof (mi_active _ _ _ _ Hinv x plx Hx E); congruence|done]).
  destruct plx; try done. exfalso. destruct (lookup_lt_is_Some_2 (threads s) x) as [th Hth]; [destruct (mi_length _ _ _ _ Hinv) as [<- _]; by eapply lookup_lt_Some|].
  destruct (mi_threads _ _ _ _ Hinv x th Hth) as (ply & Hy & Hat). assert (ply = PSignal4) as -> by congruence. inversion Hat; subst.
  destruct (mi_queue _ _ _ _ Hinv Next) as (_ & _ & Hqm). rewrite Hq in Hqm. apply (not_elem_of_nil x). apply Hqm. by eexists.
Qed.

Lemma waiter_left s g pls h t pl cv :
  minv s g pls h -> pls !! t = Some pl -> active pl = true -> in_wait cv pl = false -> 0 < cv_count (vars s) cv -> (sems s (CvSem cv)).2 = [] ->
  exists x, x <> t /\ pls !! x = Some (PWait3 cv).
Proof.
  intros Hinv Hpl Ha Hs Hpos Hq. pose proof (mi_active _ _ _ _ Hinv t pl Hpl Ha) as ->. rewrite (mi_count _ _ _ _ Hinv) in Hpos. apply count_of_pos in Hpos as (x & plx & Hx & Hsx).
  assert (Hxt : x <> t) by congruence. exists x. split; [done|]. assert (active plx = false) as Hax by (destruct (active plx) eqn:E; [pose proof (mi_active _ _ _ _ Hinv x plx Hx E); congruence|done]).
  destruct plx; try done; apply bool_decide_eq_true in Hsx as ->; [done|]. exfalso. destruct (lookup_lt_is_Some_2 (threads s) x) as [th Hth]; [destruct (mi_length _ _ _ _ Hinv) as [<- _]; by eapply lookup_lt_Some|].
  destruct (mi_threads _ _ _ _ Hinv x th Hth) as (ply & Hy & Hat). assert (ply = PWait4 cv) as -> by congruence. inversion Hat; subst.
  destruct (mi_queue _ _ _ _ Hinv (CvSem cv)) as (_ & _ & Hqm). rewrite Hq in Hqm. apply (not_elem_of_nil x). apply Hqm. by eexists.
Qed.

(** The counters do not overflow. *)
Lemma count_step (f : place -> bool) pls t pl pl' n :
  Z.of_nat (length pls) < 2 ^ 31 -> pls !! t = Some pl -> n = count_of f pls + Z.b2z (f pl') - Z.b2z (f pl) -> i32 n = n.
Proof.
  intros Hs Hpl ->. pose proof (count_of_insert f pls t pl pl' Hpl). pose proof (count_of_le f (<[t := pl']> pls)). rewrite length_insert in *. apply i32_small. lia.
Qed.

Lemma gives_release n m d g : release_to n m -> MI d g -> gives m d g.
Proof. intros -> Hm. by destruct (0 <? n). Qed.

(** Leaving with [up(&next)] or [up(&mutex)]. *)
Lemma minv_release s g pls h t m k pl pl' s' :
  minv s g pls h -> threads s !! t = Some (Ready (Up m k)) -> pool_step t s = Some s' -> pls !! t = Some pl -> active pl = true -> in_signal pl = false ->
  at_place (vars s) g t (Ready k) pl' -> active pl' = false -> waits_for pl' = waits_for pl -> in_signal pl' = false -> (forall cv, in_wait cv pl' = in_wait cv pl) ->
  release_to (next_count (vars s)) m -> MI (data (vars s)) g -> exists g pls h, minv s' g pls h.
Proof.
  intros Hinv Ht Hstep Hpl Ha Hs Hat Ha' Hwf Hs' Hw Hm HM. pose proof (mi_next _ _ _ _ Hinv) as Hn. pose proof (count_of_le in_signal pls) as Hle.
  eapply (minv_up s g pls h t m k pl pl' s' Hinv Ht Hstep Hpl Ha Hat Ha' Hwf); [congruence|done|by eapply gives_release|].
  unfold release_to in Hm. destruct (Z.ltb_spec 0 (next_count (vars s))) as [Hpos|Hz]; subst m; intros Hq; [|lia].
  destruct (signaller_left s g pls h t pl Hinv Hpl Ha Hs Hpos Hq) as (x & Hne & Hx). exists x. by rewrite list_lookup_insert_ne.
Qed.

(** A count is positive exactly when somebody waits. *)
Lemma count_waits s g pls h t cv : minv s g pls h -> pls !! t = Some PIn -> nobody_waits cv g <-> cv_count (vars s) cv <= 0.
Proof.
  intros Hinv Hpl. rewrite (mi_count _ _ _ _ Hinv). split.
  - intros Hno. apply Z.nlt_ge. intros (x & plx & Hx & Hw)%count_of_pos. apply (Hno x). rewrite (mi_notes _ _ _ _ Hinv). unfold waiter. rewrite Hx.
    pose proof (mi_active _ _ _ _ Hinv t PIn Hpl eq_refl) as ->. destruct plx; try done; apply bool_decide_eq_true in Hw as ->; try done.
    pose proof (mi_active _ _ _ _ Hinv x _ Hx eq_refl). congruence.
  - intros Hz x Hx. rewrite (mi_notes _ _ _ _ Hinv) in Hx. unfold waiter in Hx. destruct (pls !! x) as [plx|] eqn:E; [|done]. cbn in Hx.
    assert (in_wait cv plx = true) as Hw by (destruct plx; try done; injection Hx as ->; by apply bool_decide_true). pose proof (count_of_elem _ _ _ _ E Hw). lia.
Qed.

(** The statements of a routine. *)
Lemma minv_in s g pls h t p B s' :
  minv s g pls h -> threads s !! t = Some (Ready p) -> pls !! t = Some PIn -> rt t B p -> B (data (vars s)) g -> pool_step t s = Some s' -> exists g pls h, minv s' g pls h.
Proof.
  intros Hinv Ht Hpl Hrt HB Hstep. unfold pool_step in Hstep. rewrite Ht in Hstep. destruct (mi_length _ _ _ _ Hinv) as [_ Hsmall]. pose proof (mi_count _ _ _ _ Hinv) as Hc.
  assert (Hst : forall d w a, G t (data (vars s)) g d (waiting_note g t w a) -> forall t' (B : assn), t' <> t -> stable t' B -> B (data (vars s)) g -> B d (waiting_note g t w a)) by (intros d w a HG t' B' Hne Hs; by apply (Hs t)).
  assert (Hoth : forall w a x, x <> t -> (waiting_note g t w a x).1 = (g x).1) by (intros w a x Hx; by rewrite note_other).
  inversion Hrt as [B' f Hf|B' B1 B2 B3 cv k Hsh Hsb Hsh2 Hk2 Hsh3 Hk|B' B1 B2 cv k Hsh Ho Hsh2 Hk|B' B1 k Hsh Hsb Hk]; subst.
  - destruct (Hf (data (vars s)) g HB) as (a & B1 & HG & HB1 & Hk). cbn in Hstep. destruct (f (data (vars s))) as [d p] eqn:E. injection Hstep as <-. cbn in HG, HB1, Hk.
    eapply (minv_act _ _ _ _ _ _ _ _ (note g t a) _ PIn Hinv Ht); [cbn; by rewrite E|exact Hpl|done|done|by apply (at_in _ _ _ B1)|by apply Hst|cbn; lia|intros i; cbn; lia|by rewrite note_self|apply Hoth|by eapply HAL].
  - cbn in Hstep. injection Hstep as <-. destruct (Z.ltb_spec 0 (cv_count (vars s) cv)) as [Hpos|Hz].
    + destruct (Hsh _ _ (conj HB (fun Hno => Zle_not_lt _ _ (proj1 (count_waits _ _ _ _ _ _ Hinv Hpl) Hno) Hpos))) as (a & HG & HP & HB1).
      eapply (minv_act _ _ _ _ _ _ _ _ (note g t a) _ PSignal1 Hinv Ht); [cbn; rewrite (proj2 (Z.ltb_lt _ _)) by done; reflexivity|exact Hpl|done|done|by apply (at_signal1 _ _ _ cv B1 B2)|by apply Hst|cbn; lia|intros i; cbn; lia|by rewrite note_self|apply Hoth|by eapply HAL].
    + destruct (Hsh3 _ _ (conj HB (proj2 (count_waits _ _ _ _ _ _ Hinv Hpl) Hz))) as (a & HG & HB3).
      eapply (minv_act _ _ _ _ _ _ _ _ (note g t a) _ PIn Hinv Ht); [cbn; rewrite (proj2 (Z.ltb_ge _ _)) by done; reflexivity|exact Hpl|done|done|by apply (at_in _ _ _ B3)|by apply Hst|cbn; lia|intros i; cbn; lia|by rewrite note_self|apply Hoth|by eapply HAL].
  - cbn in Hstep. injection Hstep as <-. destruct (Hsh _ _ HB) as (a & HG & HM & HB1).
    eapply (minv_act _ _ _ _ _ _ _ _ (waiting_note g t (Some cv) a) _ (PWait1 cv) Hinv Ht eq_refl Hpl); [done|done|by apply (at_wait1 _ _ _ cv B1 B2)|by apply Hst|cbn; lia| |by rewrite note_self|apply Hoth|by eapply HAL].
    intros i. cbn. destruct (decide (i = cv)) as [->|Hne]; [rewrite bool_decide_true by done|rewrite bool_decide_false by congruence; cbn; lia].
    rewrite (count_step (in_wait cv) pls t PIn (PWait1 cv)); [cbn; lia|done|done|]. cbn. rewrite bool_decide_true, Hc by done. cbn. lia.
  - cbn in Hstep. injection Hstep as <-. destruct (Hsh _ _ HB) as (a & HG & HM & HB1).
    eapply (minv_act _ _ _ _ _ _ _ _ (note g t a) _ PRelease Hinv Ht eq_refl Hpl); [done|done| |by apply Hst|cbn; lia|intros i; cbn; lia|by rewrite note_self|apply Hoth|by eapply HAL].
    destruct (0 <? next_count (vars s)) eqn:E; apply (at_release _ _ _ _ B1); try done; unfold release_to; by rewrite E.
Qed.

Lemma minv_step s g pls h t s' : minv s g pls h -> pool_step t s = Some s' -> exists g pls h, minv s' g pls h.
Proof.
  intros Hinv Hstep. destruct (threads s !! t) as [th|] eqn:Ht; [|unfold pool_step in Hstep; by rewrite Ht in Hstep].
  destruct (mi_threads _ _ _ _ Hinv t th Ht) as (pl & Hpl & Hat). destruct (mi_length _ _ _ _ Hinv) as [_ Hsmall]. pose proof (mi_next _ _ _ _ Hinv) as Hn. pose proof (mi_count _ _ _ _ Hinv) as Hc.
  pose proof (mi_notes _ _ _ _ Hinv t) as Hw. unfold waiter in Hw. rewrite Hpl in Hw. cbn in Hw.
  destruct Hat as [B p Hot HB|B B1 k Ho HB Hsh Hrt|B p Hrt HB|cv B B2 k Hcv HP HB Hst Hsh Hrt|cv B B2 k Hcv HP HB Hst Hsh Hrt|B B2 k HB Hst Hsh Hrt|B B2 k HB Hst Hsh Hrt|B k Hrt HB|
    cv B B2 k HM HB Ho Hsh Hrt|cv m B B2 k Hm HM HB Ho Hsh Hrt|cv B B2 k HB Ho Hsh Hrt|cv B B2 k HB Ho Hsh Hrt|cv B k Hrt HB|m B k Hm HM HB Hst Hot].
  - inversion Hot as [B' Ho HL|B' l k Ho HL Hk|B' B1 k Ho Hsh Hrt]; subst.
    + unfold pool_step in Hstep. by rewrite Ht in Hstep.
    + pose proof Hstep as E. unfold pool_step in E. rewrite Ht in E. injection E as <-. by eapply minv_mark.
    + by eapply minv_down.
  - unfold pool_step in Hstep. by rewrite Ht in Hstep.
  - by eapply minv_in.
  - unfold pool_step in Hstep. rewrite Ht in Hstep. cbn in Hstep. injection Hstep as <-.
    eapply (minv_act _ _ _ _ _ _ _ _ g _ PSignal2 Hinv Ht eq_refl Hpl); [done|done|by apply (at_signal2 _ _ _ cv B B2)|done| |intros i; cbn; lia|done|done|done].
    cbn. rewrite (count_step in_signal pls t PSignal1 PSignal2); [lia|done|done|cbn; lia].
  - eapply (minv_up s g pls h t (CvSem cv) _ PSignal2 PSignal3 s' Hinv Ht Hstep Hpl); [done|by apply (at_signal3 _ _ _ B B2)|done|done|done|done|done|].
    intros Hq. destruct (waiter_left s g pls h t PSignal2 cv Hinv Hpl eq_refl eq_refl Hcv Hq) as (x & Hne & Hx). exists x. by rewrite list_lookup_insert_ne.
  - by eapply minv_down.
  - unfold pool_step in Hstep. by rewrite Ht in Hstep.
  - unfold pool_step in Hstep. rewrite Ht in Hstep. cbn in Hstep. injection Hstep as <-.
    eapply (minv_act _ _ _ _ _ _ _ _ g _ PIn Hinv Ht eq_refl Hpl); [done|done|by apply (at_in _ _ _ B)|done| |intros i; cbn; lia|done|done|done].
    cbn. rewrite (count_step in_signal pls t PSignal5 PIn); [lia|done|done|cbn; lia].
  - unfold pool_step in Hstep. rewrite Ht in Hstep. cbn in Hstep. injection Hstep as <-.
    eapply (minv_act _ _ _ _ _ _ _ _ g _ (PWait2 cv) Hinv Ht eq_refl Hpl); [done|done| |done|cbn; lia|intros i; cbn; lia|done|done|done].
    destruct (0 <? next_count (vars s)) eqn:E; apply (at_wait2 _ _ _ cv _ B B2); try done; unfold release_to; by rewrite E.
  - eapply (minv_release s g pls h t m _ (PWait2 cv) (PWait3 cv) s' Hinv Ht Hstep Hpl); try done. by apply (at_wait3 _ _ _ cv B B2).
  - by eapply minv_down.
  - unfold pool_step in Hstep. by rewrite Ht in Hstep.
  - unfold pool_step in Hstep. rewrite Ht in Hstep. cbn in Hstep. injection Hstep as <-.
    eapply (minv_act _ _ _ _ _ _ _ _ g _ PIn Hinv Ht eq_refl Hpl); [done|done|by apply (at_in _ _ _ B)|done|cbn; lia| |done|done|done].
    intros i. cbn. destruct (decide (i = cv)) as [->|Hne]; [rewrite bool_decide_true by done|rewrite bool_decide_false by congruence; cbn; lia].
    rewrite (count_step (in_wait cv) pls t (PWait5 cv) PIn); [cbn; lia|done|done|]. cbn. rewrite bool_decide_true, Hc by done. cbn. lia.
  - eapply (minv_release s g pls h t m _ PRelease POut s' Hinv Ht Hstep Hpl); try done. by apply (at_out _ _ _ B).
Qed.

Lemma minv_init d g ts :
  MI d g -> AL d g -> (forall t, (g t).1 = None) -> (forall t p, ts !! t = Some p -> exists B : assn, ot t B p /\ B d g) -> Z.of_nat (length ts) < 2 ^ 31 ->
  minv (monitor_init d ts) g (replicate (length ts) POut) (HSem Mutex).
Proof.
  intros HM Hal Hg Hts Hlen. assert (Hpls : forall t pl, replicate (length ts) POut !! t = Some pl -> pl = POut) by (intros t pl [-> _]%lookup_replicate; done).
  assert (Hzero : forall f : place -> bool, f POut = false -> count_of f (replicate (length ts) POut) = 0).
  { intros f Hf. apply count_of_zero, Forall_forall. intros pl [t Ht]%list_elem_of_lookup. by rewrite (Hpls t pl Ht). }
  split; cbn [monitor_init threads vars sems next_count cv_count data].
  - intros t th Hth. apply list_lookup_fmap_Some in Hth as (p & -> & Hp). exists POut. split; [apply lookup_replicate; split; [done|by eapply lookup_lt_Some]|].
    destruct (Hts t p Hp) as (B & Hot & HB). by apply (at_out _ _ _ B).
  - rewrite length_replicate, length_fmap. done.
  - intros t pl Hpl Ha. by rewrite (Hpls t pl Hpl) in Ha.
  - done.
  - intros m. cbn. destruct (decide (m = Mutex)) as [->|Hne]; [by rewrite decide_True|by rewrite decide_False by congruence].
  - intros m. cbn. split; [done|]. split; [constructor|]. intros t. split; [by intros ?%not_elem_of_nil|]. intros [k Hk]. by apply list_lookup_fmap_Some in Hk as (p & ? & _).
  - intros m [= <-]. done.
  - done.
  - intros t. rewrite Hg. unfold waiter. destruct (replicate (length ts) POut !! t) as [pl|] eqn:E; [|done]. by rewrite (Hpls t pl E).
  - by rewrite Hzero.
  - intros cv. by rewrite Hzero.
Qed.

Lemma minv_reach s s' g pls h : minv s g pls h -> rtc pool_steps s s' -> exists g pls h, minv s' g pls h.
Proof.
  intros Hinv Hr. revert g pls h Hinv. induction Hr as [s|s s1 s' [t Ht] _ IH]; intros g pls h Hinv; [by eexists _, _, _|].
  destruct (minv_step s g pls h t s1 Hinv Ht) as (g1 & pls1 & h1 & Hinv1). by eapply IH.
Qed.

(** When the monitor is free, every thread has said all it owes. *)
Lemma minv_rest s g pls : minv s g pls (HSem Mutex) -> forall t th, threads s !! t = Some th -> Rest t (data (vars s)) g.
Proof.
  intros Hinv t th Ht. destruct (mi_threads _ _ _ _ Hinv t th Ht) as (pl & Hpl & Hat). destruct (mi_gives _ _ _ _ Hinv Mutex eq_refl) as (_ & Hz). rewrite (mi_next _ _ _ _ Hinv) in Hz.
  assert (Ha : active pl = false) by (destruct (active pl) eqn:E; [pose proof (mi_active _ _ _ _ Hinv t pl Hpl E); done|done]).
  assert (Hs : in_signal pl = false) by (destruct (in_signal pl) eqn:E; [pose proof (count_of_elem _ _ _ _ Hpl E); lia|done]).
  destruct Hat as [B p Hot HB|B B1 k Ho HB _ _| | | | | | | | |cv B B2 k HB Ho _ _|cv B B2 k HB Ho _ _| |]; try discriminate Ha; try discriminate Hs; try (by apply Ho).
  destruct Hot as [B Ho _|B l k Ho _ _|B B1 k Ho _ _]; by apply Ho.
Qed.

(** What a thread owes at a mark or at its end. *)
Lemma minv_mark_info s g pls h t l k : minv s g pls h -> threads s !! t = Some (Ready (Mark l k)) -> LI (Some l) t (data (vars s)) g.
Proof.
  intros Hinv Ht. destruct (mi_threads _ _ _ _ Hinv t _ Ht) as (pl & Hpl & Hat). inversion Hat as [B p Hot HB| |B p Hrt HB| | | | | | | | | | |]; subst; [|inversion Hrt]. inversion Hot; subst; auto.
Qed.

Lemma minv_done_info s g pls h t : minv s g pls h -> threads s !! t = Some (Ready Done) -> LI None t (data (vars s)) g.
Proof.
  intros Hinv Ht. destruct (mi_threads _ _ _ _ Hinv t _ Ht) as (pl & Hpl & Hat). inversion Hat as [B p Hot HB| |B p Hrt HB| | | | | | | | | | |]; subst; [|inversion Hrt]. inversion Hot; subst; auto.
Qed.

(** Somebody can go on, unless everybody has come to the end or sleeps on a condition
    variable with the monitor free. *)
Lemma ready_steps (s : pool msem (monitor D) L) t p : threads s !! t = Some (Ready p) -> p <> Done -> pool_step t s <> None.
Proof.
  intros Ht Hp. unfold pool_step. rewrite Ht. destruct p as [|f|m k|m k|l k]; try done; [by destruct (f (vars s))|by destruct (q_down (sems s m) t)|by destruct (q_up (sems s m))].
Qed.

Lemma minv_stuck (s : pool msem (monitor D) L) g pls h :
  minv s g pls h -> (forall t, pool_step t s = None) ->
  h = HSem Mutex /\ forall t th, threads s !! t = Some th -> th = Ready Done \/ exists cv, pls !! t = Some (PWait4 cv).
Proof.
  intros Hinv Hstuck. pose proof Hinv as [Hth [Hlen _] Hact Hhold Hval Hq Hg Hal Hnotes Hn Hc].
  assert (Hdone : forall t p, threads s !! t = Some (Ready p) -> p = Done) by (intros t p Ht; destruct p; try done; by destruct (ready_steps _ _ _ Ht ltac:(done))).
  assert (Hat : forall t pl, pls !! t = Some pl -> exists th, threads s !! t = Some th /\ at_place (vars s) g t th pl).
  { intros t pl Hpl. destruct (lookup_lt_is_Some_2 (threads s) t) as [th Ht]; [rewrite <- Hlen; by eapply lookup_lt_Some|]. exists th. split; [done|].
    destruct (Hth t th Ht) as (pl' & Hpl' & Ha). congruence. }
  assert (h = HSem Mutex) as ->.
  { destruct h as [[| |cv]|t]; [done| | |]; exfalso.
    - destruct (Hg Next eq_refl) as (_ & t & Ht). destruct (Hat t _ Ht) as (th & Hth' & Ha). inversion Ha; subst. by specialize (Hdone t _ Hth').
    - destruct (Hg (CvSem cv) eq_refl) as (_ & t & Ht). destruct (Hat t _ Ht) as (th & Hth' & Ha). inversion Ha; subst. by specialize (Hdone t _ Hth').
    - destruct (Hhold t eq_refl) as (pl & Ht & Hpa). destruct (Hat t _ Ht) as (th & Hth' & Ha). destruct Ha as [| |B p Hrt HB| | | | | | | | | | |]; try discriminate Hpa; specialize (Hdone t _ Hth'); try discriminate Hdone.
      subst p. inversion Hrt. }
  split; [done|]. intros t th Ht. destruct th as [p|m k]; [left; f_equal; by eapply Hdone|right].
  destruct (Hth t _ Ht) as (pl & Hpl & Ha). inversion Ha; subst; [| |by eexists].
  - exfalso. destruct (Hq Mutex) as (Hq0 & _ & Hqm). rewrite (Hq0 eq_refl) in Hqm. apply (not_elem_of_nil t). apply Hqm. by eexists.
  - exfalso. pose proof (count_of_elem in_signal pls t PSignal4 Hpl eq_refl) as Hp. destruct (Hg Mutex eq_refl) as (_ & Hz). lia.
Qed.
End Rules.

(** * Exclusion, whatever the routines do *)
Section Exclusion.
Context {D L : Type}.
Notation mprog := (prog msem (monitor D) L).
Notation mthread := (thread msem (monitor D) L).

(** Programs that keep to the discipline of monitor.h. *)
Inductive routine : mprog -> Prop :=
| routine_client f : (forall d, routine (f d).2) -> routine (client f)
| routine_signal cv k : routine k -> routine (cond_signal cv k)
| routine_wait cv k : routine k -> routine (cond_wait cv k)
| routine_release k : caller k -> routine (release k)
with caller : mprog -> Prop :=
| caller_done : caller Done
| caller_mark l k : caller k -> caller (Mark l k)
| caller_enter k : routine k -> caller (enter k).

Scheme routine_mut := Minimality for routine Sort Prop
  with caller_mut := Minimality for caller Sort Prop.
Combined Scheme routine_caller_ind from routine_mut, caller_mut.

(** Which statement a thread has reached. *)
Definition stands (th : mthread) (pl : place) : Prop :=
  match pl with
  | POut => match th with Ready (Done | Mark _ _ | Down Mutex _) => True | _ => False end
  | PEnter => exists k, th = Waiting Mutex k
  | PIn => exists f, th = Ready (Act f)
  | PSignal1 => exists cv k, th = Ready (signal_start cv k)
  | PSignal2 => exists cv k, th = Ready (signal_wake cv k)
  | PSignal3 => exists k, th = Ready (signal_sleep k)
  | PSignal4 => exists k, th = Waiting Next (signal_end k)
  | PSignal5 => exists k, th = Ready (signal_end k)
  | PWait1 cv => exists k, th = Ready (release (wait_sleep cv k))
  | PWait2 cv => exists m k, th = Ready (Up m (wait_sleep cv k))
  | PWait3 cv => exists k, th = Ready (wait_sleep cv k)
  | PWait4 cv => exists k, th = Waiting (CvSem cv) (wait_end cv k)
  | PWait5 cv => exists k, th = Ready (wait_end cv k)
  | PRelease => exists m k, th = Ready (Up m k)
  end.

Lemma at_place_stands {A} MI PC G Rest LI v g t th pl : at_place (D := D) (L := L) (A := A) MI PC G Rest LI v g t th pl -> stands th pl.
Proof. intros [B p Hot HB| |B p Hrt HB| | | | | | | | | | |]; cbn; eauto; [by destruct Hot|]. destruct Hrt; by eexists. Qed.

Definition no_demand : D -> (nat -> option Z * unit) -> Prop := fun _ _ => True.

Lemma routine_rules t :
  (forall p, routine p -> rt no_demand (fun _ => no_demand) (fun _ _ _ _ _ => True) (fun _ => no_demand) (fun _ : option L => fun _ => no_demand) t no_demand p) /\
  (forall p, caller p -> ot no_demand (fun _ => no_demand) (fun _ _ _ _ _ => True) (fun _ => no_demand) (fun _ : option L => fun _ => no_demand) t no_demand p).
Proof.
  apply routine_caller_ind.
  - intros f _ IH. apply rt_client. intros d g _. exists tt, no_demand. by split.
  - intros cv k _ IH. apply (rt_signal _ _ _ _ _ _ no_demand no_demand no_demand no_demand); try done; intros d g _; by exists tt.
  - intros cv k _ IH. apply (rt_wait _ _ _ _ _ _ no_demand no_demand no_demand); try done; intros d g _; by exists tt.
  - intros k _ IH. apply (rt_release _ _ _ _ _ _ no_demand no_demand); try done; intros d g _; by exists tt.
  - by apply ot_done.
  - intros l k _ IH. by apply ot_mark.
  - intros k _ IH. apply (ot_enter _ _ _ _ _ _ no_demand no_demand); try done; intros d g _; by exists tt.
Qed.

(** C17. At most one thread is inside a monitor, whatever its routines do: from
    [monitor_init] on, with threads that call routines as monitor.h prescribes,
    interleaved at every statement, two threads are never both past the entry, the
    wake-up from [cond_wait] or the return from [cond_signal]; [next_count] and the
    [count]s are the numbers of signallers and waiters; and the right to be inside is
    never lost: when nobody has it, the mutex is free and no signaller sleeps, or a
    thread about to call [down] on [next] or on its condition variable finds it there. *)
Theorem monitor_exclusion d (ts : list mprog) s :
  Forall caller ts -> Z.of_nat (length ts) < 2 ^ 31 -> rtc pool_steps (monitor_init d ts) s ->
  exists pls, (forall t th, threads s !! t = Some th -> exists pl, pls !! t = Some pl /\ stands th pl) /\
    (forall t t' pl pl', pls !! t = Some pl -> pls !! t' = Some pl' -> active pl = true -> active pl' = true -> t = t') /\
    next_count (vars s) = count_of in_signal pls /\ (forall cv, cv_count (vars s) cv = count_of (in_wait cv) pls) /\
    ((exists t pl, pls !! t = Some pl /\ active pl = true) \/
     exists m, (sems s m).1 = 1 /\ match m with Mutex => next_count (vars s) = 0 | Next => exists t, pls !! t = Some PSignal3 | CvSem cv => exists t, pls !! t = Some (PWait3 cv) end).
Proof.
  intros Hts Hlen Hr. pose proof (minv_init no_demand (fun _ => no_demand) (fun _ _ _ _ _ => True) (fun _ => no_demand) (fun _ : option L => fun _ => no_demand) no_demand d (fun _ => (None, tt)) ts I I ltac:(done)) as Hinit.
  destruct (minv_reach _ _ _ _ _ _ (fun _ _ _ _ _ _ _ => I) _ _ _ _ _ (Hinit ltac:(intros t p Hp; exists no_demand; split; [apply routine_rules; rewrite Forall_forall in Hts; apply Hts; by eapply list_elem_of_lookup_2|done]) Hlen) Hr) as (g & pls & h & [Hth _ Hact Hhold Hval _ Hg _ _ Hn Hc]).
  exists pls. split; [|split; [|split; [done|split; [done|]]]].
  - intros t th Ht. destruct (Hth t th Ht) as (pl & Hpl & Hat). exists pl. split; [done|]. by eapply at_place_stands.
  - intros t t' pl pl' Hpl Hpl' Ha Ha'. pose proof (Hact _ _ Hpl Ha). pose proof (Hact _ _ Hpl' Ha'). congruence.
  - destruct h as [m|t]; [right|left]. { exists m. rewrite Hval, decide_True by done. split; [done|]. by apply Hg. } destruct (Hhold t eq_refl) as (pl & Hpl & Ha). by exists t, pl.
Qed.
End Exclusion.
