(* ===== verification/Philosophers.v ===== *)
(** The dining philosophers with condition variables (lab8/kern/sync/check_sync.c): a client
    of the monitor.  The proofs apply its rules; the note of a philosopher is the list of
    the philosophers that it still has to test. *)
From S2P Require Import Prelude Threads Monitor.

Definition N : Z := 5.
Definition LEFT (i : Z) : Z := (i - 1 + N) mod N.
Definition RIGHT (i : Z) : Z := (i + 1) mod N.
Definition THINKING : Z := 0.
Definition HUNGRY : Z := 1.
Definition EATING : Z := 2.
Definition TIMES : nat := 4.

(** [state_condvar]. *)
Abbreviation forks := (Z -> Z).
Definition set_state (i x : Z) (st : forks) : forks := fun j => if decide (j = i) then x else st j.

(** What a philosopher does between the calls. *)
Inductive doing : Type := Thinks | Eats.

Abbreviation mprog := (prog msem (monitor forks) doing).

Definition phi_test_condvar (i : Z) (k : mprog) : mprog :=
  client (fun st =>
    if (st i =? HUNGRY) && negb (st (LEFT i) =? EATING) && negb (st (RIGHT i) =? EATING)
    then (set_state i EATING st, cond_signal i k)
    else (st, k)).

Definition phi_take_forks_condvar (i : Z) (k : mprog) : mprog :=
  enter (client (fun st => (set_state i HUNGRY st,
    phi_test_condvar i (client (fun st => (st, if st i =? HUNGRY then cond_wait i (release k) else release k)))))).

Definition phi_put_forks_condvar (i : Z) (k : mprog) : mprog :=
  enter (client (fun st => (set_state i THINKING st, phi_test_condvar (LEFT i) (phi_test_condvar (RIGHT i) (release k))))).

(** The two calls of [do_sleep] are marks: a place where the other threads may do anything
    for any time, so how long the sleep lasts does not matter. *)
Fixpoint philosopher_rounds (i : Z) (n : nat) : mprog :=
  match n with
  | O => Done
  | S n' => Mark Thinks (phi_take_forks_condvar i (Mark Eats (phi_put_forks_condvar i (philosopher_rounds i n'))))
  end.

Definition philosopher_using_condvar (i : Z) : mprog := philosopher_rounds i TIMES.

(** [check_sync]: the monitor and the five threads. *)
Definition check_condvar : pool msem (monitor forks) doing :=
  monitor_init (fun _ => THINKING) (philosopher_using_condvar <$> seqZ 0 N).

(** * Arithmetic of the table *)
Lemma table i : 0 <= i < N -> i = 0 \/ i = 1 \/ i = 2 \/ i = 3 \/ i = 4.
Proof. unfold N. lia. Qed.

Lemma sides i : 0 <= i < N ->
  0 <= LEFT i < N /\ 0 <= RIGHT i < N /\ LEFT i <> i /\ RIGHT i <> i /\ LEFT i <> RIGHT i /\ RIGHT (LEFT i) = i /\ LEFT (RIGHT i) = i.
Proof. intros Hi. destruct (table i Hi) as [->|[->|[->|[->| ->]]]]; vm_compute; repeat split; discriminate. Qed.

(** * Assertions *)
Abbreviation idx := Z.of_nat.
Abbreviation notes := (nat -> option Z * list Z).
Implicit Types (d : forks) (g : notes).

(** Neighbours do not eat together. *)
Definition safe d : Prop := forall j, 0 <= j < N -> d j = EATING -> d (LEFT j) <> EATING /\ d (RIGHT j) <> EATING.

(** Nobody is hungry without a reason. *)
Definition justified d g : Prop :=
  forall j, 0 <= j < N -> d j = HUNGRY -> d (LEFT j) = EATING \/ d (RIGHT j) = EATING \/ exists t, (t < 5)%nat /\ j ∈ (g t).2.

Definition waiters_hungry (e : option Z) d g : Prop := forall t cv, (g t).1 = Some cv -> cv = idx t /\ (t < 5)%nat /\ (e = Some cv \/ d cv = HUNGRY).

Definition MI d g : Prop := safe d /\ justified d g /\ waiters_hungry None d g.
Definition PC (cv : Z) d g : Prop := safe d /\ justified d g /\ waiters_hungry (Some cv) d g /\ d cv = EATING.

(** What others may do to the state of a philosopher: let it eat when it is hungry. *)
Definition G (t : nat) d g d' g' : Prop :=
  (forall t', t' <> t -> g' t' = g t' /\ (d' (idx t') = d (idx t') \/ d (idx t') = HUNGRY /\ d' (idx t') = EATING)) /\ (safe d -> safe d').

Definition Rest (t : nat) d g : Prop := (g t).2 = [].
Definition LI (l : option doing) (t : nat) d g : Prop := d (idx t) = match l with Some Eats => EATING | _ => THINKING end.

Lemma G_refl t d g w a : G t d g d (waiting_note g t w a).
Proof. split; [|done]. intros t' Ht. split; [by apply note_other|by left]. Qed.

(** Notes matter point by point. *)
Lemma justified_ext d g g' : (forall x, (g' x).2 = (g x).2) -> justified d g -> justified d g'.
Proof. intros Hg Hj j Hj0 Hh. destruct (Hj j Hj0 Hh) as [?|[?|(t & Ht & Hin)]]; [by left|by right; left|right; right]. exists t. by rewrite Hg. Qed.

Lemma waiters_ext e d g g' : (forall x, (g' x).1 = (g x).1) -> waiters_hungry e d g -> waiters_hungry e d g'.
Proof. intros Hg Hw t cv Ht. rewrite Hg in Ht. by apply Hw. Qed.

Lemma note_same g t w a x : (g t).1 = w -> (g t).2 = a -> waiting_note g t w a x = g x.
Proof. intros <- <-. unfold waiting_note. destruct (decide (x = t)) as [->|]; [by destruct (g t)|done]. Qed.

Lemma MI_note t w a d g : MI d g -> g t = (w, a) -> MI d (waiting_note g t w a).
Proof.
  intros (H1 & H2 & H3) Hg. assert (Hs : forall x, waiting_note g t w a x = g x) by (intros x; apply note_same; by rewrite Hg).
  split; [done|]. split; [eapply justified_ext; [|exact H2]|eapply waiters_ext; [|exact H3]]; intros x; by rewrite Hs.
Qed.

Lemma PC_note cv t w a d g : PC cv d g -> g t = (w, a) -> PC cv d (waiting_note g t w a).
Proof.
  intros (H1 & H2 & H3 & H4) Hg. assert (Hs : forall x, waiting_note g t w a x = g x) by (intros x; apply note_same; by rewrite Hg).
  split; [done|]. split; [eapply justified_ext; [|exact H2]|split; [eapply waiters_ext; [|exact H3]|done]]; intros x; by rewrite Hs.
Qed.

Lemma set_state_eq i x d : set_state i x d i = x.
Proof. unfold set_state. by rewrite decide_True. Qed.

Lemma set_state_ne i x d j : j <> i -> set_state i x d j = d j.
Proof. intros. unfold set_state. by rewrite decide_False. Qed.

(** Letting a hungry philosopher between two that do not eat have the forks. *)
Lemma eat_safe d i : 0 <= i < N -> safe d -> d (LEFT i) <> EATING -> d (RIGHT i) <> EATING -> safe (set_state i EATING d).
Proof.
  intros Hi Hs HL HR j Hj Hej. destruct (sides i Hi) as (? & ? & Hli & Hri & _ & Hrl & Hlr). destruct (sides j Hj) as (? & ? & Hlj & Hrj & _ & Hrlj & Hlrj).
  destruct (decide (j = i)) as [->|Hne]; [by rewrite !set_state_ne|]. rewrite set_state_ne in Hej by done. destruct (Hs j Hj Hej) as [Ha Hb]. split.
  - destruct (decide (LEFT j = i)) as [E|E]; [|by rewrite set_state_ne]. exfalso. apply HR. by rewrite <- E, Hrlj.
  - destruct (decide (RIGHT j = i)) as [E|E]; [|by rewrite set_state_ne]. exfalso. apply HL. by rewrite <- E, Hlrj.
Qed.

Lemma eat_pc d g t i rest :
  0 <= i < N -> MI d g -> d i = HUNGRY -> d (LEFT i) <> EATING -> d (RIGHT i) <> EATING -> g t = (None, i :: rest) -> PC i (set_state i EATING d) (waiting_note g t None rest).
Proof.
  intros Hi (Hs & Hj & Hw) Hh HL HR Hg. split; [by apply eat_safe|]. split; [|split; [|by rewrite set_state_eq]].
  - intros j Hj0 Hhj. assert (j <> i) as Hne by (intros ->; rewrite set_state_eq in Hhj; discriminate). rewrite set_state_ne in Hhj by done.
    destruct (Hj j Hj0 Hhj) as [E|[E|(t' & Ht' & Hin)]].
    + left. destruct (decide (LEFT j = i)) as [->|Hd]; [apply set_state_eq|by rewrite set_state_ne].
    + right. left. destruct (decide (RIGHT j = i)) as [->|Hd]; [apply set_state_eq|by rewrite set_state_ne].
    + right. right. exists t'. split; [done|]. destruct (decide (t' = t)) as [->|Hd]; [|by rewrite note_other]. rewrite note_self. rewrite Hg in Hin. by apply elem_of_cons in Hin as [?|].
  - intros t' cv Ht'. destruct (decide (t' = t)) as [->|Hd]; [by rewrite note_self in Ht'|]. rewrite note_other in Ht' by done. destruct (Hw t' cv Ht') as (H1 & H2 & [?|H3]); [done|].
    split; [done|]. split; [done|]. destruct (decide (cv = i)) as [->|]; [by left|right; by rewrite set_state_ne].
Qed.

Section Rules.
Abbreviation rt := (rt MI PC G Rest LI).
Abbreviation ot := (ot MI PC G Rest LI).
Abbreviation stable := (stable G).
Abbreviation outside := (outside G Rest).

(** [phi_test_condvar] of a philosopher that is still to be tested. *)
Lemma rt_test t i rest (Own : forks -> Prop) k :
  0 <= i < N -> (forall d, Own d -> d i = HUNGRY -> Own (set_state i EATING d)) -> (forall t' d g d' g', t' <> t -> G t' d g d' g' -> Own d -> Own d') ->
  rt t (fun d g => MI d g /\ g t = (None, rest) /\ Own d) k -> rt t (fun d g => MI d g /\ g t = (None, i :: rest) /\ Own d) (phi_test_condvar i k).
Proof.
  intros Hi Hown Hstable Hk. apply rt_client. intros d g (HM & Hg & HO). exists rest.
  destruct ((d i =? HUNGRY) && negb (d (LEFT i) =? EATING) && negb (d (RIGHT i) =? EATING)) eqn:E; cbn [fst snd].
  - assert (d i = HUNGRY /\ d (LEFT i) <> EATING /\ d (RIGHT i) <> EATING) as (Hh & HL & HR) by (unfold HUNGRY, EATING in *; lia).
    exists (fun d g => PC i d g /\ g t = (None, rest) /\ Own d). split; [|split].
    + split; [|intros; by apply eat_safe]. intros t' Ht'. split; [by apply note_other|]. destruct (decide (idx t' = i)) as [->|Hd]; [right; by rewrite set_state_eq|left; by rewrite set_state_ne].
    + split; [by eapply eat_pc|]. split; [apply note_self|by apply Hown].
    + apply (rt_signal _ _ _ _ _ _ _ (fun d g => g t = (None, rest) /\ Own d) (fun d g => MI d g /\ g t = (None, rest) /\ Own d) (fun d g => MI d g /\ g t = (None, rest) /\ Own d)).
      * intros d1 g1 [(HP & Hg1 & HO1) _]. exists rest. split; [apply G_refl|]. split; [by apply PC_note|]. split; [apply note_self|done].
      * intros t' d1 g1 d2 g2 Hne HG [Hg1 HO1]. pose proof HG as [Hoth _]. destruct (Hoth t ltac:(done)) as [-> _]. split; [done|by eapply Hstable].
      * intros d1 g1 (HM1 & Hg1 & HO1). exists rest. split; [apply G_refl|]. split; [by apply MI_note|]. split; [apply note_self|done].
      * exact Hk.
      * intros d1 g1 [((Hs1 & Hj1 & Hw1 & He1) & Hg1 & HO1) Hno]. exists rest. split; [apply G_refl|]. split; [apply MI_note; [|done]|split; [apply note_self|done]].
        split; [done|]. split; [done|]. intros t' cv Ht'. destruct (Hw1 t' cv Ht') as (? & ? & [[= <-]|?]); [by destruct (Hno t')|]. split; [done|]. split; [done|by right].
      * exact Hk.
  - exists (fun d g => MI d g /\ g t = (None, rest) /\ Own d). split; [apply G_refl|]. split; [|exact Hk]. split; [|split; [apply note_self|done]].
    destruct HM as (Hs & Hj & Hw). split; [done|]. split.
    + intros j Hj0 Hh. destruct (decide (j = i)) as [->|Hne].
      * unfold HUNGRY, EATING in *. destruct (decide (d (LEFT i) = 2)); [by left|]. destruct (decide (d (RIGHT i) = 2)); [by right; left|]. lia.
      * destruct (Hj j Hj0 Hh) as [?|[?|(t' & Ht' & Hin)]]; [by left|by right; left|right; right]. exists t'. split; [done|].
        destruct (decide (t' = t)) as [->|Hd]; [|by rewrite note_other]. rewrite note_self. rewrite Hg in Hin. by apply elem_of_cons in Hin as [?|].
    + intros t' cv Ht'. destruct (decide (t' = t)) as [->|Hd]; [by rewrite note_self in Ht'|]. rewrite note_other in Ht' by done. by apply Hw.
Qed.

(** A philosopher outside, thinking or eating. *)
Definition at_rest (t : nat) (x : Z) d g : Prop := d (idx t) = x /\ g t = (None, []).

Lemma at_rest_outside t x : x <> HUNGRY -> outside t (at_rest t x).
Proof.
  intros Hx. split.
  - intros t' d g d' g' Hne [Hoth _] [Hd Hg]. destruct (Hoth t ltac:(done)) as [Eg [E|[E _]]]; [|congruence]. split; congruence.
  - intros d g [_ Hg]. unfold Rest. by rewrite Hg.
Qed.

Definition own_hungry (t : nat) d : Prop := d (idx t) = HUNGRY \/ d (idx t) = EATING.

Lemma own_hungry_stable t t' d g d' g' : t' <> t -> G t' d g d' g' -> own_hungry t d -> own_hungry t d'.
Proof. intros Hne [Hoth _] HO. destruct (Hoth t ltac:(done)) as [_ [E|[_ E]]]; [unfold own_hungry; by rewrite E|by right]. Qed.

Definition waits_own (t : nat) d g : Prop := own_hungry t d /\ g t = (Some (idx t), []).

Lemma waits_own_outside t : outside t (waits_own t).
Proof.
  split.
  - intros t' d g d' g' Hne HG [HO Hg]. split; [by eapply own_hungry_stable|]. destruct HG as [Hoth _]. destruct (Hoth t ltac:(done)) as [-> _]. done.
  - intros d g [_ Hg]. unfold Rest. by rewrite Hg.
Qed.

(** Leaving with the forks, or without. *)
Lemma rt_leave t x k : x <> HUNGRY -> ot t (at_rest t x) k -> rt t (fun d g => MI d g /\ g t = (None, []) /\ d (idx t) = x) (release k).
Proof.
  intros Hx Hk. apply (rt_release _ _ _ _ _ _ _ (at_rest t x)); [|by apply at_rest_outside|done].
  intros d g (HM & Hg & Hd). exists []. split; [apply G_refl|]. split; [by apply MI_note|]. split; [done|apply note_self].
Qed.

Lemma hungry_step t d g : (t < 5)%nat -> MI d g -> at_rest t THINKING d g ->
  G t d g (set_state (idx t) HUNGRY d) (waiting_note g t None [idx t]) /\ MI (set_state (idx t) HUNGRY d) (waiting_note g t None [idx t]).
Proof.
  intros Ht (Hs & Hj & Hw) [Hd Hg]. assert (Hsafe : safe (set_state (idx t) HUNGRY d)).
  { intros j Hj0 Hej. assert (j <> idx t) by (intros ->; rewrite set_state_eq in Hej; discriminate). rewrite set_state_ne in Hej by done. destruct (Hs j Hj0 Hej) as [Ha Hb].
    split; [destruct (decide (LEFT j = idx t)) as [->|]|destruct (decide (RIGHT j = idx t)) as [->|]]; rewrite ?set_state_eq, ?set_state_ne by done; done. }
  split; [split; [|done]|split; [done|split]].
  - intros t' Hne. split; [by apply note_other|left]. rewrite set_state_ne by lia. done.
  - intros j Hj0 Hh. destruct (decide (j = idx t)) as [->|Hne]; [right; right; exists t; rewrite note_self; split; [done|left]|]. rewrite set_state_ne in Hh by done.
    destruct (Hj j Hj0 Hh) as [E|[E|(t' & Ht' & Hin)]].
    + left. rewrite set_state_ne; [done|]. intros El. rewrite El, Hd in E. discriminate.
    + right. left. rewrite set_state_ne; [done|]. intros El. rewrite El, Hd in E. discriminate.
    + right. right. exists t'. split; [done|]. destruct (decide (t' = t)) as [->|Hd']; [rewrite Hg in Hin; by apply not_elem_of_nil in Hin|by rewrite note_other].
  - intros t' cv Ht'. destruct (decide (t' = t)) as [->|Hd']; [by rewrite note_self in Ht'|]. rewrite note_other in Ht' by done. destruct (Hw t' cv Ht') as (-> & H5 & [?|H6]); [done|].
    split; [done|]. split; [done|right]. rewrite set_state_ne; [done|lia].
Qed.

Lemma rt_take t k : (t < 5)%nat -> ot t (at_rest t EATING) k -> ot t (at_rest t THINKING) (phi_take_forks_condvar (idx t) k).
Proof.
  intros Ht Hk. assert (Hi : 0 <= idx t < N) by (unfold N; lia).
  apply (ot_enter _ _ _ _ _ _ _ (fun d g => MI d g /\ at_rest t THINKING d g)); [by apply at_rest_outside| |].
  { intros d g (HM & Hd & Hg). exists []. split; [apply G_refl|]. split; [by apply MI_note|]. split; [done|apply note_self]. }
  apply rt_client. intros d g (HM & HR). exists [idx t], (fun d g => MI d g /\ g t = (None, [idx t]) /\ own_hungry t d). cbn [fst snd].
  destruct (hungry_step t d g Ht HM HR) as [HG HM']. split; [done|]. split; [split; [done|]; split; [apply note_self|left; apply set_state_eq]|].
  apply rt_test; [done|by intros d1 _ _; right; apply set_state_eq|apply own_hungry_stable|].
  apply rt_client. intros d1 g1 (HM1 & Hg1 & HO1). exists []. cbn [fst snd]. destruct (Z.eqb_spec (d1 (idx t)) HUNGRY) as [Hh|Hnh].
  - exists (fun d g => MI d g /\ g t = (None, []) /\ d (idx t) = HUNGRY). split; [apply G_refl|]. split; [split; [by apply MI_note|split; [apply note_self|done]]|].
    apply (rt_wait _ _ _ _ _ _ _ (waits_own t) (fun d g => MI d g /\ g t = (None, []) /\ d (idx t) = EATING)); [|apply waits_own_outside| |by apply rt_leave].
    + intros d2 g2 ((Hs2 & Hj2 & Hw2) & Hg2 & Hh2). exists []. split; [apply G_refl|]. split; [|split; [by left|apply note_self]]. split; [done|]. split.
      * eapply justified_ext; [|exact Hj2]. intros x. destruct (decide (x = t)) as [->|Hd]; [by rewrite note_self, Hg2|by rewrite note_other].
      * intros t' cv Ht'. destruct (decide (t' = t)) as [->|Hd]; [rewrite note_self in Ht'; injection Ht' as <-; split; [done|split; [done|by right]]|]. rewrite note_other in Ht' by done. by apply Hw2.
    + intros d2 g2 ((Hs2 & Hj2 & Hw2 & He2) & HO2 & Hg2). exists []. split; [apply G_refl|]. split; [|split; [apply note_self|done]]. split; [done|]. split.
      * eapply justified_ext; [|exact Hj2]. intros x. destruct (decide (x = t)) as [->|Hd]; [by rewrite note_self, Hg2|by rewrite note_other].
      * intros t' cv Ht'. destruct (decide (t' = t)) as [->|Hd]; [by rewrite note_self in Ht'|]. rewrite note_other in Ht' by done.
        destruct (Hw2 t' cv Ht') as (-> & H5 & [[= E]|H6]); [lia|]. split; [done|]. split; [done|by right].
  - assert (He : d1 (idx t) = EATING) by (by destruct HO1). exists (fun d g => MI d g /\ g t = (None, []) /\ d (idx t) = EATING).
    split; [apply G_refl|]. split; [split; [by apply MI_note|split; [apply note_self|done]]|]. by apply rt_leave.
Qed.

Lemma think_step t d g : (t < 5)%nat -> MI d g -> at_rest t EATING d g ->
  G t d g (set_state (idx t) THINKING d) (waiting_note g t None [LEFT (idx t); RIGHT (idx t)]) /\ MI (set_state (idx t) THINKING d) (waiting_note g t None [LEFT (idx t); RIGHT (idx t)]).
Proof.
  intros Ht (Hs & Hj & Hw) [Hd Hg]. assert (Hsafe : safe (set_state (idx t) THINKING d)).
  { intros j Hj0 Hej. assert (j <> idx t) by (intros ->; rewrite set_state_eq in Hej; discriminate). rewrite set_state_ne in Hej by done. destruct (Hs j Hj0 Hej) as [Ha Hb].
    split; [destruct (decide (LEFT j = idx t)) as [->|]|destruct (decide (RIGHT j = idx t)) as [->|]]; rewrite ?set_state_eq, ?set_state_ne by done; done. }
  split; [split; [|done]|split; [done|split]].
  - intros t' Hne. split; [by apply note_other|left]. rewrite set_state_ne by lia. done.
  - intros j Hj0 Hh. assert (j <> idx t) as Hne by (intros ->; rewrite set_state_eq in Hh; discriminate). rewrite set_state_ne in Hh by done. destruct (sides j Hj0) as (_ & _ & _ & _ & _ & Hrl & Hlr).
    destruct (Hj j Hj0 Hh) as [E|[E|(t' & Ht' & Hin)]].
    + destruct (decide (LEFT j = idx t)) as [El|El]; [|left; by rewrite set_state_ne]. right. right. exists t. split; [done|]. rewrite note_self, <- El, Hrl. right. left.
    + destruct (decide (RIGHT j = idx t)) as [El|El]; [|right; left; by rewrite set_state_ne]. right. right. exists t. split; [done|]. rewrite note_self, <- El, Hlr. left.
    + right. right. exists t'. split; [done|]. destruct (decide (t' = t)) as [->|Hd']; [rewrite Hg in Hin; by apply not_elem_of_nil in Hin|by rewrite note_other].
  - intros t' cv Ht'. destruct (decide (t' = t)) as [->|Hd']; [by rewrite note_self in Ht'|]. rewrite note_other in Ht' by done. destruct (Hw t' cv Ht') as (-> & H5 & [?|H6]); [done|].
    split; [done|]. split; [done|right]. rewrite set_state_ne; [done|lia].
Qed.

Lemma rt_put t k : (t < 5)%nat -> ot t (at_rest t THINKING) k -> ot t (at_rest t EATING) (phi_put_forks_condvar (idx t) k).
Proof.
  intros Ht Hk. assert (Hi : 0 <= idx t < N) by (unfold N; lia). destruct (sides _ Hi) as (Hl & Hr & Hli & Hri & _).
  apply (ot_enter _ _ _ _ _ _ _ (fun d g => MI d g /\ at_rest t EATING d g)); [by apply at_rest_outside| |].
  { intros d g (HM & Hd & Hg). exists []. split; [apply G_refl|]. split; [by apply MI_note|]. split; [done|apply note_self]. }
  apply rt_client. intros d g (HM & HR). exists [LEFT (idx t); RIGHT (idx t)], (fun d g => MI d g /\ g t = (None, [LEFT (idx t); RIGHT (idx t)]) /\ d (idx t) = THINKING). cbn [fst snd].
  destruct (think_step t d g Ht HM HR) as [HG HM']. split; [done|]. split; [split; [done|]; split; [apply note_self|apply set_state_eq]|].
  assert (Hown : forall t' (d : forks) g d' g', t' <> t -> G t' d g d' g' -> d (idx t) = THINKING -> d' (idx t) = THINKING).
  { intros t' d1 g1 d2 g2 Hne [Hoth _] E. destruct (Hoth t ltac:(done)) as [_ [E'|[E' _]]]; [congruence|rewrite E in E'; discriminate]. }
  apply rt_test; [done|by intros d1 E _; rewrite set_state_ne|exact Hown|]. apply rt_test; [done|by intros d1 E _; rewrite set_state_ne|exact Hown|]. by apply rt_leave.
Qed.

Lemma ot_rounds t n : (t < 5)%nat -> ot t (at_rest t THINKING) (philosopher_rounds (idx t) n).
Proof.
  intros Ht. induction n as [|n IH]; cbn [philosopher_rounds].
  - apply ot_done; [by apply at_rest_outside|by intros d g [Hd _]].
  - apply ot_mark; [by apply at_rest_outside|by intros d g [Hd _]|]. apply rt_take; [done|]. apply ot_mark; [by apply at_rest_outside|by intros d g [Hd _]|]. by apply rt_put.
Qed.
End Rules.

(** * Properties *)
Lemma check_inv s : rtc pool_steps check_condvar s -> length (threads s) = 5%nat /\
  exists g pls h, minv MI PC G Rest LI (fun d _ => safe d) s g pls h.
Proof.
  intros Hr. split; [by rewrite (steps_length _ _ Hr)|]. eapply minv_reach; [|apply (minv_init MI PC G Rest LI (fun d _ => safe d) (fun _ => THINKING) (fun _ => (None, [])))|exact Hr]; try done.
  - by intros t d g d' g' [_ HG].
  - intros t p Hp. apply list_lookup_fmap_Some in Hp as (i & -> & [-> Ht]%lookup_seqZ). exists (at_rest t THINKING). split; [|done].
    replace (0 + Z.of_nat t) with (idx t) by lia. apply ot_rounds. unfold N in Ht. lia.
Qed.

(** Those at the mark where they eat do not sit side by side. *)
Lemma eaters_apart s :
  rtc pool_steps check_condvar s ->
  (forall t t' k k', threads s !! t = Some (Ready (Mark Eats k)) -> threads s !! t' = Some (Ready (Mark Eats k')) -> idx t' <> LEFT (idx t) /\ idx t' <> RIGHT (idx t)) /\
  safe (data (vars s)).
Proof.
  intros Hr. destruct (check_inv s Hr) as (Hlen & g & pls & h & Hinv). pose proof (mi_always _ _ _ _ _ _ _ _ _ _ Hinv) as Hs. split; [|done].
  intros t t' k k' Ht Ht'. pose proof (minv_mark_info _ _ _ _ _ _ _ _ _ _ _ _ _ Hinv Ht) as He. pose proof (minv_mark_info _ _ _ _ _ _ _ _ _ _ _ _ _ Hinv Ht') as He'.
  destruct (Hs (idx t)) as [Hl Hr']; [apply lookup_lt_Some in Ht; unfold N; lia|exact He|]. split; intros E; rewrite <- E in *; done.
Qed.

(** C19. The dining philosophers with condition variables are right: however their
    statements interleave, two neighbours never eat at the same time, neither by the
    table of states nor by what the threads do; and no signal is missed: whenever the
    monitor is free, a philosopher is hungry only because a neighbour eats. *)
Theorem philosophers_condvar_safe s :
  rtc pool_steps check_condvar s ->
  (forall t t' k k', threads s !! t = Some (Ready (Mark Eats k)) -> threads s !! t' = Some (Ready (Mark Eats k')) -> idx t' <> LEFT (idx t) /\ idx t' <> RIGHT (idx t)) /\
  safe (data (vars s)) /\
  ((sems s Mutex).1 = 1 -> forall j, 0 <= j < N -> data (vars s) j = HUNGRY -> data (vars s) (LEFT j) = EATING \/ data (vars s) (RIGHT j) = EATING).
Proof.
  intros Hr. destruct (eaters_apart s Hr) as [Ha Hs]. split; [exact Ha|]. split; [exact Hs|].
  destruct (check_inv s Hr) as (Hlen & g & pls & h & Hinv). intros Hfree j Hj Hh.
  pose proof (mi_value _ _ _ _ _ _ _ _ _ _ Hinv Mutex) as Hv. rewrite Hfree in Hv. destruct (decide (h = HSem Mutex)) as [->|]; [|done].
  destruct (mi_gives _ _ _ _ _ _ _ _ _ _ Hinv Mutex eq_refl) as [(_ & Hju & _) _]. destruct (Hju j Hj Hh) as [?|[?|(t & Ht & Hin)]]; [by left|by right|].
  destruct (lookup_lt_is_Some_2 (threads s) t) as [th Hth]; [lia|]. pose proof (minv_rest _ _ _ _ _ _ _ _ _ Hinv t th Hth) as Hrest. unfold Rest in Hrest. rewrite Hrest in Hin. by apply not_elem_of_nil in Hin.
Qed.

Lemma bounded_rounds i n : bounded (34 * n) (philosopher_rounds i n).
Proof.
  induction n as [|n IH]; cbn [philosopher_rounds]; [constructor|]. replace (34 * S n)%nat with (1 + (1 + (1 + (1 + (5 + (1 + (5 + (2 + (1 + (1 + (1 + (1 + (5 + (1 + (5 + (2 + 34 * n))))))))))))))))%nat by lia.
  constructor. constructor. apply bounded_client. intros d1. apply bounded_client. intros d2. cbn [fst snd].
  assert (Hput : bounded (1 + (1 + (1 + (1 + (5 + (1 + (5 + (2 + 34 * n)))))))) (Mark Eats (phi_put_forks_condvar i (philosopher_rounds i n)))).
  { constructor. constructor. apply bounded_client. intros d3. apply bounded_client. intros d4. cbn [fst snd].
    assert (Htest : bounded (1 + (5 + (2 + 34 * n))) (phi_test_condvar (RIGHT i) (release (philosopher_rounds i n)))).
    { apply bounded_client. intros d5. destruct (_ && _); [by apply bounded_signal, bounded_release|]. eapply bounded_le; [by apply bounded_release|lia]. }
    destruct (_ && _); [by apply bounded_signal|]. eapply bounded_le; [exact Htest|lia]. }
  assert (Hwait : bounded (1 + (5 + (2 + (1 + (1 + (1 + (1 + (5 + (1 + (5 + (2 + 34 * n))))))))))) (client (fun st : forks => (st, if st i =? HUNGRY then cond_wait i (release (Mark Eats (phi_put_forks_condvar i (philosopher_rounds i n)))) else release (Mark Eats (phi_put_forks_condvar i (philosopher_rounds i n))))))).
  { apply bounded_client. intros d5. cbn [fst snd]. destruct (_ =? _); [by apply bounded_wait, bounded_release|]. eapply bounded_le; [by apply bounded_release|lia]. }
  destruct (_ && _); [by apply bounded_signal|]. eapply bounded_le; [exact Hwait|lia].
Qed.

(** C5. And everybody gets to eat: no run of the philosophers, however the threads are
    scheduled, has more than 1360 steps, and when none of the threads can go on all five
    have come to the end of their [TIMES] rounds; so there is no deadlock. *)
Theorem philosophers_condvar_finish ts s :
  run ts check_condvar = Some s ->
  (length ts <= 1360)%nat /\ ((forall t, pool_step t s = None) -> threads s = replicate 5 (Ready Done)).
Proof.
  intros Hrun. split.
  - eapply run_budget; [|exact Hrun]. exists (replicate 5 (2 * (34 * TIMES)))%nat. split; [|done].
    assert (forall i, budget (2 * (34 * TIMES)) (Ready (philosopher_using_condvar i))) as Hb by (intros i; constructor; apply bounded_rounds).
    do 5 (apply Forall2_cons_2; [apply Hb|]). constructor.
  - intros Hstuck. destruct (check_inv s (run_steps _ _ _ Hrun)) as (Hlen & g & pls & h & Hinv). destruct (minv_stuck _ _ _ _ _ _ _ _ _ _ Hinv Hstuck) as (-> & Hall).
    destruct (mi_gives _ _ _ _ _ _ _ _ _ _ Hinv Mutex eq_refl) as [(Hs & Hju & Hw) _].
    assert (Hst : forall t th, threads s !! t = Some th -> th = Ready Done \/ data (vars s) (idx t) = HUNGRY).
    { intros t th Ht. destruct (Hall t th Ht) as [|[cv Hcv]]; [by left|right]. destruct (Hw t cv) as (-> & _ & [?|?]); [|done|done]. rewrite (mi_notes _ _ _ _ _ _ _ _ _ _ Hinv). unfold waiter. by rewrite Hcv. }
    assert (Hno : forall j, 0 <= j < N -> data (vars s) j <> EATING).
    { intros j Hj He. destruct (lookup_lt_is_Some_2 (threads s) (Z.to_nat j)) as [th Hth]; [unfold N in Hj; lia|]. destruct (Hst _ _ Hth) as [->|Hh].
      - pose proof (minv_done_info _ _ _ _ _ _ _ _ _ _ _ Hinv Hth) as Hd. unfold LI in Hd. rewrite Z2Nat.id in Hd by lia. rewrite He in Hd. discriminate.
      - rewrite Z2Nat.id in Hh by lia. rewrite He in Hh. discriminate. }
    apply list_eq. intros t. destruct (threads s !! t) as [th|] eqn:Ht.
    + pose proof (lookup_lt_Some _ _ _ Ht) as Hlt. rewrite Hlen in Hlt. symmetry. rewrite lookup_replicate. split; [|done].
      destruct (Hst t th Ht) as [->|Hh]; [done|exfalso]. destruct (sides (idx t)) as (Hl & Hr & _); [unfold N; lia|].
      destruct (Hju (idx t)) as [E|[E|(t' & Ht' & Hin)]]; [unfold N; lia|done|by apply (Hno _ Hl)|by apply (Hno _ Hr)|].
      destruct (lookup_lt_is_Some_2 (threads s) t') as [th' Hth']; [lia|]. pose proof (minv_rest _ _ _ _ _ _ _ _ _ Hinv t' th' Hth') as Hrest. unfold Rest in Hrest. rewrite Hrest in Hin. by apply not_elem_of_nil in Hin.
    + symmetry. apply lookup_ge_None. apply lookup_ge_None in Ht. rewrite Hlen in Ht. by rewrite length_replicate.
Qed.

(** ** The theorems at work *)
Lemma rounds_caller i n : caller (philosopher_rounds i n).
Proof.
  induction n as [|n IH]; cbn [philosopher_rounds]; [constructor|].
  assert (Htest : forall j k, routine k -> routine (phi_test_condvar j k)) by (intros j k Hk; apply routine_client; intros d; destruct (_ && _); [by apply routine_signal|done]).
  constructor. constructor. apply routine_client. intros d. apply Htest. apply routine_client. intros d1. cbn [snd].
  assert (Hput : caller (Mark Eats (phi_put_forks_condvar i (philosopher_rounds i n)))).
  { constructor. constructor. apply routine_client. intros d2. apply Htest, Htest. by apply routine_release. }
  destruct (_ =? _); [by apply routine_wait, routine_release|by apply routine_release].
Qed.

(** One philosopher after the other until everybody has finished. *)
Definition supper : list nat * pool msem (monitor forks) doing := drive 1000 0 5 check_condvar.

Lemma supper_run : run supper.1 check_condvar = Some supper.2.
Proof. apply drive_run. Qed.

Lemma supper_threads : threads supper.2 = replicate 5 (Ready Done).
Proof. vm_compute. reflexivity. Qed.

Lemma monitor_exclusion_witness :
  exists pls : list place, (forall t th, threads supper.2 !! t = Some th -> exists pl, pls !! t = Some pl /\ stands th pl) /\
    (forall t t' pl pl', pls !! t = Some pl -> pls !! t' = Some pl' -> active pl = true -> active pl' = true -> t = t').
Proof.
  destruct (monitor_exclusion (fun _ : Z => THINKING) (philosopher_using_condvar <$> seqZ 0 N) supper.2) as (pls & Hth & Hex & _).
  - apply Forall_fmap, Forall_forall. intros i _. apply rounds_caller.
  - reflexivity.
  - exact (run_steps _ _ _ supper_run).
  - exists pls. split; [exact Hth|exact Hex].
Defined.

(** The first philosopher eats. *)
Lemma philosophers_condvar_safe_witness :
  safe (data (vars (drive 8 0 5 check_condvar).2)) /\ match threads (drive 8 0 5 check_condvar).2 !! 0%nat with Some (Ready (Mark Eats _)) => True | _ => False end.
Proof.
  split; [|vm_compute; exact I]. exact (proj1 (proj2 (philosophers_condvar_safe _ (run_steps _ _ _ (drive_run 8 0 5 check_condvar))))).
Defined.

Lemma philosophers_condvar_finish_witness : (length supper.1 <= 1360)%nat /\ threads supper.2 = replicate 5 (Ready Done).
Proof.
  pose proof supper_run as Hrun. pose proof supper_threads as Hth. revert Hrun Hth. generalize supper. intros [ts s] Hrun Hth. cbn [fst snd] in *.
  destruct (philosophers_condvar_finish ts s Hrun) as [Hlen Hdone]. split; [exact Hlen|]. apply Hdone.
  intros t. unfold pool_step. rewrite Hth. destruct (replicate 5 (Ready Done) !! t) as [th|] eqn:E; [|reflexivity]. apply lookup_replicate in E as [-> _]. reflexivity.
Defined.
