(* ===== verification/KernelThreads.v ===== *)
(** Threads over the real semaphores: the programs of Threads.v run as processes on the
    scheduler of sched.c, sleep in the wait queues of wait.c and call [down] and [up] of
    sem.c.

    The theorem is a forward simulation: whatever such a system does is a run of the
    threads of Threads.v, and it never fails an assertion.  The process on the CPU may be
    taken off it before any statement; the kernel does this at fewer points. *)
From S2P Require Import Prelude Lists SkewHeap ProcStruct SchedClass Sched RoundRobin Timer Sync Threads.

Section Kernel.
Context `{SchedClass c} {N : Type} `{EqDecision N} {V L : Type}.

(** The address of each semaphore, the semaphores that there are, and the process of each
    thread. *)
Context (addr : N -> Z) `{!Inj (=) (=) addr} (there : N -> Prop) (pids : list Z).

(** A thread runs its program, or is in a call of [down] that has given up the CPU. *)
Inductive kthread : Type := Runs (p : prog N V L) | InDown (m : N) (k : prog N V L).

Record ksys : Type := KSys { ksync : sync_state; kvars : V; kthreads : list kthread }.

(** The semaphores a program may use. *)
Inductive uses : prog N V L -> Prop :=
| uses_done : uses Done
| uses_act f : (forall v, uses (f v).2) -> uses (Act f)
| uses_down m k : there m -> uses k -> uses (Down m k)
| uses_up m k : there m -> uses k -> uses (Up m k)
| uses_mark l k : uses k -> uses (Mark l k).

Definition thread_uses (th : kthread) : Prop := match th with Runs p => uses p | InDown m k => there m /\ uses k end.

Definition kpreempt (s : ksys) : res ksys :=
  k ← schedule c (skern (ksync s)); Ok (KSys (with_skern (ksync s) k) (kvars s) (kthreads s)).

(** The next statement of thread [t], whose process is on the CPU. *)
Definition kstatement (s : ksys) (t : nat) (th : kthread) : res ksys :=
  match th with
  | Runs Done => kpreempt s
  | Runs (Act f) => let '(v, p) := f (kvars s) in Ok (KSys (ksync s) v (<[t := Runs p]> (kthreads s)))
  | Runs (Mark _ k) => Ok (KSys (ksync s) (kvars s) (<[t := Runs k]> (kthreads s)))
  | Runs (Down m k) =>
      '(y, ok) ← down c (ksync s) (addr m);
      Ok (KSys y (kvars s) (<[t := if (ok : bool) then Runs k else InDown m k]> (kthreads s)))
  | Runs (Up m k) => y ← up c (ksync s) (addr m); Ok (KSys y (kvars s) (<[t := Runs k]> (kthreads s)))
  | InDown m k => y ← down_resume (ksync s) (addr m); Ok (KSys y (kvars s) (<[t := Runs k]> (kthreads s)))
  end.

Definition on_cpu (s : ksys) : option nat := fst <$> list_find (fun p => p = current (skern (ksync s))) pids.

Definition kstep (interrupted : bool) (s : ksys) : res ksys :=
  if interrupted then kpreempt s
  else
    match on_cpu s with
    | Some t => match kthreads s !! t with Some th => kstatement s t th | None => kpreempt s end
    | None => kpreempt s
    end.

Definition ksteps (s s' : ksys) : Prop := exists b, kstep b s = Ok s'.

Fixpoint krun (bs : list bool) (s : ksys) : res ksys :=
  match bs with [] => Ok s | b :: bs' => s ← kstep b s; krun bs' s end.

Lemma krun_steps bs s s' : krun bs s = Ok s' -> rtc ksteps s s'.
Proof.
  revert s. induction bs as [|b bs IH]; intros s; cbn [krun]; [by intros [= ->]|].
  destruct (kstep b s) as [s1| | |] eqn:E; try done. intros Hr. eapply rtc_l; [by exists b|by apply IH].
Qed.

(** * What ties the system to the threads of Threads.v *)
Abbreviation pool := (pool N V L).
Implicit Types (s : ksys) (a : pool) (y : sync_state).

Inductive tied y (queue : N -> list nat) (t : nat) (p : Z) : kthread -> thread N V L -> Prop :=
| tied_runs pr : tied y queue t p (Runs pr) (Ready pr)
| tied_sleeps m k f : t ∈ queue m -> waits y !! p = Some (Wait (Some p) f (Some (addr m))) ->
    state <$> procs (sched (skern y)) !! p = Some PROC_SLEEPING -> wait_state <$> procs (sched (skern y)) !! p = Some WT_KSEM ->
    tied y queue t p (InDown m k) (Waiting m k)
| tied_woken m k wt : t ∉ queue m -> waits y !! p = Some wt -> wakeup_flags wt = WT_KSEM -> tied y queue t p (InDown m k) (Ready k).

(** The processes in a call of [down] of [m]. *)
Definition in_down (ths : list kthread) (m : N) (p : Z) : Prop := exists t k, pids !! t = Some p /\ ths !! t = Some (InDown m k).

Definition queue_of a (m : N) : list nat := (Threads.sems a m).2.

Record ties s a : Prop := Ties {
  ti_sched : exists q, sched_inv (skern (ksync s)) q;
  ti_cpu : runnable (skern (ksync s)) (current (skern (ksync s))) \/ current (skern (ksync s)) = idleproc (skern (ksync s));
  ti_slots : slots (ksync s);
  ti_pids : NoDup pids /\ idleproc (skern (ksync s)) ∉ pids;
  ti_vars : kvars s = vars a;
  ti_length : length (kthreads s) = length (threads a) /\ length (kthreads s) = length pids;
  ti_uses : Forall thread_uses (kthreads s);
  ti_sem m : there m -> exists ws, Sync.sems (ksync s) !! addr m = Some (Threads.sems a m).1 /\
    Forall2 (fun t p => pids !! t = Some p) (queue_of a m) ws /\
    listed (WaitHead (addr m)) WaitLink (wait_links (ksync s)) ws (in_down (kthreads s) m);
  ti_thread t p th : pids !! t = Some p -> kthreads s !! t = Some th ->
    exists x, threads a !! t = Some x /\ tied (ksync s) (queue_of a) t p th x;
  ti_queue t m : t ∈ queue_of a m -> exists k, threads a !! t = Some (Waiting m k)
}.

Lemma tied_other y y' queue queue' t p th x :
  tied y queue t p th x -> waits y' !! p = waits y !! p ->
  state <$> procs (sched (skern y')) !! p = state <$> procs (sched (skern y)) !! p ->
  wait_state <$> procs (sched (skern y')) !! p = wait_state <$> procs (sched (skern y)) !! p ->
  (forall m, t ∈ queue' m <-> t ∈ queue m) -> tied y' queue' t p th x.
Proof.
  intros Ht Hw Hs Hws Hq. destruct Ht as [pr|m k f Hin Hf Hst Hwt|m k wt Hn Hf Hwk]; [constructor| |].
  - econstructor; [by apply Hq|by rewrite Hw|by rewrite Hs|by rewrite Hws].
  - econstructor; [by rewrite Hq|by rewrite Hw|done].
Qed.

Lemma pid_inj t t' p : NoDup pids -> pids !! t = Some p -> pids !! t' = Some p -> t = t'.
Proof. intros Hnd. by apply NoDup_lookup. Qed.

Lemma in_down_insert_runs ths t k m p : in_down (<[t := Runs k]> ths) m p -> in_down ths m p.
Proof.
  intros (t' & k' & Hp & Ht'). exists t', k'. split; [done|]. destruct (decide (t' = t)) as [->|Hne]; [|by rewrite list_lookup_insert_ne in Ht'].
  destruct (decide (t < length ths)%nat); [by rewrite list_lookup_insert_eq in Ht'|]. by rewrite list_insert_ge in Ht' by lia.
Qed.

Lemma in_down_unique ths m m' p : NoDup pids -> in_down ths m p -> in_down ths m' p -> m = m'.
Proof. intros Hnd (t & k & Hp & Ht) (t' & k' & Hp' & Ht'). pose proof (pid_inj _ _ _ Hnd Hp' Hp) as ->. congruence. Qed.

Lemma in_down_insert ths t m k m' p : in_down (<[t := InDown m k]> ths) m' p -> m' = m /\ pids !! t = Some p \/ in_down ths m' p.
Proof.
  intros (t' & k' & Hp & Ht'). destruct (decide (t' = t)) as [->|Hne]; [|right; exists t', k'; by rewrite list_lookup_insert_ne in Ht'].
  destruct (decide (t < length ths)%nat) as [Hlt|Hge]; [left; rewrite list_lookup_insert_eq in Ht' by done; split; congruence|right].
  rewrite list_insert_ge in Ht' by lia. by exists t, k'.
Qed.

(** Who waits in a queue is in a call of [down] of that semaphore. *)
Lemma queue_in_down s a m ws p :
  ties s a -> Forall2 (fun t p => pids !! t = Some p) (queue_of a m) ws -> p ∈ ws ->
  exists t k, t ∈ queue_of a m /\ pids !! t = Some p /\ kthreads s !! t = Some (InDown m k) /\
    tied (ksync s) (queue_of a) t p (InDown m k) (Waiting m k).
Proof.
  intros Hti Hws [i Hi]%list_elem_of_lookup. destruct (Forall2_lookup_r _ _ _ _ _ Hws Hi) as (t & Ht & Hp).
  apply list_elem_of_lookup_2 in Ht. destruct (ti_queue _ _ Hti t m Ht) as [k Hk].
  destruct (lookup_lt_is_Some_2 (kthreads s) t) as [th Hth]; [rewrite (proj1 (ti_length _ _ Hti)); by eapply lookup_lt_Some|].
  destruct (ti_thread _ _ Hti t p th Hp Hth) as (x & Hx & Htd). assert (x = Waiting m k) as -> by congruence.
  inversion Htd; subst. by exists t, k.
Qed.

(** Changes at the queue of one semaphore leave those of the others alone. *)
Lemma listed_apart (h h' : wlinks) (a b : Z) ws l (P : Z -> Prop) :
  listed (WaitHead b) WaitLink h ws P -> same_outside h h' (WaitHead a :: (WaitLink <$> l)) -> a <> b ->
  (forall p, p ∈ ws \/ P p -> p ∉ l) -> listed (WaitHead b) WaitLink h' ws P.
Proof.
  intros [Hd Hs] Ho Hab Hl. split.
  - eapply dll_same_outside; [exact Hd|exact Ho|]. intros x Hx Hin.
    apply elem_of_cons in Hx as [->|(p & -> & Hp)%list_elem_of_fmap]; apply elem_of_cons in Hin as [[= E]|(p' & E & Hp')%list_elem_of_fmap]; try done.
    injection E as ->. apply (Hl p'); auto.
  - intros p Hp Hn. eapply dll_same_outside; [by apply Hs|exact Ho|].
    intros x ->%list_elem_of_singleton [[=]|(p' & [= ->] & Hp')%list_elem_of_fmap]%elem_of_cons. apply (Hl p'); auto.
Qed.

Lemma tied_moved q0 y y' queue queue' t p th x :
  tied y queue t p th x -> moved q0 y y' -> p <> q0 -> (forall m, t ∈ queue' m <-> t ∈ queue m) -> tied y' queue' t p th x.
Proof.
  intros Ht Hm Hp Hq. eapply tied_other; [exact Ht|by apply (mv_waits _ _ _ Hm)|by apply (mv_state _ _ _ Hm)|by apply (mv_wait_state _ _ _ Hm)|done].
Qed.

(** ** Scheduling *)
Lemma ties_preempt s a : ties s a -> exists s', kpreempt s = Ok s' /\ ties s' a.
Proof.
  intros [[q Hsi] Hcpu Hsl Hp Hv Hlen Hus Hsem Hth Hqu]. unfold kpreempt.
  destruct (schedule_run _ _ Hsi) as (k' & q' & -> & Hsi' & Hid & Hview & Hrun). cbn [mbind res_bind].
  eexists. split; [done|]. split; cbn [ksync kvars kthreads with_skern skern waits wait_links Sync.sems]; try done.
  - by exists q'.
  - destruct Hrun as [?|[? _]]; auto.
  - intros p Hl. apply Hsl. apply live_view. rewrite <- Hview. by apply live_view.
  - by rewrite Hid.
  - intros t p th Hpt Ht. destruct (Hth t p th Hpt Ht) as (x & Hx & Htd). exists x. split; [done|].
    eapply tied_other; [exact Htd|done| | |done]; cbn [with_skern skern];
      [by apply (view_field state (sched (skern (ksync s))) (sched k'))|by apply (view_field wait_state (sched (skern (ksync s))) (sched k'))].
Qed.

(** ** Statements *)

(** The thread on the CPU and the one tied to it. *)
Lemma on_cpu_thread s a t : ties s a -> on_cpu s = Some t ->
  exists th x, pids !! t = Some (current (skern (ksync s))) /\ kthreads s !! t = Some th /\ threads a !! t = Some x /\
    tied (ksync s) (queue_of a) t (current (skern (ksync s))) th x /\ current (skern (ksync s)) <> idleproc (skern (ksync s)) /\
    forall m k, x <> Waiting m k.
Proof.
  intros Hti Ht. unfold on_cpu in Ht. apply fmap_Some in Ht as ((t' & p) & (Hp & Hc & _)%list_find_Some & ->). cbn [fst]. subst p.
  destruct (lookup_lt_is_Some_2 (kthreads s) t') as [th Hth]; [rewrite (proj2 (ti_length _ _ Hti)); by eapply lookup_lt_Some|].
  destruct (ti_thread _ _ Hti _ _ _ Hp Hth) as (x & Hx & Htd). exists th, x. split_and!; try done.
  - intros E. apply (proj2 (ti_pids _ _ Hti)). rewrite <- E. by eapply list_elem_of_lookup_2.
  - intros m k ->. inversion Htd as [|? ? ? ? ? Hst ?|]; subst. destruct (ti_cpu _ _ Hti) as [(pr & Hpr & Hr)|E].
    + rewrite Hpr in Hst. cbn in Hst. injection Hst as Hst. congruence.
    + apply (proj2 (ti_pids _ _ Hti)). rewrite <- E. by eapply list_elem_of_lookup_2.
Qed.

(** A statement that wakes and stops nobody. *)
Lemma ties_runs s a t p pr pr' v' sv q :
  ties s a -> pids !! t = Some p -> threads a !! t = Some (Ready pr) ->
  (forall m, (there m -> sv !! addr m = Some (q m).1) /\ (q m).2 = queue_of a m) -> uses pr' ->
  ties (KSys (SyncState (skern (ksync s)) (waits (ksync s)) (wait_links (ksync s)) sv) v' (<[t := Runs pr']> (kthreads s)))
    (Pool q v' (<[t := Ready pr']> (threads a))).
Proof.
  intros [Hsi Hcpu Hsl Hp Hv Hlen Hus Hsem Hth Hqu] Hpt Ha Hq Hu. split; cbn [ksync kvars kthreads skern waits wait_links Sync.sems Threads.sems vars threads]; try done.
  - by rewrite !length_insert.
  - by apply Forall_insert.
  - intros m Hm. destruct (Hq m) as [H1 H2]. destruct (Hsem m Hm) as (ws & _ & Hws & Hl). exists ws. split; [by apply H1|]. unfold queue_of at 1. cbn. rewrite H2. split; [done|].
    eapply listed_mono; [|exact Hl]. intros p'. apply in_down_insert_runs.
  - intros t' p' th Hp' Ht'. destruct (decide (t' = t)) as [->|Hne].
    + assert (th = Runs pr') as -> by (rewrite list_lookup_insert_eq in Ht' by (rewrite (proj2 Hlen); by eapply lookup_lt_Some); congruence).
      exists (Ready pr'). split; [|constructor]. apply list_lookup_insert_eq. by eapply lookup_lt_Some.
    + rewrite list_lookup_insert_ne in Ht' by done. destruct (Hth t' p' th Hp' Ht') as (x & Hx & Htd). exists x. rewrite list_lookup_insert_ne by done. split; [done|].
      eapply tied_other; [exact Htd|done..|]. intros m. unfold queue_of at 1. cbn. by rewrite (proj2 (Hq m)).
  - intros t' m. unfold queue_of. cbn. rewrite (proj2 (Hq m)). intros Hin. destruct (Hqu t' m Hin) as [k Hk]. exists k.
    rewrite list_lookup_insert_ne; [done|]. intros <-. congruence.
Qed.

(** Who is in a call of [down] is not the process on the CPU, unless its thread is. *)
Lemma not_in_down s t p m p' pr : NoDup pids -> pids !! t = Some p -> kthreads s !! t = Some (Runs pr) -> in_down (kthreads s) m p' -> p' <> p.
Proof. intros Hnd Hpt Hrun (t' & k' & Hp' & Ht') ->. pose proof (pid_inj _ _ _ Hnd Hp' Hpt) as ->. congruence. Qed.

Lemma queue_all_in_down s a m ws p : ties s a -> Forall2 (fun t p => pids !! t = Some p) (queue_of a m) ws -> p ∈ ws -> in_down (kthreads s) m p.
Proof. intros Hti Hws Hp. destruct (queue_in_down _ _ _ _ _ Hti Hws Hp) as (t & k & _ & ? & ? & _). by exists t, k. Qed.

(** What a change at the semaphore [m] leaves of the others. *)
Lemma sem_elsewhere s a m m' l y' ths' :
  ties s a -> there m' -> m' <> m -> Sync.sems y' = Sync.sems (ksync s) -> same_outside (wait_links (ksync s)) (wait_links y') (WaitHead (addr m) :: (WaitLink <$> l)) ->
  (forall p, in_down ths' m' p -> in_down (kthreads s) m' p) -> (forall p, p ∈ l -> ~ in_down (kthreads s) m' p) ->
  exists ws, Sync.sems y' !! addr m' = Some (Threads.sems a m').1 /\ Forall2 (fun t p => pids !! t = Some p) (queue_of a m') ws /\
    listed (WaitHead (addr m')) WaitLink (wait_links y') ws (in_down ths' m').
Proof.
  intros Hti Hu Hm Hs Ho Hmono Hl. destruct (ti_sem _ _ Hti m' Hu) as (ws & Hv & Hws & Hq). exists ws. rewrite Hs. split; [done|]. split; [done|].
  eapply (listed_apart _ _ (addr m) (addr m') ws l); [by eapply listed_mono|exact Ho|by intros E%(inj addr); apply Hm|].
  intros p Hp Hpl. apply (Hl p Hpl). destruct Hp as [Hp|Hp]; [by eapply queue_all_in_down|by apply Hmono].
Qed.

(** [down] that has to wait. *)
Lemma ties_sleep s a t pr m k :
  ties s a -> on_cpu s = Some t -> kthreads s !! t = Some (Runs pr) -> there m -> uses k -> ~ 0 < (Threads.sems a m).1 ->
  exists y, down c (ksync s) (addr m) = Ok (y, false) /\
    ties (KSys y (kvars s) (<[t := InDown m k]> (kthreads s)))
      (Pool (set_sem m ((Threads.sems a m).1, queue_of a m ++ [t]) (Threads.sems a)) (vars a) (<[t := Waiting m k]> (threads a))).
Proof.
  intros Hti Hcpu0 Hrun Hm0 Hk0 Hval. destruct (on_cpu_thread s a t Hti Hcpu0) as (th & x & Hpt & Hth0 & Hx0 & _ & Hidle & Hnw).
  pose proof Hti as [[q Hsi] _ Hsl [Hnd Hid] Hv Hlen Hus Hsem Hth Hqu]. destruct (Hsem m Hm0) as (ws & Hsv & Hws & Hl).
  assert (Hnot : forall m' p, in_down (kthreads s) m' p -> p <> current (skern (ksync s))) by (intros m' p; by apply (not_in_down s t _ m' p pr)).
  assert (current (skern (ksync s)) ∉ ws) as Hcw by (intros Hc; by apply (Hnot m _ (queue_all_in_down _ _ _ _ _ Hti Hws Hc))).
  destruct (down_waits (addr m) (ksync s) q _ ws _ Hsi Hsl Hsv Hval Hl ltac:(intros Hc; by apply (Hnot m _ Hc)) Hcw)
    as (y & q' & Hd & Hm & Hsi' & Hcpu' & Hwc & Hsc & Hwsc & Hl' & Hout & Hsems).
  set (cur := current (skern (ksync s))) in *. exists y. split; [done|].
  assert (Hqueue : forall m', queue_of (Pool (set_sem m ((Threads.sems a m).1, queue_of a m ++ [t]) (Threads.sems a)) (vars a) (<[t := Waiting m k]> (threads a))) m' =
    if decide (m' = m) then queue_of a m ++ [t] else queue_of a m') by (intros m'; unfold queue_of, set_sem; cbn; by destruct (decide (m' = m))).
  assert (t < length (kthreads s))%nat as Hlt by (by eapply lookup_lt_Some). assert (t < length (threads a))%nat as Hlt' by lia.
  split; cbn [ksync kvars kthreads Threads.sems vars threads]; try done.
  - by exists q'.
  - by eapply slots_moved.
  - by rewrite (mv_idle _ _ _ Hm).
  - by rewrite !length_insert.
  - by apply Forall_insert.
  - intros m' Hu'. rewrite Hqueue. unfold set_sem. destruct (decide (m' = m)) as [->|Hm'].
    + exists (ws ++ [cur]). rewrite Hsems. split; [done|]. split; [by apply Forall2_app; [|constructor]|]. eapply listed_mono; [|exact Hl'].
      intros p [[_ Hp']|Hp']%in_down_insert; [right; congruence|by left].
    + apply (sem_elsewhere s a m m' (ws ++ [cur]) y _ Hti Hu' Hm' Hsems Hout); [by intros p [[? _]|?]%in_down_insert|].
      intros p [Hp| ->%list_elem_of_singleton]%elem_of_app Hin; [|by apply (Hnot m' cur Hin)].
      apply Hm'. eapply in_down_unique; [done|exact Hin|by eapply queue_all_in_down].
  - intros t' p th' Hp' Ht'. destruct (decide (t' = t)) as [->|Hne].
    + assert (p = cur) as -> by congruence. rewrite list_lookup_insert_eq in Ht' by done. injection Ht' as <-.
      exists (Waiting m k). split; [by apply list_lookup_insert_eq|].
      apply (tied_sleeps _ _ _ _ _ _ WT_INTERRUPTED); [|done..]. rewrite Hqueue, decide_True by done. apply elem_of_app. right. by left.
    + rewrite list_lookup_insert_ne in Ht' by done. destruct (Hth t' p th' Hp' Ht') as (x' & Hx' & Htd). exists x'. rewrite list_lookup_insert_ne by done. split; [done|].
      eapply tied_moved; [exact Htd|exact Hm|by intros ->; apply Hne, (pid_inj _ _ cur)|].
      intros m'. rewrite Hqueue. destruct (decide (m' = m)) as [->|]; [|done]. rewrite elem_of_app, list_elem_of_singleton. tauto.
  - intros t' m' Hin. rewrite Hqueue in Hin. destruct (decide (t' = t)) as [->|Hne].
    + destruct (decide (m' = m)) as [->|]; [exists k; by apply list_lookup_insert_eq|]. destruct (Hqu t m' Hin) as [k1 Hk1]. exfalso. apply (Hnw m' k1). congruence.
    + rewrite list_lookup_insert_ne by done. apply Hqu. destruct (decide (m' = m)) as [->|]; [|done]. apply elem_of_app in Hin as [?|?%list_elem_of_singleton]; done.
Qed.

(** [up] that wakes a thread. *)
Lemma ties_wake s a t pr m k u us :
  ties s a -> on_cpu s = Some t -> kthreads s !! t = Some (Runs pr) -> there m -> uses k -> queue_of a m = u :: us ->
  exists y, up c (ksync s) (addr m) = Ok y /\
    ties (KSys y (kvars s) (<[t := Runs k]> (kthreads s)))
      (Pool (set_sem m ((Threads.sems a m).1, us) (Threads.sems a)) (vars a) (wake u (<[t := Ready k]> (threads a)))).
Proof.
  intros Hti Hcpu0 Hrun Hm0 Hk0 Eq. destruct (on_cpu_thread s a t Hti Hcpu0) as (th & x & Hpt & Hth0 & Hx0 & _ & Hidle & Hnw).
  pose proof Hti as [[q Hsi] Hcpu Hsl [Hnd Hid] Hv Hlen Hus Hsem Hth Hqu]. destruct (Hsem m Hm0) as (ws0 & Hsv & Hws & Hl). rewrite Eq in Hws.
  inversion Hws as [|u' w us' ws Hpu Hws' E1 E2]; subst u' us' ws0.
  destruct (queue_in_down s a m (w :: ws) w Hti) as (u' & ku & _ & Hpu' & Hku & Htd0); [by rewrite Eq|by left|].
  pose proof (pid_inj _ _ _ Hnd Hpu' Hpu) as ->. inversion Htd0 as [|? ? f Huq Hwu Hsu Hwsu|]; subst.
  destruct (up_wakes (addr m) (ksync s) q w ws f _ Hsi Hl Hwu Hsu Hwsu) as (y & q' & Hup & Hm & Hsi' & Hc & Hrw & Hww & Hl' & Hout & Hsems).
  set (cur := current (skern (ksync s))) in *. exists y. split; [done|].
  destruct (Hth u w _ Hpu Hku) as (xu & Hxu & Htdu). destruct (Hqu u m) as [ku' Hku']; [rewrite Eq; by left|].
  assert (ku' = ku) as -> by (inversion Htdu; subst; congruence).
  assert (Hut : u <> t) by (intros ->; congruence). assert (Huus : u ∉ us).
  { intros [i Hi]%list_elem_of_lookup. destruct (Forall2_lookup_l _ _ _ _ _ Hws' Hi) as (p & Hpi & Hp). assert (p = w) as -> by congruence.
    apply listed_nodup in Hl. apply NoDup_cons in Hl as [Hl _]. by apply Hl, (list_elem_of_lookup_2 _ i). }
  assert (t < length (kthreads s))%nat as Hlt by (by eapply lookup_lt_Some). assert (t < length (threads a))%nat as Hlt' by lia.
  assert (u < length (threads a))%nat as Hlu by (by eapply lookup_lt_Some).
  assert (Ew : wake u (<[t := Ready k]> (threads a)) = <[u := Ready ku]> (<[t := Ready k]> (threads a))) by (unfold wake; by rewrite list_lookup_insert_ne, Hku').
  rewrite Ew. clear Ew. set (a' := Pool _ _ _).
  assert (Hqueue : forall m', queue_of a' m' = if decide (m' = m) then us else queue_of a m') by (intros m'; unfold a', queue_of, set_sem; cbn; by destruct (decide (m' = m))).
  assert (Hqin : forall t' m', t' <> u -> t' ∈ queue_of a' m' <-> t' ∈ queue_of a m').
  { intros t' m' Ht'. rewrite Hqueue. destruct (decide (m' = m)) as [->|]; [|done]. rewrite Eq, elem_of_cons. tauto. }
  split; cbn [ksync kvars kthreads Threads.sems vars threads a']; try done.
  - by exists q'.
  - rewrite Hc, (mv_idle _ _ _ Hm). destruct Hcpu as [Hr|?]; [left|by right]. apply runnable_states. unfold states. rewrite (mv_state _ _ _ Hm); [by apply runnable_states|].
    intros ->. by apply Hut, (pid_inj _ _ _ Hnd Hpu).
  - by eapply slots_moved.
  - by rewrite (mv_idle _ _ _ Hm).
  - by rewrite !length_insert.
  - by apply Forall_insert.
  - intros m' Hu'. rewrite Hqueue. unfold set_sem. destruct (decide (m' = m)) as [->|Hm'].
    + exists ws. rewrite Hsems. split; [done|]. split; [done|]. eapply listed_mono; [|exact Hl'].
      intros p Hp%in_down_insert_runs. by left.
    + apply (sem_elsewhere s a m m' (w :: ws) y _ Hti Hu' Hm' Hsems Hout); [by intros p Hp%in_down_insert_runs|].
      intros p Hp Hin. apply Hm'. eapply in_down_unique; [done|exact Hin|eapply queue_all_in_down; [done|by rewrite Eq|done]].
  - intros t' p th' Hp' Ht'. destruct (decide (t' = t)) as [->|Hne].
    { rewrite list_lookup_insert_eq in Ht' by done. injection Ht' as <-. exists (Ready k). split; [|constructor]. rewrite list_lookup_insert_ne by done. by apply list_lookup_insert_eq. }
    rewrite list_lookup_insert_ne in Ht' by done. destruct (decide (t' = u)) as [->|Hnu].
    + assert (th' = InDown m ku) as -> by congruence. assert (p = w) as -> by congruence. exists (Ready ku). split; [apply list_lookup_insert_eq; by rewrite length_insert|].
      apply (tied_woken _ _ _ _ m ku (Wait (Some w) WT_KSEM (Some (addr m)))); [|done|done]. by rewrite Hqueue, decide_True.
    + destruct (Hth t' p th' Hp' Ht') as (x' & Hx' & Htd). exists x'. rewrite !list_lookup_insert_ne by done. split; [done|].
      eapply tied_moved; [exact Htd|exact Hm|by intros ->; apply Hnu, (pid_inj _ _ w)|]. intros m'. by apply Hqin.
  - intros t' m' Hin. assert (t' <> u) as Hnu.
    { intros ->. rewrite Hqueue in Hin. destruct (decide (m' = m)) as [->|Hm']; [done|]. destruct (Hqu u m' Hin) as [k1 Hk1]. congruence. }
    destruct (Hqu t' m') as [k1 Hk1]; [by apply Hqin|]. exists k1. rewrite !list_lookup_insert_ne; try done. intros <-. by apply (Hnw m' k1); congruence.
Qed.

(** ** The simulation *)

Lemma there_values s a : ties s a ->
  forall m, (there m -> Sync.sems (ksync s) !! addr m = Some (Threads.sems a m).1) /\ (Threads.sems a m).2 = queue_of a m.
Proof. intros Hti m. split; [|done]. intros Hm. by destruct (ti_sem _ _ Hti m Hm) as (ws & ? & _). Qed.

(** Setting the value of one semaphore on both sides. *)
Lemma set_values s a m n : ties s a ->
  forall m', (there m' -> <[addr m := n]> (Sync.sems (ksync s)) !! addr m' = Some (set_sem m (n, queue_of a m) (Threads.sems a) m').1) /\
    (set_sem m (n, queue_of a m) (Threads.sems a) m').2 = queue_of a m'.
Proof.
  intros Hti m'. unfold set_sem. destruct (decide (m' = m)) as [->|Hm]; [by rewrite lookup_insert_eq|].
  rewrite lookup_insert_ne by (by intros E%(inj addr)). by apply there_values.
Qed.

(** A step of the kernel that [a] follows, in one step or in none. *)
Definition followed (r : res ksys) a : Prop := exists s' a', r = Ok s' /\ rtc pool_steps a a' /\ ties s' a'.

Lemma followed_step s a t x r s' a' :
  ties s a -> threads a !! t = Some x -> pool_step t a = Some a' -> r = Ok s' -> ties s' a' -> followed r a.
Proof. intros _ _ Hs Hr Ht. exists s', a'. split; [done|]. split; [|done]. apply rtc_once. by exists t. Qed.

Lemma follow_down s a t m k :
  ties s a -> on_cpu s = Some t -> kthreads s !! t = Some (Runs (Down m k)) -> threads a !! t = Some (Ready (Down m k)) ->
  there m -> uses k -> followed (kstatement s t (Runs (Down m k))) a.
Proof.
  intros Hti Hcpu Hth Hx Hm Hk. destruct (on_cpu_thread s a t Hti Hcpu) as (_ & _ & Hp & _). pose proof (ti_vars _ _ Hti) as Hv. cbn [kstatement].
  destruct (Z.ltb_spec 0 (Threads.sems a m).1) as [Hpos|Hz].
  - rewrite (down_takes _ _ _ (proj1 (there_values s a Hti m) Hm) Hpos). cbn [mbind res_bind].
    eapply followed_step; [exact Hti|exact Hx| |done|]; [unfold pool_step, q_down; rewrite Hx, (proj2 (Z.ltb_lt _ _) Hpos), <- Hv; reflexivity|].
    by apply (ties_runs s a t _ _ k _ _ _ Hti Hp Hx (set_values s a m _ Hti)).
  - destruct (ties_sleep s a t _ m k Hti Hcpu Hth Hm Hk) as (y & -> & Hti'); [lia|]. cbn [mbind res_bind].
    eapply followed_step; [exact Hti|exact Hx| |done|exact Hti']. unfold pool_step, q_down. rewrite Hx, (proj2 (Z.ltb_ge _ _) Hz). reflexivity.
Qed.

Lemma follow_up s a t m k :
  ties s a -> on_cpu s = Some t -> kthreads s !! t = Some (Runs (Up m k)) -> threads a !! t = Some (Ready (Up m k)) ->
  there m -> uses k -> followed (kstatement s t (Runs (Up m k))) a.
Proof.
  intros Hti Hcpu Hth Hx Hm Hk. destruct (on_cpu_thread s a t Hti Hcpu) as (_ & _ & Hp & _). pose proof (ti_vars _ _ Hti) as Hv. cbn [kstatement].
  destruct (queue_of a m) as [|u us] eqn:Eq.
  - destruct (ti_sem _ _ Hti m Hm) as (ws & Hsv & Hws & Hl). rewrite Eq in Hws. inversion Hws; subst. rewrite (up_adds _ _ _ _ Hl Hsv). cbn [mbind res_bind].
    pose proof (set_values s a m (i32 ((Threads.sems a m).1 + 1)) Hti) as Hset. rewrite Eq in Hset. unfold queue_of in Eq.
    eapply followed_step; [exact Hti|exact Hx| |done|]; [unfold pool_step, q_up; rewrite Hx, Eq, <- Hv; reflexivity|].
    by apply (ties_runs s a t _ _ k _ _ _ Hti Hp Hx Hset).
  - destruct (ties_wake s a t _ m k u us Hti Hcpu Hth Hm Hk Eq) as (y & -> & Hti'). cbn [mbind res_bind].
    eapply followed_step; [exact Hti|exact Hx| |done|exact Hti']. unfold queue_of in Eq. unfold pool_step, q_up. rewrite Hx, Eq. reflexivity.
Qed.

Lemma follow_resume s a t m k wt :
  ties s a -> on_cpu s = Some t -> kthreads s !! t = Some (InDown m k) -> threads a !! t = Some (Ready k) -> there m -> uses k ->
  t ∉ queue_of a m -> waits (ksync s) !! current (skern (ksync s)) = Some wt -> wakeup_flags wt = WT_KSEM -> followed (kstatement s t (InDown m k)) a.
Proof.
  intros Hti Hcpu Hth Hx Hm Hk Hnq Hwt Hf. destruct (on_cpu_thread s a t Hti Hcpu) as (_ & _ & Hp & _). cbn [kstatement].
  destruct (ti_sem _ _ Hti m Hm) as (ws & _ & Hws & Hl). rewrite (down_returns (addr m) (ksync s) ws _ wt Hl); [|by exists t, k| |done|done].
  2: { intros Hc. destruct (queue_in_down _ _ _ _ _ Hti Hws Hc) as (t' & k' & Ht' & Hp' & _ & _). apply Hnq. by rewrite <- (pid_inj _ _ _ (proj1 (ti_pids _ _ Hti)) Hp' Hp). }
  cbn [mbind res_bind]. eexists _, a. split; [done|]. split; [done|]. pose proof (ti_vars _ _ Hti) as Hv.
  pose proof (ties_runs _ _ t _ _ k (vars a) _ _ Hti Hp Hx (there_values s a Hti) Hk) as Hr. destruct s as [[? ? ? ?] ? ?], a as [sa va ta].
  cbn in Hr, Hx, Hv. rewrite (list_insert_id ta t (Ready k) Hx) in Hr. by subst va.
Qed.

Lemma kstep_follows s a b : ties s a -> followed (kstep b s) a.
Proof.
  intros Hti. assert (Hpre : followed (kpreempt s) a) by (destruct (ties_preempt s a Hti) as (s' & Hs & Ht); by exists s', a).
  unfold kstep. destruct b; [done|]. destruct (on_cpu s) as [t|] eqn:Hcpu; [|done].
  destruct (on_cpu_thread s a t Hti Hcpu) as (th & x & Hp & Hth & Hx & Htd & Hidle & Hnw). rewrite Hth.
  pose proof (ti_vars _ _ Hti) as Hv. pose proof (proj1 (Forall_forall _ _) (ti_uses _ _ Hti) th (list_elem_of_lookup_2 _ _ _ Hth)) as Hus.
  destruct Htd as [pr|m k f|m k wt Hnq Hwt Hf]; [|by destruct (Hnw m k)|by destruct Hus as [Hm Hk]; apply (follow_resume s a t m k wt)].
  cbn [thread_uses] in Hus. destruct Hus as [|f Hf|m k Hm Hk|m k Hm Hk|l k Hk]; [done| |by apply follow_down|by apply follow_up|].
  - cbn [kstatement]. pose proof (Hf (kvars s)) as Hu. destruct (f (kvars s)) as [v' pr'] eqn:E.
    eapply followed_step; [exact Hti|exact Hx|unfold pool_step; rewrite Hx, <- Hv, E; reflexivity|done|].
    pose proof (there_values s a Hti) as Hval. destruct s as [[? ? ? ?] ? ?]. by apply (ties_runs _ a t _ _ pr' v' _ _ Hti Hp Hx).
  - cbn [kstatement]. eapply followed_step; [exact Hti|exact Hx|unfold pool_step; rewrite Hx, <- Hv; reflexivity|done|].
    pose proof (there_values s a Hti) as Hval. destruct s as [[? ? ? ?] ? ?]. by apply (ties_runs _ a t _ _ k _ _ _ Hti Hp Hx).
Qed.

Lemma ksteps_follow s a s' : ties s a -> rtc ksteps s s' -> exists a', rtc pool_steps a a' /\ ties s' a'.
Proof.
  intros Hti Hr. revert a Hti. induction Hr as [s|s s1 s' [b Hb] _ IH]; intros a Hti; [by exists a|].
  destruct (kstep_follows s a b Hti) as (s2 & a1 & Hs & Ha1 & Hti1). assert (s2 = s1) as -> by congruence.
  destruct (IH a1 Hti1) as (a2 & Ha2 & Hti2). exists a2. split; [by etrans|done].
Qed.

(** Where the threads start: nobody has called [down] yet, and the semaphores have the
    values [vals]. *)
Record kstart s (vals : N -> Z) (ps : list (prog N V L)) : Prop := KStart {
  ks_sched : exists q, sched_inv (skern (ksync s)) q;
  ks_cpu : runnable (skern (ksync s)) (current (skern (ksync s))) \/ current (skern (ksync s)) = idleproc (skern (ksync s));
  ks_slots : slots (ksync s);
  ks_pids : NoDup pids /\ idleproc (skern (ksync s)) ∉ pids /\ length ps = length pids;
  ks_threads : kthreads s = Runs <$> ps;
  ks_uses : Forall uses ps;
  ks_sems m : there m -> Sync.sems (ksync s) !! addr m = Some (vals m) /\ dll (wait_links (ksync s)) (WaitHead (addr m)) []
}.

Lemma kstart_ties s vals ps : kstart s vals ps -> ties s (Pool (fun m => (vals m, [])) (kvars s) (Ready <$> ps)).
Proof.
  intros [Hsi Hcpu Hsl (Hnd & Hid & Hlen) Hth Hus Hsem]. split; cbn [Threads.sems vars threads]; try done.
  - by rewrite Hth, !length_fmap.
  - rewrite Hth. apply Forall_fmap. exact Hus.
  - intros m Hm. destruct (Hsem m Hm) as [Hv Hd]. exists []. split; [done|]. split; [constructor|]. split; [done|].
    intros p (t & k & _ & Ht). rewrite Hth in Ht. by apply list_lookup_fmap_Some in Ht as (? & [=] & _).
  - intros t p th _ Ht. rewrite Hth in Ht. apply list_lookup_fmap_Some in Ht as (pr & -> & Hpr). exists (Ready pr). rewrite list_lookup_fmap, Hpr. split; [done|constructor].
  - intros t m []%elem_of_nil.
Qed.

Lemma ties_runs_ready s a t p : ties s a -> kthreads s !! t = Some (Runs p) -> threads a !! t = Some (Ready p).
Proof.
  intros Hti Ht. destruct (lookup_lt_is_Some_2 pids t) as [pid Hp]; [rewrite <- (proj2 (ti_length _ _ Hti)); by eapply lookup_lt_Some|].
  destruct (ti_thread _ _ Hti t pid _ Hp Ht) as (x & Hx & Htd). by inversion Htd; subst.
Qed.

(** C15. The semaphores of the kernel are those of Threads.v: programs run by processes of
    the real scheduler, sleeping in real wait queues, with the statements of [down] and
    [up] of sem.c and the CPU taken away at any moment, never fail an assertion and
    behave as the threads of Threads.v do, step by step: whatever they reach, those can
    reach with the same shared variables, the same statements to come, the same values of
    the semaphores and the same threads queued in the same order. *)
Theorem kernel_threads_refine s0 vals ps s :
  kstart s0 vals ps -> rtc ksteps s0 s ->
  (exists a, rtc pool_steps (Pool (fun m => (vals m, [])) (kvars s0) (Ready <$> ps)) a /\ kvars s = vars a /\
    (forall t p, kthreads s !! t = Some (Runs p) -> threads a !! t = Some (Ready p)) /\
    forall m, there m -> Sync.sems (ksync s) !! addr m = Some (Threads.sems a m).1 /\
      exists ws, Forall2 (fun t p => pids !! t = Some p) (Threads.sems a m).2 ws /\ dll (wait_links (ksync s)) (WaitHead (addr m)) (WaitLink <$> ws)) /\
  forall b, exists s', kstep b s = Ok s'.
Proof.
  intros Hst Hr. destruct (ksteps_follow _ _ _ (kstart_ties _ _ _ Hst) Hr) as (a & Ha & Hti). split.
  - exists a. split; [done|]. split; [by apply ti_vars|]. split.
    + intros t p. by apply ties_runs_ready.
    + intros m Hm. destruct (ti_sem _ _ Hti m Hm) as (ws & Hv & Hws & Hl). split; [done|]. exists ws. split; [done|apply Hl].
  - intros b. destruct (kstep_follows s a b Hti) as (s' & _ & Hs & _). by exists s'.
Qed.
End Kernel.
