(* ===== verification/KernelExample.v ===== *)
(** The philosophers on the kernel: the threads of check_sync.c as processes of the
    scheduler, over the semaphores of sem.c; and a kernel in which they run. *)
From S2P Require Import Prelude Lists SkewHeap ProcStruct SchedClass RoundRobin Sched Timer Sync Threads Monitor KernelThreads Philosophers.

(** The semaphores of the monitor of five condition variables. *)
Definition in_monitor (m : msem) : Prop := match m with CvSem i => 0 <= i < N | _ => True end.

Definition monitor_values (m : msem) : Z := if decide (m = Mutex) then 1 else 0.

Section Uses.
Context {D L : Type} (there : msem -> Prop) (Hmutex : there Mutex) (Hnext : there Next).
Abbreviation uses := (uses (N := msem) (V := monitor D) (L := L) there).

Lemma uses_client (f : D -> D * prog msem (monitor D) L) : (forall d, uses (f d).2) -> uses (client f).
Proof. intros Hf. constructor. intros v. specialize (Hf (data v)). destruct (f (data v)). exact Hf. Qed.

Lemma uses_release k : uses k -> uses (release k).
Proof. intros Hk. constructor. intros v. cbn [snd]. destruct (_ <? _); by constructor. Qed.

Lemma uses_signal cv k : there (CvSem cv) -> uses k -> uses (cond_signal cv k).
Proof. intros Hcv Hk. constructor. intros v. cbn [snd]. destruct (_ <? _); [|done]. repeat (constructor; try intros v'; try done). Qed.

Lemma uses_wait cv k : there (CvSem cv) -> uses k -> uses (cond_wait cv k).
Proof. intros Hcv Hk. constructor. intros v. apply uses_release. repeat (constructor; try intros v'; try done). Qed.
End Uses.

Lemma philosopher_uses i n : 0 <= i < N -> uses in_monitor (philosopher_rounds i n).
Proof.
  intros Hi. destruct (sides i Hi) as (Hl & Hr & _).
  assert (Htest : forall j k, 0 <= j < N -> uses in_monitor k -> uses in_monitor (phi_test_condvar j k)) by (intros j k Hj Hk; apply uses_client; intros d; destruct (_ && _); [by apply uses_signal|done]).
  induction n as [|n IH]; cbn [philosopher_rounds]; [constructor|]. apply uses_mark, uses_down; [done|]. apply uses_client. intros d. apply Htest; [done|].
  assert (Hput : uses in_monitor (release (Mark Eats (phi_put_forks_condvar i (philosopher_rounds i n))))).
  { apply uses_release; [done..|]. apply uses_mark, uses_down; [done|]. apply uses_client. intros d1. by apply Htest, Htest, uses_release. }
  apply uses_client. intros d1. cbn [snd]. destruct (_ =? _); [by apply uses_wait|done].
Qed.

(** C18. The dining philosophers are safe on the kernel itself: run as processes by any
    scheduling class that keeps its contract, over the semaphores and wait queues of the
    kernel and with the CPU taken away at any moment, no two neighbours ever eat at the
    same time, and no call on the way fails an assertion. *)
Theorem philosophers_on_kernel `{SchedClass c} addr `{!Inj (=) (=) addr} pids s0 s :
  kstart (c := c) addr in_monitor pids s0 monitor_values (philosopher_using_condvar <$> seqZ 0 N) ->
  kvars s0 = Mon 0 (fun _ => 0) (fun _ => THINKING) -> rtc (ksteps (c := c) addr pids) s0 s ->
  (forall t t' k k', kthreads s !! t = Some (Runs (Mark Eats k)) -> kthreads s !! t' = Some (Runs (Mark Eats k')) ->
    Z.of_nat t' <> LEFT (Z.of_nat t) /\ Z.of_nat t' <> RIGHT (Z.of_nat t)) /\
  safe (data (kvars s)) /\ forall b, exists s', kstep (c := c) addr pids b s = Ok s'.
Proof.
  intros Hst Hv Hr. pose proof (kstart_ties _ _ _ _ _ _ Hst) as Hti. rewrite Hv in Hti.
  destruct (ksteps_follow _ _ _ _ _ _ Hti Hr) as (a & Ha & Htia). destruct (eaters_apart a Ha) as [Hap Hs]. rewrite (ti_vars _ _ _ _ _ Htia).
  split; [|split; [exact Hs|intros b; destruct (kstep_follows _ _ _ _ _ b Htia) as (s' & _ & E & _); by exists s']].
  intros t t' k k' Ht Ht'. apply (Hap t t' k k'); by eapply ties_runs_ready.
Qed.

(** ** A kernel for five philosophers

    Process 1 is the idle process; 2 to 6 are woken one after the other. *)
Section Waking.
Context `{SchedClass c}.

Fixpoint wake_all (k : kernel) (ps : list Z) : res kernel :=
  match ps with [] => Ok k | p :: ps' => k ← wakeup_proc c k p; wake_all k ps' end.

Definition alive (k : kernel) (p : Z) : Prop := exists pr, procs (sched k) !! p = Some pr /\ state pr <> PROC_ZOMBIE.

Lemma wake_all_inv k q ps : sched_inv k q -> Forall (alive k) ps -> exists k' q', wake_all k ps = Ok k' /\ sched_inv k' q' /\ same_cpu k k'.
Proof.
  revert k q. induction ps as [|p ps IH]; intros k q Hk Hps; [by exists k, q|].
  apply Forall_cons in Hps as [(pr & Hp & Hz) Hps]. destruct (wakeup_proc_run k q p pr Hk Hp Hz) as (k1 & q1 & E & Hk1 & [Hc Hi] & Hoth & pr' & Hp' & Hr & _).
  cbn [wake_all]. rewrite E. cbn [mbind res_bind]. destruct (IH k1 q1 Hk1) as (k' & q' & E' & Hk' & [Hc' Hi']).
  - eapply Forall_impl; [exact Hps|]. intros x (prx & Hx & Hzx). destruct (decide (x = p)) as [->|Hne]; [exists pr'; by rewrite Hr|]. exists prx. by rewrite Hoth.
  - exists k', q'. split; [done|]. split; [done|]. split; congruence.
Qed.
End Waking.

Definition diners : list Z := [2; 3; 4; 5; 6].

Definition supper_procs : gmap Z proc_struct := list_to_map ((1, new_proc PROC_RUNNABLE) :: ((fun p => (p, new_proc PROC_UNINIT)) <$> diners)).

Definition supper_sched : sched_state :=
  SchedState supper_procs (list_to_map ((RunList, ListEntry RunList RunList) :: (self_link <$> 1 :: diners))) ∅ (RunQueue 0 5 None).

Definition supper_kernel : kernel := match wake_all (c := default_sched_class) (Kernel supper_sched 1 1 0) diners with Ok k => k | _ => Kernel supper_sched 1 1 0 end.

Lemma supper_cases p pr : supper_procs !! p = Some pr -> p = 1 \/ p ∈ diners /\ state pr = PROC_UNINIT.
Proof.
  intros Hp. apply elem_of_list_to_map_2 in Hp. apply elem_of_cons in Hp as [[= -> _]|Hp]; [by left|right].
  apply list_elem_of_fmap in Hp as (x & [= -> ->] & Hx). done.
Qed.

Lemma supper_sched_inv : sched_inv (c := default_sched_class) (Kernel supper_sched 1 1 0) [].
Proof.
  split; [|by eexists|by eexists|by split; apply not_elem_of_nil|by intros p ?%elem_of_nil|].
  - split; [split|by intros p ?%elem_of_nil|done].
    + split; [apply NoDup_singleton|split; reflexivity].
    + intros p [pr Hp] _. assert (Hin : p ∈ 1 :: diners) by (destruct (supper_cases p pr Hp) as [->|[? _]]; [by left|by right]).
      unfold diners in Hin. rewrite !elem_of_cons in Hin. destruct Hin as [->|[->|[->|[->|[->|[->|[]%elem_of_nil]]]]]]; (split; [apply NoDup_singleton|split; reflexivity]).
  - intros p (pr & Hp & Hr). destruct (supper_cases p pr Hp) as [->|[_ Hu]]; [by left|congruence].
Qed.

Lemma supper_kernel_inv : exists q, sched_inv (c := default_sched_class) supper_kernel q.
Proof.
  destruct (wake_all_inv (c := default_sched_class) (Kernel supper_sched 1 1 0) [] diners supper_sched_inv) as (k & q & E & Hk & _).
  - repeat constructor; by eexists.
  - exists q. unfold supper_kernel. by rewrite E.
Qed.

(** The addresses of the semaphores. *)
Definition sem_addr (m : msem) : Z := match m with Mutex => 0 | Next => 2 | CvSem i => 2 * i + 1 end.

#[export] Instance sem_addr_inj : Inj (=) (=) sem_addr.
Proof. intros [| |i] [| |j] E; cbn in E; try done; try lia. f_equal. lia. Qed.

Definition monitor_sems : list msem := [Mutex; Next] ++ (CvSem <$> seqZ 0 N).

Definition supper_sync : sync_state :=
  SyncState supper_kernel (list_to_map ((fun p => (p, Wait None 0 None)) <$> 1 :: diners))
    (list_to_map (((fun m => (WaitHead (sem_addr m), ListEntry (WaitHead (sem_addr m)) (WaitHead (sem_addr m)))) <$> monitor_sems) ++
      ((fun p => (WaitLink p, ListEntry (WaitLink p) (WaitLink p))) <$> 1 :: diners)))
    (list_to_map ((fun m => (sem_addr m, monitor_values m)) <$> monitor_sems)).

Definition supper_start : ksys (N := msem) (V := monitor forks) (L := doing) :=
  KSys supper_sync (Mon 0 (fun _ => 0) (fun _ => THINKING)) (Runs <$> (philosopher_using_condvar <$> seqZ 0 N)).

Lemma supper_live p : is_Some (procs (sched supper_kernel) !! p) -> p ∈ 1 :: diners.
Proof.
  intros [pr Hp]. assert (Hin : p ∈ (map_to_list (procs (sched supper_kernel))).*1).
  { apply list_elem_of_fmap. exists (p, pr). split; [done|]. by apply elem_of_map_to_list. }
  assert (Forall (fun x => x ∈ 1 :: diners) (map_to_list (procs (sched supper_kernel))).*1) as Hall by (apply (bool_decide_unpack _); vm_compute; exact I).
  rewrite Forall_forall in Hall. by apply Hall.
Qed.

Lemma supper_kstart : kstart (c := default_sched_class) sem_addr in_monitor diners supper_start monitor_values (philosopher_using_condvar <$> seqZ 0 N).
Proof.
  split.
  - exact supper_kernel_inv.
  - right. vm_compute. reflexivity.
  - intros p Hp%supper_live. unfold diners in Hp. rewrite !elem_of_cons in Hp.
    destruct Hp as [->|[->|[->|[->|[->|[->|[]%elem_of_nil]]]]]]; (split; [done|split; eexists; vm_compute; reflexivity]).
  - split; [apply (bool_decide_unpack _); vm_compute; exact I|]. split; [apply (bool_decide_unpack _); vm_compute; exact I|reflexivity].
  - reflexivity.
  - apply Forall_fmap, Forall_forall. intros i Hi%elem_of_seqZ. apply (philosopher_uses i TIMES). lia.
  - intros m Hm. assert (Hin : m ∈ monitor_sems).
    { unfold monitor_sems. apply elem_of_app. destruct m as [| |i]; [left; by left|left; right; by left|right]. apply list_elem_of_fmap_2, elem_of_seqZ. cbn in Hm. unfold N in *. lia. }
    change monitor_sems with [Mutex; Next; CvSem 0; CvSem 1; CvSem 2; CvSem 3; CvSem 4] in Hin. rewrite !elem_of_cons in Hin.
    destruct Hin as [->|[->|[->|[->|[->|[->|[->|[]%elem_of_nil]]]]]]]; (split; [vm_compute; reflexivity|split; [apply NoDup_singleton|split; vm_compute; reflexivity]]).
Qed.

(** Everybody eats: the scheduler alone, without an interrupt. *)
Definition supper_end : res (ksys (N := msem) (V := monitor forks) (L := doing)) :=
  krun (c := default_sched_class) sem_addr diners (replicate 600 false) supper_start.

Definition finished (r : res (ksys (N := msem) (V := monitor forks) (L := doing))) : bool :=
  match r with Ok s => forallb (fun th => match th with Runs Done => true | _ => false end) (kthreads s) | _ => false end.

(** After 9 steps the first of them eats. *)
Definition first_eats (r : res (ksys (N := msem) (V := monitor forks) (L := doing))) : bool :=
  match r with Ok s => match kthreads s !! 0%nat with Some (Runs (Mark Eats _)) => true | _ => false end | _ => false end.

Lemma supper_ends : exists s, supper_end = Ok s /\ finished (Ok s) = true.
Proof.
  assert (finished supper_end = true) as Hf by (vm_compute; reflexivity).
  destruct supper_end as [s| | |]; try discriminate Hf. by exists s.
Qed.

Lemma kernel_threads_refine_witness :
  exists s, rtc (ksteps (c := default_sched_class) sem_addr diners) supper_start s /\ finished (Ok s) = true /\
    exists a, rtc pool_steps check_condvar a /\ kvars s = vars a.
Proof.
  destruct supper_ends as (s & E & Hf). pose proof (krun_steps _ _ _ _ _ E) as Hr. exists s. split; [exact Hr|]. split; [exact Hf|].
  destruct (kernel_threads_refine _ _ _ _ _ _ _ supper_kstart Hr) as ((a & Ha & Hv & _) & _). exists a. split; [exact Ha|exact Hv].
Defined.

Lemma first_course : exists s, krun (c := default_sched_class) sem_addr diners (replicate 9 false) supper_start = Ok s /\ first_eats (Ok s) = true.
Proof.
  assert (first_eats (krun (c := default_sched_class) sem_addr diners (replicate 9 false) supper_start) = true) as Hf by (vm_compute; reflexivity).
  destruct (krun _ _ _ _) as [s| | |]; try discriminate Hf. by exists s.
Qed.

Lemma philosophers_on_kernel_witness :
  exists s, rtc (ksteps (c := default_sched_class) sem_addr diners) supper_start s /\ first_eats (Ok s) = true /\ safe (data (kvars s)).
Proof.
  destruct first_course as (s & E & Hf). pose proof (krun_steps _ _ _ _ _ E) as Hr. exists s. split; [exact Hr|]. split; [exact Hf|].
  exact (proj1 (proj2 (philosophers_on_kernel sem_addr diners supper_start s supper_kstart eq_refl Hr))).
Defined.
