(* ===== verification/Buddy.v ===== *)
(** The buddy allocator of Lab 2 (lab2_Dou/kern/mm/buddy_pmm.c, buddy_pmm.h): one free list
    for each order, splitting on allocation, merging with the buddy on release.

    Page descriptors are indexed as in Page.v; the addresses of list entries are the ten
    heads [free_list[order]] and the [page_link] of each descriptor.  The code never clears
    the property flag of a block that it merges into its lower half, and blocks start
    wherever the free memory starts, so their addresses need not be multiples of their
    sizes; the invariant says why a flag left behind is never mistaken for a free block. *)
From S2P Require Import Prelude Lists Page PageTable.

(** * buddy_pmm.h *)
Definition MAX_ORDER : Z := 10.

Inductive buddy_link : Type := FreeListOf (order : Z) | LinkOf (i : Z).

#[export] Instance buddy_link_eq_dec : EqDecision buddy_link.
Proof. solve_decision. Defined.

#[export] Instance buddy_link_countable : Countable buddy_link.
Proof.
  refine (inj_countable' (fun l => match l with FreeListOf o => inl o | LinkOf i => inr i end)
            (fun o => match o with inl o => FreeListOf o | inr i => LinkOf i end) _).
  by intros [].
Defined.

#[export] Instance LinkOf_inj : Inj (=) (=) LinkOf.
Proof. by intros ?? [= ->]. Qed.

#[export] Instance FreeListOf_inj : Inj (=) (=) FreeListOf.
Proof. by intros ?? [= ->]. Qed.

(** [buddy_free_area_t] and the page array. *)
Record buddy_free_area : Type := BuddyArea {
  bpages : gmap Z Page;
  blinks : gmap buddy_link (list_entry buddy_link);
  bnr_free : list Z
}.

Definition with_blinks (s : buddy_free_area) (h : gmap buddy_link (list_entry buddy_link)) : buddy_free_area := BuddyArea (bpages s) h (bnr_free s).

Definition upd_bpage (s : buddy_free_area) (i : Z) (f : Page -> Page) : res buddy_free_area :=
  p ← deref (bpages s) i; Ok (BuddyArea (<[i := f p]> (bpages s)) (blinks s) (bnr_free s)).

(** [free_area.nr_free[order]]: an index outside the array is an access out of bounds. *)
Definition nr_at (s : buddy_free_area) (order : Z) : res Z :=
  if order <? 0 then Fault else match bnr_free s !! Z.to_nat order with Some n => Ok n | None => Fault end.

Definition upd_nr (s : buddy_free_area) (order : Z) (f : Z -> Z) : res buddy_free_area :=
  n ← nr_at s order; Ok (BuddyArea (bpages s) (blinks s) (<[Z.to_nat order := u32 (f n)]> (bnr_free s))).

(** * buddy_pmm.c *)
Section Code.
Context (npage : Z).

Fixpoint buddy_init_from (s : buddy_free_area) (i : Z) (n : nat) : res buddy_free_area :=
  match n with
  | O => Ok s
  | S n' =>
      h ← list_init (blinks s) (FreeListOf i);
      s ← upd_nr (with_blinks s h) i (fun _ => 0);
      buddy_init_from s (i + 1) n'
  end.

Definition buddy_init (s : buddy_free_area) : res buddy_free_area := buddy_init_from s 0 (Z.to_nat MAX_ORDER).

(** A block goes to the front of the list of its order. *)
Definition put_free (s : buddy_free_area) (page order : Z) : res buddy_free_area :=
  s ← upd_bpage s page (set_property order);
  s ← upd_bpage s page SetPageProperty;
  h ← list_add (blinks s) (FreeListOf order) (LinkOf page);
  upd_nr (with_blinks s h) order (fun n => n + 1).

(** And leaves it. *)
Definition take_free (s : buddy_free_area) (le : buddy_link) (order : Z) : res buddy_free_area :=
  h ← list_del (blinks s) le;
  upd_nr (with_blinks s h) order (fun n => n - 1).

Fixpoint buddy_memmap_pages (s : buddy_free_area) (p : Z) (n : nat) : res buddy_free_area :=
  match n with
  | O => Ok s
  | S n' =>
      pg ← deref (bpages s) p;
      _ ← c_assert (PageReserved pg);
      s ← upd_bpage s p (fun pg => ClearPageProperty (MkPage 0 0 (property pg)));
      buddy_memmap_pages s (p + 1) n'
  end.

(** [while ((1U << order) > n) order--;] *)
Fixpoint shrink_order (order : nat) (n : Z) : res Z :=
  if n <? Z.shiftl 1 (Z.of_nat order) then match order with O => Fault | S o => shrink_order o n end else Ok (Z.of_nat order).

Definition memmap_step (base : Z) (st : buddy_free_area * Z * Z) : res (buddy_free_area * Z * Z + buddy_free_area) :=
  let '(s, offset, n) := st in
  if 0 <? n then
    order ← shrink_order (Z.to_nat (MAX_ORDER - 1)) n;
    s ← put_free s (base + offset) order;
    Ok (inl (s, offset + Z.shiftl 1 order, n - Z.shiftl 1 order))
  else Ok (inr s).

Definition buddy_init_memmap (s : buddy_free_area) (base n : Z) : res buddy_free_area :=
  _ ← c_assert (0 <? n);
  s ← buddy_memmap_pages s base (Z.to_nat n);
  loop (memmap_step base) (S (Z.to_nat n)) (s, 0, n).

(** [while ((1U << order) < n && order < MAX_ORDER) order++;] *)
Definition alloc_order_step (n order : Z) : res (Z + Z) :=
  if (Z.shiftl 1 order <? n) && (order <? MAX_ORDER) then Ok (inl (order + 1)) else Ok (inr order).

(** [while (cur < MAX_ORDER && list_empty(&free_list[cur])) cur++;] *)
Definition scan_step (s : buddy_free_area) (cur : Z) : res (Z + Z) :=
  if cur <? MAX_ORDER then
    e ← list_empty (blinks s) (FreeListOf cur);
    if (e : bool) then Ok (inl (cur + 1)) else Ok (inr cur)
  else Ok (inr cur).

(** [while (cur > order)]: the upper half becomes a free block. *)
Definition split_step (page order : Z) (st : buddy_free_area * Z) : res (buddy_free_area * Z + buddy_free_area) :=
  let '(s, cur) := st in
  if order <? cur then
    let cur := cur - 1 in
    s ← put_free s (page + Z.shiftl 1 cur) cur;
    Ok (inl (s, cur))
  else Ok (inr s).

Definition le2buddy (le : buddy_link) : res Z := match le with LinkOf i => Ok i | FreeListOf _ => Fault end.

Definition orders_fuel : nat := 40.

Definition buddy_alloc_pages (s : buddy_free_area) (n : Z) : res (buddy_free_area * option Z) :=
  if n =? 0 then Ok (s, None)
  else
    order ← loop (alloc_order_step n) orders_fuel 0;
    if MAX_ORDER <=? order then Ok (s, None)
    else
      cur ← loop (scan_step s) orders_fuel order;
      if cur =? MAX_ORDER then Ok (s, None)
      else
        le ← list_next (blinks s) (FreeListOf cur);
        page ← le2buddy le;
        s ← take_free s le cur;
        s ← loop (split_step page order) orders_fuel (s, cur);
        s ← upd_bpage s page ClearPageProperty;
        Ok (s, Some page).

(** [while ((1U << order) < n) order++;]: a shift by 32 is undefined. *)
Definition free_order_step (n order : Z) : res (Z + Z) :=
  if 32 <=? order then Fault else if Z.shiftl 1 order <? n then Ok (inl (order + 1)) else Ok (inr order).

(** [base_pa] is [page2pa(base)] whenever the loop starts over. *)
Definition merge_step (st : buddy_free_area * Z * Z) : res (buddy_free_area * Z * Z + buddy_free_area * Z * Z) :=
  let '(s, base, order) := st in
  if order <? MAX_ORDER - 1 then
    buddy ← pa2page npage (Z.lxor (page2pa base) (Z.shiftl 1 (order + 12)));
    pg ← deref (bpages s) buddy;
    if negb (PageProperty pg) || negb (property pg =? order) then Ok (inr (s, base, order))
    else
      s ← take_free s (LinkOf buddy) order;
      Ok (inl (s, if buddy <? base then buddy else base, order + 1))
  else Ok (inr (s, base, order)).

Definition buddy_free_pages (s : buddy_free_area) (base n : Z) : res buddy_free_area :=
  _ ← c_assert (0 <? n);
  order ← loop (free_order_step n) orders_fuel 0;
  '(s, base, order) ← loop merge_step orders_fuel (s, base, order);
  put_free s base order.

Fixpoint buddy_total (nr : list Z) (i : Z) : Z :=
  match nr with [] => 0 | n :: nr' => u32 (Z.shiftl n i) + buddy_total nr' (i + 1) end.

Definition buddy_nr_free_pages (s : buddy_free_area) : Z := buddy_total (bnr_free s) 0.
End Code.
