(* ===== verification/BuddySpec.v ===== *)
(** The buddy allocator is right: its invariant, and that no frame is granted twice.

    A block [(a, k)] is the [2 ^ k] frames from [a].  The blocks, free and granted, never
    overlap.  A descriptor carries the property flag because it heads a free block of the
    order in its property, or it is stale: both halves that this order would tell apart lie
    in one block. *)
From S2P Require Import Prelude Lists Page PageTable Buddy.

Abbreviation block := (Z * Z)%type.

Definition bcov (x : block) (i : Z) : Prop := x.1 <= i < x.1 + 2 ^ x.2.

Section Tiling.
Context (npg : Z).
Implicit Types (B : block -> Prop) (x y : block).

(** * Blocks that do not overlap *)
Record tiling B : Prop := Tiling {
  tl_in x : B x -> 0 <= x.2 < MAX_ORDER /\ 0 <= x.1 /\ x.1 + 2 ^ x.2 <= npg;
  tl_disjoint x y i : B x -> B y -> bcov x i -> bcov y i -> x = y
}.

(** The lower half of the pair of order [p] that [i] is in. *)
Definition pair_start (p i : Z) : Z := if Z.testbit i p then i - 2 ^ p else i.

Definition stale B (i p : Z) : Prop :=
  0 <= p /\ exists a m, B (a, m) /\ a <= pair_start p i /\ pair_start p i + 2 ^ (p + 1) <= a + 2 ^ m /\ (2 ^ (p + 1) | pair_start p i - a) /\ i <> a.

Lemma tiling_ext B B' : (forall x, B' x <-> B x) -> tiling B -> tiling B'.
Proof. intros E [H1 H2]. split; [intros x Hx; by apply H1, E|intros x y i Hx Hy; apply H2; by apply E]. Qed.

Lemma stale_ext B B' i p : (forall x, B x -> B' x) -> stale B i p -> stale B' i p.
Proof. intros E (Hp & a & m & Hb & H). split; [done|]. exists a, m. split; [by apply E|done]. Qed.

Lemma pow2_pos k : 0 <= k -> 0 < 2 ^ k.
Proof. intros Hk. by apply Z.pow_pos_nonneg. Qed.

Lemma pow2_S k : 0 <= k -> 2 ^ (k + 1) = 2 * 2 ^ k.
Proof. intros Hk. by rewrite Z.pow_add_r, Z.mul_comm. Qed.

Lemma pow2_mono j k : 0 <= j -> 2 ^ j <= 2 ^ k -> j <= k.
Proof. intros Hj H. destruct (Z.le_gt_cases j k) as [|Hk]; [done|]. destruct (Z.neg_nonneg_cases k) as [Hn|Hn].
  - rewrite (Z.pow_neg_r 2 k) in H by done. pose proof (pow2_pos j Hj). lia.
  - pose proof (Z.pow_lt_mono_r 2 k j). lia.
Qed.

Lemma head_cov B x : tiling B -> B x -> bcov x x.1.
Proof. intros Ht Hx. destruct (tl_in _ Ht x Hx) as ((H1 & _) & _). unfold bcov. pose proof (pow2_pos _ H1). lia. Qed.

Lemma same_head B a j k : tiling B -> B (a, j) -> B (a, k) -> j = k.
Proof.
  intros Ht Hj Hk. pose proof (head_cov _ _ Ht Hj) as Hc. pose proof (head_cov _ _ Ht Hk) as Hc'.
  pose proof (tl_disjoint _ Ht _ _ a Hj Hk Hc Hc'). congruence.
Qed.

(** * Halving a block *)
Definition halved B a k x : Prop := B x /\ x <> (a, k + 1) \/ x = (a, k) \/ x = (a + 2 ^ k, k).

Lemma halves a k i : 0 <= k -> bcov (a, k + 1) i <-> bcov (a, k) i \/ bcov (a + 2 ^ k, k) i.
Proof. intros Hk. unfold bcov. cbn. rewrite pow2_S by done. pose proof (pow2_pos k Hk). lia. Qed.

(** Every block after the halving lies in one before. *)
Lemma halved_parent B a k x : 0 <= k -> B (a, k + 1) -> halved B a k x -> exists y, B y /\ (forall i, bcov x i -> bcov y i) /\ (y = x \/ y = (a, k + 1)).
Proof.
  intros Hk Ha [[Hx _]|[->| ->]]; [by exists x; auto| |]; exists (a, k + 1); (split; [done|split; [|by right]]); intros i Hi; apply halves; auto.
Qed.

Lemma halved_tiling B a k : 0 <= k -> B (a, k + 1) -> tiling B -> tiling (halved B a k).
Proof.
  intros Hk Ha Ht. pose proof (pow2_pos k Hk) as Hp. pose proof (pow2_S k Hk) as HS. destruct (tl_in _ Ht _ Ha) as (? & ? & ?). cbn in *. split.
  - intros x [[Hx _]|[->| ->]]; cbn; [by apply (tl_in _ Ht)|lia|lia].
  - intros x y i Hx Hy Hxi Hyi. assert (Hhalf : forall z, (z = (a, k) \/ z = (a + 2 ^ k, k)) -> bcov z i -> B z -> z <> (a, k + 1) -> False).
    { intros z Hz Hzi HBz Hne. apply Hne, (tl_disjoint _ Ht _ _ i HBz Ha Hzi). apply halves; [done|]. by destruct Hz as [->| ->]; auto. }
    assert (Hcase : forall z, halved B a k z -> bcov z i -> (z = (a, k) \/ z = (a + 2 ^ k, k)) \/ ~ bcov (a, k + 1) i /\ B z).
    { intros z [[HBz Hne]|Hz] Hzi; [right|by left]. split; [|done]. intros Hc. by apply Hne, (tl_disjoint _ Ht _ _ i). }
    destruct (Hcase x Hx Hxi) as [Hx'|[Hn HBx]], (Hcase y Hy Hyi) as [Hy'|[Hn' HBy]].
    + unfold bcov in *. destruct Hx' as [->| ->], Hy' as [->| ->]; cbn in *; try done; lia.
    + exfalso. apply Hn'. apply halves; [done|]. by destruct Hx' as [->| ->]; auto.
    + exfalso. apply Hn. apply halves; [done|]. by destruct Hy' as [->| ->]; auto.
    + by apply (tl_disjoint _ Ht x y i).
Qed.

(** What was stale stays so, but for the head of the new half. *)
Lemma halved_stale B a k i p : 0 <= k -> B (a, k + 1) -> stale B i p -> i = a + 2 ^ k \/ stale (halved B a k) i p.
Proof.
  intros Hk Ha (Hp & b & m & Hb & H1 & H2 & [q Hq] & Hne). pose proof (pow2_S p Hp) as HSp. pose proof (pow2_pos p Hp) as Hpp. pose proof (pow2_S k Hk) as HSk. pose proof (pow2_pos k Hk) as Hpk.
  destruct (decide ((b, m) = (a, k + 1))) as [[= -> ->]|Hn]; [|right; split; [done|]; exists b, m; split; [by left|by split_and!; [..|exists q|]]].
  destruct (decide (i = a + 2 ^ k)) as [|Hi]; [by left|right]. split; [done|].
  assert (Hpair : i = pair_start p i \/ i = pair_start p i + 2 ^ p) by (unfold pair_start; destruct (Z.testbit i p); lia).
  assert (Hle : p + 1 <= k + 1) by (apply pow2_mono; lia).
  destruct (decide (p = k)) as [->|Hpk'].
  { exfalso. assert (q = 0) as -> by nia. destruct Hpair; lia. }
  assert (Hdiv : (2 ^ (p + 1) | 2 ^ k)) by (exists (2 ^ (k - (p + 1))); rewrite <- Z.pow_add_r by lia; f_equal; lia). destruct Hdiv as [c Hc].
  destruct (decide (pair_start p i < a + 2 ^ k)) as [Hlow|Hhigh].
  - exists a, k. split; [right; by left|]. split; [lia|]. split; [|split; [by exists q|done]]. assert (q + 1 <= c) by nia. nia.
  - exists (a + 2 ^ k), k. split; [right; by right|]. split; [lia|]. split; [lia|]. split; [|done]. exists (q - c). lia.
Qed.

(** * Joining two halves *)
Definition joined_at B a k x : Prop := B x /\ x <> (a, k) /\ x <> (a + 2 ^ k, k) \/ x = (a, k + 1).

Lemma joined_tiling B a k : 0 <= k < MAX_ORDER - 1 -> B (a, k) -> B (a + 2 ^ k, k) -> tiling B -> tiling (joined_at B a k).
Proof.
  intros Hk Ha Ha' Ht. pose proof (pow2_pos k ltac:(lia)) as Hp. pose proof (pow2_S k ltac:(lia)) as HS.
  destruct (tl_in _ Ht _ Ha) as (? & ? & ?), (tl_in _ Ht _ Ha') as (? & ? & ?). cbn in *. split.
  - intros x [[Hx _]| ->]; cbn; [by apply (tl_in _ Ht)|lia].
  - intros x y i Hx Hy Hxi Hyi.
    assert (Hout : forall z, B z -> z <> (a, k) -> z <> (a + 2 ^ k, k) -> bcov z i -> ~ bcov (a, k + 1) i).
    { intros z HBz Hz1 Hz2 Hzi Hc. apply halves in Hc as [Hc|Hc]; [| |lia]; [apply Hz1|apply Hz2]; by apply (tl_disjoint _ Ht _ _ i). }
    destruct Hx as [(HBx & Hx1 & Hx2)| ->], Hy as [(HBy & Hy1 & Hy2)| ->]; [by apply (tl_disjoint _ Ht x y i)| | |done].
    + by destruct (Hout x HBx Hx1 Hx2 Hxi).
    + by destruct (Hout y HBy Hy1 Hy2 Hyi).
Qed.

Lemma joined_stale B a k i p : 0 <= k -> B (a + 2 ^ k, k) -> tiling B -> i <> a -> stale B i p -> stale (joined_at B a k) i p.
Proof.
  intros Hk Ha' Ht Hi (Hp & b & m & Hb & H1 & H2 & Hd & Hne). split; [done|]. pose proof (pow2_S k Hk) as HSk. pose proof (pow2_pos k Hk) as Hpk. pose proof (pow2_S p Hp) as HSp. pose proof (pow2_pos p Hp) as Hpp.
  destruct (decide ((b, m) = (a, k))) as [[= -> ->]|Hn]; [|destruct (decide ((b, m) = (a + 2 ^ k, k))) as [[= -> ->]|Hn']].
  - exists a, (k + 1). split; [by right|]. split; [done|]. split; [lia|]. by split.
  - exists a, (k + 1). split; [by right|]. split; [lia|]. split; [lia|]. split; [|done].
    assert (p + 1 <= k) by (apply pow2_mono; lia).
    replace (pair_start p i - a) with (pair_start p i - (a + 2 ^ k) + 2 ^ k) by lia. apply Z.divide_add_r; [done|].
    exists (2 ^ (k - (p + 1))). rewrite <- Z.pow_add_r by lia. f_equal. lia.
  - exists b, m. split; [by left|done].
Qed.

(** ** The numbers *)
Lemma lxor_pow2 i k : 0 <= k -> Z.lxor i (2 ^ k) = if Z.testbit i k then i - 2 ^ k else i + 2 ^ k.
Proof.
  intros Hk. destruct (Z.testbit i k) eqn:Hb.
  - rewrite Z.sub_nocarry_ldiff.
    + apply Z.bits_inj'. intros n Hn. rewrite Z.lxor_spec, Z.ldiff_spec, Z.pow2_bits_eqb by done. destruct (Z.eqb_spec k n) as [->|]; [by rewrite Hb|]. cbn. by rewrite xorb_false_r, andb_true_r.
    + apply Z.bits_inj'. intros n Hn. rewrite Z.ldiff_spec, Z.pow2_bits_eqb, Z.bits_0 by done. destruct (Z.eqb_spec k n) as [->|]; [by rewrite Hb|done].
  - rewrite Z.add_nocarry_lxor; [done|]. apply Z.bits_inj'. intros n Hn. rewrite Z.land_spec, Z.pow2_bits_eqb, Z.bits_0 by done.
    destruct (Z.eqb_spec k n) as [->|]; [by rewrite Hb|by rewrite andb_false_r].
Qed.

Lemma lxor_pair i k : 0 <= k -> Z.lxor i (2 ^ k) = if Z.testbit i k then pair_start k i else pair_start k i + 2 ^ k.
Proof. intros Hk. rewrite lxor_pow2 by done. unfold pair_start. by destruct (Z.testbit i k). Qed.

Lemma testbit_lxor_pow2 i k : 0 <= k -> Z.testbit (Z.lxor i (2 ^ k)) k = negb (Z.testbit i k).
Proof. intros Hk. rewrite Z.lxor_spec, Z.pow2_bits_true by done. by destruct (Z.testbit i k). Qed.

(** A page whose flag says [k] next to a block of order [k] heads a free block itself. *)
Lemma not_stale B b k : tiling B -> 0 <= k -> B (b, k) -> ~ stale B (Z.lxor b (2 ^ k)) k.
Proof.
  intros Ht Hk Hb (_ & a & m & Ha & H1 & H2 & _ & _). pose proof (pow2_S k Hk) as HS. pose proof (pow2_pos k Hk) as Hp.
  assert (Hps : pair_start k (Z.lxor b (2 ^ k)) = pair_start k b).
  { unfold pair_start. rewrite testbit_lxor_pow2, lxor_pow2 by done. destruct (Z.testbit b k); cbn; lia. }
  rewrite Hps in H1, H2. assert (Hc : bcov (a, m) b) by (unfold bcov; cbn; unfold pair_start in *; destruct (Z.testbit b k); lia).
  pose proof (tl_disjoint _ Ht _ _ b Hb Ha (head_cov _ _ Ht Hb) Hc) as [= -> ->]. unfold pair_start in *. destruct (Z.testbit a m); lia.
Qed.
End Tiling.

(** * The invariant *)

(** [fl o] is the list of order [o]; [al] are the granted blocks. *)
Definition in_list (fl : Z -> list Z) (x : block) : Prop := 0 <= x.2 < MAX_ORDER /\ x.1 ∈ fl x.2.
Definition blocks (fl : Z -> list Z) (al : list block) (x : block) : Prop := in_list fl x \/ x ∈ al.

Definition set_list (fl : Z -> list Z) (o : Z) (l : list Z) : Z -> list Z := fun o' => if decide (o' = o) then l else fl o'.

(** Frames in the lists, and in the granted blocks. *)
Definition sumZ {A} (f : A -> Z) (l : list A) : Z := foldr (fun x s => f x + s) 0 l.
Definition total_free (fl : Z -> list Z) : Z := sumZ (fun o => 2 ^ o * Z.of_nat (length (fl o))) (seqZ 0 MAX_ORDER).
Definition granted (al : list block) : Z := sumZ (fun x => 2 ^ x.2) al.

Lemma granted_cons x al : granted (x :: al) = 2 ^ x.2 + granted al.
Proof. done. Qed.

Lemma sumZ_ext {A} (f g : A -> Z) l : (forall x, x ∈ l -> f x = g x) -> sumZ f l = sumZ g l.
Proof. induction l as [|x l IH]; intros Hfg; [done|]. cbn [sumZ foldr]. rewrite Hfg by by left. f_equal. apply IH. intros y Hy. apply Hfg. by right. Qed.

Lemma sumZ_update {A} (f g : A -> Z) l x : NoDup l -> x ∈ l -> (forall y, y <> x -> g y = f y) -> sumZ g l = sumZ f l + (g x - f x).
Proof.
  intros Hnd Hx Hfg. induction l as [|y l IH]; [by apply elem_of_nil in Hx|]. apply NoDup_cons in Hnd as [Hy Hnd]. cbn [sumZ foldr].
  apply elem_of_cons in Hx as [->|Hx].
  - fold (sumZ f l) (sumZ g l). rewrite (sumZ_ext g f l); [lia|]. intros z Hz. apply Hfg. by intros ->.
  - fold (sumZ f l) (sumZ g l). rewrite IH by done. rewrite Hfg by (by intros ->). lia.
Qed.

Lemma sumZ_elem {A} (f : A -> Z) l x : (forall y, y ∈ l -> 0 <= f y) -> x ∈ l -> f x <= sumZ f l.
Proof.
  intros Hf Hx. assert (Hnn : forall l', (forall y, y ∈ l' -> 0 <= f y) -> 0 <= sumZ f l').
  { induction l' as [|y l' IH]; intros Hl; [done|]. cbn [sumZ foldr]. fold (sumZ f l'). pose proof (Hl y ltac:(by left)). pose proof (IH ltac:(intros z Hz; apply Hl; by right)). lia. }
  apply list_elem_of_split in Hx as (l1 & l2 & ->). induction l1 as [|y l1 IH].
  - cbn [app sumZ foldr]. fold (sumZ f l2). pose proof (Hnn l2 ltac:(intros z Hz; apply Hf; by right)). lia.
  - cbn [app sumZ foldr]. fold (sumZ f (l1 ++ x :: l2)). pose proof (Hf y ltac:(by left)). pose proof (IH ltac:(intros z Hz; apply Hf; by right)). lia.
Qed.

Lemma order_in o : 0 <= o < MAX_ORDER -> o ∈ seqZ 0 MAX_ORDER.
Proof. intros Ho. apply elem_of_seqZ. lia. Qed.

Lemma total_set fl o l : 0 <= o < MAX_ORDER -> total_free (set_list fl o l) = total_free fl + 2 ^ o * (Z.of_nat (length l) - Z.of_nat (length (fl o))).
Proof.
  intros Ho. unfold total_free. rewrite (sumZ_update (fun o' => 2 ^ o' * Z.of_nat (length (fl o'))) _ _ o); [|apply NoDup_seqZ|by apply order_in|].
  - unfold set_list. rewrite decide_True by done. lia.
  - intros y Hy. unfold set_list. by rewrite decide_False.
Qed.

Lemma total_order fl o : 0 <= o < MAX_ORDER -> 2 ^ o * Z.of_nat (length (fl o)) <= total_free fl.
Proof.
  intros Ho. unfold total_free. apply (sumZ_elem (fun o' => 2 ^ o' * Z.of_nat (length (fl o')))); [|by apply order_in].
  intros y Hy. apply elem_of_seqZ in Hy. pose proof (pow2_pos y). nia.
Qed.

Lemma granted_nonneg al : (forall x, x ∈ al -> 0 <= x.2) -> 0 <= granted al.
Proof.
  induction al as [|x al IH]; intros Hal; [done|]. rewrite granted_cons. pose proof (pow2_pos x.2 (Hal x ltac:(by left))).
  pose proof (IH ltac:(intros y Hy; apply Hal; by right)). lia.
Qed.

Lemma granted_perm al al' : al ≡ₚ al' -> granted al = granted al'.
Proof. induction 1; rewrite ?granted_cons; lia. Qed.

(** Heads in [hand] are between two states of the invariant: their flags say nothing. *)
Record binv (npg n0 : Z) (hand : list Z) (s : buddy_free_area) (fl : Z -> list Z) (al : list block) : Prop := BInv {
  bi_pages i : is_Some (bpages s !! i) <-> 0 <= i < npg;
  bi_links i : 0 <= i < npg -> is_Some (blinks s !! LinkOf i);
  bi_dll o : 0 <= o < MAX_ORDER -> dll (blinks s) (FreeListOf o) (LinkOf <$> fl o);
  bi_nr : bnr_free s = (fun o => Z.of_nat (length (fl o))) <$> seqZ 0 MAX_ORDER;
  bi_total : total_free fl + granted al = n0 /\ n0 < 2 ^ 32;
  bi_tiling : tiling npg (blocks fl al);
  bi_split x : in_list fl x -> x ∉ al;
  bi_nodup : NoDup al;
  bi_head x p : in_list fl x -> bpages s !! x.1 = Some p -> PageProperty p = true /\ property p = x.2;
  bi_granted x p : x ∈ al -> bpages s !! x.1 = Some p -> PageProperty p = false \/ x.1 ∈ hand;
  bi_flag i p : bpages s !! i = Some p -> PageProperty p = true -> i ∈ hand \/ in_list fl (i, property p) \/ stale (blocks fl al) i (property p)
}.

Section Steps.
Context (npg n0 : Z).
Implicit Types (s : buddy_free_area) (fl : Z -> list Z) (al : list block) (hand : list Z).

Lemma binv_perm hand s fl al al' : al ≡ₚ al' -> binv npg n0 hand s fl al -> binv npg n0 hand s fl al'.
Proof.
  intros Hp [H1 H2 H3 H4 [H5 H5'] H6 H7 H8 H9 H10 H11]. assert (Hin : forall x, x ∈ al' <-> x ∈ al) by (intros x; by rewrite Hp).
  assert (Hb : forall x, blocks fl al' x <-> blocks fl al x) by (intros x; unfold blocks; by rewrite Hin). split; try done.
  - split; [|done]. by rewrite <- (granted_perm _ _ Hp).
  - by eapply tiling_ext.
  - intros x Hx. rewrite Hin. by apply H7.
  - by rewrite <- Hp.
  - intros x p Hx%Hin. by apply H10.
  - intros i p Hi Hf. destruct (H11 i p Hi Hf) as [?|[?|Hs]]; [by left|by right; left|right; right]. eapply stale_ext; [|exact Hs]. intros x. apply Hb.
Qed.

(** A head of a block, and its descriptor. *)
Lemma block_page hand s fl al x : binv npg n0 hand s fl al -> blocks fl al x -> 0 <= x.2 < MAX_ORDER /\ 0 <= x.1 < npg /\ exists p, bpages s !! x.1 = Some p.
Proof.
  intros Hi Hx. destruct (tl_in _ _ (bi_tiling _ _ _ _ _ _ Hi) x Hx) as (Ho & H0 & H1). pose proof (pow2_pos x.2 ltac:(lia)). split; [done|]. split; [lia|].
  destruct (proj2 (bi_pages _ _ _ _ _ _ Hi x.1)) as [p Hp]; [lia|]. by exists p.
Qed.

Lemma list_members hand s fl al o : binv npg n0 hand s fl al -> 0 <= o < MAX_ORDER -> NoDup (fl o).
Proof. intros Hi Ho. destruct (bi_dll _ _ _ _ _ _ Hi o Ho) as [[_ Hnd]%NoDup_cons _]. by apply NoDup_fmap_1 in Hnd. Qed.

(** Which lists a head is in. *)
Lemma one_list hand s fl al o o' i : binv npg n0 hand s fl al -> 0 <= o' < MAX_ORDER -> i ∈ fl o' -> blocks fl al (i, o) -> o' = o.
Proof. intros Hi Ho Hin Hb. eapply same_head; [apply Hi|left; by split|exact Hb]. Qed.

Lemma length_bound hand s fl al o : binv npg n0 hand s fl al -> 0 <= o < MAX_ORDER -> Z.of_nat (length (fl o)) <= total_free fl.
Proof. intros Hi Ho. pose proof (total_order fl o Ho). pose proof (pow2_pos o ltac:(lia)). nia. Qed.

Lemma blocks_orders hand s fl al : binv npg n0 hand s fl al -> forall x, x ∈ al -> 0 <= x.2.
Proof. intros Hi x Hx. destruct (tl_in _ _ (bi_tiling _ _ _ _ _ _ Hi) x) as ((? & _) & _); [by right|done]. Qed.

(** ** Counting *)
Lemma nr_lookup s fl o : bnr_free s = (fun o => Z.of_nat (length (fl o))) <$> seqZ 0 MAX_ORDER -> 0 <= o < MAX_ORDER -> nr_at s o = Ok (Z.of_nat (length (fl o))).
Proof.
  intros E Ho. unfold nr_at. rewrite (proj2 (Z.ltb_ge _ _)) by lia. rewrite E, list_lookup_fmap, lookup_seqZ_lt by lia. cbn. by replace (0 + Z.of_nat (Z.to_nat o)) with o by lia.
Qed.

Lemma nr_set s fl o l : bnr_free s = (fun o => Z.of_nat (length (fl o))) <$> seqZ 0 MAX_ORDER -> 0 <= o < MAX_ORDER ->
  <[Z.to_nat o := Z.of_nat (length l)]> (bnr_free s) = (fun o' => Z.of_nat (length (set_list fl o l o'))) <$> seqZ 0 MAX_ORDER.
Proof.
  intros E Ho. apply list_eq. intros j. rewrite E, list_lookup_fmap. destruct (decide (j = Z.to_nat o)) as [->|Hj].
  - rewrite list_lookup_insert_eq by (rewrite length_fmap, length_seqZ; lia). rewrite lookup_seqZ_lt by lia. cbn. unfold set_list. by rewrite decide_True by lia.
  - rewrite list_lookup_insert_ne by done. rewrite list_lookup_fmap. destruct (seqZ 0 MAX_ORDER !! j) as [o'|] eqn:Ej; [|done]. apply lookup_seqZ in Ej as [-> Hlt].
    cbn. unfold set_list. by rewrite decide_False by lia.
Qed.

Lemma upd_bpage_ok s i f p : bpages s !! i = Some p -> upd_bpage s i f = Ok (BuddyArea (<[i := f p]> (bpages s)) (blinks s) (bnr_free s)).
Proof. intros Hp. unfold upd_bpage. by rewrite (deref_some _ _ _ Hp). Qed.

Lemma upd_nr_ok s fl o f l :
  bnr_free s = (fun o => Z.of_nat (length (fl o))) <$> seqZ 0 MAX_ORDER -> 0 <= o < MAX_ORDER -> f (Z.of_nat (length (fl o))) = Z.of_nat (length l) -> Z.of_nat (length l) < 2 ^ 32 ->
  exists nr, upd_nr s o f = Ok (BuddyArea (bpages s) (blinks s) nr) /\ nr = (fun o' => Z.of_nat (length (set_list fl o l o'))) <$> seqZ 0 MAX_ORDER.
Proof.
  intros Hnr Ho Hf Hl. unfold upd_nr. rewrite (nr_lookup s fl o Hnr Ho). cbn [mbind res_bind]. rewrite Hf, u32_small by lia.
  eexists. split; [done|]. by apply nr_set.
Qed.

(** ** A block goes to a list *)
Lemma put_free_run hand hand' s fl al i o :
  binv npg n0 hand s fl ((i, o) :: al) -> (forall x, x ∈ hand -> x = i \/ x ∈ hand') ->
  exists s', put_free s i o = Ok s' /\ binv npg n0 hand' s' (set_list fl o (i :: fl o)) al.
Proof.
  intros Hi Hhand. assert (Hb : blocks fl ((i, o) :: al) (i, o)) by (right; by left). destruct (block_page _ _ _ _ _ Hi Hb) as (Ho & Hpg & p & Hp).
  pose proof Hi as [H1 H2 H3 H4 [H5 H5'] H6 H7 H8 H9 H10 H11]. cbn [fst snd] in *.
  assert (Hother : forall o', 0 <= o' < MAX_ORDER -> i ∉ fl o').
  { intros o' Ho' Hin. assert (o' = o) as -> by (by eapply one_list). by destruct (H7 (i, o)); [by split|left]. }
  unfold put_free. rewrite (upd_bpage_ok _ _ _ _ Hp). cbn [mbind res_bind]. erewrite upd_bpage_ok by (cbn; apply lookup_insert_eq). cbn [mbind res_bind blinks bpages bnr_free]. rewrite insert_insert_eq.
  destruct (list_add_after_dll (blinks s) (FreeListOf o) [] (LinkOf <$> fl o) (LinkOf i) (H3 o Ho) (H2 i Hpg)) as (h & Hadd & Hd & Hout).
  { intros [[=]|(j & [= <-] & Hj)%list_elem_of_fmap]%elem_of_cons. by apply (Hother o). }
  change (List.last [] (FreeListOf o)) with (FreeListOf o) in Hadd. unfold list_add. rewrite Hadd. cbn [mbind res_bind].
  rewrite granted_cons in H5. cbn [snd] in H5. pose proof (pow2_pos o ltac:(lia)) as Hpo. pose proof (length_bound _ _ _ _ _ Hi Ho) as Hlb.
  pose proof (granted_nonneg al ltac:(intros x Hx; eapply blocks_orders; [exact Hi|by right])) as Hgn.
  destruct (upd_nr_ok (with_blinks (BuddyArea (<[i := SetPageProperty (set_property o p)]> (bpages s)) (blinks s) (bnr_free s)) h) fl o (fun n => n + 1) (i :: fl o) H4 Ho) as (nr & -> & ->); [cbn [length]; lia|cbn [length]; lia|].
  eexists. split; [done|]. apply NoDup_cons in H8 as [Hnal Hnd].
  assert (Hbl : forall x, blocks (set_list fl o (i :: fl o)) al x <-> blocks fl ((i, o) :: al) x).
  { intros [a k]. unfold blocks, in_list, set_list. cbn [fst snd]. destruct (decide (k = o)) as [->|Hk]; rewrite !elem_of_cons; [|naive_solver]. split; [|naive_solver]. intros [[? [->|?]]|?]; auto. }
  split; cbn [bpages blinks bnr_free with_blinks].
  - intros j. rewrite lookup_insert_is_Some. rewrite H1. destruct (decide (j = i)) as [->|]; [tauto|]. naive_solver.
  - intros j Hj. eapply same_outside_live; [exact Hd|exact Hout| |by apply H2]. set_solver.
  - intros o' Ho'. unfold set_list. destruct (decide (o' = o)) as [->|Hne]; [exact Hd|]. eapply dll_same_outside; [by apply H3|exact Hout|].
    intros x Hx Hin. apply elem_of_cons in Hx as [->|(j & -> & Hj)%list_elem_of_fmap].
    + rewrite !elem_of_cons in Hin. destruct Hin as [[=]|[[= ?]|(j & [=] & _)%list_elem_of_fmap]]. done.
    + rewrite !elem_of_cons in Hin. destruct Hin as [[= ->]|[[=]|(j' & [= <-] & Hj')%list_elem_of_fmap]]; [by apply (Hother o')|].
      apply Hne. eapply one_list; [exact Hi|done|exact Hj|]. by left.
  - done.
  - split; [|done]. rewrite total_set by done. cbn [length]. lia.
  - by eapply tiling_ext.
  - intros [a k] [Hk Hin] Hal. cbn in Hk, Hin. unfold set_list in Hin. destruct (decide (k = o)) as [->|Hne].
    + apply elem_of_cons in Hin as [->|Hin]; [done|]. apply (H7 (a, o)); [by split|by right].
    + apply (H7 (a, k)); [by split|by right].
  - done.
  - intros [a k] q [Hk Hin] Hq. cbn in Hk, Hin, Hq. unfold set_list in Hin. destruct (decide (a = i)) as [->|Ha].
    + rewrite lookup_insert_eq in Hq. injection Hq as <-. destruct (decide (k = o)) as [->|Hne]; [by rewrite PageProperty_set|]. by destruct (Hother k Hk).
    + rewrite lookup_insert_ne in Hq by done. apply (H9 (a, k)); [|done]. split; [done|]. cbn. destruct (decide (k = o)) as [->|]; [|done]. by apply elem_of_cons in Hin as [->|].
  - intros x q Hx Hq. assert (Hne : x.1 <> i).
    { intros E. assert (x = (i, o)) as ->; [|done]. destruct x as [a k]. cbn in E. subst a. f_equal. eapply same_head; [exact H6|right; by right|exact Hb]. }
    rewrite lookup_insert_ne in Hq by done. destruct (H10 x q) as [?|Hh]; [by right|done|by left|right]. by destruct (Hhand _ Hh).
  - intros j q Hj Hf. destruct (decide (j = i)) as [->|Hne].
    + rewrite lookup_insert_eq in Hj. injection Hj as <-. right. left. split; [done|]. cbn. unfold set_list. rewrite decide_True by done. by left.
    + rewrite lookup_insert_ne in Hj by done. destruct (H11 j q Hj Hf) as [Hh|[[Hk Hin]|Hs]]; [left; by destruct (Hhand _ Hh)| |].
      * right. left. split; [done|]. cbn in *. unfold set_list. destruct (decide (property q = o)) as [E|]; [rewrite E in Hin; by right|done].
      * right. right. eapply stale_ext; [|exact Hs]. intros x. by apply Hbl.
Qed.

(** ** And leaves it *)
Lemma take_free_run hand s fl al i o l1 l2 :
  binv npg n0 hand s fl al -> 0 <= o < MAX_ORDER -> fl o = l1 ++ i :: l2 ->
  exists s', take_free s (LinkOf i) o = Ok s' /\ binv npg n0 (i :: hand) s' (set_list fl o (l1 ++ l2)) ((i, o) :: al) /\ bpages s' = bpages s.
Proof.
  intros Hi Ho El. assert (Hin : in_list fl (i, o)) by (split; [done|]; cbn; rewrite El; apply elem_of_app; right; by left).
  pose proof Hi as [H1 H2 H3 H4 [H5 H5'] H6 H7 H8 H9 H10 H11]. pose proof (list_members _ _ _ _ _ Hi Ho) as Hndl.
  pose proof (H3 o Ho) as Hdo. rewrite El, fmap_app in Hdo. cbn in Hdo. unfold take_free.
  destruct (list_del_dll (blinks s) (FreeListOf o) _ _ _ Hdo) as (h & -> & Hd & Hout). cbn [mbind res_bind]. rewrite <- fmap_app in Hd, Hout.
  pose proof (length_bound _ _ _ _ _ Hi Ho) as Hlb. pose proof (granted_nonneg al ltac:(intros x Hx; by eapply blocks_orders)) as Hgn.
  destruct (upd_nr_ok (with_blinks s h) fl o (fun n => n - 1) (l1 ++ l2) H4 Ho) as (nr & -> & ->); [rewrite El, !length_app; cbn; lia|rewrite El, !length_app in *; cbn in *; lia|].
  eexists. split; [done|]. split; [|done]. rewrite El in Hndl. rewrite <- Permutation_middle in Hndl. apply NoDup_cons in Hndl as [Hnil Hndl].
  assert (Hmem : forall a k, a ∈ set_list fl o (l1 ++ l2) k <-> a ∈ fl k /\ (a, k) <> (i, o)).
  { intros a k. unfold set_list. destruct (decide (k = o)) as [->|Hk]; [|split; [intros ?; split; [done|congruence]|by intros [? _]]].
    rewrite El, !elem_of_app, elem_of_cons. split; [|intros [[?|[->|?]] Hne]; auto; by destruct Hne].
    intros Ha. split; [tauto|]. intros [= ->]. by apply Hnil, elem_of_app. }
  assert (Hbl : forall x, blocks (set_list fl o (l1 ++ l2)) ((i, o) :: al) x <-> blocks fl al x).
  { intros [a k]. unfold blocks, in_list. cbn [fst snd]. rewrite Hmem, elem_of_cons. destruct (decide ((a, k) = (i, o))) as [[= -> ->]|Hne]; [|naive_solver].
    split; [intros _; by left|intros _; right; by left]. }
  split; cbn [bpages blinks bnr_free with_blinks].
  - done.
  - intros j Hj. eapply (same_outside_live _ _ (FreeListOf o)); [exact Hd|exact Hout|done|by apply H2].
  - intros o' Ho'. destruct (decide (o' = o)) as [->|Hne]; [unfold set_list; by rewrite decide_True|]. unfold set_list. rewrite decide_False by done.
    eapply dll_same_outside; [by apply H3|exact Hout|]. intros x Hx Hxo.
    apply elem_of_cons in Hx as [->|(j & -> & Hj)%list_elem_of_fmap]; apply elem_of_cons in Hxo as [[= E]|(j' & E & Hj')%list_elem_of_fmap]; try done.
    injection E as <-. apply Hne. eapply one_list; [exact Hi|done|exact Hj|]. left. split; [done|]. cbn. rewrite El. apply elem_of_app in Hj' as [?|?]; apply elem_of_app; [by left|right; by right].
  - done.
  - split; [|done]. rewrite total_set by done. rewrite granted_cons, El, !length_app. cbn [length snd]. lia.
  - by eapply tiling_ext.
  - intros [a k] [Hk Ha] [E|Hal]%elem_of_cons; cbn in Hk, Ha; apply Hmem in Ha as [Ha Hne]; [done|]. by apply (H7 (a, k)).
  - apply NoDup_cons. split; [by apply H7|done].
  - intros [a k] q [Hk Ha] Hq. cbn in Hk, Ha. apply Hmem in Ha as [Ha _]. by apply (H9 (a, k)).
  - intros x q [->|Hx]%elem_of_cons Hq; [right; by left|]. destruct (H10 x q Hx Hq) as [?|?]; [by left|right; by right].
  - intros j q Hj Hf. destruct (H11 j q Hj Hf) as [?|[[Hk Ha]|Hs]]; [left; by right| |].
    + destruct (decide ((j, property q) = (i, o))) as [[= -> _]|Hne]; [left; by left|]. right. left. split; [done|]. cbn. by apply Hmem.
    + right. right. eapply stale_ext; [|exact Hs]. intros x. by apply Hbl.
Qed.

(** ** Granted blocks change *)
Lemma retile hand hand' s fl al al' :
  binv npg n0 hand s fl al -> tiling npg (blocks fl al') -> NoDup al' -> granted al' = granted al -> (forall x, in_list fl x -> x ∉ al') ->
  (forall x p, x ∈ al' -> bpages s !! x.1 = Some p -> PageProperty p = false \/ x.1 ∈ hand') ->
  (forall i p, bpages s !! i = Some p -> PageProperty p = true -> i ∈ hand \/ stale (blocks fl al) i (property p) ->
    i ∈ hand' \/ stale (blocks fl al') i (property p)) ->
  binv npg n0 hand' s fl al'.
Proof.
  intros [H1 H2 H3 H4 [H5 H5'] H6 H7 H8 H9 H10 H11] Ht Hnd Hg Hsplit Hgr Hst. split; try done.
  - by rewrite Hg.
  - intros i p Hi Hf. destruct (H11 i p Hi Hf) as [?|[?|?]]; [|by right; left|]; (destruct (Hst i p Hi Hf) as [?|?]; [auto|by left|by right; right]).
Qed.

Lemma halve hand s fl al a k :
  0 <= k -> binv npg n0 hand s fl ((a, k + 1) :: al) -> binv npg n0 (a :: a + 2 ^ k :: hand) s fl ((a + 2 ^ k, k) :: (a, k) :: al).
Proof.
  intros Hk Hi. assert (Hb : blocks fl ((a, k + 1) :: al) (a, k + 1)) by (right; by left). pose proof (pow2_pos k Hk) as Hpk. pose proof (pow2_S k Hk) as HSk.
  pose proof (bi_tiling _ _ _ _ _ _ Hi) as Ht. pose proof (bi_nodup _ _ _ _ _ _ Hi) as [Hna Hnd]%NoDup_cons.
  assert (Hnew : forall x, x = (a, k) \/ x = (a + 2 ^ k, k) -> ~ blocks fl ((a, k + 1) :: al) x).
  { intros x Hx HBx. assert (bcov x x.1 /\ bcov (a, k + 1) x.1) as [Hc1 Hc2] by (unfold bcov; destruct Hx as [->| ->]; cbn; lia).
    pose proof (tl_disjoint _ _ Ht _ _ _ HBx Hb Hc1 Hc2) as ->. destruct Hx as [[=]|[=]]; lia. }
  assert (Hbl : forall x, blocks fl ((a + 2 ^ k, k) :: (a, k) :: al) x <-> halved (blocks fl ((a, k + 1) :: al)) a k x).
  { intros x. unfold halved, blocks. rewrite !elem_of_cons. split.
    - intros [Hx|[->|[->|Hx]]]; auto; left; (split; [tauto|]); intros ->; [|done]. by apply (bi_split _ _ _ _ _ _ Hi (a, k + 1) Hx); left.
    - intros [[[?|[->|?]] ?]|[->| ->]]; auto; done. }
  eapply retile; [exact Hi| | | | | |].
  - eapply tiling_ext; [exact Hbl|]. by apply halved_tiling.
  - apply NoDup_cons. split; [|apply NoDup_cons; split; [|done]].
    + rewrite elem_of_cons. intros [[= ?]|?]; [lia|]. apply (Hnew (a + 2 ^ k, k)); [by right|]. right. by right.
    + intros ?. apply (Hnew (a, k)); [by left|]. right. by right.
  - rewrite !granted_cons. cbn [snd]. lia.
  - intros x Hx. rewrite !elem_of_cons. intros [->|[->|Hin]]; [by apply (Hnew (a + 2 ^ k, k)); [right|left]|by apply (Hnew (a, k)); [left|left]|].
    apply (bi_split _ _ _ _ _ _ Hi x Hx). by right.
  - intros x p Hx Hp. rewrite !elem_of_cons in Hx. destruct Hx as [->|[->|Hx]]; [right; right; by left|right; by left|].
    destruct (bi_granted _ _ _ _ _ _ Hi x p) as [?|?]; [by right|done|by left|right; right; by right].
  - intros i p _ _ [?|Hs]; [left; right; by right|]. destruct (halved_stale _ a k i _ Hk Hb Hs) as [->|Hs']; [left; right; by left|right].
    eapply stale_ext; [|exact Hs']. intros x. by apply Hbl.
Qed.

Lemma join hand hand' s fl al a k :
  0 <= k < MAX_ORDER - 1 -> binv npg n0 hand s fl ((a, k) :: (a + 2 ^ k, k) :: al) -> (forall x, x ∈ hand -> x = a \/ x = a + 2 ^ k \/ x ∈ hand') ->
  (forall p, bpages s !! (a + 2 ^ k) = Some p -> PageProperty p = true -> stale (joined_at (blocks fl ((a, k) :: (a + 2 ^ k, k) :: al)) a k) (a + 2 ^ k) (property p)) ->
  binv npg n0 (a :: hand') s fl ((a, k + 1) :: al).
Proof.
  intros Hk Hi Hhand Hup. pose proof (pow2_pos k ltac:(lia)) as Hpk. pose proof (pow2_S k ltac:(lia)) as HSk. set (al0 := (a, k) :: (a + 2 ^ k, k) :: al) in *.
  assert (Ha : blocks fl al0 (a, k)) by (right; by left). assert (Ha' : blocks fl al0 (a + 2 ^ k, k)) by (right; right; by left).
  pose proof (bi_tiling _ _ _ _ _ _ Hi) as Ht. pose proof (bi_nodup _ _ _ _ _ _ Hi) as [Hna [Hna' Hnd]%NoDup_cons]%NoDup_cons. rewrite not_elem_of_cons in Hna.
  assert (Hnew : ~ blocks fl al0 (a, k + 1)) by (intros Hb; pose proof (same_head _ _ _ _ _ Ht Ha Hb); lia).
  assert (Hbl : forall x, blocks fl ((a, k + 1) :: al) x <-> joined_at (blocks fl al0) a k x).
  { intros x. unfold joined_at, blocks, al0. rewrite !elem_of_cons. split.
    - intros [Hx|[->|Hx]]; auto; left; (split; [tauto|]); (split; intros ->); try tauto; apply (bi_split _ _ _ _ _ _ Hi _ Hx); [by left|right; by left].
    - intros [([?|[->|[->|?]]] & ? & ?)| ->]; auto; done. }
  eapply retile; [exact Hi| | | | | |].
  - eapply tiling_ext; [exact Hbl|]. by apply joined_tiling.
  - apply NoDup_cons. split; [|done]. intros Hin. apply Hnew. right. right. by right.
  - unfold al0. rewrite !granted_cons. cbn [snd]. lia.
  - intros x Hx [->|Hin]%elem_of_cons; [apply Hnew; by left|]. apply (bi_split _ _ _ _ _ _ Hi x Hx). right. by right.
  - intros x p [->|Hx]%elem_of_cons Hp; [right; by left|]. destruct (bi_granted _ _ _ _ _ _ Hi x p) as [?|Hh]; [right; by right|done|by left|].
    right. assert (Hxb : blocks fl al0 x) by (right; right; by right). destruct x as [b j]. cbn in Hh |- *. destruct (Hhand _ Hh) as [->|[->|?]]; [by left| |by right].
    pose proof (same_head _ _ _ _ _ Ht Ha' Hxb) as ->. done.
  - intros i p Hp Hf Hc. destruct (decide (i = a)) as [->|Hia]; [left; by left|]. destruct (decide (i = a + 2 ^ k)) as [->|Hiu].
    + right. eapply stale_ext; [|exact (Hup p Hp Hf)]. intros x. by apply Hbl.
    + destruct Hc as [Hh|Hs]; [destruct (Hhand _ Hh) as [?|[?|?]]; [done|done|left; by right]|right].
      apply (stale_ext _ _ i _ (fun x => proj2 (Hbl x))). by apply (joined_stale npg _ a k); [lia|..].
Qed.

(** The granted block's own flag goes off. *)
Lemma clear_run s fl al i o :
  binv npg n0 [i] s fl ((i, o) :: al) -> exists s', upd_bpage s i ClearPageProperty = Ok s' /\ binv npg n0 [] s' fl ((i, o) :: al).
Proof.
  intros Hi. assert (Hb : blocks fl ((i, o) :: al) (i, o)) by (right; by left). destruct (block_page _ _ _ _ _ Hi Hb) as (Ho & Hpg & p & Hp). cbn [fst snd] in *.
  rewrite (upd_bpage_ok _ _ _ _ Hp). eexists. split; [done|]. pose proof Hi as [H1 H2 H3 H4 H5 H6 H7 H8 H9 H10 H11]. split; cbn [bpages blinks bnr_free]; try done.
  - intros j. rewrite lookup_insert_is_Some, H1. destruct (decide (j = i)) as [->|]; [tauto|]. naive_solver.
  - intros [a k] q Hx Hq. cbn in Hq. rewrite lookup_insert_ne in Hq; [by apply (H9 (a, k))|]. intros <-. destruct Hx as [Hk Hx]. cbn in *.
    assert (k = o) as -> by (by eapply one_list). apply (H7 (i, o)); [by split|by left].
  - intros x q Hx Hq. left. destruct (decide (x.1 = i)) as [E|Hne].
    + rewrite E, lookup_insert_eq in Hq. injection Hq as <-. apply PageProperty_clear.
    + rewrite lookup_insert_ne in Hq by done. destruct (H10 x q Hx Hq) as [?|Hin]; [done|]. by apply list_elem_of_singleton in Hin.
  - intros j q Hj Hf. destruct (decide (j = i)) as [->|Hne].
    + rewrite lookup_insert_eq in Hj. injection Hj as <-. by rewrite PageProperty_clear in Hf.
    + rewrite lookup_insert_ne in Hj by done. destruct (H11 j q Hj Hf) as [Hin|?]; [by apply list_elem_of_singleton in Hin|by right].
Qed.
End Steps.

(** * The loops of the code *)

(** The order of a request: the least whose blocks are large enough. *)
Definition fits (n o : Z) : Prop := 0 <= o /\ n <= 2 ^ o /\ (o = 0 \/ 2 ^ (o - 1) < n).

Lemma fits_unique n o o' : fits n o -> fits n o' -> o = o'.
Proof.
  assert (Hlt : forall x y, fits n x -> fits n y -> x < y -> False).
  { intros x y (Hx0 & Hx & _) (_ & _ & [->|Hy]) Hxy; [lia|]. pose proof (Z.pow_le_mono_r 2 x (y - 1)). lia. }
  intros H H'. destruct (Z.lt_trichotomy o o') as [Hl|[?|Hl]]; [|done|]; exfalso; [exact (Hlt _ _ H H' Hl)|exact (Hlt _ _ H' H Hl)].
Qed.

Lemma shiftl_1 o : 0 <= o -> Z.shiftl 1 o = 2 ^ o.
Proof. intros Ho. by rewrite Z.shiftl_mul_pow2, Z.mul_1_l. Qed.

Lemma alloc_order_run n : 0 < n -> exists o, loop (alloc_order_step n) orders_fuel 0 = Ok o /\ 0 <= o <= MAX_ORDER /\ (o < MAX_ORDER -> fits n o) /\ (o = MAX_ORDER -> 2 ^ (MAX_ORDER - 1) < n).
Proof.
  intros Hn. apply (loop_total (alloc_order_step n) (fun o => 0 <= o <= MAX_ORDER /\ (o = 0 \/ 2 ^ (o - 1) < n)) _ (fun o => Z.to_nat (MAX_ORDER - o))); [|split; [by split|by left]|vm_compute; lia].
  intros o [Ho Hlow]. unfold alloc_order_step. rewrite shiftl_1 by lia. destruct (Z.ltb_spec (2 ^ o) n) as [Hlt|Hge]; cbn [andb].
  - destruct (Z.ltb_spec o MAX_ORDER) as [Hm|Hm]; [left|right].
    + exists (o + 1). split; [done|]. split; [split; [lia|right; by replace (o + 1 - 1) with o by lia]|lia].
    + exists o. split; [done|]. assert (o = MAX_ORDER) as -> by lia. split; [done|]. split; [lia|]. intros _. by destruct Hlow.
  - right. exists o. split; [done|]. split; [done|]. split; [intros _; by split; [lia|]|]. intros ->. by destruct Hlow.
Qed.

Lemma free_order_run n o : fits n o -> o < MAX_ORDER -> loop (free_order_step n) orders_fuel 0 = Ok o.
Proof.
  intros Hf Ho. destruct (loop_total (free_order_step n) (fun k => 0 <= k <= o) (fun k => k = o) (fun k => Z.to_nat (MAX_ORDER - k))) with (fuel := orders_fuel) (a := 0) as (k & Hk & ->); [|split; [done|apply Hf]|vm_compute; lia|done].
  intros k Hk. unfold free_order_step. unfold MAX_ORDER in *. rewrite (proj2 (Z.leb_gt _ _)) by lia. rewrite shiftl_1 by lia. destruct Hf as (_ & H1 & H2).
  destruct (Z.ltb_spec (2 ^ k) n) as [Hlt|Hge]; [left|right].
  - exists (k + 1). split; [done|]. split; [|lia]. split; [lia|]. destruct (decide (k = o)) as [->|]; lia.
  - exists k. split; [done|]. destruct (decide (k = o)) as [|Hne]; [done|exfalso]. destruct H2 as [->|H2]; [lia|]. pose proof (Z.pow_le_mono_r 2 k (o - 1)). lia.
Qed.

(** Frames that are free. *)
Definition free_cov (fl : Z -> list Z) (i : Z) : Prop := exists x, in_list fl x /\ bcov x i.

Section Loops.
Context (npg n0 : Z).
Implicit Types (s : buddy_free_area) (fl : Z -> list Z) (al : list block) (hand : list Z).

Lemma scan_run hand s fl al o : binv npg n0 hand s fl al -> 0 <= o <= MAX_ORDER ->
  exists cur, loop (scan_step s) orders_fuel o = Ok cur /\ o <= cur <= MAX_ORDER /\ (forall k, o <= k < cur -> fl k = []) /\ (cur < MAX_ORDER -> fl cur <> []).
Proof.
  intros Hi Ho. apply (loop_total (scan_step s) (fun cur => o <= cur <= MAX_ORDER /\ forall k, o <= k < cur -> fl k = []) _ (fun cur => Z.to_nat (MAX_ORDER - cur))); [|split; [lia|lia]|unfold orders_fuel, MAX_ORDER in *; lia].
  intros cur [Hc Hem]. unfold scan_step. destruct (Z.ltb_spec cur MAX_ORDER) as [Hlt|Hge].
  - rewrite (list_empty_dll _ _ _ (bi_dll _ _ _ _ _ _ Hi cur ltac:(lia))). cbn [mbind res_bind]. destruct (fl cur) as [|a l] eqn:E.
    + left. exists (cur + 1). split; [done|]. split; [split; [lia|]|lia]. intros k Hk. destruct (decide (k = cur)) as [->|]; [done|]. apply Hem. lia.
    + right. exists cur. cbn [fmap list_fmap]. rewrite bool_decide_false by done. split; [done|]. split; [done|]. split; [done|]. intros _. by rewrite E.
  - right. exists cur. split; [done|]. split; [done|]. split; [done|]. lia.
Qed.

Lemma free_cov_put fl i o x : 0 <= o < MAX_ORDER -> free_cov (set_list fl o (i :: fl o)) x <-> free_cov fl x \/ bcov (i, o) x.
Proof.
  intros Ho. unfold free_cov, in_list, set_list. split.
  - intros ([a k] & [Hk Hin] & Hc). cbn [fst snd] in *. destruct (decide (k = o)) as [->|Hne]; [|left; by exists (a, k)].
    apply elem_of_cons in Hin as [->|Hin]; [by right|left; by exists (a, o)].
  - intros [([a k] & [Hk Hin] & Hc)|Hc]; [exists (a, k)|exists (i, o)]; (split; [split; [done|]|done]); cbn [fst snd] in *.
    + destruct (decide (k = o)) as [->|]; [by right|done].
    + rewrite decide_True by done. by left.
Qed.

Lemma free_cov_take fl i o l1 l2 x : 0 <= o < MAX_ORDER -> fl o = l1 ++ i :: l2 -> free_cov fl x <-> free_cov (set_list fl o (l1 ++ l2)) x \/ bcov (i, o) x.
Proof.
  intros Ho El. unfold free_cov, in_list, set_list. split.
  - intros ([a k] & [Hk Hin] & Hc). cbn [fst snd] in *. destruct (decide (k = o)) as [->|Hne]; [|left; exists (a, k); split; [|done]; split; [done|]; cbn; by rewrite decide_False].
    rewrite El, elem_of_app, elem_of_cons in Hin. destruct (decide (a = i)) as [->|Ha]; [by right|left; exists (a, o)]. split; [|done]. split; [done|]. cbn. rewrite decide_True by done. apply elem_of_app. tauto.
  - intros [([a k] & [Hk Hin] & Hc)|Hc]; [exists (a, k)|exists (i, o)]; (split; [split; [done|]|done]); cbn [fst snd] in *.
    + destruct (decide (k = o)) as [->|]; [|done]. rewrite El, elem_of_app, elem_of_cons. apply elem_of_app in Hin. tauto.
    + rewrite El. apply elem_of_app. right. by left.
Qed.

(** Splitting down to the order asked for. *)
Lemma split_run s fl al a c o :
  binv npg n0 [a] s fl ((a, c) :: al) -> 0 <= o <= c -> c < MAX_ORDER ->
  exists s' fl', loop (split_step a o) orders_fuel (s, c) = Ok s' /\ binv npg n0 [a] s' fl' ((a, o) :: al) /\
    forall i, free_cov fl' i \/ bcov (a, o) i <-> free_cov fl i \/ bcov (a, c) i.
Proof.
  intros Hi Ho Hc. assert (Hloop : exists s', loop (split_step a o) orders_fuel (s, c) = Ok s' /\ exists fl', binv npg n0 [a] s' fl' ((a, o) :: al) /\
    forall i, free_cov fl' i \/ bcov (a, o) i <-> free_cov fl i \/ bcov (a, c) i); [|destruct Hloop as (s' & ? & fl' & ?); by exists s', fl'].
  apply (loop_total (split_step a o) (fun st => exists fl', binv npg n0 [a] st.1 fl' ((a, st.2) :: al) /\ o <= st.2 <= c /\
    forall i, free_cov fl' i \/ bcov (a, st.2) i <-> free_cov fl i \/ bcov (a, c) i) _ (fun st => Z.to_nat st.2)); [|exists fl; split; [done|split; [cbn; lia|done]]|unfold orders_fuel, MAX_ORDER in *; cbn [snd]; lia].
  intros [s1 k] (fl1 & Hi1 & Hk & Hcov). cbn [fst snd] in *. unfold split_step. destruct (Z.ltb_spec o k) as [Hlt|Hge].
  - left. rewrite shiftl_1 by lia. replace k with (k - 1 + 1) in Hi1 at 1 by lia. pose proof (halve npg n0 _ _ _ _ _ (k - 1) ltac:(lia) Hi1) as Hh.
    destruct (put_free_run npg n0 _ [a] s1 fl1 _ (a + 2 ^ (k - 1)) (k - 1) Hh) as (s2 & -> & Hi2); [intros x [->|[->|Hx]%elem_of_cons]%elem_of_cons; [right; by left|by left|right; exact Hx]|].
    cbn [mbind res_bind]. eexists. split; [done|]. cbn [fst snd]. split; [|lia]. eexists. split; [exact Hi2|]. split; [lia|]. intros i. rewrite <- Hcov, free_cov_put by lia.
    pose proof (halves a (k - 1) i ltac:(lia)) as Hhv. rewrite Z.sub_add in Hhv. tauto.
  - right. exists s1. split; [done|]. assert (k = o) as -> by lia. by exists fl1.
Qed.

(** * Allocation *)
Lemma buddy_alloc_run s fl al n :
  binv npg n0 [] s fl al -> 0 < n ->
  (exists s' fl' a o, buddy_alloc_pages s n = Ok (s', Some a) /\ fits n o /\ o < MAX_ORDER /\ binv npg n0 [] s' fl' ((a, o) :: al) /\
    forall i, free_cov fl i <-> free_cov fl' i \/ bcov (a, o) i) \/
  (buddy_alloc_pages s n = Ok (s, None) /\ forall x, in_list fl x -> 2 ^ x.2 < n).
Proof.
  intros Hi Hn. unfold buddy_alloc_pages. rewrite (proj2 (Z.eqb_neq _ _)) by lia. destruct (alloc_order_run n Hn) as (o & -> & Ho & Hfit & Hbig). cbn [mbind res_bind].
  destruct (Z.leb_spec MAX_ORDER o) as [Hm|Hm].
  { right. split; [done|]. intros x [Hx _]. specialize (Hbig ltac:(lia)). pose proof (Z.pow_le_mono_r 2 x.2 (MAX_ORDER - 1)). lia. }
  specialize (Hfit Hm). destruct (scan_run _ _ _ _ o Hi Ho) as (cur & -> & Hcur & Hem & Hne). cbn [mbind res_bind].
  destruct (Z.eqb_spec cur MAX_ORDER) as [->|Hcm].
  { right. split; [done|]. intros [a k] [Hk Hin]. cbn in *. destruct Hfit as (_ & _ & Hlow). destruct (Z.lt_ge_cases k o) as [Hko|Hko]; [|by rewrite (Hem k), elem_of_nil in Hin by lia].
    destruct Hlow as [->|Hlow]; [lia|]. pose proof (Z.pow_le_mono_r 2 k (o - 1)). lia. }
  left. destruct (fl cur) as [|a l] eqn:E; [by destruct Hne; [lia|]|]. pose proof (bi_dll _ _ _ _ _ _ Hi cur ltac:(lia)) as Hd. rewrite E in Hd. cbn in Hd.
  rewrite (proj2 (list_next_ok _ _ _) (dll_next _ _ _ Hd)). cbn [mbind res_bind le2buddy].
  destruct (take_free_run npg n0 [] s fl al a cur [] l Hi ltac:(lia) E) as (s1 & -> & Hi1 & _). cbn [mbind res_bind app] in *.
  destruct (split_run s1 _ al a cur o Hi1) as (s2 & fl2 & -> & Hi2 & Hcov); [lia|lia|]. cbn [mbind res_bind].
  destruct (clear_run npg n0 s2 fl2 al a o Hi2) as (s3 & -> & Hi3). cbn [mbind res_bind]. exists s3, fl2, a, o. split; [done|]. split; [done|]. split; [done|]. split; [done|].
  intros i. rewrite Hcov. apply (free_cov_take fl a cur [] l i ltac:(lia) E).
Qed.
End Loops.

(** * Release *)

(** The buddy's index: the kernel computes with physical addresses, whose base is a
    multiple of the largest block. *)
Lemma pa_index b k : 0 <= b -> 0 <= k < MAX_ORDER -> PPN (Z.lxor (page2pa b) (Z.shiftl 1 (k + 12))) - nbase = Z.lxor b (2 ^ k).
Proof.
  intros Hb Hk. unfold MAX_ORDER in Hk. unfold PPN, page2pa, page2ppn. rewrite <- (Z.shiftl_shiftl 1 k 12) by lia. rewrite <- Z.shiftl_lxor, Z.shiftr_shiftl_l by lia. rewrite Z.shiftl_0_r, shiftl_1 by lia.
  change nbase with (2 ^ 19). rewrite !lxor_pow2 by lia.
  assert (Hbit : Z.testbit (b + 2 ^ 19) k = Z.testbit b k).
  { rewrite <- (Z.mod_pow2_bits_low (b + 2 ^ 19) 19 k), <- (Z.mod_pow2_bits_low b 19 k) by lia. f_equal. rewrite <- (Z.mul_1_l (2 ^ 19)) at 1. by rewrite Z_mod_plus_full. }
  rewrite Hbit. destruct (Z.testbit b k); lia.
Qed.

Lemma lxor_bound npg b k : (2 ^ (MAX_ORDER - 1) | npg) -> 0 <= b < npg -> 0 <= k < MAX_ORDER - 1 -> 0 <= Z.lxor b (2 ^ k) < npg.
Proof.
  intros [q ->] Hb Hk. unfold MAX_ORDER in *. pose proof (pow2_pos k ltac:(lia)). split; [apply Z.lxor_nonneg; lia|].
  assert (Z.shiftr (Z.lxor b (2 ^ k)) 9 = Z.shiftr b 9) as E.
  { rewrite Z.shiftr_lxor, (Z.shiftr_div_pow2 (2 ^ k)) by lia. rewrite (Z.div_small (2 ^ k)); [apply Z.lxor_0_r|]. split; [lia|]. apply Z.pow_lt_mono_r; lia. }
  rewrite !Z.shiftr_div_pow2 in E by lia. change (2 ^ (10 - 1)) with (2 ^ 9) in *. pose proof (Z.div_mod (Z.lxor b (2 ^ k)) (2 ^ 9) ltac:(lia)). pose proof (Z.mod_pos_bound (Z.lxor b (2 ^ k)) (2 ^ 9) ltac:(lia)).
  assert (b / 2 ^ 9 < q) by (apply Z.div_lt_upper_bound; lia). lia.
Qed.

Lemma pa_buddy npg b k : (2 ^ (MAX_ORDER - 1) | npg) -> 0 <= b < npg -> 0 <= k < MAX_ORDER - 1 ->
  pa2page (nbase + npg) (Z.lxor (page2pa b) (Z.shiftl 1 (k + 12))) = Ok (Z.lxor b (2 ^ k)).
Proof.
  intros Hd Hb Hk. pose proof (pa_index b k ltac:(lia) ltac:(lia)) as E. pose proof (lxor_bound npg b k Hd Hb Hk). unfold pa2page. rewrite (proj2 (Z.leb_gt _ _)) by lia. by rewrite E.
Qed.

Section Release.
Context (npg n0 : Z) (Haligned : (2 ^ (MAX_ORDER - 1) | npg)).
Implicit Types (s : buddy_free_area) (fl : Z -> list Z) (al : list block) (hand : list Z).

(** What the flag of the block in hand may say. *)
Definition hand_ok s (b k : Z) : Prop := forall p, bpages s !! b = Some p -> PageProperty p = true -> 0 <= property p < k /\ Z.testbit b (property p) = false.

(** The buddy, if the code takes it for free, is. *)
Lemma buddy_is_free s fl al b k p :
  binv npg n0 [b] s fl ((b, k) :: al) -> bpages s !! Z.lxor b (2 ^ k) = Some p -> PageProperty p = true -> property p = k -> 0 <= k < MAX_ORDER /\ Z.lxor b (2 ^ k) ∈ fl k.
Proof.
  intros Hi Hp Hf Hk. assert (Hb : blocks fl ((b, k) :: al) (b, k)) by (right; by left). destruct (block_page _ _ _ _ _ _ _ Hi Hb) as (Ho & _ & _). cbn [snd] in Ho.
  destruct (bi_flag _ _ _ _ _ _ Hi _ p Hp Hf) as [Hh|[Hin|Hs]].
  - apply list_elem_of_singleton in Hh. rewrite lxor_pow2 in Hh by lia. pose proof (pow2_pos k ltac:(lia)). destruct (Z.testbit b k); lia.
  - rewrite Hk in Hin. exact Hin.
  - exfalso. rewrite Hk in Hs. eapply not_stale; [apply (bi_tiling _ _ _ _ _ _ Hi)|apply Ho|exact Hb|exact Hs].
Qed.

(** Where the pair of the block and its buddy starts. *)
Lemma pair_order b k : 0 <= k -> let i := Z.lxor b (2 ^ k) in
  (if i <? b then i else b) = pair_start k b /\ (b = pair_start k b /\ i = pair_start k b + 2 ^ k /\ Z.testbit b k = false \/ i = pair_start k b /\ b = pair_start k b + 2 ^ k /\ Z.testbit b k = true).
Proof.
  intros Hk. cbn zeta. rewrite lxor_pow2 by done. unfold pair_start. pose proof (pow2_pos k Hk). destruct (Z.testbit b k); [rewrite (proj2 (Z.ltb_lt _ _)) by lia; split; [done|right; lia]|rewrite (proj2 (Z.ltb_ge _ _)) by lia; split; [done|left; lia]].
Qed.

Lemma merge_run s fl al b k :
  0 <= k < MAX_ORDER - 1 -> binv npg n0 [b] s fl ((b, k) :: al) -> hand_ok s b k -> Z.lxor b (2 ^ k) ∈ fl k ->
  exists s' fl', take_free s (LinkOf (Z.lxor b (2 ^ k))) k = Ok s' /\ binv npg n0 [pair_start k b] s' fl' ((pair_start k b, k + 1) :: al) /\
    hand_ok s' (pair_start k b) (k + 1) /\ (forall x, bcov (b, k) x -> bcov (pair_start k b, k + 1) x) /\ (forall x, free_cov fl' x \/ bcov (pair_start k b, k + 1) x <-> free_cov fl x \/ bcov (b, k) x).
Proof.
  intros Hk Hi Hh Hin. set (i := Z.lxor b (2 ^ k)) in *. set (a := pair_start k b). destruct (pair_order b k ltac:(lia)) as [_ Hpo]. fold i a in Hpo.
  pose proof (pow2_pos k ltac:(lia)) as Hpk. pose proof (pow2_S k ltac:(lia)) as HSk.
  pose proof Hin as (l1 & l2 & El)%list_elem_of_split. assert (Hgi : exists p, bpages s !! i = Some p /\ PageProperty p = true /\ property p = k).
  { destruct (block_page _ _ _ _ _ _ (i, k) Hi) as (_ & _ & p & Hp); [left; split; [cbn; lia|done]|]. exists p. split; [done|]. apply (bi_head _ _ _ _ _ _ Hi (i, k)); [split; [cbn; lia|done]|done]. }
  destruct Hgi as (pi & Hpi & Hfi & Hki). destruct (take_free_run npg n0 [b] s fl _ i k l1 l2 Hi ltac:(lia) El) as (s1 & -> & Hi1 & Ep).
  exists s1, (set_list fl k (l1 ++ l2)). split; [done|].
  assert (Hperm : (i, k) :: (b, k) :: al ≡ₚ (a, k) :: (a + 2 ^ k, k) :: al) by (destruct Hpo as [(Eb & Ei & _)|(Ei & Eb & _)]; rewrite Ei, Eb; [constructor|done]).
  assert (Hcov : forall x, bcov (a, k + 1) x <-> bcov (b, k) x \/ bcov (i, k) x).
  { intros x. rewrite (halves a k x) by lia. destruct Hpo as [(Eb & Ei & _)|(Ei & Eb & _)]; rewrite Ei, Eb; [done|tauto]. }
  pose proof (binv_perm npg n0 _ _ _ _ _ Hperm Hi1) as Hi2. split; [|split; [|split]].
  - apply (join npg n0 _ [] s1 _ al a k Hk Hi2).
    + intros x [->|[->|[]%elem_of_nil]%elem_of_cons]%elem_of_cons; destruct Hpo as [(Eb & Ei & _)|(Ei & Eb & _)]; auto.
    + rewrite Ep. intros p Hp Hf. destruct Hpo as [(Eb & Ei & Hbit)|(Ei & Eb & Hbit)].
      * rewrite <- Ei in *. assert (p = pi) as -> by congruence. split; [lia|]. exists a, (k + 1). split; [by right|].
        assert (Hps : pair_start k i = a) by (unfold pair_start; unfold i at 1; rewrite testbit_lxor_pow2, Hbit by lia; cbn; lia).
        rewrite Hki, Hps. split; [lia|]. split; [lia|]. split; [rewrite Z.sub_diag; apply Z.divide_0_r|lia].
      * rewrite <- Eb in *. destruct (Hh p Hp Hf) as [Hpr Hbf]. split; [lia|]. exists a, (k + 1). split; [by right|].
        assert (Hps : pair_start (property p) b = b) by (unfold pair_start; by rewrite Hbf). rewrite Hps. pose proof (Z.pow_le_mono_r 2 (property p + 1) k ltac:(lia) ltac:(lia)).
        split; [lia|]. split; [lia|]. split; [|lia]. replace (b - a) with (2 ^ k) by lia. exists (2 ^ (k - (property p + 1))). rewrite <- Z.pow_add_r by lia. f_equal. lia.
  - intros p Hp Hf. rewrite Ep in Hp. destruct Hpo as [(Eb & Ei & Hbit)|(Ei & Eb & Hbit)].
    + rewrite <- Eb in *. destruct (Hh p Hp Hf) as [? ?]. split; [lia|done].
    + rewrite <- Ei in *. assert (p = pi) as -> by congruence. rewrite Hki. split; [lia|]. unfold i. rewrite testbit_lxor_pow2, Hbit by lia. done.
  - intros x Hx. apply Hcov. by left.
  - intros x. rewrite Hcov. rewrite (free_cov_take fl i k l1 l2 x ltac:(lia) El). tauto.
Qed.

(** The loop of [buddy_free_pages] merges as long as there is a free buddy. *)
Lemma merge_loop s fl al b k :
  binv npg n0 [b] s fl ((b, k) :: al) -> hand_ok s b k ->
  exists s' a o, loop (merge_step (nbase + npg)) orders_fuel (s, b, k) = Ok (s', a, o) /\
    exists fl', binv npg n0 [a] s' fl' ((a, o) :: al) /\ (forall x, free_cov fl' x \/ bcov (a, o) x <-> free_cov fl x \/ bcov (b, k) x) /\
      (o = MAX_ORDER - 1 \/ Z.lxor a (2 ^ o) ∉ fl' o) /\ forall x, bcov (b, k) x -> bcov (a, o) x.
Proof.
  intros Hi Hh. assert (Hloop : exists r, loop (merge_step (nbase + npg)) orders_fuel (s, b, k) = Ok r /\
    exists fl', binv npg n0 [r.1.2] r.1.1 fl' ((r.1.2, r.2) :: al) /\ (forall x, free_cov fl' x \/ bcov (r.1.2, r.2) x <-> free_cov fl x \/ bcov (b, k) x) /\ (r.2 = MAX_ORDER - 1 \/ Z.lxor r.1.2 (2 ^ r.2) ∉ fl' r.2) /\ forall x, bcov (b, k) x -> bcov (r.1.2, r.2) x);
    [|destruct Hloop as ([[s' a] o] & ? & ?); by exists s', a, o].
  assert (Hord : forall s1 fl1 b1 k1, binv npg n0 [b1] s1 fl1 ((b1, k1) :: al) -> 0 <= k1 < MAX_ORDER /\ 0 <= b1 < npg).
  { intros s1 fl1 b1 k1 Hi1. destruct (block_page _ _ _ _ _ _ (b1, k1) Hi1) as (? & ? & _); [right; by left|done]. }
  apply (loop_total (merge_step (nbase + npg)) (fun st => exists fl', binv npg n0 [st.1.2] st.1.1 fl' ((st.1.2, st.2) :: al) /\ hand_ok st.1.1 st.1.2 st.2 /\
    (forall x, free_cov fl' x \/ bcov (st.1.2, st.2) x <-> free_cov fl x \/ bcov (b, k) x) /\ forall x, bcov (b, k) x -> bcov (st.1.2, st.2) x) _ (fun st => Z.to_nat (MAX_ORDER - st.2)));
    [|exists fl; by split_and!|destruct (Hord _ _ _ _ Hi); unfold orders_fuel, MAX_ORDER in *; cbn [snd]; lia].
  intros [[s1 b1] k1] (fl1 & Hi1 & Hh1 & Hcov & Hinc). cbn [fst snd] in *. destruct (Hord _ _ _ _ Hi1) as [Hk1 Hb1]. unfold merge_step.
  destruct (Z.ltb_spec k1 (MAX_ORDER - 1)) as [Hlt|Hge].
  2: { right. eexists. split; [done|]. exists fl1. cbn [fst snd]. split; [done|]. split; [done|]. split; [left; lia|done]. }
  rewrite (pa_buddy npg b1 k1 Haligned Hb1 ltac:(lia)). cbn [mbind res_bind]. destruct (proj2 (bi_pages _ _ _ _ _ _ Hi1 (Z.lxor b1 (2 ^ k1)))) as [p Hp]; [by apply lxor_bound; [| |lia]|].
  rewrite (deref_some _ _ _ Hp). cbn [mbind res_bind]. destruct (PageProperty p) eqn:Hf; cbn [negb orb]; [destruct (Z.eqb_spec (property p) k1) as [Hpk|Hpk]; cbn [negb]|].
  - left. destruct (buddy_is_free s1 fl1 al b1 k1 p Hi1 Hp Hf Hpk) as [_ Hin]. destruct (merge_run s1 fl1 al b1 k1 ltac:(lia) Hi1 Hh1 Hin) as (s2 & fl2 & -> & Hi2 & Hh2 & Hinc2 & Hcov2).
    cbn [mbind res_bind]. rewrite (proj1 (pair_order b1 k1 ltac:(lia))). eexists. split; [done|]. cbn [fst snd]. split; [|lia]. exists fl2. split; [done|]. split; [done|]. split; [intros x; by rewrite Hcov2|]. intros x Hx. by apply Hinc2, Hinc.
  - right. eexists. split; [done|]. exists fl1. cbn [fst snd]. split; [done|]. split; [done|]. split; [right|done]. intros Hin.
    destruct (bi_head _ _ _ _ _ _ Hi1 (Z.lxor b1 (2 ^ k1), k1) p) as [_ E]; [by split|done|done].
  - right. eexists. split; [done|]. exists fl1. cbn [fst snd]. split; [done|]. split; [done|]. split; [right|done]. intros Hin.
    destruct (bi_head _ _ _ _ _ _ Hi1 (Z.lxor b1 (2 ^ k1), k1) p) as [E _]; [by split|done|congruence].
Qed.

Lemma buddy_free_run s fl al b o n :
  binv npg n0 [] s fl ((b, o) :: al) -> 0 < n -> fits n o ->
  exists s' fl' a k, buddy_free_pages (nbase + npg) s b n = Ok s' /\ binv npg n0 [] s' fl' al /\ (forall x, free_cov fl' x <-> free_cov fl x \/ bcov (b, o) x) /\
    in_list fl' (a, k) /\ (forall x, bcov (b, o) x -> bcov (a, k) x) /\ (k = MAX_ORDER - 1 \/ ~ in_list fl' (Z.lxor a (2 ^ k), k)).
Proof.
  intros Hi Hn Hfit. destruct (block_page _ _ _ _ _ _ (b, o) Hi) as (Ho & Hb & pb & Hpb); [right; by left|]. cbn [fst snd] in *.
  unfold buddy_free_pages. rewrite (proj2 (Z.ltb_lt _ _) Hn). cbn [c_assert mbind res_bind]. rewrite (free_order_run n o Hfit ltac:(lia)). cbn [mbind res_bind].
  assert (Hi1 : binv npg n0 [b] s fl ((b, o) :: al)).
  { destruct Hi as [H1 H2 H3 H4 H5 H6 H7 H8 H9 H10 H11]. split; try done; [intros x p Hx Hp; destruct (H10 x p Hx Hp) as [?|[]%elem_of_nil]; by left|].
    intros i p Hp Hf. destruct (H11 i p Hp Hf) as [[]%elem_of_nil|?]; by right. }
  assert (Hh : hand_ok s b o).
  { intros p Hp Hf. exfalso. destruct (bi_granted _ _ _ _ _ _ Hi (b, o) p) as [E|[]%elem_of_nil]; [by left|done|congruence]. }
  destruct (merge_loop s fl al b o Hi1 Hh) as (s1 & a & k & -> & fl1 & Hi2 & Hcov & Hmax & Hinc). cbn [mbind res_bind].
  destruct (put_free_run npg n0 [a] [] s1 fl1 al a k Hi2) as (s2 & -> & Hi3); [by intros x ->%list_elem_of_singleton; left|].
  destruct (block_page _ _ _ _ _ _ (a, k) Hi2) as (Hk & _ & _); [right; by left|]. cbn [snd] in Hk. pose proof (pow2_pos k ltac:(lia)).
  assert (Hcovs : forall x, free_cov (set_list fl1 k (a :: fl1 k)) x <-> free_cov fl x \/ bcov (b, o) x) by (intros x; rewrite free_cov_put by lia; apply Hcov).
  exists s2, (set_list fl1 k (a :: fl1 k)), a, k. split; [done|]. split; [done|]. split; [done|]. split; [split; [done|cbn; unfold set_list; rewrite decide_True by done; by left]|].
  split; [done|]. destruct Hmax as [?|Hmax]; [by left|right]. intros [_ Hin]. cbn in Hin. unfold set_list in Hin. rewrite decide_True in Hin by done.
  apply elem_of_cons in Hin as [E|Hin]; [|done]. rewrite lxor_pow2 in E by lia. destruct (Z.testbit a k); lia.
Qed.
End Release.
