(* ===== verification/BuddyClient.v ===== *)
(** The buddy allocator from boot on, and its clients. *)
From S2P Require Import Prelude Lists Page PageTable Buddy BuddySpec.

(** * Boot *)

(** [page_init] has marked every page reserved; the list heads are anywhere in memory. *)
Record boot_ok (npg : Z) (s : buddy_free_area) : Prop := BootOk {
  bo_pages i : is_Some (bpages s !! i) <-> 0 <= i < npg;
  bo_reserved i p : bpages s !! i = Some p -> PageReserved p = true /\ PageProperty p = false;
  bo_links i : 0 <= i < npg -> is_Some (blinks s !! LinkOf i);
  bo_heads o : 0 <= o < MAX_ORDER -> is_Some (blinks s !! FreeListOf o);
  bo_nr : length (bnr_free s) = Z.to_nat MAX_ORDER
}.

Definition no_lists (_ : Z) : list Z := [].

(** Pages without flags, lists without pages. *)
Definition cleared (npg : Z) (s : buddy_free_area) : Prop :=
  (forall i, is_Some (bpages s !! i) <-> 0 <= i < npg) /\ (forall i p, bpages s !! i = Some p -> PageProperty p = false) /\
  (forall i, 0 <= i < npg -> is_Some (blinks s !! LinkOf i)) /\ (forall o, 0 <= o < MAX_ORDER -> dll (blinks s) (FreeListOf o) []) /\ bnr_free s = replicate (Z.to_nat MAX_ORDER) 0.

Lemma cleared_binv npg s : cleared npg s -> binv npg 0 [] s no_lists [].
Proof.
  intros (H1 & H2 & H3 & H4 & H5). assert (Hno : forall x, ~ in_list no_lists x) by (intros x [_ []%elem_of_nil]).
  assert (Hnb : forall x, ~ blocks no_lists [] x) by (intros x [Hx|[]%elem_of_nil]; by apply (Hno x)).
  split; try done.
  - split; [intros x Hx; by destruct (Hnb x)|intros x y i Hx; by destruct (Hnb x)].
  - intros x Hx. by destruct (Hno x).
  - constructor.
  - intros x p Hx. by destruct (Hno x).
  - intros x p []%elem_of_nil.
  - intros i p Hi Hf. rewrite (H2 i p Hi) in Hf. discriminate.
Qed.

Lemma init_from npg s i n :
  0 <= i -> i + Z.of_nat n = MAX_ORDER -> boot_ok npg s ->
  (forall o, 0 <= o < i -> dll (blinks s) (FreeListOf o) [] /\ bnr_free s !! Z.to_nat o = Some 0) ->
  exists s', buddy_init_from s i n = Ok s' /\ bpages s' = bpages s /\ boot_ok npg s' /\ forall o, 0 <= o < MAX_ORDER -> dll (blinks s') (FreeListOf o) [] /\ bnr_free s' !! Z.to_nat o = Some 0.
Proof.
  revert s i. induction n as [|n IH]; intros s i Hi Hn Hb Hdone; cbn [buddy_init_from]; [exists s; split_and!; [done..|]; intros o Ho; apply Hdone; lia|].
  destruct Hb as [H1 H2 H3 H4 H5]. destruct (list_init_dll (blinks s) (FreeListOf i) (H4 i ltac:(lia))) as (h & -> & Hd & Hout). cbn [mbind res_bind].
  destruct (lookup_lt_is_Some_2 (bnr_free s) (Z.to_nat i)) as [v Hv]; [lia|]. unfold upd_nr, nr_at. cbn [bnr_free with_blinks]. rewrite (proj2 (Z.ltb_ge _ _)), Hv by lia. cbn [mbind res_bind with_blinks bpages blinks bnr_free].
  destruct (IH (BuddyArea (bpages s) h (<[Z.to_nat i := u32 0]> (bnr_free s))) (i + 1)) as (s' & E & Hp & Hs'); [lia|lia| | |by exists s'].
  - split; cbn [bpages blinks bnr_free]; try done; [intros j Hj; rewrite Hout; [by apply H3|by intros [=]%list_elem_of_singleton]| |by rewrite length_insert].
    intros o Ho. destruct (decide (o = i)) as [->|Hne]; [by eapply dll_live; [exact Hd|left]|]. rewrite Hout; [by apply H4|]. intros [= ?]%list_elem_of_singleton. done.
  - intros o Ho. cbn [bpages blinks bnr_free]. destruct (decide (o = i)) as [->|Hne]; [split; [done|]; rewrite list_lookup_insert_eq by lia; done|].
    destruct (Hdone o ltac:(lia)) as [Hdo Hno]. split; [|rewrite list_lookup_insert_ne by lia; done]. eapply dll_same_outside; [exact Hdo|exact Hout|].
    intros x ->%list_elem_of_singleton [= ?]%list_elem_of_singleton. done.
Qed.

Lemma buddy_init_run npg s : boot_ok npg s -> exists s', buddy_init s = Ok s' /\ bpages s' = bpages s /\ cleared npg s'.
Proof.
  intros Hb. destruct (init_from npg s 0 (Z.to_nat MAX_ORDER) ltac:(lia) ltac:(done) Hb ltac:(lia)) as (s' & E & Hp & [H1 H2 H3 H4 H5] & Hd). exists s'. split; [done|]. split; [done|].
  split; [done|]. split; [intros i p Hi; by apply (H2 i)|]. split; [done|]. split; [intros o Ho; by apply Hd|].
  apply list_eq. intros j. destruct (decide (j < Z.to_nat MAX_ORDER)%nat) as [Hj|Hj].
  - rewrite lookup_replicate_2 by done. destruct (Hd (Z.of_nat j)) as [_ E']; [lia|]. by rewrite Nat2Z.id in E'.
  - rewrite !lookup_ge_None_2; [done|rewrite length_replicate; lia|lia].
Qed.

Lemma buddy_memmap_pages_run npg s p n :
  cleared npg s -> (forall j, p <= j < p + Z.of_nat n -> exists pg, bpages s !! j = Some pg /\ PageReserved pg = true) ->
  exists s', buddy_memmap_pages s p n = Ok s' /\ cleared npg s'.
Proof.
  revert s p. induction n as [|n IH]; intros s p Hc Hres; cbn [buddy_memmap_pages]; [by exists s|]. destruct (Hres p ltac:(lia)) as (pg & Hpg & Hr).
  rewrite (deref_some _ _ _ Hpg). cbn [mbind res_bind]. rewrite Hr. cbn [c_assert mbind res_bind]. rewrite (upd_bpage_ok _ _ _ _ Hpg). cbn [mbind res_bind].
  destruct Hc as (H1 & H2 & H3 & H4 & H5). apply IH.
  - split; [|split; [|done]]; cbn [bpages].
    + intros i. rewrite lookup_insert_is_Some, H1. destruct (decide (i = p)) as [->|]; [|naive_solver]. assert (0 <= p < npg) by (apply H1; eauto). tauto.
    + intros i q Hi. destruct (decide (i = p)) as [->|Hne]; [rewrite lookup_insert_eq in Hi; injection Hi as <-; apply PageProperty_clear|]. rewrite lookup_insert_ne in Hi by done. by eapply H2.
  - intros j Hj. cbn [bpages]. rewrite lookup_insert_ne by lia. apply Hres. lia.
Qed.

Lemma shrink_run o n : 0 < n -> exists k, shrink_order o n = Ok k /\ 0 <= k <= Z.of_nat o /\ 2 ^ k <= n.
Proof.
  intros Hn. induction o as [|o IH]; cbn [shrink_order].
  - change (Z.shiftl 1 (Z.of_nat 0)) with 1. rewrite (proj2 (Z.ltb_ge _ _)) by lia. exists 0. split; [done|]. cbn. lia.
  - rewrite shiftl_1 by lia. destruct (Z.ltb_spec n (2 ^ Z.of_nat (S o))) as [Hlt|Hge]; [|by exists (Z.of_nat (S o)); split_and!; [|lia|lia|]].
    destruct IH as (k & -> & Hk & Hle). exists k. split; [done|]. lia.
Qed.

(** A region that no block covers becomes a granted block. *)
Lemma add_block npg n0 s fl al i o :
  binv npg n0 [] s fl al -> 0 <= o < MAX_ORDER -> 0 <= i -> i + 2 ^ o <= npg -> n0 + 2 ^ o < 2 ^ 32 -> (forall x j, blocks fl al x -> bcov x j -> ~ bcov (i, o) j) ->
  binv npg (n0 + 2 ^ o) [i] s fl ((i, o) :: al).
Proof.
  intros Hi Ho H0 Hle Hn Hdis. pose proof (pow2_pos o ltac:(lia)) as Hpo. pose proof Hi as [H1 H2 H3 H4 [H5 H5'] H6 H7 H8 H9 H10 H11].
  assert (Hbl : forall x, blocks fl ((i, o) :: al) x <-> blocks fl al x \/ x = (i, o)) by (intros x; unfold blocks; rewrite elem_of_cons; tauto).
  assert (Hnew : ~ blocks fl al (i, o)) by (intros Hb; apply (Hdis _ i Hb); unfold bcov; cbn; lia).
  split; try done.
  - rewrite granted_cons. cbn [snd]. lia.
  - split.
    + intros x Hx%Hbl. destruct Hx as [Hx| ->]; [by apply (tl_in _ _ H6)|cbn; lia].
    + intros x y j Hx%Hbl Hy%Hbl Hxj Hyj. destruct Hx as [Hx| ->], Hy as [Hy| ->]; [by apply (tl_disjoint _ _ H6 x y j)|by destruct (Hdis x j)|by destruct (Hdis y j)|done].
  - intros x Hx [->|Hin]%elem_of_cons; [apply Hnew; by left|by apply (H7 x)].
  - apply NoDup_cons. split; [|done]. intros Hin. apply Hnew. by right.
  - intros x p [->|Hx]%elem_of_cons Hp; [right; by left|]. destruct (H10 x p Hx Hp) as [?|[]%elem_of_nil]. by left.
  - intros j p Hp Hf. destruct (H11 j p Hp Hf) as [[]%elem_of_nil|[?|Hs]]; [by right; left|right; right]. eapply stale_ext; [|exact Hs]. intros x Hx. apply Hbl. by left.
Qed.

Lemma memmap_run npg s base n :
  cleared npg s -> (forall j, base <= j < base + n -> exists pg, bpages s !! j = Some pg /\ PageReserved pg = true) -> 0 <= base -> 0 < n -> base + n <= npg -> npg < 2 ^ 32 ->
  exists s' fl, buddy_init_memmap s base n = Ok s' /\ binv npg n [] s' fl [] /\ forall j, free_cov fl j <-> base <= j < base + n.
Proof.
  intros Hc Hres Hb Hn Hle Hnpg. unfold buddy_init_memmap. rewrite (proj2 (Z.ltb_lt _ _) Hn). cbn [c_assert mbind res_bind].
  destruct (buddy_memmap_pages_run npg s base (Z.to_nat n) Hc) as (s1 & -> & Hc1); [intros j Hj; apply Hres; lia|]. cbn [mbind res_bind].
  assert (Hloop : exists s', loop (memmap_step base) (S (Z.to_nat n)) (s1, 0, n) = Ok s' /\ exists fl, binv npg n [] s' fl [] /\ forall j, free_cov fl j <-> base <= j < base + n);
    [|destruct Hloop as (s' & ? & fl & ?); by exists s', fl].
  apply (loop_total (memmap_step base) (fun st => 0 <= st.1.2 /\ 0 <= st.2 /\ st.1.2 + st.2 = n /\ exists fl, binv npg st.1.2 [] st.1.1 fl [] /\ forall j, free_cov fl j <-> base <= j < base + st.1.2) _ (fun st => Z.to_nat st.2));
    [|cbn [fst snd]; split_and!; [lia..|]; exists no_lists; split; [by apply cleared_binv|intros j; split; [by intros (x & [_ []%elem_of_nil] & _)|lia]]|cbn [snd]; lia].
  intros [[s2 off] k] (H0 & Hk & Hsum & fl & Hi & Hcov). cbn [fst snd] in *. unfold memmap_step. destruct (Z.ltb_spec 0 k) as [Hk0|Hk0].
  - left. destruct (shrink_run (Z.to_nat (MAX_ORDER - 1)) k Hk0) as (o & -> & Ho & Hok). cbn [mbind res_bind]. change (Z.of_nat (Z.to_nat (MAX_ORDER - 1))) with (MAX_ORDER - 1) in Ho. pose proof (pow2_pos o ltac:(lia)) as Hpo.
    assert (Ha : binv npg (off + 2 ^ o) [base + off] s2 fl [(base + off, o)]).
    { apply add_block; [done|lia|lia|lia|lia|]. intros x j [Hx|[]%elem_of_nil] Hxj Hj. assert (Hc' : free_cov fl j) by (by exists x). apply Hcov in Hc'. unfold bcov in Hj. cbn in Hj. lia. }
    destruct (put_free_run npg (off + 2 ^ o) [base + off] [] s2 fl [] (base + off) o Ha) as (s3 & -> & Hi3); [by intros x ->%list_elem_of_singleton; left|]. cbn [mbind res_bind].
    rewrite shiftl_1 by lia. eexists. split; [done|]. cbn [fst snd]. split; [|lia]. split_and!; [lia..|]. eexists. split; [exact Hi3|].
    intros j. rewrite free_cov_put, Hcov by lia. unfold bcov. cbn. lia.
  - right. exists s2. split; [done|]. exists fl. assert (off = n) as -> by lia. done.
Qed.

(** * Clients *)

(** The block behind a grant of [n] pages at [p]. *)
Definition granted_block (h : Z * Z) : block := (h.1, Z.log2_up h.2).

Lemma fits_log2_up n : 0 < n -> fits n (Z.log2_up n).
Proof.
  intros Hn. split; [apply Z.log2_up_nonneg|]. destruct (decide (n = 1)) as [->|Hne]; [split; [done|by left]|].
  destruct (Z.log2_up_spec n) as [Hl Hu]; [lia|]. split; [done|]. right. by rewrite Z.sub_1_r.
Qed.

Lemma buddy_total_sum (f : Z -> Z) i n : buddy_total (f <$> seqZ i (Z.of_nat n)) i = sumZ (fun o => u32 (Z.shiftl (f o) o)) (seqZ i (Z.of_nat n)).
Proof.
  revert i. induction n as [|n IH]; intros i; [done|]. rewrite (seqZ_cons i (Z.of_nat (S n))) by lia. cbn [fmap list_fmap buddy_total].
  replace (Z.pred (Z.of_nat (S n))) with (Z.of_nat n) by lia. rewrite <- Z.add_1_r. rewrite IH. done.
Qed.

Lemma nr_free_total npg n0 hand s fl al : binv npg n0 hand s fl al -> buddy_nr_free_pages s = total_free fl.
Proof.
  intros Hi. unfold buddy_nr_free_pages, total_free. rewrite (bi_nr _ _ _ _ _ _ Hi). change MAX_ORDER with (Z.of_nat 10). rewrite buddy_total_sum. apply sumZ_ext. intros o Ho.
  apply elem_of_seqZ in Ho. rewrite Z.shiftl_mul_pow2 by lia. pose proof (total_order fl o ltac:(unfold MAX_ORDER; lia)). destruct (bi_total _ _ _ _ _ _ Hi) as [Ht Hn].
  pose proof (granted_nonneg al (blocks_orders _ _ _ _ _ _ Hi)). pose proof (pow2_pos o ltac:(lia)). rewrite u32_small; lia.
Qed.

Section Clients.
Context (npg : Z) (Haligned : (2 ^ (MAX_ORDER - 1) | npg)).

(** Requests for pages, and their release; [held] are the grants. *)
Inductive buddy_step : buddy_free_area * list (Z * Z) -> buddy_free_area * list (Z * Z) -> Prop :=
| BuddyGrant s s' n p held : 0 < n -> buddy_alloc_pages s n = Ok (s', Some p) -> buddy_step (s, held) (s', (p, n) :: held)
| BuddyRefuse s s' n held : 0 < n -> buddy_alloc_pages s n = Ok (s', None) -> buddy_step (s, held) (s', held)
| BuddyRelease s s' h1 p n h2 : buddy_free_pages (nbase + npg) s p n = Ok s' -> buddy_step (s, h1 ++ (p, n) :: h2) (s', h1 ++ h2).

(** The region [[base, base + n)] is what is free and what is granted. *)
Definition client_ok (base n : Z) (st : buddy_free_area * list (Z * Z)) : Prop :=
  exists fl, binv npg n [] st.1 fl (granted_block <$> st.2) /\ Forall (fun h => 0 < h.2) st.2 /\
    forall i, free_cov fl i \/ (exists h, h ∈ st.2 /\ bcov (granted_block h) i) <-> base <= i < base + n.

Lemma release_run base n s h1 p k h2 : client_ok base n (s, h1 ++ (p, k) :: h2) -> exists s', buddy_free_pages (nbase + npg) s p k = Ok s' /\ client_ok base n (s', h1 ++ h2).
Proof.
  intros (fl & Hi & Hpos & Hcov). cbn [fst snd] in *. rewrite <- Permutation_middle in Hpos. apply Forall_cons in Hpos as [Hk Hpos]. cbn in Hk.
  apply (binv_perm npg n _ _ _ _ (granted_block (p, k) :: (granted_block <$> h1 ++ h2))) in Hi; [|by rewrite <- fmap_cons, Permutation_middle].
  destruct (buddy_free_run npg n Haligned s fl _ p (Z.log2_up k) k Hi Hk (fits_log2_up k Hk)) as (s' & fl' & a & o & E & Hi' & Hc & _). exists s'. split; [done|]. exists fl'. split; [done|]. split; [done|].
  intros i. rewrite <- Hcov, Hc. cbn [snd]. split.
  - intros [[?|?]|(h & Hh & ?)]; [by left|right; exists (p, k); split; [apply elem_of_app; right; by left|done]|right; exists h; split; [|done]].
    apply elem_of_app in Hh as [?|?]; apply elem_of_app; [by left|right; by right].
  - intros [?|(h & Hh & ?)]; [left; by left|]. apply elem_of_app in Hh as [Hh|[->|Hh]%elem_of_cons]; [right|left; by right|right]; exists h; (split; [|done]); apply elem_of_app; auto.
Qed.

Lemma client_step_ok base n st st' : client_ok base n st -> buddy_step st st' -> client_ok base n st'.
Proof.
  intros Hc Hs. destruct Hs as [s s' k p held Hk E|s s' k held Hk E|s s' h1 p k h2 E].
  - destruct Hc as (fl & Hi & Hpos & Hcov). cbn [fst snd] in *. destruct (buddy_alloc_run npg n s fl _ k Hi Hk) as [(s1 & fl1 & a & o & E1 & Hf & _ & Hi1 & Hc1)|[E1 _]]; rewrite E in E1; [|done].
    injection E1 as -> ->. rewrite (fits_unique _ _ _ Hf (fits_log2_up k Hk)) in *. exists fl1. split; [done|]. split; [by constructor|].
    intros i. rewrite <- Hcov, Hc1. cbn [snd]. split.
    + intros [?|(h & [->|Hh]%elem_of_cons & ?)]; [left; by left|left; by right|right; by exists h].
    + intros [[?|?]|(h & Hh & ?)]; [by left|right; exists (a, k); split; [by left|done]|right; exists h; split; [by right|done]].
  - destruct Hc as (fl & Hi & Hpos & Hcov). cbn [fst snd] in *. destruct (buddy_alloc_run npg n s fl _ k Hi Hk) as [(s1 & fl1 & a & o & E1 & _)|[E1 _]]; rewrite E in E1; [done|].
    injection E1 as ->. by exists fl.
  - destruct (release_run base n s h1 p k h2 Hc) as (s1 & E1 & Hc1). rewrite E in E1. by injection E1 as ->.
Qed.

Lemma client_reach base n st st' : client_ok base n st -> rtc buddy_step st st' -> client_ok base n st'.
Proof. intros Hc Hr. induction Hr; [done|]. eauto using client_step_ok. Qed.

Lemma granted_disjoint hand s fl n held : binv npg n hand s fl (granted_block <$> held) -> ForallOrdPairs (fun x y => forall i, ~ (bcov (granted_block x) i /\ bcov (granted_block y) i)) held.
Proof.
  intros Hi. pose proof (bi_nodup _ _ _ _ _ _ Hi) as Hnd. pose proof (tl_disjoint _ _ (bi_tiling _ _ _ _ _ _ Hi)) as Hdis.
  assert (Hsub : forall x, x ∈ held -> blocks fl (granted_block <$> held) (granted_block x)) by (intros x Hx; right; by apply list_elem_of_fmap_2). revert Hnd Hsub.
  generalize (blocks fl (granted_block <$> held)) Hdis. clear Hdis Hi. intros B Hdis. induction held as [|x held IH]; intros Hnd Hsub; [constructor|].
  cbn in Hnd. apply NoDup_cons in Hnd as [Hx Hnd]. constructor; [|apply IH; [done|]; intros y Hy; apply Hsub; by right].
  apply Forall_forall. intros y Hy i [Hxi Hyi]. apply Hx. rewrite (Hdis _ _ i (Hsub x ltac:(by left)) (Hsub y ltac:(by right)) Hxi Hyi). by apply list_elem_of_fmap_2.
Qed.

Lemma grants_facts base n s held : client_ok base n (s, held) ->
  ForallOrdPairs (fun x y => forall i, ~ (bcov (granted_block x) i /\ bcov (granted_block y) i)) held /\
  (forall h i, h ∈ held -> bcov (granted_block h) i -> base <= i < base + n) /\
  buddy_nr_free_pages s + granted (granted_block <$> held) = n /\
  (forall k, 0 < k -> exists r, buddy_alloc_pages s k = Ok r) /\
  (forall p k, (p, k) ∈ held -> exists s', buddy_free_pages (nbase + npg) s p k = Ok s').
Proof.
  intros Hc. pose proof Hc as (fl & Hi & Hpos & Hcov). cbn [fst snd] in *. split_and!.
  - by eapply granted_disjoint.
  - intros h i Hh Hhi. apply Hcov. right. by exists h.
  - rewrite (nr_free_total _ _ _ _ _ _ Hi). apply (bi_total _ _ _ _ _ _ Hi).
  - intros k Hk. destruct (buddy_alloc_run npg n s fl _ k Hi Hk) as [(s1 & fl1 & a & o & E1 & _)|[E1 _]]; eauto.
  - intros p k (h1 & h2 & ->)%list_elem_of_split. destruct (release_run base n s h1 p k h2 Hc) as (s' & ? & _). by exists s'.
Qed.

Lemma buddy_boot s base n :
  boot_ok npg s -> 0 <= base -> 0 < n -> base + n <= npg -> npg < 2 ^ 32 ->
  exists s1 s2, buddy_init s = Ok s1 /\ buddy_init_memmap s1 base n = Ok s2 /\ client_ok base n (s2, []).
Proof.
  intros Hb H0 Hn Hle Hnpg. destruct (buddy_init_run npg s Hb) as (s1 & -> & Ep & Hc).
  destruct (memmap_run npg s1 base n Hc) as (s2 & fl & E & Hi & Hcov); [|done..|].
  { intros j Hj. rewrite Ep. destruct (proj2 (bo_pages _ _ Hb j)) as [p Hp]; [lia|]. exists p. split; [done|]. by apply (bo_reserved _ _ Hb j). }
  exists s1, s2. split; [done|]. split; [done|]. exists fl. split; [done|]. split; [constructor|].
  intros i. rewrite <- Hcov. cbn [snd]. split; [intros [?|(h & []%elem_of_nil & _)]; done|by left].
Qed.

(** C10. The buddy allocator never grants a frame twice.  Booted on a reserved page array
    of [npg] pages, [npg] a multiple of 2^9, the size of the largest block, with one
    free region, wherever in the array that starts and however long it is, and whatever
    sequence of requests and releases its clients make: the blocks granted, rounded up to powers of two, never
    overlap and lie in the region; free and granted frames add up to the region; and
    neither a request nor the release of a grant ever fails an assertion or follows a
    stale flag, although the code leaves the flags of merged blocks set.  For other [npg]
    a release may look for a buddy behind the array and stop the kernel
    ([last_frame_panics], buddy_pmm.c line 109). *)
Theorem buddy_grants_disjoint s base n :
  boot_ok npg s -> 0 <= base -> 0 < n -> base + n <= npg -> npg < 2 ^ 32 ->
  exists s1 s2, buddy_init s = Ok s1 /\ buddy_init_memmap s1 base n = Ok s2 /\
    forall s' held, rtc buddy_step (s2, []) (s', held) ->
      ForallOrdPairs (fun x y => forall i, ~ (bcov (granted_block x) i /\ bcov (granted_block y) i)) held /\
      (forall h i, h ∈ held -> bcov (granted_block h) i -> base <= i < base + n) /\
      buddy_nr_free_pages s' + granted (granted_block <$> held) = n /\
      (forall k, 0 < k -> exists r, buddy_alloc_pages s' k = Ok r) /\
      (forall p k, (p, k) ∈ held -> exists s'', buddy_free_pages (nbase + npg) s' p k = Ok s'').
Proof.
  intros Hb H0 Hn Hle Hnpg. destruct (buddy_boot s base n Hb H0 Hn Hle Hnpg) as (s1 & s2 & H1 & H2 & Hc). exists s1, s2. split; [done|]. split; [done|].
  intros s' held Hr. apply (grants_facts base n). by eapply client_reach.
Qed.

(** A release merges as far as it can: freeing a granted block makes exactly its
    frames free; it becomes part of a block whose own buddy, unless the block has the
    largest size, is not a free block of the same size. *)
Theorem buddy_free_merges base n s h1 p k h2 :
  client_ok base n (s, h1 ++ (p, k) :: h2) ->
  exists s' fl fl' a o, buddy_free_pages (nbase + npg) s p k = Ok s' /\
    binv npg n [] s fl (granted_block <$> h1 ++ (p, k) :: h2) /\ binv npg n [] s' fl' (granted_block <$> h1 ++ h2) /\
    (forall i, free_cov fl' i <-> free_cov fl i \/ bcov (granted_block (p, k)) i) /\
    in_list fl' (a, o) /\ (forall i, bcov (granted_block (p, k)) i -> bcov (a, o) i) /\ (o = MAX_ORDER - 1 \/ ~ in_list fl' (Z.lxor a (2 ^ o), o)).
Proof.
  intros (fl & Hi & Hpos & _). cbn [fst snd] in *. assert (Hk : 0 < k) by (rewrite Forall_app, Forall_cons in Hpos; apply Hpos).
  pose proof Hi as Hi0. apply (binv_perm npg n _ _ _ _ (granted_block (p, k) :: (granted_block <$> h1 ++ h2))) in Hi; [|by rewrite <- fmap_cons, Permutation_middle].
  destruct (buddy_free_run npg n Haligned s fl _ p (Z.log2_up k) k Hi Hk (fits_log2_up k Hk)) as (s' & fl' & a & o & E & Hi' & Hc & Hin & Hinc & Hmax).
  exists s', fl, fl', a, o. by split_and!.
Qed.
End Clients.

(** ** A machine with 512 frames, 50 of them free from frame 5 on *)
Definition buddy_machine (npg : Z) : buddy_free_area :=
  BuddyArea (list_to_map ((fun i => (i, MkPage 0 1 0)) <$> seqZ 0 npg))
    (list_to_map (((fun o => (FreeListOf o, ListEntry (FreeListOf o) (FreeListOf o))) <$> seqZ 0 MAX_ORDER) ++ ((fun i => (LinkOf i, ListEntry (LinkOf i) (LinkOf i))) <$> seqZ 0 npg)))
    (replicate (Z.to_nat MAX_ORDER) 0).

Lemma list_to_map_fmap_lookup {K A} `{Countable K} (f : Z -> K) (g : Z -> A) `{!Inj (=) (=) f} l i :
  i ∈ l -> (list_to_map ((fun i => (f i, g i)) <$> l) : gmap K A) !! f i = Some (g i).
Proof.
  induction l as [|j l IH]; [by intros ?%elem_of_nil|]. cbn [fmap list_fmap list_to_map foldr]. intros Hi. destruct (decide (j = i)) as [->|Hne]; [apply lookup_insert_eq|].
  cbn. rewrite lookup_insert_ne by (by intros E%(inj f)). apply IH. by apply elem_of_cons in Hi as [->|].
Qed.

Lemma buddy_machine_ok npg : boot_ok npg (buddy_machine npg).
Proof.
  assert (Hin : forall (n i : Z), 0 <= i < n -> i ∈ seqZ 0 n) by (intros n i Hi; apply elem_of_seqZ; lia).
  split; cbn [buddy_machine bpages blinks bnr_free].
  - intros i. split; [|intros Hi; eexists; apply (list_to_map_fmap_lookup (fun i => i) (fun _ => MkPage 0 1 0)); by apply Hin].
    intros [p Hp]. apply elem_of_list_to_map_2, list_elem_of_fmap in Hp as (j & [= -> _] & Hj%elem_of_seqZ). lia.
  - intros i p Hp. apply elem_of_list_to_map_2, list_elem_of_fmap in Hp as (j & [= _ ->] & _). by split.
  - intros i Hi. rewrite list_to_map_app, lookup_union, (list_to_map_fmap_lookup LinkOf (fun i => ListEntry (LinkOf i) (LinkOf i))) by (by apply Hin).
    by destruct (_ !! LinkOf i); eexists.
  - intros o Ho. rewrite list_to_map_app, lookup_union, (list_to_map_fmap_lookup FreeListOf (fun o => ListEntry (FreeListOf o) (FreeListOf o))) by (by apply Hin).
    by destruct (_ !! FreeListOf o); eexists.
  - by rewrite length_replicate.
Qed.

Lemma buddy_grants_disjoint_witness : exists s1 s2,
  buddy_init (buddy_machine 512) = Ok s1 /\ buddy_init_memmap s1 5 50 = Ok s2 /\
  forall s' held, rtc (buddy_step 512) (s2, []) (s', held) -> buddy_nr_free_pages s' + granted (granted_block <$> held) = 50.
Proof.
  destruct (buddy_grants_disjoint 512 ltac:(by exists 1) (buddy_machine 512) 5 50 (buddy_machine_ok 512)) as (s1 & s2 & H1 & H2 & H3); [lia..|].
  exists s1, s2. split; [exact H1|]. split; [exact H2|]. intros s' held Hr. apply (H3 s' held Hr).
Defined.

(** Three pages are taken, and given back. *)
Definition buddy_session : res (buddy_free_area * option Z) := s ← buddy_init (buddy_machine 512); s ← buddy_init_memmap s 5 50; buddy_alloc_pages s 3.

Lemma buddy_session_ok : exists s, buddy_session = Ok (s, Some 37) /\ client_ok 512 5 50 (s, [(37, 3)]).
Proof.
  assert (E : match buddy_session with Ok (_, Some p) => p | _ => 0 end = 37) by (vm_compute; reflexivity). unfold buddy_session in *.
  destruct (buddy_boot 512 (buddy_machine 512) 5 50 (buddy_machine_ok 512)) as (s1 & s2 & H1 & H2 & Hc); [lia..|]. rewrite H1 in *. cbn [mbind res_bind] in *. rewrite H2 in *. cbn [mbind res_bind] in *.
  destruct (buddy_alloc_pages s2 3) as [[s3 [p|]]| | |] eqn:E3; try discriminate E. subst p. exists s3. split; [done|].
  eapply (client_step_ok 512); [by exists 1|exact Hc|by constructor].
Qed.

Lemma buddy_free_merges_witness : exists s s', buddy_session = Ok (s, Some 37) /\ buddy_free_pages (nbase + 512) s 37 3 = Ok s'.
Proof.
  destruct buddy_session_ok as (s & E & Hc). exists s. destruct (buddy_free_merges 512 ltac:(by exists 1) 5 50 s [] 37 3 [] Hc) as (s' & fl & fl' & a & o & E' & _).
  exists s'. split; [exact E|exact E'].
Defined.

(** ** What the allocator does not do *)

(** Two free pages from an odd frame on: once they have been split, their buddies lie
    outside, and they never become a block of two again. *)
Definition odd_pair : res (Z * option Z) :=
  s ← buddy_init (buddy_machine 512); s ← buddy_init_memmap s 5 2; '(s, p) ← buddy_alloc_pages s 1;
  s ← buddy_free_pages (nbase + 512) s (default 0 p) 1; '(s, r) ← buddy_alloc_pages s 2; Ok (buddy_nr_free_pages s, r).

Example odd_pair_stays_split : odd_pair = Ok (2, None).
Proof. vm_compute. reflexivity. Qed.

(** The last frame of a memory whose size is no multiple of the largest block: its buddy
    does not exist, and [pa2page] stops the kernel. *)
Definition last_frame : res buddy_free_area :=
  s ← buddy_init (buddy_machine 7); s ← buddy_init_memmap s 4 3; '(s, p) ← buddy_alloc_pages s 1; buddy_free_pages (nbase + 7) s (default 0 p) 1.

Example last_frame_panics : last_frame = Panic.
Proof. vm_compute. reflexivity. Qed.
