(* ===== verification/Kmalloc.v ===== *)
(** The kernel heap (lab8/kern/mm/kmalloc.c): the SLOB allocator, a ring of free blocks in
    the order of their addresses, and [kmalloc] and [kfree] over it and the page allocator.

    Addresses count units of [SLOB_UNIT] = 16 bytes from the first page of the page array, so
    page [p] is at [256 * p]; [arena] is a variable in the data of the kernel's image, below
    the pages the page allocator gives out.  A [cell] is the header of a block or a
    [bigblock_t] that starts in a unit (a [bigblock_t] reaches into the next unit, which
    holds nothing else); a unit nobody wrote to cannot be read.  Interrupts are off or the
    kernel does not give up the processor, so a call is one step; [block_lock] and
    [slob_lock] name no object (the macros drop them). *)
From S2P Require Import Prelude Lists Page Blocks FreeArea StateM Vmm PageTable.

(** * lab8/kern/mm/kmalloc.c: the data *)
Definition SLOB_UNIT : Z := 16.
Definition PAGE_SIZE : Z := 4096.
Definition SLOB_UNITS (size : Z) : Z := (size + SLOB_UNIT - 1) / SLOB_UNIT.
Definition ALIGN (addr size : Z) : Z := Z.land (addr + size - 1) (Z.lnot (size - 1)).

(** The units of a page, and the first unit at or above [KERNBASE] (the pages start at the
    address [DRAM_BASE + PHYSICAL_MEMORY_OFFSET] = [KERNBASE] - 2 MB). *)
Definition PAGE_UNITS : Z := PAGE_SIZE / SLOB_UNIT.
Definition KERNBASE_UNIT : Z := 2 ^ 21 / SLOB_UNIT.

(** [slob_t] and [bigblock_t], which share the memory of the heap. *)
Inductive cell : Type :=
| Slob (units : Z) (next : Z)
| Big (order : Z) (pages : option Z) (next : option Z).

(** [sizeof(bigblock_t)]. *)
Definition BIGBLOCK : Z := 24.

Record heap : Type := Heap { harea : free_area; cells : gmap Z cell; slobfree : Z; bigblocks : option Z }.

Definition with_harea (s : heap) (a : free_area) : heap := Heap a (cells s) (slobfree s) (bigblocks s).
Definition with_slobfree (s : heap) (f : Z) : heap := Heap (harea s) (cells s) f (bigblocks s).
Definition with_bigblocks (s : heap) (b : option Z) : heap := Heap (harea s) (cells s) (slobfree s) b.
Definition set_cell (s : heap) (a : Z) (x : cell) : heap := Heap (harea s) (<[a := x]> (cells s)) (slobfree s) (bigblocks s).

Definition slob_at (s : heap) (a : Z) : res (Z * Z) := match cells s !! a with Some (Slob u n) => Ok (u, n) | _ => Fault end.

(** [a->units = u] and [a->next = n] write one field; the other one of a unit that holds no
    [slob_t] yet is never read before it is written. *)
Definition set_units (s : heap) (a u : Z) : heap := set_cell s a (Slob u (match cells s !! a with Some (Slob _ n) => n | _ => 0 end)).
Definition set_next (s : heap) (a n : Z) : heap := set_cell s a (Slob (match cells s !! a with Some (Slob u _) => u | _ => 0 end) n).

(** [static slob_t arena = {.next = &arena, .units = 1}]. *)
Definition heap_init (arena : Z) (a : free_area) : heap := Heap a {[arena := Slob 1 arena]} arena None.

Definition slob_allocated : Z := 0.
Definition kallocated : Z := slob_allocated.

(** [for (; size > 4096; size >>= 1) order++]: 32 turns are enough for an [int]. *)
Definition order_step (x : Z * Z) : res (Z * Z + Z) :=
  let '(size, order) := x in if 4096 <? size then Ok (inl (Z.shiftr size 1, order + 1)) else Ok (inr order).
Definition find_order (size : Z) : res Z := loop order_step 32 (size, 0).

(** * The operations *)
(** [for (cur = slobfree; !(b > cur && b < cur->next); cur = cur->next)] and the test in it;
    the loop meets every free block at most once, so the cells bound its turns. *)
Definition find_step (s : heap) (b cur : Z) : res (Z + Z) :=
  '(_, next) ← slob_at s cur;
  if (cur <? b) && (b <? next) then Ok (inr cur)
  else if (next <=? cur) && ((cur <? b) || (b <? next)) then Ok (inr cur)
  else Ok (inl next).

(** [if (b + b->units == cur->next) .. else b->next = cur->next]. *)
Definition join_next (s : heap) (b cur : Z) : res heap :=
  '(bu, _) ← slob_at s b;
  '(_, cn) ← slob_at s cur;
  if b + bu =? cn then
    '(nu, nn) ← slob_at s cn;
    Ok (set_next (set_units s b (i32 (bu + nu))) b nn)
  else Ok (set_next s b cn).

(** [if (cur + cur->units == b) .. else cur->next = b]. *)
Definition join_prev (s : heap) (b cur : Z) : res heap :=
  '(cu, _) ← slob_at s cur;
  if cur + cu =? b then
    '(bu, bn) ← slob_at s b;
    Ok (set_next (set_units s cur (i32 (cu + bu))) cur bn)
  else Ok (set_next s cur b).

Definition slob_free (s : heap) (block : option Z) (size_ : Z) : res heap :=
  match block with
  | None => Ok s
  | Some b =>
      let s := if negb (size_ =? 0) then set_units s b (SLOB_UNITS size_) else s in
      cur ← loop (find_step s b) (S (size (cells s))) (slobfree s);
      s ← join_next s b cur;
      s ← join_prev s b cur;
      Ok (with_slobfree s cur)
  end.
(** [if (delta)]: the head of the block up to [aligned] becomes a block of its own. *)
Definition fragment_head (s : heap) (aligned cur delta cu cn : Z) : heap * Z * Z :=
  let s := set_next (set_units s aligned (cu - delta)) aligned cn in
  (set_units (set_next s cur aligned) cur delta, cur, aligned).

(** [if (cur->units == units) .. else ..]: the whole block leaves the ring, or its first
    [units] do and the rest takes its place. *)
Definition take_units (s : heap) (prev cur units : Z) : res heap :=
  '(cu, cn) ← slob_at s cur;
  if cu =? units then Ok (set_next s prev cn)
  else
    let rest := cur + units in
    let s := set_units (set_next s prev rest) rest (cu - units) in
    '(_, cn) ← slob_at s cur;
    Ok (set_units (set_next s rest cn) cur units).

Section Code.
Context (alloc : alloc_pages_t) (free : free_pages_t) (npage : Z).

Definition __slob_get_free_pages (s : heap) (order : Z) : res (heap * option Z) :=
  '(a, page) ← alloc (harea s) (Z.shiftl 1 order);
  let s := with_harea s a in
  match page with
  | None => Ok (s, None)
  | Some page => kva ← page2kva npage page; Ok (s, Some (PAGE_UNITS * kva))
  end.

(** [kva2page]: [PADDR] stops the kernel for an address below [KERNBASE], [pa2page] for one
    behind the last page. *)
Definition __slob_free_pages (s : heap) (kva order : Z) : res heap :=
  _ ← c_assert (KERNBASE_UNIT <=? kva);
  page ← pa2page npage (page2pa (kva / PAGE_UNITS));
  a ← free (harea s) page (Z.shiftl 1 order);
  Ok (with_harea s a).

(** One turn of the search of [slob_alloc]; the state is the heap, [prev] and [cur]. *)
Definition alloc_turn (size_ units align : Z) (st : heap * Z * Z) : res (heap * Z * Z + heap * option Z) :=
  let '(s, prev, cur) := st in
  '(cu, cn) ← slob_at s cur;
  let aligned := if align =? 0 then 0 else ALIGN (SLOB_UNIT * cur) align / SLOB_UNIT in
  let delta := if align =? 0 then 0 else i32 (aligned - cur) in
  if units + delta <=? cu then
    let '(s, prev, cur) := if negb (delta =? 0) then fragment_head s aligned cur delta cu cn else (s, prev, cur) in
    s ← take_units s prev cur units;
    Ok (inr (with_slobfree s prev, Some cur))
  else if cur =? slobfree s then
    if size_ =? PAGE_SIZE then Ok (inr (s, None))
    else
      '(s, page) ← __slob_get_free_pages s 0;
      match page with
      | None => Ok (inr (s, None))
      | Some _ =>
          s ← slob_free s page PAGE_SIZE;
          let cur := slobfree s in
          '(_, next) ← slob_at s cur;
          Ok (inl (s, cur, next))
      end
  else Ok (inl (s, cur, cn)).

(** The search goes round the ring once, and once more behind a new page. *)
Definition slob_alloc (s : heap) (size_ align : Z) : res (heap * option Z) :=
  _ ← c_assert (u64 (size_ + SLOB_UNIT) <? PAGE_SIZE);
  let prev := slobfree s in
  '(_, cur) ← slob_at s prev;
  loop (alloc_turn size_ (SLOB_UNITS size_) align) (S (S (2 * size (cells s)))) (s, prev, cur).

Definition __kmalloc (s : heap) (size_ : Z) : res (heap * option Z) :=
  if size_ <? PAGE_SIZE - SLOB_UNIT then
    '(s, m) ← slob_alloc s (size_ + SLOB_UNIT) 0;
    Ok (s, match m with Some m => Some (m + 1) | None => None end)
  else
    '(s, bb) ← slob_alloc s BIGBLOCK 0;
    match bb with
    | None => Ok (s, None)
    | Some b =>
        order ← find_order (i32 size_);
        '(s, pages) ← __slob_get_free_pages s order;
        match pages with
        | Some _ =>
            let s := set_cell s b (Big order pages (bigblocks s)) in
            Ok (with_bigblocks s bb, pages)
        | None =>
            let s := set_cell s b (Big order pages None) in
            s ← slob_free s bb BIGBLOCK;
            Ok (s, None)
        end
    end.

Definition kmalloc (s : heap) (size_ : Z) : res (heap * option Z) := __kmalloc s size_.

(** [for (bb = bigblocks; bb; last = &bb->next, bb = bb->next)]; [last] is [None] for
    [&bigblocks] and [Some b] for the field [next] of the block [b]. *)
Definition big_step (s : heap) (block : Z) (st : option Z * option Z) : res (option Z * option Z + option (option Z * Z)) :=
  let '(last, bb) := st in
  match bb with
  | None => Ok (inr None)
  | Some b =>
      match cells s !! b with
      | Some (Big _ pages next) => if decide (pages = Some block) then Ok (inr (Some (last, b))) else Ok (inl (bb, next))
      | _ => Fault
      end
  end.

(** [*last = bb->next]. *)
Definition set_last (s : heap) (last next : option Z) : res heap :=
  match last with
  | None => Ok (with_bigblocks s next)
  | Some l => match cells s !! l with Some (Big o p _) => Ok (set_cell s l (Big o p next)) | _ => Fault end
  end.

Definition kfree (s : heap) (block : option Z) : res heap :=
  match block with
  | None => Ok s
  | Some blk =>
      found ← (if blk mod PAGE_UNITS =? 0 then loop (big_step s blk) (S (size (cells s))) (None, bigblocks s) else Ok None);
      match found with
      | Some (last, b) =>
          match cells s !! b with
          | Some (Big order _ next) =>
              s ← set_last s last next;
              s ← __slob_free_pages s blk order;
              slob_free s (Some b) BIGBLOCK
          | _ => Fault
          end
      | None => slob_free s (Some (blk - 1)) 0
      end
  end.

Definition ksize (s : heap) (block : option Z) : res Z :=
  match block with
  | None => Ok 0
  | Some blk =>
      found ← (if blk mod PAGE_UNITS =? 0 then loop (big_step s blk) (S (size (cells s))) (None, bigblocks s) else Ok None);
      match found with
      | Some (_, b) => match cells s !! b with Some (Big order _ _) => Ok (u32 (Z.shiftl PAGE_SIZE order)) | _ => Fault end
      | None => '(u, _) ← slob_at s (blk - 1); Ok (u32 (u * SLOB_UNIT))
      end
  end.
End Code.
