(* ===== verification/KmallocRing.v ===== *)
(** The ring of free blocks of the SLOB allocator (lab8/kern/mm/kmalloc.c) as a sorted list:
    [slob_free] is the insertion with merging of [Blocks], and the search of [slob_alloc]
    finds the first block that is large enough, starting behind [slobfree]. *)
From S2P Require Import Prelude Lists Page Blocks FreeArea PageTable Kmalloc.

(** The address behind the blocks [bl], [stop] when there is none. *)
Definition front (bl : list block) (stop : Z) : Z := match bl with [] => stop | x :: _ => x.1 end.

(** The blocks [bl] are linked, one to the next, and the last one to [stop]. *)
Fixpoint chain (c : gmap Z cell) (bl : list block) (stop : Z) : Prop :=
  match bl with [] => True | x :: bl' => c !! x.1 = Some (Slob x.2 (front bl' stop)) /\ chain c bl' stop end.

Lemma chain_app c l1 l2 stop : chain c (l1 ++ l2) stop <-> chain c l1 (front l2 stop) /\ chain c l2 stop.
Proof.
  induction l1 as [|x l1 IH]; cbn; [tauto|]. rewrite IH. destruct l1; cbn; tauto.
Qed.

Lemma chain_outside c c' bl stop : (forall x, x ∈ bl -> c' !! x.1 = c !! x.1) -> chain c bl stop -> chain c' bl stop.
Proof.
  induction bl as [|x bl IH]; cbn; [done|]. intros Hs [Hx Hc]. split; [rewrite Hs by set_solver; done|].
  apply IH; [|done]. intros y Hy. apply Hs. set_solver.
Qed.

Lemma chain_elem c bl stop a u : chain c bl stop -> (a, u) ∈ bl -> exists n, c !! a = Some (Slob u n).
Proof.
  induction bl as [|x bl IH]; cbn; [set_solver|]. intros [Hx Hc] [<-|Hin]%elem_of_cons; [eauto|]. by apply IH.
Qed.

Lemma slob_at_some s a u n : cells s !! a = Some (Slob u n) -> slob_at s a = Ok (u, n).
Proof. unfold slob_at. by intros ->. Qed.

Section Ring.
Context (arena lo hi : Z).

(** The ring: [arena], a block of one unit that is never given away, and the free blocks
    [fr], which lie in the units from [lo] on, above [arena], in the order of their addresses
    and with a gap between any two (so no two of them could be merged). *)
Abbreviation full fr := ((arena, 1) :: fr).

Record ring (s : heap) (fr : list block) : Prop := Ring {
  ring_zero : 0 <= lo;
  ring_low : arena + 1 < lo;
  ring_hi : hi < 2 ^ 31;
  ring_chain : chain (cells s) (full fr) arena;
  ring_ordered : ordered 1 lo fr;
  ring_bound : bound 0 lo fr <= hi;
  ring_free : slobfree s ∈ (full fr).*1
}.

Lemma full_ordered s fr : ring s fr -> ordered 0 arena (full fr).
Proof. intros Hr. cbn. split_and!; [lia..|]. eapply ordered_weaken; [| |apply Hr]; [lia|]. pose proof (ring_low _ _ Hr). lia. Qed.

(** The places of a sorted list. *)
Lemma ordered_at g o l1 a u l2 :
  0 <= g -> ordered g o (l1 ++ (a, u) :: l2) ->
  Forall (fun x => x.1 < a /\ x.1 + x.2 + g <= a) l1 /\ 0 < u /\ Forall (fun x => a + u + g <= x.1) l2.
Proof.
  intros Hg. revert o. induction l1 as [|[p m] l1 IH]; intros o; cbn.
  - intros (_ & Hu & Ho). split; [constructor|]. split; [done|]. apply Forall_forall. intros [q k] Hin.
    apply (ordered_elem g (a + u + g)) in Hin; [|done..]. cbn. lia.
  - intros (Hp & Hm & Ho). destruct (IH _ Ho) as (H1 & H2 & H3). split; [|done]. constructor; [|done]. cbn.
    assert (Hin : (a, u) ∈ l1 ++ (a, u) :: l2) by set_solver. apply (ordered_elem g (p + m + g)) in Hin; [lia|done..].
Qed.

Lemma ordered_nodup o bl : ordered 0 o bl -> NoDup bl.*1.
Proof.
  revert o. induction bl as [|[a u] bl IH]; intros o; cbn; [constructor|]. intros (Ha & Hu & Ho). constructor; [|by eapply IH].
  intros ([b v] & E & Hin)%list_elem_of_fmap. cbn in E. apply (ordered_elem 0 (a + u + 0)) in Hin; [lia|done..].
Qed.

(** The ring has no more blocks than there are cells: what bounds the loops. *)
Lemma ring_size s fr : ring s fr -> (S (length fr) <= size (cells s))%nat.
Proof.
  intros Hr. change (S (length fr)) with (length (full fr)). rewrite <- (length_fmap fst). apply live_length.
  - by eapply ordered_nodup, full_ordered.
  - intros a ([a' u] & -> & Hin)%list_elem_of_fmap. destruct (chain_elem _ _ _ _ _ (ring_chain _ _ Hr) Hin) as [n Hn]. by eexists.
Qed.

(** * Where a block goes *)

(** The place of an address [b] outside the free blocks: behind [p], the last block that
    starts below it. *)
Lemma place s fr b n :
  ring s fr -> lo <= b -> 0 < n -> unused fr b n ->
  exists l1 p m, full (below b fr) = l1 ++ [(p, m)] /\ full fr = l1 ++ (p, m) :: above b fr /\
    p < b /\ p + m <= b /\ (lo <= p \/ p = arena /\ m = 1) /\ ordered 1 (b + n) (above b fr).
Proof.
  intros Hr Hb Hn Hu. pose proof (ring_ordered _ _ Hr) as Ho. pose proof (ring_low _ _ Hr) as Hlow.
  destruct (split_at_free 1 lo fr b n ltac:(lia) Hn Hb Ho Hu) as [H1 H2].
  pose proof (below_above b fr) as He. rewrite <- He in Ho. apply ordered_app in Ho as [Ho _].
  destruct (below b fr) as [|[p m] l _] using rev_ind.
  - exists [], arena, 1. cbn in *. rewrite He in *. split_and!; [done|done|lia|lia|by right|done].
  - exists (full l), p, m. rewrite bound_snoc in H1. apply ordered_app in Ho as [Ho (Hp & Hm & _)].
    rewrite <- He at 1. cbn. rewrite <- app_assoc. split_and!; [done|done|lia|lia| |done].
    left. pose proof (ordered_bound 1 lo l ltac:(lia) Ho). pose proof (total_nonneg _ _ _ Ho). lia.
Qed.

(** ** The search for the place *)
Section find.
Context (s : heap) (l1 : list block) (p m : Z) (l2 : list block) (b : Z).
Hypotheses (Hc : chain (cells s) (l1 ++ (p, m) :: l2) arena) (Ho : ordered 0 arena (l1 ++ (p, m) :: l2))
  (Hp : p < b) (Hl2 : Forall (fun x => b < x.1) l2) (Hfirst : front (l1 ++ [(p, m)]) arena = arena) (Hab : arena < b).

Lemma find_here : find_step s b p = Ok (inr p).
Proof.
  apply chain_app in Hc as [_ [H _]]. cbn in H. unfold find_step. rewrite (slob_at_some _ _ _ _ H). cbn [mbind res_bind fst].
  destruct (ordered_at _ _ _ _ _ _ ltac:(done) Ho) as (H1 & Hm & _).
  assert (arena <= p).
  { destruct l1 as [|[x xu] l]; [cbn in Hfirst; lia|]. apply Forall_cons in H1 as [H1 _]. cbn in *. destruct Ho as (_ & ? & _). lia. }
  destruct l2 as [|[q k] l2']; cbn in *.
  - rewrite (proj2 (Z.ltb_lt p b)), (proj2 (Z.ltb_ge b arena)), (proj2 (Z.leb_le arena p)) by lia. done.
  - apply Forall_cons in Hl2 as [Hq _]. cbn in Hq. by rewrite (proj2 (Z.ltb_lt p b)), (proj2 (Z.ltb_lt b q)) by lia.
Qed.

Lemma find_before la c u lb fuel :
  l1 = la ++ (c, u) :: lb -> (S (S (length lb)) <= fuel)%nat -> loop (find_step s b) fuel c = Ok p.
Proof.
  revert la c u fuel. induction lb as [|[d v] lb IH]; intros la c u fuel E Hf; (destruct fuel as [|fuel]; [lia|]); rewrite loop_S.
  - assert (Hst : find_step s b c = Ok (inl p)).
    { rewrite E in Hc, Ho. rewrite <- app_assoc in Hc, Ho. apply chain_app in Hc as [_ [H _]]. cbn in H. unfold find_step. rewrite (slob_at_some _ _ _ _ H). cbn [mbind res_bind].
      destruct (ordered_at _ _ _ _ _ _ ltac:(done) Ho) as (_ & Hu & H1). apply Forall_cons in H1 as [H1 _]. cbn in H1.
      rewrite (proj2 (Z.ltb_lt c b)), (proj2 (Z.ltb_ge b p)), (proj2 (Z.leb_gt p c)) by lia. done. }
    rewrite Hst. cbn in Hf. destruct fuel as [|fuel]; [lia|]. by rewrite loop_S, find_here.
  - assert (Hst : find_step s b c = Ok (inl d)).
    { rewrite E in Hc, Ho. rewrite <- app_assoc in Hc, Ho. apply chain_app in Hc as [_ [H _]]. cbn in H. unfold find_step. rewrite (slob_at_some _ _ _ _ H). cbn [mbind res_bind].
      destruct (ordered_at _ _ _ _ _ _ ltac:(done) Ho) as (_ & Hu & H1). apply Forall_cons in H1 as [H1 _]. cbn in H1.
      change (la ++ ((c, u) :: (d, v) :: lb) ++ (p, m) :: l2) with (la ++ [(c, u)] ++ ((d, v) :: lb) ++ (p, m) :: l2) in Ho.
      rewrite !app_assoc in Ho. destruct (ordered_at _ _ _ _ _ _ ltac:(done) Ho) as (H2 & _). rewrite Forall_forall in H2. specialize (H2 (d, v) ltac:(set_solver)). cbn in H2.
      pose proof (ordered_elem 0 arena _ d v ltac:(done) Ho ltac:(set_solver)).
      rewrite (proj2 (Z.ltb_lt c b)), (proj2 (Z.ltb_ge b d)), (proj2 (Z.leb_gt d c)) by lia. done. }
    rewrite Hst. apply (IH (la ++ [(c, u)]) d v); [by rewrite <- app_assoc|cbn in Hf; lia].
Qed.

Lemma find_arena fuel : (S (length l1) <= fuel)%nat -> loop (find_step s b) fuel arena = Ok p.
Proof.
  intros Hf. pose proof Hfirst as Ha. assert (Hl : l1 = [] \/ exists c u l, l1 = (c, u) :: l) by (clear; destruct l1 as [|[c u] l]; eauto).
  destruct Hl as [E|(c & u & l & E)]; rewrite E in Ha; cbn in Ha; rewrite <- Ha.
  - destruct fuel as [|fuel]; [lia|]. by rewrite loop_S, find_here.
  - apply (find_before [] c u l); [done|]. rewrite E in Hf. done.
Qed.

Lemma find_after la c u lb fuel :
  l2 = la ++ (c, u) :: lb -> (S (S (length lb + length l1)) <= fuel)%nat -> loop (find_step s b) fuel c = Ok p.
Proof.
  revert la c u fuel. induction lb as [|[d v] lb IH]; intros la c u fuel E Hf; (destruct fuel as [|fuel]; [lia|]); rewrite loop_S.
  - assert (Hst : find_step s b c = Ok (inl arena)).
    { rewrite E in Hc, Hl2. apply chain_app in Hc as [_ [_ Hc']]. apply chain_app in Hc' as [_ [H _]]. cbn in H. unfold find_step. rewrite (slob_at_some _ _ _ _ H). cbn [mbind res_bind].
      rewrite Forall_forall in Hl2. specialize (Hl2 (c, u) ltac:(set_solver)). cbn in Hl2.
      rewrite (proj2 (Z.ltb_ge c b)), (proj2 (Z.ltb_ge b arena)), (proj2 (Z.leb_le arena c)) by lia. done. }
    rewrite Hst. apply find_arena. cbn in Hf. lia.
  - assert (Hst : find_step s b c = Ok (inl d)).
    { rewrite E in Hc, Hl2, Ho. apply chain_app in Hc as [_ [_ Hc']]. apply chain_app in Hc' as [_ [H _]]. cbn in H. unfold find_step. rewrite (slob_at_some _ _ _ _ H). cbn [mbind res_bind].
      rewrite Forall_forall in Hl2. specialize (Hl2 (c, u) ltac:(set_solver)). cbn in Hl2.
      change ((p, m) :: la ++ (c, u) :: (d, v) :: lb) with (((p, m) :: la) ++ (c, u) :: (d, v) :: lb) in Ho. rewrite app_assoc in Ho.
      destruct (ordered_at _ _ _ _ _ _ ltac:(done) Ho) as (_ & Hu & H1). apply Forall_cons in H1 as [H1 _]. cbn in H1.
      rewrite (proj2 (Z.ltb_ge c b)), (proj2 (Z.leb_gt d c)) by lia. done. }
    rewrite Hst. apply (IH (la ++ [(c, u)]) d v); [by rewrite <- app_assoc|cbn in Hf; lia].
Qed.

(** From anywhere in the ring the search ends at [p]. *)
Lemma find_run c fuel :
  c ∈ (l1 ++ (p, m) :: l2).*1 -> (S (length (l1 ++ (p, m) :: l2)) <= fuel)%nat -> loop (find_step s b) fuel c = Ok p.
Proof.
  intros ([c' u] & -> & Hin)%list_elem_of_fmap Hf. rewrite length_app in Hf. cbn in *. apply elem_of_app in Hin as [Hin|[[= -> ->]|Hin]%elem_of_cons].
  - apply list_elem_of_split in Hin as (la & lb & E). apply (find_before la c' u lb); [done|]. rewrite E, length_app in Hf. cbn in Hf. lia.
  - destruct fuel as [|fuel]; [lia|]. by rewrite loop_S, find_here.
  - apply list_elem_of_split in Hin as (la & lb & E). apply (find_after la c' u lb); [done|]. rewrite E, length_app in Hf. cbn in Hf. lia.
Qed.
End find.

(** * Writing the fields *)
Lemma set_next_some s a u n n' : cells s !! a = Some (Slob u n) -> set_next s a n' = set_cell s a (Slob u n').
Proof. unfold set_next. by intros ->. Qed.

Lemma set_units_some s a u n u' : cells s !! a = Some (Slob u n) -> set_units s a u' = set_cell s a (Slob u' n).
Proof. unfold set_units. by intros ->. Qed.

Lemma set_both s a u n : set_next (set_units s a u) a n = set_cell s a (Slob u n).
Proof. unfold set_next, set_units, set_cell. cbn. by rewrite lookup_insert_eq, insert_insert_eq. Qed.

(** * Giving a block back *)

Lemma join_next_run s l1 p m l2 b n nx :
  cells s !! b = Some (Slob n nx) -> chain (cells s) (l1 ++ (p, m) :: l2) arena ->
  hi < 2 ^ 31 -> 0 <= b -> 0 < n -> arena < b -> Forall (fun x => 0 < x.2 /\ x.1 + x.2 <= hi) l2 ->
  exists k l2', absorb_next (b, n) l2 = (b, k) :: l2' /\
    join_next s b p = Ok (set_cell s b (Slob k (front l2' arena))) /\ (l2' = l2 \/ exists x, l2 = x :: l2').
Proof.
  intros Hb Hc Hhi Hb0 Hn Ha Hl2. apply chain_app in Hc as [_ [Hp Hc]]. cbn in Hp. unfold join_next.
  rewrite (slob_at_some _ _ _ _ Hb), (slob_at_some _ _ _ _ Hp). cbn [mbind res_bind].
  destruct l2 as [|[q k] l2]; cbn [front absorb_next fst snd] in *.
  - exists n, []. rewrite (proj2 (Z.eqb_neq (b + n) arena)) by lia. rewrite (set_next_some _ _ _ _ _ Hb). auto.
  - destruct (b + n =? q) eqn:E.
    + destruct Hc as [Hq Hc]. cbn in Hq. apply Forall_cons in Hl2 as [[? ?] _]. cbn in *. rewrite (slob_at_some _ _ _ _ Hq). cbn [mbind res_bind].
      exists (n + k), l2. rewrite set_both, i32_small by lia. eauto.
    + exists n, ((q, k) :: l2). rewrite (set_next_some _ _ _ _ _ Hb). auto.
Qed.

Lemma join_prev_run s p m nx b k nb :
  cells s !! p = Some (Slob m nx) -> cells s !! b = Some (Slob k nb) -> (p + m = b -> 0 <= m + k < 2 ^ 31) ->
  join_prev s b p = Ok (set_cell s p (if p + m =? b then Slob (m + k) nb else Slob m b)).
Proof.
  intros Hp Hb Hk. unfold join_prev. rewrite (slob_at_some _ _ _ _ Hb), (slob_at_some _ _ _ _ Hp). cbn [mbind res_bind].
  destruct (p + m =? b) eqn:E; [|by rewrite (set_next_some _ _ _ _ _ Hp)].
  rewrite set_both, i32_small; [done|]. specialize (Hk ltac:(lia)). lia.
Qed.

Lemma absorb_next_shift b n k l2 l2' p m :
  absorb_next (b, n) l2 = (b, k) :: l2' -> p + m = b -> absorb_next (p, m + n) l2 = (p, m + k) :: l2'.
Proof.
  intros H Hp. destruct l2 as [|[q j] l2]; cbn in *; [by injection H as <- <-|].
  replace (p + (m + n)) with (b + n) by lia. destruct (b + n =? q); injection H as <- <-; do 2 f_equal; lia.
Qed.

(** Merging in the ring: the blocks of the list and [arena] before them. *)
Lemma coalesce_full l b n l2 l1 p m k l2' :
  arena + 1 < b -> full l = l1 ++ [(p, m)] -> absorb_next (b, n) l2 = (b, k) :: l2' ->
  full (coalesce l b n l2) = l1 ++ (if p + m =? b then (p, m + k) :: l2' else (p, m) :: (b, k) :: l2').
Proof.
  intros Ha Hl Hk. unfold coalesce, absorb_prev. destruct l as [|y l _] using rev_ind.
  - destruct l1 as [|z l1]; [|destruct l1; discriminate]. cbn in Hl. injection Hl as <- <-. cbn [last app]. rewrite Hk.
    by rewrite (proj2 (Z.eqb_neq (arena + 1) b)) by lia.
  - change (full (l ++ [y])) with (full l ++ [y]) in Hl. apply app_inj_tail in Hl as [<- ->]. rewrite last_snoc.
    destruct (p + m =? b) eqn:E.
    + rewrite length_app, Nat.add_1_r; cbn [pred length]. rewrite take_app_length.
      rewrite (absorb_next_shift _ _ _ _ _ p m Hk) by lia. done.
    + rewrite Hk. by rewrite <- app_assoc.
Qed.

Lemma bound_lt g o bl : ordered g o bl -> 0 <= g -> o <= hi -> (forall i, covers bl i -> i < hi) -> bound 0 o bl <= hi.
Proof.
  intros Ho Hg Hlo Hc. destruct bl as [|[q k] l _] using rev_ind; [done|]. rewrite bound_snoc.
  apply ordered_app in Ho as [_ (_ & Hk & _)].
  assert (q + k - 1 < hi); [|lia]. apply Hc, covers_app. right. apply covers_cons. left. lia.
Qed.

(** The blocks of the ring. *)
Lemma ring_elem s fr a u : ring s fr -> (a, u) ∈ fr -> lo <= a /\ 0 < u /\ a + u <= hi.
Proof.
  intros Hr Hin. pose proof (ring_ordered _ _ Hr) as Ho. apply (ordered_weaken 1 0 lo lo) in Ho; [|lia..].
  pose proof (ordered_elem 0 lo fr a u ltac:(done) Ho Hin). pose proof (bound_gap 1 0 lo fr ltac:(lia)). pose proof (ring_bound _ _ Hr). lia.
Qed.

Lemma unused_start s fr b n x : ring s fr -> lo <= b -> 0 < n -> unused fr b n -> x ∈ full fr -> x.1 <> b.
Proof.
  intros Hr Hb Hn Hu Hin E. apply elem_of_cons in Hin as [->|Hin]; [cbn in E; pose proof (ring_low _ _ Hr); lia|].
  destruct x as [a u]. destruct (ring_elem _ _ _ _ Hr Hin) as (_ & ? & _). apply (Hu b); [lia|]. exists a, u. cbn in *. split; [done|lia].
Qed.

(** The header of the block that comes back. *)
Lemma free_header s fr b n size_ :
  ring s fr -> lo <= b -> 0 < n -> unused fr b n ->
  (if size_ =? 0 then exists nx, cells s !! b = Some (Slob n nx) else SLOB_UNITS size_ = n) ->
  exists c nx, (if negb (size_ =? 0) then set_units s b (SLOB_UNITS size_) else s) = Heap (harea s) c (slobfree s) (bigblocks s) /\
    c !! b = Some (Slob n nx) /\ chain c (full fr) arena /\ (size (cells s) <= size c)%nat /\ forall x, x <> b -> c !! x = cells s !! x.
Proof.
  intros Hr Hb Hn Hu Hsize. destruct (size_ =? 0) eqn:E; cbn [negb].
  - destruct Hsize as [nx Hnx]. exists (cells s), nx. split_and!; [by destruct s|done|apply Hr|done|done].
  - exists (<[b := Slob n (match cells s !! b with Some (Slob _ y) => y | _ => 0 end)]> (cells s)). eexists.
    assert (Hout : forall x, x <> b -> <[b := Slob n (match cells s !! b with Some (Slob _ y) => y | _ => 0 end)]> (cells s) !! x = cells s !! x) by (intros; by rewrite lookup_insert_ne by done).
    split_and!; [by rewrite <- Hsize|apply lookup_insert_eq| | |done].
    + eapply chain_outside; [|apply Hr]. intros x Hx. apply Hout. by eapply unused_start.
    + destruct (cells s !! b) eqn:Eb; [rewrite map_size_insert_Some by (by eexists); done|rewrite map_size_insert_None by done; lia].
Qed.

(** The ring after the merging. *)
Lemma merged_ring s fr b n l1 p m k l2' c a bb :
  ring s fr -> lo <= b -> 0 < n -> b + n <= hi -> unused fr b n -> p < b -> p + m <= b ->
  full (below b fr) = l1 ++ [(p, m)] -> full fr = l1 ++ (p, m) :: above b fr ->
  absorb_next (b, n) (above b fr) = (b, k) :: l2' -> chain c (full fr) arena -> (l2' = above b fr \/ exists x, above b fr = x :: l2') ->
  ring (Heap a (<[p := if p + m =? b then Slob (m + k) (front l2' arena) else Slob m b]> (<[b := Slob k (front l2' arena)]> c)) p bb) (free_block b n fr).
Proof.
  intros Hr Hb Hn Hhi Hu Hpb Hpm Hbel Hfull Hk Hc Hl2. pose proof (ring_low _ _ Hr) as Hlow.
  pose proof (coalesce_full (below b fr) b n (above b fr) l1 p m k l2' ltac:(lia) Hbel Hk) as Hnew. fold (free_block b n fr) in Hnew.
  pose proof (free_block_ordered 1 lo fr b n ltac:(lia) Hn Hb (ring_ordered _ _ Hr) Hu) as Ho.
  assert (Hst : forall x, x ∈ full fr -> x.1 <> b) by (intros x Hx; by eapply unused_start).
  pose proof (ordered_nodup _ _ (full_ordered _ _ Hr)) as Hnd. rewrite Hfull in Hnd, Hc, Hst. rewrite fmap_app in Hnd. cbn in Hnd.
  apply NoDup_app in Hnd as (_ & Hd1 & Hnd). apply NoDup_cons in Hnd as [Hd2 _].
  assert (Hsub : forall x, x ∈ l2' -> x ∈ above b fr) by (destruct Hl2 as [->|[y ->]]; set_solver).
  apply chain_app in Hc as [Hc1 [_ Hc2]]. assert (Hc2' : chain c l2' arena) by (destruct Hl2 as [->|[y E]]; [done|rewrite E in Hc2; apply Hc2]).
  split; cbn [cells slobfree]; [apply Hr|done|apply Hr| |done| |].
  - rewrite Hnew. apply chain_app. split.
    + replace (front (if p + m =? b then _ else _) arena) with p by (by case_match). eapply chain_outside; [|exact Hc1]. intros x Hx.
      rewrite lookup_insert_ne by (intros E; apply (Hd1 p); [rewrite E; by apply list_elem_of_fmap_2|set_solver]). rewrite lookup_insert_ne; [done|]. intros E. apply (Hst x); [set_solver|done].
    + assert (Hc3 : forall v w, chain (<[p := v]> (<[b := w]> c)) l2' arena).
      { intros v w. eapply chain_outside; [|exact Hc2']. intros x Hx. rewrite lookup_insert_ne by (intros E; apply Hd2; rewrite E; by apply list_elem_of_fmap_2, Hsub).
        rewrite lookup_insert_ne; [done|]. intros E. apply (Hst x); [set_solver|done]. }
      destruct (p + m =? b); cbn [chain fst snd]; rewrite lookup_insert_eq; [by split|]. rewrite lookup_insert_ne, lookup_insert_eq by lia. by split.
  - apply (bound_lt 0); [eapply ordered_weaken; [| |exact Ho]; lia|done|pose proof (ring_bound _ _ Hr); lia|].
    intros i Hi. apply (free_block_covers 1 lo) in Hi as [(q & j & Hin & Hi)|Hi]; [|lia|lia|done|done|apply Hr|done].
    destruct (ring_elem _ _ _ _ Hr Hin). lia.
  - rewrite Hnew, fmap_app. destruct (p + m =? b); set_solver.
Qed.

(** [slob_free] inserts the block and merges it with its neighbours. *)
Lemma slob_free_run s fr b n size_ :
  ring s fr -> lo <= b -> 0 < n -> b + n <= hi -> unused fr b n ->
  (if size_ =? 0 then exists nx, cells s !! b = Some (Slob n nx) else SLOB_UNITS size_ = n) ->
  exists s', slob_free s (Some b) size_ = Ok s' /\ ring s' (free_block b n fr) /\
    harea s' = harea s /\ bigblocks s' = bigblocks s /\
    forall x, lo <= x -> x <> b -> ~ covers fr x -> cells s' !! x = cells s !! x.
Proof.
  intros Hr Hb Hn Hhi Hu Hsize. pose proof (ring_zero _ _ Hr) as H0. pose proof (ring_low _ _ Hr) as Hlow. pose proof (ring_hi _ _ Hr) as Hi31.
  destruct (place s fr b n Hr Hb Hn Hu) as (l1 & p & m & Hbel & Hfull & Hpb & Hpm & Hp0 & Hab).
  destruct (free_header s fr b n size_ Hr Hb Hn Hu Hsize) as (c & nx & Es0 & Hcb & Hc & Hsz & Hout). unfold slob_free. rewrite Es0.
  assert (Hab' : Forall (fun x => b < x.1 /\ 0 < x.2 /\ x.1 + x.2 <= hi) (above b fr)).
  { apply Forall_forall. intros [q j] Hin. pose proof (ordered_elem 1 (b + n) _ q j ltac:(done) Hab Hin).
    destruct (ring_elem s fr q j Hr) as (? & ? & ?); [|cbn; lia]. rewrite <- (below_above b fr). set_solver. }
  pose proof (full_ordered _ _ Hr) as Ho. pose proof (ring_size _ _ Hr) as Hlen. pose proof (ring_free _ _ Hr) as Hsf. pose proof Hc as Hc'.
  change (S (length fr)) with (length (full fr)) in Hlen. rewrite Hfull in Ho, Hc', Hsf, Hlen. cbn [cells slobfree].
  rewrite (find_run (Heap (harea s) c (slobfree s) (bigblocks s)) l1 p m (above b fr) b Hc' Ho Hpb); [cbn [mbind res_bind]|..].
  2:{ eapply Forall_impl; [exact Hab'|]. tauto. } 2:{ rewrite <- Hbel. done. } 2:lia. 2:done. 2:lia.
  destruct (join_next_run (Heap (harea s) c (slobfree s) (bigblocks s)) l1 p m (above b fr) b n nx Hcb Hc' Hi31 ltac:(lia) Hn ltac:(lia)) as (k & l2' & Hk & -> & Hl2).
  { eapply Forall_impl; [exact Hab'|]. cbn. tauto. }
  cbn [mbind res_bind]. apply chain_app in Hc' as [_ [Hcp _]].
  assert (Hkr : p + m = b -> 0 <= m + k < 2 ^ 31).
  { intros Hpm'. assert (b + k <= hi /\ 0 < k /\ 0 < m) as (? & ? & ?); [|lia]. split_and!.
    - destruct (above b fr) as [|[q j] l]; cbn in Hk; [injection Hk as <- <-; lia|]. apply Forall_cons in Hab' as [Hq _]. cbn in Hq. destruct (b + n =? q) eqn:E; injection Hk as <- <-; lia.
    - destruct (above b fr) as [|[q j] l]; cbn in Hk; [injection Hk as <- <-; lia|]. apply Forall_cons in Hab' as [Hq _]. cbn in Hq. destruct (b + n =? q); injection Hk as <- <-; lia.
    - by apply ordered_at in Ho as (_ & ? & _). }
  erewrite join_prev_run; [|unfold set_cell; cbn; rewrite lookup_insert_ne by lia; exact Hcp|apply lookup_insert_eq|exact Hkr].
  cbn [mbind res_bind]. eexists. split; [reflexivity|]. unfold with_slobfree, set_cell. cbn [harea cells slobfree bigblocks].
  split; [by eapply merged_ring|]. split_and!; [done|done|]. intros x Hx Hxb Hcx. rewrite !lookup_insert_ne; [by apply Hout|done|].
  intros ->. destruct Hp0 as [?|[-> _]]; [|lia]. apply Hcx. exists x, m. split.
  - assert ((x, m) ∈ full fr) as [[= ->]|?]%elem_of_cons by (rewrite Hfull; set_solver); [lia|done].
  - apply ordered_at in Ho as (_ & ? & _); [lia|done].
Qed.
End Ring.
