(* ===== verification/KmallocSearch.v ===== *)
(** The search of [slob_alloc] (lab8/kern/mm/kmalloc.c): it takes the first block that is
    large enough, starting behind [slobfree] and going once round the ring. *)
From S2P Require Import Prelude Lists Page Blocks FreeArea PageTable Kmalloc KmallocRing.

Section Search.
Context (arena lo hi : Z).
Abbreviation full fr := ((arena, 1) :: fr).
Abbreviation ring := (ring arena lo hi).

(** [prev] is the block of the ring before [cur]. *)
Definition prev_ok (s : heap) (fr : list block) (prev cur : Z) : Prop :=
  prev ∈ (full fr).*1 /\ exists u, cells s !! prev = Some (Slob u cur).

Lemma prev_split s fr prev b m nx :
  ring s fr -> prev_ok s fr prev b -> b <> arena -> cells s !! b = Some (Slob m nx) ->
  exists l1 l2 l0 u, fr = l1 ++ (b, m) :: l2 /\ full l1 = l0 ++ [(prev, u)] /\ cells s !! prev = Some (Slob u b) /\ nx = front l2 arena.
Proof.
  intros Hr [Hin [u Hu]] Hb Hm. apply list_elem_of_fmap in Hin as ([p v] & -> & Hin). cbn in Hu. apply list_elem_of_split in Hin as (l0 & l & E).
  pose proof (ring_chain _ _ _ _ _ Hr) as Hc. rewrite E in Hc. apply chain_app in Hc as [_ [Hp Hc]]. cbn in Hp, Hc. rewrite Hu in Hp. injection Hp as -> Hn.
  destruct l as [|[q k] l2]; [done|]. cbn in Hn. subst q. destruct Hc as [Hq _]. cbn in Hq. rewrite Hm in Hq. injection Hq as -> ->.
  destruct l0 as [|y l0]; cbn in E; injection E as Hy E.
  - exists [], l2, [], v. cbn. split_and!; [done|by subst|done|done].
  - exists (l0 ++ [(p, v)]), l2, (y :: l0), v. cbn. subst. rewrite <- app_assoc. split_and!; done.
Qed.

(** * Taking the units *)
Lemma take_cells s prev b m n l2 u :
  cells s !! prev = Some (Slob u b) -> cells s !! b = Some (Slob m (front l2 arena)) -> prev <> b -> prev <> b + n -> 0 < n <= m ->
  exists c, take_units s prev b n = Ok (Heap (harea s) c (slobfree s) (bigblocks s)) /\
    c !! prev = Some (Slob u (front (rest n (b, m) ++ l2) arena)) /\ (exists nx, c !! b = Some (Slob n nx)) /\
    (n < m -> c !! (b + n) = Some (Slob (m - n) (front l2 arena))) /\
    forall x, x <> prev -> x <> b -> (n < m -> x <> b + n) -> c !! x = cells s !! x.
Proof.
  intros Hp Hb Hpb Hpr Hn. unfold take_units. rewrite (slob_at_some _ _ _ _ Hb). cbn [mbind res_bind]. unfold rest. cbn [fst snd].
  destruct (m =? n) eqn:E.
  - apply Z.eqb_eq in E. subst m. rewrite (set_next_some _ _ _ _ _ Hp). eexists. split; [reflexivity|]. rewrite (proj2 (Z.ltb_ge n n)) by lia. cbn [app].
    split_and!; [apply lookup_insert_eq|rewrite lookup_insert_ne by done; eauto|lia|]. intros x Hx _ _. by rewrite lookup_insert_ne.
  - apply Z.eqb_neq in E. rewrite (set_next_some _ _ _ _ _ Hp). set (s1 := set_units _ (b + n) (m - n)).
    assert (Hb1 : cells s1 !! b = Some (Slob m (front l2 arena))) by (cbn; rewrite !lookup_insert_ne by lia; done).
    rewrite (slob_at_some _ _ _ _ Hb1). cbn [mbind res_bind]. unfold s1. rewrite set_both.
    erewrite set_units_some; [|cbn; rewrite !lookup_insert_ne by lia; exact Hb]. eexists. split; [reflexivity|]. rewrite (proj2 (Z.ltb_lt n m)) by lia. cbn.
    split_and!.
    + rewrite !lookup_insert_ne by lia. apply lookup_insert_eq.
    + rewrite lookup_insert_eq. eauto.
    + intros _. rewrite lookup_insert_ne by lia. apply lookup_insert_eq.
    + intros x Hx Hxb Hxr. specialize (Hxr ltac:(lia)). by rewrite !lookup_insert_ne by done.
Qed.

Lemma take_units_run s fr prev b m nx n :
  ring s fr -> prev_ok s fr prev b -> b <> arena -> cells s !! b = Some (Slob m nx) -> 0 < n <= m ->
  exists l1 l2 s', fr = l1 ++ (b, m) :: l2 /\ take_units s prev b n = Ok s' /\
    ring (with_slobfree s' prev) (l1 ++ rest n (b, m) ++ l2) /\ harea s' = harea s /\ bigblocks s' = bigblocks s /\
    (exists nx, cells s' !! b = Some (Slob n nx)) /\ forall x, lo <= x -> ~ covers fr x -> cells s' !! x = cells s !! x.
Proof.
  intros Hr Hprev Hb Hm Hn. destruct (prev_split _ _ _ _ _ _ Hr Hprev Hb Hm) as (l1 & l2 & l0 & u & -> & Hfull & Hu & ->).
  assert (Hall : full (l1 ++ (b, m) :: l2) = l0 ++ (prev, u) :: (b, m) :: l2) by (change (full l1 ++ (b, m) :: l2 = l0 ++ (prev, u) :: (b, m) :: l2); by rewrite Hfull, <- app_assoc).
  pose proof (full_ordered _ _ _ _ _ Hr) as Ho. pose proof (ordered_nodup _ _ Ho) as Hnd. rewrite Hall in Ho, Hnd.
  destruct (ordered_at _ _ _ _ _ _ ltac:(done) Ho) as (Hl0 & Hu0 & Hl). apply Forall_cons in Hl as [Hpb Hl]. cbn in Hpb.
  assert (Hl2 : Forall (fun x => b + m <= x.1) l2).
  { change (l0 ++ (prev, u) :: (b, m) :: l2) with (l0 ++ [(prev, u)] ++ (b, m) :: l2) in Ho. rewrite app_assoc in Ho. apply ordered_at in Ho as (_ & _ & Ho); [|done].
    eapply Forall_impl; [exact Ho|]. cbn. lia. }
  destruct (take_cells s prev b m n l2 u Hu Hm ltac:(lia) ltac:(lia) Hn) as (c & Ht & Hcp & Hcb & Hcr & Hout).
  exists l1, l2. eexists. split; [done|]. split; [exact Ht|]. cbn [harea bigblocks cells with_slobfree]. split; [|split_and!; [done|done|done|]].
  - pose proof (ring_ordered _ _ _ _ _ Hr) as Hor. split; [apply Hr|apply Hr|apply Hr| |by apply carve_ordered| |].
    + cbn [cells]. change (full (l1 ++ rest n (b, m) ++ l2)) with (full l1 ++ rest n (b, m) ++ l2). rewrite Hfull, <- app_assoc.
      pose proof (ring_chain _ _ _ _ _ Hr) as Hc. rewrite Hall in Hc. apply chain_app in Hc as [Hc0 [_ [_ Hc2]]]. cbn in Hc0.
      apply chain_app. split; [eapply chain_outside; [|exact Hc0]; intros x Hx; rewrite Forall_forall in Hl0; specialize (Hl0 x Hx); apply Hout; lia|].
      cbn [app chain fst snd]. split; [exact Hcp|]. apply chain_app.
      assert (Hc2' : chain c l2 arena) by (eapply chain_outside; [|exact Hc2]; intros x Hx; rewrite Forall_forall in Hl2; specialize (Hl2 x Hx); apply Hout; lia).
      split; [|done]. unfold rest. cbn [fst snd]. destruct (n <? m) eqn:E; [|done]. cbn [chain front fst snd]. split; [|done]. apply Hcr. lia.
    + etrans; [|apply Hr]. apply carve_bound; [done|]. apply ordered_app in Hor as [_ (Hb1 & _)]. pose proof (bound_gap 1 0 lo l1 ltac:(lia)). lia.
    + change (full (l1 ++ rest n (b, m) ++ l2)) with (full l1 ++ rest n (b, m) ++ l2). rewrite Hfull, !fmap_app, !elem_of_app. left; right. by apply list_elem_of_singleton.
  - intros x Hx Hcx. assert (Hcov : ~ (b <= x < b + m)) by (intros Hi; apply Hcx, covers_app; right; apply covers_cons; by left).
    apply Hout; [|lia..]. intros ->. assert ((prev, u) ∈ full (l1 ++ (b, m) :: l2)) as [[= -> ->]|Hin]%elem_of_cons by (rewrite Hall; set_solver); [pose proof (ring_low _ _ _ _ _ Hr); lia|].
    apply Hcx. exists prev, u. split; [done|lia].
Qed.

(** * Searching *)
Section Walk.
Context (alloc : alloc_pages_t) (npage size_ n : Z) (Hn : 1 < n).
Abbreviation turn := (alloc_turn alloc npage size_ n 0).

(** What the search does at a block that is large enough. *)
Definition taken (s : heap) (prev b : Z) : res (heap * option Z) := s' ← take_units s prev b n; Ok (with_slobfree s' prev, Some b).

Lemma turn_hit s prev cur u nx fuel :
  cells s !! cur = Some (Slob u nx) -> n <= u -> loop turn (S fuel) (s, prev, cur) = taken s prev cur.
Proof.
  intros Hc Hu. rewrite loop_S. unfold alloc_turn, taken. rewrite (slob_at_some _ _ _ _ Hc). cbn [mbind res_bind]. rewrite Z.eqb_refl, Z.add_0_r, (proj2 (Z.leb_le n u)) by done.
  cbn [negb]. rewrite Z.eqb_refl. cbn [negb]. by destruct (take_units s prev cur n).
Qed.

Lemma turn_skip s prev cur u nx fuel :
  cells s !! cur = Some (Slob u nx) -> u < n -> cur <> slobfree s -> loop turn (S fuel) (s, prev, cur) = loop turn fuel (s, cur, nx).
Proof.
  intros Hc Hu Hf. rewrite loop_S. unfold alloc_turn at 1. rewrite (slob_at_some _ _ _ _ Hc). cbn [mbind res_bind].
  rewrite Z.eqb_refl, Z.add_0_r, (proj2 (Z.leb_gt n u)), (proj2 (Z.eqb_neq _ _) Hf) by done. done.
Qed.

(** A stretch of the ring: either a block of it is taken, the first that is large enough, or
    the search leaves it behind. *)
Lemma search_stretch s fr v nx prev fuel :
  chain (cells s) v nx -> (forall x, x ∈ v -> x ∈ full fr /\ x.1 <> slobfree s) -> prev_ok s fr prev (front v nx) ->
  match first_fit n v with
  | Some (b, _) => exists prev' m nx', n <= m /\ cells s !! b = Some (Slob m nx') /\ prev_ok s fr prev' b /\ (b, m) ∈ v /\
      loop turn (length v + fuel) (s, prev, front v nx) = taken s prev' b
  | None => exists prev', prev_ok s fr prev' nx /\ loop turn (length v + fuel) (s, prev, front v nx) = loop turn fuel (s, prev', nx)
  end.
Proof.
  revert prev. induction v as [|[a u] v IH]; intros prev Hc Hv Hp; cbn [first_fit front fst snd length Nat.add]; [exists prev; done|].
  destruct Hc as [Ha Hc]. cbn in Ha. destruct (n <=? u) eqn:E.
  - exists prev, u, (front v nx). rewrite (turn_hit _ _ _ _ _ _ Ha) by lia. split_and!; [lia|done|done|by left|done].
  - destruct (Hv (a, u) ltac:(by left)) as [Hin Hne]. cbn in Hne.
    assert (Hp' : prev_ok s fr a (front v nx)) by (split; [by apply (list_elem_of_fmap_2 fst) in Hin|eauto]).
    specialize (IH a Hc ltac:(intros x Hx; apply Hv; by right) Hp'). rewrite (turn_skip _ _ _ _ _ _ Ha) by (done || lia).
    destruct (first_fit n v) as [[b v']|]; cbn; [|done]. destruct IH as (prev' & m & nx' & ? & ? & ? & ? & ?). exists prev', m, nx'. split_and!; [done|done|done|by right|done].
Qed.

(** The order of the search: behind [slobfree], round the ring, [slobfree] last. *)
Definition round (s : heap) (fr : list block) : list block := above (slobfree s) (full fr) ++ below (slobfree s) (full fr).

Lemma first_fit_app l1 l2 : first_fit n (l1 ++ l2) = match first_fit n l1 with Some (b, l) => Some (b, l ++ l2) | None => '(b, l) ← first_fit n l2; Some (b, l1 ++ l) end.
Proof.
  induction l1 as [|x l1 IH]; cbn; [by destruct (first_fit n l2) as [[??]|]|]. destruct (n <=? x.2); [by rewrite app_assoc|]. rewrite IH.
  destruct (first_fit n l1) as [[??]|]; cbn; [done|]. by destruct (first_fit n l2) as [[??]|].
Qed.

Lemma free_place s fr :
  ring s fr -> exists l1 u, full fr = l1 ++ (slobfree s, u) :: above (slobfree s) (full fr) /\ below (slobfree s) (full fr) = l1 ++ [(slobfree s, u)] /\
    Forall (fun x => x.1 <> slobfree s) (l1 ++ above (slobfree s) (full fr)).
Proof.
  intros Hr. pose proof (ring_free _ _ _ _ _ Hr) as ([f u] & E & Hin)%list_elem_of_fmap. cbn in E. rewrite E. clear E. pose proof (full_ordered _ _ _ _ _ Hr) as Ho.
  apply list_elem_of_split in Hin as (l1 & l2 & E). rewrite E in *. destruct (ordered_at _ _ _ _ _ _ ltac:(done) Ho) as (H1 & Hu & H2).
  assert (Hab : above f (l1 ++ (f, u) :: l2) = l2 /\ below f (l1 ++ (f, u) :: l2) = l1 ++ [(f, u)]).
  { clear -H1 H2 Hu. induction l1 as [|[a v] l1 IH]; cbn.
    - rewrite (proj2 (Z.ltb_ge f f)) by lia. destruct l2 as [|[q k] l2]; cbn; [done|]. apply Forall_cons in H2 as [Hq _]. cbn in Hq. by rewrite (proj2 (Z.ltb_lt f q)) by lia.
    - apply Forall_cons in H1 as [Ha H1]. cbn in Ha. rewrite (proj2 (Z.ltb_ge f a)) by lia. destruct (IH H1) as [-> ->]. done. }
  destruct Hab as [-> ->]. exists l1, u. split_and!; [done|done|]. apply Forall_app. split; eapply Forall_impl; try done; cbn; lia.
Qed.

(** One round: the first block that is large enough is taken, and when there is none the
    search comes to [slobfree]. *)
Lemma search_round s fr cur fuel :
  ring s fr -> (exists u, cells s !! slobfree s = Some (Slob u cur)) ->
  match first_fit n (round s fr) with
  | Some (b, _) => exists prev m nx, n <= m /\ cells s !! b = Some (Slob m nx) /\ prev_ok s fr prev b /\ (b, m) ∈ fr /\
      loop turn (S (length fr) + fuel) (s, slobfree s, cur) = taken s prev b
  | None => exists prev u nx, cells s !! slobfree s = Some (Slob u nx) /\ u < n /\
      loop turn (S (length fr) + fuel) (s, slobfree s, cur) = loop turn (S fuel) (s, prev, slobfree s)
  end.
Proof.
  intros Hr [u0 Hf]. destruct (free_place s fr Hr) as (l1 & u & E & Eb & Hne). unfold round. rewrite Eb. set (B := above _ _) in *. clearbody B.
  pose proof (ring_chain _ _ _ _ _ Hr) as Hc. rewrite E in Hc. apply chain_app in Hc as [Hc1 [Hcf Hc2]]. cbn in Hcf, Hc1. rewrite Hf in Hcf. injection Hcf as -> ->.
  apply Forall_app in Hne as [Hne1 Hne2]. rewrite Forall_forall in Hne1. rewrite Forall_forall in Hne2.
  assert (Hfr : forall b m, n <= m -> (b, m) ∈ full fr -> (b, m) ∈ fr) by (intros b m Hm [[= -> ->]|?]%elem_of_cons; [lia|done]).
  assert (Hlen : (S (length fr) + fuel = length B + (length l1 + S fuel))%nat).
  { change (S (length fr)) with (length (full fr)). rewrite E, length_app. cbn. lia. }
  assert (Hfront : front l1 (slobfree s) = arena) by (destruct l1 as [|y l1]; cbn in E |- *; by injection E as <- _).
  assert (Hp0 : prev_ok s fr (slobfree s) (front B arena)) by (split; [apply Hr|by eexists]).
  pose proof (search_stretch s fr B arena (slobfree s) (length l1 + S fuel) Hc2 ltac:(intros x Hx; rewrite E; split; [set_solver|by apply Hne2]) Hp0) as H1.
  rewrite Hlen, first_fit_app. destruct (first_fit n B) as [[b B']|].
  { destruct H1 as (prev & m & nx & ? & ? & ? & ? & ?). exists prev, m, nx. split_and!; try done. apply Hfr; [done|]. rewrite E. set_solver. }
  destruct H1 as (prev & Hp & ->). rewrite <- Hfront in Hp |- *.
  pose proof (search_stretch s fr l1 (slobfree s) prev (S fuel) Hc1 ltac:(intros x Hx; rewrite E; split; [set_solver|by apply Hne1]) Hp) as H2.
  rewrite first_fit_app. destruct (first_fit n l1) as [[b B']|]; cbn [mbind option_bind].
  { destruct H2 as (prev' & m & nx & ? & ? & ? & ? & ?). exists prev', m, nx. split_and!; try done. apply Hfr; [done|]. rewrite E. set_solver. }
  destruct H2 as (prev' & Hp' & ->). cbn [first_fit snd fst]. destruct (n <=? u) eqn:Eu; cbn.
  - exists prev', u, (front B arena). split_and!; [lia|done|done| |apply (turn_hit _ _ _ _ _ _ Hf); lia]. apply Hfr; [lia|]. rewrite E. set_solver.
  - exists prev', u, (front B arena). split_and!; [done|lia|done].
Qed.
End Walk.
End Search.
