(* ===== verification/KmallocHeap.v ===== *)
(** The SLOB allocator over the page allocator (lab8/kern/mm/kmalloc.c): the heap pages, the
    units of which are free or in a block in use, and [slob_alloc] and [slob_free] on them. *)
From S2P Require Import Prelude Lists Page Blocks FreeArea StateM Vmm PageTable Kmalloc KmallocRing KmallocSearch.

(** * Blocks that do not overlap *)
Definition apart (l : list block) : Prop := ForallOrdPairs (fun x y => ~ overlap x y) l.

Lemma overlap_sym x y : overlap x y -> overlap y x.
Proof. intros (i & ? & ?). by exists i. Qed.

Lemma apart_cons x l : apart (x :: l) <-> Forall (fun y => ~ overlap x y) l /\ apart l.
Proof. split; [by inversion 1|]. intros [? ?]. by constructor. Qed.

Lemma apart_perm l l' : l ≡ₚ l' -> apart l -> apart l'.
Proof.
  induction 1 as [|x l l' Hp IH|x y l|l1 l2 l3 _ IH1 _ IH2]; [done| | |tauto]; rewrite !apart_cons.
  - intros [Hx ?]. split; [|tauto]. by rewrite <- Hp.
  - rewrite !Forall_cons. intros ((Hyx & ?) & ? & ?). split_and!; try done. by intros ?%overlap_sym.
Qed.

#[export] Instance apart_proper : Proper (Permutation ==> iff) apart.
Proof. intros l l' Hp. split; apply apart_perm; [done|by symmetry]. Qed.

Lemma covers_perm l l' i : l ≡ₚ l' -> covers l i <-> covers l' i.
Proof. intros Hp. unfold covers. by setoid_rewrite Hp. Qed.

Lemma PAGE_UNITS_eq : PAGE_UNITS = 256.
Proof. done. Qed.

(** * Merging *)
Lemma free_block_length b n fr : (length (free_block b n fr) <= S (length fr))%nat.
Proof.
  assert (Ha : forall x l, (length (absorb_next x l) <= S (length l))%nat) by (intros x [|[q k] l]; cbn; [lia|]; destruct (_ =? _); cbn; lia).
  pose proof (f_equal length (below_above b fr)) as Hl. rewrite length_app in Hl. unfold free_block, coalesce, absorb_prev.
  destruct (last (below b fr)) as [[p m]|]; [destruct (p + m =? b)|]; rewrite length_app, ?length_take.
  - pose proof (Ha (p, m + n) (above b fr)). lia.
  - pose proof (Ha (b, n) (above b fr)). lia.
  - pose proof (Ha (b, n) (above b fr)). lia.
Qed.

Lemma free_block_large b n fr : Forall (fun x => 0 <= x.2) fr -> exists q j, (q, j) ∈ free_block b n fr /\ n <= j.
Proof.
  intros Hfr. unfold free_block, coalesce, absorb_prev. rewrite <- (below_above b fr), Forall_app in Hfr. destruct Hfr as [H1 H2].
  assert (Ha : forall x l, Forall (fun x => 0 <= x.2) l -> exists j, (x.1, j) ∈ absorb_next x l /\ x.2 <= j).
  { intros x [|[q k] l] Hl; cbn; [exists x.2; destruct x; set_solver|]. apply Forall_cons in Hl as [Hk _]. cbn in Hk.
    destruct (_ =? _); cbn; [exists (x.2 + k); split; [by left|lia]|exists x.2; destruct x; split; [by left|done]]. }
  rewrite last_lookup. destruct (below b fr !! _) as [[p m]|] eqn:E; [|destruct (Ha (b, n) _ H2) as (j & ? & ?); exists b, j; set_solver].
  apply list_elem_of_lookup_2 in E. rewrite Forall_forall in H1. specialize (H1 _ E). cbn in H1.
  destruct (p + m =? b); [destruct (Ha (p, m + n) _ H2) as (j & ? & ?); exists p, j|destruct (Ha (b, n) _ H2) as (j & ? & ?); exists b, j]; cbn in *; (split; [set_solver|lia]).
Qed.

Section Heap.
Context `{PageAllocator alloc free} (npg arena lo : Z) (Hnpg : npg <= 2 ^ 22).
Abbreviation npage := (npg + nbase).
Abbreviation hi := (PAGE_UNITS * npg).
Abbreviation full fr := ((arena, 1) :: fr).

(** * The frames *)

(** The frames the heap holds: in use, apart, above [KERNBASE], and from the unit [lo] on,
    which is above [arena]. *)
Record frames_ok (a : free_area) (bl held : list block) : Prop := FramesOk {
  fo_area : fl_inv npg 0 a bl;
  fo_free i : covers bl i -> KERNBASE_UNIT <= PAGE_UNITS * i /\ lo <= PAGE_UNITS * i;
  fo_held : Forall (fun x => (KERNBASE_UNIT <= PAGE_UNITS * x.1 /\ lo <= PAGE_UNITS * x.1) /\ 0 < x.2 /\ in_use a bl x.1 x.2) held;
  fo_apart : apart held
}.

Lemma frames_perm a bl l l' : l ≡ₚ l' -> frames_ok a bl l -> frames_ok a bl l'.
Proof. intros Hp [? ? Hh Ha]. split; [done|done|by rewrite <- Hp|by rewrite <- Hp]. Qed.

Lemma in_use_range a bl b n i : fl_inv npg 0 a bl -> in_use a bl b n -> b <= i < b + n -> 0 <= i < npg.
Proof. intros Hi Hu Hb. destruct (Hu i Hb) as [(q & Hq & _) _]. apply (fl_pages _ _ _ _ Hi). by exists q. Qed.

Lemma get_pages_run s bl held order :
  frames_ok (harea s) bl held -> 0 <= order ->
  exists a r, __slob_get_free_pages alloc npage s order = Ok (with_harea s a, r) /\
    match r with
    | None => a = harea s /\ Forall (fun x => x.2 < 2 ^ order) bl
    | Some u => exists p bl', u = PAGE_UNITS * p /\ frames_ok a bl' ((p, 2 ^ order) :: held) /\ total bl' = total bl - 2 ^ order
    end.
Proof.
  intros [Hi Hf Hh Ha] Ho. assert (0 < 2 ^ order) by lia. unfold __slob_get_free_pages. rewrite Z.shiftl_1_l.
  destruct (pa_alloc npg (harea s) bl (2 ^ order) Hi ltac:(lia) ltac:(done)) as (a & r & E & Hr). rewrite E. cbn [mbind res_bind]. destruct r as [p|].
  - destruct Hr as (bl' & Hi' & Hu & Ht & Hc & Hk). pose proof (in_use_range _ _ _ _ p Hi' Hu ltac:(lia)). rewrite page2kva_run by done. cbn [mbind res_bind].
    exists a, (Some (PAGE_UNITS * p)). split; [done|]. exists p, bl'. split; [done|]. split; [|done]. split; [done|intros i Hci; apply Hf, Hc; by left| |].
    + constructor; cbn.
      * split; [apply Hf, Hc; right; lia|by split].
      * eapply Forall_impl; [exact Hh|]. cbn. intros x (? & ? & Hx). split; [done|]. split; [done|]. by apply Hk.
    + apply apart_cons. split; [|done]. eapply Forall_impl; [exact Hh|]. cbn. intros x (? & ? & Hx) (i & ? & ?). cbn in *. by apply (proj2 (Hk _ _ Hx) i).
  - destruct Hr as [-> Hr]. exists (harea s), None. by destruct s.
Qed.

Lemma free_pages_run s bl held p order :
  frames_ok (harea s) bl ((p, 2 ^ order) :: held) -> 0 <= order -> can_free (harea s) p ->
  exists a bl', __slob_free_pages free npage s (PAGE_UNITS * p) order = Ok (with_harea s a) /\ frames_ok a bl' held /\ total bl' = total bl + 2 ^ order.
Proof.
  intros [Hi Hf Hh Ha] Ho Hc. assert (0 < 2 ^ order) by lia. apply Forall_cons in Hh as [([Hk Hlo] & _ & Hu) Hh]. apply apart_cons in Ha as [Hd Ha]. cbn in Hk, Hlo, Hu.
  pose proof (in_use_range _ _ _ _ p Hi Hu ltac:(lia)) as Hp. unfold __slob_free_pages. rewrite (proj2 (Z.leb_le _ _) Hk). cbn [c_assert mbind res_bind].
  replace (PAGE_UNITS * p / PAGE_UNITS) with p by (rewrite Z.mul_comm, Z.div_mul; done). fold (page2kva npage p). unfold pa2page.
  rewrite page2pa_PPN by lia. rewrite (proj2 (Z.leb_gt _ _)) by lia. rewrite Z.add_simpl_r. cbn [mbind res_bind]. rewrite Z.shiftl_1_l.
  destruct (pa_free npg (harea s) bl p (2 ^ order) Hi ltac:(done) Hu) as (a & bl' & E & Hi' & Ht & Hcv & Hk'); [by eapply can_free_not_last|].
  rewrite E. cbn [mbind res_bind]. exists a, bl'. split; [done|]. split; [|done]. split; [done| | |done].
  - intros i [?|Hi2]%Hcv; [by apply Hf|]. cbn in Hi2. rewrite PAGE_UNITS_eq in *. lia.
  - eapply Forall_impl; [exact (proj2 (Forall_and _ _) (conj Hh Hd))|]. cbn. intros x [(? & ? & Hx) Hov]. split; [done|]. split; [done|]. apply Hk'; [done|].
    intros i Hi1 Hi2. apply Hov. by exists i.
Qed.

(** * The units *)

(** [fr] are the free blocks, [used] the blocks in use; they share the pages [hp] of the heap
    and leave no unit of them out. *)
Record heap_ok (s : heap) (fr : list block) (hp : list Z) (used : list block) : Prop := HeapOk {
  ho_ring : ring arena lo hi s fr;
  ho_used : Forall (fun x => lo <= x.1 /\ 0 < x.2 /\ unused fr x.1 x.2) used;
  ho_apart : apart used;
  ho_pages : Forall (fun p => lo <= PAGE_UNITS * p /\ p < npg) hp;
  ho_cover i : covers fr i \/ covers used i <-> i / PAGE_UNITS ∈ hp
}.

Lemma heap_perm s fr hp l l' : l ≡ₚ l' -> heap_ok s fr hp l -> heap_ok s fr hp l'.
Proof.
  intros Hp [? ? ? ? Hc]. split; [done|by rewrite <- Hp|by rewrite <- Hp|done|]. intros i. by rewrite <- Hc, (covers_perm l l').
Qed.

Lemma unit_page i p : i / PAGE_UNITS = p <-> PAGE_UNITS * p <= i < PAGE_UNITS * p + PAGE_UNITS.
Proof. rewrite PAGE_UNITS_eq. split; intros; [subst|]; Z.to_euclidean_division_equations; lia. Qed.

Lemma used_hi s fr hp used b n : heap_ok s fr hp used -> (b, n) ∈ used -> lo <= b /\ 0 < n /\ unused fr b n /\ b + n <= hi.
Proof.
  intros Hh Hin. pose proof (ho_used _ _ _ _ Hh) as Hu. rewrite Forall_forall in Hu. destruct (Hu _ Hin) as (Hb & Hn & Hf). cbn in *. split_and!; try done.
  assert (covers used (b + n - 1)) as Hc by (exists b, n; split; [done|lia]).
  assert ((b + n - 1) / PAGE_UNITS ∈ hp) as Hp by (apply (ho_cover _ _ _ _ Hh); by right).
  pose proof (ho_pages _ _ _ _ Hh) as Hps. rewrite Forall_forall in Hps. specialize (Hps _ Hp). pose proof (proj1 (unit_page (b + n - 1) _) eq_refl).
  rewrite PAGE_UNITS_eq in *. lia.
Qed.

Lemma slob_free_ok s fr hp used b n size_ :
  heap_ok s fr hp ((b, n) :: used) -> (if size_ =? 0 then exists nx, cells s !! b = Some (Slob n nx) else SLOB_UNITS size_ = n) ->
  exists s', slob_free s (Some b) size_ = Ok s' /\ heap_ok s' (free_block b n fr) hp used /\ harea s' = harea s /\ bigblocks s' = bigblocks s /\
    forall x, lo <= x -> x <> b -> ~ covers fr x -> cells s' !! x = cells s !! x.
Proof.
  intros Hh Hsize. destruct (used_hi _ _ _ _ b n Hh ltac:(by left)) as (Hb & Hn & Hu & Hhi). pose proof Hh as [Hr Hus Hap Hps Hcov].
  destruct (slob_free_run arena lo hi s fr b n size_ Hr Hb Hn Hhi Hu Hsize) as (s' & E & Hr' & Ha & Hbb & Hout). exists s'. split; [done|]. split; [|done].
  apply Forall_cons in Hus as [_ Hus]. apply apart_cons in Hap as [Hd Hap].
  pose proof (fun i => free_block_covers 1 lo fr b n i ltac:(lia) Hn Hb (ring_ordered _ _ _ _ _ Hr) Hu) as Hfb. split; [done| |done|done|].
  - eapply Forall_impl; [exact (proj2 (Forall_and _ _) (conj Hus Hd))|]. cbn. intros x [(? & ? & Hx) Hov]. split_and!; [done|done|]. intros i Hi [?|?]%Hfb; [by apply (Hx i)|]. apply Hov. by exists i.
  - intros i. rewrite Hfb, <- Hcov, covers_cons. tauto.
Qed.

(** A page joins the heap. *)
Lemma slob_grow_ok s fr hp used p :
  heap_ok s fr hp used -> lo <= PAGE_UNITS * p -> p < npg -> p ∉ hp ->
  exists s', slob_free s (Some (PAGE_UNITS * p)) PAGE_SIZE = Ok s' /\ heap_ok s' (free_block (PAGE_UNITS * p) PAGE_UNITS fr) (p :: hp) used /\
    harea s' = harea s /\ bigblocks s' = bigblocks s /\
    forall x, lo <= x -> x / PAGE_UNITS <> p -> ~ covers fr x -> cells s' !! x = cells s !! x.
Proof.
  intros [Hr Hus Hap Hps Hcov] Hlp Hp Hnp. pose proof PAGE_UNITS_eq as HP.
  assert (Hnew : forall i, PAGE_UNITS * p <= i < PAGE_UNITS * p + PAGE_UNITS -> ~ (covers fr i \/ covers used i)).
  { intros i Hi Hc. apply Hcov in Hc. apply unit_page in Hi. by rewrite Hi in Hc. }
  assert (Hu : unused fr (PAGE_UNITS * p) PAGE_UNITS) by (intros i Hi Hc; apply (Hnew i Hi); by left).
  destruct (slob_free_run arena lo hi s fr (PAGE_UNITS * p) PAGE_UNITS PAGE_SIZE Hr ltac:(lia) ltac:(lia) ltac:(lia) Hu ltac:(done)) as (s' & E & Hr' & Ha & Hbb & Hout).
  exists s'. split; [done|]. pose proof (fun i => free_block_covers 1 lo fr (PAGE_UNITS * p) PAGE_UNITS i ltac:(lia) ltac:(lia) ltac:(lia) (ring_ordered _ _ _ _ _ Hr) Hu) as Hfb. split_and!; [|done|done|].
  - split; [done| |done|by constructor|].
    + apply Forall_forall. intros [b n] Hin. rewrite Forall_forall in Hus. destruct (Hus _ Hin) as (? & ? & Hx). cbn in *. split_and!; [done|done|].
      intros i Hi [?|Hpg]%Hfb; [by apply (Hx i)|]. apply (Hnew i Hpg). right. by exists b, n.
    + intros i. rewrite Hfb, elem_of_cons, <- Hcov, unit_page. tauto.
  - intros x Hx Hxp Hc. apply Hout; [done| |done]. intros ->. apply Hxp. apply unit_page. lia.
Qed.

(** Units leave the ring. *)
Lemma taken_ok s fr hp used prev b m nx n :
  heap_ok s fr hp used -> prev_ok arena s fr prev b -> (b, m) ∈ fr -> cells s !! b = Some (Slob m nx) -> 0 < n <= m ->
  exists s' fr', taken n s prev b = Ok (s', Some b) /\ heap_ok s' fr' hp ((b, n) :: used) /\ harea s' = harea s /\ bigblocks s' = bigblocks s /\
    (exists nx, cells s' !! b = Some (Slob n nx)) /\ forall x, lo <= x -> ~ covers fr x -> cells s' !! x = cells s !! x.
Proof.
  intros [Hr Hus Hap Hps Hcov] Hprev Hin Hm Hn. destruct (ring_elem _ _ _ _ _ _ _ Hr Hin) as (Hb & Hm0 & _). pose proof (ring_low _ _ _ _ _ Hr).
  destruct (take_units_run arena lo hi s fr prev b m nx n Hr Hprev ltac:(lia) Hm Hn) as (l1 & l2 & s' & -> & E & Hr' & Ha & Hbb & Hh & Hout).
  exists (with_slobfree s' prev), (l1 ++ rest n (b, m) ++ l2). unfold taken. rewrite E. cbn [mbind res_bind]. split; [done|]. split; [|done].
  pose proof (fun i => carve_taken 1 lo l1 b m l2 n i ltac:(lia) Hn (ring_ordered _ _ _ _ _ Hr)) as Hct.
  pose proof (fun i => carve_covers 1 lo l1 b m l2 n i ltac:(lia) Hn (ring_ordered _ _ _ _ _ Hr)) as Hcc. split; [done| | |done|].
  - constructor; cbn.
    + split_and!; [done|lia|]. intros i Hi Hc. apply Hcc in Hc. tauto.
    + eapply Forall_impl; [exact Hus|]. cbn. intros x (? & ? & Hx). split_and!; [done|done|]. intros i Hi Hc. apply (Hx i Hi). apply Hcc in Hc. tauto.
  - apply apart_cons. split; [|done]. eapply Forall_impl; [exact Hus|]. cbn. intros x (? & ? & Hx) (i & Hi1 & Hi2). cbn in Hi1. apply (Hx i Hi2), Hct. by right.
  - intros i. rewrite <- Hcov, Hct, covers_cons. tauto.
Qed.

Lemma free_at_slob s fr hp used : heap_ok s fr hp used -> exists u nx, slob_at s (slobfree s) = Ok (u, nx) /\ cells s !! slobfree s = Some (Slob u nx).
Proof.
  intros Hh. pose proof (ring_free _ _ _ _ _ (ho_ring _ _ _ _ Hh)) as ([f u] & E & Hin)%list_elem_of_fmap. cbn in E. rewrite E.
  destruct (chain_elem _ _ _ _ _ (ring_chain _ _ _ _ _ (ho_ring _ _ _ _ Hh)) Hin) as [nx Hnx]. exists u, nx. split; [by apply slob_at_some|done].
Qed.

Lemma round_elem s fr x : x ∈ round arena s fr <-> x ∈ full fr.
Proof. unfold round. rewrite <- (below_above (slobfree s) (full fr)) at 3. rewrite !elem_of_app. tauto. Qed.

(** A search in a heap that has a large enough block. *)
Lemma search_ok s fr hp used size_ n cur fuel :
  heap_ok s fr hp used -> (exists u, cells s !! slobfree s = Some (Slob u cur)) -> 1 < n -> Exists (fun x => n <= x.2) fr -> (S (length fr) <= fuel)%nat ->
  exists s' fr' b, loop (alloc_turn alloc npage size_ n 0) fuel (s, slobfree s, cur) = Ok (s', Some b) /\ heap_ok s' fr' hp ((b, n) :: used) /\
    harea s' = harea s /\ bigblocks s' = bigblocks s /\ (exists nx, cells s' !! b = Some (Slob n nx)) /\ forall x, lo <= x -> ~ covers fr x -> cells s' !! x = cells s !! x.
Proof.
  intros Hh Hcur Hn Hbig Hf. replace fuel with (S (length fr) + (fuel - S (length fr)))%nat by lia.
  pose proof (search_round arena lo hi alloc npage size_ n Hn s fr cur (fuel - S (length fr)) (ho_ring _ _ _ _ Hh) Hcur) as Hs.
  destruct (first_fit n (round arena s fr)) as [[b ?]|] eqn:E.
  - destruct Hs as (prev & m & nx & ? & ? & ? & ? & ->). destruct (taken_ok s fr hp used prev b m nx n Hh) as (s' & fr' & ? & ? & ?); [done|done|done|lia|]. by exists s', fr', b.
  - exfalso. apply first_fit_none in E. apply Exists_exists in Hbig as (x & Hx & Hxn). rewrite Forall_forall in E. specialize (E x ltac:(rewrite round_elem; by right)). lia.
Qed.

Lemma no_blocks bl : ordered 0 0 bl -> Forall (fun x => x.2 < 1) bl -> total bl = 0.
Proof. destruct bl as [|[b k] bl]; [done|]. intros (_ & ? & _) [Hb _]%Forall_cons. cbn in Hb. lia. Qed.

(** At the end of a round without success the heap grows by a page. *)
Lemma turn_page s prev u nx n size_ fuel :
  cells s !! slobfree s = Some (Slob u nx) -> u < n -> size_ <> PAGE_SIZE ->
  loop (alloc_turn alloc npage size_ n 0) (S fuel) (s, prev, slobfree s) =
    ('(s, page) ← __slob_get_free_pages alloc npage s 0;
     match page with
     | None => Ok (s, None)
     | Some _ => s ← slob_free s page PAGE_SIZE; '(_, next) ← slob_at s (slobfree s); loop (alloc_turn alloc npage size_ n 0) fuel (s, slobfree s, next)
     end).
Proof.
  intros Hc Hu Hs. rewrite loop_S. unfold alloc_turn at 1. rewrite (slob_at_some _ _ _ _ Hc). cbn [mbind res_bind].
  rewrite !Z.eqb_refl, Z.add_0_r, (proj2 (Z.leb_gt n u)), (proj2 (Z.eqb_neq _ _) Hs) by done.
  destruct (__slob_get_free_pages alloc npage s 0) as [[s1 [pg|]]| | |]; cbn [mbind res_bind]; try done.
  destruct (slob_free s1 (Some pg) PAGE_SIZE) as [s2| | |]; cbn [mbind res_bind]; try done. by destruct (slob_at s2 (slobfree s2)) as [[? ?]| | |].
Qed.

Lemma round_none s fr n : 1 < n -> ~ Exists (fun x => n <= x.2) fr -> first_fit n (round arena s fr) = None.
Proof.
  intros Hn Hs. apply first_fit_none, Forall_forall. intros x [->|Hx]%round_elem%elem_of_cons; [cbn; lia|].
  destruct (decide (n <= x.2)); [|lia]. destruct Hs. apply Exists_exists. by exists x.
Qed.

Lemma used_kept s fr hp used x : heap_ok s fr hp used -> covers used x -> ~ covers fr x.
Proof. intros Hh (b & n & Hin & Hi). pose proof (ho_used _ _ _ _ Hh) as Hu. rewrite Forall_forall in Hu. destruct (Hu _ Hin) as (_ & _ & Hx). by apply Hx. Qed.

(** [slob_alloc] gives away a block of the asked size, from the ring or from a new page, or
    finds no page left. *)
Lemma slob_alloc_ok s bl held fr hp used size_ :
  frames_ok (harea s) bl held -> (forall p, p ∈ hp -> (p, 1) ∈ held) -> heap_ok s fr hp used -> SLOB_UNIT < size_ < PAGE_SIZE - SLOB_UNIT ->
  exists s' r, slob_alloc alloc npage s size_ 0 = Ok (s', r) /\ bigblocks s' = bigblocks s /\
    match r with
    | None => s' = s /\ total bl = 0
    | Some b => exists fr' hp' held' bl', heap_ok s' fr' hp' ((b, SLOB_UNITS size_) :: used) /\ frames_ok (harea s') bl' held' /\
        ((hp' = hp /\ held' = held /\ bl' = bl) \/ (exists p, hp' = p :: hp /\ held' = (p, 1) :: held /\ total bl' = total bl - 1)) /\
        (exists nx, cells s' !! b = Some (Slob (SLOB_UNITS size_) nx)) /\ forall x, lo <= x -> covers used x -> cells s' !! x = cells s !! x
    end.
Proof.
  intros Hfo Hheld Hh Hsize. set (n := SLOB_UNITS size_). assert (Hn : 1 < n <= 256) by (unfold n, SLOB_UNITS, SLOB_UNIT, PAGE_SIZE in *; Z.to_euclidean_division_equations; lia).
  destruct (free_at_slob _ _ _ _ Hh) as (u & nx & Esl & Hsl). unfold slob_alloc. rewrite u64_small by (unfold SLOB_UNIT, PAGE_SIZE in *; lia).
  rewrite (proj2 (Z.ltb_lt _ _)) by lia. cbn [c_assert mbind res_bind]. rewrite Esl. cbn [mbind res_bind]. fold n.
  pose proof (ring_size _ _ _ _ _ (ho_ring _ _ _ _ Hh)) as Hsz.
  pose proof (fun x => used_kept s fr hp used x Hh) as Hkeep.
  destruct (decide (Exists (fun x => n <= x.2) fr)) as [Hbig|Hsmall].
  { destruct (search_ok s fr hp used size_ n nx (S (S (2 * size (cells s)))) Hh ltac:(eauto) ltac:(lia) Hbig ltac:(lia)) as (s' & fr' & b & -> & Hh' & Ha & Hbb & Hnx & Hout).
    exists s', (Some b). split; [done|]. split; [done|]. exists fr', hp, held, bl. rewrite Ha. split_and!; [done|done|by left|done|]. intros x Hx Hc. apply Hout; [done|by apply Hkeep]. }
  pose proof (search_round arena lo hi alloc npage size_ n ltac:(lia) s fr nx (S (S (2 * size (cells s))) - S (length fr)) (ho_ring _ _ _ _ Hh) ltac:(eauto)) as Hs.
  rewrite (round_none s fr n ltac:(lia) Hsmall) in Hs. destruct Hs as (prev & u' & nx' & Hsl' & Hu & Hs).
  replace (S (length fr) + (S (S (2 * size (cells s))) - S (length fr)))%nat with (S (S (2 * size (cells s)))) in Hs by lia. rewrite Hs. clear Hs.
  rewrite (turn_page _ _ _ _ _ _ _ Hsl' Hu) by (unfold SLOB_UNIT, PAGE_SIZE in *; lia).
  destruct (get_pages_run s bl held 0 Hfo ltac:(done)) as (a & r & -> & Hr). cbn [mbind res_bind]. destruct r as [pg|].
  2:{ destruct Hr as [-> Hr]. exists s, None. destruct s. split_and!; try done. eapply no_blocks; [apply Hfo|done]. }
  destruct Hr as (p & bl' & -> & Hfo' & Ht). change (2 ^ 0) with 1 in *. pose proof Hfo' as [Hi' _ Hheld' Hap'].
  apply Forall_cons in Hheld' as [([_ Hlp] & _ & Hiu) _]. cbn in Hlp, Hiu. pose proof (in_use_range _ _ _ _ p Hi' Hiu ltac:(lia)) as Hp.
  assert (Hnp : p ∉ hp). { intros Hin. apply apart_cons in Hap' as [Hd _]. rewrite Forall_forall in Hd. apply (Hd (p, 1) (Hheld _ Hin)). exists p. cbn. lia. }
  destruct (slob_grow_ok (with_harea s a) fr hp used p) as (s1 & -> & Hh1 & Ha1 & Hb1 & Hout1); [by destruct Hh as [[] ? ? ? ?]; split|done|apply Hp|done|].
  cbn [mbind res_bind]. destruct (free_at_slob _ _ _ _ Hh1) as (u1 & nx1 & -> & Hsl1). cbn [mbind res_bind].
  destruct (search_ok s1 (free_block (PAGE_UNITS * p) PAGE_UNITS fr) (p :: hp) used size_ n nx1 (S (S (2 * size (cells s))) - S (length fr)) Hh1 ltac:(eauto) ltac:(lia)) as (s' & fr' & b & -> & Hh' & Ha' & Hb' & Hnx & Hout).
  { destruct (free_block_large (PAGE_UNITS * p) PAGE_UNITS fr) as (q & j & Hin & Hj).
    - apply Forall_forall. intros [q j] Hin. destruct (ring_elem _ _ _ _ _ _ _ (ho_ring _ _ _ _ Hh) Hin). cbn. lia.
    - apply Exists_exists. exists (q, j). split; [done|]. cbn. rewrite PAGE_UNITS_eq in Hj. lia. }
  { pose proof (free_block_length (PAGE_UNITS * p) PAGE_UNITS fr). lia. }
  exists s', (Some b). split; [done|]. split; [by rewrite Hb', Hb1|]. exists fr', (p :: hp), ((p, 1) :: held), bl'. rewrite Ha', Ha1. cbn [harea with_harea].
  split_and!; [done|done|right; by exists p|done|]. intros x Hx Hc. rewrite Hout; [rewrite Hout1; [done|done| |by apply Hkeep]|done|].
  - intros Hpx. apply Hnp. rewrite <- Hpx. apply (ho_cover _ _ _ _ Hh). by right.
  - by eapply used_kept.
Qed.
End Heap.
