(* ===== verification/KmallocSpec.v ===== *)
(** [kmalloc] and [kfree] (lab8/kern/mm/kmalloc.c) to their clients: the memory given away
    never overlaps, the calls do not fail, and what the clients write into their memory does
    no harm to the heap. *)
From S2P Require Import Prelude Lists Page Blocks FreeArea StateM Vmm PageTable DefaultPmm Kmalloc KmallocRing KmallocSearch KmallocHeap.

(** * Lists of disjoint blocks *)
Lemma apart_app l1 l2 : apart (l1 ++ l2) <-> apart l1 /\ apart l2 /\ forall x y, x ∈ l1 -> y ∈ l2 -> ~ overlap x y.
Proof.
  induction l1 as [|x l1 IH]; cbn [app]; [split; [intros; split_and!; [constructor|done|]; by intros ?? ?%elem_of_nil|tauto]|].
  rewrite !apart_cons, IH, Forall_app, !Forall_forall. split.
  - intros ((H1 & H2) & H3 & H4 & H5). split_and!; [done|done|done|]. intros y z [->|Hy]%elem_of_cons Hz; [by apply H2|by apply H5].
  - intros ((H1 & H2) & H3 & H4). split_and!; [done|by intros y Hy; apply H4; [by left|]|done|done|]. intros y z Hy. apply H4. by right.
Qed.

Lemma apart_elem l x y : apart l -> x ∈ l -> y ∈ l -> x <> y -> ~ overlap x y.
Proof.
  intros Ha (l1 & l2 & ->)%list_elem_of_split Hy Hne. rewrite <- Permutation_middle in Ha, Hy. apply apart_cons in Ha as [Ha _].
  apply elem_of_cons in Hy as [->|Hy]; [done|]. rewrite Forall_forall in Ha. by apply Ha.
Qed.

Lemma apart_sub {A} (f g : A -> block) l :
  (forall x i, x ∈ l -> (g x).1 <= i < (g x).1 + (g x).2 -> (f x).1 <= i < (f x).1 + (f x).2) -> apart (f <$> l) -> apart (g <$> l).
Proof.
  intros Hs. induction l as [|x l IH]; [constructor|]. cbn. rewrite !apart_cons, !Forall_fmap, !Forall_forall. intros [H1 H2].
  split; [|apply IH; [intros y i Hy; apply Hs; by right|done]]. intros y Hy (i & Hi1 & Hi2). apply (H1 y Hy). exists i. split; (apply Hs; [set_solver|done]).
Qed.

(** * Grants *)

(** A grant: the address [kmalloc] returned and the size it was asked for. *)
Abbreviation grant := (Z * Z)%type.

Definition order_of (n : Z) : Z := match find_order (i32 n) with Ok o => o | _ => 0 end.

(** The memory a client asked for, and the memory behind it. *)
Definition region (g : grant) : block := (g.1, SLOB_UNITS g.2).
Definition small_block (g : grant) : block := (g.1 - 1, SLOB_UNITS (g.2 + SLOB_UNIT)).
Definition big_frames (g : grant) : block := (g.1 / PAGE_UNITS, 2 ^ order_of g.2).

Definition SMALL : Z := PAGE_SIZE - 2 * SLOB_UNIT.
Definition LARGE : Z := PAGE_SIZE - SLOB_UNIT.

(** The sizes the heap can serve: between [SMALL] and [LARGE] the assertion of [slob_alloc]
    stops the kernel, and [find_order] rounds some sizes down. *)
Definition served (n : Z) : bool := (0 <? n) && (n <? SMALL) || (LARGE <=? n) && (n <? 2 ^ 31) && (n <=? PAGE_SIZE * 2 ^ order_of n).

Lemma find_order_run n : 0 <= n < 2 ^ 31 -> find_order n = Ok (order_of n) /\ 0 <= order_of n.
Proof.
  intros Hn. unfold order_of. rewrite i32_small by lia.
  destruct (loop_total order_step (fun x => 0 <= x.2 <= 31 /\ 0 <= x.1 < 2 ^ (31 - x.2)) (fun o => 0 <= o) (fun x => Z.to_nat (31 - x.2))) with (fuel := 32%nat) (a := (n, 0)) as (o & E & Ho).
  - intros [sz o] [Ho Hs]. cbn in Ho, Hs |- *. destruct (4096 <? sz) eqn:E; [left|right; exists o; split; [done|lia]].
    assert (o < 31). { destruct (decide (o = 31)) as [->|]; [cbn in Hs; lia|lia]. }
    exists (Z.shiftr sz 1, o + 1). cbn. split; [done|]. rewrite Z.shiftr_div_pow2 by lia. change (2 ^ 1) with 2.
    replace (31 - o) with (Z.succ (31 - (o + 1))) in Hs by lia. rewrite Z.pow_succ_r in Hs by lia. split; [|lia]. split; [lia|]. split; [apply Z.div_pos; lia|]. apply Z.div_lt_upper_bound; lia.
  - cbn. lia.
  - cbn. lia.
  - unfold find_order. by rewrite E.
Qed.

(** The list of big blocks: the header in the heap and the grant. *)
Abbreviation bigrec := (Z * grant)%type.

Definition big_front (bg : list bigrec) (stop : option Z) : option Z := match bg with [] => stop | x :: _ => Some x.1 end.

Fixpoint bigs (c : gmap Z cell) (bg : list bigrec) (stop : option Z) : Prop :=
  match bg with [] => True | x :: bg' => c !! x.1 = Some (Big (order_of x.2.2) (Some x.2.1) (big_front bg' stop)) /\ bigs c bg' stop end.

Lemma bigs_app c l1 l2 stop : bigs c (l1 ++ l2) stop <-> bigs c l1 (big_front l2 stop) /\ bigs c l2 stop.
Proof. induction l1 as [|x l1 IH]; cbn; [tauto|]. rewrite IH. destruct l1; cbn; tauto. Qed.

Lemma bigs_outside c c' bg stop : (forall x, x ∈ bg -> c' !! x.1 = c !! x.1) -> bigs c bg stop -> bigs c' bg stop.
Proof.
  induction bg as [|x bg IH]; cbn; [done|]. intros Hs [Hx Hb]. split; [by rewrite Hs by set_solver|].
  apply IH; [|done]. intros y Hy. apply Hs. set_solver.
Qed.

(** The address of the pointer to what follows [l]. *)
Definition last_big (l : list bigrec) (last0 : option Z) : option Z := match last l with Some x => Some x.1 | None => last0 end.

Lemma big_walk s blk l stop last0 fuel :
  bigs (cells s) l stop -> Forall (fun x => x.2.1 <> blk) l ->
  loop (big_step s blk) (length l + fuel) (last0, big_front l stop) = loop (big_step s blk) fuel (last_big l last0, stop).
Proof.
  revert last0. induction l as [|x l IH]; intros last0; [done|]. intros [Hx Hb] [Hne Hl]%Forall_cons. cbn [length Nat.add big_front]. rewrite loop_S. unfold big_step at 1.
  rewrite Hx, decide_False by congruence. rewrite IH by done. f_equal. unfold last_big. by destruct l as [|y l _] using rev_ind; [|rewrite app_comm_cons, !last_snoc].
Qed.

Lemma big_walk_none s blk l fuel :
  bigs (cells s) l None -> Forall (fun x => x.2.1 <> blk) l -> (length l < fuel)%nat -> loop (big_step s blk) fuel (None, big_front l None) = Ok None.
Proof.
  intros Hb Hl Hf. replace fuel with (length l + S (fuel - S (length l)))%nat by lia. by rewrite big_walk.
Qed.

Lemma big_walk_found s l1 b a n l2 fuel :
  bigs (cells s) (l1 ++ (b, (a, n)) :: l2) None -> Forall (fun x => x.2.1 <> a) l1 -> (length (l1 ++ (b, (a, n)) :: l2) < fuel)%nat ->
  loop (big_step s a) fuel (None, big_front (l1 ++ (b, (a, n)) :: l2) None) = Ok (Some (last_big l1 None, b)).
Proof.
  intros [H1 [Hb _]]%bigs_app Hl Hf. rewrite length_app in Hf. cbn in Hf, Hb.
  replace (big_front (l1 ++ (b, (a, n)) :: l2) None) with (big_front l1 (Some b)) by (by destruct l1).
  replace fuel with (length l1 + S (fuel - S (length l1)))%nat by lia. rewrite big_walk by done.
  rewrite loop_S. cbn. rewrite Hb. by rewrite decide_True.
Qed.

(** [*last = bb->next] takes the block out of the list. *)
Lemma set_last_run s l1 x l2 :
  bigs (cells s) (l1 ++ x :: l2) None -> bigblocks s = big_front (l1 ++ x :: l2) None -> NoDup (l1 ++ x :: l2).*1 ->
  exists s', set_last s (last_big l1 None) (big_front l2 None) = Ok s' /\ bigs (cells s') (l1 ++ l2) None /\ bigblocks s' = big_front (l1 ++ l2) None /\
    harea s' = harea s /\ slobfree s' = slobfree s /\ forall y, y ∉ l1.*1 -> cells s' !! y = cells s !! y.
Proof.
  intros Hb Hf Hnd. unfold last_big. destruct l1 as [|y l1 _] using rev_ind.
  - cbn in *. eexists. split; [reflexivity|]. cbn. split_and!; [apply Hb|done..].
  - rewrite last_snoc. cbn [set_last]. rewrite <- app_assoc in Hb, Hf, Hnd. apply bigs_app in Hb as [H1 [Hy [Hx H2]]]. rewrite Hy. eexists. split; [reflexivity|]. cbn.
    rewrite fmap_app in Hnd. cbn in Hnd. apply NoDup_app in Hnd as (_ & Hd & Hnd). apply NoDup_cons in Hnd as [Hyn _].
    assert (Hy1 : y.1 ∉ l1.*1) by (intros Hin; apply (Hd _ Hin); by left).
    split_and!; [|rewrite Hf; by destruct l1|done|done|].
    + rewrite <- app_assoc. apply bigs_app. split; [|split].
      * eapply bigs_outside; [|exact H1]. intros z Hz. apply lookup_insert_ne. intros E. apply Hy1. rewrite E. by apply list_elem_of_fmap_2.
      * by rewrite lookup_insert_eq.
      * eapply bigs_outside; [|exact H2]. intros z Hz. apply lookup_insert_ne. intros E. apply Hyn. rewrite E. right. by apply list_elem_of_fmap_2.
    + intros z Hz. apply lookup_insert_ne. intros <-. apply Hz. rewrite fmap_app. apply elem_of_app. right. by left.
Qed.

Definition header_block (x : bigrec) : block := (x.1, 2).
Definition heap_page (p : Z) : block := (p, 1).

Section Client.
Context `{PageAllocator alloc free} (npg arena lo : Z) (Hnpg : npg <= 2 ^ 22).
Abbreviation npage := (npg + nbase).

(** A step of the heap's clients: a call that returned, or a client's writing to memory it
    was given. *)
Inductive heap_step : heap * list grant -> heap * list grant -> Prop :=
| StepKmalloc s gs n s' a : served n = true -> kmalloc alloc npage s n = Ok (s', Some a) -> heap_step (s, gs) (s', (a, n) :: gs)
| StepKmallocNull s gs n s' : served n = true -> kmalloc alloc npage s n = Ok (s', None) -> heap_step (s, gs) (s', gs)
| StepKfree s gs1 a n gs2 s' : (LARGE <= n -> can_free (harea s) (a / PAGE_UNITS)) -> kfree free npage s (Some a) = Ok s' -> heap_step (s, gs1 ++ (a, n) :: gs2) (s', gs1 ++ gs2)
| StepWrite s gs c : (forall x, ~ covers (region <$> gs) x -> c !! x = cells s !! x) -> heap_step (s, gs) (Heap (harea s) c (slobfree s) (bigblocks s), gs).

(** * The invariant *)
Record kheap (s : heap) (bl fr : list block) (hp : list Z) (sm : list grant) (bg : list bigrec) : Prop := KHeap {
  kh_heap : heap_ok npg arena lo s fr hp ((small_block <$> sm) ++ (header_block <$> bg));
  kh_frames : frames_ok npg lo (harea s) bl ((heap_page <$> hp) ++ (big_frames <$> bg.*2));
  kh_small : Forall (fun g => 0 < g.2 < SMALL /\ exists nx, cells s !! (g.1 - 1) = Some (Slob (SLOB_UNITS (g.2 + SLOB_UNIT)) nx)) sm;
  kh_bigs : bigs (cells s) bg None;
  kh_first : bigblocks s = big_front bg None;
  kh_large : Forall (fun x => served x.2.2 = true /\ LARGE <= x.2.2 /\ (exists p, x.2.1 = PAGE_UNITS * p)) bg
}.

Definition heap_inv (st : heap * list grant) : Prop := exists bl fr hp sm bg, kheap st.1 bl fr hp sm bg /\ st.2 ≡ₚ sm ++ bg.*2.

(** * What the invariant says of the memory of the clients *)
Lemma small_units n : SLOB_UNITS (n + SLOB_UNIT) = SLOB_UNITS n + 1.
Proof. unfold SLOB_UNITS, SLOB_UNIT. Z.to_euclidean_division_equations; lia. Qed.

Lemma units_pos n : 0 < n -> 0 < SLOB_UNITS n.
Proof. unfold SLOB_UNITS, SLOB_UNIT. intros. Z.to_euclidean_division_equations; lia. Qed.

Lemma region_small g i : (region g).1 <= i < (region g).1 + (region g).2 -> (small_block g).1 < i < (small_block g).1 + (small_block g).2.
Proof. unfold region, small_block. cbn. rewrite small_units. lia. Qed.

Lemma served_large n : served n = true -> LARGE <= n -> n < 2 ^ 31 /\ SLOB_UNITS n <= PAGE_UNITS * 2 ^ order_of n.
Proof.
  unfold served, LARGE, SMALL. intros Hs Hl. apply orb_prop in Hs as [Hs|Hs]; [unfold PAGE_SIZE, SLOB_UNIT in *; lia|]. apply andb_prop in Hs as [Hs1 Hs].
  split; [lia|]. apply Z.leb_le in Hs. rewrite PAGE_UNITS_eq. unfold SLOB_UNITS, SLOB_UNIT, PAGE_SIZE in *. Z.to_euclidean_division_equations; lia.
Qed.

Lemma region_large g i p : served g.2 = true -> LARGE <= g.2 -> g.1 = PAGE_UNITS * p ->
  (region g).1 <= i < (region g).1 + (region g).2 -> (big_frames g).1 <= i / PAGE_UNITS < (big_frames g).1 + (big_frames g).2.
Proof.
  intros Hs Hl Hp. destruct (served_large _ Hs Hl) as [_ Hu]. unfold region, big_frames. cbn. rewrite Hp. intros Hi.
  replace (PAGE_UNITS * p / PAGE_UNITS) with p by (rewrite Z.mul_comm, Z.div_mul; done). rewrite PAGE_UNITS_eq in *.
  split; [apply Z.div_le_lower_bound; lia|apply Z.div_lt_upper_bound; lia].
Qed.

Section Inv.
Context (s : heap) (bl fr : list block) (hp : list Z) (sm : list grant) (bg : list bigrec) (Hk : kheap s bl fr hp sm bg).

Lemma small_used g : g ∈ sm -> small_block g ∈ (small_block <$> sm) ++ (header_block <$> bg).
Proof. intros Hg. apply elem_of_app. left. by apply list_elem_of_fmap_2. Qed.

Lemma header_used x : x ∈ bg -> header_block x ∈ (small_block <$> sm) ++ (header_block <$> bg).
Proof. intros Hx. apply elem_of_app. right. by apply list_elem_of_fmap_2. Qed.

Lemma large_grant g : g ∈ bg.*2 -> served g.2 = true /\ LARGE <= g.2 /\ exists p, g.1 = PAGE_UNITS * p.
Proof. intros (x & -> & Hx)%list_elem_of_fmap. pose proof (kh_large _ _ _ _ _ _ Hk) as Hl. rewrite Forall_forall in Hl. by apply Hl. Qed.

(** Units of the heap's pages are in no big block. *)
Lemma big_not_heap g q : g ∈ bg.*2 -> (big_frames g).1 <= q < (big_frames g).1 + (big_frames g).2 -> q ∉ hp.
Proof.
  intros Hg Hq Hin. pose proof (fo_apart _ _ _ _ _ (kh_frames _ _ _ _ _ _ Hk)) as Ha. apply apart_app in Ha as (_ & _ & Hd).
  apply (Hd (heap_page q) (big_frames g)); [by apply list_elem_of_fmap_2|by apply list_elem_of_fmap_2|]. exists q. split; [cbn; lia|done].
Qed.

Lemma used_in_heap b n i : (b, n) ∈ (small_block <$> sm) ++ (header_block <$> bg) -> b <= i < b + n -> i / PAGE_UNITS ∈ hp.
Proof. intros Hin Hi. apply (ho_cover _ _ _ _ _ _ _ (kh_heap _ _ _ _ _ _ Hk)). right. by exists b, n. Qed.

(** A unit of a client: it is in a block of the heap behind the header, or in a big block. *)
Lemma region_unit g i :
  g ∈ sm ++ bg.*2 -> (region g).1 <= i < (region g).1 + (region g).2 ->
  (exists b n, (b, n) ∈ (small_block <$> sm) ++ (header_block <$> bg) /\ b < i < b + n) \/ i / PAGE_UNITS ∉ hp /\ lo <= i.
Proof.
  intros [Hg|Hg]%elem_of_app Hi; [left|right].
  - exists (small_block g).1, (small_block g).2. split; [by apply small_used|by apply region_small].
  - destruct (large_grant g Hg) as (H1 & H2 & p & Hp). pose proof (region_large g i p H1 H2 Hp Hi) as Hq. split; [by apply (big_not_heap g)|].
    pose proof (fo_held _ _ _ _ _ (kh_frames _ _ _ _ _ _ Hk)) as Hh. rewrite Forall_forall in Hh.
    destruct (Hh (big_frames g)) as ([_ Hb] & _); [apply elem_of_app; right; by apply list_elem_of_fmap_2|].
    unfold region, big_frames in Hi, Hb. cbn in Hi, Hb. rewrite Hp in *. replace (PAGE_UNITS * p / PAGE_UNITS) with p in Hb by (rewrite Z.mul_comm, Z.div_mul; done).
    lia.
Qed.

(** The heap's own words are no units of a client. *)
Lemma region_safe i :
  covers (region <$> sm ++ bg.*2) i -> i <> arena /\ ~ covers fr i /\ forall b n, (b, n) ∈ (small_block <$> sm) ++ (header_block <$> bg) -> i <> b.
Proof.
  intros (b0 & n0 & (g & E & Hg)%list_elem_of_fmap & Hi). pose proof (kh_heap _ _ _ _ _ _ Hk) as Hh. pose proof (ring_low _ _ _ _ _ (ho_ring _ _ _ _ _ _ _ Hh)) as Hlow.
  destruct (region_unit g i Hg) as [(b & n & Hin & Hb)|[Hp Hi0]]; [by rewrite <- E| |].
  - pose proof (used_hi _ _ _ _ _ _ _ _ _ Hh Hin) as (Hb0 & Hn & Hu & _). split; [lia|]. split; [apply Hu; lia|]. intros b' n' Hin' ->.
    apply (apart_elem _ (b, n) (b', n') (ho_apart _ _ _ _ _ _ _ Hh) Hin Hin'); [intros [= <- <-]; lia|].
    exists b'. destruct (used_hi _ _ _ _ _ _ _ _ _ Hh Hin') as (? & ? & _). cbn. lia.
  - split; [lia|]. split; [intros Hc; apply Hp, (ho_cover _ _ _ _ _ _ _ Hh); by left|]. intros b n Hin ->. apply Hp. apply (used_in_heap b n); [done|].
    destruct (used_hi _ _ _ _ _ _ _ _ _ Hh Hin) as (? & ? & _). lia.
Qed.

Lemma regions_apart : apart (region <$> sm ++ bg.*2).
Proof.
  pose proof (kh_heap _ _ _ _ _ _ Hk) as Hh. pose proof (ho_apart _ _ _ _ _ _ _ Hh) as Ha. apply apart_app in Ha as (Ha1 & _ & _).
  pose proof (fo_apart _ _ _ _ _ (kh_frames _ _ _ _ _ _ Hk)) as Hf. apply apart_app in Hf as (_ & Hf & _).
  rewrite fmap_app. apply apart_app. split_and!.
  - eapply apart_sub; [|exact Ha1]. intros g i _ Hi. pose proof (region_small g i Hi). lia.
  - apply (apart_sub (fun g => (PAGE_UNITS * (big_frames g).1, PAGE_UNITS * (big_frames g).2))).
    + intros g i Hg Hi. destruct (large_grant g Hg) as (H1 & H2 & p & Hp). pose proof (region_large g i p H1 H2 Hp Hi) as Hq. cbn [fst snd].
      pose proof (proj1 (unit_page i _) eq_refl). rewrite PAGE_UNITS_eq in *. lia.
    + clear -Hf. induction (bg.*2) as [|g l IH]; [constructor|]. cbn in *. rewrite apart_cons in Hf |- *. destruct Hf as [Hf1 Hf2]. split; [|by apply IH].
      rewrite Forall_fmap in Hf1 |- *. eapply Forall_impl; [exact Hf1|]. intros h Hh (i & Hi1 & Hi2). apply Hh. exists (i / PAGE_UNITS).
      cbn [fst snd] in Hi1, Hi2. pose proof (proj1 (unit_page i _) eq_refl). cbn [big_frames fst snd]. rewrite PAGE_UNITS_eq in *. lia.
  - intros x y (g & -> & Hg)%list_elem_of_fmap (h & -> & Hh')%list_elem_of_fmap (i & Hi1 & Hi2).
    destruct (large_grant h Hh') as (H1 & H2 & p & Hp). pose proof (region_large h i p H1 H2 Hp Hi2) as Hq.
    apply (big_not_heap h _ Hh' Hq). pose proof (region_small g i Hi1). apply (used_in_heap (small_block g).1 (small_block g).2); [by apply small_used|lia].
Qed.

Lemma headers_nodup : NoDup bg.*1.
Proof.
  pose proof (kh_heap _ _ _ _ _ _ Hk) as Hh. pose proof (ho_apart _ _ _ _ _ _ _ Hh) as Ha. apply apart_app in Ha as (_ & Ha & _). clear -Ha.
  induction bg as [|x l IH]; [constructor|]. cbn in *. apply apart_cons in Ha as [Hx Ha]. constructor; [|by apply IH].
  intros (y & E & Hy)%list_elem_of_fmap. rewrite Forall_fmap, Forall_forall in Hx. apply (Hx y Hy). exists x.1. cbn. lia.
Qed.

Lemma bigs_length : (length bg < S (size (cells s)))%nat.
Proof.
  enough (length bg <= size (cells s))%nat by lia. rewrite <- (length_fmap fst). apply live_length; [apply headers_nodup|].
  intros b (x & -> & (l1 & l2 & E)%list_elem_of_split)%list_elem_of_fmap. pose proof (kh_bigs _ _ _ _ _ _ Hk) as Hb. rewrite E in Hb. apply bigs_app in Hb as [_ [Hx _]]. by eexists.
Qed.
End Inv.

(** * The operations keep the invariant *)
Abbreviation used sm bg := ((small_block <$> sm) ++ (header_block <$> bg)).
Abbreviation held hp bg := ((heap_page <$> hp) ++ (big_frames <$> bg.*2)).

Definition small_header (c : gmap Z cell) (g : grant) : Prop := 0 < g.2 < SMALL /\ exists nx, c !! (g.1 - 1) = Some (Slob (SLOB_UNITS (g.2 + SLOB_UNIT)) nx).

(** The headers stay when the units in use do. *)
Lemma headers_ext c c' sm bg :
  Forall (small_header c) sm -> bigs c bg None -> (forall b n, (b, n) ∈ used sm bg -> c' !! b = c !! b) -> Forall (small_header c') sm /\ bigs c' bg None.
Proof.
  intros Hs Hb Hu. split.
  - rewrite Forall_forall in Hs |- *. intros g Hg. destruct (Hs g Hg) as (? & nx & Hnx). split; [done|]. exists nx.
    by rewrite (Hu (g.1 - 1) (SLOB_UNITS (g.2 + SLOB_UNIT)) (small_used sm bg g Hg)).
  - eapply bigs_outside; [|exact Hb]. intros x Hx. apply (Hu x.1 2), (header_used sm bg x Hx).
Qed.

Lemma headers_keep s bl fr hp sm bg c :
  kheap s bl fr hp sm bg -> (forall x, lo <= x -> covers (used sm bg) x -> c !! x = cells s !! x) -> Forall (small_header c) sm /\ bigs c bg None.
Proof.
  intros Hk Hc. apply (headers_ext (cells s)); [apply Hk..|]. intros b n Hin.
  destruct (used_hi _ _ _ _ _ _ _ _ _ (kh_heap _ _ _ _ _ _ Hk) Hin) as (? & ? & _). apply Hc; [done|]. exists b, n. split; [done|lia].
Qed.

(** The heap's invariant only reads the words of the ring. *)
Lemma heap_ok_ext s s' fr hp used :
  heap_ok npg arena lo s fr hp used -> slobfree s' = slobfree s -> (forall x, x = arena \/ covers fr x -> cells s' !! x = cells s !! x) -> heap_ok npg arena lo s' fr hp used.
Proof.
  intros [[Hz Hl Hh Hc Ho Hb Hf] Hu Ha Hp Hcov] Hs Hx. split; [|done..]. split; [done|done|done| |done|done|by rewrite Hs].
  eapply chain_outside; [|exact Hc]. intros [a u] [[= -> ->]|Hin]%elem_of_cons; apply Hx; [by left|right]. exists a, u. split; [done|]. cbn.
  apply (ordered_elem 1 lo) in Hin; [lia|done..].
Qed.

Lemma used_other s fr hp used b n x : heap_ok npg arena lo s fr hp ((b, n) :: used) -> covers used x -> x < b \/ b + n <= x.
Proof.
  intros Hh (c & m & Hin & Hx). pose proof (ho_apart _ _ _ _ _ _ _ Hh) as Ha. apply apart_cons in Ha as [Ha _]. rewrite Forall_forall in Ha.
  destruct (decide (x < b \/ b + n <= x)) as [|Hn]; [done|]. destruct (Ha (c, m) Hin). exists x. cbn. lia.
Qed.

Lemma kmalloc_small s bl fr hp sm bg n :
  kheap s bl fr hp sm bg -> 0 < n < SMALL ->
  exists s' r, kmalloc alloc npage s n = Ok (s', r) /\
    match r with None => s' = s /\ total bl = 0 | Some a => exists bl' fr' hp', kheap s' bl' fr' hp' ((a, n) :: sm) bg end.
Proof.
  intros Hk Hn. unfold kmalloc, __kmalloc. rewrite (proj2 (Z.ltb_lt _ _)) by (unfold SMALL, SLOB_UNIT in *; lia).
  destruct (slob_alloc_ok npg arena lo Hnpg s bl (held hp bg) fr hp (used sm bg) (n + SLOB_UNIT) (kh_frames _ _ _ _ _ _ Hk)) as (s' & r & E & Hbb & Hr); [|apply Hk|unfold SMALL, SLOB_UNIT, PAGE_SIZE in *; lia|].
  { intros p Hp. apply elem_of_app. left. by apply (list_elem_of_fmap_2 heap_page). }
  rewrite E. cbn [mbind res_bind]. destruct r as [b|]; [|by exists s', None]. exists s', (Some (b + 1)). split; [done|].
  destruct Hr as (fr' & hp' & held' & bl' & Hh & Hf & Hgrow & Hnx & Hkeep). exists bl', fr', hp'. destruct (headers_keep _ _ _ _ _ _ (cells s') Hk Hkeep) as [Hs Hb]. split.
  - cbn. unfold small_block at 1. cbn [fst snd]. by rewrite Z.add_simpl_r.
  - destruct Hgrow as [(-> & -> & _)|(p & -> & -> & _)]; exact Hf.
  - constructor; [|done]. cbn. rewrite Z.add_simpl_r. by split.
  - done.
  - rewrite Hbb. apply Hk.
  - apply Hk.
Qed.

Lemma kmalloc_large s bl fr hp sm bg n :
  kheap s bl fr hp sm bg -> served n = true -> LARGE <= n ->
  exists s' r bl' fr' hp', kmalloc alloc npage s n = Ok (s', r) /\
    match r with None => kheap s' bl' fr' hp' sm bg | Some a => exists b, kheap s' bl' fr' hp' sm ((b, (a, n)) :: bg) end.
Proof.
  intros Hk Hn Hl. destruct (served_large n Hn Hl) as [Hn31 _]. unfold kmalloc, __kmalloc. rewrite (proj2 (Z.ltb_ge _ _)) by (unfold LARGE in *; lia).
  destruct (slob_alloc_ok npg arena lo Hnpg s bl (held hp bg) fr hp (used sm bg) BIGBLOCK (kh_frames _ _ _ _ _ _ Hk)) as (s1 & r & E & Hbb & Hr); [|apply Hk|done|].
  { intros p Hp. apply elem_of_app. left. by apply (list_elem_of_fmap_2 heap_page). }
  rewrite E. cbn [mbind res_bind]. destruct r as [b|]; [|destruct Hr as [-> _]; by exists s, None, bl, fr, hp].
  change (SLOB_UNITS BIGBLOCK) with 2 in Hr. destruct Hr as (fr1 & hp1 & held1 & bl1 & Hh & Hf & Hgrow & Hnx & Hkeep).
  destruct (find_order_run n) as [Eo Ho]; [unfold LARGE, PAGE_SIZE, SLOB_UNIT in *; lia|]. rewrite i32_small by (unfold LARGE, PAGE_SIZE, SLOB_UNIT in *; lia). rewrite Eo. cbn [mbind res_bind].
  assert (Hheld : held1 = (heap_page <$> hp1) ++ (big_frames <$> bg.*2)) by (by destruct Hgrow as [(-> & -> & _)|(p & -> & -> & _)]).
  destruct (used_hi _ _ _ _ _ _ _ _ _ Hh ltac:(by left)) as (Hb0 & _ & Hu & _). pose proof (ring_low _ _ _ _ _ (ho_ring _ _ _ _ _ _ _ Hh)) as Hlow.
  assert (Hne : forall x, x = arena \/ covers fr1 x -> x <> b) by (intros x [->|Hc] ->; [lia|by apply (Hu b); [lia|]]).
  destruct (get_pages_run npg lo Hnpg s1 bl1 held1 (order_of n) Hf Ho) as (a & r & -> & Hr). cbn [mbind res_bind]. destruct r as [u|].
  - destruct Hr as (p & bl2 & -> & Hf2 & _). eexists _, _, bl2, fr1, hp1. split; [reflexivity|]. exists b.
    set (c := <[b := Big (order_of n) (Some (PAGE_UNITS * p)) (bigblocks s1)]> (cells s1)). assert (Hc : forall x, lo <= x -> covers ((small_block <$> sm) ++ (header_block <$> bg)) x -> c !! x = cells s !! x).
    { intros x Hx Hcx. unfold c. pose proof (used_other _ _ _ _ _ _ _ Hh Hcx). cbn. rewrite lookup_insert_ne by lia. by apply Hkeep. }
    destruct (headers_keep _ _ _ _ _ _ c Hk Hc) as [Hs Hb]. split.
    + apply (heap_perm npg arena lo _ _ _ ((b, 2) :: (small_block <$> sm) ++ (header_block <$> bg))); [cbn; by rewrite Permutation_middle|].
      eapply heap_ok_ext; [exact Hh|done|]. intros x Hx. cbn. by rewrite lookup_insert_ne by (apply not_eq_sym, Hne, Hx).
    + eapply frames_perm; [|exact Hf2]. rewrite Hheld. cbn [fmap list_fmap snd]. replace (big_frames (PAGE_UNITS * p, n)) with (p, 2 ^ order_of n) by (unfold big_frames; cbn [fst snd]; by rewrite (Z.mul_comm PAGE_UNITS p), Z.div_mul). by rewrite Permutation_middle.
    + exact Hs.
    + cbn. split; [|exact Hb]. rewrite Hbb, (kh_first _ _ _ _ _ _ Hk). apply lookup_insert_eq.
    + done.
    + constructor; [|apply Hk]. split_and!; [done|done|by exists p].
  - destruct Hr as [-> _]. set (s2 := set_cell (with_harea s1 (harea s1)) b (Big (order_of n) None None)).
    assert (Hh2 : heap_ok npg arena lo s2 fr1 hp1 ((b, 2) :: (small_block <$> sm) ++ (header_block <$> bg))).
    { eapply heap_ok_ext; [exact Hh|done|]. intros x Hx. cbn. by rewrite lookup_insert_ne by (apply not_eq_sym, Hne, Hx). }
    destruct (slob_free_ok npg arena lo s2 fr1 hp1 _ b 2 BIGBLOCK Hh2 ltac:(done)) as (s' & -> & Hh' & Ha & Hb' & Hout). cbn [mbind res_bind].
    eexists s', None, bl1, _, hp1. split; [reflexivity|].
    destruct (headers_keep _ _ _ _ _ _ (cells s') Hk) as [Hs Hb].
    { intros x Hx Hcx. pose proof (used_other _ _ _ _ _ _ _ Hh Hcx). rewrite Hout; [cbn; rewrite lookup_insert_ne by lia; by apply Hkeep|done|lia|].
      eapply used_kept; [exact Hh2|]. rewrite covers_cons. by right. }
    split; [exact Hh'|by rewrite Ha; cbn; rewrite <- Hheld|exact Hs|exact Hb|rewrite Hb'; cbn; rewrite Hbb; apply Hk|apply Hk].
Qed.

Lemma kheap_perm s bl fr hp sm sm' bg : sm ≡ₚ sm' -> kheap s bl fr hp sm bg -> kheap s bl fr hp sm' bg.
Proof. intros Hp [Hh Hf Hs Hb Hfi Hl]. split; try done; [|by rewrite <- Hp]. eapply heap_perm; [|exact Hh]. by rewrite Hp. Qed.

(** A block comes back: what is left in use keeps its words. *)
Lemma free_headers s s' fr hp b n l (c' : gmap Z cell) :
  heap_ok npg arena lo s fr hp ((b, n) :: l) -> (forall x, lo <= x -> x <> b -> ~ covers fr x -> cells s' !! x = c' !! x) -> forall d m, (d, m) ∈ l -> cells s' !! d = c' !! d.
Proof.
  intros Hh Hout d m Hin. destruct (used_hi _ _ _ _ _ _ _ d m Hh ltac:(by right)) as (Hd & Hm & Hu & _).
  assert (covers l d) as Hc by (exists d, m; split; [done|lia]). apply Hout; [done| |apply Hu; lia].
  destruct (used_other _ _ _ _ _ _ _ Hh Hc); [lia|]. destruct (used_hi _ _ _ _ _ _ _ b n Hh ltac:(by left)) as (? & ? & _). lia.
Qed.

Lemma kfree_small s bl fr hp a n sm bg :
  kheap s bl fr hp ((a, n) :: sm) bg -> exists s' fr', kfree free npage s (Some a) = Ok s' /\ kheap s' bl fr' hp sm bg.
Proof.
  intros Hk. pose proof (kh_small _ _ _ _ _ _ Hk) as [[Hn Hhd] Hs]%Forall_cons. cbn in Hn, Hhd. unfold kfree.
  assert (Hw : (if a mod PAGE_UNITS =? 0 then loop (big_step s a) (S (size (cells s))) (None, bigblocks s) else Ok None) = Ok None).
  { destruct (a mod PAGE_UNITS =? 0) eqn:E; [|done]. rewrite (kh_first _ _ _ _ _ _ Hk). apply big_walk_none; [apply Hk| |by eapply bigs_length].
    apply Forall_forall. intros x Hx Ea. assert (x.2 ∈ bg.*2) as Hx2 by (by apply list_elem_of_fmap_2).
    assert (region (a, n) = (a, SLOB_UNITS n)) as Er by done. pose proof (units_pos n ltac:(lia)).
    apply (big_not_heap _ _ _ _ _ _ Hk x.2 (a / PAGE_UNITS) Hx2).
    - unfold big_frames. cbn. rewrite Ea. pose proof (Z.pow_pos_nonneg 2 (order_of x.2.2) ltac:(lia)). destruct (find_order_run x.2.2) as [_ ?]; [|lia].
      destruct (large_grant _ _ _ _ _ _ Hk x.2 Hx2) as (Hx3 & Hx4 & _). destruct (served_large _ Hx3 Hx4). unfold LARGE, PAGE_SIZE, SLOB_UNIT in *. lia.
    - eapply (used_in_heap _ _ _ _ _ _ Hk (a - 1) (SLOB_UNITS (n + SLOB_UNIT))); [by left|]. rewrite small_units. lia. }
  rewrite Hw. cbn [mbind res_bind]. pose proof (kh_heap _ _ _ _ _ _ Hk) as Hh. cbn in Hh.
  destruct (slob_free_ok npg arena lo s fr hp (used sm bg) (a - 1) (SLOB_UNITS (n + SLOB_UNIT)) 0 Hh Hhd) as (s' & -> & Hh' & Ha & Hb & Hout).
  destruct (headers_ext (cells s) (cells s') sm bg Hs ltac:(apply Hk) (free_headers _ _ _ _ _ _ _ _ Hh Hout)) as [Hs' Hb'].
  eexists s', _. split; [done|]. split; [exact Hh'|rewrite Ha; apply Hk|exact Hs'|exact Hb'|rewrite Hb; apply Hk|apply Hk].
Qed.

(** The pages of a big block say which it is. *)
Lemma big_first s bl fr hp sm bg1 b a n bg2 :
  kheap s bl fr hp sm (bg1 ++ (b, (a, n)) :: bg2) -> Forall (fun x => x.2.1 <> a) bg1.
Proof.
  intros Hk. apply Forall_forall. intros x Hx E. pose proof (fo_apart _ _ _ _ _ (kh_frames _ _ _ _ _ _ Hk)) as Hf. apply apart_app in Hf as (_ & Hf & _).
  rewrite !fmap_app in Hf. apply apart_app in Hf as (_ & _ & Hd). apply (Hd (big_frames x.2) (big_frames (a, n))); [by do 2 apply list_elem_of_fmap_2|by left|].
  pose proof (kh_large _ _ _ _ _ _ Hk) as Hl. rewrite Forall_forall in Hl.
  assert (Hpos : forall y, y ∈ bg1 ++ (b, (a, n)) :: bg2 -> 0 < 2 ^ order_of y.2.2).
  { intros y Hy. destruct (Hl y Hy) as (H1 & H2 & _). destruct (served_large _ H1 H2). destruct (find_order_run y.2.2) as [_ ?]; [unfold LARGE, PAGE_SIZE, SLOB_UNIT in *; lia|]. by apply Z.pow_pos_nonneg. }
  exists (a / PAGE_UNITS). unfold big_frames. cbn. rewrite E. pose proof (Hpos x ltac:(set_solver)). pose proof (Hpos (b, (a, n)) ltac:(set_solver)). cbn in *. lia.
Qed.

Lemma kfree_large s bl fr hp sm bg1 b a n bg2 :
  kheap s bl fr hp sm (bg1 ++ (b, (a, n)) :: bg2) -> can_free (harea s) (a / PAGE_UNITS) ->
  exists s' bl' fr', kfree free npage s (Some a) = Ok s' /\ kheap s' bl' fr' hp sm (bg1 ++ bg2).
Proof.
  intros Hk Hc. pose proof (kh_large _ _ _ _ _ _ Hk) as Hl. apply Forall_app in Hl as [Hl1 [(H1 & H2 & p & Hp) Hl2]%Forall_cons]. cbn in H1, H2, Hp. subst a.
  pose proof (kh_bigs _ _ _ _ _ _ Hk) as Hb. unfold kfree. replace (PAGE_UNITS * p mod PAGE_UNITS) with 0 by (rewrite Z.mul_comm, Z.mod_mul; done). cbn [Z.eqb].
  rewrite (kh_first _ _ _ _ _ _ Hk), (big_walk_found _ _ _ _ _ _ _ Hb (big_first _ _ _ _ _ _ _ _ _ _ Hk) ltac:(by eapply bigs_length)). cbn [mbind res_bind].
  pose proof Hb as [_ [Hcb _]]%bigs_app. cbn in Hcb. rewrite Hcb.
  destruct (set_last_run s bg1 _ bg2 Hb (kh_first _ _ _ _ _ _ Hk) (headers_nodup _ _ _ _ _ _ Hk)) as (s1 & -> & Hb1 & Hf1 & Ha1 & Hs1 & Hout1). cbn [mbind res_bind].
  assert (Hperm : used sm (bg1 ++ (b, (PAGE_UNITS * p, n)) :: bg2) ≡ₚ (b, 2) :: used sm (bg1 ++ bg2)) by (rewrite !fmap_app; cbn; by rewrite <- !Permutation_middle).
  pose proof (heap_perm _ _ _ _ _ _ _ _ Hperm (kh_heap _ _ _ _ _ _ Hk)) as Hh.
  assert (Hh1 : heap_ok npg arena lo s1 fr hp ((b, 2) :: used sm (bg1 ++ bg2))).
  { eapply heap_ok_ext; [exact Hh|done|]. intros x Hx. apply Hout1. intros (y & -> & Hy)%list_elem_of_fmap.
    destruct (used_hi _ _ _ _ _ _ _ _ _ (kh_heap _ _ _ _ _ _ Hk) (header_used sm (bg1 ++ (b, (PAGE_UNITS * p, n)) :: bg2) y ltac:(apply elem_of_app; by left))) as (Hy0 & _ & Hyu & _).
    pose proof (ring_low _ _ _ _ _ (ho_ring _ _ _ _ _ _ _ Hh)). destruct Hx as [Hx|Hx]; [lia|by apply (Hyu y.1); [lia|]]. }
  destruct (served_large _ H1 H2) as [H31 _]. destruct (find_order_run n) as [_ Ho]; [unfold LARGE, PAGE_SIZE, SLOB_UNIT in *; lia|].
  assert (Hfr : frames_ok npg lo (harea s1) bl ((p, 2 ^ order_of n) :: held hp (bg1 ++ bg2))).
  { rewrite Ha1. eapply frames_perm; [|apply (kh_frames _ _ _ _ _ _ Hk)]. rewrite !fmap_app. cbn [fmap list_fmap snd].
    replace (big_frames (PAGE_UNITS * p, n)) with (p, 2 ^ order_of n) by (unfold big_frames; cbn [fst snd]; by rewrite (Z.mul_comm PAGE_UNITS p), Z.div_mul). by rewrite <- !Permutation_middle. }
  destruct (free_pages_run npg lo s1 bl _ p (order_of n) Hfr Ho) as (ar & bl' & -> & Hfr' & _).
  { rewrite Ha1. by rewrite (Z.mul_comm PAGE_UNITS p), Z.div_mul in Hc by done. }
  cbn [mbind res_bind]. set (s2 := with_harea s1 ar). assert (Hh2 : heap_ok npg arena lo s2 fr hp ((b, 2) :: used sm (bg1 ++ bg2))) by (by eapply heap_ok_ext).
  destruct (slob_free_ok npg arena lo s2 fr hp _ b 2 BIGBLOCK Hh2 ltac:(done)) as (s' & -> & Hh' & Ha' & Hb' & Hout').
  assert (Hs1' : Forall (small_header (cells s1)) sm).
  { pose proof (kh_small _ _ _ _ _ _ Hk) as Hs. rewrite Forall_forall in Hs |- *. intros g Hg. destruct (Hs g Hg) as (? & nx & Hnx). split; [done|]. exists nx. rewrite Hout1; [done|].
    intros (y & E & Hy)%list_elem_of_fmap. pose proof (kh_bigs _ _ _ _ _ _ Hk) as Hbb. apply list_elem_of_split in Hy as (q1 & q2 & ->). rewrite <- app_assoc in Hbb. apply bigs_app in Hbb as [_ [Hy _]]. by rewrite <- E, Hnx in Hy. }
  destruct (headers_ext (cells s1) (cells s') sm (bg1 ++ bg2) Hs1' Hb1 (free_headers _ _ _ _ _ _ _ _ Hh2 Hout')) as [Hs2 Hb2].
  eexists s', bl', _. split; [done|]. split; [exact Hh'|by rewrite Ha'|exact Hs2|exact Hb2|by rewrite Hb'|by apply Forall_app].
Qed.

(** Clients may write anything into what they were given. *)
Lemma kheap_write s bl fr hp sm bg c :
  kheap s bl fr hp sm bg -> (forall x, ~ covers (region <$> sm ++ bg.*2) x -> c !! x = cells s !! x) -> kheap (Heap (harea s) c (slobfree s) (bigblocks s)) bl fr hp sm bg.
Proof.
  intros Hk Hc. destruct (headers_ext (cells s) c sm bg) as [Hs Hb]; [apply Hk|apply Hk| |].
  { intros b n Hin. apply Hc. intros Hx. apply (region_safe _ _ _ _ _ _ Hk) in Hx as (_ & _ & Hx). by apply (Hx b n Hin). }
  split; try done; try apply Hk. eapply heap_ok_ext; [apply Hk|done|]. intros x Hx. apply Hc. intros Hr. apply (region_safe _ _ _ _ _ _ Hk) in Hr as (Ha & Hf & _). by destruct Hx.
Qed.

Lemma kheap_init a bl :
  KERNBASE_UNIT <= lo <= PAGE_UNITS * npg -> arena + 1 < lo -> fl_inv npg 0 a bl -> (forall i, covers bl i -> lo <= PAGE_UNITS * i) -> kheap (heap_init arena a) bl [] [] [] [].
Proof.
  intros Hlo Ha Hi Hc. assert (0 <= KERNBASE_UNIT) by done.
  split; [|split; [done|intros i Hi'; specialize (Hc i Hi'); lia|constructor|constructor]|constructor|done|done|constructor]. split; [|constructor|constructor|constructor|].
  - pose proof (fl_total_le npg 0 ltac:(lia) a bl Hi). split; cbn; [lia|done|rewrite PAGE_UNITS_eq; lia|split; [apply lookup_singleton_eq|done]|done|lia|by left].
  - intros i. split; [by intros [?%covers_nil|?%covers_nil]|by intros ?%elem_of_nil].
Qed.

(** What a client may give back. *)
Lemma kfree_run s bl fr hp sm bg gs a n :
  kheap s bl fr hp sm bg -> (a, n) :: gs ≡ₚ sm ++ bg.*2 -> (LARGE <= n -> can_free (harea s) (a / PAGE_UNITS)) ->
  exists s', kfree free npage s (Some a) = Ok s' /\ heap_inv (s', gs).
Proof.
  intros Hk Hp Hc. assert ((a, n) ∈ sm ++ bg.*2) as [Hin|Hin]%elem_of_app by (rewrite <- Hp; by left).
  - apply elem_of_Permutation in Hin as [sm' Hsm]. destruct (kfree_small s bl fr hp a n sm' bg) as (s' & fr' & E & Hk'); [by eapply kheap_perm|].
    exists s'. split; [done|]. exists bl, fr', hp, sm', bg. split; [done|]. cbn. rewrite Hsm in Hp. cbn in Hp. by apply Permutation_cons_inv in Hp.
  - apply list_elem_of_fmap in Hin as ([b g] & E & (bg1 & bg2 & ->)%list_elem_of_split). cbn in E. subst g.
    assert (Hl : LARGE <= n) by (pose proof (kh_large _ _ _ _ _ _ Hk) as Hl; rewrite Forall_forall in Hl; by destruct (Hl (b, (a, n)) ltac:(set_solver)) as (_ & ? & _)).
    destruct (kfree_large s bl fr hp sm bg1 b a n bg2 Hk (Hc Hl)) as (s' & bl' & fr' & E & Hk'). exists s'. split; [done|]. exists bl', fr', hp, sm, (bg1 ++ bg2). split; [done|]. cbn.
    rewrite fmap_app in Hp |- *. cbn in Hp. rewrite <- !Permutation_middle in Hp. by apply Permutation_cons_inv in Hp.
Qed.

Lemma kmalloc_run s gs n :
  heap_inv (s, gs) -> served n = true ->
  exists s' r, kmalloc alloc npage s n = Ok (s', r) /\ (n < SMALL -> r = None -> nr_free (harea s) = 0) /\ heap_inv (s', match r with Some a => (a, n) :: gs | None => gs end).
Proof.
  intros (bl & fr & hp & sm & bg & Hk & Hp) Hn. cbn in Hk, Hp. assert (Hn' : 0 < n < SMALL \/ LARGE <= n).
  { unfold served in Hn. apply orb_prop in Hn as [Hn|Hn]; [left; lia|right]. apply andb_prop in Hn as [Hn _]. lia. }
  destruct Hn' as [Hn'|Hn'].
  - destruct (kmalloc_small s bl fr hp sm bg n Hk Hn') as (s' & r & E & Hr). exists s', r. split; [done|]. destruct r as [a|].
    + destruct Hr as (bl' & fr' & hp' & Hk'). split; [done|]. exists bl', fr', hp', ((a, n) :: sm), bg. split; [done|]. cbn. by rewrite Hp.
    + destruct Hr as [-> Hz]. split; [intros _ _; by rewrite (fl_count _ _ _ _ (fo_area _ _ _ _ _ (kh_frames _ _ _ _ _ _ Hk)))|]. by exists bl, fr, hp, sm, bg.
  - destruct (kmalloc_large s bl fr hp sm bg n Hk Hn Hn') as (s' & r & bl' & fr' & hp' & E & Hr). exists s', r. split; [done|]. split; [unfold SMALL, LARGE, SLOB_UNIT in *; lia|]. destruct r as [a|].
    + destruct Hr as (b & Hk'). exists bl', fr', hp', sm, ((b, (a, n)) :: bg). split; [done|]. cbn. rewrite Hp. by rewrite Permutation_middle.
    + by exists bl', fr', hp', sm, bg.
Qed.

Lemma heap_step_inv st st' : heap_inv st -> heap_step st st' -> heap_inv st'.
Proof.
  intros Hi. destruct 1 as [s gs n s' a Hn E|s gs n s' Hn E|s gs1 a n gs2 s' Hc E|s gs c Hc].
  - destruct (kmalloc_run s gs n Hi Hn) as (s1 & r & E1 & _ & Hi'). rewrite E in E1. by simplify_eq.
  - destruct (kmalloc_run s gs n Hi Hn) as (s1 & r & E1 & _ & Hi'). rewrite E in E1. by simplify_eq.
  - destruct Hi as (bl & fr & hp & sm & bg & Hk & Hp). cbn in Hk, Hp. destruct (kfree_run s bl fr hp sm bg (gs1 ++ gs2) a n Hk) as (s1 & E1 & Hi'); [by rewrite Permutation_middle|done|]. rewrite E in E1. by simplify_eq.
  - destruct Hi as (bl & fr & hp & sm & bg & Hk & Hp). cbn in Hk, Hp. exists bl, fr, hp, sm, bg. split; [|done]. apply (kheap_write s); [done|].
    intros x Hx. apply Hc. intros Hx'. apply Hx. eapply covers_perm; [|exact Hx']. by rewrite Hp.
Qed.
End Client.

(** * Properties *)

(** C2. The kernel heap, over any page allocator that keeps its contract.  [arena] is a word
    of the kernel's data, and the free pages lie above it, from the unit [lo] on.  Clients ask
    for memory of the sizes the heap can serve ([served]: not 0, not the sizes from [SMALL]
    to [LARGE], which stop the kernel, and none that [find_order] rounds down), give grants
    back, a big one only where the page allocator accepts it ([can_free]), and write into
    what they were given.  Then no two grants ever overlap, every further request of a size
    the heap can serve returns (a small one with no memory only when no page is free), and
    every grant can be given back (a big one where the page allocator accepts it). *)
Theorem kmalloc_grants_disjoint `{PageAllocator alloc free} npg arena lo a bl s gs :
  npg <= 2 ^ 22 -> KERNBASE_UNIT <= lo <= PAGE_UNITS * npg -> arena + 1 < lo -> fl_inv npg 0 a bl -> (forall i, covers bl i -> lo <= PAGE_UNITS * i) ->
  rtc (heap_step (alloc := alloc) (free := free) npg) (heap_init arena a, []) (s, gs) ->
  ForallOrdPairs (fun g g' => ~ overlap (region g) (region g')) gs /\
  (forall n, served n = true -> exists s' r, kmalloc alloc (npg + nbase) s n = Ok (s', r) /\ (n < SMALL -> r = None -> nr_free (harea s) = 0)) /\
  (forall g, g ∈ gs -> (LARGE <= g.2 -> can_free (harea s) (g.1 / PAGE_UNITS)) -> exists s', kfree free (npg + nbase) s (Some g.1) = Ok s').
Proof.
  intros Hnpg Hlo Ha Hfl Hc Hr. assert (Hi : heap_inv npg arena lo (s, gs)).
  { assert (H0 : heap_inv npg arena lo (heap_init arena a, [])) by (exists bl, [], [], [], []; split; [by apply kheap_init|done]).
    revert H0. induction Hr as [|? ? ? Hs _ IH]; [done|]. intros H0. eapply IH, (heap_step_inv npg arena lo Hnpg); done. }
  split_and!.
  - destruct Hi as (bl' & fr & hp & sm & bg & Hk & Hp). cbn in Hk, Hp. pose proof (regions_apart _ _ _ _ _ _ _ _ _ Hk) as Hap. rewrite <- Hp in Hap. clear -Hap.
    induction gs as [|g gs IH]; [constructor|]. cbn in Hap. apply apart_cons in Hap as [H1 H2]. constructor; [|by apply IH]. by rewrite Forall_fmap in H1.
  - intros n Hn. destruct (kmalloc_run npg arena lo Hnpg s gs n Hi Hn) as (s' & r & ? & ? & _). eauto.
  - intros [b n] Hin Hcf. destruct Hi as (bl' & fr & hp & sm & bg & Hk & Hp). cbn in Hk, Hp. apply elem_of_Permutation in Hin as [gs' Hgs].
    destruct (kfree_run npg arena lo Hnpg s bl' fr hp sm bg gs' b n Hk) as (s' & ? & _); [by rewrite <- Hgs|done|]. eauto.
Qed.

(** A heap over first fit: the kernel's image is in the pages from 512 (at [KERNBASE]), with
    [arena] in page 514, and the 24 pages from 516 are free. *)
Definition example_area : free_area :=
  match s ← default_init (boot 540); default_init_memmap s 516 24 with Ok s => s | _ => boot 0 end.
Definition example_arena : Z := PAGE_UNITS * 514 + 7.
Definition example_heap : heap := heap_init example_arena example_area.
Abbreviation example_kmalloc := (kmalloc default_alloc_pages (540 + nbase)).
Abbreviation example_kfree := (kfree default_free_pages (540 + nbase)).

Lemma example_area_ok : fl_inv 540 0 example_area [(516, 24)].
Proof.
  destruct (default_boot 540 (boot 540) 516 24) as (s1 & s2 & H1 & H2 & Hi); [by apply (boot_all_reserved 540)|lia..|].
  unfold example_area. rewrite H1. cbn [mbind res_bind]. rewrite H2. by destruct Hi; split.
Qed.

Lemma first_pair {A} (R : A -> A -> Prop) x y l : ForallOrdPairs R (x :: y :: l) -> R x y.
Proof. inversion 1 as [|? ? Hx _]. by apply Forall_cons in Hx as [Hx _]. Qed.

Lemma two_grants (r : res (heap * option Z)) (k : heap -> res (heap * option Z)) :
  match r with Ok (s1, Some _) => match k s1 with Ok (_, Some _) => true | _ => false end | _ => false end = true ->
  exists s1 s2 a b, r = Ok (s1, Some a) /\ k s1 = Ok (s2, Some b).
Proof. destruct r as [[s1 [a|]]| | |]; try done. destruct (k s1) as [[s2 [b|]]| | |] eqn:E; try done. intros _. by exists s1, s2, a, b. Qed.

Lemma kmalloc_grants_disjoint_witness :
  exists s1 s2 a b, example_kmalloc example_heap 100 = Ok (s1, Some a) /\ example_kmalloc s1 8192 = Ok (s2, Some b) /\
    ~ overlap (region (b, 8192)) (region (a, 100)) /\ (exists s3, example_kfree s2 (Some a) = Ok s3) /\ exists s3 r, example_kmalloc s2 4000 = Ok (s3, r).
Proof.
  destruct (two_grants (example_kmalloc example_heap 100) (fun s => example_kmalloc s 8192)) as (s1 & s2 & a & b & E1 & E2); [vm_compute; reflexivity|].
  exists s1, s2, a, b. split; [done|]. split; [done|].
  destruct (kmalloc_grants_disjoint (alloc := default_alloc_pages) (free := default_free_pages) 540 example_arena (PAGE_UNITS * 516) example_area [(516, 24)] s2 [(b, 8192); (a, 100)]) as (Hd & Hm & Hf); [lia|split; vm_compute; discriminate|reflexivity|apply example_area_ok| | |].
  - intros i [Hi|[]%covers_nil]%covers_cons. rewrite PAGE_UNITS_eq. lia.
  - eapply rtc_l; [eapply (StepKmalloc _ _ [] 100); [reflexivity|exact E1]|]. eapply rtc_l; [eapply (StepKmalloc _ _ _ 8192); [reflexivity|exact E2]|]. apply rtc_refl.
  - split; [|split].
    + by apply first_pair in Hd.
    + apply (Hf (a, 100) ltac:(right; left)). unfold LARGE, PAGE_SIZE, SLOB_UNIT. cbn [snd]. lia.
    + destruct (Hm 4000) as (s3 & r & ? & _); [reflexivity|eauto].
Defined.

(** The sizes the heap cannot serve. *)
Example kmalloc_4064_panics : example_kmalloc example_heap 4064 = Panic.
Proof. vm_compute. reflexivity. Qed.

Example kmalloc_8193_short : find_order 8193 = Ok 1 /\ PAGE_SIZE * 2 ^ 1 < 8193.
Proof. split; reflexivity. Qed.

Example kmalloc_0_arena : match example_kmalloc example_heap 0 with Ok (_, r) => r = Some (example_arena + 1) | _ => False end.
Proof. vm_compute. reflexivity. Qed.
